(* ===== verification/_CoqProject ===== *)
-Q . S2P
Prelude.v
CInt.v
Fe.v
Prime25519.v
FeSpec.v
FeBytes.v
Sc.v
ScSpec.v
Sha512.v
Sha512Spec.v
Curve.v
GeData.v
Ge.v
GeSpec.v
GeBytes.v
GeTable.v
GeMul.v
GeDouble.v
Ed25519.v
Ed25519Spec.v
Ed25519Theorems.v
ArithTheorems.v
GroupTheorems.v
CString.v
World.v
Radix.v
Json.v
Creds.v
CredsFile.v
Bearer.v
CredsConfig.v
Steady.v
CredsSpec.v
CredsReplace.v
CredsFileSpec.v
CredsRead.v
BearerSpec.v
CredsSave.v
CredsConfigSpec.v
CredsConfigSet.v
CredsConfigFile.v
CredsNames.v
CredsResolve.v
CredsTheorems.v
ConfigTheorems.v
Http.v
HttpSpec.v
HttpTheorems.v
Threads.v
Server.v
ServerSpec.v
ServerRun.v
ServerLoop.v
ServerTheorems.v
Setup.v
SetupTheorems.v
Buffer.v
Encoding.v
XXHash.v
Blake3.v
Blake3Tree.v
Blake3Stream.v
HashSet.v
Hash.v
Handlers.v
HandlersSpec.v
HandlersTheorems.v
Cache.v
CacheSpec.v
CacheRun.v
CacheTheorems.v
Node.v
Builder.v
Tree.v
Store.v
Cursor.v
