(* ===== verification/Prelude.v ===== *)
(** * Verification of rusqdoltlite

    The repository binds a fork of SQLite with versioned storage, doltlite, to
    Rust.  Below [src/libdoltlite-sys/doltlite] lie the SQLite amalgamation
    with the prolly-tree storage engine ([doltlite.c]) and, under [remote], the
    code that talks to remote databases: a server, a TLS layer, credentials,
    and the Ed25519 signatures ([remote/ed25519]) with which a client proves
    its identity.  The development models the signature code completely, down
    to machine arithmetic, the credential code above it with its files and
    tokens, the server that relies on both, with its threads, and the pure
    layers of the storage engine.

    ** Conventions

    A byte is a [Z] in [0, 256), a buffer a [list Z]; [bytes_wf] says the bytes
    are bytes and [p +p off] is pointer arithmetic.  Undefined behaviour (a
    read or write outside a buffer, a signed overflow, a shift out of range)
    is [None], so a theorem that shows [Some] shows its absence.  A buffer a
    function writes through a pointer is an argument (its contents on entry)
    and a part of the result; contents of uninitialised locals are arguments.
    Unsigned words wrap explicitly ([u8], [u32], [u64]); signed ones are
    checked at every operation (CInt).  The compiler's arithmetic right shift
    of negative integers is assumed, as fe.c, sc.c and ge.c assume it.

    ** Ed25519: files and sources

    - [Fe.v] translates [fe.c], statement by statement, on ten checked limbs;
      [Prime25519.v] proves 2^255-19 prime (Pocklington) and gives the field;
      [FeSpec.v] and [FeBytes.v] show that each operation, inside the limb
      bounds of its comment, neither overflows nor leaves the bounds it
      promises, and computes its field operation.
    - [Sc.v] translates [sc.c]; [ScSpec.v] shows reduction and multiply-add
      modulo the group order to be exact and canonical.
    - [Sha512.v] translates [sha512.c]; [Sha512Spec.v] relates it to FIPS 180-4:
      constants, compression function, padding, streaming in any pieces.
    - [Curve.v] is the specification of the group: points of the twisted
      Edwards curve, completeness and associativity of the addition law.
    - [GeData.v] holds the tables of [precomp_data.h], [Ge.v] translates [ge.c]
      and the structs of [ge.h].  [GeSpec.v]: the class [Represents] says when
      one of the five structs stands for a point, and every addition, doubling
      and conversion refines the group operation.  [GeBytes.v]: compression
      and decompression.  [GeTable.v]: every table entry is the multiple of
      the base point it should be.  [GeMul.v], [GeDouble.v]: fixed-base and
      double-scalar multiplication, with the recodings they rest on.
    - [Ed25519.v] translates [keypair.c], [sign.c], [verify.c] and
      [add_scalar.c]; [Ed25519Spec.v] proves what each computes in terms of
      SHA-512, scalars modulo the order and points of the curve.

    ** Ed25519: the theorems

    [ArithTheorems.v]: field operations (absence of overflow, values, byte
    round trip, equivalence of squaring and multiplication, constant-time
    moves), scalar operations, SHA-512 (compression, streaming, constants,
    termination of the update loop).  [GroupTheorems.v]: the group operations
    refine the curve, the tables are right, the recodings keep the scalar and
    bound the digits, both multiplications compute the multiples they should,
    decompression accepts exactly the encodings of points, compression is
    injective and decompression inverts it.  [Ed25519Theorems.v]: the four
    functions of the interface always return; signing refines the scheme;
    verification decides the verification equation; what is signed with a
    created key, or with one moved by any sequence of scalars, verifies; the
    public halves of [ed25519_add_scalar] agree with the private ones; and the
    edges: [s + l] is accepted next to [s], the identity is accepted as a key,
    and adding a scalar to bytes that are no point goes on regardless.
    What is not shown is cryptographic: unforgeability, collision resistance.

    ** Credentials: files and sources

    [remote/doltlite_creds.c] keeps Ed25519 keys in files, makes and checks the
    bearer tokens that clients send to servers, and selects the key for a
    remote.  Every function of it is modelled, on its POSIX branches.

    - [CString.v]: C strings ([str_wf]: no NUL) and [doltlite_parse.h].
    - [World.v]: the environment.  A computation [M A] takes a [world] (files,
      directories, environment variables, the number of allocated blocks) and
      returns, crashes, or is undefined.  Each allocation and system call takes
      the next [choice] of the world: to succeed, to fail, to be interrupted,
      to do a part of the work, or to crash there; an exhausted list means
      success ([calm]: nothing fails any more).  Files are inodes under names;
      written data is certain to survive a crash only after [fsync], a changed
      name only after [fsync] of its directory ([after_crash]).  [wpM m Q E w]
      says that from [w] the computation is defined, returns with [Q] or
      crashes with [E]; [tr] is its form for code that changes memory only,
      with the balance of blocks, [rd] of [CredsRead.v] for code that also
      reads files.  [let~] is a block that is freed on return.
    - [Radix.v] (base 32 and 64), [Json.v] (the JSON scanner), [Creds.v] (keys,
      names, tokens, JWK texts), [CredsFile.v] (saving, loading and listing
      keys), [Bearer.v] (the check of a token), [CredsConfig.v] (the
      configuration file, names of remotes and keys, selection) translate the
      file in its order.
    - [CredsSpec.v], [CredsFileSpec.v], [CredsReplace.v], [CredsRead.v],
      [BearerSpec.v], [CredsSave.v], [CredsConfigSpec.v], [CredsConfigSet.v],
      [CredsConfigFile.v], [CredsNames.v], [CredsResolve.v] prove what they do;
      [Steady.v]: where nothing fails, nothing crashes.

    ** Credentials: the theorems

    [CredsTheorems.v]: a file is replaced atomically and durably whatever fails
    and wherever a crash comes, and is replaced when nothing fails; a saved key
    is loaded back; an issued token is accepted; what is accepted is a token
    signed by a key of the directory, for the audience, in its time, and with
    no failing call all those are accepted; private key files are refused;
    key names, base 64, decimal numbers and the JSON scanner are exact and
    safe.  [ConfigTheorems.v]: changing a setting is atomic, refines the update
    of the parsed settings, is read back, and refuses bad input; the selection
    of a key follows its order; equal remotes have equal keys; and the limits:
    a failing [readdir] shortens a list, the audience is not escaped, long
    lines of other programs are dropped.  "Never undefined" is part of every
    [wpM]: no write outside a block, no overflow, and fuel that suffices; so
    is the count of blocks, where it is stated: no leak and no double free.

    ** The remote server: files and sources

    [remote/doltlite_remotesrv.c] serves databases over HTTP.  One thread
    accepts connections and collects requests; complete ones go into a queue,
    from which four workers take them; a stop may come at any time.

    - [Http.v] translates the reading of requests: the header block, its
      length and token, the path, the name of the database, the choice of the
      endpoint.  [HttpSpec.v]: what these accept, and the text a client writes.
    - [Threads.v]: programs over a shared state as trees of atomic actions,
      questions to the environment and loops; [step] interleaves the threads.
      [wp J p r Q] is a logic in which a thread owns a part [r] of what the
      invariant [J] accounts for, any commutative monoid ([Resource]); its
      adequacy is that no interleaving goes wrong and that what the threads
      own at the end adds up.  [alone p s Q]: a program that is not disturbed
      ends with [Q] whatever is answered.
    - [Server.v] translates the threads: [pendingIngest] and its parts,
      [serverLoop], [enqueueJob], [serverWorkerEntry], [serverRequestStop].  A
      critical section is one action, waiting for [workReady] is waiting for
      its condition; the network, the clock and the allocator answer anything.
      [ServerSpec.v] accounts for sockets, blocks and bytes of the budget,
      [ServerRun.v] and [ServerLoop.v] prove the operations keep the account.
    - [Setup.v] translates [serverInit], [serverCleanup] and the starting and
      stopping of the server; the state counts what the process holds.
    - [Handlers.v] translates the endpoints as programs that call the chunk
      store, which answers anything its interface allows; the state is the
      list of the calls with their answers.  It also has the text of the
      responses.  [HandlersSpec.v]: what every endpoint does alone.
    - [Cache.v] translates the cache of open stores, a linked list of handles
      with reservations and a mutex each, and [handleRequest] as a whole, for
      several workers.  [on_store] runs a program of [Handlers.v] on the store
      of a handle.  [CacheSpec.v]: the list and the eviction.  [CacheRun.v]:
      a worker owns its reservation or the lock of a handle, and with the lock
      what a program does alone it does on the store.

    ** The remote server: the theorems

    [HttpTheorems.v]: the status of a request is 200 only with a valid token,
    the worker's second reading agrees with the one that was checked, a
    client's request is read back, and a served request stays in the server's
    directory.  [ServerTheorems.v]: in every interleaving no thread goes wrong
    and the bounds hold; what a worker serves was authorised and is complete;
    after a stop nothing is left open or allocated; the queue is a queue; and
    a stop may shut down a descriptor that is closed already.
    [HandlersTheorems.v]: a push of chunks is committed as a whole or not at
    all, a reply has a frame for every hash asked for, refs change only under
    the lock and after both checks, and every endpoint gives a complete
    response.  [CacheTheorems.v]: in every interleaving no store is misused and
    the cache keeps its bound; what an endpoint does among other requests is
    what it does alone, so that the theorems on endpoints hold of the server;
    the eviction takes the least recently used handle that is free; and at the
    end everything is closed.  [SetupTheorems.v]: a server is set up as a whole
    or not at all, and has an audience when it has keys, as the theorems on
    requests assume.

    ** The storage engine

    [Encoding.v] (key codecs and comparators), [XXHash.v], [Blake3.v],
    [Blake3Tree.v], [Blake3Stream.v] (BLAKE3: the one-call and the streaming
    hasher compute the tree hash), [HashSet.v] (the open-addressing set refines
    a finite set), [Hash.v], [Buffer.v], [Node.v] (parser of untrusted nodes,
    searches), [Builder.v] (the node builder, and that the parser reads back
    what it wrote), [Tree.v], [Store.v] and [Cursor.v] (cursor movement
    against the sorted contents of the tree) model the prolly part of
    [doltlite.c], which starts after its line 478000.  [NodeSource] in
    [Tree.v] is the interface between the cursor and whatever loads nodes.

    ** Fuel and bounds

    Loops with a counter are structural recursions on the number of
    iterations.  [update_loop] of [Sha512.v] takes fuel: any more than the
    number of bytes left is enough, since each turn consumes one or more, and
    the theorem on its termination shows the result for all such fuel.  The
    scanners of [Json.v] and the loop over settings take the length of their
    text plus one, each turn consuming a character; retried system calls and
    [write_loop] take the number of choices left, since only a choice can
    interrupt them, plus the bytes to write.  That this is enough is part of
    the theorems, as running out of fuel is [Undefined].  In the server,
    [header_loop] takes the length of the block plus one, [drain_queue] one
    more than the queue can hold, the doublings of a buffer 32 steps (from
    4096 bytes to at most 2^30), [get_loop] the number of hashes and
    [store_loop] the number of bytes, the loops over the cached handles their
    number; running out is [Wrong], which the theorems exclude.  Strings are below
    2^30 bytes and configuration files below 2^29, so that sizes fit an [int].
    The byte count of SHA-512 is kept modulo 2^64 bits as in the code; its theorems ask for
    inputs below 2^61 bytes.  The limb bounds are [fe_bd n]: even limbs
    up to n/100 of 2^25, odd ones up to n/100 of 2^24, so that the 1.1 * 2^25
    of the comments of fe.c is [fe_bd 110].

    ** Not modelled

    SQLite itself, the chunk store's files and locks, commits, merges and
    diffs, TLS and its bundled library, the network block cache and the Rust
    wrappers: input and output or third-party code of its own scale.  Of the
    remote server, the entry points for tests and the wrappers that fill in
    default options are left out; what a connection does with the bytes it is
    given is not observed, and the threads of [Server.v] record that a job is
    handled, which [Cache.v] models for any jobs.  Timing of the constant-time routines is not
    modelled, only their results.  Of the credential code, the Windows
    branches, file modes and the erasure of memory ([memset] before [free])
    are left out; path names are literal (no links, no [.] or [..]); the
    allocator of SQLite is its contract (a block or NULL for each size); a
    lock is taken or fails, other processes do not appear; buffered output
    reaches the file at the call that writes it, unsynced.

    This file holds what the others share: result codes, buffers, byte-order
    codecs, and lemmas on lists and integers. *)
From Stdlib Require Export ZArith Lia.
From stdpp Require Export base list list_numbers gmap numbers sorting.

#[global] Open Scope Z_scope.

Create HintDb prolly discriminated.
Create Rewrite HintDb prolly_rw.

(** * Result codes and results

    A C function of the program reports an [int] result code.  A function that
    hands out a value only on [SQLITE_OK] is a [result]; undefined behaviour
    (a read outside a buffer, a failed [assert], a signed overflow) is [None]
    of an [option] around it, so a theorem that shows [Some] shows its absence. *)

Definition SQLITE_OK : Z := 0.
Definition SQLITE_ERROR : Z := 1.
Definition SQLITE_NOMEM : Z := 7.
Definition SQLITE_CORRUPT : Z := 11.
Definition SQLITE_NOTFOUND : Z := 12.
Definition SQLITE_FULL : Z := 13.
Definition SQLITE_TOOBIG : Z := 18.
Definition SQLITE_MISUSE : Z := 21.
Definition SQLITE_ROW : Z := 100.
Definition SQLITE_DONE : Z := 101.

Inductive result (A : Type) : Type :=
| OK (a : A)
| ERR (rc : Z).
Arguments OK {A} a.
Arguments ERR {A} rc.

(** [C A]: a computation that may be undefined, may fail with a result code. *)
Definition C (A : Type) : Type := option (result A).
Definition ret {A} (a : A) : C A := Some (OK a).
Definition err {A} (rc : Z) : C A := Some (ERR rc).
Definition ub {A} : C A := None.
Definition bindC {A B} (m : C A) (k : A -> C B) : C B :=
  match m with
  | Some (OK a) => k a
  | Some (ERR rc) => Some (ERR rc)
  | None => None
  end.
(** A read of memory: undefined when the location is outside the buffer. *)
Definition read {A} (m : option A) : C A :=
  match m with Some a => ret a | None => ub end.

Declare Scope prolly_scope.
Delimit Scope prolly_scope with prolly.
#[global] Open Scope prolly_scope.
Notation "'let!' x := m 'in' k" := (bindC m (fun x => k))
  (at level 10, x pattern, k at level 200) : prolly_scope.
Notation "'let?' x := m 'in' k" := (match m with Some x => k | None => None end)
  (at level 10, x pattern, k at level 200) : prolly_scope.

(** A function that updates an object returns its result code with the object;
    [let@ s := m in k] is [rc = m; if( rc ) return rc; k]. *)
Definition bind_rc {S} (m : option (Z * S)) (k : S -> option (Z * S)) : option (Z * S) :=
  match m with
  | None => None
  | Some (rc, s) => if rc =? SQLITE_OK then k s else Some (rc, s)
  end.
Notation "'let@' x := m 'in' k" := (bind_rc m (fun x => k))
  (at level 10, x binder, m at level 200, k at level 200) : prolly_scope.

Lemma bindC_ret {A B} (a : A) (k : A -> C B) : bindC (ret a) k = k a.
Proof. reflexivity. Qed.

Lemma bindC_OK {A B} (m : C A) (k : A -> C B) b :
  bindC m k = Some (OK b) <-> exists a, m = Some (OK a) /\ k a = Some (OK b).
Proof.
  destruct m as [[a|rc]|]; simpl; split; try (intros (? & ? & ?)); try congruence; eauto.
Qed.

Lemma read_OK {A} (m : option A) a : read m = Some (OK a) <-> m = Some a.
Proof. destruct m; simpl; unfold ret, ub; naive_solver. Qed.

#[export] Hint Rewrite @bindC_ret : prolly_rw.

(** * Machine integers *)

Definition INT_MAX : Z := 2147483647.

Definition u8 (z : Z) : Z := z mod 2 ^ 8.
Definition u16 (z : Z) : Z := z mod 2 ^ 16.
Definition u32 (z : Z) : Z := z mod 2 ^ 32.
Definition u64 (z : Z) : Z := z mod 2 ^ 64.

(** The two's complement reading of a 64-bit pattern. *)
Definition i64 (z : Z) : Z := (z + 2 ^ 63) mod 2 ^ 64 - 2 ^ 63.

(** The conversion [(int)] of a 32-bit pattern. *)
Definition i32 (z : Z) : Z := (z + 2 ^ 31) mod 2 ^ 32 - 2 ^ 31.

(** A signed [int] expression: undefined outside the range of the type. *)
Definition int (z : Z) : option Z :=
  if (-2147483648 <=? z) && (z <=? INT_MAX) then Some z else None.

Definition is_i64 (z : Z) : Prop := - 2 ^ 63 <= z < 2 ^ 63.
Definition is_u64 (z : Z) : Prop := 0 <= z < 2 ^ 64.
Definition is_u32 (z : Z) : Prop := 0 <= z < 2 ^ 32.
Definition is_byte (z : Z) : Prop := 0 <= z < 256.
Definition bytes_wf (l : list Z) : Prop := Forall is_byte l.

Ltac unfold_ranges := unfold is_i64, is_u64, is_u32, is_byte in *.
Ltac cases_bool :=
  repeat match goal with
  | H : context [?a =? ?b] |- _ => destruct (Z.eqb_spec a b)
  | H : context [?a <? ?b] |- _ => destruct (Z.ltb_spec a b)
  | H : context [?a <=? ?b] |- _ => destruct (Z.leb_spec a b)
  | |- context [?a =? ?b] => destruct (Z.eqb_spec a b)
  | |- context [?a <? ?b] => destruct (Z.ltb_spec a b)
  | |- context [?a <=? ?b] => destruct (Z.leb_spec a b)
  end.

Lemma int_in_range z : -2147483648 <= z <= INT_MAX -> int z = Some z.
Proof. intros H. unfold int. cases_bool; simpl; try done; unfold INT_MAX in *; lia. Qed.

Lemma u8_byte z : is_byte (u8 z).
Proof. unfold u8, is_byte. apply (Z.mod_pos_bound z 256). lia. Qed.

Lemma u8_small z : is_byte z -> u8 z = z.
Proof. intros H. apply Z.mod_small. unfold is_byte in H. lia. Qed.

Lemma u32_small z : is_u32 z -> u32 z = z.
Proof. apply Z.mod_small. Qed.

Lemma u32_range z : is_u32 (u32 z).
Proof. apply Z.mod_pos_bound. lia. Qed.

Lemma u64_small z : is_u64 z -> u64 z = z.
Proof. apply Z.mod_small. Qed.

Lemma u64_range z : is_u64 (u64 z).
Proof. apply Z.mod_pos_bound. lia. Qed.

Lemma i32_small z : 0 <= z <= INT_MAX -> i32 z = z.
Proof. intros. unfold i32, INT_MAX in *. rewrite Z.mod_small; lia. Qed.

Lemma i32_u32_small z : 0 <= z <= INT_MAX -> i32 (u32 z) = z.
Proof.
  unfold i32, u32, INT_MAX. intros H. rewrite (Z.mod_small z) by lia. rewrite Z.mod_small; lia.
Qed.

Lemma i64_range z : is_i64 (i64 z).
Proof.
  unfold is_i64, i64. pose proof (Z.mod_pos_bound (z + 2 ^ 63) (2 ^ 64)). lia.
Qed.

Lemma i64_u64 z : is_i64 z -> i64 (u64 z) = z.
Proof.
  unfold is_i64, i64, u64. intros H.
  rewrite Z.add_mod_idemp_l by lia. rewrite Z.mod_small; lia.
Qed.

Lemma u64_i64 z : is_u64 z -> u64 (i64 z) = z.
Proof.
  unfold is_u64, i64, u64. intros H. rewrite Zminus_mod_idemp_l.
  replace (z + 2 ^ 63 - 2 ^ 63) with z by lia. by apply Z.mod_small.
Qed.

#[export] Hint Resolve u8_byte u32_range u64_range i64_range : prolly.
#[export] Hint Rewrite u8_small u32_small u64_small using done : prolly_rw.

(** Disjoint bit fields: [|] is [+]. *)
Lemma testbit_high a n k : 0 <= a < 2 ^ n -> 0 <= n <= k -> Z.testbit a k = false.
Proof. intros Ha Hn. apply (Z.bounded_iff_bits_nonneg n a); lia. Qed.

Lemma land_disjoint a b n : 0 <= n -> 0 <= a < 2 ^ n -> Z.land a (Z.shiftl b n) = 0.
Proof.
  intros Hn Ha. apply Z.bits_inj_iff'. intros k Hk. rewrite Z.land_spec, Z.bits_0.
  destruct (decide (k < n)); [by rewrite Z.shiftl_spec_low, andb_false_r by lia|].
  by rewrite (testbit_high a n k) by lia.
Qed.

Lemma lor_shiftl_add a b n : 0 <= n -> 0 <= a < 2 ^ n -> Z.lor a (Z.shiftl b n) = a + b * 2 ^ n.
Proof.
  intros Hn Ha. rewrite <- Z.shiftl_mul_pow2 by lia.
  pose proof (land_disjoint a b n Hn Ha) as E.
  by rewrite Z.add_nocarry_lxor, Z.lxor_lor.
Qed.

Lemma lxor_top_bit n u :
  0 <= n -> 0 <= u < 2 ^ (n + 1) ->
  Z.lxor u (2 ^ n) = (u + 2 ^ n) mod 2 ^ (n + 1).
Proof.
  intros Hn Hu. assert (2 ^ (n + 1) = 2 * 2 ^ n) as E by (rewrite Z.pow_add_r; lia).
  assert (2 ^ n = Z.shiftl 1 n) as Ep by (rewrite Z.shiftl_mul_pow2; lia).
  destruct (decide (u < 2 ^ n)) as [Hlt|Hge].
  - rewrite Z.mod_small by lia. rewrite Ep at 1.
    rewrite Z.lxor_lor by (apply land_disjoint; lia). rewrite lor_shiftl_add; lia.
  - replace (u + 2 ^ n) with ((u - 2 ^ n) + 1 * 2 ^ (n + 1)) by lia.
    rewrite Z.mod_add, Z.mod_small by lia.
    set (v := u - 2 ^ n). assert (u = Z.lxor v (Z.shiftl 1 n)) as Eu.
    { rewrite Z.lxor_lor by (apply land_disjoint; lia). rewrite lor_shiftl_add; lia. }
    rewrite Eu. by rewrite Ep, Z.lxor_assoc, Z.lxor_nilpotent, Z.lxor_0_r.
Qed.

(** * Pointers into byte buffers

    A pointer is the suffix of the buffer that starts at it; reading past the
    end of the buffer is a read of the empty list. *)

Definition ptr_add {A} (p : list A) (off : Z) : list A := drop (Z.to_nat off) p.
Notation "p '+p' off" := (ptr_add p off) (at level 50, left associativity) : prolly_scope.

(** [n] bytes at [p]; undefined when the buffer is shorter. *)
Definition bytes_at {A} (p : list A) (n : Z) : option (list A) :=
  if (0 <=? n) && (n <=? Z.of_nat (length p)) then Some (take (Z.to_nat n) p) else None.

Abbreviation zlen l := (Z.of_nat (length l)).

Lemma ptr_add_0 {A} (p : list A) : p +p 0 = p.
Proof. reflexivity. Qed.

Lemma ptr_add_add {A} (p : list A) a b : 0 <= a -> 0 <= b -> p +p a +p b = p +p (a + b).
Proof. intros. unfold ptr_add. rewrite drop_drop. f_equal. lia. Qed.

Lemma ptr_add_app {A} (p q : list A) off : off = zlen p -> (p ++ q) +p off = q.
Proof. intros ->. unfold ptr_add. rewrite Nat2Z.id. apply drop_app_length. Qed.

Lemma ptr_add_app_le {A} (p q : list A) off :
  0 <= off <= zlen p -> (p ++ q) +p off = (p +p off) ++ q.
Proof. intros. unfold ptr_add. apply drop_app_le. lia. Qed.

Lemma length_ptr_add {A} (p : list A) off :
  0 <= off -> zlen (p +p off) = Z.max 0 (zlen p - off).
Proof. intros. unfold ptr_add. rewrite length_drop. lia. Qed.

Lemma bytes_at_Some {A} (p : list A) n :
  0 <= n <= zlen p -> bytes_at p n = Some (take (Z.to_nat n) p).
Proof. intros. unfold bytes_at. cases_bool; simpl; [done|lia..]. Qed.

Lemma bytes_at_app {A} (p q : list A) n : n = zlen p -> bytes_at (p ++ q) n = Some p.
Proof.
  intros ->. rewrite bytes_at_Some by (rewrite length_app; lia).
  by rewrite Nat2Z.id, take_app_length.
Qed.

Lemma bytes_at_length {A} (p : list A) n l : bytes_at p n = Some l -> zlen l = n.
Proof.
  unfold bytes_at. cases_bool; simpl; intros; simplify_eq. rewrite length_take. lia.
Qed.

Definition bytes_wfb (l : list Z) : bool := forallb (fun b => (0 <=? b) && (b <? 256)) l.

Lemma bytes_wfb_spec l : bytes_wfb l = true -> bytes_wf l.
Proof.
  unfold bytes_wfb. rewrite forallb_forall. intros H. apply Forall_forall. intros b Hb.
  apply list_elem_of_In in Hb. specialize (H b Hb).
  rewrite andb_true_iff, Z.leb_le, Z.ltb_lt in H. done.
Qed.

Lemma bytes_wf_app l k : bytes_wf (l ++ k) <-> bytes_wf l /\ bytes_wf k.
Proof. apply Forall_app. Qed.

Lemma bytes_wf_take n l : bytes_wf l -> bytes_wf (take n l).
Proof. apply Forall_take. Qed.

Lemma bytes_wf_drop n l : bytes_wf l -> bytes_wf (drop n l).
Proof. apply Forall_drop. Qed.

#[export] Hint Resolve bytes_wf_take bytes_wf_drop : prolly.

(** * Byte order *)

Fixpoint le_decode (l : list Z) : Z :=
  match l with [] => 0 | b :: l => b + 256 * le_decode l end.
Fixpoint le_encode (n : nat) (v : Z) : list Z :=
  match n with O => [] | S n => u8 v :: le_encode n (v / 256) end.

Definition be_decode (l : list Z) : Z := foldl (fun acc b => acc * 256 + b) 0 l.
Definition be_encode (n : nat) (v : Z) : list Z := reverse (le_encode n v).

Lemma length_le_encode n v : length (le_encode n v) = n.
Proof. revert v. induction n; intros; simpl; auto. Qed.

Lemma le_encode_wf n v : bytes_wf (le_encode n v).
Proof. revert v. induction n as [|n IH]; intros; simpl; constructor; [apply u8_byte|apply IH]. Qed.

Lemma le_decode_bound l : bytes_wf l -> 0 <= le_decode l < 256 ^ zlen l.
Proof.
  induction 1 as [|b l Hb _ IH]; simpl le_decode; [simpl; lia|].
  rewrite length_cons, Nat2Z.inj_succ, Z.pow_succ_r by lia. unfold is_byte in Hb. lia.
Qed.

Lemma le_decode_encode n v : 0 <= v < 256 ^ Z.of_nat n -> le_decode (le_encode n v) = v.
Proof.
  revert v. induction n as [|n IH]; intros v Hv; simpl le_decode; [simpl in Hv; lia|].
  rewrite Nat2Z.inj_succ, Z.pow_succ_r in Hv by lia.
  rewrite IH by (split; [apply Z.div_pos; lia|apply Z.div_lt_upper_bound; lia]).
  unfold u8. change (2 ^ 8) with 256. pose proof (Z.div_mod v 256). lia.
Qed.

Lemma le_encode_decode l : bytes_wf l -> le_encode (length l) (le_decode l) = l.
Proof.
  induction 1 as [|b l Hb _ IH]; simpl; [done|]. unfold is_byte in Hb.
  rewrite (Z.mul_comm 256). rewrite Z.div_add, Z.div_small, Z.add_0_l by lia.
  rewrite IH. f_equal. unfold u8. change (2 ^ 8) with 256. rewrite Z.mod_add by lia.
  by apply Z.mod_small.
Qed.

Lemma be_decode_app l k : be_decode (l ++ k) = be_decode l * 256 ^ zlen k + be_decode k.
Proof.
  unfold be_decode. rewrite foldl_app. generalize (foldl (fun acc b => acc * 256 + b) 0 l).
  intros a. revert a. induction k as [|b k IH] using rev_ind; intros a; simpl; [lia|].
  rewrite !foldl_snoc, IH, length_app. simpl.
  rewrite Nat.add_1_r, Nat2Z.inj_succ, Z.pow_succ_r by lia. lia.
Qed.

Lemma be_decode_reverse l : be_decode (reverse l) = le_decode l.
Proof.
  induction l as [|b l IH]; [done|]. rewrite reverse_cons, be_decode_app, IH. simpl.
  unfold be_decode. simpl. lia.
Qed.

Lemma be_decode_bound l : bytes_wf l -> 0 <= be_decode l < 256 ^ zlen l.
Proof.
  intros H. rewrite <- (reverse_involutive l), be_decode_reverse, length_reverse.
  apply le_decode_bound. by apply Forall_reverse.
Qed.

Lemma be_decode_cons b l : be_decode (b :: l) = b * 256 ^ zlen l + be_decode l.
Proof. apply (be_decode_app [b] l). Qed.

Lemma length_be_encode n v : length (be_encode n v) = n.
Proof. unfold be_encode. by rewrite length_reverse, length_le_encode. Qed.

Lemma be_encode_wf n v : bytes_wf (be_encode n v).
Proof. apply Forall_reverse, le_encode_wf. Qed.

Lemma be_decode_encode n v : 0 <= v < 256 ^ Z.of_nat n -> be_decode (be_encode n v) = v.
Proof. intros. unfold be_encode. rewrite be_decode_reverse. by apply le_decode_encode. Qed.

Lemma be_encode_decode l : bytes_wf l -> be_encode (length l) (be_decode l) = l.
Proof.
  intros H. rewrite <- (reverse_involutive l), be_decode_reverse, length_reverse.
  unfold be_encode. f_equal. apply le_encode_decode. by apply Forall_reverse.
Qed.

#[export] Hint Resolve le_encode_wf be_encode_wf : prolly.
#[export] Hint Rewrite length_le_encode length_be_encode : prolly_rw.

(** * Lexicographic order of byte strings, the order of keys *)

#[global] Arguments Z.compare : simpl never.

Fixpoint lexcmp (a b : list Z) : comparison :=
  match a, b with
  | [], [] => Eq
  | [], _ :: _ => Lt
  | _ :: _, [] => Gt
  | x :: a, y :: b => match x ?= y with Eq => lexcmp a b | c => c end
  end.
Definition key_lt (a b : list Z) : Prop := lexcmp a b = Lt.

Lemma lexcmp_refl a : lexcmp a a = Eq.
Proof. induction a; simpl; [done|]. by rewrite Z.compare_refl. Qed.

Lemma lexcmp_eq a b : lexcmp a b = Eq <-> a = b.
Proof.
  split; [|intros ->; apply lexcmp_refl]. revert b.
  induction a as [|x a IH]; intros [|y b]; simpl; try done.
  destruct (Z.compare_spec x y); intros; try done. subst. f_equal. by apply IH.
Qed.

Lemma lexcmp_antisym a b : lexcmp b a = CompOpp (lexcmp a b).
Proof.
  revert b. induction a as [|x a IH]; intros [|y b]; simpl; try done.
  rewrite (Z.compare_antisym x y). destruct (x ?= y); simpl; auto.
Qed.

#[export] Instance key_lt_trans : Transitive key_lt.
Proof.
  unfold key_lt. intros a b. revert a.
  induction b as [|y b IH]; intros [|x a] [|z c]; simpl; try done.
  destruct (Z.compare_spec x y), (Z.compare_spec y z); intros; try done; subst.
  all: try (destruct (Z.compare_spec x z); try lia; done).
  - rewrite Z.compare_refl. eauto.
  - destruct (Z.compare_spec y z); try lia; done.
Qed.

#[export] Instance key_lt_irrefl : Irreflexive key_lt.
Proof. intros a H. unfold key_lt in H. by rewrite lexcmp_refl in H. Qed.

#[export] Instance key_lt_strict : StrictOrder key_lt.
Proof. split; apply _. Qed.

#[export] Instance key_lt_dec a b : Decision (key_lt a b).
Proof. unfold key_lt. solve_decision. Defined.

Lemma key_lt_gt a b : lexcmp a b = Gt <-> key_lt b a.
Proof. unfold key_lt. rewrite (lexcmp_antisym a b). destruct (lexcmp a b); simpl; naive_solver. Qed.

Lemma key_trichotomy a b : key_lt a b \/ a = b \/ key_lt b a.
Proof.
  destruct (lexcmp a b) eqn:E; [right; left; by apply lexcmp_eq|by left|].
  right; right. by apply key_lt_gt.
Qed.

Lemma lexcmp_app_same_length a b c d :
  length a = length b ->
  lexcmp (a ++ c) (b ++ d) = match lexcmp a b with Eq => lexcmp c d | r => r end.
Proof.
  revert b. induction a as [|x a IH]; intros [|y b] H; simplify_eq/=; [done|].
  destruct (x ?= y); auto.
Qed.

(** Big-endian integers of one width order as their bytes do. *)
Lemma lexcmp_be_decode a b :
  bytes_wf a -> bytes_wf b -> length a = length b ->
  lexcmp a b = (be_decode a ?= be_decode b).
Proof.
  revert b. induction a as [|x a IH]; intros [|y b] Ha Hb Hl; simplify_eq/=; [done|].
  inversion Ha as [|?? Hx Ha']; inversion Hb as [|?? Hy Hb']; subst.
  rewrite !be_decode_cons, <- Hl.
  pose proof (be_decode_bound a Ha') as Ba. pose proof (be_decode_bound b Hb') as Bb.
  rewrite <- Hl in Bb. destruct (Z.compare_spec x y) as [->|Hxy|Hxy].
  - rewrite Zcompare_plus_compat. by apply IH.
  - symmetry. apply Z.compare_lt_iff. nia.
  - symmetry. apply Z.compare_gt_iff. nia.
Qed.

(** * Bit operations stay within 32 bits *)

Lemma bits_bounded n a :
  0 <= n -> 0 <= a -> (forall k, n <= k -> Z.testbit a k = false) -> a < 2 ^ n.
Proof. intros Hn Ha H. by apply (Z.bounded_iff_bits_nonneg n a). Qed.

Lemma lor_u32 a b : is_u32 a -> is_u32 b -> is_u32 (Z.lor a b).
Proof.
  intros [Ha Ha'] [Hb Hb']. assert (0 <= Z.lor a b) by (by apply Z.lor_nonneg).
  split; [done|]. apply bits_bounded; [lia|done|]. intros k Hk.
  rewrite Z.lor_spec. by rewrite (testbit_high a 32 k), (testbit_high b 32 k) by lia.
Qed.

Lemma lxor_u32 a b : is_u32 a -> is_u32 b -> is_u32 (Z.lxor a b).
Proof.
  intros [Ha Ha'] [Hb Hb']. assert (0 <= Z.lxor a b) by (apply Z.lxor_nonneg; tauto).
  split; [done|]. apply bits_bounded; [lia|done|]. intros k Hk.
  rewrite Z.lxor_spec. by rewrite (testbit_high a 32 k), (testbit_high b 32 k) by lia.
Qed.

Lemma shiftr_u32 a n : 0 <= n -> is_u32 a -> is_u32 (Z.shiftr a n).
Proof.
  intros Hn [Ha Ha']. rewrite Z.shiftr_div_pow2 by done. split; [apply Z.div_pos; lia|].
  apply Z.div_lt_upper_bound; [lia|]. assert (1 <= 2 ^ n) by lia. nia.
Qed.

#[export] Hint Resolve lor_u32 lxor_u32 : prolly.
#[export] Hint Extern 1 (is_u32 (Z.shiftr _ _)) => apply shiftr_u32; [lia|] : prolly.

(** * Concatenations and offset tables *)

(** The offsets of the elements of [ls] in [mjoin ls], from [o] on. *)
Fixpoint offsets_from (o : Z) (ls : list (list Z)) : list Z :=
  match ls with [] => [o] | l :: ls => o :: offsets_from (o + zlen l) ls end.

Lemma length_offsets_from o ls : length (offsets_from o ls) = S (length ls).
Proof. revert o. induction ls; intros; simpl; auto. Qed.

Lemma offsets_from_lookup o ls i :
  (i <= length ls)%nat -> offsets_from o ls !! i = Some (o + zlen (mjoin (take i ls))).
Proof.
  revert o i. induction ls as [|l ls IH]; intros o [|i] Hi; simpl in *; try lia.
  1-2: f_equal; lia.
  rewrite IH by lia. f_equal. rewrite length_app. lia.
Qed.

Lemma length_mjoin_take_le (ls : list (list Z)) i :
  zlen (mjoin (take i ls)) <= zlen (mjoin ls).
Proof.
  revert i. induction ls as [|l ls IH]; intros [|i]; simpl; try lia.
  rewrite !length_app. specialize (IH i). lia.
Qed.

Lemma mjoin_take_S (ls : list (list Z)) i l :
  ls !! i = Some l -> mjoin (take (S i) ls) = mjoin (take i ls) ++ l.
Proof.
  intros H. rewrite (take_S_r _ _ _ H), join_app. simpl. by rewrite app_nil_r.
Qed.

Lemma offsets_from_snoc o ls l :
  offsets_from o (ls ++ [l]) = offsets_from o ls ++ [o + zlen (mjoin (ls ++ [l]))].
Proof.
  revert o. induction ls as [|k ls IH]; intros o.
  - cbn. rewrite app_nil_r. done.
  - cbn [app offsets_from].
    assert (zlen (mjoin (k :: ls ++ [l])) = zlen k + zlen (mjoin (ls ++ [l]))) as ->.
    { change (mjoin (k :: ls ++ [l])) with (k ++ mjoin (ls ++ [l])). rewrite length_app. lia. }
    by rewrite IH, Z.add_assoc.
Qed.

Lemma offsets_from_diff o (ls : list (list Z)) i a b l :
  ls !! i = Some l -> offsets_from o ls !! i = Some a -> offsets_from o ls !! S i = Some b ->
  b - a = zlen l.
Proof.
  intros Hl. pose proof (lookup_lt_Some _ _ _ Hl).
  rewrite !offsets_from_lookup by lia. rewrite (mjoin_take_S _ _ _ Hl), length_app.
  intros Ha Hb. apply Some_inj in Ha, Hb. lia.
Qed.

Lemma ptr_add_mjoin (ls : list (list Z)) i r :
  (mjoin ls ++ r) +p zlen (mjoin (take i ls)) = mjoin (drop i ls) ++ r.
Proof.
  rewrite <- (take_drop i ls) at 1. rewrite join_app, <- app_assoc. by apply ptr_add_app.
Qed.

Lemma mjoin_lookup_drop (ls : list (list Z)) i l :
  ls !! i = Some l -> mjoin (drop i ls) = l ++ mjoin (drop (S i) ls).
Proof. intros H. by rewrite (drop_S _ _ _ H). Qed.

Lemma bytes_wf_mjoin (ls : list (list Z)) : Forall bytes_wf ls -> bytes_wf (mjoin ls).
Proof.
  induction 1 as [|l ls Hl _ IH]; [apply Forall_nil_2|].
  by apply bytes_wf_app.
Qed.

(** Fixed-width encodings of the elements of a list. *)
Lemma length_mjoin_fixed {A} (f : A -> list Z) w (l : list A) :
  (forall x, length (f x) = w) -> length (mjoin (f <$> l)) = (w * length l)%nat.
Proof.
  intros Hf. induction l as [|x l IH]; [simpl; lia|]. rewrite fmap_cons.
  transitivity (length (f x ++ mjoin (f <$> l))); [done|].
  rewrite length_app, Hf, IH. cbn [length]. lia.
Qed.

Lemma ptr_add_fixed {A} (f : A -> list Z) w (l : list A) i r :
  (forall x, length (f x) = w) -> 0 <= i <= zlen l ->
  (mjoin (f <$> l) ++ r) +p (Z.of_nat w * i) = mjoin (f <$> drop (Z.to_nat i) l) ++ r.
Proof.
  intros Hf Hi. rewrite fmap_drop, <- ptr_add_mjoin. f_equal.
  rewrite <- fmap_take, (length_mjoin_fixed f w) by done.
  rewrite length_take, Nat.min_l by lia. lia.
Qed.

(** Cutting a buffer at increasing offsets. *)
Fixpoint cut (data : list Z) (o : Z) (offs : list Z) : list (list Z) :=
  match offs with
  | [] => []
  | o' :: offs => take (Z.to_nat (o' - o)) (data +p o) :: cut data o' offs
  end.

Fixpoint increasing (o : Z) (offs : list Z) : Prop :=
  match offs with [] => True | o' :: offs => o <= o' /\ increasing o' offs end.

Lemma last_cons_default (o : Z) o' offs : List.last (o' :: offs) o = List.last offs o'.
Proof.
  revert o o'. induction offs as [|x offs IH]; intros o o'; [done|].
  change (List.last (o' :: x :: offs) o) with (List.last (x :: offs) o).
  by rewrite !IH.
Qed.

Lemma last_default_Some (o : Z) l t : last (o :: l) = Some t -> List.last l o = t.
Proof.
  revert o. induction l as [|a l IH]; intros o H; [by injection H|].
  rewrite last_cons_default. by apply IH.
Qed.

Lemma increasing_last o offs : increasing o offs -> o <= List.last offs o.
Proof.
  revert o. induction offs as [|o' offs IH]; intros o H; [simpl; lia|].
  rewrite last_cons_default. destruct H as [H1 H2]. specialize (IH o' H2). lia.
Qed.

Lemma increasing_lookup o offs :
  (forall j a b, (o :: offs) !! j = Some a -> (o :: offs) !! S j = Some b -> a <= b) ->
  increasing o offs.
Proof.
  revert o. induction offs as [|o' offs IH]; intros o H; [done|]. split.
  - by apply (H 0%nat).
  - apply IH. intros j a b Ha Hb. by apply (H (S j)).
Qed.

Lemma bytes_wf_cut data o offs : bytes_wf data -> Forall bytes_wf (cut data o offs).
Proof.
  intros W. revert o. induction offs as [|o' offs IH]; intros o; [apply Forall_nil_2|].
  apply Forall_cons_2; [|apply IH]. unfold ptr_add. auto with prolly.
Qed.

Lemma length_cut data o offs : length (cut data o offs) = length offs.
Proof. revert o. induction offs; intros; simpl; auto. Qed.

Lemma offsets_from_cut data o offs :
  0 <= o -> increasing o offs -> List.last offs o <= zlen data ->
  offsets_from o (cut data o offs) = o :: offs.
Proof.
  revert o. induction offs as [|o' offs IH]; intros o Ho Hi Hl; [done|].
  destruct Hi as [H1 H2]. rewrite last_cons_default in Hl.
  pose proof (increasing_last _ _ H2). simpl. f_equal.
  rewrite length_take, <- (IH o') by (done || lia). f_equal.
  pose proof (length_ptr_add data o Ho). lia.
Qed.

Lemma mjoin_cut data o offs :
  0 <= o -> increasing o offs -> List.last offs o <= zlen data ->
  mjoin (cut data o offs) = take (Z.to_nat (List.last offs o - o)) (data +p o).
Proof.
  revert o. induction offs as [|o' offs IH]; intros o Ho Hi Hl.
  - simpl. by rewrite Z.sub_diag.
  - destruct Hi as [H1 H2]. rewrite last_cons_default in *.
    pose proof (increasing_last _ _ H2). cbn [cut].
    transitivity (take (Z.to_nat (o' - o)) (data +p o) ++ mjoin (cut data o' offs)); [done|].
    rewrite IH by (done || lia).
    replace (data +p o') with ((data +p o) +p (o' - o)) by (rewrite ptr_add_add by lia; f_equal; lia).
    unfold ptr_add at 2.
    replace (Z.to_nat (List.last offs o' - o)) with
      (Z.to_nat (o' - o) + Z.to_nat (List.last offs o' - o'))%nat by lia.
    by rewrite take_take_drop.
Qed.

(** * Strictly sorted key lists *)
Lemma StronglySorted_lookup_lt {A} (R : relation A) l i j x y :
  StronglySorted R l -> l !! i = Some x -> l !! j = Some y -> (i < j)%nat -> R x y.
Proof.
  intros Hs Hi Hj Hij. rewrite <- (take_drop j l) in Hs.
  apply (StronglySorted_app_1_elem_of _ _ _ _ _ Hs).
  - apply list_elem_of_lookup. exists i. by rewrite lookup_take_lt by done.
  - apply list_elem_of_lookup. exists 0%nat. by rewrite lookup_drop, Nat.add_0_r.
Qed.
