(* ===== verification/CInt.v ===== *)
(** Checked machine arithmetic: C integer expressions of type [int32_t] and
    [int64_t] as [option Z], undefined outside the type's range at every
    intermediate step, and the interval propagation that shows straight-line
    code stays inside it. *)
From S2P Require Import Prelude.

(** * Expressions

    [in32] and [in64] are the ranges of the signed types; an operator whose
    exact result leaves the range is undefined ([None]).  Right shifts of
    negative operands are arithmetic, conversions to a narrower signed type
    ([int32]) wrap, as the supported compilers define them. *)
Definition in32 (z : Z) : bool := (- 2 ^ 31 <=? z) && (z <? 2 ^ 31).
Definition in64 (z : Z) : bool := (- 2 ^ 63 <=? z) && (z <? 2 ^ 63).
Definition ck32 (z : Z) : option Z := if in32 z then Some z else None.
Definition ck64 (z : Z) : option Z := if in64 z then Some z else None.

Definition cst (z : Z) : option Z := Some z.
Coercion cst : Z >-> option.

Definition lift2 (ck : Z -> option Z) (f : Z -> Z -> Z) (a b : option Z) : option Z :=
  let? x := a in let? y := b in ck (f x y).
Definition neg32 (a : option Z) : option Z := let? x := a in ck32 (- x).
(** [a << n]: defined for a non-negative left operand whose shifted value fits. *)
Definition shl64 (a : option Z) (n : Z) : option Z :=
  let? x := a in if 0 <=? x then ck64 (x * 2 ^ n) else None.
Definition shl32 (a : option Z) (n : Z) : option Z :=
  let? x := a in if 0 <=? x then ck32 (x * 2 ^ n) else None.
Definition shr (a : option Z) (n : Z) : option Z := let? x := a in Some (Z.shiftr x n).
(** The conversion [(int32_t)] of a wider value. *)
Definition int32 (a : option Z) : option Z := let? x := a in Some (i32 x).

Declare Scope i32_scope.
Delimit Scope i32_scope with i32.
Declare Scope i64_scope.
Delimit Scope i64_scope with i64.
Notation "x + y" := (lift2 ck32 Z.add x y) : i32_scope.
Notation "x - y" := (lift2 ck32 Z.sub x y) : i32_scope.
Notation "x * y" := (lift2 ck32 Z.mul x y) : i32_scope.
Notation "- x" := (neg32 x) : i32_scope.
Notation "x >> n" := (shr x n%Z) (at level 54, left associativity) : i32_scope.
Notation "x << n" := (shl32 x n%Z) (at level 54, left associativity) : i32_scope.
Notation "x + y" := (lift2 ck64 Z.add x y) : i64_scope.
Notation "x - y" := (lift2 ck64 Z.sub x y) : i64_scope.
Notation "x * y" := (lift2 ck64 Z.mul x y) : i64_scope.
Notation "x >> n" := (shr x n%Z) (at level 54, left associativity) : i64_scope.
Notation "x << n" := (shl64 x n%Z) (at level 54, left associativity) : i64_scope.

(** * Weakest preconditions of defined computations *)
Definition wp {A} (m : option A) (Q : A -> Prop) : Prop :=
  match m with Some a => Q a | None => False end.

Lemma wp_some {A} (m : option A) Q : wp m Q <-> exists a, m = Some a /\ Q a.
Proof. destruct m; simpl; naive_solver. Qed.

Lemma wp_mono {A} (m : option A) (P Q : A -> Prop) :
  wp m P -> (forall a, P a -> Q a) -> wp m Q.
Proof. destruct m; simpl; auto. Qed.

Lemma wp_bind {A B} (m : option A) (k : A -> option B) (Q : B -> Prop) :
  wp m (fun a => wp (k a) Q) -> wp (let? a := m in k a) Q.
Proof. destruct m; simpl; auto. Qed.

(** * Intervals

    [ev e v lo hi]: the expression is defined, has the value [v], and the
    value lies between the bounds. *)
Definition ev (e : option Z) (v lo hi : Z) : Prop := e = Some v /\ lo <= v <= hi.

Definition inr32 (lo hi : Z) : bool := (- 2 ^ 31 <=? lo) && (hi <? 2 ^ 31).
Definition inr64 (lo hi : Z) : bool := (- 2 ^ 63 <=? lo) && (hi <? 2 ^ 63).
Definition mlo (a b c d : Z) : Z := Z.min (Z.min (a * c) (a * d)) (Z.min (b * c) (b * d)).
Definition mhi (a b c d : Z) : Z := Z.max (Z.max (a * c) (a * d)) (Z.max (b * c) (b * d)).

Lemma ck32_ok z lo hi : lo <= z <= hi -> inr32 lo hi = true -> ck32 z = Some z.
Proof.
  unfold inr32, ck32, in32. intros ? [??]%andb_prop. cases_bool; simpl; try done; lia.
Qed.

Lemma ck64_ok z lo hi : lo <= z <= hi -> inr64 lo hi = true -> ck64 z = Some z.
Proof.
  unfold inr64, ck64, in64. intros ? [??]%andb_prop. cases_bool; simpl; try done; lia.
Qed.

Lemma mul_interval a b c d x y : a <= x <= b -> c <= y <= d -> mlo a b c d <= x * y <= mhi a b c d.
Proof.
  unfold mlo, mhi. intros.
  assert (forall p q r u, p <= q <= r -> Z.min (p * u) (r * u) <= q * u <= Z.max (p * u) (r * u))
    as line by (clear; intros; destruct (Z.le_ge_cases 0 u); nia).
  pose proof (line a x b y). pose proof (line c y d a). pose proof (line c y d b). lia.
Qed.

Lemma ev_val x lo hi : lo <= x <= hi -> ev (cst x) x lo hi.
Proof. done. Qed.

Lemma ev_cst x : ev (cst x) x x x.
Proof. split; [done|lia]. Qed.

Section ops.
Context {a b : option Z} {x y la ha lb hb : Z}.
Hypothesis Ha : ev a x la ha.
Hypothesis Hb : ev b y lb hb.

Lemma ev_add64 : inr64 (la + lb) (ha + hb) = true ->
  ev (a + b)%i64 (x + y) (la + lb) (ha + hb).
Proof.
  destruct Ha as [-> Rx], Hb as [-> Ry]. intros H. split; [|lia].
  apply (ck64_ok _ (la + lb) (ha + hb)); [lia|done].
Qed.

Lemma ev_sub64 : inr64 (la - hb) (ha - lb) = true ->
  ev (a - b)%i64 (x - y) (la - hb) (ha - lb).
Proof.
  destruct Ha as [-> Rx], Hb as [-> Ry]. intros H. split; [|lia].
  apply (ck64_ok _ (la - hb) (ha - lb)); [lia|done].
Qed.

Lemma ev_mul64 : inr64 (mlo la ha lb hb) (mhi la ha lb hb) = true ->
  ev (a * b)%i64 (x * y) (mlo la ha lb hb) (mhi la ha lb hb).
Proof.
  destruct Ha as [-> Rx], Hb as [-> Ry]. intros H. split; [|by apply mul_interval].
  apply (ck64_ok _ _ _ (mul_interval _ _ _ _ _ _ Rx Ry) H).
Qed.

Lemma ev_add32 : inr32 (la + lb) (ha + hb) = true ->
  ev (a + b)%i32 (x + y) (la + lb) (ha + hb).
Proof.
  destruct Ha as [-> Rx], Hb as [-> Ry]. intros H. split; [|lia].
  apply (ck32_ok _ (la + lb) (ha + hb)); [lia|done].
Qed.

Lemma ev_sub32 : inr32 (la - hb) (ha - lb) = true ->
  ev (a - b)%i32 (x - y) (la - hb) (ha - lb).
Proof.
  destruct Ha as [-> Rx], Hb as [-> Ry]. intros H. split; [|lia].
  apply (ck32_ok _ (la - hb) (ha - lb)); [lia|done].
Qed.

Lemma ev_mul32 : inr32 (mlo la ha lb hb) (mhi la ha lb hb) = true ->
  ev (a * b)%i32 (x * y) (mlo la ha lb hb) (mhi la ha lb hb).
Proof.
  destruct Ha as [-> Rx], Hb as [-> Ry]. intros H. split; [|by apply mul_interval].
  apply (ck32_ok _ _ _ (mul_interval _ _ _ _ _ _ Rx Ry) H).
Qed.

Lemma ev_neg32 : inr32 (- ha) (- la) = true -> ev (- a)%i32 (- x) (- ha) (- la).
Proof.
  destruct Ha as [-> Rx]. intros H. split; [|lia].
  apply (ck32_ok _ (- ha) (- la)); [lia|done].
Qed.

Lemma ev_shr n : (0 <=? n) = true ->
  ev (shr a n) (Z.shiftr x n) (Z.shiftr la n) (Z.shiftr ha n).
Proof.
  destruct Ha as [-> Rx]. intros Hn%Z.leb_le. split; [done|].
  rewrite !Z.shiftr_div_pow2 by done. pose proof (Z.pow_pos_nonneg 2 n).
  split; apply Z.div_le_mono; lia.
Qed.

Lemma ev_shl64 n : (0 <=? n) && (0 <=? la) && inr64 (la * 2 ^ n) (ha * 2 ^ n) = true ->
  ev (shl64 a n) (x * 2 ^ n) (la * 2 ^ n) (ha * 2 ^ n).
Proof.
  destruct Ha as [-> Rx]. intros [[Hn%Z.leb_le Hl%Z.leb_le]%andb_prop H1]%andb_prop.
  pose proof (Z.pow_pos_nonneg 2 n).
  assert (la * 2 ^ n <= x * 2 ^ n <= ha * 2 ^ n) by nia. split; [|done].
  unfold shl64. destruct (Z.leb_spec 0 x); [|lia]. by apply (ck64_ok _ (la * 2 ^ n) (ha * 2 ^ n)).
Qed.

Lemma ev_shl32 n : (0 <=? n) && (0 <=? la) && inr32 (la * 2 ^ n) (ha * 2 ^ n) = true ->
  ev (shl32 a n) (x * 2 ^ n) (la * 2 ^ n) (ha * 2 ^ n).
Proof.
  destruct Ha as [-> Rx]. intros [[Hn%Z.leb_le Hl%Z.leb_le]%andb_prop H1]%andb_prop.
  pose proof (Z.pow_pos_nonneg 2 n).
  assert (la * 2 ^ n <= x * 2 ^ n <= ha * 2 ^ n) by nia. split; [|done].
  unfold shl32. destruct (Z.leb_spec 0 x); [|lia]. by apply (ck32_ok _ (la * 2 ^ n) (ha * 2 ^ n)).
Qed.
End ops.

Lemma i32_id x lo hi : lo <= x <= hi -> inr32 lo hi = true -> i32 x = x.
Proof. unfold inr32, i32. intros ? [??]%andb_prop. rewrite Z.mod_small; lia. Qed.

Lemma ev_int32 a x lo hi : ev a x lo hi -> inr32 lo hi = true -> ev (int32 a) x lo hi.
Proof. intros [-> Rx] H. split; [|done]. simpl. f_equal. by apply (i32_id x lo hi). Qed.

Lemma wp_let {B} (e : option Z) (k : Z -> option B) (Q : B -> Prop) (v lo hi : Z) :
  ev e v lo hi -> (forall x, x = v -> lo <= x <= hi -> wp (k x) Q) ->
  wp (let? x := e in k x) Q.
Proof. intros [-> Rx] H. by apply H. Qed.

(** What a carry leaves behind: [h - c * 2 ^ n] for [c = (h + r) >> n]. *)
Lemma carry_range h r n c :
  0 <= n -> c = Z.shiftr (h + r) n -> - r <= h - c * (1 * 2 ^ n) <= 2 ^ n - 1 - r.
Proof.
  intros Hn ->. rewrite Z.mul_1_l. rewrite Z.shiftr_div_pow2 by done. pose proof (Z.pow_pos_nonneg 2 n).
  pose proof (Z.div_mod (h + r) (2 ^ n)). pose proof (Z.mod_pos_bound (h + r) (2 ^ n)). lia.
Qed.

Lemma wp_let_carry {B} (e : option Z) (k : Z -> option B) (Q : B -> Prop) v lo hi lo' hi' :
  ev e v lo hi -> lo' <= v <= hi' ->
  (forall x, x = v -> lo' <= x <= hi' -> wp (k x) Q) ->
  wp (let? x := e in k x) Q.
Proof. intros [-> _] Rx H. by apply H. Qed.

Ltac is_Zcst z :=
  lazymatch z with
  | Z0 => idtac
  | Zpos _ => idtac
  | Zneg _ => idtac
  end.
Ltac vmtrue :=
  lazymatch goal with
  | |- ?b = true =>
      let r := eval vm_compute in b in
      constr_eq r true; vm_cast_no_check (eq_refl true)
  end.

(** Solves [ev e ?v ?lo ?hi] from the ranges of the variables in context;
    [ev_leaf] is the hook for the operations of a component. *)
Ltac ev_leaf := fail.
Ltac ev_solve :=
  lazymatch goal with
  | |- ev (cst ?z) _ _ _ =>
      first [ is_Zcst z; apply ev_cst
            | lazymatch goal with H : _ <= z <= _ |- _ => exact (ev_val z _ _ H) end ]
  | |- ev (lift2 ck64 Z.add _ _) _ _ _ => eapply ev_add64; [ev_solve|ev_solve|vmtrue]
  | |- ev (lift2 ck64 Z.sub _ _) _ _ _ => eapply ev_sub64; [ev_solve|ev_solve|vmtrue]
  | |- ev (lift2 ck64 Z.mul _ _) _ _ _ => eapply ev_mul64; [ev_solve|ev_solve|vmtrue]
  | |- ev (lift2 ck32 Z.add _ _) _ _ _ => eapply ev_add32; [ev_solve|ev_solve|vmtrue]
  | |- ev (lift2 ck32 Z.sub _ _) _ _ _ => eapply ev_sub32; [ev_solve|ev_solve|vmtrue]
  | |- ev (lift2 ck32 Z.mul _ _) _ _ _ => eapply ev_mul32; [ev_solve|ev_solve|vmtrue]
  | |- ev (neg32 _) _ _ _ => eapply ev_neg32; [ev_solve|vmtrue]
  | |- ev (shr _ _) _ _ _ => eapply ev_shr; [ev_solve|vmtrue]
  | |- ev (shl64 _ _) _ _ _ => eapply ev_shl64; [ev_solve|vmtrue]
  | |- ev (shl32 _ _) _ _ _ => eapply ev_shl32; [ev_solve|vmtrue]
  | |- ev (int32 _) _ _ _ => eapply ev_int32; [ev_solve|vmtrue]
  | _ => ev_leaf
  end.

Ltac norm_range R :=
  lazymatch type of R with
  | ?l <= ?x <= ?h =>
      let l' := eval vm_compute in l in
      let h' := eval vm_compute in h in
      change (l' <= x <= h') in R
  end.

(** One statement [let? x := e in k]. *)
Ltac wp_step :=
  lazymatch goal with
  | |- wp (match ?e with Some x => @?k x | None => None end) _ =>
      first
      [ lazymatch e with
        | context [lift2 ck64 Z.sub (cst ?h) (lift2 ck64 Z.mul (cst ?c) (shl64 (cst 1) ?n))] =>
            lazymatch goal with
            | H : c = Z.shiftr (h + ?r) n |- _ =>
                eapply (wp_let_carry e k _ _ _ _ (- r) (2 ^ n - 1 - r));
                [ ev_solve | apply carry_range; [discriminate|exact H] | ]
            | H : c = Z.shiftr h n |- _ =>
                eapply (wp_let_carry e k _ _ _ _ (- 0) (2 ^ n - 1 - 0));
                [ ev_solve
                | apply carry_range; [discriminate|rewrite Z.add_0_r; exact H] | ]
            end
        end
      | eapply (wp_let e k); [ ev_solve | ] ];
      let x := fresh x in let E := fresh "E" in let R := fresh "R" in
      intros x E R; cbv beta; norm_range R
  end.
