(* ===== verification/Fe.v ===== *)
(** Field arithmetic of Ed25519, [remote/ed25519/fe.c]: elements of
    Z/(2^255-19) as ten signed limbs in radix 2^25.5.  Every [int32_t] and
    [int64_t] operation is checked, so [Some] means that no intermediate
    value leaves its type. *)
From S2P Require Import Prelude CInt.

(** [typedef int32_t fe[10]] *)
Record fe := Fe { fe0 : Z; fe1 : Z; fe2 : Z; fe3 : Z; fe4 : Z;
                  fe5 : Z; fe6 : Z; fe7 : Z; fe8 : Z; fe9 : Z }.

(** Unsigned 64-bit expressions, and the conversion to [int64_t]. *)
Definition ushl (a : option Z) (n : Z) : option Z := let? x := a in Some (u64 (Z.shiftl x n)).
Definition uand (m : Z) (a : option Z) : option Z := let? x := a in Some (Z.land m x).
Definition int64 (a : option Z) : option Z := let? x := a in Some (i64 x).

Definition load_3 (p : list Z) : option Z :=
  let? in0 := p !! 0%nat in
  let? in1 := p !! 1%nat in
  let? in2 := p !! 2%nat in
  let result := in0 in
  let result := Z.lor result (u64 (Z.shiftl in1 8)) in
  let result := Z.lor result (u64 (Z.shiftl in2 16)) in
  Some result.

Definition load_4 (p : list Z) : option Z :=
  let? in0 := p !! 0%nat in
  let? in1 := p !! 1%nat in
  let? in2 := p !! 2%nat in
  let? in3 := p !! 3%nat in
  let result := in0 in
  let result := Z.lor result (u64 (Z.shiftl in1 8)) in
  let result := Z.lor result (u64 (Z.shiftl in2 16)) in
  let result := Z.lor result (u64 (Z.shiftl in3 24)) in
  Some result.

Definition fe_0 : fe := Fe 0 0 0 0 0 0 0 0 0 0.
Definition fe_1 : fe := Fe 1 0 0 0 0 0 0 0 0 0.

Definition fe_add (f g : fe) : option fe :=
  let 'Fe f0 f1 f2 f3 f4 f5 f6 f7 f8 f9 := f in
  let 'Fe g0 g1 g2 g3 g4 g5 g6 g7 g8 g9 := g in
  let? h0 := (f0 + g0)%i32 in
  let? h1 := (f1 + g1)%i32 in
  let? h2 := (f2 + g2)%i32 in
  let? h3 := (f3 + g3)%i32 in
  let? h4 := (f4 + g4)%i32 in
  let? h5 := (f5 + g5)%i32 in
  let? h6 := (f6 + g6)%i32 in
  let? h7 := (f7 + g7)%i32 in
  let? h8 := (f8 + g8)%i32 in
  let? h9 := (f9 + g9)%i32 in
  Some (Fe h0 h1 h2 h3 h4 h5 h6 h7 h8 h9).

Definition fe_cmov (f g : fe) (b : Z) : fe :=
  let 'Fe f0 f1 f2 f3 f4 f5 f6 f7 f8 f9 := f in
  let 'Fe g0 g1 g2 g3 g4 g5 g6 g7 g8 g9 := g in
  let x0 := Z.lxor f0 g0 in
  let x1 := Z.lxor f1 g1 in
  let x2 := Z.lxor f2 g2 in
  let x3 := Z.lxor f3 g3 in
  let x4 := Z.lxor f4 g4 in
  let x5 := Z.lxor f5 g5 in
  let x6 := Z.lxor f6 g6 in
  let x7 := Z.lxor f7 g7 in
  let x8 := Z.lxor f8 g8 in
  let x9 := Z.lxor f9 g9 in
  let b := u32 (- b) in
  let x0 := i32 (Z.land (u32 x0) b) in
  let x1 := i32 (Z.land (u32 x1) b) in
  let x2 := i32 (Z.land (u32 x2) b) in
  let x3 := i32 (Z.land (u32 x3) b) in
  let x4 := i32 (Z.land (u32 x4) b) in
  let x5 := i32 (Z.land (u32 x5) b) in
  let x6 := i32 (Z.land (u32 x6) b) in
  let x7 := i32 (Z.land (u32 x7) b) in
  let x8 := i32 (Z.land (u32 x8) b) in
  let x9 := i32 (Z.land (u32 x9) b) in
  Fe (Z.lxor f0 x0) (Z.lxor f1 x1) (Z.lxor f2 x2) (Z.lxor f3 x3) (Z.lxor f4 x4) (Z.lxor f5 x5) (Z.lxor f6 x6) (Z.lxor f7 x7) (Z.lxor f8 x8) (Z.lxor f9 x9).

Definition fe_cswap (f g : fe) (b : Z) : fe * fe :=
  let 'Fe f0 f1 f2 f3 f4 f5 f6 f7 f8 f9 := f in
  let 'Fe g0 g1 g2 g3 g4 g5 g6 g7 g8 g9 := g in
  let x0 := Z.lxor f0 g0 in
  let x1 := Z.lxor f1 g1 in
  let x2 := Z.lxor f2 g2 in
  let x3 := Z.lxor f3 g3 in
  let x4 := Z.lxor f4 g4 in
  let x5 := Z.lxor f5 g5 in
  let x6 := Z.lxor f6 g6 in
  let x7 := Z.lxor f7 g7 in
  let x8 := Z.lxor f8 g8 in
  let x9 := Z.lxor f9 g9 in
  let b := u32 (- b) in
  let x0 := i32 (Z.land (u32 x0) b) in
  let x1 := i32 (Z.land (u32 x1) b) in
  let x2 := i32 (Z.land (u32 x2) b) in
  let x3 := i32 (Z.land (u32 x3) b) in
  let x4 := i32 (Z.land (u32 x4) b) in
  let x5 := i32 (Z.land (u32 x5) b) in
  let x6 := i32 (Z.land (u32 x6) b) in
  let x7 := i32 (Z.land (u32 x7) b) in
  let x8 := i32 (Z.land (u32 x8) b) in
  let x9 := i32 (Z.land (u32 x9) b) in
  (Fe (Z.lxor f0 x0) (Z.lxor f1 x1) (Z.lxor f2 x2) (Z.lxor f3 x3) (Z.lxor f4 x4) (Z.lxor f5 x5) (Z.lxor f6 x6) (Z.lxor f7 x7) (Z.lxor f8 x8) (Z.lxor f9 x9),
   Fe (Z.lxor g0 x0) (Z.lxor g1 x1) (Z.lxor g2 x2) (Z.lxor g3 x3) (Z.lxor g4 x4) (Z.lxor g5 x5) (Z.lxor g6 x6) (Z.lxor g7 x7) (Z.lxor g8 x8) (Z.lxor g9 x9)).

Definition fe_copy (f : fe) : fe :=
  let 'Fe f0 f1 f2 f3 f4 f5 f6 f7 f8 f9 := f in
  Fe f0 f1 f2 f3 f4 f5 f6 f7 f8 f9.

Definition fe_frombytes (s : list Z) : option fe :=
  let? h0 := int64 (load_4 (s)) in
  let? h1 := int64 (ushl (load_3 (s +p 4)) 6) in
  let? h2 := int64 (ushl (load_3 (s +p 7)) 5) in
  let? h3 := int64 (ushl (load_3 (s +p 10)) 3) in
  let? h4 := int64 (ushl (load_3 (s +p 13)) 2) in
  let? h5 := int64 (load_4 (s +p 16)) in
  let? h6 := int64 (ushl (load_3 (s +p 20)) 7) in
  let? h7 := int64 (ushl (load_3 (s +p 23)) 5) in
  let? h8 := int64 (ushl (load_3 (s +p 26)) 4) in
  let? h9 := int64 (ushl (uand 8388607 (load_3 (s +p 29))) 2) in
  let? carry9 := ((h9 + (1 << 24)) >> 25)%i64 in
  let? h0 := (h0 + carry9 * 19)%i64 in
  let? h9 := (h9 - carry9 * (1 << 25))%i64 in
  let? carry1 := ((h1 + (1 << 24)) >> 25)%i64 in
  let? h2 := (h2 + carry1)%i64 in
  let? h1 := (h1 - carry1 * (1 << 25))%i64 in
  let? carry3 := ((h3 + (1 << 24)) >> 25)%i64 in
  let? h4 := (h4 + carry3)%i64 in
  let? h3 := (h3 - carry3 * (1 << 25))%i64 in
  let? carry5 := ((h5 + (1 << 24)) >> 25)%i64 in
  let? h6 := (h6 + carry5)%i64 in
  let? h5 := (h5 - carry5 * (1 << 25))%i64 in
  let? carry7 := ((h7 + (1 << 24)) >> 25)%i64 in
  let? h8 := (h8 + carry7)%i64 in
  let? h7 := (h7 - carry7 * (1 << 25))%i64 in
  let? carry0 := ((h0 + (1 << 25)) >> 26)%i64 in
  let? h1 := (h1 + carry0)%i64 in
  let? h0 := (h0 - carry0 * (1 << 26))%i64 in
  let? carry2 := ((h2 + (1 << 25)) >> 26)%i64 in
  let? h3 := (h3 + carry2)%i64 in
  let? h2 := (h2 - carry2 * (1 << 26))%i64 in
  let? carry4 := ((h4 + (1 << 25)) >> 26)%i64 in
  let? h5 := (h5 + carry4)%i64 in
  let? h4 := (h4 - carry4 * (1 << 26))%i64 in
  let? carry6 := ((h6 + (1 << 25)) >> 26)%i64 in
  let? h7 := (h7 + carry6)%i64 in
  let? h6 := (h6 - carry6 * (1 << 26))%i64 in
  let? carry8 := ((h8 + (1 << 25)) >> 26)%i64 in
  let? h9 := (h9 + carry8)%i64 in
  let? h8 := (h8 - carry8 * (1 << 26))%i64 in
  Some (Fe (i32 h0) (i32 h1) (i32 h2) (i32 h3) (i32 h4) (i32 h5) (i32 h6) (i32 h7) (i32 h8) (i32 h9)).

(** The carry chain and the stores that end [fe_mul]; [fe_sq] and [fe_sq2]
    end with the same statements. *)
Definition fe_mul_carry (h0 h1 h2 h3 h4 h5 h6 h7 h8 h9 : Z) : option fe :=
  let? carry0 := ((h0 + (1 << 25)) >> 26)%i64 in
  let? h1 := (h1 + carry0)%i64 in
  let? h0 := (h0 - carry0 * (1 << 26))%i64 in
  let? carry4 := ((h4 + (1 << 25)) >> 26)%i64 in
  let? h5 := (h5 + carry4)%i64 in
  let? h4 := (h4 - carry4 * (1 << 26))%i64 in
  let? carry1 := ((h1 + (1 << 24)) >> 25)%i64 in
  let? h2 := (h2 + carry1)%i64 in
  let? h1 := (h1 - carry1 * (1 << 25))%i64 in
  let? carry5 := ((h5 + (1 << 24)) >> 25)%i64 in
  let? h6 := (h6 + carry5)%i64 in
  let? h5 := (h5 - carry5 * (1 << 25))%i64 in
  let? carry2 := ((h2 + (1 << 25)) >> 26)%i64 in
  let? h3 := (h3 + carry2)%i64 in
  let? h2 := (h2 - carry2 * (1 << 26))%i64 in
  let? carry6 := ((h6 + (1 << 25)) >> 26)%i64 in
  let? h7 := (h7 + carry6)%i64 in
  let? h6 := (h6 - carry6 * (1 << 26))%i64 in
  let? carry3 := ((h3 + (1 << 24)) >> 25)%i64 in
  let? h4 := (h4 + carry3)%i64 in
  let? h3 := (h3 - carry3 * (1 << 25))%i64 in
  let? carry7 := ((h7 + (1 << 24)) >> 25)%i64 in
  let? h8 := (h8 + carry7)%i64 in
  let? h7 := (h7 - carry7 * (1 << 25))%i64 in
  let? carry4 := ((h4 + (1 << 25)) >> 26)%i64 in
  let? h5 := (h5 + carry4)%i64 in
  let? h4 := (h4 - carry4 * (1 << 26))%i64 in
  let? carry8 := ((h8 + (1 << 25)) >> 26)%i64 in
  let? h9 := (h9 + carry8)%i64 in
  let? h8 := (h8 - carry8 * (1 << 26))%i64 in
  let? carry9 := ((h9 + (1 << 24)) >> 25)%i64 in
  let? h0 := (h0 + carry9 * 19)%i64 in
  let? h9 := (h9 - carry9 * (1 << 25))%i64 in
  let? carry0 := ((h0 + (1 << 25)) >> 26)%i64 in
  let? h1 := (h1 + carry0)%i64 in
  let? h0 := (h0 - carry0 * (1 << 26))%i64 in
  Some (Fe (i32 h0) (i32 h1) (i32 h2) (i32 h3) (i32 h4) (i32 h5) (i32 h6) (i32 h7) (i32 h8) (i32 h9)).

Definition fe_mul (f g : fe) : option fe :=
  let 'Fe f0 f1 f2 f3 f4 f5 f6 f7 f8 f9 := f in
  let 'Fe g0 g1 g2 g3 g4 g5 g6 g7 g8 g9 := g in
  let? g1_19 := (19 * g1)%i32 in
  let? g2_19 := (19 * g2)%i32 in
  let? g3_19 := (19 * g3)%i32 in
  let? g4_19 := (19 * g4)%i32 in
  let? g5_19 := (19 * g5)%i32 in
  let? g6_19 := (19 * g6)%i32 in
  let? g7_19 := (19 * g7)%i32 in
  let? g8_19 := (19 * g8)%i32 in
  let? g9_19 := (19 * g9)%i32 in
  let? f1_2 := (2 * f1)%i32 in
  let? f3_2 := (2 * f3)%i32 in
  let? f5_2 := (2 * f5)%i32 in
  let? f7_2 := (2 * f7)%i32 in
  let? f9_2 := (2 * f9)%i32 in
  let? f0g0 := (f0 * g0)%i64 in
  let? f0g1 := (f0 * g1)%i64 in
  let? f0g2 := (f0 * g2)%i64 in
  let? f0g3 := (f0 * g3)%i64 in
  let? f0g4 := (f0 * g4)%i64 in
  let? f0g5 := (f0 * g5)%i64 in
  let? f0g6 := (f0 * g6)%i64 in
  let? f0g7 := (f0 * g7)%i64 in
  let? f0g8 := (f0 * g8)%i64 in
  let? f0g9 := (f0 * g9)%i64 in
  let? f1g0 := (f1 * g0)%i64 in
  let? f1g1_2 := (f1_2 * g1)%i64 in
  let? f1g2 := (f1 * g2)%i64 in
  let? f1g3_2 := (f1_2 * g3)%i64 in
  let? f1g4 := (f1 * g4)%i64 in
  let? f1g5_2 := (f1_2 * g5)%i64 in
  let? f1g6 := (f1 * g6)%i64 in
  let? f1g7_2 := (f1_2 * g7)%i64 in
  let? f1g8 := (f1 * g8)%i64 in
  let? f1g9_38 := (f1_2 * g9_19)%i64 in
  let? f2g0 := (f2 * g0)%i64 in
  let? f2g1 := (f2 * g1)%i64 in
  let? f2g2 := (f2 * g2)%i64 in
  let? f2g3 := (f2 * g3)%i64 in
  let? f2g4 := (f2 * g4)%i64 in
  let? f2g5 := (f2 * g5)%i64 in
  let? f2g6 := (f2 * g6)%i64 in
  let? f2g7 := (f2 * g7)%i64 in
  let? f2g8_19 := (f2 * g8_19)%i64 in
  let? f2g9_19 := (f2 * g9_19)%i64 in
  let? f3g0 := (f3 * g0)%i64 in
  let? f3g1_2 := (f3_2 * g1)%i64 in
  let? f3g2 := (f3 * g2)%i64 in
  let? f3g3_2 := (f3_2 * g3)%i64 in
  let? f3g4 := (f3 * g4)%i64 in
  let? f3g5_2 := (f3_2 * g5)%i64 in
  let? f3g6 := (f3 * g6)%i64 in
  let? f3g7_38 := (f3_2 * g7_19)%i64 in
  let? f3g8_19 := (f3 * g8_19)%i64 in
  let? f3g9_38 := (f3_2 * g9_19)%i64 in
  let? f4g0 := (f4 * g0)%i64 in
  let? f4g1 := (f4 * g1)%i64 in
  let? f4g2 := (f4 * g2)%i64 in
  let? f4g3 := (f4 * g3)%i64 in
  let? f4g4 := (f4 * g4)%i64 in
  let? f4g5 := (f4 * g5)%i64 in
  let? f4g6_19 := (f4 * g6_19)%i64 in
  let? f4g7_19 := (f4 * g7_19)%i64 in
  let? f4g8_19 := (f4 * g8_19)%i64 in
  let? f4g9_19 := (f4 * g9_19)%i64 in
  let? f5g0 := (f5 * g0)%i64 in
  let? f5g1_2 := (f5_2 * g1)%i64 in
  let? f5g2 := (f5 * g2)%i64 in
  let? f5g3_2 := (f5_2 * g3)%i64 in
  let? f5g4 := (f5 * g4)%i64 in
  let? f5g5_38 := (f5_2 * g5_19)%i64 in
  let? f5g6_19 := (f5 * g6_19)%i64 in
  let? f5g7_38 := (f5_2 * g7_19)%i64 in
  let? f5g8_19 := (f5 * g8_19)%i64 in
  let? f5g9_38 := (f5_2 * g9_19)%i64 in
  let? f6g0 := (f6 * g0)%i64 in
  let? f6g1 := (f6 * g1)%i64 in
  let? f6g2 := (f6 * g2)%i64 in
  let? f6g3 := (f6 * g3)%i64 in
  let? f6g4_19 := (f6 * g4_19)%i64 in
  let? f6g5_19 := (f6 * g5_19)%i64 in
  let? f6g6_19 := (f6 * g6_19)%i64 in
  let? f6g7_19 := (f6 * g7_19)%i64 in
  let? f6g8_19 := (f6 * g8_19)%i64 in
  let? f6g9_19 := (f6 * g9_19)%i64 in
  let? f7g0 := (f7 * g0)%i64 in
  let? f7g1_2 := (f7_2 * g1)%i64 in
  let? f7g2 := (f7 * g2)%i64 in
  let? f7g3_38 := (f7_2 * g3_19)%i64 in
  let? f7g4_19 := (f7 * g4_19)%i64 in
  let? f7g5_38 := (f7_2 * g5_19)%i64 in
  let? f7g6_19 := (f7 * g6_19)%i64 in
  let? f7g7_38 := (f7_2 * g7_19)%i64 in
  let? f7g8_19 := (f7 * g8_19)%i64 in
  let? f7g9_38 := (f7_2 * g9_19)%i64 in
  let? f8g0 := (f8 * g0)%i64 in
  let? f8g1 := (f8 * g1)%i64 in
  let? f8g2_19 := (f8 * g2_19)%i64 in
  let? f8g3_19 := (f8 * g3_19)%i64 in
  let? f8g4_19 := (f8 * g4_19)%i64 in
  let? f8g5_19 := (f8 * g5_19)%i64 in
  let? f8g6_19 := (f8 * g6_19)%i64 in
  let? f8g7_19 := (f8 * g7_19)%i64 in
  let? f8g8_19 := (f8 * g8_19)%i64 in
  let? f8g9_19 := (f8 * g9_19)%i64 in
  let? f9g0 := (f9 * g0)%i64 in
  let? f9g1_38 := (f9_2 * g1_19)%i64 in
  let? f9g2_19 := (f9 * g2_19)%i64 in
  let? f9g3_38 := (f9_2 * g3_19)%i64 in
  let? f9g4_19 := (f9 * g4_19)%i64 in
  let? f9g5_38 := (f9_2 * g5_19)%i64 in
  let? f9g6_19 := (f9 * g6_19)%i64 in
  let? f9g7_38 := (f9_2 * g7_19)%i64 in
  let? f9g8_19 := (f9 * g8_19)%i64 in
  let? f9g9_38 := (f9_2 * g9_19)%i64 in
  let? h0 := (f0g0 + f1g9_38 + f2g8_19 + f3g7_38 + f4g6_19 + f5g5_38 + f6g4_19 + f7g3_38 + f8g2_19 + f9g1_38)%i64 in
  let? h1 := (f0g1 + f1g0 + f2g9_19 + f3g8_19 + f4g7_19 + f5g6_19 + f6g5_19 + f7g4_19 + f8g3_19 + f9g2_19)%i64 in
  let? h2 := (f0g2 + f1g1_2 + f2g0 + f3g9_38 + f4g8_19 + f5g7_38 + f6g6_19 + f7g5_38 + f8g4_19 + f9g3_38)%i64 in
  let? h3 := (f0g3 + f1g2 + f2g1 + f3g0 + f4g9_19 + f5g8_19 + f6g7_19 + f7g6_19 + f8g5_19 + f9g4_19)%i64 in
  let? h4 := (f0g4 + f1g3_2 + f2g2 + f3g1_2 + f4g0 + f5g9_38 + f6g8_19 + f7g7_38 + f8g6_19 + f9g5_38)%i64 in
  let? h5 := (f0g5 + f1g4 + f2g3 + f3g2 + f4g1 + f5g0 + f6g9_19 + f7g8_19 + f8g7_19 + f9g6_19)%i64 in
  let? h6 := (f0g6 + f1g5_2 + f2g4 + f3g3_2 + f4g2 + f5g1_2 + f6g0 + f7g9_38 + f8g8_19 + f9g7_38)%i64 in
  let? h7 := (f0g7 + f1g6 + f2g5 + f3g4 + f4g3 + f5g2 + f6g1 + f7g0 + f8g9_19 + f9g8_19)%i64 in
  let? h8 := (f0g8 + f1g7_2 + f2g6 + f3g5_2 + f4g4 + f5g3_2 + f6g2 + f7g1_2 + f8g0 + f9g9_38)%i64 in
  let? h9 := (f0g9 + f1g8 + f2g7 + f3g6 + f4g5 + f5g4 + f6g3 + f7g2 + f8g1 + f9g0)%i64 in
  fe_mul_carry h0 h1 h2 h3 h4 h5 h6 h7 h8 h9.

Definition fe_sq (f : fe) : option fe :=
  let 'Fe f0 f1 f2 f3 f4 f5 f6 f7 f8 f9 := f in
  let? f0_2 := (2 * f0)%i32 in
  let? f1_2 := (2 * f1)%i32 in
  let? f2_2 := (2 * f2)%i32 in
  let? f3_2 := (2 * f3)%i32 in
  let? f4_2 := (2 * f4)%i32 in
  let? f5_2 := (2 * f5)%i32 in
  let? f6_2 := (2 * f6)%i32 in
  let? f7_2 := (2 * f7)%i32 in
  let? f5_38 := (38 * f5)%i32 in
  let? f6_19 := (19 * f6)%i32 in
  let? f7_38 := (38 * f7)%i32 in
  let? f8_19 := (19 * f8)%i32 in
  let? f9_38 := (38 * f9)%i32 in
  let? f0f0 := (f0 * f0)%i64 in
  let? f0f1_2 := (f0_2 * f1)%i64 in
  let? f0f2_2 := (f0_2 * f2)%i64 in
  let? f0f3_2 := (f0_2 * f3)%i64 in
  let? f0f4_2 := (f0_2 * f4)%i64 in
  let? f0f5_2 := (f0_2 * f5)%i64 in
  let? f0f6_2 := (f0_2 * f6)%i64 in
  let? f0f7_2 := (f0_2 * f7)%i64 in
  let? f0f8_2 := (f0_2 * f8)%i64 in
  let? f0f9_2 := (f0_2 * f9)%i64 in
  let? f1f1_2 := (f1_2 * f1)%i64 in
  let? f1f2_2 := (f1_2 * f2)%i64 in
  let? f1f3_4 := (f1_2 * f3_2)%i64 in
  let? f1f4_2 := (f1_2 * f4)%i64 in
  let? f1f5_4 := (f1_2 * f5_2)%i64 in
  let? f1f6_2 := (f1_2 * f6)%i64 in
  let? f1f7_4 := (f1_2 * f7_2)%i64 in
  let? f1f8_2 := (f1_2 * f8)%i64 in
  let? f1f9_76 := (f1_2 * f9_38)%i64 in
  let? f2f2 := (f2 * f2)%i64 in
  let? f2f3_2 := (f2_2 * f3)%i64 in
  let? f2f4_2 := (f2_2 * f4)%i64 in
  let? f2f5_2 := (f2_2 * f5)%i64 in
  let? f2f6_2 := (f2_2 * f6)%i64 in
  let? f2f7_2 := (f2_2 * f7)%i64 in
  let? f2f8_38 := (f2_2 * f8_19)%i64 in
  let? f2f9_38 := (f2 * f9_38)%i64 in
  let? f3f3_2 := (f3_2 * f3)%i64 in
  let? f3f4_2 := (f3_2 * f4)%i64 in
  let? f3f5_4 := (f3_2 * f5_2)%i64 in
  let? f3f6_2 := (f3_2 * f6)%i64 in
  let? f3f7_76 := (f3_2 * f7_38)%i64 in
  let? f3f8_38 := (f3_2 * f8_19)%i64 in
  let? f3f9_76 := (f3_2 * f9_38)%i64 in
  let? f4f4 := (f4 * f4)%i64 in
  let? f4f5_2 := (f4_2 * f5)%i64 in
  let? f4f6_38 := (f4_2 * f6_19)%i64 in
  let? f4f7_38 := (f4 * f7_38)%i64 in
  let? f4f8_38 := (f4_2 * f8_19)%i64 in
  let? f4f9_38 := (f4 * f9_38)%i64 in
  let? f5f5_38 := (f5 * f5_38)%i64 in
  let? f5f6_38 := (f5_2 * f6_19)%i64 in
  let? f5f7_76 := (f5_2 * f7_38)%i64 in
  let? f5f8_38 := (f5_2 * f8_19)%i64 in
  let? f5f9_76 := (f5_2 * f9_38)%i64 in
  let? f6f6_19 := (f6 * f6_19)%i64 in
  let? f6f7_38 := (f6 * f7_38)%i64 in
  let? f6f8_38 := (f6_2 * f8_19)%i64 in
  let? f6f9_38 := (f6 * f9_38)%i64 in
  let? f7f7_38 := (f7 * f7_38)%i64 in
  let? f7f8_38 := (f7_2 * f8_19)%i64 in
  let? f7f9_76 := (f7_2 * f9_38)%i64 in
  let? f8f8_19 := (f8 * f8_19)%i64 in
  let? f8f9_38 := (f8 * f9_38)%i64 in
  let? f9f9_38 := (f9 * f9_38)%i64 in
  let? h0 := (f0f0 + f1f9_76 + f2f8_38 + f3f7_76 + f4f6_38 + f5f5_38)%i64 in
  let? h1 := (f0f1_2 + f2f9_38 + f3f8_38 + f4f7_38 + f5f6_38)%i64 in
  let? h2 := (f0f2_2 + f1f1_2 + f3f9_76 + f4f8_38 + f5f7_76 + f6f6_19)%i64 in
  let? h3 := (f0f3_2 + f1f2_2 + f4f9_38 + f5f8_38 + f6f7_38)%i64 in
  let? h4 := (f0f4_2 + f1f3_4 + f2f2 + f5f9_76 + f6f8_38 + f7f7_38)%i64 in
  let? h5 := (f0f5_2 + f1f4_2 + f2f3_2 + f6f9_38 + f7f8_38)%i64 in
  let? h6 := (f0f6_2 + f1f5_4 + f2f4_2 + f3f3_2 + f7f9_76 + f8f8_19)%i64 in
  let? h7 := (f0f7_2 + f1f6_2 + f2f5_2 + f3f4_2 + f8f9_38)%i64 in
  let? h8 := (f0f8_2 + f1f7_4 + f2f6_2 + f3f5_4 + f4f4 + f9f9_38)%i64 in
  let? h9 := (f0f9_2 + f1f8_2 + f2f7_2 + f3f6_2 + f4f5_2)%i64 in
  fe_mul_carry h0 h1 h2 h3 h4 h5 h6 h7 h8 h9.

Definition fe_sq2 (f : fe) : option fe :=
  let 'Fe f0 f1 f2 f3 f4 f5 f6 f7 f8 f9 := f in
  let? f0_2 := (2 * f0)%i32 in
  let? f1_2 := (2 * f1)%i32 in
  let? f2_2 := (2 * f2)%i32 in
  let? f3_2 := (2 * f3)%i32 in
  let? f4_2 := (2 * f4)%i32 in
  let? f5_2 := (2 * f5)%i32 in
  let? f6_2 := (2 * f6)%i32 in
  let? f7_2 := (2 * f7)%i32 in
  let? f5_38 := (38 * f5)%i32 in
  let? f6_19 := (19 * f6)%i32 in
  let? f7_38 := (38 * f7)%i32 in
  let? f8_19 := (19 * f8)%i32 in
  let? f9_38 := (38 * f9)%i32 in
  let? f0f0 := (f0 * f0)%i64 in
  let? f0f1_2 := (f0_2 * f1)%i64 in
  let? f0f2_2 := (f0_2 * f2)%i64 in
  let? f0f3_2 := (f0_2 * f3)%i64 in
  let? f0f4_2 := (f0_2 * f4)%i64 in
  let? f0f5_2 := (f0_2 * f5)%i64 in
  let? f0f6_2 := (f0_2 * f6)%i64 in
  let? f0f7_2 := (f0_2 * f7)%i64 in
  let? f0f8_2 := (f0_2 * f8)%i64 in
  let? f0f9_2 := (f0_2 * f9)%i64 in
  let? f1f1_2 := (f1_2 * f1)%i64 in
  let? f1f2_2 := (f1_2 * f2)%i64 in
  let? f1f3_4 := (f1_2 * f3_2)%i64 in
  let? f1f4_2 := (f1_2 * f4)%i64 in
  let? f1f5_4 := (f1_2 * f5_2)%i64 in
  let? f1f6_2 := (f1_2 * f6)%i64 in
  let? f1f7_4 := (f1_2 * f7_2)%i64 in
  let? f1f8_2 := (f1_2 * f8)%i64 in
  let? f1f9_76 := (f1_2 * f9_38)%i64 in
  let? f2f2 := (f2 * f2)%i64 in
  let? f2f3_2 := (f2_2 * f3)%i64 in
  let? f2f4_2 := (f2_2 * f4)%i64 in
  let? f2f5_2 := (f2_2 * f5)%i64 in
  let? f2f6_2 := (f2_2 * f6)%i64 in
  let? f2f7_2 := (f2_2 * f7)%i64 in
  let? f2f8_38 := (f2_2 * f8_19)%i64 in
  let? f2f9_38 := (f2 * f9_38)%i64 in
  let? f3f3_2 := (f3_2 * f3)%i64 in
  let? f3f4_2 := (f3_2 * f4)%i64 in
  let? f3f5_4 := (f3_2 * f5_2)%i64 in
  let? f3f6_2 := (f3_2 * f6)%i64 in
  let? f3f7_76 := (f3_2 * f7_38)%i64 in
  let? f3f8_38 := (f3_2 * f8_19)%i64 in
  let? f3f9_76 := (f3_2 * f9_38)%i64 in
  let? f4f4 := (f4 * f4)%i64 in
  let? f4f5_2 := (f4_2 * f5)%i64 in
  let? f4f6_38 := (f4_2 * f6_19)%i64 in
  let? f4f7_38 := (f4 * f7_38)%i64 in
  let? f4f8_38 := (f4_2 * f8_19)%i64 in
  let? f4f9_38 := (f4 * f9_38)%i64 in
  let? f5f5_38 := (f5 * f5_38)%i64 in
  let? f5f6_38 := (f5_2 * f6_19)%i64 in
  let? f5f7_76 := (f5_2 * f7_38)%i64 in
  let? f5f8_38 := (f5_2 * f8_19)%i64 in
  let? f5f9_76 := (f5_2 * f9_38)%i64 in
  let? f6f6_19 := (f6 * f6_19)%i64 in
  let? f6f7_38 := (f6 * f7_38)%i64 in
  let? f6f8_38 := (f6_2 * f8_19)%i64 in
  let? f6f9_38 := (f6 * f9_38)%i64 in
  let? f7f7_38 := (f7 * f7_38)%i64 in
  let? f7f8_38 := (f7_2 * f8_19)%i64 in
  let? f7f9_76 := (f7_2 * f9_38)%i64 in
  let? f8f8_19 := (f8 * f8_19)%i64 in
  let? f8f9_38 := (f8 * f9_38)%i64 in
  let? f9f9_38 := (f9 * f9_38)%i64 in
  let? h0 := (f0f0 + f1f9_76 + f2f8_38 + f3f7_76 + f4f6_38 + f5f5_38)%i64 in
  let? h1 := (f0f1_2 + f2f9_38 + f3f8_38 + f4f7_38 + f5f6_38)%i64 in
  let? h2 := (f0f2_2 + f1f1_2 + f3f9_76 + f4f8_38 + f5f7_76 + f6f6_19)%i64 in
  let? h3 := (f0f3_2 + f1f2_2 + f4f9_38 + f5f8_38 + f6f7_38)%i64 in
  let? h4 := (f0f4_2 + f1f3_4 + f2f2 + f5f9_76 + f6f8_38 + f7f7_38)%i64 in
  let? h5 := (f0f5_2 + f1f4_2 + f2f3_2 + f6f9_38 + f7f8_38)%i64 in
  let? h6 := (f0f6_2 + f1f5_4 + f2f4_2 + f3f3_2 + f7f9_76 + f8f8_19)%i64 in
  let? h7 := (f0f7_2 + f1f6_2 + f2f5_2 + f3f4_2 + f8f9_38)%i64 in
  let? h8 := (f0f8_2 + f1f7_4 + f2f6_2 + f3f5_4 + f4f4 + f9f9_38)%i64 in
  let? h9 := (f0f9_2 + f1f8_2 + f2f7_2 + f3f6_2 + f4f5_2)%i64 in
  let? h0 := (h0 + h0)%i64 in
  let? h1 := (h1 + h1)%i64 in
  let? h2 := (h2 + h2)%i64 in
  let? h3 := (h3 + h3)%i64 in
  let? h4 := (h4 + h4)%i64 in
  let? h5 := (h5 + h5)%i64 in
  let? h6 := (h6 + h6)%i64 in
  let? h7 := (h7 + h7)%i64 in
  let? h8 := (h8 + h8)%i64 in
  let? h9 := (h9 + h9)%i64 in
  fe_mul_carry h0 h1 h2 h3 h4 h5 h6 h7 h8 h9.

Definition fe_mul121666 (f : fe) : option fe :=
  let 'Fe f0 f1 f2 f3 f4 f5 f6 f7 f8 f9 := f in
  let? h0 := (f0 * 121666)%i64 in
  let? h1 := (f1 * 121666)%i64 in
  let? h2 := (f2 * 121666)%i64 in
  let? h3 := (f3 * 121666)%i64 in
  let? h4 := (f4 * 121666)%i64 in
  let? h5 := (f5 * 121666)%i64 in
  let? h6 := (f6 * 121666)%i64 in
  let? h7 := (f7 * 121666)%i64 in
  let? h8 := (f8 * 121666)%i64 in
  let? h9 := (f9 * 121666)%i64 in
  let? carry9 := ((h9 + (1 << 24)) >> 25)%i64 in
  let? h0 := (h0 + carry9 * 19)%i64 in
  let? h9 := (h9 - carry9 * (1 << 25))%i64 in
  let? carry1 := ((h1 + (1 << 24)) >> 25)%i64 in
  let? h2 := (h2 + carry1)%i64 in
  let? h1 := (h1 - carry1 * (1 << 25))%i64 in
  let? carry3 := ((h3 + (1 << 24)) >> 25)%i64 in
  let? h4 := (h4 + carry3)%i64 in
  let? h3 := (h3 - carry3 * (1 << 25))%i64 in
  let? carry5 := ((h5 + (1 << 24)) >> 25)%i64 in
  let? h6 := (h6 + carry5)%i64 in
  let? h5 := (h5 - carry5 * (1 << 25))%i64 in
  let? carry7 := ((h7 + (1 << 24)) >> 25)%i64 in
  let? h8 := (h8 + carry7)%i64 in
  let? h7 := (h7 - carry7 * (1 << 25))%i64 in
  let? carry0 := ((h0 + (1 << 25)) >> 26)%i64 in
  let? h1 := (h1 + carry0)%i64 in
  let? h0 := (h0 - carry0 * (1 << 26))%i64 in
  let? carry2 := ((h2 + (1 << 25)) >> 26)%i64 in
  let? h3 := (h3 + carry2)%i64 in
  let? h2 := (h2 - carry2 * (1 << 26))%i64 in
  let? carry4 := ((h4 + (1 << 25)) >> 26)%i64 in
  let? h5 := (h5 + carry4)%i64 in
  let? h4 := (h4 - carry4 * (1 << 26))%i64 in
  let? carry6 := ((h6 + (1 << 25)) >> 26)%i64 in
  let? h7 := (h7 + carry6)%i64 in
  let? h6 := (h6 - carry6 * (1 << 26))%i64 in
  let? carry8 := ((h8 + (1 << 25)) >> 26)%i64 in
  let? h9 := (h9 + carry8)%i64 in
  let? h8 := (h8 - carry8 * (1 << 26))%i64 in
  Some (Fe (i32 h0) (i32 h1) (i32 h2) (i32 h3) (i32 h4) (i32 h5) (i32 h6) (i32 h7) (i32 h8) (i32 h9)).

Definition fe_neg (f : fe) : option fe :=
  let 'Fe f0 f1 f2 f3 f4 f5 f6 f7 f8 f9 := f in
  let? h0 := (-f0)%i32 in
  let? h1 := (-f1)%i32 in
  let? h2 := (-f2)%i32 in
  let? h3 := (-f3)%i32 in
  let? h4 := (-f4)%i32 in
  let? h5 := (-f5)%i32 in
  let? h6 := (-f6)%i32 in
  let? h7 := (-f7)%i32 in
  let? h8 := (-f8)%i32 in
  let? h9 := (-f9)%i32 in
  Some (Fe h0 h1 h2 h3 h4 h5 h6 h7 h8 h9).

Definition fe_sub (f g : fe) : option fe :=
  let 'Fe f0 f1 f2 f3 f4 f5 f6 f7 f8 f9 := f in
  let 'Fe g0 g1 g2 g3 g4 g5 g6 g7 g8 g9 := g in
  let? h0 := (f0 - g0)%i32 in
  let? h1 := (f1 - g1)%i32 in
  let? h2 := (f2 - g2)%i32 in
  let? h3 := (f3 - g3)%i32 in
  let? h4 := (f4 - g4)%i32 in
  let? h5 := (f5 - g5)%i32 in
  let? h6 := (f6 - g6)%i32 in
  let? h7 := (f7 - g7)%i32 in
  let? h8 := (f8 - g8)%i32 in
  let? h9 := (f9 - g9)%i32 in
  Some (Fe h0 h1 h2 h3 h4 h5 h6 h7 h8 h9).

Definition fe_tobytes (h : fe) : option (list Z) :=
  let 'Fe h0 h1 h2 h3 h4 h5 h6 h7 h8 h9 := h in
  let? q := ((19 * h9 + (1 << 24)) >> 25)%i32 in
  let? q := ((h0 + q) >> 26)%i32 in
  let? q := ((h1 + q) >> 25)%i32 in
  let? q := ((h2 + q) >> 26)%i32 in
  let? q := ((h3 + q) >> 25)%i32 in
  let? q := ((h4 + q) >> 26)%i32 in
  let? q := ((h5 + q) >> 25)%i32 in
  let? q := ((h6 + q) >> 26)%i32 in
  let? q := ((h7 + q) >> 25)%i32 in
  let? q := ((h8 + q) >> 26)%i32 in
  let? q := ((h9 + q) >> 25)%i32 in
  let? h0 := (h0 + 19 * q)%i32 in
  let? carry0 := (h0 >> 26)%i32 in
  let? h1 := (h1 + carry0)%i32 in
  let? h0 := int32 (h0 - carry0 * (1 << 26))%i64 in
  let? carry1 := (h1 >> 25)%i32 in
  let? h2 := (h2 + carry1)%i32 in
  let? h1 := int32 (h1 - carry1 * (1 << 25))%i64 in
  let? carry2 := (h2 >> 26)%i32 in
  let? h3 := (h3 + carry2)%i32 in
  let? h2 := int32 (h2 - carry2 * (1 << 26))%i64 in
  let? carry3 := (h3 >> 25)%i32 in
  let? h4 := (h4 + carry3)%i32 in
  let? h3 := int32 (h3 - carry3 * (1 << 25))%i64 in
  let? carry4 := (h4 >> 26)%i32 in
  let? h5 := (h5 + carry4)%i32 in
  let? h4 := int32 (h4 - carry4 * (1 << 26))%i64 in
  let? carry5 := (h5 >> 25)%i32 in
  let? h6 := (h6 + carry5)%i32 in
  let? h5 := int32 (h5 - carry5 * (1 << 25))%i64 in
  let? carry6 := (h6 >> 26)%i32 in
  let? h7 := (h7 + carry6)%i32 in
  let? h6 := int32 (h6 - carry6 * (1 << 26))%i64 in
  let? carry7 := (h7 >> 25)%i32 in
  let? h8 := (h8 + carry7)%i32 in
  let? h7 := int32 (h7 - carry7 * (1 << 25))%i64 in
  let? carry8 := (h8 >> 26)%i32 in
  let? h9 := (h9 + carry8)%i32 in
  let? h8 := int32 (h8 - carry8 * (1 << 26))%i64 in
  let? carry9 := (h9 >> 25)%i32 in
  let? h9 := int32 (h9 - carry9 * (1 << 25))%i64 in
  Some [u8 (Z.shiftr h0 0);
        u8 (Z.shiftr h0 8);
        u8 (Z.shiftr h0 16);
        u8 (Z.lor (u32 (Z.shiftr h0 24)) (u32 (Z.shiftl (u32 h1) 2)));
        u8 (Z.shiftr h1 6);
        u8 (Z.shiftr h1 14);
        u8 (Z.lor (u32 (Z.shiftr h1 22)) (u32 (Z.shiftl (u32 h2) 3)));
        u8 (Z.shiftr h2 5);
        u8 (Z.shiftr h2 13);
        u8 (Z.lor (u32 (Z.shiftr h2 21)) (u32 (Z.shiftl (u32 h3) 5)));
        u8 (Z.shiftr h3 3);
        u8 (Z.shiftr h3 11);
        u8 (Z.lor (u32 (Z.shiftr h3 19)) (u32 (Z.shiftl (u32 h4) 6)));
        u8 (Z.shiftr h4 2);
        u8 (Z.shiftr h4 10);
        u8 (Z.shiftr h4 18);
        u8 (Z.shiftr h5 0);
        u8 (Z.shiftr h5 8);
        u8 (Z.shiftr h5 16);
        u8 (Z.lor (u32 (Z.shiftr h5 24)) (u32 (Z.shiftl (u32 h6) 1)));
        u8 (Z.shiftr h6 7);
        u8 (Z.shiftr h6 15);
        u8 (Z.lor (u32 (Z.shiftr h6 23)) (u32 (Z.shiftl (u32 h7) 3)));
        u8 (Z.shiftr h7 5);
        u8 (Z.shiftr h7 13);
        u8 (Z.lor (u32 (Z.shiftr h7 21)) (u32 (Z.shiftl (u32 h8) 4)));
        u8 (Z.shiftr h8 4);
        u8 (Z.shiftr h8 12);
        u8 (Z.lor (u32 (Z.shiftr h8 20)) (u32 (Z.shiftl (u32 h9) 6)));
        u8 (Z.shiftr h9 2);
        u8 (Z.shiftr h9 10);
        u8 (Z.shiftr h9 18)].

(** [for (i = 1; i < n + 1; ++i) fe_sq(t, t)] *)
Fixpoint fe_sq_loop (n : nat) (t : fe) : option fe :=
  match n with
  | O => Some t
  | S n => let? t := fe_sq t in fe_sq_loop n t
  end.

Definition fe_invert (z : fe) : option fe :=
  let? t0 := fe_sq z in
  let? t0 := fe_sq_loop 0 t0 in
  let? t1 := fe_sq t0 in
  let? t1 := fe_sq_loop 1 t1 in
  let? t1 := fe_mul z t1 in
  let? t0 := fe_mul t0 t1 in
  let? t2 := fe_sq t0 in
  let? t2 := fe_sq_loop 0 t2 in
  let? t1 := fe_mul t1 t2 in
  let? t2 := fe_sq t1 in
  let? t2 := fe_sq_loop 4 t2 in
  let? t1 := fe_mul t2 t1 in
  let? t2 := fe_sq t1 in
  let? t2 := fe_sq_loop 9 t2 in
  let? t2 := fe_mul t2 t1 in
  let? t3 := fe_sq t2 in
  let? t3 := fe_sq_loop 19 t3 in
  let? t2 := fe_mul t3 t2 in
  let? t2 := fe_sq t2 in
  let? t2 := fe_sq_loop 9 t2 in
  let? t1 := fe_mul t2 t1 in
  let? t2 := fe_sq t1 in
  let? t2 := fe_sq_loop 49 t2 in
  let? t2 := fe_mul t2 t1 in
  let? t3 := fe_sq t2 in
  let? t3 := fe_sq_loop 99 t3 in
  let? t2 := fe_mul t3 t2 in
  let? t2 := fe_sq t2 in
  let? t2 := fe_sq_loop 49 t2 in
  let? t1 := fe_mul t2 t1 in
  let? t1 := fe_sq t1 in
  let? t1 := fe_sq_loop 4 t1 in
  fe_mul t1 t0.

Definition fe_pow22523 (z : fe) : option fe :=
  let? t0 := fe_sq z in
  let? t0 := fe_sq_loop 0 t0 in
  let? t1 := fe_sq t0 in
  let? t1 := fe_sq_loop 1 t1 in
  let? t1 := fe_mul z t1 in
  let? t0 := fe_mul t0 t1 in
  let? t0 := fe_sq t0 in
  let? t0 := fe_sq_loop 0 t0 in
  let? t0 := fe_mul t1 t0 in
  let? t1 := fe_sq t0 in
  let? t1 := fe_sq_loop 4 t1 in
  let? t0 := fe_mul t1 t0 in
  let? t1 := fe_sq t0 in
  let? t1 := fe_sq_loop 9 t1 in
  let? t1 := fe_mul t1 t0 in
  let? t2 := fe_sq t1 in
  let? t2 := fe_sq_loop 19 t2 in
  let? t1 := fe_mul t2 t1 in
  let? t1 := fe_sq t1 in
  let? t1 := fe_sq_loop 9 t1 in
  let? t0 := fe_mul t1 t0 in
  let? t1 := fe_sq t0 in
  let? t1 := fe_sq_loop 49 t1 in
  let? t1 := fe_mul t1 t0 in
  let? t2 := fe_sq t1 in
  let? t2 := fe_sq_loop 99 t2 in
  let? t1 := fe_mul t2 t1 in
  let? t1 := fe_sq t1 in
  let? t1 := fe_sq_loop 49 t1 in
  let? t0 := fe_mul t1 t0 in
  let? t0 := fe_sq t0 in
  let? t0 := fe_sq_loop 1 t0 in
  fe_mul t0 z.

Definition fe_isnegative (f : fe) : option Z :=
  let? s := fe_tobytes f in
  let? s0 := s !! 0%nat in
  Some (Z.land s0 1).

(** [r = s[0]; r |= s[1]; ...; return r != 0] *)
Definition fe_isnonzero (f : fe) : option Z :=
  let? s := fe_tobytes f in
  let r := foldl Z.lor 0 s in
  Some (if r =? 0 then 0 else 1).
