(* ===== verification/Prime25519.v ===== *)
(** The field Z/(2^255-19): the modulus of Ed25519 is prime, by Pocklington
    certificates, and the field structure that gives. *)
From Stdlib Require Export Zmod Field.
From Stdlib Require Import Znumtheory.
From S2P Require Import Prelude.

(** * Evaluation of powers *)
Fixpoint powmod (a : Z) (e : positive) (n : Z) : Z :=
  match e with
  | xH => a mod n
  | xO e => let r := powmod a e n in (r * r) mod n
  | xI e => let r := powmod a e n in (a * ((r * r) mod n)) mod n
  end.

Lemma powmod_spec a e n : powmod a e n = a ^ Zpos e mod n.
Proof.
  induction e as [e IH|e IH|]; simpl powmod.
  - rewrite IH, <- Zmult_mod, Zmult_mod_idemp_r.
    f_equal. rewrite Pos2Z.inj_xI, Z.pow_add_r, Z.pow_1_r by lia.
    rewrite (Z.mul_comm 2), Z.pow_mul_r, Z.pow_2_r by lia. ring.
  - rewrite IH, <- Zmult_mod. f_equal.
    rewrite Pos2Z.inj_xO, (Z.mul_comm 2), Z.pow_mul_r by lia. by rewrite Z.pow_2_r.
  - by rewrite Z.pow_1_r.
Qed.

(** * Prime divisors *)
Lemma not_prime_factor n : 1 < n -> ~ Z.prime n -> exists d e, 1 < d /\ 1 < e /\ n = d * e /\ d <= e.
Proof.
  intros Hn Hp. assert (~ forall d, 1 < d < n -> ~ (d | n)) as H by (intros H; by apply Hp).
  destruct (not_prime_divide n Hn) as (d & Hd & e & He).
  { intros Hp'. by apply Hp, prime_alt. }
  assert (1 < e) by nia. destruct (Z.le_ge_cases d e); [exists d, e|exists e, d]; lia.
Qed.

Lemma prime_dec n : Z.prime n \/ ~ Z.prime n.
Proof. destruct (Znumtheory.prime_dec n); rewrite prime_alt; tauto. Qed.

Lemma prime_divisor n : 1 < n -> exists r, Z.prime r /\ (r | n).
Proof.
  intros Hn. pose proof (Z.lt_le_incl _ _ Hn). revert Hn.
  pattern n. apply (Zlt_lower_bound_ind _ 1); [|done]. clear. intros n IH ? Hn.
  destruct (prime_dec n) as [|Hp]; [by exists n|].
  destruct (not_prime_factor n Hn Hp) as (d & e & ? & ? & -> & ?).
  destruct (IH d) as (r & ? & ?); [nia|lia|]. exists r. split; [done|]. by apply Z.divide_mul_l.
Qed.

Lemma small_prime_divisor n : 1 < n -> ~ Z.prime n -> exists r, Z.prime r /\ (r | n) /\ r * r <= n.
Proof.
  intros Hn Hp. destruct (not_prime_factor n Hn Hp) as (d & e & ? & ? & -> & ?).
  destruct (prime_divisor d) as (r & Hr & Hd); [lia|]. exists r. split_and!; [done| |].
  - by apply Z.divide_mul_l.
  - apply Z.divide_pos_le in Hd; [|lia]. pose proof (Z.prime_ge_2 r Hr). nia.
Qed.

(** Trial division by [2 .. k + 1]. *)
Fixpoint no_divisor (k : nat) (d n : Z) : bool :=
  match k with
  | O => true
  | S k => negb (n mod d =? 0) && no_divisor k (d + 1) n
  end.

Lemma no_divisor_spec k d n : no_divisor k d n = true ->
  forall r, d <= r < d + Z.of_nat k -> 0 < d -> ~ (r | n).
Proof.
  revert d. induction k as [|k IH]; simpl; intros d H r Hr Hd; [lia|].
  apply andb_prop in H as [H1 H2]. destruct (Z.eq_dec r d) as [->|].
  - intros Hdiv. apply Z.mod_divide in Hdiv; [|lia]. by rewrite Hdiv in H1.
  - apply (IH (d + 1)); [done|lia|lia].
Qed.

Definition trial_prime (n : Z) : bool := (1 <? n) && no_divisor (Z.to_nat (Z.sqrt n)) 2 n.

Lemma trial_prime_spec n : trial_prime n = true -> Z.prime n.
Proof.
  intros [Hn%Z.ltb_lt Ht]%andb_prop. destruct (prime_dec n) as [|H]; [done|].
  destruct (small_prime_divisor n Hn H) as (r & Hr & Hdiv & Hle).
  pose proof (Z.prime_ge_2 r Hr). assert (r <= Z.sqrt n) by (apply Z.sqrt_le_square; lia).
  exfalso. apply (no_divisor_spec _ _ _ Ht r); [lia|lia|done].
Qed.

(** * Pocklington's criterion *)
Section pocklington.
Context (n : Z) (Hn : 1 < n).

(** A witness [a] for a prime factor [q] of [n - 1]. *)
Definition pock_witness (q a : Z) : bool :=
  let m := (n - 1) / q in
  let y := powmod a (Z.to_pos m) n in
  (0 <? q) && (n - 1 =? m * q) && (powmod y (Z.to_pos q) n =? 1) && (Z.gcd (y - 1) n =? 1).

Lemma pow_one_coprime r m q (x : Zmod r) :
  Z.prime r -> 0 < q -> 0 <= m -> Z.prime q -> ~ (q | r - 1) ->
  (x ^ (q * m) = 1)%Zmod -> (x ^ (r - 1) = 1)%Zmod -> (x ^ m = 1)%Zmod.
Proof.
  intros Hr Hq Hm Hpq Hnd H1 H2. pose proof (Z.prime_ge_2 r Hr).
  pose proof (Z.gcd_bezout q (r - 1) 1) as (u & v & Huv).
  { apply Z.coprime_prime_l; done. }
  set (K := Z.abs u + Z.abs v).
  assert (0 <= u + K * (r - 1)) by (unfold K; nia).
  assert (0 <= - v + K * q) by (unfold K; nia). clearbody K.
  assert (0 <= (- v + K * q) * m) by (by apply Z.mul_nonneg_nonneg).
  assert (0 <= q * m) by (apply Z.mul_nonneg_nonneg; lia).
  assert ((q * m) * (u + K * (r - 1)) = m + (r - 1) * ((- v + K * q) * m)) as E.
  { assert (u * q = 1 - v * (r - 1)) as Eu by lia.
    transitivity (m * (u * q) + q * m * K * (r - 1)); [ring|rewrite Eu; ring]. }
  assert (x ^ ((q * m) * (u + K * (r - 1))) = 1)%Zmod as E1.
  { rewrite Zmod.pow_mul_r_nonneg, H1 by done. apply Zmod.pow_1_l. }
  rewrite E, Zmod.pow_add_r_nonneg, (Zmod.pow_mul_r_nonneg x (r - 1)), H2, Zmod.pow_1_l in E1
    by (first [done|lia|apply Z.mul_nonneg_nonneg; lia]).
  by rewrite Zmod.mul_1_r in E1.
Qed.

Lemma pock_divides q a r :
  Z.prime q -> pock_witness q a = true -> Z.prime r -> (r | n) -> (q | r - 1).
Proof.
  intros Hq Hw Hr Hrn. unfold pock_witness in Hw.
  apply andb_prop in Hw as [[[Hq0%Z.ltb_lt Hm%Z.eqb_eq]%andb_prop Hp%Z.eqb_eq]%andb_prop Hg%Z.eqb_eq].
  set (m := (n - 1) / q) in *. clearbody m.
  assert (0 < m) by nia. rewrite !powmod_spec, !Z2Pos.id in * by lia.
  rewrite Z.mod_pow_l, <- Z.pow_mul_r, <- Hm in Hp by lia.
  destruct (decide ((r - 1) mod q = 0)) as [Hd|Hnd]; [apply Z.mod_divide; [lia|done]|exfalso].
  rewrite Z.mod_divide in Hnd by lia.
  pose proof (Z.prime_ge_2 r Hr). destruct Hrn as [c Hc].
  assert (forall e, a ^ e mod n mod r = a ^ e mod r) as Hmod.
  { intros e. rewrite Hc, Z.mul_comm. apply Z.mod_mod_divide. by exists c; rewrite Z.mul_comm. }
  set (x := Zmod.of_Z r a).
  assert (x ^ (n - 1) = 1)%Zmod as H1.
  { unfold x. rewrite <- Zmod.of_Z_pow, <- Zmod.of_Z_1 by lia. apply Zmod.of_Z_inj.
    rewrite <- Hmod, Hp. done. }
  assert (x <> 0)%Zmod as Hx.
  { intros E. rewrite E, Zmod.pow_0_l in H1 by lia. symmetry in H1.
    apply Zmod.one_neq_zero in H1; [done|lia]. }
  assert (x ^ m = 1)%Zmod as H2.
  { apply (pow_one_coprime r m q); try done; try lia.
    - by rewrite <- H1, Hm, Z.mul_comm.
    - replace (r - 1) with (Z.pred r) by lia. by apply Zmod.fermat_nz. }
  unfold x in H2. rewrite <- Zmod.of_Z_pow, <- Zmod.of_Z_1 in H2 by lia.
  apply Zmod.of_Z_inj in H2.
  assert ((r | a ^ m mod n - 1)) as Hd.
  { apply Z.mod_divide; [lia|]. rewrite Zminus_mod, Hmod, H2, Z.sub_diag. done. }
  assert ((r | 1)) as Hk%Z.divide_1_r_nonneg.
  { rewrite <- Hg. apply Z.gcd_greatest; [done|]. by exists c. }
  all: lia.
Qed.

Definition pock (l : list (Z * Z)) : bool :=
  forallb (fun qa => pock_witness qa.1 qa.2) l &&
  bool_decide (NoDup (map fst l)) &&
  (n <? foldr Z.mul 1 (map fst l) * foldr Z.mul 1 (map fst l)).

Lemma prime_not_divides_prod q (l : list Z) :
  Z.prime q -> Forall Z.prime l -> q ∉ l -> ~ (q | foldr Z.mul 1 l).
Proof.
  intros Hq Hl. induction Hl as [|q' l Hq' Hl IH]; simpl; intros Hni.
  - pose proof (Z.prime_ge_2 q Hq). intros H1%Z.divide_1_r_nonneg; lia.
  - intros [H|H]%Z.divide_prime_mul; [|apply IH; [set_solver|done]|done].
    apply Z.divide_prime_prime in H; [subst; set_solver|done|done].
Qed.

Lemma prod_divides (l : list Z) r :
  Forall Z.prime l -> NoDup l -> (forall q, q ∈ l -> (q | r)) -> (foldr Z.mul 1 l | r).
Proof.
  induction l as [|q l IH]; intros Hp Hnd Hd; simpl; [apply Z.divide_1_l|].
  inversion Hp as [|?? Hq Hl]; inversion Hnd as [|?? Hni Hnd']; subst.
  destruct (IH Hl Hnd') as [k Hk]; [intros; apply Hd; by right|].
  assert ((q | r)) as Hqr by (apply Hd; left).
  assert ((q | k)) as [j Hj].
  { apply (Z.gauss _ (foldr Z.mul 1 l)); [by rewrite Z.mul_comm, <- Hk|].
    apply Z.coprime_prime_l; [done|by apply prime_not_divides_prod]. }
  exists j. rewrite Hk, Hj. ring.
Qed.

Lemma pock_prime l : Forall Z.prime (map fst l) -> pock l = true -> Z.prime n.
Proof.
  intros Hpr H. apply andb_prop in H as [[Hw Hnd%bool_decide_eq_true]%andb_prop Hlt%Z.ltb_lt].
  destruct (prime_dec n) as [|Hp]; [done|exfalso].
  destruct (small_prime_divisor n Hn Hp) as (r & Hr & Hdiv & Hle).
  pose proof (Z.prime_ge_2 r Hr).
  assert ((foldr Z.mul 1 (map fst l) | r - 1)) as HF.
  { apply prod_divides; [done..|]. intros q [[q' a] [-> Hin]]%list_elem_of_fmap.
    rewrite forallb_forall in Hw. simpl. apply (pock_divides q' a r); [|apply (Hw (q', a))|done|done].
    - rewrite Forall_fmap, Forall_forall in Hpr. apply (Hpr (q', a)), Hin.
    - by apply list_elem_of_In. }
  apply Z.divide_pos_le in HF; [|lia].
  assert (0 <= foldr Z.mul 1 (map fst l)).
  { clear -Hpr. induction (map fst l) as [|q k IH]; simpl; [lia|]. inversion Hpr as [|?? Hq]; subst.
    pose proof (Z.prime_ge_2 q Hq). apply Z.mul_nonneg_nonneg; [lia|auto]. }
  nia.
Qed.
End pocklington.

(** * The modulus *)
Definition p25519 : Z := 2 ^ 255 - 19.

Ltac trial := apply trial_prime_spec; vm_compute; reflexivity.
Ltac pocklington l :=
  refine (pock_prime _ _ l _ _); 
    [vm_compute; reflexivity
    |cbn [map fst]; repeat first [apply Forall_nil_2|apply Forall_cons_2]
    |vm_cast_no_check (eq_refl true)].

Lemma prime_127 : Z.prime 127.
Proof. trial. Qed.
Lemma prime_4153 : Z.prime 4153.
Proof. trial. Qed.
Lemma prime_430751 : Z.prime 430751.
Proof. trial. Qed.
Lemma prime_8574133 : Z.prime 8574133.
Proof. trial. Qed.
Lemma prime_569003 : Z.prime 569003.
Proof. trial. Qed.
Lemma prime_32 : Z.prime 2773320623.
Proof. pocklington [(569003, 2)]. exact prime_569003. Qed.
Lemma prime_37 : Z.prime 72106336199.
Proof. pocklington [(2773320623, 2)]. exact prime_32. Qed.
Lemma prime_51 : Z.prime 1919519569386763.
Proof.
  pocklington [(8574133, 2); (127, 2)]; [exact prime_8574133|exact prime_127].
Qed.
Lemma prime_55 : Z.prime 31757755568855353.
Proof. pocklington [(430751, 2); (4153, 2)]; [exact prime_430751|exact prime_4153]. Qed.
Lemma prime_116 : Z.prime 75445702479781427272750846543864801.
Proof.
  pocklington [(1919519569386763, 2); (72106336199, 2)]; [exact prime_51|exact prime_37].
Qed.
Lemma prime_236 :
  Z.prime 74058212732561358302231226437062788676166966415465897661863160754340907.
Proof.
  pocklington [(75445702479781427272750846543864801, 2); (31757755568855353, 2)];
    [exact prime_116|exact prime_55].
Qed.
Lemma prime_p25519 : Z.prime p25519.
Proof.
  pocklington [(74058212732561358302231226437062788676166966415465897661863160754340907, 2)].
  exact prime_236.
Qed.

(** * The field *)
Abbreviation F := (Zmod p25519).
Add Field F_field : (Zmod.field_theory p25519 prime_p25519).

Definition ofZ (z : Z) : F := Zmod.of_Z p25519 z.

Lemma ofZ_congr a b k : a = b + k * p25519 -> ofZ a = ofZ b.
Proof. intros ->. apply Zmod.of_Z_inj. by rewrite Z.mod_add. Qed.

Lemma ofZ_inj a b : ofZ a = ofZ b <-> a mod p25519 = b mod p25519.
Proof. apply Zmod.of_Z_inj. Qed.

Lemma ofZ_add a b : ofZ (a + b) = (ofZ a + ofZ b)%Zmod.
Proof. apply Zmod.of_Z_add. Qed.
Lemma ofZ_sub a b : ofZ (a - b) = (ofZ a - ofZ b)%Zmod.
Proof. apply Zmod.of_Z_sub. Qed.
Lemma ofZ_mul a b : ofZ (a * b) = (ofZ a * ofZ b)%Zmod.
Proof. apply Zmod.of_Z_mul. Qed.
Lemma ofZ_opp a : ofZ (- a) = (- ofZ a)%Zmod.
Proof. apply Zmod.of_Z_opp. Qed.

Lemma F_mul_0 (a b : F) : (a * b = 0)%Zmod -> a = Zmod.zero \/ b = Zmod.zero.
Proof. apply (Zmod.mul_0_iff_prime prime_p25519). Qed.

Lemma F_fermat (a : F) : a <> Zmod.zero -> (a ^ (p25519 - 2))%Zmod = Zmod.inv a.
Proof. intros H. apply Zmod.fermat_inv; [done|apply prime_p25519]. Qed.

Lemma to_Z_ofZ z : Zmod.to_Z (ofZ z) = z mod p25519.
Proof. apply Zmod.to_Z_of_Z. Qed.

Lemma F_range (x : F) : 0 <= Zmod.to_Z x < p25519.
Proof. apply Zmod.to_Z_pos_bound. done. Qed.

Lemma ofZ_neq_0 z : z mod p25519 <> 0 -> ofZ z <> Zmod.zero.
Proof. intros H E%(f_equal (@Zmod.to_Z p25519)). by rewrite to_Z_ofZ, Zmod.to_Z_0 in E. Qed.

#[export] Instance F_eq_dec : EqDecision F.
Proof.
  intros x y. destruct (decide (Zmod.to_Z x = Zmod.to_Z y)) as [E|E];
    [left; by apply Zmod.to_Z_inj|right; by intros ->].
Defined.

(** * Integers reduced with 2^255 = 19 *)
Definition fold255 (z : Z) : Z := Z.land z (Z.ones 255) + 19 * Z.shiftr z 255.
Definition mulm (a b : Z) : Z := fold255 (fold255 (a * b)).
Fixpoint powm (a : Z) (n : positive) : Z :=
  match n with
  | xH => a
  | xO n => let b := powm a n in mulm b b
  | xI n => let b := powm a n in mulm a (mulm b b)
  end.

Lemma ofZ_fold255 z : ofZ (fold255 z) = ofZ z.
Proof.
  apply (ofZ_congr _ _ (- Z.shiftr z 255)). unfold fold255.
  rewrite Z.land_ones, Z.shiftr_div_pow2 by lia. change p25519 with (2 ^ 255 - 19).
  pose proof (Z.div_mod z (2 ^ 255)). lia.
Qed.

Lemma ofZ_mulm a b : ofZ (mulm a b) = (ofZ a * ofZ b)%Zmod.
Proof. unfold mulm. rewrite !ofZ_fold255. apply ofZ_mul. Qed.

Lemma ofZ_powm a n : ofZ (powm a n) = (ofZ a ^ Zpos n)%Zmod.
Proof.
  induction n as [n IH|n IH|]; cbn [powm]; rewrite ?ofZ_mulm, ?IH; [..|by rewrite Zmod.pow_1_r].
  - rewrite Pos2Z.inj_xI, Z.mul_comm, Z.add_comm, Zmod.pow_add_r_nonneg, Zmod.pow_1_r, Zmod.pow_mul_r_nonneg, Zmod.pow_2_r by lia.
    done.
  - rewrite Pos2Z.inj_xO, Z.mul_comm, Zmod.pow_mul_r_nonneg, Zmod.pow_2_r by lia. done.
Qed.
