(* ===== verification/FeSpec.v ===== *)
(** What the field operations of [fe.c] compute: under the limb bounds their
    comments ask for, each is defined (no [int32_t] or [int64_t] overflow),
    respects the bounds it promises, and computes its operation of
    Z/(2^255-19). *)
From S2P Require Import Prelude CInt Fe Prime25519.

(** * Value and bounds of a limb vector *)
Definition limbs_val (h0 h1 h2 h3 h4 h5 h6 h7 h8 h9 : Z) : Z :=
  h0 + 2 ^ 26 * h1 + 2 ^ 51 * h2 + 2 ^ 77 * h3 + 2 ^ 102 * h4 + 2 ^ 128 * h5 +
  2 ^ 153 * h6 + 2 ^ 179 * h7 + 2 ^ 204 * h8 + 2 ^ 230 * h9.
Definition fe_val (f : fe) : Z :=
  let 'Fe f0 f1 f2 f3 f4 f5 f6 f7 f8 f9 := f in limbs_val f0 f1 f2 f3 f4 f5 f6 f7 f8 f9.
(** The field element a limb vector stands for. *)
Definition fe_F (f : fe) : F := ofZ (fe_val f).

(** [fe_bd n f]: the limbs are bounded by [n/100 * 2^25] and [n/100 * 2^24]
    alternately; the comments' 1.01, 1.1 (twice) and 1.65 (twice) are
    [fe_bd 101], [fe_bd 220] and [fe_bd 330]. *)
Definition bd (n k x : Z) : Prop := - n * 2 ^ k <= 100 * x <= n * 2 ^ k.
Definition fe_bd (n : Z) (f : fe) : Prop :=
  let 'Fe f0 f1 f2 f3 f4 f5 f6 f7 f8 f9 := f in
  bd n 25 f0 /\ bd n 24 f1 /\ bd n 25 f2 /\ bd n 24 f3 /\ bd n 25 f4 /\
  bd n 24 f5 /\ bd n 25 f6 /\ bd n 24 f7 /\ bd n 25 f8 /\ bd n 24 f9.

Definition bdb (n k x : Z) : bool := (- n * 2 ^ k <=? 100 * x) && (100 * x <=? n * 2 ^ k).
Definition fe_bdb (n : Z) (f : fe) : bool :=
  let 'Fe f0 f1 f2 f3 f4 f5 f6 f7 f8 f9 := f in
  bdb n 25 f0 && bdb n 24 f1 && bdb n 25 f2 && bdb n 24 f3 && bdb n 25 f4 &&
  bdb n 24 f5 && bdb n 25 f6 && bdb n 24 f7 && bdb n 25 f8 && bdb n 24 f9.

Lemma fe_bdb_spec n f : fe_bdb n f = true -> fe_bd n f.
Proof.
  destruct f. unfold fe_bdb, fe_bd, bdb, bd. rewrite !andb_true_iff, !Z.leb_le. tauto.
Qed.

Lemma fe_bd_mono n m f : n <= m -> fe_bd n f -> fe_bd m f.
Proof. destruct f. unfold fe_bd, bd. lia. Qed.

Ltac fe_ranges n25 n24 :=
  repeat match goal with
  | H : fe_bd _ _ /\ _ |- _ => destruct H
  | H : bd _ _ _ /\ _ |- _ => destruct H
  | H : bd _ 25 ?x |- _ => assert (- n25 <= x <= n25) by (unfold bd in H; lia); unfold bd in H
  | H : bd _ 24 ?x |- _ => assert (- n24 <= x <= n24) by (unfold bd in H; lia); unfold bd in H
  end.
Ltac i32_ids :=
  repeat match goal with
  | R : _ <= ?x <= _ |- context [i32 ?x] => rewrite (i32_id x _ _ R) by vmtrue
  end.

(** * Addition, subtraction, negation *)
Lemma bd_nonneg n k x : bd n k x -> 0 <= k -> 0 <= n.
Proof. unfold bd. intros H Hk. pose proof (Z.pow_pos_nonneg 2 k). nia. Qed.

Lemma fe_bd_nonneg n f : fe_bd n f -> 0 <= n.
Proof. destruct f. intros [H _]. by apply (bd_nonneg _ _ _ H). Qed.

Section linear.
Context (n m : Z) (f g : fe) (Hf : fe_bd n f) (Hg : fe_bd m g) (Hnm : n + m <= 660).

Lemma fe_add_spec : wp (fe_add f g) (fun h => fe_bd (n + m) h /\ fe_F h = (fe_F f + fe_F g)%Zmod).
Proof.
  pose proof (fe_bd_nonneg _ _ Hf). pose proof (fe_bd_nonneg _ _ Hg).
  destruct f as [f0 f1 f2 f3 f4 f5 f6 f7 f8 f9], g as [g0 g1 g2 g3 g4 g5 g6 g7 g8 g9].
  cbn [fe_bd] in *. fe_ranges 221459251 110729625. unfold fe_add.
  repeat wp_step. cbn [wp fe_bd]. unfold fe_F. rewrite <- ofZ_add. split.
  - unfold bd. split_and!; lia.
  - f_equal. subst. unfold fe_val, limbs_val. ring.
Qed.

Lemma fe_sub_spec : wp (fe_sub f g) (fun h => fe_bd (n + m) h /\ fe_F h = (fe_F f - fe_F g)%Zmod).
Proof.
  pose proof (fe_bd_nonneg _ _ Hf). pose proof (fe_bd_nonneg _ _ Hg).
  destruct f as [f0 f1 f2 f3 f4 f5 f6 f7 f8 f9], g as [g0 g1 g2 g3 g4 g5 g6 g7 g8 g9].
  cbn [fe_bd] in *. fe_ranges 221459251 110729625. unfold fe_sub.
  repeat wp_step. cbn [wp fe_bd]. unfold fe_F. rewrite <- ofZ_sub. split.
  - unfold bd. split_and!; lia.
  - f_equal. subst. unfold fe_val, limbs_val. ring.
Qed.
End linear.

Lemma fe_neg_spec n f : fe_bd n f -> n <= 660 ->
  wp (fe_neg f) (fun h => fe_bd n h /\ fe_F h = (- fe_F f)%Zmod).
Proof.
  intros Hf Hn. destruct f as [f0 f1 f2 f3 f4 f5 f6 f7 f8 f9].
  cbn [fe_bd] in *. fe_ranges 221459251 110729625. unfold fe_neg.
  repeat wp_step. cbn [wp fe_bd]. unfold fe_F. rewrite <- ofZ_opp. split.
  - unfold bd. split_and!; lia.
  - f_equal. subst. unfold fe_val, limbs_val. ring.
Qed.

(** * The carry chain *)
Definition acc_range (x : Z) : Prop := - (3 * 2 ^ 60) <= x <= 3 * 2 ^ 60.

Lemma fe_mul_carry_spec h0 h1 h2 h3 h4 h5 h6 h7 h8 h9 :
  acc_range h0 -> acc_range h1 -> acc_range h2 -> acc_range h3 -> acc_range h4 ->
  acc_range h5 -> acc_range h6 -> acc_range h7 -> acc_range h8 -> acc_range h9 ->
  wp (fe_mul_carry h0 h1 h2 h3 h4 h5 h6 h7 h8 h9)
    (fun h => fe_bd 101 h /\ fe_F h = ofZ (limbs_val h0 h1 h2 h3 h4 h5 h6 h7 h8 h9)).
Proof.
  unfold acc_range. intros. unfold fe_mul_carry. repeat wp_step.
  cbn [wp fe_bd]. i32_ids. split; [unfold bd; lia|].
  lazymatch goal with E : _ = _ + ?c * 19 |- _ => apply (ofZ_congr _ _ (- c)) end.
  cbn [fe_val]. subst. unfold limbs_val, p25519. ring.
Qed.

(** The ranges of [fe_mul]'s accumulators are far inside [acc_range]. *)
Ltac acc_ranges :=
  lazymatch goal with
  | |- wp (fe_mul_carry ?h0 ?h1 ?h2 ?h3 ?h4 ?h5 ?h6 ?h7 ?h8 ?h9) _ =>
      eapply wp_mono;
      [apply (fe_mul_carry_spec h0 h1 h2 h3 h4 h5 h6 h7 h8 h9);
       unfold acc_range; lia|]
  end.

(** * Multiplication and squaring

    The part of the product that wraps around: the coefficients of the
    limb products of weight 2^255 and above. *)
Definition mul_hi (f g : fe) : Z :=
  let 'Fe f0 f1 f2 f3 f4 f5 f6 f7 f8 f9 := f in
  let 'Fe g0 g1 g2 g3 g4 g5 g6 g7 g8 g9 := g in
  2 ^ 0 * (2 * (f1 * g9) + f2 * g8 + 2 * (f3 * g7) + f4 * g6 + 2 * (f5 * g5) + f6 * g4 + 2 * (f7 * g3) + f8 * g2 + 2 * (f9 * g1)) +
   2 ^ 26 * (f2 * g9 + f3 * g8 + f4 * g7 + f5 * g6 + f6 * g5 + f7 * g4 + f8 * g3 + f9 * g2) +
   2 ^ 51 * (2 * (f3 * g9) + f4 * g8 + 2 * (f5 * g7) + f6 * g6 + 2 * (f7 * g5) + f8 * g4 + 2 * (f9 * g3)) +
   2 ^ 77 * (f4 * g9 + f5 * g8 + f6 * g7 + f7 * g6 + f8 * g5 + f9 * g4) +
   2 ^ 102 * (2 * (f5 * g9) + f6 * g8 + 2 * (f7 * g7) + f8 * g6 + 2 * (f9 * g5)) +
   2 ^ 128 * (f6 * g9 + f7 * g8 + f8 * g7 + f9 * g6) +
   2 ^ 153 * (2 * (f7 * g9) + f8 * g8 + 2 * (f9 * g7)) +
   2 ^ 179 * (f8 * g9 + f9 * g8) +
   2 ^ 204 * (2 * (f9 * g9)).

Lemma fe_mul_spec f g : fe_bd 330 f -> fe_bd 330 g ->
  wp (fe_mul f g) (fun h => fe_bd 101 h /\ fe_F h = (fe_F f * fe_F g)%Zmod).
Proof.
  intros Hf Hg. pose (k := mul_hi f g).
  destruct f as [f0 f1 f2 f3 f4 f5 f6 f7 f8 f9], g as [g0 g1 g2 g3 g4 g5 g6 g7 g8 g9].
  cbn [fe_bd] in *. fe_ranges 110729625 55364812. unfold fe_mul.
  repeat wp_step. acc_ranges. intros h [Hb Hv]. split; [done|]. rewrite Hv. unfold fe_F.
  rewrite <- ofZ_mul. apply (ofZ_congr _ _ (- k)). subst. subst k.
  cbn [fe_val mul_hi]. unfold limbs_val, p25519. ring.
Qed.

Lemma fe_sq_spec f : fe_bd 330 f ->
  wp (fe_sq f) (fun h => fe_bd 101 h /\ fe_F h = (fe_F f * fe_F f)%Zmod).
Proof.
  intros Hf. pose (k := mul_hi f f). destruct f as [f0 f1 f2 f3 f4 f5 f6 f7 f8 f9].
  cbn [fe_bd] in *. fe_ranges 110729625 55364812. unfold fe_sq.
  repeat wp_step. acc_ranges. intros h [Hb Hv]. split; [done|]. rewrite Hv. unfold fe_F.
  rewrite <- ofZ_mul. apply (ofZ_congr _ _ (- k)). subst. subst k.
  cbn [fe_val mul_hi]. unfold limbs_val, p25519. ring.
Qed.

Lemma fe_sq2_spec f : fe_bd 330 f ->
  wp (fe_sq2 f) (fun h => fe_bd 101 h /\ fe_F h = (fe_F f * fe_F f + fe_F f * fe_F f)%Zmod).
Proof.
  intros Hf. pose (k := mul_hi f f). destruct f as [f0 f1 f2 f3 f4 f5 f6 f7 f8 f9].
  cbn [fe_bd] in *. fe_ranges 110729625 55364812. unfold fe_sq2.
  repeat wp_step. acc_ranges. intros h [Hb Hv]. split; [done|]. rewrite Hv. unfold fe_F.
  rewrite <- ofZ_mul, <- ofZ_add. apply (ofZ_congr _ _ (- (2 * k))). subst. subst k.
  cbn [fe_val mul_hi]. unfold limbs_val, p25519. ring.
Qed.

Lemma fe_mul121666_spec f : fe_bd 220 f ->
  wp (fe_mul121666 f) (fun h => fe_bd 110 h /\ fe_F h = (fe_F f * ofZ 121666)%Zmod).
Proof.
  intros Hf. destruct f as [f0 f1 f2 f3 f4 f5 f6 f7 f8 f9].
  cbn [fe_bd] in *. fe_ranges 73819750 36909875. unfold fe_mul121666.
  repeat wp_step. cbn [wp fe_bd]. i32_ids. split; [unfold bd; lia|].
  unfold fe_F. rewrite <- ofZ_mul.
  lazymatch goal with E : _ = _ + ?c * 19 |- _ => apply (ofZ_congr _ _ (- c)) end.
  cbn [fe_val]. subst. unfold limbs_val, p25519. ring.
Qed.
