(* ===== verification/FeBytes.v ===== *)
(** Bytes and field elements: [fe_frombytes] reads the low 255 bits of a
    little-endian string, [fe_tobytes] writes the canonical residue, and the
    exponentiation chains, sign and zero tests built on them. *)
From S2P Require Import Prelude CInt Fe Prime25519 FeSpec.

Lemma le_decode_app a b : le_decode (a ++ b) = le_decode a + 256 ^ zlen a * le_decode b.
Proof.
  induction a as [|x a IH]; [simpl; lia|].
  rewrite <- app_comm_cons. simpl le_decode. rewrite IH, length_cons, Nat2Z.inj_succ, Z.pow_succ_r by lia. ring.
Qed.

Lemma le_decode_drop s o : bytes_wf s -> 0 <= o <= zlen s ->
  le_decode (s +p o) = le_decode s / 2 ^ (8 * o).
Proof.
  intros Hs Ho. rewrite <- (take_drop (Z.to_nat o) s) at 2. rewrite le_decode_app.
  pose proof (le_decode_bound (take (Z.to_nat o) s) (bytes_wf_take _ _ Hs)) as Hb.
  rewrite length_take, Nat.min_l, Z2Nat.id in * by lia.
  change 256 with (2 ^ 8) in *. rewrite <- Z.pow_mul_r in * by lia.
  rewrite Z.mul_comm, Z.div_add, Z.div_small by lia. done.
Qed.

Lemma load_3_spec s o : bytes_wf s -> 0 <= o -> o + 3 <= zlen s ->
  load_3 (s +p o) = Some ((le_decode s / 2 ^ (8 * o)) mod 2 ^ 24).
Proof.
  intros Hs Ho Hl. rewrite <- le_decode_drop by (done || lia).
  assert (bytes_wf (s +p o)) as Hw by (by apply bytes_wf_drop).
  assert (3 <= zlen (s +p o)) as Hl' by (rewrite length_ptr_add; lia).
  destruct (s +p o) as [|a [|b [|c r]]]; cbn [length] in Hl'; try lia. clear Hl'.
  inversion Hw as [|?? Ha Hw1]; inversion Hw1 as [|?? Hb Hw2]; inversion Hw2 as [|?? Hc Hw3]; subst.
  unfold is_byte in *. cbn [load_3 lookup list_lookup le_decode].
  rewrite !(u64_small (Z.shiftl _ _)) by (rewrite Z.shiftl_mul_pow2 by lia; unfold is_u64; lia).
  rewrite (lor_shiftl_add a b), (lor_shiftl_add _ c) by lia. f_equal.
  apply (Zmod_unique _ _ (le_decode r)); lia.
Qed.

Lemma load_4_spec s o : bytes_wf s -> 0 <= o -> o + 4 <= zlen s ->
  load_4 (s +p o) = Some ((le_decode s / 2 ^ (8 * o)) mod 2 ^ 32).
Proof.
  intros Hs Ho Hl. rewrite <- le_decode_drop by (done || lia).
  assert (bytes_wf (s +p o)) as Hw by (by apply bytes_wf_drop).
  assert (4 <= zlen (s +p o)) as Hl' by (rewrite length_ptr_add; lia).
  destruct (s +p o) as [|a [|b [|c [|d r]]]]; cbn [length] in Hl'; try lia. clear Hl'.
  inversion Hw as [|?? Ha Hw1]; inversion Hw1 as [|?? Hb Hw2]; inversion Hw2 as [|?? Hc Hw3];
    inversion Hw3 as [|?? Hd Hw4]; subst.
  unfold is_byte in *. cbn [load_4 lookup list_lookup le_decode].
  rewrite !(u64_small (Z.shiftl _ _)) by (rewrite Z.shiftl_mul_pow2 by lia; unfold is_u64; lia).
  rewrite (lor_shiftl_add a b), (lor_shiftl_add _ c), (lor_shiftl_add _ d) by lia. f_equal.
  apply (Zmod_unique _ _ (le_decode r)); lia.
Qed.

(** Taking a further chunk of the bits of [n]. *)
Lemma chunk n a k : 0 <= a -> 0 <= k -> n / 2 ^ a = (n / 2 ^ a) mod 2 ^ k + 2 ^ k * (n / 2 ^ (a + k)).
Proof.
  intros. rewrite Z.pow_add_r, <- Z.div_div by lia.
  pose proof (Z.div_mod (n / 2 ^ a) (2 ^ k)). lia.
Qed.
Ltac use_chunk n a k :=
  let b := eval vm_compute in (a + k) in
  assert (n / 2 ^ a = (n / 2 ^ a) mod 2 ^ k + 2 ^ k * (n / 2 ^ b))
    by (apply (chunk n a k); lia).
Ltac fold_bits :=
  repeat match goal with
  | |- context [8 * Z.pos ?k] => let v := eval vm_compute in (8 * Z.pos k) in change (8 * Z.pos k) with v
  | |- context [8 * 0] => change (8 * 0) with 0
  end.

Lemma ev_load_3 s o : bytes_wf s -> 0 <= o -> o + 3 <= zlen s ->
  ev (load_3 (s +p o)) ((le_decode s / 2 ^ (8 * o)) mod 2 ^ 24) 0 (2 ^ 24 - 1).
Proof.
  intros. split; [by apply load_3_spec|].
  pose proof (Z.mod_pos_bound (le_decode s / 2 ^ (8 * o)) (2 ^ 24)). lia.
Qed.

Lemma ev_load_4 s o : bytes_wf s -> 0 <= o -> o + 4 <= zlen s ->
  ev (load_4 (s +p o)) ((le_decode s / 2 ^ (8 * o)) mod 2 ^ 32) 0 (2 ^ 32 - 1).
Proof.
  intros. split; [by apply load_4_spec|].
  pose proof (Z.mod_pos_bound (le_decode s / 2 ^ (8 * o)) (2 ^ 32)). lia.
Qed.

Lemma ev_ushl a x lo hi n : ev a x lo hi ->
  (0 <=? n) && (0 <=? lo) && (hi * 2 ^ n <? 2 ^ 64) = true ->
  ev (ushl a n) (x * 2 ^ n) (lo * 2 ^ n) (hi * 2 ^ n).
Proof.
  intros [-> Rx] [[Hn%Z.leb_le Hl%Z.leb_le]%andb_prop Hh%Z.ltb_lt]%andb_prop.
  pose proof (Z.pow_pos_nonneg 2 n). cbn [ushl]. rewrite Z.shiftl_mul_pow2 by done.
  split; [|nia]. rewrite u64_small; [done|]. unfold is_u64. nia.
Qed.

Lemma ev_uand a x lo hi m n : ev a x lo hi -> (0 <=? n) && (m =? 2 ^ n - 1) && (0 <=? lo) = true ->
  ev (uand m a) (x mod 2 ^ n) 0 m.
Proof.
  intros [-> Rx] [[Hn%Z.leb_le ->%Z.eqb_eq]%andb_prop Hl%Z.leb_le]%andb_prop.
  cbn [uand]. rewrite Z.sub_1_r, <- Z.ones_equiv, Z.land_comm, Z.land_ones by done.
  split; [done|]. pose proof (Z.pow_pos_nonneg 2 n). pose proof (Z.mod_pos_bound x (2 ^ n)).
  rewrite Z.ones_equiv. lia.
Qed.

Lemma ev_int64 a x lo hi : ev a x lo hi -> inr64 lo hi = true -> ev (int64 a) x lo hi.
Proof.
  unfold inr64. intros [-> Rx] [??]%andb_prop. split; [|done]. cbn [int64]. f_equal.
  unfold i64. rewrite Z.mod_small; lia.
Qed.

Ltac ev_leaf ::=
  lazymatch goal with
  | |- ev (load_3 _) _ _ _ => apply ev_load_3; [done|lia|lia]
  | |- ev (load_4 _) _ _ _ => apply ev_load_4; [done|lia|lia]
  | |- ev (ushl _ _) _ _ _ => eapply ev_ushl; [ev_solve|vmtrue]
  | |- ev (uand 8388607 _) _ _ _ => eapply (ev_uand _ _ _ _ _ 23); [ev_solve|vmtrue]
  | |- ev (uand 2097151 _) _ _ _ => eapply (ev_uand _ _ _ _ _ 21); [ev_solve|vmtrue]
  | |- ev (int64 _) _ _ _ => eapply ev_int64; [ev_solve|vmtrue]
  end.

Lemma frombytes_limbs N :
  limbs_val ((N / 2 ^ (8 * 0)) mod 2 ^ 32) ((N / 2 ^ (8 * 4)) mod 2 ^ 24 * 2 ^ 6)
    ((N / 2 ^ (8 * 7)) mod 2 ^ 24 * 2 ^ 5) ((N / 2 ^ (8 * 10)) mod 2 ^ 24 * 2 ^ 3)
    ((N / 2 ^ (8 * 13)) mod 2 ^ 24 * 2 ^ 2) ((N / 2 ^ (8 * 16)) mod 2 ^ 32)
    ((N / 2 ^ (8 * 20)) mod 2 ^ 24 * 2 ^ 7) ((N / 2 ^ (8 * 23)) mod 2 ^ 24 * 2 ^ 5)
    ((N / 2 ^ (8 * 26)) mod 2 ^ 24 * 2 ^ 4)
    (((N / 2 ^ (8 * 29)) mod 2 ^ 24) mod 2 ^ 23 * 2 ^ 2) = N mod 2 ^ 255.
Proof.
  rewrite (Z.mod_mod_divide _ (2 ^ 24) (2 ^ 23)) by (exists 2; reflexivity).
  use_chunk N 0 32. use_chunk N 32 24. use_chunk N 56 24. use_chunk N 80 24. use_chunk N 104 24.
  use_chunk N 128 32. use_chunk N 160 24. use_chunk N 184 24. use_chunk N 208 24. use_chunk N 232 23.
  rewrite (Z.mod_eq N (2 ^ 255)) by lia. rewrite <- (Z.div_1_r N) at 11. unfold limbs_val.
  fold_bits. change (2 ^ 0) with 1 in *.
  lia.
Qed.

Lemma fe_frombytes_spec s : bytes_wf s -> 32 <= zlen s ->
  wp (fe_frombytes s) (fun h => fe_bd 101 h /\ fe_F h = ofZ (le_decode s mod 2 ^ 255)).
Proof.
  intros Hs Hl. unfold fe_frombytes. change (load_4 s) with (load_4 (s +p 0)).
  repeat wp_step. cbn [wp fe_bd]. i32_ids. split; [unfold bd; lia|].
  unfold fe_F.
  lazymatch goal with E : _ = _ + ?c * 19 |- _ => apply (ofZ_congr _ _ (- c)) end.
  cbn [fe_val]. rewrite <- frombytes_limbs.
  repeat match goal with E : ?h = ?e |- context [?e] => rewrite <- E end.
  repeat match goal with
         E : _ = ?e |- _ => lazymatch e with context [_ mod _] => clear E end end.
  subst. unfold limbs_val, p25519. ring.
Qed.

Lemma shiftr_bounds x y n : 0 <= n -> y = Z.shiftr x n -> 2 ^ n * y <= x <= 2 ^ n * y + (2 ^ n - 1).
Proof.
  intros Hn ->. rewrite Z.shiftr_div_pow2 by done. pose proof (Z.pow_pos_nonneg 2 n).
  pose proof (Z.div_mod x (2 ^ n)). pose proof (Z.mod_pos_bound x (2 ^ n)). lia.
Qed.

Lemma quotient_estimate V L h9 q0 q :
  V = 2 ^ 230 * h9 + L -> - 2 ^ 231 <= L <= 2 ^ 231 -> -36909875 <= h9 <= 36909875 ->
  2 ^ 25 * q0 <= 19 * h9 + 2 ^ 24 <= 2 ^ 25 * q0 + (2 ^ 25 - 1) ->
  2 ^ 255 * q <= V + q0 <= 2 ^ 255 * q + (2 ^ 255 - 1) ->
  0 <= V - p25519 * q < p25519.
Proof.
  intros. pose proof (Z.div_mod V p25519) as Hd. pose proof (Z.mod_pos_bound V p25519) as Hm.
  unfold p25519 in *. set (Q := V / (2 ^ 255 - 19)) in *. set (R := V mod (2 ^ 255 - 19)) in *.
  clearbody Q R. assert (q = Q) by lia. lia.
Qed.

(** The byte where two limbs meet, at either width of the unsigned shift. *)
Lemma join_byte_gen w x y k : 8 <= w -> 0 <= k <= 8 -> 0 <= x < 2 ^ k -> 0 <= y < 2 ^ w ->
  (Z.lor (x mod 2 ^ w) (Z.shiftl (y mod 2 ^ w) k mod 2 ^ w)) mod 2 ^ 8 = x + 2 ^ k * (y mod 2 ^ (8 - k)).
Proof.
  intros Hw Hk Hx Hy.
  assert (2 ^ k <= 2 ^ 8) by (apply Z.pow_le_mono_r; lia).
  assert (2 ^ 8 <= 2 ^ w) by (apply Z.pow_le_mono_r; lia).
  rewrite !(Z.mod_small x), (Z.mod_small y) by lia. rewrite Z.shiftl_mul_pow2 by lia.
  replace (2 ^ w) with (2 ^ k * 2 ^ (w - k)) by (rewrite <- Z.pow_add_r by lia; f_equal; lia).
  rewrite (Z.mul_comm y), Zmult_mod_distr_l, Z.mul_comm, <- Z.shiftl_mul_pow2 by lia.
  rewrite lor_shiftl_add by lia.
  replace (2 ^ 8) with (2 ^ k * 2 ^ (8 - k)) by (rewrite <- Z.pow_add_r by lia; f_equal; lia).
  rewrite (Z.mul_comm _ (2 ^ k)), Z.add_comm.
  rewrite Z.rem_mul_r by (apply Z.pow_nonzero || apply Z.pow_pos_nonneg; lia).
  pose proof (Z.pow_pos_nonneg 2 k).
  rewrite (Z.add_comm (2 ^ k * _)), (Z.mul_comm (2 ^ k) (y mod _)), Z.mod_add, (Z.mod_small x) by lia.
  rewrite Z.div_add, Z.div_small, Z.add_0_l by lia. f_equal. f_equal.
  apply Z.mod_mod_divide. exists (2 ^ (w - 8)). rewrite <- Z.pow_add_r by lia. f_equal. lia.
Qed.

Lemma join_byte x y k : 0 <= k <= 8 -> 0 <= x < 2 ^ k -> 0 <= y < 2 ^ 32 ->
  u8 (Z.lor (u32 x) (u32 (Z.shiftl (u32 y) k))) = x + 2 ^ k * (y mod 2 ^ (8 - k)).
Proof. intros. by apply (join_byte_gen 32). Qed.

Lemma join_byte64 x y k : 0 <= k <= 8 -> 0 <= x < 2 ^ k -> 0 <= y < 2 ^ 64 ->
  u8 (Z.lor (u64 x) (u64 (Z.shiftl (u64 y) k))) = x + 2 ^ k * (y mod 2 ^ (8 - k)).
Proof. intros. by apply (join_byte_gen 64). Qed.

Definition limb_bytes (h0 h1 h2 h3 h4 h5 h6 h7 h8 h9 : Z) : list Z :=
  [u8 (Z.shiftr h0 0);
        u8 (Z.shiftr h0 8);
        u8 (Z.shiftr h0 16);
        u8 (Z.lor (u32 (Z.shiftr h0 24)) (u32 (Z.shiftl (u32 h1) 2)));
        u8 (Z.shiftr h1 6);
        u8 (Z.shiftr h1 14);
        u8 (Z.lor (u32 (Z.shiftr h1 22)) (u32 (Z.shiftl (u32 h2) 3)));
        u8 (Z.shiftr h2 5);
        u8 (Z.shiftr h2 13);
        u8 (Z.lor (u32 (Z.shiftr h2 21)) (u32 (Z.shiftl (u32 h3) 5)));
        u8 (Z.shiftr h3 3);
        u8 (Z.shiftr h3 11);
        u8 (Z.lor (u32 (Z.shiftr h3 19)) (u32 (Z.shiftl (u32 h4) 6)));
        u8 (Z.shiftr h4 2);
        u8 (Z.shiftr h4 10);
        u8 (Z.shiftr h4 18);
        u8 (Z.shiftr h5 0);
        u8 (Z.shiftr h5 8);
        u8 (Z.shiftr h5 16);
        u8 (Z.lor (u32 (Z.shiftr h5 24)) (u32 (Z.shiftl (u32 h6) 1)));
        u8 (Z.shiftr h6 7);
        u8 (Z.shiftr h6 15);
        u8 (Z.lor (u32 (Z.shiftr h6 23)) (u32 (Z.shiftl (u32 h7) 3)));
        u8 (Z.shiftr h7 5);
        u8 (Z.shiftr h7 13);
        u8 (Z.lor (u32 (Z.shiftr h7 21)) (u32 (Z.shiftl (u32 h8) 4)));
        u8 (Z.shiftr h8 4);
        u8 (Z.shiftr h8 12);
        u8 (Z.lor (u32 (Z.shiftr h8 20)) (u32 (Z.shiftl (u32 h9) 6)));
        u8 (Z.shiftr h9 2);
        u8 (Z.shiftr h9 10);
        u8 (Z.shiftr h9 18)].

Lemma limb_bytes_decode h0 h1 h2 h3 h4 h5 h6 h7 h8 h9 :
  0 <= h0 <= 2 ^ 26 - 1 -> 0 <= h1 <= 2 ^ 25 - 1 -> 0 <= h2 <= 2 ^ 26 - 1 ->
  0 <= h3 <= 2 ^ 25 - 1 -> 0 <= h4 <= 2 ^ 26 - 1 -> 0 <= h5 <= 2 ^ 25 - 1 ->
  0 <= h6 <= 2 ^ 26 - 1 -> 0 <= h7 <= 2 ^ 25 - 1 -> 0 <= h8 <= 2 ^ 26 - 1 ->
  0 <= h9 <= 2 ^ 25 - 1 ->
  le_decode (limb_bytes h0 h1 h2 h3 h4 h5 h6 h7 h8 h9) = limbs_val h0 h1 h2 h3 h4 h5 h6 h7 h8 h9.
Proof.
  intros. unfold limb_bytes.
  rewrite !Z.shiftr_div_pow2 by lia.
  rewrite !join_byte by (first [lia|split; [apply Z.div_pos; lia|apply Z.div_lt_upper_bound; lia]]).
  assert (h4 / 2 ^ 26 = 0) by (apply Z.div_small; lia).
  assert (h9 / 2 ^ 26 = 0) by (apply Z.div_small; lia).
  use_chunk h0 0 8. use_chunk h0 8 8. use_chunk h0 16 8.
  use_chunk h1 0 6. use_chunk h1 6 8. use_chunk h1 14 8.
  use_chunk h2 0 5. use_chunk h2 5 8. use_chunk h2 13 8.
  use_chunk h3 0 3. use_chunk h3 3 8. use_chunk h3 11 8.
  use_chunk h4 0 2. use_chunk h4 2 8. use_chunk h4 10 8. use_chunk h4 18 8.
  use_chunk h5 0 8. use_chunk h5 8 8. use_chunk h5 16 8.
  use_chunk h6 0 7. use_chunk h6 7 8. use_chunk h6 15 8.
  use_chunk h7 0 5. use_chunk h7 5 8. use_chunk h7 13 8.
  use_chunk h8 0 4. use_chunk h8 4 8. use_chunk h8 12 8.
  use_chunk h9 0 2. use_chunk h9 2 8. use_chunk h9 10 8. use_chunk h9 18 8.
  cbn [le_decode]. unfold u8, limbs_val.
  change (8 - 1) with 7. change (8 - 2) with 6. change (8 - 3) with 5. change (8 - 4) with 4.
  change (8 - 5) with 3. change (8 - 6) with 2. change (2 ^ 0) with 1 in *.
  rewrite !Z.div_1_r in *. lia.
Qed.

Lemma limb_bytes_wf h0 h1 h2 h3 h4 h5 h6 h7 h8 h9 :
  bytes_wf (limb_bytes h0 h1 h2 h3 h4 h5 h6 h7 h8 h9).
Proof. repeat constructor; apply u8_byte. Qed.

(** The estimate [q] of the comment is the quotient by p. *)
Lemma quotient_chain h0 h1 h2 h3 h4 h5 h6 h7 h8 h9 q q0 q1 q2 q3 q4 q5 q6 q7 q8 q9 :
  q0 = Z.shiftr (h0 + q) 26 -> q1 = Z.shiftr (h1 + q0) 25 -> q2 = Z.shiftr (h2 + q1) 26 ->
  q3 = Z.shiftr (h3 + q2) 25 -> q4 = Z.shiftr (h4 + q3) 26 -> q5 = Z.shiftr (h5 + q4) 25 ->
  q6 = Z.shiftr (h6 + q5) 26 -> q7 = Z.shiftr (h7 + q6) 25 -> q8 = Z.shiftr (h8 + q7) 26 ->
  q9 = Z.shiftr (h9 + q8) 25 ->
  2 ^ 255 * q9 <= limbs_val h0 h1 h2 h3 h4 h5 h6 h7 h8 h9 + q <= 2 ^ 255 * q9 + (2 ^ 255 - 1).
Proof.
  intros E0 E1 E2 E3 E4 E5 E6 E7 E8 E9. unfold limbs_val.
  apply shiftr_bounds in E0, E1, E2, E3, E4, E5, E6, E7, E8, E9; lia.
Qed.

Lemma fe_tobytes_spec h : fe_bd 220 h ->
  wp (fe_tobytes h) (fun s => s = le_encode 32 (fe_val h mod p25519)).
Proof.
  intros Hh. destruct h as [h0 h1 h2 h3 h4 h5 h6 h7 h8 h9].
  cbn [fe_bd] in *. fe_ranges 73819750 36909875. unfold fe_tobytes.
  wp_step. do 10 wp_step.
  pose proof (quotient_chain h0 h1 h2 h3 h4 h5 h6 h7 h8 h9 q q0 q1 q2 q3 q4 q5 q6 q7 q8 q9
    E0 E1 E2 E3 E4 E5 E6 E7 E8 E9) as Hq.
  apply shiftr_bounds in E; [|lia].
  assert (0 <= fe_val (Fe h0 h1 h2 h3 h4 h5 h6 h7 h8 h9) - p25519 * q9 < p25519) as Hr.
  { apply (quotient_estimate _ (fe_val (Fe h0 h1 h2 h3 h4 h5 h6 h7 h8 0)) h9 q);
      [unfold fe_val, limbs_val; ring|unfold fe_val, limbs_val; lia|lia|lia|done]. }
  clear Hq E E0 E1 E2 E3 E4 E5 E6 E7 E8 E9.
  repeat wp_step. cbn [wp].
  eapply (eq_trans (y := limb_bytes _ _ _ _ _ _ _ _ _ _)); [reflexivity|].
  rewrite <- (le_encode_decode _ (limb_bytes_wf _ _ _ _ _ _ _ _ _ _)).
  rewrite limb_bytes_decode by lia. f_equal.
  match goal with |- limbs_val ?a ?b ?c ?d ?e ?f ?g ?h ?i ?j = _ =>
    assert (0 <= limbs_val a b c d e f g h i j < 2 ^ 255) as Hv by (unfold limbs_val; lia);
    assert (limbs_val a b c d e f g h i j =
      fe_val (Fe h0 h1 h2 h3 h4 h5 h6 h7 h8 h9) + 19 * q9 - 2 ^ 255 * carry9) as Ev
  end.
  { clear -E E1 E2 E4 E5 E7 E8 E10 E11 E13 E14 E16 E17 E19 E20 E22 E23 E25 E26 E28.
    subst. unfold fe_val, limbs_val. ring. }
  rewrite Ev in *. clear Ev. set (V := fe_val _) in *. clearbody V.
  apply (Zmod_unique _ _ q9); unfold p25519 in *; lia.
Qed.

(** * Canonical bytes *)
Definition F_bytes (x : F) : list Z := le_encode 32 (Zmod.to_Z x).

Lemma fe_tobytes_F h : fe_bd 220 h -> fe_tobytes h = Some (F_bytes (fe_F h)).
Proof.
  intros Hh. pose proof (fe_tobytes_spec h Hh) as H. apply wp_some in H as (s & -> & ->).
  unfold F_bytes, fe_F. by rewrite to_Z_ofZ.
Qed.

Lemma F_bytes_wf x : bytes_wf (F_bytes x).
Proof. apply le_encode_wf. Qed.

Lemma length_F_bytes x : length (F_bytes x) = 32%nat.
Proof. apply length_le_encode. Qed.

Lemma le_decode_F_bytes x : le_decode (F_bytes x) = Zmod.to_Z x.
Proof.
  apply le_decode_encode. pose proof (F_range x). assert (p25519 < 2 ^ 256) by done.
  change (256 ^ Z.of_nat 32) with (2 ^ 256). lia.
Qed.

Lemma F_bytes_inj x y : F_bytes x = F_bytes y -> x = y.
Proof.
  intros H. apply Zmod.to_Z_inj. by rewrite <- (le_decode_F_bytes x), H, le_decode_F_bytes.
Qed.

Lemma fe_isnegative_spec f : fe_bd 220 f ->
  fe_isnegative f = Some (Zmod.to_Z (fe_F f) mod 2).
Proof.
  intros Hf. unfold fe_isnegative. rewrite fe_tobytes_F by done.
  unfold F_bytes. cbn [le_encode lookup list_lookup]. f_equal.
  unfold u8. rewrite (Z.land_ones _ 1) by lia. change (2 ^ 1) with 2. change (2 ^ 8) with 256.
  apply Z.mod_mod_divide. by exists 128.
Qed.

Lemma foldl_lor_0 l a : bytes_wf l -> 0 <= a ->
  foldl Z.lor a l = 0 <-> a = 0 /\ le_decode l = 0.
Proof.
  intros Hl. revert a. induction Hl as [|b l Hb Hl IH]; intros a Ha; cbn [foldl le_decode]; [naive_solver lia|].
  pose proof (le_decode_bound l Hl) as [Hd _]. unfold is_byte in Hb.
  rewrite IH by (apply Z.lor_nonneg; lia). rewrite Z.lor_eq_0_iff. lia.
Qed.

Lemma fe_isnonzero_spec f : fe_bd 220 f ->
  fe_isnonzero f = Some (if decide (fe_F f = Zmod.zero) then 0 else 1).
Proof.
  intros Hf. unfold fe_isnonzero. rewrite fe_tobytes_F by done. f_equal.
  pose proof (foldl_lor_0 (F_bytes (fe_F f)) 0 (F_bytes_wf _)) as H.
  rewrite le_decode_F_bytes in H.
  destruct (Z.eqb_spec (foldl Z.lor 0 (F_bytes (fe_F f))) 0) as [E|E]; case_decide as D; try done.
  - exfalso. apply D. apply Zmod.to_Z_inj. rewrite Zmod.to_Z_0. apply H; [lia|done].
  - exfalso. apply E, H; [lia|]. by rewrite D, Zmod.to_Z_0.
Qed.

(** * The exponentiation chains *)
Definition is_pow (x : F) (e : Z) (f : fe) : Prop := 0 <= e /\ fe_bd 330 f /\ fe_F f = (x ^ e)%Zmod.

Lemma is_pow_self f : fe_bd 330 f -> is_pow (fe_F f) 1 f.
Proof. intros. split_and!; [lia|done|]. by rewrite Zmod.pow_1_r. Qed.

Lemma fe_mul_pow x m n a b : is_pow x m a -> is_pow x n b -> wp (fe_mul a b) (is_pow x (m + n)).
Proof.
  intros (Hm & Ha & Ea) (Hn & Hb & Eb). eapply wp_mono; [by apply fe_mul_spec|].
  intros h [Hh Eh]. split_and!; [lia|by apply (fe_bd_mono 101)|].
  by rewrite Eh, Ea, Eb, Zmod.pow_add_r_nonneg.
Qed.

Lemma fe_sq_pow x m a : is_pow x m a -> wp (fe_sq a) (is_pow x (m + m)).
Proof.
  intros (Hm & Ha & Ea). eapply wp_mono; [by apply fe_sq_spec|].
  intros h [Hh Eh]. split_and!; [lia|by apply (fe_bd_mono 101)|].
  by rewrite Eh, Ea, Zmod.pow_add_r_nonneg.
Qed.

Lemma fe_sq_loop_pow k x m a : is_pow x m a -> wp (fe_sq_loop k a) (is_pow x (2 ^ Z.of_nat k * m)).
Proof.
  revert m a. induction k as [|k IH]; intros m a Ha; [cbn [fe_sq_loop wp]; by rewrite Z.mul_1_l|].
  cbn [fe_sq_loop]. apply wp_bind. eapply wp_mono; [by apply fe_sq_pow|].
  intros b Hb. eapply wp_mono; [by apply IH|]. intros c Hc.
  rewrite Nat2Z.inj_succ, Z.pow_succ_r by lia.
  by replace (2 * 2 ^ Z.of_nat k * m) with (2 ^ Z.of_nat k * (m + m)) by ring.
Qed.

Ltac pow_step :=
  lazymatch goal with
  | |- wp (match fe_mul ?a ?b with Some x => _ | None => None end) _ =>
      apply wp_bind; eapply wp_mono; [eapply fe_mul_pow; eassumption|]
  | |- wp (match fe_sq ?a with Some x => _ | None => None end) _ =>
      apply wp_bind; eapply wp_mono; [eapply fe_sq_pow; eassumption|]
  | |- wp (match fe_sq_loop ?k ?a with Some x => _ | None => None end) _ =>
      apply wp_bind; eapply wp_mono; [eapply (fe_sq_loop_pow k); eassumption|]
  end;
  let t := fresh "t" in let H := fresh "H" in
  intros t H; cbv beta;
  lazymatch type of H with is_pow ?x ?e ?f =>
    let e' := eval vm_compute in e in change (is_pow x e' f) in H end.

Lemma pow_final x m n e a b : is_pow x m a -> is_pow x n b -> m + n = e ->
  wp (fe_mul a b) (fun h => fe_bd 101 h /\ fe_F h = (x ^ e)%Zmod).
Proof.
  intros (Hm & Ha & Ea) (Hn & Hb & Eb) <-. eapply wp_mono; [by apply fe_mul_spec|].
  intros h [Hh Eh]. split; [done|]. by rewrite Eh, Ea, Eb, Zmod.pow_add_r_nonneg.
Qed.

Lemma fe_invert_spec z : fe_bd 330 z ->
  wp (fe_invert z) (fun h => fe_bd 101 h /\ fe_F h = Zmod.inv (fe_F z)).
Proof.
  intros Hz%is_pow_self. unfold fe_invert. repeat pow_step.
  eapply wp_mono; [eapply pow_final; [eassumption..|vm_compute; reflexivity]|].
  cbv beta. intros h [Hh Eh]. split; [done|]. rewrite Eh.
  destruct (decide (fe_F z = Zmod.zero)) as [->|]; [|by apply F_fermat].
  by rewrite Zmod.pow_0_l, Zmod.inv_0.
Qed.

Lemma fe_pow22523_spec z : fe_bd 330 z ->
  wp (fe_pow22523 z) (fun h => fe_bd 101 h /\ fe_F h = (fe_F z ^ ((p25519 - 5) / 8))%Zmod).
Proof.
  intros Hz%is_pow_self. unfold fe_pow22523. repeat pow_step.
  eapply wp_mono; [eapply pow_final; [eassumption..|vm_compute; reflexivity]|].
  cbv beta. intros h [Hh Eh]. split; [done|]. by rewrite Eh.
Qed.
(** * Conditional moves *)
Definition is_i32 (x : Z) : Prop := - 2 ^ 31 <= x < 2 ^ 31.
Definition fe_i32 (f : fe) : Prop :=
  let 'Fe f0 f1 f2 f3 f4 f5 f6 f7 f8 f9 := f in
  is_i32 f0 /\ is_i32 f1 /\ is_i32 f2 /\ is_i32 f3 /\ is_i32 f4 /\
  is_i32 f5 /\ is_i32 f6 /\ is_i32 f7 /\ is_i32 f8 /\ is_i32 f9.

Lemma fe_bd_i32 n f : n <= 660 -> fe_bd n f -> fe_i32 f.
Proof. destruct f. unfold fe_bd, fe_i32, bd, is_i32. intros. lia. Qed.

Lemma lxor_i32 a b : is_i32 a -> is_i32 b -> is_i32 (Z.lxor a b).
Proof.
  assert (forall x, is_i32 x <-> Z.shiftr x 31 = 0 \/ Z.shiftr x 31 = -1) as H.
  { intros x. rewrite Z.shiftr_div_pow2 by lia. unfold is_i32.
    pose proof (Z.div_mod x (2 ^ 31)). pose proof (Z.mod_pos_bound x (2 ^ 31)). lia. }
  rewrite !H, Z.shiftr_lxor. intros [-> | ->] [-> | ->]; auto.
Qed.

Lemma cmov_limb f g b : is_i32 f -> is_i32 g -> b = 0 \/ b = 1 ->
  i32 (Z.land (u32 (Z.lxor f g)) (u32 (- b))) = if b =? 1 then Z.lxor f g else 0.
Proof.
  intros Hf Hg [-> | ->]; [by rewrite Z.land_0_r|].
  change (u32 (Z.opp 1)) with (Z.ones 32). rewrite Z.land_ones by lia.
  pose proof (lxor_i32 f g Hf Hg). unfold is_i32, i32, u32 in *. cbn [Z.eqb Pos.eqb].
  rewrite Z.mod_mod, Zplus_mod_idemp_l, Z.mod_small by lia. lia.
Qed.

Lemma lxor_cancel f g : Z.lxor f (Z.lxor f g) = g.
Proof. by rewrite <- Z.lxor_assoc, Z.lxor_nilpotent, Z.lxor_0_l. Qed.
Lemma lxor_cancel_r f g : Z.lxor g (Z.lxor f g) = f.
Proof. by rewrite Z.lxor_comm, Z.lxor_assoc, Z.lxor_nilpotent, Z.lxor_0_r. Qed.

Lemma fe_cmov_spec f g b : fe_i32 f -> fe_i32 g -> b = 0 \/ b = 1 ->
  fe_cmov f g b = if b =? 1 then g else f.
Proof.
  destruct f, g. unfold fe_i32. intros Hf Hg Hb. cbn [fe_cmov].
  rewrite !cmov_limb by (done || tauto).
  destruct Hb as [-> | ->]; cbn [Z.eqb Pos.eqb]; by rewrite ?Z.lxor_0_r, ?lxor_cancel.
Qed.

Lemma fe_cswap_spec f g b : fe_i32 f -> fe_i32 g -> b = 0 \/ b = 1 ->
  fe_cswap f g b = if b =? 1 then (g, f) else (f, g).
Proof.
  destruct f, g. unfold fe_i32. intros Hf Hg Hb. cbn [fe_cswap].
  rewrite !cmov_limb by (done || tauto).
  destruct Hb as [-> | ->]; cbn [Z.eqb Pos.eqb];
    by rewrite ?Z.lxor_0_r, ?lxor_cancel, ?lxor_cancel_r.
Qed.
