(* ===== verification/Sc.v ===== *)
(** Scalar arithmetic of Ed25519, [remote/ed25519/sc.c]: reduction modulo the
    group order l and multiply-add, on signed limbs in radix 2^21.  The
    statements of [sc_reduce] after its loads and those of [sc_muladd] after
    its products and first carries are the same text; they are the stages
    [sc_fold1] ... [sc_store], each continuing with the next. *)
From S2P Require Import Prelude CInt Fe.

Definition sc_store (s0 s1 s2 s3 s4 s5 s6 s7 s8 s9 s10 s11 : Z) : option (list Z) :=
  Some [u8 (Z.shiftr s0 0);
        u8 (Z.shiftr s0 8);
        u8 (Z.lor (u64 (Z.shiftr s0 16)) (u64 (Z.shiftl (u64 s1) 5)));
        u8 (Z.shiftr s1 3);
        u8 (Z.shiftr s1 11);
        u8 (Z.lor (u64 (Z.shiftr s1 19)) (u64 (Z.shiftl (u64 s2) 2)));
        u8 (Z.shiftr s2 6);
        u8 (Z.lor (u64 (Z.shiftr s2 14)) (u64 (Z.shiftl (u64 s3) 7)));
        u8 (Z.shiftr s3 1);
        u8 (Z.shiftr s3 9);
        u8 (Z.lor (u64 (Z.shiftr s3 17)) (u64 (Z.shiftl (u64 s4) 4)));
        u8 (Z.shiftr s4 4);
        u8 (Z.shiftr s4 12);
        u8 (Z.lor (u64 (Z.shiftr s4 20)) (u64 (Z.shiftl (u64 s5) 1)));
        u8 (Z.shiftr s5 7);
        u8 (Z.lor (u64 (Z.shiftr s5 15)) (u64 (Z.shiftl (u64 s6) 6)));
        u8 (Z.shiftr s6 2);
        u8 (Z.shiftr s6 10);
        u8 (Z.lor (u64 (Z.shiftr s6 18)) (u64 (Z.shiftl (u64 s7) 3)));
        u8 (Z.shiftr s7 5);
        u8 (Z.shiftr s7 13);
        u8 (Z.shiftr s8 0);
        u8 (Z.shiftr s8 8);
        u8 (Z.lor (u64 (Z.shiftr s8 16)) (u64 (Z.shiftl (u64 s9) 5)));
        u8 (Z.shiftr s9 3);
        u8 (Z.shiftr s9 11);
        u8 (Z.lor (u64 (Z.shiftr s9 19)) (u64 (Z.shiftl (u64 s10) 2)));
        u8 (Z.shiftr s10 6);
        u8 (Z.lor (u64 (Z.shiftr s10 14)) (u64 (Z.shiftl (u64 s11) 7)));
        u8 (Z.shiftr s11 1);
        u8 (Z.shiftr s11 9);
        u8 (Z.shiftr s11 17)].

Definition sc_fold4 (s0 s1 s2 s3 s4 s5 s6 s7 s8 s9 s10 s11 s12 : Z) : option (list Z) :=
  let? s0 := (s0 + s12 * 666643)%i64 in
  let? s1 := (s1 + s12 * 470296)%i64 in
  let? s2 := (s2 + s12 * 654183)%i64 in
  let? s3 := (s3 - s12 * 997805)%i64 in
  let? s4 := (s4 + s12 * 136657)%i64 in
  let? s5 := (s5 - s12 * 683901)%i64 in
  let? s12 := cst 0 in
  let? carry0 := (s0 >> 21)%i64 in
  let? s1 := (s1 + carry0)%i64 in
  let? s0 := (s0 - carry0 * (1 << 21))%i64 in
  let? carry1 := (s1 >> 21)%i64 in
  let? s2 := (s2 + carry1)%i64 in
  let? s1 := (s1 - carry1 * (1 << 21))%i64 in
  let? carry2 := (s2 >> 21)%i64 in
  let? s3 := (s3 + carry2)%i64 in
  let? s2 := (s2 - carry2 * (1 << 21))%i64 in
  let? carry3 := (s3 >> 21)%i64 in
  let? s4 := (s4 + carry3)%i64 in
  let? s3 := (s3 - carry3 * (1 << 21))%i64 in
  let? carry4 := (s4 >> 21)%i64 in
  let? s5 := (s5 + carry4)%i64 in
  let? s4 := (s4 - carry4 * (1 << 21))%i64 in
  let? carry5 := (s5 >> 21)%i64 in
  let? s6 := (s6 + carry5)%i64 in
  let? s5 := (s5 - carry5 * (1 << 21))%i64 in
  let? carry6 := (s6 >> 21)%i64 in
  let? s7 := (s7 + carry6)%i64 in
  let? s6 := (s6 - carry6 * (1 << 21))%i64 in
  let? carry7 := (s7 >> 21)%i64 in
  let? s8 := (s8 + carry7)%i64 in
  let? s7 := (s7 - carry7 * (1 << 21))%i64 in
  let? carry8 := (s8 >> 21)%i64 in
  let? s9 := (s9 + carry8)%i64 in
  let? s8 := (s8 - carry8 * (1 << 21))%i64 in
  let? carry9 := (s9 >> 21)%i64 in
  let? s10 := (s10 + carry9)%i64 in
  let? s9 := (s9 - carry9 * (1 << 21))%i64 in
  let? carry10 := (s10 >> 21)%i64 in
  let? s11 := (s11 + carry10)%i64 in
  let? s10 := (s10 - carry10 * (1 << 21))%i64 in
  sc_store s0 s1 s2 s3 s4 s5 s6 s7 s8 s9 s10 s11.

Definition sc_fold3 (s0 s1 s2 s3 s4 s5 s6 s7 s8 s9 s10 s11 s12 : Z) : option (list Z) :=
  let? s0 := (s0 + s12 * 666643)%i64 in
  let? s1 := (s1 + s12 * 470296)%i64 in
  let? s2 := (s2 + s12 * 654183)%i64 in
  let? s3 := (s3 - s12 * 997805)%i64 in
  let? s4 := (s4 + s12 * 136657)%i64 in
  let? s5 := (s5 - s12 * 683901)%i64 in
  let? s12 := cst 0 in
  let? carry0 := (s0 >> 21)%i64 in
  let? s1 := (s1 + carry0)%i64 in
  let? s0 := (s0 - carry0 * (1 << 21))%i64 in
  let? carry1 := (s1 >> 21)%i64 in
  let? s2 := (s2 + carry1)%i64 in
  let? s1 := (s1 - carry1 * (1 << 21))%i64 in
  let? carry2 := (s2 >> 21)%i64 in
  let? s3 := (s3 + carry2)%i64 in
  let? s2 := (s2 - carry2 * (1 << 21))%i64 in
  let? carry3 := (s3 >> 21)%i64 in
  let? s4 := (s4 + carry3)%i64 in
  let? s3 := (s3 - carry3 * (1 << 21))%i64 in
  let? carry4 := (s4 >> 21)%i64 in
  let? s5 := (s5 + carry4)%i64 in
  let? s4 := (s4 - carry4 * (1 << 21))%i64 in
  let? carry5 := (s5 >> 21)%i64 in
  let? s6 := (s6 + carry5)%i64 in
  let? s5 := (s5 - carry5 * (1 << 21))%i64 in
  let? carry6 := (s6 >> 21)%i64 in
  let? s7 := (s7 + carry6)%i64 in
  let? s6 := (s6 - carry6 * (1 << 21))%i64 in
  let? carry7 := (s7 >> 21)%i64 in
  let? s8 := (s8 + carry7)%i64 in
  let? s7 := (s7 - carry7 * (1 << 21))%i64 in
  let? carry8 := (s8 >> 21)%i64 in
  let? s9 := (s9 + carry8)%i64 in
  let? s8 := (s8 - carry8 * (1 << 21))%i64 in
  let? carry9 := (s9 >> 21)%i64 in
  let? s10 := (s10 + carry9)%i64 in
  let? s9 := (s9 - carry9 * (1 << 21))%i64 in
  let? carry10 := (s10 >> 21)%i64 in
  let? s11 := (s11 + carry10)%i64 in
  let? s10 := (s10 - carry10 * (1 << 21))%i64 in
  let? carry11 := (s11 >> 21)%i64 in
  let? s12 := (s12 + carry11)%i64 in
  let? s11 := (s11 - carry11 * (1 << 21))%i64 in
  sc_fold4 s0 s1 s2 s3 s4 s5 s6 s7 s8 s9 s10 s11 s12.

Definition sc_carry2 (s0 s1 s2 s3 s4 s5 s6 s7 s8 s9 s10 s11 s12 : Z) : option (list Z) :=
  let? carry0 := ((s0 + (1 << 20)) >> 21)%i64 in
  let? s1 := (s1 + carry0)%i64 in
  let? s0 := (s0 - carry0 * (1 << 21))%i64 in
  let? carry2 := ((s2 + (1 << 20)) >> 21)%i64 in
  let? s3 := (s3 + carry2)%i64 in
  let? s2 := (s2 - carry2 * (1 << 21))%i64 in
  let? carry4 := ((s4 + (1 << 20)) >> 21)%i64 in
  let? s5 := (s5 + carry4)%i64 in
  let? s4 := (s4 - carry4 * (1 << 21))%i64 in
  let? carry6 := ((s6 + (1 << 20)) >> 21)%i64 in
  let? s7 := (s7 + carry6)%i64 in
  let? s6 := (s6 - carry6 * (1 << 21))%i64 in
  let? carry8 := ((s8 + (1 << 20)) >> 21)%i64 in
  let? s9 := (s9 + carry8)%i64 in
  let? s8 := (s8 - carry8 * (1 << 21))%i64 in
  let? carry10 := ((s10 + (1 << 20)) >> 21)%i64 in
  let? s11 := (s11 + carry10)%i64 in
  let? s10 := (s10 - carry10 * (1 << 21))%i64 in
  let? carry1 := ((s1 + (1 << 20)) >> 21)%i64 in
  let? s2 := (s2 + carry1)%i64 in
  let? s1 := (s1 - carry1 * (1 << 21))%i64 in
  let? carry3 := ((s3 + (1 << 20)) >> 21)%i64 in
  let? s4 := (s4 + carry3)%i64 in
  let? s3 := (s3 - carry3 * (1 << 21))%i64 in
  let? carry5 := ((s5 + (1 << 20)) >> 21)%i64 in
  let? s6 := (s6 + carry5)%i64 in
  let? s5 := (s5 - carry5 * (1 << 21))%i64 in
  let? carry7 := ((s7 + (1 << 20)) >> 21)%i64 in
  let? s8 := (s8 + carry7)%i64 in
  let? s7 := (s7 - carry7 * (1 << 21))%i64 in
  let? carry9 := ((s9 + (1 << 20)) >> 21)%i64 in
  let? s10 := (s10 + carry9)%i64 in
  let? s9 := (s9 - carry9 * (1 << 21))%i64 in
  let? carry11 := ((s11 + (1 << 20)) >> 21)%i64 in
  let? s12 := (s12 + carry11)%i64 in
  let? s11 := (s11 - carry11 * (1 << 21))%i64 in
  sc_fold3 s0 s1 s2 s3 s4 s5 s6 s7 s8 s9 s10 s11 s12.

Definition sc_fold2 (s0 s1 s2 s3 s4 s5 s6 s7 s8 s9 s10 s11 s12 s13 s14 s15 s16 s17 : Z) : option (list Z) :=
  let? s5 := (s5 + s17 * 666643)%i64 in
  let? s6 := (s6 + s17 * 470296)%i64 in
  let? s7 := (s7 + s17 * 654183)%i64 in
  let? s8 := (s8 - s17 * 997805)%i64 in
  let? s9 := (s9 + s17 * 136657)%i64 in
  let? s10 := (s10 - s17 * 683901)%i64 in
  let? s17 := cst 0 in
  let? s4 := (s4 + s16 * 666643)%i64 in
  let? s5 := (s5 + s16 * 470296)%i64 in
  let? s6 := (s6 + s16 * 654183)%i64 in
  let? s7 := (s7 - s16 * 997805)%i64 in
  let? s8 := (s8 + s16 * 136657)%i64 in
  let? s9 := (s9 - s16 * 683901)%i64 in
  let? s16 := cst 0 in
  let? s3 := (s3 + s15 * 666643)%i64 in
  let? s4 := (s4 + s15 * 470296)%i64 in
  let? s5 := (s5 + s15 * 654183)%i64 in
  let? s6 := (s6 - s15 * 997805)%i64 in
  let? s7 := (s7 + s15 * 136657)%i64 in
  let? s8 := (s8 - s15 * 683901)%i64 in
  let? s15 := cst 0 in
  let? s2 := (s2 + s14 * 666643)%i64 in
  let? s3 := (s3 + s14 * 470296)%i64 in
  let? s4 := (s4 + s14 * 654183)%i64 in
  let? s5 := (s5 - s14 * 997805)%i64 in
  let? s6 := (s6 + s14 * 136657)%i64 in
  let? s7 := (s7 - s14 * 683901)%i64 in
  let? s14 := cst 0 in
  let? s1 := (s1 + s13 * 666643)%i64 in
  let? s2 := (s2 + s13 * 470296)%i64 in
  let? s3 := (s3 + s13 * 654183)%i64 in
  let? s4 := (s4 - s13 * 997805)%i64 in
  let? s5 := (s5 + s13 * 136657)%i64 in
  let? s6 := (s6 - s13 * 683901)%i64 in
  let? s13 := cst 0 in
  let? s0 := (s0 + s12 * 666643)%i64 in
  let? s1 := (s1 + s12 * 470296)%i64 in
  let? s2 := (s2 + s12 * 654183)%i64 in
  let? s3 := (s3 - s12 * 997805)%i64 in
  let? s4 := (s4 + s12 * 136657)%i64 in
  let? s5 := (s5 - s12 * 683901)%i64 in
  let? s12 := cst 0 in
  sc_carry2 s0 s1 s2 s3 s4 s5 s6 s7 s8 s9 s10 s11 s12.

Definition sc_carry1 (s0 s1 s2 s3 s4 s5 s6 s7 s8 s9 s10 s11 s12 s13 s14 s15 s16 s17 : Z) : option (list Z) :=
  let? carry6 := ((s6 + (1 << 20)) >> 21)%i64 in
  let? s7 := (s7 + carry6)%i64 in
  let? s6 := (s6 - carry6 * (1 << 21))%i64 in
  let? carry8 := ((s8 + (1 << 20)) >> 21)%i64 in
  let? s9 := (s9 + carry8)%i64 in
  let? s8 := (s8 - carry8 * (1 << 21))%i64 in
  let? carry10 := ((s10 + (1 << 20)) >> 21)%i64 in
  let? s11 := (s11 + carry10)%i64 in
  let? s10 := (s10 - carry10 * (1 << 21))%i64 in
  let? carry12 := ((s12 + (1 << 20)) >> 21)%i64 in
  let? s13 := (s13 + carry12)%i64 in
  let? s12 := (s12 - carry12 * (1 << 21))%i64 in
  let? carry14 := ((s14 + (1 << 20)) >> 21)%i64 in
  let? s15 := (s15 + carry14)%i64 in
  let? s14 := (s14 - carry14 * (1 << 21))%i64 in
  let? carry16 := ((s16 + (1 << 20)) >> 21)%i64 in
  let? s17 := (s17 + carry16)%i64 in
  let? s16 := (s16 - carry16 * (1 << 21))%i64 in
  let? carry7 := ((s7 + (1 << 20)) >> 21)%i64 in
  let? s8 := (s8 + carry7)%i64 in
  let? s7 := (s7 - carry7 * (1 << 21))%i64 in
  let? carry9 := ((s9 + (1 << 20)) >> 21)%i64 in
  let? s10 := (s10 + carry9)%i64 in
  let? s9 := (s9 - carry9 * (1 << 21))%i64 in
  let? carry11 := ((s11 + (1 << 20)) >> 21)%i64 in
  let? s12 := (s12 + carry11)%i64 in
  let? s11 := (s11 - carry11 * (1 << 21))%i64 in
  let? carry13 := ((s13 + (1 << 20)) >> 21)%i64 in
  let? s14 := (s14 + carry13)%i64 in
  let? s13 := (s13 - carry13 * (1 << 21))%i64 in
  let? carry15 := ((s15 + (1 << 20)) >> 21)%i64 in
  let? s16 := (s16 + carry15)%i64 in
  let? s15 := (s15 - carry15 * (1 << 21))%i64 in
  sc_fold2 s0 s1 s2 s3 s4 s5 s6 s7 s8 s9 s10 s11 s12 s13 s14 s15 s16 s17.

Definition sc_fold1 (s0 s1 s2 s3 s4 s5 s6 s7 s8 s9 s10 s11 s12 s13 s14 s15 s16 s17 s18 s19 s20 s21 s22 s23 : Z) : option (list Z) :=
  let? s11 := (s11 + s23 * 666643)%i64 in
  let? s12 := (s12 + s23 * 470296)%i64 in
  let? s13 := (s13 + s23 * 654183)%i64 in
  let? s14 := (s14 - s23 * 997805)%i64 in
  let? s15 := (s15 + s23 * 136657)%i64 in
  let? s16 := (s16 - s23 * 683901)%i64 in
  let? s23 := cst 0 in
  let? s10 := (s10 + s22 * 666643)%i64 in
  let? s11 := (s11 + s22 * 470296)%i64 in
  let? s12 := (s12 + s22 * 654183)%i64 in
  let? s13 := (s13 - s22 * 997805)%i64 in
  let? s14 := (s14 + s22 * 136657)%i64 in
  let? s15 := (s15 - s22 * 683901)%i64 in
  let? s22 := cst 0 in
  let? s9 := (s9 + s21 * 666643)%i64 in
  let? s10 := (s10 + s21 * 470296)%i64 in
  let? s11 := (s11 + s21 * 654183)%i64 in
  let? s12 := (s12 - s21 * 997805)%i64 in
  let? s13 := (s13 + s21 * 136657)%i64 in
  let? s14 := (s14 - s21 * 683901)%i64 in
  let? s21 := cst 0 in
  let? s8 := (s8 + s20 * 666643)%i64 in
  let? s9 := (s9 + s20 * 470296)%i64 in
  let? s10 := (s10 + s20 * 654183)%i64 in
  let? s11 := (s11 - s20 * 997805)%i64 in
  let? s12 := (s12 + s20 * 136657)%i64 in
  let? s13 := (s13 - s20 * 683901)%i64 in
  let? s20 := cst 0 in
  let? s7 := (s7 + s19 * 666643)%i64 in
  let? s8 := (s8 + s19 * 470296)%i64 in
  let? s9 := (s9 + s19 * 654183)%i64 in
  let? s10 := (s10 - s19 * 997805)%i64 in
  let? s11 := (s11 + s19 * 136657)%i64 in
  let? s12 := (s12 - s19 * 683901)%i64 in
  let? s19 := cst 0 in
  let? s6 := (s6 + s18 * 666643)%i64 in
  let? s7 := (s7 + s18 * 470296)%i64 in
  let? s8 := (s8 + s18 * 654183)%i64 in
  let? s9 := (s9 - s18 * 997805)%i64 in
  let? s10 := (s10 + s18 * 136657)%i64 in
  let? s11 := (s11 - s18 * 683901)%i64 in
  let? s18 := cst 0 in
  sc_carry1 s0 s1 s2 s3 s4 s5 s6 s7 s8 s9 s10 s11 s12 s13 s14 s15 s16 s17.

Definition sc_reduce (s : list Z) : option (list Z) :=
  let? s0 := int64 (uand 2097151 (load_3 s)) in
  let? s1 := int64 (uand 2097151 (shr (load_4 (s +p 2)) 5)) in
  let? s2 := int64 (uand 2097151 (shr (load_3 (s +p 5)) 2)) in
  let? s3 := int64 (uand 2097151 (shr (load_4 (s +p 7)) 7)) in
  let? s4 := int64 (uand 2097151 (shr (load_4 (s +p 10)) 4)) in
  let? s5 := int64 (uand 2097151 (shr (load_3 (s +p 13)) 1)) in
  let? s6 := int64 (uand 2097151 (shr (load_4 (s +p 15)) 6)) in
  let? s7 := int64 (uand 2097151 (shr (load_3 (s +p 18)) 3)) in
  let? s8 := int64 (uand 2097151 (load_3 (s +p 21))) in
  let? s9 := int64 (uand 2097151 (shr (load_4 (s +p 23)) 5)) in
  let? s10 := int64 (uand 2097151 (shr (load_3 (s +p 26)) 2)) in
  let? s11 := int64 (uand 2097151 (shr (load_4 (s +p 28)) 7)) in
  let? s12 := int64 (uand 2097151 (shr (load_4 (s +p 31)) 4)) in
  let? s13 := int64 (uand 2097151 (shr (load_3 (s +p 34)) 1)) in
  let? s14 := int64 (uand 2097151 (shr (load_4 (s +p 36)) 6)) in
  let? s15 := int64 (uand 2097151 (shr (load_3 (s +p 39)) 3)) in
  let? s16 := int64 (uand 2097151 (load_3 (s +p 42))) in
  let? s17 := int64 (uand 2097151 (shr (load_4 (s +p 44)) 5)) in
  let? s18 := int64 (uand 2097151 (shr (load_3 (s +p 47)) 2)) in
  let? s19 := int64 (uand 2097151 (shr (load_4 (s +p 49)) 7)) in
  let? s20 := int64 (uand 2097151 (shr (load_4 (s +p 52)) 4)) in
  let? s21 := int64 (uand 2097151 (shr (load_3 (s +p 55)) 1)) in
  let? s22 := int64 (uand 2097151 (shr (load_4 (s +p 57)) 6)) in
  let? s23 := int64 (shr (load_4 (s +p 60)) 3) in
  let? r := sc_fold1 s0 s1 s2 s3 s4 s5 s6 s7 s8 s9 s10 s11 s12 s13 s14 s15 s16 s17 s18 s19 s20 s21 s22 s23 in
  Some (r ++ s +p 32).

(** The first carries of [sc_muladd]. *)
Definition sc_muladd_carry (s0 s1 s2 s3 s4 s5 s6 s7 s8 s9 s10 s11 s12 s13 s14 s15 s16 s17 s18 s19 s20 s21 s22 s23 : Z) : option (list Z) :=
  let? carry0 := ((s0 + (1 << 20)) >> 21)%i64 in
  let? s1 := (s1 + carry0)%i64 in
  let? s0 := (s0 - carry0 * (1 << 21))%i64 in
  let? carry2 := ((s2 + (1 << 20)) >> 21)%i64 in
  let? s3 := (s3 + carry2)%i64 in
  let? s2 := (s2 - carry2 * (1 << 21))%i64 in
  let? carry4 := ((s4 + (1 << 20)) >> 21)%i64 in
  let? s5 := (s5 + carry4)%i64 in
  let? s4 := (s4 - carry4 * (1 << 21))%i64 in
  let? carry6 := ((s6 + (1 << 20)) >> 21)%i64 in
  let? s7 := (s7 + carry6)%i64 in
  let? s6 := (s6 - carry6 * (1 << 21))%i64 in
  let? carry8 := ((s8 + (1 << 20)) >> 21)%i64 in
  let? s9 := (s9 + carry8)%i64 in
  let? s8 := (s8 - carry8 * (1 << 21))%i64 in
  let? carry10 := ((s10 + (1 << 20)) >> 21)%i64 in
  let? s11 := (s11 + carry10)%i64 in
  let? s10 := (s10 - carry10 * (1 << 21))%i64 in
  let? carry12 := ((s12 + (1 << 20)) >> 21)%i64 in
  let? s13 := (s13 + carry12)%i64 in
  let? s12 := (s12 - carry12 * (1 << 21))%i64 in
  let? carry14 := ((s14 + (1 << 20)) >> 21)%i64 in
  let? s15 := (s15 + carry14)%i64 in
  let? s14 := (s14 - carry14 * (1 << 21))%i64 in
  let? carry16 := ((s16 + (1 << 20)) >> 21)%i64 in
  let? s17 := (s17 + carry16)%i64 in
  let? s16 := (s16 - carry16 * (1 << 21))%i64 in
  let? carry18 := ((s18 + (1 << 20)) >> 21)%i64 in
  let? s19 := (s19 + carry18)%i64 in
  let? s18 := (s18 - carry18 * (1 << 21))%i64 in
  let? carry20 := ((s20 + (1 << 20)) >> 21)%i64 in
  let? s21 := (s21 + carry20)%i64 in
  let? s20 := (s20 - carry20 * (1 << 21))%i64 in
  let? carry22 := ((s22 + (1 << 20)) >> 21)%i64 in
  let? s23 := (s23 + carry22)%i64 in
  let? s22 := (s22 - carry22 * (1 << 21))%i64 in
  let? carry1 := ((s1 + (1 << 20)) >> 21)%i64 in
  let? s2 := (s2 + carry1)%i64 in
  let? s1 := (s1 - carry1 * (1 << 21))%i64 in
  let? carry3 := ((s3 + (1 << 20)) >> 21)%i64 in
  let? s4 := (s4 + carry3)%i64 in
  let? s3 := (s3 - carry3 * (1 << 21))%i64 in
  let? carry5 := ((s5 + (1 << 20)) >> 21)%i64 in
  let? s6 := (s6 + carry5)%i64 in
  let? s5 := (s5 - carry5 * (1 << 21))%i64 in
  let? carry7 := ((s7 + (1 << 20)) >> 21)%i64 in
  let? s8 := (s8 + carry7)%i64 in
  let? s7 := (s7 - carry7 * (1 << 21))%i64 in
  let? carry9 := ((s9 + (1 << 20)) >> 21)%i64 in
  let? s10 := (s10 + carry9)%i64 in
  let? s9 := (s9 - carry9 * (1 << 21))%i64 in
  let? carry11 := ((s11 + (1 << 20)) >> 21)%i64 in
  let? s12 := (s12 + carry11)%i64 in
  let? s11 := (s11 - carry11 * (1 << 21))%i64 in
  let? carry13 := ((s13 + (1 << 20)) >> 21)%i64 in
  let? s14 := (s14 + carry13)%i64 in
  let? s13 := (s13 - carry13 * (1 << 21))%i64 in
  let? carry15 := ((s15 + (1 << 20)) >> 21)%i64 in
  let? s16 := (s16 + carry15)%i64 in
  let? s15 := (s15 - carry15 * (1 << 21))%i64 in
  let? carry17 := ((s17 + (1 << 20)) >> 21)%i64 in
  let? s18 := (s18 + carry17)%i64 in
  let? s17 := (s17 - carry17 * (1 << 21))%i64 in
  let? carry19 := ((s19 + (1 << 20)) >> 21)%i64 in
  let? s20 := (s20 + carry19)%i64 in
  let? s19 := (s19 - carry19 * (1 << 21))%i64 in
  let? carry21 := ((s21 + (1 << 20)) >> 21)%i64 in
  let? s22 := (s22 + carry21)%i64 in
  let? s21 := (s21 - carry21 * (1 << 21))%i64 in
  sc_fold1 s0 s1 s2 s3 s4 s5 s6 s7 s8 s9 s10 s11 s12 s13 s14 s15 s16 s17 s18 s19 s20 s21 s22 s23.

Definition sc_muladd (a b c : list Z) : option (list Z) :=
  let? a0 := int64 (uand 2097151 (load_3 a)) in
  let? a1 := int64 (uand 2097151 (shr (load_4 (a +p 2)) 5)) in
  let? a2 := int64 (uand 2097151 (shr (load_3 (a +p 5)) 2)) in
  let? a3 := int64 (uand 2097151 (shr (load_4 (a +p 7)) 7)) in
  let? a4 := int64 (uand 2097151 (shr (load_4 (a +p 10)) 4)) in
  let? a5 := int64 (uand 2097151 (shr (load_3 (a +p 13)) 1)) in
  let? a6 := int64 (uand 2097151 (shr (load_4 (a +p 15)) 6)) in
  let? a7 := int64 (uand 2097151 (shr (load_3 (a +p 18)) 3)) in
  let? a8 := int64 (uand 2097151 (load_3 (a +p 21))) in
  let? a9 := int64 (uand 2097151 (shr (load_4 (a +p 23)) 5)) in
  let? a10 := int64 (uand 2097151 (shr (load_3 (a +p 26)) 2)) in
  let? a11 := int64 (shr (load_4 (a +p 28)) 7) in
  let? b0 := int64 (uand 2097151 (load_3 b)) in
  let? b1 := int64 (uand 2097151 (shr (load_4 (b +p 2)) 5)) in
  let? b2 := int64 (uand 2097151 (shr (load_3 (b +p 5)) 2)) in
  let? b3 := int64 (uand 2097151 (shr (load_4 (b +p 7)) 7)) in
  let? b4 := int64 (uand 2097151 (shr (load_4 (b +p 10)) 4)) in
  let? b5 := int64 (uand 2097151 (shr (load_3 (b +p 13)) 1)) in
  let? b6 := int64 (uand 2097151 (shr (load_4 (b +p 15)) 6)) in
  let? b7 := int64 (uand 2097151 (shr (load_3 (b +p 18)) 3)) in
  let? b8 := int64 (uand 2097151 (load_3 (b +p 21))) in
  let? b9 := int64 (uand 2097151 (shr (load_4 (b +p 23)) 5)) in
  let? b10 := int64 (uand 2097151 (shr (load_3 (b +p 26)) 2)) in
  let? b11 := int64 (shr (load_4 (b +p 28)) 7) in
  let? c0 := int64 (uand 2097151 (load_3 c)) in
  let? c1 := int64 (uand 2097151 (shr (load_4 (c +p 2)) 5)) in
  let? c2 := int64 (uand 2097151 (shr (load_3 (c +p 5)) 2)) in
  let? c3 := int64 (uand 2097151 (shr (load_4 (c +p 7)) 7)) in
  let? c4 := int64 (uand 2097151 (shr (load_4 (c +p 10)) 4)) in
  let? c5 := int64 (uand 2097151 (shr (load_3 (c +p 13)) 1)) in
  let? c6 := int64 (uand 2097151 (shr (load_4 (c +p 15)) 6)) in
  let? c7 := int64 (uand 2097151 (shr (load_3 (c +p 18)) 3)) in
  let? c8 := int64 (uand 2097151 (load_3 (c +p 21))) in
  let? c9 := int64 (uand 2097151 (shr (load_4 (c +p 23)) 5)) in
  let? c10 := int64 (uand 2097151 (shr (load_3 (c +p 26)) 2)) in
  let? c11 := int64 (shr (load_4 (c +p 28)) 7) in
  let? s0 := (c0 + a0 * b0)%i64 in
  let? s1 := (c1 + a0 * b1 + a1 * b0)%i64 in
  let? s2 := (c2 + a0 * b2 + a1 * b1 + a2 * b0)%i64 in
  let? s3 := (c3 + a0 * b3 + a1 * b2 + a2 * b1 + a3 * b0)%i64 in
  let? s4 := (c4 + a0 * b4 + a1 * b3 + a2 * b2 + a3 * b1 + a4 * b0)%i64 in
  let? s5 := (c5 + a0 * b5 + a1 * b4 + a2 * b3 + a3 * b2 + a4 * b1 + a5 * b0)%i64 in
  let? s6 := (c6 + a0 * b6 + a1 * b5 + a2 * b4 + a3 * b3 + a4 * b2 + a5 * b1 + a6 * b0)%i64 in
  let? s7 := (c7 + a0 * b7 + a1 * b6 + a2 * b5 + a3 * b4 + a4 * b3 + a5 * b2 + a6 * b1 + a7 * b0)%i64 in
  let? s8 := (c8 + a0 * b8 + a1 * b7 + a2 * b6 + a3 * b5 + a4 * b4 + a5 * b3 + a6 * b2 + a7 * b1 + a8 * b0)%i64 in
  let? s9 := (c9 + a0 * b9 + a1 * b8 + a2 * b7 + a3 * b6 + a4 * b5 + a5 * b4 + a6 * b3 + a7 * b2 + a8 * b1 + a9 * b0)%i64 in
  let? s10 := (c10 + a0 * b10 + a1 * b9 + a2 * b8 + a3 * b7 + a4 * b6 + a5 * b5 + a6 * b4 + a7 * b3 + a8 * b2 + a9 * b1 + a10 * b0)%i64 in
  let? s11 := (c11 + a0 * b11 + a1 * b10 + a2 * b9 + a3 * b8 + a4 * b7 + a5 * b6 + a6 * b5 + a7 * b4 + a8 * b3 + a9 * b2 + a10 * b1 + a11 * b0)%i64 in
  let? s12 := (a1 * b11 + a2 * b10 + a3 * b9 + a4 * b8 + a5 * b7 + a6 * b6 + a7 * b5 + a8 * b4 + a9 * b3 + a10 * b2 + a11 * b1)%i64 in
  let? s13 := (a2 * b11 + a3 * b10 + a4 * b9 + a5 * b8 + a6 * b7 + a7 * b6 + a8 * b5 + a9 * b4 + a10 * b3 + a11 * b2)%i64 in
  let? s14 := (a3 * b11 + a4 * b10 + a5 * b9 + a6 * b8 + a7 * b7 + a8 * b6 + a9 * b5 + a10 * b4 + a11 * b3)%i64 in
  let? s15 := (a4 * b11 + a5 * b10 + a6 * b9 + a7 * b8 + a8 * b7 + a9 * b6 + a10 * b5 + a11 * b4)%i64 in
  let? s16 := (a5 * b11 + a6 * b10 + a7 * b9 + a8 * b8 + a9 * b7 + a10 * b6 + a11 * b5)%i64 in
  let? s17 := (a6 * b11 + a7 * b10 + a8 * b9 + a9 * b8 + a10 * b7 + a11 * b6)%i64 in
  let? s18 := (a7 * b11 + a8 * b10 + a9 * b9 + a10 * b8 + a11 * b7)%i64 in
  let? s19 := (a8 * b11 + a9 * b10 + a10 * b9 + a11 * b8)%i64 in
  let? s20 := (a9 * b11 + a10 * b10 + a11 * b9)%i64 in
  let? s21 := (a10 * b11 + a11 * b10)%i64 in
  let? s22 := (a11 * b11)%i64 in
  let? s23 := cst 0 in
  sc_muladd_carry s0 s1 s2 s3 s4 s5 s6 s7 s8 s9 s10 s11 s12 s13 s14 s15 s16 s17 s18 s19 s20 s21 s22 s23.
