(* ===== verification/ScSpec.v ===== *)
(** What the scalar operations of [sc.c] compute: [sc_reduce] is the canonical
    residue modulo the group order l of a 64-byte number, [sc_muladd] that of
    a*b + c, with every [int64_t] intermediate in range. *)
From S2P Require Import Prelude CInt Fe FeSpec FeBytes Sc.

(** The order of the group, 2^252 + 27742317777372353535851937790883648493. *)
Definition order25519 : Z := 2 ^ 252 + 27742317777372353535851937790883648493.

(** The number a list of limbs in radix 2^21 stands for. *)
Fixpoint rad21 (l : list Z) : Z :=
  match l with [] => 0 | s :: l => s + 2 ^ 21 * rad21 l end.

Definition within (b x : Z) : Prop := - b <= x <= b.

Lemma order_congr a b k : a = b - k * order25519 -> a mod order25519 = b mod order25519.
Proof. intros ->. rewrite <- (Z.mod_add b (- k)) by done. f_equal. ring. Qed.

(** * Stores *)
Lemma sc_store_spec s0 s1 s2 s3 s4 s5 s6 s7 s8 s9 s10 s11 :
  0 <= s0 <= 2 ^ 21 - 1 -> 0 <= s1 <= 2 ^ 21 - 1 -> 0 <= s2 <= 2 ^ 21 - 1 -> 0 <= s3 <= 2 ^ 21
  - 1 -> 0 <= s4 <= 2 ^ 21 - 1 -> 0 <= s5 <= 2 ^ 21 - 1 -> 0 <= s6 <= 2 ^ 21 - 1 -> 0 <= s7 <=
  2 ^ 21 - 1 -> 0 <= s8 <= 2 ^ 21 - 1 -> 0 <= s9 <= 2 ^ 21 - 1 -> 0 <= s10 <= 2 ^ 21 - 1 -> 0
  <= s11 <= 2 ^ 25 - 1 ->
  sc_store s0 s1 s2 s3 s4 s5 s6 s7 s8 s9 s10 s11 =
    Some (le_encode 32 (rad21 [s0; s1; s2; s3; s4; s5; s6; s7; s8; s9; s10; s11])).
Proof.
  intros. unfold sc_store. f_equal.
  match goal with |- ?l = _ => set (bs := l) end.
  assert (bytes_wf bs) as Hwf by (repeat constructor; apply u8_byte).
  rewrite <- (le_encode_decode bs Hwf). change (length bs) with 32%nat. f_equal.
  subst bs. clear Hwf. rewrite !Z.shiftr_div_pow2 by lia.
  rewrite !join_byte64 by (first [lia|split; [apply Z.div_pos; lia|apply Z.div_lt_upper_bound; lia]]).
  cbn [le_decode rad21]. unfold u8.

  use_chunk s0 0 8. use_chunk s0 8 8.
  use_chunk s1 0 3. use_chunk s1 3 8. use_chunk s1 11 8.
  use_chunk s2 0 6. use_chunk s2 6 8.
  use_chunk s3 0 1. use_chunk s3 1 8. use_chunk s3 9 8.
  use_chunk s4 0 4. use_chunk s4 4 8. use_chunk s4 12 8.
  use_chunk s5 0 7. use_chunk s5 7 8.
  use_chunk s6 0 2. use_chunk s6 2 8. use_chunk s6 10 8.
  use_chunk s7 0 5. use_chunk s7 5 8. use_chunk s7 13 8.
  use_chunk s8 0 8. use_chunk s8 8 8.
  use_chunk s9 0 3. use_chunk s9 3 8. use_chunk s9 11 8.
  use_chunk s10 0 6. use_chunk s10 6 8.
  use_chunk s11 0 1. use_chunk s11 1 8. use_chunk s11 9 8. use_chunk s11 17 8.
  assert (s7 / 2 ^ 21 = 0) by (apply Z.div_small; lia).
  assert (s11 / 2 ^ 25 = 0) by (apply Z.div_small; lia).
  change (8 - 1) with 7. change (8 - 2) with 6. change (8 - 3) with 5. change (8 - 4) with 4.
  change (8 - 5) with 3. change (8 - 6) with 2. change (8 - 7) with 1. change (2 ^ 0) with 1 in *.
  rewrite !Z.div_1_r in *. lia.
Qed.

(** * The reduction stages, from the last to the first *)
Lemma sc_fold4_spec s0 s1 s2 s3 s4 s5 s6 s7 s8 s9 s10 s11 s12 :
  0 <= s0 <= 2 ^ 21 - 1 -> 0 <= s1 <= 2 ^ 21 - 1 -> 0 <= s2 <= 2 ^ 21 - 1 -> 0 <= s3 <= 2 ^ 21
  - 1 -> 0 <= s4 <= 2 ^ 21 - 1 -> 0 <= s5 <= 2 ^ 21 - 1 -> 0 <= s6 <= 2 ^ 21 - 1 -> 0 <= s7 <=
  2 ^ 21 - 1 -> 0 <= s8 <= 2 ^ 21 - 1 -> 0 <= s9 <= 2 ^ 21 - 1 -> 0 <= s10 <= 2 ^ 21 - 1 -> 0
  <= s11 <= 2 ^ 21 - 1 -> -1 <= s12 <= 0 ->
  0 <= rad21 [s0; s1; s2; s3; s4; s5; s6; s7; s8; s9; s10; s11; s12] - s12 * order25519 < order25519 ->
  wp (sc_fold4 s0 s1 s2 s3 s4 s5 s6 s7 s8 s9 s10 s11 s12)
    (fun r => r = le_encode 32 (rad21 [s0; s1; s2; s3; s4; s5; s6; s7; s8; s9; s10; s11; s12] - s12 * order25519)).
Proof.
  intros. unfold sc_fold4. repeat wp_step.
  lazymatch goal with |- wp (sc_store ?a ?b ?c ?d ?e ?f ?g ?h ?i ?j ?k ?l) _ =>
    assert (rad21 [a; b; c; d; e; f; g; h; i; j; k; l] =
      rad21 [s0; s1; s2; s3; s4; s5; s6; s7; s8; s9; s10; s11; s12] - s12 * order25519) as Ev
  end.
  { subst. unfold order25519. cbn [rad21]. ring. }
  rewrite <- Ev in *. rewrite sc_store_spec; [done|lia..].
Qed.

Lemma sc_fold3_spec s0 s1 s2 s3 s4 s5 s6 s7 s8 s9 s10 s11 s12 :
  within (2 ^ 37) s0 -> within (2 ^ 37) s1 -> within (2 ^ 37) s2 -> within (2 ^ 37) s3 ->
  within (2 ^ 37) s4 -> within (2 ^ 37) s5 -> within (2 ^ 37) s6 -> within (2 ^ 37) s7 ->
  within (2 ^ 37) s8 -> within (2 ^ 37) s9 -> within (2 ^ 37) s10 -> - 2 ^ 20 <= s11 <= 2 ^ 20
  - 1 -> within (2 ^ 16) s12 ->
  wp (sc_fold3 s0 s1 s2 s3 s4 s5 s6 s7 s8 s9 s10 s11 s12)
    (fun r => r = le_encode 32 (rad21 [s0; s1; s2; s3; s4; s5; s6; s7; s8; s9; s10; s11; s12] mod order25519)).
Proof.
  unfold within. intros. unfold sc_fold3. repeat wp_step.
  lazymatch goal with |- wp (sc_fold4 ?a ?b ?c ?d ?e ?f ?g ?h ?i ?j ?k ?l ?m) _ =>
    assert (rad21 [a; b; c; d; e; f; g; h; i; j; k; l; m] =
      rad21 [s0; s1; s2; s3; s4; s5; s6; s7; s8; s9; s10; s11; s12] - s12 * order25519) as Ev;
    assert (0 <= rad21 [a; b; c; d; e; f; g; h; i; j; k; l] < 2 ^ 252) as Hlo
      by (cbn [rad21]; lia);
    assert (rad21 [a; b; c; d; e; f; g; h; i; j; k; l; m] =
      rad21 [a; b; c; d; e; f; g; h; i; j; k; l] + 2 ^ 252 * m) as Em by (cbn [rad21]; ring)
  end.
  { subst. unfold order25519. cbn [rad21]. ring. }
  assert (- (2 ^ 251 + 2 ^ 249) <= rad21 [s0; s1; s2; s3; s4; s5; s6; s7; s8; s9; s10; s11; s12] - s12 * order25519
    <= 2 ^ 251 + 2 ^ 249) as Hv by (unfold order25519; cbn [rad21]; lia).
  rewrite <- Ev in Hv.
  lazymatch goal with |- wp (sc_fold4 _ _ _ _ _ _ _ _ _ _ _ _ ?m) _ =>
    assert (-1 <= m <= 0) by (clear -Hlo Em Hv; lia);
    assert (0 <= rad21 [s0; s1; s2; s3; s4; s5; s6; s7; s8; s9; s10; s11; s12] - s12 * order25519 - m * order25519 < order25519)
      by (rewrite <- Ev; unfold order25519; clear -Hlo Em Hv; lia)
  end.
  eapply wp_mono; [apply sc_fold4_spec; first [lia|by rewrite Ev]|].
  intros r ->. f_equal. rewrite Ev.
  lazymatch goal with |- _ - _ - ?m * _ = _ => apply (Zmod_unique _ _ (s12 + m)) end; [done|ring].
Qed.


Lemma sc_carry2_spec s0 s1 s2 s3 s4 s5 s6 s7 s8 s9 s10 s11 s12 :
  within (2 ^ 57) s0 -> within (2 ^ 57) s1 -> within (2 ^ 57) s2 -> within (2 ^ 57) s3 ->
  within (2 ^ 57) s4 -> within (2 ^ 57) s5 -> within (2 ^ 57) s6 -> within (2 ^ 57) s7 ->
  within (2 ^ 57) s8 -> within (2 ^ 57) s9 -> within (2 ^ 57) s10 -> within (2 ^ 34) s11 -> 0
  <= s12 <= 0 ->
  wp (sc_carry2 s0 s1 s2 s3 s4 s5 s6 s7 s8 s9 s10 s11 s12)
    (fun r => r = le_encode 32 (rad21 [s0; s1; s2; s3; s4; s5; s6; s7; s8; s9; s10; s11; s12] mod order25519)).
Proof.
  unfold within. intros. unfold sc_carry2. repeat wp_step.
  eapply wp_mono; [apply sc_fold3_spec; unfold within; lia|].
  intros r ->. f_equal. apply (order_congr _ _ (0)).
  subst. unfold order25519. cbn [rad21]. ring.
Qed.

Lemma sc_fold2_spec s0 s1 s2 s3 s4 s5 s6 s7 s8 s9 s10 s11 s12 s13 s14 s15 s16 s17 :
  within (2 ^ 33 + 2 ^ 21) s0 -> within (2 ^ 33 + 2 ^ 21) s1 -> within (2 ^ 33 + 2 ^ 21) s2 ->
  within (2 ^ 33 + 2 ^ 21) s3 -> within (2 ^ 33 + 2 ^ 21) s4 -> within (2 ^ 33 + 2 ^ 21) s5 ->
  within (2 ^ 33 + 2 ^ 21) s6 -> within (2 ^ 33 + 2 ^ 21) s7 -> within (2 ^ 33 + 2 ^ 21) s8 ->
  within (2 ^ 33 + 2 ^ 21) s9 -> within (2 ^ 33 + 2 ^ 21) s10 -> within (2 ^ 33 + 2 ^ 21) s11
  -> within (2 ^ 33 + 2 ^ 21) s12 -> within (2 ^ 33 + 2 ^ 21) s13 -> within (2 ^ 33 + 2 ^ 21)
  s14 -> within (2 ^ 33 + 2 ^ 21) s15 -> within (2 ^ 33 + 2 ^ 21) s16 -> within (2 ^ 33 + 2 ^
  21) s17 ->
  wp (sc_fold2 s0 s1 s2 s3 s4 s5 s6 s7 s8 s9 s10 s11 s12 s13 s14 s15 s16 s17)
    (fun r => r = le_encode 32 (rad21 [s0; s1; s2; s3; s4; s5; s6; s7; s8; s9; s10; s11; s12; s13; s14; s15; s16; s17] mod order25519)).
Proof.
  unfold within. intros. unfold sc_fold2. repeat wp_step.
  eapply wp_mono; [apply sc_carry2_spec; unfold within; lia|].
  intros r ->. f_equal. apply (order_congr _ _ (s12 * 2 ^ 0 + s13 * 2 ^ 21 + s14 * 2 ^ 42 + s15 * 2 ^ 63 + s16 * 2 ^ 84 + s17 * 2 ^ 105)).
  subst. unfold order25519. cbn [rad21]. ring.
Qed.

Lemma sc_carry1_spec s0 s1 s2 s3 s4 s5 s6 s7 s8 s9 s10 s11 s12 s13 s14 s15 s16 s17 :
  within (2 ^ 30) s0 -> within (2 ^ 30) s1 -> within (2 ^ 30) s2 -> within (2 ^ 30) s3 ->
  within (2 ^ 30) s4 -> within (2 ^ 30) s5 -> within (2 ^ 53) s6 -> within (2 ^ 53) s7 ->
  within (2 ^ 53) s8 -> within (2 ^ 53) s9 -> within (2 ^ 53) s10 -> within (2 ^ 53) s11 ->
  within (2 ^ 53) s12 -> within (2 ^ 53) s13 -> within (2 ^ 53) s14 -> within (2 ^ 53) s15 ->
  within (2 ^ 53) s16 -> within (2 ^ 30) s17 ->
  wp (sc_carry1 s0 s1 s2 s3 s4 s5 s6 s7 s8 s9 s10 s11 s12 s13 s14 s15 s16 s17)
    (fun r => r = le_encode 32 (rad21 [s0; s1; s2; s3; s4; s5; s6; s7; s8; s9; s10; s11; s12; s13; s14; s15; s16; s17] mod order25519)).
Proof.
  unfold within. intros. unfold sc_carry1. repeat wp_step.
  eapply wp_mono; [apply sc_fold2_spec; unfold within; lia|].
  intros r ->. f_equal. apply (order_congr _ _ (0)).
  subst. unfold order25519. cbn [rad21]. ring.
Qed.

Lemma sc_fold1_spec s0 s1 s2 s3 s4 s5 s6 s7 s8 s9 s10 s11 s12 s13 s14 s15 s16 s17 s18 s19 s20 s21 s22 s23 :
  within (2 ^ 30) s0 -> within (2 ^ 30) s1 -> within (2 ^ 30) s2 -> within (2 ^ 30) s3 ->
  within (2 ^ 30) s4 -> within (2 ^ 30) s5 -> within (2 ^ 30) s6 -> within (2 ^ 30) s7 ->
  within (2 ^ 30) s8 -> within (2 ^ 30) s9 -> within (2 ^ 30) s10 -> within (2 ^ 30) s11 ->
  within (2 ^ 30) s12 -> within (2 ^ 30) s13 -> within (2 ^ 30) s14 -> within (2 ^ 30) s15 ->
  within (2 ^ 30) s16 -> within (2 ^ 30) s17 -> within (2 ^ 30) s18 -> within (2 ^ 30) s19 ->
  within (2 ^ 30) s20 -> within (2 ^ 30) s21 -> within (2 ^ 30) s22 -> within (2 ^ 30) s23 ->
  wp (sc_fold1 s0 s1 s2 s3 s4 s5 s6 s7 s8 s9 s10 s11 s12 s13 s14 s15 s16 s17 s18 s19 s20 s21 s22 s23)
    (fun r => r = le_encode 32 (rad21 [s0; s1; s2; s3; s4; s5; s6; s7; s8; s9; s10; s11; s12; s13; s14; s15; s16; s17; s18; s19; s20; s21; s22; s23] mod order25519)).
Proof.
  unfold within. intros. unfold sc_fold1. repeat wp_step.
  eapply wp_mono; [apply sc_carry1_spec; unfold within; lia|].
  intros r ->. f_equal. apply (order_congr _ _ (s18 * 2 ^ 126 + s19 * 2 ^ 147 + s20 * 2 ^ 168 + s21 * 2 ^ 189 + s22 * 2 ^ 210 + s23 * 2 ^ 231)).
  subst. unfold order25519. cbn [rad21]. ring.
Qed.

(** * Loads *)
Ltac fold_exps :=
  repeat match goal with
  | |- context [2 ^ (?a + ?b)] =>
      let v := eval vm_compute in (a + b) in change (2 ^ (a + b)) with (2 ^ v)
  end.
Lemma load_chunk N a v k n : 0 <= a -> 0 <= k -> 0 <= n -> k + n <= v ->
  Z.shiftr ((N / 2 ^ a) mod 2 ^ v) k mod 2 ^ n = (N / 2 ^ (a + k)) mod 2 ^ n.
Proof.
  intros. rewrite Z.shiftr_div_pow2 by done.
  rewrite Z.pow_add_r, <- Z.div_div by (lia || apply Z.pow_nonzero; lia).
  set (x := N / 2 ^ a). replace v with (k + (v - k)) by lia.
  pose proof (Z.pow_pos_nonneg 2 k). pose proof (Z.pow_pos_nonneg 2 (v - k)).
  rewrite Z.pow_add_r, Z.rem_mul_r by lia.
  rewrite (Z.mul_comm (2 ^ k)), Z.div_add, (Z.div_small (x mod 2 ^ k)), Z.add_0_l
    by (try lia; apply Z.mod_pos_bound; lia).
  apply Z.mod_mod_divide. exists (2 ^ (v - k - n)). rewrite <- Z.pow_add_r by lia. f_equal. lia.
Qed.

Lemma load_chunk0 N a v n : 0 <= a -> 0 <= n <= v ->
  ((N / 2 ^ a) mod 2 ^ v) mod 2 ^ n = (N / 2 ^ a) mod 2 ^ n.
Proof.
  intros. apply Z.mod_mod_divide. exists (2 ^ (v - n)). rewrite <- Z.pow_add_r by lia. f_equal. lia.
Qed.

Lemma load_last N a k m : 0 <= a -> 0 <= k -> 0 <= m -> 0 <= N < 2 ^ (a + m) ->
  Z.shiftr ((N / 2 ^ a) mod 2 ^ m) k = N / 2 ^ (a + k).
Proof.
  intros. rewrite Z.shiftr_div_pow2 by done. pose proof (Z.pow_pos_nonneg 2 a).
  rewrite Z.pow_add_r in * by lia. pose proof (Z.pow_pos_nonneg 2 k).
  rewrite Z.mod_small by (split; [apply Z.div_pos; lia|apply Z.div_lt_upper_bound; lia]).
  by rewrite Z.div_div by lia.
Qed.

Lemma reduce_limbs N : 0 <= N < 2 ^ 512 ->
  rad21 [((N / 2 ^ (8 * 0)) mod 2 ^ 24) mod 2 ^ 21;
    Z.shiftr ((N / 2 ^ (8 * 2)) mod 2 ^ 32) 5 mod 2 ^ 21;
    Z.shiftr ((N / 2 ^ (8 * 5)) mod 2 ^ 24) 2 mod 2 ^ 21;
    Z.shiftr ((N / 2 ^ (8 * 7)) mod 2 ^ 32) 7 mod 2 ^ 21;
    Z.shiftr ((N / 2 ^ (8 * 10)) mod 2 ^ 32) 4 mod 2 ^ 21;
    Z.shiftr ((N / 2 ^ (8 * 13)) mod 2 ^ 24) 1 mod 2 ^ 21;
    Z.shiftr ((N / 2 ^ (8 * 15)) mod 2 ^ 32) 6 mod 2 ^ 21;
    Z.shiftr ((N / 2 ^ (8 * 18)) mod 2 ^ 24) 3 mod 2 ^ 21;
    ((N / 2 ^ (8 * 21)) mod 2 ^ 24) mod 2 ^ 21;
    Z.shiftr ((N / 2 ^ (8 * 23)) mod 2 ^ 32) 5 mod 2 ^ 21;
    Z.shiftr ((N / 2 ^ (8 * 26)) mod 2 ^ 24) 2 mod 2 ^ 21;
    Z.shiftr ((N / 2 ^ (8 * 28)) mod 2 ^ 32) 7 mod 2 ^ 21;
    Z.shiftr ((N / 2 ^ (8 * 31)) mod 2 ^ 32) 4 mod 2 ^ 21;
    Z.shiftr ((N / 2 ^ (8 * 34)) mod 2 ^ 24) 1 mod 2 ^ 21;
    Z.shiftr ((N / 2 ^ (8 * 36)) mod 2 ^ 32) 6 mod 2 ^ 21;
    Z.shiftr ((N / 2 ^ (8 * 39)) mod 2 ^ 24) 3 mod 2 ^ 21;
    ((N / 2 ^ (8 * 42)) mod 2 ^ 24) mod 2 ^ 21;
    Z.shiftr ((N / 2 ^ (8 * 44)) mod 2 ^ 32) 5 mod 2 ^ 21;
    Z.shiftr ((N / 2 ^ (8 * 47)) mod 2 ^ 24) 2 mod 2 ^ 21;
    Z.shiftr ((N / 2 ^ (8 * 49)) mod 2 ^ 32) 7 mod 2 ^ 21;
    Z.shiftr ((N / 2 ^ (8 * 52)) mod 2 ^ 32) 4 mod 2 ^ 21;
    Z.shiftr ((N / 2 ^ (8 * 55)) mod 2 ^ 24) 1 mod 2 ^ 21;
    Z.shiftr ((N / 2 ^ (8 * 57)) mod 2 ^ 32) 6 mod 2 ^ 21;
    Z.shiftr ((N / 2 ^ (8 * 60)) mod 2 ^ 32) 3] = N.
Proof.
  intros HN. fold_bits.
  rewrite (load_chunk0 N 0 24 21) by lia. rewrite (load_chunk N 16 32 5 21) by lia.
  rewrite (load_chunk N 40 24 2 21) by lia. rewrite (load_chunk N 56 32 7 21) by lia.
  rewrite (load_chunk N 80 32 4 21) by lia. rewrite (load_chunk N 104 24 1 21) by lia.
  rewrite (load_chunk N 120 32 6 21) by lia. rewrite (load_chunk N 144 24 3 21) by lia.
  rewrite (load_chunk0 N 168 24 21) by lia. rewrite (load_chunk N 184 32 5 21) by lia.
  rewrite (load_chunk N 208 24 2 21) by lia. rewrite (load_chunk N 224 32 7 21) by lia.
  rewrite (load_chunk N 248 32 4 21) by lia. rewrite (load_chunk N 272 24 1 21) by lia.
  rewrite (load_chunk N 288 32 6 21) by lia. rewrite (load_chunk N 312 24 3 21) by lia.
  rewrite (load_chunk0 N 336 24 21) by lia. rewrite (load_chunk N 352 32 5 21) by lia.
  rewrite (load_chunk N 376 24 2 21) by lia. rewrite (load_chunk N 392 32 7 21) by lia.
  rewrite (load_chunk N 416 32 4 21) by lia. rewrite (load_chunk N 440 24 1 21) by lia.
  rewrite (load_chunk N 456 32 6 21) by lia. rewrite (load_last N 480 3 32) by lia.
  use_chunk N 0 21. use_chunk N 21 21. use_chunk N 42 21. use_chunk N 63 21. use_chunk N 84 21.
  use_chunk N 105 21. use_chunk N 126 21. use_chunk N 147 21. use_chunk N 168 21. use_chunk N 189 21.
  use_chunk N 210 21. use_chunk N 231 21. use_chunk N 252 21. use_chunk N 273 21. use_chunk N 294 21.
  use_chunk N 315 21. use_chunk N 336 21. use_chunk N 357 21. use_chunk N 378 21. use_chunk N 399 21.
  use_chunk N 420 21. use_chunk N 441 21. use_chunk N 462 21.
  fold_exps. cbn [rad21]. change (2 ^ 0) with 1 in *. rewrite !Z.div_1_r in *. lia.
Qed.


Lemma sc_reduce_spec s : bytes_wf s -> zlen s = 64 ->
  sc_reduce s = Some (le_encode 32 (le_decode s mod order25519) ++ drop 32 s).
Proof.
  intros Hs Hl. pose proof (le_decode_bound s Hs) as HN. rewrite Hl in HN.
  change (256 ^ 64) with (2 ^ 512) in HN.
  assert (wp (sc_reduce s) (fun r => r = le_encode 32 (le_decode s mod order25519) ++ drop 32 s)) as H.
  { unfold sc_reduce. change (load_3 s) with (load_3 (s +p 0)). repeat wp_step.
    eapply wp_bind, wp_mono; [apply sc_fold1_spec; unfold within; lia|].
    intros r ->. cbn [wp]. f_equal. f_equal. f_equal.
    rewrite <- (reduce_limbs (le_decode s)) at 1 by done. by subst. }
  apply wp_some in H as (r & -> & ->). done.
Qed.
Lemma scalar_limbs N : 0 <= N < 2 ^ 256 ->
  rad21 [((N / 2 ^ (8 * 0)) mod 2 ^ 24) mod 2 ^ 21;
    Z.shiftr ((N / 2 ^ (8 * 2)) mod 2 ^ 32) 5 mod 2 ^ 21;
    Z.shiftr ((N / 2 ^ (8 * 5)) mod 2 ^ 24) 2 mod 2 ^ 21;
    Z.shiftr ((N / 2 ^ (8 * 7)) mod 2 ^ 32) 7 mod 2 ^ 21;
    Z.shiftr ((N / 2 ^ (8 * 10)) mod 2 ^ 32) 4 mod 2 ^ 21;
    Z.shiftr ((N / 2 ^ (8 * 13)) mod 2 ^ 24) 1 mod 2 ^ 21;
    Z.shiftr ((N / 2 ^ (8 * 15)) mod 2 ^ 32) 6 mod 2 ^ 21;
    Z.shiftr ((N / 2 ^ (8 * 18)) mod 2 ^ 24) 3 mod 2 ^ 21;
    ((N / 2 ^ (8 * 21)) mod 2 ^ 24) mod 2 ^ 21;
    Z.shiftr ((N / 2 ^ (8 * 23)) mod 2 ^ 32) 5 mod 2 ^ 21;
    Z.shiftr ((N / 2 ^ (8 * 26)) mod 2 ^ 24) 2 mod 2 ^ 21;
    Z.shiftr ((N / 2 ^ (8 * 28)) mod 2 ^ 32) 7] = N.
Proof.
  intros HN. fold_bits.
  rewrite (load_chunk0 N 0 24 21) by lia. rewrite (load_chunk N 16 32 5 21) by lia.
  rewrite (load_chunk N 40 24 2 21) by lia. rewrite (load_chunk N 56 32 7 21) by lia.
  rewrite (load_chunk N 80 32 4 21) by lia. rewrite (load_chunk N 104 24 1 21) by lia.
  rewrite (load_chunk N 120 32 6 21) by lia. rewrite (load_chunk N 144 24 3 21) by lia.
  rewrite (load_chunk0 N 168 24 21) by lia. rewrite (load_chunk N 184 32 5 21) by lia.
  rewrite (load_chunk N 208 24 2 21) by lia. rewrite (load_last N 224 7 32) by lia.
  use_chunk N 0 21. use_chunk N 21 21. use_chunk N 42 21. use_chunk N 63 21. use_chunk N 84 21.
  use_chunk N 105 21. use_chunk N 126 21. use_chunk N 147 21. use_chunk N 168 21. use_chunk N 189 21.
  use_chunk N 210 21.
  fold_exps. cbn [rad21]. change (2 ^ 0) with 1 in *. rewrite !Z.div_1_r in *. lia.
Qed.


Lemma sc_muladd_carry_spec s0 s1 s2 s3 s4 s5 s6 s7 s8 s9 s10 s11 s12 s13 s14 s15 s16 s17 s18 s19 s20 s21 s22 s23 :
  within (2 ^ 50) s0 -> within (2 ^ 50) s1 -> within (2 ^ 50) s2 -> within (2 ^ 50) s3 ->
  within (2 ^ 50) s4 -> within (2 ^ 50) s5 -> within (2 ^ 50) s6 -> within (2 ^ 50) s7 ->
  within (2 ^ 50) s8 -> within (2 ^ 50) s9 -> within (2 ^ 50) s10 -> within (2 ^ 50) s11 ->
  within (2 ^ 50) s12 -> within (2 ^ 50) s13 -> within (2 ^ 50) s14 -> within (2 ^ 50) s15 ->
  within (2 ^ 50) s16 -> within (2 ^ 50) s17 -> within (2 ^ 50) s18 -> within (2 ^ 50) s19 ->
  within (2 ^ 50) s20 -> within (2 ^ 50) s21 -> within (2 ^ 50) s22 -> 0 <= s23 <= 0 ->
  wp (sc_muladd_carry s0 s1 s2 s3 s4 s5 s6 s7 s8 s9 s10 s11 s12 s13 s14 s15 s16 s17 s18 s19 s20 s21 s22 s23)
    (fun r => r = le_encode 32 (rad21 [s0; s1; s2; s3; s4; s5; s6; s7; s8; s9; s10; s11; s12; s13; s14; s15; s16; s17; s18; s19; s20; s21; s22; s23] mod order25519)).
Proof.
  unfold within. intros. unfold sc_muladd_carry. repeat wp_step.
  eapply wp_mono; [apply sc_fold1_spec; unfold within; lia|].
  intros r ->. f_equal. apply (order_congr _ _ (0)).
  subst. unfold order25519. cbn [rad21]. ring.
Qed.

Lemma sc_muladd_spec a b c :
  bytes_wf a -> bytes_wf b -> bytes_wf c -> zlen a = 32 -> zlen b = 32 -> zlen c = 32 ->
  sc_muladd a b c = Some (le_encode 32 ((le_decode a * le_decode b + le_decode c) mod order25519)).
Proof.
  intros Ha Hb Hc La Lb Lc.
  pose proof (le_decode_bound a Ha) as HA. rewrite La in HA. change (256 ^ 32) with (2 ^ 256) in HA.
  pose proof (le_decode_bound b Hb) as HB. rewrite Lb in HB. change (256 ^ 32) with (2 ^ 256) in HB.
  pose proof (le_decode_bound c Hc) as HC. rewrite Lc in HC. change (256 ^ 32) with (2 ^ 256) in HC.
  assert (wp (sc_muladd a b c)
    (fun r => r = le_encode 32 ((le_decode a * le_decode b + le_decode c) mod order25519))) as H.
  { unfold sc_muladd. change (load_3 a) with (load_3 (a +p 0)).
    change (load_3 b) with (load_3 (b +p 0)). change (load_3 c) with (load_3 (c +p 0)).
    repeat wp_step.
    eapply wp_mono; [apply sc_muladd_carry_spec; unfold within; lia|].
    intros r ->. f_equal. f_equal.
    rewrite <- (scalar_limbs (le_decode a)), <- (scalar_limbs (le_decode b)),
      <- (scalar_limbs (le_decode c)) by done.
    repeat match goal with
    | E : ?x = ?e |- _ => lazymatch e with context [le_decode _] => rewrite <- E; clear E end
    end.
    subst. cbn [rad21]. ring. }
  apply wp_some in H as (r & -> & ->). done.
Qed.

Lemma lookup_take_ptr (s : list Z) n k i : (Z.to_nat k + i < n)%nat -> (take n s +p k) !! i = (s +p k) !! i.
Proof. intros H. unfold ptr_add. rewrite !lookup_drop. by apply lookup_take_lt. Qed.

Lemma load_3_take s k : 0 <= k <= 29 -> load_3 (take 32 s +p k) = load_3 (s +p k).
Proof. intros Hk. unfold load_3. rewrite !lookup_take_ptr by lia. done. Qed.
Lemma load_4_take s k : 0 <= k <= 28 -> load_4 (take 32 s +p k) = load_4 (s +p k).
Proof. intros Hk. unfold load_4. rewrite !lookup_take_ptr by lia. done. Qed.

(** Only the first 32 bytes are read. *)
Lemma sc_muladd_take a b c : sc_muladd (take 32 a) (take 32 b) (take 32 c) = sc_muladd a b c.
Proof.
  unfold sc_muladd. change (load_3 (take 32 ?s)) with (load_3 (take 32 s +p 0)).
  rewrite !load_3_take, !load_4_take by lia. reflexivity.
Qed.

Lemma sc_muladd_bytes a b c :
  bytes_wf a -> bytes_wf b -> bytes_wf c -> 32 <= zlen a -> 32 <= zlen b -> 32 <= zlen c ->
  sc_muladd a b c =
    Some (le_encode 32 ((le_decode (take 32 a) * le_decode (take 32 b) + le_decode (take 32 c)) mod order25519)).
Proof.
  intros Ha Hb Hc La Lb Lc. rewrite <- sc_muladd_take.
  apply sc_muladd_spec; try (by apply bytes_wf_take); rewrite length_take; lia.
Qed.
