(* ===== verification/Sha512.v ===== *)
(** SHA-512, [remote/ed25519/sha512.c]: the streaming interface and the
    unrolled compression function. *)
From S2P Require Import Prelude.

(** The K array. *)
Definition K : list Z :=
  [0x428a2f98d728ae22; 0x7137449123ef65cd; 0xb5c0fbcfec4d3b2f; 0xe9b5dba58189dbbc;
   0x3956c25bf348b538; 0x59f111f1b605d019; 0x923f82a4af194f9b; 0xab1c5ed5da6d8118;
   0xd807aa98a3030242; 0x12835b0145706fbe; 0x243185be4ee4b28c; 0x550c7dc3d5ffb4e2;
   0x72be5d74f27b896f; 0x80deb1fe3b1696b1; 0x9bdc06a725c71235; 0xc19bf174cf692694;
   0xe49b69c19ef14ad2; 0xefbe4786384f25e3; 0x0fc19dc68b8cd5b5; 0x240ca1cc77ac9c65;
   0x2de92c6f592b0275; 0x4a7484aa6ea6e483; 0x5cb0a9dcbd41fbd4; 0x76f988da831153b5;
   0x983e5152ee66dfab; 0xa831c66d2db43210; 0xb00327c898fb213f; 0xbf597fc7beef0ee4;
   0xc6e00bf33da88fc2; 0xd5a79147930aa725; 0x06ca6351e003826f; 0x142929670a0e6e70;
   0x27b70a8546d22ffc; 0x2e1b21385c26c926; 0x4d2c6dfc5ac42aed; 0x53380d139d95b3df;
   0x650a73548baf63de; 0x766a0abb3c77b2a8; 0x81c2c92e47edaee6; 0x92722c851482353b;
   0xa2bfe8a14cf10364; 0xa81a664bbc423001; 0xc24b8b70d0f89791; 0xc76c51a30654be30;
   0xd192e819d6ef5218; 0xd69906245565a910; 0xf40e35855771202a; 0x106aa07032bbd1b8;
   0x19a4c116b8d2d0c8; 0x1e376c085141ab53; 0x2748774cdf8eeb99; 0x34b0bcb5e19b48a8;
   0x391c0cb3c5c95a63; 0x4ed8aa4ae3418acb; 0x5b9cca4f7763e373; 0x682e6ff3d6b2b8a3;
   0x748f82ee5defb2fc; 0x78a5636f43172f60; 0x84c87814a1f0ab72; 0x8cc702081a6439ec;
   0x90befffa23631e28; 0xa4506cebde82bde9; 0xbef9a3f7b2c67915; 0xc67178f2e372532b;
   0xca273eceea26619c; 0xd186b8c721c0c207; 0xeada7dd6cde0eb1e; 0xf57d4f7fee6ed178;
   0x06f067aa72176fba; 0x0a637dc5a2c898a6; 0x113f9804bef90dae; 0x1b710b35131c471b;
   0x28db77f523047d84; 0x32caab7b40c72493; 0x3c9ebe0a15c9bebc; 0x431d67c49c100d4c;
   0x4cc5d4becb3e42b6; 0x597f299cfc657e2a; 0x5fcb6fab3ad6faec; 0x6c44198c4a475817].

(** * Logical functions (macros) *)
Definition ROR64c (x y : Z) : Z :=
  u64 (Z.lor (Z.shiftr (u64 x) (Z.land y 63)) (u64 (Z.shiftl x (64 - Z.land y 63)))).
Definition STORE64H (x : Z) : list Z :=
  [Z.land (Z.shiftr x 56) 255; Z.land (Z.shiftr x 48) 255; Z.land (Z.shiftr x 40) 255;
   Z.land (Z.shiftr x 32) 255; Z.land (Z.shiftr x 24) 255; Z.land (Z.shiftr x 16) 255;
   Z.land (Z.shiftr x 8) 255; Z.land x 255].
Definition LOAD64H (y : list Z) : option Z :=
  match y with
  | y0 :: y1 :: y2 :: y3 :: y4 :: y5 :: y6 :: y7 :: _ =>
      Some (Z.lor (Z.lor (Z.lor (Z.lor (Z.lor (Z.lor (Z.lor
        (Z.shiftl (Z.land y0 255) 56) (Z.shiftl (Z.land y1 255) 48))
        (Z.shiftl (Z.land y2 255) 40)) (Z.shiftl (Z.land y3 255) 32))
        (Z.shiftl (Z.land y4 255) 24)) (Z.shiftl (Z.land y5 255) 16))
        (Z.shiftl (Z.land y6 255) 8)) (Z.land y7 255))
  | _ => None
  end.
Definition Ch (x y z : Z) : Z := Z.lxor z (Z.land x (Z.lxor y z)).
Definition Maj (x y z : Z) : Z := Z.lor (Z.land (Z.lor x y) z) (Z.land x y).
Definition S_ (x n : Z) : Z := ROR64c x n.
Definition R_ (x n : Z) : Z := Z.shiftr (u64 x) n.
Definition Sigma0 (x : Z) : Z := Z.lxor (Z.lxor (S_ x 28) (S_ x 34)) (S_ x 39).
Definition Sigma1 (x : Z) : Z := Z.lxor (Z.lxor (S_ x 14) (S_ x 18)) (S_ x 41).
Definition Gamma0 (x : Z) : Z := Z.lxor (Z.lxor (S_ x 1) (S_ x 8)) (R_ x 7).
Definition Gamma1 (x : Z) : Z := Z.lxor (Z.lxor (S_ x 19) (S_ x 61)) (R_ x 6).

(** * State *)
Record sha512_context := Sha512 { length_ : Z; state : list Z; curlen : Z; buf : list Z }.
Definition set_state (md : sha512_context) (s : list Z) : sha512_context :=
  Sha512 (length_ md) s (curlen md) (buf md).

(** * Compression *)

(** [RND(a,b,c,d,e,f,g,h,i)]: the new values of [d] and [h]. *)
Definition RND (a b c d e f g h k w : Z) : Z * Z :=
  let t0 := u64 (h + Sigma1 e + Ch e f g + k + w) in
  let t1 := u64 (Sigma0 a + Maj a b c) in
  (u64 (d + t0), u64 (t0 + t1)).

(** Fill W[16..79], the loop from index [i]. *)
Fixpoint fill_W (n : nat) (i : nat) (W : list Z) : list Z :=
  match n with
  | O => W
  | S n =>
      let w := u64 (Gamma1 (W !!! (i - 2)%nat) + W !!! (i - 7)%nat +
                    Gamma0 (W !!! (i - 15)%nat) + W !!! (i - 16)%nat) in
      fill_W n (S i) (W ++ [w])
  end.

(** The 16 words of a block. *)
Fixpoint load_W (n : nat) (b : list Z) : option (list Z) :=
  match n with
  | O => Some []
  | S n => let? w := LOAD64H b in let? r := load_W n (b +p 8) in Some (w :: r)
  end.

Definition regs : Type := Z * Z * Z * Z * Z * Z * Z * Z.

(** One iteration of the compression loop: rounds [i] to [i + 7]. *)
Definition rounds8 (W : list Z) (i : nat) (S : regs) : regs :=
  let '(s0, s1, s2, s3, s4, s5, s6, s7) := S in
  let k j := K !!! (i + j)%nat in
  let w j := W !!! (i + j)%nat in
  let '(s3, s7) := RND s0 s1 s2 s3 s4 s5 s6 s7 (k 0%nat) (w 0%nat) in
  let '(s2, s6) := RND s7 s0 s1 s2 s3 s4 s5 s6 (k 1%nat) (w 1%nat) in
  let '(s1, s5) := RND s6 s7 s0 s1 s2 s3 s4 s5 (k 2%nat) (w 2%nat) in
  let '(s0, s4) := RND s5 s6 s7 s0 s1 s2 s3 s4 (k 3%nat) (w 3%nat) in
  let '(s7, s3) := RND s4 s5 s6 s7 s0 s1 s2 s3 (k 4%nat) (w 4%nat) in
  let '(s6, s2) := RND s3 s4 s5 s6 s7 s0 s1 s2 (k 5%nat) (w 5%nat) in
  let '(s5, s1) := RND s2 s3 s4 s5 s6 s7 s0 s1 (k 6%nat) (w 6%nat) in
  let '(s4, s0) := RND s1 s2 s3 s4 s5 s6 s7 s0 (k 7%nat) (w 7%nat) in
  (s0, s1, s2, s3, s4, s5, s6, s7).

(** [for (i = 0; i < 80; i += 8)] *)
Fixpoint rounds (n : nat) (W : list Z) (i : nat) (S : regs) : regs :=
  match n with
  | O => S
  | Datatypes.S n => rounds n W (i + 8) (rounds8 W i S)
  end.

Definition sha512_compress (md : sha512_context) (b : list Z) : option (Z * sha512_context) :=
  match state md with
  | [s0; s1; s2; s3; s4; s5; s6; s7] =>
      let? W := load_W 16 b in
      let W := fill_W 64 16 W in
      let '(t0, t1, t2, t3, t4, t5, t6, t7) := rounds 10 W 0 (s0, s1, s2, s3, s4, s5, s6, s7) in
      Some (0, set_state md [u64 (s0 + t0); u64 (s1 + t1); u64 (s2 + t2); u64 (s3 + t3);
                             u64 (s4 + t4); u64 (s5 + t5); u64 (s6 + t6); u64 (s7 + t7)])
  | _ => None
  end.

(** * The streaming interface

    The buffer of an initialised context holds arbitrary bytes. *)
Definition sha512_init (junk : list Z) : Z * sha512_context :=
  (0, Sha512 0
    [0x6a09e667f3bcc908; 0xbb67ae8584caa73b; 0x3c6ef372fe94f82b; 0xa54ff53a5f1d36f1;
     0x510e527fade682d1; 0x9b05688c2b3e6c1f; 0x1f83d9abfb41bd6b; 0x5be0cd19137e2179] 0 junk).

(** [buf[off .. off + n - 1] = in[0 .. n - 1]] *)
Definition buf_copy (b : list Z) (off : Z) (src : list Z) (n : Z) : option (list Z) :=
  let? x := bytes_at src n in
  if (0 <=? off) && (off + n <=? zlen b) then
    Some (take (Z.to_nat off) b ++ x ++ b +p (off + n))
  else None.

(** The loop of [sha512_update]; [None] also when the fuel runs out. *)
Fixpoint update_loop (fuel : nat) (md : sha512_context) (in_ : list Z) (inlen : Z)
  : option (Z * sha512_context) :=
  match fuel with
  | O => None
  | S fuel =>
      if 0 <? inlen then
        if (curlen md =? 0) && (128 <=? inlen) then
          let? (err, md) := sha512_compress md in_ in
          if negb (err =? 0) then Some (err, md) else
          let md := Sha512 (u64 (length_ md + 128 * 8)) (state md) (curlen md) (buf md) in
          update_loop fuel md (in_ +p 128) (inlen - 128)
        else
          let n := Z.min inlen (128 - curlen md) in
          let? b := buf_copy (buf md) (curlen md) in_ n in
          let md := Sha512 (length_ md) (state md) (curlen md + n) b in
          let in_ := in_ +p n in
          let inlen := inlen - n in
          if curlen md =? 128 then
            let? (err, md) := sha512_compress md (buf md) in
            if negb (err =? 0) then Some (err, md) else
            let md := Sha512 (u64 (length_ md + 8 * 128)) (state md) 0 (buf md) in
            update_loop fuel md in_ inlen
          else update_loop fuel md in_ inlen
      else Some (0, md)
  end.

(** [in] is [None] for NULL. *)
Definition sha512_update (md : sha512_context) (in_ : option (list Z)) (inlen : Z)
  : option (Z * sha512_context) :=
  match in_ with
  | None => Some (1, md)
  | Some in_ =>
      if 128 <? curlen md then Some (1, md)
      else update_loop (S (S (Z.to_nat inlen))) md in_ inlen
  end.

(** [while (curlen < upto) buf[curlen++] = 0] *)
Definition pad_zero (md : sha512_context) (upto : Z) : option sha512_context :=
  let n := Z.max 0 (upto - curlen md) in
  let? b := buf_copy (buf md) (curlen md) (replicate (Z.to_nat n) 0) n in
  Some (Sha512 (length_ md) (state md) (curlen md + n) b).

(** The result code, the context and the 64 bytes stored at [out]. *)
Definition sha512_final (md : sha512_context) : option (Z * sha512_context * list Z) :=
  if 128 <=? curlen md then Some (1, md, []) else
  let md := Sha512 (u64 (length_ md + curlen md * 8)) (state md) (curlen md) (buf md) in
  let? b := buf_copy (buf md) (curlen md) [128] 1 in
  let md := Sha512 (length_ md) (state md) (curlen md + 1) b in
  let? md :=
    if 112 <? curlen md then
      let? md := pad_zero md 128 in
      let? (_, md) := sha512_compress md (buf md) in
      Some (Sha512 (length_ md) (state md) 0 (buf md))
    else Some md in
  let? md := pad_zero md 120 in
  let? b := buf_copy (buf md) 120 (STORE64H (length_ md)) 8 in
  let md := Sha512 (length_ md) (state md) (curlen md) b in
  let? (_, md) := sha512_compress md (buf md) in
  Some (0, md, concat (map STORE64H (state md))).

Definition sha512 (junk message : list Z) (message_len : Z) : option (Z * list Z) :=
  let '(ret, ctx) := sha512_init junk in
  if negb (ret =? 0) then Some (ret, []) else
  let? (ret, ctx) := sha512_update ctx (Some message) message_len in
  if negb (ret =? 0) then Some (ret, []) else
  let? (ret, ctx, out) := sha512_final ctx in
  if negb (ret =? 0) then Some (ret, []) else
  Some (0, out).
