(* ===== verification/Sha512Spec.v ===== *)
(** SHA-512 against its definition (FIPS 180-4): the unrolled compression
    function is the sixteen-word schedule and eighty rounds of the standard,
    and the streaming interface hashes the padded concatenation of its
    inputs. *)
From S2P Require Import Prelude Sha512.

(** * The standard *)
Definition rotr (n x : Z) : Z := x / 2 ^ n + (x mod 2 ^ n) * 2 ^ (64 - n).
Definition fips_ch (x y z : Z) : Z := Z.lxor (Z.land x y) (Z.land (Z.lnot x) z).
Definition fips_maj (x y z : Z) : Z := Z.lxor (Z.lxor (Z.land x y) (Z.land x z)) (Z.land y z).
Definition big0 (x : Z) : Z := Z.lxor (Z.lxor (rotr 28 x) (rotr 34 x)) (rotr 39 x).
Definition big1 (x : Z) : Z := Z.lxor (Z.lxor (rotr 14 x) (rotr 18 x)) (rotr 41 x).
Definition small0 (x : Z) : Z := Z.lxor (Z.lxor (rotr 1 x) (rotr 8 x)) (x / 2 ^ 7).
Definition small1 (x : Z) : Z := Z.lxor (Z.lxor (rotr 19 x) (rotr 61 x)) (x / 2 ^ 6).

(** The message schedule: sixteen big-endian words, then the recurrence. *)
Definition block_words (b : list Z) : list Z :=
  map (fun i => be_decode (take 8 (drop (8 * i) b))) (seq 0 16).
Definition next_word (W : list Z) : Z :=
  let t := length W in
  (small1 (W !!! (t - 2)%nat) + W !!! (t - 7)%nat +
   small0 (W !!! (t - 15)%nat) + W !!! (t - 16)%nat) mod 2 ^ 64.
Definition schedule (b : list Z) : list Z :=
  Nat.iter 64 (fun W => W ++ [next_word W]) (block_words b).

Definition fips_round (S : regs) (kw : Z * Z) : regs :=
  let '(a, b, c, d, e, f, g, h) := S in
  let T1 := (h + big1 e + fips_ch e f g + kw.1 + kw.2) mod 2 ^ 64 in
  let T2 := (big0 a + fips_maj a b c) mod 2 ^ 64 in
  ((T1 + T2) mod 2 ^ 64, a, b, c, (d + T1) mod 2 ^ 64, e, f, g).

Definition to_regs (st : list Z) : regs :=
  (st !!! 0%nat, st !!! 1%nat, st !!! 2%nat, st !!! 3%nat,
   st !!! 4%nat, st !!! 5%nat, st !!! 6%nat, st !!! 7%nat).
Definition of_regs (S : regs) : list Z :=
  let '(a, b, c, d, e, f, g, h) := S in [a; b; c; d; e; f; g; h].

Definition fips_compress (st b : list Z) : list Z :=
  let S := foldl fips_round (to_regs st) (zip K (schedule b)) in
  zip_with (fun x y => (x + y) mod 2 ^ 64) st (of_regs S).

(** * The macros compute the standard's functions *)
Lemma Ch_fips x y z : Ch x y z = fips_ch x y z.
Proof.
  apply Z.bits_inj'. intros n Hn. unfold Ch, fips_ch.
  rewrite !Z.lxor_spec, !Z.land_spec, !Z.lxor_spec, Z.lnot_spec by done.
  destruct (Z.testbit x n), (Z.testbit y n), (Z.testbit z n); done.
Qed.

Lemma Maj_fips x y z : Maj x y z = fips_maj x y z.
Proof.
  apply Z.bits_inj'. intros n Hn. unfold Maj, fips_maj.
  rewrite !Z.lor_spec, !Z.land_spec, !Z.lxor_spec, !Z.land_spec, !Z.lor_spec.
  destruct (Z.testbit x n), (Z.testbit y n), (Z.testbit z n); done.
Qed.

Lemma ROR64c_rotr n x : 0 < n < 64 -> is_u64 x -> ROR64c x n = rotr n x.
Proof.
  unfold is_u64. intros Hn Hx. unfold ROR64c.
  assert (Z.land n 63 = n) as ->.
  { change 63 with (Z.ones 6). rewrite Z.land_ones, Z.mod_small; lia. }
  pose proof (Z.pow_pos_nonneg 2 n). pose proof (Z.pow_pos_nonneg 2 (64 - n)).
  assert (2 ^ 64 = 2 ^ (64 - n) * 2 ^ n) as E by (rewrite <- Z.pow_add_r by lia; f_equal; lia).
  rewrite (u64_small x), Z.shiftr_div_pow2, Z.shiftl_mul_pow2 by (unfold is_u64; lia).
  assert (u64 (x * 2 ^ (64 - n)) = (x mod 2 ^ n) * 2 ^ (64 - n)) as ->.
  { unfold u64. rewrite E, (Z.mul_comm x), Zmult_mod_distr_l. ring. }
  rewrite <- Z.shiftl_mul_pow2 by lia.
  assert (0 <= x / 2 ^ n < 2 ^ (64 - n)).
  { split; [apply Z.div_pos; lia|apply Z.div_lt_upper_bound; lia]. }
  pose proof (Z.mod_pos_bound x (2 ^ n)).
  rewrite lor_shiftl_add by lia. unfold rotr. apply u64_small. unfold is_u64. nia.
Qed.

Lemma R_div n x : 0 <= n -> is_u64 x -> R_ x n = x / 2 ^ n.
Proof. intros. unfold R_. rewrite u64_small by done. by rewrite Z.shiftr_div_pow2. Qed.

Section sigmas.
Context (x : Z) (Hx : is_u64 x).
Lemma Sigma0_fips : Sigma0 x = big0 x.
Proof. unfold Sigma0, big0, S_. by rewrite !ROR64c_rotr by (done || lia). Qed.
Lemma Sigma1_fips : Sigma1 x = big1 x.
Proof. unfold Sigma1, big1, S_. by rewrite !ROR64c_rotr by (done || lia). Qed.
Lemma Gamma0_fips : Gamma0 x = small0 x.
Proof. unfold Gamma0, small0, S_. by rewrite !ROR64c_rotr, R_div by (done || lia). Qed.
Lemma Gamma1_fips : Gamma1 x = small1 x.
Proof. unfold Gamma1, small1, S_. by rewrite !ROR64c_rotr, R_div by (done || lia). Qed.
End sigmas.

Lemma land_255 x : is_byte x -> Z.land x 255 = x.
Proof. intros H. change 255 with (Z.ones 8). rewrite Z.land_ones by lia. by apply Z.mod_small. Qed.

Lemma lor_hi q lo n : 0 <= n -> 0 <= lo < 2 ^ n -> Z.lor (q * 2 ^ n) lo = q * 2 ^ n + lo.
Proof.
  intros Hn Hlo. rewrite Z.lor_comm, <- Z.shiftl_mul_pow2 by done.
  rewrite lor_shiftl_add by done. rewrite Z.shiftl_mul_pow2 by done. lia.
Qed.

Lemma LOAD64H_spec b : bytes_wf b -> 8 <= zlen b -> LOAD64H b = Some (be_decode (take 8 b)).
Proof.
  intros Hb Hl.
  destruct b as [|y0 [|y1 [|y2 [|y3 [|y4 [|y5 [|y6 [|y7 b]]]]]]]]; cbn [length] in Hl; try lia.
  unfold bytes_wf in Hb. rewrite !Forall_cons in Hb. destruct Hb as (?&?&?&?&?&?&?&?&_).
  cbn [LOAD64H]. rewrite !land_255 by done. unfold is_byte in *. f_equal.
  rewrite !Z.shiftl_mul_pow2 by lia.
  replace (y0 * 2 ^ 56) with (y0 * 2 ^ 8 * 2 ^ 48) by ring.
  replace (Z.lor (y0 * 2 ^ 8 * 2 ^ 48) (y1 * 2 ^ 48)) with ((y0 * 2 ^ 8 + y1) * 2 ^ 8 * 2 ^ 40).
  2: { replace (y0 * 2 ^ 8 * 2 ^ 48) with (y0 * 2 ^ 56) by ring. rewrite lor_hi by lia. ring. }
  set (A := y0 * 2 ^ 8 + y1).
  replace (A * 2 ^ 8 * 2 ^ 40) with (A * 2 ^ 48) by ring.
  rewrite (lor_hi A (y2 * 2 ^ 40)) by lia.
  replace (A * 2 ^ 48 + y2 * 2 ^ 40) with ((A * 2 ^ 8 + y2) * 2 ^ 40) by ring.
  rewrite (lor_hi _ (y3 * 2 ^ 32)) by lia.
  replace ((A * 2 ^ 8 + y2) * 2 ^ 40 + y3 * 2 ^ 32) with (((A * 2 ^ 8 + y2) * 2 ^ 8 + y3) * 2 ^ 32) by ring.
  rewrite (lor_hi _ (y4 * 2 ^ 24)) by lia.
  set (B := (A * 2 ^ 8 + y2) * 2 ^ 8 + y3).
  replace (B * 2 ^ 32 + y4 * 2 ^ 24) with ((B * 2 ^ 8 + y4) * 2 ^ 24) by ring.
  rewrite (lor_hi _ (y5 * 2 ^ 16)) by lia.
  replace ((B * 2 ^ 8 + y4) * 2 ^ 24 + y5 * 2 ^ 16) with (((B * 2 ^ 8 + y4) * 2 ^ 8 + y5) * 2 ^ 16) by ring.
  rewrite (lor_hi _ (y6 * 2 ^ 8)) by lia.
  set (D := (B * 2 ^ 8 + y4) * 2 ^ 8 + y5).
  replace (D * 2 ^ 16 + y6 * 2 ^ 8) with ((D * 2 ^ 8 + y6) * 2 ^ 8) by ring.
  rewrite lor_hi by lia. cbn [take]. unfold be_decode. cbn [foldl]. rewrite take_0. cbn [foldl]. subst A B D. ring.
Qed.

Lemma STORE64H_spec x : is_u64 x -> STORE64H x = be_encode 8 x.
Proof.
  intros Hx. unfold STORE64H, be_encode. cbn [le_encode].
  change 255 with (Z.ones 8). rewrite !Z.land_ones, !Z.shiftr_div_pow2 by lia.
  rewrite !Z.div_div by lia. reflexivity.
Qed.

(** * The compression function *)
Lemma u64_lxor x y : is_u64 x -> is_u64 y -> is_u64 (Z.lxor x y).
Proof.
  unfold is_u64. intros Hx Hy. split; [apply Z.lxor_nonneg; lia|].
  destruct (decide (Z.lxor x y = 0)) as [->|]; [done|].
  apply Z.log2_lt_pow2; [pose proof (proj2 (Z.lxor_nonneg x y)); lia|].
  pose proof (Z.log2_lxor x y). 
  assert (forall z, 0 <= z < 2 ^ 64 -> Z.log2 z < 64) as Hlog.
  { intros z Hz. destruct (decide (z = 0)) as [->|]; [done|]. apply Z.log2_lt_pow2; lia. }
  pose proof (Hlog x Hx). pose proof (Hlog y Hy). lia.
Qed.

Definition regs_wf (S : regs) : Prop := Forall is_u64 (of_regs S).

Lemma RND_round a b c d e f g h k w : is_u64 a -> is_u64 e ->
  fips_round (a, b, c, d, e, f, g, h) (k, w) =
    let '(d', h') := RND a b c d e f g h k w in (h', a, b, c, d', e, f, g).
Proof.
  intros. unfold fips_round, RND. by rewrite <- Sigma1_fips, <- Sigma0_fips, <- Ch_fips, <- Maj_fips.
Qed.

Lemma RND_u64 a b c d e f g h k w : is_u64 (RND a b c d e f g h k w).1 /\ is_u64 (RND a b c d e f g h k w).2.
Proof. split; apply u64_range. Qed.

Lemma rounds8_fips W i S : regs_wf S ->
  rounds8 W i S = foldl fips_round S (map (fun j => (K !!! (i + j)%nat, W !!! (i + j)%nat)) (seq 0 8)) /\
  regs_wf (rounds8 W i S).
Proof.
  destruct S as [[[[[[[s0 s1] s2] s3] s4] s5] s6] s7]. intros Hwf.
  unfold regs_wf in Hwf. cbn [of_regs] in Hwf. rewrite !Forall_cons in Hwf.
  destruct Hwf as (?&?&?&?&?&?&?&?&_).
  cbn [rounds8 seq map foldl].
  repeat match goal with
  | |- context [RND ?a ?b ?c ?d ?e ?f ?g ?h ?k ?w] =>
    pose proof (RND_u64 a b c d e f g h k w) as [? ?];
    rewrite (RND_round a b c d e f g h k w) by done;
    destruct (RND a b c d e f g h k w); cbn [fst snd] in *
  end.
  split; [done|]. unfold regs_wf. cbn [of_regs]. rewrite !Forall_cons. split_and!; done.
Qed.


Lemma rounds_fips n W i S : regs_wf S ->
  rounds n W i S = foldl fips_round S (map (fun j => (K !!! j, W !!! j)) (seq i (8 * n))) /\
  regs_wf (rounds n W i S).
Proof.
  revert i S. induction n as [|n IH]; intros i S HS; [done|].
  destruct (rounds8_fips W i S HS) as [E Hwf]. cbn [rounds].
  destruct (IH (i + 8)%nat _ Hwf) as [E' Hwf']. split; [|done].
  rewrite E'. replace (8 * Datatypes.S n)%nat with (8 + 8 * n)%nat by lia.
  rewrite seq_app, map_app, foldl_app. f_equal. rewrite E. f_equal.
  cbn [seq map]. rewrite !Nat.add_0_r. by rewrite !Nat.add_succ_r, Nat.add_0_r.
Qed.

Lemma zip_seq (A B : list Z) n : length A = n -> length B = n ->
  map (fun j => (A !!! j, B !!! j)) (seq 0 n) = zip A B.
Proof.
  intros HA HB. apply list_eq. intros i. rewrite list_lookup_fmap.
  destruct (decide (i < n)%nat).
  - rewrite lookup_seq_lt by done. simpl.
    rewrite lookup_zip_with.
    rewrite (list_lookup_lookup_total_lt A i), (list_lookup_lookup_total_lt B i) by lia. done.
  - rewrite lookup_seq_ge by lia. symmetry. apply lookup_ge_None_2.
    rewrite length_zip_with. lia.
Qed.

Lemma fill_W_iter n i W : Forall is_u64 W -> length W = i -> (16 <= i)%nat ->
  fill_W n i W = Nat.iter n (fun W => W ++ [next_word W]) W /\
  Forall is_u64 (fill_W n i W) /\ length (fill_W n i W) = (i + n)%nat.
Proof.
  revert i W. induction n as [|n IH]; intros i W HW Hi H16; [simpl; split_and!; [done|done|lia]|].
  cbn [fill_W]. rewrite Nat.iter_succ_r.
  assert (forall j, is_u64 (W !!! (i - S j)%nat)) as Hj.
  { intros j. rewrite Forall_lookup in HW. apply (HW (i - S j)%nat).
    apply list_lookup_lookup_total_lt. lia. }
  assert (u64 (Gamma1 (W !!! (i - 2)%nat) + W !!! (i - 7)%nat +
    Gamma0 (W !!! (i - 15)%nat) + W !!! (i - 16)%nat) = next_word W) as ->.
  { unfold next_word. rewrite Hi, Gamma1_fips, Gamma0_fips by apply Hj. done. }
  destruct (IH (S i) (W ++ [next_word W])) as (E & Hf & Hl); [|rewrite length_app; simpl; lia|lia|].
  { apply Forall_app. split; [done|]. constructor; [|done]. apply u64_range. }
  split_and!; [done|done|]. rewrite Hl. lia.
Qed.

Lemma load_W_words n b : bytes_wf b -> 8 * Z.of_nat n <= zlen b ->
  load_W n b = Some (map (fun i => be_decode (take 8 (drop (8 * i) b))) (seq 0 n)).
Proof.
  revert b. induction n as [|n IH]; intros b Hb Hl; [done|]. cbn [load_W].
  rewrite LOAD64H_spec by (done || lia).
  rewrite IH by (first [by apply bytes_wf_drop|rewrite length_ptr_add; lia]).
  cbn [seq map]. rewrite <- seq_shift, map_map. do 2 f_equal.
  apply map_ext. intros i. unfold ptr_add. rewrite drop_drop. do 3 f_equal. lia.
Qed.

Lemma be_decode_u64 b : bytes_wf b -> (length b <= 8)%nat -> is_u64 (be_decode b).
Proof.
  intros Hb Hl. pose proof (be_decode_bound b Hb). unfold is_u64.
  assert (256 ^ zlen b <= 256 ^ 8) by (apply Z.pow_le_mono_r; lia). lia.
Qed.

Definition md_wf (md : sha512_context) : Prop :=
  length (state md) = 8%nat /\ Forall is_u64 (state md).

#[local] Opaque K fips_round rounds fill_W.
Lemma sha512_compress_fips md b : md_wf md -> bytes_wf b -> 128 <= zlen b ->
  sha512_compress md b = Some (0, set_state md (fips_compress (state md) (take 128 b))).
Proof.
  intros [Hl Hst] Hb Hlb. unfold sha512_compress.
  destruct md as [len st cl bf]. cbn [state] in *.
  destruct st as [|s0 [|s1 [|s2 [|s3 [|s4 [|s5 [|s6 [|s7 [|]]]]]]]]]; cbn [length] in Hl; try lia.
  rewrite load_W_words by (done || lia).
  set (W0 := map _ (seq 0 16)).
  assert (W0 = block_words (take 128 b)) as EW.
  { apply map_ext_in. intros i Hi%in_seq. rewrite skipn_firstn_comm, firstn_firstn. do 2 f_equal. lia. }
  assert (Forall is_u64 W0) as HW0.
  { apply Forall_fmap, Forall_forall. intros i _. apply be_decode_u64; [by apply bytes_wf_take, bytes_wf_drop|].
    rewrite length_take. lia. }
  destruct (fill_W_iter 64 16 W0 HW0) as (EF & HF & HFl); [reflexivity|lia|].
  destruct (rounds_fips 10 (fill_W 64 16 W0) 0 (s0, s1, s2, s3, s4, s5, s6, s7)) as [ER _]; [done|].
  change (8 * 10)%nat with 80%nat in ER. rewrite zip_seq in ER; [|reflexivity|lia].
  rewrite EF, EW in ER at 2. unfold fips_compress, schedule.
  change (to_regs [s0; s1; s2; s3; s4; s5; s6; s7]) with (s0, s1, s2, s3, s4, s5, s6, s7).
  rewrite <- ER. destruct (rounds _ _ _ _) as [[[[[[[t0 t1] t2] t3] t4] t5] t6] t7]. reflexivity.
Qed.

(** * Hashing whole messages *)
Definition IV : list Z :=
  [0x6a09e667f3bcc908; 0xbb67ae8584caa73b; 0x3c6ef372fe94f82b; 0xa54ff53a5f1d36f1;
   0x510e527fade682d1; 0x9b05688c2b3e6c1f; 0x1f83d9abfb41bd6b; 0x5be0cd19137e2179].

Fixpoint hash_blocks (n : nat) (st m : list Z) : list Z :=
  match n with
  | O => st
  | S n => hash_blocks n (fips_compress st (take 128 m)) (drop 128 m)
  end.

(** The padding of the standard: a one bit, zeros, the length in bits as a
    128-bit big-endian number, up to a multiple of 1024 bits. *)
Definition pad (m : list Z) : list Z :=
  m ++ 128 :: replicate (Z.to_nat ((111 - zlen m) mod 128)) 0 ++ be_encode 16 (8 * zlen m).

#[local] Opaque fips_compress.

Lemma hash_blocks_app n k st m x : length m = (128 * n)%nat ->
  hash_blocks (n + k) st (m ++ x) = hash_blocks k (hash_blocks n st m) x.
Proof.
  revert st m. induction n as [|n IH]; intros st m Hm.
  - destruct m; [done|simpl in Hm; lia].
  - cbn [Nat.add hash_blocks]. rewrite take_app_le, drop_app_le by lia.
    apply IH. rewrite length_drop. lia.
Qed.

Lemma fips_compress_wf st b : length st = 8%nat ->
  length (fips_compress st b) = 8%nat /\ Forall is_u64 (fips_compress st b).
Proof.
  intros Hl. Transparent fips_compress. unfold fips_compress. generalize (foldl fips_round (to_regs st) (zip K (schedule b))).
  intros [[[[[[[t0 t1] t2] t3] t4] t5] t6] t7].
  destruct st as [|s0 [|s1 [|s2 [|s3 [|s4 [|s5 [|s6 [|s7 [|]]]]]]]]]; cbn [length] in Hl; try lia.
  cbn [of_regs zip_with]. split; [done|]. repeat constructor; apply Z.mod_pos_bound; lia.
Qed.
#[local] Opaque fips_compress.

Section from.
Context (iv : list Z) (Hiv : length iv = 8%nat /\ Forall is_u64 iv).

(** The eight words after the padded message, from the initial value [iv]. *)
Definition digest_iv (m : list Z) : list Z :=
  concat (map (be_encode 8) (hash_blocks (length (pad m) / 128) iv (pad m))).

Lemma hash_blocks_wf n m : length (hash_blocks n iv m) = 8%nat /\ Forall is_u64 (hash_blocks n iv m).
Proof.
  pose proof Hiv as H. revert H. clear Hiv. revert m. generalize iv.
  induction n as [|n IH]; intros st m H; [done|]. cbn [hash_blocks].
  apply IH, fips_compress_wf, H.
Qed.

(** A context that has absorbed [m]: whole blocks in the state, the rest in
    the buffer. *)
Record absorbed_as (md : sha512_context) (n : nat) (blk tail : list Z) : Prop := {
  ab_blk_len : length blk = (128 * n)%nat;
  ab_tail_len : (length tail < 128)%nat;
  ab_state : state md = hash_blocks n iv blk;
  ab_curlen : curlen md = zlen tail;
  ab_buf : take (length tail) (buf md) = tail;
  ab_buf_len : length (buf md) = 128%nat;
  ab_buf_wf : bytes_wf (buf md);
  ab_length : length_ md = u64 (1024 * Z.of_nat n)
}.
Definition absorbed_iv (md : sha512_context) (m : list Z) : Prop :=
  exists n blk tail, m = blk ++ tail /\ absorbed_as md n blk tail.

Lemma absorbed_md_wf md n blk tail : absorbed_as md n blk tail -> md_wf md.
Proof. intros H. unfold md_wf. rewrite (ab_state _ _ _ _ H). apply hash_blocks_wf. Qed.

Lemma absorbed_init_iv junk : length junk = 128%nat -> bytes_wf junk -> absorbed_iv (Sha512 0 iv 0 junk) [].
Proof. intros Hl Hw. exists 0%nat, [], []. split; [done|]. split; cbn; first [done|lia]. Qed.

Lemma bytes_at_inv {A} (p : list A) n x : bytes_at p n = Some x -> 0 <= n <= zlen p /\ take (Z.to_nat n) p = x.
Proof.
  unfold bytes_at. destruct (Z.leb_spec 0 n), (Z.leb_spec n (zlen p)); cbn [andb]; try done. intros [= <-]. done.
Qed.

Lemma buf_copy_spec b off src n x : bytes_at src n = Some x -> 0 <= off -> off + n <= zlen b ->
  buf_copy b off src n = Some (take (Z.to_nat off) b ++ x ++ b +p (off + n)).
Proof. intros Hx ? ?. unfold buf_copy. rewrite Hx. cases_bool; simpl; [done|lia..]. Qed.

Lemma hash_blocks_snoc n blk b : length blk = (128 * n)%nat -> length b = 128%nat ->
  hash_blocks (S n) iv (blk ++ b) = fips_compress (hash_blocks n iv blk) b.
Proof.
  intros Hn Hb. rewrite <- Nat.add_1_r, hash_blocks_app by done. cbn [hash_blocks].
  by rewrite firstn_all2 by lia.
Qed.

Lemma compress_step md n blk b :
  length blk = (128 * n)%nat -> state md = hash_blocks n iv blk -> bytes_wf b -> 128 <= zlen b ->
  sha512_compress md b = Some (0, set_state md (hash_blocks (S n) iv (blk ++ take 128 b))).
Proof.
  intros Hblk Hst Hb Hl. rewrite sha512_compress_fips by (try done; unfold md_wf; rewrite Hst; apply hash_blocks_wf).
  rewrite hash_blocks_snoc by (try done; rewrite length_take; lia). by rewrite Hst.
Qed.

Lemma u64_add_1024 n : u64 (u64 (1024 * Z.of_nat n) + 1024) = u64 (1024 * Z.of_nat (S n)).
Proof. unfold u64. rewrite Zplus_mod_idemp_l. f_equal. lia. Qed.

(** A whole block compressed straight from the input. *)
Lemma block_from_input md n blk in_ inlen x :
  absorbed_as md n blk [] -> bytes_wf in_ -> bytes_at in_ inlen = Some x -> 128 <= inlen ->
  sha512_compress md in_ = Some (0, set_state md (hash_blocks (S n) iv (blk ++ take 128 x))) /\
  absorbed_as (Sha512 (u64 (length_ md + 128 * 8)) (hash_blocks (S n) iv (blk ++ take 128 x)) (curlen md) (buf md))
    (S n) (blk ++ take 128 x) [] /\
  bytes_at (in_ +p 128) (inlen - 128) = Some (drop 128 x).
Proof.
  intros [Hbl Htl Hst Hcl Hbf Hbfl Hbw Hlen] Hin Hx Hi. apply bytes_at_inv in Hx as [Hle Hx].
  assert (take 128 in_ = take 128 x) as Hx128 by (rewrite <- Hx, firstn_firstn; f_equal; lia).
  split_and!.
  - rewrite (compress_step md n blk in_) by (done || lia). by rewrite Hx128.
  - split; cbn [state curlen buf length_]; try done.
    + rewrite length_app, length_take, <- Hx, length_take. lia.
    + rewrite Hlen. apply u64_add_1024.
  - rewrite bytes_at_Some by (rewrite length_ptr_add; lia). f_equal. rewrite <- Hx.
    unfold ptr_add. rewrite skipn_firstn_comm. f_equal. lia.
Qed.

(** Bytes copied behind those that wait in the buffer. *)
Lemma copy_to_buffer md n blk tail in_ inlen x k :
  absorbed_as md n blk tail -> bytes_wf in_ -> bytes_at in_ inlen = Some x ->
  0 <= k <= inlen -> k <= 128 - curlen md ->
  exists b', buf_copy (buf md) (curlen md) in_ k = Some b' /\ length b' = 128%nat /\ bytes_wf b' /\
    take (length (tail ++ take (Z.to_nat k) x)) b' = tail ++ take (Z.to_nat k) x /\
    bytes_at (in_ +p k) (inlen - k) = Some (drop (Z.to_nat k) x) /\ zlen (tail ++ take (Z.to_nat k) x) = zlen tail + k.
Proof.
  intros [Hbl Htl Hst Hcl Hbf Hbfl Hbw Hlen] Hin Hx Hk Hk2. apply bytes_at_inv in Hx as [Hle Hx].
  assert (bytes_at in_ k = Some (take (Z.to_nat k) x)) as Ek.
  { rewrite bytes_at_Some by lia. f_equal. rewrite <- Hx, firstn_firstn. f_equal. lia. }
  rewrite (buf_copy_spec _ _ _ _ _ Ek), Hcl, Nat2Z.id, Hbf by lia. eexists. split; [done|].
  assert (length x = Z.to_nat inlen) as Hxl by (rewrite <- Hx, length_take; lia). split_and!.
  - unfold ptr_add. rewrite !length_app, length_take, length_drop. lia.
  - unfold bytes_wf. rewrite !Forall_app. split_and!.
    + rewrite <- Hbf. by apply bytes_wf_take.
    + rewrite <- Hx. by apply bytes_wf_take, bytes_wf_take.
    + by apply bytes_wf_drop.
  - rewrite app_assoc. apply take_app_length.
  - rewrite bytes_at_Some by (rewrite length_ptr_add; lia). f_equal. rewrite <- Hx.
    unfold ptr_add. rewrite skipn_firstn_comm. f_equal. lia.
  - rewrite length_app, length_take. lia.
Qed.

Lemma update_loop_spec_iv fuel md m x in_ inlen :
  absorbed_iv md m -> bytes_wf in_ -> bytes_at in_ inlen = Some x -> (Z.to_nat inlen < fuel)%nat ->
  exists md', update_loop fuel md in_ inlen = Some (0, md') /\ absorbed_iv md' (m ++ x).
Proof.
  revert md m x in_ inlen. induction fuel as [|fuel IH]; intros md m x in_ inlen Hab Hin Hx Hf; [lia|].
  cbn [update_loop]. pose proof (bytes_at_length _ _ _ Hx) as Hxl.
  destruct (Z.ltb_spec 0 inlen) as [Hpos|].
  2: { exists md. split; [done|]. assert (x = []) as -> by (destruct x; simpl in *; [done|lia]). by rewrite app_nil_r. }
  destruct Hab as (n & blk & tail & -> & Hab). pose proof (ab_curlen _ _ _ _ Hab) as Hcl. pose proof (ab_tail_len _ _ _ _ Hab).
  destruct ((curlen md =? 0) && (128 <=? inlen)) eqn:Hcase.
  - assert (tail = []) as -> by (destruct tail; simpl in *; [done|lia]).
    destruct (block_from_input md n blk in_ inlen x Hab Hin Hx) as (-> & Hab' & Hx'); [lia|]. cbn [negb Z.eqb].
    replace ((blk ++ []) ++ x) with ((blk ++ take 128 x) ++ drop 128 x) by (by rewrite app_nil_r, <- app_assoc, take_drop).
    apply IH; [|by apply bytes_wf_drop|done|lia].
    exists (S n), (blk ++ take 128 x), []. split; [by rewrite app_nil_r|done].
  - set (k := Z.min inlen (128 - curlen md)).
    destruct (copy_to_buffer md n blk tail in_ inlen x k Hab Hin Hx) as (b' & -> & Hb' & Hbw' & Htk & Hrest & Etl); [lia..|].
    cbn [curlen state length_ buf].
    replace ((blk ++ tail) ++ x) with ((blk ++ tail ++ take (Z.to_nat k) x) ++ drop (Z.to_nat k) x)
      by (by rewrite <- !app_assoc, take_drop).
    destruct Hab as [Hbl _ Hst _ _ _ _ Hlen]. destruct (Z.eqb_spec (curlen md + k) 128) as [Hfull|Hpart].
    + rewrite (firstn_all2 b') in Htk by lia.
      rewrite (compress_step _ n blk b') by (done || lia). cbn [negb Z.eqb].
      apply IH; [|by apply bytes_wf_drop|done|lia].
      rewrite <- Htk. exists (S n), (blk ++ b'), []. split; [by rewrite app_nil_r|].
      split; cbn; try done; try lia.
      * rewrite length_app. lia.
      * rewrite (firstn_all2 (n := 128) b') by lia. done.
      * rewrite Hlen. apply u64_add_1024.
    + apply IH; [|by apply bytes_wf_drop|done|lia].
      exists n, blk, (tail ++ take (Z.to_nat k) x). split; [done|]. split; cbn; try done; lia.
Qed.

Lemma be_encode_16 v : 0 <= v < 2 ^ 64 -> be_encode 16 v = replicate 8 0 ++ be_encode 8 v.
Proof.
  intros Hv. unfold be_encode.
  assert (forall n k v, le_encode (n + k) v = le_encode n v ++ le_encode k (v / 256 ^ Z.of_nat n)) as Happ.
  { induction n as [|n IH]; intros k w; [by rewrite Z.div_1_r|].
    cbn [Nat.add le_encode app]. rewrite IH. f_equal. f_equal. f_equal.
    rewrite Nat2Z.inj_succ, Z.pow_succ_r, Z.div_div by lia. done. }
  rewrite (Happ 8%nat 8%nat), reverse_app. change (256 ^ Z.of_nat 8) with (2 ^ 64).
  by rewrite Z.div_small by done.
Qed.

Lemma pad_split n blk tail : length blk = (128 * n)%nat -> (length tail < 128)%nat ->
  zlen (blk ++ tail) < 2 ^ 61 ->
  pad (blk ++ tail) = blk ++
    if 112 <=? zlen tail then
      (tail ++ 128 :: replicate (127 - length tail) 0) ++
      (replicate 120 0 ++ be_encode 8 (8 * zlen (blk ++ tail)))
    else tail ++ 128 :: replicate (119 - length tail) 0 ++ be_encode 8 (8 * zlen (blk ++ tail)).
Proof.
  intros Hb Ht Hm. unfold pad. rewrite be_encode_16 by lia.
  set (len := be_encode 8 _). rewrite <- app_assoc. f_equal.
  assert ((111 - zlen (blk ++ tail)) mod 128 =
    if 112 <=? zlen tail then 239 - zlen tail else 111 - zlen tail) as Emod.
  { rewrite length_app, Nat2Z.inj_add, Hb. destruct (Z.leb_spec 112 (zlen tail)).
    - symmetry. apply (Zmod_unique _ _ (- Z.of_nat n - 1)); lia.
    - symmetry. apply (Zmod_unique _ _ (- Z.of_nat n)); lia. }
  rewrite Emod. destruct (Z.leb_spec 112 (zlen tail)).
  - rewrite <- app_assoc, <- app_comm_cons. f_equal. f_equal.
    rewrite !app_assoc, <- !replicate_add. do 2 f_equal. lia.
  - f_equal. f_equal. rewrite !app_assoc, <- !replicate_add. do 2 f_equal. lia.
Qed.

Lemma pad_zero_spec md upto x : take (Z.to_nat (curlen md)) (buf md) = x -> zlen x = curlen md ->
  zlen x <= upto -> upto <= zlen (buf md) ->
  pad_zero md upto = Some (Sha512 (length_ md) (state md) upto
    (x ++ replicate (Z.to_nat (upto - zlen x)) 0 ++ buf md +p upto)).
Proof.
  intros Hx Hl Hle Hu. unfold pad_zero.
  rewrite (buf_copy_spec _ _ _ _ (replicate (Z.to_nat (Z.max 0 (upto - curlen md))) 0)); [|
    |lia|lia].
  - rewrite Hx, Hl. do 3 f_equal; [lia|]. do 2 f_equal; [f_equal; lia|f_equal; lia].
  - rewrite bytes_at_Some by (rewrite length_replicate; lia).
    by rewrite firstn_all2 by (rewrite length_replicate; lia).
Qed.

(** The end of [sha512_final]: zeros up to 120 bytes, the length, one block. *)
Definition final_block (md : sha512_context) : option (Z * sha512_context * list Z) :=
  let? md := pad_zero md 120 in
  let? b := buf_copy (buf md) 120 (STORE64H (length_ md)) 8 in
  let md := Sha512 (length_ md) (state md) (curlen md) b in
  let? (_, md) := sha512_compress md (buf md) in
  Some (0, md, concat (map STORE64H (state md))).

Lemma map_STORE64H st : Forall is_u64 st -> map STORE64H st = map (be_encode 8) st.
Proof. intros H. apply map_ext_in. intros x Hx. apply STORE64H_spec. rewrite Forall_forall in H. apply H. by apply list_elem_of_In. Qed.

Lemma final_block_spec md n blk x :
  length blk = (128 * n)%nat -> state md = hash_blocks n iv blk -> length (buf md) = 128%nat ->
  bytes_wf (buf md) -> curlen md = zlen x -> zlen x <= 120 ->
  take (length x) (buf md) = x -> is_u64 (length_ md) ->
  exists md', final_block md = Some (0, md',
    concat (map (be_encode 8) (hash_blocks (S n) iv
      (blk ++ x ++ replicate (120 - length x) 0 ++ be_encode 8 (length_ md))))).
Proof.
  intros Hblk Hst Hbl Hbw Hcl Hx Htake Hlen. unfold final_block.
  rewrite (pad_zero_spec md 120 x); [|by rewrite Hcl, Nat2Z.id|done|lia|lia].
  cbn [buf length_ state curlen].
  set (z := replicate (Z.to_nat (120 - zlen x)) 0).
  assert (length (x ++ z) = 120%nat) as Hxz by (unfold z; rewrite length_app, length_replicate; lia).
  rewrite STORE64H_spec by done.
  rewrite (buf_copy_spec _ _ _ _ (be_encode 8 (length_ md)));
    [|rewrite bytes_at_Some, firstn_all2; rewrite ?length_be_encode; done || lia
     |lia|rewrite app_assoc, length_app, Nat2Z.inj_add, length_ptr_add by lia; lia].
  rewrite !(app_assoc x z), (take_app_le (x ++ z)), (firstn_all2 (n := Z.to_nat 120) (x ++ z)) by lia.
  assert (((x ++ z) ++ buf md +p 120) +p (120 + 8) = []) as ->.
  { unfold ptr_add. apply skipn_all2. rewrite length_app, length_drop. lia. }
  rewrite app_nil_r.
  set (b := (x ++ z) ++ be_encode 8 (length_ md)).
  assert (length b = 128%nat) as Hb by (unfold b; rewrite length_app, length_be_encode; lia).
  rewrite (compress_step _ n blk b); [|done|done| |cbn [buf]; lia].
  2: { unfold b, z, bytes_wf. rewrite !Forall_app. split_and!; [rewrite <- Htake; by apply bytes_wf_take| |apply be_encode_wf].
       apply Forall_replicate. done. }
  cbn [set_state state buf curlen length_]. eexists. do 3 f_equal.
  rewrite map_STORE64H by apply hash_blocks_wf. do 3 f_equal.
  rewrite (firstn_all2 (n := 128) b) by lia. unfold b, z. rewrite <- !app_assoc. do 4 f_equal. lia.
Qed.

Lemma digest_pad m P k : pad m = P -> length P = (128 * k)%nat ->
  digest_iv m = concat (map (be_encode 8) (hash_blocks k iv P)).
Proof. intros E Hl. unfold digest_iv. rewrite E, Hl, (Nat.mul_comm 128), Nat.div_mul by lia. done. Qed.

(** The context after the one bit: the tail and 0x80 at the front of the buffer. *)
Section final.
Context (md : sha512_context) (n : nat) (blk tail : list Z).
Hypothesis Hblk : length blk = (128 * n)%nat.
Hypothesis Hst : state md = hash_blocks n iv blk.
Hypothesis Htl : (length tail < 128)%nat.
Hypothesis Hbl : length (buf md) = 128%nat.
Hypothesis Hbw : bytes_wf (buf md).
Hypothesis Hcl : curlen md = zlen tail + 1.
Hypothesis Htk : take (length (tail ++ [128])) (buf md) = tail ++ [128].
Hypothesis Hm : zlen (blk ++ tail) < 2 ^ 61.
Hypothesis Hlen : length_ md = 8 * zlen (blk ++ tail).

#[local] Lemma len_t1 : length (tail ++ [128]) = S (length tail).
Proof. rewrite length_app. simpl. lia. Qed.

Lemma final_one_block : zlen tail < 112 ->
  exists md', final_block md = Some (0, md', digest_iv (blk ++ tail)).
Proof.
  intros Ht. pose proof len_t1.
  destruct (final_block_spec md n blk (tail ++ [128])) as [md' E]; try done; try lia.
  { rewrite Hlen. unfold is_u64. lia. }
  exists md'. rewrite E, (digest_pad _ _ (S n) (pad_split n blk tail Hblk Htl Hm)).
  - do 5 f_equal. destruct (Z.leb_spec 112 (zlen tail)); [lia|].
    by rewrite Hlen, <- app_assoc, len_t1.
  - destruct (Z.leb_spec 112 (zlen tail)); [lia|].
    rewrite !length_app. cbn [length]. rewrite length_app, length_replicate, length_be_encode. lia.
Qed.

Lemma final_two_blocks : 112 <= zlen tail ->
  exists md', (let? md := pad_zero md 128 in
    let? (_, md) := sha512_compress md (buf md) in
    final_block (Sha512 (length_ md) (state md) 0 (buf md))) = Some (0, md', digest_iv (blk ++ tail)).
Proof.
  intros Ht. pose proof len_t1.
  rewrite (pad_zero_spec _ 128 (tail ++ [128])); [|rewrite Hcl, <- Htk; f_equal; lia|lia|lia|lia].
  cbn [buf length_ state curlen]. set (b2 := (tail ++ [128]) ++ _).
  assert (b2 = tail ++ 128 :: replicate (127 - length tail) 0) as Eb2.
  { unfold b2, ptr_add. rewrite (skipn_all2 (n := Z.to_nat 128)), app_nil_r, <- app_assoc by lia.
    cbn [app]. do 3 f_equal. lia. }
  assert (length b2 = 128%nat) as Hb2 by (rewrite Eb2, length_app; simpl; rewrite length_replicate; lia).
  assert (bytes_wf b2) as Hbw2.
  { unfold b2, bytes_wf. rewrite !Forall_app, <- Forall_app, <- Htk. split_and!; [by apply bytes_wf_take| |by apply bytes_wf_drop].
    apply Forall_replicate. done. }
  clearbody b2. rewrite (compress_step _ n blk b2) by (done || lia).
  cbn [set_state buf length_ state curlen]. rewrite (firstn_all2 (n := 128) b2) by lia.
  destruct (final_block_spec (Sha512 (length_ md) (hash_blocks (S n) iv (blk ++ b2)) 0 b2)
    (S n) (blk ++ b2) []) as [md' E]; try done; try (cbn; lia).
  { rewrite length_app. lia. }
  { rewrite Hlen. unfold is_u64. cbn. lia. }
  exists md'. rewrite E, (digest_pad _ _ (S (S n)) (pad_split n blk tail Hblk Htl Hm)).
  - do 5 f_equal. destruct (Z.leb_spec 112 (zlen tail)); [|lia].
    cbn [length_ app length Nat.sub]. rewrite Hlen, <- Eb2, <- app_assoc. done.
  - destruct (Z.leb_spec 112 (zlen tail)); [|lia].
    rewrite <- Eb2, !length_app, length_replicate, length_be_encode. lia.
Qed.
End final.

Lemma sha512_final_spec_iv md m : absorbed_iv md m -> zlen m < 2 ^ 61 ->
  exists md', sha512_final md = Some (0, md', digest_iv m).
Proof.
  intros (n & blk & tail & -> & [Hbl Htl Hst Hcl Hbf Hbfl Hbw Hlen]) Hm.
  unfold sha512_final. destruct (Z.leb_spec 128 (curlen md)); [lia|].
  cbn [buf length_ state curlen].
  rewrite (buf_copy_spec _ _ _ _ [128]); [|done|lia|lia].
  assert (u64 (length_ md + curlen md * 8) = 8 * zlen (blk ++ tail)) as El.
  { rewrite Hlen, Hcl. unfold u64. rewrite Zplus_mod_idemp_l, Z.mod_small;
      rewrite length_app in *; lia. }
  rewrite El, Hcl, Nat2Z.id, Hbf, app_assoc.
  set (md1 := Sha512 _ _ _ _).
  assert (length (buf md1) = 128%nat) as Hb1.
  { unfold md1, ptr_add. cbn [buf]. rewrite !length_app, length_drop. simpl. lia. }
  assert (bytes_wf (buf md1)) as Hw1.
  { unfold md1, bytes_wf. cbn [buf]. rewrite !Forall_app. split_and!;
      [rewrite <- Hbf; by apply bytes_wf_take|by repeat constructor|by apply bytes_wf_drop]. }
  assert (take (length (tail ++ [128])) (buf md1) = tail ++ [128]) as Htk by apply take_app_length.
  destruct (Z.ltb_spec 112 (zlen tail + 1)).
  - destruct (final_two_blocks md1 n blk tail) as [md' E]; try done; [lia|]. exists md'.
    rewrite <- E. destruct (pad_zero md1 128) as [md2|]; [|done].
    destruct (sha512_compress md2 (buf md2)) as [[? ?]|]; reflexivity.
  - apply (final_one_block md1 n blk tail); try done. lia.
Qed.

(** * The interface *)
Lemma sha512_update_spec_iv md m in_ inlen x :
  absorbed_iv md m -> bytes_wf in_ -> bytes_at in_ inlen = Some x ->
  exists md', sha512_update md (Some in_) inlen = Some (0, md') /\ absorbed_iv md' (m ++ x).
Proof.
  intros Hab Hin Hx. unfold sha512_update. pose proof Hab as (n & blk & tail & _ & H).
  rewrite (ab_curlen _ _ _ _ H). pose proof (ab_tail_len _ _ _ _ H).
  destruct (Z.ltb_spec 128 (zlen tail)); [lia|].
  apply update_loop_spec_iv; try done. lia.
Qed.

End from.

(** * SHA-512: the initial value of the standard *)
Definition digest : list Z -> list Z := digest_iv IV.
Definition absorbed : sha512_context -> list Z -> Prop := absorbed_iv IV.

Lemma IV_wf : length IV = 8%nat /\ Forall is_u64 IV.
Proof. split; [done|]. repeat constructor; done. Qed.

Lemma absorbed_init junk : length junk = 128%nat -> bytes_wf junk -> absorbed (sha512_init junk).2 [].
Proof. exact (absorbed_init_iv IV IV_wf junk). Qed.

Lemma update_loop_spec fuel md m x in_ inlen :
  absorbed md m -> bytes_wf in_ -> bytes_at in_ inlen = Some x -> (Z.to_nat inlen < fuel)%nat ->
  exists md', update_loop fuel md in_ inlen = Some (0, md') /\ absorbed md' (m ++ x).
Proof. apply (update_loop_spec_iv IV IV_wf). Qed.

Lemma sha512_update_spec md m in_ inlen x :
  absorbed md m -> bytes_wf in_ -> bytes_at in_ inlen = Some x ->
  exists md', sha512_update md (Some in_) inlen = Some (0, md') /\ absorbed md' (m ++ x).
Proof. apply (sha512_update_spec_iv IV IV_wf). Qed.

Lemma sha512_final_spec md m : absorbed md m -> zlen m < 2 ^ 61 ->
  exists md', sha512_final md = Some (0, md', digest m).
Proof. apply (sha512_final_spec_iv IV IV_wf). Qed.

Lemma sha512_spec junk message message_len m :
  length junk = 128%nat -> bytes_wf junk -> bytes_wf message ->
  bytes_at message message_len = Some m -> message_len < 2 ^ 61 ->
  sha512 junk message message_len = Some (0, digest m).
Proof.
  intros Hj Hjw Hw Hm Hlt. pose proof (bytes_at_length _ _ _ Hm) as Hl.
  pose proof (absorbed_init junk Hj Hjw) as H0. unfold sha512. destruct (sha512_init junk) as [r md] eqn:E.
  assert (r = 0) as -> by (unfold sha512_init in E; congruence). cbn [negb Z.eqb].
  destruct (sha512_update_spec md [] message message_len m) as (md' & -> & Hab); try done.
  cbn [negb Z.eqb]. destruct (sha512_final_spec md' m) as [md'' ->]; [done|lia|]. done.
Qed.

Lemma digest_iv_shape iv m : length iv = 8%nat /\ Forall is_u64 iv ->
  length (digest_iv iv m) = 64%nat /\ bytes_wf (digest_iv iv m).
Proof.
  intros Hiv. unfold digest_iv. destruct (hash_blocks_wf iv Hiv (length (pad m) / 128) (pad m)) as [Hl _].
  generalize dependent (hash_blocks (length (pad m) / 128) iv (pad m)). intros l Hl.
  destruct l as [|s0 [|s1 [|s2 [|s3 [|s4 [|s5 [|s6 [|s7 [|]]]]]]]]]; cbn [length] in Hl; try lia.
  cbn [map concat]. split; [by rewrite !length_app, !length_be_encode|].
  unfold bytes_wf. rewrite !Forall_app. split_and!; (apply be_encode_wf || by apply Forall_nil).
Qed.

Lemma digest_shape m : length (digest m) = 64%nat /\ bytes_wf (digest m).
Proof. apply digest_iv_shape, IV_wf. Qed.

(** * The constants

    [K] holds the first 64 bits of the fractional parts of the cube roots of
    the first eighty primes, [IV] those of the square roots of the first
    eight. *)
Definition is_root (e p k : Z) : Prop :=
  exists i, 0 <= k < 2 ^ 64 /\ (i * 2 ^ 64 + k) ^ e <= p * 2 ^ (64 * e) < (i * 2 ^ 64 + k + 1) ^ e.
Definition is_rootb (e p k : Z) : bool :=
  (0 <=? k) && (k <? 2 ^ 64) &&
  existsb (fun i => ((i * 2 ^ 64 + k) ^ e <=? p * 2 ^ (64 * e)) && (p * 2 ^ (64 * e) <? (i * 2 ^ 64 + k + 1) ^ e))
    (seqZ 1 20).
Definition primes : list Z :=
  filter (fun p => forallb (fun q => negb (p mod q =? 0)) (seqZ 2 19) = true \/ p ∈ [2; 3; 5; 7; 11; 13; 17; 19])
    (seqZ 2 408).

Lemma is_rootb_spec e p k : is_rootb e p k = true -> is_root e p k.
Proof.
  unfold is_rootb, is_root. rewrite !andb_true_iff, existsb_exists. intros [[H1 H2] (i & _ & H3)].
  rewrite andb_true_iff in H3. exists i. lia.
Qed.

Lemma constants_roots : Forall2 (is_root 3) primes K /\ Forall2 (is_root 2) (take 8 primes) IV.
Proof.
  assert (forall e l l', forallb (fun x => is_rootb e x.1 x.2) (zip l l') = true -> length l = length l' ->
    Forall2 (is_root e) l l') as H.
  { intros e. induction l as [|x l IH]; intros [|y l'] Hf Hl; try done.
    cbn [zip zip_with forallb fst snd] in Hf. apply andb_true_iff in Hf as [H1 H2].
    constructor; [by apply is_rootb_spec|]. apply IH; [done|by injection Hl]. }
  split; apply H; vm_compute; reflexivity.
Qed.

(** * The buffer after finishing *)
(** The buffer stays 128 bytes long. *)
Definition buf_ok (md : sha512_context) : Prop := length (buf md) = 128%nat /\ bytes_wf (buf md).

Lemma buf_copy_ok b off src n b' : buf_copy b off src n = Some b' -> bytes_wf src -> length b = 128%nat /\ bytes_wf b ->
  length b' = 128%nat /\ bytes_wf b'.
Proof.
  unfold buf_copy. intros H Hs [Hl Hw]. destruct (bytes_at src n) as [x|] eqn:Hx; [|done].
  pose proof (bytes_at_length _ _ _ Hx).
  destruct (Z.leb_spec 0 off), (Z.leb_spec (off + n) (zlen b)); try done. injection H as <-.
  unfold bytes_at in Hx. destruct (_ && _); [|done]. injection Hx as <-. split.
  - unfold ptr_add. rewrite !length_app, (length_take b), length_drop. lia.
  - rewrite !bytes_wf_app. split_and!; [by apply bytes_wf_take|by apply bytes_wf_take|by apply bytes_wf_drop].
Qed.

Lemma compress_buf md b rc md' : sha512_compress md b = Some (rc, md') -> buf md' = buf md.
Proof.
  unfold sha512_compress. intros H.
  destruct (state md) as [|s0 [|s1 [|s2 [|s3 [|s4 [|s5 [|s6 [|s7 [|]]]]]]]]].
  all: lazymatch type of H with None = _ => discriminate H | _ => idtac end.
  destruct (load_W 16 b) as [W|]; [|discriminate H]. destruct (rounds 10 _ 0 _) as [[[[[[[? ?] ?] ?] ?] ?] ?] ?].
  by injection H as _ <-.
Qed.
#[local] Opaque sha512_compress.

Lemma pad_zero_ok md upto md' : pad_zero md upto = Some md' -> buf_ok md -> buf_ok md'.
Proof.
  unfold pad_zero. intros H Hok. destruct (buf_copy _ _ _ _) as [b|] eqn:Eb; [|done]. injection H as <-.
  apply (buf_copy_ok _ _ _ _ _ Eb); [|exact Hok]. apply Forall_replicate. done.
Qed.

Lemma STORE64H_wf x : bytes_wf (STORE64H x).
Proof.
  assert (forall z, is_byte (Z.land z 255)) as H.
  { intros z. change 255 with (Z.ones 8). rewrite Z.land_ones by lia. apply (u8_byte z). }
  unfold STORE64H. repeat (apply Forall_cons; split; [apply H|]). by apply Forall_nil.
Qed.

Lemma sha512_final_buf md rc md' out : sha512_final md = Some (rc, md', out) -> buf_ok md -> buf_ok md'.
Proof.
  unfold sha512_final. intros H Hok. destruct (128 <=? curlen md); [by injection H as _ <- _|].
  cbn [buf length_ state curlen] in H.
  destruct (buf_copy (buf md) _ _ 1) as [b1|] eqn:E1; [|done]. cbn [buf length_ state curlen] in H.
  apply buf_copy_ok in E1; [|by repeat constructor|exact Hok].
  match type of H with (let? md := ?m in _) = _ => destruct m as [md2|] eqn:E2; [|done] end.
  assert (buf_ok md2) as H2.
  { destruct (112 <? curlen md + 1); [|by injection E2 as <-].
    destruct (pad_zero _ 128) as [md3|] eqn:E3; [|done]. apply pad_zero_ok in E3; [|exact E1].
    destruct (sha512_compress md3 (buf md3)) as [[? md4]|] eqn:E4; [|done]. apply compress_buf in E4.
    injection E2 as <-. unfold buf_ok in *. cbn [buf]. by rewrite E4. }
  destruct (pad_zero md2 120) as [md3|] eqn:E3; [|done]. apply pad_zero_ok in E3; [|exact H2].
  destruct (buf_copy (buf md3) _ _ _) as [b4|] eqn:E4; [|done]. apply buf_copy_ok in E4; [|apply STORE64H_wf|exact E3].
  cbn [buf length_ state curlen] in H.
  destruct (sha512_compress _ b4) as [[? md5]|] eqn:E5; [|done]. apply compress_buf in E5.
  injection H as _ <- _. unfold buf_ok. rewrite E5. exact E4.
Qed.

Lemma absorbed_iv_buf iv md m : absorbed_iv iv md m -> buf_ok md.
Proof. intros (n & blk & tail & _ & []). by split. Qed.

Lemma absorbed_buf md m : absorbed md m -> buf_ok md.
Proof. apply absorbed_iv_buf. Qed.
