(* ===== verification/Curve.v ===== *)
(** The group of Ed25519: points of the twisted Edwards curve
    -x^2 + y^2 = 1 + d x^2 y^2 over Z/(2^255-19), d = -121665/121666, with the
    addition law of its affine coordinates, which is complete and makes the
    curve a commutative group. *)
From S2P Require Import Prelude Prime25519.
#[local] Open Scope Zmod_scope.
#[local] Opaque Zmod.mul Zmod.add Zmod.sub Zmod.opp Zmod.inv Zmod.mdiv.

(** * Constants of the curve *)
Definition dZ : Z :=
  37095705934669439343138083508754565189542113879843219016388785533085940283555.
Definition iZ : Z :=
  19681161376707505956807079304988542015446066515923890162744021073123829784752.
Definition curve_d : F := ofZ dZ.
Definition sqrt_m1 : F := ofZ iZ.

Lemma curve_d_def : curve_d * ofZ 121666 = - ofZ 121665.
Proof. unfold curve_d. rewrite <- ofZ_mul, <- ofZ_opp. apply ofZ_inj. reflexivity. Qed.

Lemma sqrt_m1_sq : sqrt_m1 * sqrt_m1 = - (1).
Proof. unfold sqrt_m1. rewrite <- ofZ_mul. change (1 : F) with (ofZ 1). rewrite <- ofZ_opp. apply ofZ_inj. reflexivity. Qed.

Lemma two_neq_0 : (1 + 1 : F) <> 0.
Proof. change (1 : F) with (ofZ 1). rewrite <- ofZ_add. by apply ofZ_neq_0. Qed.

Lemma F_double_0 (a : F) : a + a = 0 -> a = 0.
Proof.
  intros H. assert ((1 + 1) * a = 0) as [E|E]%F_mul_0 by (rewrite <- H; ring); [|done].
  by apply two_neq_0 in E.
Qed.

(** Euler's criterion: z^((p-1)/2) = -1 means z is not a square. *)
Lemma nonsquare (z : Z) (x : F) :
  (powm z (Z.to_pos ((p25519 - 1) / 2)) mod p25519 = p25519 - 1)%Z -> (z mod p25519 <> 0)%Z -> x * x <> ofZ z.
Proof.
  intros Ep Hz H. assert (x <> 0) as Hx.
  { intros ->. apply (ofZ_neq_0 z Hz). rewrite <- H. ring. }
  assert (0 <= (p25519 - 1) / 2)%Z as Hh by (vm_compute; discriminate).
  pose proof (Zmod.fermat_nz x Hx prime_p25519) as Hf.
  assert (x ^ Z.pred p25519 = ofZ z ^ ((p25519 - 1) / 2)) as E.
  { rewrite <- H, <- Zmod.pow_2_r, <- Zmod.pow_mul_r_nonneg by done. reflexivity. }
  change ((p25519 - 1) / 2)%Z with (Zpos (Z.to_pos ((p25519 - 1) / 2))) in E.
  rewrite E, <- ofZ_powm in Hf. apply (ofZ_inj _ 1) in Hf. rewrite Ep in Hf.
  clear -Hf. vm_compute in Hf. discriminate.
Qed.

Lemma d_nonsquare (x : F) : x * x <> curve_d.
Proof.
  apply nonsquare; [vm_cast_no_check (eq_refl (p25519 - 1)%Z)|vm_compute; discriminate].
Qed.

Lemma d_ratio (u v : F) : u * u = curve_d * (v * v) -> v = 0.
Proof.
  intros H. destruct (decide (v = 0)) as [|Hv]; [done|]. exfalso.
  apply (d_nonsquare (u * Zmod.inv v)).
  assert (Zmod.inv v * v = 1) as Hi by (by apply Zmod.mul_inv_same_l_prime, Hv; apply prime_p25519).
  transitivity (u * u * (Zmod.inv v * Zmod.inv v)); [ring|]. rewrite H.
  transitivity (curve_d * ((Zmod.inv v * v) * (Zmod.inv v * v))); [ring|]. rewrite Hi. ring.
Qed.

(** * The curve and its addition *)
Definition on_curve (P : F * F) : Prop :=
  let (x, y) := P in y * y - x * x = 1 + curve_d * (x * x) * (y * y).
#[export] Instance on_curve_dec P : Decision (on_curve P).
Proof. destruct P. unfold on_curve. apply _. Defined.

Lemma on_curve_eq x y : on_curve (x, y) <-> y * y - x * x - 1 - curve_d * (x * x) * (y * y) = 0.
Proof.
  unfold on_curve. split; intros H.
  - rewrite H. ring.
  - replace (y * y - x * x) with (y * y - x * x - 1 - curve_d * (x * x) * (y * y) + 1 + curve_d * (x * x) * (y * y)) by ring.
    rewrite H. ring.
Qed.

(** No denominator of the addition law vanishes on the curve. *)
Section complete.
Context (x1 y1 x2 y2 : F) (H1 : on_curve (x1, y1)) (H2 : on_curve (x2, y2)).
Let e := curve_d * x1 * x2 * y1 * y2.

Lemma eps_ratio (s : F) : s * s = 1 -> e * e = 1 ->
  (sqrt_m1 * x1 + s * e * y1) * (sqrt_m1 * x1 + s * e * y1) =
  curve_d * ((x1 * y1 * (sqrt_m1 * x2 + s * y2)) * (x1 * y1 * (sqrt_m1 * x2 + s * y2))).
Proof.
  intros Hs He. unfold on_curve in H1, H2.
  transitivity (y1 * y1 - x1 * x1 + (1 + 1) * (sqrt_m1 * s * e * (x1 * y1))).
  { transitivity (sqrt_m1 * sqrt_m1 * (x1 * x1) + s * s * (e * e) * (y1 * y1) +
      (1 + 1) * (sqrt_m1 * s * e * (x1 * y1))); [ring|].
    rewrite sqrt_m1_sq, Hs, He. ring. }
  rewrite H1. symmetry.
  transitivity (curve_d * (x1 * x1) * (y1 * y1) *
      (sqrt_m1 * sqrt_m1 * (x2 * x2) + s * s * (y2 * y2)) +
    (1 + 1) * (sqrt_m1 * s * e * (x1 * y1))); [unfold e; ring|].
  rewrite sqrt_m1_sq, Hs.
  replace (- (1) * (x2 * x2) + 1 * (y2 * y2)) with (y2 * y2 - x2 * x2) by ring. rewrite H2.
  transitivity (curve_d * (x1 * x1) * (y1 * y1) + e * e + (1 + 1) * (sqrt_m1 * s * e * (x1 * y1)));
    [unfold e; ring|]. rewrite He. ring.
Qed.

Lemma eps_sq_neq_1 : e * e <> 1.
Proof.
  intros He.
  assert (forall s : F, s * s = 1 -> x1 * y1 * (sqrt_m1 * x2 + s * y2) = 0) as Hk.
  { intros s Hs. apply (d_ratio (sqrt_m1 * x1 + s * e * y1)). by apply eps_ratio. }
  assert (e <> 0) as He0 by (intros E; rewrite E in He; apply two_neq_0; rewrite <- He; ring).
  destruct (F_mul_0 _ _ (Hk 1 ltac:(ring))) as [E|E1]; [apply He0; unfold e|].
  { transitivity (x1 * y1 * (curve_d * x2 * y2)); [ring|]. rewrite E. ring. }
  destruct (F_mul_0 _ _ (Hk (- (1)) ltac:(ring))) as [E|E2]; [apply He0; unfold e|].
  { transitivity (x1 * y1 * (curve_d * x2 * y2)); [ring|]. rewrite E. ring. }
  assert (y2 = 0) as Ey.
  { apply F_double_0. transitivity ((sqrt_m1 * x2 + 1 * y2) - (sqrt_m1 * x2 + - (1) * y2)); [ring|].
    rewrite E1, E2. ring. }
  apply He0. unfold e. rewrite Ey. ring.
Qed.

Lemma denom_plus : 1 + curve_d * x1 * x2 * y1 * y2 <> 0.
Proof.
  intros H. apply eps_sq_neq_1.
  replace e with (1 + curve_d * x1 * x2 * y1 * y2 - 1) by (unfold e; ring). rewrite H. ring.
Qed.

Lemma denom_minus : 1 - curve_d * x1 * x2 * y1 * y2 <> 0.
Proof.
  intros H. apply eps_sq_neq_1.
  replace e with (1 - (1 - curve_d * x1 * x2 * y1 * y2)) by (unfold e; ring). rewrite H. ring.
Qed.
End complete.

(** The addition law. *)
Definition add_affine (P Q : F * F) : F * F :=
  let (x1, y1) := P in
  let (x2, y2) := Q in
  (Zmod.mdiv (x1 * y2 + y1 * x2) (1 + curve_d * x1 * x2 * y1 * y2),
   Zmod.mdiv (y1 * y2 + x1 * x2) (1 - curve_d * x1 * x2 * y1 * y2)).

Lemma combine3 (l r c1 c2 c3 e1 e2 e3 : F) :
  e1 = 0 -> e2 = 0 -> e3 = 0 -> l - r = c1 * e1 + c2 * e2 + c3 * e3 -> l = r.
Proof.
  intros -> -> -> H. replace l with (l - r + r) by ring. rewrite H. ring.
Qed.

Section assoc.
Context (d x1 y1 x2 y2 x3 y3 : F).
Hypothesis E1 : y1 * y1 - x1 * x1 - 1 - d * (x1 * x1) * (y1 * y1) = 0.
Hypothesis E2 : y2 * y2 - x2 * x2 - 1 - d * (x2 * x2) * (y2 * y2) = 0.
Hypothesis E3 : y3 * y3 - x3 * x3 - 1 - d * (x3 * x3) * (y3 * y3) = 0.
Let A := 1 + d * x1 * x2 * y1 * y2.
Let B := 1 - d * x1 * x2 * y1 * y2.
Let C := 1 + d * x2 * x3 * y2 * y3.
Let D := 1 - d * x2 * x3 * y2 * y3.
Let X12 := x1 * y2 + y1 * x2.
Let Y12 := y1 * y2 + x1 * x2.
Let X23 := x2 * y3 + y2 * x3.
Let Y23 := y2 * y3 + x2 * x3.

Lemma assoc_x :
  (X12 * B * y3 + Y12 * A * x3) * (C * D + d * x1 * y1 * X23 * Y23) =
  (x1 * Y23 * C + y1 * X23 * D) * (A * B + d * X12 * Y12 * x3 * y3).
Proof.
  apply combine3 with
    (c1 :=
  - (d*y1*x2*y2*y2*y2*y2*x3*x3*y3) - d*y1*x2*x2*y2*y2*y2*x3 - d*y1*x2*x2*y2*y2*y2*x3*x3*x3
  - d*y1*x2*x2*x2*y2*y2*y3 + d*y1*x2*x2*x2*y2*y2*y3*y3*y3 + d*y1*x2*x2*x2*x2*y2*x3*y3*y3 +
  d*x1*x2*y2*y2*y2*y2*x3*y3*y3 - d*x1*x2*x2*y2*y2*y2*y3 + d*x1*x2*x2*y2*y2*y2*y3*y3*y3 -
  d*x1*x2*x2*x2*y2*y2*x3 - d*x1*x2*x2*x2*y2*y2*x3*x3*x3 - d*x1*x2*x2*x2*x2*y2*x3*x3*y3 +
  d*d*y1*x2*x2*x2*y2*y2*y2*y2*x3*x3*y3 + d*d*y1*x2*x2*x2*x2*y2*y2*y2*x3*y3*y3 -
  d*d*x1*x2*x2*x2*y2*y2*y2*y2*x3*y3*y3 - d*d*x1*x2*x2*x2*x2*y2*y2*y2*x3*x3*y3)
    (c2 :=
  y1*y2*x3 - y1*y2*x3*y3*y3 + y1*y2*x3*x3*x3 + y1*x2*y3 - y1*x2*y3*y3*y3 + y1*x2*x3*x3*y3
  - y1*y1*y1*y2*x3 + y1*y1*y1*y2*x3*y3*y3 - y1*y1*y1*y2*x3*x3*x3 - y1*y1*y1*x2*y3 +
  y1*y1*y1*x2*y3*y3*y3 - y1*y1*y1*x2*x3*x3*y3 + x1*y2*y3 - x1*y2*y3*y3*y3 + x1*y2*x3*x3*y3
  + x1*x2*x3 - x1*x2*x3*y3*y3 + x1*x2*x3*x3*x3 - x1*y1*y1*y2*y3 + x1*y1*y1*y2*y3*y3*y3 -
  x1*y1*y1*y2*x3*x3*y3 - x1*y1*y1*x2*x3 + x1*y1*y1*x2*x3*y3*y3 - x1*y1*y1*x2*x3*x3*x3 +
  x1*x1*y1*y2*x3 - x1*x1*y1*y2*x3*y3*y3 + x1*x1*y1*y2*x3*x3*x3 + x1*x1*y1*x2*y3 -
  x1*x1*y1*x2*y3*y3*y3 + x1*x1*y1*x2*x3*x3*y3 + x1*x1*x1*y2*y3 - x1*x1*x1*y2*y3*y3*y3 +
  x1*x1*x1*y2*x3*x3*y3 + x1*x1*x1*x2*x3 - x1*x1*x1*x2*x3*y3*y3 + x1*x1*x1*x2*x3*x3*x3 +
  d*y1*y2*x3*x3*x3*y3*y3 + d*y1*x2*x3*x3*y3*y3*y3 - d*y1*x2*y2*y2*x3*x3*y3 -
  d*y1*x2*x2*y2*x3*y3*y3 - d*y1*y1*y1*y2*x3*x3*x3*y3*y3 - d*y1*y1*y1*x2*x3*x3*y3*y3*y3 +
  d*y1*y1*y1*x2*y2*y2*x3*x3*y3 + d*y1*y1*y1*x2*x2*y2*x3*y3*y3 + d*x1*y2*x3*x3*y3*y3*y3 +
  d*x1*x2*x3*x3*x3*y3*y3 + d*x1*x2*y2*y2*x3*y3*y3 + d*x1*x2*x2*y2*x3*x3*y3 -
  d*x1*y1*y1*y2*x3*x3*y3*y3*y3 - d*x1*y1*y1*x2*x3*x3*x3*y3*y3 -
  d*x1*y1*y1*x2*y2*y2*x3*y3*y3 - d*x1*y1*y1*x2*x2*y2*x3*x3*y3 +
  d*x1*x1*y1*y2*x3*x3*x3*y3*y3 + d*x1*x1*y1*x2*x3*x3*y3*y3*y3 -
  d*x1*x1*y1*x2*y2*y2*x3*x3*y3 - d*x1*x1*y1*x2*x2*y2*x3*y3*y3 +
  d*x1*x1*x1*y2*x3*x3*y3*y3*y3 + d*x1*x1*x1*x2*x3*x3*x3*y3*y3 +
  d*x1*x1*x1*x2*y2*y2*x3*y3*y3 + d*x1*x1*x1*x2*x2*y2*x3*x3*y3 +
  d*d*x1*y1*y1*x2*y2*y2*x3*x3*x3*y3*y3 - d*d*x1*y1*y1*x2*x2*y2*x3*x3*y3*y3*y3 -
  d*d*x1*x1*y1*x2*y2*y2*x3*x3*y3*y3*y3 + d*d*x1*x1*y1*x2*x2*y2*x3*x3*x3*y3*y3)
    (c3 :=
  - (y1*y2*x3) + y1*y2*y2*y2*x3 - y1*x2*y3 + y1*x2*y2*y2*y3 - y1*x2*x2*y2*x3 -
  y1*x2*x2*x2*y3 + y1*y1*y1*y2*x3 - y1*y1*y1*y2*y2*y2*x3 + y1*y1*y1*x2*y3 -
  y1*y1*y1*x2*y2*y2*y3 + y1*y1*y1*x2*x2*y2*x3 + y1*y1*y1*x2*x2*x2*y3 - x1*y2*y3 +
  x1*y2*y2*y2*y3 - x1*x2*x3 + x1*x2*y2*y2*x3 - x1*x2*x2*y2*y3 - x1*x2*x2*x2*x3 +
  x1*y1*y1*y2*y3 - x1*y1*y1*y2*y2*y2*y3 + x1*y1*y1*x2*x3 - x1*y1*y1*x2*y2*y2*x3 +
  x1*y1*y1*x2*x2*y2*y3 + x1*y1*y1*x2*x2*x2*x3 - x1*x1*y1*y2*x3 + x1*x1*y1*y2*y2*y2*x3 -
  x1*x1*y1*x2*y3 + x1*x1*y1*x2*y2*y2*y3 - x1*x1*y1*x2*x2*y2*x3 - x1*x1*y1*x2*x2*x2*y3 -
  x1*x1*x1*y2*y3 + x1*x1*x1*y2*y2*y2*y3 - x1*x1*x1*x2*x3 + x1*x1*x1*x2*y2*y2*x3 -
  x1*x1*x1*x2*x2*y2*y3 - x1*x1*x1*x2*x2*x2*x3 - d*x1*y1*y1*x2*y2*y2*x3 +
  d*x1*y1*y1*x2*x2*y2*y3 + d*x1*x1*y1*x2*y2*y2*y3 - d*x1*x1*y1*x2*x2*y2*x3)
    (e1 := y1 * y1 - x1 * x1 - 1 - d * (x1 * x1) * (y1 * y1))
    (e2 := y2 * y2 - x2 * x2 - 1 - d * (x2 * x2) * (y2 * y2))
    (e3 := y3 * y3 - x3 * x3 - 1 - d * (x3 * x3) * (y3 * y3)); [exact E1|exact E2|exact E3|].
  unfold A, B, C, D, X12, Y12, X23, Y23. ring.
Qed.

Lemma assoc_y :
  (Y12 * A * y3 + X12 * B * x3) * (C * D - d * x1 * y1 * X23 * Y23) =
  (y1 * Y23 * C + x1 * X23 * D) * (A * B - d * X12 * Y12 * x3 * y3).
Proof.
  apply combine3 with
    (c1 :=
  d*y1*x2*y2*y2*y2*y2*x3*y3*y3 - d*y1*x2*x2*y2*y2*y2*y3 + d*y1*x2*x2*y2*y2*y2*y3*y3*y3 -
  d*y1*x2*x2*x2*y2*y2*x3 - d*y1*x2*x2*x2*y2*y2*x3*x3*x3 - d*y1*x2*x2*x2*x2*y2*x3*x3*y3 -
  d*x1*x2*y2*y2*y2*y2*x3*x3*y3 - d*x1*x2*x2*y2*y2*y2*x3 - d*x1*x2*x2*y2*y2*y2*x3*x3*x3 -
  d*x1*x2*x2*x2*y2*y2*y3 + d*x1*x2*x2*x2*y2*y2*y3*y3*y3 + d*x1*x2*x2*x2*x2*y2*x3*y3*y3 -
  d*d*y1*x2*x2*x2*y2*y2*y2*y2*x3*y3*y3 - d*d*y1*x2*x2*x2*x2*y2*y2*y2*x3*x3*y3 +
  d*d*x1*x2*x2*x2*y2*y2*y2*y2*x3*x3*y3 + d*d*x1*x2*x2*x2*x2*y2*y2*y2*x3*y3*y3)
    (c2 :=
  y1*y2*y3 - y1*y2*y3*y3*y3 + y1*y2*x3*x3*y3 + y1*x2*x3 - y1*x2*x3*y3*y3 + y1*x2*x3*x3*x3
  - y1*y1*y1*y2*y3 + y1*y1*y1*y2*y3*y3*y3 - y1*y1*y1*y2*x3*x3*y3 - y1*y1*y1*x2*x3 +
  y1*y1*y1*x2*x3*y3*y3 - y1*y1*y1*x2*x3*x3*x3 + x1*y2*x3 - x1*y2*x3*y3*y3 + x1*y2*x3*x3*x3
  + x1*x2*y3 - x1*x2*y3*y3*y3 + x1*x2*x3*x3*y3 - x1*y1*y1*y2*x3 + x1*y1*y1*y2*x3*y3*y3 -
  x1*y1*y1*y2*x3*x3*x3 - x1*y1*y1*x2*y3 + x1*y1*y1*x2*y3*y3*y3 - x1*y1*y1*x2*x3*x3*y3 +
  x1*x1*y1*y2*y3 - x1*x1*y1*y2*y3*y3*y3 + x1*x1*y1*y2*x3*x3*y3 + x1*x1*y1*x2*x3 -
  x1*x1*y1*x2*x3*y3*y3 + x1*x1*y1*x2*x3*x3*x3 + x1*x1*x1*y2*x3 - x1*x1*x1*y2*x3*y3*y3 +
  x1*x1*x1*y2*x3*x3*x3 + x1*x1*x1*x2*y3 - x1*x1*x1*x2*y3*y3*y3 + x1*x1*x1*x2*x3*x3*y3 +
  d*y1*y2*x3*x3*y3*y3*y3 + d*y1*x2*x3*x3*x3*y3*y3 + d*y1*x2*y2*y2*x3*y3*y3 +
  d*y1*x2*x2*y2*x3*x3*y3 - d*y1*y1*y1*y2*x3*x3*y3*y3*y3 - d*y1*y1*y1*x2*x3*x3*x3*y3*y3 -
  d*y1*y1*y1*x2*y2*y2*x3*y3*y3 - d*y1*y1*y1*x2*x2*y2*x3*x3*y3 + d*x1*y2*x3*x3*x3*y3*y3 +
  d*x1*x2*x3*x3*y3*y3*y3 - d*x1*x2*y2*y2*x3*x3*y3 - d*x1*x2*x2*y2*x3*y3*y3 -
  d*x1*y1*y1*y2*x3*x3*x3*y3*y3 - d*x1*y1*y1*x2*x3*x3*y3*y3*y3 +
  d*x1*y1*y1*x2*y2*y2*x3*x3*y3 + d*x1*y1*y1*x2*x2*y2*x3*y3*y3 +
  d*x1*x1*y1*y2*x3*x3*y3*y3*y3 + d*x1*x1*y1*x2*x3*x3*x3*y3*y3 +
  d*x1*x1*y1*x2*y2*y2*x3*y3*y3 + d*x1*x1*y1*x2*x2*y2*x3*x3*y3 +
  d*x1*x1*x1*y2*x3*x3*x3*y3*y3 + d*x1*x1*x1*x2*x3*x3*y3*y3*y3 -
  d*x1*x1*x1*x2*y2*y2*x3*x3*y3 - d*x1*x1*x1*x2*x2*y2*x3*y3*y3 +
  d*d*x1*y1*y1*x2*y2*y2*x3*x3*y3*y3*y3 - d*d*x1*y1*y1*x2*x2*y2*x3*x3*x3*y3*y3 -
  d*d*x1*x1*y1*x2*y2*y2*x3*x3*x3*y3*y3 + d*d*x1*x1*y1*x2*x2*y2*x3*x3*y3*y3*y3)
    (c3 :=
  - (y1*y2*y3) + y1*y2*y2*y2*y3 - y1*x2*x3 + y1*x2*y2*y2*x3 - y1*x2*x2*y2*y3 -
  y1*x2*x2*x2*x3 + y1*y1*y1*y2*y3 - y1*y1*y1*y2*y2*y2*y3 + y1*y1*y1*x2*x3 -
  y1*y1*y1*x2*y2*y2*x3 + y1*y1*y1*x2*x2*y2*y3 + y1*y1*y1*x2*x2*x2*x3 - x1*y2*x3 +
  x1*y2*y2*y2*x3 - x1*x2*y3 + x1*x2*y2*y2*y3 - x1*x2*x2*y2*x3 - x1*x2*x2*x2*y3 +
  x1*y1*y1*y2*x3 - x1*y1*y1*y2*y2*y2*x3 + x1*y1*y1*x2*y3 - x1*y1*y1*x2*y2*y2*y3 +
  x1*y1*y1*x2*x2*y2*x3 + x1*y1*y1*x2*x2*x2*y3 - x1*x1*y1*y2*y3 + x1*x1*y1*y2*y2*y2*y3 -
  x1*x1*y1*x2*x3 + x1*x1*y1*x2*y2*y2*x3 - x1*x1*y1*x2*x2*y2*y3 - x1*x1*y1*x2*x2*x2*x3 -
  x1*x1*x1*y2*x3 + x1*x1*x1*y2*y2*y2*x3 - x1*x1*x1*x2*y3 + x1*x1*x1*x2*y2*y2*y3 -
  x1*x1*x1*x2*x2*y2*x3 - x1*x1*x1*x2*x2*x2*y3 - d*x1*y1*y1*x2*y2*y2*y3 +
  d*x1*y1*y1*x2*x2*y2*x3 + d*x1*x1*y1*x2*y2*y2*x3 - d*x1*x1*y1*x2*x2*y2*y3)
    (e1 := y1 * y1 - x1 * x1 - 1 - d * (x1 * x1) * (y1 * y1))
    (e2 := y2 * y2 - x2 * x2 - 1 - d * (x2 * x2) * (y2 * y2))
    (e3 := y3 * y3 - x3 * x3 - 1 - d * (x3 * x3) * (y3 * y3)); [exact E1|exact E2|exact E3|].
  unfold A, B, C, D, X12, Y12, X23, Y23. ring.
Qed.

Lemma closed :
  Y12 * A * (Y12 * A) - X12 * B * (X12 * B) = A * B * (A * B) + d * (X12 * Y12 * (X12 * Y12)).
Proof using E1 E2.
  apply combine3 with
    (c1 :=
  y2*y2*y2*y2 - (1+1+1+1)*x2*x2*y2*y2 + (1+1)*x2*x2*y2*y2*y2*y2 + x2*x2*x2*x2 -
  (1+1)*x2*x2*x2*x2*y2*y2 - (1+1)*d*x2*x2*y2*y2 - (1+1)*d*x2*x2*x2*x2*y2*y2*y2*y2 -
  d*y1*y1*x2*x2*y2*y2*y2*y2 + d*y1*y1*x2*x2*x2*x2*y2*y2 + d*x1*x1*x2*x2*y2*y2*y2*y2 -
  d*x1*x1*x2*x2*x2*x2*y2*y2 - d*d*x2*x2*x2*x2*y2*y2*y2*y2 +
  d*d*y1*y1*x2*x2*x2*x2*y2*y2*y2*y2 - d*d*x1*x1*x2*x2*x2*x2*y2*y2*y2*y2 +
  d*d*d*x1*x1*y1*y1*x2*x2*x2*x2*y2*y2*y2*y2)
    (c2 :=
  1 + y2*y2 - x2*x2 + (1+1)*x2*x2*y2*y2 - y1*y1*y2*y2 + y1*y1*x2*x2 -
  (1+1)*y1*y1*x2*x2*y2*y2 + x1*x1*y2*y2 - x1*x1*x2*x2 + (1+1)*x1*x1*x2*x2*y2*y2 +
  d*x2*x2*y2*y2 - (1+1)*d*y1*y1*x2*x2*y2*y2 + d*y1*y1*y1*y1*x2*x2*y2*y2 +
  (1+1)*d*x1*x1*x2*x2*y2*y2 + d*x1*x1*x1*x1*x2*x2*y2*y2)
    (c3 := 0)
    (e1 := y1 * y1 - x1 * x1 - 1 - d * (x1 * x1) * (y1 * y1))
    (e2 := y2 * y2 - x2 * x2 - 1 - d * (x2 * x2) * (y2 * y2))
    (e3 := 0); [exact E1|exact E2|reflexivity|].
  unfold A, B, X12, Y12. ring.
Qed.
End assoc.

(** * The group *)
Lemma mdiv_eq (n m q : F) : m <> 0 -> Zmod.mdiv n m = q <-> n = q * m.
Proof.
  intros Hm. rewrite <- Zmod.mul_inv_r.
  pose proof (Zmod.mul_inv_same_l_prime m prime_p25519 Hm) as Hi. split.
  - intros <-. transitivity (n * (Zmod.inv m * m)); [rewrite Hi|]; ring.
  - intros ->. transitivity (q * (Zmod.inv m * m)); [|rewrite Hi]; ring.
Qed.

(** An addition is determined by its cross-multiplied equations. *)
Lemma add_affine_eq x1 y1 x2 y2 x3 y3 : on_curve (x1, y1) -> on_curve (x2, y2) ->
  x1 * y2 + y1 * x2 = x3 * (1 + curve_d * x1 * x2 * y1 * y2) ->
  y1 * y2 + x1 * x2 = y3 * (1 - curve_d * x1 * x2 * y1 * y2) ->
  add_affine (x1, y1) (x2, y2) = (x3, y3).
Proof.
  intros H1 H2 Ex Ey. unfold add_affine. f_equal.
  - apply mdiv_eq; [apply (denom_plus _ _ _ _ H1 H2)|exact Ex].
  - apply mdiv_eq; [apply (denom_minus _ _ _ _ H1 H2)|exact Ey].
Qed.

Lemma add_affine_spec x1 y1 x2 y2 x3 y3 : on_curve (x1, y1) -> on_curve (x2, y2) ->
  add_affine (x1, y1) (x2, y2) = (x3, y3) ->
  x1 * y2 + y1 * x2 = x3 * (1 + curve_d * x1 * x2 * y1 * y2) /\
  y1 * y2 + x1 * x2 = y3 * (1 - curve_d * x1 * x2 * y1 * y2).
Proof.
  intros H1 H2 E. unfold add_affine in E. apply pair_equal_spec in E as [Ex Ey]. split.
  - apply mdiv_eq; [apply (denom_plus _ _ _ _ H1 H2)|exact Ex].
  - apply mdiv_eq; [apply (denom_minus _ _ _ _ H1 H2)|exact Ey].
Qed.

Lemma F_cancel (k a b : F) : k <> 0 -> k * a = k * b -> a = b.
Proof.
  intros Hk E. assert (k * (a - b) = 0) as [?|E2]%F_mul_0 by (transitivity (k * a - k * b); [|rewrite E]; ring).
  { contradiction. }
  transitivity (a - b + b); [|rewrite E2]; ring.
Qed.

Lemma F_mul_neq_0 (a b : F) : a <> 0 -> b <> 0 -> a * b <> 0.
Proof. intros Ha Hb [E|E]%F_mul_0; contradiction. Qed.

Lemma F_sub_0 (a b : F) : a - b = 0 <-> a = b.
Proof.
  split; intros H; [|rewrite H; ring]. transitivity (a - b + b); [ring|]. rewrite H. ring.
Qed.

Lemma F_add_0 (a b : F) : a + b = 0 <-> a = - b.
Proof.
  split; intros H; [|rewrite H; ring]. transitivity (a + b - b); [ring|]. rewrite H. ring.
Qed.

Ltac F_neq :=
  repeat lazymatch goal with |- Zmod.mul _ _ <> _ => apply F_mul_neq_0 end; assumption.

Lemma add_affine_on P Q : on_curve P -> on_curve Q -> on_curve (add_affine P Q).
Proof.
  destruct P as [x1 y1], Q as [x2 y2]. intros H1 H2.
  pose proof (denom_plus _ _ _ _ H1 H2) as HA. pose proof (denom_minus _ _ _ _ H1 H2) as HB.
  destruct (add_affine (x1, y1) (x2, y2)) as [x y] eqn:E.
  apply (add_affine_spec _ _ _ _ _ _ H1 H2) in E as [Ex Ey].
  pose proof (closed curve_d x1 y1 x2 y2 (proj1 (on_curve_eq _ _) H1) (proj1 (on_curve_eq _ _) H2)) as Hc.
  rewrite Ex, Ey in Hc. unfold on_curve.
  set (A := 1 + curve_d * x1 * x2 * y1 * y2) in *. set (B := 1 - curve_d * x1 * x2 * y1 * y2) in *.
  apply (F_cancel (A * B * (A * B))).
  { F_neq. }
  transitivity (y * B * A * (y * B * A) - x * A * B * (x * A * B)); [ring|]. rewrite Hc. ring.
Qed.

Lemma add_affine_assoc P Q R : on_curve P -> on_curve Q -> on_curve R ->
  add_affine (add_affine P Q) R = add_affine P (add_affine Q R).
Proof.
  destruct P as [x1 y1], Q as [x2 y2], R as [x3 y3]. intros H1 H2 H3.
  pose proof (add_affine_on _ _ H1 H2) as H12. pose proof (add_affine_on _ _ H2 H3) as H23.
  destruct (add_affine (x1, y1) (x2, y2)) as [x12 y12] eqn:E12.
  destruct (add_affine (x2, y2) (x3, y3)) as [x23 y23] eqn:E23.
  destruct (add_affine (x12, y12) (x3, y3)) as [u v] eqn:E. symmetry.
  apply (add_affine_spec _ _ _ _ _ _ H1 H2) in E12 as [Ex12 Ey12].
  apply (add_affine_spec _ _ _ _ _ _ H2 H3) in E23 as [Ex23 Ey23].
  apply (add_affine_spec _ _ _ _ _ _ H12 H3) in E as [Eu Ev].
  pose proof (denom_plus _ _ _ _ H1 H2) as NA. pose proof (denom_minus _ _ _ _ H1 H2) as NB.
  pose proof (denom_plus _ _ _ _ H2 H3) as NC. pose proof (denom_minus _ _ _ _ H2 H3) as ND.
  pose proof (denom_plus _ _ _ _ H12 H3) as NP. pose proof (denom_minus _ _ _ _ H12 H3) as NM.
  pose proof (proj1 (on_curve_eq _ _) H1) as O1. pose proof (proj1 (on_curve_eq _ _) H2) as O2.
  pose proof (proj1 (on_curve_eq _ _) H3) as O3.
  pose proof (assoc_x curve_d x1 y1 x2 y2 x3 y3 O1 O2 O3) as Ax.
  pose proof (assoc_y curve_d x1 y1 x2 y2 x3 y3 O1 O2 O3) as Ay.
  rewrite Ex12, Ey12, Ex23, Ey23 in Ax, Ay.
  set (A := 1 + curve_d * x1 * x2 * y1 * y2) in *. set (B := 1 - curve_d * x1 * x2 * y1 * y2) in *.
  set (C := 1 + curve_d * x2 * x3 * y2 * y3) in *. set (D := 1 - curve_d * x2 * x3 * y2 * y3) in *.
  set (N := 1 + curve_d * x12 * x3 * y12 * y3) in *. set (M := 1 - curve_d * x12 * x3 * y12 * y3) in *.
  apply (add_affine_eq _ _ _ _ _ _ H1 H23).
  - apply (F_cancel (A * B * (C * D) * N)); [F_neq|].
    transitivity ((x1 * (y23 * D) * C + y1 * (x23 * C) * D) * (A * B + curve_d * (x12 * A) * (y12 * B) * x3 * y3));
      [unfold N; ring|]. rewrite <- Ax.
    transitivity (A * B * (C * D) * (x12 * y3 + y12 * x3) * (1 + curve_d * x1 * x23 * y1 * y23)); [ring|].
    rewrite Eu. ring.
  - apply (F_cancel (A * B * (C * D) * M)); [F_neq|].
    transitivity ((y1 * (y23 * D) * C + x1 * (x23 * C) * D) * (A * B - curve_d * (x12 * A) * (y12 * B) * x3 * y3));
      [unfold M; ring|]. rewrite <- Ay.
    transitivity (A * B * (C * D) * (y12 * y3 + x12 * x3) * (1 - curve_d * x1 * x23 * y1 * y23)); [ring|].
    rewrite Ev. ring.
Qed.

(** * Points *)
Definition point : Type := dsig on_curve.
Definition coords (P : point) : F * F := proj1_sig P.
Definition px (P : point) : F := fst (coords P).
Definition py (P : point) : F := snd (coords P).

Lemma coords_on P : on_curve (coords P).
Proof. exact (proj2_dsig P). Qed.

Lemma coords_inj P Q : coords P = coords Q -> P = Q.
Proof. apply dsig_eq. Qed.

Lemma point_eq P Q : px P = px Q -> py P = py Q -> P = Q.
Proof.
  unfold px, py. intros Hx Hy. apply coords_inj.
  destruct (coords P), (coords Q). cbn in *. by rewrite Hx, Hy.
Qed.

Lemma zero_on : on_curve (0, 1).
Proof. unfold on_curve. ring. Qed.

Lemma opp_on P : on_curve P -> on_curve (- fst P, snd P).
Proof. destruct P as [x y]. unfold on_curve. cbn. intros H. replace (- x * - x) with (x * x) by ring. exact H. Qed.

Definition pzero : point := dexist _ zero_on.
Definition padd (P Q : point) : point := dexist _ (add_affine_on _ _ (coords_on P) (coords_on Q)).
Definition popp (P : point) : point := dexist _ (opp_on _ (coords_on P)).

Lemma padd_coords P Q : coords (padd P Q) = add_affine (coords P) (coords Q).
Proof. reflexivity. Qed.

(** The sum through its equations: the form the formulas of ge.c are compared with. *)
Lemma padd_char P Q R :
  px P * py Q + py P * px Q = px R * (1 + curve_d * px P * px Q * py P * py Q) ->
  py P * py Q + px P * px Q = py R * (1 - curve_d * px P * px Q * py P * py Q) ->
  padd P Q = R.
Proof.
  unfold px, py. intros Hx Hy. apply coords_inj. rewrite padd_coords.
  pose proof (coords_on P) as HP. pose proof (coords_on Q) as HQ.
  destruct (coords P), (coords Q), (coords R). cbn [fst snd] in *.
  apply (add_affine_eq _ _ _ _ _ _ HP HQ Hx Hy).
Qed.

Lemma padd_equations P Q :
  px P * py Q + py P * px Q = px (padd P Q) * (1 + curve_d * px P * px Q * py P * py Q) /\
  py P * py Q + px P * px Q = py (padd P Q) * (1 - curve_d * px P * px Q * py P * py Q) /\
  1 + curve_d * px P * px Q * py P * py Q <> 0 /\ 1 - curve_d * px P * px Q * py P * py Q <> 0.
Proof.
  pose proof (padd_coords P Q) as E. pose proof (coords_on P) as HP. pose proof (coords_on Q) as HQ.
  unfold px, py in *. destruct (coords P), (coords Q), (coords (padd P Q)). cbn [fst snd] in *.
  symmetry in E. destruct (add_affine_spec _ _ _ _ _ _ HP HQ E).
  split_and!; [assumption..|apply (denom_plus _ _ _ _ HP HQ)|apply (denom_minus _ _ _ _ HP HQ)].
Qed.

Lemma point_curve P : py P * py P - px P * px P = 1 + curve_d * (px P * px P) * (py P * py P).
Proof. pose proof (coords_on P) as H. unfold px, py. destruct (coords P). exact H. Qed.

Lemma padd_comm P Q : padd P Q = padd Q P.
Proof.
  destruct (padd_equations Q P) as (Hx & Hy & _). apply padd_char.
  - transitivity (px Q * py P + py Q * px P); [ring|]. rewrite Hx. ring.
  - transitivity (py Q * py P + px Q * px P); [ring|]. rewrite Hy. ring.
Qed.

Lemma padd_assoc P Q R : padd (padd P Q) R = padd P (padd Q R).
Proof. apply coords_inj. rewrite !padd_coords. apply add_affine_assoc; apply coords_on. Qed.

Lemma padd_0_r P : padd P pzero = P.
Proof. apply padd_char; unfold px, py; cbn; ring. Qed.

Lemma padd_0_l P : padd pzero P = P.
Proof. rewrite padd_comm. apply padd_0_r. Qed.

Lemma padd_opp_r P : padd P (popp P) = pzero.
Proof.
  apply padd_char.
  - change (px (popp P)) with (- px P). change (py (popp P)) with (py P). change (px pzero) with (0 : F). ring.
  - change (px (popp P)) with (- px P). change (py (popp P)) with (py P). change (py pzero) with (1 : F).
    transitivity (py P * py P - px P * px P); [ring|]. rewrite point_curve. ring.
Qed.

(** * Integer multiples in a commutative group *)
Class AbGroup {A : Type} (add : A -> A -> A) (zero : A) (opp : A -> A) : Prop := {
  ab_comm a b : add a b = add b a;
  ab_assoc a b c : add (add a b) c = add a (add b c);
  ab_0_r a : add a zero = a;
  ab_opp_r a : add a (opp a) = zero;
}.

Section multiples.
Context {A : Type} {add : A -> A -> A} {zero : A} {opp : A -> A} {G : AbGroup add zero opp}.
Notation "a ⊕ b" := (add a b) (at level 50, left associativity).

Fixpoint pos_mul (n : positive) (a : A) : A :=
  match n with
  | xH => a
  | xO m => pos_mul m (a ⊕ a)
  | xI m => a ⊕ pos_mul m (a ⊕ a)
  end.
Definition z_mul (n : Z) (a : A) : A :=
  match n with
  | Z0 => zero
  | Zpos m => pos_mul m a
  | Zneg m => opp (pos_mul m a)
  end.

Lemma ab_0_l a : zero ⊕ a = a.
Proof. rewrite ab_comm. apply ab_0_r. Qed.

Lemma ab_swap a b c : a ⊕ (b ⊕ c) = b ⊕ (a ⊕ c).
Proof. by rewrite <- !ab_assoc, (ab_comm a b). Qed.

Lemma ab_cancel a b c : a ⊕ b = a ⊕ c -> b = c.
Proof.
  assert (forall x, x = opp a ⊕ (a ⊕ x)) as H.
  { intros x. by rewrite <- ab_assoc, (ab_comm (opp a)), ab_opp_r, (ab_comm zero), ab_0_r. }
  intros E. by rewrite (H b), E, <- H.
Qed.

Lemma ab_opp_unique a b : a ⊕ b = zero -> b = opp a.
Proof. intros E. apply (ab_cancel a). by rewrite ab_opp_r. Qed.

Lemma ab_opp_add a b : opp (a ⊕ b) = opp a ⊕ opp b.
Proof.
  symmetry. apply ab_opp_unique. rewrite ab_assoc, (ab_swap b), <- ab_assoc, !ab_opp_r. apply ab_0_r.
Qed.

Lemma ab_opp_opp a : opp (opp a) = a.
Proof. symmetry. apply ab_opp_unique. rewrite ab_comm. apply ab_opp_r. Qed.

Lemma pos_mul_succ n a : pos_mul (Pos.succ n) a = a ⊕ pos_mul n a.
Proof.
  revert a. induction n as [n IH|n IH|]; intros a; [|done..].
  change (pos_mul (Pos.succ n) (a ⊕ a) = a ⊕ (a ⊕ pos_mul n (a ⊕ a))). by rewrite IH, ab_assoc.
Qed.

Lemma z_mul_succ n a : z_mul (n + 1) a = a ⊕ z_mul n a.
Proof.
  destruct n as [|n|n]; [symmetry; apply ab_0_r|apply (eq_trans (f_equal (fun m => pos_mul m a) (Pos.add_1_r n))), pos_mul_succ|].
  destruct (decide (n = 1%positive)) as [->|Hn]; [symmetry; apply ab_opp_r|].
  rewrite <- (Pos.succ_pred n Hn). set (m := Pos.pred n). clearbody m.
  replace (Z.neg (Pos.succ m) + 1)%Z with (Z.neg m) by lia. cbn [z_mul].
  rewrite pos_mul_succ, ab_opp_add, <- ab_assoc, ab_opp_r, ab_comm. symmetry. apply ab_0_r.
Qed.

Lemma z_mul_pred n a : z_mul n a = a ⊕ z_mul (n - 1) a.
Proof. rewrite <- z_mul_succ. f_equal. lia. Qed.

Lemma z_ind (P : Z -> Prop) : P 0%Z -> (forall n, P n <-> P (n + 1)%Z) -> forall n, P n.
Proof.
  intros H0 Hs n. destruct (Z.le_ge_cases 0 n) as [H|H].
  - revert n H. apply natlike_ind; [done|]. intros x _ Hx. by apply Hs in Hx.
  - replace n with (- (- n))%Z by lia. generalize (- n)%Z (ltac:(lia) : (0 <= - n)%Z). clear n H.
    apply natlike_ind; [done|]. intros x _ Hx. apply Hs.
    by replace (- Z.succ x + 1)%Z with (- x)%Z by lia.
Qed.

Lemma z_mul_add m n a : z_mul (m + n) a = z_mul m a ⊕ z_mul n a.
Proof.
  revert m. apply z_ind.
  - rewrite Z.add_0_l. symmetry. apply ab_0_l.
  - intros m. replace (m + 1 + n)%Z with (m + n + 1)%Z by lia.
    rewrite !z_mul_succ, ab_assoc. split; [by intros ->|apply ab_cancel].
Qed.

Lemma z_mul_opp n a : z_mul (- n) a = opp (z_mul n a).
Proof. apply ab_opp_unique. rewrite <- z_mul_add. by replace (n + - n)%Z with 0%Z by lia. Qed.

Lemma z_mul_distr n a b : z_mul n (a ⊕ b) = z_mul n a ⊕ z_mul n b.
Proof.
  revert n. apply z_ind.
  - symmetry. apply ab_0_r.
  - intros n. rewrite !z_mul_succ.
    replace (a ⊕ z_mul n a ⊕ (b ⊕ z_mul n b)) with (a ⊕ b ⊕ (z_mul n a ⊕ z_mul n b))
      by (rewrite !ab_assoc; f_equal; apply ab_swap).
    split; [by intros ->|apply ab_cancel].
Qed.

Lemma z_mul_mul m n a : z_mul (m * n) a = z_mul m (z_mul n a).
Proof.
  revert m. apply z_ind; [done|]. intros m.
  replace ((m + 1) * n)%Z with (n + m * n)%Z by lia. rewrite z_mul_succ, z_mul_add.
  split; [by intros ->|apply ab_cancel].
Qed.

Lemma z_mul_zero n : z_mul n zero = zero.
Proof.
  revert n. apply z_ind; [done|]. intros n. by rewrite z_mul_succ, ab_0_l.
Qed.

(** A point of order dividing l: multiples depend on the factor modulo l only. *)
Lemma z_mul_mod l n a : z_mul l a = zero -> z_mul (n mod l) a = z_mul n a.
Proof.
  intros Hl. destruct (decide (l = 0%Z)) as [->|H0]; [by rewrite Z.mod_0_r|].
  rewrite (Z.div_mod n l H0) at 2. rewrite z_mul_add, Z.mul_comm, z_mul_mul, Hl, z_mul_zero.
  by rewrite ab_0_l.
Qed.
End multiples.

#[export] Instance point_group : AbGroup padd pzero popp.
Proof. split; [apply padd_comm|apply padd_assoc|apply padd_0_r|apply padd_opp_r]. Qed.

#[global] Arguments z_mul {_} _ _ _ _ _.
Notation "n *! P" := (z_mul padd pzero popp n P) (at level 39, right associativity).
