(* ===== verification/Ge.v ===== *)
(** Group elements of Ed25519, [remote/ed25519/ge.c] and [ge.h]: the five
    representations of a point, the additions and doublings between them,
    compression, the fixed-base and the double-scalar multiplication.  A
    function that writes through a pointer returns the written struct; the
    member assignments of a struct are the successive bindings of its
    coordinates. *)
From S2P Require Import Prelude CInt Fe GeData.

(** * Representations *)
Record ge_p2 : Type := GeP2 { p2_X : fe; p2_Y : fe; p2_Z : fe }.
Record ge_p3 : Type := GeP3 { p3_X : fe; p3_Y : fe; p3_Z : fe; p3_T : fe }.
Record ge_p1p1 : Type := GeP1p1 { p1p1_X : fe; p1p1_Y : fe; p1p1_Z : fe; p1p1_T : fe }.
Record ge_cached : Type := GeCached { YplusX : fe; YminusX : fe; cached_Z : fe; T2d : fe }.

(** Conversion to [signed char]. *)
Definition i8 (z : Z) : Z := (z + 2 ^ 7) mod 2 ^ 8 - 2 ^ 7.

Definition d : fe :=
  Fe (-10913610) 13857413 (-15372611) 6949391 114729 (-8787816) (-6275908) (-3247719) (-18696448) (-12055116).
Definition sqrtm1 : fe :=
  Fe (-32595792) (-7943725) 9377950 3500415 12389472 (-272473) (-25146209) (-2005654) 326686 11406482.
Definition d2 : fe :=
  Fe (-21827239) (-5839606) (-30745221) 13898782 229458 15978800 (-12551817) (-6495438) 29715968 9444199.

(** * Conversions, additions and doublings *)
Definition ge_p1p1_to_p2 (p : ge_p1p1) : option ge_p2 :=
  let? X := fe_mul (p1p1_X p) (p1p1_T p) in
  let? Y := fe_mul (p1p1_Y p) (p1p1_Z p) in
  let? Z := fe_mul (p1p1_Z p) (p1p1_T p) in
  Some (GeP2 X Y Z).

Definition ge_p1p1_to_p3 (p : ge_p1p1) : option ge_p3 :=
  let? X := fe_mul (p1p1_X p) (p1p1_T p) in
  let? Y := fe_mul (p1p1_Y p) (p1p1_Z p) in
  let? Z := fe_mul (p1p1_Z p) (p1p1_T p) in
  let? T := fe_mul (p1p1_X p) (p1p1_Y p) in
  Some (GeP3 X Y Z T).

Definition ge_p2_0 : ge_p2 := GeP2 fe_0 fe_1 fe_1.
Definition ge_p3_0 : ge_p3 := GeP3 fe_0 fe_1 fe_1 fe_0.

Definition ge_p3_to_p2 (p : ge_p3) : ge_p2 :=
  GeP2 (fe_copy (p3_X p)) (fe_copy (p3_Y p)) (fe_copy (p3_Z p)).

Definition ge_p3_to_cached (p : ge_p3) : option ge_cached :=
  let? yplusx := fe_add (p3_Y p) (p3_X p) in
  let? yminusx := fe_sub (p3_Y p) (p3_X p) in
  let? t2d := fe_mul (p3_T p) d2 in
  Some (GeCached yplusx yminusx (fe_copy (p3_Z p)) t2d).

Definition ge_p2_dbl (p : ge_p2) : option ge_p1p1 :=
  let? X := fe_sq (p2_X p) in
  let? Z := fe_sq (p2_Y p) in
  let? T := fe_sq2 (p2_Z p) in
  let? Y := fe_add (p2_X p) (p2_Y p) in
  let? t0 := fe_sq Y in
  let? Y := fe_add Z X in
  let? Z := fe_sub Z X in
  let? X := fe_sub t0 Y in
  let? T := fe_sub T Z in
  Some (GeP1p1 X Y Z T).

Definition ge_p3_dbl (p : ge_p3) : option ge_p1p1 := ge_p2_dbl (ge_p3_to_p2 p).

Definition ge_add (p : ge_p3) (q : ge_cached) : option ge_p1p1 :=
  let? X := fe_add (p3_Y p) (p3_X p) in
  let? Y := fe_sub (p3_Y p) (p3_X p) in
  let? Z := fe_mul X (YplusX q) in
  let? Y := fe_mul Y (YminusX q) in
  let? T := fe_mul (T2d q) (p3_T p) in
  let? X := fe_mul (p3_Z p) (cached_Z q) in
  let? t0 := fe_add X X in
  let? X := fe_sub Z Y in
  let? Y := fe_add Z Y in
  let? Z := fe_add t0 T in
  let? T := fe_sub t0 T in
  Some (GeP1p1 X Y Z T).

Definition ge_sub (p : ge_p3) (q : ge_cached) : option ge_p1p1 :=
  let? X := fe_add (p3_Y p) (p3_X p) in
  let? Y := fe_sub (p3_Y p) (p3_X p) in
  let? Z := fe_mul X (YminusX q) in
  let? Y := fe_mul Y (YplusX q) in
  let? T := fe_mul (T2d q) (p3_T p) in
  let? X := fe_mul (p3_Z p) (cached_Z q) in
  let? t0 := fe_add X X in
  let? X := fe_sub Z Y in
  let? Y := fe_add Z Y in
  let? Z := fe_sub t0 T in
  let? T := fe_add t0 T in
  Some (GeP1p1 X Y Z T).

Definition ge_madd (p : ge_p3) (q : ge_precomp) : option ge_p1p1 :=
  let? X := fe_add (p3_Y p) (p3_X p) in
  let? Y := fe_sub (p3_Y p) (p3_X p) in
  let? Z := fe_mul X (yplusx q) in
  let? Y := fe_mul Y (yminusx q) in
  let? T := fe_mul (xy2d q) (p3_T p) in
  let? t0 := fe_add (p3_Z p) (p3_Z p) in
  let? X := fe_sub Z Y in
  let? Y := fe_add Z Y in
  let? Z := fe_add t0 T in
  let? T := fe_sub t0 T in
  Some (GeP1p1 X Y Z T).

Definition ge_msub (p : ge_p3) (q : ge_precomp) : option ge_p1p1 :=
  let? X := fe_add (p3_Y p) (p3_X p) in
  let? Y := fe_sub (p3_Y p) (p3_X p) in
  let? Z := fe_mul X (yminusx q) in
  let? Y := fe_mul Y (yplusx q) in
  let? T := fe_mul (xy2d q) (p3_T p) in
  let? t0 := fe_add (p3_Z p) (p3_Z p) in
  let? X := fe_sub Z Y in
  let? Y := fe_add Z Y in
  let? Z := fe_sub t0 T in
  let? T := fe_add t0 T in
  Some (GeP1p1 X Y Z T).

(** * Compression *)
(** [s[31] ^= neg << 7] *)
Definition set_sign (s : list Z) (neg : Z) : option (list Z) :=
  let? s31 := s !! 31%nat in
  Some (<[31%nat := u8 (Z.lxor s31 (Z.shiftl neg 7))]> s).

Definition ge_tobytes (h : ge_p2) : option (list Z) :=
  let? recip := fe_invert (p2_Z h) in
  let? x := fe_mul (p2_X h) recip in
  let? y := fe_mul (p2_Y h) recip in
  let? s := fe_tobytes y in
  let? neg := fe_isnegative x in
  set_sign s neg.

Definition ge_p3_tobytes (h : ge_p3) : option (list Z) :=
  let? recip := fe_invert (p3_Z h) in
  let? x := fe_mul (p3_X h) recip in
  let? y := fe_mul (p3_Y h) recip in
  let? s := fe_tobytes y in
  let? neg := fe_isnegative x in
  set_sign s neg.

(** The statements after the square root: the sign is chosen and T computed. *)
Definition frombytes_finish (X Y hZ : fe) (s : list Z) : option (Z * ge_p3) :=
  let? neg := fe_isnegative X in
  let? s31 := s !! 31%nat in
  let? X := if neg =? Z.shiftr s31 7 then fe_neg X else Some X in
  let? T := fe_mul X Y in
  Some (0, GeP3 X Y hZ T).

(** [h] is the caller's struct: on failure its T is left as it was. *)
Definition ge_frombytes_negate_vartime (h : ge_p3) (s : list Z) : option (Z * ge_p3) :=
  let? Y := fe_frombytes s in
  let hZ := fe_1 in
  let? u := fe_sq Y in
  let? v := fe_mul u d in
  let? u := fe_sub u hZ in
  let? v := fe_add v hZ in
  let? v3 := fe_sq v in
  let? v3 := fe_mul v3 v in
  let? X := fe_sq v3 in
  let? X := fe_mul X v in
  let? X := fe_mul X u in
  let? X := fe_pow22523 X in
  let? X := fe_mul X v3 in
  let? X := fe_mul X u in
  let? vxx := fe_sq X in
  let? vxx := fe_mul vxx v in
  let? check := fe_sub vxx u in
  let? nz := fe_isnonzero check in
  if negb (nz =? 0) then
    let? check := fe_add vxx u in
    let? nz := fe_isnonzero check in
    if negb (nz =? 0) then Some (-1, GeP3 X Y hZ (p3_T h))
    else
      let? X := fe_mul X sqrtm1 in
      frombytes_finish X Y hZ s
  else frombytes_finish X Y hZ s.

(** * Fixed-base multiplication *)
Definition equal (b c : Z) : Z :=
  let ub := u8 b in
  let uc := u8 c in
  let x := Z.lxor ub uc in
  let y := u64 (x - 1) in
  u8 (Z.shiftr y 63).

Definition negative (b : Z) : Z :=
  let x := u64 b in
  u8 (Z.shiftr x 63).

Definition cmov (t u : ge_precomp) (b : Z) : ge_precomp :=
  GePrecomp (fe_cmov (yplusx t) (yplusx u) b) (fe_cmov (yminusx t) (yminusx u) b)
    (fe_cmov (xy2d t) (xy2d u) b).

(** [cmov(t, &base[pos][k], equal(babs, k + 1))] *)
Definition select_entry (row : list ge_precomp) (babs : Z) (k : nat) (t : ge_precomp) : option ge_precomp :=
  let? u := row !! k in
  Some (cmov t u (equal (i8 babs) (Z.of_nat k + 1))).

Definition select (pos : Z) (b : Z) : option ge_precomp :=
  let bnegative := negative b in
  let babs := u8 (b - Z.land (- bnegative) b * 2) in
  let t := GePrecomp fe_1 fe_1 fe_0 in
  let? row := base !! Z.to_nat pos in
  let? t := select_entry row babs 0 t in
  let? t := select_entry row babs 1 t in
  let? t := select_entry row babs 2 t in
  let? t := select_entry row babs 3 t in
  let? t := select_entry row babs 4 t in
  let? t := select_entry row babs 5 t in
  let? t := select_entry row babs 6 t in
  let? t := select_entry row babs 7 t in
  let? minus := fe_neg (xy2d t) in
  let minust := GePrecomp (fe_copy (yminusx t)) (fe_copy (yplusx t)) minus in
  Some (cmov t minust bnegative).

(** [e[2*i] = (a[i] >> 0) & 15; e[2*i+1] = (a[i] >> 4) & 15], i < 32. *)
Definition nibbles (a : list Z) : option (list Z) :=
  let? a := bytes_at a 32 in
  Some (mjoin ((fun x => [Z.land (Z.shiftr x 0) 15; Z.land (Z.shiftr x 4) 15]) <$> a)).

(** The carry loop over the first [n] digits and [e[63] += carry] after it. *)
Fixpoint recode (n : nat) (carry : Z) (e : list Z) : list Z :=
  match e with
  | [] => []
  | x :: e' =>
      let x := i8 (x + carry) in
      match n with
      | O => x :: e'
      | S n' =>
          let carry := i8 (x + 8) in
          let carry := Z.shiftr carry 4 in
          i8 (x - carry * Z.shiftl 1 4) :: recode n' carry e'
      end
  end.

(** One of the two loops of additions: [i] runs through [idx]. *)
Fixpoint madd_loop (h : ge_p3) (e : list Z) (idx : list Z) : option ge_p3 :=
  match idx with
  | [] => Some h
  | i :: idx' =>
      let? ei := e !! Z.to_nat i in
      let? t := select (Z.quot i 2) ei in
      let? r := ge_madd h t in
      let? h := ge_p1p1_to_p3 r in
      madd_loop h e idx'
  end.

Definition ge_scalarmult_base (a : list Z) : option ge_p3 :=
  let? e := nibbles a in
  let e := recode 63 0 e in
  let h := ge_p3_0 in
  let? h := madd_loop h e ((fun k => 2 * k + 1) <$> seqZ 0 32) in
  let? r := ge_p3_dbl h in
  let? s := ge_p1p1_to_p2 r in
  let? r := ge_p2_dbl s in
  let? s := ge_p1p1_to_p2 r in
  let? r := ge_p2_dbl s in
  let? s := ge_p1p1_to_p2 r in
  let? r := ge_p2_dbl s in
  let? h := ge_p1p1_to_p3 r in
  madd_loop h e ((fun k => 2 * k) <$> seqZ 0 32).

(** * Double-scalar multiplication *)
(** The loop over [k]; the list is [r] from index [i + b]. *)
Fixpoint slide_carry (r : list Z) : list Z :=
  match r with
  | [] => []
  | x :: r' => if x =? 0 then 1 :: r' else 0 :: slide_carry r'
  end.

(** The loop over [b], [n] iterations left; [ri] is [r[i]] and the list is [r]
    from index [i + b], so that it is empty when [i + b] is 256. *)
Fixpoint slide_window (n : nat) (b ri : Z) (r : list Z) : option (Z * list Z) :=
  match n, r with
  | S n', x :: r' =>
      if x =? 0 then
        let? (ri, r') := slide_window n' (b + 1) ri r' in
        Some (ri, x :: r')
      else
        let? xb := (x << b)%i32 in
        if ri + xb <=? 15 then
          let? (ri, r') := slide_window n' (b + 1) (i8 (ri + xb)) r' in
          Some (ri, 0 :: r')
        else if -15 <=? ri - xb then
          match slide_carry r with
          | [] => None
          | x :: r' =>
              let? (ri, r') := slide_window n' (b + 1) (i8 (ri - xb)) r' in
              Some (ri, x :: r')
          end
        else Some (ri, r)
  | _, _ => Some (ri, r)
  end.

(** The loop over [i], [n] iterations left; the list is [r] from index [i]. *)
Fixpoint slide_loop (n : nat) (r : list Z) : option (list Z) :=
  match n, r with
  | S n', ri :: r' =>
      let? (ri, r') := if ri =? 0 then Some (ri, r') else slide_window 6 1 ri r' in
      let? r' := slide_loop n' r' in
      Some (ri :: r')
  | _, _ => Some r
  end.

(** [r[i] = 1 & (a[i >> 3] >> (i & 7))] *)
Definition slide_bit (a : list Z) (i : Z) : option Z :=
  let? x := a !! Z.to_nat (Z.shiftr i 3) in
  Some (Z.land 1 (Z.shiftr x (Z.land i 7))).

Definition slide (a : list Z) : option (list Z) :=
  let? r := mapM (slide_bit a) (seqZ 0 256) in
  slide_loop 256 r.

(** [ge_add(&t, &A2, &Ai[k]); ge_p1p1_to_p3(&u, &t); ge_p3_to_cached(&Ai[k+1], &u)] *)
Definition next_odd (A2 : ge_p3) (Aik : ge_cached) : option ge_cached :=
  let? t := ge_add A2 Aik in
  let? u := ge_p1p1_to_p3 t in
  ge_p3_to_cached u.

Definition odd_multiples (A : ge_p3) : option (list ge_cached) :=
  let? Ai0 := ge_p3_to_cached A in
  let? t := ge_p3_dbl A in
  let? A2 := ge_p1p1_to_p3 t in
  let? Ai1 := next_odd A2 Ai0 in
  let? Ai2 := next_odd A2 Ai1 in
  let? Ai3 := next_odd A2 Ai2 in
  let? Ai4 := next_odd A2 Ai3 in
  let? Ai5 := next_odd A2 Ai4 in
  let? Ai6 := next_odd A2 Ai5 in
  let? Ai7 := next_odd A2 Ai6 in
  Some [Ai0; Ai1; Ai2; Ai3; Ai4; Ai5; Ai6; Ai7].

(** The search for the top digit, from index [n - 1] down; the result is the
    number of digits to process. *)
Fixpoint top_digit (n : nat) (aslide bslide : list Z) : option nat :=
  match n with
  | O => Some O
  | S i =>
      let? ai := aslide !! i in
      let? bi := bslide !! i in
      if negb (ai =? 0) || negb (bi =? 0) then Some n else top_digit i aslide bslide
  end.

(** One digit of a added to [t]. *)
Definition step_a (Ai : list ge_cached) (ai : Z) (t : ge_p1p1) : option ge_p1p1 :=
  if 0 <? ai then
    let? u := ge_p1p1_to_p3 t in
    let? c := Ai !! Z.to_nat (Z.quot ai 2) in
    ge_add u c
  else if ai <? 0 then
    let? u := ge_p1p1_to_p3 t in
    let? c := Ai !! Z.to_nat (Z.quot (- ai) 2) in
    ge_sub u c
  else Some t.

(** One digit of b added to [t]. *)
Definition step_b (bi : Z) (t : ge_p1p1) : option ge_p1p1 :=
  if 0 <? bi then
    let? u := ge_p1p1_to_p3 t in
    let? c := Bi !! Z.to_nat (Z.quot bi 2) in
    ge_madd u c
  else if bi <? 0 then
    let? u := ge_p1p1_to_p3 t in
    let? c := Bi !! Z.to_nat (Z.quot (- bi) 2) in
    ge_msub u c
  else Some t.

Fixpoint double_loop (n : nat) (Ai : list ge_cached) (aslide bslide : list Z) (r : ge_p2) : option ge_p2 :=
  match n with
  | O => Some r
  | S i =>
      let? t := ge_p2_dbl r in
      let? ai := aslide !! i in
      let? t := step_a Ai ai t in
      let? bi := bslide !! i in
      let? t := step_b bi t in
      let? r := ge_p1p1_to_p2 t in
      double_loop i Ai aslide bslide r
  end.

Definition ge_double_scalarmult_vartime (a : list Z) (A : ge_p3) (b : list Z) : option ge_p2 :=
  let? aslide := slide a in
  let? bslide := slide b in
  let? Ai := odd_multiples A in
  let r := ge_p2_0 in
  let? n := top_digit 256 aslide bslide in
  double_loop n Ai aslide bslide r.
