(* ===== verification/GeSpec.v ===== *)
(** What the group operations of ge.c compute: each representation stands for
    a point of the curve, and every operation, on operands inside the limb
    bounds its comments ask for, runs without overflow and yields a
    representation of the sum, difference or double. *)
From S2P Require Import Prelude CInt Fe Prime25519 FeSpec FeBytes Curve GeData Ge.
#[local] Open Scope Zmod_scope.
#[local] Opaque Zmod.mul Zmod.add Zmod.sub Zmod.opp Zmod.inv Zmod.mdiv.

(** * Representations *)
Class Represents (A : Type) : Type := represents : A -> point -> Prop.
Notation "g ⊨ P" := (represents g P) (at level 70, no associativity).

Record rep_p2 (g : ge_p2) (P : point) : Prop := {
  p2_bX : fe_bd 101 (p2_X g); p2_bY : fe_bd 101 (p2_Y g); p2_bZ : fe_bd 101 (p2_Z g);
  p2_Z0 : fe_F (p2_Z g) <> 0;
  p2_eX : fe_F (p2_X g) = px P * fe_F (p2_Z g);
  p2_eY : fe_F (p2_Y g) = py P * fe_F (p2_Z g);
}.
Record rep_p3 (g : ge_p3) (P : point) : Prop := {
  p3_bX : fe_bd 101 (p3_X g); p3_bY : fe_bd 101 (p3_Y g);
  p3_bZ : fe_bd 101 (p3_Z g); p3_bT : fe_bd 101 (p3_T g);
  p3_Z0 : fe_F (p3_Z g) <> 0;
  p3_eX : fe_F (p3_X g) = px P * fe_F (p3_Z g);
  p3_eY : fe_F (p3_Y g) = py P * fe_F (p3_Z g);
  p3_eT : fe_F (p3_T g) = px P * py P * fe_F (p3_Z g);
}.
Record rep_p1p1 (g : ge_p1p1) (P : point) : Prop := {
  p1p1_bX : fe_bd 303 (p1p1_X g); p1p1_bY : fe_bd 303 (p1p1_Y g);
  p1p1_bZ : fe_bd 303 (p1p1_Z g); p1p1_bT : fe_bd 303 (p1p1_T g);
  p1p1_Z0 : fe_F (p1p1_Z g) <> 0; p1p1_T0 : fe_F (p1p1_T g) <> 0;
  p1p1_eX : fe_F (p1p1_X g) = px P * fe_F (p1p1_Z g);
  p1p1_eY : fe_F (p1p1_Y g) = py P * fe_F (p1p1_T g);
}.
Record rep_precomp (g : ge_precomp) (P : point) : Prop := {
  pre_bp : fe_bd 101 (yplusx g); pre_bm : fe_bd 101 (yminusx g); pre_bt : fe_bd 101 (xy2d g);
  pre_ep : fe_F (yplusx g) = py P + px P;
  pre_em : fe_F (yminusx g) = py P - px P;
  pre_et : fe_F (xy2d g) = (1 + 1) * curve_d * px P * py P;
}.
Record rep_cached (g : ge_cached) (P : point) : Prop := {
  cached_bp : fe_bd 202 (YplusX g); cached_bm : fe_bd 202 (YminusX g);
  cached_bZ : fe_bd 101 (cached_Z g); cached_bT : fe_bd 101 (T2d g);
  cached_Z0 : fe_F (cached_Z g) <> 0;
  cached_ep : fe_F (YplusX g) = (py P + px P) * fe_F (cached_Z g);
  cached_em : fe_F (YminusX g) = (py P - px P) * fe_F (cached_Z g);
  cached_et : fe_F (T2d g) = (1 + 1) * curve_d * px P * py P * fe_F (cached_Z g);
}.
#[export] Instance p2_represents : Represents ge_p2 := rep_p2.
#[export] Instance p3_represents : Represents ge_p3 := rep_p3.
#[export] Instance p1p1_represents : Represents ge_p1p1 := rep_p1p1.
#[export] Instance precomp_represents : Represents ge_precomp := rep_precomp.
#[export] Instance cached_represents : Represents ge_cached := rep_cached.

(** * Running field operations *)
Ltac fe_bound := solve [ eapply fe_bd_mono; [|eassumption]; lia ].
Ltac fe_op :=
  lazymatch goal with
  | |- wp (fe_add _ _) _ => eapply fe_add_spec; [eassumption..|lia]
  | |- wp (fe_sub _ _) _ => eapply fe_sub_spec; [eassumption..|lia]
  | |- wp (fe_neg _) _ => eapply fe_neg_spec; [eassumption|lia]
  | |- wp (fe_mul _ _) _ => apply fe_mul_spec; fe_bound
  | |- wp (fe_sq _) _ => apply fe_sq_spec; fe_bound
  | |- wp (fe_sq2 _) _ => apply fe_sq2_spec; fe_bound
  | |- wp (fe_invert _) _ => apply fe_invert_spec; fe_bound
  | |- wp (fe_pow22523 _) _ => apply fe_pow22523_spec; fe_bound
  | |- wp (fe_frombytes _) _ => apply fe_frombytes_spec; assumption
  end.
Ltac fe_step :=
  apply wp_bind; eapply wp_mono; [fe_op|]; let h := fresh "h" in let B := fresh "B" in
  let E := fresh "E" in cbv beta; intros h [B E].
(** Values of intermediate results, last first. *)
Ltac fe_eqs :=
  repeat match goal with E : fe_F ?h = _ |- context [fe_F ?h] => rewrite E end.

(** * Additions *)
Lemma completed_add (P Q : point) (z X Y Z T : F) : z <> 0 ->
  X = z * (px P * py Q + py P * px Q) -> Y = z * (py P * py Q + px P * px Q) ->
  Z = z * (1 + curve_d * px P * px Q * py P * py Q) ->
  T = z * (1 - curve_d * px P * px Q * py P * py Q) ->
  Z <> 0 /\ T <> 0 /\ X = px (padd P Q) * Z /\ Y = py (padd P Q) * T.
Proof.
  intros Hz -> -> -> ->. destruct (padd_equations P Q) as (Ex & Ey & NZ & NT).
  split_and!; [F_neq|F_neq| |].
  - rewrite Ex. ring.
  - rewrite Ey. ring.
Qed.

Lemma double_neq_0 (a : F) : a <> 0 -> (1 + 1) * a <> 0.
Proof. intros H. apply F_mul_neq_0; [apply two_neq_0|exact H]. Qed.

Lemma ge_add_spec p q P Q : p ⊨ P -> q ⊨ Q -> wp (ge_add p q) (fun r => r ⊨ padd P Q).
Proof.
  intros [] []. unfold ge_add. repeat fe_step. cbn [wp].
  destruct (completed_add P Q ((1 + 1) * (fe_F (p3_Z p) * fe_F (cached_Z q)))
    (fe_F h6) (fe_F h7) (fe_F h8) (fe_F h9)) as (? & ? & ? & ?).
  { apply double_neq_0. F_neq. }
  1-4: fe_eqs; ring.
  split; first [fe_bound|assumption].
Qed.

Lemma px_popp P : px (popp P) = - px P.
Proof. reflexivity. Qed.
Lemma py_popp P : py (popp P) = py P.
Proof. reflexivity. Qed.

Lemma ge_sub_spec p q P Q : p ⊨ P -> q ⊨ Q -> wp (ge_sub p q) (fun r => r ⊨ padd P (popp Q)).
Proof.
  intros [] []. unfold ge_sub. repeat fe_step. cbn [wp].
  destruct (completed_add P (popp Q) ((1 + 1) * (fe_F (p3_Z p) * fe_F (cached_Z q)))
    (fe_F h6) (fe_F h7) (fe_F h8) (fe_F h9)) as (? & ? & ? & ?).
  { apply double_neq_0. F_neq. }
  1-4: rewrite px_popp, py_popp; fe_eqs; ring.
  split; first [fe_bound|assumption].
Qed.

Lemma ge_madd_spec p q P Q : p ⊨ P -> q ⊨ Q -> wp (ge_madd p q) (fun r => r ⊨ padd P Q).
Proof.
  intros [] []. unfold ge_madd. repeat fe_step. cbn [wp].
  destruct (completed_add P Q ((1 + 1) * fe_F (p3_Z p))
    (fe_F h5) (fe_F h6) (fe_F h7) (fe_F h8)) as (? & ? & ? & ?).
  { by apply double_neq_0. }
  1-4: fe_eqs; ring.
  split; first [fe_bound|assumption].
Qed.

Lemma ge_msub_spec p q P Q : p ⊨ P -> q ⊨ Q -> wp (ge_msub p q) (fun r => r ⊨ padd P (popp Q)).
Proof.
  intros [] []. unfold ge_msub. repeat fe_step. cbn [wp].
  destruct (completed_add P (popp Q) ((1 + 1) * fe_F (p3_Z p))
    (fe_F h5) (fe_F h6) (fe_F h7) (fe_F h8)) as (? & ? & ? & ?).
  { by apply double_neq_0. }
  1-4: rewrite px_popp, py_popp; fe_eqs; ring.
  split; first [fe_bound|assumption].
Qed.

Lemma ge_p2_dbl_spec p P : p ⊨ P -> wp (ge_p2_dbl p) (fun r => r ⊨ padd P P).
Proof.
  intros []. unfold ge_p2_dbl. repeat fe_step. cbn [wp].
  pose proof (point_curve P) as Hc.
  destruct (completed_add P P (fe_F (p2_Z p) * fe_F (p2_Z p))
    (fe_F h6) (fe_F h4) (fe_F h5) (fe_F h7)) as (? & ? & ? & ?).
  { F_neq. }
  3: { transitivity (fe_F (p2_Z p) * fe_F (p2_Z p) * (py P * py P - px P * px P)); [fe_eqs; ring|].
       rewrite Hc. ring. }
  3: { transitivity (fe_F (p2_Z p) * fe_F (p2_Z p) * (1 + 1 - (py P * py P - px P * px P))); [fe_eqs; ring|].
       rewrite Hc. ring. }
  1-2: fe_eqs; ring.
  split; first [fe_bound|assumption].
Qed.

(** * Conversions *)
Lemma ge_p1p1_to_p2_spec p P : p ⊨ P -> wp (ge_p1p1_to_p2 p) (fun r => r ⊨ P).
Proof.
  intros []. unfold ge_p1p1_to_p2. repeat fe_step. cbn [wp].
  split; cbn [p2_X p2_Y p2_Z]; try fe_bound; fe_eqs; [F_neq|ring|ring].
Qed.

Lemma ge_p1p1_to_p3_spec p P : p ⊨ P -> wp (ge_p1p1_to_p3 p) (fun r => r ⊨ P).
Proof.
  intros []. unfold ge_p1p1_to_p3. repeat fe_step. cbn [wp].
  split; cbn [p3_X p3_Y p3_Z p3_T]; try fe_bound; fe_eqs; [F_neq|ring|ring|ring].
Qed.

Lemma fe_copy_id f : fe_copy f = f.
Proof. by destruct f. Qed.

Lemma ge_p3_to_p2_spec p P : p ⊨ P -> ge_p3_to_p2 p ⊨ P.
Proof.
  intros []. unfold ge_p3_to_p2. rewrite !fe_copy_id. by split.
Qed.

Lemma ge_p3_dbl_spec p P : p ⊨ P -> wp (ge_p3_dbl p) (fun r => r ⊨ padd P P).
Proof. intros H. by apply ge_p2_dbl_spec, ge_p3_to_p2_spec. Qed.

(** The constants of ge.c. *)
Lemma fe_bd_d : fe_bd 101 d.
Proof. by apply fe_bdb_spec. Qed.
Lemma fe_bd_d2 : fe_bd 101 d2.
Proof. by apply fe_bdb_spec. Qed.
Lemma fe_bd_sqrtm1 : fe_bd 101 sqrtm1.
Proof. by apply fe_bdb_spec. Qed.
Lemma fe_bd_0 : fe_bd 101 fe_0.
Proof. by apply fe_bdb_spec. Qed.
Lemma fe_bd_1 : fe_bd 101 fe_1.
Proof. by apply fe_bdb_spec. Qed.

Lemma fe_F_d : fe_F d = curve_d.
Proof. apply ofZ_inj. vm_cast_no_check (eq_refl dZ). Qed.
Lemma fe_F_d2 : fe_F d2 = (1 + 1) * curve_d.
Proof.
  transitivity (curve_d + curve_d); [|ring]. unfold curve_d. rewrite <- ofZ_add.
  apply ofZ_inj. vm_compute. reflexivity.
Qed.
Lemma fe_F_sqrtm1 : fe_F sqrtm1 = sqrt_m1.
Proof. apply ofZ_inj. vm_cast_no_check (eq_refl iZ). Qed.
Lemma fe_F_0 : fe_F fe_0 = 0.
Proof. reflexivity. Qed.
Lemma fe_F_1 : fe_F fe_1 = 1.
Proof. reflexivity. Qed.
Lemma F_1_neq_0 : (1 : F) <> 0.
Proof. by apply (ofZ_neq_0 1). Qed.

Lemma ge_p3_to_cached_spec p P : p ⊨ P -> wp (ge_p3_to_cached p) (fun r => r ⊨ P).
Proof.
  intros []. pose proof fe_bd_d2. pose proof fe_F_d2. unfold ge_p3_to_cached. repeat fe_step.
  cbn [wp]. rewrite fe_copy_id.
  split; cbn [YplusX YminusX cached_Z T2d]; try fe_bound; try assumption; fe_eqs; ring.
Qed.

Lemma ge_p2_0_spec : ge_p2_0 ⊨ pzero.
Proof.
  split; cbn [ge_p2_0 p2_X p2_Y p2_Z]; rewrite ?fe_F_0, ?fe_F_1; first
    [apply fe_bd_0|apply fe_bd_1|apply F_1_neq_0|unfold px, py; cbn [pzero coords dexist proj1_sig fst snd]; ring].
Qed.

Lemma ge_p3_0_spec : ge_p3_0 ⊨ pzero.
Proof.
  split; cbn [ge_p3_0 p3_X p3_Y p3_Z p3_T]; rewrite ?fe_F_0, ?fe_F_1; first
    [apply fe_bd_0|apply fe_bd_1|apply F_1_neq_0|unfold px, py; cbn [pzero coords dexist proj1_sig fst snd]; ring].
Qed.
