(* ===== verification/GeBytes.v ===== *)
(** Compressed points: [ge_tobytes] and [ge_p3_tobytes] write y with the parity
    of x in the top bit, and [ge_frombytes_negate_vartime] recovers the
    negated point from such bytes or reports that there is none. *)
From S2P Require Import Prelude CInt Fe Prime25519 FeSpec FeBytes Curve GeData Ge GeSpec.
#[local] Open Scope Z_scope.
#[local] Opaque Zmod.mul Zmod.add Zmod.sub Zmod.opp Zmod.inv Zmod.mdiv Zmod.pow.

(** * Encoding *)
Lemma le_encode_snoc n v : le_encode (S n) v = le_encode n v ++ [u8 (v / 256 ^ Z.of_nat n)].
Proof.
  revert v. induction n as [|n IH]; intros v; [by rewrite Z.div_1_r|].
  change (le_encode (S (S n)) v) with (u8 v :: le_encode (S n) (v / 256)). rewrite IH.
  cbn [le_encode app]. do 4 f_equal. rewrite Nat2Z.inj_succ, Z.pow_succ_r, Z.div_div by lia. done.
Qed.

Lemma le_encode_add n v k : le_encode n (v + 256 ^ Z.of_nat n * k) = le_encode n v.
Proof.
  revert v. induction n as [|n IH]; intros v; [done|]. cbn [le_encode].
  rewrite Nat2Z.inj_succ, Z.pow_succ_r by lia. f_equal.
  - unfold u8. change (2 ^ 8) with 256.
    replace (v + 256 * 256 ^ Z.of_nat n * k) with (v + (256 ^ Z.of_nat n * k) * 256) by ring. apply Z.mod_add. lia.
  - replace (v + 256 * 256 ^ Z.of_nat n * k) with (v + (256 ^ Z.of_nat n * k) * 256) by ring.
    rewrite Z.div_add by lia. apply IH.
Qed.

Definition parity (x : F) : Z := Zmod.to_Z x mod 2.
Definition point_val (P : point) : Z := Zmod.to_Z (py P) + 2 ^ 255 * parity (px P).
Definition point_bytes (P : point) : list Z := le_encode 32 (point_val P).

Lemma parity_range x : parity x = 0 \/ parity x = 1.
Proof. unfold parity. pose proof (Z.mod_pos_bound (Zmod.to_Z x) 2). lia. Qed.

Lemma F_range_255 (x : F) : 0 <= Zmod.to_Z x < 2 ^ 255 - 19.
Proof. exact (F_range x). Qed.

Lemma set_sign_spec y b : 0 <= y < 2 ^ 255 -> b = 0 \/ b = 1 ->
  set_sign (le_encode 32 y) b = Some (le_encode 32 (y + 2 ^ 255 * b)).
Proof.
  intros Hy Hb. unfold set_sign. rewrite !(le_encode_snoc 31). change (256 ^ Z.of_nat 31) with (2 ^ 248).
  rewrite lookup_app_r by (rewrite length_le_encode; lia).
  rewrite length_le_encode. cbn [lookup list_lookup Nat.sub].
  rewrite insert_app_r_alt by (rewrite length_le_encode; lia). rewrite length_le_encode. cbn [Nat.sub insert list_insert].
  replace (2 ^ 255 * b) with (256 ^ Z.of_nat 31 * (2 ^ 7 * b)) at 1 by (change (256 ^ Z.of_nat 31) with (2 ^ 248); lia).
  rewrite le_encode_add. do 3 f_equal.
  replace (2 ^ 255 * b) with (2 ^ 7 * b * 2 ^ 248) by lia. rewrite Z.div_add by lia.
  assert (0 <= y / 2 ^ 248 < 2 ^ 7) as Ht.
  { split; [apply Z.div_pos; lia|]. apply Z.div_lt_upper_bound; lia. }
  rewrite (u8_small (y / 2 ^ 248)) by (unfold is_byte; lia).
  rewrite Z.lxor_lor by (apply land_disjoint; lia). rewrite lor_shiftl_add by lia. do 2 f_equal. lia.
Qed.

Section compress.
#[local] Open Scope Zmod_scope.
Lemma F_div_cancel (a z : F) : z <> 0 -> a * z * Zmod.inv z = a.
Proof.
  intros Hz. pose proof (Zmod.mul_inv_same_l_prime z prime_p25519 Hz) as Hi.
  transitivity (a * (Zmod.inv z * z)); [|rewrite Hi]; ring.
Qed.

(** The common text of the two functions. *)
Lemma compress_spec X Y Zc P : fe_bd 101 X -> fe_bd 101 Y -> fe_bd 101 Zc -> fe_F Zc <> 0 ->
  fe_F X = px P * fe_F Zc -> fe_F Y = py P * fe_F Zc ->
  (let? recip := fe_invert Zc in
   let? x := fe_mul X recip in
   let? y := fe_mul Y recip in
   let? s := fe_tobytes y in
   let? neg := fe_isnegative x in
   set_sign s neg) = Some (point_bytes P).
Proof.
  intros BX BY BZ HZ EX EY.
  match goal with |- ?m = Some ?v => enough (wp m (fun s => s = v)) as H end.
  { apply wp_some in H as (s & -> & ->). reflexivity. }
  repeat fe_step. rewrite fe_tobytes_F by fe_bound.
  apply wp_bind. rewrite fe_isnegative_spec by fe_bound. cbn [wp].
  assert (fe_F h0 = px P) as -> by (fe_eqs; by apply F_div_cancel).
  assert (fe_F h1 = py P) as -> by (fe_eqs; by apply F_div_cancel).
  pose proof (F_range_255 (py P)) as Hr. pose proof (parity_range (px P)) as Hp.
  unfold F_bytes. rewrite set_sign_spec; [reflexivity|lia|exact Hp].
Qed.

Lemma ge_tobytes_spec p P : p ⊨ P -> ge_tobytes p = Some (point_bytes P).
Proof. intros []. by apply compress_spec. Qed.

Lemma ge_p3_tobytes_spec p P : p ⊨ P -> ge_p3_tobytes p = Some (point_bytes P).
Proof. intros []. by apply compress_spec. Qed.
End compress.

Lemma point_val_range P : 0 <= point_val P < 2 ^ 256.
Proof.
  unfold point_val. pose proof (F_range_255 (py P)). pose proof (parity_range (px P)). lia.
Qed.

Lemma length_point_bytes P : length (point_bytes P) = 32%nat.
Proof. apply length_le_encode. Qed.

Lemma point_bytes_wf P : bytes_wf (point_bytes P).
Proof. apply le_encode_wf. Qed.

Lemma le_decode_point_bytes P : le_decode (point_bytes P) = point_val P.
Proof. apply le_decode_encode. change (256 ^ Z.of_nat 32) with (2 ^ 256). apply point_val_range. Qed.

(** * The square root of decompression *)
Definition dec_u (y : F) : F := (y * y - 1)%Zmod.
Definition dec_v (y : F) : F := (y * y * curve_d + 1)%Zmod.
(** (p-5)/8, the exponent of [fe_pow22523]. *)
Definition dec_k : Z := (p25519 - 5) / 8.
Definition dec_w (y : F) : F :=
  let v := dec_v y in (dec_u y * (v * v * v * v * v * v * v))%Zmod.
Definition dec_root (y : F) : F :=
  let v := dec_v y in (dec_u y * (v * v * v) * dec_w y ^ dec_k)%Zmod.

Section decompress.
#[local] Open Scope Zmod_scope.
Context (y : F).
Abbreviation u := (dec_u y).
Abbreviation v := (dec_v y).
Abbreviation k := dec_k.
Abbreviation w := (dec_w y).
Abbreviation root := (dec_root y).

Lemma curve_y x : on_curve (x, y) <-> v * (x * x) = u.
Proof.
  unfold on_curve, dec_u, dec_v. split; intros H.
  - transitivity (1 + curve_d * (x * x) * (y * y) + x * x - 1); [ring|]. rewrite <- H. ring.
  - transitivity (y * y - 1 - x * x + 1); [ring|]. rewrite <- H. ring.
Qed.

Lemma v_neq_0 : v <> 0.
Proof.
  unfold dec_v. intros H. assert (y = 0) as E.
  { apply (d_ratio sqrt_m1). rewrite sqrt_m1_sq.
    transitivity (y * y * curve_d - (y * y * curve_d + 1)); [|rewrite H]; ring. }
  apply F_1_neq_0. rewrite <- H, E. ring.
Qed.

Lemma root_sq : v * (root * root) = u * w ^ (2 * k + 1).
Proof.
  assert (0 <= k)%Z as Hk by (vm_compute; discriminate).
  replace (2 * k + 1)%Z with (k + k + 1)%Z by lia.
  rewrite !Zmod.pow_add_r_nonneg, Zmod.pow_1_r by lia. unfold dec_root. cbv zeta. unfold dec_w at 5. ring.
Qed.

(** If u/v has a square root at all, [root] is one up to a factor i. *)
Lemma root_complete x : v * (x * x) = u -> v * (root * root) = u \/ v * (root * root) = - u.
Proof.
  intros Hx. rewrite root_sq. set (t := x * (v * v * v * v)).
  assert (w = t * t) as Ew by (unfold dec_w, t; cbv zeta; rewrite <- Hx; ring).
  assert (0 <= 2 * k + 1)%Z as Hk by (vm_compute; discriminate).
  destruct (decide (t = 0)) as [Et|Ht].
  { left. assert (u = 0) as ->; [|ring]. rewrite <- Hx.
    apply F_mul_0 in Et as [->|E]; [ring|]. 
    assert (v * v * v * v <> 0) by (pose proof v_neq_0; F_neq). contradiction. }
  rewrite Ew, Zmod.pow_mul_l_nonneg by exact Hk. set (e := t ^ (2 * k + 1) * t ^ (2 * k + 1)).
  assert (e * e = 1) as He.
  { unfold e. rewrite <- !Zmod.pow_add_r_nonneg by lia.
    replace (2 * k + 1 + (2 * k + 1) + (2 * k + 1 + (2 * k + 1)))%Z with (Z.pred p25519) by (vm_compute; reflexivity).
    apply Zmod.fermat_nz; [exact Ht|apply prime_p25519]. }
  assert ((e - 1) * (e + 1) = 0) as [E|E]%F_mul_0 by (transitivity (e * e - 1); [|rewrite He]; ring).
  - left. transitivity (u * (e - 1 + 1)); [ring|]. rewrite E. ring.
  - right. transitivity (u * (e + 1 - 1)); [ring|]. rewrite E. ring.
Qed.

Lemma root_adjust : v * (root * root) = - u -> v * (root * sqrt_m1 * (root * sqrt_m1)) = u.
Proof.
  intros H. transitivity (v * (root * root) * (sqrt_m1 * sqrt_m1)); [ring|]. rewrite H, sqrt_m1_sq. ring.
Qed.

(** Two points with the same y differ in the sign of x. *)
Lemma same_y x1 x2 : v * (x1 * x1) = u -> v * (x2 * x2) = u -> x1 = x2 \/ x1 = - x2.
Proof.
  intros H1 H2. assert (x1 * x1 = x2 * x2) as E by (apply (F_cancel v); [apply v_neq_0|by rewrite H1, H2]).
  assert ((x1 - x2) * (x1 + x2) = 0) as [E2|E2]%F_mul_0 by (transitivity (x1 * x1 - x2 * x2); [|rewrite E]; ring).
  - left. transitivity (x1 - x2 + x2); [ring|]. rewrite E2. ring.
  - right. transitivity (x1 + x2 - x2); [ring|]. rewrite E2. ring.
Qed.
End decompress.

Lemma parity_opp x : x <> Zmod.zero -> parity (Zmod.opp x) = 1 - parity x.
Proof.
  intros Hx. unfold parity. rewrite Zmod.to_Z_opp. pose proof (F_range x) as Hr.
  assert (Zmod.to_Z x <> 0) as Hn.
  { intros E. apply Hx. apply Zmod.to_Z_inj. rewrite E. symmetry. apply Zmod.to_Z_0. }
  assert (- Zmod.to_Z x mod p25519 = p25519 - Zmod.to_Z x) as ->
    by (symmetry; apply Z.mod_unique_pos with (q := -1); lia).
  clear Hx Hn. set (X := Zmod.to_Z x) in *. clearbody X. change p25519 with (2 * (2 ^ 254 - 10) + 1).
  pose proof (Z.div_mod X 2). pose proof (Z.mod_pos_bound X 2).
  replace (2 * (2 ^ 254 - 10) + 1 - X) with (1 - X mod 2 + (2 ^ 254 - 10 - X / 2) * 2) by lia.
  rewrite Z.mod_add by lia. apply Z.mod_small. lia.
Qed.

(** * Decoding *)
Definition decoded_y (s : list Z) : F := ofZ (le_decode s mod 2 ^ 255).

(** What a successful decoding yields: the point with this y whose x has the
    parity the sign bit does not ask for, or is zero. *)
Definition decodes_neg (s : list Z) (Q : point) : Prop :=
  py Q = decoded_y s /\ exists s31, s !! 31%nat = Some s31 /\
    (px Q = Zmod.zero \/ parity (px Q) = 1 - Z.shiftr s31 7).

Lemma sign_bit s31 : is_byte s31 -> Z.shiftr s31 7 = 0 \/ Z.shiftr s31 7 = 1.
Proof.
  unfold is_byte. intros H. rewrite Z.shiftr_div_pow2 by lia.
  pose proof (Z.div_mod s31 (2 ^ 7)). pose proof (Z.mod_pos_bound s31 (2 ^ 7)). lia.
Qed.

Section finish.
#[local] Open Scope Zmod_scope.
Context (X Y : fe) (s : list Z).
Hypothesis (Hs : bytes_wf s) (Hl : (32 <= zlen s)%Z).
Hypothesis (BX : fe_bd 101 X) (BY : fe_bd 101 Y) (EY : fe_F Y = decoded_y s).
Hypothesis (HX : on_curve (fe_F X, fe_F Y)).

Lemma finish_point Xf T : fe_bd 101 Xf -> fe_bd 101 T -> fe_F T = fe_F Xf * fe_F Y ->
  forall Hon : on_curve (fe_F Xf, fe_F Y), GeP3 Xf Y fe_1 T ⊨ dexist _ Hon.
Proof using BY.
  intros BXf BT ET Hon.
  split; cbn [p3_X p3_Y p3_Z p3_T]; rewrite ?fe_F_1; first
    [assumption|apply fe_bd_1|apply F_1_neq_0|unfold px, py; cbn [coords dexist proj1_sig fst snd]; rewrite ?ET; ring].
Qed.

Lemma frombytes_finish_spec :
  wp (frombytes_finish X Y fe_1 s) (fun r => r.1 = 0%Z /\ exists Q, r.2 ⊨ Q /\ decodes_neg s Q).
Proof.
  destruct (lookup_lt_is_Some_2 s 31 ltac:(lia)) as [s31 E31].
  pose proof (sign_bit s31 (Forall_lookup_1 _ _ _ _ Hs E31)) as Hb.
  pose proof (parity_range (fe_F X)) as Hp.
  unfold frombytes_finish. rewrite fe_isnegative_spec by fe_bound. rewrite E31.
  destruct (Z.eqb_spec (Zmod.to_Z (fe_F X) mod 2) (Z.shiftr s31 7)) as [En|En].
  - fe_step. fe_step. cbn [wp fst snd]. split; [done|].
    assert (on_curve (fe_F h, fe_F Y)) as Hon by (rewrite E; apply (opp_on _ HX)).
    exists (dexist _ Hon). split; [by apply finish_point|]. split; [exact EY|].
    exists s31. split; [done|]. change (px (dexist _ Hon)) with (fe_F h). rewrite E.
    destruct (decide (fe_F X = 0)) as [Ez|Nz]; [left; rewrite Ez; ring|right].
    rewrite parity_opp by exact Nz. unfold parity. lia.
  - cbv iota. fe_step. cbn [wp fst snd]. split; [done|].
    exists (dexist _ HX). split; [by apply finish_point|]. split; [exact EY|].
    exists s31. split; [done|]. right. change (px (dexist _ HX)) with (fe_F X). unfold parity in *. lia.
Qed.
End finish.

Section decode.
#[local] Open Scope Zmod_scope.

(** The function returns 0 with the negated point when the bytes have one,
    and -1, T untouched, when no point has this y. *)
Lemma ge_frombytes_negate_vartime_spec h s : bytes_wf s -> (32 <= zlen s)%Z ->
  wp (ge_frombytes_negate_vartime h s) (fun r =>
    (r.1 = 0%Z /\ exists Q, r.2 ⊨ Q /\ decodes_neg s Q) \/
    (r.1 = (-1)%Z /\
      (fe_bd 101 (p3_X r.2) /\ fe_bd 101 (p3_Y r.2) /\ p3_Z r.2 = fe_1 /\ p3_T r.2 = p3_T h) /\
      forall Q, py Q <> decoded_y s)).
Proof.
  intros Hs Hl. unfold ge_frombytes_negate_vartime.
  pose proof fe_bd_d. pose proof fe_F_d. assert (fe_bd 1 fe_1) by (by apply fe_bdb_spec).
  pose proof fe_F_1. pose proof fe_bd_sqrtm1. pose proof fe_F_sqrtm1 as Hi.
  do 15 fe_step.
  assert (fe_F h3 = dec_u (decoded_y s)) as Eu by (fe_eqs; reflexivity).
  assert (fe_F h4 = dec_v (decoded_y s)) as Ev by (fe_eqs; reflexivity).
  assert (fe_F h9 = dec_w (decoded_y s)) as Ew.
  { rewrite E8, E7, E6, E5, E4, Eu, Ev. unfold dec_w. cbv zeta. ring. }
  assert (fe_F h12 = dec_root (decoded_y s)) as Er.
  { rewrite E11, E10, E9, E5, E4, Eu, Ev, Ew. unfold dec_root, dec_k. cbv zeta. ring. }
  assert (fe_F h14 = dec_v (decoded_y s) * (dec_root (decoded_y s) * dec_root (decoded_y s))) as Ex.
  { rewrite E13, E12, Er, Ev. ring. }
  fe_step. rewrite fe_isnonzero_spec by fe_bound. rewrite E14, Ex, Eu.
  destruct (decide (_ = 0)) as [Hz|Hz]; cbn [negb Z.eqb].
  { eapply wp_mono; [apply frombytes_finish_spec; try assumption|by left].
    rewrite E, Er. by apply curve_y, F_sub_0. }
  fe_step. rewrite fe_isnonzero_spec by fe_bound. rewrite E15, Ex, Eu.
  destruct (decide (_ = 0)) as [Hz'|Hz']; cbn [negb Z.eqb].
  - fe_step. eapply wp_mono; [apply frombytes_finish_spec; try assumption|by left].
    rewrite E16, E, Er, Hi. by apply curve_y, root_adjust, F_add_0.
  - right. cbn [fst snd p3_X p3_Y p3_Z p3_T]. split_and!; [done..|]. intros Q HQ.
    pose proof (coords_on Q) as Hon. unfold py in HQ. destruct (coords Q) as [xq yq]. cbn in HQ. subst yq.
    apply curve_y in Hon. apply root_complete in Hon as [Hr|Hr].
    + by apply Hz, F_sub_0.
    + by apply Hz', F_add_0.
Qed.
End decode.

(** * Round trip *)
Lemma le_decode_take_mod s : bytes_wf s -> 32 <= zlen s ->
  le_decode s mod 2 ^ 256 = le_decode (take 32 s).
Proof.
  intros Hs Hl. rewrite <- (take_drop 32 s) at 1. rewrite le_decode_app, length_take.
  pose proof (le_decode_bound _ (bytes_wf_take 32 _ Hs)) as Hb. rewrite length_take in Hb.
  replace (Z.of_nat (32 `min` length s)) with 32 in * by lia. change (256 ^ 32) with (2 ^ 256) in *.
  rewrite Z.mul_comm, Z.mod_add, Z.mod_small; lia.
Qed.

Lemma decoded_y_take s : bytes_wf s -> 32 <= zlen s -> decoded_y s = decoded_y (take 32 s).
Proof.
  intros Hs Hl. unfold decoded_y. rewrite <- le_decode_take_mod by done. f_equal.
  symmetry. apply Z.mod_mod_divide. by exists 2.
Qed.

Lemma decoded_y_point_bytes P : decoded_y (point_bytes P) = py P.
Proof.
  unfold decoded_y. rewrite le_decode_point_bytes. unfold point_val.
  pose proof (F_range_255 (py P)). rewrite Z.mul_comm, Z.mod_add, Z.mod_small by lia.
  apply Zmod.of_Z_to_Z.
Qed.

Lemma point_bytes_31 P s31 : point_bytes P !! 31%nat = Some s31 -> Z.shiftr s31 7 = parity (px P).
Proof.
  unfold point_bytes. rewrite (le_encode_snoc 31), lookup_app_r by (rewrite length_le_encode; lia).
  rewrite length_le_encode. cbn [Nat.sub lookup list_lookup]. intros [= <-].
  pose proof (point_val_range P). pose proof (F_range_255 (py P)).
  change (256 ^ Z.of_nat 31) with (2 ^ 248).
  assert (0 <= point_val P / 2 ^ 248 < 256).
  { split; [apply Z.div_pos; lia|]. apply Z.div_lt_upper_bound; lia. }
  rewrite u8_small, Z.shiftr_div_pow2, Z.div_div by (unfold is_byte; lia).
  change (2 ^ 248 * 2 ^ 7) with (2 ^ 255). unfold point_val.
  rewrite Z.mul_comm, Z.div_add, Z.div_small by lia. done.
Qed.

Lemma decodes_neg_point_bytes s P Q : bytes_wf s -> take 32 s = point_bytes P -> decodes_neg s Q -> Q = popp P.
Proof.
  intros Hs Hp [Hy (s31 & E31 & Hx)].
  assert (32 <= zlen s).
  { pose proof (f_equal length Hp) as El. rewrite length_take, length_point_bytes in El. lia. }
  rewrite decoded_y_take, Hp, decoded_y_point_bytes in Hy by done.
  rewrite <- (lookup_take_lt s 32 31) in E31 by lia. rewrite Hp in E31. apply point_bytes_31 in E31.
  apply point_eq; [|by rewrite py_popp]. rewrite px_popp.
  pose proof (coords_on P) as HP. pose proof (coords_on Q) as HQ. unfold px, py in *.
  destruct (coords P) as [x1 y1], (coords Q) as [x2 y2]. cbn [fst snd] in *. subst y2.
  apply curve_y in HP, HQ. destruct (same_y y1 x2 x1 HQ HP) as [E|E]; [|exact E].
  destruct Hx as [Hx|Hx]; [rewrite Hx in *; rewrite <- E; ring|].
  rewrite E in *. pose proof (parity_range x1). lia.
Qed.

Lemma point_bytes_decodes s P : bytes_wf s -> take 32 s = point_bytes P -> decodes_neg s (popp P).
Proof.
  intros Hs Hp. assert (32 <= zlen s).
  { pose proof (f_equal length Hp) as El. rewrite length_take, length_point_bytes in El. lia. }
  split; [by rewrite py_popp, decoded_y_take, Hp, decoded_y_point_bytes|].
  destruct (lookup_lt_is_Some_2 s 31 ltac:(lia)) as [s31 E31]. exists s31. split; [done|].
  rewrite <- (lookup_take_lt s 32 31) in E31 by lia. rewrite Hp in E31. apply point_bytes_31 in E31.
  rewrite px_popp, E31. destruct (decide (px P = Zmod.zero)) as [->|Hx]; [left; ring|right; by apply parity_opp].
Qed.

(** Decompression inverts compression, up to the sign the caller expects. *)
Lemma frombytes_point_bytes h s P : bytes_wf s -> take 32 s = point_bytes P ->
  wp (ge_frombytes_negate_vartime h s) (fun r => r.1 = 0 /\ r.2 ⊨ popp P).
Proof.
  intros Hs Hp. assert (32 <= zlen s).
  { pose proof (f_equal length Hp) as El. rewrite length_take, length_point_bytes in El. lia. }
  eapply wp_mono; [by apply ge_frombytes_negate_vartime_spec|].
  intros r [[Hr (Q & HQ & Hd)]|(_ & _ & Hn)].
  - split; [done|]. by rewrite <- (decodes_neg_point_bytes s P Q).
  - destruct (Hn P). by rewrite decoded_y_take, Hp, decoded_y_point_bytes.
Qed.

(** Points are determined by their encoding. *)
Lemma point_bytes_inj P Q : point_bytes P = point_bytes Q -> P = Q.
Proof.
  intros H.
  assert (take 32 (point_bytes P) = point_bytes P) as Ht.
  { apply take_ge. rewrite length_point_bytes. lia. }
  assert (exists R, decodes_neg (point_bytes P) R) as [R HR].
  { pose proof (frombytes_point_bytes ge_p3_0 (point_bytes P) P (point_bytes_wf P) Ht) as Hw.
    pose proof (ge_frombytes_negate_vartime_spec ge_p3_0 (point_bytes P) (point_bytes_wf P)) as Hs.
    rewrite length_point_bytes in Hs. specialize (Hs ltac:(lia)).
    apply wp_some in Hw as (r & Er & Hr & _). rewrite Er in Hs. cbn [wp] in Hs.
    destruct Hs as [(_ & R & _ & HR)|(Hr' & _)]; [by exists R|]. rewrite Hr in Hr'. done. }
  assert (popp P = popp Q) as E.
  { rewrite <- (decodes_neg_point_bytes (point_bytes P) P R (point_bytes_wf P) Ht HR).
    apply (decodes_neg_point_bytes (point_bytes P)); [apply point_bytes_wf|by rewrite Ht|exact HR]. }
  rewrite <- (ab_opp_opp (G:=point_group) P), <- (ab_opp_opp (G:=point_group) Q). by rewrite E.
Qed.
