(* ===== verification/GeTable.v ===== *)
(** The precomputed tables are right: [base[i][j]] represents (j+1)*256^i*B
    and [Bi[k]] represents (2k+1)*B.  Each entry is checked against the
    previous one by the addition law with the denominators multiplied out, the
    first entry of a row against the last of the row before by five doublings;
    the arithmetic is that of the integers, reduced with 2^255 = 19. *)
From S2P Require Import Prelude CInt Fe Prime25519 FeSpec FeBytes Curve GeData Ge GeSpec.
#[local] Open Scope Z_scope.
#[local] Opaque Zmod.mul Zmod.add Zmod.sub Zmod.opp Zmod.inv Zmod.mdiv Zmod.pow.

(** * Integers modulo p *)
Definition eqm (a b : Z) : bool :=
  let z := fold255 (a - b) in (z =? 0) || (z =? p25519) || (z =? - p25519).

Lemma eqm_ofZ a b : eqm a b = true -> ofZ a = ofZ b.
Proof.
  unfold eqm. intros H. assert (ofZ (fold255 (a - b)) = ofZ 0) as E.
  { rewrite !orb_true_iff, !Z.eqb_eq in H. destruct H as [[-> | ->] | ->]; [done| |].
    - apply (ofZ_congr _ _ 1). lia.
    - apply (ofZ_congr _ _ (-1)). lia. }
  rewrite ofZ_fold255, ofZ_sub in E. apply F_sub_0. exact E.
Qed.

(** * The base point *)
Definition BxZ : Z := 15112221349535400772501151409588531511454012693041857206046113283949847762202.
Definition ByZ : Z := 46316835694926478169428394003475163141307993866256225615783033603165251855960.

Lemma base_point_on : on_curve (ofZ BxZ, ofZ ByZ).
Proof.
  apply on_curve_eq. unfold curve_d. change (1%Zmod : F) with (ofZ 1). change (0%Zmod : F) with (ofZ 0).
  rewrite <- !ofZ_mul, <- !ofZ_sub. apply ofZ_inj. vm_compute. reflexivity.
Qed.
(** The base point B = (x, 4/5), x positive. *)
Definition base_point : point := dexist _ base_point_on.

Lemma base_point_y : (py base_point * ofZ 5 = ofZ 4)%Zmod.
Proof. change (py base_point) with (ofZ ByZ). rewrite <- ofZ_mul. apply ofZ_inj. vm_compute. reflexivity. Qed.

(** * One entry from another *)
Section entries.
#[local] Open Scope Zmod_scope.
Context (P Q : point) (a1 b1 c1 a2 b2 a3 b3 c3 : F).
Let two : F := 1 + 1.

Lemma half_split (a b x y : F) : a - b = two * x -> a + b = two * y -> a = y + x /\ b = y - x.
Proof.
  intros Hd Hs. split; apply (F_cancel two); try apply two_neq_0.
  - transitivity (a - b + (a + b)); [unfold two; ring|]. rewrite Hd, Hs. ring.
  - transitivity (a + b - (a - b)); [unfold two; ring|]. rewrite Hd, Hs. ring.
Qed.

Lemma precomp_third R : a3 - b3 = two * px R -> a3 + b3 = two * py R ->
  two * c3 = curve_d * ((a3 - b3) * (a3 + b3)) -> c3 = two * curve_d * px R * py R.
Proof using.
  intros Hd Hs Hc. apply (F_cancel two); [apply two_neq_0|]. rewrite Hc, Hd, Hs. ring.
Qed.

Hypothesis (E1 : a1 = py P + px P /\ b1 = py P - px P /\ c1 = two * curve_d * px P * py P).
Hypothesis (E2 : a2 = py Q + px Q /\ b2 = py Q - px Q).

Lemma precomp_sum :
  (a3 - b3) * (two * two * two + c1 * (a2 * a2 - b2 * b2)) = two * two * two * (a1 * a2 - b1 * b2) ->
  (a3 + b3) * (two * two * two - c1 * (a2 * a2 - b2 * b2)) = two * two * two * (a1 * a2 + b1 * b2) ->
  a3 - b3 = two * px (padd P Q) /\ a3 + b3 = two * py (padd P Q).
Proof.
  destruct E1 as (-> & -> & ->), E2 as (-> & ->). intros Hx Hy.
  destruct (padd_equations P Q) as (Ex & Ey & NZ & NT). pose proof two_neq_0 as N2. fold two in N2. split.
  - apply (F_cancel (two * two * two * (1 + curve_d * px P * px Q * py P * py Q))); [F_neq|].
    transitivity (two * two * two * (two * (px P * py Q + py P * px Q))).
    + etransitivity; [|etransitivity; [exact Hx|]]; unfold two; ring.
    + rewrite Ex. ring.
  - apply (F_cancel (two * two * two * (1 - curve_d * px P * px Q * py P * py Q))); [F_neq|].
    transitivity (two * two * two * (two * (py P * py Q + px P * px Q))).
    + etransitivity; [|etransitivity; [exact Hy|]]; unfold two; ring.
    + rewrite Ey. ring.
Qed.
End entries.

(** The entry [g3] against [g1], whose point it adds to that of [(a2, b2)];
    [q] is a2^2 - b2^2. *)
Definition third_ok (s t c : Z) : bool := eqm (2 * c) (mulm dZ (mulm s t)).
Definition bounds_ok (g : ge_precomp) : bool :=
  fe_bdb 101 (yplusx g) && fe_bdb 101 (yminusx g) && fe_bdb 101 (xy2d g).
Definition sum_ok (a2 b2 q : Z) (g1 g3 : ge_precomp) : bool :=
  let aa := mulm (fe_val (yplusx g1)) a2 in
  let bb := mulm (fe_val (yminusx g1)) b2 in
  let e := mulm (fe_val (xy2d g1)) q in
  let s := fe_val (yplusx g3) - fe_val (yminusx g3) in
  let t := fe_val (yplusx g3) + fe_val (yminusx g3) in
  bounds_ok g3 && eqm (mulm s (8 + e)) (8 * (aa - bb)) && eqm (mulm t (8 - e)) (8 * (aa + bb)) &&
  third_ok s t (fe_val (xy2d g3)).

Lemma ofZ_2 : ofZ 2 = (1 + 1)%Zmod.
Proof. apply (ofZ_add 1 1). Qed.
Lemma ofZ_8 : ofZ 8 = ((1 + 1) * (1 + 1) * (1 + 1))%Zmod.
Proof. rewrite <- ofZ_2, <- !ofZ_mul. reflexivity. Qed.

Ltac mod_norm H :=
  apply eqm_ofZ in H; rewrite ?ofZ_mulm, ?ofZ_mul, ?ofZ_add, ?ofZ_sub, ?ofZ_mulm, ?ofZ_2, ?ofZ_8 in H.

Lemma bounds_ok_spec g P : bounds_ok g = true ->
  (fe_F (yplusx g) - fe_F (yminusx g) = (1 + 1) * px P)%Zmod ->
  (fe_F (yplusx g) + fe_F (yminusx g) = (1 + 1) * py P)%Zmod ->
  third_ok (fe_val (yplusx g) - fe_val (yminusx g)) (fe_val (yplusx g) + fe_val (yminusx g)) (fe_val (xy2d g)) = true ->
  g ⊨ P.
Proof.
  unfold bounds_ok, third_ok. rewrite !andb_true_iff. intros [[H1 H2] H3] Hd Hs Ht. mod_norm Ht.
  destruct (half_split _ _ _ _ Hd Hs). split; try assumption; try (apply fe_bdb_spec; assumption).
  apply (precomp_third _ _ _ P Hd Hs Ht).
Qed.

Lemma sum_ok_spec a2 b2 q g1 g3 P Q : g1 ⊨ P ->
  ofZ a2 = (py Q + px Q)%Zmod -> ofZ b2 = (py Q - px Q)%Zmod -> ofZ q = (ofZ a2 * ofZ a2 - ofZ b2 * ofZ b2)%Zmod ->
  sum_ok a2 b2 q g1 g3 = true -> g3 ⊨ padd P Q.
Proof.
  intros [_ _ _ E1 E2 E3] Ea Eb Eq. unfold sum_ok. rewrite !andb_true_iff. intros [[[Hb Hx] Hy] Ht].
  mod_norm Hx. mod_norm Hy. rewrite Eq in Hx, Hy.
  destruct (precomp_sum P Q (fe_F (yplusx g1)) (fe_F (yminusx g1)) (fe_F (xy2d g1)) (ofZ a2) (ofZ b2)
    (fe_F (yplusx g3)) (fe_F (yminusx g3))); try (split_and!; assumption); try assumption.
  apply bounds_ok_spec; assumption.
Qed.

(** * Doublings *)
(** (X, Y, Z) with x = X/Z and y = Y/Z. *)
Definition proj (v : Z * Z * Z) (P : point) : Prop :=
  let '(X, Y, Zc) := v in
  ofZ Zc <> Zmod.zero /\ ofZ X = (px P * ofZ Zc)%Zmod /\ ofZ Y = (py P * ofZ Zc)%Zmod.
Definition dbl (v : Z * Z * Z) : Z * Z * Z :=
  let '(X, Y, Zc) := v in
  let xx := mulm X X in
  let yy := mulm Y Y in
  let z := yy - xx in
  let t := 2 * mulm Zc Zc - z in
  (mulm (2 * mulm X Y) t, mulm (yy + xx) z, mulm z t).

Lemma dbl_spec v P : proj v P -> proj (dbl v) (padd P P).
Proof.
  destruct v as [[X Y] Zc]. unfold proj, dbl. intros (H0 & HX & HY). pose proof (point_curve P) as Hc.
  destruct (completed_add P P (ofZ Zc * ofZ Zc)%Zmod (ofZ (2 * mulm X Y)) (ofZ (mulm Y Y + mulm X X))
    (ofZ (mulm Y Y - mulm X X)) (ofZ (2 * mulm Zc Zc - (mulm Y Y - mulm X X)))) as (NZ & NT & EX & EY).
  { F_neq. }
  1-4: rewrite ?ofZ_sub, ?ofZ_add, ?ofZ_mul, ?ofZ_sub, ?ofZ_mulm, ?ofZ_2, HX, HY.
  3: transitivity (ofZ Zc * ofZ Zc * (py P * py P - px P * px P))%Zmod; [ring|rewrite Hc; ring].
  3: transitivity (ofZ Zc * ofZ Zc * (1 + 1 - (py P * py P - px P * px P)))%Zmod; [ring|rewrite Hc; ring].
  1-2: ring.
  rewrite !(ofZ_mulm _ (2 * _ - _)), (ofZ_mulm (mulm Y Y + _)), EX, EY. split_and!; [F_neq|ring|ring].
Qed.

Definition double_ok (g1 g2 : ge_precomp) : bool :=
  let v := (fe_val (yplusx g1) - fe_val (yminusx g1), fe_val (yplusx g1) + fe_val (yminusx g1), 2) in
  let '(X, Y, Zc) := dbl (dbl (dbl (dbl (dbl v)))) in
  let s := fe_val (yplusx g2) - fe_val (yminusx g2) in
  let t := fe_val (yplusx g2) + fe_val (yminusx g2) in
  bounds_ok g2 && eqm (mulm s Zc) (2 * X) && eqm (mulm t Zc) (2 * Y) && third_ok s t (fe_val (xy2d g2)).

Lemma padd_self P n : padd (n *! P) (n *! P) = (2 * n) *! P.
Proof. rewrite <- (z_mul_add (G:=point_group)). f_equal. lia. Qed.

Lemma double_ok_spec g1 g2 P n : g1 ⊨ n *! P -> double_ok g1 g2 = true -> g2 ⊨ (32 * n) *! P.
Proof.
  intros [_ _ _ Ep Em _] H. unfold double_ok in H.
  set (v := (_, _, 2)) in H.
  assert (proj v (n *! P)) as Hv.
  { unfold proj, v. rewrite ofZ_sub, ofZ_add, ofZ_2. fold (fe_F (yplusx g1)). fold (fe_F (yminusx g1)).
    rewrite Ep, Em. split_and!; [apply two_neq_0|ring|ring]. }
  do 5 (apply dbl_spec in Hv; rewrite padd_self in Hv).
  replace (2 * (2 * (2 * (2 * (2 * n))))) with (32 * n) in Hv by lia.
  destruct (dbl _) as [[X Y] Zc]. destruct Hv as (HZ & HX & HY).
  rewrite !andb_true_iff in H. destruct H as [[[Hb Hx] Hy] Ht]. mod_norm Hx. mod_norm Hy.
  fold (fe_F (yplusx g2)) in Hx, Hy. fold (fe_F (yminusx g2)) in Hx, Hy.
  apply bounds_ok_spec; try assumption; apply (F_cancel (ofZ Zc)); try assumption.
  - etransitivity; [|etransitivity; [exact Hx|]]; [ring|]. rewrite HX. ring.
  - etransitivity; [|etransitivity; [exact Hy|]]; [ring|]. rewrite HY. ring.
Qed.

(** * Rows *)
Fixpoint steps_ok (a2 b2 q : Z) (g : ge_precomp) (l : list ge_precomp) : bool :=
  match l with
  | [] => true
  | g' :: l' => sum_ok a2 b2 q g g' && steps_ok a2 b2 q g' l'
  end.
(** [l] continues [g] in steps of the point of [h]. *)
Definition progression_ok (h g : ge_precomp) (l : list ge_precomp) : bool :=
  let a2 := fe_val (yplusx h) in
  let b2 := fe_val (yminusx h) in
  steps_ok a2 b2 (mulm a2 a2 - mulm b2 b2) g l.
Definition row_ok (row : list ge_precomp) : bool :=
  match row with [] => false | g :: l => progression_ok g g l && (length l =? 7)%nat end.
Fixpoint rows_ok (row : list ge_precomp) (rows : list (list ge_precomp)) : bool :=
  match rows with
  | [] => true
  | row' :: rows' =>
      match row !! 7%nat, row' !! 0%nat with
      | Some g1, Some g2 => double_ok g1 g2 && row_ok row' && rows_ok row' rows'
      | _, _ => false
      end
  end.

Lemma steps_ok_spec a2 b2 q Q P m n g l k g' :
  ofZ a2 = (py (n *! Q) + px (n *! Q))%Zmod -> ofZ b2 = (py (n *! Q) - px (n *! Q))%Zmod ->
  ofZ q = (ofZ a2 * ofZ a2 - ofZ b2 * ofZ b2)%Zmod -> P = m *! Q ->
  g ⊨ P -> steps_ok a2 b2 q g l = true -> (g :: l) !! k = Some g' -> g' ⊨ (m + Z.of_nat k * n) *! Q.
Proof.
  intros Ha Hb Hq. revert P m g k. induction l as [|g1 l IH]; intros P m g k HP Hg Hok Hk.
  - destruct k; [|done]. injection Hk as <-. by rewrite Z.add_0_r, <- HP.
  - destruct k as [|k]; [injection Hk as <-; by rewrite Z.add_0_r, <- HP|].
    cbn [steps_ok] in Hok. apply andb_true_iff in Hok as [H1 H2].
    pose proof (sum_ok_spec _ _ _ _ _ _ _ Hg Ha Hb Hq H1) as Hg1.
    rewrite HP, <- (z_mul_add (G:=point_group)) in Hg1.
    replace (m + Z.of_nat (S k) * n) with (m + n + Z.of_nat k * n) by lia.
    by apply (IH _ (m + n) g1 k eq_refl Hg1).
Qed.

Lemma progression_ok_spec h g l Q m n k g' : h ⊨ n *! Q -> g ⊨ m *! Q ->
  progression_ok h g l = true -> (g :: l) !! k = Some g' -> g' ⊨ (m + Z.of_nat k * n) *! Q.
Proof.
  intros [_ _ _ Ep Em _] Hg Hok. unfold progression_ok in Hok.
  eapply steps_ok_spec; [exact Ep|exact Em| |reflexivity|exact Hg|exact Hok].
  rewrite ofZ_sub, !ofZ_mulm. reflexivity.
Qed.

Lemma row_ok_spec row Q m g j g' : row !! 0%nat = Some g -> g ⊨ m *! Q -> row_ok row = true ->
  row !! j = Some g' -> g' ⊨ ((Z.of_nat j + 1) * m) *! Q.
Proof.
  destruct row as [|g0 l]; [done|]. intros [= ->] Hg Hok Hj. unfold row_ok in Hok.
  apply andb_true_iff in Hok as [Hok _].
  replace ((Z.of_nat j + 1) * m) with (m + Z.of_nat j * m) by lia. by eapply progression_ok_spec.
Qed.

Lemma rows_ok_spec rows row Q m i j row' g g' : row !! 0%nat = Some g -> g ⊨ m *! Q ->
  row_ok row = true -> rows_ok row rows = true ->
  (row :: rows) !! i = Some row' -> row' !! j = Some g' ->
  g' ⊨ ((Z.of_nat j + 1) * 256 ^ Z.of_nat i * m) *! Q.
Proof.
  revert row m i g. induction rows as [|row1 rows IH]; intros row m i g H0 Hg Hr Hrs Hi Hj.
  { destruct i; [|done]. injection Hi as <-. rewrite Z.mul_1_r. by eapply row_ok_spec. }
  destruct i as [|i]; [injection Hi as <-; rewrite Z.mul_1_r; by eapply row_ok_spec|].
  cbn [rows_ok] in Hrs. destruct (row !! 7%nat) as [g7|] eqn:E7; [|done].
  destruct (row1 !! 0%nat) as [g1|] eqn:E1; [|done].
  rewrite !andb_true_iff in Hrs. destruct Hrs as [[Hd Hr1] Hrs].
  pose proof (row_ok_spec _ _ _ _ _ _ H0 Hg Hr E7) as H7.
  pose proof (double_ok_spec _ _ _ _ H7 Hd) as H1.
  pose proof (IH _ _ i _ E1 H1 Hr1 Hrs Hi Hj) as H.
  replace ((Z.of_nat j + 1) * 256 ^ Z.of_nat (S i) * m)
    with ((Z.of_nat j + 1) * 256 ^ Z.of_nat i * (32 * ((Z.of_nat 7 + 1) * m))); [exact H|].
  change (Z.of_nat 7) with 7. rewrite Nat2Z.inj_succ, Z.pow_succ_r by lia. lia.
Qed.

(** * The tables *)
Definition table_ok (t : list (list ge_precomp)) : bool :=
  match t with [] => false | row :: rows => row_ok row && rows_ok row rows end.

(** [t] runs from its first entry in steps of the second entry of [row]. *)
Definition odd_ok (row t : list ge_precomp) : bool :=
  match row !! 1%nat, t with Some h, g :: l => progression_ok h g l | _, _ => false end.

Lemma table_ok_spec t Q row0 g0 i j row g :
  t !! 0%nat = Some row0 -> row0 !! 0%nat = Some g0 -> g0 ⊨ 1 *! Q -> table_ok t = true ->
  t !! i = Some row -> row !! j = Some g -> g ⊨ ((Z.of_nat j + 1) * 256 ^ Z.of_nat i) *! Q.
Proof.
  destruct t as [|row1 rows]; [done|]. intros [= ->] E0 H0 H Hi Hj. unfold table_ok in H.
  apply andb_true_iff in H as [Hr Hrs].
  pose proof (rows_ok_spec _ _ _ 1 i j row _ g E0 H0 Hr Hrs Hi Hj) as H. by rewrite Z.mul_1_r in H.
Qed.

Lemma odd_ok_spec row t Q h g0 k g : row !! 1%nat = Some h -> h ⊨ 2 *! Q ->
  t !! 0%nat = Some g0 -> g0 ⊨ 1 *! Q -> odd_ok row t = true ->
  t !! k = Some g -> g ⊨ (2 * Z.of_nat k + 1) *! Q.
Proof.
  intros E1 Hh E0 H0 H Hk. unfold odd_ok in H. rewrite E1 in H. destruct t as [|g1 l]; [done|].
  injection E0 as ->. replace (2 * Z.of_nat k + 1) with (1 + Z.of_nat k * 2) by lia.
  apply (progression_ok_spec h g0 l Q 1 2 k g); assumption.
Qed.

Lemma base_ok : table_ok base = true.
Proof. vm_cast_no_check (eq_refl true). Qed.

Lemma Bi_ok : odd_ok base_0 Bi = true.
Proof. vm_cast_no_check (eq_refl true). Qed.

Definition entry_1 : ge_precomp := Eval cbv in default (GePrecomp fe_0 fe_0 fe_0) (base_0 !! 0%nat).
Definition entry_2 : ge_precomp := Eval cbv in default (GePrecomp fe_0 fe_0 fe_0) (base_0 !! 1%nat).

Lemma entry_1_spec : entry_1 ⊨ 1 *! base_point.
Proof.
  apply bounds_ok_spec; [reflexivity| | |vm_compute; reflexivity].
  - change (px (1 *! base_point)) with (ofZ BxZ). unfold fe_F.
    rewrite <- ofZ_2, <- ofZ_mul, <- ofZ_sub. apply ofZ_inj. vm_compute. reflexivity.
  - change (py (1 *! base_point)) with (ofZ ByZ). unfold fe_F.
    rewrite <- ofZ_2, <- ofZ_mul, <- ofZ_add. apply ofZ_inj. vm_compute. reflexivity.
Qed.

(** [base[i][j] = (j+1)*256^i*B]. *)
Lemma base_spec i j row g : base !! i = Some row -> row !! j = Some g ->
  g ⊨ ((Z.of_nat j + 1) * 256 ^ Z.of_nat i) *! base_point.
Proof. exact (table_ok_spec base base_point base_0 entry_1 i j row g eq_refl eq_refl entry_1_spec base_ok). Qed.

(** [Bi[k] = (2k+1)*B]. *)
Lemma Bi_spec k g : Bi !! k = Some g -> g ⊨ (2 * Z.of_nat k + 1) *! base_point.
Proof.
  exact (odd_ok_spec base_0 Bi base_point entry_2 entry_1 k g eq_refl
    (base_spec 0 1 base_0 entry_2 eq_refl eq_refl) eq_refl entry_1_spec Bi_ok).
Qed.

Lemma base_shape : Forall (fun row => length row = 8%nat) base /\ length base = 32%nat /\ length Bi = 8%nat.
Proof. split; [repeat constructor|done]. Qed.
