(* ===== verification/GeMul.v ===== *)
(** Fixed-base multiplication: [ge_scalarmult_base] computes a*B.  The recoded
    digits lie between -8 and 8 and keep the value of the scalar, [select]
    picks their multiple from the table in the same steps for every digit, and
    the two loops of additions with four doublings between them add up to the
    scalar. *)
From S2P Require Import Prelude CInt Fe Prime25519 FeSpec FeBytes ScSpec Curve GeData Ge GeSpec GeTable.
#[local] Open Scope Z_scope.
#[local] Opaque Zmod.mul Zmod.add Zmod.sub Zmod.opp Zmod.inv Zmod.mdiv Zmod.pow.

(** * Digits *)
Fixpoint digits_val (r : Z) (e : list Z) : Z :=
  match e with [] => 0 | x :: e' => x + r * digits_val r e' end.

Lemma digits_val_app r e e' : digits_val r (e ++ e') = digits_val r e + r ^ zlen e * digits_val r e'.
Proof.
  induction e as [|x e IH]; [simpl digits_val; cbn [app length Z.of_nat]; lia|].
  cbn [app digits_val]. rewrite IH, length_cons, Nat2Z.inj_succ, Z.pow_succ_r by lia. ring.
Qed.

Lemma i8_small z : -128 <= z < 128 -> i8 z = z.
Proof. intros H. unfold i8. change (2 ^ 7) with 128. change (2 ^ 8) with 256. rewrite Z.mod_small; lia. Qed.

Lemma nibbles_spec a : bytes_wf a -> 32 <= zlen a ->
  wp (nibbles a) (fun e => length e = 64%nat /\ Forall (fun x => 0 <= x <= 15) e /\
    digits_val 16 e = le_decode (take 32 a)).
Proof.
  intros Ha Hl. unfold nibbles. rewrite bytes_at_Some by lia. cbn [wp].
  change (Z.to_nat 32) with 32%nat.
  assert (length (take 32 a) = 32%nat) as E by (rewrite length_take; lia).
  pose proof (bytes_wf_take 32 a Ha) as Hw. revert E Hw. generalize (take 32 a). clear.
  assert (forall l, bytes_wf l ->
    let e := mjoin ((fun x => [Z.land (Z.shiftr x 0) 15; Z.land (Z.shiftr x 4) 15]) <$> l) in
    length e = (2 * length l)%nat /\ Forall (fun x => 0 <= x <= 15) e /\ digits_val 16 e = le_decode l) as H.
  { induction 1 as [|x l Hx _ IH]; [done|]. destruct IH as (H1 & H2 & H3).
    rewrite fmap_cons. cbv zeta in *. set (e := mjoin _) in *.
    change (mjoin (_ :: _)) with ([Z.land (Z.shiftr x 0) 15; Z.land (Z.shiftr x 4) 15] ++ e).
    cbn [app length]. 
    assert (forall z, Z.land z 15 = z mod 2 ^ 4) as El by (intros; apply (Z.land_ones _ 4); lia).
    rewrite !El, Z.shiftr_0_r, Z.shiftr_div_pow2 by lia.
    unfold is_byte in Hx. pose proof (Z.div_mod x (2 ^ 4)). pose proof (Z.mod_pos_bound x (2 ^ 4)).
    assert (0 <= x / 2 ^ 4 < 16) by lia. rewrite (Z.mod_small (x / 2 ^ 4)) by lia.
    split_and!; [lia|do 2 (apply Forall_cons; split; [lia|]); done|]. cbn [digits_val le_decode]. lia. }
  intros l El Hw. destruct (H l Hw) as (H1 & H2 & H3). rewrite El in H1. done.
Qed.

Lemma recode_spec n carry e :
  length e = S n -> 0 <= carry <= 1 -> Forall (fun x => 0 <= x <= 15) e ->
  digits_val 16 e < 8 * 16 ^ Z.of_nat n ->
  Forall (fun x => -8 <= x <= 8) (recode n carry e) /\ length (recode n carry e) = S n /\
  digits_val 16 (recode n carry e) = digits_val 16 e + carry.
Proof.
  revert carry e. induction n as [|n IH]; intros carry [|x e] Hl Hc He Hv; try done; inversion He as [|? ? Hx He']; subst.
  - destruct e; [|done]. cbn [recode digits_val] in *. rewrite i8_small by lia.
    split_and!; [apply Forall_singleton; lia|done|lia].
  - cbn [recode]. rewrite (i8_small (x + carry)), (i8_small (x + carry + 8)) by lia.
    rewrite Z.shiftr_div_pow2, Z.shiftl_mul_pow2 by lia. set (c := (x + carry + 8) / 2 ^ 4).
    pose proof (Z.div_mod (x + carry + 8) (2 ^ 4)) as Hd. pose proof (Z.mod_pos_bound (x + carry + 8) (2 ^ 4)) as Hm.
    fold c in Hd. assert (0 <= c <= 1) as Hc' by lia.
    rewrite i8_small by lia. cbn [digits_val] in *.
    rewrite Nat2Z.inj_succ, Z.pow_succ_r in Hv by lia.
    destruct (IH c e) as (H1 & H2 & H3); [by injection Hl|lia|done|lia|].
    split_and!; [apply Forall_cons; split; [lia|done]|by rewrite length_cons, H2|]. lia.
Qed.

(** * The table lookup *)
Definition pre_bd (g : ge_precomp) : Prop :=
  fe_bd 101 (yplusx g) /\ fe_bd 101 (yminusx g) /\ fe_bd 101 (xy2d g).

Lemma pre_bd_rep (g : ge_precomp) P : g ⊨ P -> pre_bd g.
Proof. intros []. split_and!; assumption. Qed.

Lemma cmov_spec t u b : pre_bd t -> pre_bd u -> b = 0 \/ b = 1 -> cmov t u b = if b =? 1 then u else t.
Proof.
  intros (?&?&?) (?&?&?) Hb. unfold cmov.
  rewrite !fe_cmov_spec by (assumption || (apply (fe_bd_i32 101); [lia|assumption])).
  destruct t, u. by destruct (b =? 1).
Qed.

Lemma equal_spec babs k : 0 <= babs <= 8 -> (k < 8)%nat ->
  equal (i8 babs) (Z.of_nat k + 1) = if babs =? Z.of_nat k + 1 then 1 else 0.
Proof.
  intros Hb Hk.
  assert (forallb (fun b => forallb (fun k => equal (i8 b) (Z.of_nat k + 1) =? if b =? Z.of_nat k + 1 then 1 else 0)
    (seq 0 8)) (seqZ 0 9) = true) as H by (vm_compute; reflexivity).
  rewrite forallb_forall in H. specialize (H babs). rewrite <- list_elem_of_In, elem_of_seqZ in H.
  specialize (H ltac:(lia)). rewrite forallb_forall in H. specialize (H k). rewrite in_seq in H.
  apply Z.eqb_eq, H. lia.
Qed.

Lemma negative_spec b : -8 <= b <= 8 ->
  negative b = (if b <? 0 then 1 else 0) /\ u8 (b - Z.land (- negative b) b * 2) = Z.abs b.
Proof.
  intros Hb.
  assert (forallb (fun b => (negative b =? if b <? 0 then 1 else 0) && (u8 (b - Z.land (- negative b) b * 2) =? Z.abs b))
    (seqZ (-8) 17) = true) as H by (vm_compute; reflexivity).
  rewrite forallb_forall in H. specialize (H b). rewrite <- list_elem_of_In, elem_of_seqZ in H.
  specialize (H ltac:(lia)). rewrite andb_true_iff, !Z.eqb_eq in H. exact H.
Qed.

Lemma select_entry_spec row babs k u t : row !! k = Some u -> pre_bd u -> pre_bd t ->
  0 <= babs <= 8 -> (k < 8)%nat ->
  select_entry row babs k t = Some (if babs =? Z.of_nat k + 1 then u else t).
Proof.
  intros Hk Hu Ht Hb Hk8. unfold select_entry. rewrite Hk, equal_spec by done.
  rewrite cmov_spec; [|done..|destruct (_ =? _); lia]. by destruct (babs =? Z.of_nat k + 1).
Qed.

Lemma identity_spec : GePrecomp fe_1 fe_1 fe_0 ⊨ pzero.
Proof.
  split; cbn [yplusx yminusx xy2d]; rewrite ?fe_F_0, ?fe_F_1; first
    [apply fe_bd_0|apply fe_bd_1|unfold px, py; cbn [pzero coords dexist proj1_sig fst snd]; ring].
Qed.

Lemma negated_spec t m P : t ⊨ P -> fe_bd 101 m -> fe_F m = (- fe_F (xy2d t))%Zmod ->
  GePrecomp (fe_copy (yminusx t)) (fe_copy (yplusx t)) m ⊨ popp P.
Proof.
  intros [] Hm Em. rewrite !fe_copy_id.
  split; cbn [yplusx yminusx xy2d]; rewrite ?px_popp, ?py_popp; try assumption; fe_eqs; ring.
Qed.

(** After the entries below [k] the selected multiple is that of the digit if
    it is at most [k], and zero otherwise. *)
Definition selected (m babs : Z) (k : nat) : Z := if babs <=? Z.of_nat k then babs * m else 0.

Lemma select_step row m babs k t :
  (forall j u, row !! j = Some u -> u ⊨ ((Z.of_nat j + 1) * m) *! base_point) -> length row = 8%nat ->
  0 <= babs <= 8 -> (k < 8)%nat -> t ⊨ selected m babs k *! base_point ->
  wp (select_entry row babs k t) (fun t' => t' ⊨ selected m babs (S k) *! base_point).
Proof.
  intros Hrow Hl Hb Hk Ht. destruct (lookup_lt_is_Some_2 row k ltac:(lia)) as [u Hu].
  pose proof (Hrow k u Hu) as Hr.
  rewrite (select_entry_spec row babs k u t Hu (pre_bd_rep _ _ Hr) (pre_bd_rep _ _ Ht) Hb Hk). cbn [wp].
  unfold selected in *. rewrite Nat2Z.inj_succ. destruct (Z.eqb_spec babs (Z.of_nat k + 1)) as [->|Hne].
  - destruct (Z.leb_spec (Z.of_nat k + 1) (Z.succ (Z.of_nat k))); [exact Hr|lia].
  - destruct (Z.leb_spec babs (Z.of_nat k)), (Z.leb_spec babs (Z.succ (Z.of_nat k))); try lia; exact Ht.
Qed.

Lemma select_spec pos b : 0 <= pos < 32 -> -8 <= b <= 8 ->
  wp (select pos b) (fun t => t ⊨ (b * 256 ^ pos) *! base_point).
Proof.
  intros Hp Hb. destruct base_shape as (Hs & Hl & _).
  destruct (lookup_lt_is_Some_2 base (Z.to_nat pos) ltac:(lia)) as [row Hrow].
  pose proof (Forall_lookup_1 _ _ _ _ Hs Hrow) as Hr.
  pose proof (fun j u => base_spec (Z.to_nat pos) j row u Hrow) as He. rewrite Z2Nat.id in He by lia.
  destruct (negative_spec b Hb) as [En Ea]. unfold select. rewrite Ea, Hrow.
  assert (GePrecomp fe_1 fe_1 fe_0 ⊨ selected (256 ^ pos) (Z.abs b) 0 *! base_point) as H0.
  { unfold selected. destruct (Z.leb_spec (Z.abs b) (Z.of_nat 0)); [|exact identity_spec].
    replace (Z.abs b * 256 ^ pos) with 0 by lia. exact identity_spec. }
  do 8 (apply wp_bind; eapply wp_mono; [apply (select_step row (256 ^ pos)); [exact He|exact Hr|lia|lia|eassumption]|];
    clear H0; cbv beta; intros ? H0).
  unfold selected in H0. destruct (Z.leb_spec (Z.abs b) (Z.of_nat 8)); [|lia].
  pose proof (pre_bt _ _ H0) as Bt. fe_step. cbn [wp].
  pose proof (negated_spec _ _ _ H0 B E) as Hneg.
  rewrite cmov_spec; [|by eapply pre_bd_rep|by eapply pre_bd_rep|rewrite En; destruct (b <? 0); lia].
  rewrite En. destruct (Z.ltb_spec b 0); cbn [Z.eqb Pos.eqb].
  - rewrite <- (z_mul_opp (G:=point_group)) in Hneg.
    by replace (b * 256 ^ pos) with (- (Z.abs b * 256 ^ pos)) by lia.
  - by replace (b * 256 ^ pos) with (Z.abs b * 256 ^ pos) by lia.
Qed.

(** * The additions *)
(** The multiple of B the digits at the indices [idx] stand for. *)
Fixpoint sum_idx (e idx : list Z) : Z :=
  match idx with
  | [] => 0
  | i :: idx' => default 0 (e !! Z.to_nat i) * 256 ^ Z.quot i 2 + sum_idx e idx'
  end.

Lemma madd_loop_spec e idx h P n : h ⊨ n *! P -> P = base_point -> length e = 64%nat ->
  Forall (fun x => -8 <= x <= 8) e -> Forall (fun i => 0 <= i < 64) idx ->
  wp (madd_loop h e idx) (fun h' => h' ⊨ (n + sum_idx e idx) *! P).
Proof.
  intros Hh -> Hl He. revert h n Hh. induction idx as [|i idx IH]; intros h n Hh Hi.
  { cbn [madd_loop wp sum_idx]. by rewrite Z.add_0_r. }
  apply Forall_cons in Hi as [Hi Hi']. cbv beta in Hi. cbn [madd_loop sum_idx].
  destruct (lookup_lt_is_Some_2 e (Z.to_nat i) ltac:(lia)) as [x Hx]. rewrite Hx. cbn [default].
  assert (0 <= Z.quot i 2 < 32).
  { rewrite Z.quot_div_nonneg by lia. split; [apply Z.div_pos; lia|apply Z.div_lt_upper_bound; lia]. }
  apply wp_bind. eapply wp_mono; [apply select_spec; [done|exact (Forall_lookup_1 _ _ _ _ He Hx)]|].
  cbv beta. intros t Ht. apply wp_bind. eapply wp_mono; [exact (ge_madd_spec _ _ _ _ Hh Ht)|].
  cbv beta. intros r Hr. apply wp_bind. eapply wp_mono; [exact (ge_p1p1_to_p3_spec _ _ Hr)|].
  cbv beta. intros h' Hh'. rewrite <- (z_mul_add (G:=point_group)) in Hh'.
  rewrite Z.add_assoc. by apply IH.
Qed.

(** The odd digits, sixteen times, and the even digits make up the scalar. *)
Lemma sum_idx_shift x y e idx : Forall (fun i => 0 <= i) idx ->
  sum_idx (x :: y :: e) (Z.add 2 <$> idx) = 256 * sum_idx e idx.
Proof.
  induction 1 as [|i idx Hi _ IH]; [done|]. rewrite fmap_cons. cbn [sum_idx]. rewrite IH.
  rewrite (Z2Nat.inj_add 2 i) by lia. change ((x :: y :: e) !! (Z.to_nat 2 + Z.to_nat i)%nat) with (e !! Z.to_nat i).
  rewrite !Z.quot_div_nonneg by lia. replace (2 + i) with (i + 1 * 2) by lia.
  rewrite Z.div_add, Z.pow_add_r by (lia || apply Z.div_pos; lia).
  change (256 ^ 1) with 256. generalize (256 ^ (i / 2)). intros p. ring.
Qed.

Lemma idx_cons c n : 0 <= c -> (fun k => 2 * k + c) <$> seqZ 0 (Z.of_nat (S n)) =
  c :: (Z.add 2 <$> ((fun k => 2 * k + c) <$> seqZ 0 (Z.of_nat n))).
Proof.
  intros Hc. rewrite seqZ_cons by lia. rewrite fmap_cons. f_equal.
  replace (Z.pred (Z.of_nat (S n))) with (Z.of_nat n) by lia.
  change (Z.succ 0) with (1 + 0). rewrite <- fmap_add_seqZ, <- !list_fmap_compose.
  apply list_fmap_ext. intros i x _. cbn. lia.
Qed.

Lemma idx_nonneg c n : 0 <= c -> Forall (fun i => 0 <= i) ((fun k => 2 * k + c) <$> seqZ 0 n).
Proof. intros Hc. apply Forall_fmap, Forall_forall. intros x Hx%elem_of_seqZ. cbn. lia. Qed.

Lemma sum_idx_digits n e : length e = (2 * n)%nat ->
  16 * sum_idx e ((fun k => 2 * k + 1) <$> seqZ 0 (Z.of_nat n)) +
  sum_idx e ((fun k => 2 * k + 0) <$> seqZ 0 (Z.of_nat n)) = digits_val 16 e.
Proof.
  revert e. induction n as [|n IH]; intros e Hl; [by destruct e|].
  destruct e as [|x [|y e]]; [simpl in Hl; lia..|].
  rewrite !idx_cons by lia. cbn [sum_idx digits_val]. rewrite !sum_idx_shift by (apply idx_nonneg; lia).
  rewrite <- IH by (cbn [length] in Hl; lia). 
  change (Z.to_nat 1) with 1%nat. change (Z.to_nat 0) with 0%nat. change (256 ^ Z.quot 1 2) with 1.
  change (256 ^ Z.quot 0 2) with 1. cbn [lookup list_lookup default]. unfold id. lia.
Qed.

Lemma idx_range c : 0 <= c <= 1 -> Forall (fun i => 0 <= i < 64) ((fun k => 2 * k + c) <$> seqZ 0 32).
Proof. intros Hc. apply Forall_fmap, Forall_forall. intros x Hx%elem_of_seqZ. cbn. lia. Qed.

(** * The scalar multiplication *)
(** The four doublings between the loops. *)
Lemma times16_spec {A} (h : ge_p3) P o (k : ge_p3 -> option A) Q : h ⊨ o *! P ->
  (forall h', h' ⊨ (16 * o) *! P -> wp (k h') Q) ->
  wp (let? r := ge_p3_dbl h in
      let? s := ge_p1p1_to_p2 r in let? r := ge_p2_dbl s in
      let? s := ge_p1p1_to_p2 r in let? r := ge_p2_dbl s in
      let? s := ge_p1p1_to_p2 r in let? r := ge_p2_dbl s in
      let? h := ge_p1p1_to_p3 r in k h) Q.
Proof.
  intros Hh Hk. apply wp_bind. eapply wp_mono; [exact (ge_p3_dbl_spec _ _ Hh)|]. cbv beta. intros r Hr.
  do 3 (apply wp_bind; eapply wp_mono; [exact (ge_p1p1_to_p2_spec _ _ Hr)|]; clear r Hr; cbv beta; intros s Hs;
    apply wp_bind; eapply wp_mono; [exact (ge_p2_dbl_spec _ _ Hs)|]; clear s Hs; cbv beta; intros r Hr).
  apply wp_bind. eapply wp_mono; [exact (ge_p1p1_to_p3_spec _ _ Hr)|]. cbv beta. intros h' Hh'.
  apply Hk. rewrite !padd_self in Hh'. by replace (2 * (2 * (2 * (2 * o)))) with (16 * o) in Hh' by lia.
Qed.

Lemma ge_scalarmult_base_spec a : bytes_wf a -> 32 <= zlen a -> le_decode (take 32 a) < 2 ^ 255 ->
  wp (ge_scalarmult_base a) (fun h => h ⊨ le_decode (take 32 a) *! base_point).
Proof.
  intros Ha Hl Hv. unfold ge_scalarmult_base. apply wp_bind. eapply wp_mono; [by apply nibbles_spec|].
  cbv beta. intros e (Hel & He & Ev). set (n := le_decode (take 32 a)) in *.
  destruct (recode_spec 63 0 e) as (Hd & Hdl & Edv); [done|lia|done|rewrite Ev; exact Hv|].
  rewrite Ev, Z.add_0_r in Edv. set (e' := recode 63 0 e) in *.
  pose proof (sum_idx_digits 32 e' Hdl) as Es. rewrite Edv in Es. change (Z.of_nat 32) with 32 in Es.
  cbv zeta. apply wp_bind. eapply wp_mono.
  { apply (madd_loop_spec e' _ ge_p3_0 base_point 0); [exact ge_p3_0_spec|done..|apply (idx_range 1); lia]. }
  cbv beta. rewrite Z.add_0_l. set (o := sum_idx e' _) in *. intros h Hh.
  eapply times16_spec; [exact Hh|]. clear h Hh. intros h Hh.
  assert ((fun k => 2 * k) <$> seqZ 0 32 = (fun k => 2 * k + 0) <$> seqZ 0 32) as -> by (vm_compute; reflexivity).
  rewrite <- Es. apply madd_loop_spec; [exact Hh|done..|apply (idx_range 0); lia].
Qed.

(** * The order of the base point *)
Definition order25519_bytes : list Z := Eval vm_compute in le_encode 32 order25519.

(** l*B computed by the additions of the non-zero digits of l. *)
Definition order_digits : list Z :=
  Eval vm_compute in match nibbles order25519_bytes with Some e => recode 63 0 e | None => [] end.
Definition nonzero_idx (c : Z) : list Z :=
  filter (fun i => default 0 (order_digits !! Z.to_nat i) <> 0) ((fun k => 2 * k + c) <$> seqZ 0 32).
Definition digits_multiple (e idx1 idx0 : list Z) : option ge_p3 :=
  let? h := madd_loop ge_p3_0 e idx1 in
  let? r := ge_p3_dbl h in
  let? s := ge_p1p1_to_p2 r in
  let? r := ge_p2_dbl s in
  let? s := ge_p1p1_to_p2 r in
  let? r := ge_p2_dbl s in
  let? s := ge_p1p1_to_p2 r in
  let? r := ge_p2_dbl s in
  let? h := ge_p1p1_to_p3 r in
  madd_loop h e idx0.

Definition is_neutral (o : option ge_p3) : bool :=
  match o with
  | Some h => (fe_val (p3_X h) mod p25519 =? 0) && ((fe_val (p3_Y h) - fe_val (p3_Z h)) mod p25519 =? 0)
  | None => false
  end.

Lemma order_check_ok :
  is_neutral (digits_multiple order_digits (nonzero_idx 1) (nonzero_idx 0)) = true.
Proof. vm_cast_no_check (eq_refl true). Qed.

Lemma digits_multiple_spec e idx1 idx0 : length e = 64%nat -> Forall (fun x => -8 <= x <= 8) e ->
  Forall (fun i => 0 <= i < 64) idx1 -> Forall (fun i => 0 <= i < 64) idx0 ->
  wp (digits_multiple e idx1 idx0) (fun h => h ⊨ (16 * sum_idx e idx1 + sum_idx e idx0) *! base_point).
Proof.
  intros Hl Hd H1 H0. unfold digits_multiple. apply wp_bind. eapply wp_mono.
  { apply (madd_loop_spec e _ ge_p3_0 base_point 0); [exact ge_p3_0_spec|done..]. }
  cbv beta. rewrite Z.add_0_l. intros h Hh. eapply times16_spec; [exact Hh|]. clear h Hh. intros h Hh.
  by apply madd_loop_spec.
Qed.

Lemma nonzero_idx_range c : 0 <= c <= 1 -> Forall (fun i => 0 <= i < 64) (nonzero_idx c).
Proof.
  intros Hc. apply Forall_forall. intros x [_ Hx]%list_elem_of_filter.
  revert x Hx. apply Forall_forall, idx_range, Hc.
Qed.

Lemma order_digits_sum :
  16 * sum_idx order_digits (nonzero_idx 1) + sum_idx order_digits (nonzero_idx 0) = order25519.
Proof. vm_compute. reflexivity. Qed.

Section order.
#[local] Open Scope Zmod_scope.

Lemma p3_zero h P : h ⊨ P -> fe_F (p3_X h) = 0 -> fe_F (p3_Y h) = fe_F (p3_Z h) -> P = pzero.
Proof.
  intros [_ _ _ _ HZ EX EY _] HX HY. rewrite EX in HX. rewrite EY in HY. apply point_eq.
  - apply F_mul_0 in HX as [->|?]; [reflexivity|contradiction].
  - change (py pzero) with (1 : F). apply (F_cancel (fe_F (p3_Z h)) _ _ HZ).
    transitivity (py P * fe_F (p3_Z h)); [ring|]. rewrite HY. ring.
Qed.
End order.

Lemma is_neutral_spec o P : wp o (fun h => h ⊨ P) -> is_neutral o = true -> P = pzero.
Proof.
  destruct o as [h|]; [|done]. cbn [wp is_neutral]. intros H Hc.
  apply andb_true_iff in Hc as [HX HY]. apply Z.eqb_eq in HX, HY. apply (p3_zero _ _ H).
  - apply (proj2 (ofZ_inj _ 0)). exact HX.
  - apply F_sub_0. unfold fe_F. rewrite <- ofZ_sub. apply (proj2 (ofZ_inj _ 0)). exact HY.
Qed.

(** l*B is the neutral element. *)
Lemma base_point_order : order25519 *! base_point = pzero.
Proof.
  eapply is_neutral_spec; [|exact order_check_ok]. rewrite <- order_digits_sum.
  apply digits_multiple_spec; [reflexivity| |apply nonzero_idx_range; lia..].
  unfold order_digits. repeat (apply Forall_cons; split; [lia|]). apply Forall_nil. done.
Qed.
