(* ===== verification/GeDouble.v ===== *)
(** Double-scalar multiplication: [slide] rewrites a scalar below 2^253 into
    digits that are zero or odd and at most 15 in absolute value, and
    [ge_double_scalarmult_vartime] computes a*A + b*B from them. *)
From S2P Require Import Prelude CInt Fe Prime25519 FeSpec FeBytes Curve GeData Ge GeSpec GeTable GeMul.
#[local] Open Scope Z_scope.
#[local] Opaque Zmod.mul Zmod.add Zmod.sub Zmod.opp Zmod.inv Zmod.mdiv Zmod.pow.

(** * Sliding windows *)
Definition is_bit (x : Z) : Prop := x = 0 \/ x = 1.
(** A digit of the recoding. *)
Definition slide_digit (x : Z) : Prop := -15 <= x <= 15 /\ (x = 0 \/ x mod 2 = 1).

Lemma bits_val_bound r : Forall is_bit r -> 0 <= digits_val 2 r < 2 ^ zlen r.
Proof.
  induction 1 as [|x r Hx _ IH]; [done|]. cbn [digits_val]. unfold is_bit in Hx.
  rewrite length_cons, Nat2Z.inj_succ, Z.pow_succ_r by lia. lia.
Qed.

Lemma slide_carry_spec r : Forall is_bit r -> digits_val 2 r + 1 < 2 ^ zlen r ->
  Forall is_bit (slide_carry r) /\ length (slide_carry r) = length r /\
  digits_val 2 (slide_carry r) = digits_val 2 r + 1.
Proof.
  induction 1 as [|x r Hx Hr IH]; intros Hv; [simpl in Hv; lia|].
  cbn [slide_carry digits_val] in *. rewrite length_cons, Nat2Z.inj_succ, Z.pow_succ_r in Hv by lia.
  unfold is_bit in Hx. destruct (Z.eqb_spec x 0) as [->|H0].
  - split_and!; [constructor; [by right|done]|done|]. cbn [digits_val]. lia.
  - destruct IH as (H1 & H2 & H3); [lia|].
    split_and!; [constructor; [by left|done]|by rewrite !length_cons, H2|]. cbn [digits_val]. lia.
Qed.

Lemma shl32_bit b : 1 <= b <= 6 -> ((1 : Z) << b)%i32 = Some (2 ^ b).
Proof.
  intros Hb. cbn [shl32 cst]. unfold ck32, in32. rewrite Z.mul_1_l.
  pose proof (Z.pow_le_mono_r 2 b 6). pose proof (Z.pow_pos_nonneg 2 b).
  destruct (Z.leb_spec (- 2 ^ 31) (2 ^ b)), (Z.ltb_spec (2 ^ b) (2 ^ 31)); cbn [andb]; lia || done.
Qed.

Lemma odd_add_even x b y : x mod 2 = 1 -> 1 <= b -> (x + y * 2 ^ b) mod 2 = 1.
Proof.
  intros Hx Hb. replace b with (b - 1 + 1) by lia. rewrite Z.pow_add_r by lia.
  replace (x + y * (2 ^ (b - 1) * 2 ^ 1)) with (x + (y * 2 ^ (b - 1)) * 2) by lia. by rewrite Z.mod_add.
Qed.

(** The rest of the window is done and the digit before it is 0. *)
Ltac slide_keep Eb :=
  let ri' := fresh "ri" in let r' := fresh "r" in
  intros [ri' r'] (S1 & S2 & S3 & S4 & S5); cbn [fst snd wp] in *;
  split_and!; [lia|lia|done|apply Forall_cons; split; [by left|done]|rewrite !length_cons, S4; congruence|];
  cbn [digits_val]; rewrite Eb in S5; lia.

(** The window keeps the value of what it spans; a carry always finds a place
    when the value leaves room for it. *)
Lemma slide_window_spec n b ri r :
  Forall is_bit r -> -15 <= ri <= 15 -> ri mod 2 = 1 -> 1 <= b -> b + Z.of_nat n = 7 ->
  ri + 2 ^ b * digits_val 2 r + 79 < 2 ^ (b + zlen r) ->
  wp (slide_window n b ri r) (fun x => -15 <= x.1 <= 15 /\ x.1 mod 2 = 1 /\ Forall is_bit x.2 /\
    length x.2 = length r /\ x.1 + 2 ^ b * digits_val 2 x.2 = ri + 2 ^ b * digits_val 2 r).
Proof.
  revert b ri r. induction n as [|n IH]; intros b ri r Hr Hri Ho Hb Hn Hv; [destruct r; cbn [slide_window wp fst snd]; split_and!; lia || done|].
  destruct r as [|x r]; [cbn [slide_window wp fst snd]; split_and!; lia || done|]. apply Forall_cons in Hr as [Hx Hr].
  cbn [digits_val] in Hv. rewrite length_cons, Nat2Z.inj_succ in Hv.
  assert (2 ^ (b + 1) = 2 * 2 ^ b) as Eb by (rewrite Z.pow_add_r; lia).
  assert (b + Z.succ (zlen r) = b + 1 + zlen r) as El by lia. rewrite El in Hv.
  cbn [slide_window]. destruct (Z.eqb_spec x 0) as [->|H0].
  - apply wp_bind. eapply wp_mono; [apply IH; try done; [lia..|]; rewrite Eb; lia|].
    slide_keep Eb.
  - destruct Hx as [->| ->]; [done|]. rewrite shl32_bit by lia. 
    destruct (Z.leb_spec (ri + 2 ^ b) 15) as [Hle|Hgt].
    + pose proof (Z.pow_pos_nonneg 2 b). rewrite i8_small by lia.
      apply wp_bind. eapply wp_mono; [apply IH; try done; [lia| |lia..|]|].
      { by replace (ri + 2 ^ b) with (ri + 1 * 2 ^ b) by lia; apply odd_add_even. }
      { rewrite Eb. lia. }
      slide_keep Eb.
    + assert (2 ^ b <= 2 ^ 6) by (apply Z.pow_le_mono_r; lia).
      pose proof (Z.pow_pos_nonneg 2 b). rewrite Z.pow_add_r in Hv by lia. rewrite Eb in Hv.
      destruct (Z.leb_spec (-15) (ri - 2 ^ b)) as [Hge|_].
      2: { cbn [wp fst snd digits_val]. split_and!; [lia|lia|done|apply Forall_cons; split; [by right|done]|done|done]. }
      destruct (slide_carry_spec r Hr) as (C1 & C2 & C3); [nia|].
      change (slide_carry (1 :: r)) with (0 :: slide_carry r). rewrite i8_small by lia.
      apply wp_bind. eapply wp_mono; [apply IH; try done; [lia| |lia..|]|].
      { by replace (ri - 2 ^ b) with (ri + -1 * 2 ^ b) by lia; apply odd_add_even. }
      { rewrite C2, C3, (Z.pow_add_r 2 (b + 1)), Eb by lia. lia. }
      rewrite C2, C3. slide_keep Eb.
Qed.

(** The last nine digits, exhaustively. *)
Fixpoint all_bits (n : nat) : list (list Z) :=
  match n with
  | O => [[]]
  | S n' => (cons 0 <$> all_bits n') ++ (cons 1 <$> all_bits n')
  end.

Lemma all_bits_complete r : Forall is_bit r -> r ∈ all_bits (length r).
Proof.
  induction 1 as [|x r Hx _ IH]; cbn [length all_bits]; [by apply list_elem_of_singleton|].
  apply elem_of_app. destruct Hx as [-> | ->]; [left|right]; by apply list_elem_of_fmap_2.
Qed.

Definition slide_digitb (x : Z) : bool := (-15 <=? x) && (x <=? 15) && ((x =? 0) || (x mod 2 =? 1)).
Definition slide_tail_ok (r : list Z) : bool :=
  (79 <? digits_val 2 r) ||
  match slide_loop 9 r with
  | Some e => (length e =? 9)%nat && forallb slide_digitb e && (digits_val 2 e =? digits_val 2 r)
  | None => false
  end.

Lemma slide_tails_ok : forallb slide_tail_ok (all_bits 9) = true.
Proof. vm_compute. reflexivity. Qed.

Lemma slide_digitb_spec x : slide_digitb x = true -> slide_digit x.
Proof.
  unfold slide_digitb, slide_digit. rewrite !andb_true_iff, orb_true_iff, !Z.leb_le, !Z.eqb_eq. tauto.
Qed.

Lemma slide_tail_spec r : Forall is_bit r -> length r = 9%nat -> digits_val 2 r <= 79 ->
  wp (slide_loop 9 r) (fun e => length e = 9%nat /\ Forall slide_digit e /\ digits_val 2 e = digits_val 2 r).
Proof.
  intros Hr Hl Hv. pose proof slide_tails_ok as H. rewrite forallb_forall in H.
  specialize (H r). rewrite <- list_elem_of_In, <- Hl in H. specialize (H (all_bits_complete r Hr)).
  unfold slide_tail_ok in H. destruct (Z.ltb_spec 79 (digits_val 2 r)); [lia|]. rewrite orb_false_l in H.
  destruct (slide_loop 9 r) as [e|]; [|done]. cbn [wp]. rewrite !andb_true_iff, Nat.eqb_eq, Z.eqb_eq in H.
  destruct H as [[H1 H2] H3]. split_and!; [done| |done].
  apply Forall_forall. intros x Hx%list_elem_of_In. apply slide_digitb_spec. rewrite forallb_forall in H2. auto.
Qed.

(** Recoding: the value leaves three bits of room at the top. *)
Lemma slide_loop_spec n r : Forall is_bit r -> length r = (9 + n)%nat ->
  digits_val 2 r <= 2 ^ (6 + Z.of_nat n) + 15 ->
  wp (slide_loop (9 + n) r) (fun e => length e = (9 + n)%nat /\ Forall slide_digit e /\
    digits_val 2 e = digits_val 2 r).
Proof.
  revert r. induction n as [|n IH]; intros r Hr Hl Hv; [by apply slide_tail_spec|].
  replace (9 + S n)%nat with (S (9 + n)) in * by lia. destruct r as [|x r]; [done|].
  apply Forall_cons in Hr as [Hx Hr]. injection Hl as Hl.
  assert (2 ^ (6 + Z.of_nat (S n)) = 2 * 2 ^ (6 + Z.of_nat n)) as Ep.
  { rewrite Nat2Z.inj_succ, Z.add_succ_r, Z.pow_succ_r by lia. done. }
  assert (2 ^ 6 <= 2 ^ (6 + Z.of_nat n)) as Hp by (apply Z.pow_le_mono_r; lia).
  rewrite Ep in Hv. cbn [slide_loop digits_val] in *.
  assert (wp (if x =? 0 then Some (x, r) else slide_window 6 1 x r) (fun y =>
    slide_digit y.1 /\ Forall is_bit y.2 /\ length y.2 = length r /\
    y.1 + 2 * digits_val 2 y.2 = x + 2 * digits_val 2 r)) as Hw.
  { destruct (Z.eqb_spec x 0) as [->|H0]; [cbn [wp fst snd]; split_and!; try done; unfold slide_digit; lia|].
    destruct Hx as [->| ->]; [done|]. eapply wp_mono; [apply slide_window_spec; try done|].
    - replace (1 + zlen r) with (4 + (6 + Z.of_nat n)) by lia.
      rewrite Z.pow_add_r by lia. lia.
    - intros [ri r'] (H1 & H2 & H3 & H4 & H5). cbn [fst snd] in *. unfold slide_digit. split_and!; try lia; done. }
  apply wp_bind. eapply wp_mono; [exact Hw|]. intros [ri r'] (H1 & H2 & H3 & H4). cbn [fst snd] in *.
  apply wp_bind. eapply wp_mono; [apply IH; [done|lia|destruct H1; lia]|].
  cbv beta. intros e (E1 & E2 & E3). cbn [wp digits_val]. rewrite E3.
  split_and!; [by rewrite length_cons, E1|by constructor|done].
Qed.

Lemma slide_bit_spec a i : bytes_wf a -> 0 <= i < 8 * zlen a ->
  slide_bit a i = Some (Z.b2z (Z.testbit (le_decode a) i)).
Proof.
  intros Ha Hi. unfold slide_bit. rewrite Z.shiftr_div_pow2 by lia. change 7 with (Z.ones 3).
  rewrite Z.land_ones by lia. change (2 ^ 3) with 8.
  pose proof (Z.div_mod i 8). pose proof (Z.mod_pos_bound i 8). set (q := i / 8) in *. set (k := i mod 8) in *.
  destruct (lookup_lt_is_Some_2 a (Z.to_nat q) ltac:(lia)) as [x Hx]. rewrite Hx.
  pose proof (le_decode_drop a q Ha ltac:(lia)) as Hd. unfold ptr_add in Hd.
  rewrite (drop_S a x (Z.to_nat q) Hx) in Hd. cbn [le_decode] in Hd.
  pose proof (Forall_lookup_1 _ _ _ _ Ha Hx) as Hb. unfold is_byte in Hb.
  assert (x = (le_decode a / 2 ^ (8 * q)) mod 2 ^ 8) as Ex.
  { rewrite <- Hd. change (2 ^ 8) with 256. rewrite Z.mul_comm, Z.mod_add, Z.mod_small; lia. }
  f_equal. rewrite Z.land_comm, (Z.land_ones _ 1) by lia. change (2 ^ 1) with 2.
  rewrite <- Z.bit0_mod, Z.shiftr_spec, Z.add_0_l, Ex by lia.
  rewrite Z.mod_pow2_bits_low, Z.div_pow2_bits by lia. do 2 f_equal. lia.
Qed.

Lemma bits_digits v n : digits_val 2 ((fun i => Z.b2z (Z.testbit v i)) <$> seqZ 0 (Z.of_nat n)) = v mod 2 ^ Z.of_nat n.
Proof.
  induction n as [|n IH]; [by rewrite Z.mod_1_r|].
  rewrite seqZ_S, fmap_app, digits_val_app, IH, length_fmap, length_seqZ, Nat2Z.inj_succ by lia.
  rewrite Z2Nat.id, Z.add_0_l by lia. cbn [fmap list_fmap digits_val]. rewrite Z.mul_0_r, Z.add_0_r.
  rewrite Z.testbit_spec' by lia. rewrite Z.pow_succ_r, (Z.mul_comm 2), Z.rem_mul_r by lia. done.
Qed.

Lemma slide_spec a : bytes_wf a -> 32 <= zlen a -> le_decode (take 32 a) < 2 ^ 253 ->
  wp (slide a) (fun e => length e = 256%nat /\ Forall slide_digit e /\ digits_val 2 e = le_decode (take 32 a)).
Proof.
  intros Ha Hl Hv. set (r := (fun i => Z.b2z (Z.testbit (le_decode a) i)) <$> seqZ 0 256).
  assert (mapM (slide_bit a) (seqZ 0 256) = Some r) as Er.
  { apply mapM_Some, Forall2_fmap_r, Forall_Forall2_diag, Forall_forall. intros i Hi%elem_of_seqZ.
    apply slide_bit_spec; [done|lia]. }
  assert (digits_val 2 r = le_decode (take 32 a)) as Ev.
  { unfold r. rewrite (bits_digits _ 256). rewrite <- (take_drop 32 a) at 1. rewrite le_decode_app, length_take.
    pose proof (le_decode_bound _ (bytes_wf_take 32 a Ha)) as Hb.
    replace (Z.of_nat (32 `min` length a)) with 32 by lia. change (2 ^ Z.of_nat 256) with (256 ^ 32).
    rewrite Z.mul_comm, Z.mod_add, Z.mod_small; try lia. }
  assert (Forall is_bit r) as Hr.
  { apply Forall_fmap, Forall_forall. intros i _. cbn. unfold is_bit. destruct (Z.testbit _ _); simpl; lia. }
  unfold slide. rewrite Er, <- Ev. apply (slide_loop_spec 247); [done|by unfold r; rewrite length_fmap, length_seqZ|].
  rewrite Ev. change (6 + Z.of_nat 247) with 253. lia.
Qed.

(** * The odd multiples of A *)
Lemma next_odd_spec A2 c P n : A2 ⊨ 2 *! P -> c ⊨ n *! P -> wp (next_odd A2 c) (fun c' => c' ⊨ (n + 2) *! P).
Proof.
  intros H2 Hc. unfold next_odd. apply wp_bind. eapply wp_mono; [exact (ge_add_spec _ _ _ _ H2 Hc)|].
  cbv beta. intros t Ht. apply wp_bind. eapply wp_mono; [exact (ge_p1p1_to_p3_spec _ _ Ht)|].
  cbv beta. intros u Hu. rewrite <- (z_mul_add (G:=point_group)), Z.add_comm in Hu.
  exact (ge_p3_to_cached_spec _ _ Hu).
Qed.

(** [Ai] holds A, 3A, ..., 15A. *)
Definition odd_table (Ai : list ge_cached) (P : point) : Prop :=
  length Ai = 8%nat /\ forall k c, Ai !! k = Some c -> c ⊨ (2 * Z.of_nat k + 1) *! P.

Lemma odd_multiples_spec (A : ge_p3) P : A ⊨ P -> wp (odd_multiples A) (fun Ai => odd_table Ai P).
Proof.
  intros HA. unfold odd_multiples. apply wp_bind. eapply wp_mono; [exact (ge_p3_to_cached_spec _ _ HA)|].
  cbv beta. intros c0 H0. change P with (1 *! P) in H0. apply wp_bind.
  eapply wp_mono; [exact (ge_p3_dbl_spec _ _ HA)|]. cbv beta. intros t Ht.
  apply wp_bind. eapply wp_mono; [exact (ge_p1p1_to_p3_spec _ _ Ht)|]. cbv beta. intros A2 H2.
  change (padd P P) with (2 *! P) in H2.
  do 7 (apply wp_bind; eapply wp_mono; [eapply next_odd_spec; [exact H2|eassumption]|];
    let c := fresh "c" in let H := fresh "H" in cbv beta; intros c H; cbn [Z.add Pos.add Pos.succ] in H).
  cbn [wp]. split; [done|]. intros k g Hk.
  do 8 (destruct k as [|k]; [injection Hk as <-; assumption|]). done.
Qed.

(** * Adding a digit *)
Lemma digit_index x : slide_digit x -> 0 < x ->
  (Z.to_nat (Z.quot x 2) < 8)%nat /\ 2 * Z.of_nat (Z.to_nat (Z.quot x 2)) + 1 = x.
Proof.
  intros [Hr [->|Ho]] Hx; [lia|]. rewrite Z.quot_div_nonneg by lia.
  pose proof (Z.div_mod x 2). rewrite Z2Nat.id by (apply Z.div_pos; lia). lia.
Qed.

Lemma opp_digit x : slide_digit x -> slide_digit (- x).
Proof.
  intros [Hr [->|Ho]]; [by split; [lia|left]|]. split; [lia|right].
  pose proof (Z.div_mod x 2). replace (- x) with (1 + (- (x / 2) - 1) * 2) by lia. by rewrite Z.mod_add.
Qed.

Lemma padd_opp_mul P Q x : padd P (popp ((- x) *! Q)) = padd P (x *! Q).
Proof. by rewrite <- (z_mul_opp (G:=point_group)), Z.opp_involutive. Qed.

Lemma step_a_spec Ai ai t P A : odd_table Ai A -> slide_digit ai -> t ⊨ P ->
  wp (step_a Ai ai t) (fun t' => t' ⊨ padd P (ai *! A)).
Proof.
  intros [Hl HA] Hd Ht. unfold step_a. destruct (Z.ltb_spec 0 ai) as [Hp|Hn].
  - destruct (digit_index ai Hd Hp) as [Hk Ek]. destruct (lookup_lt_is_Some_2 Ai _ ltac:(rewrite Hl; exact Hk)) as [c Hc].
    apply wp_bind. eapply wp_mono; [exact (ge_p1p1_to_p3_spec _ _ Ht)|]. cbv beta. intros u Hu.
    rewrite Hc. specialize (HA _ _ Hc). rewrite Ek in HA. exact (ge_add_spec _ _ _ _ Hu HA).
  - destruct (Z.ltb_spec ai 0) as [Hm|Hz].
    + destruct (digit_index (- ai) (opp_digit _ Hd) ltac:(lia)) as [Hk Ek].
      destruct (lookup_lt_is_Some_2 Ai _ ltac:(rewrite Hl; exact Hk)) as [c Hc].
      apply wp_bind. eapply wp_mono; [exact (ge_p1p1_to_p3_spec _ _ Ht)|]. cbv beta. intros u Hu.
      rewrite Hc. specialize (HA _ _ Hc). rewrite Ek in HA. rewrite <- padd_opp_mul. exact (ge_sub_spec _ _ _ _ Hu HA).
    + replace ai with 0 by lia. cbn [wp]. change (0 *! A) with pzero. by rewrite padd_0_r.
Qed.

Lemma step_b_spec bi t P : slide_digit bi -> t ⊨ P -> wp (step_b bi t) (fun t' => t' ⊨ padd P (bi *! base_point)).
Proof.
  intros Hd Ht. pose proof Bi_spec as HB. destruct base_shape as (_ & _ & Hl).
  unfold step_b. destruct (Z.ltb_spec 0 bi) as [Hp|Hn].
  - destruct (digit_index bi Hd Hp) as [Hk Ek]. destruct (lookup_lt_is_Some_2 Bi _ ltac:(rewrite Hl; exact Hk)) as [c Hc].
    apply wp_bind. eapply wp_mono; [exact (ge_p1p1_to_p3_spec _ _ Ht)|]. cbv beta. intros u Hu.
    rewrite Hc. specialize (HB _ _ Hc). rewrite Ek in HB. exact (ge_madd_spec _ _ _ _ Hu HB).
  - destruct (Z.ltb_spec bi 0) as [Hm|Hz].
    + destruct (digit_index (- bi) (opp_digit _ Hd) ltac:(lia)) as [Hk Ek].
      destruct (lookup_lt_is_Some_2 Bi _ ltac:(rewrite Hl; exact Hk)) as [c Hc].
      apply wp_bind. eapply wp_mono; [exact (ge_p1p1_to_p3_spec _ _ Ht)|]. cbv beta. intros u Hu.
      rewrite Hc. specialize (HB _ _ Hc). rewrite Ek in HB. rewrite <- padd_opp_mul. exact (ge_msub_spec _ _ _ _ Hu HB).
    + replace bi with 0 by lia. cbn [wp]. change (0 *! base_point) with pzero. by rewrite padd_0_r.
Qed.

(** * The loop *)
Lemma digits_val_take_S e i x : e !! i = Some x ->
  digits_val 2 (take (S i) e) = digits_val 2 (take i e) + 2 ^ Z.of_nat i * x.
Proof.
  intros Hx. rewrite (take_S_r e i x Hx), digits_val_app. pose proof (lookup_lt_Some _ _ _ Hx).
  rewrite length_take, Nat.min_l by lia. cbn [digits_val]. ring.
Qed.

Lemma top_digit_spec n as_ bs : (n <= length as_)%nat -> (n <= length bs)%nat ->
  wp (top_digit n as_ bs) (fun m => (m <= n)%nat /\
    digits_val 2 (take m as_) = digits_val 2 (take n as_) /\ digits_val 2 (take m bs) = digits_val 2 (take n bs)).
Proof.
  induction n as [|i IH]; intros Ha Hb; [done|]. cbn [top_digit].
  destruct (lookup_lt_is_Some_2 as_ i ltac:(lia)) as [x Hx]. destruct (lookup_lt_is_Some_2 bs i ltac:(lia)) as [y Hy].
  rewrite Hx, Hy. destruct (Z.eqb_spec x 0) as [->|], (Z.eqb_spec y 0) as [->|]; cbn [negb orb wp]; try done.
  eapply wp_mono; [apply IH; lia|]. cbv beta. intros m (H1 & H2 & H3).
  rewrite (digits_val_take_S _ _ _ Hx), (digits_val_take_S _ _ _ Hy), !Z.mul_0_r, !Z.add_0_r. by split_and!; [lia|..].
Qed.

(** The accumulator after [n] digits. *)
Definition accumulated (n : nat) (as_ bs : list Z) (P A : point) : point :=
  padd (2 ^ Z.of_nat n *! P) (padd (digits_val 2 (take n as_) *! A) (digits_val 2 (take n bs) *! base_point)).

Lemma accumulated_S n as_ bs P A x y : as_ !! n = Some x -> bs !! n = Some y ->
  accumulated n as_ bs (padd (padd (padd P P) (x *! A)) (y *! base_point)) A = accumulated (S n) as_ bs P A.
Proof.
  intros Hx Hy. unfold accumulated. rewrite (digits_val_take_S _ _ _ Hx), (digits_val_take_S _ _ _ Hy).
  rewrite Nat2Z.inj_succ, Z.pow_succ_r, Z.mul_comm by lia.
  rewrite !(z_mul_add (G:=point_group)), !(z_mul_distr (G:=point_group)), !(z_mul_mul (G:=point_group)).
  change (2 *! P) with (padd P P). rewrite !(z_mul_distr (G:=point_group)).
  rewrite !padd_assoc. do 2 f_equal.
  rewrite (ab_swap (G:=point_group) (_ *! A) (2 ^ _ *! _)). f_equal.
  by rewrite (padd_comm (2 ^ Z.of_nat n *! y *! base_point)), padd_assoc.
Qed.

Lemma double_loop_spec n Ai as_ bs r P A : odd_table Ai A -> (n <= length as_)%nat -> (n <= length bs)%nat ->
  Forall slide_digit as_ -> Forall slide_digit bs -> r ⊨ P ->
  wp (double_loop n Ai as_ bs r) (fun r' => r' ⊨ accumulated n as_ bs P A).
Proof.
  intros HA Hla Hlb Ha Hb. revert r P. induction n as [|i IH]; intros r P Hr.
  { cbn [double_loop wp]. unfold accumulated. cbn [take digits_val]. change (0 *! A) with pzero.
    change (0 *! base_point) with pzero. rewrite !padd_0_r. exact Hr. }
  destruct (lookup_lt_is_Some_2 as_ i ltac:(lia)) as [x Hx]. destruct (lookup_lt_is_Some_2 bs i ltac:(lia)) as [y Hy].
  cbn [double_loop]. apply wp_bind. eapply wp_mono; [exact (ge_p2_dbl_spec _ _ Hr)|]. cbv beta. intros t Ht.
  rewrite Hx. apply wp_bind. eapply wp_mono; [exact (step_a_spec _ _ _ _ _ HA (Forall_lookup_1 _ _ _ _ Ha Hx) Ht)|].
  cbv beta. intros t1 Ht1. rewrite Hy.
  apply wp_bind. eapply wp_mono; [exact (step_b_spec _ _ _ (Forall_lookup_1 _ _ _ _ Hb Hy) Ht1)|].
  cbv beta. intros t2 Ht2. apply wp_bind. eapply wp_mono; [exact (ge_p1p1_to_p2_spec _ _ Ht2)|].
  cbv beta. intros r' Hr'. rewrite <- (accumulated_S i as_ bs P A x y Hx Hy). apply IH; [lia..|exact Hr'].
Qed.

(** [ge_double_scalarmult_vartime] computes a*A + b*B. *)
Lemma ge_double_scalarmult_vartime_spec a (A : ge_p3) b P : A ⊨ P ->
  bytes_wf a -> 32 <= zlen a -> le_decode (take 32 a) < 2 ^ 253 ->
  bytes_wf b -> 32 <= zlen b -> le_decode (take 32 b) < 2 ^ 253 ->
  wp (ge_double_scalarmult_vartime a A b) (fun r =>
    r ⊨ padd (le_decode (take 32 a) *! P) (le_decode (take 32 b) *! base_point)).
Proof.
  intros HA Ha Hla Hva Hb Hlb Hvb. unfold ge_double_scalarmult_vartime.
  apply wp_bind. eapply wp_mono; [exact (slide_spec a Ha Hla Hva)|]. cbv beta. intros as_ (La & Da & Va).
  apply wp_bind. eapply wp_mono; [exact (slide_spec b Hb Hlb Hvb)|]. cbv beta. intros bs (Lb & Db & Vb).
  apply wp_bind. eapply wp_mono; [exact (odd_multiples_spec A P HA)|]. cbv beta. intros Ai HAi.
  apply wp_bind. eapply wp_mono; [apply (top_digit_spec 256); lia|]. cbv beta. intros n (Hn & En & Em).
  eapply wp_mono; [apply (double_loop_spec n Ai as_ bs ge_p2_0 pzero P HAi); [lia|lia|done|done|exact ge_p2_0_spec]|].
  cbv beta. intros r Hr. unfold accumulated in Hr. rewrite En, Em, (z_mul_zero (G:=point_group)), padd_0_l in Hr.
  rewrite !take_ge, Va, Vb in Hr by lia. exact Hr.
Qed.
