(* ===== verification/Ed25519.v ===== *)
(** The Ed25519 interface, [remote/ed25519/keypair.c], [sign.c], [verify.c] and
    [add_scalar.c].  A buffer a function writes is an argument, its contents
    on entry, and part of the result; buffers do not overlap.  Contents of
    uninitialised locals are arguments ([junk...]). *)
From S2P Require Import Prelude CInt Fe Sc Sha512 GeData Ge.

(** [memcpy(p + off, x, length x)]: undefined outside the buffer. *)
Definition store (p : list Z) (off : Z) (x : list Z) : option (list Z) :=
  if (0 <=? off) && (off + zlen x <=? zlen p) then
    Some (take (Z.to_nat off) p ++ x ++ p +p (off + zlen x))
  else None.

(** [p[i] = f(p[i])] *)
Definition update_byte (p : list Z) (i : nat) (f : Z -> Z) : option (list Z) :=
  let? b := p !! i in Some (<[i := u8 (f b)]> p).

(** * keypair.c *)
Definition ed25519_create_keypair (junk : list Z) (public_key private_key seed : list Z)
  : option (list Z * list Z) :=
  let? (_, out) := sha512 junk seed 32 in
  let? private_key := store private_key 0 out in
  let? private_key := update_byte private_key 0 (fun b => Z.land b 248) in
  let? private_key := update_byte private_key 31 (fun b => Z.land b 63) in
  let? private_key := update_byte private_key 31 (fun b => Z.lor b 64) in
  let? A := ge_scalarmult_base private_key in
  let? s := ge_p3_tobytes A in
  let? public_key := store public_key 0 s in
  Some (public_key, private_key).

(** * sign.c *)
(** [message] is [None] for NULL; [junk_r] and [junk_hram] are the 64-byte locals. *)
Definition ed25519_sign (junk junk_r junk_hram : list Z) (signature : list Z) (message : option (list Z))
    (message_len : Z) (public_key private_key : list Z) : option (list Z) :=
  let (_, hash) := sha512_init junk in
  let? (_, hash) := sha512_update hash (Some (private_key +p 32)) 32 in
  let? (_, hash) := sha512_update hash message message_len in
  let? (_, hash, out) := sha512_final hash in
  let? r := store junk_r 0 out in
  let? r := sc_reduce r in
  let? R := ge_scalarmult_base r in
  let? s := ge_p3_tobytes R in
  let? signature := store signature 0 s in
  let (_, hash) := sha512_init (buf hash) in
  let? (_, hash) := sha512_update hash (Some signature) 32 in
  let? (_, hash) := sha512_update hash (Some public_key) 32 in
  let? (_, hash) := sha512_update hash message message_len in
  let? (_, hash, out) := sha512_final hash in
  let? hram := store junk_hram 0 out in
  let? hram := sc_reduce hram in
  let? s := sc_muladd hram private_key r in
  store signature 32 s.

(** * verify.c *)
(** [r = x[0] ^ y[0]; r |= x[i] ^ y[i] for i = 1 .. 31; return !r] *)
Definition consttime_equal (x y : list Z) : option Z :=
  let? x := bytes_at x 32 in
  let? y := bytes_at y 32 in
  let r := foldl (fun r p => u8 (Z.lor r (Z.lxor p.1 p.2))) 0 (zip x y) in
  Some (if r =? 0 then 1 else 0).

Definition ed25519_verify (junk junk_h junk_checker : list Z) (junk_A : ge_p3) (signature : list Z)
    (message : option (list Z)) (message_len : Z) (public_key : list Z) : option Z :=
  let? s63 := signature !! 63%nat in
  if negb (Z.land s63 224 =? 0) then Some 0 else
  let? (rc, A) := ge_frombytes_negate_vartime junk_A public_key in
  if negb (rc =? 0) then Some 0 else
  let (_, hash) := sha512_init junk in
  let? (_, hash) := sha512_update hash (Some signature) 32 in
  let? (_, hash) := sha512_update hash (Some public_key) 32 in
  let? (_, hash) := sha512_update hash message message_len in
  let? (_, hash, out) := sha512_final hash in
  let? h := store junk_h 0 out in
  let? h := sc_reduce h in
  let? R := ge_double_scalarmult_vartime h A (signature +p 32) in
  let? s := ge_tobytes R in
  let? checker := store junk_checker 0 s in
  let? eq := consttime_equal checker signature in
  if eq =? 0 then Some 0 else Some 1.

(** * add_scalar.c *)
Definition SC_1 : list Z := 1 :: replicate 31 0.

(** The private key: a = n + t, with a fresh second half. *)
Definition add_scalar_private (junk junk_hashbuf private_key scalar n : list Z) : option (list Z) :=
  let? s := sc_muladd SC_1 n private_key in
  let? private_key := store private_key 0 s in
  let (_, hash) := sha512_init junk in
  let? (_, hash) := sha512_update hash (Some (private_key +p 32)) 32 in
  let? (_, hash) := sha512_update hash (Some scalar) 32 in
  let? (_, hash, out) := sha512_final hash in
  let? hashbuf := store junk_hashbuf 0 out in
  let? half := bytes_at hashbuf 32 in
  store private_key 32 half.

(** The public key from the public key alone: A = nB + T. *)
Definition add_scalar_public (junk_unpacked : ge_p3) (public_key n : list Z) : option ge_p3 :=
  let? (_, p) := ge_frombytes_negate_vartime junk_unpacked public_key in
  let? X := fe_neg (p3_X p) in
  let? T := fe_neg (p3_T p) in
  let? T := ge_p3_to_cached (GeP3 X (p3_Y p) (p3_Z p) T) in
  let? nB := ge_scalarmult_base n in
  let? A_p1p1 := ge_add nB T in
  ge_p1p1_to_p3 A_p1p1.

(** A key is [None] for NULL. *)
Definition ed25519_add_scalar (junk junk_hashbuf : list Z) (junk_unpacked : ge_p3)
    (public_key private_key : option (list Z)) (scalar : list Z)
  : option (option (list Z) * option (list Z)) :=
  let? low := bytes_at scalar 31 in
  let? s31 := scalar !! 31%nat in
  let n := low ++ [Z.land s31 127] in
  let? private_key :=
    match private_key with
    | None => Some None
    | Some k => let? k := add_scalar_private junk junk_hashbuf k scalar n in Some (Some k)
    end in
  match public_key with
  | None => Some (None, private_key)
  | Some pk =>
      let? A :=
        match private_key with
        | Some k => ge_scalarmult_base k
        | None => add_scalar_public junk_unpacked pk n
        end in
      let? s := ge_p3_tobytes A in
      let? pk := store pk 0 s in
      Some (Some pk, private_key)
  end.

(** The contents of the locals of these functions on entry, for callers. *)
Record locals : Type := Locals {
  l_hash : list Z; l_r : list Z; l_hram : list Z; l_h : list Z; l_checker : list Z; l_A : ge_p3
}.
