(* ===== verification/Ed25519Spec.v ===== *)
(** What the Ed25519 interface promises: key generation, signing and
    verification compute what the signature scheme prescribes on the group of
    Curve, a signature made with a key verifies with it, and adding a scalar
    to a key pair gives a key pair. *)
From S2P Require Import Prelude CInt Fe Prime25519 FeSpec FeBytes Sc ScSpec Sha512 Sha512Spec Curve GeData Ge GeSpec GeBytes GeTable GeMul GeDouble Ed25519.
#[local] Open Scope Z_scope.
#[local] Opaque Zmod.mul Zmod.add Zmod.sub Zmod.opp Zmod.inv Zmod.mdiv Zmod.pow.
#[local] Opaque digest sha512_init sha512_update sha512_final sc_reduce sc_muladd ge_scalarmult_base
  ge_double_scalarmult_vartime ge_tobytes ge_p3_tobytes ge_frombytes_negate_vartime order25519.

(** * Buffers *)
Lemma store_0 p x : zlen x <= zlen p -> store p 0 x = Some (x ++ drop (length x) p).
Proof.
  intros H. unfold store. destruct (Z.leb_spec (0 + zlen x) (zlen p)); [|lia]. cbn [Z.leb Z.compare andb].
  unfold ptr_add. rewrite Z.add_0_l, Nat2Z.id. done.
Qed.

Lemma store_fill p x : length p = length x -> store p 0 x = Some x.
Proof. intros H. rewrite store_0 by lia. by rewrite skipn_all2, app_nil_r by lia. Qed.

(** * Hashing *)
Lemma length_digest m : length (digest m) = 64%nat.
Proof. apply digest_shape. Qed.
Lemma digest_wf m : bytes_wf (digest m).
Proof. apply digest_shape. Qed.

(** The bytes a message argument stands for; NULL is the empty message. *)
Definition read_message (message : option (list Z)) (message_len : Z) : option (list Z) :=
  match message with None => Some [] | Some p => bytes_at p message_len end.

Lemma init_wp {A} junk (k : sha512_context -> option A) Q : length junk = 128%nat -> bytes_wf junk ->
  (forall md, absorbed md [] -> wp (k md) Q) -> wp (let (_, hash) := sha512_init junk in k hash) Q.
Proof.
  intros Hl Hw H. pose proof (absorbed_init junk Hl Hw) as Ha. destruct (sha512_init junk). by apply H.
Qed.

Lemma update_wp {A} md m message len x (k : sha512_context -> option A) Q :
  absorbed md m -> (forall p, message = Some p -> bytes_wf p) -> read_message message len = Some x ->
  (forall md', absorbed md' (m ++ x) -> wp (k md') Q) ->
  wp (let? (_, hash) := sha512_update md message len in k hash) Q.
Proof.
  intros Hm Hw Hx H. destruct message as [p|].
  - destruct (sha512_update_spec md m p len x Hm (Hw p eq_refl) Hx) as (md' & -> & Ha). by apply H.
  - injection Hx as <-. Transparent sha512_update. cbn [sha512_update]. apply H. by rewrite app_nil_r.
Qed.

Lemma final_wp {A} md m (k : sha512_context -> list Z -> option A) Q : absorbed md m -> zlen m < 2 ^ 61 ->
  (forall md', buf_ok md' -> wp (k md' (digest m)) Q) ->
  wp (let? (_, hash, out) := sha512_final md in k hash out) Q.
Proof.
  intros Hm Hl H. destruct (sha512_final_spec md m Hm Hl) as [md' E]. rewrite E. apply H.
  exact (sha512_final_buf _ _ _ _ E (absorbed_buf _ _ Hm)).
Qed.

(** * The scheme *)
Definition hash_scalar (m : list Z) : Z := le_decode (digest m) mod order25519.

(** The signature of [m] with the secret scalar [a], the prefix and the public
    key. *)
Definition signature_of (a : Z) (prefix pk m : list Z) : list Z :=
  let r := hash_scalar (prefix ++ m) in
  let R := point_bytes (r *! base_point) in
  let h := hash_scalar (R ++ pk ++ m) in
  R ++ le_encode 32 ((h * a + r) mod order25519).

(** The verification equation, [Q] the negated public key. *)
Definition accepts (sig pk m : list Z) (Q : point) : Prop :=
  let h := hash_scalar (take 32 sig ++ pk ++ m) in
  point_bytes (padd (h *! Q) (le_decode (take 32 (drop 32 sig)) *! base_point)) = take 32 sig.

Lemma order_range : 0 < order25519 < 2 ^ 253.
Proof. Transparent order25519. unfold order25519. lia. Qed.
#[local] Opaque order25519.

Lemma hash_scalar_range m : 0 <= hash_scalar m < order25519.
Proof. apply Z.mod_pos_bound, order_range. Qed.

(** A reduced hash, as the scalar functions read it. *)
Lemma reduce_digest m : sc_reduce (digest m) = Some (le_encode 32 (hash_scalar m) ++ drop 32 (digest m)).
Proof. apply sc_reduce_spec; [apply digest_wf|by rewrite length_digest]. Qed.

Lemma le_encode_scalar n rest : 0 <= n < order25519 ->
  let b := le_encode 32 n ++ rest in take 32 b = le_encode 32 n /\ le_decode (take 32 b) = n.
Proof.
  intros Hn b. pose proof order_range. assert (take 32 b = le_encode 32 n) as E.
  { unfold b. rewrite take_app_le, firstn_all2 by (rewrite length_le_encode; lia). done. }
  split; [done|]. rewrite E. apply le_decode_encode. change (256 ^ Z.of_nat 32) with (2 ^ 256). lia.
Qed.

Lemma scalar_bytes_wf n m : bytes_wf (le_encode 32 n ++ drop 32 (digest m)).
Proof. apply bytes_wf_app. split; [apply le_encode_wf|apply bytes_wf_drop, digest_wf]. Qed.

Lemma length_scalar_bytes n m : length (le_encode 32 n ++ drop 32 (digest m)) = 64%nat.
Proof. by rewrite length_app, length_le_encode, length_drop, length_digest. Qed.

(** * Hashing a key and a message *)
Lemma read_bytes p n : 0 <= n <= zlen p -> read_message (Some p) n = Some (take (Z.to_nat n) p).
Proof. apply bytes_at_Some. Qed.

Section hashing.
Context (message : option (list Z)) (message_len : Z) (m : list Z).
Hypothesis (Hmsg : forall p, message = Some p -> bytes_wf p) (Hm : read_message message message_len = Some m).
Hypothesis (Hlen : zlen m < 2 ^ 61 - 64).

Lemma hash_prefix_wp {A} junk x (k : sha512_context -> list Z -> option A) Q :
  length junk = 128%nat -> bytes_wf junk -> bytes_wf x -> 32 <= zlen x ->
  (forall md, buf_ok md -> wp (k md (digest (take 32 x ++ m))) Q) ->
  wp (let (_, hash) := sha512_init junk in
      let? (_, hash) := sha512_update hash (Some x) 32 in
      let? (_, hash) := sha512_update hash message message_len in
      let? (_, hash, out) := sha512_final hash in k hash out) Q.
Proof.
  intros Hl Hw Hx Hxl Hk. apply init_wp; [done..|]. intros md Hmd.
  eapply update_wp; [exact Hmd|by intros p [= <-]|apply read_bytes; lia|]. clear md Hmd. intros md Hmd.
  eapply update_wp; [exact Hmd|exact Hmsg|exact Hm|]. clear md Hmd. intros md Hmd.
  eapply final_wp; [exact Hmd|rewrite !length_app, length_take; cbn [length]; lia|exact Hk].
Qed.

Lemma hash_ram_wp {A} junk x y (k : sha512_context -> list Z -> option A) Q :
  length junk = 128%nat -> bytes_wf junk -> bytes_wf x -> 32 <= zlen x -> bytes_wf y -> 32 <= zlen y ->
  (forall md, buf_ok md -> wp (k md (digest (take 32 x ++ take 32 y ++ m))) Q) ->
  wp (let (_, hash) := sha512_init junk in
      let? (_, hash) := sha512_update hash (Some x) 32 in
      let? (_, hash) := sha512_update hash (Some y) 32 in
      let? (_, hash) := sha512_update hash message message_len in
      let? (_, hash, out) := sha512_final hash in k hash out) Q.
Proof.
  intros Hl Hw Hx Hxl Hy Hyl Hk. apply init_wp; [done..|]. intros md Hmd.
  eapply update_wp; [exact Hmd|by intros p [= <-]|apply read_bytes; lia|]. clear md Hmd. intros md Hmd.
  eapply update_wp; [exact Hmd|by intros p [= <-]|apply read_bytes; lia|]. clear md Hmd. intros md Hmd.
  eapply update_wp; [exact Hmd|exact Hmsg|exact Hm|]. clear md Hmd. intros md Hmd.
  rewrite app_nil_l, <- app_assoc in Hmd.
  eapply final_wp; [exact Hmd|rewrite !length_app, !length_take; lia|exact Hk].
Qed.
End hashing.

(** * Signing *)
Section sign.
Context (junk junk_r junk_hram signature : list Z) (message : option (list Z)) (message_len : Z).
Context (public_key private_key m : list Z).
Hypothesis (Hjunk : length junk = 128%nat) (Hjunkw : bytes_wf junk).
Hypothesis (Hr : length junk_r = 64%nat) (Hhram : length junk_hram = 64%nat).
Hypothesis (Hsig : 64 <= zlen signature) (Hsigw : bytes_wf signature).
Hypothesis (Hmsg : forall p, message = Some p -> bytes_wf p) (Hm : read_message message message_len = Some m).
Hypothesis (Hlen : zlen m < 2 ^ 61 - 64).
Hypothesis (Hpk : 32 <= zlen public_key) (Hpkw : bytes_wf public_key).
Hypothesis (Hsk : 64 <= zlen private_key) (Hskw : bytes_wf private_key).

Lemma ed25519_sign_wp :
  wp (ed25519_sign junk junk_r junk_hram signature message message_len public_key private_key)
    (fun s => s = signature_of (le_decode (take 32 private_key)) (take 32 (drop 32 private_key))
                    (take 32 public_key) m ++ drop 64 signature).
Proof.
  unfold ed25519_sign. apply (hash_prefix_wp _ _ m Hmsg Hm Hlen junk (private_key +p 32) (fun hash out => _)); [done..|by apply bytes_wf_drop| |].
  { unfold ptr_add. rewrite length_drop. lia. }
  unfold ptr_add. change (Z.to_nat 32) with 32%nat. intros md [Hbl Hbw]. set (prefix := take 32 (drop 32 private_key)).
  rewrite store_fill by (by rewrite length_digest). rewrite reduce_digest.
  pose proof (hash_scalar_range (prefix ++ m)) as Hrr. set (r := hash_scalar (prefix ++ m)) in *.
  destruct (le_encode_scalar r (drop 32 (digest (prefix ++ m))) Hrr) as [Et Ed].
  pose proof (scalar_bytes_wf r (prefix ++ m)) as Hrw. pose proof (length_scalar_bytes r (prefix ++ m)) as Hrl.
  set (rb := le_encode 32 r ++ drop 32 (digest (prefix ++ m))) in *.
  pose proof order_range. apply wp_bind. eapply wp_mono; [apply ge_scalarmult_base_spec; [done|lia|lia]|].
  rewrite Ed. cbv beta. intros R HR. rewrite (ge_p3_tobytes_spec _ _ HR). set (Rb := point_bytes (r *! base_point)).
  assert (length Rb = 32%nat) as HRl by apply length_point_bytes. assert (bytes_wf Rb) as HRw by apply point_bytes_wf.
  rewrite store_0 by lia. rewrite HRl. set (sig1 := Rb ++ drop 32 signature).
  assert (take 32 sig1 = Rb) as Es1 by (unfold sig1; by rewrite take_app_le, firstn_all2 by lia).
  assert (zlen sig1 = zlen signature) as Hsl by (unfold sig1; rewrite length_app, length_drop; lia).
  assert (bytes_wf sig1) as Hsw by (apply bytes_wf_app; split; [done|by apply bytes_wf_drop]).
  apply (hash_ram_wp _ _ m Hmsg Hm Hlen (buf md) sig1 public_key (fun hash out => _)); [done|done|done|lia|done|done|].
  intros md2 _. rewrite Es1. rewrite store_fill by (by rewrite length_digest). rewrite reduce_digest.
  set (hm := Rb ++ take 32 public_key ++ m). pose proof (hash_scalar_range hm) as Hhr.
  rewrite sc_muladd_bytes; [|apply scalar_bytes_wf|done|done|rewrite length_scalar_bytes; lia|lia|lia].
  destruct (le_encode_scalar (hash_scalar hm) (drop 32 (digest hm)) Hhr) as [_ Ehd]. rewrite Ehd, Ed.
  unfold store. rewrite length_le_encode, Hsl. cbn [Z.leb Z.compare andb].
  destruct (Z.leb_spec (32 + Z.of_nat 32) (zlen signature)); [|lia]. cbn [wp].
  change (Z.to_nat 32) with 32%nat. rewrite Es1. unfold signature_of. fold prefix. fold r. fold Rb. fold hm.
  rewrite <- app_assoc. do 2 f_equal. unfold ptr_add, sig1. rewrite drop_app_ge, drop_drop by lia. f_equal; lia.
Qed.
End sign.

(** * Verification *)
Lemma lor_byte_0 a b : is_byte a -> is_byte b -> u8 (Z.lor a b) = 0 <-> a = 0 /\ b = 0.
Proof.
  intros Ha Hb. assert (0 <= Z.lor a b < 2 ^ 8) as Hl.
  { unfold is_byte in *. split; [apply Z.lor_nonneg; lia|].
    apply bits_bounded; [lia|apply Z.lor_nonneg; lia|]. intros k Hk. rewrite Z.lor_spec, !(testbit_high _ 8) by lia. done. }
  unfold u8. rewrite Z.mod_small by done. apply Z.lor_eq_0_iff.
Qed.

Lemma lxor_byte a b : is_byte a -> is_byte b -> is_byte (Z.lxor a b).
Proof.
  unfold is_byte. intros Ha Hb. change 256 with (2 ^ 8) in *. split; [apply Z.lxor_nonneg; lia|].
  apply bits_bounded; [lia|apply Z.lxor_nonneg; lia|]. intros k Hk. rewrite Z.lxor_spec, !(testbit_high _ 8) by lia. done.
Qed.

Lemma difference_0 x y r : length x = length y -> bytes_wf x -> bytes_wf y -> is_byte r ->
  foldl (fun r p => u8 (Z.lor r (Z.lxor p.1 p.2))) r (zip x y) = 0 <-> r = 0 /\ x = y.
Proof.
  intros Hl Hx. revert y r Hl. induction Hx as [|a x Ha Hx IH]; intros [|b y] r Hl Hy Hr; try done.
  { cbn. split; [by intros ->|by intros [-> _]]. }
  apply Forall_cons in Hy as [Hb Hy]. cbn [zip zip_with foldl fst snd].
  rewrite IH; [|by injection Hl|done|apply u8_byte]. rewrite lor_byte_0 by (done || by apply lxor_byte).
  rewrite Z.lxor_eq_0_iff. naive_solver.
Qed.

Lemma consttime_equal_spec x y : bytes_wf x -> bytes_wf y -> 32 <= zlen x -> 32 <= zlen y ->
  consttime_equal x y = Some (if decide (take 32 x = take 32 y) then 1 else 0).
Proof.
  intros Hx Hy Lx Ly. unfold consttime_equal. rewrite !bytes_at_Some by lia. change (Z.to_nat 32) with 32%nat.
  pose proof (difference_0 (take 32 x) (take 32 y) 0) as H. rewrite !length_take in H.
  specialize (H ltac:(lia) (bytes_wf_take _ _ Hx) (bytes_wf_take _ _ Hy) ltac:(by unfold is_byte)).
  set (r := foldl _ 0 (zip (take 32 x) (take 32 y))) in *. cbv zeta.
  destruct (Z.eqb_spec r 0) as [E|E]; case_decide as D; try done.
  - by apply H in E as [_ E].
  - destruct E. by apply H.
Qed.

Lemma high_bits_clear b : is_byte b -> Z.land b 224 = 0 -> b < 32.
Proof.
  intros Hb H. assert (forallb (fun b => negb (Z.land b 224 =? 0) || (b <? 32)) (seqZ 0 256) = true) as Ht
    by (vm_compute; reflexivity).
  rewrite forallb_forall in Ht. specialize (Ht b). rewrite <- list_elem_of_In, elem_of_seqZ in Ht.
  unfold is_byte in Hb. specialize (Ht ltac:(lia)). rewrite H in Ht. cbn [Z.eqb negb orb] in Ht. lia.
Qed.

Lemma low_bits_clear b : 0 <= b < 32 -> Z.land (u8 b) 224 = 0.
Proof.
  intros Hb. assert (forallb (fun b => Z.land (u8 b) 224 =? 0) (seqZ 0 32) = true) as Ht by (vm_compute; reflexivity).
  rewrite forallb_forall in Ht. apply Z.eqb_eq, Ht. apply list_elem_of_In, elem_of_seqZ. lia.
Qed.

Lemma scalar_below_253 s b : bytes_wf s -> s !! 63%nat = Some b -> b < 32 ->
  le_decode (take 32 (drop 32 s)) < 2 ^ 253.
Proof.
  intros Hs Hb Hlt. rewrite (take_S_r (drop 32 s) 31 b) by (rewrite lookup_drop; exact Hb).
  pose proof (lookup_lt_Some _ _ _ Hb). rewrite le_decode_app, length_take, length_drop.
  pose proof (le_decode_bound _ (bytes_wf_take 31 _ (bytes_wf_drop 32 _ Hs))) as Hd. rewrite length_take, length_drop in Hd.
  replace (Z.of_nat (31 `min` (length s - 32))) with 31 in * by lia.
  change (256 ^ 31) with (2 ^ 248) in *. cbn [le_decode]. lia.
Qed.

Lemma decodes_neg_unique s Q1 Q2 : bytes_wf s -> decodes_neg s Q1 -> decodes_neg s Q2 -> Q1 = Q2.
Proof.
  intros Hs [Hy1 (b & Hb & H1)] [Hy2 (b2 & Hb2 & H2)]. rewrite Hb in Hb2. injection Hb2 as <-.
  apply point_eq; [|by rewrite Hy1].
  pose proof (coords_on Q1) as O1. pose proof (coords_on Q2) as O2. unfold px, py in *.
  destruct (coords Q1) as [x1 y1], (coords Q2) as [x2 y2]. cbn [fst snd] in *. subst y1 y2.
  apply curve_y in O1, O2. destruct (same_y _ _ _ O1 O2) as [E|E]; [exact E|].
  destruct (decide (x2 = Zmod.zero)) as [->|N2]; [rewrite E; ring|].
  assert (x1 <> Zmod.zero) as N1.
  { intros E0. apply N2. rewrite E in E0. transitivity (- - x2)%Zmod; [ring|]. rewrite E0. ring. }
  destruct H1 as [?|H1]; [contradiction|]. destruct H2 as [?|H2]; [contradiction|].
  rewrite E, (parity_opp x2 N2) in H1. pose proof (parity_range x2). lia.
Qed.

(** A signature is accepted: the scalar is below 2^253, the key decodes and
    the equation holds. *)
Definition accepted (sig pk m : list Z) : Prop :=
  (exists s63, sig !! 63%nat = Some s63 /\ Z.land s63 224 = 0) /\
  exists Q, decodes_neg pk Q /\ accepts sig (take 32 pk) m Q.

Section verify.
Context (junk junk_h junk_checker : list Z) (junk_A : ge_p3) (signature : list Z).
Context (message : option (list Z)) (message_len : Z) (public_key m : list Z).
Hypothesis (Hjunk : length junk = 128%nat) (Hjunkw : bytes_wf junk).
Hypothesis (Hh : length junk_h = 64%nat) (Hchecker : length junk_checker = 32%nat).
Hypothesis (Hsig : 64 <= zlen signature) (Hsigw : bytes_wf signature).
Hypothesis (Hmsg : forall p, message = Some p -> bytes_wf p) (Hm : read_message message message_len = Some m).
Hypothesis (Hlen : zlen m < 2 ^ 61 - 64).
Hypothesis (Hpk : 32 <= zlen public_key) (Hpkw : bytes_wf public_key).

Lemma ed25519_verify_wp :
  wp (ed25519_verify junk junk_h junk_checker junk_A signature message message_len public_key)
    (fun v => (v = 1 /\ accepted signature public_key m) \/ (v = 0 /\ ~ accepted signature public_key m)).
Proof.
  unfold ed25519_verify. destruct (lookup_lt_is_Some_2 signature 63 ltac:(lia)) as [s63 E63]. rewrite E63.
  destruct (Z.eqb_spec (Z.land s63 224) 0) as [Hc|Hc]; cbn [negb].
  2: { right. split; [done|]. intros [(b & Hb & Hb0) _]. congruence. }
  pose proof (high_bits_clear s63 (Forall_lookup_1 _ _ _ _ Hsigw E63) Hc) as H32.
  pose proof (scalar_below_253 _ _ Hsigw E63 H32) as Hs.
  apply wp_bind. eapply wp_mono; [apply ge_frombytes_negate_vartime_spec; done|].
  intros [rc A] [[Hrc (Q & HQ & Hd)]|(Hrc & _ & Hn)]; cbn [fst snd] in *; subst rc; cbn [negb Z.eqb].
  2: { right. split; [done|]. intros [_ (Q & [Hy _] & _)]. by apply (Hn Q). }
  apply (hash_ram_wp _ _ m Hmsg Hm Hlen junk signature public_key (fun hash out => _)); [done|done|done|lia|done|done|].
  intros md _. rewrite store_fill by (by rewrite length_digest). rewrite reduce_digest.
  set (hm := take 32 signature ++ take 32 public_key ++ m). pose proof (hash_scalar_range hm) as Hhr.
  pose proof order_range. destruct (le_encode_scalar (hash_scalar hm) (drop 32 (digest hm)) Hhr) as [_ Ehd].
  apply wp_bind. eapply wp_mono.
  { apply (ge_double_scalarmult_vartime_spec _ _ _ _ HQ); [apply scalar_bytes_wf|rewrite length_scalar_bytes; lia
      |rewrite Ehd; lia|by apply bytes_wf_drop|unfold ptr_add; rewrite length_drop; lia|exact Hs]. }
  rewrite Ehd. cbv beta. intros R HR. rewrite (ge_tobytes_spec _ _ HR). set (Rb := point_bytes _).
  assert (length Rb = 32%nat) as HRl by apply length_point_bytes.
  rewrite store_fill by congruence. rewrite consttime_equal_spec by (apply point_bytes_wf || done || lia).
  rewrite (firstn_all2 Rb) by lia. case_decide as D; cbn [Z.eqb wp]; [left|right].
  - split; [done|]. split; [by exists s63|]. exists Q. split; [exact Hd|exact D].
  - split; [done|]. intros [_ (Q' & Hd' & Ha)]. apply D.
    rewrite <- (decodes_neg_unique _ Q Q' Hpkw Hd Hd') in Ha. exact Ha.
Qed.
End verify.

(** * Correctness of signatures *)
(** A signature satisfies the equation of the key it was made with. *)
Lemma signature_of_accepted a prefix pk m rest : bytes_wf pk -> take 32 pk = point_bytes (a *! base_point) ->
  accepted (signature_of a prefix (take 32 pk) m ++ rest) pk m.
Proof.
  intros Hpkw Hpk. unfold signature_of. set (r := hash_scalar (prefix ++ m)). set (R := point_bytes (r *! base_point)).
  set (h := hash_scalar (R ++ take 32 pk ++ m)). set (s := (h * a + r) mod order25519).
  pose proof order_range. assert (0 <= s < order25519) as Hs by (apply Z.mod_pos_bound; lia).
  assert (length R = 32%nat) as HR by apply length_point_bytes.
  destruct (le_encode_scalar s rest Hs) as [Et Ed].
  set (sig := (R ++ le_encode 32 s) ++ rest).
  assert (sig = R ++ le_encode 32 s ++ rest) as Es by (unfold sig; by rewrite app_assoc).
  assert (take 32 sig = R) as E1 by (rewrite Es, take_app_le, firstn_all2 by lia; done).
  assert (drop 32 sig = le_encode 32 s ++ rest) as E2 by (rewrite Es, drop_app_ge, HR by lia; done).
  split.
  - exists (u8 (s / 256 ^ 31)). split.
    + change 63%nat with (32 + 31)%nat. rewrite <- lookup_drop, E2, (le_encode_snoc 31), <- app_assoc.
      rewrite lookup_app_r by (rewrite length_le_encode; lia). by rewrite length_le_encode.
    + apply low_bits_clear. change (256 ^ 31) with (2 ^ 248).
      split; [apply Z.div_pos; lia|apply Z.div_lt_upper_bound; lia].
  - exists (popp (a *! base_point)). split.
    + by apply point_bytes_decodes.
    + unfold accepts. rewrite E1, E2, Ed. fold h. unfold R. f_equal.
      rewrite <- (z_mul_opp (G:=point_group)), <- (z_mul_mul (G:=point_group)).
      unfold s. rewrite (z_mul_mod (G:=point_group) order25519) by exact base_point_order.
      rewrite <- (z_mul_add (G:=point_group)). f_equal. lia.
Qed.

(** * Key generation *)
(** The secret scalar: the low 254 bits with the lowest three cleared and bit
    254 set. *)
Definition clamp (d : Z) : Z := 2 ^ 254 + 8 * ((d mod 2 ^ 254) / 8).

Lemma clamp_range d : 2 ^ 254 <= clamp d < 2 ^ 255.
Proof.
  unfold clamp. pose proof (Z.mod_pos_bound d (2 ^ 254)). pose proof (Z.div_mod (d mod 2 ^ 254) 8).
  pose proof (Z.mod_pos_bound (d mod 2 ^ 254) 8). assert (0 <= d mod 2 ^ 254 / 8) by (apply Z.div_pos; lia). lia.
Qed.

Lemma clamp_bytes b0 mid b31 : is_byte b0 -> is_byte b31 -> length mid = 30%nat -> bytes_wf mid ->
  le_decode (u8 (Z.land b0 248) :: mid ++ [u8 (Z.lor (u8 (Z.land b31 63)) 64)]) = clamp (le_decode (b0 :: mid ++ [b31])).
Proof.
  intros H0 H31 Hl Hm.
  assert (u8 (Z.land b0 248) = 8 * (b0 / 8)) as E0.
  { assert (forallb (fun b => u8 (Z.land b 248) =? 8 * (b / 8)) (seqZ 0 256) = true) as Ht by (vm_compute; reflexivity).
    rewrite forallb_forall in Ht. apply Z.eqb_eq, Ht, list_elem_of_In, elem_of_seqZ. unfold is_byte in H0. lia. }
  assert (u8 (Z.lor (u8 (Z.land b31 63)) 64) = 64 + b31 mod 64) as E31.
  { assert (forallb (fun b => u8 (Z.lor (u8 (Z.land b 63)) 64) =? 64 + b mod 64) (seqZ 0 256) = true) as Ht
      by (vm_compute; reflexivity).
    rewrite forallb_forall in Ht. apply Z.eqb_eq, Ht, list_elem_of_In, elem_of_seqZ. unfold is_byte in H31. lia. }
  rewrite E0, E31. cbn [le_decode]. rewrite !le_decode_app, Hl. cbn [le_decode].
  change (256 ^ Z.of_nat 30) with (2 ^ 240). pose proof (le_decode_bound mid Hm) as Hb. rewrite Hl in Hb.
  change (256 ^ Z.of_nat 30) with (2 ^ 240) in Hb. set (M := le_decode mid) in *.
  unfold is_byte, clamp in *. pose proof (Z.div_mod b31 64). pose proof (Z.mod_pos_bound b31 64).
  pose proof (Z.div_mod b0 8). pose proof (Z.mod_pos_bound b0 8).
  assert ((b0 + 256 * (M + 2 ^ 240 * (b31 + 256 * 0))) mod 2 ^ 254 = b0 + 256 * (M + 2 ^ 240 * (b31 mod 64))) as ->.
  { symmetry. apply Z.mod_unique_pos with (q := b31 / 64); [lia|]. lia. }
  replace (b0 + 256 * (M + 2 ^ 240 * (b31 mod 64))) with (b0 mod 8 + (b0 / 8 + 32 * (M + 2 ^ 240 * (b31 mod 64))) * 8) by lia.
  rewrite Z.div_add, (Z.div_small (b0 mod 8)) by lia. lia.
Qed.

Lemma list_split_32 (k : list Z) : (32 <= length k)%nat ->
  exists b0 mid b31 rest, k = b0 :: mid ++ b31 :: rest /\ length mid = 30%nat.
Proof.
  intros H. destruct k as [|b0 k]; [simpl in H; lia|]. destruct (lookup_lt_is_Some_2 k 30) as [b31 Hb]; [simpl in H; lia|].
  exists b0, (take 30 k), b31, (drop 31 k). split.
  - f_equal. rewrite <- (take_drop 30 k) at 1. f_equal. apply (drop_S k b31 30 Hb).
  - rewrite length_take. simpl in H. lia.
Qed.

Section split_32.
Context (x y : Z) (mid tl : list Z) (Hmid : length mid = 30%nat).

Lemma split_take : take 32 (x :: mid ++ y :: tl) = x :: mid ++ [y].
Proof using Hmid.
  replace (x :: mid ++ y :: tl) with ((x :: mid ++ [y]) ++ tl) by (cbn; by rewrite <- app_assoc).
  apply take_app_length'. cbn [length]. rewrite length_app. cbn [length]. lia.
Qed.

Lemma split_drop : drop 32 (x :: mid ++ y :: tl) = tl.
Proof using Hmid.
  replace (x :: mid ++ y :: tl) with ((x :: mid ++ [y]) ++ tl) by (cbn; by rewrite <- app_assoc).
  apply drop_app_length'. cbn [length]. rewrite length_app. cbn [length]. lia.
Qed.

Lemma update_byte_31 f : update_byte (x :: mid ++ y :: tl) 31 f = Some (x :: mid ++ u8 (f y) :: tl).
Proof using Hmid.
  unfold update_byte. replace 31%nat with (S (length mid)) by lia.
  cbn [lookup list_lookup insert list_insert].
  rewrite (list_lookup_middle mid tl y) by done. by rewrite (insert_app_r_alt mid), Nat.sub_diag by lia.
Qed.
End split_32.

Section keypair.
Context (junk public_key private_key seed : list Z).
Hypothesis (Hjunk : length junk = 128%nat) (Hjunkw : bytes_wf junk).
Hypothesis (Hpk : 32 <= zlen public_key) (Hsk : 64 <= zlen private_key) (Hskw : bytes_wf private_key).
Hypothesis (Hseed : 32 <= zlen seed) (Hseedw : bytes_wf seed).

(** The keys of the seed: the clamped hash, whose scalar is that of the
    public point. *)
Lemma ed25519_create_keypair_wp :
  wp (ed25519_create_keypair junk public_key private_key seed) (fun keys =>
    let d := digest (take 32 seed) in let a := clamp (le_decode (take 32 d)) in
    le_decode (take 32 keys.2) = a /\ drop 32 keys.2 = drop 32 d ++ drop 64 private_key /\
    bytes_wf keys.2 /\ length keys.2 = length private_key /\
    keys.1 = point_bytes (a *! base_point) ++ drop 32 public_key).
Proof.
  unfold ed25519_create_keypair.
  rewrite (sha512_spec junk seed 32 (take 32 seed)); [|done..|apply bytes_at_Some; lia|lia].
  set (d := digest (take 32 seed)). pose proof (length_digest (take 32 seed)) as Hdl. fold d in Hdl.
  pose proof (digest_wf (take 32 seed)) as Hdw. fold d in Hdw.
  rewrite store_0 by lia. rewrite Hdl. destruct (list_split_32 d ltac:(lia)) as (b0 & mid & b31 & rest & Ed & Hmid).
  clearbody d. subst d. pose proof Hdw as Hdw'. unfold bytes_wf in Hdw'.
  rewrite Forall_cons, Forall_app, Forall_cons in Hdw'. destruct Hdw' as (W0 & Wm & W31 & Wr).
  set (tl := rest ++ drop 64 private_key).
  assert ((b0 :: mid ++ b31 :: rest) ++ drop 64 private_key = b0 :: mid ++ b31 :: tl) as -> by (unfold tl; cbn; by rewrite <- app_assoc).
  change (update_byte (b0 :: mid ++ b31 :: tl) 0 _) with (Some (u8 (Z.land b0 248) :: mid ++ b31 :: tl)). cbv beta iota.
  rewrite !update_byte_31 by done. set (b0' := u8 (Z.land b0 248)). set (b31' := u8 (Z.lor (u8 (Z.land b31 63)) 64)).
  assert (bytes_wf (b0' :: mid ++ b31' :: tl)) as Hw.
  { unfold bytes_wf, tl. rewrite Forall_cons, Forall_app, Forall_cons, Forall_app.
    split_and!; [apply u8_byte|done|apply u8_byte|done|by apply bytes_wf_drop]. }
  assert (length (b0' :: mid ++ b31' :: tl) = length private_key) as Hl.
  { unfold tl. cbn [length] in *. rewrite !length_app in *. cbn [length] in *. rewrite length_app, length_drop. lia. }
  rewrite !split_take, split_drop by done. pose proof (clamp_bytes b0 mid b31 W0 W31 Hmid Wm) as Ec.
  fold b0' in Ec. fold b31' in Ec. set (a := clamp _) in *. pose proof (clamp_range (le_decode (b0 :: mid ++ [b31]))) as Hr.
  fold a in Hr. apply wp_bind. eapply wp_mono; [apply ge_scalarmult_base_spec; [exact Hw|lia|]|].
  { rewrite split_take, Ec by done. lia. }
  cbv beta. rewrite split_take, Ec by done. intros A HA. rewrite (ge_p3_tobytes_spec _ _ HA).
  rewrite store_0 by (rewrite length_point_bytes; lia). rewrite length_point_bytes. cbn [wp fst snd].
  rewrite split_take, split_drop, Ec by done. split_and!; done.
Qed.
End keypair.

(** * Adding a scalar *)
Lemma negate_p3 p X T P : p ⊨ popp P -> fe_bd 101 X -> fe_bd 101 T ->
  fe_F X = (- fe_F (p3_X p))%Zmod -> fe_F T = (- fe_F (p3_T p))%Zmod -> GeP3 X (p3_Y p) (p3_Z p) T ⊨ P.
Proof.
  intros [] BX BT EX ET. rewrite px_popp, py_popp in *.
  split; cbn [p3_X p3_Y p3_Z p3_T]; try assumption; fe_eqs; ring.
Qed.

(** The scalar with its highest bit cleared. *)
Lemma clear_top scalar s31 : bytes_wf scalar -> 32 <= zlen scalar -> scalar !! 31%nat = Some s31 ->
  let n := take 31 scalar ++ [Z.land s31 127] in
  bytes_wf n /\ length n = 32%nat /\ le_decode n = le_decode (take 32 scalar) mod 2 ^ 255.
Proof.
  intros Hw Hl Hs. cbv zeta. pose proof (Forall_lookup_1 _ _ _ _ Hw Hs) as Hb. unfold is_byte in Hb.
  change 127 with (Z.ones 7). rewrite Z.land_ones by lia. pose proof (Z.mod_pos_bound s31 (2 ^ 7)).
  pose proof (bytes_wf_take 31 _ Hw) as Hlow. pose proof (Z.div_mod s31 (2 ^ 7)).
  assert (length (take 31 scalar) = 31%nat) as Ht by (rewrite length_take; lia).
  split_and!; [apply bytes_wf_app; split; [done|apply Forall_singleton; unfold is_byte; lia]|rewrite length_app, Ht; done|].
  rewrite (take_S_r scalar 31 s31 Hs), !le_decode_app, Ht. cbn [le_decode].
  pose proof (le_decode_bound _ Hlow) as Hd. rewrite Ht in Hd. change (256 ^ Z.of_nat 31) with (2 ^ 248) in *.
  apply Z.mod_unique_pos with (q := s31 / 2 ^ 7); lia.
Qed.

Section add_scalar.
Context (junk junk_hashbuf : list Z) (junk_unpacked : ge_p3) (scalar n : list Z).
Hypothesis (Hjunk : length junk = 128%nat) (Hjunkw : bytes_wf junk) (Hhb : length junk_hashbuf = 64%nat).
Hypothesis (Hscalar : 32 <= zlen scalar) (Hscalarw : bytes_wf scalar).
Hypothesis (Hnw : bytes_wf n) (Hn : length n = 32%nat) (Hn255 : le_decode n < 2 ^ 255).

Lemma add_scalar_private_wp k : 64 <= zlen k -> bytes_wf k ->
  wp (add_scalar_private junk junk_hashbuf k scalar n) (fun k' =>
    k' = le_encode 32 ((le_decode n + le_decode (take 32 k)) mod order25519) ++
         take 32 (digest (take 32 (drop 32 k) ++ take 32 scalar)) ++ drop 64 k).
Proof using Hhb Hjunk Hjunkw Hn Hnw Hscalar Hscalarw.
  intros Hk Hkw. unfold add_scalar_private.
  rewrite sc_muladd_bytes; [|by apply bytes_wfb_spec|done|done|done|lia|lia].
  rewrite (firstn_all2 n) by lia. change (le_decode (take 32 SC_1)) with 1. rewrite Z.mul_1_l.
  set (s := le_encode 32 _). assert (length s = 32%nat) as Hs by apply length_le_encode.
  rewrite store_0, Hs by lia. set (k1 := s ++ drop 32 k).
  assert (drop 32 k1 = drop 32 k) as E1 by (unfold k1; rewrite drop_app_ge, Hs by lia; done).
  assert (zlen k1 = zlen k) as Hl1 by (unfold k1; rewrite length_app, length_drop; lia).
  assert (bytes_wf k1) as Hw1 by (apply bytes_wf_app; split; [apply le_encode_wf|by apply bytes_wf_drop]).
  apply (hash_prefix_wp (Some scalar) 32 (take 32 scalar)
    ltac:(by intros p [= <-]) (read_bytes scalar 32 ltac:(lia)) ltac:(rewrite length_take; lia)
    junk (k1 +p 32) (fun hash out => _)); [done|done|by apply bytes_wf_drop|unfold ptr_add; rewrite length_drop; lia|].
  unfold ptr_add. change (Z.to_nat 32) with 32%nat. rewrite E1. intros md _.
  set (d := digest _). assert (length d = 64%nat) as Hd by apply length_digest.
  rewrite store_fill, bytes_at_Some by lia. change (Z.to_nat 32) with 32%nat.
  unfold store. rewrite length_take, Hd, Hl1. cbn [Z.leb Z.compare andb].
  destruct (Z.leb_spec (32 + Z.of_nat (32 `min` 64)) (zlen k)); [|lia]. cbn [wp].
  change (Z.to_nat 32) with 32%nat. unfold k1, ptr_add. rewrite take_app_le, firstn_all2 by lia.
  f_equal. f_equal. change (Z.to_nat (32 + Z.of_nat (32 `min` 64))) with 64%nat.
  rewrite drop_app_ge, drop_drop by lia. f_equal; lia.
Qed.

Lemma add_scalar_public_wp pk P : bytes_wf pk -> take 32 pk = point_bytes P ->
  wp (add_scalar_public junk_unpacked pk n) (fun A => A ⊨ padd (le_decode n *! base_point) P).
Proof using Hn Hnw Hn255.
  clear Hjunk Hjunkw Hhb Hscalar Hscalarw. intros Hw Hp. unfold add_scalar_public. apply wp_bind. eapply wp_mono; [by apply frombytes_point_bytes|].
  intros [rc p] [_ Hpp]. cbn [fst snd] in *. pose proof (p3_bX _ _ Hpp). pose proof (p3_bT _ _ Hpp).
  do 2 fe_step. apply wp_bind. eapply wp_mono; [apply ge_p3_to_cached_spec, (negate_p3 p h h0 P); assumption|].
  cbv beta. intros T HT. apply wp_bind. eapply wp_mono; [apply ge_scalarmult_base_spec; [done|lia|]|].
  { rewrite firstn_all2 by lia. done. }
  cbv beta. rewrite firstn_all2 by lia. intros nB HnB.
  apply wp_bind. eapply wp_mono; [exact (ge_add_spec _ _ _ _ HnB HT)|]. cbv beta. intros r Hr.
  exact (ge_p1p1_to_p3_spec _ _ Hr).
Qed.
End add_scalar.

(** A key pair: the public key is that of the secret scalar. *)
Definition key_pair (public_key private_key : list Z) : Prop :=
  bytes_wf public_key /\ bytes_wf private_key /\ 64 <= zlen private_key /\
  take 32 public_key = point_bytes (le_decode (take 32 private_key) *! base_point).

(** The scalar an [ed25519_add_scalar] adds. *)
Definition added (scalar : list Z) : Z := le_decode (take 32 scalar) mod 2 ^ 255.

(** The private key after the addition. *)
Definition new_private (scalar k : list Z) : list Z :=
  le_encode 32 ((added scalar + le_decode (take 32 k)) mod order25519) ++
  take 32 (digest (take 32 (drop 32 k) ++ take 32 scalar)) ++ drop 64 k.

Lemma new_private_shape scalar k : 64 <= zlen k -> bytes_wf k ->
  bytes_wf (new_private scalar k) /\ length (new_private scalar k) = length k /\
  le_decode (take 32 (new_private scalar k)) = (added scalar + le_decode (take 32 k)) mod order25519.
Proof.
  intros Hk Hkw. pose proof order_range. unfold new_private.
  pose proof (length_digest (take 32 (drop 32 k) ++ take 32 scalar)) as Hd.
  split_and!.
  - rewrite !bytes_wf_app. split_and!; [apply le_encode_wf|apply bytes_wf_take, digest_wf|by apply bytes_wf_drop].
  - rewrite !length_app, length_le_encode, length_take, length_drop, Hd. lia.
  - apply le_encode_scalar. apply Z.mod_pos_bound. lia.
Qed.

Section add_scalar_keys.
Context (junk junk_hashbuf : list Z) (junk_unpacked : ge_p3) (scalar : list Z).
Hypothesis (Hjunk : length junk = 128%nat) (Hjunkw : bytes_wf junk) (Hhb : length junk_hashbuf = 64%nat).
Hypothesis (Hscalar : 32 <= zlen scalar) (Hscalarw : bytes_wf scalar).

(** The scalar is read and its top bit cleared before either key is touched. *)
Lemma add_scalar_unfold public_key private_key Q :
  (forall n, bytes_wf n -> length n = 32%nat -> le_decode n = added scalar -> le_decode n < 2 ^ 255 ->
    wp (let? private_key :=
          match private_key with
          | None => Some None
          | Some k => let? k := add_scalar_private junk junk_hashbuf k scalar n in Some (Some k)
          end in
        match public_key with
        | None => Some (None, private_key)
        | Some pk =>
            let? A :=
              match private_key with
              | Some k => ge_scalarmult_base k
              | None => add_scalar_public junk_unpacked pk n
              end in
            let? s := ge_p3_tobytes A in
            let? pk := store pk 0 s in
            Some (Some pk, private_key)
        end) Q) ->
  wp (ed25519_add_scalar junk junk_hashbuf junk_unpacked public_key private_key scalar) Q.
Proof using Hscalar Hscalarw.
  clear Hjunk Hjunkw Hhb. intros H. unfold ed25519_add_scalar. rewrite bytes_at_Some by lia. change (Z.to_nat 31) with 31%nat.
  destruct (lookup_lt_is_Some_2 scalar 31 ltac:(lia)) as [s31 E31]. rewrite E31.
  destruct (clear_top scalar s31 Hscalarw Hscalar E31) as (Hw & Hl & Ev).
  apply H; [done..|]. rewrite Ev. apply Z.mod_pos_bound. lia.
Qed.

(** With the private key: the new keys are again a pair. *)
Lemma add_scalar_pair_wp pk k : key_pair pk k ->
  wp (ed25519_add_scalar junk junk_hashbuf junk_unpacked (Some pk) (Some k) scalar) (fun r =>
    exists pk', r = (Some pk', Some (new_private scalar k)) /\ key_pair pk' (new_private scalar k) /\
      pk' = point_bytes (padd (added scalar *! base_point) (le_decode (take 32 k) *! base_point)) ++ drop 32 pk).
Proof.
  intros (Hpw & Hkw & Hk & Hp). pose proof order_range as Hord. apply add_scalar_unfold. intros n Hnw Hn En Hn255.
  apply wp_bind, wp_bind. eapply wp_mono; [by apply add_scalar_private_wp|]. cbv beta. intros k' ->.
  rewrite En. fold (new_private scalar k). cbn [wp]. destruct (new_private_shape scalar k Hk Hkw) as (Hw' & Hl' & Ev').
  apply wp_bind. eapply wp_mono; [apply ge_scalarmult_base_spec; [done|lia|]|].
  { rewrite Ev'. pose proof (Z.mod_pos_bound (added scalar + le_decode (take 32 k)) order25519). lia. }
  cbv beta. intros A HA. rewrite (ge_p3_tobytes_spec _ _ HA).
  assert (32 <= zlen pk). { pose proof (f_equal length Hp) as El. rewrite length_take, length_point_bytes in El. lia. }
  rewrite store_0 by (rewrite length_point_bytes; lia). rewrite length_point_bytes. cbn [wp].
  set (pk' := _ ++ drop 32 pk). exists pk'. split; [done|]. split; [split_and!|].
  - apply bytes_wf_app. split; [apply point_bytes_wf|by apply bytes_wf_drop].
  - done.
  - lia.
  - unfold pk'. rewrite take_app_le, firstn_all2 by (rewrite length_point_bytes; lia). done.
  - unfold pk'. f_equal. f_equal. rewrite Ev', (z_mul_mod (G:=point_group)) by exact base_point_order.
    apply (z_mul_add (G:=point_group)).
Qed.

(** With the public key alone: the point is moved by the same multiple of B. *)
Lemma add_scalar_public_key_wp pk P : bytes_wf pk -> take 32 pk = point_bytes P ->
  wp (ed25519_add_scalar junk junk_hashbuf junk_unpacked (Some pk) None scalar) (fun r =>
    r = (Some (point_bytes (padd (added scalar *! base_point) P) ++ drop 32 pk), None)).
Proof using Hscalar Hscalarw.
  clear Hjunk Hjunkw Hhb. intros Hpw Hp. apply add_scalar_unfold. intros n Hnw Hn En Hn255. cbn [wp].
  apply wp_bind. eapply wp_mono; [by apply add_scalar_public_wp|]. cbv beta. rewrite En. intros A HA.
  rewrite (ge_p3_tobytes_spec _ _ HA).
  assert (32 <= zlen pk). { pose proof (f_equal length Hp) as El. rewrite length_take, length_point_bytes in El. lia. }
  rewrite store_0 by (rewrite length_point_bytes; lia). rewrite length_point_bytes. done.
Qed.
End add_scalar_keys.

(** * A public key that encodes no point *)
Definition p3_bounded (p : ge_p3) : Prop :=
  fe_bd 101 (p3_X p) /\ fe_bd 101 (p3_Y p) /\ fe_bd 101 (p3_Z p) /\ fe_bd 101 (p3_T p).

Lemma ge_p3_tobytes_total p : p3_bounded p -> wp (ge_p3_tobytes p) (fun s => length s = 32%nat).
Proof.
  intros (BX & BY & BZ & _). Transparent ge_p3_tobytes. unfold ge_p3_tobytes. repeat fe_step.
  rewrite fe_tobytes_F by fe_bound. rewrite fe_isnegative_spec by fe_bound. unfold set_sign.
  destruct (lookup_lt_is_Some_2 (F_bytes (fe_F h1)) 31) as [b Hb]; [rewrite length_F_bytes; lia|]. rewrite Hb.
  cbn [wp]. by rewrite length_insert, length_F_bytes.
Qed.
#[local] Opaque ge_p3_tobytes.

Lemma ge_add_total p q P : p ⊨ P -> fe_bd 202 (YplusX q) -> fe_bd 202 (YminusX q) -> fe_bd 101 (cached_Z q) ->
  fe_bd 101 (T2d q) ->
  wp (let? r := ge_add p q in ge_p1p1_to_p3 r) p3_bounded.
Proof.
  intros [] B1 B2 B3 B4. apply wp_bind. unfold ge_add. repeat fe_step. cbn [wp].
  unfold ge_p1p1_to_p3. cbn [p1p1_X p1p1_Y p1p1_Z p1p1_T]. repeat fe_step. cbn [wp]. by split_and!.
Qed.

(** The failure of the decompression is ignored: whatever the struct held
    decides what the function returns. *)
Lemma add_scalar_public_total junk_unpacked pk n : bytes_wf pk -> 32 <= zlen pk ->
  (forall Q, py Q <> decoded_y pk) -> fe_bd 101 (p3_T junk_unpacked) ->
  bytes_wf n -> length n = 32%nat -> le_decode n < 2 ^ 255 ->
  wp (add_scalar_public junk_unpacked pk n) p3_bounded.
Proof.
  intros Hw Hl Hno BT Hnw Hn Hn255. unfold add_scalar_public.
  apply wp_bind. eapply wp_mono; [by apply ge_frombytes_negate_vartime_spec|].
  intros [rc p] [[_ (Q & _ & [Hy _])]|(_ & (BX & BY & EZ & ET) & _)]; [by destruct (Hno Q)|].
  cbn [fst snd] in *. rewrite ET. do 2 fe_step.
  unfold ge_p3_to_cached. cbn [p3_X p3_Y p3_Z p3_T]. pose proof fe_bd_d2. apply wp_bind. do 3 fe_step. cbn [wp].
  apply wp_bind. eapply wp_mono; [apply ge_scalarmult_base_spec; [done|lia|by rewrite firstn_all2 by lia]|].
  cbv beta. intros nB HnB. pose proof fe_bd_1.
  eapply ge_add_total; [exact HnB|..]; cbn [YplusX YminusX cached_Z T2d]; rewrite ?fe_copy_id, ?EZ; fe_bound.
Qed.

(** * Buffers and messages *)
Definition buffer (n : nat) (b : list Z) : Prop := length b = n /\ bytes_wf b.
Definition bufferb (n : nat) (b : list Z) : bool := (length b =? n)%nat && bytes_wfb b.

Lemma bufferb_spec n b : bufferb n b = true -> buffer n b.
Proof. unfold bufferb. rewrite andb_true_iff, Nat.eqb_eq. intros [H1 H2]. split; [done|by apply bytes_wfb_spec]. Qed.

(** A message argument that stands for the bytes [m]. *)
Definition is_message (message : option (list Z)) (len : Z) (m : list Z) : Prop :=
  (forall p, message = Some p -> bytes_wf p) /\ read_message message len = Some m /\ zlen m < 2 ^ 61 - 64.

Definition locals_wf (l : locals) : Prop :=
  buffer 128 (l_hash l) /\ buffer 64 (l_r l) /\ buffer 64 (l_hram l) /\ buffer 64 (l_h l) /\ buffer 32 (l_checker l).

#[local] Abbreviation sign l := (ed25519_sign (l_hash l) (l_r l) (l_hram l)).
#[local] Abbreviation verify l := (ed25519_verify (l_hash l) (l_h l) (l_checker l) (l_A l)).

Definition zero_locals : locals :=
  Locals (replicate 128 0) (replicate 64 0) (replicate 64 0) (replicate 64 0) (replicate 32 0) ge_p3_0.

Lemma zero_locals_wf : locals_wf zero_locals.
Proof. split_and!; by apply bufferb_spec. Qed.

(** * Signing and verifying *)
Section interface.
Context (l : locals) (Hl : locals_wf l).
Context (message : option (list Z)) (len : Z) (m : list Z) (Hm : is_message message len m).

Lemma sign_eq sig pk sk : buffer 64 sig -> buffer 32 pk -> buffer 64 sk ->
  sign l sig message len pk sk =
    Some (signature_of (le_decode (take 32 sk)) (take 32 (drop 32 sk)) pk m).
Proof using Hl Hm.
  intros [Ls Ws] [Lp Wp] [Lk Wk]. destruct Hl as ([? ?] & [? ?] & [? ?] & _), Hm as (? & ? & ?).
  pose proof (ed25519_sign_wp (l_hash l) (l_r l) (l_hram l) sig message len pk sk m) as W.
  repeat (specialize (W ltac:(first [assumption|lia]))).
  apply wp_some in W as (s & -> & ->). by rewrite (firstn_all2 pk), (skipn_all2 sig), app_nil_r by lia.
Qed.

Lemma verify_eq sig pk : buffer 64 sig -> buffer 32 pk ->
  (verify l sig message len pk = Some 1 /\ accepted sig pk m) \/
  (verify l sig message len pk = Some 0 /\ ~ accepted sig pk m).
Proof using Hl Hm.
  intros [Ls Ws] [Lp Wp]. destruct Hl as ([? ?] & _ & _ & [? ?] & [? ?]), Hm as (? & ? & ?).
  pose proof (ed25519_verify_wp (l_hash l) (l_h l) (l_checker l) (l_A l) sig message len pk m) as W.
  repeat (specialize (W ltac:(first [assumption|lia]))).
  apply wp_some in W as (v & -> & [[-> V]|[-> V]]); [left|right]; done.
Qed.

Lemma signature_of_buffer a prefix pk : buffer 64 (signature_of a prefix pk m).
Proof using.
  unfold signature_of. cbv zeta. split.
  - by rewrite length_app, length_point_bytes, length_le_encode.
  - apply bytes_wf_app. split; [apply point_bytes_wf|apply le_encode_wf].
Qed.

Lemma sign_verifies sig pk sk : buffer 64 sig -> buffer 32 pk -> buffer 64 sk -> key_pair pk sk ->
  exists s, sign l sig message len pk sk = Some s /\ buffer 64 s /\ verify l s message len pk = Some 1.
Proof using Hl Hm.
  intros Hs Hp Hk (_ & _ & _ & E). rewrite sign_eq by done. eexists. split; [done|]. split; [apply signature_of_buffer|].
  destruct (verify_eq (signature_of (le_decode (take 32 sk)) (take 32 (drop 32 sk)) pk m) pk) as [[? _]|[_ N]];
    [apply signature_of_buffer|done|done|]. destruct N. destruct Hp as [Lp Wp].
  pose proof (signature_of_accepted (le_decode (take 32 sk)) (take 32 (drop 32 sk)) pk m [] Wp E) as H.
  by rewrite app_nil_r, (firstn_all2 pk) in H by lia.
Qed.
End interface.

Lemma keypair_eq junk pk sk seed : buffer 128 junk -> buffer 32 pk -> buffer 64 sk -> buffer 32 seed ->
  exists pk' sk', ed25519_create_keypair junk pk sk seed = Some (pk', sk') /\ buffer 32 pk' /\ buffer 64 sk' /\
    key_pair pk' sk' /\ le_decode (take 32 sk') = clamp (le_decode (take 32 (digest seed))) /\
    drop 32 sk' = drop 32 (digest seed).
Proof.
  intros [? ?] [Lp Wp] [Lk Wk] [Ls Ws].
  pose proof (ed25519_create_keypair_wp junk pk sk seed) as W.
  repeat (specialize (W ltac:(first [assumption|lia]))).
  apply wp_some in W as ([pk' sk'] & -> & H1 & H2 & H3 & H4 & H5). cbn [fst snd] in *.
  rewrite (firstn_all2 seed) in * by lia. rewrite (skipn_all2 (n := 64) sk), app_nil_r in H2 by lia.
  rewrite (skipn_all2 pk), app_nil_r in H5 by lia. rewrite <- H1 in H5.
  assert (buffer 32 pk') as Hp by (subst pk'; split; [apply length_point_bytes|apply point_bytes_wf]).
  exists pk', sk'. split_and!; try done; [split; congruence|].
  destruct Hp as [Lp' Wp']. split_and!; [done|done|lia|]. by rewrite firstn_all2 by lia.
Qed.
