(* ===== verification/Ed25519Theorems.v ===== *)
(** The theorems about the interface of Ed25519: key generation, signing,
    verification and scalar addition, alone and composed. *)
From S2P Require Import Prelude CInt Fe Prime25519 FeSpec FeBytes Sc ScSpec Sha512 Sha512Spec Curve GeData Ge GeSpec GeBytes GeTable GeMul GeDouble Ed25519 Ed25519Spec.
#[local] Open Scope Z_scope.
#[local] Opaque Zmod.mul Zmod.add Zmod.sub Zmod.opp Zmod.inv Zmod.mdiv Zmod.pow.
#[local] Opaque digest sha512_init sha512_update sha512_final sc_reduce sc_muladd ge_scalarmult_base
  ge_double_scalarmult_vartime ge_tobytes ge_p3_tobytes ge_frombytes_negate_vartime order25519.

#[local] Abbreviation sign l := (ed25519_sign (l_hash l) (l_r l) (l_hram l)).
#[local] Abbreviation verify l := (ed25519_verify (l_hash l) (l_h l) (l_checker l) (l_A l)).

(** C1: signatures verify.  A key pair made from any seed signs any message
    (of less than 2^61 - 64 bytes), and [ed25519_verify] returns 1 for the
    signature; no step is undefined. *)
Theorem ed25519_sign_verify l pk sk sig seed message len m :
  locals_wf l -> buffer 32 pk -> buffer 64 sk -> buffer 64 sig -> buffer 32 seed -> is_message message len m ->
  exists pk' sk' sig', ed25519_create_keypair (l_hash l) pk sk seed = Some (pk', sk') /\
    sign l sig message len pk' sk' = Some sig' /\ verify l sig' message len pk' = Some 1.
Proof.
  intros Hl Hp Hk Hs Hd Hm. pose proof Hl as [Hj _].
  destruct (keypair_eq (l_hash l) pk sk seed Hj Hp Hk Hd) as (pk' & sk' & E & Hp' & Hk' & Hkp & _).
  destruct (sign_verifies l Hl message len m Hm sig pk' sk' Hs Hp' Hk' Hkp) as (s & Es & _ & Ev).
  by exists pk', sk', s.
Qed.

Lemma ed25519_sign_verify_witness :
  exists pk' sk' sig', ed25519_create_keypair (l_hash zero_locals) (replicate 32 0) (replicate 64 0) (replicate 32 7) = Some (pk', sk') /\
    sign zero_locals (replicate 64 0) (Some [104; 105]) 2 pk' sk' = Some sig' /\
    verify zero_locals sig' (Some [104; 105]) 2 pk' = Some 1.
Proof.
  apply (ed25519_sign_verify zero_locals (replicate 32 0) (replicate 64 0) (replicate 64 0) (replicate 32 7)
    (Some [104; 105]) 2 [104; 105]); [exact zero_locals_wf|by apply bufferb_spec..|].
  split_and!; [|done|done]. intros p [= <-]. by apply bytes_wfb_spec.
Defined.

(** C2: [ed25519_verify] decides the verification equation.  It always
    returns, 1 when the scalar of the signature is below 2^253, the public key
    decodes to a point A and h(-A) + sB encodes to the first half of the
    signature, and 0 otherwise. *)
Theorem ed25519_verify_decides l sig pk message len m :
  locals_wf l -> buffer 64 sig -> buffer 32 pk -> is_message message len m ->
  exists v, verify l sig message len pk = Some v /\ (v = 0 \/ v = 1) /\ (v = 1 <-> accepted sig pk m).
Proof.
  intros Hl Hs Hp Hm. destruct (verify_eq l Hl message len m Hm sig pk Hs Hp) as [[-> ?]|[-> ?]].
  - exists 1. by split_and!; [|right|].
  - exists 0. by split_and!; [|left|].
Qed.

Definition identity_key : list Z := 1 :: replicate 31 0.
Definition identity_sig : list Z := identity_key ++ replicate 32 0.

Lemma hi_message : is_message (Some [104; 105]) 2 [104; 105].
Proof. split_and!; [|done|done]. intros p [= <-]. by apply bytes_wfb_spec. Qed.

Lemma ed25519_verify_decides_witness :
  exists v, verify zero_locals identity_sig (Some [104; 105]) 2 identity_key = Some v /\ (v = 0 \/ v = 1) /\
    (v = 1 <-> accepted identity_sig identity_key [104; 105]).
Proof.
  apply (ed25519_verify_decides zero_locals identity_sig identity_key (Some [104; 105]) 2 [104; 105]);
    [exact zero_locals_wf|by apply bufferb_spec..|exact hi_message].
Defined.

(** C16: [ed25519_sign] computes the signature of the scheme: with a the secret
    scalar, r the hash of the prefix and the message and h the hash of R, the
    public key and the message, both modulo l, the encoding of R = rB followed
    by (ha + r) mod l. *)
Theorem ed25519_sign_refines l sig pk sk message len m :
  locals_wf l -> buffer 64 sig -> buffer 32 pk -> buffer 64 sk -> is_message message len m ->
  sign l sig message len pk sk =
    Some (signature_of (le_decode (take 32 sk)) (take 32 (drop 32 sk)) pk m).
Proof. intros Hl Hs Hp Hk Hm. by apply sign_eq. Qed.

Lemma ed25519_sign_refines_witness :
  sign zero_locals (replicate 64 0) (Some [104; 105]) 2 identity_key (replicate 64 9) =
    Some (signature_of (le_decode (replicate 32 9)) (replicate 32 9) identity_key [104; 105]).
Proof.
  apply (ed25519_sign_refines zero_locals (replicate 64 0) identity_key (replicate 64 9) (Some [104; 105]) 2 [104; 105]);
    [exact zero_locals_wf|by apply bufferb_spec..|exact hi_message].
Defined.

(** [ed25519_create_keypair] derives the private key from the hash of the
    seed, its first half clamped to a multiple of 8 between 2^254 and 2^255,
    and the public key is the encoding of that multiple of the base point. *)
Theorem ed25519_create_keypair_correct junk pk sk seed :
  buffer 128 junk -> buffer 32 pk -> buffer 64 sk -> buffer 32 seed ->
  exists pk' sk', ed25519_create_keypair junk pk sk seed = Some (pk', sk') /\ buffer 32 pk' /\ buffer 64 sk' /\
    le_decode (take 32 sk') = clamp (le_decode (take 32 (digest seed))) /\
    drop 32 sk' = drop 32 (digest seed) /\ key_pair pk' sk'.
Proof.
  intros H1 H2 H3 H4. destruct (keypair_eq junk pk sk seed H1 H2 H3 H4) as (pk' & sk' & E & Hp & Hk & Hkp & Ea & Ed).
  by exists pk', sk'.
Qed.

Lemma ed25519_create_keypair_correct_witness :
  exists pk' sk', ed25519_create_keypair (replicate 128 0) (replicate 32 0) (replicate 64 0) (replicate 32 7) = Some (pk', sk') /\
    buffer 32 pk' /\ buffer 64 sk' /\
    le_decode (take 32 sk') = clamp (le_decode (take 32 (digest (replicate 32 7)))) /\
    drop 32 sk' = drop 32 (digest (replicate 32 7)) /\ key_pair pk' sk'.
Proof.
  apply (ed25519_create_keypair_correct (replicate 128 0) (replicate 32 0) (replicate 64 0) (replicate 32 7));
    by apply bufferb_spec.
Defined.

(** * What verification accepts *)
Lemma point_bytes_pzero : point_bytes pzero = identity_key.
Proof. vm_compute. reflexivity. Qed.

Lemma sig_halves sig : buffer 64 sig -> take 32 (take 32 sig) = take 32 sig /\ length (take 32 sig) = 32%nat.
Proof. intros [L _]. rewrite take_take, length_take. split; [f_equal; lia|lia]. Qed.

(** Replacing the scalar by a congruent one below 2^253 keeps a signature. *)
Lemma accepted_congruent sig pk m s : buffer 64 sig -> accepted sig pk m ->
  0 <= s < 2 ^ 253 -> s mod order25519 = le_decode (drop 32 sig) mod order25519 ->
  accepted (take 32 sig ++ le_encode 32 s) pk m.
Proof.
  intros Hsig [_ (Q & Hd & Ha)] Hs Ec. destruct (sig_halves sig Hsig) as [Et El]. destruct Hsig as [L W].
  assert (take 32 (take 32 sig ++ le_encode 32 s) = take 32 sig) as E1 by (rewrite take_app_le by lia; exact Et).
  assert (drop 32 (take 32 sig ++ le_encode 32 s) = le_encode 32 s) as E2 by (by apply drop_app_length').
  split.
  - exists (u8 (s / 256 ^ 31)). split.
    + change 63%nat with (32 + 31)%nat. rewrite <- lookup_drop, E2, (le_encode_snoc 31).
      rewrite lookup_app_r by (rewrite length_le_encode; lia). by rewrite length_le_encode.
    + apply low_bits_clear. change (256 ^ 31) with (2 ^ 248).
      split; [apply Z.div_pos; lia|apply Z.div_lt_upper_bound; lia].
  - exists Q. split; [exact Hd|]. unfold accepts in *. rewrite E1, E2. etransitivity; [|exact Ha].
    rewrite (firstn_all2 (drop 32 sig)) by (rewrite length_drop; lia). rewrite (firstn_all2 (le_encode 32 s)) by (by rewrite length_le_encode).
    rewrite le_decode_encode by (change (256 ^ Z.of_nat 32) with (2 ^ 256); lia). do 2 f_equal.
    rewrite <- (z_mul_mod (G:=point_group) order25519 s), Ec by exact base_point_order.
    apply (z_mul_mod (G:=point_group)), base_point_order.
Qed.

Lemma signature_buffer sig s : buffer 64 sig -> buffer 64 (take 32 sig ++ le_encode 32 s).
Proof.
  intros H. destruct (sig_halves sig H) as [_ El]. destruct H as [L W]. split.
  - rewrite length_app, length_le_encode. lia.
  - apply bytes_wf_app. split; [by apply bytes_wf_take|apply le_encode_wf].
Qed.

(** Signatures are malleable: the code bounds the scalar s by 2^253, not
    by the group order l, so adding l to the scalar of an accepted signature
    gives another accepted signature as long as the sum is below 2^253. *)
Theorem ed25519_verify_malleable l sig pk message len m :
  locals_wf l -> buffer 64 sig -> buffer 32 pk -> is_message message len m ->
  le_decode (drop 32 sig) + order25519 < 2 ^ 253 -> verify l sig message len pk = Some 1 ->
  verify l (take 32 sig ++ le_encode 32 (le_decode (drop 32 sig) + order25519)) message len pk = Some 1.
Proof.
  intros Hl Hs Hp Hm Hlt Hv. pose proof order_range as Ho.
  destruct (verify_eq l Hl message len m Hm sig pk Hs Hp) as [[_ Ha]|[E _]]; [|rewrite E in Hv; discriminate].
  pose proof (proj1 (le_decode_bound _ (bytes_wf_drop 32 _ (proj2 Hs)))) as H0.
  assert (accepted (take 32 sig ++ le_encode 32 (le_decode (drop 32 sig) + order25519)) pk m) as Ha'.
  { apply accepted_congruent; [done..|lia|]. rewrite <- (Z.mul_1_l order25519) at 1. apply Z.mod_add. lia. }
  destruct (verify_eq l Hl message len m Hm _ pk (signature_buffer sig (le_decode (drop 32 sig) + order25519) Hs) Hp) as [[? _]|[_ N]]; [done|contradiction].
Qed.

(** A key that encodes the neutral element accepts R = O, s = 0. *)
Lemma identity_accepted m : accepted identity_sig identity_key m.
Proof.
  split; [by exists 0|]. exists (popp pzero). split.
  - apply point_bytes_decodes; [by apply bytes_wfb_spec|]. rewrite point_bytes_pzero. reflexivity.
  - unfold accepts. change (le_decode (take 32 (drop 32 identity_sig))) with 0. change (0 *! base_point) with pzero.
    rewrite padd_0_r.
    assert (popp pzero = pzero) as -> by (rewrite <- (padd_0_l (popp pzero)); apply padd_opp_r).
    rewrite (z_mul_zero (G:=point_group)), point_bytes_pzero. reflexivity.
Qed.

(** Weak keys are accepted: with the encoding of the neutral element as
    public key, one signature verifies for every message. *)
Theorem ed25519_verify_identity_key l message len m : locals_wf l -> is_message message len m ->
  verify l identity_sig message len identity_key = Some 1.
Proof.
  intros Hl Hm.
  destruct (verify_eq l Hl message len m Hm identity_sig identity_key) as [[? _]|[_ N]];
    [by apply bufferb_spec..|done|]. destruct (N (identity_accepted m)).
Qed.

Lemma ed25519_verify_identity_key_witness :
  verify zero_locals identity_sig (Some [104; 105]) 2 identity_key = Some 1.
Proof. exact (ed25519_verify_identity_key zero_locals (Some [104; 105]) 2 [104; 105] zero_locals_wf hi_message). Defined.

Lemma identity_verifies : verify zero_locals identity_sig (Some [104; 105]) 2 identity_key = Some 1.
Proof.
  destruct (verify_eq zero_locals zero_locals_wf _ _ _ hi_message identity_sig identity_key) as [[? _]|[_ N]];
    [by apply bufferb_spec..|done|]. destruct (N (identity_accepted _)).
Qed.

Lemma ed25519_verify_malleable_witness :
  verify zero_locals (identity_key ++ le_encode 32 order25519) (Some [104; 105]) 2 identity_key = Some 1.
Proof.
  apply (ed25519_verify_malleable zero_locals identity_sig identity_key (Some [104; 105]) 2 [104; 105]);
    [exact zero_locals_wf|by apply bufferb_spec..|exact hi_message|vm_compute; reflexivity|exact identity_verifies].
Defined.

(** * Adding scalars *)
Section add_scalar_eq.
Context (junk hashbuf scalar : list Z) (unpacked : ge_p3).
Hypothesis (Hj : buffer 128 junk) (Hh : buffer 64 hashbuf) (Hs : buffer 32 scalar).

Lemma add_scalar_pair_eq pk k : buffer 32 pk -> buffer 64 k -> key_pair pk k ->
  let pk' := point_bytes (padd (added scalar *! base_point) (le_decode (take 32 k) *! base_point)) in
  ed25519_add_scalar junk hashbuf unpacked (Some pk) (Some k) scalar = Some (Some pk', Some (new_private scalar k)) /\
  key_pair pk' (new_private scalar k).
Proof using Hj Hh Hs.
  intros [Lp Wp] [Lk Wk] Hkp. destruct Hj as [? ?], Hh as [? ?], Hs as [? ?]. cbv zeta.
  pose proof (add_scalar_pair_wp junk hashbuf unpacked scalar) as W.
  do 5 (specialize (W ltac:(first [assumption|lia]))). specialize (W pk k Hkp).
  apply wp_some in W as (r & -> & pk' & -> & Hkp' & Epk). rewrite (skipn_all2 pk), app_nil_r in Epk by lia. by subst pk'.
Qed.

Lemma add_scalar_public_eq pk P : buffer 32 pk -> pk = point_bytes P ->
  ed25519_add_scalar junk hashbuf unpacked (Some pk) None scalar =
    Some (Some (point_bytes (padd (added scalar *! base_point) P)), None).
Proof using Hs.
  intros [Lp Wp] Hp. destruct Hs as [? ?].
  pose proof (add_scalar_public_key_wp junk hashbuf unpacked scalar ltac:(lia) ltac:(done) pk P Wp) as W.
  rewrite firstn_all2 in W by lia. specialize (W Hp).
  apply wp_some in W as (r & -> & ->). by rewrite (skipn_all2 pk), app_nil_r by lia.
Qed.
End add_scalar_eq.

Lemma key_pair_public pk k : buffer 32 pk -> key_pair pk k -> pk = point_bytes (le_decode (take 32 k) *! base_point).
Proof. intros [L _] (_ & _ & _ & E). by rewrite firstn_all2 in E by lia. Qed.

(** [ed25519_add_scalar] moves both halves of a key pair alike: called
    with the private key it returns a key pair whose secret scalar is
    n + a mod l, n the scalar without its top bit, and called with the public
    key alone it returns the same public key. *)
Theorem ed25519_add_scalar_consistent junk hashbuf unpacked scalar pk k :
  buffer 128 junk -> buffer 64 hashbuf -> buffer 32 scalar -> buffer 32 pk -> buffer 64 k -> key_pair pk k ->
  exists pk' k', ed25519_add_scalar junk hashbuf unpacked (Some pk) (Some k) scalar = Some (Some pk', Some k') /\
    ed25519_add_scalar junk hashbuf unpacked (Some pk) None scalar = Some (Some pk', None) /\
    key_pair pk' k' /\
    le_decode (take 32 k') = (le_decode scalar mod 2 ^ 255 + le_decode (take 32 k)) mod order25519.
Proof.
  intros Hj Hh Hs Hp Hk Hkp. destruct (add_scalar_pair_eq junk hashbuf scalar unpacked Hj Hh Hs pk k Hp Hk Hkp) as [E1 E2].
  eexists _, _. split; [exact E1|]. split; [|split; [exact E2|]].
  - apply add_scalar_public_eq; [done..|by apply key_pair_public].
  - destruct Hk as [Lk Wk]. destruct (new_private_shape scalar k ltac:(lia) Wk) as (_ & _ & ->).
    unfold added. destruct Hs as [Ls _]. by rewrite (firstn_all2 scalar) by lia.
Qed.

Lemma zero_key_pair : key_pair identity_key (replicate 64 0).
Proof.
  split_and!; [by apply bytes_wfb_spec..|done|].
  change (le_decode (take 32 (replicate 64 0))) with 0. change (0 *! base_point) with pzero.
  by rewrite point_bytes_pzero.
Qed.

Lemma ed25519_add_scalar_consistent_witness :
  exists pk' k', ed25519_add_scalar (replicate 128 0) (replicate 64 0) ge_p3_0 (Some identity_key)
      (Some (replicate 64 0)) (replicate 32 5) = Some (Some pk', Some k') /\
    ed25519_add_scalar (replicate 128 0) (replicate 64 0) ge_p3_0 (Some identity_key) None (replicate 32 5) =
      Some (Some pk', None) /\
    key_pair pk' k' /\
    le_decode (take 32 k') = (le_decode (replicate 32 5) mod 2 ^ 255 + le_decode (take 32 (replicate 64 0))) mod order25519.
Proof.
  apply (ed25519_add_scalar_consistent (replicate 128 0) (replicate 64 0) ge_p3_0 (replicate 32 5) identity_key
    (replicate 64 0)); [by apply bufferb_spec..|exact zero_key_pair].
Defined.

(** Successive calls of [ed25519_add_scalar] with both keys. *)
Fixpoint add_scalars (junk hashbuf : list Z) (unpacked : ge_p3) (scalars : list (list Z)) (pk k : list Z)
  : option (list Z * list Z) :=
  match scalars with
  | [] => Some (pk, k)
  | scalar :: scalars' =>
      let? (pk, k) := ed25519_add_scalar junk hashbuf unpacked (Some pk) (Some k) scalar in
      let? pk := pk in
      let? k := k in
      add_scalars junk hashbuf unpacked scalars' pk k
  end.

Lemma add_scalars_key_pair junk hashbuf unpacked scalars pk k :
  buffer 128 junk -> buffer 64 hashbuf -> Forall (buffer 32) scalars -> buffer 32 pk -> buffer 64 k -> key_pair pk k ->
  exists pk' k', add_scalars junk hashbuf unpacked scalars pk k = Some (pk', k') /\
    buffer 32 pk' /\ buffer 64 k' /\ key_pair pk' k'.
Proof.
  intros Hj Hh Hs. revert pk k. induction Hs as [|scalar scalars Hs _ IH]; intros pk k Hp Hk Hkp.
  { by exists pk, k. }
  destruct (add_scalar_pair_eq junk hashbuf scalar unpacked Hj Hh Hs pk k Hp Hk Hkp) as [E Hkp'].
  cbn [add_scalars]. rewrite E. apply IH; [split; [apply length_point_bytes|apply point_bytes_wf]| |exact Hkp'].
  destruct Hk as [Lk Wk]. destruct (new_private_shape scalar k ltac:(lia) Wk) as (Hw & Hl & _). split; [lia|done].
Qed.

(** Keys stay usable: after any sequence of [ed25519_add_scalar] calls on
    a generated key pair, a signature made with the private key verifies with
    the public key. *)
Theorem ed25519_add_scalars_sign l hashbuf unpacked pk sk sig seed scalars message len m :
  locals_wf l -> buffer 64 hashbuf -> buffer 32 pk -> buffer 64 sk -> buffer 64 sig -> buffer 32 seed ->
  Forall (buffer 32) scalars -> is_message message len m ->
  exists pk' sk' pk'' sk'' sig', ed25519_create_keypair (l_hash l) pk sk seed = Some (pk', sk') /\
    add_scalars (l_hash l) hashbuf unpacked scalars pk' sk' = Some (pk'', sk'') /\
    sign l sig message len pk'' sk'' = Some sig' /\ verify l sig' message len pk'' = Some 1.
Proof.
  intros Hl Hh Hp Hk Hs Hd Hsc Hm. pose proof Hl as [Hj _].
  destruct (keypair_eq (l_hash l) pk sk seed Hj Hp Hk Hd) as (pk' & sk' & E & Hp' & Hk' & Hkp & _).
  destruct (add_scalars_key_pair (l_hash l) hashbuf unpacked scalars pk' sk' Hj Hh Hsc Hp' Hk' Hkp)
    as (pk'' & sk'' & E2 & Hp'' & Hk'' & Hkp'').
  destruct (sign_verifies l Hl message len m Hm sig pk'' sk'' Hs Hp'' Hk'' Hkp'') as (s & Es & _ & Ev).
  by exists pk', sk', pk'', sk'', s.
Qed.

Lemma ed25519_add_scalars_sign_witness :
  exists pk' sk' pk'' sk'' sig',
    ed25519_create_keypair (l_hash zero_locals) (replicate 32 0) (replicate 64 0) (replicate 32 7) = Some (pk', sk') /\
    add_scalars (l_hash zero_locals) (replicate 64 0) ge_p3_0 [replicate 32 5; replicate 32 255] pk' sk' = Some (pk'', sk'') /\
    sign zero_locals (replicate 64 0) (Some [104; 105]) 2 pk'' sk'' = Some sig' /\
    verify zero_locals sig' (Some [104; 105]) 2 pk'' = Some 1.
Proof.
  apply (ed25519_add_scalars_sign zero_locals (replicate 64 0) ge_p3_0 (replicate 32 0) (replicate 64 0) (replicate 64 0)
    (replicate 32 7) [replicate 32 5; replicate 32 255] (Some [104; 105]) 2 [104; 105]);
    [exact zero_locals_wf|by apply bufferb_spec..| |exact hi_message].
  apply Forall_cons. split; [by apply bufferb_spec|]. apply Forall_singleton. by apply bufferb_spec.
Defined.


(** No point has y = 2. *)
Lemma no_point_y2 Q : py Q <> decoded_y (2 :: replicate 31 0).
Proof.
  intros Hy. pose proof (coords_on Q) as Ho. unfold py in Hy. destruct (coords Q) as [x y]. cbn [snd] in Hy. subst y.
  apply curve_y in Ho. change (decoded_y (2 :: replicate 31 0)) with (ofZ 2) in Ho.
  apply (nonsquare (3 * (4 * dZ + 1)) (dec_v (ofZ 2) * x)%Zmod).
  - vm_cast_no_check (eq_refl (p25519 - 1)).
  - vm_compute. discriminate.
  - transitivity (dec_v (ofZ 2) * (dec_v (ofZ 2) * (x * x)))%Zmod; [ring|]. rewrite Ho. unfold dec_u, dec_v, curve_d.
    change (1%Zmod : F) with (ofZ 1). rewrite <- !ofZ_mul, <- ofZ_add, <- ofZ_sub, <- ofZ_mul. apply ofZ_inj.
    vm_compute. reflexivity.
Qed.

