(* ===== verification/ArithTheorems.v ===== *)
(** The theorems about the arithmetic below Ed25519: field elements (fe.c),
    scalars (sc.c) and SHA-512 (sha512.c). *)
From S2P Require Import Prelude CInt Fe Prime25519 FeSpec FeBytes Sc ScSpec Sha512 Sha512Spec.
#[local] Open Scope Z_scope.
#[local] Opaque Zmod.mul Zmod.add Zmod.sub Zmod.opp Zmod.inv Zmod.mdiv Zmod.pow.
#[local] Opaque fe_mul fe_sq fe_sq2 fe_add fe_sub fe_neg fe_tobytes fe_frombytes fe_invert fe_pow22523
  sc_reduce sc_muladd sha512_compress fips_compress.

(** A concrete element: limbs of the base point's y + x. *)
Definition sample : fe :=
  Fe 25967493 (-14356035) 29566456 3660896 (-12694345) 4014787 27544626 (-11754271) (-6079156) 2047605.

(** * Field elements *)
Lemma fe_F_mod f z : fe_F f = ofZ z -> fe_val f mod p25519 = z mod p25519.
Proof. apply ofZ_inj. Qed.

(** C20: [fe_mul] multiplies modulo 2^255 - 19: on limbs inside the bounds of
    its comment (1.65 times 2^26 and 2^25) no product or sum overflows, the
    limbs of the result are inside 1.01 times 2^25 and 2^24, and the value is
    that of the product. *)
Theorem fe_mul_correct f g : fe_bd 330 f -> fe_bd 330 g ->
  exists h, fe_mul f g = Some h /\ fe_bd 101 h /\ fe_val h mod p25519 = (fe_val f * fe_val g) mod p25519.
Proof.
  intros Hf Hg. pose proof (fe_mul_spec f g Hf Hg) as H. apply wp_some in H as (h & -> & Hb & E).
  exists h. split_and!; [done|done|]. apply fe_F_mod. by rewrite E, ofZ_mul.
Qed.

Lemma fe_mul_correct_witness :
  exists h, fe_mul sample sample = Some h /\ fe_bd 101 h /\
    fe_val h mod p25519 = (fe_val sample * fe_val sample) mod p25519.
Proof. apply (fe_mul_correct sample sample); by apply fe_bdb_spec. Defined.

(** The squarings agree with the multiplication: [fe_sq] computes f*f and
    [fe_sq2] computes 2*f*f, on the operands [fe_mul] takes. *)
Theorem fe_sq_equivalent f : fe_bd 330 f ->
  exists a b c, fe_mul f f = Some a /\ fe_sq f = Some b /\ fe_sq2 f = Some c /\ fe_bd 101 b /\ fe_bd 101 c /\
    fe_val b mod p25519 = fe_val a mod p25519 /\ fe_val c mod p25519 = (2 * fe_val a) mod p25519.
Proof.
  intros Hf. pose proof (fe_mul_spec f f Hf Hf) as H1. apply wp_some in H1 as (a & -> & _ & Ea).
  pose proof (fe_sq_spec f Hf) as H2. apply wp_some in H2 as (b & -> & Bb & Eb).
  pose proof (fe_sq2_spec f Hf) as H3. apply wp_some in H3 as (c & -> & Bc & Ec).
  exists a, b, c. split_and!; [done..| |]; apply fe_F_mod.
  - by rewrite Eb, <- Ea.
  - rewrite Ec, <- Ea. replace (2 * fe_val a) with (fe_val a + fe_val a) by lia. by rewrite ofZ_add.
Qed.

Lemma fe_sq_equivalent_witness :
  exists a b c, fe_mul sample sample = Some a /\ fe_sq sample = Some b /\ fe_sq2 sample = Some c /\
    fe_bd 101 b /\ fe_bd 101 c /\
    fe_val b mod p25519 = fe_val a mod p25519 /\ fe_val c mod p25519 = (2 * fe_val a) mod p25519.
Proof. apply (fe_sq_equivalent sample). by apply fe_bdb_spec. Defined.

(** [fe_invert] inverts: the 254 squarings and 11 multiplications compute
    z^(p-2), the inverse of a non-zero z, within the limb bounds. *)
Theorem fe_invert_correct z : fe_bd 330 z -> fe_val z mod p25519 <> 0 ->
  exists h, fe_invert z = Some h /\ fe_bd 101 h /\ (fe_val h * fe_val z) mod p25519 = 1.
Proof.
  intros Hz H0. pose proof (fe_invert_spec z Hz) as H. apply wp_some in H as (h & -> & Hb & E).
  exists h. split_and!; [done|done|]. change 1 with (1 mod p25519). apply ofZ_inj. rewrite ofZ_mul.
  fold (fe_F h). fold (fe_F z). rewrite E. apply Zmod.mul_inv_same_l_prime; [apply prime_p25519|by apply ofZ_neq_0].
Qed.

Lemma fe_invert_correct_witness :
  exists h, fe_invert sample = Some h /\ fe_bd 101 h /\ (fe_val h * fe_val sample) mod p25519 = 1.
Proof. apply (fe_invert_correct sample); [by apply fe_bdb_spec|vm_compute; discriminate]. Defined.

(** [fe_tobytes] is canonical: the 32 bytes are the little-endian digits
    of the value reduced to 0 .. p-1, for every limb vector inside the bounds
    of the comment (1.1 times 2^26 and 2^25). *)
Theorem fe_tobytes_canonical h : fe_bd 220 h -> fe_tobytes h = Some (le_encode 32 (fe_val h mod p25519)).
Proof. intros Hh. pose proof (fe_tobytes_spec h Hh) as H. by apply wp_some in H as (s & -> & ->). Qed.

Lemma fe_tobytes_canonical_witness : fe_tobytes sample = Some (le_encode 32 (fe_val sample mod p25519)).
Proof. apply (fe_tobytes_canonical sample). by apply fe_bdb_spec. Defined.

(** [fe_frombytes] and [fe_tobytes] are inverse on canonical encodings:
    32 bytes with a value below p are read and written back unchanged. *)
Theorem fe_bytes_roundtrip s : bytes_wf s -> length s = 32%nat -> le_decode s < p25519 ->
  exists h, fe_frombytes s = Some h /\ fe_bd 101 h /\ fe_tobytes h = Some s.
Proof.
  intros Hs Hl Hv. pose proof (fe_frombytes_spec s Hs ltac:(lia)) as H. apply wp_some in H as (h & -> & Hb & E).
  exists h. split_and!; [done|done|]. pose proof (le_decode_bound s Hs) as H0.
  rewrite fe_tobytes_F by (eapply fe_bd_mono; [|exact Hb]; lia). unfold F_bytes. rewrite E, to_Z_ofZ.
  assert (p25519 < 2 ^ 255) by done. rewrite (Z.mod_small _ (2 ^ 255)), Z.mod_small by lia.
  by rewrite <- Hl, le_encode_decode.
Qed.

Lemma fe_bytes_roundtrip_witness :
  exists h, fe_frombytes (replicate 32 7) = Some h /\ fe_bd 101 h /\ fe_tobytes h = Some (replicate 32 7).
Proof. apply (fe_bytes_roundtrip (replicate 32 7)); [by apply bytes_wfb_spec|done|vm_compute; reflexivity]. Defined.

(** [fe_isnonzero] returns 1 for a non-zero element and 0 for zero (its
    comment has the two cases exchanged). *)
Theorem fe_isnonzero_correct f : fe_bd 220 f ->
  fe_isnonzero f = Some (if fe_val f mod p25519 =? 0 then 0 else 1).
Proof.
  intros Hf. rewrite fe_isnonzero_spec by done. f_equal.
  destruct (Z.eqb_spec (fe_val f mod p25519) 0) as [E|E]; case_decide as D; try reflexivity.
  - destruct D. apply (ofZ_inj _ 0). exact E.
  - destruct E. apply (ofZ_inj _ 0) in D. exact D.
Qed.

Lemma fe_isnonzero_correct_witness :
  fe_isnonzero sample = Some (if fe_val sample mod p25519 =? 0 then 0 else 1).
Proof. apply (fe_isnonzero_correct sample). by apply fe_bdb_spec. Defined.

(** The masked moves are conditional moves: for a bit b, [fe_cmov]
    replaces f by g and [fe_cswap] exchanges f and g exactly when b is 1. *)
Theorem fe_cmov_cswap_correct f g b : fe_bd 330 f -> fe_bd 330 g -> b = 0 \/ b = 1 ->
  fe_cmov f g b = (if b =? 1 then g else f) /\ fe_cswap f g b = (if b =? 1 then (g, f) else (f, g)).
Proof.
  intros Hf%(fe_bd_i32 330) Hg%(fe_bd_i32 330) Hb; [|lia..].
  split; [by apply fe_cmov_spec|by apply fe_cswap_spec].
Qed.

Lemma fe_cmov_cswap_correct_witness :
  fe_cmov sample fe_1 1 = (if 1 =? 1 then fe_1 else sample) /\
  fe_cswap sample fe_1 1 = (if 1 =? 1 then (fe_1, sample) else (sample, fe_1)).
Proof. apply (fe_cmov_cswap_correct sample fe_1 1); [by apply fe_bdb_spec..|by right]. Defined.

(** * Scalars *)
(** [sc_reduce] reduces the 64-byte little-endian number modulo the group
    order l, without overflow, into the first 32 bytes. *)
Theorem sc_reduce_correct s : bytes_wf s -> length s = 64%nat ->
  sc_reduce s = Some (le_encode 32 (le_decode s mod order25519) ++ drop 32 s).
Proof. intros Hs Hl. apply sc_reduce_spec; [done|lia]. Qed.

Lemma sc_reduce_correct_witness :
  sc_reduce (replicate 64 255) =
    Some (le_encode 32 (le_decode (replicate 64 255) mod order25519) ++ drop 32 (replicate 64 255)).
Proof. apply (sc_reduce_correct (replicate 64 255)); [by apply bytes_wfb_spec|done]. Defined.

(** C34: [sc_muladd] computes (ab + c) mod l for any 32-byte a, b and c. *)
Theorem sc_muladd_correct a b c :
  bytes_wf a -> bytes_wf b -> bytes_wf c -> length a = 32%nat -> length b = 32%nat -> length c = 32%nat ->
  sc_muladd a b c = Some (le_encode 32 ((le_decode a * le_decode b + le_decode c) mod order25519)).
Proof. intros. apply sc_muladd_spec; first [assumption|lia]. Qed.

Lemma sc_muladd_correct_witness :
  sc_muladd (replicate 32 255) (replicate 32 254) (replicate 32 253) =
    Some (le_encode 32 ((le_decode (replicate 32 255) * le_decode (replicate 32 254) +
      le_decode (replicate 32 253)) mod order25519)).
Proof.
  apply (sc_muladd_correct (replicate 32 255) (replicate 32 254) (replicate 32 253));
    first [by apply bytes_wfb_spec|done].
Defined.

(** * SHA-512 *)
(** [sha512_compress] is the compression function of the standard: on
    eight 64-bit words of state and 128 bytes of input it adds to the state
    what eighty rounds on the message schedule make of it. *)
Theorem sha512_compress_standard md b : md_wf md -> bytes_wf b -> 128 <= zlen b ->
  sha512_compress md b = Some (0, set_state md (fips_compress (state md) (take 128 b))).
Proof. apply sha512_compress_fips. Qed.

Lemma sha512_compress_standard_witness :
  sha512_compress (Sha512 0 IV 0 (replicate 128 0)) (replicate 128 1) =
    Some (0, set_state (Sha512 0 IV 0 (replicate 128 0)) (fips_compress IV (take 128 (replicate 128 1)))).
Proof.
  apply (sha512_compress_standard (Sha512 0 IV 0 (replicate 128 0)) (replicate 128 1)); [|by apply bytes_wfb_spec|done].
  split; [done|]. repeat (apply Forall_cons; split; [done|]). by apply Forall_nil.
Defined.

(** [sha512_update] on each chunk in turn. *)
Fixpoint update_all (md : sha512_context) (chunks : list (list Z)) : option sha512_context :=
  match chunks with
  | [] => Some md
  | c :: chunks' => let? (_, md) := sha512_update md (Some c) (zlen c) in update_all md chunks'
  end.

Lemma update_all_absorbed chunks md m : absorbed md m -> Forall bytes_wf chunks ->
  exists md', update_all md chunks = Some md' /\ absorbed md' (m ++ mjoin chunks).
Proof.
  intros Hm Hc. revert md m Hm. induction Hc as [|c chunks Hc _ IH]; intros md m Hm.
  { exists md. by rewrite app_nil_r. }
  cbn [update_all]. destruct (sha512_update_spec md m c (zlen c) c Hm Hc) as (md' & -> & Hm').
  { rewrite bytes_at_Some, Nat2Z.id, firstn_all by lia. done. }
  destruct (IH md' (m ++ c) Hm') as (md'' & -> & Ha). exists md''. split; [done|].
  change (mjoin (c :: chunks)) with (c ++ mjoin chunks). by rewrite app_assoc.
Qed.

(** C33: the streaming interface does not see the chunks: for every way to cut
    a message of less than 2^61 bytes into pieces, initialising, updating with
    the pieces and finishing stores the digest the standard gives the whole
    message. *)
Theorem sha512_streaming junk chunks : length junk = 128%nat -> bytes_wf junk -> Forall bytes_wf chunks ->
  zlen (mjoin chunks) < 2 ^ 61 ->
  exists md md', update_all (sha512_init junk).2 chunks = Some md /\ sha512_final md = Some (0, md', digest (mjoin chunks)).
Proof.
  intros Hj Hw Hc Hl. destruct (update_all_absorbed chunks _ [] (absorbed_init junk Hj Hw) Hc) as (md & E & Ha).
  destruct (sha512_final_spec md (mjoin chunks) Ha Hl) as (md' & E'). by exists md, md'.
Qed.

Lemma sha512_streaming_witness :
  exists md md', update_all (sha512_init (replicate 128 0)).2 [[97]; []; replicate 200 98; [99]] = Some md /\
    sha512_final md = Some (0, md', digest (mjoin [[97]; []; replicate 200 98; [99]])).
Proof.
  apply (sha512_streaming (replicate 128 0) [[97]; []; replicate 200 98; [99]]);
    [done|by apply bytes_wfb_spec| |done].
  repeat (apply Forall_cons; split; [by apply bytes_wfb_spec|]). by apply Forall_nil.
Defined.

(** [sha512] is SHA-512: for a message of less than 2^61 bytes it returns
    0 and stores the digest of the standard. *)
Theorem sha512_correct junk message message_len m :
  length junk = 128%nat -> bytes_wf junk -> bytes_wf message -> bytes_at message message_len = Some m ->
  message_len < 2 ^ 61 -> sha512 junk message message_len = Some (0, digest m).
Proof. apply sha512_spec. Qed.

Lemma sha512_correct_witness : sha512 (replicate 128 0) [97; 98; 99; 100] 3 = Some (0, digest [97; 98; 99]).
Proof.
  apply (sha512_correct (replicate 128 0) [97; 98; 99; 100] 3 [97; 98; 99]);
    first [done|by apply bytes_wfb_spec].
Defined.

Lemma update_loop_fuel f f' md in_ inlen r : update_loop f md in_ inlen = Some r -> (f <= f')%nat ->
  update_loop f' md in_ inlen = Some r.
Proof.
  revert f' md in_ inlen. induction f as [|f IH]; intros f' md in_ inlen H Hle; [done|].
  destruct f' as [|f']; [lia|]. cbn [update_loop] in *. assert (f <= f')%nat by lia.
  destruct (0 <? inlen); [|exact H]. destruct (_ && _).
  - destruct (sha512_compress md in_) as [[err md1]|]; [|done]. destruct (negb (err =? 0)); [exact H|]. by apply IH.
  - destruct (buf_copy _ _ _ _) as [b|]; [|done]. cbn [curlen length_ state buf] in *.
    destruct (_ =? 128); [|by apply IH].
    destruct (sha512_compress _ b) as [[err md1]|]; [|done]. destruct (negb (err =? 0)); [exact H|]. by apply IH.
Qed.

(** The loop of [sha512_update] terminates: on a context in use and
    [inlen] readable bytes, [inlen + 1] iterations are enough, and more fuel
    does not change the result. *)
Theorem sha512_update_terminates md m in_ inlen x : absorbed md m -> bytes_wf in_ -> bytes_at in_ inlen = Some x ->
  exists md', (forall fuel, (Z.to_nat inlen < fuel)%nat -> update_loop fuel md in_ inlen = Some (0, md')) /\
    absorbed md' (m ++ x).
Proof.
  intros Hm Hin Hx. destruct (update_loop_spec (S (Z.to_nat inlen)) md m x in_ inlen) as (md' & E & Ha); [done..|lia|].
  exists md'. split; [|done]. intros fuel Hf. by apply (update_loop_fuel _ _ _ _ _ _ E).
Qed.

Lemma sha512_update_terminates_witness :
  exists md', (forall fuel, (Z.to_nat 200 < fuel)%nat ->
      update_loop fuel (sha512_init (replicate 128 0)).2 (replicate 200 1) 200 = Some (0, md')) /\
    absorbed md' ([] ++ replicate 200 1).
Proof.
  apply (sha512_update_terminates (sha512_init (replicate 128 0)).2 [] (replicate 200 1) 200 (replicate 200 1));
    [apply absorbed_init; [done|by apply bytes_wfb_spec]|by apply bytes_wfb_spec|reflexivity].
Defined.

(** The constants are those of the standard: [K] holds the first 64 bits
    of the fractional parts of the cube roots of the first eighty primes, and
    the state [sha512_init] stores those of the square roots of the first
    eight. *)
Theorem sha512_constants junk :
  Forall2 (is_root 3) primes K /\ Forall2 (is_root 2) (take 8 primes) (state (sha512_init junk).2).
Proof. exact constants_roots. Qed.
