(* ===== verification/GroupTheorems.v ===== *)
(** The theorems about the group operations of Ed25519 (ge.c and
    precomp_data.h). *)
From S2P Require Import Prelude CInt Fe Prime25519 FeSpec FeBytes ScSpec Curve GeData Ge GeSpec GeBytes GeTable GeMul GeDouble.
#[local] Open Scope Z_scope.
#[local] Opaque Zmod.mul Zmod.add Zmod.sub Zmod.opp Zmod.inv Zmod.mdiv Zmod.pow.

(** * Additions and doublings *)
(** C19: the formulas of ge.c are the group law: on representations of P, Q and
    R, inside the limb bounds a representation asks for, [ge_add] and
    [ge_sub], [ge_madd] and [ge_msub] yield P + Q and P - Q, P + R and P - R,
    [ge_p2_dbl] yields 2P, all defined and inside the bounds of the completed
    representation. *)
Theorem ge_operations_correct (p : ge_p3) (p2 : ge_p2) (q : ge_cached) (r : ge_precomp) P Q R :
  p ⊨ P -> p2 ⊨ P -> q ⊨ Q -> r ⊨ R ->
  (exists s, ge_add p q = Some s /\ s ⊨ padd P Q) /\ (exists s, ge_sub p q = Some s /\ s ⊨ padd P (popp Q)) /\
  (exists s, ge_madd p r = Some s /\ s ⊨ padd P R) /\ (exists s, ge_msub p r = Some s /\ s ⊨ padd P (popp R)) /\
  (exists s, ge_p2_dbl p2 = Some s /\ s ⊨ padd P P).
Proof.
  intros Hp Hp2 Hq Hr. split_and!; apply wp_some.
  - by apply ge_add_spec.
  - by apply ge_sub_spec.
  - by apply ge_madd_spec.
  - by apply ge_msub_spec.
  - by apply ge_p2_dbl_spec.
Qed.

Lemma cached_zero : GeCached fe_1 fe_1 fe_1 fe_0 ⊨ pzero.
Proof.
  split; cbn [YplusX YminusX cached_Z T2d]; rewrite ?fe_F_0, ?fe_F_1; first
    [by apply fe_bdb_spec|apply F_1_neq_0|unfold px, py; cbn [pzero coords dexist proj1_sig fst snd]; ring].
Qed.

Lemma ge_operations_correct_witness :
  (exists s, ge_add ge_p3_0 (GeCached fe_1 fe_1 fe_1 fe_0) = Some s /\ s ⊨ padd pzero pzero) /\
  (exists s, ge_sub ge_p3_0 (GeCached fe_1 fe_1 fe_1 fe_0) = Some s /\ s ⊨ padd pzero (popp pzero)) /\
  (exists s, ge_madd ge_p3_0 entry_1 = Some s /\ s ⊨ padd pzero (1 *! base_point)) /\
  (exists s, ge_msub ge_p3_0 entry_1 = Some s /\ s ⊨ padd pzero (popp (1 *! base_point))) /\
  (exists s, ge_p2_dbl ge_p2_0 = Some s /\ s ⊨ padd pzero pzero).
Proof.
  exact (ge_operations_correct ge_p3_0 ge_p2_0 (GeCached fe_1 fe_1 fe_1 fe_0) entry_1 pzero pzero (1 *! base_point)
    ge_p3_0_spec ge_p2_0_spec cached_zero entry_1_spec).
Defined.

(** The conversions keep the point: from the completed to the projective
    and the extended representation, and from the extended to the projective
    and the cached one. *)
Theorem ge_conversions_correct (c : ge_p1p1) (p : ge_p3) P Q : c ⊨ P -> p ⊨ Q ->
  (exists s, ge_p1p1_to_p2 c = Some s /\ s ⊨ P) /\ (exists s, ge_p1p1_to_p3 c = Some s /\ s ⊨ P) /\
  ge_p3_to_p2 p ⊨ Q /\ (exists s, ge_p3_to_cached p = Some s /\ s ⊨ Q).
Proof.
  intros Hc Hp. split_and!; [apply wp_some, ge_p1p1_to_p2_spec, Hc|apply wp_some, ge_p1p1_to_p3_spec, Hc
    |apply ge_p3_to_p2_spec, Hp|apply wp_some, ge_p3_to_cached_spec, Hp].
Qed.

Lemma completed_zero : GeP1p1 fe_0 fe_1 fe_1 fe_1 ⊨ pzero.
Proof.
  split; cbn [p1p1_X p1p1_Y p1p1_Z p1p1_T]; rewrite ?fe_F_0, ?fe_F_1; first
    [by apply fe_bdb_spec|apply F_1_neq_0|unfold px, py; cbn [pzero coords dexist proj1_sig fst snd]; ring].
Qed.

Lemma ge_conversions_correct_witness :
  (exists s, ge_p1p1_to_p2 (GeP1p1 fe_0 fe_1 fe_1 fe_1) = Some s /\ s ⊨ pzero) /\
  (exists s, ge_p1p1_to_p3 (GeP1p1 fe_0 fe_1 fe_1 fe_1) = Some s /\ s ⊨ pzero) /\
  ge_p3_to_p2 ge_p3_0 ⊨ pzero /\ (exists s, ge_p3_to_cached ge_p3_0 = Some s /\ s ⊨ pzero).
Proof. exact (ge_conversions_correct (GeP1p1 fe_0 fe_1 fe_1 fe_1) ge_p3_0 pzero pzero completed_zero ge_p3_0_spec). Defined.

(** * Tables *)
(** C30: the precomputed tables hold what their comments say: [base[i][j]] is
    (j+1)*256^i*B for all 32 rows of 8, [Bi[k]] is (2k+1)*B for all 8, B the
    point with y = 4/5 and even x, and every entry is inside the limb bounds
    the additions ask for. *)
Theorem precomputed_tables_correct :
  length base = 32%nat /\ Forall (fun row => length row = 8%nat) base /\ length Bi = 8%nat /\
  (forall i j row g, base !! i = Some row -> row !! j = Some g ->
    g ⊨ ((Z.of_nat j + 1) * 256 ^ Z.of_nat i) *! base_point) /\
  (forall k g, Bi !! k = Some g -> g ⊨ (2 * Z.of_nat k + 1) *! base_point) /\
  (py base_point * ofZ 5 = ofZ 4)%Zmod /\ Zmod.to_Z (px base_point) mod 2 = 0.
Proof.
  destruct base_shape as (H1 & H2 & H3). split_and!; [done..|exact base_spec|exact Bi_spec|exact base_point_y|].
  vm_compute. reflexivity.
Qed.

(** [select] returns the table entry of its digit: for -8 <= b <= 8 the
    masked scan of row [pos], with the final conditional negation, yields
    b*256^pos*B, whatever b is. *)
Theorem select_correct pos b : 0 <= pos < 32 -> -8 <= b <= 8 ->
  exists t, select pos b = Some t /\ t ⊨ (b * 256 ^ pos) *! base_point.
Proof. intros Hp Hb. by apply wp_some, select_spec. Qed.

Lemma select_correct_witness : exists t, select 31 (-8) = Some t /\ t ⊨ (-8 * 256 ^ 31) *! base_point.
Proof. apply (select_correct 31 (-8)); lia. Defined.

(** * Scalar multiplications *)
(** The radix-16 recoding of [ge_scalarmult_base] is exact: for a scalar
    below 2^255 the 64 signed digits lie between -8 and 8 and have the value
    of the scalar. *)
Theorem recoding_correct a : bytes_wf a -> length a = 32%nat -> le_decode a < 2 ^ 255 ->
  exists e, nibbles a = Some e /\ length (recode 63 0 e) = 64%nat /\
    Forall (fun x => -8 <= x <= 8) (recode 63 0 e) /\ digits_val 16 (recode 63 0 e) = le_decode a.
Proof.
  intros Ha Hl Hv. pose proof (nibbles_spec a Ha ltac:(lia)) as H. rewrite firstn_all2 in H by lia.
  apply wp_some in H as (e & -> & Hel & He & Ev). exists e.
  destruct (recode_spec 63 0 e) as (Hd & Hdl & Edv); [done|lia|done|rewrite Ev; exact Hv|].
  rewrite Ev, Z.add_0_r in Edv. done.
Qed.

Lemma recoding_correct_witness :
  exists e, nibbles (replicate 32 120) = Some e /\ length (recode 63 0 e) = 64%nat /\
    Forall (fun x => -8 <= x <= 8) (recode 63 0 e) /\ digits_val 16 (recode 63 0 e) = le_decode (replicate 32 120).
Proof. apply (recoding_correct (replicate 32 120)); [by apply bytes_wfb_spec|done|vm_compute; reflexivity]. Defined.

(** C17: [ge_scalarmult_base] computes a*B for every scalar a below 2^255
    (the precondition a[31] <= 127 of its comment), with every intermediate
    field operation inside its bounds. *)
Theorem ge_scalarmult_base_correct a : bytes_wf a -> length a = 32%nat -> le_decode a < 2 ^ 255 ->
  exists h, ge_scalarmult_base a = Some h /\ h ⊨ le_decode a *! base_point.
Proof.
  intros Ha Hl Hv. pose proof (ge_scalarmult_base_spec a Ha ltac:(lia)) as H. rewrite firstn_all2 in H by lia.
  by apply wp_some, H.
Qed.

Lemma ge_scalarmult_base_correct_witness :
  exists h, ge_scalarmult_base (replicate 32 120) = Some h /\ h ⊨ le_decode (replicate 32 120) *! base_point.
Proof. apply (ge_scalarmult_base_correct (replicate 32 120)); [by apply bytes_wfb_spec|done|vm_compute; reflexivity]. Defined.

(** [slide] is exact: for a scalar below 2^253 its 256 digits are zero or
    odd, at most 15 in absolute value, and have the value of the scalar; no
    carry runs off the end. *)
Theorem slide_correct a : bytes_wf a -> length a = 32%nat -> le_decode a < 2 ^ 253 ->
  exists e, slide a = Some e /\ length e = 256%nat /\ Forall slide_digit e /\ digits_val 2 e = le_decode a.
Proof.
  intros Ha Hl Hv. pose proof (slide_spec a Ha ltac:(lia)) as H. rewrite firstn_all2 in H by lia.
  by apply wp_some, H.
Qed.

Lemma slide_correct_witness :
  exists e, slide (replicate 31 255 ++ [31]) = Some e /\ length e = 256%nat /\ Forall slide_digit e /\
    digits_val 2 e = le_decode (replicate 31 255 ++ [31]).
Proof. apply (slide_correct (replicate 31 255 ++ [31])); [by apply bytes_wfb_spec|done|vm_compute; reflexivity]. Defined.

(** C18: [ge_double_scalarmult_vartime] computes a*A + b*B for scalars a and b
    below 2^253 and every point A. *)
Theorem ge_double_scalarmult_correct a (A : ge_p3) b P : A ⊨ P ->
  bytes_wf a -> length a = 32%nat -> le_decode a < 2 ^ 253 -> bytes_wf b -> length b = 32%nat -> le_decode b < 2 ^ 253 ->
  exists r, ge_double_scalarmult_vartime a A b = Some r /\
    r ⊨ padd (le_decode a *! P) (le_decode b *! base_point).
Proof.
  intros HA Ha La Va Hb Lb Vb. pose proof (ge_double_scalarmult_vartime_spec a A b P HA Ha ltac:(lia)) as H.
  rewrite !firstn_all2 in H by lia. apply wp_some, H; [done|done|lia|done].
Qed.

Lemma ge_double_scalarmult_correct_witness :
  exists r, ge_double_scalarmult_vartime (replicate 32 5) ge_p3_0 (replicate 32 6) = Some r /\
    r ⊨ padd (le_decode (replicate 32 5) *! pzero) (le_decode (replicate 32 6) *! base_point).
Proof.
  apply (ge_double_scalarmult_correct (replicate 32 5) ge_p3_0 (replicate 32 6) pzero ge_p3_0_spec);
    first [by apply bytes_wfb_spec|reflexivity|vm_compute; reflexivity].
Defined.

(** * Compression *)
(** C32: decompression inverts compression: [ge_p3_tobytes] and [ge_tobytes]
    write the same 32 bytes for every representation of a point P, and
    [ge_frombytes_negate_vartime] reads them back as -P, returning 0. *)
Theorem point_bytes_roundtrip (p : ge_p3) (p2 : ge_p2) h P : p ⊨ P -> p2 ⊨ P ->
  exists s g, ge_p3_tobytes p = Some s /\ ge_tobytes p2 = Some s /\ length s = 32%nat /\
    ge_frombytes_negate_vartime h s = Some (0, g) /\ g ⊨ popp P.
Proof.
  intros Hp Hp2. rewrite (ge_p3_tobytes_spec _ _ Hp), (ge_tobytes_spec _ _ Hp2).
  pose proof (frombytes_point_bytes h (point_bytes P) P (point_bytes_wf P)) as H.
  rewrite firstn_all2 in H by (rewrite length_point_bytes; lia). specialize (H eq_refl).
  apply wp_some in H as ([rc g] & E & Hrc & Hg). cbn [fst snd] in *. subst rc.
  exists (point_bytes P), g. split_and!; [done|done|apply length_point_bytes|exact E|exact Hg].
Qed.

Lemma point_bytes_roundtrip_witness :
  exists s g, ge_p3_tobytes ge_p3_0 = Some s /\ ge_tobytes ge_p2_0 = Some s /\ length s = 32%nat /\
    ge_frombytes_negate_vartime ge_p3_0 s = Some (0, g) /\ g ⊨ popp pzero.
Proof. exact (point_bytes_roundtrip ge_p3_0 ge_p2_0 ge_p3_0 pzero ge_p3_0_spec ge_p2_0_spec). Defined.

(** C31: [ge_frombytes_negate_vartime] decides whether the bytes have a point:
    it returns 0 with the point whose y is the low 255 bits and whose x has
    the parity opposite to the sign bit (or is zero), or -1 when no point of
    the curve has this y; it never fails otherwise. *)
Theorem ge_frombytes_decides h s : bytes_wf s -> length s = 32%nat ->
  exists rc g, ge_frombytes_negate_vartime h s = Some (rc, g) /\
    ((rc = 0 /\ exists Q, g ⊨ Q /\ decodes_neg s Q) \/ (rc = -1 /\ forall Q, py Q <> decoded_y s)).
Proof.
  intros Hs Hl. pose proof (ge_frombytes_negate_vartime_spec h s Hs ltac:(lia)) as H.
  apply wp_some in H as ([rc g] & -> & H). cbn [fst snd] in H. exists rc, g. split; [done|]. naive_solver.
Qed.

Lemma ge_frombytes_decides_witness :
  exists rc g, ge_frombytes_negate_vartime ge_p3_0 (replicate 32 3) = Some (rc, g) /\
    ((rc = 0 /\ exists Q, g ⊨ Q /\ decodes_neg (replicate 32 3) Q) \/
     (rc = -1 /\ forall Q, py Q <> decoded_y (replicate 32 3))).
Proof. apply (ge_frombytes_decides ge_p3_0 (replicate 32 3)); [by apply bytes_wfb_spec|done]. Defined.

(** Encodings are unique: two representations that compress to the same
    bytes stand for the same point. *)
Theorem ge_tobytes_injective (p q : ge_p3) P Q : p ⊨ P -> q ⊨ Q -> ge_p3_tobytes p = ge_p3_tobytes q -> P = Q.
Proof.
  intros Hp Hq. rewrite (ge_p3_tobytes_spec _ _ Hp), (ge_p3_tobytes_spec _ _ Hq). intros E%(inj Some). exact (point_bytes_inj _ _ E).
Qed.

Lemma ge_tobytes_injective_witness : pzero = pzero.
Proof. exact (ge_tobytes_injective ge_p3_0 ge_p3_0 pzero pzero ge_p3_0_spec ge_p3_0_spec eq_refl). Defined.
