(* ===== verification/CString.v ===== *)
(** C strings as the credential and request code handles them, and
    [remote/doltlite_parse.h].  A [char *] that points into a string is the
    list of the characters from it up to the terminating NUL, which is not
    part of the list: [*p] is 0 exactly when the list is empty.  A buffer
    becomes a string at its first NUL ([cstr]). *)
From stdpp Require Export strings.
From S2P Require Import Prelude.
#[global] Open Scope list_scope.
#[global] Open Scope Z_scope.
#[global] Open Scope prolly_scope.

(** * Literals *)
Definition byte_of (a : Ascii.ascii) : Z := Z.of_N (Ascii.N_of_ascii a).
Fixpoint str (s : string) : list Z :=
  match s with
  | EmptyString => []
  | String a s' => byte_of a :: str s'
  end.
(** A literal with every double quote written as a single one. *)
Definition js (s : string) : list Z := (fun c => if c =? 39 then 34 else c) <$> str s.
Arguments str s%_string.
Arguments js s%_string.

(** Literals as the lists they are. *)
Ltac literals :=
  repeat match goal with
  | |- context [js ?s] => let v := eval vm_compute in (js s) in change (js s) with v
  | |- context [str ?s] => let v := eval vm_compute in (str s) in change (str s) with v
  end.

Abbreviation QUOTE := 34.
Abbreviation BACKSLASH := 92.
Abbreviation SPACE := 32.
Abbreviation TAB := 9.
Abbreviation LF := 10.
Abbreviation CR := 13.
Abbreviation COMMA := 44.
Abbreviation DOT := 46.
Abbreviation SLASH := 47.
Abbreviation COLON := 58.
Abbreviation EQUALS := 61.
Abbreviation LBRACE := 123.
Abbreviation RBRACE := 125.
Abbreviation LBRACKET := 91.
Abbreviation RBRACKET := 93.

(** * The string functions of the C library *)
(** The string in a buffer. *)
Fixpoint cstr (b : list Z) : list Z :=
  match b with
  | [] => []
  | c :: b' => if c =? 0 then [] else c :: cstr b'
  end.

(** A string: bytes, none of them NUL. *)
Definition is_char (c : Z) : Prop := 0 < c < 256.
Definition str_wf (s : list Z) : Prop := Forall is_char s.
Definition str_wfb (s : list Z) : bool := forallb (fun c => (0 <? c) && (c <? 256)) s.

Definition streq (a b : list Z) : bool := bool_decide (a = b).
(** [strncmp(a, b, n) == 0] *)
Definition strneq (a b : list Z) (n : nat) : bool := bool_decide (take n a = take n b).

(** [strchr(s, c)] for [c] other than NUL. *)
Fixpoint strchr (s : list Z) (c : Z) : option (list Z) :=
  match s with
  | [] => None
  | x :: s' => if x =? c then Some s else strchr s' c
  end.

Fixpoint strstr (s pat : list Z) : option (list Z) :=
  if strneq s pat (length pat) then Some s
  else match s with
  | [] => None
  | _ :: s' => strstr s' pat
  end.

(** The characters from pointer [p] up to pointer [q] into the same string. *)
Definition span (p q : list Z) : list Z := take (length p - length q) p.

(** [%ld] of a non-negative number, at most [n] digits, and of any [long]. *)
Fixpoint digits (n : nat) (v : Z) (acc : list Z) : list Z :=
  match n with
  | O => acc
  | S n' =>
      let acc := (48 + v mod 10) :: acc in
      if v <? 10 then acc else digits n' (v / 10) acc
  end.
Definition print_ld (v : Z) : list Z :=
  if v <? 0 then 45 :: digits 20 (- v) [] else digits 20 v [].

Definition is_digit (c : Z) : bool := (48 <=? c) && (c <=? 57).

(** * doltlite_parse.h *)
Inductive decimal : Type :=
| DECIMAL_OK (v : Z)
| DECIMAL_INVALID
| DECIMAL_RANGE.

Fixpoint parse_decimal_loop (value mxValue : Z) (z : list Z) : decimal :=
  match z with
  | [] => DECIMAL_OK value
  | c :: z' =>
      if negb (is_digit c) then DECIMAL_INVALID else
      let digit := c - 48 in
      if (mxValue <? digit) || (u64 (mxValue - digit) / 10 <? value) then DECIMAL_RANGE
      else parse_decimal_loop (u64 (value * 10 + digit)) mxValue z'
  end.

(** The characters in [zBegin, zEnd); [None] when a pointer is NULL. *)
Definition doltliteParseDecimal (z : option (list Z)) (mxValue : Z) : decimal :=
  match z with
  | None | Some [] => DECIMAL_INVALID
  | Some z => parse_decimal_loop 0 mxValue z
  end.

(** * Lemmas *)
Lemma str_wfb_spec s : str_wfb s = true <-> str_wf s.
Proof.
  unfold str_wfb, str_wf. rewrite forallb_forall, Forall_forall. setoid_rewrite <- list_elem_of_In.
  split; intros H c Hc; specialize (H c Hc); unfold is_char in *; lia.
Qed.

Lemma str_wf_app a b : str_wf (a ++ b) <-> str_wf a /\ str_wf b.
Proof. apply Forall_app. Qed.

Lemma str_wf_bytes s : str_wf s -> bytes_wf s.
Proof. intros H. apply (Forall_impl _ _ _ H). unfold is_char, is_byte. lia. Qed.

Lemma cstr_wf b : bytes_wf b -> str_wf (cstr b).
Proof.
  induction 1 as [|c b Hc _ IH]; [constructor|]. cbn [cstr]. destruct (Z.eqb_spec c 0); constructor; [|done].
  unfold is_byte, is_char in *. lia.
Qed.

Lemma cstr_app s b : str_wf s -> cstr (s ++ b) = s ++ cstr b.
Proof.
  induction 1 as [|c s Hc _ IH]; [done|]. cbn [app cstr]. unfold is_char in Hc.
  destruct (Z.eqb_spec c 0); [lia|]. by rewrite IH.
Qed.

Lemma cstr_str s : str_wf s -> cstr s = s.
Proof. intros H. rewrite <- (app_nil_r s) at 1. by rewrite cstr_app, app_nil_r. Qed.

Lemma cstr_length b : (length (cstr b) <= length b)%nat.
Proof. induction b as [|c b IH]; [done|]. cbn [cstr length]. destruct (c =? 0); cbn [length]; lia. Qed.

Lemma streq_true a b : streq a b = true <-> a = b.
Proof. apply bool_decide_eq_true. Qed.

Lemma streq_refl a : streq a a = true.
Proof. by apply streq_true. Qed.

Lemma strneq_app p s n : n = length p -> strneq (p ++ s) p n = true.
Proof. intros ->. apply bool_decide_eq_true. by rewrite take_app_length, firstn_all. Qed.

Lemma strneq_true a p n : n = length p -> strneq a p n = true -> a = p ++ drop n a.
Proof.
  intros ->. unfold strneq. rewrite bool_decide_eq_true, firstn_all. intros E. by rewrite <- E at 1; rewrite take_drop.
Qed.

Lemma strchr_app a b c : c ∉ a -> strchr (a ++ b) c = strchr b c.
Proof.
  induction a as [|x a IH]; [done|]. rewrite not_elem_of_cons. intros [Hx Ha]. cbn [app strchr].
  destruct (Z.eqb_spec x c); [congruence|]. by apply IH.
Qed.

Lemma strchr_found a b c : c ∉ a -> strchr (a ++ c :: b) c = Some (c :: b).
Proof. intros H. rewrite strchr_app by done. cbn. by rewrite Z.eqb_refl. Qed.

Lemma strchr_Some s c q : strchr s c = Some q -> exists a b, s = a ++ c :: b /\ q = c :: b /\ c ∉ a.
Proof.
  revert q. induction s as [|x s IH]; intros q; [done|]. cbn [strchr]. destruct (Z.eqb_spec x c) as [->|Hne].
  - intros [= <-]. exists [], s. split_and!; [done..|set_solver].
  - intros (a & b & -> & -> & Ha)%IH. exists (x :: a), b. split_and!; [done..|set_solver].
Qed.

Lemma strchr_None s c : strchr s c = None <-> c ∉ s.
Proof.
  induction s as [|x s IH]; cbn [strchr]; [set_solver|]. rewrite not_elem_of_cons.
  destruct (Z.eqb_spec x c); [naive_solver|]. rewrite IH. naive_solver.
Qed.

Lemma span_app a q : span (a ++ q) q = a.
Proof. unfold span. rewrite length_app, Nat.add_sub. apply take_app_length. Qed.

(** * Decimal numbers *)
Definition dec_val (z : list Z) : Z := foldl (fun v c => v * 10 + (c - 48)) 0 z.

Lemma dec_val_snoc z c : dec_val (z ++ [c]) = dec_val z * 10 + (c - 48).
Proof. unfold dec_val. by rewrite foldl_app. Qed.

Lemma is_digit_range c : is_digit c = true <-> 48 <= c <= 57.
Proof. unfold is_digit. lia. Qed.

Lemma dec_val_nonneg z : Forall is_digit z -> 0 <= dec_val z.
Proof.
  induction z as [|c z IH] using rev_ind; [done|]. rewrite Forall_app, Forall_singleton, dec_val_snoc.
  intros [Hz Hc%Is_true_true%is_digit_range]. specialize (IH Hz). lia.
Qed.

Lemma dec_val_app_le a b : Forall is_digit (a ++ b) -> dec_val a <= dec_val (a ++ b).
Proof.
  induction b as [|c b IH] using rev_ind; [rewrite app_nil_r; lia|]. rewrite app_assoc, dec_val_snoc.
  intros Hall. pose proof (dec_val_nonneg _ (proj1 (proj1 (Forall_app _ _ _) Hall))).
  apply Forall_app in Hall as [Hab Hc]. specialize (IH Hab). rewrite Forall_singleton in Hc.
  apply Is_true_true, is_digit_range in Hc. lia.
Qed.

(** What the loop reports, with the digits [a] behind it. *)
Definition decimal_of (mx : Z) (z : list Z) (r : decimal) : Prop :=
  match r with
  | DECIMAL_OK v => Forall is_digit z /\ v = dec_val z /\ v <= mx
  | DECIMAL_INVALID => exists a c b, z = a ++ c :: b /\ Forall is_digit a /\ dec_val a <= mx /\ is_digit c = false
  | DECIMAL_RANGE => exists a b, z = a ++ b /\ Forall is_digit a /\ mx < dec_val a
  end.

Lemma parse_decimal_loop_spec mx a z : 0 <= mx < 2 ^ 64 -> Forall is_digit a -> dec_val a <= mx ->
  decimal_of mx (a ++ z) (parse_decimal_loop (dec_val a) mx z).
Proof.
  intros Hmx. revert a. induction z as [|c z IH]; intros a Ha Hv.
  - rewrite app_nil_r. by split_and!.
  - cbn [parse_decimal_loop]. destruct (is_digit c) eqn:Hc; cbn [negb]; [|by exists a, c, z].
    pose proof (proj1 (is_digit_range c) Hc). pose proof (dec_val_nonneg a Ha).
    assert (Forall is_digit (a ++ [c])) as Hac by (apply Forall_app; split; [done|by repeat constructor; rewrite Hc]).
    pose proof (dec_val_snoc a c) as Es.
    destruct (Z.ltb_spec mx (c - 48)) as [Hr|Hr]; cbn [orb].
    { exists (a ++ [c]), z. split_and!; [by rewrite <- app_assoc|done|lia]. }
    unfold u64. rewrite (Z.mod_small (mx - (c - 48))) by lia.
    destruct (Z.ltb_spec ((mx - (c - 48)) / 10) (dec_val a)) as [Hr2|Hr2].
    { exists (a ++ [c]), z. split_and!; [by rewrite <- app_assoc|done|].
      pose proof (Z.div_lt_upper_bound (mx - (c - 48)) 10 (dec_val a)). pose proof (Z.mul_div_le (mx - (c - 48)) 10).
      rewrite Es. pose proof (Z.mul_succ_div_gt (mx - (c - 48)) 10). lia. }
    pose proof (Z.mul_div_le (mx - (c - 48)) 10). rewrite Z.mod_small, <- Es by lia.
    replace (a ++ c :: z) with ((a ++ [c]) ++ z) by (by rewrite <- app_assoc). apply IH; [done|lia].
Qed.

(** Digits with a value inside the bound are read. *)
Lemma parse_decimal_digits z mx : z <> [] -> 0 <= mx < 2 ^ 64 -> Forall is_digit z -> dec_val z <= mx ->
  doltliteParseDecimal (Some z) mx = DECIMAL_OK (dec_val z).
Proof.
  intros Hz Hmx Hd Hv. assert (decimal_of mx z (doltliteParseDecimal (Some z) mx)) as H.
  { destruct z as [|c z]; [done|]. apply (parse_decimal_loop_spec mx [] (c :: z)); [done|by constructor|cbn; lia]. }
  destruct (doltliteParseDecimal (Some z) mx) as [u| |].
  - by destruct H as (_ & -> & _).
  - destruct H as (a & c & b & -> & _ & _ & Hc). apply Forall_app in Hd as [_ Hd]. apply Forall_cons in Hd as [Hd _]. by rewrite Hc in Hd.
  - destruct H as (a & b & -> & Ha & Hlt). pose proof (dec_val_app_le a b Hd). lia.
Qed.

Lemma digits_spec n v acc : 0 <= v < 10 ^ Z.of_nat n ->
  exists ds, digits n v acc = ds ++ acc /\ Forall is_digit ds /\ dec_val ds = v /\ (0 < n -> ds <> [])%nat.
Proof.
  revert v acc. induction n as [|n IH]; intros v acc Hv.
  - exists []. split_and!; [done..| |lia]. change (10 ^ Z.of_nat 0) with 1 in Hv. cbn. lia.
  - cbn [digits]. pose proof (Z.mod_pos_bound v 10).
    assert (Forall is_digit [48 + v mod 10]) as Hd.
    { repeat constructor. apply Is_true_true, is_digit_range. lia. }
    destruct (Z.ltb_spec v 10).
    + exists [48 + v mod 10]. split_and!; [done..| |done]. rewrite Z.mod_small by lia. cbn. lia.
    + rewrite Nat2Z.inj_succ, Z.pow_succ_r in Hv by lia.
      destruct (IH (v / 10) ((48 + v mod 10) :: acc)) as (ds & -> & Hds & Hval & _).
      { split; [apply Z.div_pos; lia|apply Z.div_lt_upper_bound; lia]. }
      exists (ds ++ [48 + v mod 10]). split_and!.
      * by rewrite <- app_assoc.
      * by apply Forall_app.
      * rewrite dec_val_snoc, Hval. pose proof (Z.div_mod v 10). lia.
      * destruct ds; done.
Qed.

(** A printed number is a non-empty run of digits with its value. *)
Lemma print_ld_spec v : 0 <= v < 2 ^ 63 ->
  Forall is_digit (print_ld v) /\ dec_val (print_ld v) = v /\ print_ld v <> [].
Proof.
  intros Hv. unfold print_ld. destruct (Z.ltb_spec v 0); [lia|].
  destruct (digits_spec 20 v []) as (ds & -> & Hd & He & Hn); [lia|]. rewrite app_nil_r. split_and!; [done..|apply Hn; lia].
Qed.

Lemma length_digits n v acc : (length (digits n v acc) <= n + length acc)%nat.
Proof.
  revert v acc. induction n as [|n IH]; intros v acc; [done|]. cbn [digits]. destruct (v <? 10); [cbn [length]; lia|].
  etransitivity; [apply IH|]. cbn [length]. lia.
Qed.

Lemma length_print_ld v : (length (print_ld v) <= 21)%nat.
Proof. unfold print_ld. destruct (v <? 0); [pose proof (length_digits 20 (- v) [])|pose proof (length_digits 20 v [])]; cbn [length] in *; lia. Qed.
