(* ===== verification/World.v ===== *)
(** The world around the remote code: the allocator of SQLite and the calls of
    the operating system that the credential files go through.

    Every call that the environment can answer in more than one way takes the
    next [choice] of the world; when there are none left, everything succeeds.
    A theorem for every list of choices is one for every allocator and every
    behaviour of the file system, a crash at any call included.  Files are
    inodes reached through a table of names.  A crash keeps the contents of
    the inodes that were synced and nothing certain of the others, and one of
    the tables of names since the directory was last synced. *)
From S2P Require Import Prelude CString.

(** * State *)
Inductive choice : Type :=
| Go
| Refuse
| Interrupt
| Partial (n : nat)
| Pick (s : list Z)
| Die.

(** [EACCES] stands for every other error. *)
Inductive errno : Type := ENOENT | EACCES | EINTR | EEXIST.
#[export] Instance errno_eq_dec : EqDecision errno.
Proof. solve_decision. Defined.

Abbreviation path := (list Z) (only parsing).

Record inode : Type := Inode { i_data : list Z; i_synced : bool }.

Record world : Type := World {
  w_choices : list choice;
  w_live : Z;
  w_names : gmap path nat;
  w_past : list (gmap path nat);
  w_inodes : gmap nat inode;
  w_fresh : nat;
  w_dirs : gset path;
  w_env : list Z -> option (list Z);
  w_readdir : list path -> list path
}.

Definition set_choices (x : list choice) (w : world) : world :=
  World x (w_live w) (w_names w) (w_past w) (w_inodes w) (w_fresh w) (w_dirs w) (w_env w) (w_readdir w).
Definition set_live (x : Z) (w : world) : world :=
  World (w_choices w) x (w_names w) (w_past w) (w_inodes w) (w_fresh w) (w_dirs w) (w_env w) (w_readdir w).
(** A change of the table of names: the old one may come back in a crash. *)
Definition set_names (x : gmap path nat) (w : world) : world :=
  World (w_choices w) (w_live w) x (w_names w :: w_past w) (w_inodes w) (w_fresh w) (w_dirs w) (w_env w) (w_readdir w).
Definition set_past (x : list (gmap path nat)) (w : world) : world :=
  World (w_choices w) (w_live w) (w_names w) x (w_inodes w) (w_fresh w) (w_dirs w) (w_env w) (w_readdir w).
Definition set_inode (i : nat) (x : inode) (w : world) : world :=
  World (w_choices w) (w_live w) (w_names w) (w_past w) (<[i := x]> (w_inodes w)) (w_fresh w) (w_dirs w) (w_env w)
    (w_readdir w).
Definition set_fresh (x : nat) (w : world) : world :=
  World (w_choices w) (w_live w) (w_names w) (w_past w) (w_inodes w) x (w_dirs w) (w_env w) (w_readdir w).
Definition add_dir (d : path) (w : world) : world :=
  World (w_choices w) (w_live w) (w_names w) (w_past w) (w_inodes w) (w_fresh w) ({[d]} ∪ w_dirs w) (w_env w)
    (w_readdir w).

Definition drop_dir (d : path) (w : world) : world :=
  World (w_choices w) (w_live w) (w_names w) (w_past w) (w_inodes w) (w_fresh w) (w_dirs w ∖ {[d]}) (w_env w)
    (w_readdir w).

(** The tables of names that a crash can leave, and the contents of [p] then:
    [None] when there is no such file. *)
Definition tables (w : world) : list (gmap path nat) := w_names w :: w_past w.
Definition after_crash (w : world) (p : path) (c : option (list Z)) : Prop :=
  exists t, t ∈ tables w /\
    match t !! p with
    | None => c = None
    | Some i => exists f d, w_inodes w !! i = Some f /\ c = Some d /\ (i_synced f = true -> d = i_data f)
    end.

(** * Computations *)
Inductive outcome (A : Type) : Type :=
| Ret (a : A) (w : world)
| Crash (w : world)
| Undefined.
Arguments Ret {A} a w.
Arguments Crash {A} w.
Arguments Undefined {A}.

Definition M (A : Type) : Type := world -> outcome A.
Definition retM {A} (a : A) : M A := fun w => Ret a w.
Definition bindM {A B} (m : M A) (k : A -> M B) : M B :=
  fun w => match m w with
  | Ret a w => k a w
  | Crash w => Crash w
  | Undefined => Undefined
  end.
Notation "'let*' x := m 'in' k" := (bindM m (fun x => k))
  (at level 10, x pattern, m at level 200, k at level 200) : prolly_scope.
Definition undefined {A} : M A := fun _ => Undefined.
(** A computation of the lower layers: undefined when it is. *)
Definition lift {A} (m : option A) : M A := match m with Some a => retM a | None => undefined end.
Definition getW : M world := fun w => Ret w w.
Definition modW (f : world -> world) : M unit := fun w => Ret () (f w).

Definition next : M choice :=
  fun w => match w_choices w with
  | [] => Ret Go w
  | Die :: _ => Crash w
  | c :: cs => Ret c (set_choices cs w)
  end.
Definition refused (c : choice) : bool := match c with Refuse => true | _ => false end.

(** * Memory *)
Definition SQLITE_MAX_ALLOCATION_SIZE : Z := 2147483391.

(** A block is its size; [None] is NULL.  [w_live] counts the blocks. *)
Definition sqlite3_malloc (n : Z) : M (option Z) :=
  let* c := next in
  let n := i32 n in
  if (n <=? 0) || (SQLITE_MAX_ALLOCATION_SIZE <? n) || refused c then retM None
  else let* _ := modW (fun w => set_live (w_live w + 1) w) in retM (Some n).

Definition sqlite3_free {A} (p : option A) : M unit :=
  match p with
  | None => retM ()
  | Some _ => modW (fun w => set_live (w_live w - 1) w)
  end.

(** [sqlite3_realloc]: the block keeps its contents; on failure the old one stays. *)
Definition sqlite3_realloc {A} (pOld : option A) (n : Z) : M (option Z) :=
  let n := Z.max 0 (i32 n) in
  match pOld with
  | None => sqlite3_malloc n
  | Some _ =>
      if n =? 0 then let* _ := sqlite3_free pOld in retM None
      else let* c := next in
      if (SQLITE_MAX_ALLOCATION_SIZE <? n) || refused c then retM None else retM (Some n)
  end.

(** A local that is freed when the function returns. *)
Definition owning {A B} (m : M (option A)) (k : option A -> M B) : M B :=
  let* x := m in
  let* r := k x in
  let* _ := sqlite3_free x in
  retM r.
Notation "'let~' x := m 'in' k" := (owning m (fun x => k))
  (at level 10, x pattern, m at level 200, k at level 200) : prolly_scope.

(** [memcpy] of a string and its NUL into a block of [cap] bytes. *)
Definition fill (cap : Z) (s : list Z) : M (list Z) :=
  if zlen s + 1 <=? cap then retM s else undefined.
(** [snprintf(out, n, ...)] of [text] into a block of [cap] bytes. *)
Definition snprintf (cap n : Z) (text : list Z) : M (list Z) :=
  if (0 <? n) && (n <=? cap) then retM (take (Z.to_nat (n - 1)) text) else undefined.

(** * Files *)
Fixpoint skip_name (r : list Z) : list Z :=
  match r with
  | [] => []
  | c :: r' => if c =? SLASH then r' else skip_name r'
  end.
Fixpoint last_name (r : list Z) : list Z :=
  match r with
  | [] => []
  | c :: r' => if c =? SLASH then [] else c :: last_name r'
  end.
Definition dirname (p : path) : path := reverse (skip_name (reverse p)).
Definition basename (p : path) : path := reverse (last_name (reverse p)).

(** The root and the working directory always exist. *)
Definition is_dir (w : world) (d : path) : bool := bool_decide (d = []) || bool_decide (d ∈ w_dirs w).

(** One of the directories of [p] is a file. *)
Definition through_file (w : world) (p : path) : bool :=
  existsb (fun n => bool_decide (p !! n = Some SLASH) && bool_decide (is_Some (w_names w !! take n p))) (seq 0 (length p)).
(** There is no file [p], but not for lack of an entry. *)
Definition obstructed (w : world) (p : path) : bool := is_dir w p || through_file w p.

(** A directory that opens cannot be read; the callers fail at once or at the
    first read, so it fails here. *)
Definition fopen_rb (p : path) : M (errno + nat) :=
  let* c := next in
  let* w := getW in
  if refused c then retM (inl EACCES)
  else match w_names w !! p with
  | Some i => retM (inr i)
  | None => retM (inl (if obstructed w p then EACCES else ENOENT))
  end.
(** Whether [fopen] succeeds, on a directory too. *)
Definition opens (p : path) : M bool :=
  let* c := next in
  let* w := getW in
  retM (negb (refused c) && (bool_decide (is_Some (w_names w !! p)) || is_dir w p)).

(** A call without an effect here: [fseek], [close], [fclose], [fflush], [fdopen]. *)
Definition succeeds : M bool := let* c := next in retM (negb (refused c)).

Definition contents (i : nat) : M (list Z) :=
  let* w := getW in lift (i_data <$> w_inodes w !! i).

(** [ftell] at the end of the file *)
Definition ftell_end (i : nat) : M Z :=
  let* c := next in
  if refused c then retM (-1) else let* b := contents i in retM (zlen b).

(** [fread] of [n] bytes from the start *)
Definition fread (i : nat) (n : Z) : M (list Z) :=
  let* c := next in
  let* b := contents i in
  match c with
  | Refuse => retM []
  | Partial k => retM (take (Nat.min k (Z.to_nat n)) b)
  | _ => retM (take (Z.to_nat n) b)
  end.

(** A new file under the name [p]. *)
Definition create (p : path) : M nat :=
  let* w := getW in
  let i := w_fresh w in
  let* _ := modW (fun w => set_names (<[p := i]> (w_names w)) (set_fresh (S i) (set_inode i (Inode [] false) w))) in
  retM i.

Definition is_alnum (c : Z) : bool :=
  is_digit c || ((65 <=? c) && (c <=? 90)) || ((97 <=? c) && (c <=? 122)).
(** [mkstemp] of [template.XXXXXX]: a new file whose six last characters the
    system picks; it fails when that name is taken. *)
Definition mkstemp (template : path) : M (option (path * nat)) :=
  let* c := next in
  let* w := getW in
  let x := match c with
    | Pick s => if (length s =? 6)%nat && forallb is_alnum s then s else str "000000"
    | _ => str "000000"
    end in
  let tmp := template ++ DOT :: x in
  if refused c || bool_decide (is_Some (w_names w !! tmp)) || is_dir w tmp || negb (is_dir w (dirname tmp))
  then retM None
  else let* i := create tmp in retM (Some (tmp, i)).

(** [open(p, O_WRONLY | O_CREAT | O_TRUNC)], and without O_TRUNC *)
Definition open_create (p : path) (trunc : bool) : M (option nat) :=
  let* c := next in
  let* w := getW in
  if refused c || is_dir w p then retM None
  else match w_names w !! p with
  | Some i =>
      let* _ := if trunc then modW (set_inode i (Inode [] false)) else retM () in
      retM (Some i)
  | None =>
      if is_dir w (dirname p) then let* i := create p in retM (Some i) else retM None
  end.

Definition append (i : nat) (b : list Z) : M unit :=
  let* old := contents i in modW (set_inode i (Inode (old ++ b) false)).

(** [write]: the number of bytes written *)
Definition write (i : nat) (b : list Z) : M (errno + Z) :=
  let* c := next in
  match c with
  | Refuse => retM (inl EACCES)
  | Interrupt => retM (inl EINTR)
  | Partial n => let n := Nat.min n (length b) in let* _ := append i (take n b) in retM (inr (Z.of_nat n))
  | _ => let* _ := append i b in retM (inr (zlen b))
  end.

(** A call that reports success or an error number. *)
Definition attempt (effect : M unit) : M (option errno) :=
  let* c := next in
  match c with
  | Refuse => retM (Some EACCES)
  | Interrupt => retM (Some EINTR)
  | _ => let* _ := effect in retM None
  end.

Definition fsync (i : nat) : M (option errno) :=
  attempt (let* b := contents i in modW (set_inode i (Inode b true))).

(** The entries of [d] in the tables a crash can bring back are those of now. *)
Definition settle (d : path) (now old : gmap path nat) : gmap path nat :=
  filter (fun x => dirname x.1 <> d) old ∪ filter (fun x => dirname x.1 = d) now.
Definition fsync_dir (d : path) : M (option errno) :=
  attempt (modW (fun w => set_past (settle d (w_names w) <$> w_past w) w)).

Definition flock : M (option errno) := attempt (retM ()).

(** A call repeated while it is interrupted; the choices bound how often. *)
Fixpoint retry (fuel : nat) (m : M (option errno)) : M (option errno) :=
  match fuel with
  | O => undefined
  | S fuel =>
      let* e := m in
      match e with
      | Some EINTR => retry fuel m
      | _ => retM e
      end
  end.
Definition retrying (m : M (option errno)) : M (option errno) :=
  let* w := getW in retry (S (length (w_choices w))) m.

(** [link], [unlink], [rename], [mkdir]: whether they succeed *)
Definition link (a b : path) : M bool :=
  let* c := next in
  let* w := getW in
  match w_names w !! a with
  | Some i =>
      if refused c || bool_decide (is_Some (w_names w !! b)) || is_dir w b || negb (is_dir w (dirname b)) then retM false
      else let* _ := modW (set_names (<[b := i]> (w_names w))) in retM true
  | None => retM false
  end.

Definition unlink (a : path) : M bool :=
  let* c := next in
  let* w := getW in
  if refused c || negb (bool_decide (is_Some (w_names w !! a))) then retM false
  else let* _ := modW (set_names (delete a (w_names w))) in retM true.

(** [remove]: a file, or a directory with nothing in it *)
Definition remove (p : path) : M bool :=
  let* c := next in
  let* w := getW in
  if refused c then retM false
  else if bool_decide (is_Some (w_names w !! p)) then
    let* _ := modW (set_names (delete p (w_names w))) in retM true
  else if bool_decide (p ∈ w_dirs w) && bool_decide (filter (fun q => dirname q = p) (map_to_list (w_names w)).*1 = []) &&
      bool_decide (filter (fun q => dirname q = p) (elements (w_dirs w)) = []) then
    let* _ := modW (drop_dir p) in retM true
  else retM false.

Definition rename (a b : path) : M bool :=
  let* c := next in
  let* w := getW in
  match w_names w !! a with
  | Some i =>
      if refused c || is_dir w b || negb (is_dir w (dirname b)) then retM false
      else let* _ := modW (set_names (<[b := i]> (delete a (w_names w)))) in retM true
  | None => retM false
  end.

Definition mkdir (d : path) : M (option errno) :=
  let* c := next in
  let* w := getW in
  if refused c then retM (Some EACCES)
  else if bool_decide (d = []) then retM (Some ENOENT)
  else if is_dir w d || bool_decide (is_Some (w_names w !! d)) then retM (Some EEXIST)
  else if negb (is_dir w (dirname d)) then retM (Some ENOENT)
  else let* _ := modW (add_dir d) in retM None.

(** [opendir]: the entries that [readdir] will hand out, in its order. *)
Definition opendir (d : path) : M (errno + list path) :=
  let* c := next in
  let* w := getW in
  if refused c then retM (inl EACCES)
  else if negb (is_dir w d) then retM (inl (if bool_decide (is_Some (w_names w !! d)) || through_file w d then EACCES else ENOENT))
  else
    let inside := filter (fun p => dirname p = d) ((map_to_list (w_names w)).*1 ++ elements (w_dirs w)) in
    retM (inr (w_readdir w (str "." :: str ".." :: (basename <$> inside)))).

(** [stat] and [S_ISREG] *)
Definition stat_regular (p : path) : M bool :=
  let* c := next in
  let* w := getW in
  retM (negb (refused c) && bool_decide (is_Some (w_names w !! p))).

(** * Reasoning

    [wpM m Q E w]: from [w], [m] is defined, ends in [Q] or crashes in [E]. *)
Definition wpM {A} (m : M A) (Q : A -> world -> Prop) (E : world -> Prop) (w : world) : Prop :=
  match m w with
  | Ret a w' => Q a w'
  | Crash w' => E w'
  | Undefined => False
  end.

(** No faults ahead. *)
Definition calm (w : world) : Prop := w_choices w = [].

Definition same_files (w w' : world) : Prop :=
  w_names w' = w_names w /\ w_past w' = w_past w /\ w_inodes w' = w_inodes w /\ w_fresh w' = w_fresh w /\
  w_dirs w' = w_dirs w /\ w_env w' = w_env w /\ w_readdir w' = w_readdir w.

(** Only memory changed, by [d] blocks. *)
Definition mem (d : Z) (w w' : world) : Prop :=
  same_files w w' /\ w_choices w' `suffix_of` w_choices w /\ w_live w' = w_live w + d.

#[export] Instance same_files_equivalence : Equivalence same_files.
Proof.
  split; unfold same_files; [done|intros w1 w2 H1|intros w1 w2 w3 H1 H2]; intuition congruence.
Qed.

Lemma mem_refl w : mem 0 w w.
Proof. split_and!; [reflexivity|done|lia]. Qed.

Lemma mem_trans d e w1 w2 w3 : mem d w1 w2 -> mem e w2 w3 -> mem (d + e) w1 w3.
Proof. intros (? & ? & ?) (? & ? & ?). split_and!; [by etransitivity..|lia]. Qed.

Lemma mem_calm d w w' : mem d w w' -> calm w -> calm w'.
Proof. unfold calm. intros (_ & H & _) E. rewrite E in H. by apply suffix_nil_inv in H. Qed.

Lemma mem_files d w w' : mem d w w' -> same_files w w'.
Proof. by intros []. Qed.

Lemma wpM_bind {A B} (m : M A) (k : A -> M B) Q E w :
  wpM m (fun a => wpM (k a) Q E) E w -> wpM (bindM m k) Q E w.
Proof. unfold wpM, bindM. by destruct (m w). Qed.

Lemma wpM_mono {A} (m : M A) (Q Q' : A -> world -> Prop) (E E' : world -> Prop) w :
  wpM m Q E w -> (forall a w', Q a w' -> Q' a w') -> (forall w', E w' -> E' w') -> wpM m Q' E' w.
Proof. unfold wpM. destruct (m w); auto. Qed.

(** Computations that only take and give back memory.  [tr P d m e own R]:
    when [d] blocks are held and [P] excludes faults, [m] is defined, touches
    no file, and ends with [e] blocks and those that its result owns, a
    result in [R]. *)
Definition tr {A} (P : Prop) (d : Z) (m : M A) (e : Z) (own : A -> Z) (R : A -> Prop) : Prop :=
  forall w0 w, mem d w0 w -> (P -> calm w) ->
    wpM m (fun a w' => mem (e + own a) w0 w' /\ R a) (same_files w0) w.

Definition owned {A} (x : option A) : Z := match x with None => 0 | Some _ => 1 end.
Definition nothing {A} (x : A) : Z := 0.
(** The result is the block with [x], or NULL when there may be faults. *)
Definition gives {A} (P : Prop) (x : A) (r : option A) : Prop := r = Some x \/ (r = None /\ ~ P).

(** The result is [x], or NULL when there may be faults. *)
Definition may {A} (P : Prop) (x r : option A) : Prop := r = x \/ (r = None /\ ~ P).

Lemma tr_ret {A} P d (a : A) e own (R : A -> Prop) : d = e + own a -> R a -> tr P d (retM a) e own R.
Proof. intros -> HR w0 w Hw _. by split. Qed.

Lemma tr_mono {A} P d (m : M A) e own (R R' : A -> Prop) :
  tr P d m e own R -> (forall a, R a -> R' a) -> tr P d m e own R'.
Proof. intros H HR w0 w Hw HP. eapply wpM_mono; [by apply H|naive_solver|done]. Qed.

Lemma tr_eq {A} P d d' (m : M A) e own R : d = d' -> tr P d' m e own R -> tr P d m e own R.
Proof. by intros ->. Qed.

Lemma tr_own_eq {A} P own own' d (m : M A) e R : (forall a, own' a = own a) -> tr P d m e own R -> tr P d m e own' R.
Proof. intros E H w0 w Hw HP. eapply wpM_mono; [by apply H| |done]. cbn beta. intros a w' Ha. by rewrite E. Qed.

Lemma tr_bind {A B} P d (m : M A) (k : A -> M B) own1 R1 e own R :
  tr P 0 m 0 own1 R1 -> (forall a, R1 a -> tr P (d + own1 a) (k a) e own R) -> tr P d (bindM m k) e own R.
Proof.
  intros Hm Hk w0 w Hw HP. apply wpM_bind. eapply wpM_mono; [apply (Hm w w (mem_refl w) HP)| |].
  - cbn beta. intros a w' [Hw' Ha]. apply Hk; [done|by apply (mem_trans _ _ _ w)|].
    intros HP'. apply (mem_calm _ _ _ Hw'), HP, HP'.
  - intros w' Hw'. etransitivity; [|done]. by apply (mem_files d).
Qed.

Lemma bind_assoc {A B C} (m : M A) (f : A -> M B) (g : B -> M C) w : bindM (bindM m f) g w = bindM m (fun a => bindM (f a) g) w.
Proof. unfold bindM. by destruct (m w). Qed.

Lemma tr_assoc {A B C} P d (m : M A) (f : A -> M B) (g : B -> M C) e own R :
  tr P d (bindM m (fun a => bindM (f a) g)) e own R -> tr P d (bindM (bindM m f) g) e own R.
Proof. intros H w0 w Hw HP. unfold wpM. rewrite bind_assoc. by apply H. Qed.

Lemma tr_own {A B} P d (m : M (option A)) (k : option A -> M B) R1 e own R :
  tr P 0 m 0 owned R1 -> (forall x, R1 x -> tr P (d + owned x) (k x) (e + owned x) own R) ->
  tr P d (owning m k) e own R.
Proof.
  intros Hm Hk. eapply tr_bind; [done|]. intros x Hx w0 w Hw HP. apply wpM_bind.
  eapply wpM_mono; [by apply Hk| |done]. cbn beta. intros r w' [Hr HR].
  destruct x; cbn [owned] in *; unfold wpM, sqlite3_free, bindM, modW, retM; (split; [|done]).
  - destruct Hr as (? & ? & ?). split_and!; [done..|]. cbn. lia.
  - by rewrite Z.add_0_r in Hr.
Qed.

Lemma tr_lift {A B} P d (m : option A) a (k : A -> M B) e own R :
  m = Some a -> tr P d (k a) e own R -> tr P d (bindM (lift m) k) e own R.
Proof. intros ->. done. Qed.

(** Holding more blocks changes nothing. *)
Lemma tr_frame {A} P d d' (m : M A) e own R : tr P d m e own R -> tr P (d + d') m (e + d') own R.
Proof.
  intros H w0 w Hw HP.
  assert (mem d (set_live (w_live w0 + d') w0) w) as Hw' by (destruct Hw as (? & ? & ?); split_and!; [done..|cbn; lia]).
  eapply wpM_mono; [apply (H _ _ Hw' HP)| |done]. cbn beta. intros a w' [(? & ? & Hl) HR].
  split; [|done]. split_and!; [done..|]. cbn in Hl. lia.
Qed.

(** The same in a setting with files. *)
Lemma wpM_tr {A} P (m : M A) own R Q (E : world -> Prop) w :
  tr P 0 m 0 own R -> (P -> calm w) ->
  (forall a w', mem (own a) w w' -> (P -> calm w') -> R a -> Q a w') ->
  (forall w', same_files w w' -> E w') -> wpM m Q E w.
Proof.
  intros Hm HP HQ HE. eapply wpM_mono; [apply (Hm w w (mem_refl w) HP)| |done].
  cbn beta. intros a w' [Hw' Ha]. apply HQ; [done| |done]. intros HP'. apply (mem_calm _ _ _ Hw'), HP, HP'.
Qed.

Lemma wpM_next {A} (k : choice -> M A) Q (E : world -> Prop) w : E w ->
  (calm w -> wpM (k Go) Q E w) ->
  (forall c cs, w_choices w = c :: cs -> c <> Die -> wpM (k c) Q E (set_choices cs w)) ->
  wpM (bindM next k) Q E w.
Proof.
  intros HE H0 Hc. unfold wpM, bindM, next. destruct (w_choices w) as [|c cs] eqn:E0; [by apply H0|].
  specialize (Hc c cs eq_refl). destruct c; try (apply Hc; done). exact HE.
Qed.

Lemma mem_set_choices w c cs : w_choices w = c :: cs -> mem 0 w (set_choices cs w).
Proof.
  intros E. split_and!; [done| |cbn; lia]. cbn. rewrite E. by exists [c].
Qed.

Lemma tr_next {A} P d (k : choice -> M A) e own R :
  tr P d (k Go) e own R -> (forall c, ~ P -> tr P d (k c) e own R) -> tr P d (bindM next k) e own R.
Proof.
  intros H0 Hc w0 w Hw HP. apply wpM_next; [by apply (mem_files d)|by intros; apply H0|].
  intros c cs E _. apply Hc.
  - intros HP'. specialize (HP HP'). unfold calm in HP. congruence.
  - rewrite <- (Z.add_0_r d). eapply mem_trans; [done|]. by eapply mem_set_choices.
  - intros HP'. specialize (HP HP'). unfold calm in HP. congruence.
Qed.

Lemma tr_live {A} P d (k : unit -> M A) f x e own R :
  (forall w, f w = set_live (w_live w + x) w) -> tr P (d + x) (k ()) e own R -> tr P d (bindM (modW f) k) e own R.
Proof.
  intros Hf Hk w0 w (H1 & H2 & H3) HP. unfold wpM, bindM, modW. rewrite Hf. apply Hk; [|done].
  split_and!; [done..|]. cbn. lia.
Qed.

Lemma malloc_tr P n : 0 < n <= SQLITE_MAX_ALLOCATION_SIZE -> tr P 0 (sqlite3_malloc n) 0 owned (gives P n).
Proof.
  intros Hn. assert (i32 n = n) as En by (apply i32_small; unfold SQLITE_MAX_ALLOCATION_SIZE, INT_MAX in *; lia).
  assert ((n <=? 0) || (SQLITE_MAX_ALLOCATION_SIZE <? n) = false) as E by lia.
  unfold sqlite3_malloc. rewrite En.
  assert (forall R : option Z -> Prop, R (Some n) ->
    tr P 0 (let* _ := modW (fun w => set_live (w_live w + 1) w) in retM (Some n)) 0 owned R) as Hok.
  { intros R HR. eapply (tr_live _ _ _ _ 1); [done|]. by apply tr_ret. }
  apply tr_next.
  - rewrite E. apply Hok. by left.
  - intros c HP. rewrite E. destruct (refused c); cbn [orb]; [apply tr_ret; [done|by right]|]. apply Hok. by left.
Qed.

(** A size that the allocator turns down. *)
Lemma malloc_any_tr P n : 0 < n <= INT_MAX -> tr P 0 (sqlite3_malloc n) 0 owned (gives (P /\ n <= SQLITE_MAX_ALLOCATION_SIZE) n).
Proof.
  intros Hn. destruct (decide (n <= SQLITE_MAX_ALLOCATION_SIZE)) as [Hs|Hs].
  - eapply tr_mono; [apply malloc_tr; lia|]. intros r [->|[-> HP]]; [by left|]. right. split; [done|]. by intros [? _].
  - unfold sqlite3_malloc. rewrite i32_small by (unfold INT_MAX in *; lia).
    assert ((n <=? 0) || (SQLITE_MAX_ALLOCATION_SIZE <? n) = true) as -> by lia.
    assert (tr P 0 (retM None) 0 owned (gives (P /\ n <= SQLITE_MAX_ALLOCATION_SIZE) n)) as H by (apply tr_ret; [done|]; right; split; [done|]; by intros [_ ?]).
    apply tr_next; [exact H|]. intros c _. exact H.
Qed.

Lemma free_tr {A} P d (x : option A) {B} (k : unit -> M B) e own R :
  tr P (d - owned x) (k ()) e own R -> tr P d (bindM (sqlite3_free x) k) e own R.
Proof.
  destruct x; cbn [sqlite3_free owned]; intros H; [|by rewrite Z.sub_0_r in H].
  by apply (tr_live _ _ _ _ (-1)).
Qed.

(** A block that the code looks at before it goes on. *)
Lemma tr_own_gives {A B} P d (m : M (option A)) x (k : option A -> M B) e own R :
  tr P 0 m 0 owned (gives P x) -> tr P (d + 1) (k (Some x)) (e + 1) own R ->
  (~ P -> tr P d (k None) e own R) -> tr P d (owning m k) e own R.
Proof.
  intros Hm Hs Hn. eapply tr_own; [exact Hm|]. intros r [->|[-> HP]]; cbn [owned]; [done|].
  rewrite !Z.add_0_r. by apply Hn.
Qed.

Lemma tr_bind_gives {A B} P d (m : M (option A)) x (k : option A -> M B) e own R :
  tr P 0 m 0 owned (gives P x) -> tr P (d + 1) (k (Some x)) e own R ->
  (~ P -> tr P d (k None) e own R) -> tr P d (bindM m k) e own R.
Proof.
  intros Hm Hs Hn. eapply tr_bind; [exact Hm|]. intros r [->|[-> HP]]; cbn [owned]; [done|].
  rewrite Z.add_0_r. by apply Hn.
Qed.

Lemma tr_none {A} P d (x : A) e : d = e -> ~ P -> tr P d (retM None) e owned (gives P x).
Proof. intros -> HP. apply tr_ret; [cbn; lia|by right]. Qed.

Lemma tr_some {A} P d (x : A) e : d = e + 1 -> tr P d (retM (Some x)) e owned (gives P x).
Proof. intros ->. apply tr_ret; [done|by left]. Qed.

(** A block that is freed at the end, around calls that change files. *)
Lemma wpM_owning {A B} P P' (m : M (option A)) x (k : option A -> M B) (Q : B -> world -> Prop) (E : world -> Prop) w :
  tr P 0 m 0 owned (gives P' x) -> (P -> calm w) -> (forall w', same_files w w' -> E w') ->
  (forall w1, mem 1 w w1 -> wpM (k (Some x)) (fun b w2 => Q b (set_live (w_live w2 - 1) w2)) E w1) ->
  (forall w1, mem 0 w w1 -> ~ P' -> wpM (k None) Q E w1) -> wpM (owning m k) Q E w.
Proof.
  intros Hm HP HE Hs Hn. apply wpM_bind. eapply wpM_tr; [exact Hm|exact HP| |exact HE].
  intros r w1 Hw1 _ [->|[-> HnP]]; apply wpM_bind.
  - eapply wpM_mono; [exact (Hs w1 Hw1)|done|done].
  - eapply wpM_mono; [exact (Hn w1 Hw1 HnP)|done|done].
Qed.

(** Calls in the last place. *)
Lemma tr_call {A} P d (m : M A) e own R : d = e -> tr P 0 m 0 own R -> tr P d m e own R.
Proof. intros -> H. apply (tr_frame _ _ e) in H. by rewrite Z.add_0_l in H. Qed.

(** Takes the next block from [lem]; NULL ends the function. *)
Ltac own_next lem := eapply tr_own_gives; [eapply lem|cbn beta iota|intros ?; cbn beta iota; apply tr_none; [lia|done]].
Ltac bind_next lem := eapply tr_bind_gives; [eapply lem|cbn beta iota|intros ?; cbn beta iota; apply tr_none; [lia|done]].

(** * Calls of the operating system *)
(** The choice [c] was taken between [w] and [w']. *)
Definition taken (w : world) (c : choice) (w' : world) : Prop :=
  (calm w /\ c = Go /\ w' = w) \/ (exists cs, w_choices w = c :: cs /\ w' = set_choices cs w).

Lemma taken_files w c w' W : taken w c w' -> same_files W w -> same_files W w'.
Proof. intros [(_ & _ & ->)|(cs & _ & ->)]; done. Qed.

Lemma taken_calm w c w' : taken w c w' -> calm w -> c = Go /\ calm w'.
Proof. unfold calm. intros [(_ & -> & ->)|(cs & E & _)]; [done|congruence]. Qed.

Lemma taken_live w c w' : taken w c w' -> w_live w' = w_live w.
Proof. intros [(_ & _ & ->)|(cs & _ & ->)]; done. Qed.

(** An interruption uses up a choice. *)
Lemma taken_shorter w c w' : taken w c w' -> c <> Go -> (length (w_choices w') < length (w_choices w))%nat.
Proof. intros [(_ & -> & _)|(cs & E & ->)] Hc; [done|]. cbn. rewrite E. cbn [length]. lia. Qed.

Lemma taken_length w c w' : taken w c w' -> (length (w_choices w') <= length (w_choices w))%nat.
Proof. intros [(_ & _ & ->)|(cs & E & ->)]; [done|]. cbn. rewrite E. cbn [length]. lia. Qed.

Lemma wpM_take {A} (k : choice -> M A) Q (E : world -> Prop) w :
  E w -> (forall c w', taken w c w' -> wpM (k c) Q E w') -> wpM (bindM next k) Q E w.
Proof.
  intros HE H. apply wpM_next; [done| |].
  - intros Hc. apply H. by left.
  - intros c cs Ec _. apply H. right. by exists cs.
Qed.

Lemma wpM_ret {A} (a : A) (Q : A -> world -> Prop) E w : Q a w -> wpM (retM a) Q E w.
Proof. done. Qed.

Lemma wpM_getW {A} (k : world -> M A) Q E w : wpM (k w) Q E w -> wpM (bindM getW k) Q E w.
Proof. done. Qed.

Lemma wpM_modW {A} f (k : unit -> M A) Q E w : wpM (k ()) Q E (f w) -> wpM (bindM (modW f) k) Q E w.
Proof. done. Qed.

Lemma wpM_contents {A} i b s (k : list Z -> M A) Q E w : w_inodes w !! i = Some (Inode b s) ->
  wpM (k b) Q E w -> wpM (bindM (contents i) k) Q E w.
Proof. intros H Hk. unfold wpM, bindM, contents. cbn. unfold lift. rewrite H. exact Hk. Qed.

Lemma same_files_set W w : same_files W w ->
  (forall x, same_files (set_names x W) (set_names x w)) /\ (forall i x, same_files (set_inode i x W) (set_inode i x w)) /\
  (forall x, same_files (set_past x W) (set_past x w)) /\ (forall x, same_files (set_fresh x W) (set_fresh x w)) /\
  (forall d, same_files (add_dir d W) (add_dir d w)).
Proof. unfold same_files. cbn. intros (-> & -> & -> & -> & -> & -> & ->). split_and!; intros; split_and!; done. Qed.
