(* ===== verification/Radix.v ===== *)
(** Base 32 and base 64url of [remote/doltlite_creds.c]: the encoders and the
    decoder with their output blocks, against one definition of what it is to
    write bytes in digits of [w] bits. *)
From S2P Require Import Prelude CString World.

(** * The code *)
(** [out[o++] = c] into a block of [cap] bytes *)
Definition push (cap : Z) (out : list Z) (c : Z) : option (list Z) :=
  if zlen out <? cap then Some (out ++ [c]) else None.

Definition B32_ALPHABET : list Z := str "0123456789abcdefghijklmnopqrstuv".
Definition B64URL_ALPHABET : list Z := str "ABCDEFGHIJKLMNOPQRSTUVWXYZabcdefghijklmnopqrstuvwxyz0123456789-_".

Definition put_digit (alphabet : list Z) (cap : Z) (out : list Z) (d : Z) : option (list Z) :=
  let? c := alphabet !! Z.to_nat d in push cap out c.

(** [while( bits >= 5 )]; [n] bounds the turns. *)
Fixpoint b32_flush (n : nat) (cap buf bits : Z) (out : list Z) : option (Z * list Z) :=
  if 5 <=? bits then
    match n with
    | O => None
    | S n =>
        let bits := bits - 5 in
        let? out := put_digit B32_ALPHABET cap out (Z.land (Z.shiftr buf bits) 31) in
        b32_flush n cap buf bits out
    end
  else Some (bits, out).

Fixpoint b32_loop (cap : Z) (in_ : list Z) (buf bits : Z) (out : list Z) : option (Z * Z * list Z) :=
  match in_ with
  | [] => Some (buf, bits, out)
  | x :: in_ =>
      let buf := Z.lor (u32 (Z.shiftl buf 8)) x in
      let bits := bits + 8 in
      let? (bits, out) := b32_flush 2 cap buf bits out in
      b32_loop cap in_ buf bits out
  end.

Definition doltliteBase32Encode (in_ : list Z) : M (option (list Z)) :=
  let outlen := u64 (u64 (zlen in_ * 8) + 4) / 5 in
  let* out := sqlite3_malloc (outlen + 1) in
  match out with
  | None => retM None
  | Some cap =>
      let* (buf, bits, out) := lift (b32_loop cap in_ 0 0 []) in
      let* out := lift
        (if 0 <? bits then put_digit B32_ALPHABET cap out (Z.land (u32 (Z.shiftl buf (5 - bits))) 31)
         else Some out) in
      let* _ := lift (push cap out 0) in
      retM (Some out)
  end.

Definition b64_digit : Z -> list Z -> Z -> option (list Z) := put_digit B64URL_ALPHABET.

(** The whole groups, and the bytes left over. *)
Fixpoint b64_groups (cap : Z) (in_ out : list Z) : option (list Z * list Z) :=
  match in_ with
  | a :: b :: c :: in_ =>
      let n := Z.lor (Z.lor (Z.shiftl a 16) (Z.shiftl b 8)) c in
      let? out := b64_digit cap out (Z.land (Z.shiftr n 18) 63) in
      let? out := b64_digit cap out (Z.land (Z.shiftr n 12) 63) in
      let? out := b64_digit cap out (Z.land (Z.shiftr n 6) 63) in
      let? out := b64_digit cap out (Z.land n 63) in
      b64_groups cap in_ out
  | rest => Some (rest, out)
  end.

Definition b64_tail (cap : Z) (rest out : list Z) : option (list Z) :=
  match rest with
  | [a] =>
      let n := Z.shiftl a 16 in
      let? out := b64_digit cap out (Z.land (Z.shiftr n 18) 63) in
      let? out := b64_digit cap out (Z.land (Z.shiftr n 12) 63) in
      let? out := push cap out EQUALS in
      push cap out EQUALS
  | [a; b] =>
      let n := Z.lor (Z.shiftl a 16) (Z.shiftl b 8) in
      let? out := b64_digit cap out (Z.land (Z.shiftr n 18) 63) in
      let? out := b64_digit cap out (Z.land (Z.shiftr n 12) 63) in
      let? out := b64_digit cap out (Z.land (Z.shiftr n 6) 63) in
      push cap out EQUALS
  | _ => Some out
  end.

Definition doltliteBase64UrlEncode (in_ : list Z) : M (option (list Z)) :=
  let outlen := u64 (u64 (zlen in_ + 2) / 3 * 4) in
  let* out := sqlite3_malloc (outlen + 1) in
  match out with
  | None => retM None
  | Some cap =>
      let* (rest, out) := lift (b64_groups cap in_ []) in
      let* out := lift (b64_tail cap rest out) in
      let* _ := lift (push cap out 0) in
      retM (Some out)
  end.

Definition b64urlVal (c : Z) : Z :=
  if (65 <=? c) && (c <=? 90) then c - 65
  else if (97 <=? c) && (c <=? 122) then c - 97 + 26
  else if (48 <=? c) && (c <=? 57) then c - 48 + 52
  else if c =? 45 then 62
  else if c =? 95 then 63
  else -1.

(** [None] inside is a character outside the alphabet. *)
Fixpoint b64_decode_loop (cap : Z) (in_ : list Z) (acc nbits : Z) (buf : list Z) : option (option (list Z)) :=
  match in_ with
  | [] => Some (Some buf)
  | c :: in_ =>
      if c =? EQUALS then Some (Some buf) else
      let v := b64urlVal c in
      if v <? 0 then Some None else
      let acc := Z.lor (u32 (Z.shiftl acc 6)) v in
      let nbits := nbits + 6 in
      if 8 <=? nbits then
        let nbits := nbits - 8 in
        let? buf := push cap buf (Z.land (Z.shiftr acc nbits) 255) in
        b64_decode_loop cap in_ acc nbits buf
      else b64_decode_loop cap in_ acc nbits buf
  end.

(** [None] is a result other than 0; the bytes are those in the new block. *)
Definition doltliteBase64UrlDecode (in_ : list Z) : M (option (list Z)) :=
  let inlen := zlen in_ in
  if inlen mod 4 =? 1 then retM None else
  let cap := inlen / 4 * 3 + 3 in
  let* buf := sqlite3_malloc (if cap =? 0 then 1 else cap) in
  match buf with
  | None => retM None
  | Some cap =>
      let* r := lift (b64_decode_loop cap in_ 0 0 []) in
      let* _ := match r with None => sqlite3_free buf | Some _ => retM () end in
      retM r
  end.

(** * Numbers in digits of [w] bits, most significant first *)
Definition val (w : Z) (ds : list Z) : Z := foldl (fun v d => v * 2 ^ w + d) 0 ds.
Definition digits_wf (w : Z) (ds : list Z) : Prop := Forall (fun d => 0 <= d < 2 ^ w) ds.

(** The bytes [B] in digits of [w] bits, with zero bits behind the last. *)
Definition radix (w : Z) (B : list Z) : list Z :=
  let n := (8 * zlen B + w - 1) / w in
  let v := val 8 B * 2 ^ (w * n - 8 * zlen B) in
  (fun i => v / 2 ^ (w * (n - 1 - i)) mod 2 ^ w) <$> seqZ 0 n.

Definition letter (alphabet : list Z) (d : Z) : Z := default 0 (alphabet !! Z.to_nat d).
Definition base32 (B : list Z) : list Z := letter B32_ALPHABET <$> radix 5 B.
(** Without the padding, and with it. *)
Definition base64_raw (B : list Z) : list Z := letter B64URL_ALPHABET <$> radix 6 B.
Definition base64 (B : list Z) : list Z :=
  base64_raw B ++ replicate (Z.to_nat ((- zlen (base64_raw B)) mod 4)) EQUALS.

Lemma val_snoc w ds d : val w (ds ++ [d]) = val w ds * 2 ^ w + d.
Proof. unfold val. by rewrite foldl_app. Qed.

Lemma val_app w a b : 0 <= w -> val w (a ++ b) = val w a * 2 ^ (w * zlen b) + val w b.
Proof.
  intros Hw. induction b as [|d b IH] using rev_ind.
  - rewrite app_nil_r. cbn [length]. rewrite Z.mul_0_r. cbn. lia.
  - rewrite app_assoc, !val_snoc, IH, length_app. cbn [length].
    replace (w * Z.of_nat (length b + 1)) with (w * zlen b + w) by lia. rewrite Z.pow_add_r by lia. ring.
Qed.

Lemma val_cons w d ds : 0 <= w -> val w (d :: ds) = d * 2 ^ (w * zlen ds) + val w ds.
Proof. intros Hw. change (d :: ds) with ([d] ++ ds). by rewrite val_app. Qed.

Lemma val_bound w ds : 0 <= w -> digits_wf w ds -> 0 <= val w ds < 2 ^ (w * zlen ds).
Proof.
  intros Hw. induction ds as [|d ds IH] using rev_ind; intros Hd.
  - cbn [length]. rewrite Z.mul_0_r. cbn. lia.
  - apply Forall_app in Hd as [Hds Hd]. rewrite Forall_singleton in Hd. specialize (IH Hds). cbn beta in Hd. rewrite val_snoc, length_app.
    cbn [length]. replace (w * Z.of_nat (length ds + 1)) with (w * zlen ds + w) by lia.
    rewrite Z.pow_add_r by lia. pose proof (Z.mul_le_mono_nonneg_r (val w ds) (2 ^ (w * zlen ds) - 1) (2 ^ w)).
    pose proof (Z.mul_nonneg_nonneg (val w ds) (2 ^ w)). lia.
Qed.

Lemma val_inj w a b : 0 <= w -> digits_wf w a -> digits_wf w b -> length a = length b -> val w a = val w b -> a = b.
Proof.
  intros Hw. revert b. induction a as [|d a IH] using rev_ind; intros b Ha Hb Hl Hv.
  - by destruct b.
  - destruct b as [|d' b _] using rev_ind; [rewrite length_app in Hl; cbn in Hl; lia|].
    apply Forall_app in Ha as [Ha Hd]. apply Forall_app in Hb as [Hb Hd']. rewrite Forall_singleton in Hd, Hd'.
    rewrite !val_snoc in Hv. rewrite !length_app in Hl. cbn [length] in Hl.
    destruct (Z.div_mod_unique (2 ^ w) (val w a) (val w b) d d') as [Ev ->]; [lia..|]. f_equal. apply IH; try done. lia.
Qed.

(** [D] writes the bytes [B]. *)
Record writes (w : Z) (D B : list Z) : Prop := {
  writes_wf : digits_wf w D;
  writes_len : 8 * zlen B <= w * zlen D < 8 * zlen B + w;
  writes_val : val w D = val 8 B * 2 ^ (w * zlen D - 8 * zlen B)
}.

Lemma writes_unique w D D' B : 0 < w -> writes w D B -> writes w D' B -> D = D'.
Proof.
  intros Hw [W1 L1 V1] [W2 L2 V2]. assert (length D = length D') as El by nia.
  apply (val_inj w); try done; [lia|]. by rewrite V1, V2, El.
Qed.

Lemma digits_of_value w n v : 0 < w -> 0 <= v ->
  let D := (fun i => v / 2 ^ (w * (Z.of_nat n - 1 - i)) mod 2 ^ w) <$> seqZ 0 (Z.of_nat n) in
  length D = n /\ digits_wf w D /\ val w D = v mod 2 ^ (w * Z.of_nat n).
Proof.
  intros Hw. revert v. induction n as [|n IH]; intros v Hv; cbv zeta.
  - split_and!; [done|constructor|]. rewrite Z.mul_0_r, Z.mod_1_r. done.
  - rewrite Nat2Z.inj_succ, <- Z.add_1_r, seqZ_app, fmap_app by lia.
    destruct (IH (v / 2 ^ w)) as (IL & IW & IV); [apply Z.div_pos; lia|]. cbv zeta in *.
    match type of IL with length ?X = _ => set (D := X) in * end.
    match goal with |- context [?X ++ _] => assert (X = D) as -> end.
    { unfold D. apply list_fmap_ext. intros i x Hi. apply lookup_seqZ in Hi as [-> Hi].
      rewrite Z.div_div by (first [apply Z.pow_nonzero|apply Z.pow_pos_nonneg]; nia).
      rewrite <- Z.pow_add_r by nia. do 3 f_equal. lia. }
    change (seqZ (0 + Z.of_nat n) 1) with [0 + Z.of_nat n]. cbn [fmap list_fmap].
    replace (Z.of_nat n + 1 - 1 - (0 + Z.of_nat n)) with 0 by lia. rewrite Z.mul_0_r, Z.div_1_r.
    split_and!.
    + rewrite length_app, IL. cbn [length]. lia.
    + apply Forall_app. split; [done|]. apply Forall_singleton. apply Z.mod_pos_bound. lia.
    + rewrite val_snoc, IV. replace (w * (Z.of_nat n + 1)) with (w + w * Z.of_nat n) by lia.
      rewrite Z.pow_add_r, Z.rem_mul_r by lia. lia.
Qed.

Lemma radix_writes w B : 0 < w -> bytes_wf B -> writes w (radix w B) B.
Proof.
  intros Hw HB. unfold radix. cbv zeta. set (n := (8 * zlen B + w - 1) / w). pose proof (val_bound 8 B ltac:(lia) HB) as Hv.
  pose proof (Z.div_mod (8 * zlen B + w - 1) w ltac:(lia)) as Hd. pose proof (Z.mod_pos_bound (8 * zlen B + w - 1) w Hw).
  fold n in Hd. assert (0 <= n) by (apply Z.div_pos; lia). set (k := w * n - 8 * zlen B). assert (0 <= k < w) by lia.
  assert (0 < 2 ^ k) by lia.
  destruct (digits_of_value w (Z.to_nat n) (val 8 B * 2 ^ k)) as (L & W & V); [done|apply Z.mul_nonneg_nonneg; lia|]. cbv zeta in *.
  rewrite Z2Nat.id in * by done. split; [done|lia|]. rewrite L, V, Z2Nat.id by done. fold k.
  assert (w * n = 8 * zlen B + k) as -> by lia. clearbody k. apply Z.mod_small.
  split; [apply Z.mul_nonneg_nonneg; lia|]. rewrite Z.pow_add_r by lia. apply Z.mul_lt_mono_pos_r; lia.
Qed.

(** * Bit accumulators *)
Lemma acc_out buf v b w : 0 <= b -> 0 <= w ->
  v * 2 ^ (b + w) + buf mod 2 ^ (b + w) = (v * 2 ^ w + Z.shiftr buf b mod 2 ^ w) * 2 ^ b + buf mod 2 ^ b.
Proof.
  intros Hb Hw. rewrite Z.shiftr_div_pow2 by done. rewrite Z.pow_add_r by done.
  rewrite Z.rem_mul_r by lia. ring.
Qed.

Lemma acc_in buf x b k : 0 <= b -> 0 <= k -> b + k <= 32 -> 0 <= x < 2 ^ k ->
  Z.lor (u32 (Z.shiftl buf k)) x mod 2 ^ (b + k) = buf mod 2 ^ b * 2 ^ k + x.
Proof.
  intros Hb Hk Hbk Hx. rewrite Z.shiftl_mul_pow2 by done. unfold u32.
  replace (2 ^ 32) with (2 ^ (32 - k) * 2 ^ k) by (rewrite <- Z.pow_add_r by lia; f_equal; lia).
  rewrite Z.mul_mod_distr_r by lia. set (m := buf mod 2 ^ (32 - k)).
  rewrite Z.lor_comm, <- Z.shiftl_mul_pow2, lor_shiftl_add by done.
  replace (2 ^ (b + k)) with (2 ^ k * 2 ^ b) by (rewrite <- Z.pow_add_r by lia; f_equal; lia).
  rewrite Z.rem_mul_r, Z.mod_add, (Z.mod_small x), Z.div_add, (Z.div_small x), Z.add_0_l by lia.
  replace (m mod 2 ^ b) with (buf mod 2 ^ b); [ring|]. unfold m.
  replace (2 ^ (32 - k)) with (2 ^ b * 2 ^ (32 - k - b)) by (rewrite <- Z.pow_add_r by lia; f_equal; lia).
  rewrite Z.rem_mul_r by lia. rewrite Z.mul_comm, Z.mod_add, Z.mod_mod by lia. done.
Qed.

Lemma land_ones_mod x w : 0 <= w -> Z.land x (2 ^ w - 1) = x mod 2 ^ w.
Proof. intros Hw. rewrite <- Z.land_ones by done. f_equal. rewrite Z.ones_equiv. lia. Qed.

(** The digits [D] of [w] bits and the [bits] low bits of [buf] hold the
    digits [B] of [v] bits. *)
Record holds (w v : Z) (D : list Z) (buf bits : Z) (B : list Z) : Prop := {
  holds_wf : digits_wf w D;
  holds_bits : 0 <= bits;
  holds_len : w * zlen D + bits = v * zlen B;
  holds_val : val w D * 2 ^ bits + buf mod 2 ^ bits = val v B
}.

Lemma acc_nil w v : holds w v [] 0 0 [].
Proof. split; [by apply Forall_nil|done|cbn; lia|done]. Qed.

Lemma holds_in w v D buf bits B x : holds w v D buf bits B -> 0 <= v -> bits + v <= 32 -> 0 <= x < 2 ^ v ->
  holds w v D (Z.lor (u32 (Z.shiftl buf v)) x) (bits + v) (B ++ [x]).
Proof.
  intros [HD Hb Hl Hv] Hv0 H32 Hx. split; [done|lia|rewrite length_app; cbn [length]; lia|].
  rewrite acc_in, val_snoc, <- Hv, Z.pow_add_r by lia. ring.
Qed.

Lemma holds_out w v D buf bits B : 0 <= w -> holds w v D buf (bits + w) B -> 0 <= bits ->
  holds w v (D ++ [Z.shiftr buf bits mod 2 ^ w]) buf bits B.
Proof.
  intros Hw [HD Hb Hl Hv] Hb'. split; [|done|rewrite length_app; cbn [length]; lia|].
  - apply Forall_app. split; [done|]. apply Forall_singleton, Z.mod_pos_bound. lia.
  - by rewrite val_snoc, <- acc_out.
Qed.

(** The last digit: zero bits behind what is left. *)
Lemma holds_writes w D buf bits B : 0 < w -> holds w 8 D buf bits B -> bits < w ->
  writes w (if 0 <? bits then D ++ [buf * 2 ^ (w - bits) mod 2 ^ w] else D) B.
Proof.
  intros Hw [HD Hb Hl Hv] Hbw. destruct (Z.ltb_spec 0 bits).
  - assert (buf * 2 ^ (w - bits) mod 2 ^ w = buf mod 2 ^ bits * 2 ^ (w - bits)) as E.
    { replace (2 ^ w) with (2 ^ bits * 2 ^ (w - bits)) by (rewrite <- Z.pow_add_r by lia; f_equal; lia).
      rewrite Z.mul_mod_distr_r; lia. }
    split.
    + apply Forall_app. split; [done|]. apply Forall_singleton, Z.mod_pos_bound. lia.
    + rewrite length_app. cbn [length]. lia.
    + rewrite val_snoc, E, length_app. cbn [length]. replace (w * Z.of_nat (length D + 1) - 8 * zlen B) with (w - bits) by lia.
      rewrite <- Hv. replace (2 ^ w) with (2 ^ bits * 2 ^ (w - bits)) at 1 by (rewrite <- Z.pow_add_r by lia; f_equal; lia). ring.
  - assert (bits = 0) as -> by lia. split; [done|lia|]. rewrite <- Hv, Z.mod_1_r.
    replace (w * zlen D - 8 * zlen B) with 0 by lia. lia.
Qed.

Lemma put_digit_spec alphabet cap D d : 0 <= d < zlen alphabet -> zlen D < cap ->
  put_digit alphabet cap (letter alphabet <$> D) d = Some (letter alphabet <$> (D ++ [d])).
Proof.
  intros Hd Hc. unfold put_digit, letter, push. destruct (lookup_lt_is_Some_2 alphabet (Z.to_nat d)) as [c Ec]; [lia|].
  rewrite Ec, length_fmap, fmap_app. destruct (Z.ltb_spec (zlen D) cap); [|lia]. cbn. by rewrite Ec.
Qed.

(** * Base 32 *)
Lemma b32_flush_spec n cap buf bits D B : holds 5 8 D buf bits B -> bits < 5 * (Z.of_nat n + 1) -> 8 * zlen B <= 5 * cap ->
  exists D' bits', b32_flush n cap buf bits (letter B32_ALPHABET <$> D) = Some (bits', letter B32_ALPHABET <$> D') /\
    holds 5 8 D' buf bits' B /\ bits' < 5.
Proof.
  revert bits D. induction n as [|n IH]; intros bits D HD Hn Hc; cbn [b32_flush]; destruct (Z.leb_spec 5 bits);
    try (exists D, bits; split_and!; [done..|lia]); [lia|].
  pose proof (holds_len _ _ _ _ _ _ HD). change 31 with (2 ^ 5 - 1). rewrite land_ones_mod by done.
  rewrite put_digit_spec; [|pose proof (Z.mod_pos_bound (Z.shiftr buf (bits - 5)) (2 ^ 5)); unfold B32_ALPHABET; cbn [str length]; lia|lia].
  replace bits with ((bits - 5) + 5) in HD by lia. apply holds_out in HD; [|lia..].
  apply (IH (bits - 5)); [done|lia..].
Qed.

Lemma b32_loop_spec cap in_ buf bits D B : holds 5 8 D buf bits B -> bits < 5 -> bytes_wf in_ ->
  8 * zlen (B ++ in_) <= 5 * cap ->
  exists D' buf' bits', b32_loop cap in_ buf bits (letter B32_ALPHABET <$> D) = Some (buf', bits', letter B32_ALPHABET <$> D') /\
    holds 5 8 D' buf' bits' (B ++ in_) /\ bits' < 5.
Proof.
  revert buf bits D B. induction in_ as [|x in_ IH]; intros buf bits D B HD Hb Hin Hc.
  - exists D, buf, bits. by rewrite app_nil_r.
  - apply Forall_cons in Hin as [Hx Hin]. cbn [b32_loop]. apply (holds_in _ _ _ _ _ _ x) in HD; [|lia|lia|done].
    rewrite length_app in Hc. cbn [length] in Hc.
    destruct (b32_flush_spec 2 cap _ _ _ _ HD) as (D' & bits' & -> & HD' & Hb'); [lia|rewrite length_app; cbn [length]; lia|].
    replace (B ++ x :: in_) with ((B ++ [x]) ++ in_) by (by rewrite <- app_assoc).
    apply IH; [done..|]. rewrite !length_app. cbn [length]. lia.
Qed.

Lemma push_fits cap out c : zlen out < cap -> push cap out c = Some (out ++ [c]).
Proof. intros H. unfold push. destruct (Z.ltb_spec (zlen out) cap); [done|lia]. Qed.

Lemma writes_radix w D B : 0 < w -> bytes_wf B -> writes w D B -> D = radix w B.
Proof. intros Hw HB HD. eapply writes_unique; [done..|]. by apply radix_writes. Qed.

Lemma length_radix w B : 0 < w -> bytes_wf B -> 8 * zlen B <= w * zlen (radix w B) < 8 * zlen B + w.
Proof. intros Hw HB. by apply writes_len, radix_writes. Qed.

Lemma base32_tr P in_ : bytes_wf in_ -> zlen in_ < 2 ^ 30 ->
  tr P 0 (doltliteBase32Encode in_) 0 owned (gives P (base32 in_)).
Proof.
  intros Hin Hl. unfold doltliteBase32Encode, u64. rewrite !Z.mod_small by (rewrite ?Z.mod_small; lia).
  set (cap := (zlen in_ * 8 + 4) / 5 + 1).
  pose proof (Z.div_mod (zlen in_ * 8 + 4) 5). pose proof (Z.mod_pos_bound (zlen in_ * 8 + 4) 5).
  assert (8 * zlen in_ <= 5 * (cap - 1) <= 8 * zlen in_ + 4) as Hcap by lia.
  eapply tr_bind; [apply malloc_tr; unfold SQLITE_MAX_ALLOCATION_SIZE; lia|].
  intros r [->|[-> HP]]; cbn beta iota; [|apply tr_ret; [done|by right]].
  destruct (b32_loop_spec cap in_ 0 0 [] [] (acc_nil 5 8)) as (D & buf & bits & E & HD & Hb); [lia|done|cbn [app]; lia|].
  eapply tr_lift; [exact E|]. cbn [app] in HD.
  pose proof (holds_writes 5 D buf bits in_ ltac:(lia) HD Hb) as HW.
  assert ((if 0 <? bits then put_digit B32_ALPHABET cap (letter B32_ALPHABET <$> D) (Z.land (u32 (Z.shiftl buf (5 - bits))) 31)
    else Some (letter B32_ALPHABET <$> D)) = Some (base32 in_)) as Eo.
  { unfold base32. rewrite <- (writes_radix 5 _ _ ltac:(lia) Hin HW). pose proof (holds_len _ _ _ _ _ _ HD).
    pose proof (holds_bits _ _ _ _ _ _ HD). destruct (Z.ltb_spec 0 bits); [|done].
    change 31 with (2 ^ 5 - 1). rewrite land_ones_mod by done. unfold u32.
    replace (2 ^ 32) with (2 ^ 5 * 2 ^ 27) by done. rewrite Z.rem_mul_r by lia.
    rewrite Z.mul_comm, Z.mod_add, Z.mod_mod, Z.shiftl_mul_pow2 by lia. apply put_digit_spec; [|lia].
    pose proof (Z.mod_pos_bound (buf * 2 ^ (5 - bits)) (2 ^ 5)). unfold B32_ALPHABET. cbn [str length]. lia. }
  eapply tr_lift; [exact Eo|]. eapply tr_lift.
  - apply push_fits. unfold base32. rewrite length_fmap. pose proof (length_radix 5 in_ ltac:(lia) Hin). lia.
  - apply tr_ret; [done|by left].
Qed.

(** * Base 64 *)
Lemma b64_group_holds D B a b c : holds 6 8 D 0 0 B -> is_byte a -> is_byte b -> is_byte c ->
  let n := Z.lor (Z.lor (Z.shiftl a 16) (Z.shiftl b 8)) c in
  n = a * 2 ^ 16 + b * 2 ^ 8 + c /\ holds 6 8 D n 24 (B ++ [a; b; c]).
Proof.
  intros [HD Hb Hl Hv] Ha Hbb Hc n. unfold is_byte in Ha, Hbb, Hc.
  assert (n = a * 2 ^ 16 + b * 2 ^ 8 + c) as En.
  { unfold n. replace (Z.shiftl a 16) with (Z.shiftl (Z.shiftl a 8) 8) by (rewrite Z.shiftl_shiftl; done).
    rewrite <- Z.shiftl_lor, Z.lor_comm, lor_shiftl_add, Z.lor_comm, lor_shiftl_add by lia. lia. }
  split; [done|]. split; [done|lia|rewrite length_app; cbn [length]; lia|].
  rewrite val_app by lia. change (val 8 [a; b; c]) with (((0 * 2 ^ 8 + a) * 2 ^ 8 + b) * 2 ^ 8 + c).
  rewrite (Z.mod_small n) by lia. rewrite Z.mod_1_r in Hv. cbn [length]. lia.
Qed.

Lemma b64_digit_spec cap D n k : zlen D < cap ->
  b64_digit cap (letter B64URL_ALPHABET <$> D) (Z.land (Z.shiftr n k) 63) =
  Some (letter B64URL_ALPHABET <$> (D ++ [Z.shiftr n k mod 2 ^ 6])).
Proof.
  intros Hc. change 63 with (2 ^ 6 - 1). rewrite land_ones_mod by done. apply put_digit_spec; [|done].
  pose proof (Z.mod_pos_bound (Z.shiftr n k) (2 ^ 6)). unfold B64URL_ALPHABET. cbn [str length]. lia.
Qed.

Lemma b64_groups_spec cap in_ D B : holds 6 8 D 0 0 B -> bytes_wf in_ -> 8 * zlen (B ++ in_) <= 6 * cap ->
  exists D' B' rest, b64_groups cap in_ (letter B64URL_ALPHABET <$> D) = Some (rest, letter B64URL_ALPHABET <$> D') /\
    holds 6 8 D' 0 0 B' /\ B ++ in_ = B' ++ rest /\ (length rest < 3)%nat /\ bytes_wf rest.
Proof.
  remember (length in_) as len eqn:El. revert in_ El D B. induction (lt_wf len) as [len _ IH]. intros in_ -> D B HD Hin Hc.
  destruct in_ as [|a [|b [|c in_]]]; try (eexists D, B, _; split_and!; [done..|cbn; lia|done]).
  apply Forall_cons in Hin as [Ha [Hb [Hx Hin]%Forall_cons]%Forall_cons].
  pose proof (holds_len _ _ _ _ _ _ HD). rewrite length_app in Hc. cbn [length] in Hc.
  cbn [b64_groups]. destruct (b64_group_holds D B a b c HD Ha Hb Hx) as [En HD']. cbv zeta in *. clear HD.
  set (n := Z.lor _ c) in *. pose proof (length_app D [0]) as L1.
  rewrite b64_digit_spec by lia. apply (holds_out 6 8 D n 18) in HD'; [|lia..].
  rewrite b64_digit_spec by (rewrite length_app; cbn [length]; lia). apply (holds_out 6 8 _ n 12) in HD'; [|lia..].
  rewrite b64_digit_spec by (rewrite !length_app; cbn [length]; lia). apply (holds_out 6 8 _ n 6) in HD'; [|lia..].
  change (Z.land n 63) with (Z.land (Z.shiftr n 0) 63).
  rewrite b64_digit_spec by (rewrite !length_app; cbn [length]; lia). apply (holds_out 6 8 _ n 0) in HD'; [|lia..].
  assert (forall D, holds 6 8 D n 0 (B ++ [a; b; c]) -> holds 6 8 D 0 0 (B ++ [a; b; c])) as H0.
  { intros ? [? ? ? Hv]. split; try done. by rewrite !Z.mod_1_r in *. }
  apply H0 in HD'. replace (B ++ a :: b :: c :: in_) with ((B ++ [a; b; c]) ++ in_) by (by rewrite <- app_assoc).
  apply (IH (length in_)); [cbn [length]; lia|done..|]. rewrite !length_app. cbn [length]. lia.
Qed.

(** The digits that are left out hold zero bytes. *)
Lemma holds_cut w D n bits B j : 0 < w -> holds w 8 D n bits (B ++ replicate j 0) -> n mod 2 ^ bits = 0 ->
  0 <= 8 * Z.of_nat j - bits < w -> writes w D B.
Proof.
  intros Hw [HD Hb Hl Hv] Hn Hj. rewrite length_app, length_replicate in Hl. split; [done|lia|].
  rewrite val_app, length_replicate, Hn, Z.add_0_r in Hv by lia.
  assert (val 8 (replicate j 0) = 0) as E0.
  { clear. induction j as [|j IH]; [done|]. cbn [replicate]. rewrite val_cons, IH by lia. lia. }
  rewrite E0, Z.add_0_r in Hv. apply (Z.mul_reg_r _ _ (2 ^ bits)); [lia|]. rewrite Hv, <- Z.mul_assoc. f_equal.
  rewrite <- Z.pow_add_r by lia. f_equal. lia.
Qed.

Lemma b64_tail_one cap D B a : holds 6 8 D 0 0 B -> is_byte a -> zlen D + 4 <= cap ->
  exists D', b64_tail cap [a] (letter B64URL_ALPHABET <$> D) =
    Some ((letter B64URL_ALPHABET <$> D') ++ [EQUALS; EQUALS]) /\ writes 6 D' (B ++ [a]) /\ zlen D' = zlen D + 2.
Proof.
  intros HD Ha Hc. destruct (b64_group_holds D B a 0 0 HD Ha) as [En HD']; [done..|].
  cbn [Z.shiftl Z.shiftr Z.opp] in *. rewrite !Z.lor_0_r in *. set (n := Z.shiftl a 16) in *. cbn [b64_tail].
  fold n. rewrite b64_digit_spec by lia. apply (holds_out 6 8 D n 18) in HD'; [|lia..].
  rewrite b64_digit_spec by (rewrite length_app; cbn [length]; lia). apply (holds_out 6 8 _ n 12) in HD'; [|lia..].
  rewrite push_fits by (rewrite length_fmap, !length_app; cbn [length]; lia).
  rewrite push_fits by (rewrite length_app, length_fmap, !length_app; cbn [length]; lia).
  eexists. split_and!; [by rewrite <- app_assoc| |rewrite !length_app; cbn [length]; lia].
  change (B ++ [a; 0; 0]) with (B ++ [a] ++ replicate 2 0) in HD'. rewrite app_assoc in HD'.
  apply (holds_cut 6 _ n 12 _ 2); [done..| |lia]. rewrite En.
  replace (a * 2 ^ 16 + 0 * 2 ^ 8 + 0) with (a * 2 ^ 4 * 2 ^ 12) by lia. apply Z.mod_mul. lia.
Qed.

Lemma b64_tail_two cap D B a b : holds 6 8 D 0 0 B -> is_byte a -> is_byte b -> zlen D + 4 <= cap ->
  exists D', b64_tail cap [a; b] (letter B64URL_ALPHABET <$> D) =
    Some ((letter B64URL_ALPHABET <$> D') ++ [EQUALS]) /\ writes 6 D' (B ++ [a; b]) /\ zlen D' = zlen D + 3.
Proof.
  intros HD Ha Hb Hc. destruct (b64_group_holds D B a b 0 HD Ha Hb) as [En HD']; [done|].
  rewrite !Z.lor_0_r in *. set (n := Z.lor _ _) in *. cbn [b64_tail].
  fold n. rewrite b64_digit_spec by lia. apply (holds_out 6 8 D n 18) in HD'; [|lia..].
  rewrite b64_digit_spec by (rewrite length_app; cbn [length]; lia). apply (holds_out 6 8 _ n 12) in HD'; [|lia..].
  rewrite b64_digit_spec by (rewrite !length_app; cbn [length]; lia). apply (holds_out 6 8 _ n 6) in HD'; [|lia..].
  rewrite push_fits by (rewrite length_fmap, !length_app; cbn [length]; lia).
  eexists. split_and!; [done| |rewrite !length_app; cbn [length]; lia].
  change (B ++ [a; b; 0]) with (B ++ [a; b] ++ replicate 1 0) in HD'. rewrite app_assoc in HD'.
  apply (holds_cut 6 _ n 6 _ 1); [done..| |lia]. rewrite En.
  replace (a * 2 ^ 16 + b * 2 ^ 8 + 0) with ((a * 2 ^ 10 + b * 2 ^ 2) * 2 ^ 6) by lia. apply Z.mod_mul. lia.
Qed.

Lemma b64_tail_spec cap D B rest : holds 6 8 D 0 0 B -> bytes_wf (B ++ rest) -> (length rest < 3)%nat ->
  (rest <> [] -> zlen D + 4 <= cap) ->
  b64_tail cap rest (letter B64URL_ALPHABET <$> D) = Some (base64 (B ++ rest)).
Proof.
  intros HD HB Hr Hc. pose proof (holds_len _ _ _ _ _ _ HD) as Hl. unfold base64, base64_raw. rewrite length_fmap.
  pose proof HB as [_ Hrest]%bytes_wf_app. destruct rest as [|a [|b [|]]]; [| | |cbn [length] in Hr; lia].
  - rewrite app_nil_r in *. rewrite <- (writes_radix 6 D B); [|lia|done|].
    + replace (- zlen D mod 4) with 0; [by rewrite app_nil_r|]. symmetry. apply Z.mod_divide; [lia|].
      exists (- zlen B + zlen D / 2). pose proof (Z.div_mod (zlen D) 2). pose proof (Z.mod_pos_bound (zlen D) 2). lia.
    + apply (holds_cut 6 D 0 0 B 0); [lia|by rewrite app_nil_r|done|lia].
  - apply Forall_cons in Hrest as [Ha _]. destruct (b64_tail_one cap D B a) as (D' & -> & HW & El); [done..|by apply Hc|].
    rewrite <- (writes_radix 6 D' (B ++ [a])) by (done || lia). rewrite El.
    replace ((- (zlen D + 2)) mod 4) with 2; [done|]. apply (Zmod_unique _ _ (- (zlen B - zlen D / 2) - 1)); [lia|].
    pose proof (Z.div_mod (zlen D) 2). pose proof (Z.mod_pos_bound (zlen D) 2). lia.
  - apply Forall_cons in Hrest as [Ha [Hb _]%Forall_cons].
    destruct (b64_tail_two cap D B a b) as (D' & -> & HW & El); [done..|by apply Hc|].
    rewrite <- (writes_radix 6 D' (B ++ [a; b])) by (done || lia). rewrite El.
    replace ((- (zlen D + 3)) mod 4) with 1; [done|]. apply (Zmod_unique _ _ (- (zlen B - zlen D / 2) - 1)); [lia|].
    pose proof (Z.div_mod (zlen D) 2). pose proof (Z.mod_pos_bound (zlen D) 2). lia.
Qed.

Lemma base64_tr P in_ : bytes_wf in_ -> zlen in_ < 2 ^ 30 ->
  tr P 0 (doltliteBase64UrlEncode in_) 0 owned (gives P (base64 in_)).
Proof.
  intros Hin Hl. unfold doltliteBase64UrlEncode, u64.
  pose proof (Z.div_mod (zlen in_ + 2) 3). pose proof (Z.mod_pos_bound (zlen in_ + 2) 3).
  rewrite (Z.mod_small (zlen in_ + 2)), Z.mod_small by lia.
  set (cap := (zlen in_ + 2) / 3 * 4 + 1) in *.
  eapply tr_bind; [apply malloc_tr; unfold SQLITE_MAX_ALLOCATION_SIZE; lia|].
  intros r [->|[-> HP]]; cbn beta iota; [|apply tr_ret; [done|by right]].
  destruct (b64_groups_spec cap in_ [] [] (acc_nil 6 8) Hin) as (D & B & rest & E & HD & EB & Hr & Hrw); [cbn [app]; lia|].
  cbn [app] in EB. eapply tr_lift; [exact E|]. pose proof (holds_len _ _ _ _ _ _ HD).
  assert (zlen in_ = zlen B + zlen rest) as El by (rewrite EB, length_app; lia).
  eapply tr_lift; [apply b64_tail_spec; [done|by rewrite <- EB|done|]|].
  { intros Hne. assert (0 < zlen rest) by (destruct rest; [done|cbn [length]; lia]). lia. }
  rewrite <- EB. eapply tr_lift.
  - apply push_fits. unfold base64, base64_raw. rewrite length_app, length_fmap, length_replicate.
    pose proof (length_radix 6 in_ ltac:(lia) Hin). pose proof (Z.mod_pos_bound (- zlen (radix 6 in_)) 4).
    pose proof (Z.div_mod (- zlen (radix 6 in_)) 4). lia.
  - apply tr_ret; [done|by left].
Qed.

(** * Decoding *)
(** The bytes whose bits the digits [D] of six bits begin with. *)
Definition unradix (D : list Z) : list Z :=
  let n := 6 * zlen D / 8 in
  let v := val 6 D / 2 ^ (6 * zlen D - 8 * n) in
  (fun i => v / 2 ^ (8 * (n - 1 - i)) mod 2 ^ 8) <$> seqZ 0 n.

Fixpoint before_equals (s : list Z) : list Z :=
  match s with
  | [] => []
  | c :: s => if c =? EQUALS then [] else c :: before_equals s
  end.

(** What a string stands for: the characters up to the first [=], if they
    are in the alphabet and the length of the string is not 1 modulo 4. *)
Definition decode64 (s : list Z) : option (list Z) :=
  let D := b64urlVal <$> before_equals s in
  if (zlen s mod 4 =? 1) || negb (forallb (Z.leb 0) D) then None else Some (unradix D).

Lemma unradix_unique B acc bits D : digits_wf 6 D -> holds 8 6 B acc bits D -> bits < 8 -> B = unradix D.
Proof.
  intros HD [HB Hb Hl Hv] H8. unfold unradix. cbv zeta. set (n := 6 * zlen D / 8).
  assert (n = zlen B) as En by (symmetry; apply (Zdiv_unique _ _ _ bits); lia). clearbody n. subst n.
  pose proof (val_bound 6 D ltac:(lia) HD). pose proof (Z.mod_pos_bound acc (2 ^ bits) ltac:(lia)).
  replace (6 * zlen D - 8 * zlen B) with bits by lia.
  assert (val 6 D / 2 ^ bits = val 8 B) as Ev.
  { symmetry. apply (Zdiv_unique _ _ _ (acc mod 2 ^ bits)); lia. }
  pose proof (val_bound 8 B ltac:(lia) HB).
  destruct (digits_of_value 8 (length B) (val 6 D / 2 ^ bits)) as (L & W & V); [lia..|]. cbv zeta in *.
  apply (val_inj 8); [lia|done..|]. rewrite V, Ev, Z.mod_small by lia. done.
Qed.

Lemma b64urlVal_range c : -1 <= b64urlVal c < 64.
Proof. unfold b64urlVal. repeat case_match; lia. Qed.

Lemma b64_decode_loop_spec cap in_ acc nbits B D : holds 8 6 B acc nbits D -> digits_wf 6 D -> nbits < 8 ->
  6 * (zlen D + zlen in_) <= 8 * cap ->
  let D' := b64urlVal <$> before_equals in_ in
  b64_decode_loop cap in_ acc nbits B = Some (if forallb (Z.leb 0) D' then Some (unradix (D ++ D')) else None).
Proof.
  revert acc nbits B D. induction in_ as [|c in_ IH]; intros acc nbits B D HB HD Hn Hc; cbv zeta;
    cbn [b64_decode_loop before_equals].
  { cbn [fmap list_fmap forallb]. rewrite app_nil_r. by rewrite <- (unradix_unique B acc nbits D). }
  destruct (Z.eqb_spec c EQUALS) as [->|Hne].
  { cbn [fmap list_fmap forallb]. rewrite app_nil_r. by rewrite <- (unradix_unique B acc nbits D). }
  rewrite fmap_cons. cbn [forallb length] in *. pose proof (b64urlVal_range c) as Hv.
  destruct (Z.ltb_spec (b64urlVal c) 0); destruct (Z.leb_spec 0 (b64urlVal c)); try lia; cbn [andb]; [done|].
  pose proof (holds_len _ _ _ _ _ _ HB).
  apply (holds_in _ _ _ _ _ _ (b64urlVal c)) in HB; [|lia..].
  assert (digits_wf 6 (D ++ [b64urlVal c])) as HD' by (apply Forall_app; split; [done|]; apply Forall_singleton; lia).
  rewrite (cons_middle (b64urlVal c) D). rewrite app_assoc. destruct (Z.leb_spec 8 (nbits + 6)).
  - change 255 with (2 ^ 8 - 1). rewrite land_ones_mod, push_fits by lia.
    replace (nbits + 6) with ((nbits + 6 - 8) + 8) in HB by lia. apply holds_out in HB; [|lia..].
    apply (IH _ _ _ (D ++ [b64urlVal c])); [done..|lia|rewrite length_app; cbn [length]; lia].
  - apply (IH _ _ _ (D ++ [b64urlVal c])); [done..|rewrite length_app; cbn [length]; lia].
Qed.

(** The decoder returns what the string stands for, or fails. *)
Lemma decode64_tr P in_ : zlen in_ < 2 ^ 30 ->
  tr P 0 (doltliteBase64UrlDecode in_) 0 owned (may P (decode64 in_)).
Proof.
  intros Hl. unfold doltliteBase64UrlDecode, decode64. cbv zeta.
  destruct (Z.eqb_spec (zlen in_ mod 4) 1); [apply tr_ret; [done|by left]|]. cbn [orb].
  pose proof (Z.div_mod (zlen in_) 4). pose proof (Z.mod_pos_bound (zlen in_) 4).
  set (cap := zlen in_ / 4 * 3 + 3) in *. destruct (Z.eqb_spec cap 0); [lia|].
  eapply tr_bind; [apply malloc_tr; unfold SQLITE_MAX_ALLOCATION_SIZE; lia|].
  intros r [->|[-> HP]]; cbn beta iota; [|apply tr_ret; [done|by right]].
  eapply tr_lift.
  { apply (b64_decode_loop_spec cap in_ 0 0 [] []); [apply acc_nil|by apply Forall_nil|lia|cbn [length]; lia]. }
  cbn [app]. destruct (forallb _ _); cbn [negb].
  - apply tr_ret; [done|by left].
  - apply (free_tr _ _ (Some cap)). apply tr_ret; [done|by left].
Qed.

Lemma letter_value d : 0 <= d < 64 -> b64urlVal (letter B64URL_ALPHABET d) = d /\ letter B64URL_ALPHABET d <> EQUALS.
Proof.
  intros Hd. assert (forallb (fun i => (b64urlVal (letter B64URL_ALPHABET i) =? i) && negb (letter B64URL_ALPHABET i =? EQUALS)) (seqZ 0 64) = true) as H
    by (vm_compute; reflexivity).
  rewrite forallb_forall in H. specialize (H d). rewrite <- list_elem_of_In, elem_of_seqZ in H. specialize (H ltac:(lia)). lia.
Qed.

Lemma before_equals_letters D t : digits_wf 6 D -> (t = [] \/ exists u, t = EQUALS :: u) ->
  b64urlVal <$> before_equals ((letter B64URL_ALPHABET <$> D) ++ t) = D.
Proof.
  intros HD Ht. induction HD as [|d D Hd _ IH]; cbn [fmap list_fmap app before_equals].
  - destruct Ht as [->|[u ->]]; done.
  - rewrite ?fmap_cons. change (2 ^ 6) with 64 in Hd. destruct (letter_value d Hd) as [E Hne]. destruct (Z.eqb_spec (letter B64URL_ALPHABET d) EQUALS); [done|].
    cbn [fmap list_fmap]. rewrite E. f_equal. exact IH.
Qed.

Lemma unradix_radix B : bytes_wf B -> unradix (radix 6 B) = B.
Proof.
  intros HB. destruct (radix_writes 6 B ltac:(lia) HB) as [W L V]. symmetry.
  apply (unradix_unique B 0 (6 * zlen (radix 6 B) - 8 * zlen B)); [done| |lia].
  split; [done|lia|lia|]. rewrite Z.mod_0_l by lia. lia.
Qed.

Lemma digits_nonneg w D : digits_wf w D -> forallb (Z.leb 0) D = true.
Proof. induction 1 as [|d D Hd _ IH]; [done|]. cbn [forallb]. rewrite IH. lia. Qed.

(** Decoding takes back both forms of the encoding. *)
Lemma decode64_encode B t : bytes_wf B -> (t = [] \/ exists u, t = EQUALS :: u) -> zlen (base64_raw B ++ t) mod 4 <> 1 ->
  decode64 (base64_raw B ++ t) = Some B.
Proof.
  intros HB Ht Hm. pose proof (writes_wf _ _ _ (radix_writes 6 B ltac:(lia) HB)) as W.
  unfold decode64, base64_raw in *. rewrite before_equals_letters by done. cbv zeta.
  destruct (Z.eqb_spec (zlen ((letter B64URL_ALPHABET <$> radix 6 B) ++ t) mod 4) 1); [done|].
  rewrite (digits_nonneg 6), unradix_radix by done. done.
Qed.
