(* ===== verification/Json.v ===== *)
(** The JSON scanner of [remote/doltlite_creds.c], which reads the keys and the
    tokens: it finds the first member of an object with a given key and reads
    a string, a number or a list of strings there.  It is total on every
    string; on the objects the credential code prints it finds the members. *)
From S2P Require Import Prelude CString World Radix.

(** * The code *)
Definition is_ws (c : Z) : bool := (c =? SPACE) || (c =? TAB) || (c =? CR) || (c =? LF).

Fixpoint jsonSkipWs (p : list Z) : list Z :=
  match p with
  | c :: p' => if is_ws c then jsonSkipWs p' else p
  | [] => []
  end.

(** The loop of [jsonSkipString], after the opening quote. *)
Fixpoint skip_body (p : list Z) : option (list Z) :=
  match p with
  | [] => None
  | c :: p' =>
      if c =? QUOTE then Some p'
      else if c =? BACKSLASH then
        match p' with
        | [] => None
        | _ :: p'' => skip_body p''
        end
      else skip_body p'
  end.

Definition jsonSkipString (p : list Z) : option (list Z) :=
  match p with
  | c :: p' => if c =? QUOTE then skip_body p' else None
  | [] => None
  end.

(** The loop over a nested object or list; the outer option is the fuel.  The
    depth is at most the length of the string, which fits an [int] because
    the string is in a block of SQLite's allocator. *)
Fixpoint skip_nested (fuel : nat) (open close depth : Z) (p : list Z) : option (option (list Z)) :=
  match fuel with
  | O => None
  | S fuel =>
      if depth =? 0 then Some (Some p)
      else match p with
      | [] => Some None
      | c :: p' =>
          if c =? QUOTE then
            match jsonSkipString p with
            | None => Some None
            | Some p => skip_nested fuel open close depth p
            end
          else
            let depth := if c =? open then depth + 1 else if c =? close then depth - 1 else depth in
            skip_nested fuel open close depth p'
      end
  end.

Fixpoint skip_scalar (p : list Z) : list Z :=
  match p with
  | c :: p' => if (c =? COMMA) || (c =? RBRACE) || (c =? RBRACKET) then p else skip_scalar p'
  | [] => []
  end.

Definition jsonSkipValue (p : list Z) : option (option (list Z)) :=
  let p := jsonSkipWs p in
  match p with
  | [] => Some None
  | c :: p' =>
      if c =? QUOTE then Some (jsonSkipString p)
      else if (c =? LBRACE) || (c =? LBRACKET) then
        let close := if c =? LBRACE then RBRACE else RBRACKET in
        skip_nested (S (length p)) c close 1 p'
      else Some (Some (skip_scalar p))
  end.

(** The loop over the members of an object. *)
Fixpoint object_loop (fuel : nat) (p key : list Z) : option (option (list Z)) :=
  match fuel with
  | O => None
  | S fuel =>
      let p := jsonSkipWs p in
      match p with
      | c :: kstart =>
          if negb (c =? QUOTE) then Some None else
          match jsonSkipString p with
          | None => Some None
          | Some q =>
              let k := take (length kstart - length q - 1) kstart in
              match jsonSkipWs q with
              | c :: q =>
                  if negb (c =? COLON) then Some None else
                  let p := jsonSkipWs q in
                  if streq k key then Some (Some p) else
                  let? r := jsonSkipValue p in
                  match r with
                  | None => Some None
                  | Some p =>
                      match jsonSkipWs p with
                      | c :: p => if c =? COMMA then object_loop fuel p key else Some None
                      | [] => Some None
                      end
                  end
              | [] => Some None
              end
          end
      | [] => Some None
      end
  end.

Definition credsJsonObjectValue (json key : list Z) : option (option (list Z)) :=
  match jsonSkipWs json with
  | c :: p => if c =? LBRACE then object_loop (S (length p)) p key else Some None
  | [] => Some None
  end.

(** The characters between the quotes, a backslash dropped before another. *)
Fixpoint dup_loop (cap : Z) (s out : list Z) : option (list Z) :=
  match s with
  | [] => Some out
  | c :: s =>
      if c =? BACKSLASH then
        match s with
        | [] => push cap out c
        | d :: s => let? out := push cap out d in dup_loop cap s out
        end
      else let? out := push cap out c in dup_loop cap s out
  end.

Definition jsonDupQuoted (p : option (list Z)) : M (option (list Z)) :=
  match p with
  | Some ((c :: body) as p) =>
      if negb (c =? QUOTE) then retM None else
      match jsonSkipString p with
      | None => retM None
      | Some q =>
          let cap := zlen p - zlen q in
          if INT_MAX <? cap then retM None else
          let* out := sqlite3_malloc cap in
          match out with
          | None => retM None
          | Some cap =>
              let* out := lift (dup_loop cap (take (length body - length q - 1) body) []) in
              let* _ := lift (push cap out 0) in
              retM (Some out)
          end
      end
  | _ => retM None
  end.

Definition jsonFindString (json key : list Z) : M (option (list Z)) :=
  let* v := lift (credsJsonObjectValue json key) in jsonDupQuoted v.

Definition LONG_MAX : Z := 2 ^ 63 - 1.

Fixpoint skip_digits (p : list Z) : list Z :=
  match p with
  | c :: p' => if is_digit c then skip_digits p' else p
  | [] => []
  end.

(** [None] is the result 0. *)
Definition jsonParseLong (p : option (list Z)) : option Z :=
  let? p := p in
  let q := skip_digits p in
  match doltliteParseDecimal (Some (span p q)) LONG_MAX with
  | DECIMAL_OK v =>
      match jsonSkipWs q with
      | c :: _ => if (c =? COMMA) || (c =? RBRACE) then Some v else None
      | [] => None
      end
  | _ => None
  end.

Definition jsonFindLong (json key : list Z) : option (option Z) :=
  let? p := credsJsonObjectValue json key in Some (jsonParseLong p).

(** [None] inside is the result 0; [Some None] that the member is absent. *)
Definition jsonFindOptionalLong (json key : list Z) : option (option (option Z)) :=
  let? p := credsJsonObjectValue json key in
  match p with
  | None => Some (Some None)
  | Some _ => Some (let? v := jsonParseLong p in Some (Some v))
  end.

(** [s = jsonDupQuoted(p)], compared and freed *)
Definition string_is (p : option (list Z)) (expected : list Z) : M bool :=
  let~ s := jsonDupQuoted p in
  retM (match s with Some s => streq s expected | None => false end).

(** The loop over a list of audiences. *)
Fixpoint audience_loop (fuel : nat) (p expected : list Z) : M bool :=
  match fuel with
  | O => undefined
  | S fuel =>
      let p := jsonSkipWs p in
      match p with
      | c :: _ =>
          if c =? RBRACKET then retM false else
          if negb (c =? QUOTE) then retM false else
          let* hit := string_is (Some p) expected in
          if hit then retM true else
          match jsonSkipString p with
          | None => retM false
          | Some p =>
              match jsonSkipWs p with
              | c :: p => if c =? COMMA then audience_loop fuel p expected else retM false
              | [] => retM false
              end
          end
      | [] => retM false
      end
  end.

Definition jsonAudienceMatches (json expected : list Z) : M bool :=
  let* p := lift (credsJsonObjectValue json (str "aud")) in
  match p, expected with
  | Some (c :: p'), _ :: _ =>
      if c =? QUOTE then
        string_is p expected
      else if c =? LBRACKET then audience_loop (S (length p')) p' expected
      else retM false
  | _, _ => retM false
  end.

Definition decodeSegZ (seg : list Z) : M (option (list Z)) :=
  let~ z := sqlite3_malloc (zlen seg + 1) in
  match z with
  | None => retM None
  | Some cap =>
      let* z := fill cap seg in
      let~ raw := doltliteBase64UrlDecode z in
      match raw with
      | None => retM None
      | Some raw =>
          let* s := sqlite3_malloc (zlen raw + 1) in
          match s with
          | None => retM None
          | Some cap => let* s := fill cap raw in retM (Some (cstr s))
          end
      end
  end.

(** * Every string is scanned without a step outside it *)
Lemma jsonSkipWs_suffix p : jsonSkipWs p `suffix_of` p.
Proof. induction p as [|c p IH]; [done|]. cbn [jsonSkipWs]. destruct (is_ws c); [by apply suffix_cons_r|done]. Qed.

Lemma skip_body_suffix p q : skip_body p = Some q -> q `suffix_of` p /\ (length q < length p)%nat.
Proof.
  remember (length p) as n eqn:E. revert p E. induction (lt_wf n) as [n _ IH]. intros [|c p] -> H; [done|].
  cbn [skip_body length] in *. destruct (c =? QUOTE); [injection H as <-; split; [by apply suffix_cons_r|lia]|].
  assert (forall p', (length p' <= length p)%nat -> p' `suffix_of` p -> skip_body p' = Some q ->
    q `suffix_of` c :: p /\ (length q < S (length p))%nat) as Hrec.
  { intros p' Hl Hs Hq. destruct (IH (length p') ltac:(lia) p' eq_refl Hq) as [? ?].
    split; [apply suffix_cons_r; by etransitivity|lia]. }
  destruct (c =? BACKSLASH); [|by apply (Hrec p)]. destruct p as [|d p]; [done|].
  apply (Hrec p); [cbn [length]; lia|by apply suffix_cons_r|done].
Qed.

Lemma jsonSkipString_suffix p q : jsonSkipString p = Some q -> q `suffix_of` p /\ (length q < length p)%nat.
Proof.
  destruct p as [|c p]; [done|]. cbn [jsonSkipString length]. destruct (c =? QUOTE); [|done].
  intros [? ?]%skip_body_suffix. split; [by apply suffix_cons_r|lia].
Qed.

(** A defined result, a suffix when it is a pointer. *)
Definition scans (p : list Z) (r : option (option (list Z))) : Prop :=
  exists q, r = Some q /\ forall s, q = Some s -> s `suffix_of` p.

Lemma scans_weaken p p' r : p `suffix_of` p' -> scans p r -> scans p' r.
Proof. intros Hp (q & -> & Hq). exists q. split; [done|]. intros s Hs. etransitivity; [by apply Hq|done]. Qed.

Lemma scans_null p : scans p (Some None).
Proof. by exists None. Qed.

Lemma scans_here p q : q `suffix_of` p -> scans p (Some (Some q)).
Proof. intros H. exists (Some q). split; [done|]. by intros s [= <-]. Qed.

#[local] Hint Resolve scans_null scans_here suffix_cons_r : core.

Lemma skip_nested_scans fuel open close depth p : (length p < fuel)%nat -> scans p (skip_nested fuel open close depth p).
Proof.
  revert depth p. induction fuel as [|fuel IH]; intros depth p Hf; [lia|]. cbn [skip_nested].
  destruct (depth =? 0); [auto|]. destruct p as [|c p]; [auto|]. cbn [length] in Hf. destruct (c =? QUOTE).
  - destruct (jsonSkipString (c :: p)) as [q|] eqn:E; [|auto]. apply jsonSkipString_suffix in E as [Hs Hl].
    cbn [length] in Hl. apply (scans_weaken q); [done|]. apply IH. lia.
  - apply (scans_weaken p); [auto|]. apply IH. lia.
Qed.

Lemma skip_scalar_suffix p : skip_scalar p `suffix_of` p.
Proof. induction p as [|c p IH]; [done|]. cbn [skip_scalar]. destruct (_ || _); [done|by apply suffix_cons_r]. Qed.

Lemma jsonSkipValue_scans p : scans p (jsonSkipValue p).
Proof.
  unfold jsonSkipValue. pose proof (jsonSkipWs_suffix p) as Hs. destruct (jsonSkipWs p) as [|c q]; [auto|].
  apply (scans_weaken (c :: q)); [done|]. destruct (c =? QUOTE).
  - destruct (jsonSkipString (c :: q)) as [r|] eqn:E; [|auto]. apply jsonSkipString_suffix in E as [? _]. auto.
  - destruct (_ || _); [|by apply scans_here, skip_scalar_suffix].
    apply (scans_weaken q); [auto|]. apply skip_nested_scans. cbn [length]. lia.
Qed.

Lemma object_loop_scans fuel p key : (length p < fuel)%nat -> scans p (object_loop fuel p key).
Proof.
  revert p. induction fuel as [|fuel IH]; intros p Hf; [lia|]. cbn [object_loop].
  pose proof (jsonSkipWs_suffix p) as H0. pose proof (suffix_length _ _ H0).
  destruct (jsonSkipWs p) as [|c p1]; [auto|]. destruct (c =? QUOTE); cbn [negb]; [|auto].
  destruct (jsonSkipString (c :: p1)) as [q|] eqn:E; [|auto]. apply jsonSkipString_suffix in E as [H1 L1].
  pose proof (jsonSkipWs_suffix q) as H2. destruct (jsonSkipWs q) as [|c2 q2]; [auto|].
  destruct (c2 =? COLON); cbn [negb]; [|auto].
  assert (jsonSkipWs q2 `suffix_of` p) as H3.
  { etransitivity; [apply jsonSkipWs_suffix|]. etransitivity; [by eapply suffix_cons_l|]. by etransitivity. }
  apply suffix_length in H2. cbn [length] in *.
  destruct (streq _ _); [auto|]. pose proof (suffix_length _ _ (jsonSkipWs_suffix q2)).
  destruct (jsonSkipValue_scans (jsonSkipWs q2)) as (r & -> & Hr). destruct r as [r|]; [|auto].
  specialize (Hr r eq_refl). pose proof (suffix_length _ _ Hr). pose proof (jsonSkipWs_suffix r) as Hr5.
  pose proof (suffix_length _ _ Hr5). destruct (jsonSkipWs r) as [|c5 r5]; [auto|]. destruct (c5 =? COMMA); [|auto].
  cbn [length] in *. apply (scans_weaken r5); [|apply IH; lia].
  etransitivity; [by eapply suffix_cons_l|]. by etransitivity.
Qed.

Lemma credsJsonObjectValue_scans json key : scans json (credsJsonObjectValue json key).
Proof.
  unfold credsJsonObjectValue. pose proof (jsonSkipWs_suffix json) as H. destruct (jsonSkipWs json) as [|c p]; [auto|].
  apply (scans_weaken (c :: p)); [done|]. destruct (c =? LBRACE); [|auto]. apply (scans_weaken p); [auto|].
  apply object_loop_scans. lia.
Qed.

(** * What the strings and numbers stand for *)
Fixpoint unescape (s : list Z) : list Z :=
  match s with
  | [] => []
  | c :: s =>
      if c =? BACKSLASH then match s with [] => [c] | d :: s => d :: unescape s end
      else c :: unescape s
  end.

Definition json_string (p : option (list Z)) : option (list Z) :=
  match p with
  | Some ((c :: body) as p) =>
      let? q := jsonSkipString p in Some (unescape (take (length body - length q - 1) body))
  | _ => None
  end.

(** The first member called [key]. *)
Definition json_member (json key : list Z) : option (list Z) := default None (credsJsonObjectValue json key).

Definition string_eqb (p : option (list Z)) (expected : list Z) : bool :=
  match json_string p with Some s => streq s expected | None => false end.

Fixpoint listed (fuel : nat) (p expected : list Z) : bool :=
  match fuel with
  | O => false
  | S fuel =>
      let p := jsonSkipWs p in
      match p with
      | c :: _ =>
          (c =? QUOTE) && (string_eqb (Some p) expected ||
            match jsonSkipString p with
            | None => false
            | Some p =>
                match jsonSkipWs p with
                | c :: p => (c =? COMMA) && listed fuel p expected
                | [] => false
                end
            end)
      | [] => false
      end
  end.

(** [expected] is the audience of the claims, or in their list of audiences. *)
Definition for_audience (json expected : list Z) : bool :=
  match json_member json (str "aud"), expected with
  | Some ((c :: p') as p), _ :: _ =>
      if c =? QUOTE then string_eqb (Some p) expected
      else (c =? LBRACKET) && listed (S (length p')) p' expected
  | _, _ => false
  end.

Lemma credsJsonObjectValue_member json key : credsJsonObjectValue json key = Some (json_member json key).
Proof. unfold json_member. by destruct (credsJsonObjectValue_scans json key) as (q & -> & _). Qed.

Lemma json_member_suffix json key p : json_member json key = Some p -> p `suffix_of` json.
Proof.
  unfold json_member. destruct (credsJsonObjectValue_scans json key) as (q & -> & Hq). apply Hq.
Qed.

Lemma dup_loop_spec cap s out : zlen out + zlen s <= cap -> dup_loop cap s out = Some (out ++ unescape s).
Proof.
  remember (length s) as n eqn:E. revert s E out. induction (lt_wf n) as [n _ IH]. intros [|c s] -> out Hc.
  { cbn. by rewrite app_nil_r. }
  cbn [dup_loop unescape length] in *. destruct (c =? BACKSLASH).
  - destruct s as [|d s]; [apply push_fits; lia|]. rewrite push_fits by lia. cbn [length] in *.
    rewrite (IH (length s)); [by rewrite <- app_assoc|lia|done|rewrite length_app; cbn [length]; lia].
  - rewrite push_fits by lia. rewrite (IH (length s)); [by rewrite <- app_assoc|lia|done|rewrite length_app; cbn [length]; lia].
Qed.

Lemma length_unescape s : (length (unescape s) <= length s)%nat.
Proof.
  remember (length s) as n eqn:E. revert s E. induction (lt_wf n) as [n _ IH]. intros [|c s] ->; [done|].
  cbn [unescape length] in *. destruct (c =? BACKSLASH).
  - destruct s as [|d s]; [done|]. cbn [length]. specialize (IH (length s) ltac:(cbn [length]; lia) s eq_refl). lia.
  - cbn [length]. specialize (IH (length s) ltac:(lia) s eq_refl). lia.
Qed.

Lemma jsonDupQuoted_tr P p : (forall s, p = Some s -> zlen s < 2 ^ 30) ->
  tr P 0 (jsonDupQuoted p) 0 owned (may P (json_string p)).
Proof.
  intros Hp. destruct p as [[|c body]|]; try (apply tr_ret; [done|by left]). cbn [jsonDupQuoted json_string].
  specialize (Hp _ eq_refl). cbn [length] in Hp. destruct (Z.eqb_spec c QUOTE) as [->|Hc]; cbn [negb].
  2: { apply tr_ret; [done|]. left. cbn [jsonSkipString]. by destruct (Z.eqb_spec c QUOTE). }
  destruct (jsonSkipString (QUOTE :: body)) as [q|] eqn:E; [|apply tr_ret; [done|by left]].
  cbn [jsonSkipString] in E. apply skip_body_suffix in E as [_ Hq]. cbn [length].
  destruct (Z.ltb_spec INT_MAX (Z.of_nat (S (length body)) - zlen q)); [unfold INT_MAX in *; lia|].
  eapply tr_bind; [apply malloc_tr; unfold SQLITE_MAX_ALLOCATION_SIZE; lia|].
  intros r [->|[-> HP]]; cbn beta iota; [|apply tr_ret; [done|by right]].
  eapply tr_lift; [apply dup_loop_spec; rewrite length_take; cbn [length]; lia|]. cbn [app].
  eapply tr_lift; [apply push_fits|apply tr_ret; [done|by left]].
  pose proof (length_unescape (take (length body - length q - 1) body)) as Hu. rewrite length_take in Hu. lia.
Qed.

Lemma jsonFindString_tr P json key : zlen json < 2 ^ 30 ->
  tr P 0 (jsonFindString json key) 0 owned (may P (json_string (json_member json key))).
Proof.
  intros Hl. eapply tr_lift; [apply credsJsonObjectValue_member|]. apply jsonDupQuoted_tr.
  intros s Hs%json_member_suffix%suffix_length. lia.
Qed.

(** An answer that faults can only turn to no. *)
Definition agrees (P : Prop) (x b : bool) : Prop := (b = true -> x = true) /\ (P -> b = x).

Lemma string_is_tr P p expected : (forall s, p = Some s -> zlen s < 2 ^ 30) ->
  tr P 0 (string_is p expected) 0 nothing (agrees P (string_eqb p expected)).
Proof.
  intros Hp. eapply tr_own; [by apply jsonDupQuoted_tr|]. intros x [->|[-> HP]]; apply tr_ret;
    try (cbn; unfold nothing; lia); unfold string_eqb; by split.
Qed.

Lemma audience_loop_tr P fuel p expected : (length p < fuel)%nat -> zlen p < 2 ^ 30 ->
  tr P 0 (audience_loop fuel p expected) 0 nothing (agrees P (listed fuel p expected)).
Proof.
  revert p. induction fuel as [|fuel IH]; intros p Hf Hl; [lia|]. cbn [audience_loop listed].
  pose proof (suffix_length _ _ (jsonSkipWs_suffix p)). destruct (jsonSkipWs p) as [|c q]; [by apply tr_ret|].
  destruct (Z.eqb_spec c RBRACKET) as [->|]; [by apply tr_ret|]. destruct (c =? QUOTE); cbn [negb andb]; [|by apply tr_ret].
  eapply tr_bind; [apply string_is_tr; intros s [= <-]; lia|]. intros hit [Hh1 Hh2].
  destruct hit; [apply tr_ret; [done|]; rewrite Hh1 by done; by split|].
  assert (forall b, agrees P (match jsonSkipString (c :: q) with
    | Some p0 => match jsonSkipWs p0 with c0 :: p1 => (c0 =? COMMA) && listed fuel p1 expected | [] => false end
    | None => false end) b -> agrees P (string_eqb (Some (c :: q)) expected || match jsonSkipString (c :: q) with
    | Some p0 => match jsonSkipWs p0 with c0 :: p1 => (c0 =? COMMA) && listed fuel p1 expected | [] => false end
    | None => false end) b) as Hor.
  { intros b [H1 H2]. split; [intros Hb; rewrite (H1 Hb); apply orb_true_r|]. intros HP. by rewrite <- (Hh2 HP), H2. }
  eapply tr_mono; [|exact Hor]. cbn [nothing]. destruct (jsonSkipString (c :: q)) as [r|] eqn:E; [|by apply tr_ret].
  apply jsonSkipString_suffix in E as [_ ?]. pose proof (suffix_length _ _ (jsonSkipWs_suffix r)).
  destruct (jsonSkipWs r) as [|c2 r2]; [by apply tr_ret|]. destruct (c2 =? COMMA); [|by apply tr_ret].
  cbn [length andb] in *. apply IH; lia.
Qed.

Lemma jsonAudienceMatches_tr P json expected : zlen json < 2 ^ 30 ->
  tr P 0 (jsonAudienceMatches json expected) 0 nothing (agrees P (for_audience json expected)).
Proof.
  intros Hl. eapply tr_lift; [apply credsJsonObjectValue_member|]. unfold for_audience.
  destruct (json_member json (str "aud")) as [p|] eqn:E; [|by apply tr_ret].
  apply json_member_suffix, suffix_length in E. destruct p as [|c p]; [by apply tr_ret|].
  destruct expected as [|x expected]; [by apply tr_ret|]. cbn [length] in E.
  destruct (c =? QUOTE); [apply string_is_tr; intros s [= <-]; cbn [length]; lia|].
  destruct (c =? LBRACKET); [|by apply tr_ret]. apply audience_loop_tr; lia.
Qed.

Lemma length_unradix D : 8 * zlen (unradix D) <= 6 * zlen D.
Proof.
  unfold unradix. cbv zeta. rewrite length_fmap, length_seqZ. pose proof (Z.mul_div_le (6 * zlen D) 8).
  assert (0 <= 6 * zlen D / 8) by (apply Z.div_pos; lia). lia.
Qed.

Lemma length_before_equals s : (length (before_equals s) <= length s)%nat.
Proof. induction s as [|c s IH]; [done|]. cbn [before_equals length]. destruct (c =? EQUALS); cbn [length]; lia. Qed.

Lemma length_decode64 s b : decode64 s = Some b -> 8 * zlen b <= 6 * zlen s.
Proof.
  unfold decode64. cbv zeta. destruct (_ || _); [done|]. intros [= <-].
  pose proof (length_unradix (b64urlVal <$> before_equals s)) as H. rewrite length_fmap in H.
  pose proof (length_before_equals s). lia.
Qed.

Lemma decodeSegZ_tr P seg : zlen seg < 2 ^ 30 ->
  tr P 0 (decodeSegZ seg) 0 owned (may P (cstr <$> decode64 seg)).
Proof.
  intros Hl. eapply tr_own; [apply malloc_tr; unfold SQLITE_MAX_ALLOCATION_SIZE; lia|].
  intros r [->|[-> HP]]; cbn beta iota; [|apply tr_ret; [done|by right]].
  unfold fill. destruct (Z.leb_spec (zlen seg + 1) (zlen seg + 1)); [|lia].
  eapply (tr_lift _ _ (Some seg)); [done|]. eapply tr_own; [by apply decode64_tr|].
  intros raw [->|[-> HP]]; [|apply tr_ret; [done|by right]].
  destruct (decode64 seg) as [raw|] eqn:E; [|apply tr_ret; [done|by left]]. apply length_decode64 in E.
  eapply tr_bind; [apply malloc_tr; unfold SQLITE_MAX_ALLOCATION_SIZE; lia|].
  intros r [->|[-> HP]]; cbn beta iota; [|apply tr_ret; [done|by right]].
  destruct (Z.leb_spec (zlen raw + 1) (zlen raw + 1)); [|lia].
  eapply (tr_lift _ _ (Some raw)); [done|]. apply tr_ret; [done|by left].
Qed.

(** * Objects as the credential code prints them *)
Inductive jvalue : Type :=
| JString (s : list Z)
| JNumber (v : Z)
| JStrings (l : list (list Z)).

Definition quoted (s : list Z) : list Z := QUOTE :: s ++ [QUOTE].
Fixpoint print_strings (l : list (list Z)) : list Z :=
  match l with
  | [] => []
  | [s] => quoted s
  | s :: l => quoted s ++ COMMA :: print_strings l
  end.
Definition print_value (v : jvalue) : list Z :=
  match v with
  | JString s => quoted s
  | JNumber v => print_ld v
  | JStrings l => LBRACKET :: print_strings l ++ [RBRACKET]
  end.
Fixpoint print_members (ms : list (list Z * jvalue)) : list Z :=
  match ms with
  | [] => []
  | [(k, v)] => quoted k ++ COLON :: print_value v
  | (k, v) :: ms => quoted k ++ COLON :: print_value v ++ COMMA :: print_members ms
  end.
Definition print_object (ms : list (list Z * jvalue)) : list Z := LBRACE :: print_members ms ++ [RBRACE].

(** No character that a string would have to escape. *)
Definition plain (s : list Z) : Prop := Forall (fun c => is_char c /\ c <> QUOTE /\ c <> BACKSLASH) s.
Definition plain_value (v : jvalue) : Prop :=
  match v with
  | JString s => plain s
  | JNumber v => - 2 ^ 63 <= v < 2 ^ 63
  | JStrings l => Forall plain l
  end.

(** What follows the first member called [key]. *)
Fixpoint member_at (ms : list (list Z * jvalue)) (key t : list Z) : option (list Z) :=
  match ms with
  | [] => None
  | (k, v) :: ms =>
      if streq k key then
        Some (print_value v ++ match ms with [] => RBRACE :: t | _ => COMMA :: print_members ms ++ RBRACE :: t end)
      else member_at ms key t
  end.

Lemma quoted_app s t : quoted s ++ t = QUOTE :: s ++ QUOTE :: t.
Proof. unfold quoted. cbn [app]. by rewrite <- app_assoc. Qed.

Lemma skip_body_plain s t : plain s -> skip_body (s ++ QUOTE :: t) = Some t.
Proof.
  induction 1 as [|c s (_ & Hq & Hb) _ IH]; [done|]. cbn [app skip_body].
  destruct (Z.eqb_spec c QUOTE); [done|]. by destruct (Z.eqb_spec c BACKSLASH).
Qed.

Lemma unescape_plain s : plain s -> unescape s = s.
Proof.
  induction 1 as [|c s (_ & _ & Hb) _ IH]; [done|]. cbn [unescape].
  destruct (Z.eqb_spec c BACKSLASH); [done|]. by rewrite IH.
Qed.

Lemma jsonSkipString_quoted s t : plain s -> jsonSkipString (quoted s ++ t) = Some t.
Proof. intros H. rewrite quoted_app. cbn [jsonSkipString]. by apply skip_body_plain. Qed.

Lemma take_body (s t : list Z) : take (length (s ++ QUOTE :: t) - length t - 1) (s ++ QUOTE :: t) = s.
Proof.
  rewrite length_app. cbn [length]. replace (length s + S (length t) - length t - 1)%nat with (length s) by lia.
  apply take_app_length.
Qed.

Lemma json_string_quoted s t : plain s -> json_string (Some (quoted s ++ t)) = Some s.
Proof.
  intros H. pose proof (jsonSkipString_quoted s t H) as E. rewrite quoted_app in *. unfold json_string.
  rewrite E, take_body. by rewrite unescape_plain.
Qed.

(** A printed number has no white space, bracket, comma or quote in it. *)
Lemma print_ld_chars v : - 2 ^ 63 <= v < 2 ^ 63 ->
  print_ld v <> [] /\ Forall (fun c => c = 45 \/ is_digit c = true) (print_ld v).
Proof.
  intros Hv. unfold print_ld. destruct (Z.ltb_spec v 0).
  - split; [done|]. destruct (digits_spec 20 (- v) []) as (ds & -> & Hd & _); [lia|]. rewrite app_nil_r.
    constructor; [by left|]. apply (Forall_impl _ _ _ Hd). intros c Hc. right. by apply Is_true_true.
  - destruct (digits_spec 20 v []) as (ds & -> & Hd & _ & Hn); [lia|]. rewrite app_nil_r.
    split; [apply Hn; lia|]. apply (Forall_impl _ _ _ Hd). intros c Hc. right. by apply Is_true_true.
Qed.

Lemma print_strings_cons s l : print_strings (s :: l) = quoted s ++ match l with [] => [] | _ => COMMA :: print_strings l end.
Proof. destruct l; cbn [print_strings]; [by rewrite app_nil_r|done]. Qed.

Lemma skip_strings l fuel t : Forall plain l -> (length (print_strings l) + 2 <= fuel)%nat ->
  skip_nested fuel LBRACKET RBRACKET 1 (print_strings l ++ RBRACKET :: t) = Some (Some t).
Proof.
  intros Hl. revert fuel. induction Hl as [|s l Hs Hl IH]; intros fuel Hf.
  - destruct fuel as [|[|fuel]]; [cbn in Hf; lia..|]. reflexivity.
  - rewrite print_strings_cons in *. rewrite length_app in Hf. destruct fuel as [|fuel]; [lia|].
    rewrite <- app_assoc, quoted_app. cbn [skip_nested Z.eqb Pos.eqb jsonSkipString]. rewrite skip_body_plain by done.
    unfold quoted in Hf. cbn [length] in Hf. rewrite length_app in Hf. cbn [length] in Hf.
    destruct l as [|s' l].
    + destruct fuel as [|[|fuel]]; [cbn in Hf; lia..|]. reflexivity.
    + destruct fuel as [|fuel]; [cbn in Hf; lia|]. change ((COMMA :: print_strings (s' :: l)) ++ RBRACKET :: t)
        with (COMMA :: (print_strings (s' :: l) ++ RBRACKET :: t)).
      cbn [skip_nested]. cbn [Z.eqb Pos.eqb]. apply IH. cbn [length] in Hf. lia.
Qed.

(** The end of a value: a comma or the brace. *)
Definition value_end (t : list Z) : Prop := exists u, t = COMMA :: u \/ t = RBRACE :: u.

Lemma skip_scalar_number l t : Forall (fun c => c = 45 \/ is_digit c = true) l -> value_end t -> skip_scalar (l ++ t) = t.
Proof.
  intros Hl [u Ht]. induction Hl as [|c l Hc _ IH]; cbn [app].
  - destruct Ht as [->| ->]; done.
  - cbn [skip_scalar]. assert ((c =? COMMA) || (c =? RBRACE) || (c =? RBRACKET) = false) as -> by (rewrite is_digit_range in Hc; lia).
    exact IH.
Qed.

Lemma not_ws c p : is_ws c = false -> jsonSkipWs (c :: p) = c :: p.
Proof. intros H. cbn [jsonSkipWs]. by rewrite H. Qed.

Lemma print_value_start v t : plain_value v -> jsonSkipWs (print_value v ++ t) = print_value v ++ t.
Proof.
  destruct v as [s|v|l]; [done| |done]. intros Hv. destruct (print_ld_chars v Hv) as [Hn Hc]. cbn [print_value].
  destruct (print_ld v) as [|c q]; [done|]. apply Forall_cons in Hc as [Hc _]. apply not_ws. rewrite is_digit_range in Hc.
  unfold is_ws. lia.
Qed.

Lemma jsonSkipValue_printed v t : plain_value v -> value_end t -> jsonSkipValue (print_value v ++ t) = Some (Some t).
Proof.
  intros Hv Ht. unfold jsonSkipValue. rewrite print_value_start by done. destruct v as [s|v|l]; cbn [print_value plain_value] in *.
  - pose proof (jsonSkipString_quoted s t Hv) as E. rewrite quoted_app in *. cbn [Z.eqb Pos.eqb]. by rewrite E.
  - destruct (print_ld_chars v Hv) as [Hn Hc]. pose proof (skip_scalar_number _ t Hc Ht) as E.
    destruct (print_ld v) as [|c q]; [done|]. cbn [app] in *. apply Forall_cons in Hc as [Hc _]. rewrite is_digit_range in Hc.
    assert ((c =? QUOTE) = false) as -> by lia. assert ((c =? LBRACE) || (c =? LBRACKET) = false) as -> by lia. by rewrite E.
  - cbn [app Z.eqb Pos.eqb orb]. rewrite <- app_assoc. cbn [app]. apply skip_strings; [done|].
    cbn [length]. rewrite length_app. cbn [length]. lia.
Qed.

Lemma print_members_cons k v ms : print_members ((k, v) :: ms) =
  quoted k ++ COLON :: print_value v ++ match ms with [] => [] | _ => COMMA :: print_members ms end.
Proof. destruct ms; cbn [print_members]; [by rewrite app_nil_r|done]. Qed.

Lemma object_loop_printed ms fuel key t : Forall (fun m => plain m.1 /\ plain_value m.2) ms -> ms <> [] ->
  (length (print_members ms) < fuel)%nat ->
  object_loop fuel (print_members ms ++ RBRACE :: t) key = Some (member_at ms key t).
Proof.
  intros Hms. revert fuel. induction Hms as [|[k v] ms [Hk Hv] Hms IH]; intros fuel Hne Hf; [done|]. clear Hne.
  rewrite print_members_cons in *. destruct fuel as [|fuel]; [lia|].
  set (rest := match ms with [] => RBRACE :: t | _ => COMMA :: print_members ms ++ RBRACE :: t end).
  replace ((quoted k ++ COLON :: print_value v ++ match ms with [] => [] | _ => COMMA :: print_members ms end) ++ RBRACE :: t)
    with (quoted k ++ COLON :: print_value v ++ rest)
    by (unfold rest; destruct ms; rewrite <- !app_assoc; cbn [app]; by rewrite <- ?app_assoc).
  cbn [object_loop]. rewrite quoted_app, not_ws by done. cbn [Z.eqb Pos.eqb negb].
  cbn [jsonSkipString Z.eqb Pos.eqb]. rewrite skip_body_plain, take_body, not_ws by done. cbn [Z.eqb Pos.eqb negb].
  rewrite print_value_start by done. cbn [member_at fst snd] in *. fold rest. destruct (streq k key); [done|].
  assert (value_end rest) as Hend by (unfold rest, value_end; destruct ms; eauto).
  rewrite jsonSkipValue_printed by done. unfold rest. destruct ms as [|m ms]; [done|].
  rewrite not_ws by done. cbn [Z.eqb Pos.eqb]. apply IH; [done|].
  rewrite length_app in Hf. cbn [length] in Hf. rewrite length_app in Hf. cbn [length] in Hf. lia.
Qed.

Lemma member_printed ms key t : Forall (fun m => plain m.1 /\ plain_value m.2) ms -> ms <> [] ->
  json_member (print_object ms ++ t) key = member_at ms key t.
Proof.
  intros Hms Hne. unfold json_member, credsJsonObjectValue, print_object. cbn [app]. rewrite not_ws by done.
  cbn [Z.eqb Pos.eqb]. rewrite <- app_assoc. cbn [app]. rewrite object_loop_printed; [done|done|done|].
  rewrite length_app. lia.
Qed.

Fixpoint assoc (ms : list (list Z * jvalue)) (key : list Z) : option jvalue :=
  match ms with
  | [] => None
  | (k, v) :: ms => if streq k key then Some v else assoc ms key
  end.

Lemma member_found ms key v t : Forall (fun m => plain m.1 /\ plain_value m.2) ms -> assoc ms key = Some v ->
  exists u, json_member (print_object ms ++ t) key = Some (print_value v ++ u) /\ value_end u.
Proof.
  intros Hms Ha. assert (ms <> []) as Hne by (by intros ->). rewrite member_printed by done. clear Hms Hne.
  induction ms as [|[k x] ms IH]; [done|]. cbn [assoc member_at] in *. destruct (streq k key); [|by apply IH].
  injection Ha as <-. eexists. split; [done|]. unfold value_end. destruct ms; eauto.
Qed.

Lemma member_absent ms key t : Forall (fun m => plain m.1 /\ plain_value m.2) ms -> ms <> [] -> assoc ms key = None ->
  json_member (print_object ms ++ t) key = None.
Proof.
  intros Hms Hne Ha. rewrite member_printed by done. clear Hms Hne.
  induction ms as [|[k x] ms IH]; [done|]. cbn [assoc member_at] in *. destruct (streq k key); [done|by apply IH].
Qed.

Lemma skip_digits_app l c t : Forall is_digit l -> is_digit c = false -> skip_digits (l ++ c :: t) = c :: t.
Proof.
  intros Hl Hc. induction Hl as [|d l Hd _ IH]; cbn [app skip_digits]; [by rewrite Hc|].
  apply Is_true_true in Hd. by rewrite Hd.
Qed.

Lemma jsonParseLong_printed v t : 0 <= v < 2 ^ 63 -> value_end t -> jsonParseLong (Some (print_value (JNumber v) ++ t)) = Some v.
Proof.
  intros Hv [u Ht]. cbn [print_value]. destruct (print_ld_spec v Hv) as (Hd & Hval & Hne). unfold jsonParseLong.
  assert (exists c, t = c :: u /\ is_digit c = false /\ (c =? COMMA) || (c =? RBRACE) = true /\ is_ws c = false) as (c & -> & Hc & Hce & Hws)
    by (destruct Ht as [->| ->]; eauto).
  rewrite skip_digits_app, span_app by done.
  assert (doltliteParseDecimal (Some (print_ld v)) LONG_MAX = DECIMAL_OK v) as ->.
  { pose proof (parse_decimal_loop_spec LONG_MAX [] (print_ld v)) as H. unfold LONG_MAX in *. cbn [app] in H.
    specialize (H ltac:(lia) ltac:(by apply Forall_nil) ltac:(cbn; lia)). change (dec_val []) with 0 in H. unfold doltliteParseDecimal.
    destruct (print_ld v) as [|d ds] eqn:Ep; [done|]. destruct (parse_decimal_loop 0 (2 ^ 63 - 1) (d :: ds)) as [r| |].
    - destruct H as (_ & -> & _). by rewrite Hval.
    - destruct H as (a & x & b & E & _ & _ & Hx). rewrite E in Hd. apply Forall_app in Hd as [_ [Hd _]%Forall_cons]. by rewrite Hx in Hd.
    - destruct H as (a & b & E & Ha & Hr). rewrite E in *. pose proof (dec_val_app_le a b Hd). lia. }
  rewrite not_ws by done. by rewrite Hce.
Qed.

Lemma listed_printed l fuel t expected : Forall plain l -> (length (print_strings l) < fuel)%nat ->
  listed fuel (print_strings l ++ RBRACKET :: t) expected = bool_decide (expected ∈ l).
Proof.
  intros Hl. revert fuel. induction Hl as [|s l Hs Hl IH]; intros fuel Hf; (destruct fuel as [|fuel]; [lia|]).
  - cbn. symmetry. apply bool_decide_eq_false. set_solver.
  - rewrite print_strings_cons in *. rewrite length_app in Hf. rewrite <- app_assoc. cbn [listed].
    assert (string_eqb (Some (quoted s ++ (match l with [] => [] | _ :: _ => COMMA :: print_strings l end) ++ RBRACKET :: t)) expected
      = streq s expected) as E by (unfold string_eqb; by rewrite json_string_quoted).
    rewrite quoted_app, not_ws in * by done. rewrite E. cbn [Z.eqb Pos.eqb andb jsonSkipString]. rewrite skip_body_plain by done.
    destruct (streq s expected) eqn:Es; cbn [orb].
    { apply streq_true in Es as ->. symmetry. apply bool_decide_eq_true. set_solver. }
    assert (s <> expected) as Hne by (intros ->; by rewrite streq_refl in Es).
    destruct l as [|s' l]; cbn [app].
    + rewrite not_ws by done. cbn. symmetry. apply bool_decide_eq_false. set_solver.
    + rewrite not_ws by done. cbn [Z.eqb Pos.eqb andb]. rewrite IH by (cbn [length] in Hf; lia).
      apply bool_decide_ext. set_solver.
Qed.

Lemma for_audience_printed json l t expected : Forall plain l -> expected <> [] ->
  json_member json (str "aud") = Some (print_value (JStrings l) ++ t) -> for_audience json expected = bool_decide (expected ∈ l).
Proof.
  intros Hl Hne E. unfold for_audience. rewrite E. cbn [print_value app]. destruct expected; [done|].
  cbn [Z.eqb Pos.eqb andb]. rewrite <- app_assoc. cbn [app]. apply listed_printed; [done|]. rewrite length_app. lia.
Qed.
