(* ===== verification/Creds.v ===== *)
(** Credentials, [remote/doltlite_creds.c] up to the files: key pairs from
    seeds, their names, the tokens a client sends and the JSON form of a key.
    A function that hands out a block or a nonzero result returns an option;
    blocks are counted by the world. *)
From S2P Require Import Prelude CInt Sha512 Ge Ed25519 CString World Radix Json.

Definition DOLTLITE_SEED_LEN : Z := 32.
Definition DOLTLITE_PUBKEY_LEN : Z := 32.
Definition DOLTLITE_SIG_LEN : Z := 64.
Definition DOLTLITE_KID_RAW_LEN : Z := 28.

Record DoltliteCreds : Type := Creds { c_seed : list Z; c_pub : list Z; c_expanded : list Z }.
(** [sizeof(DoltliteCreds)] *)
Definition sizeof_DoltliteCreds : Z := 128.

Definition SHA512_224_IV : list Z :=
  [0x8C3D37C819544DA2; 0x73E1996689DCD4D6; 0x1DFAB7AE32FF9C82; 0x679DD514582F9FCF;
   0x0F6D2B697BD44DA8; 0x77E36F7304C48942; 0x3F9D85A86A1D36C8; 0x1112E6AD91D692A1].

Definition dlStrDup (s : option (list Z)) : M (option (list Z)) :=
  match s with
  | None => retM None
  | Some s =>
      let n := zlen s + 1 in
      if 0x7fffffff <? n then retM None else
      let* z := sqlite3_malloc n in
      match z with
      | None => retM None
      | Some cap => let* z := fill cap s in retM (Some z)
      end
  end.

(** [while( n > 0 && s[n-1] == '=' ) s[--n] = 0] on the reversed string *)
Fixpoint drop_equals (r : list Z) : list Z :=
  match r with
  | c :: r' => if c =? EQUALS then drop_equals r' else r
  | [] => []
  end.

Definition b64urlRaw (in_ : list Z) : M (option (list Z)) :=
  let* s := doltliteBase64UrlEncode in_ in
  match s with
  | None => retM None
  | Some s => retM (Some (reverse (drop_equals (reverse s))))
  end.

Definition JWT_ISSUER : list Z := str "dolt-client.dolthub.com".
Definition JWT_SUBJECT_PREFIX : list Z := str "doltClientCredentials/".
Definition JWT_TOKEN_VERSION : list Z := str "2023.01".
Definition JWT_TTL_SECONDS : Z := 30.
Definition JWT_CLOCK_SKEW_SECONDS : Z := 60.

(** The formats of [snprintf]. *)
Definition header_text (kid : list Z) : list Z :=
  js "{'alg':'EdDSA','kid':'" ++ kid ++ js "','dolt_token_version':'" ++ JWT_TOKEN_VERSION ++ js "'}".
Definition claims_text (kid audience : list Z) (iat exp : Z) : list Z :=
  js "{'iss':'" ++ JWT_ISSUER ++ js "','sub':'" ++ JWT_SUBJECT_PREFIX ++ kid ++ js "','aud':['" ++ audience ++
  js "'],'iat':" ++ print_ld iat ++ js ",'exp':" ++ print_ld exp ++ js "}".
Definition jwk_text (x d : list Z) : list Z :=
  js "{'kty':'OKP','crv':'Ed25519','x':'" ++ x ++ js "','d':'" ++ d ++ js "'}".
Definition public_jwk_text (x : list Z) : list Z :=
  js "{'kty':'OKP','crv':'Ed25519','x':'" ++ x ++ js "'}".

(** [z = sqlite3_malloc(n); snprintf(z, n, ...)]; [text] is the formatted
    text, [None] when an argument is undefined. *)
Definition asprint (n : Z) (text : option (list Z)) : M (option (list Z)) :=
  let* z := sqlite3_malloc n in
  match z with
  | None => retM None
  | Some cap =>
      let* text := lift text in
      let* z := snprintf cap n text in
      retM (Some z)
  end.

Section creds.
(** The contents of uninitialised locals. *)
Context (l : locals) (junk_sig : list Z).

Definition doltliteSha512_224 (in_ : list Z) : option (list Z) :=
  let (_, ctx) := sha512_init (l_hash l) in
  let ctx := Sha512 (length_ ctx) SHA512_224_IV (curlen ctx) (buf ctx) in
  let? (_, ctx) := sha512_update ctx (Some in_) (zlen in_) in
  let? (_, _, full) := sha512_final ctx in
  bytes_at full DOLTLITE_KID_RAW_LEN.

(** The loop of [randomBytes]; [got] is what was read. *)
Fixpoint random_loop (fuel : nat) (n : Z) (got : list Z) : M (option (list Z)) :=
  if zlen got <? n then
    match fuel with
    | O => undefined
    | S fuel =>
        let* c := next in
        match c with
        | Interrupt => random_loop fuel n got
        | Refuse => retM None
        | Pick s =>
            let r := u8 <$> take (Z.to_nat (n - zlen got)) s in
            if zlen r =? 0 then retM None else random_loop fuel n (got ++ r)
        | _ => random_loop fuel n (got ++ replicate (Z.to_nat (n - zlen got)) 0)
        end
    end
  else retM (Some got).

Definition randomBytes (n : Z) : M (option (list Z)) :=
  let* c := next in
  if refused c then retM None else
  let* w := getW in random_loop (length (w_choices w) + Z.to_nat n + 1) n [].

Definition doltliteCredsFromSeed (seed : list Z) : M (option DoltliteCreds) :=
  let* c := sqlite3_malloc sizeof_DoltliteCreds in
  match c with
  | None => retM None
  | Some _ =>
      let* seed := lift (bytes_at seed DOLTLITE_SEED_LEN) in
      let* (pub, expanded) := lift (ed25519_create_keypair (l_hash l) (replicate 32 0) (replicate 64 0) seed) in
      retM (Some (Creds seed pub expanded))
  end.

Definition doltliteCredsGenerate : M (option DoltliteCreds) :=
  let* seed := randomBytes DOLTLITE_SEED_LEN in
  match seed with
  | None => retM None
  | Some seed => doltliteCredsFromSeed seed
  end.

Definition doltliteCredsFree (c : option DoltliteCreds) : M unit := sqlite3_free c.

Definition doltliteCredsKid (c : DoltliteCreds) : M (option (list Z)) :=
  let* raw := lift (doltliteSha512_224 (c_pub c)) in doltliteBase32Encode raw.

Definition doltliteCredsPubKeyB32 (c : DoltliteCreds) : M (option (list Z)) := doltliteBase32Encode (c_pub c).

Definition doltliteCredsSign (c : DoltliteCreds) (msg sig : list Z) : option (list Z) :=
  ed25519_sign (l_hash l) (l_r l) (l_hram l) sig (Some msg) (zlen msg) (c_pub c) (c_expanded c).

(** The part of [doltliteCredsBearerTokenAt] after the two JSON texts. *)
Definition sign_token (c : DoltliteCreds) (header claims : list Z) : M (option (list Z)) :=
  let~ h64 := b64urlRaw header in
  let~ c64 := b64urlRaw claims in
  match h64, c64 with
  | Some h64, Some c64 =>
      let~ input := asprint (zlen h64 + 1 + zlen c64 + 1) (Some (h64 ++ DOT :: c64)) in
      match input with
      | None => retM None
      | Some input =>
          let* sig := lift (doltliteCredsSign c input junk_sig) in
          let~ sig64 := b64urlRaw sig in
          match sig64 with
          | None => retM None
          | Some sig64 => asprint (zlen input + 1 + zlen sig64 + 1) (Some (input ++ DOT :: sig64))
          end
      end
  | _, _ => retM None
  end.

Definition doltliteCredsBearerTokenAt (c : option DoltliteCreds) (audience : option (list Z)) (iat : Z)
  : M (option (list Z)) :=
  match c, audience with
  | Some c, Some ((_ :: _) as audience) =>
      let~ kid := doltliteCredsKid c in
      match kid with
      | None => retM None
      | Some kid =>
          let~ header := asprint (zlen kid + 96) (Some (header_text kid)) in
          match header with
          | None => retM None
          | Some header =>
              let~ claims := asprint (zlen kid + zlen audience + 164)
                (let? exp := (iat + JWT_TTL_SECONDS)%i64 in Some (claims_text kid audience iat exp)) in
              match claims with
              | None => retM None
              | Some claims => sign_token c header claims
              end
          end
      end
  | _, _ => retM None
  end.

(** [time] is what [time(NULL)] returns. *)
Definition doltliteCredsBearerToken (time : Z) (c : option DoltliteCreds) (audience : option (list Z)) : M (option (list Z)) :=
  doltliteCredsBearerTokenAt c audience time.

Definition doltliteCredsToJwk (c : DoltliteCreds) : M (option (list Z)) :=
  let~ x := doltliteBase64UrlEncode (c_pub c) in
  let~ d := doltliteBase64UrlEncode (c_seed c) in
  match x, d with
  | Some x, Some d => asprint (zlen x + zlen d + 64) (Some (jwk_text x d))
  | _, _ => retM None
  end.

Definition doltliteCredsToPublicJwk (c : DoltliteCreds) : M (option (list Z)) :=
  let~ x := doltliteBase64UrlEncode (c_pub c) in
  match x with
  | Some x => asprint (zlen x + 48) (Some (public_jwk_text x))
  | None => retM None
  end.

(** [memcmp(a, b, n) == 0] *)
Definition memeq (a b : list Z) (n : Z) : option bool :=
  let? x := bytes_at a n in let? y := bytes_at b n in Some (streq x y).

(** The part of [doltliteCredsFromJwk] after the two numbers are decoded. *)
Definition creds_of_numbers (d x : list Z) : M (option DoltliteCreds) :=
  let nd := zlen d in
  let nx := zlen x in
  if negb (nd =? 32) || (negb (nx =? 32) && negb (nx =? 64)) then retM None else
  let* c := doltliteCredsFromSeed (if nx =? 64 then x else d) in
  match c with
  | None => retM None
  | Some c' =>
      let* same := lift (memeq (c_pub c') (if nx =? 64 then d else x) 32) in
      let* same2 := lift (if nx =? 64 then memeq (c_pub c') (x +p 32) 32 else Some true) in
      if negb same || negb same2 then let* _ := doltliteCredsFree c in retM None
      else retM c
  end.

Definition doltliteCredsFromJwk (json : list Z) : M (option DoltliteCreds) :=
  let~ dstr := jsonFindString json (str "d") in
  let~ xstr := jsonFindString json (str "x") in
  let~ kty := jsonFindString json (str "kty") in
  let~ crv := jsonFindString json (str "crv") in
  match dstr, xstr, kty, crv with
  | Some dstr, Some xstr, Some kty, Some crv =>
      if negb (streq kty (str "OKP")) || negb (streq crv (str "Ed25519")) then retM None else
      let~ d := doltliteBase64UrlDecode dstr in
      match d with
      | None => retM None
      | Some d =>
          let~ x := doltliteBase64UrlDecode xstr in
          match x with
          | None => retM None
          | Some x => creds_of_numbers d x
          end
      end
  | _, _, _, _ => retM None
  end.
End creds.
