(* ===== verification/CredsFile.v ===== *)
(** Credential files, [remote/doltlite_creds.c] from [doltliteCredsDir] on: the
    directory of keys, saving and loading a key, the bearer tokens a server
    checks against its keys.  [None] for a directory is NULL; results of calls
    the code ignores ([fchmod], [fclose] of a file that was read) take no
    choice. *)
From S2P Require Import Prelude CInt Ge Ed25519 CString World Radix Json Creds.

(** * Paths *)
Definition doltliteCredsDir : M (option (list Z)) :=
  let* w := getW in
  match w_env w (str "DOLTLITE_CREDS_DIR") with
  | Some ((_ :: _) as override) => dlStrDup (Some override)
  | _ =>
      match w_env w (str "HOME") with
      | Some ((_ :: _) as home) =>
          asprint (zlen home + zlen (str "/.doltlite/creds") + 1) (Some (home ++ str "/.doltlite/creds"))
      | _ => retM None
      end
  end.

(** [if( !dir ) dir = owned = doltliteCredsDir()]; the block is freed at the end. *)
Definition with_dir {A} (dir : option (list Z)) (k : option (list Z) -> M A) : M A :=
  match dir with
  | Some _ => k dir
  | None => let~ owned := doltliteCredsDir in k owned
  end.

Definition mkdir_ok (d : path) : M bool :=
  let* e := mkdir d in
  retM (match e with None | Some EEXIST => true | Some _ => false end).

(** The loop over the separators; [pre] is reversed and not empty. *)
Fixpoint mkdirp_loop (pre rest : list Z) : M bool :=
  match rest with
  | [] => retM true
  | c :: rest =>
      if (c =? SLASH) || (c =? BACKSLASH) then
        let* ok :=
          match pre with
          | p :: _ => if p =? COLON then retM true else mkdir_ok (reverse pre)
          | [] => retM true
          end in
        if ok then mkdirp_loop (c :: pre) rest else retM false
      else mkdirp_loop (c :: pre) rest
  end.

(** Whether the directory is there afterwards. *)
Definition mkdirp (path_ : list Z) : M bool :=
  let~ tmp := dlStrDup (Some path_) in
  match tmp with
  | None => retM false
  | Some tmp =>
      let* ok := match tmp with c :: rest => mkdirp_loop [c] rest | [] => retM true end in
      if ok then mkdir_ok tmp else retM false
  end.

(** The loop of [credsKidValid] with [n] characters to go. *)
Fixpoint kid_loop (n : nat) (kid : list Z) : bool :=
  match n with
  | O => bool_decide (kid = [])
  | S n' =>
      match kid with
      | [] => false
      | c :: kid =>
          match strchr B32_ALPHABET c with
          | None => false
          | Some p =>
              let i := zlen B32_ALPHABET - zlen p in
              if (n' =? 0)%nat && negb (Z.land i 1 =? 0) then false else kid_loop n' kid
          end
      end
  end.
Definition credsKidValid (kid : option (list Z)) : bool :=
  match kid with
  | None => false
  | Some kid => kid_loop (Z.to_nat ((DOLTLITE_KID_RAW_LEN * 8 + 4) / 5)) kid
  end.

Definition jwk_path (dir kid : list Z) : path := dir ++ SLASH :: kid ++ str ".jwk".

Definition credsFilePath (dir kid : list Z) : M (option (list Z)) :=
  if credsKidValid (Some kid) then
    asprint (zlen dir + 1 + zlen kid + zlen (str ".jwk") + 1) (Some (jwk_path dir kid))
  else retM None.

(** * Writing a file *)
Definition open_dir (dir : path) : M bool :=
  let* c := next in
  let* w := getW in
  retM (negb (refused c) && is_dir w dir).

(** Whether the directory was synced. *)
Definition credsFsyncDir (dir : path) : M bool :=
  let* ok := open_dir dir in
  if ok then
    let* e := retrying (fsync_dir dir) in
    retM (match e with None => true | Some _ => false end)
  else retM false.

(** [while( off < len )]; [data] is what is left to write. *)
Fixpoint write_loop (fuel : nat) (fd : nat) (data : list Z) : M bool :=
  match data with
  | [] => retM true
  | _ :: _ =>
      match fuel with
      | O => undefined
      | S fuel =>
          let* r := write fd data in
          match r with
          | inl EINTR => write_loop fuel fd data
          | inl _ => retM false
          | inr wrote => if wrote <=? 0 then retM false else write_loop fuel fd (data +p wrote)
          end
      end
  end.

(** From the open temporary file on: the result, and the flags of the cleanup
    (the file is still open, it has become [path_]). *)
Definition replace_body (dir path_ tmp : path) (fd : nat) (data : list Z) (exclusive : bool) : M (Z * bool * bool) :=
  let* w := getW in
  let* ok := write_loop (length (w_choices w) + length data + 1) fd data in
  if negb ok then retM (1, true, false) else
  let* e := retrying (fsync fd) in
  if bool_decide (is_Some e) then retM (1, true, false) else
  let* ok := succeeds in
  if negb ok then retM (1, false, false) else
  let* ok :=
    if exclusive then
      let* ok := link tmp path_ in
      if ok then unlink tmp else retM false
    else rename tmp path_ in
  if negb ok then retM (1, false, false) else
  let* ok := credsFsyncDir dir in
  retM (if ok then 0 else 1, false, true).

Definition credsReplaceDurable (dir path_ : path) (data : list Z) (exclusive : bool) : M Z :=
  let* free_to_go :=
    if exclusive then
      let* existing := fopen_rb path_ in
      match existing with
      | inr _ => let* _ := succeeds in retM false
      | inl ENOENT => retM true
      | inl _ => retM false
      end
    else retM true in
  if negb free_to_go then retM 1 else
  let ntmp := zlen path_ + 8 in
  if 0x7fffffff <? ntmp then retM 1 else
  let~ tmp := asprint ntmp (Some (path_ ++ str ".XXXXXX")) in
  match tmp with
  | None => retM 1
  | Some _ =>
      let* fd := mkstemp path_ in
      match fd with
      | None => retM 1
      | Some (tmp, fd) =>
          let* (rc, is_open, committed) := replace_body dir path_ tmp fd data exclusive in
          let* _ := if is_open then succeeds else retM true in
          let* _ := if committed then retM true else unlink tmp in
          retM rc
      end
  end.

(** * Reading a file *)
(** The contents of [path_] in a new block: [fopen] to [fread] in the loaders. *)
Definition slurp (path_ : path) : M (option (list Z)) :=
  let* f := fopen_rb path_ in
  match f with
  | inl _ => retM None
  | inr f =>
      let* ok := succeeds in
      if negb ok then retM None else
      let* sz := ftell_end f in
      if (sz <? 0) || (Z.shiftl 1 20 <? sz) then retM None else
      let* ok := succeeds in
      if negb ok then retM None else
      let* json := sqlite3_malloc (sz + 1) in
      match json with
      | None => retM None
      | Some cap =>
          let* b := fread f sz in
          if zlen b =? sz then let* _ := fill cap b in retM (Some b)
          else let* _ := sqlite3_free json in retM None
      end
  end.

(** * Lists of keys *)
(** The name of a key from the name of a file; [None] when it is no [.jwk]. *)
Definition jwk_name (name : list Z) : option (list Z) :=
  let n := (length name - 4)%nat in
  if (4 <? zlen name) && streq (drop n name) (str ".jwk") then Some (take n name) else None.

(** [for( i = 0; i < n; i++ ) sqlite3_free(list[i]); sqlite3_free(list)] *)
Fixpoint free_each (kids : list (list Z)) : M unit :=
  match kids with
  | [] => retM ()
  | k :: kids => let* _ := sqlite3_free (Some k) in free_each kids
  end.
Definition doltliteCredsFreeList (list_ : option Z) (kids : list (list Z)) : M unit :=
  match list_ with
  | None => retM ()
  | Some _ => let* _ := free_each kids in sqlite3_free list_
  end.

(** [kid = sqlite3_malloc(n - 4 + 1)] and the copy of the name *)
Definition dup_name (kid : list Z) : M (option (list Z)) :=
  let* z := sqlite3_malloc (zlen kid + 1) in
  match z with
  | None => retM None
  | Some cap => let* z := fill cap kid in retM (Some z)
  end.

(** The loop of [doltliteCredsList]: the array [arr] has room for [cap] names;
    [None] is out of memory. *)
Fixpoint list_loop (names : list path) (arr : option Z) (cap : Z) (kids : list (list Z))
  : M (option (option Z * list (list Z))) :=
  let* c := next in
  if refused c then retM (Some (arr, kids)) else
  match names with
  | [] => retM (Some (arr, kids))
  | name :: names =>
      match jwk_name name with
      | None => list_loop names arr cap kids
      | Some kid =>
          let* kid' := dup_name kid in
          match kid' with
          | None => let* _ := doltliteCredsFreeList arr kids in retM None
          | Some kid =>
              if negb (credsKidValid (Some kid)) then let* _ := sqlite3_free kid' in list_loop names arr cap kids
              else if zlen kids =? cap then
                let nc := if cap =? 0 then 8 else cap * 2 in
                let* na := sqlite3_realloc arr (nc * 8) in
                match na with
                | None =>
                    let* _ := sqlite3_free kid' in
                    let* _ := doltliteCredsFreeList arr kids in
                    retM None
                | Some _ => list_loop names na nc (kids ++ [kid])
                end
              else list_loop names arr cap (kids ++ [kid])
          end
      end
  end.

(** The array and the names; [None] is a result other than 0. *)
Definition doltliteCredsList (dir : option (list Z)) : M (option (option Z * list (list Z))) :=
  with_dir dir (fun dir =>
    match dir with
    | None => retM None
    | Some dir =>
        let* d := opendir dir in
        match d with
        | inl ENOENT => retM (Some (None, []))
        | inl _ => retM None
        | inr names => list_loop names None 0 []
        end
    end).

Section files.
Context (l : locals) (junk_sig : list Z).

(** * Saving and loading *)
Definition credsSaveJwk (c : DoltliteCreds) (dir : option (list Z)) (publicOnly : bool) : M Z :=
  with_dir dir (fun dir =>
    match dir with
    | None => retM 1
    | Some dir =>
        let* ok := mkdirp dir in
        if negb ok then retM 1 else
        let~ kid := doltliteCredsKid l c in
        match kid with
        | None => retM 1
        | Some kid =>
            let~ path_ := credsFilePath dir kid in
            match path_ with
            | None => retM 1
            | Some path_ =>
                let~ json := if publicOnly then doltliteCredsToPublicJwk c else doltliteCredsToJwk c in
                match json with
                | None => retM 1
                | Some json => credsReplaceDurable dir path_ json publicOnly
                end
            end
        end
    end).

Definition doltliteCredsSave (c : DoltliteCreds) (dir : option (list Z)) : M Z := credsSaveJwk c dir false.
Definition doltliteCredsSavePublic (c : DoltliteCreds) (dir : option (list Z)) : M Z := credsSaveJwk c dir true.

(** [rc = doltliteCredsFromJwk(json, out)] and the comparison of the name *)
Definition load_json (json kid : list Z) : M (option DoltliteCreds) :=
  let* c := doltliteCredsFromJwk l json in
  match c with
  | None => retM None
  | Some c' =>
      let~ actual := doltliteCredsKid l c' in
      match actual with
      | Some actual =>
          if streq actual kid then retM c else let* _ := doltliteCredsFree c in retM None
      | None => let* _ := doltliteCredsFree c in retM None
      end
  end.

Definition doltliteCredsLoad (dir : option (list Z)) (kid : list Z) : M (option DoltliteCreds) :=
  with_dir dir (fun dir =>
    match dir with
    | None => retM None
    | Some dir =>
        let~ path_ := credsFilePath dir kid in
        match path_ with
        | None => retM None
        | Some path_ =>
            let~ json := slurp path_ in
            match json with
            | None => retM None
            | Some json => load_json (cstr json) kid
            end
        end
    end).

Definition doltliteCredsImport (path_ : path) : M (option DoltliteCreds) :=
  let* f := fopen_rb path_ in
  match f with
  | inl _ => retM None
  | inr f =>
      let* json := fread f 4096 in
      let* all := contents f in
      (* ferror, or not feof, or a NUL *)
      if negb (zlen json =? zlen all) || (zlen json =? 4096) || bool_decide (0 ∈ json) then retM None
      else doltliteCredsFromJwk l json
  end.

(** The key in a public JWK that is called [kid]. *)
Definition public_of_json (json kid : list Z) : M (option (list Z)) :=
  let* d := lift (credsJsonObjectValue json (str "d")) in
  match d with
  | Some _ => retM None
  | None =>
      let~ kty := jsonFindString json (str "kty") in
      let~ crv := jsonFindString json (str "crv") in
      if negb (bool_decide (kty = Some (str "OKP"))) then retM None else
      if negb (bool_decide (crv = Some (str "Ed25519"))) then retM None else
      let~ xstr := jsonFindString json (str "x") in
      match xstr with
      | None => retM None
      | Some xstr =>
          let~ raw := doltliteBase64UrlDecode xstr in
          match raw with
          | None => retM None
          | Some raw =>
              if negb (zlen raw =? DOLTLITE_PUBKEY_LEN) then retM None else
              let* kidRaw := lift (doltliteSha512_224 l raw) in
              let~ derivedKid := doltliteBase32Encode kidRaw in
              if bool_decide (derivedKid = Some kid) then retM (Some raw) else retM None
          end
      end
  end.

(** The public key, copied to the caller. *)
Definition doltliteCredsLoadPubKey (dir : option (list Z)) (kid : list Z) : M (option (list Z)) :=
  with_dir dir (fun dir =>
    match dir with
    | None => retM None
    | Some dir =>
        let~ path_ := credsFilePath dir kid in
        match path_ with
        | None => retM None
        | Some path_ =>
            let~ json := slurp path_ in
            match json with
            | None => retM None
            | Some json => public_of_json (cstr json) kid
            end
        end
    end).

Definition credsFileContainsPrivateJwk (dir name : list Z) : M bool :=
  let~ path_ := asprint (zlen dir + zlen name + 2) (Some (dir ++ SLASH :: name)) in
  match path_ with
  | None => retM false
  | Some path_ =>
      let* regular := stat_regular path_ in
      if negb regular then retM false else
      let~ json := slurp path_ in
      match json with
      | None => retM false
      | Some json =>
          let* d := lift (credsJsonObjectValue (cstr json) (str "d")) in
          retM (bool_decide (is_Some d))
      end
  end.

(** The loop of [doltliteCredsValidateAuthDir]; [true] is the result 0. *)
Fixpoint validate_loop (dir : list Z) (names : list path) : M bool :=
  let* c := next in
  if refused c then retM true else
  match names with
  | [] => retM true
  | name :: names =>
      match jwk_name name with
      | None =>
          let* private := credsFileContainsPrivateJwk dir name in
          if private then retM false else validate_loop dir names
      | Some kid =>
          let* ok :=
            (let~ kid := dup_name kid in
             match kid with
             | None => retM false
             | Some kid =>
                 if negb (credsKidValid (Some kid)) then retM false else
                 let* pub := doltliteCredsLoadPubKey (Some dir) kid in
                 retM (bool_decide (is_Some pub))
             end) in
          if ok then validate_loop dir names else retM false
      end
  end.

Definition doltliteCredsValidateAuthDir (dir : option (list Z)) : M bool :=
  match dir with
  | None => retM false
  | Some dir =>
      let* d := opendir dir in
      match d with
      | inl _ => retM false
      | inr names => validate_loop dir names
      end
  end.
End files.
