(* ===== verification/Bearer.v ===== *)
(** The server's check of a bearer token, [doltliteCredsVerifyBearer] of
    [remote/doltlite_creds.c]. *)
From S2P Require Import Prelude CInt Ge Ed25519 CString World Radix Json Creds CredsFile.

Fixpoint skip_spaces (p : list Z) : list Z :=
  match p with
  | c :: p' => if c =? SPACE then skip_spaces p' else p
  | [] => []
  end.

(** The token after the scheme. *)
Definition bearer_jwt (authValue : list Z) : list Z :=
  skip_spaces (if strneq authValue (str "Bearer ") 7 then authValue +p 7 else authValue).

(** The conditions on the times; [long] arithmetic. *)
Definition times_ok (now exp : Z) (iat nbf : option Z) : option bool :=
  let? late := if exp <? now then let? d := (now - exp)%i64 in Some (JWT_CLOCK_SKEW_SECONDS <? d) else Some false in
  if late then Some false else
  let? early := if now <? exp then let? d := (exp - now)%i64 in Some (JWT_TTL_SECONDS + JWT_CLOCK_SKEW_SECONDS <? d)
    else Some false in
  if early then Some false else
  let? iat_ok :=
    match iat with
    | None => Some true
    | Some iat =>
        let? future := if now <? iat then let? d := (iat - now)%i64 in Some (JWT_CLOCK_SKEW_SECONDS <? d) else Some false in
        if future then Some false else
        if exp <? iat then Some false else
        let? d := (exp - iat)%i64 in Some (negb (JWT_TTL_SECONDS <? d))
    end in
  if negb iat_ok then Some false else
  match nbf with
  | None => Some true
  | Some nbf =>
      let? future := if now <? nbf then let? d := (nbf - now)%i64 in Some (JWT_CLOCK_SKEW_SECONDS <? d) else Some false in
      if future then Some false else Some (negb (exp <? nbf))
  end.

(** The conditions on the claims. *)
Definition claims_ok (claims kid expectedAudience : list Z) (now : Z) : M bool :=
  let~ iss := jsonFindString claims (str "iss") in
  let~ sub := jsonFindString claims (str "sub") in
  if negb (bool_decide (iss = Some JWT_ISSUER)) then retM false else
  let~ expectSub := asprint (zlen JWT_SUBJECT_PREFIX + zlen kid + 1) (Some (JWT_SUBJECT_PREFIX ++ kid)) in
  match expectSub with
  | None => retM false
  | Some expectSub =>
      if negb (bool_decide (sub = Some expectSub)) then retM false else
      let* matches := jsonAudienceMatches claims expectedAudience in
      if negb matches then retM false else
      let* exp := lift (jsonFindLong claims (str "exp")) in
      match exp with
      | None => retM false
      | Some exp =>
          let* iat := lift (jsonFindOptionalLong claims (str "iat")) in
          match iat with
          | None => retM false
          | Some iat =>
              let* nbf := lift (jsonFindOptionalLong claims (str "nbf")) in
              match nbf with
              | None => retM false
              | Some nbf => lift (times_ok now exp iat nbf)
              end
          end
      end
  end.

Section bearer.
Context (l : locals).

(** The signature [sigStr] over [message], the first bytes of [jwt]. *)
Definition signature_ok (sigStr jwt : list Z) (message_len : Z) (pub : list Z) : M bool :=
  let~ z := dup_name sigStr in
  match z with
  | None => retM false
  | Some z =>
      let~ sig := doltliteBase64UrlDecode z in
      match sig with
      | None => retM false
      | Some sig =>
          if negb (zlen sig =? DOLTLITE_SIG_LEN) then retM false else
          let* v := lift (ed25519_verify (l_hash l) (l_h l) (l_checker l) (l_A l) sig (Some jwt) message_len pub) in
          retM (v =? 1)
      end
  end.

(** From the two JSON texts on; the name of the key is handed out. *)
Definition verify_parts (hdr claims dot2 jwt expectedAudience : list Z) (authKeysDir : option (list Z)) (now : Z)
  : M (option (list Z)) :=
  let~ alg := jsonFindString hdr (str "alg") in
  let~ ver := jsonFindString hdr (str "dolt_token_version") in
  let* kid' := jsonFindString hdr (str "kid") in
  let* ok :=
    (if negb (bool_decide (alg = Some (str "EdDSA"))) then retM false else
     if negb (bool_decide (ver = Some JWT_TOKEN_VERSION)) then retM false else
     match kid' with
     | None => retM false
     | Some kid =>
         let* pub := doltliteCredsLoadPubKey l authKeysDir kid in
         match pub with
         | None => retM false
         | Some pub =>
             let* ok := signature_ok (dot2 +p 1) jwt (zlen jwt - zlen dot2) pub in
             if ok then claims_ok claims kid expectedAudience now else retM false
         end
     end) in
  if ok then retM kid' else let* _ := sqlite3_free kid' in retM None.

Definition doltliteCredsVerifyBearer (authValue expectedAudience : option (list Z)) (authKeysDir : option (list Z))
    (now : Z) : M (option (list Z)) :=
  match authValue, expectedAudience with
  | Some authValue, Some ((_ :: _) as expectedAudience) =>
      if now <? 0 then retM None else
      let jwt := bearer_jwt authValue in
      match strchr jwt DOT with
      | None => retM None
      | Some dot1 =>
          match strchr (dot1 +p 1) DOT with
          | None => retM None
          | Some dot2 =>
              let~ hdr := decodeSegZ (span jwt dot1) in
              let~ claims := decodeSegZ (span (dot1 +p 1) dot2) in
              match hdr, claims with
              | Some hdr, Some claims => verify_parts hdr claims dot2 jwt expectedAudience authKeysDir now
              | _, _ => retM None
              end
          end
      end
  | _, _ => retM None
  end.
End bearer.
