(* ===== verification/CredsConfig.v ===== *)
(** Which key to use, [remote/doltlite_creds.c] from [credsExistingPath] on: the
    names of keys, the configuration file of the credential directory, and
    the selection of a key for a remote. *)
From S2P Require Import Prelude CInt Ge Ed25519 CString World Radix Json Creds CredsFile.

(** * Settings *)
Record CredsSetting : Type := Setting { s_key : option (list Z); s_value : option (list Z) }.

Fixpoint credsSettingsFree (p : list CredsSetting) : M unit :=
  match p with
  | [] => retM ()
  | s :: p =>
      let* _ := sqlite3_free (s_key s) in
      let* _ := sqlite3_free (s_value s) in
      let* _ := sqlite3_free (Some s) in
      credsSettingsFree p
  end.

(** [fgets] into [n + 1] bytes: the characters it takes from the file, and the rest. *)
Fixpoint fgets (n : nat) (rest : list Z) : list Z * list Z :=
  match n, rest with
  | O, _ | _, [] => ([], rest)
  | S n, c :: rest => if c =? LF then ([c], rest) else let (line, rest) := fgets n rest in (c :: line, rest)
  end.

(** [while( (c = fgetc(f)) != EOF && c != '\n' ) {}] *)
Fixpoint skip_line (rest : list Z) : list Z :=
  match rest with
  | [] => []
  | c :: rest => if c =? LF then rest else skip_line rest
  end.

Definition SETTINGS_LINE : nat := 1024.

(** [if( n && line[n-1] == c ) line[--n] = 0]; [None] when it is not *)
Definition chop (line : list Z) (c : Z) : option (list Z) :=
  match reverse line with
  | x :: line' => if x =? c then Some (reverse line') else None
  | [] => None
  end.

(** The text of a line, [None] when it is bad, and what is left to read. *)
Definition settings_text (chunk rest : list Z) : option (list Z) * list Z :=
  let line := cstr chunk in
  let feof := (length chunk <? SETTINGS_LINE - 1)%nat && negb (bool_decide (LF ∈ chunk)) in
  match chop line LF with
  | Some line => (Some (default line (chop line CR)), rest)
  | None => if negb feof then (None, skip_line rest) else (Some (default line (chop line CR)), rest)
  end.

Definition known_key (key : list Z) : bool := streq key (str "user.creds") || strneq key (str "remote.") 7.
(** The key and the value of a line; [None] when it is bad. *)
Definition settings_pair (line : list Z) (before : list (list Z)) : option (list Z * list Z) :=
  match strchr line EQUALS with
  | None => None
  | Some eq =>
      let key := span line eq in
      let value := eq +p 1 in
      if bool_decide (key = []) then None else
      if known_key key then
        if negb (streq key (str "user.creds")) && negb (credsKidValid (Some (key +p 7))) then None else
        if negb (streq value (str "anonymous")) && negb (credsKidValid (Some value)) then None else
        if bool_decide (key ∈ before) then None else Some (key, value)
      else Some (key, value)
  end.

Definition sizeof_CredsSetting : Z := 24.
(** The [while] loop of [credsSettingsRead]; [None] is the label [bad]. *)
Fixpoint settings_loop (fuel : nat) (rest : list Z) (out : list CredsSetting) (repair : bool) : M (option (list CredsSetting)) :=
  match fuel with
  | O => undefined
  | S fuel =>
      let bad (out : list CredsSetting) := let* _ := credsSettingsFree out in retM None in
      let* c := next in
      if refused c then bad out else
      match rest with
      | [] => retM (Some out)
      | _ :: _ =>
          let (chunk, rest) := fgets (SETTINGS_LINE - 1) rest in
          let (line, rest) := settings_text chunk rest in
          match line with
          | Some [] => settings_loop fuel rest out repair
          | _ =>
              match (let? line := line in settings_pair line (omap s_key out)) with
              | None => if repair then settings_loop fuel rest out repair else bad out
              | Some (key, value) =>
                  let* p := sqlite3_malloc sizeof_CredsSetting in
                  match p with
                  | None => bad out
                  | Some _ =>
                      let* key := dlStrDup (Some key) in
                      let* value := dlStrDup (Some value) in
                      let out := out ++ [Setting key value] in
                      match key, value with
                      | Some _, Some _ => settings_loop fuel rest out repair
                      | _, _ => bad out
                      end
                  end
              end
          end
      end
  end.

(** [None] is a result other than 0. *)
Definition credsSettingsRead (path_ : path) (repair : bool) : M (option (list CredsSetting)) :=
  let* f := fopen_rb path_ in
  match f with
  | inl ENOENT => retM (Some [])
  | inl _ => retM None
  | inr f => let* b := contents f in settings_loop (S (length b)) b [] repair
  end.

Definition config_path (dir suffix : list Z) : path := dir ++ str "/config" ++ suffix.
Definition credsConfigPath (dir suffix : list Z) : M (option (list Z)) :=
  asprint (zlen dir + zlen suffix + 9) (Some (config_path dir suffix)).

(** * Changing a setting *)
Definition setting_is (key : list Z) (s : CredsSetting) : bool := bool_decide (s_key s = Some key).

(** [sqlite3_free(p->value); p->value = value ? dlStrDup(value) : NULL] for the
    first setting called [key]: the settings, and whether memory ran out. *)
Fixpoint set_value (settings : list CredsSetting) (key : list Z) (value : option (list Z)) : M (list CredsSetting * bool) :=
  match settings with
  | [] => undefined
  | s :: p =>
      if setting_is key s then
        let* _ := sqlite3_free (s_value s) in
        let* v := dlStrDup value in
        retM (Setting (s_key s) v :: p, bool_decide (is_Some value) && negb (bool_decide (is_Some v)))
      else
        let* (p, oom) := set_value p key value in
        retM (s :: p, oom)
  end.

Definition setting_text (s : CredsSetting) : list Z :=
  match s_key s, s_value s with
  | Some key, Some value => key ++ EQUALS :: value ++ [LF]
  | _, _ => []
  end.

(** [fprintf] of every setting that has a value *)
Fixpoint print_settings (f : nat) (settings : list CredsSetting) : M bool :=
  match settings with
  | [] => retM true
  | s :: p =>
      match s_value s with
      | None => print_settings f p
      | Some _ =>
          let* c := next in
          if refused c then retM false else
          let* _ := append f (setting_text s) in
          print_settings f p
      end
  end.

(** From the temporary file on. *)
Definition config_write (tmp path_ : path) (settings : list CredsSetting) : M Z :=
  let* fd := open_create tmp true in
  match fd with
  | None => retM 1
  | Some fd =>
      let* ok := succeeds in
      if negb ok then retM 1 else
      let* ok := print_settings fd settings in
      if negb ok then retM 1 else
      let* ok := succeeds in
      if negb ok then retM 1 else
      let* e := fsync fd in
      if bool_decide (is_Some e) then retM 1 else
      let* ok := succeeds in
      if negb ok then retM 1 else
      let* ok := rename tmp path_ in
      retM (if ok then 0 else 1)
  end.

(** The settings with the value, [inr]; or the settings and the result at [done]. *)
Definition config_change (settings : list CredsSetting) (key : list Z) (value : option (list Z)) (onlyIfMissing : bool)
  : M (list CredsSetting * option Z) :=
  let found := existsb (setting_is key) settings in
  if found && onlyIfMissing then retM (settings, Some 0) else
  let* (settings, failed) :=
    if found then retM (settings, false)
    else
      let* p := sqlite3_malloc sizeof_CredsSetting in
      match p with
      | None => retM (settings, true)
      | Some _ =>
          let* k := dlStrDup (Some key) in
          retM (Setting k None :: settings, negb (bool_decide (is_Some k)))
      end in
  if failed : bool then retM (settings, Some 1) else
  let* (settings, oom) := set_value settings key value in
  retM (settings, if oom : bool then Some 1 else None).

(** With the lock file open. *)
Definition config_locked (path_ tmp : path) (key : list Z) (value : option (list Z)) (onlyIfMissing : bool) : M Z :=
  let* e := retrying flock in
  if bool_decide (is_Some e) then retM 1 else
  let* settings := credsSettingsRead path_ true in
  match settings with
  | None => retM 1
  | Some settings =>
      let* (settings, rc) := config_change settings key value onlyIfMissing in
      let* rc := match rc with Some rc => retM rc | None => config_write tmp path_ settings end in
      let* _ := credsSettingsFree settings in
      retM rc
  end.

Definition doltliteCredsConfigSet (dir : option (list Z)) (key : list Z) (value : option (list Z)) (onlyIfMissing : bool) : M Z :=
  if negb (streq key (str "user.creds")) && (negb (strneq key (str "remote.") 7) || negb (credsKidValid (Some (key +p 7)))) then retM 1 else
  if match value with Some v => negb (streq v (str "anonymous")) && negb (credsKidValid (Some v)) | None => false end then retM 1 else
  with_dir dir (fun dir =>
    match dir with
    | None => retM 1
    | Some dir =>
        let* ok := mkdirp dir in
        if negb ok then retM 1 else
        let~ path_ := credsConfigPath dir [] in
        let~ tmp := credsConfigPath dir (str ".tmp") in
        let~ lockPath := credsConfigPath dir (str ".lock") in
        match path_, tmp, lockPath with
        | Some path_, Some tmp, Some lockPath =>
            let* lock := open_create lockPath false in
            match lock with
            | None => retM 1
            | Some _ => config_locked path_ tmp key value onlyIfMissing
            end
        | _, _, _ => retM 1
        end
    end).

(** * Names of remotes and keys *)
Definition lower (c : Z) : Z := if (65 <=? c) && (c <=? 90) then c + 32 else c.
Fixpoint drop_slashes (r : list Z) : list Z :=
  match r with
  | c :: r' => if c =? SLASH then drop_slashes r' else r
  | [] => []
  end.

(** The URL as its key is made from: scheme and host in lower case, no port
    443, no slash at the end.  [None] when it has no scheme. *)
Definition canonical_url (url : list Z) : option (list Z) :=
  match strstr url (str "://") with
  | None => None
  | Some p =>
      let end_ := default [] (strchr (p +p 3) SLASH) in
      let host := lower <$> span url end_ in
      let n := (length host - 4)%nat in
      let host :=
        if (4 <=? zlen host) && strneq (host ++ end_) (str "https://") 8 && streq (drop n host) (str ":443") then take n host
        else host in
      Some (reverse (drop_slashes (reverse (host ++ end_))))
  end.

Section names.
Context (l : locals).

Definition doltliteCredsRemoteKey (url : option (list Z)) : M (option (list Z)) :=
  let* canonical := dlStrDup url in
  match canonical with
  | None => retM None
  | Some url =>
      match canonical_url url with
      | None => let* _ := sqlite3_free canonical in retM None
      | Some url =>
          let* digest := lift (doltliteSha512_224 l url) in
          let* _ := sqlite3_free canonical in
          let~ hash := doltliteBase32Encode digest in
          match hash with
          | None => retM None
          | Some hash => asprint (zlen hash + 8) (Some (str "remote." ++ hash))
          end
      end
  end.

(** The loop of [credsResolveKid]; [None] is the result NULL. *)
Fixpoint resolve_loop (name : list Z) (bits nbit : Z) (pub : list Z) : option (list Z * Z) :=
  match name with
  | [] => Some (pub, bits)
  | c :: name =>
      match strchr B32_ALPHABET c with
      | None => None
      | Some p =>
          let bits := Z.lor (u32 (Z.shiftl bits 5)) (zlen B32_ALPHABET - zlen p) in
          let nbit := nbit + 5 in
          if 8 <=? nbit then
            let nbit := nbit - 8 in
            if 32 <=? zlen pub then None
            else resolve_loop name bits nbit (pub ++ [Z.land (Z.shiftr bits nbit) 255])
          else resolve_loop name bits nbit pub
      end
  end.

Definition credsResolveKid (name : option (list Z)) : M (option (list Z)) :=
  match name with
  | None => retM None
  | Some n =>
      if credsKidValid name then dlStrDup name else
      if negb (zlen n =? 52) then retM None else
      match resolve_loop n 0 0 [] with
      | None => retM None
      | Some (pub, bits) =>
          if negb (zlen pub =? 32) || negb (Z.land bits 15 =? 0) then retM None else
          let* digest := lift (doltliteSha512_224 l pub) in
          doltliteBase32Encode digest
      end
  end.

Definition doltliteCredsLoadNamed (dir name : option (list Z)) : M (option DoltliteCreds) :=
  let~ kid := credsResolveKid name in
  match kid with
  | None => retM None
  | Some kid => doltliteCredsLoad l dir kid
  end.

(** The path, and the directory when it is the caller's to free. *)
Definition credsExistingPath (dir kid : option (list Z)) : M (option (list Z) * option (list Z)) :=
  match kid with
  | None => retM (None, None)
  | Some _ =>
      let* (dir, owned) :=
        match dir with
        | Some _ => retM (dir, None)
        | None => let* owned := doltliteCredsDir in retM (owned, owned)
        end in
      match dir with
      | None => retM (None, None)
      | Some dir =>
          let* canonical := credsResolveKid kid in
          let* path_ := match canonical with Some c => credsFilePath dir c | None => retM None end in
          let* _ := sqlite3_free canonical in
          match path_ with
          | None => let* _ := sqlite3_free owned in retM (None, None)
          | Some _ => retM (path_, owned)
          end
      end
  end.

Definition doltliteCredsExists (dir kid : option (list Z)) : M Z :=
  let* (path_, owned) := credsExistingPath dir kid in
  match path_ with
  | None => retM 1
  | Some p =>
      let* f := opens p in
      let* _ := sqlite3_free path_ in
      let* _ := sqlite3_free owned in
      retM (if f then 0 else 1)
  end.

Definition doltliteCredsRemove (dir kid : option (list Z)) : M Z :=
  let* (path_, owned) := credsExistingPath dir kid in
  match path_ with
  | None => retM 1
  | Some p =>
      let* ok := remove p in
      let* _ := sqlite3_free path_ in
      let* _ := sqlite3_free owned in
      retM (if ok then 0 else 1)
  end.

(** * Selecting a key *)
(** Where the selection stands: a name with its reason, none yet, the label
    [done] with an error message, the label [oom]. *)
Inductive selection : Type :=
| Selected (name why : list Z)
| Unselected
| Report (error : option (list Z))
| OutOfMemory.

Definition select (s : option (list Z)) (why : list Z) : M selection :=
  let* z := dlStrDup s in
  retM (match z with Some z => Selected z why | None => OutOfMemory end).

(** The connection and the environment. *)
Definition select_override (override : option (list Z)) : M selection :=
  match override with
  | Some (_ :: _) => select override (str "connection")
  | _ =>
      let* w := getW in
      match w_env w (str "DOLTLITE_CREDS_KID") with
      | Some ((_ :: _) as env) => select (Some env) (str "DOLTLITE_CREDS_KID")
      | _ => retM Unselected
      end
  end.

(** The first setting called [key]. *)
Definition find_setting (settings : list CredsSetting) (key : list Z) : option CredsSetting :=
  head (filter (fun s => setting_is key s) settings).

(** The settings for [url] and for the user; the settings and the key are freed at [done]. *)
Definition select_settings (settings : list CredsSetting) (url : option (list Z)) : M (selection * option (list Z)) :=
  let user_creds :=
    match find_setting settings (str "user.creds") with
    | Some s => select (s_value s) (str "default")
    | None => retM Unselected
    end in
  match url with
  | None => let* s := user_creds in retM (s, None)
  | Some _ =>
      let* key := doltliteCredsRemoteKey url in
      match key with
      | None => retM (OutOfMemory, None)
      | Some k =>
          let* s := match find_setting settings k with Some s => select (s_value s) (str "remote") | None => user_creds end in
          retM (s, key)
      end
  end.

Definition unreadable_text (path_ : list Z) : list Z :=
  str "cannot read credential configuration " ++ path_ ++ str "; dolt_creds_use() rewrites it".

(** The configuration file; its settings and the key of the remote. *)
Definition select_config (dir url : option (list Z)) : M (selection * list CredsSetting * option (list Z)) :=
  let* read :=
    with_dir dir (fun dir =>
      let~ path_ := match dir with Some dir => credsConfigPath dir [] | None => retM None end in
      match path_ with
      | None => retM (inl OutOfMemory)
      | Some path_ =>
          let* settings := credsSettingsRead path_ false in
          match settings with
          | Some settings => retM (inr settings)
          | None =>
              let* message := snprintf 1200 1200 (unreadable_text path_) in
              let* error := dlStrDup (Some message) in
              retM (inl (match error with Some _ => Report error | None => OutOfMemory end))
          end
      end) in
  match read with
  | inl s => retM (s, [], None)
  | inr settings => let* (s, key) := select_settings settings url in retM (s, settings, key)
  end.

(** The only key of the directory; the list is freed at [done]. *)
Definition select_single (dir : option (list Z)) : M (option selection * option Z * list (list Z)) :=
  let* found := doltliteCredsList dir in
  match found with
  | None =>
      let* error := dlStrDup (Some (str "cannot read credential directory")) in
      retM (Some (Report error), None, [])
  | Some (arr, []) => retM (None, arr, [])
  | Some (arr, [kid]) =>
      let* s := select (Some kid) (str "single key") in
      retM (Some s, arr, [kid])
  | Some (arr, kids) =>
      let* error := dlStrDup (Some (str "multiple credentials found; select one with dolt_creds_use()")) in
      retM (Some (Report error), arr, kids)
  end.

Definition DOLTLITE_CREDS_ERROR : Z := -1.
Definition DOLTLITE_CREDS_NONE : Z := 0.
Definition DOLTLITE_CREDS_SELECTED : Z := 1.
Definition DOLTLITE_CREDS_ANONYMOUS : Z := 2.

Record resolution : Type := Resolution {
  r_rc : Z;
  r_out : option DoltliteCreds;
  r_source : option (list Z);
  r_error : option (list Z)
}.

Definition invalid_text (why selected : list Z) : list Z :=
  why ++ str " selected credential is missing, unreadable or invalid: " ++ take 52 selected ++
  str "; use dolt_creds_ls() and dolt_creds_use()".

(** The label [oom] with what [*out] holds. *)
Definition resolve_oom (out : option DoltliteCreds) (source error : option (list Z)) : M resolution :=
  let* _ := sqlite3_free error in
  let* error := dlStrDup (Some (str "out of memory resolving credentials")) in
  retM (Resolution DOLTLITE_CREDS_ERROR out source error).

(** From a selected name on; [source] tells whether the caller asks for the reason. *)
Definition resolve_selected (dir : option (list Z)) (selected why : list Z) (source : bool) : M resolution :=
  let* (rc, out, error) :=
    if streq selected (str "anonymous") then retM (DOLTLITE_CREDS_ANONYMOUS, None, None)
    else
      let* out := doltliteCredsLoadNamed dir (Some selected) in
      match out with
      | Some _ => retM (DOLTLITE_CREDS_SELECTED, out, None)
      | None =>
          let* message := snprintf 256 256 (invalid_text why selected) in
          let* error := dlStrDup (Some message) in
          retM (DOLTLITE_CREDS_ERROR, None, error)
      end in
  if source then
    let* z := dlStrDup (Some why) in
    match z with
    | None => resolve_oom out None error
    | Some _ => retM (Resolution rc out z error)
    end
  else retM (Resolution rc out None error).

Definition resolve_end (dir : option (list Z)) (s : selection) (source : bool) : M resolution :=
  match s with
  | Selected name why =>
      let* r := resolve_selected dir name why source in
      let* _ := sqlite3_free (Some name) in
      retM r
  | Unselected => retM (Resolution DOLTLITE_CREDS_NONE None None None)
  | Report error => retM (Resolution DOLTLITE_CREDS_ERROR None None error)
  | OutOfMemory => resolve_oom None None None
  end.

Definition doltliteCredsResolve (dir override url : option (list Z)) (source : bool) : M resolution :=
  let* s := select_override override in
  let* (s, settings, key) := match s with Unselected => select_config dir url | _ => retM (s, [], None) end in
  let* (s, arr, kids) :=
    match s with
    | Unselected => let* (s, arr, kids) := select_single dir in retM (default Unselected s, arr, kids)
    | _ => retM (s, None, [])
    end in
  let* r := resolve_end dir s source in
  let* _ := credsSettingsFree settings in
  let* _ := sqlite3_free key in
  let* _ := doltliteCredsFreeList arr kids in
  retM r.

Definition doltliteCredsLoadDefault (dir : option (list Z)) : M (Z * option DoltliteCreds) :=
  let* r := doltliteCredsResolve dir None None false in
  let* _ := sqlite3_free (r_error r) in
  retM (if r_rc r =? DOLTLITE_CREDS_SELECTED then 0 else 1, r_out r).
End names.
