(* ===== verification/Steady.v ===== *)
(** When no call fails from here on, the credential code does not stop in the
    middle: with [wpM], it returns, in a world where still no call fails. *)
From S2P Require Import Prelude CInt Ge Ed25519 CString World Radix Json Creds CredsFile Bearer CredsConfig.

Definition steady {A} (m : M A) : Prop :=
  forall w, calm w -> match m w with Ret _ w' => calm w' | Crash _ => False | Undefined => True end.

(** What [wpM] promises then. *)
Lemma steady_returns {A} (m : M A) Q E w : steady m -> calm w -> wpM m Q E w -> exists a w', m w = Ret a w' /\ calm w' /\ Q a w'.
Proof. intros Hm Hw. specialize (Hm w Hw). unfold wpM. destruct (m w) as [a w'| |]; [|done|done]. intros HQ. by exists a, w'. Qed.

Lemma steady_ret {A} (a : A) : steady (retM a).
Proof. by intros w Hw. Qed.
Lemma steady_undefined {A} : steady (undefined : M A).
Proof. by intros w Hw. Qed.
Lemma steady_bind {A B} (m : M A) (k : A -> M B) : steady m -> (forall a, steady (k a)) -> steady (bindM m k).
Proof. intros Hm Hk w Hw. unfold bindM. specialize (Hm w Hw). destruct (m w); [|done|done]. by apply Hk. Qed.
Lemma steady_lift {A} (m : option A) : steady (lift m).
Proof. by destruct m; intros w Hw. Qed.
Lemma steady_getW : steady getW.
Proof. by intros w Hw. Qed.
Lemma steady_modW f : (forall w, w_choices (f w) = w_choices w) -> steady (modW f).
Proof. intros Hf w Hw. cbn. unfold calm. by rewrite Hf. Qed.
Lemma steady_next : steady next.
Proof. intros w Hw. unfold next. unfold calm in Hw. by rewrite Hw. Qed.
Lemma steady_free {A} (x : option A) : steady (sqlite3_free x).
Proof. destruct x; [by apply steady_modW|apply steady_ret]. Qed.
Lemma steady_owning {A B} (m : M (option A)) (k : option A -> M B) : steady m -> (forall a, steady (k a)) -> steady (owning m k).
Proof.
  intros Hm Hk. apply steady_bind; [done|]. intros x. apply steady_bind; [apply Hk|]. intros r. apply steady_bind; [apply steady_free|].
  intros _. apply steady_ret.
Qed.

Lemma steady_retry fuel m : steady m -> steady (retry fuel m).
Proof.
  intros H. induction fuel as [|fuel IH]; cbn [retry]; [apply steady_undefined|]. apply steady_bind; [done|].
  intros [[]|]; first [exact IH|apply steady_ret].
Qed.
Lemma steady_retrying m : steady m -> steady (retrying m).
Proof. intros H. apply steady_bind; [apply steady_getW|]. intros w. by apply steady_retry. Qed.

Create HintDb steady.
#[export] Hint Resolve steady_ret steady_undefined steady_lift steady_getW steady_next steady_free : steady.

(** Follows the text of a computation. *)
Ltac steady :=
  intros; repeat first
    [ solve [auto 1 with steady nocore]
    | match goal with |- steady (retrying _) => apply steady_retrying end
    | match goal with |- steady (owning _ _) => apply steady_owning; [|intros ?] end
    | match goal with |- steady (bindM _ _) => apply steady_bind; [|intros ?] end
    | solve [apply steady_modW; intros; reflexivity]
    | progress (cbv beta zeta)
    | match goal with |- steady (match ?x with _ => _ end) => destruct x end
    | match goal with |- steady (let (_, _) := ?x in _) => destruct x end ].

(** * The system *)
Lemma steady_malloc n : steady (sqlite3_malloc n).
Proof. unfold sqlite3_malloc. steady. Qed.
#[export] Hint Resolve steady_malloc : steady.
Lemma steady_realloc {A} (p : option A) n : steady (sqlite3_realloc p n).
Proof. unfold sqlite3_realloc. steady. Qed.
Lemma steady_fill cap s : steady (fill cap s).
Proof. unfold fill. steady. Qed.
Lemma steady_snprintf cap n s : steady (snprintf cap n s).
Proof. unfold snprintf. steady. Qed.
Lemma steady_contents i : steady (contents i).
Proof. unfold contents. steady. Qed.
#[export] Hint Resolve steady_realloc steady_fill steady_snprintf steady_contents : steady.
Lemma steady_fopen p : steady (fopen_rb p).
Proof. unfold fopen_rb. steady. Qed.
Lemma steady_opens p : steady (opens p).
Proof. unfold opens. steady. Qed.
Lemma steady_succeeds : steady succeeds.
Proof. unfold succeeds. steady. Qed.
Lemma steady_ftell i : steady (ftell_end i).
Proof. unfold ftell_end. steady. Qed.
Lemma steady_fread i n : steady (fread i n).
Proof. unfold fread. steady. Qed.
Lemma steady_create p : steady (create p).
Proof. unfold create. steady. Qed.
Lemma steady_append i b : steady (append i b).
Proof. unfold append. steady. Qed.
Lemma steady_attempt m : steady m -> steady (attempt m).
Proof. intros H. unfold attempt. steady. Qed.
#[export] Hint Resolve steady_fopen steady_succeeds steady_ftell steady_fread steady_create steady_append : steady.
Lemma steady_mkstemp p : steady (mkstemp p).
Proof. unfold mkstemp. steady. Qed.
Lemma steady_write i b : steady (write i b).
Proof. unfold write. steady. Qed.
Lemma steady_open_create p t : steady (open_create p t).
Proof. unfold open_create. steady. Qed.
Lemma steady_fsync i : steady (fsync i).
Proof. apply steady_attempt. steady. Qed.
Lemma steady_fsync_dir d : steady (fsync_dir d).
Proof. apply steady_attempt. steady. Qed.
Lemma steady_flock : steady flock.
Proof. apply steady_attempt. steady. Qed.
Lemma steady_link a b : steady (link a b).
Proof. unfold link. steady. Qed.
Lemma steady_unlink a : steady (unlink a).
Proof. unfold unlink. steady. Qed.
Lemma steady_rename a b : steady (rename a b).
Proof. unfold rename. steady. Qed.
Lemma steady_mkdir d : steady (mkdir d).
Proof. unfold mkdir. steady. Qed.
Lemma steady_opendir d : steady (opendir d).
Proof. unfold opendir. steady. Qed.
#[export] Hint Resolve steady_mkstemp steady_write steady_open_create steady_fsync steady_fsync_dir steady_flock
  steady_link steady_unlink steady_rename steady_mkdir steady_opendir : steady.

(** * Text and JSON *)
Lemma steady_base32 b : steady (doltliteBase32Encode b).
Proof. unfold doltliteBase32Encode. steady. Qed.
Lemma steady_base64 b : steady (doltliteBase64UrlEncode b).
Proof. unfold doltliteBase64UrlEncode. steady. Qed.
Lemma steady_decode64 b : steady (doltliteBase64UrlDecode b).
Proof. unfold doltliteBase64UrlDecode. steady. Qed.
Lemma steady_quoted p : steady (jsonDupQuoted p).
Proof. unfold jsonDupQuoted. steady. Qed.
#[export] Hint Resolve steady_base32 steady_base64 steady_decode64 steady_quoted : steady.
Lemma steady_find_string json key : steady (jsonFindString json key).
Proof. unfold jsonFindString. steady. Qed.
Lemma steady_string_is p e : steady (string_is p e).
Proof. unfold string_is. steady. Qed.
#[export] Hint Resolve steady_find_string steady_string_is : steady.
Lemma steady_audience_loop fuel p e : steady (audience_loop fuel p e).
Proof. revert p. induction fuel as [|fuel IH]; intros p; cbn [audience_loop]; steady. Qed.
#[export] Hint Resolve steady_audience_loop : steady.
Lemma steady_audience json e : steady (jsonAudienceMatches json e).
Proof. unfold jsonAudienceMatches. steady. Qed.
Lemma steady_seg s : steady (decodeSegZ s).
Proof. unfold decodeSegZ. steady. Qed.
Lemma steady_strdup s : steady (dlStrDup s).
Proof. unfold dlStrDup. steady. Qed.
Lemma steady_asprint n s : steady (asprint n s).
Proof. unfold asprint. steady. Qed.
Lemma steady_raw b : steady (b64urlRaw b).
Proof. unfold b64urlRaw. steady. Qed.
#[export] Hint Resolve steady_audience steady_seg steady_strdup steady_asprint steady_raw : steady.

(** * Keys *)
Section keys.
Context (l : locals) (junk_sig : list Z).

Lemma steady_from_seed seed : steady (doltliteCredsFromSeed l seed).
Proof. unfold doltliteCredsFromSeed. steady. Qed.
Lemma steady_kid c : steady (doltliteCredsKid l c).
Proof. unfold doltliteCredsKid. steady. Qed.
Lemma steady_to_jwk c : steady (doltliteCredsToJwk c).
Proof. unfold doltliteCredsToJwk. steady. Qed.
Lemma steady_to_public c : steady (doltliteCredsToPublicJwk c).
Proof. unfold doltliteCredsToPublicJwk. steady. Qed.
Lemma steady_creds_free c : steady (doltliteCredsFree c).
Proof. apply steady_free. Qed.
#[local] Hint Resolve steady_from_seed steady_kid steady_to_jwk steady_to_public steady_creds_free : steady.
Lemma steady_sign_token c h cl : steady (sign_token l junk_sig c h cl).
Proof. unfold sign_token. steady. Qed.
#[local] Hint Resolve steady_sign_token : steady.
Lemma steady_token c a iat : steady (doltliteCredsBearerTokenAt l junk_sig c a iat).
Proof. unfold doltliteCredsBearerTokenAt. steady. Qed.
Lemma steady_numbers d x : steady (creds_of_numbers l d x).
Proof. unfold creds_of_numbers. steady. Qed.
#[local] Hint Resolve steady_numbers : steady.
Lemma steady_from_jwk json : steady (doltliteCredsFromJwk l json).
Proof. unfold doltliteCredsFromJwk. steady. Qed.
End keys.
#[export] Hint Resolve steady_from_seed steady_kid steady_to_jwk steady_to_public steady_creds_free steady_token steady_from_jwk : steady.

(** * Files *)
Lemma steady_dir : steady doltliteCredsDir.
Proof. unfold doltliteCredsDir. steady. Qed.
#[export] Hint Resolve steady_dir : steady.
Lemma steady_with_dir {A} dir (k : option (list Z) -> M A) : (forall d, steady (k d)) -> steady (with_dir dir k).
Proof. intros Hk. destruct dir; cbn [with_dir]; steady. Qed.
Lemma steady_mkdir_ok d : steady (mkdir_ok d).
Proof. unfold mkdir_ok. steady. Qed.
#[export] Hint Resolve steady_mkdir_ok : steady.
Lemma steady_mkdirp_loop pre rest : steady (mkdirp_loop pre rest).
Proof. revert pre. induction rest as [|c rest IH]; intros pre; cbn [mkdirp_loop]; steady. Qed.
#[export] Hint Resolve steady_mkdirp_loop : steady.
Lemma steady_mkdirp d : steady (mkdirp d).
Proof. unfold mkdirp. steady. Qed.
Lemma steady_file_path d k : steady (credsFilePath d k).
Proof. unfold credsFilePath. steady. Qed.
Lemma steady_open_dir d : steady (open_dir d).
Proof. unfold open_dir. steady. Qed.
#[export] Hint Resolve steady_mkdirp steady_file_path steady_open_dir : steady.
Lemma steady_creds_fsync d : steady (credsFsyncDir d).
Proof. unfold credsFsyncDir. steady. Qed.
Lemma steady_write_loop fuel fd data : steady (write_loop fuel fd data).
Proof. revert data. induction fuel as [|fuel IH]; intros [|c data]; cbn [write_loop]; steady. Qed.
#[export] Hint Resolve steady_creds_fsync steady_write_loop : steady.
Lemma steady_replace_body d p t fd data x : steady (replace_body d p t fd data x).
Proof. unfold replace_body. steady. Qed.
#[export] Hint Resolve steady_replace_body : steady.
Lemma steady_replace d p data x : steady (credsReplaceDurable d p data x).
Proof. unfold credsReplaceDurable. steady. Qed.
Lemma steady_slurp p : steady (slurp p).
Proof. unfold slurp. steady. Qed.
#[export] Hint Resolve steady_replace steady_slurp : steady.

Section files.
Context (l : locals).

Lemma steady_save c dir x : steady (credsSaveJwk l c dir x).
Proof. apply steady_with_dir. steady. Qed.
Lemma steady_load_json json kid : steady (load_json l json kid).
Proof. unfold load_json. steady. Qed.
#[local] Hint Resolve steady_load_json : steady.
Lemma steady_load dir kid : steady (doltliteCredsLoad l dir kid).
Proof. apply steady_with_dir. steady. Qed.
Lemma steady_public json kid : steady (public_of_json l json kid).
Proof. unfold public_of_json. steady. Qed.
#[local] Hint Resolve steady_public : steady.
Lemma steady_load_public dir kid : steady (doltliteCredsLoadPubKey l dir kid).
Proof. apply steady_with_dir. steady. Qed.

(** * Tokens *)
Lemma steady_dup_name s : steady (dup_name s).
Proof. unfold dup_name. steady. Qed.
#[local] Hint Resolve steady_load_public steady_dup_name : steady.
Lemma steady_claims c k a now : steady (claims_ok c k a now).
Proof. unfold claims_ok. steady. Qed.
Lemma steady_signature s j n p : steady (signature_ok l s j n p).
Proof. unfold signature_ok. steady. Qed.
#[local] Hint Resolve steady_claims steady_signature : steady.
Lemma steady_parts h c d j a k now : steady (verify_parts l h c d j a k now).
Proof. unfold verify_parts. steady. Qed.
#[local] Hint Resolve steady_parts : steady.
Lemma steady_verify_bearer a e k now : steady (doltliteCredsVerifyBearer l a e k now).
Proof. unfold doltliteCredsVerifyBearer. steady. Qed.
End files.
#[export] Hint Resolve steady_save steady_load steady_load_public steady_verify_bearer steady_dup_name : steady.

(** * Settings *)
Lemma steady_settings_free p : steady (credsSettingsFree p).
Proof. induction p as [|s p IH]; cbn [credsSettingsFree]; steady. Qed.
#[export] Hint Resolve steady_settings_free : steady.
Lemma steady_settings_loop fuel rest out repair : steady (settings_loop fuel rest out repair).
Proof. revert rest out. induction fuel as [|fuel IH]; intros rest out; cbn [settings_loop]; steady. Qed.
#[export] Hint Resolve steady_settings_loop : steady.
Lemma steady_settings p repair : steady (credsSettingsRead p repair).
Proof. unfold credsSettingsRead. steady. Qed.
Lemma steady_config_path dir s : steady (credsConfigPath dir s).
Proof. unfold credsConfigPath. steady. Qed.
Lemma steady_set_value settings key value : steady (set_value settings key value).
Proof. induction settings as [|s p IH]; cbn [set_value]; steady. Qed.
Lemma steady_print f settings : steady (print_settings f settings).
Proof. induction settings as [|s p IH]; cbn [print_settings]; steady. Qed.
#[export] Hint Resolve steady_settings steady_config_path steady_set_value steady_print : steady.
Lemma steady_config_write t p settings : steady (config_write t p settings).
Proof. unfold config_write. steady. Qed.
Lemma steady_config_change settings key value x : steady (config_change settings key value x).
Proof. unfold config_change. steady. Qed.
#[export] Hint Resolve steady_config_write steady_config_change : steady.
Lemma steady_config_locked p t key value x : steady (config_locked p t key value x).
Proof. unfold config_locked. steady. Qed.
#[export] Hint Resolve steady_config_locked : steady.
Lemma steady_config_set dir key value x : steady (doltliteCredsConfigSet dir key value x).
Proof.
  unfold doltliteCredsConfigSet. destruct (negb _ && _); [apply steady_ret|].
  destruct (match value with Some _ => _ | None => _ end); [apply steady_ret|]. apply steady_with_dir. steady.
Qed.
#[export] Hint Resolve steady_config_set : steady.

(** * Selecting a key *)
Lemma steady_free_each kids : steady (free_each kids).
Proof. induction kids as [|k kids IH]; cbn [free_each]; steady. Qed.
#[export] Hint Resolve steady_free_each : steady.
Lemma steady_free_list arr kids : steady (doltliteCredsFreeList arr kids).
Proof. unfold doltliteCredsFreeList. steady. Qed.
#[export] Hint Resolve steady_free_list : steady.
Lemma steady_list_loop names arr cap kids : steady (list_loop names arr cap kids).
Proof. revert arr cap kids. induction names as [|n names IH]; intros arr cap kids; cbn [list_loop]; steady. Qed.
#[export] Hint Resolve steady_list_loop : steady.
Lemma steady_list dir : steady (doltliteCredsList dir).
Proof. apply steady_with_dir. steady. Qed.
#[export] Hint Resolve steady_list : steady.

Section names.
Context (l : locals).

Lemma steady_remote_key url : steady (doltliteCredsRemoteKey l url).
Proof. unfold doltliteCredsRemoteKey. steady. Qed.
Lemma steady_resolve_kid name : steady (credsResolveKid l name).
Proof. unfold credsResolveKid. steady. Qed.
#[local] Hint Resolve steady_remote_key steady_resolve_kid : steady.
Lemma steady_load_named dir name : steady (doltliteCredsLoadNamed l dir name).
Proof. unfold doltliteCredsLoadNamed. steady. Qed.
Lemma steady_select s why : steady (select s why).
Proof. unfold select. steady. Qed.
#[local] Hint Resolve steady_load_named steady_select : steady.
Lemma steady_override o : steady (select_override o).
Proof. unfold select_override. steady. Qed.
Lemma steady_select_settings settings url : steady (select_settings l settings url).
Proof. unfold select_settings. steady. Qed.
#[local] Hint Resolve steady_override steady_select_settings : steady.
Lemma steady_select_config dir url : steady (select_config l dir url).
Proof. unfold select_config. apply steady_bind; [|steady]. apply steady_with_dir. steady. Qed.
Lemma steady_single dir : steady (select_single dir).
Proof. unfold select_single. steady. Qed.
Lemma steady_oom out source error : steady (resolve_oom out source error).
Proof. unfold resolve_oom. steady. Qed.
#[local] Hint Resolve steady_select_config steady_single steady_oom : steady.
Lemma steady_selected dir s why source : steady (resolve_selected l dir s why source).
Proof. unfold resolve_selected. steady. Qed.
#[local] Hint Resolve steady_selected : steady.
Lemma steady_end dir s source : steady (resolve_end l dir s source).
Proof. unfold resolve_end. steady. Qed.
#[local] Hint Resolve steady_end : steady.
Lemma steady_resolve dir override url source : steady (doltliteCredsResolve l dir override url source).
Proof. unfold doltliteCredsResolve. steady. Qed.
End names.
#[export] Hint Resolve steady_resolve steady_load_named : steady.
