(* ===== verification/CredsSpec.v ===== *)
(** What the credential code computes: the key pair of a seed, the name of a
    key, the text of a token and of a JSON key, with every allocation
    accounted for. *)
From S2P Require Import Prelude CInt Sha512 Sha512Spec Curve Ge GeBytes GeTable Ed25519 Ed25519Spec CString World Radix Json Creds.
#[local] Opaque digest digest_iv sha512_init sha512_update sha512_final ed25519_create_keypair ed25519_sign ed25519_verify
  point_bytes signature_of.

(** * Specification *)
Definition secret_of (seed : list Z) : list Z :=
  le_encode 32 (clamp (le_decode (take 32 (digest seed)))) ++ drop 32 (digest seed).
Definition public_of (seed : list Z) : list Z := point_bytes (le_decode (take 32 (secret_of seed)) *! base_point).
Definition creds_of (seed : list Z) : DoltliteCreds := Creds seed (public_of seed) (secret_of seed).

(** SHA-512/224 and the name of a public key. *)
Definition digest224 (m : list Z) : list Z := take 28 (digest_iv SHA512_224_IV m).
Definition kid_of (pub : list Z) : list Z := base32 (digest224 pub).

Definition signed_part (header claims : list Z) : list Z := base64_raw header ++ DOT :: base64_raw claims.
Definition token_of (seed header claims : list Z) : list Z :=
  let input := signed_part header claims in
  input ++ DOT :: base64_raw
    (signature_of (le_decode (take 32 (secret_of seed))) (take 32 (drop 32 (secret_of seed))) (public_of seed) input).
#[local] Opaque public_of secret_of digest224.

(** * Hashing *)
Lemma IV224_wf : length SHA512_224_IV = 8%nat /\ Forall is_u64 SHA512_224_IV.
Proof. split; [done|]. repeat constructor; done. Qed.

Lemma digest224_shape m : length (digest224 m) = 28%nat /\ bytes_wf (digest224 m).
Proof.
  destruct (digest_iv_shape SHA512_224_IV m IV224_wf) as [L W]. Transparent digest224. unfold digest224.
  split; [rewrite length_take; lia|by apply bytes_wf_take].
Qed.
#[local] Opaque digest224.

Section spec.
Context (l : locals) (Hl : locals_wf l).

Lemma sha512_224_spec in_ : bytes_wf in_ -> zlen in_ < 2 ^ 61 -> doltliteSha512_224 l in_ = Some (digest224 in_).
Proof using Hl.
  intros Hw Hz. destruct Hl as ([Lh Wh] & _). unfold doltliteSha512_224.
  Transparent sha512_init. unfold sha512_init. Opaque sha512_init. cbn [length_ curlen buf].
  pose proof (absorbed_init_iv SHA512_224_IV IV224_wf (l_hash l) Lh Wh) as H0.
  destruct (sha512_update_spec_iv SHA512_224_IV IV224_wf _ _ in_ (zlen in_) in_ H0 Hw) as (md & -> & H1).
  { rewrite bytes_at_Some by lia. by rewrite firstn_all2 by lia. }
  cbn [app] in H1. destruct (sha512_final_spec_iv SHA512_224_IV IV224_wf md in_ H1 Hz) as (md' & ->).
  destruct (digest_iv_shape SHA512_224_IV in_ IV224_wf) as [L _].
  Transparent digest224. unfold digest224. Opaque digest224.
  unfold DOLTLITE_KID_RAW_LEN. rewrite bytes_at_Some by (rewrite L; lia). reflexivity.
Qed.

(** * Keys *)
Lemma keypair_of seed : buffer 32 seed ->
  ed25519_create_keypair (l_hash l) (replicate 32 0) (replicate 64 0) seed = Some (public_of seed, secret_of seed) /\
  buffer 32 (public_of seed) /\ buffer 64 (secret_of seed) /\ key_pair (public_of seed) (secret_of seed).
Proof using Hl.
  intros Hs. destruct Hl as (Hh & _).
  destruct (keypair_eq (l_hash l) (replicate 32 0) (replicate 64 0) seed Hh) as (pk & sk & E & Hp & Hk & Hkp & E1 & E2);
    [by apply bufferb_spec..|done|].
  assert (sk = secret_of seed) as Esk.
  { Transparent secret_of. unfold secret_of. rewrite <- E1, <- E2, <- (take_drop 32 sk) at 1. f_equal.
    destruct Hk as [Lk Wk]. rewrite <- (le_encode_decode (take 32 sk)) at 1 by (by apply bytes_wf_take). f_equal.
    rewrite length_take. lia. }
  assert (pk = public_of seed) as Epk.
  { Transparent public_of. unfold public_of. rewrite <- Esk. destruct Hkp as (_ & _ & _ & H).
    rewrite <- H. destruct Hp as [Lp _]. by rewrite firstn_all2 by lia. }
  rewrite <- Esk, <- Epk. split_and!; assumption.
Qed.
#[local] Opaque public_of secret_of.

Lemma from_seed_tr P seed rest : buffer 32 seed -> tr P 0 (doltliteCredsFromSeed l (seed ++ rest)) 0 owned (gives P (creds_of seed)).
Proof using Hl.
  intros Hs. eapply tr_bind; [by apply malloc_tr|]. intros r [->|[-> HP]]; cbn beta iota; [|apply tr_ret; [done|by right]].
  destruct Hs as [Ls Ws]. eapply tr_lift.
  { rewrite bytes_at_Some by (unfold DOLTLITE_SEED_LEN; rewrite length_app; lia). unfold DOLTLITE_SEED_LEN.
    rewrite take_app_le, firstn_all2 by lia. reflexivity. }
  eapply tr_lift; [apply keypair_of; by split|]. apply tr_ret; [done|by left].
Qed.

Lemma length_kid_of pub : length (kid_of pub) = 45%nat.
Proof using.
  unfold kid_of, base32. rewrite length_fmap. destruct (digest224_shape pub) as [L W].
  pose proof (length_radix 5 (digest224 pub) ltac:(lia) W). lia.
Qed.

Lemma kid_tr P c : bytes_wf (c_pub c) -> zlen (c_pub c) < 2 ^ 61 ->
  tr P 0 (doltliteCredsKid l c) 0 owned (gives P (kid_of (c_pub c))).
Proof using Hl.
  intros Hw Hz. eapply tr_lift; [by apply sha512_224_spec|]. destruct (digest224_shape (c_pub c)) as [L W].
  apply base32_tr; [done|lia].
Qed.
End spec.

(** * Text *)
Lemma asprint_any_tr P n text : zlen text < n <= INT_MAX ->
  tr P 0 (asprint n (Some text)) 0 owned (gives (P /\ n <= SQLITE_MAX_ALLOCATION_SIZE) text).
Proof.
  intros Hn. eapply tr_bind; [apply malloc_any_tr; lia|]. intros r [->|[-> HP]]; cbn beta iota; [|apply tr_ret; [done|by right]].
  eapply tr_lift; [done|]. unfold snprintf. assert ((0 <? n) && (n <=? n) = true) as -> by lia.
  eapply (tr_lift _ _ (Some _)); [done|]. rewrite firstn_all2 by lia. apply tr_ret; [done|by left].
Qed.

Lemma asprint_tr P n text : zlen text < n <= SQLITE_MAX_ALLOCATION_SIZE -> tr P 0 (asprint n (Some text)) 0 owned (gives P text).
Proof.
  intros Hn. eapply tr_mono; [apply asprint_any_tr; unfold SQLITE_MAX_ALLOCATION_SIZE, INT_MAX in *; lia|].
  intros r [->|[-> HP]]; [by left|]. right. split; [done|]. intros ?. apply HP. split; [done|lia].
Qed.

Lemma drop_equals_replicate n r : (forall c, head r = Some c -> c <> EQUALS) -> drop_equals (replicate n EQUALS ++ r) = r.
Proof.
  intros Hr. induction n as [|n IH]; [|exact IH]. cbn [replicate app]. destruct r as [|c r]; [done|]. cbn [drop_equals].
  destruct (Z.eqb_spec c EQUALS); [|done]. by destruct (Hr c).
Qed.

Lemma strip_base64 B : bytes_wf B -> reverse (drop_equals (reverse (base64 B))) = base64_raw B.
Proof.
  intros HB. unfold base64. rewrite reverse_app, reverse_replicate, drop_equals_replicate; [apply reverse_involutive|].
  intros c Hc. apply head_Some_elem_of in Hc. rewrite elem_of_reverse in Hc. unfold base64_raw in Hc.
  apply list_elem_of_fmap_1 in Hc as (d & -> & Hd). pose proof (writes_wf _ _ _ (radix_writes 6 B ltac:(lia) HB)) as W.
  unfold digits_wf in W. rewrite Forall_forall in W. apply letter_value, W, Hd.
Qed.

Lemma b64urlRaw_tr P B : bytes_wf B -> zlen B < 2 ^ 30 -> tr P 0 (b64urlRaw B) 0 owned (gives P (base64_raw B)).
Proof.
  intros HB Hz. eapply tr_bind; [by apply base64_tr|]. intros r [->|[-> HP]]; cbn beta iota; [|apply tr_ret; [done|by right]].
  rewrite strip_base64 by done. apply tr_ret; [done|by left].
Qed.

(** * Characters *)
Definition safe_char (c : Z) : bool := is_alnum c || (c =? 45) || (c =? 95).

Lemma letters_safe alphabet w D : Forall safe_char alphabet -> zlen alphabet = 2 ^ w -> digits_wf w D ->
  Forall safe_char (letter alphabet <$> D).
Proof.
  intros Ha Hl HD. apply Forall_fmap. apply (Forall_impl _ _ _ HD). intros d Hd. unfold compose, letter.
  destruct (lookup_lt_is_Some_2 alphabet (Z.to_nat d)) as [c Ec]; [lia|]. rewrite Ec.
  rewrite Forall_lookup in Ha. by eapply Ha.
Qed.

Lemma base64_raw_safe B : bytes_wf B -> Forall safe_char (base64_raw B).
Proof.
  intros HB. apply (letters_safe _ 6); [by apply (bool_decide_unpack _); vm_compute|done|].
  by apply (writes_wf _ _ B), radix_writes.
Qed.

Lemma base32_safe B : bytes_wf B -> Forall safe_char (base32 B).
Proof.
  intros HB. apply (letters_safe _ 5); [by apply (bool_decide_unpack _); vm_compute|done|].
  by apply (writes_wf _ _ B), radix_writes.
Qed.

Lemma kid_safe pub : Forall safe_char (kid_of pub).
Proof. apply base32_safe, digest224_shape. Qed.

Lemma safe_range c : safe_char c = true -> 45 <= c <= 122 /\ c <> DOT /\ c <> SLASH /\ c <> EQUALS /\ c <> BACKSLASH.
Proof. unfold safe_char, is_alnum, is_digit. lia. Qed.

Lemma safe_plain s : Forall safe_char s -> plain s.
Proof.
  intros H. apply (Forall_impl _ _ _ H). intros c Hc%Is_true_true%safe_range. unfold is_char. lia.
Qed.

Lemma safe_str s : Forall safe_char s -> str_wf s.
Proof. intros H. apply (Forall_impl _ _ _ H). intros c Hc%Is_true_true%safe_range. unfold is_char. lia. Qed.

Lemma safe_not_in s c : Forall safe_char s -> safe_char c = false -> c ∉ s.
Proof. intros H Hc Hin. rewrite Forall_forall in H. specialize (H c Hin). by rewrite Hc in H. Qed.

Lemma plain_str s : plain s -> str_wf s.
Proof. intros H. apply (Forall_impl _ _ _ H). tauto. Qed.

Lemma base64_plain B : bytes_wf B -> plain (base64 B).
Proof.
  intros HB. apply Forall_app. split; [by apply safe_plain, base64_raw_safe|]. apply Forall_replicate. unfold is_char. lia.
Qed.

Lemma length_base64_raw B : bytes_wf B -> 8 * zlen B <= 6 * zlen (base64_raw B) < 8 * zlen B + 6.
Proof. intros HB. unfold base64_raw. rewrite length_fmap. by apply length_radix. Qed.

Lemma length_base64 B : bytes_wf B -> 6 * zlen (base64 B) < 8 * zlen B + 24.
Proof.
  intros HB. pose proof (length_base64_raw B HB). unfold base64. rewrite length_app, length_replicate.
  pose proof (Z.mod_pos_bound (- zlen (base64_raw B)) 4). lia.
Qed.

(** * Tokens *)
Definition header_members (kid : list Z) : list (list Z * jvalue) :=
  [(str "alg", JString (str "EdDSA")); (str "kid", JString kid); (str "dolt_token_version", JString JWT_TOKEN_VERSION)].
Definition claims_members (kid audience : list Z) (iat exp : Z) : list (list Z * jvalue) :=
  [(str "iss", JString JWT_ISSUER); (str "sub", JString (JWT_SUBJECT_PREFIX ++ kid)); (str "aud", JStrings [audience]);
   (str "iat", JNumber iat); (str "exp", JNumber exp)].
Definition jwk_members (x d : list Z) : list (list Z * jvalue) :=
  [(str "kty", JString (str "OKP")); (str "crv", JString (str "Ed25519")); (str "x", JString x); (str "d", JString d)].
Definition public_jwk_members (x : list Z) : list (list Z * jvalue) :=
  [(str "kty", JString (str "OKP")); (str "crv", JString (str "Ed25519")); (str "x", JString x)].

Ltac printed :=
  unfold header_text, claims_text, jwk_text, public_jwk_text, header_members, claims_members, jwk_members, public_jwk_members,
    JWT_ISSUER, JWT_SUBJECT_PREFIX, JWT_TOKEN_VERSION, print_object; literals;
  cbn [print_members print_value print_strings]; unfold quoted; repeat (rewrite <- app_assoc || cbn [app]); reflexivity.

Lemma header_text_object kid : header_text kid = print_object (header_members kid).
Proof. printed. Qed.

Lemma claims_text_object kid audience iat exp : claims_text kid audience iat exp = print_object (claims_members kid audience iat exp).
Proof. printed. Qed.

Lemma jwk_text_object x d : jwk_text x d = print_object (jwk_members x d).
Proof. printed. Qed.

Lemma public_jwk_text_object x : public_jwk_text x = print_object (public_jwk_members x).
Proof. printed. Qed.

Ltac text_length :=
  unfold header_text, claims_text, jwk_text, public_jwk_text, JWT_ISSUER, JWT_SUBJECT_PREFIX, JWT_TOKEN_VERSION; literals;
  rewrite ?length_app; cbn [length].

Lemma header_text_length kid : zlen (header_text kid) < zlen kid + 96.
Proof. text_length. lia. Qed.

Lemma claims_text_length kid audience iat exp : zlen (claims_text kid audience iat exp) < zlen kid + zlen audience + 164.
Proof. pose proof (length_print_ld iat). pose proof (length_print_ld exp). text_length. lia. Qed.

Lemma print_ld_str v : - 2 ^ 63 <= v < 2 ^ 63 -> str_wf (print_ld v).
Proof.
  intros Hv. destruct (print_ld_chars v Hv) as [_ H]. apply (Forall_impl _ _ _ H).
  intros c Hc. rewrite is_digit_range in Hc. unfold is_char. lia.
Qed.

Ltac text_str := rewrite ?str_wf_app; split_and!; try (by apply str_wfb_spec); try done.

Lemma header_text_str kid : str_wf kid -> str_wf (header_text kid).
Proof. intros H. unfold header_text. text_str. Qed.

Lemma claims_text_str kid audience iat exp : str_wf kid -> str_wf audience -> - 2 ^ 63 <= iat < 2 ^ 63 -> - 2 ^ 63 <= exp < 2 ^ 63 ->
  str_wf (claims_text kid audience iat exp).
Proof. intros. unfold claims_text. text_str; by apply print_ld_str. Qed.

Lemma jwk_text_str x d : str_wf x -> str_wf d -> str_wf (jwk_text x d).
Proof. intros. unfold jwk_text. text_str. Qed.

Lemma public_jwk_text_str x : str_wf x -> str_wf (public_jwk_text x).
Proof. intros. unfold public_jwk_text. text_str. Qed.

Lemma signed_part_bytes header claims : bytes_wf header -> bytes_wf claims -> bytes_wf (signed_part header claims).
Proof.
  intros Hh Hc. unfold signed_part. apply bytes_wf_app. split; [by apply str_wf_bytes, safe_str, base64_raw_safe|].
  apply Forall_cons. split; [done|]. by apply str_wf_bytes, safe_str, base64_raw_safe.
Qed.

Section tokens.
Context (l : locals) (Hl : locals_wf l) (junk_sig : list Z) (Hsig : buffer 64 junk_sig).
Context (seed : list Z) (Hseed : buffer 32 seed).
#[local] Abbreviation signature input :=
  (signature_of (le_decode (take 32 (secret_of seed))) (take 32 (drop 32 (secret_of seed))) (public_of seed) input).

Lemma token_signature_buffer input : buffer 64 (signature input).
Proof using. apply signature_of_buffer. Qed.

Lemma sign_spec input : bytes_wf input -> zlen input < 2 ^ 32 ->
  doltliteCredsSign l (creds_of seed) input junk_sig = Some (signature input).
Proof using Hl Hsig Hseed.
  intros Hi Hz. destruct (keypair_of l Hl seed Hseed) as (_ & Hp & Hk & _). unfold doltliteCredsSign. cbn [creds_of c_pub c_expanded].
  apply (sign_eq l Hl); [|assumption..]. split_and!.
  - intros p [= <-]. exact Hi.
  - cbn [read_message]. rewrite bytes_at_Some by lia. by rewrite firstn_all2 by lia.
  - lia.
Qed.

Lemma sign_token_tr P header claims : bytes_wf header -> bytes_wf claims -> zlen header < 2 ^ 20 -> zlen claims < 2 ^ 29 ->
  tr P 0 (sign_token l junk_sig (creds_of seed) header claims) 0 owned (gives P (token_of seed header claims)).
Proof using Hl Hsig Hseed.
  intros Hh Hc Lh Lc. unfold sign_token. pose proof (length_base64_raw _ Hh). pose proof (length_base64_raw _ Hc).
  eapply tr_own; [apply (b64urlRaw_tr P header Hh); lia|]. intros h64 Hh64.
  eapply tr_own; [apply (b64urlRaw_tr P claims Hc); lia|]. intros c64 Hc64.
  destruct Hh64 as [->|[-> HP]]; [|by apply tr_none]. destruct Hc64 as [->|[-> HP]]; [|by apply tr_none]. cbn [owned].
  fold (signed_part header claims). pose proof (signed_part_bytes header claims Hh Hc) as Hi.
  assert (zlen (signed_part header claims) = zlen (base64_raw header) + 1 + zlen (base64_raw claims)) as Li
    by (unfold signed_part; rewrite length_app; cbn [length]; lia).
  eapply tr_own_gives; [apply asprint_tr; unfold SQLITE_MAX_ALLOCATION_SIZE; lia|cbn beta iota|intros ?; cbn beta iota; apply tr_none; [lia|done]].
  eapply tr_lift; [apply sign_spec; [done|lia]|]. destruct (token_signature_buffer (signed_part header claims)) as [Ls Ws].
  pose proof (length_base64_raw _ Ws).
  eapply tr_own_gives; [apply b64urlRaw_tr; [done|lia]|cbn beta iota|intros ?; cbn beta iota; apply tr_none; [lia|done]].
  apply tr_call; [lia|]. unfold token_of. cbv zeta. apply asprint_tr. rewrite length_app. cbn [length]. unfold SQLITE_MAX_ALLOCATION_SIZE. lia.
Qed.

(** The token for an audience at a time. *)
Definition token_at (audience : list Z) (iat : Z) : list Z :=
  let kid := kid_of (public_of seed) in
  token_of seed (header_text kid) (claims_text kid audience iat (iat + 30)).

Lemma bearer_token_tr P audience iat : audience <> [] -> str_wf audience -> zlen audience < 2 ^ 28 -> - 2 ^ 63 <= iat < 2 ^ 63 - 30 ->
  tr P 0 (doltliteCredsBearerTokenAt l junk_sig (Some (creds_of seed)) (Some audience) iat) 0 owned (gives P (token_at audience iat)).
Proof using Hl Hsig Hseed.
  intros Hne Ha La Hi. destruct audience as [|a0 audience']; [done|]. set (audience := a0 :: audience') in *. clear Hne.
  unfold doltliteCredsBearerTokenAt. cbn beta iota. unfold audience at 1. fold audience.
  destruct (keypair_of l Hl seed Hseed) as (_ & [Lp Wp] & _). pose proof (length_kid_of (public_of seed)) as Lk.
  pose proof (safe_str _ (kid_safe (public_of seed))) as Sk. pose proof (header_text_length (kid_of (public_of seed))).
  pose proof (claims_text_length (kid_of (public_of seed)) audience iat (iat + 30)).
  eapply tr_own_gives; [apply (kid_tr l Hl); cbn [creds_of c_pub]; [assumption|lia]|cbn beta iota|intros ?; apply tr_none; [lia|done]].
  cbn [creds_of c_pub].
  eapply tr_own_gives; [apply asprint_tr; unfold SQLITE_MAX_ALLOCATION_SIZE; lia|cbn beta iota|intros ?; apply tr_none; [lia|done]].
  unfold JWT_TTL_SECONDS. assert ((iat + 30)%i64 = Some (iat + 30)) as ->.
  { unfold lift2, ck64, in64. cbn [cst]. by rewrite (proj2 (andb_true_iff _ _)) by lia. }
  eapply tr_own_gives; [apply asprint_tr; unfold SQLITE_MAX_ALLOCATION_SIZE; lia|cbn beta iota|intros ?; apply tr_none; [lia|done]].
  apply tr_call; [lia|]. unfold token_at. cbv zeta. apply sign_token_tr; [|apply str_wf_bytes, claims_text_str; first [assumption|lia]|lia..].
  by apply str_wf_bytes, header_text_str.
Qed.
End tokens.

(** * Keys in JSON *)
Definition json_find (json key : list Z) : option (list Z) := json_string (json_member json key).

(** The seed in a JSON key: either [d] is the seed and [x] its public key, or
    [x] is the seed followed by its public key, and [d] that key again. *)
Definition numbers_seed (d x : list Z) : option (list Z) :=
  if negb (zlen d =? 32) then None
  else if zlen x =? 32 then if streq (public_of d) x then Some d else None
  else if zlen x =? 64 then
    if streq (public_of (take 32 x)) d && streq (public_of (take 32 x)) (drop 32 x) then Some (take 32 x) else None
  else None.
Definition jwk_seed (json : list Z) : option (list Z) :=
  let? dstr := json_find json (str "d") in
  let? xstr := json_find json (str "x") in
  let? kty := json_find json (str "kty") in
  let? crv := json_find json (str "crv") in
  if streq kty (str "OKP") && streq crv (str "Ed25519") then
    let? d := decode64 dstr in
    let? x := decode64 xstr in
    numbers_seed d x
  else None.

Lemma decode64_bytes s b : decode64 s = Some b -> bytes_wf b.
Proof.
  unfold decode64, unradix. cbv zeta. destruct (_ || _); [done|]. intros [= <-]. apply Forall_fmap, Forall_forall.
  intros i _. apply (Z.mod_pos_bound _ 256). lia.
Qed.

Lemma may_none {A} P (x : option A) d e : d = e -> (P -> x = None) -> tr P d (retM None) e owned (may P x).
Proof.
  intros -> H w0 w Hw HP. split; [by rewrite Z.add_0_r|]. unfold may. destruct x as [x|]; [right|by left].
  split; [done|]. intros HP'. specialize (H HP'). done.
Qed.

Lemma tr_own_may {A B} P d (m : M (option A)) x (k : option A -> M B) e own R :
  tr P 0 m 0 owned (may P x) -> (forall y, x = Some y -> tr P (d + 1) (k (Some y)) (e + 1) own R) ->
  ((P -> x = None) -> tr P d (k None) e own R) -> tr P d (owning m k) e own R.
Proof.
  intros Hm Hs Hn. eapply tr_own; [exact Hm|]. intros [r|] Hr; cbn [owned]; rewrite ?Z.add_0_r.
  - apply Hs. by destruct Hr as [<-|[? _]].
  - apply Hn. intros HP. by destruct Hr as [<-|[_ ?]].
Qed.

Lemma length_json_find json key s : json_find json key = Some s -> (length s <= length json)%nat.
Proof.
  unfold json_find. destruct (json_member json key) as [p|] eqn:E; [|done]. apply json_member_suffix, suffix_length in E.
  unfold json_string. destruct p as [|c body]; [done|]. destruct (jsonSkipString (c :: body)) as [q|]; [|done].
  intros [= <-]. pose proof (length_unescape (take (length body - length q - 1) body)) as H. rewrite length_take in H.
  cbn [length] in E. lia.
Qed.

Section jwk.
Context (l : locals) (Hl : locals_wf l).

Lemma to_jwk_tr P seed : buffer 32 seed ->
  tr P 0 (doltliteCredsToJwk (creds_of seed)) 0 owned (gives P (jwk_text (base64 (public_of seed)) (base64 seed))).
Proof using Hl.
  intros Hs. destruct (keypair_of l Hl seed Hs) as (_ & [Lp Wp] & _). destruct Hs as [Ls Ws]. unfold doltliteCredsToJwk.
  cbn [creds_of c_pub c_seed]. pose proof (length_base64 _ Wp). pose proof (length_base64 _ Ws).
  eapply tr_own; [apply base64_tr; [assumption|lia]|]. intros x Hx. eapply tr_own; [apply base64_tr; [assumption|lia]|]. intros d Hd.
  destruct Hx as [->|[-> HP]]; [|by apply tr_none]. destruct Hd as [->|[-> HP]]; [|by apply tr_none]. cbn [owned].
  apply tr_call; [lia|]. apply asprint_tr. text_length. unfold SQLITE_MAX_ALLOCATION_SIZE. lia.
Qed.

Lemma to_public_jwk_tr P seed : buffer 32 seed ->
  tr P 0 (doltliteCredsToPublicJwk (creds_of seed)) 0 owned (gives P (public_jwk_text (base64 (public_of seed)))).
Proof using Hl.
  intros Hs. destruct (keypair_of l Hl seed Hs) as (_ & [Lp Wp] & _). unfold doltliteCredsToPublicJwk.
  cbn [creds_of c_pub c_seed]. pose proof (length_base64 _ Wp).
  eapply tr_own_gives; [apply base64_tr; [assumption|lia]|cbn beta iota|intros ?; by apply tr_none].
  apply tr_call; [lia|]. apply asprint_tr. text_length. unfold SQLITE_MAX_ALLOCATION_SIZE. lia.
Qed.

Lemma numbers_tr P d x : bytes_wf d -> bytes_wf x ->
  tr P 0 (creds_of_numbers l d x) 0 owned (may P (creds_of <$> numbers_seed d x)).
Proof using Hl.
  intros Wd Wx. unfold creds_of_numbers, numbers_seed. cbv zeta.
  destruct (Z.eqb_spec (zlen d) 32) as [Ld|]; cbn [negb orb]; [|by apply may_none].
  destruct (Z.eqb_spec (zlen x) 32) as [Lx|]; cbn [negb andb].
  - destruct (Z.eqb_spec (zlen x) 64); [lia|]. assert (buffer 32 d) as Hd by (split; [lia|done]).
    destruct (keypair_of l Hl d Hd) as (_ & [Lp Wp] & _).
    eapply tr_bind_gives; [rewrite <- (app_nil_r d) at 1; by apply (from_seed_tr l Hl)| |intros HP; by apply may_none].
    cbn beta iota. cbn [creds_of c_pub]. eapply (tr_lift _ _ _ (streq (public_of d) x)).
    { unfold memeq. rewrite !bytes_at_Some, !firstn_all2 by lia. reflexivity. }
    eapply tr_lift; [reflexivity|]. destruct (streq (public_of d) x); cbn [negb orb fmap option_fmap option_map].
    + apply tr_ret; [done|by left].
    + apply (free_tr _ _ (Some (creds_of d))). by apply may_none.
  - destruct (Z.eqb_spec (zlen x) 64) as [Lx|]; cbn [negb]; [|by apply may_none].
    assert (buffer 32 (take 32 x)) as Hd by (split; [rewrite length_take; lia|by apply bytes_wf_take]).
    destruct (keypair_of l Hl _ Hd) as (_ & [Lp Wp] & _).
    eapply tr_bind_gives; [rewrite <- (take_drop 32 x) at 1; by apply (from_seed_tr l Hl)| |intros HP; by apply may_none].
    cbn beta iota. cbn [creds_of c_pub]. eapply (tr_lift _ _ _ (streq (public_of (take 32 x)) d)).
    { unfold memeq. rewrite !bytes_at_Some, (firstn_all2 (public_of _)), (firstn_all2 d) by lia. reflexivity. }
    eapply (tr_lift _ _ _ (streq (public_of (take 32 x)) (drop 32 x))).
    { unfold memeq, ptr_add. change (Z.to_nat 32) with 32%nat. rewrite !bytes_at_Some by (rewrite ?length_drop; lia).
      rewrite (firstn_all2 (public_of _)), (firstn_all2 (drop 32 x)) by (rewrite ?length_drop; lia). reflexivity. }
    destruct (streq (public_of (take 32 x)) d), (streq (public_of (take 32 x)) (drop 32 x)); cbn [negb orb andb fmap option_fmap option_map];
      try (apply (free_tr _ _ (Some (creds_of (take 32 x)))); by apply may_none).
    apply tr_ret; [done|by left].
Qed.

Lemma from_jwk_tr P json : zlen json < 2 ^ 30 ->
  tr P 0 (doltliteCredsFromJwk l json) 0 owned (may P (creds_of <$> jwk_seed json)).
Proof using Hl.
  intros Hj. unfold doltliteCredsFromJwk, jwk_seed.
  eapply tr_own; [by apply jsonFindString_tr|]. intros dstr Hd. eapply tr_own; [by apply jsonFindString_tr|]. intros xstr Hx.
  eapply tr_own; [by apply jsonFindString_tr|]. intros kty Hk. eapply tr_own; [by apply jsonFindString_tr|]. intros crv Hc.
  fold (json_find json (str "d")) in Hd. fold (json_find json (str "x")) in Hx.
  fold (json_find json (str "kty")) in Hk. fold (json_find json (str "crv")) in Hc.
  destruct dstr as [dstr|]; [|apply may_none; [lia|]; intros HP; by destruct Hd as [<-|[_ ?]]].
  destruct Hd as [Ed|[? _]]; [|done]. rewrite <- Ed. symmetry in Ed. apply length_json_find in Ed.
  destruct xstr as [xstr|]; [|apply may_none; [lia|]; intros HP; by destruct Hx as [<-|[_ ?]]].
  destruct Hx as [Ex|[? _]]; [|done]. rewrite <- Ex. symmetry in Ex. apply length_json_find in Ex.
  destruct kty as [kty|]; [|apply may_none; [lia|]; intros HP; by destruct Hk as [<-|[_ ?]]].
  destruct Hk as [<-|[? _]]; [|done].
  destruct crv as [crv|]; [|apply may_none; [lia|]; intros HP; by destruct Hc as [<-|[_ ?]]].
  destruct Hc as [<-|[? _]]; [|done]. cbn [owned].
  destruct (streq kty _), (streq crv _); cbn [negb orb andb]; try (by apply may_none).
  eapply tr_own_may; [apply decode64_tr; lia| |intros HN; apply may_none; [lia|intros HP; by rewrite (HN HP)]].
  intros d Edd. rewrite Edd. apply decode64_bytes in Edd.
  eapply tr_own_may; [apply decode64_tr; lia| |intros HN; apply may_none; [lia|intros HP; by rewrite (HN HP)]].
  intros x Exx. rewrite Exx. apply decode64_bytes in Exx. apply tr_call; [lia|]. by apply numbers_tr.
Qed.
End jwk.

(** * The printed texts read back *)
Lemma find_printed ms key s t : Forall (fun m => plain m.1 /\ plain_value m.2) ms -> assoc ms key = Some (JString s) -> plain s ->
  json_find (print_object ms ++ t) key = Some s.
Proof.
  intros Hms Ha Hs. destruct (member_found ms key _ t Hms Ha) as (u & E & _). unfold json_find. rewrite E.
  by apply json_string_quoted.
Qed.

Definition plainb (s : list Z) : bool := forallb (fun c => (0 <? c) && (c <? 256) && negb (c =? QUOTE) && negb (c =? BACKSLASH)) s.
Lemma plainb_spec s : plainb s = true -> plain s.
Proof.
  unfold plainb, plain. rewrite forallb_forall, Forall_forall. setoid_rewrite <- list_elem_of_In.
  intros H c Hc. specialize (H c Hc). unfold is_char. lia.
Qed.

Ltac plain_members :=
  repeat (apply Forall_cons; split); try (by apply Forall_nil); cbn [fst snd plain_value]; (split; [by apply plainb_spec|]);
  try (by apply plainb_spec); try done.

Lemma jwk_members_plain x d : plain x -> plain d -> Forall (fun m => plain m.1 /\ plain_value m.2) (jwk_members x d).
Proof. intros. unfold jwk_members. plain_members. Qed.

Lemma public_jwk_members_plain x : plain x -> Forall (fun m => plain m.1 /\ plain_value m.2) (public_jwk_members x).
Proof. intros. unfold public_jwk_members. plain_members. Qed.

Lemma header_members_plain kid : plain kid -> Forall (fun m => plain m.1 /\ plain_value m.2) (header_members kid).
Proof. intros. unfold header_members. plain_members. Qed.

Lemma claims_members_plain kid audience iat exp : plain kid -> plain audience -> - 2 ^ 63 <= iat < 2 ^ 63 -> - 2 ^ 63 <= exp < 2 ^ 63 ->
  Forall (fun m => plain m.1 /\ plain_value m.2) (claims_members kid audience iat exp).
Proof.
  intros. unfold claims_members. plain_members.
  - apply Forall_app. split; [by apply plainb_spec|done].
  - by repeat constructor.
Qed.

(** Decoding takes back the padded form. *)
Lemma decode64_base64 B : bytes_wf B -> decode64 (base64 B) = Some B.
Proof.
  intros HB. unfold base64. set (k := (- zlen (base64_raw B)) mod 4). pose proof (Z.mod_pos_bound (- zlen (base64_raw B)) 4 ltac:(lia)).
  apply decode64_encode; [done| |].
  - destruct (Z.to_nat k); [by left|right]. eexists. reflexivity.
  - rewrite length_app, length_replicate, Nat2Z.inj_add, Z2Nat.id by lia. unfold k.
    rewrite Z.add_mod_idemp_r, Z.add_opp_diag_r by lia. done.
Qed.

Lemma decode64_raw B : bytes_wf B -> decode64 (base64_raw B) = Some B.
Proof.
  intros HB. rewrite <- (app_nil_r (base64_raw B)). apply decode64_encode; [done|by left|]. rewrite app_nil_r.
  pose proof (length_base64_raw B HB). pose proof (Z.div_mod (zlen (base64_raw B)) 4). lia.
Qed.

Lemma jwk_seed_text seed t (l : locals) : locals_wf l -> buffer 32 seed ->
  jwk_seed (jwk_text (base64 (public_of seed)) (base64 seed) ++ t) = Some seed.
Proof.
  intros Hl Hs. destruct (keypair_of l Hl seed Hs) as (_ & [Lp Wp] & _). destruct Hs as [Ls Ws].
  pose proof (base64_plain _ Wp) as Px. pose proof (base64_plain _ Ws) as Pd. rewrite jwk_text_object. unfold jwk_seed.
  rewrite (find_printed _ (str "d") (base64 seed)); [|by apply jwk_members_plain|reflexivity|done].
  rewrite (find_printed _ (str "x") (base64 (public_of seed))); [|by apply jwk_members_plain|reflexivity|done].
  rewrite (find_printed _ (str "kty") (str "OKP")); [|by apply jwk_members_plain|reflexivity|by apply plainb_spec].
  rewrite (find_printed _ (str "crv") (str "Ed25519")); [|by apply jwk_members_plain|reflexivity|by apply plainb_spec].
  rewrite !streq_refl. cbn [andb]. rewrite !decode64_base64 by assumption. unfold numbers_seed.
  destruct (Z.eqb_spec (zlen seed) 32); [|lia]. cbn [negb]. destruct (Z.eqb_spec (zlen (public_of seed)) 32); [|lia].
  by rewrite streq_refl.
Qed.
