(* ===== verification/CredsReplace.v ===== *)
(** [credsReplaceDurable] of [remote/doltlite_creds.c]: whatever the file
    system does, interruptions, refusals and short writes at any call
    included, a crash at any point leaves the old contents of the file or all
    of the new; a result of 0 means that the new contents are there to stay. *)
From S2P Require Import Prelude CInt Ge Ed25519 CString World Radix Json Creds CredsFile CredsSpec.

(** From [w] to [w'] the files became those of [W]; no memory changed hands. *)
Definition reach (W w w' : world) : Prop :=
  same_files W w' /\ w_live w' = w_live w /\ w_choices w' `suffix_of` w_choices w.

Lemma reach_refl W w : same_files W w -> reach W w w.
Proof. intros H. unfold reach. by split_and!. Qed.

Lemma reach_trans W V w1 w2 w3 : reach V w1 w2 -> reach W w2 w3 -> reach W w1 w3.
Proof. intros (_ & E1 & S1) (F & E2 & S2). split_and!; [done|congruence|by etransitivity]. Qed.

Lemma reach_calm W w w' : reach W w w' -> calm w -> calm w'.
Proof. unfold calm. intros (_ & _ & H) E. rewrite E in H. by apply suffix_nil_inv in H. Qed.

Lemma reach_length W w w' : reach W w w' -> (length (w_choices w') <= length (w_choices w))%nat.
Proof. intros (_ & _ & H). by apply suffix_length. Qed.

Lemma taken_reach W w c w' : same_files W w -> taken w c w' -> reach W w w'.
Proof.
  intros HW Ht. split_and!; [by eapply taken_files|by eapply taken_live|].
  destruct Ht as [(_ & _ & ->)|(cs & E & ->)]; [done|]. cbn. rewrite E. by exists [c].
Qed.

(** The world [w'] with other files, as far as [reach] sees. *)
Lemma reach_files W V w w' w'' : reach W w w' -> same_files V w'' -> w_live w'' = w_live w' -> w_choices w'' = w_choices w' -> reach V w w''.
Proof. intros (_ & E & S) HV El Ec. split_and!; [done|congruence|by rewrite Ec]. Qed.

(** * Writing *)
Lemma append_wp W i b s x w (Q : unit -> world -> Prop) E : same_files W w -> w_inodes W !! i = Some (Inode b s) ->
  (forall w', reach (set_inode i (Inode (b ++ x) false) W) w w' -> Q () w') -> wpM (append i x) Q E w.
Proof.
  intros HW Hi HQ. eapply wpM_contents; [destruct HW as (_ & _ & -> & _); exact Hi|].
  unfold wpM, modW. apply HQ. split_and!; [by apply same_files_set|done..].
Qed.

(** What [write] did to the file [i] that held [b]. *)
Definition wrote_to (W : world) (i : nat) (b data : list Z) (w : world) (r : errno + Z) (w' : world) : Prop :=
  match r with
  | inr n => 0 <= n <= zlen data /\ reach (set_inode i (Inode (b ++ take (Z.to_nat n) data) false) W) w w' /\ (calm w -> n = zlen data)
  | inl _ => reach W w w' /\ (length (w_choices w') < length (w_choices w))%nat
  end.

Lemma write_wp W i b s data w E : same_files W w -> w_inodes W !! i = Some (Inode b s) -> E w ->
  wpM (write i data) (wrote_to W i b data w) E w.
Proof.
  intros HW Hi HE. apply wpM_take; [done|]. intros c w' Ht. pose proof (taken_reach W _ _ _ HW Ht) as Hr.
  assert (same_files W w') as HW' by apply Hr.
  assert (forall n, (n <= length data)%nat -> (calm w -> n = length data) ->
    wpM (let* _ := append i (take n data) in retM (inr (Z.of_nat n))) (wrote_to W i b data w) E w') as Hw.
  { intros n Hn Hc. apply wpM_bind. eapply append_wp; [done..|]. intros w'' H''. apply wpM_ret. unfold wrote_to. rewrite Nat2Z.id.
    split_and!; [lia..|by eapply reach_trans|]. intros Hcalm. by rewrite Hc. }
  destruct c; try (apply wpM_ret; split; [done|]; by eapply taken_shorter).
  all: try (rewrite <- (firstn_all data) at 1; apply Hw; [done|intros; done]).
  apply Hw; [lia|]. intros Hc. by destruct (taken_calm _ _ _ Ht Hc).
Qed.

Lemma set_inode_twice i x y W : same_files (set_inode i x (set_inode i y W)) (set_inode i x W).
Proof. unfold same_files. cbn. rewrite insert_insert_eq. by split_and!. Qed.

Lemma write_loop_wp fuel W i b s data w (E : world -> Prop) :
  same_files W w -> w_inodes W !! i = Some (Inode b s) -> (length (w_choices w) + length data < fuel)%nat ->
  (forall b s w', same_files (set_inode i (Inode b s) W) w' -> E w') ->
  wpM (write_loop fuel i data) (fun ok w' => exists b' s', reach (set_inode i (Inode b' s') W) w w' /\
    (ok = true -> b' = b ++ data) /\ (calm w -> ok = true)) E w.
Proof.
  revert W b s data w. induction fuel as [|fuel IH]; intros W b s data w HW Hi Hf HE; [lia|].
  assert (same_files (set_inode i (Inode b s) W) W) as HWW.
  { unfold same_files. cbn. rewrite insert_id by done. by split_and!. }
  assert (E w) as HEw by (apply (HE b s); by etransitivity).
  destruct data as [|x data].
  { apply wpM_ret. exists b, s. split_and!; [by apply reach_refl; etransitivity|by rewrite app_nil_r|done]. }
  change (write_loop (S fuel) i (x :: data)) with (let* r := write i (x :: data) in
    match r with
    | inl EINTR => write_loop fuel i (x :: data)
    | inl _ => retM false
    | inr wrote => if wrote <=? 0 then retM false else write_loop fuel i ((x :: data) +p wrote)
    end).
  apply wpM_bind. eapply wpM_mono; [by apply (write_wp W i b s (x :: data))| |done]. intros [e|n] w'; unfold wrote_to.
  - intros [Hr Hlen]. assert (~ calm w) as Hnc by (unfold calm; intros E0; rewrite E0 in Hlen; cbn in Hlen; lia).
    assert (wpM (retM false) (fun ok w'' => exists b' s', reach (set_inode i (Inode b' s') W) w w'' /\
      (ok = true -> b' = b ++ x :: data) /\ (calm w -> ok = true)) E w') as Hfail.
    { apply wpM_ret. exists b, s. split_and!; [|done|done]. eapply reach_files; [exact Hr|etransitivity; [done|apply Hr]|done|done]. }
    destruct e; try exact Hfail. eapply wpM_mono; [apply (IH W b s (x :: data)); [apply Hr|done|lia|exact HE]| |done].
    cbn beta. intros ok w'' (b' & s' & H1 & H2 & _). exists b', s'. split_and!; [by eapply reach_trans|done|done].
  - intros (Hn & Hr & Hcalm). destruct (Z.leb_spec n 0).
    { apply wpM_ret. do 2 eexists. split_and!; [exact Hr|done|]. intros Hc. specialize (Hcalm Hc). cbn [length] in Hcalm. lia. }
    pose proof (reach_length _ _ _ Hr).
    eapply wpM_mono; [apply (IH (set_inode i (Inode (b ++ take (Z.to_nat n) (x :: data)) false) W) (b ++ take (Z.to_nat n) (x :: data)) false
      ((x :: data) +p n)); [apply Hr|cbn; by rewrite lookup_insert_eq| |]| |done].
    + unfold ptr_add. rewrite length_drop. lia.
    + intros b1 s1 w1 H1. apply (HE b1 s1). etransitivity; [|exact H1]. symmetry. apply set_inode_twice.
    + cbn beta. intros ok w'' (b' & s' & H1 & H2 & H3). exists b', s'. split_and!.
      * eapply reach_trans; [exact Hr|]. destruct H1 as (F & ? & ?). split_and!; [|done..].
        etransitivity; [|exact F]. symmetry. apply set_inode_twice.
      * intros Hok. rewrite (H2 Hok), <- app_assoc. f_equal. unfold ptr_add. apply take_drop.
      * intros Hc. apply H3. by eapply reach_calm.
Qed.

(** * Calls that are repeated *)
Definition attempted (W V w : world) (e : option errno) (w' : world) : Prop :=
  match e with
  | None => reach V w w'
  | Some _ => reach W w w' /\ (length (w_choices w') < length (w_choices w))%nat
  end.

Lemma attempt_wp W V effect w E : same_files W w -> E w ->
  (forall w, same_files W w -> wpM effect (fun _ => reach V w) E w) -> wpM (attempt effect) (attempted W V w) E w.
Proof.
  intros HW HE Heff. apply wpM_take; [done|]. intros c w' Ht. pose proof (taken_reach W _ _ _ HW Ht) as Hr.
  destruct c; try (apply wpM_ret; split; [done|]; by eapply taken_shorter).
  all: apply wpM_bind; (eapply wpM_mono; [apply Heff, Hr| |done]); cbn beta; intros _ w'' H''; apply wpM_ret; by eapply reach_trans.
Qed.

Lemma retry_wp fuel W V m w (E : world -> Prop) : same_files W w -> (length (w_choices w) < fuel)%nat ->
  (forall w, same_files W w -> wpM m (attempted W V w) E w) -> wpM (retry fuel m) (attempted W V w) E w.
Proof.
  revert w. induction fuel as [|fuel IH]; intros w HW Hf Hm; [lia|]. cbn [retry]. apply wpM_bind.
  eapply wpM_mono; [by apply Hm| |done]. intros [e|] w' H; cbn beta iota; [|exact H]. destruct H as [Hr Hlen].
  destruct e; try (apply wpM_ret; by split). eapply wpM_mono; [apply IH; [apply Hr|lia|done]| |done].
  intros [e|] w''; cbn; [|by apply reach_trans with (V := W)]. intros [H1 H2]. split; [by eapply reach_trans|lia].
Qed.

Lemma retrying_wp W V effect w E : same_files W w -> (forall w, same_files W w -> E w) ->
  (forall w, same_files W w -> wpM effect (fun _ => reach V w) E w) -> wpM (retrying (attempt effect)) (attempted W V w) E w.
Proof.
  intros HW HE Heff. apply wpM_getW. apply retry_wp; [done|lia|]. intros w' HW'. apply attempt_wp; auto.
Qed.

Lemma attempted_calm W V w e w' : attempted W V w e w' -> calm w -> e = None.
Proof. unfold calm. destruct e; [|done]. intros [_ H] E. rewrite E in H. cbn in H. lia. Qed.

Lemma fsync_wp W i b s w E : same_files W w -> w_inodes W !! i = Some (Inode b s) -> (forall w, same_files W w -> E w) ->
  wpM (retrying (fsync i)) (attempted W (set_inode i (Inode b true) W) w) E w.
Proof.
  intros HW Hi HE. apply retrying_wp; [done|done|]. intros w' HW'.
  eapply wpM_contents; [destruct HW' as (_ & _ & -> & _); exact Hi|]. unfold wpM, modW.
  split_and!; [by apply same_files_set|done..].
Qed.

Definition settled (d : path) (W : world) : world := set_past (settle d (w_names W) <$> w_past W) W.

Lemma fsync_dir_wp W d w (E : world -> Prop) : same_files W w -> (forall w, same_files W w -> E w) ->
  wpM (credsFsyncDir d) (fun ok w' => (if ok then reach (settled d W) w w' else reach W w w') /\ (calm w -> is_dir w d = true -> ok = true)) E w.
Proof.
  intros HW HE. apply wpM_bind. unfold open_dir. apply wpM_take; [by apply HE|]. intros c w1 Ht.
  pose proof (taken_reach W _ _ _ HW Ht) as Hr. apply wpM_getW, wpM_ret.
  assert (is_dir w1 d = is_dir w d) as Ed.
  { unfold is_dir. destruct Hr as ((_ & _ & _ & _ & -> & _) & _), HW as (_ & _ & _ & _ & -> & _). done. }
  rewrite Ed. destruct (negb (refused c) && is_dir w d) eqn:Eok.
  - apply wpM_bind. eapply wpM_mono; [apply (retrying_wp W (settled d W)); [apply Hr|done|]| |done].
    + intros w' (E1 & E2 & ?). unfold wpM, modW. rewrite E1, E2. split_and!; [by apply same_files_set|done..].
    + intros e w' H. apply wpM_ret. split.
      * destruct e; [|by eapply reach_trans]. destruct H. by eapply reach_trans.
      * intros Hc _. assert (e = None) as -> by (eapply attempted_calm; [done|by eapply reach_calm]). done.
  - apply wpM_ret. split; [done|]. intros Hc Hd. destruct (taken_calm _ _ _ Ht Hc) as [-> _]. by rewrite Hd in Eok.
Qed.

(** * Calls on names *)
Lemma same_names W w p : same_files W w -> w_names w !! p = w_names W !! p.
Proof. by intros (-> & _). Qed.

Lemma same_is_dir W w p : same_files W w -> is_dir w p = is_dir W p.
Proof. intros (_ & _ & _ & _ & E & _). unfold is_dir. by rewrite E. Qed.

Lemma reach_names W w w' x : reach W w w' -> reach (set_names x W) w (set_names x w').
Proof. intros H. eapply reach_files; [exact H|apply same_files_set, H|done|done]. Qed.

(** A call took effect, with the files then those of [V], or it did not; it
    does when nothing is refused and [P] holds. *)
Definition either (P : Prop) (V W w : world) (ok : bool) (w' : world) : Prop :=
  (if ok then reach V w w' else reach W w w') /\ (calm w -> P -> ok = true).

Lemma mkstemp_wp W p w (E : world -> Prop) : same_files W w -> E w ->
  wpM (mkstemp p) (fun r w' =>
    match r with
    | None => reach W w w'
    | Some (tmp, i) => i = w_fresh W /\ (exists x, length x = 6%nat /\ forallb is_alnum x = true /\ tmp = p ++ DOT :: x) /\
        w_names W !! tmp = None /\ is_dir W tmp = false /\
        reach (set_names (<[tmp := i]> (w_names W)) (set_fresh (S i) (set_inode i (Inode [] false) W))) w w'
    end /\
    (calm w -> let tmp := p ++ str ".000000" in
     w_names W !! tmp = None -> is_dir W tmp = false -> is_dir W (dirname tmp) = true -> is_Some r)) E w.
Proof.
  intros HW HE. apply wpM_take; [done|]. intros c w' Ht. pose proof (taken_reach W _ _ _ HW Ht) as Hr.
  apply wpM_getW. cbv beta zeta. set (x := match c with Pick _ => _ | _ => _ end).
  assert (length x = 6%nat /\ forallb is_alnum x = true) as [Hx1 Hx2].
  { unfold x. destruct c; try done. destruct ((length s =? 6)%nat && forallb is_alnum s) eqn:Es; [|done].
    apply andb_true_iff in Es as [E1 E2]. apply Nat.eqb_eq in E1. done. }
  rewrite (same_names W w'), !(same_is_dir W w') by apply Hr.
  destruct (refused c) eqn:Ec; cbn [orb].
  { apply wpM_ret. split; [done|]. intros Hc. destruct (taken_calm _ _ _ Ht Hc) as [-> _]. done. }
  assert (calm w -> p ++ DOT :: x = p ++ str ".000000") as Hname.
  { intros Hc. unfold x. by destruct (taken_calm _ _ _ Ht Hc) as [-> _]. }
  destruct (bool_decide_reflect (is_Some (w_names W !! (p ++ DOT :: x)))) as [[j Hj]|Hn]; cbn [orb].
  { apply wpM_ret. split; [done|]. cbv zeta. intros Hc. rewrite <- (Hname Hc). congruence. }
  destruct (is_dir W (p ++ DOT :: x)) eqn:Ed; cbn [orb].
  { apply wpM_ret. split; [done|]. cbv zeta. intros Hc. rewrite <- (Hname Hc). congruence. }
  destruct (is_dir W (dirname (p ++ DOT :: x))) eqn:Ed'; cbn [negb].
  2: { apply wpM_ret. split; [done|]. cbv zeta. intros Hc. rewrite <- (Hname Hc). congruence. }
  apply wpM_bind, wpM_getW, wpM_modW, wpM_ret, wpM_ret. split; [|done].
  assert (w_fresh w' = w_fresh W) as -> by apply Hr. assert (w_names w' = w_names W) as -> by apply Hr.
  split_and!; [done|by exists x|by rewrite eq_None_not_Some|done|].
  apply reach_names. eapply reach_files; [exact Hr| |done|done]. apply same_files_set. by apply same_files_set, Hr.
Qed.

Lemma link_wp W a b i w (E : world -> Prop) : same_files W w -> E w -> w_names W !! a = Some i ->
  wpM (link a b) (either (w_names W !! b = None /\ is_dir W b = false /\ is_dir W (dirname b) = true) (set_names (<[b := i]> (w_names W)) W) W w) E w.
Proof.
  intros HW HE Ha. apply wpM_take; [done|]. intros c w' Ht. pose proof (taken_reach W _ _ _ HW Ht) as Hr.
  apply wpM_getW. rewrite !(same_names W w'), !(same_is_dir W w'), Ha by apply Hr.
  destruct (_ || _ || _ || _) eqn:Ec.
  - apply wpM_ret. split; [done|]. intros Hc (Hb & Hd & Hd'). destruct (taken_calm _ _ _ Ht Hc) as [-> _].
    rewrite Hb, Hd, Hd' in Ec. by cbn in Ec.
  - apply wpM_modW, wpM_ret. split; [|done]. assert (w_names w' = w_names W) as -> by apply Hr. by apply reach_names.
Qed.

Lemma unlink_wp W a w (E : world -> Prop) : same_files W w -> E w ->
  wpM (unlink a) (either (is_Some (w_names W !! a)) (set_names (delete a (w_names W)) W) W w) E w.
Proof.
  intros HW HE. apply wpM_take; [done|]. intros c w' Ht. pose proof (taken_reach W _ _ _ HW Ht) as Hr.
  apply wpM_getW. rewrite (same_names W w') by apply Hr. destruct (_ || _) eqn:Ec.
  - apply wpM_ret. split; [done|]. intros Hc Ha. destruct (taken_calm _ _ _ Ht Hc) as [-> _].
    by rewrite bool_decide_eq_true_2 in Ec.
  - apply wpM_modW, wpM_ret. split; [|done]. assert (w_names w' = w_names W) as -> by apply Hr. by apply reach_names.
Qed.

Lemma rename_wp W a b i w (E : world -> Prop) : same_files W w -> E w -> w_names W !! a = Some i ->
  wpM (rename a b) (either (is_dir W b = false /\ is_dir W (dirname b) = true) (set_names (<[b := i]> (delete a (w_names W))) W) W w) E w.
Proof.
  intros HW HE Ha. apply wpM_take; [done|]. intros c w' Ht. pose proof (taken_reach W _ _ _ HW Ht) as Hr.
  apply wpM_getW. rewrite !(same_names W w'), !(same_is_dir W w'), Ha by apply Hr.
  destruct (_ || _ || _) eqn:Ec.
  - apply wpM_ret. split; [done|]. intros Hc (Hd & Hd'). destruct (taken_calm _ _ _ Ht Hc) as [-> _].
    rewrite Hd, Hd' in Ec. by cbn in Ec.
  - apply wpM_modW, wpM_ret. split; [|done]. assert (w_names w' = w_names W) as -> by apply Hr. by apply reach_names.
Qed.

Lemma succeeds_wp W w (E : world -> Prop) : same_files W w -> E w ->
  wpM succeeds (either True W W w) E w.
Proof.
  intros HW HE. apply wpM_take; [done|]. intros c w' Ht. pose proof (taken_reach W _ _ _ HW Ht) as Hr.
  apply wpM_ret. split; [by destruct (negb _)|]. intros Hc _. by destruct (taken_calm _ _ _ Ht Hc) as [-> _].
Qed.

Lemma same_through W w p : same_files W w -> through_file w p = through_file W p.
Proof. intros (En & _). unfold through_file. by rewrite En. Qed.

Lemma same_obstructed W w p : same_files W w -> obstructed w p = obstructed W p.
Proof. intros H. unfold obstructed. by rewrite (same_is_dir W w), (same_through W w) by done. Qed.

(** No file among the directories of [p]. *)
Lemma through_clear W p : (forall n, p !! n = Some SLASH -> w_names W !! take n p = None) -> through_file W p = false.
Proof.
  intros H. unfold through_file. apply not_true_is_false. intros (n & _ & Hn)%existsb_exists.
  apply andb_true_iff in Hn as [H1%bool_decide_eq_true_1 H2%bool_decide_eq_true_1]. rewrite (H n H1) in H2. by apply is_Some_None in H2.
Qed.

Lemma fopen_rb_wp W p w (E : world -> Prop) : same_files W w -> E w ->
  wpM (fopen_rb p) (fun r w' => reach W w w' /\
    match r with
    | inr i => w_names W !! p = Some i
    | inl ENOENT => w_names W !! p = None /\ obstructed W p = false
    | inl _ => calm w -> w_names W !! p = None /\ obstructed W p = true
    end) E w.
Proof.
  intros HW HE. apply wpM_take; [done|]. intros c w' Ht. pose proof (taken_reach W _ _ _ HW Ht) as Hr.
  apply wpM_getW. rewrite !(same_names W w'), !(same_obstructed W w') by apply Hr. destruct (refused c) eqn:Ec.
  { apply wpM_ret. split; [done|]. intros Hc. destruct (taken_calm _ _ _ Ht Hc) as [-> _]. done. }
  destruct (w_names W !! p); apply wpM_ret; (split; [done|]); [done|]. by destruct (obstructed W p).
Qed.

(** * Replacing *)
(** Every entry leads to a file, and new files get new numbers. *)
Record fs_wf (w : world) : Prop := {
  fs_fresh : forall i f, w_inodes w !! i = Some f -> (i < w_fresh w)%nat;
  fs_entries : forall t p i, t ∈ tables w -> t !! p = Some i -> is_Some (w_inodes w !! i)
}.

Lemma settle_lookup d now old p : settle d now old !! p = if decide (dirname p = d) then now !! p else old !! p.
Proof.
  unfold settle. rewrite lookup_union. destruct (decide (dirname p = d)) as [E|E].
  - rewrite (map_lookup_filter_None_2 _ old) by (right; intros x _ H; by apply H).
    destruct (now !! p) as [x|] eqn:En.
    + rewrite (proj2 (map_lookup_filter_Some _ now p x)) by done. done.
    + rewrite map_lookup_filter_None_2 by (by left). done.
  - rewrite (map_lookup_filter_None_2 _ now) by (right; intros x _ H; by apply E).
    destruct (old !! p) as [x|] eqn:Eo.
    + rewrite (proj2 (map_lookup_filter_Some _ old p x)) by done. done.
    + rewrite map_lookup_filter_None_2 by (by left). done.
Qed.

(** A suffix with no slash in it stays in the directory. *)
Lemma dirname_same p x : Forall (fun c => c <> SLASH) x -> dirname (p ++ x) = dirname p.
Proof.
  intros Hx. unfold dirname. rewrite reverse_app. f_equal. apply Forall_reverse in Hx. revert Hx. generalize (reverse x). intros l.
  induction 1 as [|c l Hc Hl IH]; [done|]. cbn [app skip_name]. by destruct (Z.eqb_spec c SLASH).
Qed.

Lemma fs_wf_names x X : fs_wf X -> (forall p i, x !! p = Some i -> is_Some (w_inodes X !! i)) -> fs_wf (set_names x X).
Proof. intros [H1 H2] Hx. split; [exact H1|]. intros t p i [->|Ht]%elem_of_cons Hp; [by eapply Hx|by eapply H2]. Qed.

Lemma fs_wf_insert p i X : fs_wf X -> is_Some (w_inodes X !! i) -> forall q j, <[p := i]> (w_names X) !! q = Some j -> is_Some (w_inodes X !! j).
Proof.
  intros HX Hi q j. destruct (decide (p = q)) as [->|Hne]; [by rewrite lookup_insert_eq; intros [= <-]|].
  rewrite lookup_insert_ne by done. apply (fs_entries _ HX). by left.
Qed.

Lemma fs_wf_delete p X : fs_wf X -> fs_wf (set_names (delete p (w_names X)) X).
Proof. intros HX. apply fs_wf_names; [done|]. intros q i [_ H]%lookup_delete_Some. apply (fs_entries _ HX (w_names X) q); [by left|done]. Qed.

Lemma fs_wf_settled d X : fs_wf X -> fs_wf (settled d X).
Proof.
  intros [H1 H2]. split; [exact H1|]. intros t p i [->|Ht]%elem_of_cons; [apply H2; by left|].
  apply list_elem_of_fmap_1 in Ht as (old & -> & Hold). rewrite settle_lookup. destruct (decide _); apply H2; [by left|by right].
Qed.

Lemma fs_wf_same X w : same_files X w -> fs_wf X -> fs_wf w.
Proof. intros (En & Ep & Ei & Ef & _) [H1 H2]. unfold tables in *. split; rewrite ?Ei, ?Ef; [done|]. intros t p i Ht. unfold tables in Ht. rewrite En, Ep in Ht. by apply H2. Qed.

Section replace.
Context (w0 : world) (Hwf : fs_wf w0) (dir path_ : path) (data : list Z).

(** What may be at the path after a crash: what could be there before, or the new contents. *)
Definition atomic (w : world) : Prop := forall c, after_crash w path_ c -> c = Some data \/ after_crash w0 path_ c.

Definition entry (X : world) (e : option nat) : Prop :=
  (exists t, t ∈ tables w0 /\ e = t !! path_) \/ (exists i, e = Some i /\ w_inodes X !! i = Some (Inode data true)).
Definition sound (X : world) : Prop :=
  (forall t i f, t ∈ tables w0 -> t !! path_ = Some i -> w_inodes w0 !! i = Some f -> w_inodes X !! i = Some f) /\
  (forall t, t ∈ tables X -> entry X (t !! path_)) /\ fs_wf X.

Lemma sound_atomic X w : sound X -> same_files X w -> atomic w.
Proof using Hwf.
  intros (Hold & Htab & _) (En & Ep & Ei & _) c (t & Ht & Hc). unfold tables in Ht. rewrite En, Ep in Ht. rewrite Ei in Hc.
  destruct (Htab t Ht) as [(t0 & Ht0 & E)|(i & E & Hi)]; rewrite E in Hc.
  - right. exists t0. split; [done|]. destruct (t0 !! path_) as [i|] eqn:Et; [|done].
    destruct Hc as (f & d & Hf & -> & Hd). destruct (fs_entries _ Hwf t0 path_ i Ht0 Et) as [f0 Hf0].
    rewrite (Hold _ _ _ Ht0 Et Hf0) in Hf. injection Hf as ->. eauto.
  - left. destruct Hc as (f & d & Hf & -> & Hd). rewrite Hi in Hf. injection Hf as <-. by rewrite Hd.
Qed.

Lemma sound_start : sound w0.
Proof using Hwf. split_and!; [done| |done]. intros t Ht. left. eauto. Qed.

Lemma sound_insert X i : sound X -> w_inodes X !! i = Some (Inode data true) -> sound (set_names (<[path_ := i]> (w_names X)) X).
Proof using.
  intros (Hold & Htab & Hfs) Hi. split_and!; [done| |].
  - intros t [->|Ht]%elem_of_cons; [|by apply Htab]. right. exists i. split; [apply lookup_insert_eq|done].
  - apply fs_wf_names, fs_wf_insert; by rewrite ?Hi.
Qed.

Lemma sound_delete X p : sound X -> p <> path_ -> sound (set_names (delete p (w_names X)) X).
Proof using.
  intros (Hold & Htab & Hfs) Hp. split_and!; [done| |by apply fs_wf_delete].
  intros t [->|Ht]%elem_of_cons; [|by apply Htab]. cbn. rewrite lookup_delete_ne by done. apply Htab. by left.
Qed.

Lemma sound_settled X d : sound X -> sound (settled d X).
Proof using.
  intros (Hold & Htab & Hfs). split_and!; [done| |by apply fs_wf_settled]. intros t [->|Ht]%elem_of_cons; [apply Htab; by left|].
  apply list_elem_of_fmap_1 in Ht as (old & -> & Hold'). rewrite settle_lookup.
  destruct (decide _); apply Htab; [by left|by right].
Qed.

(** [rename], as an unlinked name and a new one. *)
Lemma renamed_sound tmp i X : tmp <> path_ -> sound X -> w_inodes X !! i = Some (Inode data true) ->
  sound (set_names (<[path_ := i]> (delete tmp (w_names X))) X).
Proof using.
  intros Hne HX Hi. destruct (sound_insert _ _ (sound_delete _ tmp HX Hne) Hi) as (H1 & H2 & H3). split_and!; [exact H1| |].
  - intros t [->|Ht]%elem_of_cons; apply H2; [by left|]. right. by right.
  - destruct H3 as [F1 F2]. split; [exact F1|]. intros t p j [->|Ht]%elem_of_cons; apply F2; [by left|]. right. by right.
Qed.

(** The temporary file [tmp] with contents [b]. *)
Definition with_tmp (tmp : path) (b : list Z) (s : bool) : world :=
  set_names (<[tmp := w_fresh w0]> (w_names w0)) (set_fresh (S (w_fresh w0)) (set_inode (w_fresh w0) (Inode b s) w0)).

Lemma with_tmp_inode tmp b s : w_inodes (with_tmp tmp b s) !! w_fresh w0 = Some (Inode b s).
Proof using. cbn. apply lookup_insert_eq. Qed.

Lemma with_tmp_set tmp b s b' s' : same_files (set_inode (w_fresh w0) (Inode b' s') (with_tmp tmp b s)) (with_tmp tmp b' s').
Proof using. unfold same_files. cbn. rewrite insert_insert_eq. by split_and!. Qed.

Lemma with_tmp_sound tmp b s : tmp <> path_ -> sound (with_tmp tmp b s).
Proof using Hwf.
  intros Hne. assert (forall i f, w_inodes w0 !! i = Some f -> w_inodes (with_tmp tmp b s) !! i = Some f) as Hold.
  { intros i f Hi. cbn. rewrite lookup_insert_ne; [done|]. pose proof (fs_fresh _ Hwf _ _ Hi). lia. }
  split_and!; [by intros t i f _ _; apply Hold| |].
  - intros t [->|Ht]%elem_of_cons; left; [|by exists t].
    exists (w_names w0). split; [by left|]. cbn. by rewrite lookup_insert_ne.
  - assert (fs_wf (set_fresh (S (w_fresh w0)) (set_inode (w_fresh w0) (Inode b s) w0))) as HX.
    { split; cbn.
      - intros i f [[<- _]|[_ Hi]]%lookup_insert_Some; [lia|]. pose proof (fs_fresh _ Hwf _ _ Hi). lia.
      - intros t p i Ht Hp. destruct (fs_entries _ Hwf t p i Ht Hp) as [f Hf]. exists f. by apply Hold. }
    apply fs_wf_names; [done|]. apply (fs_wf_insert tmp (w_fresh w0) _ HX). cbn. by rewrite lookup_insert_eq.
Qed.

(** The new contents are under the name. *)
Definition placed (X : world) : Prop :=
  w_names X = <[path_ := w_fresh w0]> (w_names w0) /\
  w_inodes X = <[w_fresh w0 := Inode data true]> (w_inodes w0) /\
  w_fresh X = S (w_fresh w0) /\ w_dirs X = w_dirs w0 /\ w_env X = w_env w0 /\ w_readdir X = w_readdir w0.
(** They are there in every table that a crash can bring back. *)
Definition durable (X : world) : Prop := forall t, t ∈ tables X -> t !! path_ = Some (w_fresh w0).

Lemma settled_durable X d : placed X -> dirname path_ = d -> durable (settled d X).
Proof using.
  intros (En & _) Hd t [->|Ht]%elem_of_cons.
  - cbn. rewrite En. apply lookup_insert_eq.
  - apply list_elem_of_fmap_1 in Ht as (old & -> & _). rewrite settle_lookup, decide_True, En by done. apply lookup_insert_eq.
Qed.

(** What lets the calls go through when none is refused. *)
Definition may_place (exclusive : bool) : Prop :=
  (exclusive = true -> w_names w0 !! path_ = None /\ through_file w0 path_ = false) /\ is_dir w0 path_ = false /\ is_dir w0 (dirname path_) = true.

Section commit.
Context (tmp : path) (Hne : tmp <> path_) (Hfree : w_names w0 !! tmp = None).
Let T : world := with_tmp tmp data true.

Lemma tmp_entry : w_names T !! tmp = Some (w_fresh w0).
Proof using. apply lookup_insert_eq. Qed.

Lemma renamed_placed : placed (set_names (<[path_ := w_fresh w0]> (delete tmp (w_names T))) T).
Proof using Hfree. unfold placed. cbn. rewrite delete_insert_id by done. by split_and!. Qed.

Lemma linked_placed V : V = set_names (<[path_ := w_fresh w0]> (w_names T)) T -> placed (set_names (delete tmp (w_names V)) V).
Proof using Hne Hfree. intros ->. unfold placed. cbn. rewrite delete_insert_ne, delete_insert_id by done. by split_and!. Qed.

Lemma commit_wp (exclusive : bool) w : same_files T w ->
  wpM (if exclusive then let* ok := link tmp path_ in if ok then unlink tmp else retM false else rename tmp path_)
    (fun ok w' => exists X, reach X w w' /\ sound X /\ (ok = true -> placed X) /\ (calm w -> may_place exclusive -> ok = true)) atomic w.
Proof using Hwf Hne Hfree.
  intros HT. pose proof (with_tmp_sound tmp data true Hne) as HS. fold T in HS. pose proof (sound_atomic _ _ HS HT) as HA.
  destruct exclusive.
  - apply wpM_bind. eapply wpM_mono; [by apply (link_wp T _ _ _ _ _ HT HA tmp_entry)| |done]. intros ok w1 [H1 Hc1]. cbn beta.
    assert (calm w -> may_place true -> ok = true) as Hok.
    { intros Hc (Hx & Hd & Hp). apply Hc1; [done|]. split_and!; [|done|done]. cbn. rewrite lookup_insert_ne by done. by apply Hx. }
    destruct ok; [|apply wpM_ret; by exists T; split_and!].
    set (V := set_names _ T) in H1. assert (sound V) as HV by (apply sound_insert; [done|apply with_tmp_inode]).
    eapply wpM_mono; [apply (unlink_wp V tmp w1); [apply H1|eapply sound_atomic; [done|apply H1]]| |done]. cbn beta. intros ok w2 [H2 Hc2].
    exists (if ok then set_names (delete tmp (w_names V)) V else V). split_and!.
    + destruct ok; by eapply reach_trans.
    + destruct ok; [by apply sound_delete|done].
    + intros ->. by apply linked_placed.
    + intros Hc _. apply Hc2; [by eapply reach_calm|]. exists (w_fresh w0). cbn. rewrite lookup_insert_ne by done. apply lookup_insert_eq.
  - eapply wpM_mono; [by apply (rename_wp T _ _ _ _ _ HT HA tmp_entry)| |done]. cbn beta. intros ok w1 [H1 Hc1].
    exists (if ok then set_names (<[path_ := w_fresh w0]> (delete tmp (w_names T))) T else T). split_and!.
    + by destruct ok.
    + destruct ok; [|done]. apply renamed_sound; [done|done|apply with_tmp_inode].
    + intros ->. apply renamed_placed.
    + intros Hc (_ & Hd & Hp). by apply Hc1.
Qed.
End commit.

(** The temporary file can be made. *)
Definition may_tmp : Prop :=
  let tmp := path_ ++ str ".000000" in w_names w0 !! tmp = None /\ is_dir w0 tmp = false /\ zlen path_ + 8 <= SQLITE_MAX_ALLOCATION_SIZE.
Definition may_replace (exclusive : bool) : Prop := may_place exclusive /\ may_tmp.

(** A result 0 or 1 after which the files are those of some [X]. *)
Definition outcome_of (exclusive : bool) (w : world) (rc : Z) (w' : world) : Prop :=
  exists X, reach X w w' /\ sound X /\ (rc = 0 \/ rc = 1) /\ (rc = 0 -> placed X /\ (dirname path_ = dir -> durable X)) /\
    (calm w -> may_replace exclusive -> is_dir w0 dir = true -> rc = 0).

Lemma outcome_fails exclusive X w w' : reach X w w' -> sound X -> ~ (calm w /\ may_replace exclusive) -> outcome_of exclusive w 1 w'.
Proof using. intros Hr Hs Hn. exists X. split_and!; [done|done|by right|done|]. intros H1 H2. by destruct Hn. Qed.

Lemma outcome_trans exclusive X w w1 rc w2 : reach X w w1 -> outcome_of exclusive w1 rc w2 -> outcome_of exclusive w rc w2.
Proof using.
  intros H1 (Y & H2 & Hs & Hrc & H0 & Hc). exists Y. split_and!; [by eapply reach_trans|done|done|done|].
  intros Hw. apply Hc. by eapply reach_calm.
Qed.

Definition body_post (exclusive : bool) (w : world) (r : Z * bool * bool) (w' : world) : Prop :=
  (r.1.1 = 0 -> r.2 = true) /\ outcome_of exclusive w r.1.1 w'.

Lemma sync_wp exclusive X w : same_files X w -> sound X -> placed X ->
  wpM (let* ok := credsFsyncDir dir in retM (if ok then 0 else 1, false, true))
    (body_post exclusive w) atomic w.
Proof using Hwf.
  intros HX HS HP. apply wpM_bind.
  eapply wpM_mono; [apply (fsync_dir_wp X); [done|intros w1 H1; by apply (sound_atomic X)]| |done]. cbn beta. intros ok w1 [H1 Hc].
  apply wpM_ret. split; [done|]. exists (if ok then settled dir X else X). split_and!.
  - by destruct ok.
  - destruct ok; [by apply sound_settled|done].
  - destruct ok; [by left|by right].
  - destruct ok; [|done]. intros _. split; [exact HP|]. intros Hd. by apply settled_durable.
  - intros Hw _ Hd. destruct HP as (_ & _ & _ & Ed & _). rewrite Hc; [done|done|].
    rewrite (same_is_dir X) by done. unfold is_dir. rewrite Ed. exact Hd.
Qed.

Lemma replace_body_wp tmp exclusive w : tmp <> path_ -> w_names w0 !! tmp = None -> same_files (with_tmp tmp [] false) w ->
  wpM (replace_body dir path_ tmp (w_fresh w0) data exclusive) (body_post exclusive w) atomic w.
Proof using Hwf.
  intros Hne Hfree HT. pose proof (fun b s => with_tmp_sound tmp b s Hne) as HS.
  assert (forall b s w', same_files (with_tmp tmp b s) w' -> atomic w') as HA by (intros b s w' H; by eapply sound_atomic).
  assert (forall is_open X w', reach X w w' -> sound X -> ~ (calm w /\ may_replace exclusive) ->
    wpM (retM (1, is_open, false)) (body_post exclusive w) atomic w') as Hfail.
  { intros o X w' Hr Hs Hn. apply wpM_ret. split; [done|]. by eapply outcome_fails. }
  apply wpM_getW, wpM_bind. eapply wpM_mono; [apply (write_loop_wp _ _ _ [] false data w atomic HT (with_tmp_inode _ _ _)); [lia|]| |done].
  { intros b s w' H. apply (HA b s). etransitivity; [symmetry; apply with_tmp_set|exact H]. }
  cbn beta. intros ok w1 (b & s & H1 & Hb & Hc1).
  assert (reach (with_tmp tmp b s) w w1) as Hr1 by (eapply reach_files; [exact H1|etransitivity; [symmetry; apply with_tmp_set|apply H1]|done|done]).
  destruct ok; cbn [negb]; [|apply (Hfail _ (with_tmp tmp b s)); [done|done|intros [Hc _]; by apply Hc1 in Hc]].
  specialize (Hb eq_refl). cbn [app] in Hb. subst b. apply wpM_bind.
  eapply wpM_mono; [apply (fsync_wp _ _ data s w1 atomic (proj1 Hr1) (with_tmp_inode _ _ _)); by apply HA| |done]. cbn beta. intros e w2 H2.
  destruct e as [e|]; cbn [bool_decide_eq_true].
  { rewrite bool_decide_eq_true_2 by done. apply (Hfail _ (with_tmp tmp data s)); [by eapply reach_trans; [|apply H2]|done|].
    intros [Hc _]. apply (reach_calm _ _ _ Hr1), (attempted_calm _ _ _ _ _ H2) in Hc. done. }
  rewrite bool_decide_eq_false_2 by (by apply is_Some_None). cbn [attempted] in H2.
  assert (reach (with_tmp tmp data true) w w2) as Hr2.
  { eapply reach_files; [eapply reach_trans; [exact Hr1|exact H2]|etransitivity; [symmetry; apply with_tmp_set|apply H2]|done|done]. }
  clear H1 H2 Hr1 Hc1. apply wpM_bind.
  eapply wpM_mono; [apply (succeeds_wp _ _ _ (proj1 Hr2)), (HA _ _ _ (proj1 Hr2))| |done]. cbn beta. intros ok w3 [H3 Hc3].
  assert (reach (with_tmp tmp data true) w w3) as Hr3 by (destruct ok; by eapply reach_trans).
  destruct ok; cbn [negb].
  2: { eapply Hfail; [done|done|]. intros [Hc _]. apply (reach_calm _ _ _ Hr2), Hc3 in Hc; done. }
  apply wpM_bind. eapply wpM_mono; [by apply (commit_wp tmp Hne Hfree exclusive w3), Hr3| |done]. cbn beta.
  intros ok w4 (X & H4 & HX & Hp & Hc4). assert (reach X w w4) as Hr4 by (by eapply reach_trans).
  destruct ok; cbn [negb].
  2: { eapply Hfail; [done|done|]. intros [Hc [Hm _]]. apply (reach_calm _ _ _ Hr3) in Hc. by apply Hc4 in Hm. }
  eapply wpM_mono; [by apply (sync_wp exclusive X w4 (proj1 H4) HX), Hp| |done]. cbn beta.
  intros r w5 [Hr H5]. split; [done|]. by eapply outcome_trans.
Qed.

(** The same function when the result is already decided. *)
Lemma outcome_mem exclusive w w1 d rc w2 : mem d w w1 -> outcome_of exclusive w1 rc w2 ->
  outcome_of exclusive w rc (set_live (w_live w2 - d) w2).
Proof using.
  intros Hm (X & (F & El & Es) & HS & Hrc & H0 & Hc). exists X. split_and!; [|done|done|done|].
  - split_and!; [done|destruct Hm as (_ & _ & ?); cbn; lia|]. etransitivity; [exact Es|apply Hm].
  - intros Hw. apply Hc. by eapply mem_calm.
Qed.

Lemma unlink_tmp_wp exclusive tmp w rc w' (committed : bool) : tmp <> path_ -> (rc = 0 -> committed = true) -> outcome_of exclusive w rc w' ->
  wpM (let* _ := if committed then retM true else unlink tmp in retM rc) (outcome_of exclusive w) atomic w'.
Proof using Hwf.
  intros Hne Hrc (X & Hr & HS & H01 & H0 & Hc). apply wpM_bind. destruct committed; [apply wpM_ret, wpM_ret; by exists X|].
  eapply wpM_mono; [apply (unlink_wp X tmp w'); [apply Hr|by eapply sound_atomic; [|apply Hr]]| |done]. cbn beta. intros ok w2 [H2 _].
  apply wpM_ret. exists (if ok then set_names (delete tmp (w_names X)) X else X). split_and!.
  - destruct ok; by eapply reach_trans.
  - destruct ok; [by apply sound_delete|done].
  - done.
  - by intros E%Hrc.
  - done.
Qed.

(** All of it from the temporary file on. *)
Lemma mkstemp_replace_wp exclusive w : same_files w0 w ->
  wpM (let* fd := mkstemp path_ in
    match fd with
    | None => retM 1
    | Some (tmp, fd) =>
        let* (rc, is_open, committed) := replace_body dir path_ tmp fd data exclusive in
        let* _ := if is_open : bool then succeeds else retM true in
        let* _ := if committed : bool then retM true else unlink tmp in
        retM rc
    end) (outcome_of exclusive w) atomic w.
Proof using Hwf.
  intros H0. pose proof (sound_atomic _ _ sound_start H0) as HA. apply wpM_bind.
  eapply wpM_mono; [by apply (mkstemp_wp w0)| |done]. cbn beta zeta. intros [[tmp i]|] w1.
  - intros [(-> & (x & Lx & Wx & Etmp) & Hfree & _ & H1) _].
    assert (tmp <> path_) as Hne by (intros ->; apply (f_equal (@length Z)) in Etmp; rewrite length_app in Etmp; cbn [length] in Etmp; lia).
    apply wpM_bind. eapply wpM_mono; [apply (replace_body_wp tmp exclusive w1 Hne Hfree), H1| |done]. cbn beta.
    intros [[rc o] c] w2 [Hrc H2]. cbn [fst snd] in Hrc, H2. cbn beta iota. apply wpM_bind.
    assert (outcome_of exclusive w rc w2) as Hout by (by eapply outcome_trans).
    assert (wpM (if o then succeeds else retM true) (fun _ => outcome_of exclusive w rc) atomic w2) as Hclose.
    { destruct o; [|by apply wpM_ret]. destruct Hout as (X & Hr & HS & Hrest).
      eapply wpM_mono; [apply (succeeds_wp X w2); [apply Hr|eapply sound_atomic; [exact HS|apply Hr]]| |done].
      intros ok w3 [H3 _]. exists X. split; [destruct ok; by eapply reach_trans|done]. }
    eapply wpM_mono; [exact Hclose| |done]. cbn beta. intros _ w3 H3. by apply unlink_tmp_wp.
  - intros [Hr Hc]. apply wpM_ret. eapply outcome_fails; [exact Hr|apply sound_start|]. intros [Hw [(_ & _ & Hd) (Hn & Hd' & _)]].
    destruct (Hc Hw); [done|done| |done]. by rewrite dirname_same by (apply (bool_decide_unpack _); by vm_compute).
Qed.

(** The look at an existing file of an exclusive replacement. *)
Lemma existing_wp (exclusive : bool) w : same_files w0 w ->
  wpM (if exclusive then
      let* existing := fopen_rb path_ in
      match existing with
      | inr _ => let* _ := succeeds in retM false
      | inl ENOENT => retM true
      | inl _ => retM false
      end
    else retM true)
    (fun (go : bool) w1 => reach w0 w w1 /\ if go then exclusive = true -> w_names w0 !! path_ = None else ~ (calm w /\ may_replace exclusive)) atomic w.
Proof using Hwf.
  intros H0. assert (forall w', same_files w0 w' -> atomic w') as HA by (intros; by apply (sound_atomic w0); [apply sound_start|]).
  destruct exclusive; [|by apply wpM_ret; split; [apply reach_refl|]]. apply wpM_bind.
  eapply wpM_mono; [apply (fopen_rb_wp w0 path_ w atomic H0 (HA w H0))| |done]. cbn beta. intros [e|i] w1 [H1 Hf].
  - destruct e; apply wpM_ret; (split; [done|]); try (by intros _; apply Hf).
    all: intros [Hc [(Ht & Hd & _) _]]; apply Hf in Hc as [_ Hc]; unfold obstructed in Hc; rewrite Hd, (proj2 (Ht eq_refl)) in Hc; done.
  - apply wpM_bind. eapply wpM_mono; [apply (succeeds_wp w0 w1); [apply H1|apply HA, H1]| |done]. intros ok w2 [H2 _].
    apply wpM_ret. split; [destruct ok; by eapply reach_trans|]. intros [_ [(Hn & _) _]]. rewrite (proj1 (Hn eq_refl)) in Hf. done.
Qed.

Lemma replace_wp exclusive w : same_files w0 w ->
  wpM (credsReplaceDurable dir path_ data exclusive)
    (fun rc w' => outcome_of exclusive w rc w' /\ (exclusive = true -> is_Some (w_names w0 !! path_) -> rc = 1 /\ same_files w0 w')) atomic w.
Proof using Hwf.
  intros H0. pose proof sound_start as HS. assert (forall w', same_files w0 w' -> atomic w') as HA by (intros; by eapply sound_atomic).
  apply wpM_bind. eapply wpM_mono; [apply (existing_wp exclusive w H0)| |done]. cbn beta. intros go w1 [H1 Hgo]. destruct go; cbn [negb].
  2: { apply wpM_ret. split; [by eapply outcome_fails|]. intros _ _. split; [done|apply H1]. }
  apply (wpM_mono _ (outcome_of exclusive w) _ atomic); [| |done].
  2: { intros rc w' H. split; [done|]. intros He Hs. rewrite (Hgo He) in Hs. by apply is_Some_None in Hs. }
  destruct (Z.ltb_spec 0x7fffffff (zlen path_ + 8)).
  { apply wpM_ret. eapply outcome_fails; [exact H1|exact HS|]. intros [_ [_ (_ & _ & Hlen)]]. unfold SQLITE_MAX_ALLOCATION_SIZE in Hlen. lia. }
  eapply (wpM_owning (calm w1)); [apply asprint_any_tr; rewrite length_app; change (length (str ".XXXXXX")) with 7%nat; unfold INT_MAX; lia|done|..].
  - intros w2 H2. apply HA. etransitivity; [apply H1|done].
  - intros w2 H2. cbn beta iota. eapply wpM_mono; [apply mkstemp_replace_wp; etransitivity; [apply H1|apply H2]| |done].
    cbn beta. intros rc w3 H3. eapply outcome_trans; [exact H1|]. by eapply outcome_mem.
  - intros w2 H2 Hn. apply wpM_ret. assert (reach w0 w w2) as Hr2.
    { destruct H1 as (F1 & L1 & S1), H2 as (F2 & S2 & L2). split_and!; [by etransitivity|lia|by etransitivity]. }
    eapply outcome_fails; [exact Hr2|exact HS|]. intros [Hc [_ (_ & _ & Hlen)]]. apply Hn. split; [by eapply reach_calm|done].
Qed.
End replace.
