(* ===== verification/CredsFileSpec.v ===== *)
(** What the credential files promise: the names of keys, what a crash can do
    to a file that is being replaced, saving and loading. *)
From S2P Require Import Prelude CInt Sha512 Sha512Spec Curve Ge GeBytes GeTable Ed25519 Ed25519Spec CString World Radix Json Creds CredsFile CredsSpec.
#[local] Opaque digest digest_iv sha512_init sha512_update sha512_final ed25519_create_keypair ed25519_sign ed25519_verify
  point_bytes signature_of public_of secret_of digest224.

(** * Names of keys *)
Lemma alphabet_digit d : 0 <= d < 32 -> exists p, strchr B32_ALPHABET (letter B32_ALPHABET d) = Some p /\ zlen B32_ALPHABET - zlen p = d.
Proof.
  intros Hd. assert (forallb (fun i => match strchr B32_ALPHABET (letter B32_ALPHABET i) with
    | Some p => zlen B32_ALPHABET - zlen p =? i | None => false end) (seqZ 0 32) = true) as H by (vm_compute; reflexivity).
  rewrite forallb_forall in H. specialize (H d). rewrite <- list_elem_of_In, elem_of_seqZ in H. specialize (H ltac:(lia)).
  destruct (strchr _ _) as [p|]; [|done]. exists p. split; [done|lia].
Qed.

Lemma alphabet_char c p : strchr B32_ALPHABET c = Some p ->
  let d := zlen B32_ALPHABET - zlen p in 0 <= d < 32 /\ c = letter B32_ALPHABET d.
Proof.
  intros (a & b & E & -> & _)%strchr_Some d.
  assert (d = zlen a) as -> by (unfold d; rewrite E, length_app; cbn [length]; lia).
  assert (zlen B32_ALPHABET = 32) as L by done. rewrite E, length_app in L. cbn [length] in L. split; [lia|].
  unfold letter. rewrite E, Nat2Z.id, list_lookup_middle by done. done.
Qed.

Lemma kid_loop_digits n kid : kid_loop (S n) kid = true <->
  exists D d, kid = letter B32_ALPHABET <$> (D ++ [d]) /\ length D = n /\ digits_wf 5 (D ++ [d]) /\ Z.land d 1 = 0.
Proof.
  revert kid. induction n as [|n IH]; intros kid.
  - destruct kid as [|c kid]; cbn [kid_loop].
    { split; [done|]. intros ([|] & d & E & L & _); [done|done]. }
    split.
    + destruct (strchr B32_ALPHABET c) as [p|] eqn:Ec; [|done]. apply alphabet_char in Ec as [Hd ->]. cbv zeta in *.
      set (d := zlen B32_ALPHABET - zlen p) in *. destruct (Z.eqb_spec (Z.land d 1) 0); cbn [Nat.eqb negb andb]; [|done].
      rewrite bool_decide_eq_true. intros ->. exists [], d. split_and!; [done|done|by apply Forall_singleton|done].
    + intros (D & d & E & L & W & Hd). destruct D; [|done]. cbn [app fmap list_fmap] in E. injection E as -> ->.
      apply Forall_cons in W as [W _]. destruct (alphabet_digit d) as (p & -> & Ep); [lia|]. cbv zeta. by rewrite Ep, Hd.
  - destruct kid as [|c kid].
    { split; [done|]. intros ([|? D] & d & E & L & _); [done|done]. }
    change (kid_loop (S (S n)) (c :: kid)) with (match strchr B32_ALPHABET c with None => false | Some _ => kid_loop (S n) kid end).
    split.
    + destruct (strchr B32_ALPHABET c) as [p|] eqn:Ec; [|done]. apply alphabet_char in Ec as [Hd ->]. cbv zeta in *.
      intros (D & d & -> & L & W & Hz)%IH. exists ((zlen B32_ALPHABET - zlen p) :: D), d.
      split_and!; [done|cbn [length]; lia| |done]. cbn [app]. by apply Forall_cons.
    + intros (D & d & E & L & W & Hd). destruct D as [|d0 D]; [done|]. cbn [app] in E. rewrite fmap_cons in E. injection E as -> ->.
      cbn [app] in W. apply Forall_cons in W as [W0 W]. destruct (alphabet_digit d0) as (p & -> & _); [lia|]. apply IH. cbn [length] in L.
      exists D, d. split_and!; [done|lia|done|done].
Qed.

(** The valid names are the encodings of 28 bytes. *)
Lemma kid_valid_iff kid : credsKidValid (Some kid) = true <-> exists raw, length raw = 28%nat /\ bytes_wf raw /\ kid = base32 raw.
Proof.
  change (credsKidValid (Some kid)) with (kid_loop (S 44) kid). rewrite kid_loop_digits. split.
  - intros (D & d & -> & L & W & Hd). set (E := D ++ [d]) in *. pose proof (val_bound 5 E ltac:(lia) W) as Hv.
    assert (zlen E = 45) as LE by (unfold E; rewrite length_app; cbn [length]; lia). rewrite LE in Hv.
    destruct (digits_of_value 8 28 (val 5 E / 2)) as (Lr & Wr & Vr); [lia|apply Z.div_pos; lia|]. cbv zeta in *.
    match type of Lr with length ?x = _ => set (raw := x) in * end. exists raw. split_and!; [done|done|].
    unfold base32. f_equal. apply (writes_radix 5); [lia|done|]. split; [done|rewrite LE, Lr; lia|].
    rewrite Vr, LE, Lr. change (8 * Z.of_nat 28) with 224. change (5 * 45 - 224) with 1.
    rewrite Z.mod_small by (split; [apply Z.div_pos; lia|apply Z.div_lt_upper_bound; lia]).
    assert (val 5 E mod 2 = 0) as H2.
    { unfold E. rewrite val_snoc. change 1 with (2 ^ 1 - 1) in Hd. rewrite land_ones_mod in Hd by lia. change (2 ^ 1) with 2 in Hd.
      replace (val 5 D * 2 ^ 5 + d) with (d + val 5 D * 16 * 2) by lia. by rewrite Z.mod_add. }
    pose proof (Z.div_mod (val 5 E) 2). lia.
  - intros (raw & Lr & Wr & ->). destruct (radix_writes 5 raw ltac:(lia) Wr) as [W L V]. unfold base32.
    assert (length (radix 5 raw) = 45%nat) as LE by lia. destruct (radix 5 raw) as [|d D _] using rev_ind; [done|].
    rewrite length_app in *. cbn [length] in *. exists D, d. split_and!; [done|lia|done|].
    change 1 with (2 ^ 1 - 1). rewrite land_ones_mod by lia. rewrite val_snoc in V.
    replace (5 * Z.of_nat (length D + 1) - 8 * zlen raw) with 1 in V by lia.
    replace d with ((val 8 raw - val 5 D * 16) * 2) by lia. apply Z.mod_mul. lia.
Qed.

Lemma kid_of_valid pub : credsKidValid (Some (kid_of pub)) = true.
Proof. apply kid_valid_iff. destruct (digest224_shape pub). eauto. Qed.

(** No separator and no dot, so the name cannot leave the directory. *)
Lemma valid_kid_safe kid : credsKidValid (Some kid) = true -> Forall safe_char kid /\ length kid = 45%nat.
Proof.
  intros (raw & L & W & ->)%kid_valid_iff. split; [by apply base32_safe|].
  unfold base32. rewrite length_fmap. pose proof (length_radix 5 raw ltac:(lia) W). lia.
Qed.
