(* ===== verification/CredsRead.v ===== *)
(** Credential files read back: what [doltliteCredsLoad], [doltliteCredsImport]
    and [doltliteCredsLoadPubKey] of [remote/doltlite_creds.c] find in a
    directory, whatever calls fail on the way, and that no memory is lost. *)
From S2P Require Import Prelude CInt Ge Ed25519 Ed25519Spec CString World Radix Json Creds CredsFile CredsSpec CredsReplace CredsFileSpec.

#[local] Opaque public_of secret_of digest224.

(** * Computations that read files

    [rd W P d m e own R] is [tr] in worlds with the files of [W]. *)
Definition rd {A} (W : world) (P : Prop) (d : Z) (m : M A) (e : Z) (own : A -> Z) (R : A -> Prop) : Prop :=
  forall w0 w, mem d w0 w -> same_files W w0 -> (P -> calm w) ->
    wpM m (fun a w' => mem (e + own a) w0 w' /\ R a) (same_files w0) w.

Section rules.
Context (W : world) (P : Prop).

Lemma rd_tr {A} d (m : M A) e own R : tr P d m e own R -> rd W P d m e own R.
Proof using. intros H w0 w Hw _. by apply H. Qed.

Lemma rd_ret {A} d (a : A) e own (R : A -> Prop) : d = e + own a -> R a -> rd W P d (retM a) e own R.
Proof using. intros. by apply rd_tr, tr_ret. Qed.

Lemma rd_mono {A} d (m : M A) e own (R R' : A -> Prop) : rd W P d m e own R -> (forall a, R a -> R' a) -> rd W P d m e own R'.
Proof using. intros H HR w0 w Hw HW HP. eapply wpM_mono; [by apply H| |done]. cbn beta. intros a w' [? ?]. auto. Qed.

Lemma rd_bind {A B} d (m : M A) (k : A -> M B) own1 R1 e own R :
  rd W P 0 m 0 own1 R1 -> (forall a, R1 a -> rd W P (d + own1 a) (k a) e own R) -> rd W P d (bindM m k) e own R.
Proof using.
  intros Hm Hk w0 w Hw HW HP. apply wpM_bind. assert (same_files W w) as HWw by (etransitivity; [exact HW|by apply (mem_files d)]).
  eapply wpM_mono; [apply (Hm w w (mem_refl w) HWw HP)| |].
  - cbn beta. intros a w' [Hw' Ha]. apply Hk; [done|by apply (mem_trans _ _ _ w)|done|].
    intros HP'. apply (mem_calm _ _ _ Hw'), HP, HP'.
  - intros w' Hw'. etransitivity; [|done]. by apply (mem_files d).
Qed.

(** The same for a computation that is handed blocks. *)
Lemma rd_seq {A B} d d' (m : M A) (k : A -> M B) own1 R1 e own R :
  rd W P d m d' own1 R1 -> (forall a, R1 a -> rd W P (d' + own1 a) (k a) e own R) -> rd W P d (bindM m k) e own R.
Proof using.
  intros Hm Hk w0 w Hw HW HP. apply wpM_bind. assert (same_files W w) as HWw by (etransitivity; [exact HW|by apply (mem_files d)]).
  assert (mem d (set_live (w_live w - d) w) w) as Hw' by (split_and!; [done..|cbn; lia]).
  eapply wpM_mono; [apply (Hm _ w Hw' HWw HP)| |].
  - cbn beta. intros a w' [(F & S & L) Ha]. cbn in L, S. destruct Hw as (F0 & S0 & L0). apply Hk; [done| |done|].
    + split_and!; [by etransitivity|by etransitivity|lia].
    + intros HP'. specialize (HP HP'). unfold calm in *. rewrite HP in S. by apply suffix_nil_inv in S.
  - intros w' Hw''. etransitivity; [by apply (mem_files d)|exact Hw''].
Qed.

Lemma rd_own {A B} d (m : M (option A)) (k : option A -> M B) R1 e own R :
  rd W P 0 m 0 owned R1 -> (forall x, R1 x -> rd W P (d + owned x) (k x) (e + owned x) own R) -> rd W P d (owning m k) e own R.
Proof using.
  intros Hm Hk. eapply rd_bind; [done|]. intros x Hx w0 w Hw HW HP. apply wpM_bind.
  eapply wpM_mono; [by apply Hk| |done]. cbn beta. intros r w' [Hr HR].
  destruct x; cbn [owned] in *; unfold wpM, sqlite3_free, bindM, modW, retM; (split; [|done]).
  - destruct Hr as (? & ? & ?). split_and!; [done..|]. cbn. lia.
  - by rewrite Z.add_0_r in Hr.
Qed.

Lemma rd_lift {A B} d (m : option A) a (k : A -> M B) e own R : m = Some a -> rd W P d (k a) e own R -> rd W P d (bindM (lift m) k) e own R.
Proof using. by intros ->. Qed.

Lemma rd_frame {A} d f (m : M A) e own R : rd W P d m e own R -> rd W P (d + f) m (e + f) own R.
Proof using.
  intros H w0 w Hw HW HP.
  assert (mem d (set_live (w_live w0 + f) w0) w) as Hw' by (destruct Hw as (? & ? & ?); split_and!; [done..|cbn; lia]).
  eapply wpM_mono; [apply (H _ _ Hw' HW HP)| |done]. cbn beta. intros a w' [(? & ? & Hl) HR].
  split; [|done]. split_and!; [done..|]. cbn in Hl. lia.
Qed.

Lemma rd_call {A} d (m : M A) e own R : d = e -> rd W P 0 m 0 own R -> rd W P d m e own R.
Proof using. intros -> H. apply (rd_frame _ e) in H. by rewrite Z.add_0_l in H. Qed.

Lemma rd_free {A B} d (x : option A) (k : unit -> M B) e own R : rd W P (d - owned x) (k ()) e own R -> rd W P d (bindM (sqlite3_free x) k) e own R.
Proof using.
  intros H w0 w Hw HW HP. unfold wpM, bindM. destruct x; cbn [sqlite3_free]; unfold modW, retM; apply H; cbn [owned]; try done.
  - destruct Hw as (? & ? & ?). split_and!; [done..|cbn; lia].
  - by rewrite Z.sub_0_r.
Qed.

Lemma rd_next {A} d (k : choice -> M A) e own R :
  rd W P d (k Go) e own R -> (forall c, ~ P -> rd W P d (k c) e own R) -> rd W P d (bindM next k) e own R.
Proof using.
  intros H0 Hc w0 w Hw HW HP. apply wpM_next; [by apply (mem_files d)|by intros; apply H0|].
  intros c cs E _. apply Hc; [| |done|].
  - intros HP'. specialize (HP HP'). unfold calm in HP. congruence.
  - rewrite <- (Z.add_0_r d). eapply mem_trans; [done|]. by eapply mem_set_choices.
  - intros HP'. specialize (HP HP'). unfold calm in HP. congruence.
Qed.

Lemma rd_getW {A} d (k : world -> M A) e own R : (forall w, same_files W w -> rd W P d (k w) e own R) -> rd W P d (bindM getW k) e own R.
Proof using. intros H w0 w Hw HW HP. apply wpM_getW, H; [|done..]. etransitivity; [exact HW|by apply (mem_files d)]. Qed.

Lemma rd_assoc {A B C} (m : M A) (f : A -> M B) (g : B -> M C) d e own R :
  rd W P d (bindM m (fun a => bindM (f a) g)) e own R -> rd W P d (bindM (bindM m f) g) e own R.
Proof using. intros H w0 w Hw HW HP. unfold wpM. rewrite bind_assoc. by apply H. Qed.

(** ** Calls *)
Lemma succeeds_rd {A} d (k : bool -> M A) e own R :
  rd W P d (k true) e own R -> (~ P -> rd W P d (k false) e own R) -> rd W P d (bindM succeeds k) e own R.
Proof using.
  intros Ht Hf. apply rd_assoc, rd_next; [exact Ht|]. intros c HP. destruct (refused c); [by apply Hf|exact Ht].
Qed.

Lemma fopen_rd {A} p d (k : errno + nat -> M A) e own R :
  (forall i, w_names W !! p = Some i -> rd W P d (k (inr i)) e own R) ->
  (forall x, (P -> w_names W !! p = None) -> (x = ENOENT -> w_names W !! p = None /\ obstructed W p = false) ->
    (x <> ENOENT -> P -> obstructed W p = true) -> rd W P d (k (inl x)) e own R) -> rd W P d (bindM (fopen_rb p) k) e own R.
Proof using.
  intros Hs Hn w0 w Hw HW HP. apply wpM_bind. assert (same_files W w) as HWw by (etransitivity; [exact HW|by apply (mem_files d)]).
  apply wpM_take; [by apply (mem_files d)|]. intros c w1 Ht.
  assert (mem d w0 w1) as H1.
  { destruct Ht as [(_ & _ & ->)|(cs & E & ->)]; [done|]. rewrite <- (Z.add_0_r d). eapply mem_trans; [done|]. by eapply mem_set_choices. }
  assert (P -> calm w1) as HP1 by (intros HP'; by eapply taken_calm; [|apply HP]).
  apply wpM_getW. assert (same_files W w1) as HW1 by (etransitivity; [exact HW|by apply (mem_files d)]).
  rewrite (same_names W w1), (same_obstructed W w1) by done. destruct (refused c) eqn:Ec.
  { apply wpM_ret, Hn; [|done| |exact H1|exact HW|exact HP1]; [intros HP'|intros _ HP']; by destruct (taken_calm _ _ _ Ht (HP HP')) as [-> _]. }
  destruct (w_names W !! p) eqn:E; apply wpM_ret; [by apply Hs|]. apply Hn; [done| | |done..]; by destruct (obstructed W p).
Qed.

Lemma contents_rd {A} i f d (k : list Z -> M A) e own R : w_inodes W !! i = Some f -> rd W P d (k (i_data f)) e own R -> rd W P d (bindM (contents i) k) e own R.
Proof using.
  intros Hi Hk w0 w Hw HW HP. apply wpM_bind, wpM_getW. assert (same_files W w) as HWw by (etransitivity; [exact HW|by apply (mem_files d)]).
  destruct HWw as (_ & _ & -> & _). rewrite Hi. apply wpM_ret. by apply Hk.
Qed.

Lemma ftell_rd {A} i f d (k : Z -> M A) e own R : w_inodes W !! i = Some f ->
  rd W P d (k (zlen (i_data f))) e own R -> (~ P -> rd W P d (k (-1)) e own R) -> rd W P d (bindM (ftell_end i) k) e own R.
Proof using.
  intros Hi Hk Hn. apply rd_assoc, rd_next.
  - apply rd_assoc. by eapply contents_rd.
  - intros c HP. destruct (refused c); [by apply Hn|]. apply rd_assoc. by eapply contents_rd.
Qed.

Lemma fread_rd {A} i f n d (k : list Z -> M A) e own R : w_inodes W !! i = Some f ->
  rd W P d (k (take (Z.to_nat n) (i_data f))) e own R ->
  (forall j, ~ P -> (j <= Z.to_nat n)%nat -> rd W P d (k (take j (i_data f))) e own R) -> rd W P d (bindM (fread i n) k) e own R.
Proof using.
  intros Hi Hk Hn. apply rd_assoc, rd_next; [by eapply rd_assoc, contents_rd|].
  intros c HP. eapply rd_assoc, contents_rd; [done|]. destruct c; try exact Hk.
  - apply (Hn 0%nat); [done|lia].
  - apply Hn; [done|lia].
Qed.
End rules.

(** * The contents of a file *)
Definition file_at (W : world) (p : path) : option (list Z) := let? i := w_names W !! p in i_data <$> w_inodes W !! i.
(** Files over a megabyte are not read. *)
Definition short_file (W : world) (p : path) : option (list Z) :=
  let? b := file_at W p in if zlen b <=? 2 ^ 20 then Some b else None.

Lemma rd_none {A} W P d e own (x : option A) : own None = 0 -> d = e -> (P -> x = None) -> rd W P d (retM None) e own (may P x).
Proof. intros Ho -> Hx. apply rd_ret; [lia|]. destruct x; [right|by left]. split; [done|]. by intros ?%Hx. Qed.

Lemma slurp_rd W P p : fs_wf W -> rd W P 0 (slurp p) 0 owned (may P (short_file W p)).
Proof.
  intros Hwf. unfold slurp. apply fopen_rd; [|intros x Hn _ _; apply rd_none; [done..|]; intros HP; unfold short_file, file_at; by rewrite Hn].
  intros i Hi. destruct (fs_entries _ Hwf (w_names W) p i) as [f Hf]; [by left|done|].
  assert (short_file W p = if zlen (i_data f) <=? 2 ^ 20 then Some (i_data f) else None) as -> by (unfold short_file, file_at; cbn; rewrite Hi; cbn; by rewrite Hf).
  assert (~ P -> rd W P 0 (retM None) 0 owned (may P (if zlen (i_data f) <=? 2 ^ 20 then Some (i_data f) else None))) as Hno
    by (intros HP; by apply rd_none).
  apply succeeds_rd; [|done]. apply (ftell_rd _ _ i f); [done| |done]. change (Z.shiftl 1 20) with (2 ^ 20). cbn [negb].
  rewrite Z.leb_antisym. destruct (Z.ltb_spec (2 ^ 20) (zlen (i_data f))); cbn [negb].
  { assert ((zlen (i_data f) <? 0) || true = true) as -> by (by rewrite orb_true_r). by apply rd_none. }
  assert ((zlen (i_data f) <? 0) || false = false) as -> by lia.
  clear Hno. apply succeeds_rd; [|intros HP; by apply rd_none]. cbn [negb].
  eapply rd_bind; [apply rd_tr, malloc_tr; unfold SQLITE_MAX_ALLOCATION_SIZE; lia|]. intros r [->|[-> HP]]; cbn beta iota; [|by apply rd_none].
  assert (forall b, (zlen b = zlen (i_data f) -> b = i_data f) -> (P -> zlen b = zlen (i_data f)) ->
    rd W P (0 + owned (Some (zlen (i_data f) + 1))) (if zlen b =? zlen (i_data f) then let* _ := fill (zlen (i_data f) + 1) b in retM (Some b)
      else let* _ := sqlite3_free (Some (zlen (i_data f) + 1)) in retM None) 0 owned (may P (Some (i_data f)))) as Hend.
  { intros b Hb HP. destruct (Z.eqb_spec (zlen b) (zlen (i_data f))) as [E|E].
    - rewrite (Hb E). unfold fill. rewrite Z.leb_refl. eapply (rd_lift _ _ _ (Some _)); [done|]. apply rd_ret; [done|by left].
    - apply rd_free. cbn [owned]. apply rd_none; [done..|]. intros HP'. by apply HP in HP'. }
  apply (fread_rd _ _ i f); [done| |].
  - apply Hend; [|intros _; rewrite length_take; lia]. intros _. apply firstn_all2. lia.
  - intros j HP _. apply Hend; [|done]. rewrite length_take. intros E. apply firstn_all2. lia.
Qed.

Lemma rd_own_may {A B} W P d (m : M (option A)) x (k : option A -> M B) e own R :
  rd W P 0 m 0 owned (may P x) -> (forall y, x = Some y -> rd W P (d + 1) (k (Some y)) (e + 1) own R) ->
  ((P -> x = None) -> rd W P d (k None) e own R) -> rd W P d (owning m k) e own R.
Proof.
  intros Hm Hs Hn. eapply rd_own; [exact Hm|]. intros [r|] Hr; cbn [owned]; rewrite ?Z.add_0_r.
  - apply Hs. by destruct Hr as [<-|[? _]].
  - apply Hn. intros HP. by destruct Hr as [<-|[_ ?]].
Qed.

(** Takes the next block from [lem]; NULL ends the function. *)
Ltac read_own lem := eapply rd_own_may; [apply lem| |intros ?; apply rd_none; [done|lia|]].

(** * Keys in a directory *)
Definition stored (W : world) (dir kid : list Z) : option (list Z) :=
  if credsKidValid (Some kid) then cstr <$> short_file W (jwk_path dir kid) else None.

Lemma file_path_tr P dir kid : zlen dir < 2 ^ 30 ->
  tr P 0 (credsFilePath dir kid) 0 owned (may P (if credsKidValid (Some kid) then Some (jwk_path dir kid) else None)).
Proof.
  intros Hd. unfold credsFilePath. destruct (credsKidValid (Some kid)) eqn:E; [|by apply may_none].
  apply valid_kid_safe in E as [_ L]. apply asprint_tr. unfold jwk_path. rewrite length_app. cbn [length]. rewrite length_app.
  change (length (str ".jwk")) with 4%nat. unfold SQLITE_MAX_ALLOCATION_SIZE. lia.
Qed.

Lemma short_file_length W p b : short_file W p = Some b -> zlen b <= 2 ^ 20.
Proof. unfold short_file. destruct (file_at W p); [|done]. cbn. destruct (Z.leb_spec (zlen l) (2 ^ 20)); [|done]. by intros [= <-]. Qed.

(** Both loaders, with what they make of the text. *)
Lemma with_file_rd {A} W P dir kid own (x : option A) (k : list Z -> M (option A)) : fs_wf W -> zlen dir < 2 ^ 30 -> own None = 0 ->
  (P -> stored W dir kid = None -> x = None) ->
  (forall json, stored W dir kid = Some json -> zlen json < 2 ^ 30 -> rd W P 0 (k json) 0 own (may P x)) ->
  rd W P 0 (let~ path_ := credsFilePath dir kid in
    match path_ with
    | None => retM None
    | Some path_ =>
        let~ json := slurp path_ in
        match json with None => retM None | Some json => k (cstr json) end
    end) 0 own (may P x).
Proof.
  intros Hwf Hd Ho Hn Hk. unfold stored in *.
  eapply rd_own_may; [by apply rd_tr, file_path_tr| |intros H; apply rd_none; [done..|]].
  2: { intros HP. apply Hn; [done|]. destruct (credsKidValid (Some kid)); [by apply H in HP|done]. }
  destruct (credsKidValid (Some kid)) eqn:Ev; [|done]. intros y [= <-].
  eapply rd_own_may; [by apply slurp_rd| |intros H; apply rd_none; [done..|]].
  2: { intros HP. apply Hn; [done|]. by rewrite H. }
  intros json Ej. apply rd_call; [lia|]. apply Hk; [by rewrite Ej|]. apply short_file_length in Ej. pose proof (cstr_length json). lia.
Qed.

(** The name of the key in a file is that of the file. *)
Definition json_key (json kid : list Z) : option (list Z) :=
  let? seed := jwk_seed json in if streq (kid_of (public_of seed)) kid then Some seed else None.
Definition key_in (W : world) (dir kid : list Z) : option (list Z) := let? json := stored W dir kid in json_key json kid.

(** A file with a private key is no public key. *)
Definition json_public (json kid : list Z) : option (list Z) :=
  match json_member json (str "d") with
  | Some _ => None
  | None =>
      if bool_decide (json_find json (str "kty") = Some (str "OKP")) && bool_decide (json_find json (str "crv") = Some (str "Ed25519")) then
        let? x := json_find json (str "x") in
        let? raw := decode64 x in
        if (zlen raw =? 32) && streq (kid_of raw) kid then Some raw else None
      else None
  end.
Definition public_in (W : world) (dir kid : list Z) : option (list Z) := let? json := stored W dir kid in json_public json kid.

Lemma jwk_seed_buffer json seed : jwk_seed json = Some seed -> buffer 32 seed.
Proof.
  unfold jwk_seed. intros H.
  destruct (json_find json (str "d")) as [ds|]; [|done]. cbn [mbind option_bind] in H. destruct (json_find json (str "x")) as [xs|]; [|done]. cbn [mbind option_bind] in H.
  destruct (json_find json (str "kty")); [|done]. cbn [mbind option_bind] in H. destruct (json_find json (str "crv")); [|done]. cbn [mbind option_bind] in H.
  destruct (_ && _); [|done]. destruct (decode64 ds) as [d|] eqn:Ed; [|done]. cbn [mbind option_bind] in H. destruct (decode64 xs) as [x|] eqn:Ex; [|done]. cbn [mbind option_bind] in H.
  apply decode64_bytes in Ed, Ex. unfold numbers_seed in H.
  destruct (Z.eqb_spec (zlen d) 32); [|done]. cbn [negb] in H. destruct (zlen x =? 32).
  - destruct (streq _ _); [|done]. injection H as <-. split; [lia|done].
  - destruct (Z.eqb_spec (zlen x) 64); [|done]. destruct (_ && _); [|done]. injection H as <-.
    split; [rewrite length_take; lia|by apply bytes_wf_take].
Qed.

Section load.
Context (l : locals) (Hl : locals_wf l).

Lemma load_json_tr P json kid : zlen json < 2 ^ 30 -> tr P 0 (load_json l json kid) 0 owned (may P (creds_of <$> json_key json kid)).
Proof using Hl.
  intros Hj. unfold load_json, json_key. eapply tr_bind; [by apply (from_jwk_tr l Hl)|]. intros c Hc.
  destruct c as [c|]; cbn [owned].
  - destruct Hc as [Hc|[? _]]; [|done]. destruct (jwk_seed json) as [seed|] eqn:Es; [|done]. injection Hc as ->. cbv beta iota.
    destruct (keypair_of l Hl _ (jwk_seed_buffer _ _ Es)) as (_ & [Lp Wp] & _).
    eapply tr_own_gives; [apply (kid_tr l Hl); cbn [creds_of c_pub]; [done|lia]| |].
    + cbn [creds_of c_pub]. destruct (streq _ kid); cbn [fmap option_fmap option_map]; [apply tr_ret; [done|by left]|]. apply (free_tr _ _ (Some (creds_of seed))). by apply may_none.
    + intros HP. apply (free_tr _ _ (Some (creds_of seed))). by apply may_none.
  - apply may_none; [done|]. intros HP. destruct Hc as [Hc|[_ ?]]; [|done]. by destruct (jwk_seed json).
Qed.

Lemma load_rd W P dir kid : fs_wf W -> zlen dir < 2 ^ 30 ->
  rd W P 0 (doltliteCredsLoad l (Some dir) kid) 0 owned (may P (creds_of <$> key_in W dir kid)).
Proof using Hl.
  intros Hwf Hd. apply (with_file_rd W P dir kid owned _ (fun json => load_json l json kid)); [done..| |].
  - intros _ E. unfold key_in. by rewrite E.
  - intros json E Hj. unfold key_in. rewrite E. cbn. by apply rd_tr, load_json_tr.
Qed.

Lemma public_json_tr P json kid : zlen json < 2 ^ 30 -> tr P 0 (public_of_json l json kid) 0 nothing (may P (json_public json kid)).
Proof using Hl.
  intros Hj. unfold public_of_json, json_public. eapply tr_lift; [apply credsJsonObjectValue_member|].
  destruct (json_member json (str "d")) as [dv|]; [apply tr_ret; [done|by left]|].
  eapply tr_own; [by apply jsonFindString_tr|]. intros kty Hk. fold (json_find json (str "kty")) in Hk.
  eapply tr_own; [by apply jsonFindString_tr|]. intros crv Hc. fold (json_find json (str "crv")) in Hc.
  assert (forall (x : option (list Z)) d e, d = e -> (P -> x = None) -> tr P d (retM None) e nothing (may P x)) as Hno.
  { intros x d e -> Hx. apply tr_ret; [unfold nothing; lia|]. destruct x; [right|by left]. split; [done|]. by intros ?%Hx. }
  destruct (bool_decide_reflect (kty = Some (str "OKP"))) as [->|Nk]; cbn [negb].
  2: { apply Hno; [done|]. intros HP. destruct Hk as [->|[_ ?]]; [|done]. by rewrite bool_decide_eq_false_2. }
  destruct Hk as [<-|[? _]]; [|done]. rewrite (bool_decide_eq_true_2 (Some (str "OKP") = _)) by reflexivity. cbn [andb].
  destruct (bool_decide_reflect (crv = Some (str "Ed25519"))) as [->|Nc]; cbn [negb].
  2: { apply Hno; [done|]. intros HP. destruct Hc as [->|[_ ?]]; [|done]. by rewrite bool_decide_eq_false_2. }
  destruct Hc as [<-|[? _]]; [|done]. rewrite (bool_decide_eq_true_2 (Some (str "Ed25519") = _)) by reflexivity.
  eapply (tr_own_may _ _ _ (json_find json (str "x"))); [by apply jsonFindString_tr| |intros HN; apply Hno; [lia|intros HP; by rewrite (HN HP)]].
  intros x Ex. rewrite Ex. apply length_json_find in Ex.
  eapply tr_own_may; [apply decode64_tr; lia| |intros HN; apply Hno; [lia|intros HP; by rewrite (HN HP)]].
  intros raw Er. rewrite Er. apply decode64_bytes in Er. change DOLTLITE_PUBKEY_LEN with 32.
  destruct (Z.eqb_spec (zlen raw) 32); cbn [negb andb]; [|by apply Hno].
  eapply tr_lift; [apply (sha512_224_spec l Hl); [done|lia]|]. destruct (digest224_shape raw) as [L224 W224].
  eapply tr_own_gives; [apply base32_tr; [done|lia]| |].
  - fold (kid_of raw). unfold streq. destruct (bool_decide_reflect (kid_of raw = kid)) as [->|N].
    + rewrite bool_decide_eq_true_2 by done. apply tr_ret; [done|by left].
    + rewrite bool_decide_eq_false_2 by congruence. by apply Hno.
  - intros HP. rewrite bool_decide_eq_false_2 by done. by apply Hno.
Qed.

Lemma load_public_rd W P dir kid : fs_wf W -> zlen dir < 2 ^ 30 ->
  rd W P 0 (doltliteCredsLoadPubKey l (Some dir) kid) 0 nothing (may P (public_in W dir kid)).
Proof using Hl.
  intros Hwf Hd. apply (with_file_rd W P dir kid nothing _ (fun json => public_of_json l json kid)); [done..| |].
  - intros _ E. unfold public_in. by rewrite E.
  - intros json E Hj. unfold public_in. rewrite E. cbn. by apply rd_tr, public_json_tr.
Qed.
End load.
