(* ===== verification/BearerSpec.v ===== *)
(** What [doltliteCredsVerifyBearer] of [remote/doltlite_creds.c] accepts: the
    conditions on a token in terms of its text, of the public key the
    directory holds and of [accepted], the equation of Ed25519. *)
From S2P Require Import Prelude CInt Ge Ed25519 Ed25519Spec CString World Radix Json Creds CredsFile Bearer CredsSpec CredsReplace CredsFileSpec CredsRead.

#[local] Opaque public_of secret_of digest224.

(** * The claims *)
Definition times_valid (now exp : Z) (iat nbf : option Z) : Prop :=
  now <= exp + 60 /\ exp <= now + 90 /\
  (forall t, iat = Some t -> t <= now + 60 /\ t <= exp <= t + 30) /\
  (forall t, nbf = Some t -> t <= now + 60 /\ t <= exp).

Definition is_time (t : Z) : Prop := 0 <= t < 2 ^ 63.

Lemma sub64_time a b : is_time a -> is_time b -> (a - b)%i64 = Some (a - b).
Proof. unfold is_time, lift2, ck64, in64. cbn [cst]. intros. by rewrite (proj2 (andb_true_iff _ _)) by lia. Qed.

(** [a > b && a - b > n] *)
Lemma after_by a b n : is_time a -> is_time b -> 0 <= n ->
  (if b <? a then let? d := (a - b)%i64 in Some (n <? d) else Some false) = Some (n <? a - b).
Proof. intros Ha Hb Hn. rewrite sub64_time by done. destruct (Z.ltb_spec b a); [done|]. f_equal. lia. Qed.

Lemma times_ok_spec now exp iat nbf : is_time now -> is_time exp -> (forall t, iat = Some t -> is_time t) -> (forall t, nbf = Some t -> is_time t) ->
  exists b, times_ok now exp iat nbf = Some b /\ (b = true <-> times_valid now exp iat nbf).
Proof.
  intros Hn He Hi Hb. unfold times_ok, times_valid, JWT_CLOCK_SKEW_SECONDS, JWT_TTL_SECONDS.
  rewrite !after_by by (assumption || lia).
  destruct (Z.ltb_spec 60 (now - exp)); [exists false; split; [done|]; split; [done|lia]|].
  destruct (Z.ltb_spec (30 + 60) (exp - now)); [exists false; split; [done|]; split; [done|lia]|].
  assert (exists i, match iat with
    | None => Some true
    | Some iat =>
        let? future := if now <? iat then let? d := (iat - now)%i64 in Some (60 <? d) else Some false in
        if future then Some false else if exp <? iat then Some false else let? d := (exp - iat)%i64 in Some (negb (30 <? d))
    end = Some i /\ (i = true <-> forall t, iat = Some t -> t <= now + 60 /\ t <= exp <= t + 30)) as (i & -> & Ei).
  { destruct iat as [t|]; [|by exists true]. specialize (Hi t eq_refl). rewrite after_by, sub64_time by (assumption || lia).
    destruct (Z.ltb_spec 60 (t - now)); [exists false; split; [done|]; split; [done|]; intros Q; specialize (Q t eq_refl); lia|].
    destruct (Z.ltb_spec exp t); [exists false; split; [done|]; split; [done|]; intros Q; specialize (Q t eq_refl); lia|].
    eexists. split; [done|]. split; [intros Q ? [= <-]; lia|]. intros Q. specialize (Q t eq_refl). lia. }
  destruct i; cbn [negb]; [|exists false; split; [done|]; split; [done|]; intros (_ & _ & Q & _); by apply Ei in Q].
  pose proof (proj1 Ei eq_refl) as Hiat. destruct nbf as [t|]; [|exists true; split; [done|]; split; [intros _; split_and!; [lia|lia|done|done]|done]].
  specialize (Hb t eq_refl). rewrite after_by by (assumption || lia).
  destruct (Z.ltb_spec 60 (t - now)); [exists false; split; [done|]; split; [done|]; intros (_ & _ & _ & Q); specialize (Q t eq_refl); lia|].
  eexists. split; [done|]. split; [intros Q; split_and!; [lia|lia|done|intros ? [= <-]; lia]|]. intros (_ & _ & _ & Q). specialize (Q t eq_refl). lia.
Qed.

(** [b] is decided by [X], or false when there may be faults. *)
Definition decides (P X : Prop) (b : bool) : Prop := (b = true -> X) /\ (P -> X -> b = true).

Lemma decides_false P X W d e : d = e -> (P -> ~ X) -> rd W P d (retM false) e nothing (decides P X).
Proof. intros -> H. apply rd_ret; [unfold nothing; lia|]. split; [done|]. intros HP HX. by destruct (H HP). Qed.

Definition long_member (json key : list Z) : option Z := jsonParseLong (json_member json key).
(** A member that may be absent. *)
Definition optional_member (json key : list Z) (v : option Z) : Prop :=
  match json_member json key with None => v = None | Some _ => is_Some v /\ long_member json key = v end.

Definition claims_valid (claims kid audience : list Z) (now : Z) : Prop :=
  json_find claims (str "iss") = Some JWT_ISSUER /\ json_find claims (str "sub") = Some (JWT_SUBJECT_PREFIX ++ kid) /\
  for_audience claims audience = true /\
  exists exp iat nbf, long_member claims (str "exp") = Some exp /\ optional_member claims (str "iat") iat /\
    optional_member claims (str "nbf") nbf /\ times_valid now exp iat nbf.

Lemma parse_long_time p v : jsonParseLong p = Some v -> is_time v.
Proof.
  unfold jsonParseLong. destruct p as [p|]; [|done]. set (z := span p (skip_digits p)).
  assert (decimal_of LONG_MAX z (doltliteParseDecimal (Some z) LONG_MAX) \/ doltliteParseDecimal (Some z) LONG_MAX = DECIMAL_INVALID) as [H|H].
  { destruct z as [|c z]; [by right|left]. apply (parse_decimal_loop_spec LONG_MAX [] (c :: z)); unfold LONG_MAX; [lia|by apply Forall_nil|done]. }
  - destruct (doltliteParseDecimal _ _) as [u| |]; [|done|done]. destruct H as (Hz & -> & Hmx). pose proof (dec_val_nonneg z Hz).
    destruct (jsonSkipWs _) as [|c r]; [done|]. destruct (_ || _); [|done]. intros [= <-]. unfold is_time, LONG_MAX in *. lia.
  - by rewrite H.
Qed.

Lemma optional_long json key : jsonFindOptionalLong json key = Some (match json_member json key with None => Some None | Some _ => let? v := long_member json key in Some (Some v) end).
Proof.
  unfold jsonFindOptionalLong, long_member. rewrite credsJsonObjectValue_member. by destruct (json_member json key).
Qed.

Lemma optional_member_eq json key v :
  (match json_member json key with None => Some None | Some _ => let? v := long_member json key in Some (Some v) end) = Some v <-> optional_member json key v.
Proof.
  unfold optional_member. destruct (json_member json key); [|split; congruence].
  destruct (long_member json key) as [u|]; split; [intros [= <-]; done|intros [_ <-]; done|done|intros [[? ->] ?]; done].
Qed.

Lemma claims_tr P claims kid audience now : zlen claims < 2 ^ 30 -> zlen kid < 2 ^ 30 -> is_time now ->
  tr P 0 (claims_ok claims kid audience now) 0 nothing (decides P (claims_valid claims kid audience now)).
Proof.
  intros Hc Hk Hn. assert (forall d e, d = e -> (P -> ~ claims_valid claims kid audience now) ->
    tr P d (retM false) e nothing (decides P (claims_valid claims kid audience now))) as Hno.
  { intros d e -> H. apply tr_ret; [unfold nothing; lia|]. split; [done|]. intros HP HX. by destruct (H HP). }
  unfold claims_ok. eapply tr_own; [by apply jsonFindString_tr|]. intros iss Hiss. fold (json_find claims (str "iss")) in Hiss.
  eapply tr_own; [by apply jsonFindString_tr|]. intros sub Hsub. fold (json_find claims (str "sub")) in Hsub.
  destruct (bool_decide_reflect (iss = Some JWT_ISSUER)) as [->|N]; cbn [negb].
  2: { apply Hno; [done|]. intros HP (E & _). destruct Hiss as [->|[_ ?]]; done. }
  destruct Hiss as [Hiss|[? _]]; [|done].
  eapply tr_own_gives; [apply asprint_tr; rewrite length_app; unfold SQLITE_MAX_ALLOCATION_SIZE; change (length JWT_SUBJECT_PREFIX) with 22%nat; lia| |].
  2: { intros HP. by apply Hno. }
  destruct (bool_decide_reflect (sub = Some (JWT_SUBJECT_PREFIX ++ kid))) as [->|N]; cbn [negb].
  2: { apply Hno; [done|]. intros HP (_ & E & _). destruct Hsub as [->|[_ ?]]; done. }
  destruct Hsub as [Hsub|[? _]]; [|done].
  eapply tr_bind; [by apply jsonAudienceMatches_tr|]. intros m [Hm1 Hm2]. destruct m; cbn [negb].
  2: { apply Hno; [done|]. intros HP (_ & _ & E & _). specialize (Hm2 HP). congruence. }
  specialize (Hm1 eq_refl). unfold jsonFindLong. rewrite credsJsonObjectValue_member. eapply tr_lift; [done|].
  change (jsonParseLong (json_member claims (str "exp"))) with (long_member claims (str "exp")).
  destruct (long_member claims (str "exp")) as [exp|] eqn:Eexp; [|apply Hno; [done|]; intros _ (_ & _ & _ & ? & _ & _ & ? & _); congruence].
  eapply tr_lift; [apply optional_long|].
  destruct (match json_member claims (str "iat") with None => _ | _ => _ end) as [iat|] eqn:Eiat.
  2: { apply Hno; [done|]. intros _ (_ & _ & _ & ? & iat & _ & _ & H%optional_member_eq & _). congruence. }
  eapply tr_lift; [apply optional_long|].
  destruct (match json_member claims (str "nbf") with None => _ | _ => _ end) as [nbf|] eqn:Enbf.
  2: { apply Hno; [done|]. intros _ (_ & _ & _ & ? & ? & nbf & _ & _ & H%optional_member_eq & _). congruence. }
  assert (forall key v, (match json_member claims key with None => Some None | Some _ => let? v := long_member claims key in Some (Some v) end) = Some v ->
    forall t, v = Some t -> is_time t) as Htime.
  { intros key v H t ->. destruct (json_member claims key); [|done]. destruct (long_member claims key) eqn:E; [|done]. injection H as ->. by eapply parse_long_time. }
  destruct (times_ok_spec now exp iat nbf) as (b & Eb & Hb); [done|by eapply parse_long_time|by eapply Htime|by eapply Htime|].
  rewrite Eb. apply tr_ret; [done|]. split.
  - intros ->. split_and!; [done..|]. exists exp, iat, nbf. split_and!; [done|by apply optional_member_eq..|by apply Hb].
  - intros _ (_ & _ & _ & exp' & iat' & nbf' & E1 & E2%optional_member_eq & E3%optional_member_eq & Hv). apply Hb. congruence.
Qed.

(** * The token *)
(** The text [h.c.s] with its two decoded parts. *)
Definition token_parts (jwt h c s hdr claims : list Z) : Prop :=
  jwt = h ++ DOT :: c ++ DOT :: s /\ DOT ∉ h /\ DOT ∉ c /\ (cstr <$> decode64 h) = Some hdr /\ (cstr <$> decode64 c) = Some claims.

Definition header_valid (hdr kid : list Z) : Prop :=
  json_find hdr (str "alg") = Some (str "EdDSA") /\ json_find hdr (str "dolt_token_version") = Some JWT_TOKEN_VERSION /\
  json_find hdr (str "kid") = Some kid.

Definition signature_valid (s message pub : list Z) : Prop :=
  exists sig, decode64 s = Some sig /\ length sig = 64%nat /\ accepted sig pub message.

(** The token [auth] for [audience] at the time [now] is one of the key [kid]. *)
Definition bearer_valid (W : world) (auth audience dir : list Z) (now : Z) (kid : list Z) : Prop :=
  exists h c s hdr claims pub, token_parts (bearer_jwt auth) h c s hdr claims /\ header_valid hdr kid /\
    public_in W dir kid = Some pub /\ signature_valid s (h ++ DOT :: c) pub /\ claims_valid claims kid audience now.

Lemma dup_name_tr P s : zlen s < 2 ^ 30 -> tr P 0 (dup_name s) 0 owned (gives P s).
Proof.
  intros Hs. eapply tr_bind; [apply malloc_tr; unfold SQLITE_MAX_ALLOCATION_SIZE; lia|].
  intros r [->|[-> HP]]; cbn beta iota; [|apply tr_ret; [done|by right]].
  unfold fill. rewrite Z.leb_refl. eapply (tr_lift _ _ (Some s)); [done|]. apply tr_ret; [done|by left].
Qed.

Lemma json_public_buffer json kid pub : json_public json kid = Some pub -> buffer 32 pub /\ kid = kid_of pub.
Proof.
  unfold json_public. destruct (json_member json (str "d")); [done|]. destruct (_ && _); [|done].
  destruct (json_find json (str "x")) as [x|]; [|done]. destruct (decode64 x) as [raw|] eqn:E; [|done].
  destruct (Z.eqb_spec (zlen raw) 32); [|done]. unfold streq. destruct (bool_decide_reflect (kid_of raw = kid)) as [<-|]; [|done].
  intros [= <-]. split; [|done]. split; [lia|]. by eapply decode64_bytes.
Qed.

Lemma public_in_buffer W dir kid pub : public_in W dir kid = Some pub -> buffer 32 pub /\ kid = kid_of pub.
Proof. unfold public_in. destruct (stored W dir kid); [|done]. apply json_public_buffer. Qed.

Section verify.
Context (l : locals) (Hl : locals_wf l).

Lemma signature_tr P s message rest pub : bytes_wf (message ++ rest) -> zlen s < 2 ^ 30 -> zlen message < 2 ^ 30 -> buffer 32 pub ->
  tr P 0 (signature_ok l s (message ++ rest) (zlen message) pub) 0 nothing (decides P (signature_valid s message pub)).
Proof using Hl.
  intros Wm Hs Hm Hp. assert (forall d e, d = e -> (P -> ~ signature_valid s message pub) ->
    tr P d (retM false) e nothing (decides P (signature_valid s message pub))) as Hno.
  { intros d e -> H. apply tr_ret; [unfold nothing; lia|]. split; [done|]. intros HP HX. by destruct (H HP). }
  unfold signature_ok. eapply tr_own_gives; [by apply dup_name_tr| |intros HP; by apply Hno].
  eapply tr_own_may; [by apply decode64_tr| |].
  2: { intros HN. apply Hno; [lia|]. intros HP (sig & E & _). by rewrite (HN HP) in E. }
  intros sig Esig. change DOLTLITE_SIG_LEN with 64. destruct (Z.eqb_spec (zlen sig) 64) as [L|L]; cbn [negb].
  2: { apply Hno; [lia|]. intros _ (sig' & E & L' & _). rewrite Esig in E. injection E as <-. lia. }
  assert (is_message (Some (message ++ rest)) (zlen message) message) as Hmsg.
  { split_and!; [by intros ? [= <-]| |lia]. cbn [read_message]. rewrite bytes_at_Some by (rewrite length_app; lia). by rewrite Nat2Z.id, take_app_length. }
  destruct (verify_eq l Hl _ _ _ Hmsg sig pub) as [[-> Ha]|[-> Ha]]; [split; [lia|by eapply decode64_bytes]|done|..].
  - eapply tr_lift; [done|]. apply tr_ret; [done|]. split; [|done]. intros _. exists sig. split_and!; [done|lia|done].
  - eapply tr_lift; [done|]. apply tr_ret; [done|]. split; [done|]. intros _ (sig' & E & _ & ?). rewrite Esig in E. by injection E as <-.
Qed.

(** What decides over a token whose parts are known. *)
Definition parts_valid (W : world) (hdr claims s message audience dir : list Z) (now : Z) (kid : list Z) : Prop :=
  header_valid hdr kid /\ exists pub, public_in W dir kid = Some pub /\ signature_valid s message pub /\ claims_valid claims kid audience now.

(** The result is the name of a key that is valid; NULL only when there is none, or faults. *)
Definition names_key (P : Prop) (valid : list Z -> Prop) (r : option (list Z)) : Prop :=
  match r with
  | Some kid => valid kid
  | None => P -> forall kid, ~ valid kid
  end.

Lemma key_rd W P hdr claims s message audience dir now kid : fs_wf W -> zlen dir < 2 ^ 30 -> zlen claims < 2 ^ 30 -> zlen kid < 2 ^ 30 ->
  is_time now -> bytes_wf (message ++ DOT :: s) -> zlen (message ++ DOT :: s) < 2 ^ 30 -> header_valid hdr kid ->
  rd W P 0 (let* pub := doltliteCredsLoadPubKey l (Some dir) kid in
    match pub with
    | None => retM false
    | Some pub =>
        let* ok := signature_ok l ((DOT :: s) +p 1) (message ++ DOT :: s) (zlen (message ++ DOT :: s) - zlen (DOT :: s)) pub in
        if ok then claims_ok claims kid audience now else retM false
    end) 0 nothing (decides P (parts_valid W hdr claims s message audience dir now kid)).
Proof using Hl.
  intros Hwf Hd Hc Hk Hn Wm Hm Hh. rewrite length_app in Hm. cbn [length] in Hm.
  eapply rd_bind; [by apply (load_public_rd l Hl)|]. intros [pub|] Hpub; unfold nothing at 1; rewrite Z.add_0_l.
  2: { apply decides_false; [done|]. intros HP (_ & pub & E & _). destruct Hpub as [Hpub|[_ ?]]; [congruence|done]. }
  destruct Hpub as [Hpub|[? _]]; [|done]. symmetry in Hpub. destruct (public_in_buffer _ _ _ _ Hpub) as [Bpub _].
  assert (zlen (message ++ DOT :: s) - zlen (DOT :: s) = zlen message) as -> by (rewrite length_app; lia).
  change ((DOT :: s) +p 1) with s.
  eapply rd_bind; [apply rd_tr, signature_tr; [exact Wm|lia|lia|exact Bpub]|]. intros ok [Hok1 Hok2]. unfold nothing at 1. rewrite Z.add_0_l.
  destruct ok.
  2: { apply decides_false; [done|]. intros HP (_ & pub' & E & Hs & _). rewrite Hpub in E. injection E as <-. by apply Hok2 in Hs. }
  specialize (Hok1 eq_refl). eapply rd_mono; [by apply rd_tr, claims_tr|]. intros b [Hb1 Hb2]. split.
  - intros Eb. split; [done|]. exists pub. auto.
  - intros HP (_ & pub' & _ & _ & Hcl). by apply Hb2.
Qed.

Lemma verify_parts_rd W P hdr claims s message audience dir now : fs_wf W -> zlen dir < 2 ^ 30 -> zlen hdr < 2 ^ 30 -> zlen claims < 2 ^ 30 ->
  is_time now -> bytes_wf (message ++ DOT :: s) -> zlen (message ++ DOT :: s) < 2 ^ 30 ->
  rd W P 0 (verify_parts l hdr claims (DOT :: s) (message ++ DOT :: s) audience (Some dir) now) 0 owned
    (names_key P (parts_valid W hdr claims s message audience dir now)).
Proof using Hl.
  intros Hwf Hd Hh Hc Hn Wm Hm. unfold verify_parts. eapply rd_own; [by apply rd_tr, jsonFindString_tr|]. intros alg Halg.
  eapply rd_own; [by apply rd_tr, jsonFindString_tr|]. intros ver Hver. eapply rd_bind; [by apply rd_tr, jsonFindString_tr|]. intros kid Hkid.
  fold (json_find hdr (str "alg")) in Halg. fold (json_find hdr (str "dolt_token_version")) in Hver. fold (json_find hdr (str "kid")) in Hkid.
  eapply (rd_bind _ _ _ _ _ nothing (fun b => if b : bool then exists k, kid = Some k /\ parts_valid W hdr claims s message audience dir now k
    else P -> forall k, ~ parts_valid W hdr claims s message audience dir now k)).
  - destruct (bool_decide_reflect (alg = Some (str "EdDSA"))) as [->|N]; cbn [negb].
    2: { apply rd_ret; [done|]. intros HP k ((E & _) & _). destruct Halg as [->|[_ ?]]; done. }
    destruct Halg as [Halg|[? _]]; [|done].
    destruct (bool_decide_reflect (ver = Some JWT_TOKEN_VERSION)) as [->|N]; cbn [negb].
    2: { apply rd_ret; [done|]. intros HP k ((_ & E & _) & _). destruct Hver as [->|[_ ?]]; done. }
    destruct Hver as [Hver|[? _]]; [|done]. destruct kid as [kid|].
    2: { apply rd_ret; [done|]. intros HP k ((_ & _ & E) & _). destruct Hkid as [Hkid|[_ ?]]; [congruence|done]. }
    destruct Hkid as [Hkid|[? _]]; [|done]. assert (zlen kid < 2 ^ 30) by (symmetry in Hkid; apply length_json_find in Hkid; lia).
    eapply rd_mono; [by apply (key_rd W P hdr)|]. intros [] [H1 H2]; [exists kid; auto|]. intros HP k Hv.
    assert (k = kid) as -> by (destruct Hv as ((_ & _ & E) & _); congruence). by apply H2 in Hv.
  - intros [] Hok; unfold nothing; rewrite Z.add_0_r.
    + destruct Hok as (k & -> & Hv). apply rd_ret; [cbn [owned]; lia|done].
    + apply rd_free. apply rd_ret; [cbn [owned]; lia|done].
Qed.

Lemma bearer_jwt_suffix auth : bearer_jwt auth `suffix_of` auth.
Proof using.
  unfold bearer_jwt. set (p := if strneq _ _ _ then _ else _).
  assert (p `suffix_of` auth) as Hp by (unfold p, ptr_add; destruct (strneq _ _ _); [|done]; exists (take (Z.to_nat 7) auth); by rewrite take_drop).
  etransitivity; [|exact Hp]. clear Hp. generalize p. clear p. intros p. induction p as [|c p IH]; [done|]. cbn [skip_spaces].
  destruct (c =? SPACE); [by apply suffix_cons_r|done].
Qed.

Lemma split_dot (a b a' b' : list Z) : DOT ∉ a -> DOT ∉ a' -> a ++ DOT :: b = a' ++ DOT :: b' -> a' = a /\ b' = b.
Proof using.
  intros Ha Ha' E. pose proof (strchr_found a b DOT Ha) as F. rewrite E, (strchr_found a' b' DOT Ha') in F.
  injection F as ->. split; [by apply app_inv_tail in E|done].
Qed.

(** A token that is split as the code splits it. *)
Lemma bearer_valid_split W auth audience dir now h c s kid : bearer_jwt auth = h ++ DOT :: c ++ DOT :: s -> DOT ∉ h -> DOT ∉ c ->
  bearer_valid W auth audience dir now kid <->
  exists hdr claims, (cstr <$> decode64 h) = Some hdr /\ (cstr <$> decode64 c) = Some claims /\ parts_valid W hdr claims s (h ++ DOT :: c) audience dir now kid.
Proof using.
  intros Ej Hh Hc. unfold bearer_valid, token_parts, parts_valid. rewrite Ej. split.
  - intros (h' & c' & s' & hdr & claims & pub & (E & Hh' & Hc' & Eh & Ec) & Hv & Hp & Hs & Hcl).
    apply split_dot in E as [-> E]; [|done..]. symmetry in E. apply split_dot in E as [-> ->]; [|done..]. exists hdr, claims. split_and!; [done..|]. by exists pub.
  - intros (hdr & claims & Eh & Ec & Hv & pub & Hp & Hs & Hcl). exists h, c, s, hdr, claims, pub. by split_and!.
Qed.

Lemma bearer_valid_dots W auth audience dir now kid : bearer_valid W auth audience dir now kid ->
  exists h c s, bearer_jwt auth = h ++ DOT :: c ++ DOT :: s /\ DOT ∉ h /\ DOT ∉ c.
Proof using. intros (h & c & s & hdr & claims & pub & (E & Hh & Hc & _) & _). by exists h, c, s. Qed.

Lemma decoded_length raw x : (cstr <$> decode64 raw) = Some x -> zlen x <= zlen raw.
Proof using. intros H. destruct (decode64 raw) as [b|] eqn:E; [|done]. injection H as <-. apply length_decode64 in E. pose proof (cstr_length b). lia. Qed.

Lemma verify_bearer_rd W P auth audience dir now : fs_wf W -> bytes_wf auth -> zlen auth < 2 ^ 30 -> audience <> [] -> zlen dir < 2 ^ 30 -> is_time now ->
  rd W P 0 (doltliteCredsVerifyBearer l (Some auth) (Some audience) (Some dir) now) 0 owned (names_key P (bearer_valid W auth audience dir now)).
Proof using Hl.
  intros Hwf Wa Ha Hne Hd Hn. unfold doltliteCredsVerifyBearer. destruct audience as [|a0 aud]; [done|]. set (audience := a0 :: aud).
  assert (forall d e, d = e -> (P -> forall kid, ~ bearer_valid W auth audience dir now kid) ->
    rd W P d (retM None) e owned (names_key P (bearer_valid W auth audience dir now))) as Hno by (intros d e -> H; apply rd_ret; [cbn; lia|done]).
  assert (now <? 0 = false) as -> by (unfold is_time in Hn; lia). cbv zeta.
  destruct (bearer_jwt_suffix auth) as [pre Epre]. rewrite Epre in Wa, Ha. rewrite length_app in Ha.
  apply bytes_wf_app in Wa as [_ Wj]. assert (zlen (bearer_jwt auth) < 2 ^ 30) as Lj by lia. clear Epre Ha pre.
  destruct (strchr (bearer_jwt auth) DOT) as [dot1|] eqn:E1.
  2: { apply Hno; [done|]. apply strchr_None in E1. intros _ kid (h & c & s & E & _)%bearer_valid_dots. apply E1. rewrite E. set_solver. }
  apply strchr_Some in E1 as (h & r & Ej & -> & Hh). change ((DOT :: r) +p 1) with r.
  destruct (strchr r DOT) as [dot2|] eqn:E2.
  2: { apply Hno; [done|]. apply strchr_None in E2. intros _ kid (h' & c & s & E & Hh' & _)%bearer_valid_dots. rewrite Ej in E.
    apply split_dot in E as [_ E]; [|done..]. apply E2. rewrite <- E. set_solver. }
  apply strchr_Some in E2 as (c & s & -> & -> & Hc). rewrite Ej in Wj, Lj |- *. rewrite !span_app.
  pose proof (fun kid => bearer_valid_split W auth audience dir now h c s kid Ej Hh Hc) as Hsplit.
  assert (zlen (h ++ DOT :: c ++ DOT :: s) = zlen h + zlen c + zlen s + 2) as Lj' by (rewrite length_app; cbn [length]; rewrite length_app; cbn [length]; lia).
  eapply rd_own; [apply rd_tr, decodeSegZ_tr; lia|]. intros hdr Hhdr. eapply rd_own; [apply rd_tr, decodeSegZ_tr; lia|]. intros claims Hclaims.
  destruct hdr as [hdr|]; [|apply Hno; [lia|]; intros HP kid (? & ? & E & _)%Hsplit; destruct Hhdr as [Hhdr|[_ ?]]; [congruence|done]].
  destruct claims as [claims|]; [|apply Hno; [lia|]; intros HP kid (? & ? & _ & E & _)%Hsplit; destruct Hclaims as [Hc'|[_ ?]]; [congruence|done]].
  destruct Hhdr as [Hhdr|[? _]]; [|done]. destruct Hclaims as [Hclaims|[? _]]; [|done]. symmetry in Hhdr, Hclaims.
  pose proof (decoded_length _ _ Hhdr). pose proof (decoded_length _ _ Hclaims).
  assert (h ++ DOT :: c ++ DOT :: s = (h ++ DOT :: c) ++ DOT :: s) as Eassoc by (by rewrite <- app_assoc). rewrite Eassoc in *.
  apply rd_call; [lia|]. eapply rd_mono; [apply (verify_parts_rd W P); [done|done|lia|lia|done|done|lia]|].
  intros [kid|] Hr.
  - apply Hsplit. by exists hdr, claims.
  - intros HP kid (hdr' & claims' & Eh & Ec & Hv)%Hsplit. apply (Hr HP kid). congruence.
Qed.
End verify.

(** * The tokens that are issued *)
Lemma issued_header kid : plain kid -> header_valid (header_text kid) kid.
Proof.
  intros Hk. pose proof (header_members_plain kid Hk) as Hm. rewrite <- (app_nil_r (header_text kid)), header_text_object.
  unfold header_valid. split_and!; (apply find_printed; [exact Hm|reflexivity|]); [by apply plainb_spec|by apply plainb_spec|done].
Qed.

Lemma issued_claims kid audience iat now : plain kid -> plain audience -> audience <> [] -> 0 <= iat -> iat + 30 < 2 ^ 63 ->
  iat - 60 <= now <= iat + 90 -> claims_valid (claims_text kid audience iat (iat + 30)) kid audience now.
Proof.
  intros Hk Ha Hne Hi He Hn. pose proof (claims_members_plain kid audience iat (iat + 30) Hk Ha ltac:(lia) ltac:(lia)) as Hm.
  rewrite <- (app_nil_r (claims_text _ _ _ _)), claims_text_object. set (ms := claims_members _ _ _ _) in *.
  destruct (member_found ms (str "aud") _ [] Hm eq_refl) as (u1 & E1 & V1). destruct (member_found ms (str "exp") _ [] Hm eq_refl) as (u2 & E2 & V2).
  destruct (member_found ms (str "iat") _ [] Hm eq_refl) as (u3 & E3 & V3). split_and!.
  - apply find_printed; [exact Hm|reflexivity|by apply plainb_spec].
  - apply find_printed; [exact Hm|reflexivity|]. apply Forall_app. split; [by apply plainb_spec|done].
  - rewrite (for_audience_printed _ [audience] u1 audience); [|by apply Forall_singleton|done|exact E1]. apply bool_decide_eq_true_2. by left.
  - exists (iat + 30), (Some iat), None. unfold optional_member, long_member. rewrite E2, E3, (member_absent ms (str "nbf")) by done.
    rewrite !jsonParseLong_printed by (done || lia). split_and!; [done..|]. split_and!; [lia|lia| |done]. intros t [= <-]. lia.
Qed.

(** The scheme is taken off; what is left starts with no space. *)
Lemma bearer_scheme a t : Forall safe_char a -> a <> [] -> bearer_jwt (str "Bearer " ++ a ++ t) = a ++ t.
Proof.
  intros Ha Hne. destruct a as [|c a]; [done|]. apply Forall_cons in Ha as [Hc _]. unfold bearer_jwt.
  change (strneq (str "Bearer " ++ (c :: a) ++ t) (str "Bearer ") 7) with true. cbn iota.
  change ((str "Bearer " ++ (c :: a) ++ t) +p 7) with (c :: a ++ t). cbn [skip_spaces].
  destruct (Z.eqb_spec c SPACE) as [->|_]; done.
Qed.

Lemma decoded_str s : str_wf s -> (cstr <$> decode64 (base64_raw s)) = Some s.
Proof. intros H. rewrite (decode64_raw _ (str_wf_bytes _ H)). cbn [fmap option_fmap option_map]. f_equal. by apply cstr_str. Qed.

Lemma issued_valid W (l : locals) seed audience iat dir now : locals_wf l -> buffer 32 seed -> plain audience -> audience <> [] ->
  0 <= iat -> iat + 30 < 2 ^ 63 -> iat - 60 <= now <= iat + 90 ->
  public_in W dir (kid_of (public_of seed)) = Some (public_of seed) ->
  bearer_valid W (str "Bearer " ++ token_at seed audience iat) audience dir now (kid_of (public_of seed)).
Proof.
  intros Hl Hs Ha Hne Hi He Hn Hp. destruct (keypair_of l Hl seed Hs) as (_ & [Lp Wp] & _ & (_ & _ & _ & Epk)).
  pose proof (kid_safe (public_of seed)) as Sk. pose proof (safe_plain _ Sk) as Pk. set (kid := kid_of (public_of seed)) in *.
  unfold token_at. fold kid. cbv zeta. set (header := header_text kid). set (claims := claims_text kid audience iat (iat + 30)).
  assert (str_wf header) as Wh by (by apply header_text_str, plain_str).
  assert (str_wf claims) as Wc by (apply claims_text_str; [by apply plain_str|by apply plain_str|lia|lia]).
  pose proof (str_wf_bytes _ Wh) as Bh. pose proof (str_wf_bytes _ Wc) as Bc.
  unfold token_of. cbv zeta. set (sig := signature_of _ _ _ _).
  exists (base64_raw header), (base64_raw claims), (base64_raw sig), header, claims, (public_of seed).
  assert (buffer 64 sig) as [Ls Ws] by apply signature_of_buffer. split_and!; [|by apply issued_header|done| |by apply issued_claims].
  - assert (forall B, bytes_wf B -> DOT ∉ base64_raw B) as Hdot by (intros B HB; by apply safe_not_in; [apply base64_raw_safe|]).
    split; [|split; [by apply Hdot|split; [by apply Hdot|split; [by apply decoded_str|by apply decoded_str]]]].
    unfold signed_part. rewrite <- app_assoc. apply bearer_scheme; [by apply base64_raw_safe|].
    intros E. pose proof (length_base64_raw _ Bh) as L. rewrite E in L. unfold header in L. rewrite header_text_object in L. cbn in L. lia.
  - exists sig. split_and!; [by apply decode64_raw|done|].
    pose proof (signature_of_accepted (le_decode (take 32 (secret_of seed))) (take 32 (drop 32 (secret_of seed))) (public_of seed)
      (signed_part header claims) [] Wp Epk) as H. by rewrite app_nil_r, (firstn_all2 (public_of seed)) in H by lia.
Qed.
