(* ===== verification/CredsSave.v ===== *)
(** Saving a key, [credsSaveJwk] of [remote/doltlite_creds.c]: the directory is
    made, the file replaced, and the loaders find the key that was saved. *)
From S2P Require Import Prelude CInt Ge Ed25519 Ed25519Spec CString World Radix Json Creds CredsFile Bearer CredsSpec CredsReplace CredsFileSpec CredsRead BearerSpec.
#[local] Opaque public_of secret_of digest224.

(** * Directories *)
Definition with_dirs (D : gset path) (w : world) : world :=
  World (w_choices w) (w_live w) (w_names w) (w_past w) (w_inodes w) (w_fresh w) D (w_env w) (w_readdir w).

(** [D] has the directories of [W] and some on the way to [dir]. *)
Definition grows (dir : path) (W : world) (D : gset path) : Prop :=
  w_dirs W ⊆ D /\ forall d, d ∈ D -> d ∈ w_dirs W \/ d `prefix_of` dir.

(** No file stands in the way to [dir]. *)
Definition clear_way (W : world) (dir : path) : Prop := (COLON ∉ dir) /\ forall p, p `prefix_of` dir -> w_names W !! p = None.

Lemma grows_refl dir W : grows dir W (w_dirs W).
Proof. split; [done|by left]. Qed.

Lemma same_with_dirs W : same_files W (with_dirs (w_dirs W) W).
Proof. done. Qed.

Lemma is_dir_grows dir W D p : grows dir W D -> is_dir W p = true -> is_dir (with_dirs D W) p = true.
Proof.
  intros [H _]. unfold is_dir. rewrite !orb_true_iff, !bool_decide_eq_true. cbn. intros [?|?]; [by left|right]. by apply H.
Qed.

Lemma is_dir_only dir W D p : grows dir W D -> ~ p `prefix_of` dir -> is_dir (with_dirs D W) p = is_dir W p.
Proof.
  intros [H1 H2] Hp. unfold is_dir. cbn. f_equal. apply bool_decide_ext. split; [|apply H1]. intros Hd. by destruct (H2 p Hd).
Qed.

(** The state of the loop: directories are made, the parent of the prefix is one. *)
Section mkdirp.
Context (W : world) (dir : path).

Definition made (w : world) (w' : world) (D : gset path) : Prop := reach (with_dirs D W) w w' /\ grows dir W D.
Definition dirs_made (w' : world) : Prop := exists D, same_files (with_dirs D W) w' /\ grows dir W D.

Lemma made_dirs w w' D : made w w' D -> dirs_made w'.
Proof using. intros [H1 H2]. exists D. split; [apply H1|done]. Qed.

Lemma mkdir_ok_wp w0 d w D : made w0 w D -> d `prefix_of` dir -> d <> [] ->
  wpM (mkdir_ok d) (fun ok w' => exists D', made w0 w' D' /\ D ⊆ D' /\
    (calm w0 -> clear_way W dir -> is_dir (with_dirs D W) (dirname d) = true -> ok = true /\ is_dir (with_dirs D' W) d = true)) dirs_made w.
Proof using.
  intros [Hr Hg] Hp Hne. apply wpM_bind. apply wpM_take; [by eapply made_dirs|]. intros c w' Ht.
  pose proof (taken_reach _ _ _ _ (proj1 Hr) Ht) as Hr'. pose proof (reach_trans _ _ _ _ _ Hr Hr') as Hr2. apply wpM_getW.
  destruct (refused c) eqn:Ec.
  { apply wpM_ret, wpM_ret. exists D. split; [done|]. split; [done|]. intros Hc _. by destruct (taken_calm _ _ _ Ht (reach_calm _ _ _ Hr Hc)) as [-> _]. }
  rewrite bool_decide_eq_false_2 by done. rewrite !(same_is_dir (with_dirs D W) w'), (same_names (with_dirs D W) w') by apply Hr'.
  destruct (is_dir (with_dirs D W) d) eqn:Ed; cbn [orb].
  { apply wpM_ret, wpM_ret. exists D. split; [done|]. split; [done|]. done. }
  destruct (bool_decide_reflect (is_Some (w_names (with_dirs D W) !! d))) as [Hs|_].
  { apply wpM_ret, wpM_ret. exists D. split; [done|]. split; [done|]. intros _ [_ Hf]. cbn in Hs. rewrite (Hf d Hp) in Hs. by apply is_Some_None in Hs. }
  destruct (is_dir (with_dirs D W) (dirname d)) eqn:Ed'; cbn [negb].
  2: { apply wpM_ret, wpM_ret. exists D. split; [done|]. split; [done|]. done. }
  apply wpM_modW, wpM_ret, wpM_ret. exists ({[d]} ∪ D). split; [split|split].
  - eapply reach_files; [exact Hr2| |done|done]. destruct Hr2 as (F & _).
    unfold same_files in *. cbn in *. destruct F as (-> & -> & -> & -> & -> & -> & ->). by split_and!.
  - destruct Hg as [H1 H2]. split; [set_solver|]. intros q [->%elem_of_singleton|Hq]%elem_of_union; [by right|by apply H2].
  - set_solver.
  - intros _ _ _. split; [done|]. unfold is_dir. apply orb_true_iff. right. apply bool_decide_eq_true_2. cbn. set_solver.
Qed.

Lemma is_dir_mono D D' p : D ⊆ D' -> is_dir (with_dirs D W) p = true -> is_dir (with_dirs D' W) p = true.
Proof using. intros H. unfold is_dir. rewrite !orb_true_iff, !bool_decide_eq_true. cbn. intros [?|?]; [by left|right; by apply H]. Qed.

Lemma mkdirp_loop_wp w0 rest pre w D : reverse pre ++ rest = dir -> pre <> [] -> made w0 w D ->
  wpM (mkdirp_loop pre rest) (fun ok w' => exists D', made w0 w' D' /\
    (calm w0 -> clear_way W dir -> is_dir (with_dirs D W) (reverse (skip_name pre)) = true -> ok = true /\ is_dir (with_dirs D' W) (dirname dir) = true)) dirs_made w.
Proof using.
  revert pre w D. induction rest as [|c rest IH]; intros pre w D E Hne Hm; cbn [mkdirp_loop].
  { apply wpM_ret. exists D. split; [done|]. intros _ _ H. split; [done|]. rewrite app_nil_r in E. unfold dirname. by rewrite <- E, reverse_involutive. }
  assert (reverse (c :: pre) ++ rest = dir) as E' by (by rewrite reverse_cons, <- app_assoc).
  destruct (_ || _) eqn:Ec.
  2: { eapply wpM_mono; [apply (IH (c :: pre) w D); [done|done|done]| |done]. cbn beta. intros ok w' (D' & Hm' & H). exists D'. split; [done|].
    intros Hc Hw Hd. apply H; [done|done|]. cbn [skip_name]. assert (c =? SLASH = false) as -> by lia. done. }
  destruct pre as [|p pre]; [done|]. set (pp := p :: pre) in *.
  apply wpM_bind. eapply (wpM_mono _ (fun ok w' => exists D', made w0 w' D' /\ D ⊆ D' /\
    (calm w0 -> clear_way W dir -> is_dir (with_dirs D W) (reverse (skip_name pp)) = true -> ok = true /\ is_dir (with_dirs D' W) (reverse pp) = true)) _ dirs_made); [| |done].
  { destruct (Z.eqb_spec p COLON) as [->|_].
    - apply wpM_ret. exists D. split; [done|]. split; [done|]. intros _ [Hcol _]. destruct Hcol. rewrite <- E. apply elem_of_app. left. by apply elem_of_reverse, list_elem_of_here.
    - eapply wpM_mono; [apply (mkdir_ok_wp w0 (reverse pp) w D Hm); [exists (c :: rest); by rewrite E|]| |done].
      + intros H%(f_equal length). rewrite length_reverse in H. done.
      + cbn beta. intros ok w' (D' & H1 & H2 & H3). exists D'. split; [done|]. split; [done|]. intros Hc Hw Hd. apply H3; [done|done|].
        unfold dirname. by rewrite reverse_involutive. }
  cbn beta. intros ok w1 (D1 & Hm1 & Hsub & Hok). destruct ok.
  2: { apply wpM_ret. exists D1. split; [done|]. intros Hc Hw Hd. by destruct (Hok Hc Hw Hd). }
  eapply wpM_mono; [apply (IH (c :: pp) w1 D1); [done|done|done]| |done]. cbn beta. intros ok w2 (D2 & Hm2 & H). exists D2. split; [done|].
  intros Hc Hw Hd. destruct (Hok Hc Hw Hd) as [_ Hpp]. apply H; [done|done|]. cbn [skip_name]. destruct (c =? SLASH); [exact Hpp|]. by eapply is_dir_mono.
Qed.
End mkdirp.

Lemma strdup_tr P s : zlen s < 2 ^ 30 -> tr P 0 (dlStrDup (Some s)) 0 owned (gives P s).
Proof.
  intros Hs. unfold dlStrDup. cbv zeta. destruct (Z.ltb_spec 0x7fffffff (zlen s + 1)); [lia|]. by apply dup_name_tr.
Qed.

Lemma reach_mem X w w1 d w2 : mem d w w1 -> reach X w1 w2 -> reach X w (set_live (w_live w2 - d) w2).
Proof.
  intros Hm (F & El & Es). split_and!; [done|destruct Hm as (_ & _ & ?); cbn; lia|]. etransitivity; [exact Es|apply Hm].
Qed.

Lemma mkdirp_wp W dir w : same_files W w -> dir <> [] -> zlen dir < 2 ^ 30 ->
  wpM (mkdirp dir) (fun ok w' => exists D, made W dir w w' D /\
    (calm w -> clear_way W dir -> ok = true /\ is_dir (with_dirs D W) dir = true)) (dirs_made W dir) w.
Proof.
  intros HW Hne Hd. assert (forall w', same_files W w' -> dirs_made W dir w') as HE by (intros w' H; exists (w_dirs W); split; [done|apply grows_refl]).
  eapply (wpM_owning (calm w) (calm w)); [by apply strdup_tr|done|intros w' H; apply HE; by etransitivity|..].
  2: { intros w1 H1 Hn. apply wpM_ret. exists (w_dirs W). split; [|done]. split; [|apply grows_refl].
    destruct H1 as (F & S & L). split_and!; [by etransitivity|lia|done]. }
  intros w1 H1. cbn iota. destruct dir as [|c rest]; [done|]. set (dir := c :: rest) in *.
  assert (made W dir w1 w1 (w_dirs W)) as Hm1 by (split; [apply reach_refl; by etransitivity; [|apply H1]|apply grows_refl]).
  apply wpM_bind. eapply wpM_mono; [apply (mkdirp_loop_wp W dir w1 rest [c] w1 (w_dirs W)); [done|done|exact Hm1]| |done].
  cbn beta. intros ok w2 (D & Hm2 & Hok).
  assert (calm w -> clear_way W dir -> ok = true /\ is_dir (with_dirs D W) (dirname dir) = true) as Hok'.
  { intros Hc Hw. apply Hok; [by eapply mem_calm|done|]. cbn [skip_name]. by destruct (c =? SLASH). }
  assert (forall w', made W dir w1 w' D -> made W dir w (set_live (w_live w' - 1) w') D) as Hback.
  { intros w' [Hr Hg]. split; [by eapply reach_mem|done]. }
  destruct ok; [|apply wpM_ret; exists D; split; [by apply Hback|]; intros Hc Hw; by destruct (Hok' Hc Hw)].
  eapply wpM_mono; [by apply (mkdir_ok_wp W dir w1 dir w2 D Hm2)| |done]. cbn beta. intros ok w3 (D' & [Hr3 Hg3] & _ & H3).
  exists D'. split; [split; [by eapply reach_mem|done]|]. intros Hc Hw. apply H3; [by eapply mem_calm|done|by apply Hok'].
Qed.

(** * Saving *)
Lemma dirname_file dir name : Forall (fun c => c <> SLASH) name -> dirname (dir ++ SLASH :: name) = dir.
Proof.
  intros Hn. change (dir ++ SLASH :: name) with (dir ++ [SLASH] ++ name). rewrite app_assoc, dirname_same by done.
  unfold dirname. rewrite reverse_snoc. change (reverse (reverse dir) = dir). apply reverse_involutive.
Qed.

Lemma jwk_file_plain kid : credsKidValid (Some kid) = true -> Forall (fun c => c <> SLASH) (kid ++ str ".jwk").
Proof.
  intros [Sk _]%valid_kid_safe. apply Forall_app. split; [|by apply (bool_decide_unpack _); vm_compute].
  eapply Forall_impl; [exact Sk|]. cbn beta. intros c Hc%Is_true_true. by apply safe_range.
Qed.

Lemma dirname_jwk dir kid : credsKidValid (Some kid) = true -> dirname (jwk_path dir kid) = dir.
Proof. intros Hk. by apply dirname_file, jwk_file_plain. Qed.

Lemma length_jwk_path dir kid : credsKidValid (Some kid) = true -> zlen (jwk_path dir kid) = zlen dir + 50.
Proof. intros [_ L]%valid_kid_safe. unfold jwk_path. rewrite length_app. cbn [length]. rewrite length_app, L. change (length (str ".jwk")) with 4%nat. lia. Qed.

Lemma fs_wf_dirs D W : fs_wf W -> fs_wf (with_dirs D W).
Proof. intros [H1 H2]. by split. Qed.

Definition jwk_of (seed : list Z) (publicOnly : bool) : list Z :=
  if publicOnly then public_jwk_text (base64 (public_of seed)) else jwk_text (base64 (public_of seed)) (base64 seed).

(** What lets the key [kid] be saved in [dir] when no call is refused. *)
Definition may_save (W : world) (dir kid : list Z) (publicOnly : bool) : Prop :=
  let p := jwk_path dir kid in
  clear_way W dir /\ (publicOnly = true -> w_names W !! p = None) /\ is_dir W p = false /\
  w_names W !! (p ++ str ".000000") = None /\ is_dir W (p ++ str ".000000") = false.

(** The directories of a file in [dir] are on the way to [dir]. *)
Lemma clear_through W dir name : clear_way W dir -> Forall (fun c => c <> SLASH) name -> through_file W (dir ++ SLASH :: name) = false.
Proof.
  intros [_ H] Hn. apply through_clear. intros n Hs. apply H. destruct (decide (n <= length dir)%nat) as [Hle|Hgt].
  - rewrite take_app_le by done. apply prefix_take.
  - exfalso. rewrite lookup_app_r in Hs by lia. destruct (n - length dir)%nat as [|k] eqn:E; [lia|]. cbn in Hs.
    by apply (Forall_lookup_1 _ _ _ _ Hn) in Hs.
Qed.

Lemma may_save_replace W D dir kid publicOnly : credsKidValid (Some kid) = true -> zlen dir < 2 ^ 30 -> grows dir W D ->
  may_save W dir kid publicOnly -> is_dir (with_dirs D W) dir = true -> may_replace (with_dirs D W) (jwk_path dir kid) publicOnly.
Proof.
  intros Hk Hd Hg (Hway & Hx & Hp & Ht & Htd) Hdir. pose proof (length_jwk_path dir kid Hk) as L.
  assert (forall q, zlen dir < zlen q -> is_dir (with_dirs D W) q = is_dir W q) as Hsame.
  { intros q Hq. apply (is_dir_only dir); [done|]. intros H%prefix_length. lia. }
  split; split_and!.
  - intros E. split; [by apply Hx|]. by apply clear_through, jwk_file_plain.
  - rewrite Hsame by lia. done.
  - by rewrite dirname_jwk.
  - done.
  - rewrite Hsame; [done|]. rewrite length_app. lia.
  - unfold SQLITE_MAX_ALLOCATION_SIZE. lia.
Qed.

Section save.
Context (l : locals) (Hl : locals_wf l) (seed : list Z) (Hseed : buffer 32 seed).
Context (W : world) (Hwf : fs_wf W) (dir : list Z) (Hne : dir <> []) (Hdir : zlen dir < 2 ^ 30) (publicOnly : bool).
(** [C]: no call is refused. *)
Context (C : Prop).
Let kid : list Z := kid_of (public_of seed).
Let path_ : path := jwk_path dir kid.
Let json : list Z := jwk_of seed publicOnly.

(** The result of [credsReplaceDurable] in a directory that was made. *)
Definition saved (w : world) (rc : Z) (w' : world) : Prop :=
  exists D X, grows dir W D /\ reach X w w' /\ sound (with_dirs D W) path_ json X /\ (rc = 0 \/ rc = 1) /\
    (rc = 0 -> placed (with_dirs D W) path_ json X /\ durable (with_dirs D W) path_ X) /\
    (publicOnly = true -> is_Some (w_names W !! path_) -> rc = 1 /\ same_files (with_dirs D W) w') /\
    (C -> may_save W dir kid publicOnly -> rc = 0).

Lemma saved_fails D w w' : reach (with_dirs D W) w w' -> grows dir W D -> ~ (C /\ may_save W dir kid publicOnly) -> saved w 1 w'.
Proof using Hwf.
  intros Hr Hg Hn. exists D, (with_dirs D W). split_and!; [done|done|apply sound_start; by apply fs_wf_dirs|by right|done| |].
  - intros _ _. split; [done|apply Hr].
  - intros Hc Hm. by destruct Hn.
Qed.

Lemma saved_mem d w w1 rc w2 : mem d w w1 -> saved w1 rc w2 -> saved w rc (set_live (w_live w2 - d) w2).
Proof using.
  intros Hm (D & X & Hg & Hr & HS & H01 & H0 & Hx & Hc). exists D, X. by split_and!; [|eapply reach_mem|..].
Qed.

Lemma saved_trans V w w1 rc w2 : reach V w w1 -> saved w1 rc w2 -> saved w rc w2.
Proof using.
  intros H1 (D & X & Hg & Hr & HS & H01 & H0 & Hx & Hc). exists D, X. by split_and!; [|eapply reach_trans|..].
Qed.

(** A block of the chain from the directory to the replacement. *)
Lemma saved_owning D (m : M (option (list Z))) x (k : option (list Z) -> M Z) w : k None = retM 1 ->
  tr C 0 m 0 owned (gives C x) -> same_files (with_dirs D W) w -> grows dir W D -> (C -> calm w) ->
  (forall w1, same_files (with_dirs D W) w1 -> (C -> calm w1) -> wpM (k (Some x)) (saved w1) (atomic W path_ json) w1) ->
  wpM (owning m k) (saved w) (atomic W path_ json) w.
Proof using Hwf.
  intros Hk Hm HW Hg HC Hs. eapply (wpM_owning C C); [exact Hm|done|..].
  - intros w1 H1. assert (same_files (with_dirs D W) w1) as H2 by (by etransitivity).
    exact (sound_atomic _ (fs_wf_dirs D W Hwf) path_ json _ _ (sound_start _ (fs_wf_dirs D W Hwf) _ _) H2).
  - intros w1 H1. eapply wpM_mono; [apply Hs; [by etransitivity; [|apply H1]|intros Hc; by eapply mem_calm; [|apply HC]]| |done].
    cbn beta. intros rc w2 H2. by eapply saved_mem.
  - intros w1 (F & S & L) Hn. rewrite Hk. apply wpM_ret. apply (saved_fails D); [split_and!; [by etransitivity|lia|done]|done|].
    by intros [? _].
Qed.

Lemma save_replace_wp D w : same_files (with_dirs D W) w -> grows dir W D -> (C -> calm w) -> (may_save W dir kid publicOnly -> C -> is_dir (with_dirs D W) dir = true) ->
  wpM (credsReplaceDurable dir path_ json publicOnly) (saved w) (atomic W path_ json) w.
Proof using Hwf Hdir.
  intros HW Hg HC Hd. pose proof (kid_of_valid (public_of seed)) as Hk. fold kid in Hk.
  eapply wpM_mono; [by apply (replace_wp (with_dirs D W) (fs_wf_dirs D W Hwf) dir path_ json publicOnly w)| |].
  - cbn beta. intros rc w' [(X & Hr & HS & H01 & H0 & Hc) Hx]. exists D, X. split_and!; [done..| |done|].
    + intros E. destruct (H0 E) as [Hp Hdur]. split; [done|]. by apply Hdur, dirname_jwk.
    + intros Hw Hm. apply Hc; [by apply HC| |by apply Hd]. by apply may_save_replace; [..|apply Hd].
  - done.
Qed.

Lemma jwk_tr P : tr P 0 (if publicOnly then doltliteCredsToPublicJwk (creds_of seed) else doltliteCredsToJwk (creds_of seed)) 0 owned (gives P json).
Proof using Hl Hseed. unfold json, jwk_of. destruct publicOnly; [by apply (to_public_jwk_tr l Hl)|by apply (to_jwk_tr l Hl)]. Qed.

Lemma save_wp w : same_files W w -> (C -> calm w) -> wpM (credsSaveJwk l (creds_of seed) (Some dir) publicOnly) (saved w) (atomic W path_ json) w.
Proof using Hl Hseed Hwf Hne Hdir.
  intros HW HC. pose proof (kid_of_valid (public_of seed)) as Hk. fold kid in Hk. destruct (keypair_of l Hl seed Hseed) as (_ & [Lp Wp] & _).
  assert (forall D w', same_files (with_dirs D W) w' -> atomic W path_ json w') as HA.
  { intros D w' H. exact (sound_atomic _ (fs_wf_dirs D W Hwf) path_ json _ _ (sound_start _ (fs_wf_dirs D W Hwf) _ _) H). }
  unfold credsSaveJwk, with_dir. apply wpM_bind. eapply wpM_mono; [by apply (mkdirp_wp W dir w)| |].
  2: { intros w' (D & H & _). by eapply HA. }
  cbn beta. intros ok w1 (D & [Hr Hg] & Hok). destruct ok; cbn [negb].
  2: { apply wpM_ret. apply (saved_fails D); [done|done|]. intros [Hc Hm]. by destruct (Hok (HC Hc) (proj1 Hm)). }
  assert (may_save W dir kid publicOnly -> C -> is_dir (with_dirs D W) dir = true) as Hd by (intros Hm Hc; apply Hok; [by apply HC|apply Hm]).
  eapply wpM_mono; [|intros rc w'; apply (saved_trans _ _ _ _ _ Hr)|done].
  eapply (saved_owning D); [done|apply (kid_tr l Hl); cbn [creds_of c_pub]; [done|lia]|apply Hr|done|intros Hc; by eapply reach_calm; [|apply HC]|].
  intros w2 H2 HC2. cbn [creds_of c_pub]. fold kid.
  eapply (saved_owning D); [done|eapply tr_mono; [by apply file_path_tr|]|done|done|done|].
  { intros r Hr'. rewrite Hk in Hr'. exact Hr'. }
  fold path_. intros w3 H3 HC3. eapply (saved_owning D); [done|apply jwk_tr|done|done|done|].
  intros w4 H4 HC4. by apply (save_replace_wp D).
Qed.
End save.

(** * What was saved is found *)
Lemma placed_file w0 p data X w : placed w0 p data X -> same_files X w -> file_at w p = Some data.
Proof.
  intros (En & Ei & _) (Ew & _ & Ewi & _). unfold file_at. rewrite Ew, Ewi, En, Ei, !lookup_insert_eq. done.
Qed.

(** A crash after the directory was synced leaves the new contents. *)
Lemma durable_crash w0 p data X w c : placed w0 p data X -> durable w0 p X -> same_files X w -> after_crash w p c -> c = Some data.
Proof.
  intros (_ & Ei & _) Hd (En & Ep & Ei' & _) (t & Ht & Hc). unfold tables in Ht. rewrite En, Ep in Ht. rewrite (Hd t Ht) in Hc.
  destruct Hc as (f & d & Hf & -> & Hdata). rewrite Ei', Ei, lookup_insert_eq in Hf. injection Hf as <-. by rewrite Hdata.
Qed.

Section found.
Context (l : locals) (Hl : locals_wf l) (seed : list Z) (Hseed : buffer 32 seed).
Let kid : list Z := kid_of (public_of seed).

Lemma jwk_of_text publicOnly : str_wf (jwk_of seed publicOnly) /\ zlen (jwk_of seed publicOnly) < 2 ^ 20.
Proof using Hl Hseed.
  destruct (keypair_of l Hl seed Hseed) as (_ & [Lp Wp] & _), Hseed as [Ls Ws].
  pose proof (length_base64 _ Wp). pose proof (length_base64 _ Ws).
  pose proof (plain_str _ (base64_plain _ Wp)) as Sp. pose proof (plain_str _ (base64_plain _ Ws)) as Ss. unfold jwk_of.
  destruct publicOnly; (split; [|text_length; lia]); [by apply public_jwk_text_str|by apply jwk_text_str].
Qed.

Lemma stored_saved w dir publicOnly : file_at w (jwk_path dir kid) = Some (jwk_of seed publicOnly) -> stored w dir kid = Some (jwk_of seed publicOnly).
Proof using Hl Hseed.
  intros Hf. destruct (jwk_of_text publicOnly) as [Hs Hz]. unfold stored, short_file. rewrite Hf.
  assert (credsKidValid (Some kid) = true) as -> by apply kid_of_valid. destruct (Z.leb_spec (zlen (jwk_of seed publicOnly)) (2 ^ 20)); [|lia].
  cbn. by rewrite cstr_str.
Qed.

Lemma key_saved w dir : file_at w (jwk_path dir kid) = Some (jwk_of seed false) -> key_in w dir kid = Some seed.
Proof using Hl Hseed.
  intros Hf%stored_saved. unfold key_in. rewrite Hf. unfold json_key, jwk_of.
  rewrite <- (app_nil_r (jwk_text _ _)), (jwk_seed_text seed [] l Hl Hseed). unfold kid. by rewrite streq_refl.
Qed.

Lemma json_public_text : json_public (public_jwk_text (base64 (public_of seed))) kid = Some (public_of seed).
Proof using Hl Hseed.
  destruct (keypair_of l Hl seed Hseed) as (_ & [Lp Wp] & _). pose proof (public_jwk_members_plain _ (base64_plain _ Wp)) as Hm.
  unfold json_public. rewrite <- (app_nil_r (public_jwk_text _)), public_jwk_text_object.
  rewrite (member_absent _ (str "d")), (find_printed _ (str "kty") (str "OKP")), (find_printed _ (str "crv") (str "Ed25519")),
    (find_printed _ (str "x") (base64 (public_of seed))); try (exact Hm || reflexivity || done || (by apply plainb_spec) || (by apply base64_plain)).
  rewrite decode64_base64 by done. destruct (Z.eqb_spec (zlen (public_of seed)) 32); [|lia]. unfold kid. by rewrite streq_refl.
Qed.

Lemma public_saved w dir : file_at w (jwk_path dir kid) = Some (jwk_of seed true) -> public_in w dir kid = Some (public_of seed).
Proof using Hl Hseed. intros Hf%stored_saved. unfold public_in. rewrite Hf. apply json_public_text. Qed.

(** A private key is not taken for a public one. *)
Lemma private_not_public w dir : file_at w (jwk_path dir kid) = Some (jwk_of seed false) -> public_in w dir kid = None.
Proof using Hl Hseed.
  intros Hf%stored_saved. unfold public_in. rewrite Hf. unfold json_public, jwk_of.
  destruct (keypair_of l Hl seed Hseed) as (_ & [Lp Wp] & _). pose proof Hseed as [Ls Ws].
  rewrite <- (app_nil_r (jwk_text _ _)), jwk_text_object.
  destruct (member_found (jwk_members (base64 (public_of seed)) (base64 seed)) (str "d") (JString (base64 seed)) []) as (u & -> & _);
    [apply jwk_members_plain; by apply base64_plain|done|done].
Qed.
End found.
