(* ===== verification/CredsConfigSpec.v ===== *)
(** The configuration file of the credential directory as a list of settings:
    what [credsSettingsRead] of [remote/doltlite_creds.c] makes of a text, what
    [doltliteCredsConfigSet] writes, and that the one reads the other. *)
From S2P Require Import Prelude CInt Ge Ed25519 Ed25519Spec CString World Radix Json Creds CredsFile Bearer CredsConfig CredsSpec CredsReplace CredsFileSpec CredsRead BearerSpec CredsSave.
#[local] Opaque public_of secret_of digest224.

(** * Reading *)
Abbreviation pairs := (list (list Z * list Z)) (only parsing).
Definition of_pairs (l : pairs) : list CredsSetting := (fun x => Setting (Some x.1) (Some x.2)) <$> l.

(** The settings of a text; [None] when a line is bad and not to be dropped. *)
Fixpoint parse_loop (fuel : nat) (rest : list Z) (out : pairs) (repair : bool) : option pairs :=
  match fuel with
  | O => None
  | S fuel =>
      match rest with
      | [] => Some out
      | _ :: _ =>
          let (chunk, rest) := fgets (SETTINGS_LINE - 1) rest in
          let (line, rest) := settings_text chunk rest in
          match line with
          | Some [] => parse_loop fuel rest out repair
          | _ =>
              match (let? line := line in settings_pair line out.*1) with
              | None => if repair then parse_loop fuel rest out repair else None
              | Some x => parse_loop fuel rest (out ++ [x]) repair
              end
          end
      end
  end.
Definition parse_settings (text : list Z) (repair : bool) : option pairs := parse_loop (S (length text)) text [] repair.

Lemma keys_of_pairs l : omap s_key (of_pairs l) = l.*1.
Proof. induction l as [|[k v] l IH]; [done|]. unfold of_pairs in *. cbn. by rewrite IH. Qed.

Definition weight (s : CredsSetting) : Z := owned (s_key s) + owned (s_value s) + 1.
Fixpoint weights (l : list CredsSetting) : Z := match l with [] => 0 | s :: l => weight s + weights l end.

Lemma weights_app a b : weights (a ++ b) = weights a + weights b.
Proof. induction a as [|s a IH]; [done|]. cbn [app weights]. rewrite IH. lia. Qed.

Lemma weights_pairs l : weights (of_pairs l) = 3 * zlen l.
Proof. induction l as [|[k v] l IH]; [done|]. unfold of_pairs in *. cbn [fmap list_fmap weights length]. rewrite IH. unfold weight. cbn [s_key s_value owned]. lia. Qed.

Lemma free_settings_tr {A} P d l (k : unit -> M A) e own R : tr P (d - weights l) (k ()) e own R -> tr P d (bindM (credsSettingsFree l) k) e own R.
Proof.
  revert d. induction l as [|s l IH]; intros d H.
  - cbn in H. rewrite Z.sub_0_r in H. exact H.
  - cbn [credsSettingsFree]. apply tr_assoc, free_tr, tr_assoc, free_tr, tr_assoc, (free_tr _ _ (Some s)), IH.
    cbn [weights] in H. unfold weight in H. cbn [owned].
    by replace (d - owned (s_key s) - owned (s_value s) - 1 - weights l) with (d - (owned (s_key s) + owned (s_value s) + 1 + weights l)) by lia.
Qed.

Lemma fgets_app n rest : (fgets n rest).1 ++ (fgets n rest).2 = rest.
Proof.
  revert rest. induction n as [|n IH]; intros [|c rest]; [done..|]. cbn [fgets]. destruct (c =? LF); [done|].
  specialize (IH rest). destruct (fgets n rest). cbn in *. by rewrite IH.
Qed.

Lemma fgets_cons n c rest : exists line, (fgets (S n) (c :: rest)).1 = c :: line.
Proof. cbn [fgets]. destruct (c =? LF); [by exists []|]. destruct (fgets n rest) as [line ?]. by exists line. Qed.

Lemma skip_line_length r : (length (skip_line r) <= length r)%nat.
Proof. induction r as [|c r IH]; [done|]. cbn [skip_line length]. destruct (c =? LF); lia. Qed.

Lemma settings_text_rest chunk rest : (length (settings_text chunk rest).2 <= length rest)%nat.
Proof.
  unfold settings_text. pose proof (skip_line_length rest). destruct (chop _ LF); [done|]. destruct (negb _); done.
Qed.

Lemma chop_prefix line c line' : chop line c = Some line' -> line = line' ++ [c].
Proof.
  unfold chop. destruct (reverse line) as [|x r] eqn:E; [done|]. destruct (Z.eqb_spec x c) as [->|]; [|done]. intros [= <-].
  apply (f_equal reverse) in E. by rewrite reverse_involutive, reverse_cons in E.
Qed.

Lemma chop_length line c : (length (default line (chop line c)) <= length line)%nat.
Proof. destruct (chop line c) as [l|] eqn:E; [|done]. apply chop_prefix in E as ->. rewrite length_app. cbn. lia. Qed.

Lemma settings_text_line chunk rest line : (settings_text chunk rest).1 = Some line -> (length line <= length chunk)%nat.
Proof.
  unfold settings_text. pose proof (cstr_length chunk). destruct (chop (cstr chunk) LF) as [l|] eqn:E.
  - intros [= <-]. pose proof (chop_length l CR). apply chop_prefix in E. rewrite E, length_app in *. lia.
  - pose proof (chop_length (cstr chunk) CR). destruct (negb _); [done|]. intros [= <-]. lia.
Qed.

Lemma settings_pair_length line before k v : settings_pair line before = Some (k, v) -> (length k + length v <= length line)%nat.
Proof.
  unfold settings_pair. destruct (strchr line EQUALS) as [eq|] eqn:E; [|done]. apply strchr_Some in E as (a & b & -> & -> & _).
  rewrite span_app. change ((EQUALS :: b) +p 1) with b. cbv zeta. intros H.
  assert (k = a /\ v = b) as [-> ->] by (repeat case_match; by simplify_eq). rewrite length_app. cbn. lia.
Qed.

(** What the reader owns. *)
Definition own_settings (r : option (list CredsSetting)) : Z := match r with Some l => weights l | None => 0 end.

Lemma settings_bad_tr {A} P l (x : option A) own : own None = 0 -> (P -> x = None) ->
  tr P (weights l) (let* _ := credsSettingsFree l in retM None) 0 own (may P x).
Proof.
  intros Ho Hx. apply free_settings_tr. apply tr_ret; [lia|]. destruct x; [right|by left]. split; [done|]. by intros ?%Hx.
Qed.

Section loop.
Context (P : Prop) (fuel : nat) (repair : bool).
Hypothesis IH : forall rest out, (length rest < fuel)%nat -> zlen rest < 2 ^ 29 ->
  tr P (3 * zlen out) (settings_loop fuel rest (of_pairs out) repair) 0 own_settings (may P (of_pairs <$> parse_loop fuel rest out repair)).
#[local] Abbreviation bad l := (let* _ := credsSettingsFree l in retM None).

(** The part of the loop that looks at a line. *)
Lemma settings_line_tr line rest out : (length rest < fuel)%nat -> zlen rest < 2 ^ 29 -> (forall x, line = Some x -> zlen x < 2 ^ 29) ->
  tr P (3 * zlen out)
    (match (let? line := line in settings_pair line out.*1) with
     | None => if repair then settings_loop fuel rest (of_pairs out) repair else bad (of_pairs out)
     | Some (key, value) =>
         let* p := sqlite3_malloc sizeof_CredsSetting in
         match p with
         | None => bad (of_pairs out)
         | Some _ =>
             let* key := dlStrDup (Some key) in
             let* value := dlStrDup (Some value) in
             match key, value with
             | Some _, Some _ => settings_loop fuel rest (of_pairs out ++ [Setting key value]) repair
             | _, _ => bad (of_pairs out ++ [Setting key value])
             end
         end
     end) 0 own_settings (may P (of_pairs <$> match (let? line := line in settings_pair line out.*1) with
       | None => if repair then parse_loop fuel rest out repair else None
       | Some x => parse_loop fuel rest (out ++ [x]) repair
       end)).
Proof using IH.
  intros Hf Hz Ll. destruct (let? line := line in settings_pair line out.*1) as [[k v]|] eqn:Ep.
  2: { destruct repair; [by apply IH|]. rewrite <- weights_pairs. by apply settings_bad_tr. }
  assert (zlen k + zlen v < 2 ^ 29) as Lkv.
  { destruct line as [line|]; [|done]. apply settings_pair_length in Ep. specialize (Ll line eq_refl). lia. }
  eapply tr_bind; [apply malloc_tr; unfold SQLITE_MAX_ALLOCATION_SIZE, sizeof_CredsSetting; lia|].
  intros r [->|[-> HP]]; cbn [owned]; [|rewrite <- weights_pairs, Z.add_0_r; by apply settings_bad_tr].
  eapply tr_bind; [apply strdup_tr; lia|]. intros k' Hk. eapply tr_bind; [apply strdup_tr; lia|]. intros v' Hv.
  replace (3 * zlen out + 1 + owned k' + owned v') with (weights (of_pairs out ++ [Setting k' v'])) by
    (rewrite weights_app, weights_pairs; cbn; unfold weight; cbn [s_key s_value]; lia).
  destruct Hk as [->|[-> HP]]; [|by apply settings_bad_tr]. destruct Hv as [->|[-> HP]]; [|by apply settings_bad_tr].
  assert (of_pairs out ++ [Setting (Some k) (Some v)] = of_pairs (out ++ [(k, v)])) as -> by (unfold of_pairs; by rewrite fmap_app).
  rewrite weights_pairs. by apply IH.
Qed.
End loop.

(** [fgets] takes something, and what follows the line is no longer. *)
Lemma settings_step c0 rest chunk rest1 line rest2 : fgets (SETTINGS_LINE - 1) (c0 :: rest) = (chunk, rest1) -> settings_text chunk rest1 = (line, rest2) ->
  (length rest2 <= length rest)%nat /\ (forall x, line = Some x -> (length x <= S (length rest))%nat).
Proof.
  intros Ef Et. pose proof (fgets_app (SETTINGS_LINE - 1) (c0 :: rest)) as Ea. destruct (fgets_cons 1022 c0 rest) as [l0 El0].
  change (S 1022) with (SETTINGS_LINE - 1)%nat in El0. rewrite Ef in *. cbn [fst snd] in Ea, El0.
  apply (f_equal length) in Ea. rewrite El0, length_app in Ea. cbn [length] in Ea.
  pose proof (settings_text_rest chunk rest1) as Lr. pose proof (settings_text_line chunk rest1) as Ll. rewrite Et, El0 in *.
  cbn [fst snd length] in *. split; [lia|]. intros x Hx. specialize (Ll x Hx). lia.
Qed.

Lemma settings_loop_tr P fuel rest out repair : (length rest < fuel)%nat -> zlen rest < 2 ^ 29 ->
  tr P (3 * zlen out) (settings_loop fuel rest (of_pairs out) repair) 0 own_settings (may P (of_pairs <$> parse_loop fuel rest out repair)).
Proof.
  revert rest out. induction fuel as [|fuel IH]; intros rest out Hf Hz; [lia|]. cbn [settings_loop].
  set (main := match rest with [] => _ | _ :: _ => _ end).
  assert (tr P (3 * zlen out) main 0 own_settings (may P (of_pairs <$> parse_loop (S fuel) rest out repair))) as Hmain.
  2: { apply tr_next; [exact Hmain|]. intros c HP. destruct (refused c); [|exact Hmain]. rewrite <- weights_pairs. by apply settings_bad_tr. }
  unfold main. clear main. destruct rest as [|c0 rest]; [apply tr_ret; [cbn; rewrite weights_pairs; lia|by left]|]. cbn [parse_loop].
  destruct (fgets (SETTINGS_LINE - 1) (c0 :: rest)) as [chunk rest1] eqn:Ef. destruct (settings_text chunk rest1) as [line rest2] eqn:Et.
  destruct (settings_step _ _ _ _ _ _ Ef Et) as [Lr Ll]. cbn [length] in *. rewrite keys_of_pairs.
  assert (forall x, line = Some x -> zlen x < 2 ^ 29) as Ll' by (intros x Hx; specialize (Ll x Hx); lia).
  destruct line as [[|c line]|]; [apply IH; lia|apply (settings_line_tr P fuel repair IH (Some (c :: line))); [lia|lia|done]|].
  by apply (settings_line_tr P fuel repair IH None); [lia|lia|].
Qed.

(** The settings in the configuration file at [p]; none when there is no file. *)
Definition settings_at (W : world) (p : path) (repair : bool) : option pairs :=
  match file_at W p with
  | Some text => parse_settings text repair
  | None => if obstructed W p then None else Some []
  end.

Lemma settings_rd W P p repair : fs_wf W -> (forall text, file_at W p = Some text -> zlen text < 2 ^ 29) ->
  rd W P 0 (credsSettingsRead p repair) 0 own_settings (may P (of_pairs <$> settings_at W p repair)).
Proof.
  intros Hwf Hlen. unfold credsSettingsRead. apply fopen_rd.
  - intros i Hi. destruct (fs_entries _ Hwf (w_names W) p i) as [f Hf]; [by left|done|].
    assert (file_at W p = Some (i_data f)) as E by (unfold file_at; rewrite Hi; by rewrite Hf). unfold settings_at. rewrite E.
    apply (contents_rd _ _ i f); [done|]. apply rd_tr, (settings_loop_tr P (S (length (i_data f))) _ []); [lia|by apply Hlen].
  - intros x Hn He Hd. unfold settings_at, file_at. destruct (decide (x = ENOENT)) as [->|Hx].
    + destruct (He eq_refl) as [-> ->]. apply rd_ret; [done|by left].
    + specialize (Hd Hx). assert (rd W P 0 (retM None) 0 own_settings (may P (of_pairs <$> settings_at W p repair))) as H.
      { apply rd_none; [done..|]. intros HP. unfold settings_at, file_at. by rewrite (Hn HP), (Hd HP). }
      by destruct x.
Qed.

(** * The text of settings *)
Definition pair_text (x : list Z * list Z) : list Z := x.1 ++ EQUALS :: x.2 ++ [LF].
Definition print_pairs (l : pairs) : list Z := mjoin (pair_text <$> l).

(** A value loses a carriage return at its end when it is read. *)
Definition trim_cr (v : list Z) : list Z := default v (chop v CR).
Definition trim_pair (x : list Z * list Z) : list Z * list Z := (x.1, trim_cr x.2).

(** A setting that a line holds. *)
Record pair_wf (x : list Z * list Z) : Prop := {
  pair_key : x.1 <> [] /\ EQUALS ∉ x.1;
  pair_line : LF ∉ x.1 ++ x.2 /\ 0 ∉ x.1 ++ x.2 /\ (length x.1 + length x.2 < 1022)%nat;
  pair_known : known_key x.1 = true -> (x.1 = str "user.creds" \/ credsKidValid (Some (x.1 +p 7)) = true) /\
    (x.2 = str "anonymous" \/ credsKidValid (Some x.2) = true)
}.
Definition pairs_wf (l : pairs) : Prop := Forall pair_wf l /\ NoDup (filter (fun k => known_key k = true) l.*1).

Lemma fgets_line n line rest : LF ∉ line -> (length line < n)%nat -> fgets n (line ++ LF :: rest) = (line ++ [LF], rest).
Proof.
  revert n. induction line as [|c line IH]; intros n Hl Hn; (destruct n as [|n]; [cbn in Hn; lia|]); cbn [app fgets]; [done|].
  apply not_elem_of_cons in Hl as [Hc Hl]. cbn [length] in Hn. destruct (Z.eqb_spec c LF); [congruence|]. by rewrite IH by (done || lia).
Qed.

Lemma cstr_no_nul s : 0 ∉ s -> cstr s = s.
Proof. induction s as [|c s IH]; [done|]. rewrite not_elem_of_cons. intros [Hc Hs]. cbn. destruct (Z.eqb_spec c 0); [congruence|]. by rewrite IH. Qed.

Lemma chop_snoc s c : chop (s ++ [c]) c = Some s.
Proof. unfold chop. by rewrite reverse_snoc, Z.eqb_refl, reverse_involutive. Qed.

Lemma chop_value k v : default (k ++ EQUALS :: v) (chop (k ++ EQUALS :: v) CR) = k ++ EQUALS :: trim_cr v.
Proof.
  unfold trim_cr. destruct v as [|c v _] using rev_ind.
  - unfold chop at 2. cbn. unfold chop. by rewrite reverse_snoc.
  - assert (chop (k ++ EQUALS :: v ++ [c]) CR = (fun v => k ++ EQUALS :: v) <$> chop (v ++ [c]) CR) as ->; [|by destruct (chop _ CR)].
    unfold chop. rewrite (app_comm_cons v), app_assoc, !reverse_snoc. destruct (c =? CR); [|done]. cbn. by rewrite !reverse_involutive.
Qed.

Lemma settings_text_printed k v rest : LF ∉ k ++ v -> 0 ∉ k ++ v ->
  settings_text ((k ++ EQUALS :: v) ++ [LF]) rest = (Some (k ++ EQUALS :: trim_cr v), rest).
Proof.
  intros Hl H0. unfold settings_text. rewrite cstr_no_nul, chop_snoc, chop_value; [done|].
  apply not_elem_of_app in H0 as [H1 H2]. rewrite !not_elem_of_app, !not_elem_of_cons. by repeat split; [..|apply not_elem_of_nil].
Qed.

Lemma valid_no_cr v : credsKidValid (Some v) = true -> trim_cr v = v.
Proof.
  intros [Hs _]%valid_kid_safe. unfold trim_cr. destruct (chop v CR) as [v'|] eqn:E; [|done]. apply chop_prefix in E as ->.
  apply Forall_app in Hs as [_ Hs]. rewrite Forall_singleton in Hs. done.
Qed.

Lemma settings_pair_printed k v before : pair_wf (k, v) -> (known_key k = true -> k ∉ before) ->
  settings_pair (k ++ EQUALS :: trim_cr v) before = Some (k, trim_cr v).
Proof.
  intros [[Hne He] _ Hk] Hb. cbn [fst snd] in *. unfold settings_pair. rewrite strchr_found by done. cbv zeta.
  rewrite span_app. change ((EQUALS :: trim_cr v) +p 1) with (trim_cr v). rewrite bool_decide_eq_false_2 by done.
  destruct (known_key k) eqn:Ek; [|done]. destruct (Hk eq_refl) as [H1 H2]. rewrite (bool_decide_eq_false_2 (k ∈ before)) by auto.
  assert (trim_cr v = v) as -> by (destruct H2 as [->|H2]; [done|by apply valid_no_cr]).
  assert (negb (streq k (str "user.creds")) && negb (credsKidValid (Some (k +p 7))) = false) as ->.
  { destruct H1 as [->|H1]; [done|]. by rewrite H1, andb_false_r. }
  assert (negb (streq v (str "anonymous")) && negb (credsKidValid (Some v)) = false) as ->.
  { destruct H2 as [->|H2]; [done|]. by rewrite H2, andb_false_r. }
  done.
Qed.

Lemma trim_keys l : (trim_pair <$> l).*1 = l.*1.
Proof. induction l as [|x l IH]; [done|]. cbn. by rewrite IH. Qed.

Lemma length_pair_text x : length (pair_text x) = (length x.1 + length x.2 + 2)%nat.
Proof. unfold pair_text. rewrite length_app. cbn. rewrite length_app. cbn. lia. Qed.

Lemma print_pairs_cons k v l : print_pairs ((k, v) :: l) = (k ++ EQUALS :: v) ++ LF :: print_pairs l.
Proof. unfold print_pairs. rewrite fmap_cons. unfold pair_text at 1. cbn. by rewrite <- !app_assoc, <- app_comm_cons, <- app_assoc. Qed.

(** A line that is read takes one step of the loop. *)
Lemma parse_line fuel k v rest out repair : pair_wf (k, v) -> (known_key k = true -> k ∉ out.*1) ->
  parse_loop (S fuel) ((k ++ EQUALS :: v) ++ LF :: rest) out repair = parse_loop fuel rest (out ++ [(k, trim_cr v)]) repair.
Proof.
  intros Hwf Hb. pose proof Hwf as [[Hne He] (Hlf & H0 & Hlen) _]. cbn [fst snd] in *.
  pose proof (fgets_line (SETTINGS_LINE - 1) (k ++ EQUALS :: v) rest) as Ef. cbn [parse_loop].
  rewrite Ef, settings_text_printed, settings_pair_printed; [|done..| |].
  - destruct k as [|c k]; [done|]. done.
  - rewrite not_elem_of_app in *. rewrite not_elem_of_cons. naive_solver.
  - rewrite length_app. cbn [length]. unfold SETTINGS_LINE. lia.
Qed.

Lemma parse_printed fuel l out repair : pairs_wf (out ++ l) -> (length (print_pairs l) < fuel)%nat ->
  parse_loop fuel (print_pairs l) (trim_pair <$> out) repair = Some (trim_pair <$> out ++ l).
Proof.
  revert out fuel. induction l as [|[k v] l IH]; intros out fuel Hwf Hf; (destruct fuel as [|fuel]; [lia|]).
  { cbn. by rewrite app_nil_r. }
  pose proof Hwf as [Hall Hnd]. pose proof Hall as [_ [Hkv _]%Forall_cons]%Forall_app.
  rewrite print_pairs_cons in *. rewrite length_app in Hf. cbn [length] in Hf. rewrite parse_line; [|done|].
  - replace ((trim_pair <$> out) ++ [(k, trim_cr v)]) with (trim_pair <$> out ++ [(k, v)]) by (by rewrite fmap_app).
    rewrite IH; [by rewrite <- app_assoc|by rewrite <- app_assoc|lia].
  - rewrite trim_keys. intros Hkn Hin. rewrite fmap_app, fmap_cons, filter_app in Hnd. cbn [fst] in Hnd.
    rewrite filter_cons_True in Hnd by done. apply NoDup_app in Hnd as (_ & Hd & _).
    apply (Hd k); [by apply list_elem_of_filter|by apply list_elem_of_here].
Qed.
