(* ===== verification/CredsConfigSet.v ===== *)
(** [doltliteCredsConfigSet] of [remote/doltlite_creds.c]: it changes one
    setting, keeps the others, and a crash leaves the configuration file as it
    was or as it is to be. *)
From S2P Require Import Prelude CInt Ge Ed25519 Ed25519Spec CString World Radix Json Creds CredsFile Bearer CredsConfig CredsSpec CredsReplace CredsFileSpec CredsRead BearerSpec CredsSave CredsConfigSpec.
#[local] Opaque public_of secret_of digest224.

(** * Changing one setting *)
Fixpoint assign (l : pairs) (key : list Z) (value : option (list Z)) : pairs :=
  match l with
  | [] => []
  | (k, v) :: l => if streq k key then match value with Some v' => (k, v') :: l | None => l end else (k, v) :: assign l key value
  end.
(** The settings with [key] set to [value], or without it. *)
Definition update (l : pairs) (key : list Z) (value : option (list Z)) : pairs :=
  if bool_decide (key ∈ l.*1) then assign l key value
  else match value with Some v => (key, v) :: l | None => l end.

Definition settings_printed (l : list CredsSetting) : list Z := mjoin (setting_text <$> l).

Lemma settings_printed_cons s l : settings_printed (s :: l) = setting_text s ++ settings_printed l.
Proof. done. Qed.

Lemma print_pairs_pair x l : print_pairs (x :: l) = pair_text x ++ print_pairs l.
Proof. done. Qed.

Lemma printed_of_pairs l : settings_printed (of_pairs l) = print_pairs l.
Proof.
  induction l as [|[k v] l IH]; [done|]. change (of_pairs ((k, v) :: l)) with (Setting (Some k) (Some v) :: of_pairs l).
  by rewrite settings_printed_cons, print_pairs_pair, IH.
Qed.

Lemma setting_is_pair key k v : setting_is key (Setting (Some k) v) = streq k key.
Proof. unfold setting_is, streq. apply bool_decide_ext. cbn. split; [by intros [= ->]|by intros ->]. Qed.

Lemma found_of_pairs l key : existsb (setting_is key) (of_pairs l) = bool_decide (key ∈ l.*1).
Proof.
  induction l as [|[k v] l IH]; [done|]. unfold of_pairs in *. cbn [fmap list_fmap existsb fst snd]. rewrite setting_is_pair, IH.
  unfold streq. rewrite <- bool_decide_or. apply bool_decide_ext. rewrite elem_of_cons. naive_solver.
Qed.

(** The value of the first setting called [key] in a list that has one. *)
Lemma set_value_tr P l key value : key ∈ l.*1 -> (forall v, value = Some v -> zlen v < 2 ^ 30) ->
  tr P (weights (of_pairs l)) (set_value (of_pairs l) key value) 0 (fun r => weights r.1)
    (fun r => if r.2 : bool then ~ P else settings_printed r.1 = print_pairs (assign l key value)).
Proof.
  intros Hin Hv. induction l as [|[k v] l IH]; [by apply not_elem_of_nil in Hin|].
  change (of_pairs ((k, v) :: l)) with (Setting (Some k) (Some v) :: of_pairs l).
  cbn [set_value assign]. rewrite setting_is_pair. unfold streq. destruct (bool_decide_reflect (k = key)) as [->|Hne].
  - cbn [s_value]. apply free_tr. cbn [owned weights].
    assert (forall v', tr P (weight (Setting (Some key) (Some v)) + weights (of_pairs l) - 1 + owned v')
      (retM (Setting (Some key) v' :: of_pairs l, bool_decide (is_Some value) && negb (bool_decide (is_Some v')))) 0 (fun r => weights r.1)
      (fun r => r.1 = Setting (Some key) v' :: of_pairs l /\ r.2 = bool_decide (is_Some value) && negb (bool_decide (is_Some v')))) as Hret.
    { intros v'. apply tr_ret; [cbn [fst weights]; unfold weight; cbn [s_key s_value owned]; lia|done]. }
    destruct value as [x|].
    + eapply tr_bind; [apply strdup_tr; by apply Hv|]. intros v' Hv'. eapply tr_mono; [apply Hret|]. intros [r b] [E1 E2]. cbn [fst snd] in *. subst.
      destruct Hv' as [->|[-> HP]]; [|done]. rewrite bool_decide_eq_true_2 by done. cbn [andb negb]. by rewrite settings_printed_cons, printed_of_pairs.
    + eapply (tr_bind _ _ _ _ owned (fun v' => v' = None)); [by apply tr_ret|]. intros v' ->. eapply tr_mono; [apply Hret|].
      intros [r b] [E1 E2]. cbn [fst snd] in *. subst.
      rewrite bool_decide_eq_false_2 by apply is_Some_None. cbn [andb]. by rewrite settings_printed_cons, printed_of_pairs.
  - cbn [weights]. apply elem_of_cons in Hin as [Hin|Hin]; [by destruct Hne|].
    intros w0 w Hw HP. apply wpM_bind.
    assert (mem (weights (of_pairs l)) (set_live (w_live w0 + weight (Setting (Some k) (Some v))) w0) w) as Hw'.
    { destruct Hw as (? & ? & ?). split_and!; [done..|]. cbn. lia. }
    eapply wpM_mono; [apply (IH Hin _ _ Hw' HP)| |done]. cbn beta. intros [r b] w' [Hm HR]. apply wpM_ret. cbn [fst snd] in *. split.
    + destruct Hm as (? & ? & Hl). split_and!; [done..|]. cbn in Hl |- *. lia.
    + destruct b; [done|]. by rewrite settings_printed_cons, print_pairs_pair, HR.
Qed.

(** What [config_change] hands on: the settings to write, or a result. *)
Definition changed (P : Prop) (l : pairs) (key : list Z) (value : option (list Z)) (onlyIfMissing : bool) (r : list CredsSetting * option Z) : Prop :=
  match r.2 with
  | Some 0 => key ∈ l.*1 /\ onlyIfMissing = true
  | Some rc => rc = 1 /\ ~ P
  | None => ~ (key ∈ l.*1 /\ onlyIfMissing = true) /\ settings_printed r.1 = print_pairs (update l key value)
  end.

Lemma config_change_tr P l key value onlyIfMissing : zlen key < 2 ^ 30 -> (forall v, value = Some v -> zlen v < 2 ^ 30) ->
  tr P (weights (of_pairs l)) (config_change (of_pairs l) key value onlyIfMissing) 0 (fun r => weights r.1) (changed P l key value onlyIfMissing).
Proof.
  intros Hk Hv. unfold config_change, changed, update. rewrite found_of_pairs. cbv zeta.
  destruct (bool_decide_reflect (key ∈ l.*1)) as [Hin|Hout]; cbn [andb].
  - destruct onlyIfMissing; [by apply tr_ret|].
    eapply (tr_bind _ _ _ _ nothing (fun r => r = (of_pairs l, false))); [by apply tr_ret|]. intros r ->. unfold nothing at 1. rewrite Z.add_0_r.
    intros w0 w Hw HP. apply wpM_bind. eapply wpM_mono; [apply (set_value_tr P l key value Hin Hv _ _ Hw HP)| |done].
    cbn beta. intros [r b] w' [Hm HR]. apply wpM_ret. cbn [fst snd] in *. split; [done|]. destruct b; [done|]. split; [|done]. by intros [_ ?].
  - assert (forall r o, (forall x, o = Some x -> x = 1) -> o <> None -> ~ P -> match o with Some 0 => key ∈ l.*1 /\ onlyIfMissing = true | Some rc => rc = 1 /\ ~ P
      | None => ~ (key ∈ l.*1 /\ onlyIfMissing = true) /\ settings_printed r = print_pairs match value with Some v => (key, v) :: l | None => l end end) as Hfail.
    { intros r [x|] Hx Hn HP; [|done]. by rewrite (Hx x eq_refl). }
    apply tr_assoc. eapply tr_bind; [apply malloc_tr; unfold SQLITE_MAX_ALLOCATION_SIZE, sizeof_CredsSetting; lia|].
    intros p [->|[-> HP]]; cbn [owned].
    2: { eapply (tr_lift _ _ (Some _)); [done|]. apply tr_ret; [cbn [fst]; lia|]. apply Hfail; [by intros ? [= <-]|done|done]. }
    apply tr_assoc. eapply tr_bind; [by apply strdup_tr|]. intros k [->|[-> HP]]; cbn [owned].
    2: { eapply (tr_lift _ _ (Some _)); [done|]. apply tr_ret; [cbn [fst weights]; unfold weight; cbn; lia|]. apply Hfail; [by intros ? [= <-]|done|done]. }
    eapply (tr_lift _ _ (Some _)); [done|]. rewrite bool_decide_eq_true_2 by done. cbn [negb set_value].
    rewrite setting_is_pair. unfold streq. rewrite bool_decide_eq_true_2 by done. cbn [s_value s_key].
    apply tr_assoc, (free_tr _ _ None), tr_assoc. cbn [owned]. rewrite Z.sub_0_r.
    eapply (tr_bind _ _ _ _ owned (may P value)).
    { destruct value as [v|]; [|apply tr_ret; [done|by left]]. eapply tr_mono; [apply strdup_tr; by apply Hv|]. done. }
    intros v Hv'. eapply (tr_lift _ _ (Some _)); [done|]. apply tr_ret; [cbn [fst weights]; unfold weight; cbn [s_key s_value owned]; lia|]. cbn [fst snd].
    destruct Hv' as [->|[-> HP]].
    + destruct value as [v|].
      * rewrite bool_decide_eq_true_2 by done. cbn [andb negb]. split; [by intros [? _]|]. by rewrite settings_printed_cons, printed_of_pairs.
      * rewrite bool_decide_eq_false_2 by apply is_Some_None. cbn [andb]. split; [by intros [? _]|]. by rewrite settings_printed_cons, printed_of_pairs.
    + destruct value as [v|].
      * rewrite bool_decide_eq_true_2, bool_decide_eq_false_2 by (done || apply is_Some_None). cbn [andb negb]. done.
      * rewrite bool_decide_eq_false_2 by apply is_Some_None. cbn [andb]. split; [by intros [? _]|]. by rewrite settings_printed_cons, printed_of_pairs.
Qed.

(** * What is read can be written *)
Lemma fgets_shape n rest : let chunk := (fgets n rest).1 in
  (length chunk <= n)%nat /\ exists a, LF ∉ a /\ (chunk = a \/ chunk = a ++ [LF]).
Proof.
  revert rest. induction n as [|n IH]; intros [|c rest]; cbv zeta; cbn [fgets].
  1-3: split; [cbn; lia|]; exists []; split; [apply not_elem_of_nil|by left].
  destruct (Z.eqb_spec c LF) as [->|Hc].
  - split; [cbn; lia|]. exists []. split; [apply not_elem_of_nil|by right].
  - specialize (IH rest). cbv zeta in IH. destruct (fgets n rest) as [line r]. cbn [fst] in *. destruct IH as (L & a & Ha & E).
    split; [cbn; lia|]. exists (c :: a). split; [by apply not_elem_of_cons|]. destruct E as [->| ->]; [by left|by right].
Qed.

Lemma cstr_prefix b : cstr b `prefix_of` b.
Proof. induction b as [|c b IH]; [done|]. cbn [cstr]. destruct (c =? 0); [apply prefix_nil|by apply prefix_cons]. Qed.

Lemma cstr_nul b : 0 ∉ cstr b.
Proof.
  induction b as [|c b IH]; [apply not_elem_of_nil|]. cbn [cstr]. destruct (Z.eqb_spec c 0); [apply not_elem_of_nil|].
  apply not_elem_of_cons. by split.
Qed.

(** A text that can be in a line of the file. *)
Definition line_wf (line : list Z) : Prop := LF ∉ line /\ 0 ∉ line /\ (length line <= 1022)%nat.

Lemma line_wf_chop line c : line_wf line -> line_wf (default line (chop line c)).
Proof.
  intros H. destruct (chop line c) as [l|] eqn:E; [|done]. apply chop_prefix in E as ->. destruct H as (H1 & H2 & H3).
  apply not_elem_of_app in H1 as [H1 _], H2 as [H2 _]. rewrite length_app in H3. by split_and!; [..|cbn; lia].
Qed.

Lemma settings_text_wf rest line : let (chunk, rest1) := fgets (SETTINGS_LINE - 1) rest in
  (settings_text chunk rest1).1 = Some line -> line_wf line.
Proof.
  pose proof (fgets_shape (SETTINGS_LINE - 1) rest) as Hs. cbv zeta in Hs. destruct (fgets (SETTINGS_LINE - 1) rest) as [chunk rest1].
  cbn [fst] in Hs. destruct Hs as (L & a & Ha & E). unfold settings_text. pose proof (cstr_nul chunk) as H0.
  destruct (cstr_prefix chunk) as [t Et]. destruct (chop (cstr chunk) LF) as [l|] eqn:Ec.
  - intros [= <-]. apply line_wf_chop. apply chop_prefix in Ec. rewrite Ec in *. apply not_elem_of_app in H0 as [H0 _]. split_and!; [|done|].
    + intros Hl. destruct E as [E|E]; rewrite E in Et; [apply Ha; rewrite Et; by rewrite !elem_of_app; left; left|].
      destruct t as [|x t _] using rev_ind; [rewrite app_nil_r in Et; apply app_inj_tail in Et as [-> _]; done|].
      rewrite app_assoc in Et. apply app_inj_tail in Et as [-> _]. apply Ha. by rewrite !elem_of_app; left; left.
    + apply (f_equal length) in Et. rewrite !length_app in Et. cbn in Et. unfold SETTINGS_LINE in L. lia.
  - destruct (_ && _) eqn:Ef; cbn [negb]; [|done]. intros [= <-]. apply line_wf_chop. apply andb_true_iff in Ef as [L1 L2].
    rewrite negb_true_iff, bool_decide_eq_false in L2. apply Nat.ltb_lt in L1. split_and!; [|done|].
    + intros Hl. apply L2. rewrite Et. by apply elem_of_app; left.
    + pose proof (cstr_length chunk). unfold SETTINGS_LINE in L1. lia.
Qed.

Lemma settings_pair_wf line before k v : line_wf line -> settings_pair line before = Some (k, v) ->
  pair_wf (k, v) /\ (known_key k = true -> k ∉ before).
Proof.
  intros (Hlf & H0 & Hlen). unfold settings_pair. destruct (strchr line EQUALS) as [eq|] eqn:E; [|done].
  apply strchr_Some in E as (a & b & -> & -> & Ha). rewrite span_app. change ((EQUALS :: b) +p 1) with b. cbv zeta.
  rewrite length_app in Hlen. cbn [length] in Hlen. apply not_elem_of_app in Hlf as [Hlf1 [_ Hlf2]%not_elem_of_cons], H0 as [H01 [_ H02]%not_elem_of_cons].
  destruct (bool_decide_reflect (a = [])) as [|Hne]; [done|].
  assert ((known_key a = true -> (a = str "user.creds" \/ credsKidValid (Some (a +p 7)) = true) /\ (b = str "anonymous" \/ credsKidValid (Some b) = true)) ->
    pair_wf (a, b)) as Hwf.
  { intros Hk. split; cbn [fst snd]; [by split| |done]. rewrite !not_elem_of_app. by split_and!; [..|lia]. }
  destruct (known_key a) eqn:Ek; [|intros [= <- <-]; split; [by apply Hwf|congruence]].
  unfold streq. destruct (bool_decide_reflect (a = str "user.creds")) as [E1|N1]; cbn [negb andb];
    [|destruct (credsKidValid (Some (a +p 7))) eqn:E2; cbn [negb]; [|done]].
  all: destruct (bool_decide_reflect (b = str "anonymous")) as [E3|N3]; cbn [negb andb];
    [|destruct (credsKidValid (Some b)) eqn:E4; cbn [negb]; [|done]].
  all: destruct (bool_decide_reflect (a ∈ before)) as [|Hb]; [done|]; intros [= <- <-]; split; [apply Hwf; intros _; split; by auto|done].
Qed.

Lemma pairs_wf_snoc out x : pairs_wf out -> pair_wf x -> (known_key x.1 = true -> x.1 ∉ out.*1) -> pairs_wf (out ++ [x]).
Proof.
  intros [H1 H2] Hx Hn. split; [apply Forall_app; split; [done|by apply Forall_singleton]|].
  rewrite fmap_app, filter_app. destruct (decide (known_key x.1 = true)) as [Hk|Hk].
  - cbn [fmap list_fmap]. rewrite filter_cons_True by done. apply NoDup_app. split_and!; [done| |apply NoDup_singleton].
    intros k [_ Hin]%list_elem_of_filter ->%list_elem_of_singleton. by apply Hn.
  - cbn [fmap list_fmap]. rewrite filter_cons_False by done. cbn. by rewrite app_nil_r.
Qed.

Lemma parse_wf fuel rest out repair l : pairs_wf out -> parse_loop fuel rest out repair = Some l -> pairs_wf l.
Proof.
  revert rest out. induction fuel as [|fuel IH]; intros rest out Ho; [done|]. cbn [parse_loop].
  destruct rest as [|c rest]; [by intros [= <-]|]. pose proof (fun line => settings_text_wf (c :: rest) line) as Ht.
  destruct (fgets (SETTINGS_LINE - 1) (c :: rest)) as [chunk rest1]. destruct (settings_text chunk rest1) as [line rest2]. cbn [fst] in Ht.
  assert ((let? line := line in settings_pair line out.*1) = None -> (if repair then parse_loop fuel rest2 out repair else None) = Some l -> pairs_wf l) as Hbad.
  { intros _. destruct repair; [by apply IH|done]. }
  assert (forall x, (let? line := line in settings_pair line out.*1) = Some x -> parse_loop fuel rest2 (out ++ [x]) repair = Some l -> pairs_wf l) as Hgood.
  { intros [k v] E. destruct line as [line|]; [|done]. apply IH. destruct (settings_pair_wf _ _ _ _ (Ht line eq_refl) E). by apply pairs_wf_snoc. }
  destruct line as [[|c0 line]|]; [by apply IH| |].
  - destruct (settings_pair (c0 :: line) out.*1) as [x|] eqn:E; [by apply (Hgood x)|by apply Hbad].
  - by apply Hbad.
Qed.

(** * The setting that is looked up *)
Fixpoint value_of (l : pairs) (key : list Z) : option (list Z) :=
  match l with
  | [] => None
  | (k, v) :: l => if streq k key then Some v else value_of l key
  end.

Lemma value_of_none l key : value_of l key = None <-> key ∉ l.*1.
Proof.
  induction l as [|[k v] l IH]; cbn [value_of]; [split; [intros _; apply not_elem_of_nil|done]|].
  change (((k, v) :: l).*1) with (k :: l.*1). unfold streq. rewrite not_elem_of_cons. destruct (bool_decide_reflect (k = key)) as [->|Hne]; [naive_solver|].
  rewrite IH. naive_solver.
Qed.

Lemma assign_keys l key value : (assign l key value).*1 `sublist_of` l.*1.
Proof.
  induction l as [|[k v] l IH]; [done|]. cbn [assign]. change (((k, v) :: l).*1) with (k :: l.*1). unfold streq.
  destruct (bool_decide_reflect (k = key)) as [->|Hne]; [destruct value; [done|by apply sublist_cons]|].
  change (((k, v) :: assign l key value).*1) with (k :: (assign l key value).*1). by apply sublist_skip.
Qed.

Lemma value_of_other l key value k : k <> key -> value_of (update l key value) k = value_of l k.
Proof.
  intros Hk. assert (streq key k = false) as Ek by (unfold streq; by apply bool_decide_eq_false_2).
  unfold update. destruct (bool_decide (key ∈ l.*1)); [|destruct value; [|done]; cbn [value_of]; by rewrite Ek].
  induction l as [|[k' v] l IH]; [done|]. cbn [assign value_of]. unfold streq at 1. destruct (bool_decide_reflect (k' = key)) as [->|Hne].
  - rewrite Ek. destruct value; [|done]. cbn [value_of]. by rewrite Ek.
  - cbn [value_of]. by rewrite IH.
Qed.

(** A known key is there once, so that removing it removes it. *)
Lemma value_of_update l key value : pairs_wf l -> known_key key = true -> value_of (update l key value) key = value.
Proof.
  intros [_ Hnd] Hk. unfold update. assert (streq key key = true) as Er by apply streq_refl.
  destruct (bool_decide_reflect (key ∈ l.*1)) as [Hin|Hout].
  2: { destruct value; cbn [value_of]; [by rewrite Er|by apply value_of_none]. }
  induction l as [|[k v] l IH]; [by apply not_elem_of_nil in Hin|]. change (((k, v) :: l).*1) with (k :: l.*1) in *.
  cbn [assign]. unfold streq at 1. destruct (bool_decide_reflect (k = key)) as [->|Hne].
  - rewrite filter_cons_True in Hnd by done. apply NoDup_cons in Hnd as [Hnd _]. destruct value; cbn [value_of]; [by rewrite Er|].
    apply value_of_none. intros H. apply Hnd. by apply list_elem_of_filter.
  - cbn [value_of]. assert (streq k key = false) as -> by (by apply bool_decide_eq_false_2). apply IH.
    + destruct (decide (known_key k = true)) as [E|E]; [rewrite filter_cons_True in Hnd by done; by apply NoDup_cons in Hnd as [_ ?]|].
      by rewrite filter_cons_False in Hnd.
    + apply elem_of_cons in Hin as [->|?]; [by destruct Hne|done].
Qed.

Lemma value_of_trim l key : value_of (trim_pair <$> l) key = trim_cr <$> value_of l key.
Proof. induction l as [|[k v] l IH]; [done|]. cbn [fmap list_fmap value_of trim_pair fst snd]. by destruct (streq k key). Qed.

(** A value of a known key is read as it was written. *)
Lemma known_value l key v : pairs_wf l -> known_key key = true -> value_of l key = Some v -> trim_cr v = v.
Proof.
  intros [Hall _] Hk. induction l as [|[k x] l IH]; [done|]. apply Forall_cons in Hall as [Hx Hall]. cbn [value_of]. unfold streq.
  destruct (bool_decide_reflect (k = key)) as [->|Hne]; [|by apply IH]. intros [= ->]. destruct Hx as [_ _ Hx]. cbn [fst snd] in Hx.
  destruct (Hx Hk) as [_ [->|Hv]]; [done|by apply valid_no_cr].
Qed.

(** What the caller may ask for. *)
Definition config_key (key : list Z) : Prop := key = str "user.creds" \/ exists hash, key = str "remote." ++ hash /\ credsKidValid (Some hash) = true.
Definition config_value (value : option (list Z)) : Prop := match value with Some v => v = str "anonymous" \/ credsKidValid (Some v) = true | None => True end.

Lemma config_key_known key : config_key key -> known_key key = true /\ (key = str "user.creds" \/ credsKidValid (Some (key +p 7)) = true) /\ zlen key <= 52.
Proof.
  intros [->|(hash & -> & Hh)]; [by split_and!; [|left|]|]. split_and!.
  - unfold known_key. apply orb_true_iff. right. by apply bool_decide_eq_true_2.
  - right. exact Hh.
  - apply valid_kid_safe in Hh as [_ L]. rewrite length_app, L. done.
Qed.

Lemma config_value_length value v : config_value value -> value = Some v -> zlen v <= 45.
Proof. intros H ->. destruct H as [->|[_ L]%valid_kid_safe]; [done|lia]. Qed.

Lemma config_pair_wf key v : config_key key -> config_value (Some v) -> pair_wf (key, v).
Proof.
  intros Hk Hv. destruct (config_key_known key Hk) as (_ & Hk' & Lk). pose proof (config_value_length _ v Hv eq_refl).
  assert (forall s, s = str "user.creds" \/ s = str "anonymous" \/ s = str "remote." \/ credsKidValid (Some s) = true -> LF ∉ s /\ 0 ∉ s /\ EQUALS ∉ s) as Hs.
  { intros s [->|[->|[->|Hs]]]; [by split_and!; apply (bool_decide_unpack _); vm_compute..|]. apply valid_kid_safe in Hs as [Hs _].
    by split_and!; apply safe_not_in. }
  assert (LF ∉ key /\ 0 ∉ key /\ EQUALS ∉ key /\ key <> []) as (K1 & K2 & K3 & K4).
  { destruct Hk as [->|(hash & -> & Hh)]; [destruct (Hs (str "user.creds")) as (? & ? & ?); [by left|by split_and!]|].
    destruct (Hs (str "remote.")) as (? & ? & ?); [by auto|]. destruct (Hs hash) as (? & ? & ?); [by auto|]. rewrite !not_elem_of_app. by split_and!. }
  destruct (Hs v) as (V1 & V2 & _); [destruct Hv; auto|].
  split; cbn [fst snd]; [by split| |by intros _; split]. rewrite !not_elem_of_app. split_and!; [done..|lia].
Qed.

Lemma sublist_filter_mono {A} (P : A -> Prop) `{!forall x, Decision (P x)} (l k : list A) : l `sublist_of` k -> filter P l `sublist_of` filter P k.
Proof.
  induction 1 as [|x l k Hs IH|x l k Hs IH]; [done|..].
  - destruct (decide (P x)); [rewrite !filter_cons_True by done; by apply sublist_skip|by rewrite !filter_cons_False by done].
  - destruct (decide (P x)); [rewrite filter_cons_True by done; by apply sublist_cons|by rewrite filter_cons_False by done].
Qed.

Lemma update_wf l key value : pairs_wf l -> config_key key -> config_value value -> pairs_wf (update l key value).
Proof.
  intros [Hall Hnd] Hk Hv. destruct (config_key_known key Hk) as (Hkn & _). unfold update. destruct (bool_decide_reflect (key ∈ l.*1)) as [Hin|Hout].
  - split; [|eapply sublist_NoDup; [exact Hnd|]; apply sublist_filter_mono, assign_keys]. clear Hnd Hin.
    induction l as [|[k v] l IH]; [done|]. apply Forall_cons in Hall as [Hx Hall]. cbn [assign]. unfold streq.
    destruct (bool_decide_reflect (k = key)) as [->|]; [|apply Forall_cons; by auto]. destruct value as [v'|]; [|done].
    apply Forall_cons. split; [by apply config_pair_wf|done].
  - destruct value as [v|]; [|done]. split; [apply Forall_cons; split; [by apply config_pair_wf|done]|].
    change (((key, v) :: l).*1) with (key :: l.*1). rewrite filter_cons_True by done. apply NoDup_cons. split; [|done].
    by intros [_ ?]%list_elem_of_filter.
Qed.
