(* ===== verification/CredsConfigFile.v ===== *)
(** The configuration file on disk, [doltliteCredsConfigSet] of
    [remote/doltlite_creds.c]: the lock file, the temporary file that is
    synced and renamed, and what a crash at any point can leave. *)
From S2P Require Import Prelude CInt Ge Ed25519 Ed25519Spec CString World Radix Json Creds CredsFile Bearer CredsConfig CredsSpec CredsReplace CredsFileSpec CredsRead BearerSpec CredsSave CredsConfigSpec CredsConfigSet.
#[local] Opaque public_of secret_of digest224.

(** * Calls *)
Definition new_file (p : path) (X : world) : world :=
  set_names (<[p := w_fresh X]> (w_names X)) (set_fresh (S (w_fresh X)) (set_inode (w_fresh X) (Inode [] false) X)).

Lemma open_create_wp X p trunc w (E : world -> Prop) : same_files X w -> E w ->
  wpM (open_create p trunc) (fun r w' =>
    match r with
    | None => reach X w w'
    | Some i => (w_names X !! p = Some i /\ reach (if trunc then set_inode i (Inode [] false) X else X) w w') \/
        (w_names X !! p = None /\ i = w_fresh X /\ reach (new_file p X) w w')
    end /\ (calm w -> is_dir X p = false -> is_dir X (dirname p) = true -> is_Some r)) E w.
Proof.
  intros HX HE. apply wpM_take; [done|]. intros c w' Ht. pose proof (taken_reach X _ _ _ HX Ht) as Hr.
  apply wpM_getW. rewrite (same_names X w'), !(same_is_dir X w') by apply Hr. destruct (_ || _) eqn:Ec.
  { apply wpM_ret. split; [done|]. intros Hc Hd. destruct (taken_calm _ _ _ Ht Hc) as [-> _]. by rewrite Hd in Ec. }
  destruct (w_names X !! p) as [i|] eqn:En.
  - apply wpM_bind. destruct trunc; [unfold wpM, modW|]; apply wpM_ret; (split; [|done]); left; (split; [done|]); [|done].
    eapply reach_files; [exact Hr|apply same_files_set, Hr|done|done].
  - destruct (is_dir X (dirname p)); [|by apply wpM_ret]. apply wpM_bind, wpM_getW, wpM_modW, wpM_ret, wpM_ret. split; [|done]. right.
    assert (w_fresh w' = w_fresh X) as -> by apply Hr. assert (w_names w' = w_names X) as -> by apply Hr. split_and!; [done..|].
    apply reach_names. eapply reach_files; [exact Hr| |done|done]. apply same_files_set. by apply same_files_set, Hr.
Qed.

Lemma fsync_once_wp X i b s w (E : world -> Prop) : same_files X w -> w_inodes X !! i = Some (Inode b s) -> E w ->
  wpM (fsync i) (attempted X (set_inode i (Inode b true) X) w) E w.
Proof.
  intros HX Hi HE. apply attempt_wp; [done|done|]. intros w' HX'.
  eapply wpM_contents; [destruct HX' as (_ & _ & -> & _); exact Hi|]. unfold wpM, modW.
  split_and!; [by apply same_files_set|done..].
Qed.

Lemma set_inode_same X i b s : w_inodes X !! i = Some (Inode b s) -> same_files (set_inode i (Inode b s) X) X.
Proof. intros H. unfold same_files. cbn. rewrite insert_id by done. by split_and!. Qed.

Lemma reach_same X Y w w' : same_files Y X -> reach X w w' -> reach Y w w'.
Proof. intros H (F & R). split; [by etransitivity|exact R]. Qed.

Lemma print_settings_wp settings X i b s w (E : world -> Prop) : same_files X w -> w_inodes X !! i = Some (Inode b s) ->
  (forall b s w', same_files (set_inode i (Inode b s) X) w' -> E w') ->
  wpM (print_settings i settings) (fun ok w' => exists b' s', reach (set_inode i (Inode b' s') X) w w' /\
    (ok = true -> b' = b ++ settings_printed settings) /\ (calm w -> ok = true)) E w.
Proof.
  revert X b s w. induction settings as [|x settings IH]; intros X b s w HX Hi HE; cbn [print_settings].
  { apply wpM_ret. exists b, s. split_and!; [|by rewrite app_nil_r|done]. apply reach_refl. etransitivity; [by apply set_inode_same|done]. }
  destruct (s_value x) as [v|] eqn:Ev.
  2: { eapply wpM_mono; [by eapply IH| |done]. cbn beta. intros ok w' (b' & s' & H1 & H2 & H3). exists b', s'. split_and!; [done| |done].
    intros Hok. rewrite settings_printed_cons. unfold setting_text. rewrite Ev. destruct (s_key x); by apply H2. }
  assert (E w) as HEw by (apply (HE b s); etransitivity; [by apply set_inode_same|done]).
  apply wpM_take; [done|]. intros c w1 Ht. pose proof (taken_reach X _ _ _ HX Ht) as Hr. destruct (refused c) eqn:Ec.
  { apply wpM_ret. exists b, s. split_and!; [eapply reach_same; [by apply set_inode_same|done]|done|].
    intros Hc. by destruct (taken_calm _ _ _ Ht Hc) as [-> _]. }
  apply wpM_bind. eapply append_wp; [apply Hr|done|]. intros w2 H2. set (X' := set_inode i _ X) in H2.
  eapply wpM_mono; [apply (IH X' (b ++ setting_text x) false w2); [apply H2|cbn; by rewrite lookup_insert_eq|]| |done].
  - intros b1 s1 w3 H3. apply (HE b1 s1). etransitivity; [|exact H3]. symmetry. apply set_inode_twice.
  - cbn beta. intros ok w3 (b' & s' & H3 & H4 & H5). exists b', s'. split_and!.
    + eapply reach_trans; [exact Hr|]. eapply reach_trans; [exact H2|]. eapply reach_same; [|exact H3]. symmetry. apply set_inode_twice.
    + intros Hok. by rewrite (H4 Hok), settings_printed_cons, <- app_assoc.
    + intros Hc. apply H5. eapply reach_calm; [exact H2|]. by eapply reach_calm.
Qed.

Lemma wpM_rd {A} X P (m : M A) own R (Q : A -> world -> Prop) (E : world -> Prop) w :
  rd X P 0 m 0 own R -> same_files X w -> (P -> calm w) ->
  (forall a w', mem (own a) w w' -> (P -> calm w') -> R a -> Q a w') -> (forall w', same_files w w' -> E w') -> wpM m Q E w.
Proof.
  intros Hm HX HP HQ HE. eapply wpM_mono; [apply (Hm w w (mem_refl w) HX HP)| |done].
  cbn beta. intros a w' [Hw' Ha]. apply HQ; [done| |done]. intros HP'. apply (mem_calm _ _ _ Hw'), HP, HP'.
Qed.

(** Repairing, a text always has settings. *)
Lemma parse_repair fuel rest out : (length rest < fuel)%nat -> is_Some (parse_loop fuel rest out true).
Proof.
  revert rest out. induction fuel as [|fuel IH]; intros rest out Hf; [lia|]. cbn [parse_loop]. destruct rest as [|c0 rest]; [done|].
  destruct (fgets (SETTINGS_LINE - 1) (c0 :: rest)) as [chunk rest1] eqn:Ef. destruct (settings_text chunk rest1) as [line rest2] eqn:Et.
  destruct (settings_step _ _ _ _ _ _ Ef Et) as [Lr _]. cbn [length] in Hf.
  destruct line as [[|c line]|]; [apply IH; lia| |apply IH; lia]. destruct (settings_pair _ _); apply IH; lia.
Qed.

(** * The files of the configuration *)
Section config.
Context (W : world) (Hwf : fs_wf W) (dir : path).
#[local] Abbreviation path_ := (config_path dir []).
#[local] Abbreviation tmp := (config_path dir (str ".tmp")).

(** No table that a crash can bring back has the temporary file under the name
    of the configuration. *)
Definition apart (X : world) : Prop := forall t i, t ∈ tables X -> t !! path_ = Some i -> w_names X !! tmp <> Some i.

(** The configuration is still that of [W]. *)
Record quiet (X : world) : Prop := {
  quiet_old : forall t i f, t ∈ tables W -> t !! path_ = Some i -> w_inodes W !! i = Some f -> w_inodes X !! i = Some f;
  quiet_tables : forall t, t ∈ tables X -> exists t0, t0 ∈ tables W /\ t !! path_ = t0 !! path_;
  quiet_fs : fs_wf X;
  quiet_now : w_names X !! path_ = w_names W !! path_;
  quiet_apart : forall t i, t ∈ tables W -> t !! path_ = Some i -> w_names X !! tmp <> Some i
}.

Lemma quiet_sound text X : quiet X -> sound W path_ text X.
Proof using. intros H. split_and!; [apply H| |apply H]. intros t (t0 & H0 & E)%(quiet_tables _ H). left. by exists t0. Qed.

Lemma quiet_apart_all X : quiet X -> apart X.
Proof using. intros H t i (t0 & H0 & E)%(quiet_tables _ H) Hi. rewrite E in Hi. by eapply quiet_apart. Qed.

Lemma quiet_dirs D : apart W -> quiet (with_dirs D W).
Proof using Hwf. intros H. split; [done| |by apply fs_wf_dirs|done|done]. intros t Ht. by exists t. Qed.

Lemma quiet_file X : quiet X -> file_at X path_ = file_at W path_.
Proof using Hwf.
  intros H. unfold file_at. rewrite (quiet_now _ H). destruct (w_names W !! path_) as [i|] eqn:E; [|done].
  destruct (fs_entries _ Hwf (w_names W) path_ i) as [f Hf]; [by left|done|].
  rewrite (quiet_old _ H (w_names W) i f), Hf; [done|by left|done|done].
Qed.

Lemma fs_wf_inode X i x : fs_wf X -> is_Some (w_inodes X !! i) -> fs_wf (set_inode i x X).
Proof using.
  intros [H1 H2] [f Hf]. split; cbn.
  - intros j g [[<- _]|[_ Hj]]%lookup_insert_Some; by eapply H1.
  - intros t p j Ht Hp. destruct (decide (i = j)) as [->|]; [by rewrite lookup_insert_eq|rewrite lookup_insert_ne by done; by eapply H2].
Qed.

Lemma fs_wf_new_file p X : fs_wf X -> fs_wf (new_file p X).
Proof using.
  intros [H1 H2]. unfold new_file. set (Y := set_fresh _ _). assert (fs_wf Y) as HY.
  { split; cbn.
    - intros i f [[<- _]|[_ Hi]]%lookup_insert_Some; [lia|]. apply H1 in Hi. lia.
    - intros t q i Ht Hp. destruct (H2 t q i Ht Hp) as [f Hf]. exists f. rewrite lookup_insert_ne; [done|]. apply H1 in Hf. lia. }
  apply fs_wf_names; [done|]. apply (fs_wf_insert p (w_fresh X) Y HY). cbn. by rewrite lookup_insert_eq.
Qed.

Lemma quiet_inode X i b s : quiet X -> w_names X !! tmp = Some i -> quiet (set_inode i (Inode b s) X).
Proof using.
  intros H Hi. assert (is_Some (w_inodes X !! i)) as Hs by (eapply (fs_entries _ (quiet_fs _ H) (w_names X)); [by left|exact Hi]).
  split; [|apply H|by apply fs_wf_inode; [apply H|]|apply H|apply H].
  intros t j f Ht Hj Hf. cbn. rewrite lookup_insert_ne; [by eapply quiet_old|]. intros ->. by eapply quiet_apart.
Qed.

Lemma quiet_new_file X p : quiet X -> p <> path_ -> quiet (new_file p X).
Proof using Hwf.
  intros H Hp. assert (forall t i, t ∈ tables W -> t !! path_ = Some i -> i <> w_fresh X) as Hold.
  { intros t i Ht Hi ->. destruct (fs_entries _ Hwf t path_ _ Ht Hi) as [f Hf]. apply (quiet_old _ H t _ _ Ht Hi) in Hf.
    apply (fs_fresh _ (quiet_fs _ H)) in Hf. lia. }
  split.
  - intros t i f Ht Hi Hf. cbn. rewrite lookup_insert_ne; [by eapply quiet_old|]. intros E. by apply (Hold t i).
  - intros t [->|Ht]%elem_of_cons; [|by apply (quiet_tables _ H)]. destruct (quiet_tables _ H (w_names X)) as (t0 & H0 & E); [by left|].
    exists t0. split; [done|]. cbn. by rewrite lookup_insert_ne.
  - apply fs_wf_new_file, H.
  - cbn. rewrite lookup_insert_ne by done. apply H.
  - intros t i Ht Hi. cbn. destruct (decide (p = tmp)) as [->|Hne].
    + rewrite lookup_insert_eq. intros [= E]. by apply (Hold t i).
    + rewrite lookup_insert_ne by done. by eapply quiet_apart.
Qed.

Lemma tmp_not_path : tmp <> path_.
Proof using. unfold config_path. rewrite app_nil_r, app_assoc. intros E%(f_equal length). rewrite !length_app in E. cbn in E. lia. Qed.

Lemma config_dirname suffix : Forall (fun c => c <> SLASH) suffix -> dirname (config_path dir suffix) = dir.
Proof using.
  intros H. apply (dirname_file dir (str "config" ++ suffix)). apply Forall_app. split; [|done]. by apply (bool_decide_unpack _); vm_compute.
Qed.

(** The file holds [result] when the call succeeds, [text] being what was to be
    written; [C] means that no call is refused. *)
Definition configured (C : Prop) (text : list Z) (result : option (list Z)) (w : world) (rc : Z) (w' : world) : Prop :=
  exists X, reach X w w' /\ sound W path_ text X /\ apart X /\ (rc = 0 \/ rc = 1) /\ (rc = 0 -> file_at X path_ = result) /\ (C -> rc = 0).

Section writing.
Context (C : Prop) (text : list Z) (result : option (list Z)).

Lemma configured_fails X w w' : quiet X -> reach X w w' -> ~ C -> configured C text result w 1 w'.
Proof using. intros H Hr Hn. exists X. split_and!; [done|by apply quiet_sound|by apply quiet_apart_all|by right|done|done]. Qed.

Lemma configured_trans V w w1 rc w2 : reach V w w1 -> configured C text result w1 rc w2 -> configured C text result w rc w2.
Proof using. intros H1 (X & Hr & H). exists X. split; [by eapply reach_trans|done]. Qed.

Lemma configured_mem d w w1 rc w2 : mem d w w1 -> configured C text result w1 rc w2 -> configured C text result w rc (set_live (w_live w2 - d) w2).
Proof using. intros Hm (X & Hr & H). exists X. split; [by eapply reach_mem|done]. Qed.

Lemma quiet_atomic X w : quiet X -> same_files X w -> atomic W path_ text w.
Proof using Hwf. intros HX H. eapply sound_atomic; [done|by apply quiet_sound|done]. Qed.

(** A call without an effect on files, in the middle of the function. *)
Lemma config_succeeds_wp X w w1 (k : M Z) : quiet X -> reach X w w1 -> (C -> calm w) ->
  (forall w2, reach X w w2 -> wpM k (configured C text result w) (atomic W path_ text) w2) ->
  wpM (let* ok := succeeds in if negb ok then retM 1 else k) (configured C text result w) (atomic W path_ text) w1.
Proof using Hwf.
  intros HX Hr HC Hk. apply wpM_bind. eapply wpM_mono; [apply (succeeds_wp X w1); [apply Hr|by eapply quiet_atomic; [|apply Hr]]| |done].
  cbn beta. intros ok w2 [H2 Hc2]. assert (reach X w w2) as Hr2 by (destruct ok; by eapply reach_trans).
  destruct ok; cbn [negb]; [by apply Hk|]. apply wpM_ret. eapply configured_fails; [done|done|]. intros Hc%HC%(reach_calm _ _ _ Hr). by specialize (Hc2 Hc I).
Qed.
End writing.

Lemma renamed_config X i text : quiet X -> w_names X !! tmp = Some i -> w_inodes X !! i = Some (Inode text true) ->
  let Y := set_names (<[path_ := i]> (delete tmp (w_names X))) X in sound W path_ text Y /\ apart Y /\ file_at Y path_ = Some text.
Proof using.
  intros H Ht Hi. cbv zeta. destruct (quiet_sound text X H) as (S1 & S2 & S3). split_and!.
  - apply renamed_sound; [apply tmp_not_path|by split_and!|done].
  - intros t j _ _. cbn. rewrite lookup_insert_ne by (symmetry; apply tmp_not_path). by rewrite lookup_delete_eq.
  - unfold file_at. cbn. by rewrite lookup_insert_eq, Hi.
Qed.

Lemma tmp_dirname : dirname tmp = dir /\ dirname path_ = dir.
Proof using. split; apply config_dirname; by apply (bool_decide_unpack _); vm_compute. Qed.

(** [open] of the temporary file: it is empty, and apart from the configuration. *)
Lemma open_tmp_wp text X w : quiet X -> same_files X w ->
  wpM (open_create tmp true) (fun r w' =>
    match r with
    | None => reach X w w' /\ (calm w -> is_dir X tmp = false -> is_dir X dir = true -> False)
    | Some i => exists Y, quiet Y /\ w_names Y !! tmp = Some i /\ w_inodes Y !! i = Some (Inode [] false) /\ w_dirs Y = w_dirs X /\ reach Y w w'
    end) (atomic W path_ text) w.
Proof using Hwf.
  intros HX Hw. eapply wpM_mono; [apply (open_create_wp X tmp true w _ Hw), (quiet_atomic text X w HX Hw)| |done]. cbn beta.
  destruct tmp_dirname as [Dt _]. intros [i|] w1 [H1 Hc1].
  - destruct H1 as [(En & Hr)|(En & -> & Hr)].
    + eexists. split_and!; [by apply (quiet_inode X i)|exact En|cbn; by rewrite lookup_insert_eq|done|exact Hr].
    + eexists. split_and!; [apply (quiet_new_file X tmp HX tmp_not_path)|cbn; by rewrite lookup_insert_eq|cbn; by rewrite lookup_insert_eq|done|exact Hr].
  - split; [done|]. intros Hc Ht Hd. destruct (Hc1 Hc Ht); [by rewrite Dt|done].
Qed.

Lemma config_write_wp (C : Prop) settings X w : let text := settings_printed settings in
  quiet X -> same_files X w -> (C -> calm w /\ is_dir X path_ = false /\ is_dir X tmp = false /\ is_dir X dir = true) ->
  wpM (config_write tmp path_ settings) (configured C text (Some text) w) (atomic W path_ text) w.
Proof using Hwf.
  intros text HX Hw HC. destruct tmp_dirname as [Dt Dp]. assert (C -> calm w) as HCw by (intros Hc; by apply HC).
  apply wpM_bind. eapply wpM_mono; [apply (open_tmp_wp text X w HX Hw)| |done]. cbn beta. intros [i|] w1 H1.
  2: { destruct H1 as [H1 Hn]. apply wpM_ret. eapply configured_fails; [exact HX|exact H1|]. intros (Hc & _ & Ht & Hd)%HC. by apply Hn. }
  destruct H1 as (Y & QY & Ht & Hi & Hd & Hr).
  assert (forall b s, quiet (set_inode i (Inode b s) Y)) as QI by (intros b s; by apply quiet_inode).
  apply (config_succeeds_wp _ _ _ Y); [done..|]. intros w2 Hr2. clear w1 Hr.
  apply wpM_bind. eapply wpM_mono; [apply (print_settings_wp settings Y i [] false w2 (atomic W path_ text)); [apply Hr2|done|intros b s w' H; by eapply quiet_atomic; [apply (QI b s)|]]| |done].
  cbn beta. intros ok w3 (b & s & H3 & Hb & Hc3). pose proof (reach_trans _ _ _ _ _ Hr2 H3) as Hr3. destruct ok; cbn [negb].
  2: { apply wpM_ret. eapply configured_fails; [apply (QI b s)|done|]. intros Hc%HCw%(reach_calm _ _ _ Hr2). by specialize (Hc3 Hc). }
  specialize (Hb eq_refl). cbn [app] in Hb. fold text in Hb. subst b. clear Hc3 H3 Hr2 w2.
  apply (config_succeeds_wp _ _ _ (set_inode i (Inode text s) Y)); [apply QI|done..|]. intros w4 Hr4. clear w3 Hr3.
  apply wpM_bind. eapply wpM_mono; [apply (fsync_once_wp _ i text s w4 _ (proj1 Hr4)); [cbn; by rewrite lookup_insert_eq|eapply quiet_atomic; [apply (QI text s)|apply Hr4]]| |done].
  cbn beta. intros e w5 H5. pose proof (attempted_calm _ _ _ _ _ H5) as Hc5. destruct e as [e|].
  { rewrite bool_decide_eq_true_2 by done. apply wpM_ret. eapply configured_fails; [apply (QI text s)|by eapply reach_trans; [|apply H5]|].
    intros Hc%HCw%(reach_calm _ _ _ Hr4). by specialize (Hc5 Hc). }
  rewrite bool_decide_eq_false_2 by apply is_Some_None. cbn [attempted] in H5.
  assert (reach (set_inode i (Inode text true) Y) w w5) as Hr5.
  { eapply reach_trans; [exact Hr4|]. eapply reach_same; [|exact H5]. symmetry. apply set_inode_twice. }
  apply (config_succeeds_wp _ _ _ (set_inode i (Inode text true) Y)); [apply QI|done..|]. intros w6 Hr6. clear w4 w5 Hr4 Hr5 H5 Hc5.
  apply wpM_bind. eapply wpM_mono; [apply (rename_wp _ tmp path_ i w6 _ (proj1 Hr6)); [eapply quiet_atomic; [apply (QI text true)|apply Hr6]|exact Ht]| |done].
  cbn beta. intros ok w7 [H7 Hc7]. apply wpM_ret. destruct ok.
  - destruct (renamed_config (set_inode i (Inode text true) Y) i text (QI text true) Ht) as (R1 & R2 & R3); [cbn; by rewrite lookup_insert_eq|].
    eexists. split_and!; [by eapply reach_trans|exact R1|exact R2|by left|by intros _|done].
  - eapply configured_fails; [apply (QI text true)|by eapply reach_trans|]. intros Hc. destruct (HC Hc) as (Hcalm%(reach_calm _ _ _ Hr6) & Hp & _ & Hdir).
    specialize (Hc7 Hcalm). unfold is_dir in *. cbn in Hc7. rewrite Hd, Dp in Hc7. by specialize (Hc7 (conj Hp Hdir)).
Qed.

(** * With the lock *)
Section set.
Context (C : Prop) (key : list Z) (value : option (list Z)) (onlyIfMissing : bool).
Hypothesis (Hkey : config_key key) (Hvalue : config_value value).
Hypothesis (Hshort : forall text, file_at W path_ = Some text -> zlen text < 2 ^ 29).

(** The settings that are there, the text of the changed ones, and what the
    file is to hold. *)
Definition config_now : pairs := default [] (settings_at W path_ true).
Definition config_text : list Z := print_pairs (update config_now key value).
Definition config_keeps : bool := bool_decide (key ∈ config_now.*1) && onlyIfMissing.
Definition config_result : option (list Z) := if config_keeps then file_at W path_ else Some config_text.
#[local] Abbreviation done_ := (configured C config_text config_result).

Lemma free_settings_wp l {A} (a : A) (Q : A -> world -> Prop) E w : Q a (set_live (w_live w - weights l) w) ->
  wpM (let* _ := credsSettingsFree l in retM a) Q E w.
Proof using.
  intros HQ. assert (credsSettingsFree l w = Ret () (set_live (w_live w - weights l) w)) as Ef; [|unfold wpM, bindM; by rewrite Ef].
  clear HQ. revert w. induction l as [|s l IH]; intros w; cbn [credsSettingsFree weights].
  - rewrite Z.sub_0_r. by destruct w.
  - assert (forall (x : option (list Z)) w, sqlite3_free x w = Ret () (set_live (w_live w - owned x) w)) as Hf.
    { intros [x|] w'; [done|]. cbn. rewrite Z.sub_0_r. by destruct w'. }
    unfold bindM. rewrite !Hf. cbn [sqlite3_free modW]. unfold modW. rewrite IH. cbn. f_equal. unfold set_live. cbn. f_equal. unfold weight. lia.
Qed.

Lemma config_settings_wp X w : quiet X -> same_files X w -> obstructed X path_ = obstructed W path_ -> (C -> obstructed W path_ = false) ->
  (C -> calm w /\ is_dir X path_ = false /\ is_dir X tmp = false /\ is_dir X dir = true) ->
  wpM (let* settings := credsSettingsRead path_ true in
    match settings with
    | None => retM 1
    | Some settings =>
        let* (settings, rc) := config_change settings key value onlyIfMissing in
        let* rc := match rc with Some rc => retM rc | None => config_write tmp path_ settings end in
        let* _ := credsSettingsFree settings in
        retM rc
    end) (done_ w) (atomic W path_ config_text) w.
Proof using Hwf Hkey Hvalue Hshort.
  intros HX Hw Hdir Hclear HC. assert (C -> calm w) as HCw by (intros Hc; by apply HC).
  assert (settings_at X path_ true = settings_at W path_ true) as Es by (unfold settings_at; by rewrite (quiet_file X HX), Hdir).
  apply wpM_bind. eapply wpM_rd; [apply (settings_rd X C path_ true (quiet_fs _ HX)); by rewrite (quiet_file X HX)|done|done| |].
  2: { intros w' H. eapply quiet_atomic; [exact HX|by etransitivity]. }
  intros [settings|] w1 Hm1 HC1 Hs; cbn [own_settings] in Hm1.
  2: { apply wpM_ret. eapply configured_fails; [exact HX|destruct Hm1 as (F & S & L); split_and!; [by etransitivity|lia|done]|]. intros Hc.
    destruct Hs as [Hs|[_ ?]]; [|done]. rewrite Es in Hs. unfold settings_at in Hs. rewrite (Hclear Hc) in Hs.
    destruct (file_at W path_) as [text|]; [|done]. destruct (parse_repair (S (length text)) text []) as [l El]; [lia|].
    unfold parse_settings in Hs. by rewrite El in Hs. }
  destruct Hs as [Hs|[? _]]; [|done]. rewrite Es in Hs. destruct (settings_at W path_ true) as [l|] eqn:El; [|done]. injection Hs as ->.
  assert (config_now = l) as En by (unfold config_now; by rewrite El).
  destruct (config_key_known key Hkey) as (_ & _ & Lk). pose proof (config_value_length value) as Lv.
  apply wpM_bind. eapply wpM_mono; [apply (config_change_tr C l key value onlyIfMissing); [lia|intros v Ev; specialize (Lv v Hvalue Ev); lia|exact Hm1|exact HC1]| |].
  2: { intros w' H. eapply quiet_atomic; [exact HX|by etransitivity]. }
  cbn beta. intros [settings rc] w2 [Hm2 Hch]. cbn [fst snd] in *. unfold changed in Hch. cbn [fst snd] in Hch. rewrite Z.add_0_l in Hm2.
  assert (same_files X w2) as H2 by (etransitivity; [exact Hw|apply Hm2]).
  apply wpM_bind. eapply (wpM_mono _ (done_ w2) _ (atomic W path_ config_text)); [|intros rc' w3 H3; apply free_settings_wp; by eapply configured_mem|done].
  assert (C -> calm w2 /\ is_dir X path_ = false /\ is_dir X tmp = false /\ is_dir X dir = true) as HC2.
  { intros Hc. destruct (HC Hc) as (Hcalm & Hrest). split; [by eapply mem_calm|done]. }
  destruct rc as [rc|].
  - apply wpM_ret. destruct (decide (rc = 0)) as [->|Hne].
    + destruct Hch as [Hin Ho]. exists X. split_and!; [by apply reach_refl|by apply quiet_sound|by apply quiet_apart_all|by left| |done].
      intros _. unfold config_result, config_keeps. rewrite En, bool_decide_eq_true_2, Ho by done. by apply quiet_file.
    + assert (rc = 1 /\ ~ C) as [-> Hn] by (destruct rc; done). eapply configured_fails; [exact HX|by apply reach_refl|done].
  - destruct Hch as [Hn Ep]. assert (config_keeps = false) as Ek.
    { unfold config_keeps. rewrite En. destruct (bool_decide_reflect (key ∈ l.*1)); [|done]. cbn [andb]. apply not_true_is_false. intros Ho. by apply Hn. }
    unfold config_result. rewrite Ek. assert (config_text = settings_printed settings) as -> by (unfold config_text; by rewrite En, Ep).
    by apply (config_write_wp C settings X).
Qed.

Lemma config_locked_wp X w : quiet X -> same_files X w -> obstructed X path_ = obstructed W path_ -> (C -> obstructed W path_ = false) ->
  (C -> calm w /\ is_dir X path_ = false /\ is_dir X tmp = false /\ is_dir X dir = true) ->
  wpM (config_locked path_ tmp key value onlyIfMissing) (done_ w) (atomic W path_ config_text) w.
Proof using Hwf Hkey Hvalue Hshort.
  intros HX Hw Hdir Hclear HC. apply wpM_bind.
  eapply wpM_mono; [apply (retrying_wp X X (retM ()) w (atomic W path_ config_text) Hw); [intros w' H; by eapply quiet_atomic|intros w' H; by apply wpM_ret, reach_refl]| |done].
  cbn beta. intros e w1 H1. pose proof (attempted_calm _ _ _ _ _ H1) as Hc1.
  assert (reach X w w1) as Hr1 by (destruct e; apply H1). destruct e as [e|].
  { rewrite bool_decide_eq_true_2 by done. apply wpM_ret. eapply configured_fails; [exact HX|exact Hr1|]. intros (Hc & _)%HC. by specialize (Hc1 Hc). }
  rewrite bool_decide_eq_false_2 by apply is_Some_None. eapply wpM_mono; [apply (config_settings_wp X w1 HX); [apply Hr1|done|done|]|intros rc w2; by apply configured_trans with (V := X)|done].
  intros Hc. destruct (HC Hc) as (Hcalm & Hrest). split; [by eapply reach_calm|done].
Qed.

(** * The whole function *)
#[local] Abbreviation lock := (config_path dir (str ".lock")).
Hypothesis (Hne : dir <> []) (Hlen : zlen dir < 2 ^ 30) (Hapart : apart W).

(** What lets the calls go through when none is refused. *)
Definition may_config : Prop := clear_way W dir /\ is_dir W path_ = false /\ is_dir W tmp = false /\ is_dir W lock = false.

Lemma config_path_tr P suffix : zlen suffix < 2 ^ 10 -> tr P 0 (credsConfigPath dir suffix) 0 owned (gives P (config_path dir suffix)).
Proof using Hlen.
  intros Hs. apply asprint_tr. unfold config_path. rewrite !length_app. change (length (str "/config")) with 7%nat. unfold SQLITE_MAX_ALLOCATION_SIZE. lia.
Qed.

(** A block that the rest of the function needs. *)
Lemma config_owning_wp X (m : M (option (list Z))) x (k : option (list Z) -> M Z) w : quiet X -> same_files X w -> (C -> calm w) ->
  tr C 0 m 0 owned (gives C x) ->
  (forall w1, same_files X w1 -> (C -> calm w1) -> wpM (k (Some x)) (done_ w1) (atomic W path_ config_text) w1) ->
  (forall w1, same_files X w1 -> ~ C -> wpM (k None) (done_ w1) (atomic W path_ config_text) w1) ->
  wpM (owning m k) (done_ w) (atomic W path_ config_text) w.
Proof using Hwf.
  intros HX Hw HC Hm Hs Hn. eapply (wpM_owning C C); [exact Hm|exact HC|..].
  - intros w1 H1. eapply quiet_atomic; [exact HX|by etransitivity].
  - intros w1 H1. eapply wpM_mono; [apply Hs; [etransitivity; [exact Hw|apply H1]|intros Hc; by eapply mem_calm; [|apply HC]]| |done].
    cbn beta. intros rc w2 H2. by eapply configured_mem.
  - intros w1 H1 Hnc. eapply wpM_mono; [apply Hn; [etransitivity; [exact Hw|apply H1]|done]| |done].
    cbn beta. intros rc w2 H2. destruct H1 as (F & S & L). apply (configured_trans _ _ _ X _ w1); [|done]. split_and!; [by etransitivity|lia|done].
Qed.

Lemma lock_not_path : lock <> path_.
Proof using. unfold config_path. rewrite app_nil_r, app_assoc. intros E%(f_equal length). rewrite !length_app in E. cbn in E. lia. Qed.

(** The lock is no directory of the configuration. *)
Lemma through_lock X : through_file (new_file lock X) path_ = through_file X path_.
Proof using.
  unfold through_file. induction (seq 0 _) as [|n ns IH]; [done|]. cbn [existsb]. rewrite IH. f_equal. f_equal.
  cbn [new_file set_names w_names]. rewrite lookup_insert_ne; [done|].
  intros E%(f_equal length). rewrite length_take in E. unfold config_path in E. rewrite !length_app in E. cbn in E. lia.
Qed.

Lemma config_lock_wp X w : quiet X -> same_files X w -> obstructed X path_ = obstructed W path_ -> (C -> obstructed W path_ = false) ->
  (C -> calm w /\ is_dir X path_ = false /\ is_dir X tmp = false /\ is_dir X lock = false /\ is_dir X dir = true) ->
  wpM (let* l := open_create lock false in
    match l with
    | None => retM 1
    | Some _ => config_locked path_ tmp key value onlyIfMissing
    end) (done_ w) (atomic W path_ config_text) w.
Proof using Hwf Hkey Hvalue Hshort.
  intros HX Hw Hdir Hclear HC. assert (dirname lock = dir) as Dl by (apply config_dirname; by apply (bool_decide_unpack _); vm_compute).
  apply wpM_bind. eapply wpM_mono; [apply (open_create_wp X lock false w _ Hw); by eapply quiet_atomic| |done]. cbn beta.
  intros [i|] w1 [H1 Hc1].
  2: { apply wpM_ret. eapply configured_fails; [exact HX|exact H1|]. intros (Hc & _ & _ & Hl & Hd)%HC. destruct (Hc1 Hc Hl); [by rewrite Dl|done]. }
  assert (exists Y, quiet Y /\ w_dirs Y = w_dirs X /\ through_file Y path_ = through_file X path_ /\ reach Y w w1) as (Y & QY & Ed & Et & Hr).
  { destruct H1 as [(_ & Hr)|(_ & _ & Hr)]; [by exists X|]. exists (new_file lock X). split_and!; [|done|apply through_lock|done]. apply (quiet_new_file X lock HX lock_not_path). }
  assert (forall p, is_dir Y p = is_dir X p) as Ey by (intros p; unfold is_dir; by rewrite Ed).
  eapply wpM_mono; [apply (config_locked_wp Y w1 QY); [apply Hr|unfold obstructed in *; by rewrite Ey, Et|done|]|intros rc w2; by apply configured_trans with (V := Y)|done].
  intros (Hc & Hp & Ht & _ & Hd)%HC. rewrite !Ey. split_and!; [by eapply reach_calm|done..].
Qed.

Lemma config_guards : negb (streq key (str "user.creds")) && (negb (strneq key (str "remote.") 7) || negb (credsKidValid (Some (key +p 7)))) = false /\
  match value with Some v => negb (streq v (str "anonymous")) && negb (credsKidValid (Some v)) | None => false end = false.
Proof using Hkey Hvalue.
  split.
  - destruct Hkey as [->|(hash & -> & Hh)]; [done|]. change ((str "remote." ++ hash) +p 7) with hash. rewrite Hh.
    change (strneq (str "remote." ++ hash) (str "remote.") 7) with true. by rewrite andb_false_r.
  - destruct value as [v|]; [|done]. destruct Hvalue as [->|Hv]; [done|]. by rewrite Hv, andb_false_r.
Qed.

Lemma config_set_wp w : same_files W w -> (C -> calm w /\ may_config) ->
  wpM (doltliteCredsConfigSet (Some dir) key value onlyIfMissing) (done_ w) (atomic W path_ config_text) w.
Proof using Hwf Hkey Hvalue Hshort Hne Hlen Hapart.
  intros Hw HC. unfold doltliteCredsConfigSet. destruct config_guards as [-> ->]. unfold with_dir. apply wpM_bind.
  eapply wpM_mono; [by apply (mkdirp_wp W dir w)| |].
  2: { intros w' (D & H & _). eapply quiet_atomic; [by apply (quiet_dirs D Hapart)|done]. }
  cbn beta. intros ok w1 (D & [Hr Hg] & Hok). pose proof (quiet_dirs D Hapart) as QD. destruct ok; cbn [negb].
  2: { apply wpM_ret. eapply configured_fails; [exact QD|exact Hr|]. intros (Hc & Hm & _)%HC. by destruct (Hok Hc Hm). }
  set (X := with_dirs D W) in *. assert (forall suffix, is_dir X (config_path dir suffix) = is_dir W (config_path dir suffix)) as Ed.
  { intros suffix. apply (is_dir_only dir); [done|]. intros H%prefix_length. unfold config_path in H. rewrite !length_app in H. cbn in H. lia. }
  assert (C -> calm w1 /\ is_dir X path_ = false /\ is_dir X tmp = false /\ is_dir X lock = false /\ is_dir X dir = true) as HC1.
  { intros Hc. destruct (HC Hc) as (Hcalm & Hway & Hp & Ht & Hl). rewrite !Ed. split_and!; [by eapply reach_calm|done|done|done|by apply Hok]. }
  eapply wpM_mono; [|intros rc w2; apply (configured_trans _ _ _ X); exact Hr|done].
  assert (forall w', same_files X w' -> ~ C -> wpM (retM 1) (done_ w') (atomic W path_ config_text) w') as Hfail.
  { intros w' H Hn. apply wpM_ret. eapply configured_fails; [exact QD|by apply reach_refl|done]. }
  eapply (config_owning_wp X); [exact QD|apply Hr|by intros Hc; apply HC1|by apply config_path_tr| |].
  all: intros w2 H2 HC2; eapply (config_owning_wp X); [exact QD|exact H2|done|by apply config_path_tr| |].
  all: intros w3 H3 HC3; eapply (config_owning_wp X); [exact QD|exact H3|done|by apply config_path_tr| |].
  all: intros w4 H4 HC4; cbn beta iota; try (by apply Hfail).
  apply (config_lock_wp X w4 QD H4); [unfold obstructed; by rewrite Ed| |].
  { intros (_ & Hway & Hp & _)%HC. unfold obstructed. rewrite Hp. apply (clear_through W dir (str "config")); [done|].
    by apply (bool_decide_unpack _); vm_compute. }
  intros Hc. destruct (HC1 Hc) as (_ & Hrest). split; [by apply HC4|done].
Qed.
End set.
End config.
