(* ===== verification/CredsNames.v ===== *)
(** The names by which keys are found, [remote/doltlite_creds.c]: a public key in
    base 32 stands for the key it belongs to, a URL for its canonical form, a
    directory for the keys in it. *)
From S2P Require Import Prelude CInt Ge Ed25519 Ed25519Spec CString World Radix Json Creds CredsFile Bearer CredsConfig CredsSpec CredsReplace CredsFileSpec CredsRead BearerSpec CredsSave CredsConfigSpec CredsConfigSet.
#[local] Opaque public_of secret_of digest224.

(** * Public keys *)
Lemma resolve_loop_digits name bits nbit pub D : holds 8 5 pub bits nbit D -> digits_wf 5 D -> nbit < 8 -> (length D + length name <= 52)%nat ->
  match resolve_loop name bits nbit pub with
  | None => ~ exists D', digits_wf 5 D' /\ name = letter B32_ALPHABET <$> D'
  | Some (pub', bits') => exists D' nbit', digits_wf 5 D' /\ name = letter B32_ALPHABET <$> D' /\ holds 8 5 pub' bits' nbit' (D ++ D') /\ nbit' < 8
  end.
Proof.
  revert bits nbit pub D. induction name as [|c name IH]; intros bits nbit pub D H HD Hn Hlen; cbn [resolve_loop].
  { exists [], nbit. rewrite app_nil_r. by split_and!; [apply Forall_nil|..]. }
  cbn [length] in Hlen. destruct (strchr B32_ALPHABET c) as [p|] eqn:Ec.
  2: { intros (D' & HD' & E). destruct D' as [|d D']; [done|]. apply Forall_cons in HD' as [Hd _]. rewrite fmap_cons in E. injection E as -> _.
    destruct (alphabet_digit d) as (p & Ep & _); [lia|]. congruence. }
  apply alphabet_char in Ec as [Hd Ec]. cbv zeta. set (d := zlen B32_ALPHABET - zlen p) in *. pose proof (holds_len _ _ _ _ _ _ H).
  assert (digits_wf 5 (D ++ [d])) as HD1 by (apply Forall_app; split; [done|]; apply Forall_singleton; lia).
  apply (holds_in _ _ _ _ _ _ d) in H; [|lia..].
  assert (forall bits nbit pub, holds 8 5 pub bits nbit (D ++ [d]) -> nbit < 8 ->
    match resolve_loop name bits nbit pub with
    | None => ~ exists D', digits_wf 5 D' /\ c :: name = letter B32_ALPHABET <$> D'
    | Some (pub', bits') => exists D' nbit', digits_wf 5 D' /\ c :: name = letter B32_ALPHABET <$> D' /\ holds 8 5 pub' bits' nbit' (D ++ D') /\ nbit' < 8
    end) as Hrest.
  { intros bits1 nbit1 pub1 H1 Hn1. specialize (IH bits1 nbit1 pub1 (D ++ [d]) H1 HD1 Hn1). rewrite length_app in IH. cbn [length] in IH.
    specialize (IH ltac:(lia)). destruct (resolve_loop name bits1 nbit1 pub1) as [[pub' bits']|].
    - destruct IH as (D' & nbit' & W' & -> & H' & Hn'). exists (d :: D'), nbit'. rewrite <- app_assoc in H'. split_and!; [|by rewrite Ec|done|done].
      apply Forall_cons. split; [lia|done].
    - intros (D' & W' & E). destruct D' as [|d' D']; [done|]. apply Forall_cons in W' as [_ W']. rewrite fmap_cons in E. injection E as _ ->. apply IH. by exists D'. }
  destruct (Z.leb_spec 8 (nbit + 5)); [|by apply Hrest]. replace (nbit + 5) with ((nbit + 5 - 8) + 8) in H by lia.
  destruct (Z.leb_spec 32 (zlen pub)); [lia|]. change 255 with (2 ^ 8 - 1). rewrite land_ones_mod by lia.
  apply holds_out in H; [|lia..]. apply Hrest; [done|lia].
Qed.

(** The alphabet has no letter twice. *)
Lemma letters_inj D D' : digits_wf 5 D -> digits_wf 5 D' -> (letter B32_ALPHABET <$> D) = (letter B32_ALPHABET <$> D') -> D = D'.
Proof.
  intros WD. revert D'. induction WD as [|d D Hd WD IH]; intros [|d' D'] W' E'; [done..|]. rewrite !fmap_cons in E'.
  apply Forall_cons in W' as [Hd' W']. injection E' as E1 E2.
  destruct (alphabet_digit d) as (p & Ep & Ed); [lia|]. destruct (alphabet_digit d') as (p' & Ep' & Ed'); [lia|]. rewrite E1, Ep' in Ep. injection Ep as ->.
  f_equal; [lia|by apply IH].
Qed.

(** A name of 52 characters is taken for the 32 bytes whose encoding it is. *)
Lemma resolve_loop_spec name : length name = 52%nat ->
  (exists pub, bytes_wf pub /\ length pub = 32%nat /\ name = base32 pub /\ exists bits, resolve_loop name 0 0 [] = Some (pub, bits) /\ Z.land bits 15 = 0) \/
  ((forall pub bits, resolve_loop name 0 0 [] = Some (pub, bits) -> zlen pub = 32 -> Z.land bits 15 <> 0) /\
   ~ exists pub, bytes_wf pub /\ length pub = 32%nat /\ name = base32 pub).
Proof.
  intros Hl. pose proof (resolve_loop_digits name 0 0 [] [] (acc_nil 8 5) ltac:(by apply Forall_nil) ltac:(lia) ltac:(cbn; lia)) as H.
  destruct (resolve_loop name 0 0 []) as [[pub bits]|].
  2: { right. split; [done|]. intros (pub & Wp & Lp & ->). apply H. exists (radix 5 pub). split; [|done]. by apply (radix_writes 5 pub ltac:(lia) Wp). }
  destruct H as (D & nbit & WD & E & H & Hn). cbn [app] in H. rewrite E, length_fmap in Hl. destruct H as [Wp Hb HL HV]. rewrite Hl in HL.
  assert (nbit = 4 /\ zlen pub = 32) as [-> Lp] by lia.
  assert (forall b, Z.land b 15 = b mod 2 ^ 4) as Hland by (intros b; change 15 with (2 ^ 4 - 1); by rewrite land_ones_mod).
  destruct (Z.eq_dec (bits mod 2 ^ 4) 0) as [Ez|Nz].
  - left. exists pub. split_and!; [exact Wp|lia| |by exists bits; rewrite Hland]. rewrite E. unfold base32. f_equal.
    apply (writes_radix 5); [lia|exact Wp|]. split; [exact WD|rewrite Hl, Lp; lia|]. rewrite Hl, Lp. change (5 * Z.of_nat 52 - 8 * 32) with 4. lia.
  - right. split; [intros ? ? [= <- <-] _; by rewrite Hland|]. intros (pub' & Wp' & Lp' & E').
    assert (D = radix 5 pub') as ->.
    { rewrite E in E'. apply letters_inj; [done|by apply (radix_writes 5 pub' ltac:(lia) Wp')|done]. }
    destruct (radix_writes 5 pub' ltac:(lia) Wp') as [_ _ V']. rewrite Hl, Lp' in V'. change (5 * Z.of_nat 52 - 8 * Z.of_nat 32) with 4 in V'.
    apply Nz. assert (bits mod 2 ^ 4 = (val 8 pub' - val 8 pub) * 2 ^ 4) as Em by lia. rewrite <- (Z.mod_mod bits (2 ^ 4)), Em by lia. by apply Z.mod_mul.
Qed.

(** The name of the key that [name] stands for. *)
Definition kid_named (name : list Z) : option (list Z) :=
  if credsKidValid (Some name) then Some name
  else if zlen name =? 52 then
    let? (pub, bits) := resolve_loop name 0 0 [] in
    if (zlen pub =? 32) && (Z.land bits 15 =? 0) then Some (kid_of pub) else None
  else None.

Lemma length_base32 B : bytes_wf B -> 8 * zlen B <= 5 * zlen (base32 B) < 8 * zlen B + 5.
Proof. intros H. unfold base32. rewrite length_fmap. by apply length_radix. Qed.

(** It is a key's own name, or the name of the key with that public key. *)
Lemma kid_named_iff name kid : kid_named name = Some kid <->
  (credsKidValid (Some name) = true /\ kid = name) \/
  (exists pub, bytes_wf pub /\ length pub = 32%nat /\ name = base32 pub /\ kid = kid_of pub).
Proof.
  unfold kid_named. destruct (credsKidValid (Some name)) eqn:Ev.
  { split; [intros [= <-]; by left|]. intros [[_ ->]|(pub & Wp & Lp & -> & _)]; [done|]. apply valid_kid_safe in Ev as [_ L].
    pose proof (length_base32 pub Wp). lia. }
  destruct (Z.eqb_spec (zlen name) 52) as [L|L].
  2: { split; [done|]. intros [[? _]|(pub & Wp & Lp & -> & _)]; [done|]. pose proof (length_base32 pub Wp). lia. }
  destruct (resolve_loop_spec name ltac:(lia)) as [(pub & Wp & Lp & E & bits & -> & Hb)|[Hno Hn]].
  - assert (zlen pub =? 32 = true) as -> by lia. rewrite Hb. cbn [andb Z.eqb]. split; [intros [= <-]; right; by exists pub|].
    intros [[? _]|(pub' & Wp' & Lp' & E' & ->)]; [done|]. do 2 f_equal. rewrite E in E'. clear -E' Wp Wp' Lp Lp'.
    pose proof (radix_writes 5 pub ltac:(lia) Wp) as [W1 L1 V1]. pose proof (radix_writes 5 pub' ltac:(lia) Wp') as [W2 L2 V2].
    assert (radix 5 pub = radix 5 pub') as Er by (by apply letters_inj). rewrite Er in *.
    apply (val_inj 8); [lia|done|done|lia|]. rewrite Lp, Lp' in *. rewrite V1 in V2. nia.
  - destruct (resolve_loop name 0 0 []) as [[pub bits]|]; [|split; [done|]; intros [[? _]|(pub & ? & ? & ? & _)]; [done|]; destruct Hn; by exists pub].
    destruct (Z.eqb_spec (zlen pub) 32) as [Lp|], (Z.eqb_spec (Z.land bits 15) 0) as [Lb|]; cbn [andb]; [by destruct (Hno pub bits eq_refl Lp)|..].
    all: split; [done|]; intros [[? _]|(pub' & ? & ? & ? & _)]; [done|]; destruct Hn; by exists pub'.
Qed.

Section names.
Context (l : locals) (Hl : locals_wf l).

Lemma digest_name_tr P B : bytes_wf B -> tr P 0 (doltliteBase32Encode (digest224 B)) 0 owned (gives P (kid_of B)).
Proof using. intros HB. destruct (digest224_shape B) as [L224 W224]. apply base32_tr; [done|lia]. Qed.

Lemma resolve_kid_tr P name : zlen name < 2 ^ 30 -> tr P 0 (credsResolveKid l (Some name)) 0 owned (may P (kid_named name)).
Proof using Hl.
  intros Hn. unfold credsResolveKid, kid_named. destruct (credsKidValid (Some name)) eqn:Ev; [by apply strdup_tr|].
  destruct (Z.eqb_spec (zlen name) 52) as [L|L]; cbn [negb]; [|by apply may_none].
  destruct (resolve_loop_spec name ltac:(lia)) as [(pub & Wp & Lp & E & bits & -> & Hb)|[Hno Hx]].
  - assert (zlen pub =? 32 = true) as -> by lia. rewrite Hb. cbn [andb orb negb Z.eqb].
    eapply tr_lift; [apply (sha512_224_spec l Hl); [done|lia]|]. by apply digest_name_tr.
  - destruct (resolve_loop name 0 0 []) as [[pub bits]|]; [|by apply may_none].
    destruct (Z.eqb_spec (zlen pub) 32) as [Lp|], (Z.eqb_spec (Z.land bits 15) 0) as [Lb|]; cbn [andb orb negb]; try (by apply may_none).
    by destruct (Hno pub bits eq_refl Lp).
Qed.

(** The key that [name] stands for, from its file. *)
Definition named_key (W : world) (dir name : list Z) : option (list Z) := let? kid := kid_named name in key_in W dir kid.

Lemma load_named_rd W P dir name : fs_wf W -> zlen dir < 2 ^ 30 -> zlen name < 2 ^ 30 ->
  rd W P 0 (doltliteCredsLoadNamed l (Some dir) (Some name)) 0 owned (may P (creds_of <$> named_key W dir name)).
Proof using Hl.
  intros Hwf Hd Hn. unfold doltliteCredsLoadNamed, named_key.
  eapply rd_own_may; [by apply rd_tr, resolve_kid_tr| |intros H; apply rd_none; [done|lia|]; intros HP; by rewrite (H HP)].
  intros kid ->. apply rd_call; [lia|]. by apply (load_rd l Hl).
Qed.

(** * Remotes *)
Definition remote_key (url : list Z) : option (list Z) := let? u := canonical_url url in Some (str "remote." ++ kid_of u).

Lemma drop_slashes_suffix r : drop_slashes r `suffix_of` r.
Proof using. induction r as [|c r IH]; [done|]. cbn. destruct (c =? SLASH); [by apply suffix_cons_r|done]. Qed.

Lemma strchr_suffix s c q : strchr s c = Some q -> q `suffix_of` s.
Proof using. intros (a & b & -> & -> & _)%strchr_Some. by exists a. Qed.

Lemma strstr_suffix s pat q : strstr s pat = Some q -> q `suffix_of` s.
Proof using.
  induction s as [|c s IH]; cbn [strstr]; (destruct (strneq _ _ _); [by intros [= ->]|]); [done|]. intros H. by apply suffix_cons_r, IH.
Qed.

Lemma lower_byte c : is_byte c -> is_byte (lower c).
Proof using. unfold is_byte, lower. destruct (_ && _) eqn:E; lia. Qed.

(** The URL is [a ++ e], its path being [e]. *)
Lemma canonical_url_parts url u : canonical_url url = Some u ->
  exists a e h, url = a ++ e /\ h `prefix_of` (lower <$> a) /\ u = reverse (drop_slashes (reverse (h ++ e))).
Proof using.
  unfold canonical_url. destruct (strstr url (str "://")) as [p|] eqn:Ep; [|done]. cbv zeta. set (e := default [] (strchr (p +p 3) SLASH)).
  assert (e `suffix_of` url) as [a E].
  { etransitivity; [|by eapply strstr_suffix]. transitivity (p +p 3); [|exists (take (Z.to_nat 3) p); unfold ptr_add; by rewrite take_drop].
    unfold e. destruct (strchr (p +p 3) SLASH) as [q|] eqn:Eq; [by eapply strchr_suffix|apply suffix_nil]. }
  clearbody e. subst url. rewrite span_app. intros [= <-]. exists a, e. eexists. split_and!; [done| |reflexivity].
  destruct (_ && _ && _); [apply prefix_take|done].
Qed.

Lemma canonical_url_wf url u : bytes_wf url -> canonical_url url = Some u -> bytes_wf u /\ (length u <= length url)%nat.
Proof using.
  intros Wu (a & e & h & -> & [t Eh] & ->)%canonical_url_parts. apply bytes_wf_app in Wu as [Wa We].
  assert (bytes_wf (lower <$> a)) as Wl by (apply Forall_fmap; eapply Forall_impl; [exact Wa|]; intros c; apply lower_byte).
  pose proof (f_equal length Eh) as Lh. rewrite Eh in Wl. apply bytes_wf_app in Wl as [Wh _]. rewrite length_fmap, length_app in Lh.
  destruct (drop_slashes_suffix (reverse (h ++ e))) as [pre Er]. split.
  - apply Forall_reverse. assert (bytes_wf (reverse (h ++ e))) as Wr by (apply Forall_reverse, bytes_wf_app; by split).
    rewrite Er in Wr. by apply bytes_wf_app in Wr as [_ ?].
  - apply (f_equal length) in Er. rewrite length_reverse, !length_app in Er. rewrite length_reverse, length_app. lia.
Qed.

Lemma remote_key_tr P url : bytes_wf url -> zlen url < 2 ^ 30 -> tr P 0 (doltliteCredsRemoteKey l (Some url)) 0 owned (may P (remote_key url)).
Proof using Hl.
  intros Wu Lu. unfold doltliteCredsRemoteKey, remote_key. eapply tr_bind; [by apply strdup_tr|].
  intros r [->|[-> HP]]; cbn [owned]; [|by apply may_none]. destruct (canonical_url url) as [u|] eqn:Eu.
  2: { apply (free_tr _ _ (Some url)). cbn [owned]. by apply may_none. }
  destruct (canonical_url_wf url u Wu Eu) as [Wc Lc]. eapply tr_lift; [apply (sha512_224_spec l Hl); [done|lia]|].
  apply (free_tr _ _ (Some url)). cbn [owned]. eapply tr_own_gives; [by apply digest_name_tr| |intros HP; by apply may_none].
  apply tr_call; [lia|]. pose proof (length_kid_of u). eapply tr_mono; [apply asprint_tr; rewrite length_app; change (length (str "remote.")) with 7%nat; unfold SQLITE_MAX_ALLOCATION_SIZE; lia|done].
Qed.

(** The path of a URL: empty, or with a slash in front. *)
Definition url_path (e : list Z) : Prop := e = [] \/ exists p, e = SLASH :: p.

Lemma canonical_https scheme host e : scheme = str "https://" \/ scheme = str "HTTPS://" -> SLASH ∉ host -> url_path e ->
  canonical_url (scheme ++ host ++ e) =
    let h := str "https://" ++ (lower <$> host) in
    let n := (length h - 4)%nat in
    Some (reverse (drop_slashes (reverse ((if streq (drop n h) (str ":443") then take n h else h) ++ e)))).
Proof using.
  intros Hs Hh He. unfold canonical_url.
  assert (strstr (scheme ++ host ++ e) (str "://") = Some (str "://" ++ host ++ e)) as -> by (destruct Hs as [->| ->]; reflexivity). cbv zeta.
  change ((str "://" ++ host ++ e) +p 3) with (host ++ e).
  assert (default [] (strchr (host ++ e) SLASH) = e) as ->.
  { destruct He as [->|[p ->]]; [rewrite app_nil_r, (proj2 (strchr_None _ _)) by done; done|by rewrite strchr_found]. }
  rewrite app_assoc, span_app, fmap_app. assert ((lower <$> scheme) = str "https://") as -> by (destruct Hs as [->| ->]; reflexivity).
  set (h := str "https://" ++ (lower <$> host)). assert (4 <=? zlen h = true) as -> by (unfold h; rewrite length_app; change (length (str "https://")) with 8%nat; apply Z.leb_le; lia).
  assert (strneq (h ++ e) (str "https://") 8 = true) as -> by reflexivity. done.
Qed.

(** [:443] is not at the end of scheme and host unless it is at that of the host. *)
Lemma no_port host : SLASH ∉ host -> ~ str ":443" `suffix_of` host ->
  let h := str "https://" ++ host in streq (drop (length h - 4) h) (str ":443") = false.
Proof using.
  intros Hh Hn. cbv zeta. apply bool_decide_eq_false_2. intros E. apply Hn.
  pose proof (take_drop (length (str "https://" ++ host) - 4) (str "https://" ++ host)) as Et. rewrite E in Et. revert Et.
  generalize (take (length (str "https://" ++ host) - 4) (str "https://" ++ host)). intros k Et.
  apply app_eq_inv in Et as [(m & _ & Ek)|(m & Ek & E2)]; [by exists m|]. destruct m as [|x m _] using rev_ind; [by exists []|].
  change (str "https://") with (str "https:/" ++ [SLASH]) in Ek. rewrite app_assoc in Ek. apply app_inj_tail in Ek as [_ <-].
  assert (SLASH ∈ str ":443") as Hin by (rewrite E2; apply elem_of_app; left; apply elem_of_app; right; by left).
  revert Hin. by apply (bool_decide_unpack _); vm_compute.
Qed.

Lemma drop_slashes_more r k : drop_slashes (replicate k SLASH ++ r) = drop_slashes r.
Proof using. induction k as [|k IH]; [done|exact IH]. Qed.

(** Two ways to write a remote: the case of scheme and host, the default port
    of https and slashes at the end make no difference. *)
Lemma canonical_url_same host e k : SLASH ∉ host -> ~ str ":443" `suffix_of` (lower <$> host) -> url_path e ->
  canonical_url (str "HTTPS://" ++ host ++ str ":443" ++ e ++ replicate k SLASH) = canonical_url (str "https://" ++ (lower <$> host) ++ e).
Proof using.
  intros Hh Hn He. assert (SLASH ∉ (lower <$> host)) as Hl'.
  { rewrite list_elem_of_fmap. intros (c & E & Hc). apply Hh. unfold lower in E. destruct (_ && _) eqn:Eb; [lia|by rewrite E]. }
  assert ((lower <$> (lower <$> host)) = (lower <$> host)) as El.
  { rewrite <- list_fmap_compose. apply list_fmap_ext. intros i c _. unfold compose, lower. destruct ((65 <=? c) && (c <=? 90)) eqn:E1; [|by rewrite E1].
    by destruct ((65 <=? c + 32) && (c + 32 <=? 90)) eqn:E2; [lia|]. }
  rewrite (app_assoc host), (canonical_https (str "HTTPS://")), (canonical_https (str "https://")); [|by left|done|done|by right|..].
  - cbv zeta. rewrite El, (no_port (lower <$> host)) by done. rewrite fmap_app. change (lower <$> str ":443") with (str ":443"). rewrite (app_assoc (str "https://") (lower <$> host)).
    set (h := str "https://" ++ (lower <$> host)).
    assert (length (h ++ str ":443") - 4 = length h)%nat as -> by (rewrite length_app; change (length (str ":443")) with 4%nat; lia).
    rewrite drop_app_length, take_app_length, streq_refl, app_assoc, reverse_app, reverse_replicate, drop_slashes_more. done.
  - rewrite not_elem_of_app. split; [done|]. by apply (bool_decide_unpack _); vm_compute.
  - destruct He as [->|[p ->]]; [|by right; eexists]. destruct k; [by left|right]. by eexists.
Qed.
End names.
