(* ===== verification/CredsResolve.v ===== *)
(** Which key is used, [doltliteCredsList] and [doltliteCredsResolve] of
    [remote/doltlite_creds.c]: the connection, the environment, the setting of
    the remote, the user's, and last the only key there is. *)
From S2P Require Import Prelude CInt Ge Ed25519 Ed25519Spec CString World Radix Json Creds CredsFile Bearer CredsConfig CredsSpec CredsReplace CredsFileSpec CredsRead BearerSpec CredsSave CredsConfigSpec CredsConfigSet CredsConfigFile CredsNames.
#[local] Opaque public_of secret_of digest224.

(** * The keys in a directory *)
Definition key_of_name (name : list Z) : option (list Z) :=
  let? kid := jwk_name name in if credsKidValid (Some kid) then Some kid else None.

Definition own_list (r : option (option Z * list (list Z))) : Z :=
  match r with None => 0 | Some (arr, kids) => owned arr + zlen kids end.

(** The array is there when it holds something, and has room for its names. *)
Definition array_wf (arr : option Z) (cap : Z) (kids : list (list Z)) : Prop :=
  zlen kids <= cap /\ (arr = None <-> cap = 0).

Lemma free_each_tr {A} P d kids (k : unit -> M A) e own R : tr P (d - zlen kids) (k ()) e own R -> tr P d (bindM (free_each kids) k) e own R.
Proof.
  revert d. induction kids as [|x kids IH]; intros d H; cbn [length] in H; [by rewrite Z.sub_0_r in H|].
  cbn [free_each]. apply tr_assoc, (free_tr _ _ (Some x)), IH. cbn [owned]. by replace (d - 1 - zlen kids) with (d - Z.of_nat (S (length kids))) by lia.
Qed.

Lemma free_list_tr {A} P d arr cap kids (k : unit -> M A) e own R : array_wf arr cap kids ->
  tr P (d - owned arr - zlen kids) (k ()) e own R -> tr P d (bindM (doltliteCredsFreeList arr kids) k) e own R.
Proof.
  intros [Hl Ha] H. unfold doltliteCredsFreeList. destruct arr as [a|]; cbn [owned] in H.
  - apply tr_assoc, free_each_tr, (free_tr _ _ (Some a)). cbn [owned]. by replace (d - zlen kids - 1) with (d - 1 - zlen kids) by lia.
  - assert (cap = 0) by (by apply Ha). assert (zlen kids = 0) as E by lia. rewrite E, !Z.sub_0_r in H. exact H.
Qed.

(** The array that has grown, in place of the old one. *)
Lemma realloc_tr P (arr : option Z) n : 0 < n <= SQLITE_MAX_ALLOCATION_SIZE ->
  tr P 0 (sqlite3_realloc arr n) 0 (fun r : option Z => match r with Some _ => 1 - owned arr | None => 0 end) (gives P n).
Proof.
  intros Hn. unfold sqlite3_realloc. cbv zeta. rewrite i32_small by (unfold SQLITE_MAX_ALLOCATION_SIZE, INT_MAX in *; lia). rewrite Z.max_r by lia.
  destruct arr as [a|]; cbn [owned].
  - assert (n =? 0 = false) as -> by lia. assert (SQLITE_MAX_ALLOCATION_SIZE <? n = false) as -> by lia. cbn [orb].
    apply tr_next; cbn [refused]; [apply tr_ret; [done|by left]|]. intros c HP. destruct (refused c); apply tr_ret; [done|by right|done|by left].
  - eapply (tr_own_eq P owned); [by intros [x|]|]. by apply malloc_tr.
Qed.

(** The names that are handed out: [kids] and those of [names]; fewer when reading
    the directory fails, which the code takes for its end. *)
Definition listed_names (P : Prop) (kids : list (list Z)) (names : list path) (r : option (option Z * list (list Z))) : Prop :=
  match r with
  | None => ~ P
  | Some (arr', kids') => (exists cap', array_wf arr' cap' kids') /\
      exists K, kids' = kids ++ K /\ K `prefix_of` omap key_of_name names /\ (P -> K = omap key_of_name names)
  end.

Lemma listed_stop (P : Prop) arr cap kids names : array_wf arr cap kids -> (P -> names = []) -> listed_names P kids names (Some (arr, kids)).
Proof.
  intros Ha HP. split; [by exists cap|]. exists []. split_and!; [by rewrite app_nil_r|apply prefix_nil|]. intros HP'. by rewrite (HP HP').
Qed.

Lemma listed_skip P kids name names r : key_of_name name = None -> listed_names P kids names r -> listed_names P kids (name :: names) r.
Proof. intros E. unfold listed_names. cbn [omap list_omap]. by rewrite E. Qed.

Lemma listed_take P kids kid name names r : key_of_name name = Some kid -> listed_names P (kids ++ [kid]) names r -> listed_names P kids (name :: names) r.
Proof.
  intros E. unfold listed_names. destruct r as [[arr kids']|]; [|done]. cbn [omap list_omap]. rewrite E.
  intros (Ha & K & -> & Hp & HP). split; [done|]. exists (kid :: K). split_and!; [by rewrite <- app_assoc|by apply prefix_cons|]. intros HP'. f_equal. by apply HP.
Qed.

Section list_loop.
Context (P : Prop) (name : path) (names : list path).
Hypothesis IH : forall arr cap kids, array_wf arr cap kids -> zlen kids + zlen names < 2 ^ 26 ->
  tr P (owned arr + zlen kids) (list_loop names arr cap kids) 0 own_list (listed_names P kids names).

(** The step for a name that is a key's. *)
Lemma list_add_tr arr cap kids kid : array_wf arr cap kids -> zlen kids + zlen names + 1 < 2 ^ 26 -> key_of_name name = Some kid ->
  tr P (owned arr + zlen kids + 1)
    (if zlen kids =? cap then
      let nc := if cap =? 0 then 8 else cap * 2 in
      let* na := sqlite3_realloc arr (nc * 8) in
      match na with
      | None =>
          let* _ := sqlite3_free (Some kid) in
          let* _ := doltliteCredsFreeList arr kids in
          retM None
      | Some _ => list_loop names na nc (kids ++ [kid])
      end
    else list_loop names arr cap (kids ++ [kid])) 0 own_list (listed_names P kids (name :: names)).
Proof using IH.
  intros Ha Hn Hk. pose proof Ha as [Hl Hc].
  assert (forall arr cap, array_wf arr cap (kids ++ [kid]) -> tr P (owned arr + zlen kids + 1) (list_loop names arr cap (kids ++ [kid])) 0 own_list (listed_names P kids (name :: names))) as Hgo.
  { intros arr' cap' Ha'. eapply tr_mono; [|intros r; by apply listed_take]. specialize (IH arr' cap' (kids ++ [kid]) Ha'). rewrite length_app in IH. cbn [length] in IH.
    replace (owned arr' + zlen kids + 1) with (owned arr' + Z.of_nat (length kids + 1)) by lia. apply IH. lia. }
  destruct (Z.eqb_spec (zlen kids) cap) as [E|E].
  2: { apply Hgo. split; [rewrite length_app; cbn [length]; lia|done]. }
  cbv zeta. set (nc := if cap =? 0 then 8 else cap * 2). assert (cap < nc <= cap * 2 + 8) as Hnc by (unfold nc; destruct (Z.eqb_spec cap 0); lia).
  eapply tr_bind; [apply realloc_tr; unfold SQLITE_MAX_ALLOCATION_SIZE; lia|]. intros na [->|[-> HP]]; cbn beta iota.
  - replace (owned arr + zlen kids + 1 + (1 - owned arr)) with (owned (Some (nc * 8)) + zlen kids + 1) by (cbn; lia). apply Hgo.
    split; [rewrite length_app; cbn [length]; lia|]. split; [done|]. lia.
  - apply (free_tr _ _ (Some kid)), (free_list_tr _ _ arr cap); [done|]. apply tr_ret; [cbn; lia|done].
Qed.

Lemma list_step_tr arr cap kids : array_wf arr cap kids -> zlen kids + zlen names + 1 < 2 ^ 26 -> zlen name < 2 ^ 20 ->
  tr P (owned arr + zlen kids)
    (match jwk_name name with
     | None => list_loop names arr cap kids
     | Some kid =>
         let* kid' := dup_name kid in
         match kid' with
         | None => let* _ := doltliteCredsFreeList arr kids in retM None
         | Some kid =>
             if negb (credsKidValid (Some kid)) then let* _ := sqlite3_free kid' in list_loop names arr cap kids
             else if zlen kids =? cap then
               let nc := if cap =? 0 then 8 else cap * 2 in
               let* na := sqlite3_realloc arr (nc * 8) in
               match na with
               | None => let* _ := sqlite3_free kid' in let* _ := doltliteCredsFreeList arr kids in retM None
               | Some _ => list_loop names na nc (kids ++ [kid])
               end
             else list_loop names arr cap (kids ++ [kid])
         end
     end) 0 own_list (listed_names P kids (name :: names)).
Proof using IH.
  intros Ha Hn Hl. pose proof Ha as [Hle Hc].
  assert (key_of_name name = None -> tr P (owned arr + zlen kids) (list_loop names arr cap kids) 0 own_list (listed_names P kids (name :: names))) as Hskip.
  { intros E. eapply tr_mono; [apply IH; [done|lia]|]. intros r. by apply listed_skip. }
  destruct (jwk_name name) as [kid|] eqn:Ej; [|apply Hskip; unfold key_of_name; by rewrite Ej].
  assert (zlen kid < 2 ^ 20) as Lk.
  { unfold jwk_name in Ej. destruct (_ && _); [|done]. injection Ej as <-. rewrite length_take. lia. }
  eapply tr_bind; [apply dup_name_tr; lia|]. intros kid' [->|[-> HP]]; cbn [owned].
  2: { apply (free_list_tr _ _ arr cap); [done|]. apply tr_ret; [cbn; lia|done]. }
  destruct (credsKidValid (Some kid)) eqn:Ev; cbn [negb].
  - apply list_add_tr; [done|lia|]. unfold key_of_name. by rewrite Ej, Ev.
  - apply (free_tr _ _ (Some kid)). cbn [owned]. rewrite Z.add_simpl_r. apply Hskip. unfold key_of_name. by rewrite Ej, Ev.
Qed.
End list_loop.

Lemma list_loop_tr P names arr cap kids : array_wf arr cap kids -> zlen kids + zlen names < 2 ^ 26 -> Forall (fun n => zlen n < 2 ^ 20) names ->
  tr P (owned arr + zlen kids) (list_loop names arr cap kids) 0 own_list (listed_names P kids names).
Proof.
  intros Ha Hn Hl. revert arr cap kids Ha Hn. induction Hl as [|name names Hname _ IH]; intros arr cap kids Ha Hn.
  - assert (tr P (owned arr + zlen kids) (retM (Some (arr, kids))) 0 own_list (listed_names P kids [])) as H by (apply tr_ret; [cbn; lia|by eapply listed_stop]).
    cbn [list_loop]. apply tr_next; [exact H|]. intros c HP. by destruct (refused c).
  - cbn [length] in Hn. pose proof (list_step_tr P name names IH arr cap kids Ha ltac:(lia) Hname) as H.
    cbn [list_loop]. apply tr_next; [exact H|]. intros c HP. destruct (refused c); [|exact H]. apply tr_ret; [cbn; lia|by eapply listed_stop].
Qed.

(** What [readdir] hands out for [dir], and the keys among it. *)
Definition listing (W : world) (dir : path) : list path :=
  if is_dir W dir then
    w_readdir W (str "." :: str ".." :: (basename <$> filter (fun p => dirname p = dir) ((map_to_list (w_names W)).*1 ++ elements (w_dirs W))))
  else [].
(** [dir] cannot be a directory: a file is in the way. *)
Definition no_directory (W : world) (dir : path) : bool := negb (is_dir W dir) && (bool_decide (is_Some (w_names W !! dir)) || through_file W dir).
Definition listing_wf (W : world) (dir : path) : Prop := zlen (listing W dir) < 2 ^ 26 /\ Forall (fun n => zlen n < 2 ^ 20) (listing W dir).
Definition keys_in (W : world) (dir : path) : list (list Z) := omap key_of_name (listing W dir).

Lemma list_rd W P dir : listing_wf W dir -> no_directory W dir = false ->
  rd W P 0 (doltliteCredsList (Some dir)) 0 own_list (listed_names P [] (listing W dir)).
Proof.
  intros [Hn Hl] Hdir. unfold doltliteCredsList, with_dir, opendir. apply rd_assoc.
  set (k := fun c => _). assert (forall c, (P -> c = Go) -> rd W P 0 (k c) 0 own_list (listed_names P [] (listing W dir))) as Hk.
  2: { apply rd_next; [by apply Hk|]. intros c HP. by apply Hk. }
  intros c Hc. unfold k. apply rd_assoc, rd_getW. intros w HW. destruct (refused c) eqn:Ec.
  { eapply (rd_lift _ _ _ (Some _)); [done|]. apply rd_ret; [done|]. intros HP. by rewrite (Hc HP) in Ec. }
  unfold listing, no_directory in *. rewrite (same_is_dir W w), (same_names W w), (same_through W w) by done. destruct (is_dir W dir); cbn [negb andb] in *.
  - destruct HW as (-> & _ & _ & _ & -> & _ & ->). eapply (rd_lift _ _ _ (Some _)); [done|].
    apply rd_tr, (list_loop_tr P _ None 0 []); [by split; [cbn; lia|]|cbn [length]; lia|done].
  - rewrite Hdir. eapply (rd_lift _ _ _ (Some _)); [done|]. apply rd_ret; [done|]. by apply (listed_stop P None 0 [] []).
Qed.

Lemma list_none_rd W P dir : no_directory W dir = true -> rd W P 0 (doltliteCredsList (Some dir)) 0 own_list (fun r => r = None).
Proof.
  intros Hdir. unfold doltliteCredsList, with_dir, opendir. apply rd_assoc.
  set (k := fun c => _). assert (forall c, rd W P 0 (k c) 0 own_list (fun r => r = None)) as Hk.
  2: { apply rd_next; [by apply Hk|]. intros c _. by apply Hk. }
  intros c. unfold k. apply rd_assoc, rd_getW. intros w HW. destruct (refused c).
  { eapply (rd_lift _ _ _ (Some _)); [done|]. by apply rd_ret. }
  unfold no_directory in Hdir. rewrite (same_is_dir W w), (same_names W w), (same_through W w) by done.
  destruct (is_dir W dir); cbn [negb andb] in *; [done|]. rewrite Hdir. eapply (rd_lift _ _ _ (Some _)); [done|]. by apply rd_ret.
Qed.

(** * What is selected *)
Definition user_setting (l : pairs) : option selection :=
  (fun v => Selected v (str "default")) <$> value_of l (str "user.creds").
(** By the settings [l] for [url]; [None] when they say nothing. *)
Definition setting_for (l : pairs) (url : option (list Z)) : option selection :=
  match url with
  | None => user_setting l
  | Some u =>
      match remote_key u with
      | None => Some OutOfMemory
      | Some k => match value_of l k with Some v => Some (Selected v (str "remote")) | None => user_setting l end
      end
  end.

Definition unreadable (dir : list Z) : option (list Z) := Some (take 1199 (unreadable_text (config_path dir []))).

(** By the connection or the environment. *)
Definition asked_first (W : world) (override : option (list Z)) : option selection :=
  match override, w_env W (str "DOLTLITE_CREDS_KID") with
  | Some ((_ :: _) as o), _ => Some (Selected o (str "connection"))
  | _, Some ((_ :: _) as e) => Some (Selected e (str "DOLTLITE_CREDS_KID"))
  | _, _ => None
  end.
(** By the configuration file. *)
Definition config_choice (W : world) (dir : list Z) (url : option (list Z)) : option selection :=
  match settings_at W (config_path dir []) false with
  | None => Some (Report (unreadable dir))
  | Some st => setting_for st url
  end.
Definition asked_for (W : world) (dir : list Z) (override url : option (list Z)) : option selection :=
  match asked_first W override with
  | Some s => Some s
  | None => config_choice W dir url
  end.

Definition single_key (W : world) (dir : list Z) : selection :=
  if no_directory W dir then Report (Some (str "cannot read credential directory")) else
  match keys_in W dir with
  | [] => Unselected
  | [kid] => Selected kid (str "single key")
  | _ => Report (Some (str "multiple credentials found; select one with dolt_creds_use()"))
  end.

Definition selected (W : world) (dir : list Z) (override url : option (list Z)) : selection :=
  default (single_key W dir) (asked_for W dir override url).

Definition own_selection (s : selection) : Z := match s with Selected _ _ => 1 | Report e => owned e | _ => 0 end.
Definition failed (s : selection) : Prop := match s with Report _ | OutOfMemory => True | _ => False end.
(** [s] is [t], or an error when there may be faults. *)
Definition chosen (P : Prop) (t s : selection) : Prop := s = t \/ (failed s /\ ~ P).

Lemma select_tr P v why : zlen v < 2 ^ 30 -> tr P 0 (select (Some v) why) 0 own_selection (chosen P (Selected v why)).
Proof.
  intros Hv. unfold select. eapply tr_bind; [by apply strdup_tr|]. intros z [->|[-> HP]]; (apply tr_ret; [done|]); [by left|by right].
Qed.

Lemma select_override_rd W P override : (forall o, override = Some o -> zlen o < 2 ^ 30) -> (forall e, w_env W (str "DOLTLITE_CREDS_KID") = Some e -> zlen e < 2 ^ 30) ->
  rd W P 0 (select_override override) 0 own_selection (chosen P (default Unselected (asked_first W override))).
Proof.
  intros Ho He. unfold select_override, asked_first. set (env := let* w := getW in _).
  assert (rd W P 0 env 0 own_selection (chosen P (default Unselected (match w_env W (str "DOLTLITE_CREDS_KID") with
    | Some ((_ :: _) as e) => Some (Selected e (str "DOLTLITE_CREDS_KID")) | _ => None end)))) as Henv.
  { unfold env. apply rd_getW. intros w HW. assert (w_env w = w_env W) as -> by apply HW.
    destruct (w_env W (str "DOLTLITE_CREDS_KID")) as [[|c e]|]; [apply rd_ret; [done|by left]| |apply rd_ret; [done|by left]].
    apply rd_tr, select_tr. by apply He. }
  destruct override as [[|c o]|]; [exact Henv| |exact Henv]. apply rd_tr, select_tr. by apply Ho.
Qed.

Lemma find_of_pairs l key : find_setting (of_pairs l) key = (fun v => Setting (Some key) (Some v)) <$> value_of l key.
Proof.
  induction l as [|[k v] l IH]; [done|]. unfold find_setting in *. change (of_pairs ((k, v) :: l)) with (Setting (Some k) (Some v) :: of_pairs l).
  cbn [value_of]. unfold streq. destruct (bool_decide_reflect (k = key)) as [->|Hne].
  - rewrite filter_cons_True; [done|]. rewrite setting_is_pair. by apply Is_true_true, streq_refl.
  - rewrite filter_cons_False; [exact IH|]. rewrite setting_is_pair. unfold streq. rewrite bool_decide_eq_false_2 by done. by intros [].
Qed.

(** The values of settings that were read. *)
Lemma value_of_short l key v : pairs_wf l -> value_of l key = Some v -> zlen v < 2 ^ 30.
Proof.
  intros [Hall _]. induction Hall as [|[k x] l Hx _ IH]; [done|]. cbn [value_of]. destruct (streq k key); [|done]. intros [= <-].
  destruct Hx as [_ (_ & _ & L) _]. cbn [fst snd] in L. lia.
Qed.

Lemma settings_at_wf W p repair l : settings_at W p repair = Some l -> pairs_wf l.
Proof.
  unfold settings_at. assert (pairs_wf []) as H0 by (split; [by apply Forall_nil|apply NoDup_nil_2]).
  destruct (file_at W p); [by apply parse_wf|]. destruct (obstructed W p); [done|]. by intros [= <-].
Qed.

Lemma keys_valid W dir kid : kid ∈ keys_in W dir -> credsKidValid (Some kid) = true.
Proof.
  intros (name & _ & E)%list_elem_of_omap. unfold key_of_name in E. destruct (jwk_name name) as [k|]; [|done].
  destruct (credsKidValid (Some k)) eqn:Ev; [|done]. by injection E as <-.
Qed.

Lemma valid_kid_length kid : credsKidValid (Some kid) = true -> zlen kid < 2 ^ 30.
Proof. intros [_ L]%valid_kid_safe. lia. Qed.

Section resolve.
Context (l : locals) (Hl : locals_wf l).

Lemma select_user_tr P st : pairs_wf st ->
  tr P 0 (match find_setting (of_pairs st) (str "user.creds") with Some s => select (s_value s) (str "default") | None => retM Unselected end) 0 own_selection
    (chosen P (default Unselected (user_setting st))).
Proof using.
  intros Hs. rewrite find_of_pairs. unfold user_setting. destruct (value_of st (str "user.creds")) as [v|] eqn:Ev; [|apply tr_ret; [done|by left]].
  apply select_tr. by eapply value_of_short.
Qed.

Lemma select_settings_tr P st url : pairs_wf st -> (forall u, url = Some u -> bytes_wf u /\ zlen u < 2 ^ 30) ->
  tr P 0 (select_settings l (of_pairs st) url) 0 (fun r => own_selection r.1 + owned r.2) (fun r => chosen P (default Unselected (setting_for st url)) r.1).
Proof using Hl.
  intros Hs Hu. unfold select_settings, setting_for. cbv zeta. destruct url as [u|].
  2: { eapply tr_bind; [by apply select_user_tr|]. intros s H. apply tr_ret; [cbn; lia|done]. }
  destruct (Hu u eq_refl) as [Wu Lu]. eapply tr_bind; [by apply (remote_key_tr l Hl)|]. intros key Hk.
  destruct key as [k|]; cbn [owned].
  - destruct Hk as [Hk|[? _]]; [|done]. rewrite <- Hk. rewrite find_of_pairs.
    assert (forall t m, tr P 0 m 0 own_selection (chosen P t) -> tr P (0 + 1) (let* s := m in retM (s, Some k)) 0
      (fun r => own_selection r.1 + owned r.2) (fun r => chosen P t r.1)) as Hend.
    { intros t m Hm. eapply tr_bind; [exact Hm|]. intros s H. apply tr_ret; [cbn; lia|done]. }
    destruct (value_of st k) as [v|] eqn:Ev; apply Hend; [|by apply select_user_tr]. apply select_tr. by eapply value_of_short.
  - apply tr_ret; [done|]. destruct Hk as [Hk|[_ HP]]; [rewrite <- Hk; by left|right]. done.
Qed.

Definition own_read (r : selection + list CredsSetting) : Z := match r with inl s => own_selection s | inr st => weights st end.

Section world.
Context (W : world) (P : Prop) (Hwf : fs_wf W) (dir : list Z) (Hdir : zlen dir < 2 ^ 30).
Hypothesis (Hshort : forall text, file_at W (config_path dir []) = Some text -> zlen text < 2 ^ 29).

Lemma read_config_rd :
  rd W P 0 (let~ path_ := credsConfigPath dir [] in
    match path_ with
    | None => retM (inl OutOfMemory)
    | Some path_ =>
        let* settings := credsSettingsRead path_ false in
        match settings with
        | Some settings => retM (inr settings)
        | None =>
            let* message := snprintf 1200 1200 (unreadable_text path_) in
            let* error := dlStrDup (Some message) in
            retM (inl (match error with Some _ => Report error | None => OutOfMemory end))
        end
    end) 0 own_read
    (fun r => match r with
     | inr st => exists p, st = of_pairs p /\ settings_at W (config_path dir []) false = Some p
     | inl s => chosen P (match settings_at W (config_path dir []) false with None => Report (unreadable dir) | Some _ => Unselected end) s /\ s <> Unselected
     end).
Proof using Hwf Hdir Hshort.
  eapply rd_own; [apply rd_tr, config_path_tr; [done|done]|]. intros path_ [->|[-> HP]]; cbn [owned].
  2: { apply rd_ret; [done|]. split; [by right|done]. }
  eapply rd_bind; [by apply settings_rd|]. intros [st|] HS; cbn [own_settings].
  - destruct HS as [HS|[? _]]; [|done]. destruct (settings_at W (config_path dir []) false) as [p|]; [|done]. injection HS as ->.
    apply rd_ret; [cbn; lia|]. by exists p.
  - eapply (rd_lift _ _ _ (Some _)); [done|]. change (Z.to_nat (1200 - 1)) with 1199%nat. fold (unreadable_text (config_path dir [])).
    eapply rd_bind; [apply rd_tr, strdup_tr; rewrite length_take; lia|]. intros e [->|[-> HP]]; (apply rd_ret; [cbn; lia|]); [|split; [by right|done]].
    split; [|done]. destruct HS as [HS|[_ HP]]; [|by right]. destruct (settings_at W (config_path dir []) false); [done|]. by left.
Qed.

Definition own_config (r : selection * list CredsSetting * option (list Z)) : Z := own_selection r.1.1 + weights r.1.2 + owned r.2.

Lemma select_config_rd url : (forall u, url = Some u -> bytes_wf u /\ zlen u < 2 ^ 30) ->
  rd W P 0 (select_config l (Some dir) url) 0 own_config (fun r => chosen P (default Unselected (config_choice W dir url)) r.1.1).
Proof using Hl Hwf Hdir Hshort.
  intros Hu. unfold select_config, config_choice. eapply rd_bind; [apply read_config_rd|]. intros [s|st] Hr; cbn [own_read].
  - destruct Hr as [Hr Hn]. apply rd_ret; [unfold own_config; cbn; lia|]. cbn [fst].
    destruct (settings_at W (config_path dir []) false); [|exact Hr]. destruct Hr as [->|Hr]; [done|by right].
  - destruct Hr as (p & -> & Ep). rewrite Ep. eapply rd_bind; [apply rd_tr, select_settings_tr; [by eapply settings_at_wf|done]|].
    intros [s key] H. cbn [fst snd] in H. apply rd_ret; [unfold own_config; cbn [fst snd]; lia|done].
Qed.

Definition own_single (r : option selection * option Z * list (list Z)) : Z :=
  own_selection (default Unselected r.1.1) + owned r.1.2 + zlen r.2.

(** The only key: exact without faults; otherwise an error, no key, or one of those in the directory. *)
Definition one_of (s : selection) : Prop :=
  failed s \/ s = Unselected \/ exists kid, kid ∈ keys_in W dir /\ s = Selected kid (str "single key").

Lemma select_single_rd : listing_wf W dir ->
  rd W P 0 (select_single (Some dir)) 0 own_single (fun r => (exists cap, array_wf r.1.2 cap r.2) /\
    one_of (default Unselected r.1.1) /\ (P -> default Unselected r.1.1 = single_key W dir)).
Proof using.
  intros Hlist. unfold select_single, single_key.
  assert (exists cap, array_wf None cap []) as Hempty by (exists 0; by split; [cbn; lia|]).
  destruct (no_directory W dir) eqn:Edir.
  { eapply rd_bind; [by apply list_none_rd|]. intros r ->. eapply rd_bind; [apply rd_tr, strdup_tr; done|]. intros e He.
    apply rd_ret; [unfold own_single; cbn; lia|]. split_and!; [done|by left|]. intros HP. by destruct He as [->|[_ ?]]. }
  eapply rd_bind; [by apply list_rd|].
  intros [[arr kids]|] Hr; cbn [listed_names own_list] in *.
  2: { eapply rd_bind; [apply rd_tr, strdup_tr; done|]. intros e _. apply rd_ret; [unfold own_single; cbn; lia|]. split_and!; [done|by left|done]. }
  destruct Hr as (Ha & K & E & Hp & HK). cbn [app] in E. subst K. fold (keys_in W dir) in *.
  assert (P -> kids = keys_in W dir) as HKe by done.
  destruct kids as [|k [|k2 ks]].
  - apply rd_ret; [unfold own_single; cbn; lia|]. split_and!; [done|by right; left|]. intros HP. by rewrite <- (HKe HP).
  - eapply rd_bind; [apply rd_tr, select_tr|].
    { apply valid_kid_length. destruct Hp as [t Hp]. assert (k ∈ keys_in W dir) as Hin by (rewrite Hp; by left). by apply keys_valid in Hin. }
    intros s Hs. apply rd_ret; [unfold own_single; cbn; lia|]. cbn [fst snd default]. split_and!; [done| |].
    + destruct Hs as [->|[Hs _]]; [|by left]. right. right. exists k. split; [|done]. destruct Hp as [t ->]. by left.
    + intros HP. rewrite <- (HKe HP). by destruct Hs as [->|[_ ?]].
  - eapply rd_bind; [apply rd_tr, strdup_tr; done|]. intros e He. apply rd_ret; [unfold own_single; cbn; lia|].
    cbn [fst snd default]. split_and!; [done|by left|]. intros HP. rewrite <- (HKe HP). by destruct He as [->|[_ ?]].
Qed.

(** * The resolution *)
Definition own_resolution (r : resolution) : Z := owned (r_out r) + owned (r_source r) + owned (r_error r).

(** What comes of a selection: the result, and the seed of the key. *)
Definition resolves (s : selection) : Z * option (list Z) :=
  match s with
  | Selected name _ =>
      if streq name (str "anonymous") then (DOLTLITE_CREDS_ANONYMOUS, None)
      else match named_key W dir name with
      | Some seed => (DOLTLITE_CREDS_SELECTED, Some seed)
      | None => (DOLTLITE_CREDS_ERROR, None)
      end
  | Unselected => (DOLTLITE_CREDS_NONE, None)
  | _ => (DOLTLITE_CREDS_ERROR, None)
  end.

(** [r] is what comes of [s]; with faults, it may also be an error. *)
Definition comes_of (s : selection) (r : resolution) : Prop :=
  (r_rc r = DOLTLITE_CREDS_ERROR \/ r_rc r = (resolves s).1 /\ r_out r = creds_of <$> (resolves s).2) /\
  (P -> r_rc r = (resolves s).1 /\ r_out r = creds_of <$> (resolves s).2).

Lemma resolve_oom_rd d out source error s : d = owned out + owned source + owned error -> ~ P ->
  rd W P d (resolve_oom out source error) 0 own_resolution (comes_of s).
Proof using.
  intros -> HP. unfold resolve_oom. apply rd_free. eapply rd_bind; [apply rd_tr, strdup_tr; done|]. intros e _.
  apply rd_ret; [unfold own_resolution; cbn [r_out r_source r_error]; lia|]. split; [by left|done].
Qed.

Lemma resolve_selected_rd name why source : zlen name < 2 ^ 30 -> zlen why < 2 ^ 30 ->
  rd W P 0 (resolve_selected l (Some dir) name why source) 0 own_resolution (comes_of (Selected name why)).
Proof using Hl Hwf Hdir.
  intros Hn Hw. unfold resolve_selected. set (t := resolves (Selected name why)).
  eapply (rd_bind _ _ _ _ _ (fun r : Z * option DoltliteCreds * option (list Z) => owned r.1.2 + owned r.2)
    (fun r => (r.1.1 = DOLTLITE_CREDS_ERROR \/ r.1.1 = t.1 /\ r.1.2 = creds_of <$> t.2) /\ (P -> r.1.1 = t.1 /\ r.1.2 = creds_of <$> t.2))).
  - unfold t, resolves. destruct (streq name (str "anonymous")); [apply rd_ret; [done|]; split; [by right|done]|].
    eapply rd_bind; [by apply (load_named_rd l Hl)|]. intros [out|] Hout; cbn [owned].
    + destruct Hout as [Hout|[? _]]; [|done]. apply rd_ret; [cbn; lia|]. destruct (named_key W dir name) as [seed|]; [|done]. cbn [fst snd].
      split; [by right|done].
    + eapply (rd_lift _ _ _ (Some _)); [done|]. eapply rd_bind; [apply rd_tr, strdup_tr; rewrite length_take; lia|]. intros e _.
      apply rd_ret; [cbn [fst snd owned]; lia|]. split; [by left|]. intros HP. destruct Hout as [Hout|[_ ?]]; [|done]. by destruct (named_key W dir name).
  - intros [[rc out] error] [H1 H2]. cbn [fst snd] in *. destruct source.
    + eapply rd_bind; [by apply rd_tr, strdup_tr|]. intros z [->|[-> HP]]; cbn [owned].
      * apply rd_ret; [unfold own_resolution; cbn; lia|]. by split.
      * apply resolve_oom_rd; [cbn [owned]; lia|done].
    + apply rd_ret; [unfold own_resolution; cbn; lia|]. by split.
Qed.

Lemma resolve_end_rd s source : (forall name why, s = Selected name why -> zlen name < 2 ^ 30 /\ zlen why < 2 ^ 30) ->
  rd W P (own_selection s) (resolve_end l (Some dir) s source) 0 own_resolution (comes_of s).
Proof using Hl Hwf Hdir.
  intros Hs. destruct s as [name why| |e|]; cbn [resolve_end own_selection].
  - destruct (Hs name why eq_refl) as [Ln Lw]. eapply rd_bind; [by apply resolve_selected_rd|]. intros r Hr. apply (rd_free _ _ _ (Some name)).
    apply rd_ret; [cbn [owned]; lia|done].
  - apply rd_ret; [done|]. split; [by right|done].
  - apply rd_ret; [unfold own_resolution; cbn; lia|]. split; [by left|done].
  - unfold resolve_oom. apply (rd_free _ _ _ (None : option (list Z))). eapply rd_bind; [apply rd_tr, strdup_tr; done|]. intros e _.
    apply rd_ret; [unfold own_resolution; cbn; lia|]. split; [by left|done].
Qed.

(** ** All of it *)
Context (override url : option (list Z)).
Hypothesis (Hover : forall o, override = Some o -> zlen o < 2 ^ 30).
Hypothesis (Henv : forall e, w_env W (str "DOLTLITE_CREDS_KID") = Some e -> zlen e < 2 ^ 30).
Hypothesis (Hurl : forall u, url = Some u -> bytes_wf u /\ zlen u < 2 ^ 30).
Hypothesis (Hlist : listing_wf W dir).
#[local] Abbreviation asked := (asked_for W dir override url).

Definition short_name (s : selection) : Prop := forall name why, s = Selected name why -> zlen name < 2 ^ 30 /\ zlen why < 2 ^ 30.

Lemma asked_settings st s : pairs_wf st -> setting_for st url = Some s -> s <> Unselected /\ short_name s.
Proof using Hurl.
  intros Hst. assert (forall v why key, value_of st key = Some v -> zlen why < 2 ^ 30 -> Selected v why <> Unselected /\ short_name (Selected v why)) as Hv.
  { intros v why key Ev Hw. split; [done|]. intros name why' [= -> ->]. split; [by eapply value_of_short|done]. }
  assert (user_setting st = Some s -> s <> Unselected /\ short_name s) as Huser.
  { unfold user_setting. destruct (value_of st (str "user.creds")) as [v|] eqn:Ev; [|done]. intros [= <-]. by eapply Hv. }
  unfold setting_for. destruct url as [u|]; [|exact Huser]. destruct (remote_key u) as [k|]; [|by intros [= <-]].
  destruct (value_of st k) as [v|] eqn:Ev; [|exact Huser]. intros [= <-]. by eapply Hv.
Qed.

Lemma asked_not_unselected s : asked = Some s -> s <> Unselected /\ short_name s.
Proof using Hover Henv Hurl.
  unfold asked_for, asked_first, config_choice.
  assert (forall o, (match o with Some s => Some s | None => match settings_at W (config_path dir []) false with None => Some (Report (unreadable dir)) | Some st => setting_for st url end end) = Some s ->
    (forall s', o = Some s' -> s' <> Unselected /\ short_name s') -> s <> Unselected /\ short_name s) as H.
  { intros [s'|] E Hs; [injection E as <-; by apply Hs|]. destruct (settings_at _ _ _) as [st|] eqn:Est; [|by injection E as <-].
    eapply asked_settings; [by eapply settings_at_wf|done]. }
  intros E. eapply H; [exact E|]. clear E H. intros s'. destruct override as [[|c o]|] eqn:Eo.
  2: { intros [= <-]. split; [done|]. intros ? ? [= <- <-]. split; [by apply Hover|done]. }
  all: destruct (w_env W (str "DOLTLITE_CREDS_KID")) as [[|c' e]|]; [done| |done]; intros [= <-]; (split; [done|]); intros ? ? [= <- <-]; (split; [by apply Henv|done]).
Qed.

Lemma decide_unselected s : {s = Unselected} + {s <> Unselected}.
Proof using. destruct s; [by right|by left|by right|by right]. Qed.

(** What may be selected: what was asked for, an error, or a key of the
    directory when nothing was asked for. *)
Definition picks (s : selection) : Prop := failed s \/ asked = Some s \/ (asked = None /\ one_of s).

Lemma picks_short s : picks s -> short_name s.
Proof using Hover Henv Hurl.
  intros [Hf|[Ha|(_ & Hs)]]; [by destruct s| |].
  - by apply asked_not_unselected in Ha as [_ ?].
  - destruct Hs as [Hf|[->|(kid & Hk & ->)]]; [by destruct s|done|]. intros ? ? [= <- <-]. split; [|done]. by eapply valid_kid_length, keys_valid.
Qed.

Lemma resolve_tail_tr r st key arr kids : (exists cap, array_wf arr cap kids) ->
  tr P (own_resolution r + weights st + owned key + owned arr + zlen kids)
    (let* _ := credsSettingsFree st in let* _ := sqlite3_free (key : option (list Z)) in let* _ := doltliteCredsFreeList arr kids in retM r) 0 own_resolution (fun r' => r' = r).
Proof using. intros [cap Ha]. apply free_settings_tr, free_tr, (free_list_tr _ _ arr cap); [exact Ha|]. apply tr_ret; [clear; lia|reflexivity]. Qed.

(** The directory, when nothing was asked for. *)
Lemma select_last_rd s2 (st : list CredsSetting) (key : option (list Z)) : chosen P (default Unselected asked) s2 ->
  rd W P (0 + (own_selection s2 + weights st + owned key))
    (match s2 with Unselected => let* (s, arr, kids) := select_single (Some dir) in retM (default Unselected s, arr, kids) | _ => retM (s2, None, []) end)
    (weights st + owned key) (fun r : selection * option Z * list (list Z) => own_selection r.1.1 + owned r.1.2 + zlen r.2)
    (fun r => (exists cap, array_wf r.1.2 cap r.2) /\ picks r.1.1 /\ (P -> r.1.1 = selected W dir override url)).
Proof using Hover Henv Hurl Hlist.
  intros H2. assert (exists cap, array_wf None cap []) as Hempty by (exists 0; by split; [cbn; lia|]).
  destruct (decide_unselected s2) as [->|Hne].
  - assert (asked = None) as Ea.
    { destruct H2 as [H2|[Hf _]]; [|done]. destruct asked as [t|] eqn:E; [|done]. apply asked_not_unselected in E as [Ht _]. by destruct Ht. }
    apply rd_call; [cbn; lia|]. eapply rd_bind; [by apply select_single_rd|]. intros [[s arr] kids] (Ha & Ho & HP). cbn [fst snd] in *.
    apply rd_ret; [unfold own_single; cbn [fst snd]; lia|]. cbn [fst snd]. split_and!; [done|right; right; by split|].
    unfold selected. rewrite Ea. exact HP.
  - assert (picks s2 /\ (P -> s2 = selected W dir override url)) as [Hp Hs].
    { unfold picks, selected. destruct H2 as [E|[Hf HP]]; [|by split; [left|]]. destruct asked as [t|]; [|done]. cbn in E. subst t. split; [by right; left|done]. }
    destruct s2; [|done|..]; (apply rd_ret; [cbn; lia|]); done.
Qed.

Lemma resolve_end_framed_rd s source : short_name s -> forall f d, d = own_selection s + f ->
  rd W P d (resolve_end l (Some dir) s source) f own_resolution (comes_of s).
Proof using Hl Hwf Hdir. intros Hs f d ->. pose proof (rd_frame W P _ f _ _ _ _ (resolve_end_rd s source Hs)) as H. by rewrite Z.add_0_l in H. Qed.

Lemma resolve_rd source :
  rd W P 0 (doltliteCredsResolve l (Some dir) override url source) 0 own_resolution
    (fun r => exists s, picks s /\ comes_of s r /\ (P -> s = selected W dir override url)).
Proof using Hl Hwf Hdir Hshort Hover Henv Hurl Hlist.
  unfold doltliteCredsResolve. eapply rd_bind; [by apply select_override_rd|]. intros s1 H1.
  assert (rd W P (0 + own_selection s1) (match s1 with Unselected => select_config l (Some dir) url | _ => retM (s1, [], None) end) 0 own_config
    (fun r => chosen P (default Unselected asked) r.1.1)) as Hconfig.
  { unfold asked_for. destruct (asked_first W override) as [t|] eqn:E1.
    - assert (t <> Unselected) as Ht by (apply asked_not_unselected; unfold asked_for; by rewrite E1).
      assert (s1 <> Unselected) as Hs1 by (destruct H1 as [->|[Hf _]]; [done|by destruct s1]).
      destruct s1; [|done|..]; (apply rd_ret; [unfold own_config; cbn; lia|exact H1]).
    - destruct H1 as [->|[Hf HP]]; [by apply select_config_rd|]. destruct s1; try done; (apply rd_ret; [unfold own_config; cbn; lia|by right]). }
  eapply rd_seq; [exact Hconfig|]. intros [[s2 st] key] H2. unfold own_config. cbn [fst snd] in *. clear Hconfig H1 s1.
  eapply rd_seq; [by apply select_last_rd|]. intros [[s3 arr] kids] (Ha & Hp & Hsel). cbn [fst snd] in *.
  eapply rd_seq; [apply (resolve_end_framed_rd s3 source (picks_short s3 Hp) (weights st + owned key + owned arr + zlen kids)); lia|].
  intros r Hr. eapply rd_mono; [apply rd_tr; eapply tr_eq; [|by apply (resolve_tail_tr r st key arr kids)]; lia|]. intros r' ->. by exists s3.
Qed.

End world.
End resolve.
