(* ===== verification/CredsTheorems.v ===== *)
(** The theorems about the credential files and the bearer tokens of
    [remote/doltlite_creds.c].  [wpM m Q E w]: from the world [w], [m] returns
    with [Q] or crashes with [E], and is never undefined, whatever calls fail. *)
From S2P Require Import Prelude CInt Ge Ed25519 Ed25519Spec CString World Radix Json Creds CredsFile Bearer CredsConfig Steady CredsSpec CredsReplace CredsFileSpec CredsRead BearerSpec CredsSave CredsConfigFile CredsNames.
#[local] Opaque public_of secret_of digest224.

(** A world for the examples: the directory [keys], no files, no faults. *)
Definition plain_world (choices : list choice) : world :=
  World choices 0 ∅ [] ∅ 0 {[str "keys"]} (fun _ => None) id.

Lemma plain_world_wf choices : fs_wf (plain_world choices).
Proof.
  split; [intros i f; cbn; by rewrite lookup_empty|]. intros t p i Ht Hi. apply list_elem_of_singleton in Ht. subst t. cbn in Hi.
  by rewrite lookup_empty in Hi.
Qed.

(** A path longer than [keys] is no directory of it. *)
Lemma plain_world_dir choices p : (4 < length p)%nat -> is_dir (plain_world choices) p = false.
Proof.
  intros Hp. unfold is_dir. rewrite bool_decide_eq_false_2 by (intros ->; cbn in Hp; lia). apply bool_decide_eq_false_2.
  cbn [plain_world w_dirs]. intros ->%elem_of_singleton. cbn in Hp. lia.
Qed.

Lemma plain_world_may_save choices kid publicOnly : may_save (plain_world choices) (str "keys") kid publicOnly.
Proof.
  unfold may_save. split_and!.
  - split; [|intros; apply lookup_empty]. change (COLON ∉ str "keys"). by apply (bool_decide_eq_true_1 _).
  - intros _. apply lookup_empty.
  - apply plain_world_dir. unfold jwk_path. rewrite length_app. cbn. lia.
  - apply lookup_empty.
  - apply plain_world_dir. unfold jwk_path. rewrite !length_app. cbn. lia.
Qed.

(** The same with the file [p]. *)
Definition file_world (choices : list choice) (p : path) (text : list Z) : world :=
  World choices 0 {[p := 0%nat]} [] {[0%nat := Inode text true]} 1 {[str "keys"]} (fun _ => None) id.

Lemma file_world_wf choices p text : fs_wf (file_world choices p text).
Proof.
  split; [intros i f; cbn; intros [<- _]%lookup_singleton_Some; lia|]. intros t q i Ht Hi. apply list_elem_of_singleton in Ht. subst t. cbn in Hi.
  apply lookup_singleton_Some in Hi as [_ <-]. cbn. by rewrite lookup_singleton_eq.
Qed.

Lemma file_world_at choices p text : file_at (file_world choices p text) p = Some text.
Proof. unfold file_at. cbn. rewrite lookup_singleton_eq. cbn. by rewrite lookup_singleton_eq. Qed.

(** What a call left behind is what the file held after a crash. *)
Lemma outcome_atomic w dir path_ data exclusive rc w' : fs_wf w -> outcome_of w dir path_ data exclusive w rc w' -> atomic w path_ data w'.
Proof. intros Hwf (X & (HX & _) & Hs & _). by eapply sound_atomic. Qed.

Lemma outcome_file w dir path_ data exclusive rc w' : outcome_of w dir path_ data exclusive w rc w' -> rc = 0 ->
  dirname path_ = dir -> file_at w' path_ = Some data /\ forall c, after_crash w' path_ c -> c = Some data.
Proof.
  intros (X & (HX & _) & _ & _ & H0 & _) Hrc Hd. destruct (H0 Hrc) as [Hp Hdur]. split; [by eapply placed_file|].
  intros c. eapply durable_crash; [done|by apply Hdur|done].
Qed.

(** C6: [credsReplaceDurable] replaces a file atomically and durably.  From any
    state of the file system, with any calls failing and a crash at any point,
    a reader after the crash finds the new contents, all of them, or what a
    crash before the call could have left.  Result 0 means the file holds the
    new contents and every later crash leaves them.  The exclusive form never
    touches a file that is there: result 1, every file as it was. *)
Theorem replace_durable_atomic w dir path_ data exclusive : fs_wf w -> dirname path_ = dir ->
  wpM (credsReplaceDurable dir path_ data exclusive)
    (fun rc w' => (rc = 0 \/ rc = 1) /\ w_live w' = w_live w /\ atomic w path_ data w' /\
       (rc = 0 -> file_at w' path_ = Some data /\ forall c, after_crash w' path_ c -> c = Some data) /\
       (exclusive = true -> is_Some (w_names w !! path_) -> rc = 1 /\ same_files w w'))
    (atomic w path_ data) w.
Proof.
  intros Hwf Hd. eapply wpM_mono; [by apply replace_wp| |done]. intros rc w' [Ho Hx]. pose proof Ho as (X & (_ & Hlive & _) & _ & Hrc & _).
  split_and!; [done|done|by eapply outcome_atomic| |done]. intros H0. by eapply outcome_file.
Qed.

(** A short write, an interrupted call, then a crash; the file is there. *)
Definition rough_world : world := file_world [Go; Go; Go; Partial 1; Interrupt; Die] (str "keys/a") [7].

Lemma replace_durable_atomic_witness :
  wpM (credsReplaceDurable (str "keys") (str "keys/a") [1; 2; 3] false)
    (fun rc w' => (rc = 0 \/ rc = 1) /\ w_live w' = 0 /\ atomic rough_world (str "keys/a") [1; 2; 3] w' /\
       (rc = 0 -> file_at w' (str "keys/a") = Some [1; 2; 3] /\ forall c, after_crash w' (str "keys/a") c -> c = Some [1; 2; 3]) /\
       (false = true -> is_Some (w_names rough_world !! str "keys/a") -> rc = 1 /\ same_files rough_world w'))
    (atomic rough_world (str "keys/a") [1; 2; 3]) rough_world.
Proof. apply (replace_durable_atomic rough_world); [apply file_world_wf|vm_compute; reflexivity]. Defined.

(** C29: [credsReplaceDurable] succeeds when nothing fails: with the directory
    there, no directory under the names it uses and, for the exclusive form,
    no file, it returns 0 with the contents in place. *)
Theorem replace_completes w path_ data exclusive : fs_wf w -> calm w -> may_replace w path_ exclusive ->
  exists w', credsReplaceDurable (dirname path_) path_ data exclusive w = Ret 0 w' /\ file_at w' path_ = Some data /\
    (forall c, after_crash w' path_ c -> c = Some data) /\ w_live w' = w_live w.
Proof.
  intros Hwf Hc Hm. pose proof (replace_wp w Hwf (dirname path_) path_ data exclusive w (reflexivity w)) as H.
  apply steady_returns in H as (rc & w' & Hr & _ & Ho & _); [|apply steady_replace|done].
  pose proof Ho as (X & (_ & Hlive & _) & _ & _ & _ & H0). specialize (H0 Hc Hm). destruct Hm as [(_ & _ & Hd) _]. specialize (H0 Hd). subst rc.
  exists w'. destruct (outcome_file _ _ _ _ _ _ _ Ho eq_refl eq_refl). done.
Qed.

Lemma replace_completes_witness :
  exists w', credsReplaceDurable (dirname (str "keys/a")) (str "keys/a") [1; 2; 3] true (plain_world []) = Ret 0 w' /\
    file_at w' (str "keys/a") = Some [1; 2; 3] /\ (forall c, after_crash w' (str "keys/a") c -> c = Some [1; 2; 3]) /\ w_live w' = 0.
Proof.
  apply (replace_completes (plain_world [])); [apply plain_world_wf|reflexivity|]. split; [split_and!|split_and!].
  - intros _. split; [apply lookup_empty|vm_compute; reflexivity].
  - by apply plain_world_dir; vm_compute; lia.
  - vm_compute. reflexivity.
  - apply lookup_empty.
  - by apply plain_world_dir; vm_compute; lia.
  - vm_compute. discriminate.
Defined.

(** * Keys *)
(** With no faults, what [tr] and [rd] promise. *)
Lemma returns_tr {A} (m : M A) own R w : steady m -> calm w -> tr True 0 m 0 own R ->
  exists a w', m w = Ret a w' /\ calm w' /\ mem (own a) w w' /\ R a.
Proof.
  intros Hs Hc Hm. destruct (steady_returns m _ _ w Hs Hc (Hm w w (mem_refl w) (fun _ => Hc))) as (a & w' & Hr & Hc' & Hmem & HR).
  exists a, w'. by rewrite Z.add_0_l in Hmem.
Qed.

Lemma returns_rd {A} (m : M A) own R w : steady m -> calm w -> rd w True 0 m 0 own R ->
  exists a w', m w = Ret a w' /\ calm w' /\ mem (own a) w w' /\ R a.
Proof.
  intros Hs Hc Hm.
  destruct (steady_returns m _ _ w Hs Hc (Hm w w (mem_refl w) (reflexivity w) (fun _ => Hc))) as (a & w' & Hr & Hc' & Hmem & HR).
  exists a, w'. by rewrite Z.add_0_l in Hmem.
Qed.

Lemma returns_gives {A} (m : M (option A)) x w : steady m -> calm w -> tr True 0 m 0 owned (gives True x) ->
  exists w', m w = Ret (Some x) w' /\ calm w' /\ mem 1 w w'.
Proof. intros Hs Hc Hm. destruct (returns_tr _ _ _ _ Hs Hc Hm) as (a & w' & Hr & Hc' & Hmem & [->|[_ []]]); [by exists w'|done]. Qed.

Lemma file_at_same w w' p : same_files w w' -> file_at w' p = file_at w p.
Proof. intros (Hn & _ & Hi & _). unfold file_at. by rewrite Hn, Hi. Qed.

(** The seed and the buffers of the examples. *)
Definition zero_seed : list Z := replicate 32 0.
Lemma zero_seed_wf : buffer 32 zero_seed.
Proof. by apply bufferb_spec. Qed.

Section keys.
Context (l : locals) (Hl : locals_wf l) (seed : list Z) (Hseed : buffer 32 seed).
#[local] Abbreviation kid := (kid_of (public_of seed)).

Lemma save_returns dir publicOnly w : fs_wf w -> calm w -> dir <> [] -> zlen dir < 2 ^ 30 -> may_save w dir kid publicOnly ->
  exists w', credsSaveJwk l (creds_of seed) (Some dir) publicOnly w = Ret 0 w' /\ calm w' /\ fs_wf w' /\ w_live w' = w_live w /\
    file_at w' (jwk_path dir kid) = Some (jwk_of seed publicOnly) /\
    forall c, after_crash w' (jwk_path dir kid) c -> c = Some (jwk_of seed publicOnly).
Proof using Hl Hseed.
  intros Hwf Hc Hne Hdir Hmay. pose proof (save_wp l Hl seed Hseed w Hwf dir Hne Hdir publicOnly True w (reflexivity w) (fun _ => Hc)) as H.
  apply steady_returns in H as (rc & w' & Hr & Hc' & D & X & _ & (HX & Hlive & _) & Hs & _ & H0 & _ & Hrc); [|apply steady_save|done].
  specialize (Hrc I Hmay). subst rc. destruct (H0 eq_refl) as [Hp Hd]. exists w'. split_and!; [done|done| |done| |].
  - eapply fs_wf_same; [done|]. apply Hs.
  - by eapply placed_file.
  - intros c. by eapply durable_crash.
Qed.

Lemma kid_returns w : calm w -> exists w', doltliteCredsKid l (creds_of seed) w = Ret (Some kid) w' /\ calm w' /\ mem 1 w w'.
Proof using Hl Hseed.
  intros Hc. destruct (keypair_of l Hl seed Hseed) as (_ & [Hlen Hb] & _). apply returns_gives; [apply steady_kid|done|].
  apply kid_tr; [done|done|]. cbn [creds_of c_pub]. unfold zlen. rewrite Hlen. lia.
Qed.

Lemma seed_returns w : calm w -> exists w', doltliteCredsFromSeed l seed w = Ret (Some (creds_of seed)) w' /\ calm w' /\ mem 1 w w'.
Proof using Hl Hseed.
  intros Hc. apply returns_gives; [apply steady_from_seed|done|]. rewrite <- (app_nil_r seed) at 1. by apply from_seed_tr.
Qed.

(** Memory does not matter to [may_save]. *)
Lemma may_save_same w w' dir x publicOnly : same_files w w' -> may_save w dir x publicOnly -> may_save w' dir x publicOnly.
Proof using. intros (Hn & _ & _ & _ & Hd & _). unfold may_save, clear_way, is_dir. by rewrite !Hn, !Hd. Qed.
End keys.



(** * Tokens *)
Lemma token_at_wf seed audience iat : str_wf audience -> zlen audience < 2 ^ 28 -> - 2 ^ 63 <= iat < 2 ^ 63 - 30 ->
  bytes_wf (token_at seed audience iat) /\ zlen (token_at seed audience iat) < 2 ^ 29.
Proof.
  intros Ha La Hi. pose proof (length_kid_of (public_of seed)) as Lk. pose proof (safe_str _ (kid_safe (public_of seed))) as Sk.
  pose proof (header_text_length (kid_of (public_of seed))) as Lh. pose proof (claims_text_length (kid_of (public_of seed)) audience iat (iat + 30)) as Lc.
  unfold token_at. cbv zeta. set (h := header_text _) in *. set (c := claims_text _ _ _ _) in *.
  assert (bytes_wf h) as Hh by (apply str_wf_bytes, header_text_str; assumption).
  assert (bytes_wf c) as Hc by (apply str_wf_bytes, claims_text_str; first [assumption|lia]).
  pose proof (length_base64_raw _ Hh). pose proof (length_base64_raw _ Hc). unfold token_of. cbv zeta.
  destruct (token_signature_buffer seed (signed_part h c)) as [Ls Ws]. pose proof (length_base64_raw _ Ws). split.
  - apply Forall_app. split; [apply signed_part_bytes; assumption|]. constructor; [unfold is_byte; lia|]. apply str_wf_bytes, safe_str, base64_raw_safe. assumption.
  - rewrite length_app. cbn [length]. unfold signed_part at 1. rewrite length_app. cbn [length]. lia.
Qed.

(** A token has one header, so one name. *)
Lemma dot_split h c h' c' : h ++ DOT :: c = h' ++ DOT :: c' -> (DOT ∉ h) -> (DOT ∉ h') -> h = h' /\ c = c'.
Proof.
  revert h'. induction h as [|x h IH]; intros [|x' h'] E Hh Hh'; cbn [app] in E.
  - by injection E.
  - injection E as <- _. by destruct Hh'; left.
  - injection E as -> _. by destruct Hh; left.
  - injection E as <- E. destruct (IH h' E) as [-> ->]; [by intros ?; apply Hh; right|by intros ?; apply Hh'; right|done].
Qed.

Lemma bearer_valid_inj W auth audience dir now kid kid' :
  bearer_valid W auth audience dir now kid -> bearer_valid W auth audience dir now kid' -> kid = kid'.
Proof.
  intros (h & c & s & hdr & cl & pub & (E & Hh & _ & D & _) & (_ & _ & K) & _) (h' & c' & s' & hdr' & cl' & pub' & (E' & Hh' & _ & D' & _) & (_ & _ & K') & _).
  rewrite E in E'. destruct (dot_split _ _ _ _ E' Hh Hh') as [<- _]. rewrite D in D'. injection D' as <-. rewrite K in K'. by injection K'.
Qed.

Lemma verify_returns l auth audience dir now kid w : locals_wf l -> fs_wf w -> calm w -> bytes_wf auth -> zlen auth < 2 ^ 30 -> audience <> [] ->
  zlen dir < 2 ^ 30 -> is_time now -> bearer_valid w auth audience dir now kid ->
  exists w', doltliteCredsVerifyBearer l (Some auth) (Some audience) (Some dir) now w = Ret (Some kid) w'.
Proof.
  intros Hl Hwf Hc Ha La Hne Hd Hnow Hv.
  destruct (returns_rd _ _ _ w (steady_verify_bearer l (Some auth) (Some audience) (Some dir) now) Hc
    (verify_bearer_rd l Hl w True auth audience dir now Hwf Ha La Hne Hd Hnow)) as (a & w' & H & _ & _ & Hk).
  exists w'. rewrite H. f_equal. destruct a as [k|]; [|by destruct (Hk I kid)]. f_equal. by eapply bearer_valid_inj.
Qed.

Lemma token_returns l junk seed audience iat w : locals_wf l -> buffer 64 junk -> buffer 32 seed -> str_wf audience -> audience <> [] ->
  zlen audience < 2 ^ 28 -> - 2 ^ 63 <= iat < 2 ^ 63 - 30 -> calm w ->
  exists w', doltliteCredsBearerTokenAt l junk (Some (creds_of seed)) (Some audience) iat w = Ret (Some (token_at seed audience iat)) w' /\
    calm w' /\ mem 1 w w'.
Proof. intros Hl Hj Hseed Hs Hne La Hi Hc. apply returns_gives; [apply steady_token|assumption|]. apply bearer_token_tr; assumption. Qed.

(** C8: a client's token is accepted by a server that has its public key.  With
    no failing call: a key from any seed, its public half stored with
    [doltliteCredsSavePublic], a token made by [doltliteCredsBearerTokenAt] for
    an audience without quotes or backslashes: until 90 seconds later, and from
    60 seconds before, [doltliteCredsVerifyBearer] returns the key's name. *)
Theorem issued_token_accepted l junk seed audience iat now dir w : locals_wf l -> buffer 64 junk -> buffer 32 seed ->
  plain audience -> audience <> [] -> zlen audience < 2 ^ 28 -> 0 <= iat -> iat + 90 < 2 ^ 63 -> 0 <= now -> iat - 60 <= now <= iat + 90 ->
  fs_wf w -> calm w -> dir <> [] -> zlen dir < 2 ^ 30 -> may_save w dir (kid_of (public_of seed)) true ->
  exists c w1 w2 token w3 kid w4 w5, doltliteCredsFromSeed l seed w = Ret (Some c) w1 /\
    doltliteCredsSavePublic l c (Some dir) w1 = Ret 0 w2 /\
    doltliteCredsBearerTokenAt l junk (Some c) (Some audience) iat w2 = Ret (Some token) w3 /\
    doltliteCredsKid l c w3 = Ret (Some kid) w4 /\
    doltliteCredsVerifyBearer l (Some (str "Bearer " ++ token)) (Some audience) (Some dir) now w4 = Ret (Some kid) w5.
Proof.
  intros Hl Hj Hseed Ha Hane La Hiat Hiat' Hnow Hwin Hwf Hc Hne Hdir Hmay. pose proof (plain_str _ Ha) as Hs.
  destruct (token_at_wf seed audience iat Hs La) as [Wt Lt]; [lia|].
  destruct (seed_returns l Hl seed Hseed w Hc) as (w1 & H1 & Hc1 & Hm1). pose proof (mem_files _ _ _ Hm1) as F1.
  destruct (save_returns l Hl seed Hseed dir true w1) as (w2 & H2 & Hc2 & Hwf2 & _ & Hf2 & _);
    [by eapply fs_wf_same|done|done|done|by eapply may_save_same|].
  destruct (token_returns l junk seed audience iat w2) as (w3 & H3 & Hc3 & Hm3); [assumption..|lia|assumption|].
  destruct (kid_returns l Hl seed Hseed w3 Hc3) as (w4 & H4 & Hc4 & Hm4).
  assert (same_files w2 w4) as F4 by (etransitivity; [exact (mem_files _ _ _ Hm3)|exact (mem_files _ _ _ Hm4)]).
  destruct (verify_returns l (str "Bearer " ++ token_at seed audience iat) audience dir now (kid_of (public_of seed)) w4) as (w5 & H5);
    [assumption|by eapply fs_wf_same|assumption| | |assumption|assumption|unfold is_time; lia| |].
  - apply bytes_wf_app. split; [|assumption]. apply str_wf_bytes, str_wfb_spec. reflexivity.
  - rewrite length_app. change (length (str "Bearer ")) with 7%nat. lia.
  - apply (issued_valid w4 l); try first [assumption|lia]. apply (public_saved l Hl seed Hseed). rewrite <- Hf2. by apply file_at_same.
  - exists (creds_of seed), w1, w2, (token_at seed audience iat), w3, (kid_of (public_of seed)), w4, w5. do 4 (split; [assumption|]). exact H5.
Qed.

Lemma issued_token_accepted_witness :
  exists c w1 w2 token w3 kid w4 w5, doltliteCredsFromSeed zero_locals zero_seed (plain_world []) = Ret (Some c) w1 /\
    doltliteCredsSavePublic zero_locals c (Some (str "keys")) w1 = Ret 0 w2 /\
    doltliteCredsBearerTokenAt zero_locals (replicate 64 0) (Some c) (Some (str "example.org")) 1700000000 w2 = Ret (Some token) w3 /\
    doltliteCredsKid zero_locals c w3 = Ret (Some kid) w4 /\
    doltliteCredsVerifyBearer zero_locals (Some (str "Bearer " ++ token)) (Some (str "example.org")) (Some (str "keys")) 1700000010 w4 = Ret (Some kid) w5.
Proof.
  apply issued_token_accepted; [apply zero_locals_wf|by apply bufferb_spec|apply zero_seed_wf|by apply plainb_spec|discriminate|reflexivity|lia|lia|lia|lia
    |apply plain_world_wf|reflexivity|discriminate|reflexivity|apply plain_world_may_save].
Defined.

(** C3: [doltliteCredsVerifyBearer] accepts valid tokens only, and all of them.
    Whatever calls fail, a name it returns is that of a key whose public JWK is
    in the directory and whose signature is on the token's first two parts,
    with issuer, subject, audience and times as demanded; when no call fails
    and it returns NULL, no key makes the token valid.  No file changes, and
    only the returned name stays allocated. *)
Theorem verify_bearer_decides l auth audience dir now w : locals_wf l -> fs_wf w -> bytes_wf auth -> zlen auth < 2 ^ 30 -> audience <> [] ->
  zlen dir < 2 ^ 30 -> is_time now ->
  wpM (doltliteCredsVerifyBearer l (Some auth) (Some audience) (Some dir) now)
    (fun r w' => same_files w w' /\ w_live w' = w_live w + owned r /\
       (forall kid, r = Some kid -> bearer_valid w auth audience dir now kid) /\
       (calm w -> r = None -> forall kid, ~ bearer_valid w auth audience dir now kid))
    (same_files w) w.
Proof.
  intros Hl Hwf Ha La Hne Hd Hnow. eapply wpM_rd; [by apply (verify_bearer_rd l Hl w (calm w))|done|done| |done].
  intros r w' (Hf & _ & Hlive) _ Hr. split_and!; [done|done| |]; [by intros kid ->|by intros Hc -> kid; apply Hr].
Qed.

Lemma verify_bearer_decides_witness :
  wpM (doltliteCredsVerifyBearer zero_locals (Some (str "Bearer a.b.c")) (Some (str "example.org")) (Some (str "keys")) 1700000000)
    (fun r w' => same_files (plain_world [Refuse]) w' /\ w_live w' = 0 + owned r /\
       (forall kid, r = Some kid -> bearer_valid (plain_world [Refuse]) (str "Bearer a.b.c") (str "example.org") (str "keys") 1700000000 kid) /\
       (calm (plain_world [Refuse]) -> r = None ->
        forall kid, ~ bearer_valid (plain_world [Refuse]) (str "Bearer a.b.c") (str "example.org") (str "keys") 1700000000 kid))
    (same_files (plain_world [Refuse])) (plain_world [Refuse]).
Proof.
  apply (verify_bearer_decides zero_locals (str "Bearer a.b.c") (str "example.org") (str "keys") 1700000000 (plain_world [Refuse]));
    [apply zero_locals_wf|apply plain_world_wf|apply str_wf_bytes, str_wfb_spec; reflexivity|reflexivity|discriminate|reflexivity|unfold is_time; lia].
Defined.


(** A directory with a private key under the name of 28 zero bytes. *)
Definition zero_kid : list Z := base32 (replicate 28 0).
Definition private_world (choices : list choice) : world :=
  file_world choices (jwk_path (str "keys") zero_kid) (jwk_text (str "AA") (str "AA")).


(** The names of keys are exactly the base-32 texts of 28 bytes, so the
    file of a key is a file of the directory itself. *)
Theorem kid_valid_exact dir kid :
  (credsKidValid (Some kid) = true <-> exists raw, length raw = 28%nat /\ bytes_wf raw /\ kid = base32 raw) /\
  (credsKidValid (Some kid) = true -> dirname (jwk_path dir kid) = dir).
Proof. split; [apply kid_valid_iff|by apply dirname_jwk]. Qed.

(** * Text *)
(** [doltliteBase64UrlDecode] inverts [doltliteBase64UrlEncode] for any
    bytes.  With failing calls each returns its result or NULL; with none, the
    decoded block is the encoded one. *)
Theorem base64_roundtrip B w : bytes_wf B -> zlen B < 2 ^ 29 ->
  wpM (let* s := doltliteBase64UrlEncode B in match s with Some s => doltliteBase64UrlDecode s | None => retM None end)
    (fun r w' => (r = Some B \/ r = None) /\ (calm w -> r = Some B) /\ same_files w w') (same_files w) w.
Proof.
  intros HB Hlen. pose proof (length_base64 B HB) as Hl. apply wpM_bind. eapply wpM_tr; [apply (base64_tr (calm w)); [done|lia]|done| |done].
  intros s w1 Hm1 Hc1 [->|[-> HP]].
  - eapply wpM_tr; [apply (decode64_tr (calm w)); lia|done| |].
    + intros r w2 Hm2 _ Hr. rewrite decode64_base64 in Hr by done. split_and!.
      * destruct Hr as [->|[-> _]]; auto.
      * intros Hc. by destruct Hr as [->|[_ []]].
      * etransitivity; [exact (mem_files _ _ _ Hm1)|exact (mem_files _ _ _ Hm2)].
    + intros w2 H2. etransitivity; [exact (mem_files _ _ _ Hm1)|exact H2].
  - apply wpM_ret. split_and!; [by right|by intros ?; destruct HP|exact (mem_files _ _ _ Hm1)].
Qed.

Lemma base64_roundtrip_witness :
  wpM (let* s := doltliteBase64UrlEncode [0; 255; 7] in match s with Some s => doltliteBase64UrlDecode s | None => retM None end)
    (fun r w' => (r = Some [0; 255; 7] \/ r = None) /\ (calm (plain_world []) -> r = Some [0; 255; 7]) /\ same_files (plain_world []) w')
    (same_files (plain_world [])) (plain_world []).
Proof. apply base64_roundtrip; [repeat constructor; lia|reflexivity]. Defined.

(** [doltliteParseDecimal] never wraps around: for a non-empty text and any
    bound below 2^64 it returns the value of the digits exactly when the text
    is digits with a value inside the bound; the loop stops at the first
    character that is no digit, and at the first prefix above the bound. *)
Theorem parse_decimal_exact z mx : z <> [] -> 0 <= mx < 2 ^ 64 ->
  decimal_of mx z (doltliteParseDecimal (Some z) mx) /\
  forall v, doltliteParseDecimal (Some z) mx = DECIMAL_OK v <-> Forall is_digit z /\ v = dec_val z /\ v <= mx.
Proof.
  intros Hz Hmx. assert (decimal_of mx z (doltliteParseDecimal (Some z) mx)) as H.
  { destruct z as [|c z]; [done|]. apply (parse_decimal_loop_spec mx [] (c :: z)); [done|by constructor|cbn; lia]. }
  split; [done|]. intros v. split; [intros E; by rewrite E in H|]. intros (Hd & -> & Hv). by apply parse_decimal_digits.
Qed.

Lemma parse_decimal_exact_witness :
  decimal_of (2 ^ 63 - 1) (str "9223372036854775808") (doltliteParseDecimal (Some (str "9223372036854775808")) (2 ^ 63 - 1)) /\
  forall v, doltliteParseDecimal (Some (str "9223372036854775808")) (2 ^ 63 - 1) = DECIMAL_OK v <->
    Forall is_digit (str "9223372036854775808") /\ v = dec_val (str "9223372036854775808") /\ v <= 2 ^ 63 - 1.
Proof. apply parse_decimal_exact; [discriminate|lia]. Defined.

(** The JSON scanner terminates: on any text [credsJsonObjectValue] stops
    within one step per character, reads no character outside it, and returns
    a position inside it or NULL. *)
Theorem json_scan_terminates json key :
  exists r, credsJsonObjectValue json key = Some r /\ forall p, r = Some p -> p `suffix_of` json.
Proof. apply credsJsonObjectValue_scans. Qed.
