(* ===== verification/ConfigTheorems.v ===== *)
(** The theorems about the configuration file, the names of keys and the
    selection of a key of [remote/doltlite_creds.c]. *)
From S2P Require Import Prelude CInt Ge Ed25519 Ed25519Spec CString World Radix Json Creds CredsFile Bearer CredsConfig Steady CredsSpec CredsReplace CredsFileSpec CredsRead BearerSpec CredsSave CredsConfigSpec CredsConfigSet CredsConfigFile CredsNames CredsResolve CredsTheorems.
#[local] Opaque public_of secret_of digest224.

(** * The configuration file *)
Definition config_file (dir : list Z) : path := config_path dir [].
(** The file is short enough for the blocks of its lines. *)
Definition short_config (w : world) (dir : list Z) : Prop := forall text, file_at w (config_file dir) = Some text -> zlen text < 2 ^ 29.


Lemma plain_world_apart choices dir : apart dir (plain_world choices).
Proof. intros t i Ht Hi. apply list_elem_of_singleton in Ht. subst t. cbn in Hi. by rewrite lookup_empty in Hi. Qed.

Lemma plain_world_short choices dir : short_config (plain_world choices) dir.
Proof. intros text. unfold file_at. cbn. by rewrite lookup_empty. Qed.


(** What is read back of the new text. *)
Lemma config_text_read w dir key value : config_key key -> config_value value ->
  parse_settings (config_text w dir key value) false = Some (trim_pair <$> update (config_now w dir) key value) /\
  value_of (trim_pair <$> update (config_now w dir) key value) key = value /\
  forall k, k <> key -> value_of (trim_pair <$> update (config_now w dir) key value) k = trim_cr <$> value_of (config_now w dir) k.
Proof.
  intros Hk Hv. assert (pairs_wf (config_now w dir)) as Hnow.
  { unfold config_now, settings_at. assert (pairs_wf []) as Hnil by (split; constructor).
    destruct (file_at w _) as [text|]; [|by destruct (obstructed _ _)]. unfold parse_settings.
    destruct (parse_loop _ _ _ _) eqn:E; [|done]. cbn. by eapply parse_wf. }
  pose proof (update_wf _ _ _ Hnow Hk Hv) as Hwf. split_and!.
  - unfold parse_settings, config_text. apply (parse_printed _ _ [] false); [done|lia].
  - rewrite value_of_trim, value_of_update; [|done|by apply config_key_known]. destruct value as [v|]; [|done]. cbn. f_equal.
    eapply known_value; [exact Hwf|by apply config_key_known|]. apply value_of_update; [done|by apply config_key_known].
  - intros k Hne. by rewrite value_of_trim, value_of_other.
Qed.

(** A setting is read back.  After [doltliteCredsConfigSet] returned 0, what
    [credsSettingsRead] returns has the new value under the key, no value when
    it was removed, and every other setting of the file, known to this build
    or not, with its value (less a carriage return at its end).  When no call
    fails, both succeed. *)
Theorem config_set_read_back w dir key value : fs_wf w -> config_key key -> config_value value -> short_config w dir ->
  zlen (config_text w dir key value) < 2 ^ 29 -> dir <> [] -> zlen dir < 2 ^ 30 -> apart dir w ->
  wpM (let* rc := doltliteCredsConfigSet (Some dir) key value false in
       if rc =? 0 then credsSettingsRead (config_file dir) false else retM None)
    (fun r _ => (forall settings, r = Some settings -> exists l, settings = of_pairs l /\ value_of l key = value /\
         forall k, k <> key -> value_of l k = trim_cr <$> value_of (config_now w dir) k) /\
       (calm w -> may_config w dir -> is_Some r))
    (atomic w (config_file dir) (config_text w dir key value)) w.
Proof.
  intros Hwf Hk Hv Hs Ht Hne Hd Hap. apply wpM_bind.
  eapply wpM_mono; [apply (config_set_wp w Hwf dir (calm w /\ may_config w dir)); try done; tauto| |done].
  intros rc w' (X & (HX & Hlive & Hch) & Hsound & _ & Hrc & Hfile & HC). destruct (Z.eqb_spec rc 0) as [H0|H0].
  2: { apply wpM_ret. split; [done|]. intros Hc Hm. by destruct H0; apply HC. }
  assert (file_at X (config_file dir) = Some (config_text w dir key value)) as Ef.
  { unfold config_file. rewrite (Hfile H0). unfold config_result, config_keeps. by rewrite andb_false_r. }
  destruct (config_text_read w dir key value Hk Hv) as (Ep & Ev & Eo).
  eapply wpM_rd; [apply (settings_rd X (calm w) (config_file dir) false)|done| | |].
  - apply Hsound.
  - intros text. rewrite Ef. by intros [= <-].
  - intros Hc. unfold calm in *. rewrite Hc in Hch. by apply suffix_nil_inv in Hch.
  - intros r w2 _ _ Hr. unfold settings_at in Hr. rewrite Ef, Ep in Hr. split.
    + intros settings ->. destruct Hr as [Hr|[? _]]; [|done]. injection Hr as ->. eauto.
    + intros Hc _. destruct Hr as [->|[_ []]]; [|done]. eauto.
  - intros w2 H2. eapply sound_atomic; [done|exact Hsound|by etransitivity].
Qed.

Lemma config_set_read_back_witness :
  wpM (let* rc := doltliteCredsConfigSet (Some (str "keys")) (str "user.creds") None false in
       if rc =? 0 then credsSettingsRead (config_file (str "keys")) false else retM None)
    (fun r _ => (forall settings, r = Some settings -> exists l, settings = of_pairs l /\ value_of l (str "user.creds") = None /\
         forall k, k <> str "user.creds" -> value_of l k = trim_cr <$> value_of (config_now (plain_world []) (str "keys")) k) /\
       (calm (plain_world []) -> may_config (plain_world []) (str "keys") -> is_Some r))
    (atomic (plain_world []) (config_file (str "keys")) (config_text (plain_world []) (str "keys") (str "user.creds") None)) (plain_world []).
Proof.
  apply config_set_read_back; [apply plain_world_wf|by left|done|apply plain_world_short|vm_compute; reflexivity|discriminate|reflexivity|].
  apply plain_world_apart.
Defined.

(** Bad settings are refused before anything happens: for a key that is
    neither [user.creds] nor [remote.] with a name, or a value that is neither
    [anonymous] nor a name, the result is 1 and the world is untouched. *)
Theorem config_set_rejects w dir key value onlyIfMissing : ~ (config_key key /\ config_value value) ->
  doltliteCredsConfigSet dir key value onlyIfMissing w = Ret 1 w.
Proof.
  intros Hbad. unfold doltliteCredsConfigSet.
  destruct (negb (streq key (str "user.creds")) && _) eqn:Ek; [done|].
  destruct (match value with Some _ => _ | None => _ end) eqn:Ev; [done|]. destruct Hbad. split.
  - apply andb_false_iff in Ek as [Ek|Ek].
    + left. apply negb_false_iff in Ek. by apply bool_decide_eq_true_1 in Ek.
    + right. apply orb_false_iff in Ek as [Ep Eh]. apply negb_false_iff in Ep, Eh. apply bool_decide_eq_true_1 in Ep. exists (key +p 7).
      split; [|done]. change (str "remote.") with (take 7 (str "remote.")). rewrite <- Ep. symmetry. apply take_drop.
  - destruct value as [v|]; [|done]. apply andb_false_iff in Ev as [Ev|Ev]; apply negb_false_iff in Ev.
    + left. by apply bool_decide_eq_true_1 in Ev.
    + by right.
Qed.

Lemma config_set_rejects_witness : doltliteCredsConfigSet None (str "user.name") None false (plain_world []) = Ret 1 (plain_world []).
Proof. apply config_set_rejects. intros [[H|(hash & H & _)] _]; discriminate. Defined.


Lemma plain_world_listing choices : listing_wf (plain_world choices) (str "keys").
Proof. split; [vm_compute; reflexivity|]. apply (bool_decide_unpack _). vm_compute. exact I. Qed.


Lemma lower_bytes s : bytes_wf s -> bytes_wf (lower <$> s).
Proof. intros H. apply Forall_fmap. eapply Forall_impl; [exact H|]. apply lower_byte. Qed.

Lemma lower_no_slash (s : list Z) : (SLASH ∉ s) -> SLASH ∉ lower <$> s.
Proof.
  intros H (c & Hc & Hin)%list_elem_of_fmap_1. apply H. replace SLASH with c; [done|]. revert Hc. unfold lower.
  destruct ((65 <=? c) && (c <=? 90)) eqn:E; [lia|done].
Qed.

(** One remote has one key: the same URL with its scheme and host in
    capitals, with the port 443 written out and with slashes at the end gets
    the same configuration key. *)
Theorem remote_key_canonical l host e k w : locals_wf l -> (SLASH ∉ host) -> ~ str ":443" `suffix_of` lower <$> host -> url_path e ->
  bytes_wf host -> bytes_wf e -> zlen host + zlen e + Z.of_nat k < 2 ^ 29 -> calm w ->
  exists key w1 w2, doltliteCredsRemoteKey l (Some (str "HTTPS://" ++ host ++ str ":443" ++ e ++ replicate k SLASH)) w = Ret (Some key) w1 /\
    doltliteCredsRemoteKey l (Some (str "https://" ++ (lower <$> host) ++ e)) w = Ret (Some key) w2.
Proof.
  intros Hl Hh Hp He Wh We Hlen Hc. pose proof (canonical_url_same host e k Hh Hp He) as Hsame.
  assert (exists key, remote_key (str "https://" ++ (lower <$> host) ++ e) = Some key) as (key & Hkey).
  { unfold remote_key. rewrite canonical_https; [by eexists|by left| |done]. by apply lower_no_slash. }
  assert (bytes_wf (lower <$> host)) as Wl by (by apply lower_bytes).
  assert (forall u, bytes_wf u -> zlen u < 2 ^ 30 -> remote_key u = Some key -> exists w', doltliteCredsRemoteKey l (Some u) w = Ret (Some key) w') as Hget.
  { intros u Wu Lu Eu. destruct (returns_tr _ _ _ w (steady_remote_key l (Some u)) Hc (remote_key_tr l Hl True u Wu Lu)) as (a & w' & Hr & _ & _ & Ha).
    exists w'. rewrite Hr. rewrite Eu in Ha. by destruct Ha as [->|[_ []]]. }
  destruct (Hget (str "HTTPS://" ++ host ++ str ":443" ++ e ++ replicate k SLASH)) as (w1 & H1).
  { apply bytes_wf_app; split; [apply str_wf_bytes, str_wfb_spec; reflexivity|]. apply bytes_wf_app; split; [done|].
    apply bytes_wf_app; split; [apply str_wf_bytes, str_wfb_spec; reflexivity|]. apply bytes_wf_app; split; [done|].
    apply Forall_replicate. unfold is_byte. lia. }
  { rewrite !length_app, length_replicate. change (length (str "HTTPS://")) with 8%nat. change (length (str ":443")) with 4%nat. lia. }
  { unfold remote_key. rewrite Hsame. exact Hkey. }
  destruct (Hget (str "https://" ++ (lower <$> host) ++ e)) as (w2 & H2); [| |done|eauto].
  { apply bytes_wf_app; split; [apply str_wf_bytes, str_wfb_spec; reflexivity|]. by apply bytes_wf_app. }
  rewrite !length_app, length_fmap. change (length (str "https://")) with 8%nat. lia.
Qed.

Lemma remote_key_canonical_witness :
  exists key w1 w2, doltliteCredsRemoteKey zero_locals (Some (str "HTTPS://" ++ str "Example.ORG" ++ str ":443" ++ str "/db" ++ replicate 2 SLASH)) (plain_world []) = Ret (Some key) w1 /\
    doltliteCredsRemoteKey zero_locals (Some (str "https://" ++ (lower <$> str "Example.ORG") ++ str "/db")) (plain_world []) = Ret (Some key) w2.
Proof.
  apply remote_key_canonical; [apply zero_locals_wf|by apply (bool_decide_unpack _)|by apply (bool_decide_unpack _)|right; by eexists
    |apply str_wf_bytes, str_wfb_spec; reflexivity|apply str_wf_bytes, str_wfb_spec; reflexivity|reflexivity|reflexivity].
Defined.

(** [credsResolveKid] understands the two names of a key, its name proper
    and the base-32 text of its public key, and nothing else. *)
Theorem resolve_kid_exact l name w : locals_wf l -> zlen name < 2 ^ 30 ->
  wpM (credsResolveKid l (Some name))
    (fun r w' => same_files w w' /\ w_live w' = w_live w + owned r /\
       let is_name kid := (credsKidValid (Some name) = true /\ kid = name) \/
         exists pub, bytes_wf pub /\ length pub = 32%nat /\ name = base32 pub /\ kid = kid_of pub in
       (forall kid, r = Some kid -> is_name kid) /\ (calm w -> r = None -> forall kid, ~ is_name kid))
    (same_files w) w.
Proof.
  intros Hl Hn. eapply wpM_tr; [by apply (resolve_kid_tr l Hl (calm w))|done| |done]. intros r w' (Hf & _ & Hlive) _ Hr. cbv zeta.
  split_and!; [done|done| |].
  - intros kid ->. apply kid_named_iff. by destruct Hr as [Hr|[? _]].
  - intros Hc -> kid Hk%kid_named_iff. destruct Hr as [Hr|[_ []]]; [|done]. congruence.
Qed.

Lemma resolve_kid_exact_witness :
  wpM (credsResolveKid zero_locals (Some zero_kid))
    (fun r w' => same_files (plain_world []) w' /\ w_live w' = 0 + owned r /\
       let is_name kid := (credsKidValid (Some zero_kid) = true /\ kid = zero_kid) \/
         exists pub, bytes_wf pub /\ length pub = 32%nat /\ zero_kid = base32 pub /\ kid = kid_of pub in
       (forall kid, r = Some kid -> is_name kid) /\ (calm (plain_world []) -> r = None -> forall kid, ~ is_name kid))
    (same_files (plain_world [])) (plain_world []).
Proof. apply (resolve_kid_exact zero_locals zero_kid (plain_world [])); [apply zero_locals_wf|vm_compute; reflexivity]. Defined.

(** * Limits *)
Definition returned {A} (o : outcome A) : option A := match o with Ret a _ => Some a | _ => None end.

(** A directory with two keys; [readdir] fails after the first. *)
Definition two_keys : world :=
  let a := jwk_path (str "keys") zero_kid in
  let b := jwk_path (str "keys") (base32 (replicate 28 255)) in
  World [Go; Go; Go; Go; Go; Go; Refuse] 0 {[a := 0%nat; b := 1%nat]} [] {[0%nat := Inode [] true; 1%nat := Inode [] true]} 2
    {[str "keys"]} (fun _ => None) id.


(** Settings of other builds are not always kept: a line of more than 1022
    characters makes the configuration unreadable, whatever its key, and the
    repair that precedes a change drops it. *)
Theorem long_setting_dropped :
  let text := str "core.editor=" ++ replicate 1100 120 ++ [LF] in
  let w := file_world [] (config_file (str "keys")) text in
  returned (credsSettingsRead (config_file (str "keys")) false w) = Some None /\
  returned (credsSettingsRead (config_file (str "keys")) true w) = Some (Some []).
Proof. split; vm_compute; reflexivity. Qed.

(** The claims for an audience with quotes in it have two audiences. *)
Definition two_audiences (kid a b : list Z) (iat exp : Z) : list (list Z * jvalue) :=
  [(str "iss", JString JWT_ISSUER); (str "sub", JString (JWT_SUBJECT_PREFIX ++ kid)); (str "aud", JStrings [a; b]);
   (str "iat", JNumber iat); (str "exp", JNumber exp)].

Lemma two_audiences_text kid a b iat exp : claims_text kid (a ++ js "','" ++ b) iat exp = print_object (two_audiences kid a b iat exp).
Proof. unfold two_audiences. printed. Qed.


