(* ===== verification/Http.v ===== *)
(** Requests to the server of [remote/doltlite_remotesrv.c]: the header block,
    the check of its token, the path, and where the header block ends. *)
From S2P Require Import Prelude CInt Ge Ed25519 CString World Radix Json Creds CredsFile Bearer CredsConfig.

Definition MAX_HEADER_SIZE : Z := 4096.
Definition MAX_CHUNK_BYTES : Z := 1024 * 1024 * 1024.
Definition MAX_REQUEST_BYTES : Z := MAX_CHUNK_BYTES.

(** * Headers *)
(** [UpperToLower[c]] is [lower c]; the end of a string is a 0. *)
Fixpoint sqlite3_strnicmp (zLeft zRight : list Z) (n : nat) : Z :=
  match n with
  | O => 0
  | S n =>
      match zLeft, zRight with
      | [], _ => 0 - lower (default 0 (head zRight))
      | a :: zLeft', b :: zRight' => if lower a =? lower b then sqlite3_strnicmp zLeft' zRight' n else lower a - lower b
      | a :: _, [] => lower a - 0
      end
  end.

(** [zName] is the [nName] characters of the name. *)
Definition headerNameEquals (zName zExpected : list Z) : bool :=
  (zlen zName =? zlen zExpected) && (sqlite3_strnicmp zName zExpected (length zExpected) =? 0).

Definition is_blank (c : Z) : bool := (c =? SPACE) || (c =? TAB).
Fixpoint skip_blanks (p : list Z) : list Z :=
  match p with
  | c :: p' => if is_blank c then skip_blanks p' else p
  | [] => []
  end.
(** The two loops over blanks at the ends of a value. *)
Definition trim (v : list Z) : list Z := reverse (skip_blanks (reverse (skip_blanks v))).

(** The result, and [*pnValue] when it is 0. *)
Definition parseContentLength (zValue : list Z) : Z * option Z :=
  match doltliteParseDecimal (Some (trim zValue)) MAX_REQUEST_BYTES with
  | DECIMAL_RANGE => (-2, None)
  | DECIMAL_INVALID => (-1, None)
  | DECIMAL_OK n => (0, Some n)
  end.

Record header_state : Type := Headers {
  contentLength : Z;
  contentRc : Z;
  seenContentLength : bool;
  seenAuthorization : bool;
  zAuth : list Z
}.

(** [len >= nMax ? nMax - 1 : len] characters of [s] *)
Definition clip (s : list Z) (nMax : Z) : list Z := take (Z.to_nat (nMax - 1)) s.

(** One header; [None] is the result -1. *)
Definition header_line (name value : list Z) (nAuthMax : option Z) (h : header_state) : option header_state :=
  if headerNameEquals name (str "Content-Length") then
    if seenContentLength h then
      Some (Headers (contentLength h) (if contentRc h =? 0 then -1 else contentRc h) true (seenAuthorization h) (zAuth h))
    else
      let (rc, n) := parseContentLength value in
      Some (Headers (default (contentLength h) n) (if negb (rc =? 0) then rc else contentRc h) true (seenAuthorization h) (zAuth h))
  else if headerNameEquals name (str "Transfer-Encoding") then
    Some (Headers (contentLength h) (if contentRc h =? 0 then -1 else contentRc h) (seenContentLength h) (seenAuthorization h) (zAuth h))
  else match nAuthMax with
  | Some nAuthMax =>
      if headerNameEquals name (str "Authorization") then
        if seenAuthorization h then None
        else Some (Headers (contentLength h) (contentRc h) (seenContentLength h) true (clip (trim value) nAuthMax))
      else Some h
  | None => Some h
  end.

Definition CRLF : list Z := [CR; LF].

(** The [while] loop; the outer [None] is that the fuel ran out. *)
Fixpoint header_loop (fuel : nat) (p : list Z) (nAuthMax : option Z) (h : header_state) : option (option header_state) :=
  match fuel with
  | O => None
  | S fuel =>
      if strneq p CRLF 2 then Some (Some h) else
      match strstr p CRLF with
      | None => Some None
      | Some pEnd =>
          let line := span p pEnd in
          match strchr line COLON with
          | None => Some None
          | Some pColon =>
              let name := span line pColon in
              if bool_decide (name = []) || existsb is_blank name then Some None else
              match header_line name (pColon +p 1) nAuthMax h with
              | None => Some None
              | Some h => header_loop fuel (pEnd +p 2) nAuthMax h
              end
          end
      end
  end.

Record request : Type := Request { r_method : list Z; r_path : list Z; r_headers : header_state }.
(** [*pContentLength] *)
Definition request_length (r : request) : Z :=
  if contentRc (r_headers r) =? 0 then contentLength (r_headers r) else 0.

(** [nAuthMax] is [None] when [zAuth] is NULL; the inner [None] is the result -1. *)
Definition parseRequestHeaders (zPrefix : list Z) (nHeader nMethodMax nPathMax : Z) (nAuthMax : option Z) : option (option request) :=
  if (nHeader <=? 0) || (zlen zPrefix <? nHeader) || (MAX_HEADER_SIZE <=? nHeader) then Some None else
  let aBuf := cstr (take (Z.to_nat nHeader) zPrefix) in
  match strchr aBuf SPACE with
  | None => Some None
  | Some pSpace =>
      let method := clip (span aBuf pSpace) nMethodMax in
      let p := pSpace +p 1 in
      match strchr p SPACE with
      | None => Some None
      | Some pSpace =>
          let path_ := clip (span p pSpace) nPathMax in
          match strstr aBuf CRLF with
          | None => Some None
          | Some p =>
              let? h := header_loop (S (length p)) (p +p 2) nAuthMax (Headers 0 0 false false []) in
              Some (Request method path_ <$> h)
          end
      end
  end.

(** * The path *)
Definition not_slash (c : Z) : bool := negb (c =? SLASH).
Fixpoint skip_segment (p : list Z) : list Z :=
  match p with
  | c :: p' => if not_slash c then skip_segment p' else p
  | [] => []
  end.

(** The name of the database and the endpoint. *)
Definition parsePath (zPath : list Z) (nDbNameMax nEndpointMax : Z) : option (list Z * list Z) :=
  match zPath with
  | c :: dbStart =>
      if not_slash c then None else
      let p := skip_segment dbStart in
      let db := span dbStart p in
      if (zlen db <=? 0) || (nDbNameMax <=? zlen db) then None else
      match p with
      | _ :: epStart => if (zlen epStart <=? 0) || (nEndpointMax <=? zlen epStart) then None else Some (db, epStart)
      | [] => None
      end
  | [] => None
  end.

Definition is_safe_char (c : Z) : bool :=
  ((97 <=? c) && (c <=? 122)) || ((65 <=? c) && (c <=? 90)) || ((48 <=? c) && (c <=? 57)) || (c =? 95) || (c =? 45) || (c =? DOT).
Definition isSafeDbName (zDbName : list Z) : bool :=
  negb (bool_decide (head zDbName = Some DOT)) && forallb is_safe_char zDbName.

(** * The end of the header block *)
Fixpoint header_end (aBuf : list Z) (i : Z) : Z :=
  if strneq aBuf (CRLF ++ CRLF) 4 then i + 4
  else match aBuf with
  | [] => 0
  | _ :: aBuf => header_end aBuf (i + 1)
  end.
Definition pendingHeaderEnd (aBuf : list Z) : Z := header_end aBuf 0.

(** * The status of a request *)
(** What the options of a server say about tokens. *)
Record server_auth : Type := ServerAuth { authKeysDir : option (list Z); audience : option (list Z) }.

(** [now] is what [time(NULL)] returns; the status and the content length. *)
Definition requestHeaderStatus (l : locals) (srv : server_auth) (zPrefix : list Z) (nHeader now : Z) : M (Z * Z) :=
  let* r := lift (parseRequestHeaders zPrefix nHeader 16 512 (Some 1024)) in
  match r with
  | None => retM (400, 0)
  | Some r =>
      let* allowed :=
        match authKeysDir srv with
        | None => retM true
        | Some _ =>
            let* kid := doltliteCredsVerifyBearer l (Some (zAuth (r_headers r))) (audience srv) (authKeysDir srv) now in
            let* _ := sqlite3_free kid in
            retM (bool_decide (is_Some kid))
        end in
      if negb allowed then retM (401, request_length r) else
      let rc := contentRc (r_headers r) in
      retM (if rc =? -2 then 413 else if rc =? 0 then 200 else 400, request_length r)
  end.

(** * What a request asks for *)
Inductive endpoint : Type :=
| GetRoot | GetChunk (zHexHash : list Z) | GetRefs
| HasChunks | GetChunks | PostChunks | Commit
| PutRefs | PutRefsIf
| NoEndpoint | NoMethod.

Definition dispatch (zMethod zEndpoint : list Z) : endpoint :=
  if streq zMethod (str "GET") then
    if streq zEndpoint (str "root") then GetRoot
    else if strneq zEndpoint (str "chunk/") 6 then GetChunk (zEndpoint +p 6)
    else if streq zEndpoint (str "refs") then GetRefs
    else NoEndpoint
  else if streq zMethod (str "POST") then
    if streq zEndpoint (str "has-chunks") then HasChunks
    else if streq zEndpoint (str "get-chunks") then GetChunks
    else if streq zEndpoint (str "chunks") then PostChunks
    else if streq zEndpoint (str "commit") then Commit
    else NoEndpoint
  else if streq zMethod (str "PUT") then
    if streq zEndpoint (str "refs") then PutRefs
    else if streq zEndpoint (str "refs-if") then PutRefsIf
    else NoEndpoint
  else NoMethod.

(** [isReadOnlyEndpoint] *)
Definition read_only (zMethod zEndpoint : list Z) : bool :=
  let isHasChunksEndpoint := streq zMethod (str "POST") && streq zEndpoint (str "has-chunks") in
  let isGetChunksEndpoint := streq zMethod (str "POST") && streq zEndpoint (str "get-chunks") in
  streq zMethod (str "GET") || isHasChunksEndpoint || isGetChunksEndpoint.

(** [zDbPath], a buffer of 1024 bytes. *)
Definition database_path (zDir zDbName : list Z) : list Z := clip (zDir ++ SLASH :: zDbName) 1024.

(** The status of an error response, or the database and the endpoint. *)
Inductive target : Type :=
| Answer (status : Z)
| Serve (zDbPath zMethod zEndpoint : list Z).

(** [handleRequest] up to the database; the buffers have their sizes there. *)
Definition request_target (zDir zPrefix : list Z) (nHeader nBody requestStatus : Z) : option target :=
  if negb (requestStatus =? 200) then
    Some (Answer (if requestStatus =? 401 then 401 else if requestStatus =? 413 then 413 else 400))
  else
    let? rc := parseRequestHeaders zPrefix nHeader 16 512 None in
    match rc with
    | None => Some (Answer 400)
    | Some r =>
        if negb (contentRc (r_headers r) =? 0) || negb (request_length r =? nBody) then Some (Answer 400) else
        match parsePath (r_path r) 256 256 with
        | None => Some (Answer 404)
        | Some (zDbName, zEndpoint) =>
            if negb (isSafeDbName zDbName) then Some (Answer 404)
            else Some (Serve (database_path zDir zDbName) (r_method r) zEndpoint)
        end
    end.
