(* ===== verification/HttpSpec.v ===== *)
(** What the request code of [Http.v] does: it terminates, the two readings of
    a header block agree, a printed request is read back, names of databases
    stay in their directory, and a request is let through only with a token. *)
From S2P Require Import Prelude CInt Ge Ed25519 Ed25519Spec CString World Radix Json Creds CredsFile Bearer CredsConfig CredsSpec CredsReplace CredsFileSpec CredsRead BearerSpec CredsSave CredsConfigFile Http.
#[local] Opaque public_of secret_of digest224.

(** * Strings *)
Lemma strstr_Some s pat q : strstr s pat = Some q -> exists a, s = a ++ q /\ take (length pat) q = pat.
Proof.
  induction s as [|c s IH]; cbn [strstr].
  - unfold strneq. destruct (bool_decide_reflect (take (length pat) [] = take (length pat) pat)) as [E|_]; [|done]. intros [= <-]. exists [].
    split; [done|]. by rewrite E, firstn_all.
  - unfold strneq at 1. destruct (bool_decide_reflect (take (length pat) (c :: s) = take (length pat) pat)) as [E|_].
    + intros [= <-]. exists []. split; [done|]. by rewrite E, firstn_all.
    + intros (a & -> & E)%IH. by exists (c :: a).
Qed.

Lemma strstr_crlf_length p q : strstr p CRLF = Some q -> (2 <= length q <= length p)%nat.
Proof.
  intros (a & -> & E)%strstr_Some. apply (f_equal length) in E. rewrite length_take in E. change (length CRLF) with 2%nat in E. rewrite length_app. lia.
Qed.

(** The first line end of a line that has none. *)
Lemma strstr_crlf a q : (CR ∉ a) -> strstr (a ++ CRLF ++ q) CRLF = Some (CRLF ++ q).
Proof.
  induction a as [|c a IH]; intros Ha; [done|]. apply not_elem_of_cons in Ha as [Hc Ha]. cbn [app strstr]. unfold strneq.
  rewrite bool_decide_eq_false_2; [by apply IH|]. cbn. congruence.
Qed.

(** * Termination *)
Lemma header_loop_total fuel p nAuthMax h : (length p < fuel)%nat -> is_Some (header_loop fuel p nAuthMax h).
Proof.
  revert p h. induction fuel as [|fuel IH]; intros p h Hf; [lia|]. cbn [header_loop]. destruct (strneq p CRLF 2); [done|].
  destruct (strstr p CRLF) as [pEnd|] eqn:E; [|done]. destruct (strchr (span p pEnd) COLON) as [pColon|]; [|done].
  destruct (bool_decide _ || _); [done|]. destruct (header_line _ _ _ _) as [h'|]; [|done]. apply IH.
  apply strstr_crlf_length in E. pose proof (length_ptr_add pEnd 2 ltac:(lia)). lia.
Qed.

Lemma parse_headers_total zPrefix nHeader m p a : is_Some (parseRequestHeaders zPrefix nHeader m p a).
Proof.
  unfold parseRequestHeaders. destruct (_ || _); [done|]. destruct (strchr _ SPACE); [|done]. destruct (strchr _ SPACE); [|done].
  destruct (strstr _ CRLF) as [q|] eqn:E; [|done]. apply strstr_crlf_length in E.
  destruct (header_loop_total (S (length q)) (q +p 2) a (Headers 0 0 false false [])) as [h ->]; [pose proof (length_ptr_add q 2 ltac:(lia)); lia|done].
Qed.

(** * The two readings *)
(** The parts that do not depend on the token. *)
Definition same_content (h h' : header_state) : Prop :=
  contentLength h = contentLength h' /\ contentRc h = contentRc h' /\ seenContentLength h = seenContentLength h'.

Lemma header_line_same name value n h h' h1 : same_content h h' -> header_line name value (Some n) h = Some h1 ->
  exists h1', header_line name value None h' = Some h1' /\ same_content h1 h1'.
Proof.
  intros (E1 & E2 & E3). unfold header_line. rewrite E3. destruct (headerNameEquals name (str "Content-Length")).
  - destruct (seenContentLength h').
    + intros [= <-]. eexists. split; [done|]. rewrite E1, E2. by split_and!.
    + destruct (parseContentLength value) as [rc len]. intros [= <-]. eexists. split; [done|]. rewrite E1, E2. by split_and!.
  - destruct (headerNameEquals name (str "Transfer-Encoding")).
    + intros [= <-]. eexists. split; [done|]. cbn. rewrite E1, E2. by split_and!.
    + destruct (headerNameEquals name (str "Authorization")).
      * destruct (seenAuthorization h); [done|]. intros [= <-]. exists h'. by split_and!.
      * intros [= <-]. exists h'. by split_and!.
Qed.

Lemma header_loop_same fuel p n h h' h1 : same_content h h' -> header_loop fuel p (Some n) h = Some (Some h1) ->
  exists h1', header_loop fuel p None h' = Some (Some h1') /\ same_content h1 h1'.
Proof.
  revert p h h'. induction fuel as [|fuel IH]; intros p h h' Hs; [done|]. cbn [header_loop]. destruct (strneq p CRLF 2).
  { intros [= <-]. by exists h'. }
  destruct (strstr p CRLF) as [pEnd|]; [|done]. destruct (strchr (span p pEnd) COLON) as [pColon|]; [|done].
  destruct (bool_decide _ || _); [done|]. destruct (header_line _ _ (Some n) h) as [h2|] eqn:E; [|done].
  destruct (header_line_same _ _ _ _ _ _ Hs E) as (h2' & -> & Hs2). by apply IH.
Qed.

(** The reading of the worker agrees with that of the accepting thread. *)
Lemma parse_headers_same zPrefix nHeader m p n r : parseRequestHeaders zPrefix nHeader m p (Some n) = Some (Some r) ->
  exists r', parseRequestHeaders zPrefix nHeader m p None = Some (Some r') /\ r_method r' = r_method r /\ r_path r' = r_path r /\
    same_content (r_headers r) (r_headers r').
Proof.
  unfold parseRequestHeaders. destruct (_ || _); [done|]. destruct (strchr _ SPACE) as [s|]; [|done].
  destruct (strchr (s +p 1) SPACE) as [s'|]; [|done]. destruct (strstr _ CRLF) as [q|]; [|done].
  destruct (header_loop _ _ (Some n) _) as [[h|]|] eqn:E; [|done|done]. intros [= <-].
  destruct (header_loop_same _ _ _ _ (Headers 0 0 false false []) _ ltac:(by split_and!) E) as (h' & -> & Hs). by eexists.
Qed.

(** Only the header block is read. *)
Lemma parse_headers_take zPrefix nHeader m p a :
  parseRequestHeaders (take (Z.to_nat nHeader) zPrefix) nHeader m p a = parseRequestHeaders zPrefix nHeader m p a.
Proof.
  unfold parseRequestHeaders. rewrite take_take, Nat.min_id, length_take.
  assert ((Z.of_nat (Z.to_nat nHeader `min` length zPrefix) <? nHeader) = (zlen zPrefix <? nHeader) \/ nHeader <= 0) as [->|H].
  { destruct (Z.ltb_spec (Z.of_nat (Z.to_nat nHeader `min` length zPrefix)) nHeader), (Z.ltb_spec (zlen zPrefix) nHeader); auto; lia. }
  - done.
  - by rewrite (proj2 (Z.leb_le nHeader 0) H).
Qed.

(** * Lengths *)
Definition length_ok (h : header_state) : Prop := 0 <= contentLength h <= MAX_REQUEST_BYTES.

Lemma content_length_ok value rc n : parseContentLength value = (rc, Some n) -> 0 <= n <= MAX_REQUEST_BYTES.
Proof.
  unfold parseContentLength. destruct (trim value) as [|c z] eqn:Et; [done|].
  pose proof (parse_decimal_loop_spec MAX_REQUEST_BYTES [] (c :: z) ltac:(unfold MAX_REQUEST_BYTES, MAX_CHUNK_BYTES; lia) ltac:(constructor) ltac:(by vm_compute)) as H.
  change (dec_val []) with 0 in H. cbn [app] in H. unfold doltliteParseDecimal. destruct (parse_decimal_loop 0 _ (c :: z)) as [v| |]; [|done|done].
  intros [= <- <-]. destruct H as (Hd & -> & Hle). split; [by apply dec_val_nonneg|done].
Qed.

Lemma header_line_ok name value a h h' : length_ok h -> header_line name value a h = Some h' -> length_ok h'.
Proof.
  intros Hok. unfold header_line. destruct (headerNameEquals name _).
  - destruct (seenContentLength h); [by intros [= <-]|]. destruct (parseContentLength value) as [rc [n|]] eqn:E; intros [= <-]; [|done].
    cbn. unfold length_ok. cbn. by eapply content_length_ok.
  - destruct (headerNameEquals name _); [by intros [= <-]|]. destruct a; [|by intros [= <-]]. destruct (headerNameEquals name _); [|by intros [= <-]].
    destruct (seenAuthorization h); [done|]. by intros [= <-].
Qed.

Lemma header_loop_ok fuel p a h h' : length_ok h -> header_loop fuel p a h = Some (Some h') -> length_ok h'.
Proof.
  revert p h. induction fuel as [|fuel IH]; intros p h Hok; [done|]. cbn [header_loop]. destruct (strneq p CRLF 2); [by intros [= <-]|].
  destruct (strstr p CRLF) as [pEnd|]; [|done]. destruct (strchr (span p pEnd) COLON) as [pColon|]; [|done].
  destruct (bool_decide _ || _); [done|]. destruct (header_line _ _ a h) as [h2|] eqn:E; [|done]. apply IH. by eapply header_line_ok.
Qed.

Lemma parse_headers_length zPrefix nHeader m p a r : parseRequestHeaders zPrefix nHeader m p a = Some (Some r) ->
  length_ok (r_headers r) /\ 0 <= request_length r <= MAX_REQUEST_BYTES.
Proof.
  unfold parseRequestHeaders. destruct (_ || _); [done|]. destruct (strchr _ SPACE) as [s|]; [|done].
  destruct (strchr (s +p 1) SPACE) as [s'|]; [|done]. destruct (strstr _ CRLF) as [q|]; [|done].
  destruct (header_loop _ _ a _) as [[h|]|] eqn:E; [|done|done]. intros [= <-].
  assert (length_ok h) as Hok by (eapply header_loop_ok; [|exact E]; unfold length_ok, MAX_REQUEST_BYTES, MAX_CHUNK_BYTES; cbn; lia).
  split; [done|]. unfold request_length. cbn [r_headers]. unfold length_ok, MAX_REQUEST_BYTES, MAX_CHUNK_BYTES in *. destruct (_ =? 0); lia.
Qed.

(** * The path *)
Lemma skip_segment_spec p : exists a, p = a ++ skip_segment p /\ SLASH ∉ a /\ (skip_segment p = [] \/ exists q, skip_segment p = SLASH :: q).
Proof.
  induction p as [|c p (a & E & Ha & Hq)]; cbn [skip_segment]; [exists []; split_and!; [done|by apply not_elem_of_nil|by left]|].
  unfold not_slash. destruct (Z.eqb_spec c SLASH) as [->|Hc]; cbn [negb]; [exists []; split_and!; [done|by apply not_elem_of_nil|right; by exists p]|].
  exists (c :: a). split_and!; [by rewrite E at 1|by apply not_elem_of_cons|done].
Qed.

Lemma parsePath_spec zPath m e db ep : parsePath zPath m e = Some (db, ep) ->
  zPath = SLASH :: db ++ SLASH :: ep /\ SLASH ∉ db /\ 0 < zlen db < m /\ 0 < zlen ep < e.
Proof.
  unfold parsePath. destruct zPath as [|c p]; [done|]. unfold not_slash at 1. destruct (Z.eqb_spec c SLASH) as [->|]; cbn [negb]; [|done].
  destruct (skip_segment_spec p) as (a & E & Ha & Hq). assert (span p (skip_segment p) = a) as -> by (rewrite E at 1; apply span_app).
  destruct ((zlen a <=? 0) || (m <=? zlen a)) eqn:El; [done|]. destruct Hq as [->|(q & Eq)]; [done|]. rewrite Eq.
  destruct ((zlen q <=? 0) || (e <=? zlen q)) eqn:Eq'; [done|]. intros [= <- <-]. rewrite E, Eq. split_and!; [done|done|lia..].
Qed.

(** A name that is one entry of a directory, not hidden. *)
Definition entry_name (name : list Z) : Prop :=
  name <> [] /\ SLASH ∉ name /\ 0 ∉ name /\ head name <> Some DOT /\ zlen name < 256.

Lemma safe_char_spec c : is_safe_char c = true -> c <> 0 /\ c <> SLASH.
Proof. unfold is_safe_char. intros H. split; intros ->; discriminate H. Qed.

Lemma safe_name name : isSafeDbName name = true -> 0 < zlen name < 256 -> entry_name name.
Proof.
  unfold isSafeDbName. rewrite andb_true_iff, negb_true_iff, bool_decide_eq_false, forallb_forall. intros [Hd Hs] Hl.
  split_and!; [intros ->; cbn in Hl; lia|intros H%list_elem_of_In%Hs%safe_char_spec; tauto|intros H%list_elem_of_In%Hs%safe_char_spec; tauto|done|lia].
Qed.

Lemma request_target_total zDir zPrefix nHeader nBody st : is_Some (request_target zDir zPrefix nHeader nBody st).
Proof.
  unfold request_target. destruct (negb _); [done|]. destruct (parse_headers_total zPrefix nHeader 16 512 None) as [rc ->]. cbn [mbind option_bind].
  destruct rc as [r|]; [|done]. destruct (_ || _); [done|]. destruct (parsePath _ _ _) as [[db ep]|]; [|done]. by destruct (negb _).
Qed.

Lemma request_target_serve zDir zPrefix nHeader nBody st path_ m ep : request_target zDir zPrefix nHeader nBody st = Some (Serve path_ m ep) ->
  st = 200 /\ exists r name, parseRequestHeaders zPrefix nHeader 16 512 None = Some (Some r) /\ contentRc (r_headers r) = 0 /\ request_length r = nBody /\
    m = r_method r /\ r_path r = SLASH :: name ++ SLASH :: ep /\ entry_name name /\ path_ = database_path zDir name.
Proof.
  unfold request_target. destruct (Z.eqb_spec st 200) as [->|]; cbn [negb]; [|done]. destruct (parseRequestHeaders _ _ _ _ _) as [[r|]|]; [|done|done].
  cbn [mbind option_bind]. destruct (Z.eqb_spec (contentRc (r_headers r)) 0) as [Hc|]; [|done].
  destruct (Z.eqb_spec (request_length r) nBody) as [Hn|]; [|done]. cbn [negb orb].
  destruct (parsePath _ _ _) as [[name ep']|] eqn:E; [|done]. destruct (isSafeDbName name) eqn:Es; [|done]. cbn [negb]. intros [= <- <- <-].
  apply parsePath_spec in E as (Ep & _ & Hl & _). split; [done|]. exists r, name. split_and!; [done..|by apply safe_name|done].
Qed.

(** * The end of the header block *)
Lemma header_end_spec aBuf i : let n := header_end aBuf i in
  (exists a q, aBuf = a ++ CRLF ++ CRLF ++ q /\ n = i + zlen a + 4 /\ forall a' q', aBuf = a' ++ CRLF ++ CRLF ++ q' -> zlen a <= zlen a') \/
  (n = 0 /\ forall a q, aBuf <> a ++ CRLF ++ CRLF ++ q).
Proof.
  cbn zeta. revert i. induction aBuf as [|c b IH]; intros i; cbn [header_end].
  - right. split; [done|]. intros [|? a] q; done.
  - destruct (strneq (c :: b) (CRLF ++ CRLF) 4) eqn:E.
    + left. apply strneq_true in E; [|done]. eexists [], _. rewrite <- app_assoc in E. split_and!; [exact E|cbn; lia|intros; cbn [length]; lia].
    + assert (forall q, c :: b <> CRLF ++ CRLF ++ q) as Hn.
      { intros q Eq. rewrite Eq in E. by rewrite (app_assoc CRLF), strneq_app in E. }
      destruct (IH (i + 1)) as [(a & q & -> & -> & Hf)|(-> & Hf)]; [left|right].
      * exists (c :: a), q. split_and!; [done|cbn [length]; lia|]. intros [|c' a'] q' E'; [by apply Hn in E'|]. injection E' as _ E'. apply Hf in E'. cbn [length]. lia.
      * split; [done|]. intros [|c' a] q E'; [by apply Hn in E'|]. injection E' as _ E'. by apply Hf in E'.
Qed.

(** * Printed requests are read back *)
(** A header line and a request, as a client writes them. *)
Definition print_header (h : list Z * list Z) : list Z := h.1 ++ COLON :: SPACE :: h.2 ++ CRLF.
Definition print_request (method path_ : list Z) (headers : list (list Z * list Z)) : list Z :=
  method ++ SPACE :: path_ ++ str " HTTP/1.1" ++ CRLF ++ mjoin (print_header <$> headers) ++ CRLF.

(** Without the characters that separate the parts of a request. *)
Definition token (s : list Z) : Prop := str_wf s /\ CR ∉ s /\ SPACE ∉ s.
Definition field_ok (h : list Z * list Z) : Prop :=
  h.1 <> [] /\ Forall (fun c => is_blank c = false) h.1 /\ COLON ∉ h.1 /\ CR ∉ h.1 /\ CR ∉ h.2 /\ str_wf h.1 /\ str_wf h.2.

Fixpoint read_headers (hs : list (list Z * list Z)) (a : option Z) (h : header_state) : option header_state :=
  match hs with
  | [] => Some h
  | f :: hs => let? h := header_line f.1 (SPACE :: f.2) a h in read_headers hs a h
  end.

Lemma no_blanks s : Forall (fun c => is_blank c = false) s -> existsb is_blank s = false.
Proof. induction 1 as [|c s Hc _ IH]; [done|]. cbn. by rewrite Hc, IH. Qed.

Lemma header_loop_field fuel f q a h : field_ok f ->
  header_loop (S fuel) (print_header f ++ q) a h =
    match header_line f.1 (SPACE :: f.2) a h with None => Some None | Some h => header_loop fuel q a h end.
Proof.
  destruct f as [name value]. intros (Hne & Hb & Hc & Hr & Hv & _). cbn [fst snd] in *. cbn [header_loop].
  assert (print_header (name, value) ++ q = (name ++ COLON :: SPACE :: value) ++ CRLF ++ q) as ->.
  { unfold print_header. cbn [fst snd]. by rewrite <- !app_assoc, <- !app_comm_cons, <- !app_assoc. }
  assert (CR ∉ name ++ COLON :: SPACE :: value) as Hcr by (rewrite elem_of_app, !elem_of_cons; intuition discriminate).
  replace (strneq _ CRLF 2) with false.
  2: { symmetry. apply bool_decide_eq_false_2. destruct name as [|c name]; [done|]. apply not_elem_of_cons in Hr as [Hr _]. cbn. congruence. }
  rewrite strstr_crlf by done. rewrite span_app, strchr_found by done. rewrite span_app.
  rewrite bool_decide_eq_false_2 by done. rewrite no_blanks by done. cbn [orb]. reflexivity.
Qed.

Lemma header_loop_print fuel hs a h : Forall field_ok hs -> (length hs < fuel)%nat ->
  header_loop fuel (mjoin (print_header <$> hs) ++ CRLF) a h = Some (read_headers hs a h).
Proof.
  revert fuel h. induction hs as [|f hs IH]; intros [|fuel] h Hf Hl; try (cbn in Hl; lia); [done|].
  apply Forall_cons in Hf as [Hf Hfs]. cbn [fmap list_fmap mjoin list_join length] in *. rewrite <- app_assoc.
  rewrite header_loop_field by done. cbn [read_headers mbind option_bind]. destruct (header_line _ _ _ _) as [h'|]; cbn [mbind option_bind]; [|done]. apply IH; [done|lia].
Qed.

Lemma length_headers hs : (length hs <= length (mjoin (print_header <$> hs)))%nat.
Proof.
  induction hs as [|f hs IH]; [done|]. change (mjoin (print_header <$> f :: hs)) with (print_header f ++ mjoin (print_header <$> hs)). rewrite length_app. unfold print_header at 1. rewrite length_app. cbn [length]. lia.
Qed.

Lemma print_request_wf m p hs : token m -> token p -> Forall field_ok hs -> str_wf (print_request m p hs).
Proof.
  intros [Hm _] [Hp _] Hf. assert (str_wf (mjoin (print_header <$> hs))) as Hh.
  { induction Hf as [|f hs (_ & _ & _ & _ & _ & H1 & H2) _ IH]; [by apply str_wfb_spec|]. cbn [fmap list_fmap mjoin list_join]. apply str_wf_app. split; [|done].
    unfold print_header. apply str_wf_app. split; [done|]. apply (str_wf_app [COLON; SPACE]). split; [by apply str_wfb_spec|]. apply str_wf_app. split; [done|by apply str_wfb_spec]. }
  unfold print_request. apply str_wf_app. split; [done|]. apply (str_wf_app [SPACE]). split; [by apply str_wfb_spec|].
  do 3 (apply str_wf_app; split; [try done; by apply str_wfb_spec|]). apply str_wf_app. split; [done|by apply str_wfb_spec].
Qed.

Lemma first_line m p : (CR ∉ m) -> (CR ∉ p) -> CR ∉ m ++ SPACE :: p ++ str " HTTP/1.1".
Proof. intros Hm Hp. rewrite elem_of_app, elem_of_cons, elem_of_app. intros [?|[[=]|[?|H]]]; [done..|]. revert H. by apply (bool_decide_eq_true_1 _). Qed.

Lemma parse_print m p hs nm np a rest : token m -> token p -> Forall field_ok hs -> zlen (print_request m p hs) < MAX_HEADER_SIZE ->
  parseRequestHeaders (print_request m p hs ++ rest) (zlen (print_request m p hs)) nm np a =
    Some (Request (clip m nm) (clip p np) <$> read_headers hs a (Headers 0 0 false false [])).
Proof.
  intros Hm Hp Hf Hl. pose proof (print_request_wf m p hs Hm Hp Hf) as Hw. unfold parseRequestHeaders.
  assert (0 < zlen (print_request m p hs)) by (unfold print_request; rewrite length_app; cbn [length]; lia).
  destruct (_ || _) eqn:E; [rewrite length_app, !orb_true_iff, Z.leb_le, Z.ltb_lt, Z.leb_le in E; lia|]. clear E.
  cbv zeta. rewrite Nat2Z.id, take_app_length, cstr_str by done. destruct Hm as (_ & Hmr & Hms), Hp as (_ & Hpr & Hps).
  set (q := SPACE :: str "HTTP/1.1" ++ CRLF ++ mjoin (print_header <$> hs) ++ CRLF).
  assert (print_request m p hs = m ++ SPACE :: p ++ q) as E by done.
  assert (print_request m p hs = (m ++ SPACE :: p ++ str " HTTP/1.1") ++ CRLF ++ mjoin (print_header <$> hs) ++ CRLF) as E'.
  { unfold print_request. by rewrite <- !app_assoc, <- !app_comm_cons, <- !app_assoc. }
  rewrite E', strstr_crlf by by apply first_line. rewrite <- E', E, strchr_found, span_app by done. unfold ptr_add.
  change (drop (Z.to_nat 1) (SPACE :: p ++ q)) with (p ++ q). assert (strchr (p ++ q) SPACE = Some q) as -> by by apply strchr_found. rewrite span_app.
  change (drop (Z.to_nat 2) (CRLF ++ ?x)) with x. rewrite header_loop_print; [done|done|]. pose proof (length_headers hs). rewrite !length_app. lia.
Qed.

(** Without blanks at the ends. *)
Definition trimmed (v : list Z) : Prop := forall c, head v = Some c \/ last v = Some c -> is_blank c = false.

Lemma skip_trimmed v : (forall c, head v = Some c -> is_blank c = false) -> skip_blanks v = v.
Proof. destruct v as [|c v]; [done|]. intros H. cbn. by rewrite (H c). Qed.

Lemma trim_field v : trimmed v -> trim (SPACE :: v) = v.
Proof.
  intros H. unfold trim. cbn [skip_blanks]. change (is_blank SPACE) with true. cbv iota. rewrite (skip_trimmed v), skip_trimmed by (intros c Hc; apply H; rewrite ?head_reverse in Hc; auto).
  apply reverse_involutive.
Qed.

Lemma digits_trimmed z : Forall is_digit z -> trimmed z.
Proof.
  intros Hz c Hc. assert (is_digit c) as Hd%Is_true_true%is_digit_range.
  { rewrite Forall_forall in Hz. apply Hz. destruct Hc as [Hc|Hc]; [by apply head_Some_elem_of|by apply last_Some_elem_of]. }
  unfold is_blank. change SPACE with 32. change TAB with 9. lia.
Qed.

Lemma content_length_print n : 0 <= n <= MAX_REQUEST_BYTES -> parseContentLength (SPACE :: print_ld n) = (0, Some n).
Proof.
  intros Hn. destruct (print_ld_spec n) as (Hd & Hv & Hne); [unfold MAX_REQUEST_BYTES, MAX_CHUNK_BYTES in Hn; lia|]. unfold parseContentLength.
  rewrite trim_field by by apply digits_trimmed. rewrite (parse_decimal_digits (print_ld n)); [by rewrite Hv|done|by vm_compute|done|lia].
Qed.

(** The end of the header block of a printed request is found. *)
Lemma header_end_skip c b i : take 4 (c :: b) <> CRLF ++ CRLF -> header_end (c :: b) i = header_end b (i + 1).
Proof. intros H. cbn [header_end]. unfold strneq. by rewrite bool_decide_eq_false_2. Qed.

Lemma header_end_line a q i : (CR ∉ a) -> header_end (a ++ q) i = header_end q (i + zlen a).
Proof.
  revert i. induction a as [|c a IH]; intros i Ha; [cbn; f_equal; lia|]. apply not_elem_of_cons in Ha as [Hc Ha]. cbn [app].
  rewrite header_end_skip by (cbn; congruence). rewrite IH by done. cbn [length]. f_equal. lia.
Qed.

Lemma header_end_next c q i : c <> CR -> header_end (CRLF ++ c :: q) i = header_end (c :: q) (i + 2).
Proof. intros Hc. unfold CRLF. cbn [app]. rewrite header_end_skip by (intros E; by inversion E). rewrite header_end_skip by (intros E; by inversion E). f_equal. lia. Qed.

Lemma header_end_found q i : header_end (CRLF ++ CRLF ++ q) i = i + 4.
Proof. change (header_end (CRLF ++ CRLF ++ q) i) with (if strneq ((CRLF ++ CRLF) ++ q) (CRLF ++ CRLF) 4 then i + 4 else header_end (LF :: CRLF ++ q) (i + 1)). by rewrite strneq_app. Qed.

Lemma header_end_fields hs q i : Forall field_ok hs -> header_end (CRLF ++ mjoin (print_header <$> hs) ++ CRLF ++ q) i = i + zlen (mjoin (print_header <$> hs)) + 4.
Proof.
  intros Hf. revert i. induction Hf as [|f hs (Hne & _ & _ & Hr & Hv & _) _ IH]; intros i; [cbn [fmap list_fmap mjoin list_join app length]; rewrite header_end_found; lia|].
  change (mjoin (print_header <$> f :: hs)) with (print_header f ++ mjoin (print_header <$> hs)). destruct f as [[|c name] value]; [done|]. cbn [fst snd] in *.
  apply not_elem_of_cons in Hr as [Hc Hr]. rewrite length_app.
  assert (print_header (c :: name, value) = (c :: name ++ COLON :: SPACE :: value) ++ CRLF) as -> by (unfold print_header; cbn [fst snd]; by rewrite <- !app_comm_cons, <- app_assoc).
  rewrite <- !app_assoc. set (q' := mjoin _ ++ _). change ((c :: name ++ COLON :: SPACE :: value) ++ CRLF ++ q') with (c :: (name ++ COLON :: SPACE :: value) ++ CRLF ++ q').
  rewrite header_end_next by done. rewrite (app_comm_cons _ _ c), header_end_line.
  2: { rewrite elem_of_cons, elem_of_app, !elem_of_cons. intuition (discriminate || congruence). }
  subst q'. rewrite IH, length_app. change (length CRLF) with 2%nat. lia.
Qed.

Lemma header_end_print m p hs rest : token m -> token p -> Forall field_ok hs ->
  pendingHeaderEnd (print_request m p hs ++ rest) = zlen (print_request m p hs).
Proof.
  intros (_ & Hm & _) (_ & Hp & _) Hf. unfold pendingHeaderEnd.
  assert (print_request m p hs = (m ++ SPACE :: p ++ str " HTTP/1.1") ++ CRLF ++ mjoin (print_header <$> hs) ++ CRLF) as ->.
  { unfold print_request. by rewrite <- !app_assoc, <- !app_comm_cons, <- !app_assoc. }
  rewrite <- !(app_assoc _ _ rest), header_end_line by by apply first_line. rewrite header_end_fields by done. rewrite !length_app. change (length CRLF) with 2%nat. lia.
Qed.

(** * The status of a request *)
Lemma skip_blanks_bytes v : bytes_wf v -> bytes_wf (skip_blanks v).
Proof. induction 1 as [|c v Hc Hv IH]; [constructor|]. cbn. destruct (is_blank c); [done|by constructor]. Qed.

Lemma trim_bytes v : bytes_wf v -> bytes_wf (trim v).
Proof. intros Hv. by apply Forall_reverse, skip_blanks_bytes, Forall_reverse, skip_blanks_bytes. Qed.

(** [zAuth] as a string in its buffer. *)
Definition auth_ok (n : Z) (h : header_state) : Prop := bytes_wf (zAuth h) /\ zlen (zAuth h) <= n - 1.

Lemma header_line_auth name value n h h' : 1 <= n -> bytes_wf value -> auth_ok n h -> header_line name value (Some n) h = Some h' -> auth_ok n h'.
Proof.
  intros Hn Hv Hh. unfold header_line. repeat case_match; intros [= <-]; try exact Hh. split; cbn [zAuth]; unfold clip.
  - by apply Forall_take, trim_bytes.
  - rewrite length_take. lia.
Qed.

Lemma bytes_wf_ptr p off : bytes_wf p -> bytes_wf (p +p off).
Proof. apply Forall_drop. Qed.

Lemma header_loop_auth fuel p n h h' : 1 <= n -> bytes_wf p -> auth_ok n h -> header_loop fuel p (Some n) h = Some (Some h') -> auth_ok n h'.
Proof.
  intros Hn. revert p h. induction fuel as [|fuel IH]; intros p h Hp Hok; [done|]. cbn [header_loop]. destruct (strneq p CRLF 2); [by intros [= <-]|].
  destruct (strstr p CRLF) as [pEnd|] eqn:Ep; [|done]. destruct (strchr (span p pEnd) COLON) as [pColon|] eqn:Ec; [|done].
  destruct (bool_decide _ || _); [done|]. destruct (header_line _ _ _ h) as [h2|] eqn:E; [|done].
  assert (bytes_wf (span p pEnd)) as Hs by by apply Forall_take. apply strstr_Some in Ep as (a & -> & _). apply Forall_app in Hp as [_ Hp].
  apply strchr_Some in Ec as (a' & b & Eb & -> & _). rewrite Eb in Hs. apply Forall_app in Hs as [_ Hs].
  apply IH; [by apply bytes_wf_ptr|]. eapply header_line_auth; [done| |exact Hok|exact E]. by apply bytes_wf_ptr.
Qed.

Lemma parse_headers_auth zPrefix nHeader m p n r : 1 <= n -> bytes_wf zPrefix -> parseRequestHeaders zPrefix nHeader m p (Some n) = Some (Some r) -> auth_ok n (r_headers r).
Proof.
  intros Hn Hw. unfold parseRequestHeaders. destruct (_ || _); [done|]. destruct (strchr _ SPACE) as [s|]; [|done].
  destruct (strchr (s +p 1) SPACE) as [s'|]; [|done]. destruct (strstr _ CRLF) as [q|] eqn:Eq; [|done].
  destruct (header_loop _ _ (Some n) _) as [[h|]|] eqn:E; [|done|done]. intros [= <-]. cbn [r_headers].
  eapply header_loop_auth; [done| | |exact E]; [|split; [constructor|cbn; lia]]. apply bytes_wf_ptr.
  apply strstr_Some in Eq as (a & Eq & _). assert (bytes_wf (a ++ q)) as Ha by (rewrite <- Eq; apply str_wf_bytes, cstr_wf; by apply Forall_take).
  by apply Forall_app in Ha as [_ Ha].
Qed.

(** What [serverInit] establishes: a server with a directory of keys has an
    audience. *)
Definition server_wf (srv : server_auth) : Prop :=
  forall dir, authKeysDir srv = Some dir -> zlen dir < 2 ^ 30 /\ exists aud, audience srv = Some aud /\ aud <> [].

(** The token is valid for a key of the directory, if the server has one. *)
Definition admitted (W : world) (srv : server_auth) (auth : list Z) (now : Z) : Prop :=
  forall dir, authKeysDir srv = Some dir -> exists aud kid, audience srv = Some aud /\ bearer_valid W auth aud dir now kid.

(** The status in terms of the headers: a request with a valid token is
    judged by its length, any other is refused. *)
Definition status_spec (P : Prop) (W : world) (srv : server_auth) (zPrefix : list Z) (nHeader now : Z) (r : Z * Z) : Prop :=
  match parseRequestHeaders zPrefix nHeader 16 512 (Some 1024) with
  | Some (Some req) =>
      (r = (401, request_length req) /\ (P -> ~ admitted W srv (zAuth (r_headers req)) now)) \/
      (r = (if contentRc (r_headers req) =? -2 then 413 else if contentRc (r_headers req) =? 0 then 200 else 400, request_length req) /\
        admitted W srv (zAuth (r_headers req)) now)
  | _ => r = (400, 0)
  end.

Lemma request_status_rd l W P srv zPrefix nHeader now : locals_wf l -> fs_wf W -> server_wf srv -> bytes_wf zPrefix -> is_time now ->
  rd W P 0 (requestHeaderStatus l srv zPrefix nHeader now) 0 nothing (status_spec P W srv zPrefix nHeader now).
Proof.
  intros Hl Hwf Hs Hz Hn. unfold requestHeaderStatus, status_spec. destruct (parse_headers_total zPrefix nHeader 16 512 (Some 1024)) as [r Er]. rewrite Er.
  change (bindM (lift (Some r)) ?k) with (k r). destruct r as [req|]; [|by apply rd_ret]. apply parse_headers_auth in Er as [Ha Hlen]; [|lia|done].
  set (Adm := admitted W srv (zAuth (r_headers req)) now).
  apply (rd_bind W P 0 _ _ nothing (fun ok => if ok : bool then Adm else P -> ~ Adm)).
  - unfold Adm, admitted. destruct (authKeysDir srv) as [dir|] eqn:Ed; [|apply rd_ret; [done|by intros]]. destruct (Hs dir Ed) as (Hd & aud & -> & Hne).
    eapply rd_bind; [apply verify_bearer_rd; first [done|lia]|]. intros kid Hk. cbn beta. apply rd_free, rd_ret; [unfold nothing; lia|].
    destruct kid as [kid|]; cbn [names_key] in Hk; [rewrite bool_decide_eq_true_2 by done|rewrite bool_decide_eq_false_2 by by intros []].
    + intros dir' [= <-]. by exists aud, kid.
    + intros HP H. destruct (H dir eq_refl) as (aud' & kid & [= <-] & Hv). by apply (Hk HP kid).
  - intros [] Hadm; cbn [negb]; apply rd_ret; auto.
Qed.

Lemma status_length P W srv zPrefix nHeader now r : status_spec P W srv zPrefix nHeader now r -> 0 <= r.2 <= MAX_REQUEST_BYTES.
Proof.
  unfold status_spec. destruct (parseRequestHeaders _ _ _ _ _) as [[req|]|] eqn:E.
  - apply parse_headers_length in E as [_ E]. by intros [[-> _]|[-> _]].
  - intros ->. cbn. unfold MAX_REQUEST_BYTES, MAX_CHUNK_BYTES. lia.
  - intros ->. cbn. unfold MAX_REQUEST_BYTES, MAX_CHUNK_BYTES. lia.
Qed.

(** * The headers of a client *)
Definition client_header (n : Z) (auth : list Z) : list (list Z * list Z) := [(str "content-length", print_ld n); (str "Authorization", auth)].

Lemma digits_plain z c : Forall is_digit z -> c ∈ z -> 48 <= c <= 57.
Proof. intros Hz Hc. rewrite Forall_forall in Hz. by apply is_digit_range, Is_true_true, Hz. Qed.

Lemma client_fields n auth : 0 <= n <= MAX_REQUEST_BYTES -> str_wf auth -> (CR ∉ auth) -> Forall field_ok (client_header n auth).
Proof.
  intros Hn Ha Hr. destruct (print_ld_spec n) as (Hd & _ & _); [unfold MAX_REQUEST_BYTES, MAX_CHUNK_BYTES in Hn; lia|].
  assert (forall name value, field_ok (name, []) -> (CR ∉ value) -> str_wf value -> field_ok (name, value)) as Hf by (unfold field_ok; cbn [fst snd]; tauto).
  assert (field_ok (str "content-length", []) /\ field_ok (str "Authorization", [])) as [H1 H2].
  { unfold field_ok. cbn [fst snd]. split; (split_and!; [done|by apply (bool_decide_unpack _)..|by apply str_wfb_spec|by apply str_wfb_spec]). }
  apply Forall_cons. split; [apply Hf; [done|intros H%digits_plain; [lia|done]|]|apply Forall_singleton; by apply Hf].
  eapply Forall_impl; [exact Hd|]. intros c Hc%Is_true_true%is_digit_range. cbn beta. unfold is_char. lia.
Qed.

Lemma client_block_short m p n auth : zlen m < 16 -> zlen p < 512 -> zlen auth < 1024 -> zlen (print_request m p (client_header n auth)) < MAX_HEADER_SIZE.
Proof.
  intros Hm Hp Ha. pose proof (length_print_ld n). unfold print_request, client_header, MAX_HEADER_SIZE.
  cbn [fmap list_fmap mjoin list_join]. unfold print_header. cbn [fst snd].
  repeat (rewrite ?length_app; cbn [length]). change (length (str "content-length")) with 14%nat. change (length (str "Authorization")) with 13%nat.
  change (length (str " HTTP/1.1")) with 9%nat. change (length CRLF) with 2%nat. lia.
Qed.

Lemma client_headers n auth : 0 <= n <= MAX_REQUEST_BYTES -> trimmed auth ->
  read_headers (client_header n auth) (Some 1024) (Headers 0 0 false false []) = Some (Headers n 0 true true (clip auth 1024)).
Proof.
  intros Hn Ht. unfold client_header. cbn [read_headers fst snd]. unfold header_line at 1.
  change (headerNameEquals (str "content-length") (str "Content-Length")) with true. cbn [seenContentLength]. rewrite content_length_print by done.
  cbn [mbind option_bind]. unfold header_line. change (headerNameEquals (str "Authorization") (str "Content-Length")) with false.
  change (headerNameEquals (str "Authorization") (str "Transfer-Encoding")) with false. change (headerNameEquals (str "Authorization") (str "Authorization")) with true.
  cbv iota. cbn [seenAuthorization read_headers mbind option_bind contentLength contentRc seenContentLength default]. by rewrite trim_field.
Qed.
