(* ===== verification/HttpTheorems.v ===== *)
(** The theorems about requests to the server of [remote/doltlite_remotesrv.c]. *)
From S2P Require Import Prelude CInt Ge Ed25519 Ed25519Spec CString World Radix Json Creds CredsFile Bearer CredsConfig CredsSpec CredsReplace CredsFileSpec CredsRead BearerSpec CredsSave CredsConfigFile CredsTheorems Http HttpSpec.
#[local] Opaque public_of secret_of digest224.


Definition sample_request : list Z := print_request (str "GET") (str "/db/root") [(str "Authorization", str "Bearer a.b.c")].
Definition sample_server : server_auth := ServerAuth (Some (str "keys")) (Some (str "example.org")).

Lemma sample_server_wf : server_wf sample_server.
Proof. intros dir [= <-]. split; [reflexivity|]. by eexists. Qed.


(** C22: the worker acts on the request whose token was checked.  It reads the
    header block again, without the token and without the bytes behind it: the
    method, the path and the length are those of the first reading, so a
    request that was let through is refused as malformed only when the body has
    another length, and the endpoint and the database are those its checked
    header names. *)
Theorem worker_reads_same zDir zPrefix nHeader nBody req :
  parseRequestHeaders zPrefix nHeader 16 512 (Some 1024) = Some (Some req) -> contentRc (r_headers req) = 0 ->
  request_target zDir (take (Z.to_nat nHeader) zPrefix) nHeader nBody 200 =
    Some (if request_length req =? nBody then
            match parsePath (r_path req) 256 256 with
            | Some (zDbName, zEndpoint) =>
                if isSafeDbName zDbName then Serve (database_path zDir zDbName) (r_method req) zEndpoint else Answer 404
            | None => Answer 404
            end
          else Answer 400).
Proof.
  intros E Hc. rewrite <- parse_headers_take in E. apply parse_headers_same in E as (r' & E & Em & Ep & El & Er & _).
  unfold request_target. change (negb (200 =? 200)) with false. cbv iota. rewrite E. cbn [mbind option_bind]. unfold request_length. rewrite <- Er, <- El, Hc, Em, Ep.
  cbn [negb orb Z.eqb]. destruct (_ =? nBody); [|done]. cbn [negb orb]. destruct (parsePath _ _ _) as [[db ep]|]; [|done]. by destruct (isSafeDbName db).
Qed.

Lemma worker_reads_same_witness :
  parseRequestHeaders (sample_request ++ [1; 2]) (zlen sample_request) 16 512 (Some 1024) =
    Some (Some (Request (str "GET") (str "/db/root") (Headers 0 0 false true (str "Bearer a.b.c")))) /\
  request_target (str "/srv") (take (Z.to_nat (zlen sample_request)) (sample_request ++ [1; 2])) (zlen sample_request) 0 200 =
    Some (Serve (str "/srv/db") (str "GET") (str "root")).
Proof.
  split; [vm_compute; reflexivity|].
  apply (worker_reads_same (str "/srv") (sample_request ++ [1; 2]) (zlen sample_request) 0 (Request (str "GET") (str "/db/root") (Headers 0 0 false true (str "Bearer a.b.c"))));
    vm_compute; reflexivity.
Defined.

(** C35: a request as a client writes it is read back.  The end of its header
    block is found whatever follows, and the method, the path, the length and
    the token are the ones that were written; names of headers are compared
    without case. *)
Theorem request_reads_back method path_ n auth body : token method -> token path_ -> 0 <= n <= MAX_REQUEST_BYTES ->
  str_wf auth -> (CR ∉ auth) -> trimmed auth -> zlen method < 16 -> zlen path_ < 512 -> zlen auth < 1024 ->
  let block := print_request method path_ (client_header n auth) in
  pendingHeaderEnd (block ++ body) = zlen block /\
  parseRequestHeaders (block ++ body) (zlen block) 16 512 (Some 1024) = Some (Some (Request method path_ (Headers n 0 true true auth))).
Proof.
  intros Hm Hp Hn Ha Hr Ht Lm Lp La block. assert (Forall field_ok (client_header n auth)) as Hf by by apply client_fields.
  assert (zlen block < MAX_HEADER_SIZE) as Hl by by apply client_block_short.
  split; [by apply header_end_print|]. unfold block in *. rewrite parse_print by done. rewrite client_headers by done. unfold clip. by rewrite !take_ge by lia.
Qed.

Lemma request_reads_back_witness :
  let block := print_request (str "POST") (str "/db/chunks") (client_header 3 (str "Bearer a.b.c")) in
  pendingHeaderEnd (block ++ [1; 2; 3]) = zlen block /\
  parseRequestHeaders (block ++ [1; 2; 3]) (zlen block) 16 512 (Some 1024) =
    Some (Some (Request (str "POST") (str "/db/chunks") (Headers 3 0 true true (str "Bearer a.b.c")))).
Proof.
  assert (token (str "POST") /\ token (str "/db/chunks")) as [Hm Hp] by (split; (split_and!; [by apply str_wfb_spec|by apply (bool_decide_unpack _)..])).
  apply request_reads_back; [exact Hm|exact Hp|unfold MAX_REQUEST_BYTES, MAX_CHUNK_BYTES; lia|by apply str_wfb_spec|by apply (bool_decide_unpack _)
    |intros c [[= <-]|[= <-]]; reflexivity|reflexivity|reflexivity|reflexivity].
Defined.

(** C36: a request that is served was let through, has the length its header
    says, and is about a database in the server's directory: the name in its
    path is one visible entry of a directory, and the file is that entry of
    [zDir] as long as [zDir] has fewer than 767 characters.  The path is cut to
    1023 characters, so with a directory of 1023 characters or more every
    request is about the same file, which is not in the directory. *)
Theorem request_stays_in_directory zDir zPrefix nHeader nBody requestStatus zDbPath zMethod zEndpoint :
  request_target zDir zPrefix nHeader nBody requestStatus = Some (Serve zDbPath zMethod zEndpoint) ->
  requestStatus = 200 /\ nBody <= MAX_REQUEST_BYTES /\
  exists name, entry_name name /\
    (zlen zDir < 767 -> zDbPath = zDir ++ SLASH :: name) /\
    (1023 <= zlen zDir -> zDbPath = take 1023 zDir).
Proof.
  intros (-> & r & name & E & Hc & <- & -> & Hp & Hn & ->)%request_target_serve. apply parse_headers_length in E as [_ E].
  split; [done|]. split; [lia|]. exists name. split; [done|]. destruct Hn as (_ & _ & _ & _ & Hl). unfold database_path, clip. split; intros Hd.
  - apply take_ge. rewrite length_app. cbn [length]. lia.
  - apply take_app_le. lia.
Qed.

Lemma request_stays_in_directory_witness :
  request_target (str "/srv") sample_request (zlen sample_request) 0 200 = Some (Serve (str "/srv/db") (str "GET") (str "root")) /\
  exists name, entry_name name /\ (zlen (str "/srv") < 767 -> str "/srv/db" = str "/srv" ++ SLASH :: name).
Proof.
  assert (request_target (str "/srv") sample_request (zlen sample_request) 0 200 = Some (Serve (str "/srv/db") (str "GET") (str "root"))) as E by (vm_compute; reflexivity).
  split; [exact E|]. destruct (request_stays_in_directory _ _ _ _ _ _ _ _ E) as (_ & _ & name & Hn & H & _). by exists name.
Defined.
