(* ===== verification/Threads.v ===== *)
(** Programs of several threads over a shared state: their steps, and a logic
    in which every thread owns a part of what the state accounts for. *)
From S2P Require Import Prelude.

Declare Scope prog_scope.
Delimit Scope prog_scope with prog.

(** What an atomic action does: it goes on, it cannot run yet, or it is an
    error. *)
Inductive result (S B : Type) : Type :=
| Go (b : B) (s : S)
| Wait
| Wrong.
Arguments Go {S B} b s.
Arguments Wait {S B}.
Arguments Wrong {S B}.

(** [Ask P k] goes on with any value in [P]; [Iter body l k] repeats [body]
    until it gives a result. *)
Inductive prog (S : Type) (A : Type) : Type :=
| Done (a : A)
| Act {B : Type} (f : S -> result S B) (k : B -> prog S A)
| Ask {B : Type} (P : B -> Prop) (k : B -> prog S A)
| Iter {L B : Type} (body : L -> prog S (L + B)) (l : L) (k : B -> prog S A).
Arguments Done {S A} a.
Arguments Act {S A B} f k.
Arguments Ask {S A B} P k.
Arguments Iter {S A L B} body l k.

Fixpoint bind {S A B} (p : prog S A) (k : A -> prog S B) : prog S B :=
  match p with
  | Done a => k a
  | Act f k' => Act f (fun b => bind (k' b) k)
  | Ask P k' => Ask P (fun b => bind (k' b) k)
  | Iter body l k' => Iter body l (fun b => bind (k' b) k)
  end.
Notation "'let&' x := p 'in' q" := (bind p (fun x => q))
  (at level 10, x pattern, q at level 200, right associativity) : prog_scope.

Definition act {S B} (f : S -> result S B) : prog S B := Act f Done.
Definition ask {S B} (P : B -> Prop) : prog S B := Ask P Done.
Definition iter {S L B} (body : L -> prog S (L + B)) (l : L) : prog S B := Iter body l Done.
(** A change of the state. *)
Definition upd {S} (f : S -> S) : prog S unit := act (fun s => Go tt (f s)).
(** A computation that must have a result. *)
Definition must {S B} (x : option B) : prog S B :=
  match x with
  | Some b => Done b
  | None => act (fun _ => Wrong)
  end.

(** * Steps *)
Definition again {S A L B} (body : L -> prog S (L + B)) (k : B -> prog S A) (r : L + B) : prog S A :=
  match r with
  | inl l => Iter body l k
  | inr b => k b
  end.

Inductive prog_step {S A} : S -> prog S A -> S -> prog S A -> Prop :=
| step_act {B} (f : S -> result S B) k s b s' : f s = Go b s' -> prog_step s (Act f k) s' (k b)
| step_ask {B} (P : B -> Prop) k s b : P b -> prog_step s (Ask P k) s (k b)
| step_iter {L B} (body : L -> prog S (L + B)) l k s : prog_step s (Iter body l k) s (bind (body l) (again body k)).

(** The threads, interleaved. *)
Definition config (S : Type) : Type := S * list (prog S unit).
Inductive step {S} : config S -> config S -> Prop :=
| step_thread s ts s' i p p' : ts !! i = Some p -> prog_step s p s' p' -> step (s, ts) (s', <[i := p']> ts).

Definition goes_wrong {S} (c : config S) : Prop :=
  exists B (f : S -> result S B) k, Act f k ∈ c.2 /\ f c.1 = Wrong.
Definition finished {S} (c : config S) : Prop := Forall (fun p => p = Done tt) c.2.

(** * The logic *)
(** What threads own: a commutative monoid. *)
Class Resource (R : Type) := {
  r_op : R -> R -> R;
  r_unit : R;
  r_op_assoc x y z : r_op x (r_op y z) = r_op (r_op x y) z;
  r_op_comm x y : r_op x y = r_op y x;
  r_op_unit x : r_op r_unit x = x
}.
Infix "⋅" := r_op (at level 50, left associativity) : prog_scope.
Open Scope prog_scope.

Section logic.
Context {S R : Type} `{Resource R} (J : S -> R -> Prop).

(** From any state in which the thread owns [r], it does no wrong, keeps the
    account of [J] whatever the others own, and ends with [Q]. *)
Fixpoint wp {A} (p : prog S A) (r : R) (Q : A -> R -> Prop) : Prop :=
  match p with
  | Done a => Q a r
  | Act f k => forall s F, J s (r ⋅ F) ->
      match f s with
      | Go b s' => exists r', J s' (r' ⋅ F) /\ wp (k b) r' Q
      | Wait => True
      | Wrong => False
      end
  | Ask P k => forall b, P b -> wp (k b) r Q
  | Iter body l k => exists I, I l r /\ forall l r, I l r ->
      wp (body l) r (fun x r => match x with inl l => I l r | inr b => wp (k b) r Q end)
  end.

Lemma prog_wp_mono {A} (p : prog S A) r (Q Q' : A -> R -> Prop) : wp p r Q -> (forall a r, Q a r -> Q' a r) -> wp p r Q'.
Proof using.
  revert r Q Q'. induction p as [A a|A B f k IH|A B P k IH|A L B body IHb l k IH]; cbn; intros r Q Q' Hp HQ; [auto|..].
  - intros s F HJ. specialize (Hp s F HJ). destruct (f s) as [b s'| |]; [|done|done]. destruct Hp as (r' & HJ' & Hp). eauto.
  - eauto.
  - destruct Hp as (I & Hl & Hb). exists I. split; [done|]. intros l' r' Hr'. eapply IHb; [by apply Hb|]. intros [l''|b] r''; [done|]. cbn. eauto.
Qed.

Lemma prog_wp_bind {A B} (p : prog S A) (k : A -> prog S B) r Q : wp p r (fun a r => wp (k a) r Q) -> wp (bind p k) r Q.
Proof using.
  revert r. induction p as [A a|A C f k' IH|A C P k' IH|A L C body _ l k' IH]; cbn; intros r Hp; [auto|..].
  - intros s F HJ. specialize (Hp s F HJ). destruct (f s) as [b s'| |]; [|done|done]. destruct Hp as (r' & HJ' & Hp). eauto.
  - eauto.
  - destruct Hp as (I & Hl & Hb). exists I. split; [done|]. intros l' r' Hr'. eapply prog_wp_mono; [by apply Hb|]. intros [l''|b] r''; [done|]. cbn. eauto.
Qed.

Lemma wp_frame {A} (p : prog S A) r F Q : wp p r Q -> wp p (r ⋅ F) (fun a r' => exists r0, r' = r0 ⋅ F /\ Q a r0).
Proof using.
  revert r Q. induction p as [A a|A B f k IH|A B P k IH|A L B body IHb l k IH]; cbn; intros r Q Hp.
  - by exists r.
  - intros s F' HJ. rewrite <- r_op_assoc in HJ. specialize (Hp s _ HJ). destruct (f s) as [b s'| |]; [|done|done]. destruct Hp as (r' & HJ' & Hp).
    exists (r' ⋅ F). rewrite <- r_op_assoc. auto.
  - auto.
  - destruct Hp as (I & Hl & Hb). exists (fun l r => exists r0, r = r0 ⋅ F /\ I l r0). split; [by exists r|]. intros l' r' (r0 & -> & HI).
    eapply prog_wp_mono; [by apply IHb, Hb|]. cbn beta. intros [l''|b] r'' (r1 & -> & H1); [by exists r1|auto].
Qed.

(** A call, with a part of what the caller owns. *)
Lemma wp_call {A B} (p : prog S A) (k : A -> prog S B) r r0 F Q0 Q : wp p r0 Q0 -> r = r0 ⋅ F -> (forall a r', Q0 a r' -> wp (k a) (r' ⋅ F) Q) -> wp (bind p k) r Q.
Proof using. intros Hp -> Hk. apply prog_wp_bind. eapply prog_wp_mono; [by apply wp_frame|]. cbn beta. intros a r' (r1 & -> & H1). auto. Qed.

Lemma wp_must {A B} (b : B) (k : B -> prog S A) r Q : wp (k b) r Q -> wp (bind (must (Some b)) k) r Q.
Proof using. done. Qed.

Lemma wp_ask {A B} (P : B -> Prop) (k : B -> prog S A) r Q : (forall b, P b -> wp (k b) r Q) -> wp (bind (ask P) k) r Q.
Proof using. done. Qed.

Lemma wp_iter {L B} (body : L -> prog S (L + B)) (I : L -> R -> Prop) l r Q : I l r ->
  (forall l r, I l r -> wp (body l) r (fun x r => match x with inl l => I l r | inr b => Q b r end)) -> wp (iter body l) r Q.
Proof using. intros Hl Hb. by exists I. Qed.

(** * Adequacy *)
Definition total (rs : list R) : R := foldr r_op r_unit rs.

Lemma total_insert rs i r : rs !! i = Some r -> exists F, forall r', total (<[i := r']> rs) = r' ⋅ F.
Proof using.
  revert i. induction rs as [|x rs IH]; intros [|i] Hi; [done..| |].
  - exists (total rs). done.
  - destruct (IH i Hi) as [F HF]. exists (x ⋅ F). intros r'. cbn. change (foldr r_op r_unit (<[i := r']> rs)) with (total (<[i := r']> rs)).
    rewrite HF, !r_op_assoc, (r_op_comm x r'). done.
Qed.

Lemma prog_step_wp {A} s (p : prog S A) s' p' r F Q : prog_step s p s' p' -> J s (r ⋅ F) -> wp p r Q -> exists r', J s' (r' ⋅ F) /\ wp p' r' Q.
Proof using.
  intros [B f k t b t' E|B P k t b HP|L B body l k t] HJ Hp; cbn in Hp.
  - specialize (Hp _ F HJ). by rewrite E in Hp.
  - exists r. split; [done|]. by apply Hp.
  - destruct Hp as (I & Hl & Hb). exists r. split; [done|]. apply prog_wp_bind. eapply prog_wp_mono; [by apply Hb|]. intros [l'|b] r'; cbn; [|done].
    intros HI. by exists I.
Qed.

(** The threads own parts of what the state accounts for. *)
Definition pool_ok (Q : R -> Prop) (c : config S) : Prop :=
  exists rs, J c.1 (total rs) /\ Forall2 (fun p r => wp p r (fun _ => Q)) c.2 rs.

Lemma step_pool Q c c' : step c c' -> pool_ok Q c -> pool_ok Q c'.
Proof using.
  intros [s ts s' i p p' Hi Hs] (rs & HJ & Hw). cbn in *. destruct (Forall2_lookup_l _ _ _ _ _ Hw Hi) as (r & Hr & Hp).
  destruct (total_insert rs i r Hr) as [F HF]. rewrite <- (list_insert_id rs i r Hr), HF in HJ.
  destruct (prog_step_wp _ _ _ _ _ F _ Hs HJ Hp) as (r' & HJ' & Hp'). exists (<[i := r']> rs). cbn. rewrite HF. split; [done|]. by apply Forall2_insert.
Qed.

Lemma steps_pool Q c c' : rtc step c c' -> pool_ok Q c -> pool_ok Q c'.
Proof using. induction 1 as [|c1 c2 c3 H12 _ IH]; [done|]. intros Hc. by apply IH, (step_pool Q c1). Qed.

Lemma pool_not_wrong Q c : pool_ok Q c -> ~ goes_wrong c.
Proof using.
  intros (rs & HJ & Hw) (B & f & k & [i Hi]%list_elem_of_lookup & E). destruct (Forall2_lookup_l _ _ _ _ _ Hw Hi) as (r & Hr & Hp).
  destruct (total_insert rs i r Hr) as [F HF]. rewrite <- (list_insert_id rs i r Hr), HF in HJ. specialize (Hp _ F HJ). by rewrite E in Hp.
Qed.

Lemma pool_finished Q c : pool_ok Q c -> finished c -> exists rs, J c.1 (total rs) /\ length rs = length c.2 /\ Forall Q rs.
Proof using.
  intros (rs & HJ & Hw) Hf. exists rs. split; [done|]. unfold finished in Hf. split; [by eapply eq_sym, Forall2_length|]. clear HJ. induction Hw as [|p r ps rs Hp _ IH]; [constructor|].
  apply Forall_cons in Hf as [-> Hf]. constructor; [done|auto].
Qed.
End logic.

(** * One thread alone *)
(** Whatever is answered, the program ends, never wrong and never waiting,
    with [Q]; a program that repeats needs another argument. *)
Fixpoint alone {S A} (p : prog S A) (s : S) (Q : A -> S -> Prop) : Prop :=
  match p with
  | Done a => Q a s
  | Act f k => match f s with Go b s' => alone (k b) s' Q | _ => False end
  | Ask P k => forall b, P b -> alone (k b) s Q
  | Iter _ _ _ => False
  end.

Section alone.
Context {S : Type}.

Lemma alone_mono {A} (p : prog S A) s (Q Q' : A -> S -> Prop) : alone p s Q -> (forall a s, Q a s -> Q' a s) -> alone p s Q'.
Proof using.
  intros Hp HQ. revert s Hp. induction p as [A a|A B f k IH|A B P k IH|A L B body _ l k _]; cbn; intros s Hp; [auto| |eauto|done].
  destruct (f s); eauto.
Qed.

Lemma alone_bind {A B} (p : prog S A) (k : A -> prog S B) s Q : alone p s (fun a s => alone (k a) s Q) -> alone (bind p k) s Q.
Proof using.
  revert s. induction p as [A a|A C f k' IH|A C P k' IH|A L C body _ l k' _]; cbn; intros s Hp; [done| |eauto|done]. destruct (f s); eauto.
Qed.

Lemma alone_call {A B} (p : prog S A) (k : A -> prog S B) s Q0 Q : alone p s Q0 -> (forall a s', Q0 a s' -> alone (k a) s' Q) -> alone (bind p k) s Q.
Proof using. intros Hp Hk. apply alone_bind. by eapply alone_mono. Qed.

(** A program that returns, wherever it starts. *)
Definition returns {A} (p : prog S A) : Prop := forall s, alone p s (fun _ _ => True).

Lemma returns_bind {A B} (p : prog S A) (k : A -> prog S B) : returns p -> (forall a, returns (k a)) -> returns (bind p k).
Proof using. intros Hp Hk s. eapply alone_call; [apply Hp|]. intros a s' _. apply Hk. Qed.

(** How a program ends that returns satisfies all that it ends with. *)
Lemma alone_strongest {A} (p : prog S A) s : alone p s (fun _ _ => True) -> alone p s (fun a s' => forall Q, alone p s Q -> Q a s').
Proof using.
  revert s. induction p as [A a|A B f k IH|A B P k IH|A L B body _ l k _]; cbn; intros s Hp; [auto| | |done].
  - destruct (f s) as [b s'| |]; [|done|done]. by apply IH.
  - intros b Hb. eapply alone_mono; [by apply IH, Hp|]. cbn beta. intros a s' Ha Q HQ. by apply Ha, HQ.
Qed.

(** Every result a program can have satisfies [P], whatever the state. *)
Fixpoint results {A} (p : prog S A) (P : A -> Prop) : Prop :=
  match p with
  | Done a => P a
  | Act f k => forall s b s', f s = Go b s' -> results (k b) P
  | Ask P' k => forall b, P' b -> results (k b) P
  | Iter _ _ _ => False
  end.

Lemma results_bind {A B} (p : prog S A) (k : A -> prog S B) P : results p (fun a => results (k a) P) -> results (bind p k) P.
Proof using. induction p as [A a|A C f k' IH|A C P' k' IH|A L C body _ l k' _]; cbn; eauto. Qed.

Lemma results_mono {A} (p : prog S A) (P P' : A -> Prop) : results p P -> (forall a, P a -> P' a) -> results p P'.
Proof using. intros Hp HP. induction p as [A a|A C f k IH|A C P0 k IH|A L C body _ l k _]; cbn in *; eauto. Qed.

Lemma alone_results {A} (p : prog S A) s P : alone p s (fun _ _ => True) -> results p P -> alone p s (fun a _ => P a).
Proof using.
  revert s. induction p as [A a|A C f k IH|A C P0 k IH|A L C body _ l k _]; cbn; intros s Hp Hr; [done| | |done].
  - destruct (f s) as [b s'| |] eqn:E; [|done|done]. apply IH; [done|]. by eapply Hr.
  - intros b Hb. apply IH; auto.
Qed.
End alone.

(** * Runs of one thread *)
(** The steps of one thread are steps of all. *)
Definition thread_step {S A} (x y : S * prog S A) : Prop := prog_step x.1 x.2 y.1 y.2.

Lemma thread_steps {S} (s s' : S) ts i p p' : ts !! i = Some p -> rtc thread_step (s, p) (s', p') -> rtc step (s, ts) (s', <[i := p']> ts).
Proof.
  intros Hi Hr. remember (s, p) as x eqn:Ex. remember (s', p') as y eqn:Ey. revert s p ts Hi Ex. induction Hr as [x|x [s1 p1] y H1 _ IH]; intros s p ts Hi Ex.
  - simplify_eq. by rewrite list_insert_id.
  - subst x. eapply rtc_l; [by eapply step_thread|]. rewrite <- (list_insert_insert_eq ts i p' p1). eapply IH; [done| |done].
    apply list_lookup_insert_eq. by eapply lookup_lt_Some.
Qed.

Lemma run_act {S A B} (f : S -> result S B) (k : B -> prog S A) s b s' y : f s = Go b s' -> rtc thread_step (s', k b) y -> rtc thread_step (s, Act f k) y.
Proof. intros E. apply rtc_l. exact (step_act f k s b s' E). Qed.

Lemma run_ask {S A B} (P : B -> Prop) (k : B -> prog S A) s b y : P b -> rtc thread_step (s, k b) y -> rtc thread_step (s, Ask P k) y.
Proof. intros E. apply rtc_l. exact (step_ask P k s b E). Qed.

Lemma run_iter {S A L B} (body : L -> prog S (L + B)) l (k : B -> prog S A) s y : rtc thread_step (s, bind (body l) (again body k)) y -> rtc thread_step (s, Iter body l k) y.
Proof. apply rtc_l. exact (step_iter body l k s). Qed.
