(* ===== verification/Server.v ===== *)
(** The threads of the server of [remote/doltlite_remotesrv.c]: the thread that
    accepts connections and collects requests, the queue, the workers, the
    budget for bodies, and the stop.

    A critical section of [pSrv->mutex] is one action: the fields under it are
    touched by no one else, and the closing of other sockets in between
    commutes with it.  Waiting for [workReady] is waiting for its condition.
    [Ask] stands for what the network, the clock and the allocator answer. *)
From stdpp Require Import gmultiset.
From S2P Require Import Prelude CInt Ge Ed25519 CString World Radix Json Creds CredsFile Bearer CredsConfig CredsReplace BearerSpec Http Threads.

Definition SERVER_WORKERS : Z := 4.
Definition SERVER_QUEUE_SIZE : Z := 16.
Definition SERVER_PENDING_MAX : Z := 64.
Definition SERVER_HEADER_TIMEOUT_MS : Z := 2000.
Definition MAX_RESPONSE_BYTES : Z := MAX_REQUEST_BYTES.
Definition SERVER_BODY_MIN_RATE : Z := 64 * 1024.
Definition SERVER_BODY_BUFFER_MAX : Z := MAX_REQUEST_BYTES * SERVER_WORKERS.

(** * State *)
(** [j_conn]: there is a TLS connection; [pBody] is NULL when [nBodyAlloc] is 0. *)
Record ServerJob : Type := Job {
  j_fd : Z;
  j_conn : bool;
  j_prefix : list Z;
  j_nHeader : Z;
  j_body : list Z;
  j_bodyAlloc : Z;
  j_status : Z
}.

Record PendingConn : Type := Pending {
  p_fd : Z;
  p_conn : bool;
  startMs : Z;
  aBuf : list Z;
  bHandshake : bool;
  bWantWrite : bool;
  p_nHeader : Z;
  p_contentLength : Z;
  p_body : list Z;
  p_bodyAlloc : Z;
  p_status : Z;
  bReadAgain : bool
}.

(** The fields under the mutex. *)
Record DoltliteServer : Type := Server {
  running : bool;
  queue : list ServerJob;
  queueHead : Z;
  nQueue : Z;
  activeFd : list Z;
  nBodyAlloc : Z
}.

(** [handleRequest] ran on a job; a socket was shut down, open or not. *)
Inductive event : Type :=
| Served (j : ServerJob)
| Shutdown (fd : Z) (is_open : bool).

(** The server, the open connections, the number of its heap blocks, and what
    happened. *)
Record state : Type := State {
  srv : DoltliteServer;
  open_fds : gmultiset Z;
  live : Z;
  events : list event
}.

Definition set_srv (f : DoltliteServer -> DoltliteServer) (s : state) : state := State (f (srv s)) (open_fds s) (live s) (events s).
Definition set_open (x : gmultiset Z) (s : state) : state := State (srv s) x (live s) (events s).
Definition add_live (n : Z) (s : state) : state := State (srv s) (open_fds s) (live s + n) (events s).
Definition log (e : event) (s : state) : state := State (srv s) (open_fds s) (live s) (e :: events s).

Definition set_running (b : bool) (v : DoltliteServer) : DoltliteServer := Server b (queue v) (queueHead v) (nQueue v) (activeFd v) (nBodyAlloc v).
Definition set_active (i : nat) (fd : Z) (v : DoltliteServer) : DoltliteServer := Server (running v) (queue v) (queueHead v) (nQueue v) (<[i := fd]> (activeFd v)) (nBodyAlloc v).
Definition add_alloc (n : Z) (v : DoltliteServer) : DoltliteServer := Server (running v) (queue v) (queueHead v) (nQueue v) (activeFd v) (nBodyAlloc v + n).

Abbreviation code := (prog state).

(** * Sockets and memory *)
(** Closing a descriptor that is not open is an error. *)
Definition close_fd (fd : Z) (s : state) : option state :=
  if decide (fd ∈ open_fds s) then Some (set_open (open_fds s ∖ {[+ fd +]}) s) else None.
Definition doltliteCloseSocket (fd : Z) : code unit :=
  act (fun s => match close_fd fd s with Some s => Go tt s | None => Wrong end).
(** A descriptor that is not open yet. *)
Definition accept : code (option Z) :=
  let& fd := ask (fun fd : option Z => match fd with Some fd => 0 <= fd | None => True end) in
  match fd with
  | None => Done None
  | Some fd => act (fun s => if decide (fd ∈ open_fds s) then Wait else Go (Some fd) (set_open ({[+ fd +]} ⊎ open_fds s) s))
  end.

Definition sqlite3_malloc : code bool :=
  let& ok := ask (fun _ : bool => True) in
  if ok : bool then let& _ := upd (add_live 1) in Done true else Done false.
Definition free (block : bool) : code unit := if block then upd (add_live (-1)) else Done tt.
(** Whether a call that only reports success succeeds. *)
Definition succeeds : code bool := ask (fun _ => True).
Definition monotonicMs : code Z := ask (fun _ => True).

Definition doltliteConnClose (fd : Z) : code unit := let& _ := doltliteCloseSocket fd in free true.
Definition doltliteConnServerAttach (clientFd : Z) : code bool :=
  let& c := sqlite3_malloc in
  if c : bool then
    let& ok := succeeds in
    if ok : bool then Done true
    else let& _ := doltliteCloseSocket clientFd in let& _ := free true in Done false
  else let& _ := doltliteCloseSocket clientFd in Done false.
Definition doltliteConnFromFd (clientFd : Z) : code bool :=
  let& c := sqlite3_malloc in
  if c : bool then Done true else let& _ := doltliteCloseSocket clientFd in Done false.

(** * The queue *)
Definition take_job (i : nat) (s : state) : result state (option ServerJob) :=
  let v := srv s in
  if nQueue v =? 0 then (if running v then Wait else Go None s) else
  match queue v !! Z.to_nat (queueHead v) with
  | None => Wrong
  | Some j =>
      Go (Some j) (set_srv (fun v => Server (running v) (queue v) ((queueHead v + 1) mod SERVER_QUEUE_SIZE) (nQueue v - 1)
                                       (<[i := j_fd j]> (activeFd v)) (nBodyAlloc v)) s)
  end.

Definition put_job (j : ServerJob) (v : DoltliteServer) : DoltliteServer :=
  let idx := (queueHead v + nQueue v) mod SERVER_QUEUE_SIZE in
  Server (running v) (<[Z.to_nat idx := j]> (queue v)) (queueHead v) (nQueue v + 1) (activeFd v) (nBodyAlloc v).

Definition enqueueJob (j : ServerJob) : code Z :=
  let& ok := act (fun s =>
    if negb (running (srv s)) || (nQueue (srv s) =? SERVER_QUEUE_SIZE) then Go false (set_srv (add_alloc (- j_bodyAlloc j)) s)
    else Go true (set_srv (put_job j) s)) in
  if ok : bool then Done 0 else
  let& _ := free true in
  let& _ := free (0 <? j_bodyAlloc j) in
  let& _ := if j_conn j then doltliteConnClose (j_fd j)
            else if 0 <=? j_fd j then doltliteCloseSocket (j_fd j) else Done tt in
  Done (-1).

(** * Workers *)
Definition serverWorkerEntry (i : nat) : code unit :=
  iter (fun _ : unit =>
    let& j := act (take_job i) in
    match j with
    | None => Done (inr tt)
    | Some j =>
        let& conn := if j_conn j then Done true else doltliteConnFromFd (j_fd j) in
        let& _ := if conn : bool then
                    let& _ := upd (log (Served j)) in
                    doltliteConnClose (j_fd j)
                  else Done tt in
        let& _ := free true in
        let& _ := free (0 <? j_bodyAlloc j) in
        let& _ := upd (set_srv (fun v => set_active i (-1) (add_alloc (- j_bodyAlloc j) v))) in
        Done (inl tt)
    end) tt.

(** * Stop *)
Definition doltliteShutdownSocket (fd : Z) (s : state) : state := log (Shutdown fd (bool_decide (fd ∈ open_fds s))) s.

(** What the loop over the queue does with a job. *)
Definition drop_job (j : ServerJob) (s : state) : option state :=
  let s := if 0 <=? j_fd j then doltliteShutdownSocket (j_fd j) s else s in
  let? s := if j_conn j then let? s := close_fd (j_fd j) s in Some (add_live (-1) s)
            else if 0 <=? j_fd j then close_fd (j_fd j) s else Some s in
  let s := add_live (-1) s in
  let s := if 0 <? j_bodyAlloc j then add_live (-1) s else s in
  Some (set_srv (add_alloc (- j_bodyAlloc j)) s).

(** The [while] loop over the queue; [None] when something is wrong or the
    fuel ran out. *)
Fixpoint drain_queue (fuel : nat) (s : state) : option state :=
  match fuel with
  | O => None
  | S fuel =>
      let v := srv s in
      if nQueue v <=? 0 then Some s else
      let? j := queue v !! Z.to_nat (queueHead v) in
      let s := set_srv (fun v => Server (running v) (queue v) ((queueHead v + 1) mod SERVER_QUEUE_SIZE) (nQueue v - 1) (activeFd v) (nBodyAlloc v)) s in
      let? s := drop_job j s in
      drain_queue fuel s
  end.

Definition serverRequestStop : code unit :=
  act (fun s =>
    match drain_queue 17 (set_srv (set_running false) s) with
    | None => Wrong
    | Some s => Go tt (foldl (fun s fd => if 0 <=? fd then doltliteShutdownSocket fd s else s) s (activeFd (srv s)))
    end).

(** * Pending connections *)
Definition OK : Z := 0.
Definition SQLITE_NOMEM : Z := 7.
Definition SQLITE_TOOBIG : Z := 18.

Fixpoint grow_size (fuel : nat) (nNew need : Z) : option Z :=
  match fuel with
  | O => None
  | S fuel =>
      if nNew <? need then
        if MAX_RESPONSE_BYTES / 2 <? nNew then Some MAX_RESPONSE_BYTES else grow_size fuel (nNew * 2) need
      else Some nNew
  end.

(** The result and [*pnAlloc]; [xRealloc] tells whether there is memory, for
    the first buffer or for a larger one. *)
Definition growBuf {S} (xRealloc : bool -> prog S bool) (nAlloc need : Z) : prog S (Z * Z) :=
  if (need <? 0) || (MAX_RESPONSE_BYTES <? need) then Done (SQLITE_TOOBIG, nAlloc) else
  if need <=? nAlloc then Done (OK, nAlloc) else
  let& nNew := must (grow_size 32 (if 0 <? nAlloc then nAlloc else 4096) need) in
  if nNew <? need then Done (SQLITE_TOOBIG, nAlloc) else
  let& ok := xRealloc (negb (0 <? nAlloc)) in
  if ok : bool then Done (OK, nNew) else Done (SQLITE_NOMEM, nAlloc).

Definition remoteSrvGrowBuf : Z -> Z -> code (Z * Z) := growBuf (fun first => if first : bool then sqlite3_malloc else succeeds).

Definition set_body (body : list Z) (alloc : Z) (p : PendingConn) : PendingConn :=
  Pending (p_fd p) (p_conn p) (startMs p) (aBuf p) (bHandshake p) (bWantWrite p) (p_nHeader p) (p_contentLength p) body alloc (p_status p) (bReadAgain p).
Definition set_status (st : Z) (p : PendingConn) : PendingConn :=
  Pending (p_fd p) (p_conn p) (startMs p) (aBuf p) (bHandshake p) (bWantWrite p) (p_nHeader p) (p_contentLength p) (p_body p) (p_bodyAlloc p) st (bReadAgain p).
Definition set_again (b : bool) (p : PendingConn) : PendingConn :=
  Pending (p_fd p) (p_conn p) (startMs p) (aBuf p) (bHandshake p) (bWantWrite p) (p_nHeader p) (p_contentLength p) (p_body p) (p_bodyAlloc p) (p_status p) b.
Definition set_handshake (b w : bool) (ms : Z) (p : PendingConn) : PendingConn :=
  Pending (p_fd p) (p_conn p) ms (aBuf p) b w (p_nHeader p) (p_contentLength p) (p_body p) (p_bodyAlloc p) (p_status p) (bReadAgain p).
Definition set_buf (b : list Z) (ms : Z) (p : PendingConn) : PendingConn :=
  Pending (p_fd p) (p_conn p) ms b (bHandshake p) (bWantWrite p) (p_nHeader p) (p_contentLength p) (p_body p) (p_bodyAlloc p) (p_status p) (bReadAgain p).
Definition set_header (nHeader len st : Z) (p : PendingConn) : PendingConn :=
  Pending (p_fd p) (p_conn p) (startMs p) (aBuf p) (bHandshake p) (bWantWrite p) nHeader len (p_body p) (p_bodyAlloc p) st (bReadAgain p).
(** A slot that owns nothing: neither socket nor body. *)
Definition vacated (p : PendingConn) : PendingConn :=
  Pending (-1) false (startMs p) [] false false (p_nHeader p) (p_contentLength p) [] 0 (p_status p) (bReadAgain p).

Definition pendingClose (p : PendingConn) : code PendingConn :=
  let& _ := if p_conn p then doltliteConnClose (p_fd p)
            else if 0 <=? p_fd p then doltliteCloseSocket (p_fd p) else Done tt in
  let& _ := free (0 <? p_bodyAlloc p) in
  let& _ := upd (set_srv (add_alloc (- p_bodyAlloc p))) in
  Done (vacated p).

(** [while( nAlloc<need ) nAlloc *= 2] *)
Fixpoint double_size (fuel : nat) (nAlloc need : Z) : option Z :=
  match fuel with
  | O => None
  | S fuel => if nAlloc <? need then double_size fuel (nAlloc * 2) need else Some nAlloc
  end.

Definition pendingAppendBody (p : PendingConn) (aData : list Z) : code (Z * PendingConn) :=
  let need := zlen (p_body p) + zlen aData in
  if need <=? p_bodyAlloc p then Done (OK, set_body (p_body p ++ aData) (p_bodyAlloc p) p) else
  let& nAlloc := must (double_size 32 (if p_bodyAlloc p =? 0 then 4096 else p_bodyAlloc p) need) in
  let& room := act (fun s =>
    if SERVER_BODY_BUFFER_MAX - nBodyAlloc (srv s) <? nAlloc - p_bodyAlloc p then Go false s
    else Go true (set_srv (add_alloc (nAlloc - p_bodyAlloc p)) s)) in
  if negb room then Done (SQLITE_NOMEM, p) else
  let& (rc, n) := remoteSrvGrowBuf (p_bodyAlloc p) nAlloc in
  if negb (rc =? OK) then
    let& _ := upd (set_srv (add_alloc (- (nAlloc - n)))) in
    Done (rc, set_body (p_body p) n p)
  else Done (OK, set_body (p_body p ++ aData) n p).

(** 0: the slot no longer owns the connection; -1: it still does. *)
Definition pendingPromote (p : PendingConn) (nHeader : Z) : code (Z * PendingConn) :=
  let& zCopy := sqlite3_malloc in
  if negb zCopy then Done (-1, p) else
  let& ok := succeeds in
  if negb ok then let& _ := free true in Done (-1, p) else
  let& _ := enqueueJob (Job (p_fd p) (p_conn p) (aBuf p) nHeader (p_body p) (p_bodyAlloc p) (p_status p)) in
  Done (0, vacated p).

(** [if( pendingPromote(...)!=0 ) pendingClose(...)] *)
Definition promote_or_close (p : PendingConn) : code PendingConn :=
  let& (rc, p) := pendingPromote p (p_nHeader p) in
  if rc =? 0 then Done p else pendingClose p.

(** What a read that does not block gives: -2, end or error, or bytes. *)
Inductive received : Type := Again | Closed | Data (b : list Z).
Definition receive (space : Z) : code received :=
  ask (fun r => match r with Data b => bytes_wf b /\ 0 < zlen b <= space | _ => True end).

Section server.
(** What was set up before the threads start. *)
Context (l : locals) (auth : server_auth) (tls : bool) (timeoutMs : Z).

Definition serverHeaderBudget : Z :=
  if timeoutMs <? SERVER_HEADER_TIMEOUT_MS then timeoutMs else SERVER_HEADER_TIMEOUT_MS.
Definition pendingBudget (p : PendingConn) : Z :=
  if bHandshake p then timeoutMs
  else if negb (p_nHeader p =? 0) then
    let budget := serverHeaderBudget + zlen (p_body p) * 1000 / SERVER_BODY_MIN_RATE in
    if budget <? timeoutMs then budget else timeoutMs
  else serverHeaderBudget.

(** Some result of [requestHeaderStatus] with the files and the time it finds. *)
Definition header_status (zPrefix : list Z) (nHeader : Z) : code (Z * Z) :=
  ask (fun r => exists w now w', fs_wf w /\ is_time now /\ requestHeaderStatus l auth zPrefix nHeader now w = Ret r w').

(** One round of the loop that reads the header: [inr (inl rc)] is a return,
    [inr (inr p)] the end of the loop. *)
Definition read_header (p : PendingConn) : code (PendingConn + ((Z * PendingConn) + PendingConn)) :=
  if negb (p_nHeader p =? 0) || (MAX_HEADER_SIZE - 1 <=? zlen (aBuf p)) then Done (inr (inr p)) else
  let& n := receive (MAX_HEADER_SIZE - 1 - zlen (aBuf p)) in
  match n with
  | Again => Done (inr (inl (0, p)))
  | Closed => let& p := pendingClose p in Done (inr (inl (1, p)))
  | Data b =>
      let p := set_buf (aBuf p ++ b) (startMs p) p in
      let nHeader := pendingHeaderEnd (aBuf p) in
      if nHeader =? 0 then Done (inl p) else
      let& (st, len) := header_status (aBuf p) nHeader in
      let p := set_header nHeader len st p in
      if negb (st =? 200) then let& p := promote_or_close p in Done (inr (inl (1, p))) else
      let nCopy := if len <? zlen (aBuf p) - nHeader then len else zlen (aBuf p) - nHeader in
      let& (rc, p) := pendingAppendBody p (take (Z.to_nat nCopy) (drop (Z.to_nat nHeader) (aBuf p))) in
      if negb (rc =? OK) then let& p := pendingClose p in Done (inr (inl (1, p))) else
      let& ms := monotonicMs in
      Done (inl (set_buf (take (Z.to_nat nHeader) (aBuf p)) ms p))
  end.

(** The part of [pendingIngest] that reads the body. *)
Definition read_body (p : PendingConn) : code (Z * PendingConn) :=
  if p_nHeader p =? 0 then let& p := pendingClose p in Done (1, p) else
  let nRead := p_contentLength p - zlen (p_body p) in
  let p := set_again false p in
  let& ms := monotonicMs in
  if pendingBudget p <=? ms - startMs p then let& p := promote_or_close (set_status 400 p) in Done (1, p) else
  if nRead <=? 0 then let& p := promote_or_close p in Done (1, p) else
  let& n := receive (if 8192 <? nRead then 8192 else nRead) in
  match n with
  | Again => Done (0, p)
  | Closed => let& p := promote_or_close (set_status 400 p) in Done (1, p)
  | Data b =>
      let& (rc, p) := pendingAppendBody p b in
      if negb (rc =? OK) then let& p := pendingClose p in Done (1, p) else
      if zlen (p_body p) <? p_contentLength p then Done (0, set_again true p) else
      let& p := promote_or_close p in Done (1, p)
  end.

Definition read_request (p : PendingConn) : code (Z * PendingConn) :=
  let& r := iter read_header p in
  match r with
  | inl r => Done r
  | inr p => read_body p
  end.

(** 1 when the slot is free. *)
Definition pendingIngest (p : PendingConn) : code (Z * PendingConn) :=
  if p_fd p <? 0 then Done (1, p) else
  if bHandshake p then
    let& step := ask (fun n : Z => -1 <= n <= 2) in
    if step <? 0 then let& p := pendingClose p in Done (1, p) else
    if step =? 2 then Done (0, set_handshake true true (startMs p) p) else
    if step =? 1 then Done (0, set_handshake true false (startMs p) p) else
    let& ms := monotonicMs in
    read_request (set_handshake false false ms p)
  else read_request p.

(** 0 when the connection is in the last slot. *)
Definition pendingAdd (aPending : list PendingConn) (clientFd : Z) : code (Z * list PendingConn) :=
  if SERVER_PENDING_MAX <=? zlen aPending then let& _ := doltliteCloseSocket clientFd in Done (-1, aPending) else
  let& ok := succeeds in
  if negb ok then let& _ := doltliteCloseSocket clientFd in Done (-1, aPending) else
  let& ms := monotonicMs in
  if tls then
    let& conn := doltliteConnServerAttach clientFd in
    if negb conn then Done (-1, aPending)
    else Done (0, aPending ++ [Pending clientFd true ms [] true false 0 0 [] 0 0 false])
  else Done (0, aPending ++ [Pending clientFd false ms [] false false 0 0 [] 0 0 false]).

(** * The accepting thread *)
Definition accept_one (aPending : list PendingConn) : code (list PendingConn) :=
  let& clientFd := accept in
  match clientFd with
  | None => Done aPending
  | Some clientFd =>
      let& (rc, aPending') := pendingAdd aPending clientFd in
      if negb (rc =? 0) then Done aPending' else
      let n := (length aPending' - 1)%nat in
      let& p := must (aPending' !! n) in
      let& (gone, p) := pendingIngest p in
      Done (if gone =? 0 then <[n := p]> aPending' else take n aPending')
  end.

(** The slots [0..i-1], from the last one; a free slot gets the last one's
    contents.  The bits of [revents] are those of the slot's [events]. *)
Fixpoint poll_loop (i : nat) (aPending : list PendingConn) : code (list PendingConn) :=
  match i with
  | O => Done aPending
  | S i =>
      let& p := must (aPending !! i) in
      let& (ready, writable) := ask (fun _ : bool * bool => True) in
      let& (remove, p) := if bReadAgain p || ready || (bWantWrite p && writable) then pendingIngest p else Done (0, p) in
      let& ms := monotonicMs in
      let& (remove, p) :=
        if (remove =? 0) && (pendingBudget p <? ms - startMs p) then
          let p := set_status 400 p in
          let& p := if p_nHeader p =? 0 then pendingClose p else promote_or_close p in
          Done (1, p)
        else Done (remove, p) in
      let aPending := <[i := p]> aPending in
      let n := (length aPending - 1)%nat in
      let& aPending :=
        if remove =? 0 then Done aPending
        else let& q := must (aPending !! n) in Done (take n (<[i := q]> aPending)) in
      poll_loop i aPending
  end.

Fixpoint close_all (aPending : list PendingConn) : code unit :=
  match aPending with
  | [] => Done tt
  | p :: aPending => let& _ := pendingClose p in close_all aPending
  end.

Definition serverLoop : code unit :=
  iter (fun aPending =>
    let& run := act (fun s => Go (running (srv s)) s) in
    if negb run then let& _ := close_all aPending in Done (inr tt) else
    let& polled := succeeds in
    if negb polled then Done (inl aPending) else
    let& readable := ask (fun _ : bool => True) in
    let& aPending' := if readable : bool then accept_one aPending else Done aPending in
    let& aPending' := poll_loop (length aPending) aPending' in
    Done (inl aPending')) [].

(** * The server *)
(** [doltliteServeAsyncOpts] and, at some point, [doltliteServerStop]. *)
Definition server_threads : list (code unit) :=
  serverLoop :: serverRequestStop :: (serverWorkerEntry <$> seq 0 (Z.to_nat SERVER_WORKERS)).
Definition no_job : ServerJob := Job (-1) false [] 0 [] 0 0.
Definition server_start : config state :=
  (State (Server true (replicate (Z.to_nat SERVER_QUEUE_SIZE) no_job) 0 0 (replicate (Z.to_nat SERVER_WORKERS) (-1)) 0) ∅ 0 [], server_threads).
End server.
