(* ===== verification/ServerSpec.v ===== *)
(** The account of the server: which sockets, blocks and bytes of the budget
    its parts own, and what each operation does with them. *)
From stdpp Require Import gmultiset.
From S2P Require Import Prelude CInt Ge Ed25519 CString World Radix Json Creds CredsFile Bearer CredsConfig CredsSpec CredsReplace CredsRead BearerSpec Http HttpSpec Threads Server.
#[local] Opaque public_of secret_of digest224.

(** * What is owned *)
(** Sockets, bytes of the budget, heap blocks, and the knowledge that the
    server was stopped. *)
Record own : Type := Own { o_fds : gmultiset Z; o_bytes : N; o_blocks : N; o_stopped : bool }.

Lemma own_eq x y : o_fds x = o_fds y -> o_bytes x = o_bytes y -> o_blocks x = o_blocks y -> o_stopped x = o_stopped y -> x = y.
Proof. destruct x, y. cbn. by intros -> -> -> ->. Qed.

Definition own_op (x y : own) : own := Own (o_fds x ⊎ o_fds y) (o_bytes x + o_bytes y) (o_blocks x + o_blocks y) (o_stopped x || o_stopped y).
Definition own_unit : own := Own ∅ 0 0 false.

#[export] Program Instance own_resource : Resource own := { r_op := own_op; r_unit := own_unit }.
Next Obligation. intros. apply own_eq; cbn [own_op o_fds o_bytes o_blocks o_stopped]; [multiset_solver|lia|lia|apply orb_assoc]. Qed.
Next Obligation. intros. apply own_eq; cbn [own_op o_fds o_bytes o_blocks o_stopped]; [multiset_solver|lia|lia|apply orb_comm]. Qed.
Next Obligation. intros. apply own_eq; cbn [own_op own_unit o_fds o_bytes o_blocks o_stopped]; [multiset_solver|lia|lia|done]. Qed.

Definition own_fd (fd : Z) : own := Own {[+ fd +]} 0 0 false.
Definition own_bytes (n : Z) : own := Own ∅ (Z.to_N n) 0 false.
Definition own_block (b : bool) : own := Own ∅ 0 (N.b2n b) false.
Definition own_stop : own := Own ∅ 0 0 true.

(** Equality of what is owned. *)
Ltac own_cbn := unfold own_fd, own_bytes, own_block, own_stop; cbn [r_op r_unit own_resource own_op own_unit o_fds o_bytes o_blocks o_stopped N.b2n].
Ltac own_in H := unfold own_fd, own_bytes, own_block, own_stop in H; cbn [r_op r_unit own_resource own_op own_unit o_fds o_bytes o_blocks o_stopped N.b2n] in H.
Ltac own_eq := apply own_eq; own_cbn; [multiset_solver|try lia|try lia|try (rewrite ?orb_false_r, ?orb_true_r; reflexivity)].

(** * The queue *)
Definition queue_wf (v : DoltliteServer) : Prop :=
  zlen (queue v) = SERVER_QUEUE_SIZE /\ 0 <= queueHead v < SERVER_QUEUE_SIZE /\ 0 <= nQueue v <= SERVER_QUEUE_SIZE.
Definition job_at (v : DoltliteServer) (i : nat) : ServerJob :=
  default no_job (queue v !! Z.to_nat ((queueHead v + Z.of_nat i) mod SERVER_QUEUE_SIZE)).
(** The jobs in the order in which they were put. *)
Definition jobs (v : DoltliteServer) : list ServerJob := job_at v <$> seq 0 (Z.to_nat (nQueue v)).

(** The queue without its first job. *)
Definition next_job (v : DoltliteServer) : DoltliteServer :=
  Server (running v) (queue v) ((queueHead v + 1) mod SERVER_QUEUE_SIZE) (nQueue v - 1) (activeFd v) (nBodyAlloc v).

Lemma put_job_wf j v : queue_wf v -> nQueue v < SERVER_QUEUE_SIZE -> queue_wf (put_job j v).
Proof. intros (Hl & Hh & Hn) Hlt. unfold queue_wf. cbn [put_job queue queueHead nQueue]. rewrite length_insert. lia. Qed.

Lemma jobs_put j v : queue_wf v -> nQueue v < SERVER_QUEUE_SIZE -> jobs (put_job j v) = jobs v ++ [j].
Proof.
  intros (Hl & Hh & Hn) Hlt. unfold jobs, SERVER_QUEUE_SIZE in *. cbn [put_job nQueue].
  replace (Z.to_nat (nQueue v + 1)) with (Z.to_nat (nQueue v) + 1)%nat by lia. rewrite seq_app, fmap_app. cbn [Nat.add seq fmap list_fmap]. f_equal.
  - apply list_fmap_ext. intros i ? [-> Hi]%lookup_seq. rewrite Nat.add_0_l. unfold job_at. cbn [put_job queue queueHead]. unfold SERVER_QUEUE_SIZE.
    rewrite list_lookup_insert_ne; [done|]. intros E. apply (f_equal Z.of_nat) in E. rewrite !Z2Nat.id in E by (apply Z.mod_pos_bound; lia).
    pose proof (Z.div_mod (queueHead v + nQueue v) 16). pose proof (Z.div_mod (queueHead v + Z.of_nat i) 16). lia.
  - unfold job_at. cbn [put_job queue queueHead nQueue]. unfold SERVER_QUEUE_SIZE. rewrite Z2Nat.id by lia.
    rewrite list_lookup_insert_eq; [done|]. pose proof (Z.mod_pos_bound (queueHead v + nQueue v) 16). lia.
Qed.

Lemma next_job_wf v : queue_wf v -> 0 < nQueue v -> queue_wf (next_job v).
Proof.
  intros (Hl & Hh & Hn) Hlt. unfold queue_wf, SERVER_QUEUE_SIZE in *. cbn [next_job queue queueHead nQueue]. unfold SERVER_QUEUE_SIZE. pose proof (Z.mod_pos_bound (queueHead v + 1) 16). lia.
Qed.

Lemma jobs_next v : queue_wf v -> 0 < nQueue v -> exists j, queue v !! Z.to_nat (queueHead v) = Some j /\ jobs v = j :: jobs (next_job v).
Proof.
  intros (Hl & Hh & Hn) Hlt. unfold SERVER_QUEUE_SIZE in *. destruct (lookup_lt_is_Some_2 (queue v) (Z.to_nat (queueHead v))) as [j Hj]; [lia|].
  exists j. split; [done|]. unfold jobs. cbn [next_job nQueue]. replace (Z.to_nat (nQueue v)) with (S (Z.to_nat (nQueue v - 1))) by lia.
  cbn [seq fmap list_fmap]. f_equal.
  - unfold job_at, SERVER_QUEUE_SIZE. rewrite Z.add_0_r, Z.mod_small by lia. by rewrite Hj.
  - rewrite <- fmap_S_seq, <- list_fmap_compose. apply list_fmap_ext. intros ? i _. unfold compose, job_at. cbn [next_job queue queueHead].
    unfold SERVER_QUEUE_SIZE. rewrite Zplus_mod_idemp_l. do 4 f_equal. lia.
Qed.

Lemma jobs_nil v : nQueue v = 0 -> jobs v = [].
Proof. unfold jobs. by intros ->. Qed.

(** * The account *)
Section account.
Context (auth : server_auth).

(** The header block is that of a request with a valid token, and with a body
    of [len] bytes. *)
Definition header_ok (zPrefix : list Z) (nHeader len : Z) : Prop :=
  exists w now req, fs_wf w /\ is_time now /\ parseRequestHeaders zPrefix nHeader 16 512 (Some 1024) = Some (Some req) /\
    contentRc (r_headers req) = 0 /\ request_length req = len /\ admitted w auth (zAuth (r_headers req)) now.

Definition job_ok (j : ServerJob) : Prop :=
  0 <= j_fd j /\ 0 <= j_bodyAlloc j /\ (j_status j = 200 -> header_ok (j_prefix j) (j_nHeader j) (zlen (j_body j))).

(** What the queue owns for a job: the socket, the bytes of the body, and the
    blocks of the prefix, the connection and the body. *)
Definition own_of_job (j : ServerJob) : own :=
  Own {[+ j_fd j +]} (Z.to_N (j_bodyAlloc j)) (1 + N.b2n (j_conn j) + N.b2n (0 <? j_bodyAlloc j)) false.
Definition own_of_jobs (js : list ServerJob) : own := total (own_of_job <$> js).

(** The state has the sockets, the bytes and the blocks of [o]. *)
Definition accounts (s : state) (o : own) : Prop :=
  open_fds s = o_fds o /\ nBodyAlloc (srv s) = Z.of_N (o_bytes o) /\ live s = Z.of_N (o_blocks o).

Definition event_ok (e : event) : Prop :=
  match e with
  | Served j => job_ok j
  | Shutdown _ _ => True
  end.

Record queue_inv (s : state) : Prop := {
  inv_queue : queue_wf (srv s);
  inv_budget : nBodyAlloc (srv s) <= SERVER_BODY_BUFFER_MAX;
  inv_jobs : Forall job_ok (jobs (srv s));
  inv_events : Forall event_ok (events s)
}.
(** Once stopped, the queue stays empty. *)
Definition server_inv (s : state) : Prop := queue_inv s /\ (running (srv s) = false -> nQueue (srv s) = 0).

(** The queue and the threads own everything there is. *)
Definition J (s : state) (r : own) : Prop :=
  server_inv s /\ accounts s (own_of_jobs (jobs (srv s)) ⋅ r) /\ (o_stopped r = true -> running (srv s) = false).

Lemma own_of_jobs_app a b : own_of_jobs (a ++ b) = own_of_jobs a ⋅ own_of_jobs b.
Proof using. unfold own_of_jobs. induction a as [|x a IH]; cbn [app fmap list_fmap total foldr]; [by rewrite r_op_unit|]. fold (total (own_of_job <$> (a ++ b))). change (foldr r_op r_unit (own_of_job <$> a ++ b)) with (total (own_of_job <$> (a ++ b))). rewrite IH. apply r_op_assoc. Qed.

Lemma own_of_jobs_stopped js : o_stopped (own_of_jobs js) = false.
Proof using. induction js as [|j js IH]; [done|]. exact IH. Qed.

Abbreviation wp := (wp J).

(** An action that leaves the queue alone: it trades [r] for [r']. *)
Lemma wp_trade {B} (f : state -> result state B) r (Q : B -> own -> Prop) :
  (forall s F, server_inv s -> accounts s (r ⋅ F) ->
     match f s with
     | Go b s' => exists r', Q b r' /\ o_stopped r' = o_stopped r /\ accounts s' (r' ⋅ F) /\ server_inv s' /\
         jobs (srv s') = jobs (srv s) /\ running (srv s') = running (srv s)
     | Wait => True
     | Wrong => False
     end) ->
  wp (act f) r Q.
Proof using.
  intros H s F (Hi & Ha & Hs). cbn [act]. set (q := own_of_jobs (jobs (srv s))) in *.
  assert (q ⋅ (r ⋅ F) = r ⋅ (q ⋅ F)) as E by (rewrite !r_op_assoc; f_equal; apply r_op_comm). rewrite E in Ha. specialize (H s _ Hi Ha).
  destruct (f s) as [b s'| |]; [|done|done]. destruct H as (r' & HQ & Es & Ha' & Hi' & Ej & Er). exists r'. split; [|done]. split_and!; [done| |].
  - rewrite Ej. fold q. assert (q ⋅ (r' ⋅ F) = r' ⋅ (q ⋅ F)) as -> by (rewrite !r_op_assoc; f_equal; apply r_op_comm). done.
  - rewrite Er. intros Ho. apply Hs. cbn [r_op own_resource own_op o_stopped] in *. by rewrite <- Es.
Qed.

(** The same for a change of sockets, bytes and blocks. *)
Lemma trade_ok s s' r r' F : server_inv s -> jobs (srv s') = jobs (srv s) -> running (srv s') = running (srv s) -> nQueue (srv s') = nQueue (srv s) ->
  queue_wf (srv s') -> nBodyAlloc (srv s') <= SERVER_BODY_BUFFER_MAX -> Forall event_ok (events s') ->
  o_stopped r' = o_stopped r -> accounts s' (r' ⋅ F) ->
  o_stopped r' = o_stopped r /\ accounts s' (r' ⋅ F) /\ server_inv s' /\ jobs (srv s') = jobs (srv s) /\ running (srv s') = running (srv s).
Proof using. intros [[] ?] Ej Er En Hq Hb He Hs Ha. split; [done|]. split; [done|]. split; [|done]. split; [split; [done|done|by rewrite Ej|done]|by rewrite Er, En]. Qed.

Ltac trade Hi :=
  eapply trade_ok; [exact Hi|reflexivity|reflexivity|reflexivity|exact (inv_queue _ (proj1 Hi))|try exact (inv_budget _ (proj1 Hi))|try exact (inv_events _ (proj1 Hi))|own_cbn; try reflexivity|unfold accounts; own_cbn].

Lemma close_wp fd : wp (doltliteCloseSocket fd) (own_fd fd) (fun _ r => r = r_unit).
Proof using.
  apply wp_trade. intros s F Hi (Ho & Hb & Hl). own_in Ho. own_in Hb. own_in Hl. unfold close_fd. rewrite decide_True by multiset_solver.
  exists r_unit. split; [done|]. trade Hi. cbn [set_open open_fds srv live]. rewrite Ho. split_and!; [multiset_solver|done|done].
Qed.

Lemma accept_wp : wp accept r_unit (fun x r => match x with None => r = r_unit | Some fd => 0 <= fd /\ r = own_fd fd end).
Proof using.
  apply wp_ask. intros [fd|] Hfd; [|done]. apply wp_trade. intros s F Hi (Ho & Hb & Hl). own_in Ho. own_in Hb. own_in Hl. destruct (decide _); [done|].
  exists (own_fd fd). split; [done|]. trade Hi. cbn [set_open open_fds srv live]. rewrite Ho. split_and!; [multiset_solver|done|done].
Qed.

Lemma add_live_wp n a b : Z.of_N b = Z.of_N a + n -> wp (upd (add_live n)) (Own ∅ 0 a false) (fun _ r => r = Own ∅ 0 b false).
Proof using.
  intros E. apply wp_trade. intros s F Hi (Ho & Hb & Hl). own_in Ho. own_in Hb. own_in Hl. eexists. split; [done|]. trade Hi. cbn [add_live open_fds srv live]. split_and!; [done|done|lia].
Qed.

Lemma malloc_wp : wp sqlite3_malloc r_unit (fun b r => r = own_block b).
Proof using.
  apply wp_ask. intros [] _; [|done]. eapply (wp_call J _ _ _ _ r_unit); [by apply (add_live_wp 1 0 1)|own_eq|]. intros _ r ->. own_eq.
Qed.

Lemma free_wp b : wp (free b) (own_block b) (fun _ r => r = r_unit).
Proof using. destruct b; [|done]. by apply (add_live_wp (-1) 1 0). Qed.

Lemma release_wp n : 0 <= n -> wp (upd (set_srv (add_alloc (- n)))) (own_bytes n) (fun _ r => r = r_unit).
Proof using.
  intros Hn. apply wp_trade. intros s F Hi (Ho & Hb & Hl). own_in Ho. own_in Hb. own_in Hl. pose proof (inv_budget _ (proj1 Hi)). exists r_unit. split; [done|]. trade Hi.
  - cbn. lia.
  - cbn [set_srv add_alloc nBodyAlloc open_fds srv live]. split_and!; [multiset_solver|lia|done].
Qed.

(** A call with the rest of what is owned. *)
Ltac call lem F := eapply (wp_call J _ _ _ _ F); [apply lem|own_eq|].

Lemma conn_close_wp fd : wp (doltliteConnClose fd) (own_fd fd ⋅ own_block true) (fun _ r => r = r_unit).
Proof using. call close_wp (own_block true). intros _ r ->. rewrite r_op_unit. apply free_wp. Qed.

(** Closing what a slot or a job holds: the connection or the plain socket. *)
Lemma close_either_wp (conn : bool) fd : 0 <= fd ->
  wp (if conn then doltliteConnClose fd else if 0 <=? fd then doltliteCloseSocket fd else Done tt) (own_fd fd ⋅ own_block conn) (fun _ r => r = r_unit).
Proof using.
  intros Hfd. destruct conn; [apply conn_close_wp|]. rewrite (proj2 (Z.leb_le 0 fd) Hfd).
  assert (own_fd fd ⋅ own_block false = own_fd fd) as -> by own_eq. apply close_wp.
Qed.

Lemma from_fd_wp fd : wp (doltliteConnFromFd fd) (own_fd fd) (fun b r => r = if b then own_fd fd ⋅ own_block true else r_unit).
Proof using.
  call malloc_wp (own_fd fd). intros [] r ->; [apply r_op_comm|]. assert (own_block false ⋅ own_fd fd = own_fd fd) as -> by own_eq.
  call close_wp r_unit. intros _ r ->. own_eq.
Qed.

Lemma attach_wp fd : wp (doltliteConnServerAttach fd) (own_fd fd) (fun b r => r = if b then own_fd fd ⋅ own_block true else r_unit).
Proof using.
  call malloc_wp (own_fd fd). intros [] r ->.
  - apply wp_ask. intros [] _; [apply r_op_comm|]. call close_wp (own_block true). intros _ r ->. rewrite r_op_unit. call (free_wp true) r_unit. intros _ r ->. own_eq.
  - call close_wp r_unit. intros _ r ->. own_eq.
Qed.

(** * Jobs *)
(** The parts of what a job owns. *)
Lemma own_of_job_parts j : own_of_job j = own_bytes (j_bodyAlloc j) ⋅ (own_block true ⋅ (own_block (0 <? j_bodyAlloc j) ⋅ (own_fd (j_fd j) ⋅ own_block (j_conn j)))).
Proof using. unfold own_of_job. own_eq. Qed.

Lemma accounts_comm s (q r F : own) : accounts s (q ⋅ (r ⋅ F)) -> accounts s (r ⋅ (q ⋅ F)).
Proof using. rewrite !(r_op_assoc), (r_op_comm q r). done. Qed.

Lemma put_wp j : job_ok j ->
  wp (act (fun s => if negb (running (srv s)) || (nQueue (srv s) =? SERVER_QUEUE_SIZE) then Go false (set_srv (add_alloc (- j_bodyAlloc j)) s)
                    else Go true (set_srv (put_job j) s)))
    (own_of_job j) (fun ok r => r = if ok : bool then r_unit else own_block true ⋅ (own_block (0 <? j_bodyAlloc j) ⋅ (own_fd (j_fd j) ⋅ own_block (j_conn j)))).
Proof using.
  intros Hj s F HJ. destruct (_ || _) eqn:E.
  - pose proof (release_wp (j_bodyAlloc j) (proj1 (proj2 Hj)) s (own_block true ⋅ (own_block (0 <? j_bodyAlloc j) ⋅ (own_fd (j_fd j) ⋅ own_block (j_conn j))) ⋅ F)) as H.
    cbn beta iota in H. destruct H as (r' & HJ' & ->); [by rewrite r_op_assoc, <- own_of_job_parts|]. rewrite r_op_unit in HJ'. eexists. split; [exact HJ'|]. done.
  - destruct HJ as (Hi & Ha & Hs). exists r_unit. split; [|done]. apply orb_false_iff in E as [Er En]. apply negb_false_iff in Er. apply Z.eqb_neq in En.
    pose proof (inv_queue _ (proj1 Hi)) as Hq. assert (nQueue (srv s) < SERVER_QUEUE_SIZE) by (destruct Hq; lia).
    pose proof (jobs_put j _ Hq ltac:(done)) as Ej. destruct Hi as [[_ Hb Hjs He] _]. split; [split|split].
    + split; cbn [set_srv srv events]; [by apply put_job_wf|done|rewrite Ej; by apply Forall_app_2, Forall_singleton|done].
    + cbn. congruence.
    + cbn [set_srv srv]. rewrite Ej, own_of_jobs_app, r_op_unit. change (own_of_jobs [j]) with (own_of_job j ⋅ r_unit). rewrite (r_op_comm _ r_unit), r_op_unit, <- r_op_assoc. exact Ha.
    + intros Ho. exact (Hs Ho).
Qed.

Lemma enqueue_wp j : job_ok j -> wp (enqueueJob j) (own_of_job j) (fun _ r => r = r_unit).
Proof using.
  intros Hj. apply prog_wp_bind. eapply prog_wp_mono; [by apply put_wp|]. intros [] r ->; [done|]. destruct Hj as (Hfd & _).
  call (free_wp true) (own_block (0 <? j_bodyAlloc j) ⋅ (own_fd (j_fd j) ⋅ own_block (j_conn j))). intros _ r ->. rewrite r_op_unit.
  call free_wp (own_fd (j_fd j) ⋅ own_block (j_conn j)). intros _ r ->. rewrite r_op_unit.
  call close_either_wp r_unit; [done|]. intros _ r ->. own_eq.
Qed.

(** The queue gives its first job to the thread. *)
Lemma next_job_account s F : queue_inv s -> accounts s (own_of_jobs (jobs (srv s)) ⋅ F) -> 0 < nQueue (srv s) -> forall v, queue v = queue (srv s) ->
  queueHead v = queueHead (next_job (srv s)) -> nQueue v = nQueue (srv s) - 1 -> nBodyAlloc v = nBodyAlloc (srv s) ->
  exists j, queue (srv s) !! Z.to_nat (queueHead (srv s)) = Some j /\ job_ok j /\ queue_inv (set_srv (fun _ => v) s) /\
    accounts (set_srv (fun _ => v) s) (own_of_jobs (jobs v) ⋅ (own_of_job j ⋅ F)).
Proof using.
  intros Hi Ha Hn v Eq Eh En Eb. destruct (jobs_next (srv s) (inv_queue _ Hi) Hn) as (j & Hj & Ej). exists j. split; [done|].
  pose proof (inv_jobs _ Hi) as Hjs. rewrite Ej in Hjs. apply Forall_cons in Hjs as [Hjo Hjs]. split; [done|].
  assert (jobs v = jobs (next_job (srv s))) as Ejv by (unfold jobs, job_at; rewrite En, Eh, Eq; done).
  pose proof (next_job_wf _ (inv_queue _ Hi) Hn) as Hwf. destruct Hi as [_ Hb _ He]. split.
  - split; cbn [set_srv srv events]; [unfold queue_wf; by rewrite Eq, Eh, En|by rewrite Eb|by rewrite Ejv|done].
  - rewrite Ejv. unfold accounts in *. cbn [set_srv srv open_fds live]. rewrite Eb. rewrite Ej in Ha.
    change (own_of_jobs (j :: ?js)) with (own_of_job j ⋅ own_of_jobs js) in Ha. rewrite <- r_op_assoc in Ha. by apply (accounts_comm s).
Qed.
End account.
