(* ===== verification/ServerRun.v ===== *)
(** The threads of the server keep its account: the workers, the stop, and the
    accepting thread with its pending connections. *)
From stdpp Require Import gmultiset.
From S2P Require Import Prelude CInt Ge Ed25519 Ed25519Spec CString World Radix Json Creds CredsFile Bearer CredsConfig CredsSpec CredsReplace CredsRead BearerSpec Http HttpSpec Threads Server ServerSpec.
#[local] Opaque public_of secret_of digest224.

Section threads.
Context (auth : server_auth).
Abbreviation J := (J auth).
Abbreviation wp := (wp J).
Abbreviation job_ok := (job_ok auth).
Abbreviation header_ok := (header_ok auth).

(** * Workers *)
Lemma take_wp i : wp (act (take_job i)) r_unit (fun j r => match j with None => r = own_stop | Some j => job_ok j /\ r = own_of_job j end).
Proof using.
  intros s F HJ. rewrite r_op_unit in HJ. unfold take_job. destruct (Z.eqb_spec (nQueue (srv s)) 0) as [En|En].
  - destruct (running (srv s)) eqn:Er; [done|]. exists own_stop. split; [|done]. destruct HJ as (Hi & Ha & Hs). split_and!; [done| |by intros _].
    assert (accounts s (own_stop ⋅ (own_of_jobs (jobs (srv s)) ⋅ F))) as H; [|by apply accounts_comm].
    revert Ha. unfold accounts. own_cbn. intros (-> & -> & ->). split_and!; [multiset_solver|lia|lia].
  - destruct HJ as ([Hi Hst] & Ha & Hs). pose proof (inv_queue _ _ Hi) as (_ & Hh & Hq). destruct (next_job_account auth s F Hi Ha ltac:(lia)
      (Server (running (srv s)) (queue (srv s)) ((queueHead (srv s) + 1) mod SERVER_QUEUE_SIZE) (nQueue (srv s) - 1)
      (<[i := j_fd (job_at (srv s) 0)]> (activeFd (srv s))) (nBodyAlloc (srv s)))) as (j & Hj & Hok & Hi' & Ha'); [done..|]. rewrite Hj.
    replace (job_at (srv s) 0) with j in Hi', Ha' by (unfold job_at; rewrite Z.add_0_r, Z.mod_small by done; by rewrite Hj).
    exists (own_of_job j). split; [|done]. split; [split; [exact Hi'|cbn; intros Er%Hst; lia]|]. split; [exact Ha'|exact Hs].
Qed.

Lemma served_wp j : job_ok j -> wp (upd (log (Served j))) r_unit (fun _ r => r = r_unit).
Proof using.
  intros Hj. apply wp_trade. intros s F Hi Ha. exists r_unit. split; [done|]. eapply trade_ok; [exact Hi|done|done|done|exact (inv_queue _ _ (proj1 Hi))|exact (inv_budget _ _ (proj1 Hi))| |done|exact Ha].
  cbn [log events]. constructor; [done|exact (inv_events _ _ (proj1 Hi))].
Qed.

(** [activeFd] does not matter to the account. *)
Lemma finish_wp i n : 0 <= n -> wp (upd (set_srv (fun v => set_active i (-1) (add_alloc (- n) v)))) (own_bytes n) (fun _ r => r = r_unit).
Proof using.
  intros Hn. apply wp_trade. intros s F Hi (Ho & Hb & Hlive). own_in Ho. own_in Hb. own_in Hlive. pose proof (inv_budget _ _ (proj1 Hi)). exists r_unit. split; [done|].
  eapply trade_ok; [exact Hi|done|done|done|exact (inv_queue _ _ (proj1 Hi))|cbn; lia|exact (inv_events _ _ (proj1 Hi))|done|]. unfold accounts. own_cbn.
  cbn [set_srv set_active add_alloc nBodyAlloc open_fds srv live]. split_and!; [multiset_solver|lia|done].
Qed.

Lemma serve_wp i j : job_ok j ->
  wp (let& conn := if j_conn j then Done true else doltliteConnFromFd (j_fd j) in
      let& _ := if conn : bool then let& _ := upd (log (Served j)) in doltliteConnClose (j_fd j) else Done tt in
      let& _ := free true in
      let& _ := free (0 <? j_bodyAlloc j) in
      let& _ := upd (set_srv (fun v => set_active i (-1) (add_alloc (- j_bodyAlloc j) v))) in
      Done (inl tt : unit + unit))
    (own_of_job j) (fun x r => x = inl tt /\ r = r_unit).
Proof using.
  intros Hj. set (F := own_block true ⋅ (own_block (0 <? j_bodyAlloc j) ⋅ own_bytes (j_bodyAlloc j))).
  assert (own_of_job j = (own_fd (j_fd j) ⋅ own_block (j_conn j)) ⋅ F) as -> by (unfold F, own_of_job; own_eq).
  eapply (wp_call J _ _ _ _ F (fun b r => r = if b : bool then own_fd (j_fd j) ⋅ own_block true else r_unit)); [|done|].
  { destruct (j_conn j); [done|]. assert (own_fd (j_fd j) ⋅ own_block false = own_fd (j_fd j)) as -> by own_eq. apply from_fd_wp. }
  intros b r ->. eapply (wp_call J _ _ _ _ F (fun _ r => r = r_unit)); [|done|].
  { destruct b; [|done]. eapply (wp_call J _ _ _ _ (own_fd (j_fd j) ⋅ own_block true)); [by apply served_wp|by rewrite r_op_unit|]. intros _ r ->. rewrite r_op_unit. apply conn_close_wp. }
  intros _ r ->. rewrite r_op_unit. eapply (wp_call J _ _ _ _ (own_block (0 <? j_bodyAlloc j) ⋅ own_bytes (j_bodyAlloc j))); [apply (free_wp auth true)|done|]. intros _ r ->. rewrite r_op_unit.
  eapply (wp_call J _ _ _ _ (own_bytes (j_bodyAlloc j))); [apply free_wp|done|]. intros _ r ->. rewrite r_op_unit.
  eapply (wp_call J _ _ _ _ r_unit); [apply finish_wp; apply Hj|own_eq|]. intros _ r ->. split; [done|]. own_eq.
Qed.

Lemma worker_wp i : wp (serverWorkerEntry i) r_unit (fun _ r => r = own_stop).
Proof using.
  apply (wp_iter J _ (fun _ r => r = r_unit)); [done|]. intros _ r ->. apply prog_wp_bind. eapply prog_wp_mono; [apply take_wp|].
  intros [j|] r; cbn beta iota; [|intros ->; done]. intros [Hj ->]. eapply prog_wp_mono; [by apply serve_wp|]. by intros x r [-> ->].
Qed.

(** * Stop *)
Lemma close_fd_accounts s fd o : accounts s (own_fd fd ⋅ o) -> exists s', close_fd fd s = Some s' /\ accounts s' o /\ srv s' = srv s /\ events s' = events s.
Proof using.
  intros (Ho & Hb & Hlive). own_in Ho. own_in Hb. own_in Hlive. unfold close_fd. rewrite decide_True by multiset_solver. eexists. split; [done|]. split; [|done]. unfold accounts.
  cbn [set_open open_fds srv live]. rewrite Ho. split_and!; [multiset_solver|done|done].
Qed.

Lemma close_either s conn fd o : 0 <= fd -> accounts s (own_fd fd ⋅ own_block conn ⋅ o) ->
  exists s', (if conn : bool then let? s := close_fd fd s in Some (add_live (-1) s) else if 0 <=? fd then close_fd fd s else Some s) = Some s' /\
    accounts s' o /\ srv s' = srv s /\ events s' = events s.
Proof using.
  intros Hfd Ha. rewrite <- r_op_assoc in Ha. apply close_fd_accounts in Ha as (s' & E & (Ho & Hb & Hlive) & Es & Ee). own_in Ho. own_in Hb. own_in Hlive. destruct conn; cbn [N.b2n] in Hlive.
  - rewrite E. eexists. split; [done|]. split; [|done]. unfold accounts. cbn [add_live open_fds srv live]. rewrite Ho. split_and!; [multiset_solver|lia|lia].
  - rewrite (proj2 (Z.leb_le 0 fd) Hfd), E. eexists. split; [done|]. split; [|done]. unfold accounts. rewrite Ho. split_and!; [multiset_solver|lia|lia].
Qed.

Lemma drop_job_ok s j o : job_ok j -> accounts s (own_of_job j ⋅ o) -> Forall (event_ok auth) (events s) ->
  exists s', drop_job j s = Some s' /\ accounts s' o /\ srv s' = add_alloc (- j_bodyAlloc j) (srv s) /\ Forall (event_ok auth) (events s').
Proof using.
  intros (Hfd & Hal & _) Ha He. unfold drop_job. assert ((if 0 <=? j_fd j then doltliteShutdownSocket (j_fd j) s else s) = doltliteShutdownSocket (j_fd j) s) as -> by by rewrite (proj2 (Z.leb_le 0 (j_fd j)) Hfd).
  set (s1 := doltliteShutdownSocket (j_fd j) s). cbv zeta.
  destruct (close_either s1 (j_conn j) (j_fd j) (own_bytes (j_bodyAlloc j) ⋅ own_block true ⋅ own_block (0 <? j_bodyAlloc j) ⋅ o)) as (s2 & E & Ha2 & Es & Ee); [done| |].
  { assert (own_fd (j_fd j) ⋅ own_block (j_conn j) ⋅ (own_bytes (j_bodyAlloc j) ⋅ own_block true ⋅ own_block (0 <? j_bodyAlloc j) ⋅ o) = own_of_job j ⋅ o) as -> by (unfold own_of_job; own_eq; done).
    exact Ha. }
  rewrite E. eexists. split; [done|]. destruct Ha2 as (Ho & Hb & Hlive). own_in Ho. own_in Hb. own_in Hlive. unfold accounts.
  destruct (0 <? j_bodyAlloc j); cbn [set_srv add_alloc add_live open_fds srv live events nBodyAlloc N.b2n] in *; rewrite Es, Ee, Ho;
    (split; [split_and!; [multiset_solver|rewrite Es in Hb; cbn in Hb; cbn; lia|lia]|]; split; [done|constructor; done]).
Qed.

Lemma drain_ok fuel s F : queue_inv auth s -> accounts s (own_of_jobs (jobs (srv s)) ⋅ F) -> nQueue (srv s) < Z.of_nat fuel ->
  exists s', drain_queue fuel s = Some s' /\ queue_inv auth s' /\ accounts s' F /\ nQueue (srv s') = 0 /\ running (srv s') = running (srv s).
Proof using.
  revert s. induction fuel as [|fuel IH]; intros s Hi Ha Hf; [pose proof (inv_queue _ _ Hi) as (_ & _ & ?); lia|]. cbn [drain_queue].
  destruct (Z.leb_spec (nQueue (srv s)) 0) as [En|En].
  - assert (nQueue (srv s) = 0) as E0 by (pose proof (inv_queue _ _ Hi) as (_ & _ & ?); lia). exists s. rewrite (jobs_nil _ E0) in Ha. split; [done|]. split; [done|]. split; [|done].
    by rewrite <- (r_op_unit F).
  - destruct (next_job_account auth s F Hi Ha En (next_job (srv s))) as (j & -> & Hj & Hi' & Ha'); [done..|].
    change (set_srv _ s) with (set_srv (fun _ => next_job (srv s)) s). set (s1 := set_srv _ s) in *. apply accounts_comm in Ha'.
    destruct (drop_job_ok s1 j _ Hj Ha' (inv_events _ _ Hi')) as (s2 & -> & Ha2 & Es & He2). destruct (IH s2) as (s' & E & Hi2 & Ha3 & En' & Er).
    + destruct Hi' as [Hq Hb Hjs _]. split; [by rewrite Es|rewrite Es; cbn; destruct Hj as (_ & ? & _); cbn in Hb; lia|by rewrite Es|done].
    + rewrite Es. exact Ha2.
    + rewrite Es. cbn. lia.
    + exists s'. rewrite Er, Es. by split_and!.
Qed.

Lemma shutdown_all fds s : let s' := foldl (fun s fd => if 0 <=? fd then doltliteShutdownSocket fd s else s) s fds in
  srv s' = srv s /\ open_fds s' = open_fds s /\ live s' = live s /\ (Forall (event_ok auth) (events s) -> Forall (event_ok auth) (events s')).
Proof using.
  revert s. induction fds as [|fd fds IH]; intros s; [done|]. cbn [foldl]. destruct (IH (if 0 <=? fd then doltliteShutdownSocket fd s else s)) as (E1 & E2 & E3 & He).
  cbv zeta. rewrite E1, E2, E3. destruct (0 <=? fd); [|done]. split_and!; [done..|]. intros H. apply He. by constructor.
Qed.

Lemma stop_wp : wp serverRequestStop r_unit (fun _ r => r = own_stop).
Proof using.
  intros s F (Hi & Ha & Hs). rewrite r_op_unit in Ha. destruct Hi as [[Hq Hb Hj He] Hst]. cbn [serverRequestStop act].
  destruct (drain_ok 17 (set_srv (set_running false) s) F) as (s1 & -> & Hi1 & Ha1 & En & Er); [by split|exact Ha|destruct Hq as (_ & _ & ?); unfold SERVER_QUEUE_SIZE in *; cbn; lia|].
  destruct (shutdown_all (activeFd (srv s1)) s1) as (E1 & E2 & E3 & He1). set (s2 := foldl _ s1 _) in *. exists own_stop. split; [|done].
  destruct Hi1 as [Hq1 Hb1 Hj1 Hv1]. split; [split; [split; rewrite ?E1; auto|by rewrite E1]|]. split; [|rewrite E1, Er; done].
  rewrite E1, (jobs_nil _ En). unfold accounts in *. rewrite E1, E2, E3. change (own_of_jobs []) with r_unit. rewrite r_op_unit. own_cbn.
  destruct Ha1 as (-> & -> & ->). split_and!; [multiset_solver|lia|lia].
Qed.
End threads.
