(* ===== verification/ServerLoop.v ===== *)
(** The accepting thread keeps the account: pending connections own their
    socket, their body and their part of the budget until they are closed or
    given to the queue. *)
From stdpp Require Import gmultiset.
From S2P Require Import Prelude CInt Ge Ed25519 Ed25519Spec CString World Radix Json Creds CredsFile Bearer CredsConfig CredsSpec CredsReplace CredsRead BearerSpec Http HttpSpec Threads Server ServerSpec.
#[local] Opaque public_of secret_of digest224.

(** * Buffers *)
(** The sizes of a body's buffer: none, or 4096 doubled. *)
Definition buffer_size (k : Z) : Z := 4096 * 2 ^ k.
Definition alloc_ok (n : Z) : Prop := n = 0 \/ exists k, 0 <= k <= 18 /\ n = buffer_size k.

Lemma buffer_size_double k : 0 <= k -> buffer_size k * 2 = buffer_size (k + 1).
Proof. intros. unfold buffer_size. rewrite Z.pow_add_r by lia. lia. Qed.

Lemma buffer_size_bounds k : 0 <= k <= 18 -> 4096 <= buffer_size k <= MAX_REQUEST_BYTES.
Proof.
  intros Hk. unfold buffer_size, MAX_REQUEST_BYTES, MAX_CHUNK_BYTES. pose proof (Z.pow_le_mono_r 2 0 k). pose proof (Z.pow_le_mono_r 2 k 18). lia.
Qed.

Lemma alloc_ok_bounds n : alloc_ok n -> 0 <= n <= MAX_REQUEST_BYTES.
Proof. intros [->|(k & Hk & ->)]; [by vm_compute|]. pose proof (buffer_size_bounds k Hk). lia. Qed.

Lemma double_loop_ok fuel k need : 0 <= k <= 18 -> 18 - k < Z.of_nat fuel -> need <= MAX_REQUEST_BYTES ->
  exists k', k <= k' <= 18 /\ double_size fuel (buffer_size k) need = Some (buffer_size k') /\ need <= buffer_size k'.
Proof.
  revert k. induction fuel as [|fuel IH]; intros k Hk Hf Hn; [lia|]. cbn [double_size]. destruct (Z.ltb_spec (buffer_size k) need); [|exists k; split_and!; [lia|lia|done|done]].
  assert (k < 18).
  { destruct (decide (k = 18)) as [->|]; [|lia]. change (buffer_size 18) with MAX_REQUEST_BYTES in *. lia. }
  rewrite buffer_size_double by lia. destruct (IH (k + 1)) as (k' & ? & ? & ?); [lia..|]. exists k'. split_and!; [lia|lia|done|done].
Qed.

Lemma grow_loop_ok fuel i k : 0 <= i <= k -> k <= 18 -> k - i < Z.of_nat fuel -> grow_size fuel (buffer_size i) (buffer_size k) = Some (buffer_size k).
Proof.
  revert i. induction fuel as [|fuel IH]; intros i Hi Hk Hf; [lia|]. cbn [grow_size]. destruct (Z.ltb_spec (buffer_size i) (buffer_size k)) as [Hlt|Hge].
  - assert (i < k) by (destruct (decide (i = k)) as [->|]; lia). destruct (Z.ltb_spec (MAX_RESPONSE_BYTES / 2) (buffer_size i)) as [Hb|_].
    + exfalso. assert (buffer_size i <= buffer_size 17) by (apply Z.mul_le_mono_nonneg_l, Z.pow_le_mono_r; lia). change (buffer_size 17) with (MAX_RESPONSE_BYTES / 2) in *. lia.
    + rewrite buffer_size_double by lia. apply IH; lia.
  - assert (buffer_size i <= buffer_size k) by (apply Z.mul_le_mono_nonneg_l, Z.pow_le_mono_r; lia). f_equal. lia.
Qed.

Section pending.
Context (l : locals) (auth : server_auth) (tls : bool) (timeoutMs : Z).
Abbreviation J := (J auth).
Abbreviation wp := (wp J).
Abbreviation header_ok := (header_ok auth).
Abbreviation job_ok := (job_ok auth).

(** * Slots *)
Definition own_of (p : PendingConn) : own :=
  Own {[+ p_fd p +]} (Z.to_N (p_bodyAlloc p)) (N.b2n (p_conn p) + N.b2n (0 <? p_bodyAlloc p)) false.

(** A slot in use. *)
Record pend_ok (p : PendingConn) : Prop := {
  pend_fd : 0 <= p_fd p;
  pend_alloc : alloc_ok (p_bodyAlloc p);
  pend_bytes : bytes_wf (aBuf p);
  pend_fresh : p_nHeader p = 0 -> p_body p = [];
  pend_length : zlen (p_body p) <= p_contentLength p <= MAX_REQUEST_BYTES;
  pend_header : p_nHeader p <> 0 -> p_status p = 200 -> header_ok (aBuf p) (p_nHeader p) (p_contentLength p)
}.

Lemma own_of_parts p : own_of p = (own_fd (p_fd p) ⋅ own_block (p_conn p)) ⋅ (own_block (0 <? p_bodyAlloc p) ⋅ own_bytes (p_bodyAlloc p)).
Proof using. unfold own_of. own_eq. Qed.

Lemma pending_close_wp p : 0 <= p_fd p -> 0 <= p_bodyAlloc p -> wp (pendingClose p) (own_of p) (fun _ r => r = r_unit).
Proof using.
  intros Hfd Ha. rewrite own_of_parts. eapply wp_call; [by apply close_either_wp|done|]. intros _ r ->. rewrite r_op_unit.
  eapply wp_call; [apply free_wp|done|]. intros _ r ->. rewrite r_op_unit. eapply (wp_call J _ _ _ _ r_unit); [by apply release_wp|own_eq|]. intros _ r ->. own_eq.
Qed.

(** What is given to the queue is a request with its whole body when its status is 200. *)
Definition promotable (p : PendingConn) : Prop :=
  0 <= p_fd p /\ 0 <= p_bodyAlloc p /\ (p_status p = 200 -> header_ok (aBuf p) (p_nHeader p) (zlen (p_body p))).

Lemma promote_wp p : promotable p -> wp (promote_or_close p) (own_of p) (fun _ r => r = r_unit).
Proof using.
  intros (Hfd & Ha & Hs). assert (wp (pendingPromote p (p_nHeader p)) (own_of p) (fun x r => x.1 = 0 /\ r = r_unit \/ x = (-1, p) /\ r = own_of p)) as Hp.
  { eapply (wp_call J _ _ _ _ (own_of p)); [apply malloc_wp|by rewrite r_op_unit|]. intros [] r ->; [|right; split; [done|own_eq]].
    apply wp_ask. intros [] _; cbn [negb].
    - eapply (wp_call J _ _ _ _ r_unit); [apply enqueue_wp|unfold own_of, own_of_job; cbn [j_fd j_conn j_bodyAlloc]; own_eq|]; [by split_and!|]. intros _ r ->. left. split; [done|own_eq].
    - eapply (wp_call J _ _ _ _ (own_of p)); [apply (free_wp auth true)|done|]. intros _ r ->. right. split; [done|own_eq]. }
  apply prog_wp_bind. eapply prog_wp_mono; [exact Hp|]. intros [rc p'] r [[E ->]|[[= -> ->] ->]]; cbn [fst] in *; [by rewrite E|]. by apply pending_close_wp.
Qed.

(** * Bodies *)
Lemma reserve_wp n : 0 <= n ->
  wp (act (fun s => if SERVER_BODY_BUFFER_MAX - nBodyAlloc (srv s) <? n then Go false s else Go true (set_srv (add_alloc n) s))) r_unit
    (fun ok r => r = if ok : bool then own_bytes n else r_unit).
Proof using.
  intros Hn. apply wp_trade. intros s F Hi Ha. destruct (Z.ltb_spec (SERVER_BODY_BUFFER_MAX - nBodyAlloc (srv s)) n) as [_|Hlt]; [by exists r_unit|].
  destruct Ha as (Ho & Hb & Hlive). own_in Ho. own_in Hb. own_in Hlive. exists (own_bytes n). split; [done|].
  eapply trade_ok; [exact Hi|done|done|done|exact (inv_queue _ _ (proj1 Hi))|cbn; lia|exact (inv_events _ _ (proj1 Hi))|done|]. unfold accounts. own_cbn.
  cbn [set_srv add_alloc nBodyAlloc open_fds srv live]. split_and!; [rewrite Ho; multiset_solver|lia|done].
Qed.

Lemma grow_wp a i k : 0 <= i <= k -> k <= 18 -> a = 0 /\ i = 0 \/ a = buffer_size i -> a < buffer_size k ->
  wp (remoteSrvGrowBuf a (buffer_size k)) (own_block (0 <? a))
    (fun x r => x = (OK, buffer_size k) /\ r = own_block true \/ x.1 <> OK /\ x.2 = a /\ r = own_block (0 <? a)).
Proof using.
  intros Hi Hk Ha Hlt. pose proof (buffer_size_bounds k ltac:(lia)). pose proof (buffer_size_bounds i ltac:(lia)). unfold remoteSrvGrowBuf, growBuf.
  assert ((buffer_size k <? 0) || (MAX_RESPONSE_BYTES <? buffer_size k) = false) as ->.
  { apply orb_false_iff. split; apply Z.ltb_ge; [lia|]. unfold MAX_RESPONSE_BYTES. lia. }
  rewrite (proj2 (Z.leb_gt _ _) Hlt). assert ((if 0 <? a then a else 4096) = buffer_size i) as ->.
  { destruct Ha as [[-> ->]| ->]; [done|]. by rewrite (proj2 (Z.ltb_lt 0 (buffer_size i))) by lia. }
  rewrite grow_loop_ok by lia. apply wp_must. rewrite Z.ltb_irrefl. destruct (0 <? a); cbn [negb].
  - apply wp_ask. intros [] _; [by left|by right].
  - eapply (wp_call J _ _ _ _ r_unit); [apply malloc_wp|own_eq|]. intros [] r ->; [left|right]; (split; [done|]); [own_eq|split; [done|own_eq]].
Qed.

Lemma set_body_own p body n : own_of (set_body body n p) = (own_fd (p_fd p) ⋅ own_block (p_conn p)) ⋅ (own_block (0 <? n) ⋅ own_bytes n).
Proof using. apply own_of_parts. Qed.

Lemma append_body_wp p d : alloc_ok (p_bodyAlloc p) -> zlen (p_body p) + zlen d <= MAX_REQUEST_BYTES ->
  wp (pendingAppendBody p d) (own_of p)
    (fun x r => r = own_of x.2 /\ exists n, alloc_ok n /\ x.2 = set_body (if x.1 =? OK then p_body p ++ d else p_body p) n p).
Proof using.
  intros Ha Hn. unfold pendingAppendBody. set (need := zlen (p_body p) + zlen d) in *. destruct (Z.leb_spec need (p_bodyAlloc p)) as [_|Hlt].
  { split; [done|]. by exists (p_bodyAlloc p). }
  pose proof (alloc_ok_bounds _ Ha) as Hb. assert (exists i, 0 <= i <= 18 /\ (p_bodyAlloc p = 0 /\ i = 0 \/ p_bodyAlloc p = buffer_size i)) as (i & Hi & Hpi).
  { destruct Ha as [E|(i & Hi & E)]; [exists 0; split; [lia|by left]|exists i; split; [lia|by right]]. }
  assert ((if p_bodyAlloc p =? 0 then 4096 else p_bodyAlloc p) = buffer_size i) as ->.
  { destruct Hpi as [[-> ->]|E]; [done|]. pose proof (buffer_size_bounds i Hi). rewrite E. by rewrite (proj2 (Z.eqb_neq (buffer_size i) 0)) by lia. }
  destruct (double_loop_ok 32 i need) as (k & Hk & -> & Hneed); [lia..|]. apply wp_must. set (a := p_bodyAlloc p) in *.
  eapply (wp_call J _ _ _ _ (own_of p)); [apply (reserve_wp (buffer_size k - a)); lia|by rewrite r_op_unit|]. intros [] r ->; cbn [negb].
  2: { rewrite r_op_unit. split; [done|]. exists a. split; [done|]. by destruct p. }
  set (F := own_fd (p_fd p) ⋅ own_block (p_conn p) ⋅ own_bytes a ⋅ own_bytes (buffer_size k - a)).
  eapply (wp_call J _ _ _ _ F); [apply (grow_wp a i k); [lia|lia|done|lia]|rewrite own_of_parts; unfold F; fold a; own_eq|].
  intros [rc n] r [[[= -> ->] ->]|(Hrc & E & ->)]; cbn [fst snd] in *.
  - change (negb (OK =? OK)) with false. cbv iota. split; [|exists (buffer_size k); split; [right; exists k; split; [lia|done]|done]].
    cbn [snd]. rewrite set_body_own, (proj2 (Z.ltb_lt 0 (buffer_size k))) by lia. unfold F. own_eq.
  - subst n. cbn beta iota. rewrite (proj2 (Z.eqb_neq rc OK) Hrc). cbn [negb].
    eapply (wp_call J _ _ _ _ (own_of p)); [apply (release_wp auth (buffer_size k - a)); lia|rewrite own_of_parts; unfold F; fold a; own_eq|]. intros _ r ->. rewrite r_op_unit.
    split; [by destruct p|]. exists a. split; [done|]. cbn [fst snd]. by rewrite (proj2 (Z.eqb_neq rc OK) Hrc).
Qed.

(** * Requests *)
Context (Hl : locals_wf l) (Hauth : server_wf auth).

Lemma status_header_ok zPrefix nHeader st len : bytes_wf zPrefix ->
  (exists w now w', fs_wf w /\ is_time now /\ requestHeaderStatus l auth zPrefix nHeader now w = Ret (st, len) w') ->
  0 <= len <= MAX_REQUEST_BYTES /\ (st = 200 -> header_ok zPrefix nHeader len).
Proof using Hl Hauth.
  intros Hz (w & now & w' & Hw & Hn & E).
  pose proof (request_status_rd l w False auth zPrefix nHeader now Hl Hw Hauth Hz Hn w w (mem_refl w) ltac:(reflexivity) ltac:(by intros [])) as H.
  unfold wpM in H. rewrite E in H. destruct H as [_ H]. split; [exact (status_length _ _ _ _ _ _ _ H)|]. intros ->. unfold status_spec in H.
  destruct (parseRequestHeaders _ _ _ _ _) as [[req|]|] eqn:Ep; [|done|done]. destruct H as [[[=] _]|[Es Hadm]].
  destruct (Z.eqb_spec (contentRc (r_headers req)) (-2)); [done|]. destruct (Z.eqb_spec (contentRc (r_headers req)) 0) as [Ec|]; [|done]. injection Es as ->.
  exists w, now, req. by split_and!.
Qed.

Lemma header_ok_take zPrefix nHeader len : header_ok zPrefix nHeader len -> header_ok (take (Z.to_nat nHeader) zPrefix) nHeader len.
Proof using. intros (w & now & req & ? & ? & E & ?). exists w, now, req. by rewrite parse_headers_take. Qed.

(** Either the slot is still in use, or it owns nothing. *)
Definition slot_post (x : Z * PendingConn) (r : own) : Prop :=
  x.1 = 0 /\ pend_ok x.2 /\ r = own_of x.2 \/ x.1 = 1 /\ r = r_unit.

Lemma closed_wp p : 0 <= p_fd p -> 0 <= p_bodyAlloc p -> wp (let& p := pendingClose p in Done (1, p)) (own_of p) slot_post.
Proof using. intros Hfd Ha. apply prog_wp_bind. eapply prog_wp_mono; [by apply pending_close_wp|]. intros p' r ->. by right. Qed.

Lemma promoted_wp p : promotable p -> wp (let& p := promote_or_close p in Done (1, p)) (own_of p) slot_post.
Proof using. intros Hp. apply prog_wp_bind. eapply prog_wp_mono; [by apply promote_wp|]. intros p' r ->. by right. Qed.

(** The results of the loop that reads the header. *)
Definition header_post (x : (Z * PendingConn) + PendingConn) (r : own) : Prop :=
  match x with
  | inl x => slot_post x r
  | inr p => pend_ok p /\ r = own_of p
  end.

Lemma read_header_wp p : pend_ok p -> wp (read_header l auth p) (own_of p) (fun x r => match x with inl p => pend_ok p /\ r = own_of p | inr x => header_post x r end).
Proof using Hl Hauth.
  intros Hp. pose proof (alloc_ok_bounds _ (pend_alloc p Hp)) as Hal. pose proof (pend_fd p Hp) as Hfd. unfold read_header.
  destruct (negb (p_nHeader p =? 0) || _) eqn:E0; [done|]. apply orb_false_iff in E0 as [En%negb_false_iff%Z.eqb_eq _].
  apply wp_ask. intros [| |b] Hb; [by left| |].
  { apply prog_wp_bind. eapply prog_wp_mono; [by apply pending_close_wp; [|lia]|]. intros p' r ->. by right. }
  destruct Hb as [Hb _]. cbv zeta. set (p1 := set_buf (aBuf p ++ b) (startMs p) p). set (nHeader := pendingHeaderEnd (aBuf p1)).
  assert (bytes_wf (aBuf p1)) as Hw by (apply bytes_wf_app; split; [by apply pend_bytes|done]).
  destruct (Z.eqb_spec nHeader 0) as [_|Hh].
  { split; [|by destruct p]. destruct Hp. split; auto. cbn. intros. congruence. }
  apply wp_ask. intros [st len] Hst. apply (status_header_ok _ _ _ _ Hw) in Hst as [Hlen Hok]. cbn beta iota.
  change (own_of p) with (own_of (set_header nHeader len st p1)). set (p2 := set_header nHeader len st p1). pose proof (pend_fresh p Hp En) as Hbody.
  destruct (Z.eqb_spec st 200) as [->|Hne]; cbn [negb].
  2: { apply prog_wp_bind. eapply prog_wp_mono; [apply promote_wp; split_and!; [done|cbn; lia|done]|]. intros p' r ->. by right. }
  set (d := take _ (drop _ _)). assert (zlen d <= len) as Hd.
  { unfold d. rewrite length_take. destruct (Z.ltb_spec len (zlen (aBuf p2) - nHeader)); lia. }
  apply prog_wp_bind. eapply prog_wp_mono; [apply (append_body_wp p2 d); [exact (pend_alloc p Hp)|cbn [p2 set_header set_buf p1 p_body]; rewrite Hbody; cbn [length]; lia]|].
  intros [rc p3] r (-> & n & Ha & Ep). cbn [fst snd] in *. pose proof (alloc_ok_bounds n Ha). destruct (Z.eqb_spec rc OK) as [->|Hrc]; cbn [negb].
  2: { apply prog_wp_bind. eapply prog_wp_mono; [apply pending_close_wp; rewrite Ep; cbn; lia|]. intros p' r ->. by right. }
  apply wp_ask. intros ms _. split; [|by destruct p3]. rewrite Ep. split; cbn; [done|done|by apply Forall_take|by intros E0%Hh| |].
  - rewrite Hbody. cbn. lia.
  - intros _ _. by apply header_ok_take, Hok.
Qed.

Lemma pend_promotable p : pend_ok p -> p_nHeader p <> 0 -> p_contentLength p <= zlen (p_body p) -> promotable p.
Proof using.
  intros Hp Hn Hlen. pose proof (alloc_ok_bounds _ (pend_alloc p Hp)). split_and!; [by apply pend_fd|lia|]. intros Hs.
  replace (zlen (p_body p)) with (p_contentLength p) by (pose proof (pend_length p Hp); lia). by apply pend_header.
Qed.

Lemma failed_wp p : pend_ok p -> wp (let& p := promote_or_close (set_status 400 p) in Done (1, p)) (own_of p) slot_post.
Proof using.
  intros Hp. pose proof (alloc_ok_bounds _ (pend_alloc p Hp)). apply (promoted_wp (set_status 400 p)). split_and!; [by apply (pend_fd p)|cbn; lia|done].
Qed.

Lemma pend_again b p : pend_ok p -> pend_ok (set_again b p).
Proof using. by intros []. Qed.

Lemma read_body_wp p : pend_ok p -> wp (read_body timeoutMs p) (own_of p) slot_post.
Proof using.
  intros Hp0. pose proof (alloc_ok_bounds _ (pend_alloc p Hp0)). unfold read_body. destruct (Z.eqb_spec (p_nHeader p) 0) as [_|Hn]; [apply closed_wp; [by apply pend_fd|lia]|].
  cbv zeta. apply (pend_again false) in Hp0 as Hp. change (own_of p) with (own_of (set_again false p)). set (p1 := set_again false p) in *. apply wp_ask. intros ms _.
  destruct (pendingBudget timeoutMs p1 <=? ms - startMs p1); [by apply failed_wp|].
  destruct (Z.leb_spec (p_contentLength p - zlen (p_body p)) 0) as [Hr|Hr]; [apply promoted_wp, pend_promotable; [done|done|cbn; lia]|].
  apply wp_ask. intros [| |b] Hb; [by left|by apply failed_wp|]. destruct Hb as [_ Hb].
  assert (zlen (p_body p) + zlen b <= p_contentLength p) as Hle by (destruct (Z.ltb_spec 8192 (p_contentLength p - zlen (p_body p))); lia).
  pose proof (pend_length p Hp0). apply prog_wp_bind. eapply prog_wp_mono; [apply (append_body_wp p1 b); [exact (pend_alloc p Hp0)|cbn [p1 set_again p_body]; lia]|].
  intros [rc p2] r (-> & n & Ha & Ep). cbn [fst snd] in *. pose proof (alloc_ok_bounds n Ha). destruct (Z.eqb_spec rc OK) as [->|Hrc]; cbn [negb].
  2: { apply closed_wp; rewrite Ep; [exact (pend_fd p Hp0)|cbn; lia]. }
  assert (pend_ok p2) as Hp2.
  { rewrite Ep. destruct Hp0. split; [done|done|done|done| |done]. cbn [set_body p1 set_again p_body p_contentLength]. rewrite length_app. lia. }
  destruct (Z.ltb_spec (zlen (p_body p2)) (p_contentLength p2)) as [_|Hge].
  - left. split_and!; [done|by apply pend_again|done].
  - apply promoted_wp, pend_promotable; [done|by rewrite Ep|done].
Qed.

Lemma read_request_wp p : pend_ok p -> wp (read_request l auth timeoutMs p) (own_of p) slot_post.
Proof using Hl Hauth.
  intros Hp. apply prog_wp_bind. apply (wp_iter J _ (fun p r => pend_ok p /\ r = own_of p)); [done|]. intros p' r [Hp' ->].
  eapply prog_wp_mono; [by apply read_header_wp|]. intros [p''|[x|p'']] r'; [done|done|]. intros [Hp'' ->]. by apply read_body_wp.
Qed.

Lemma ingest_wp p : pend_ok p -> wp (pendingIngest l auth timeoutMs p) (own_of p) slot_post.
Proof using Hl Hauth.
  intros Hp. pose proof (alloc_ok_bounds _ (pend_alloc p Hp)). pose proof (pend_fd p Hp). unfold pendingIngest. rewrite (proj2 (Z.ltb_ge (p_fd p) 0)) by done.
  destruct (bHandshake p); [|by apply read_request_wp]. assert (forall b w ms, pend_ok (set_handshake b w ms p)) as Hh by (intros; destruct Hp; by split).
  apply wp_ask. intros n _. destruct (n <? 0); [apply closed_wp; lia|]. destruct (n =? 2); [left; split; [done|]; split; [apply Hh|done]|]. destruct (n =? 1); [left; split; [done|]; split; [apply Hh|done]|].
  apply wp_ask. intros ms _. by apply (read_request_wp (set_handshake false false ms p)).
Qed.

(** * The slots together *)
Definition owns (ps : list PendingConn) : own := total (own_of <$> ps).

Lemma owns_cons p ps : owns (p :: ps) = own_of p ⋅ owns ps.
Proof using. done. Qed.

Lemma owns_snoc ps p : owns (ps ++ [p]) = own_of p ⋅ owns ps.
Proof using.
  induction ps as [|q ps IH]; [done|]. cbn [app]. rewrite !owns_cons, IH, !r_op_assoc. f_equal. apply r_op_comm.
Qed.

(** The slot [i] among the others; when it is free it gets the last one's
    contents. *)
Lemma owns_slot ps i p : ps !! i = Some p -> exists F, (forall q, owns (<[i := q]> ps) = own_of q ⋅ F) /\
  forall p' q, <[i := p']> ps !! (length ps - 1)%nat = Some q -> owns (take (length ps - 1) (<[i := q]> (<[i := p']> ps))) = F.
Proof using.
  intros Hi. assert (i < length ps)%nat as Hlt by by eapply lookup_lt_Some. destruct (decide (i = length ps - 1)%nat) as [E|Hne].
  - exists (owns (take i ps)). rewrite <- E. split.
    + intros q. rewrite insert_take_drop, drop_ge by lia. apply owns_snoc.
    + intros p' q _. by rewrite !take_insert_ge.
  - destruct (lookup_lt_is_Some_2 ps (length ps - 1)) as [x Hx]; [lia|]. set (n := (length ps - 1)%nat) in *.
    assert (ps = take n ps ++ [x]) as E by (rewrite <- (take_drop_middle ps _ x Hx) at 1; by rewrite drop_ge by lia).
    assert (take n ps !! i = Some p) as Ha by (rewrite lookup_take_lt by lia; done).
    destruct (total_insert (own_of <$> take n ps) i (own_of p)) as [F HF]; [by rewrite list_lookup_fmap, Ha|].
    assert (forall q, owns (<[i := q]> (take n ps)) = own_of q ⋅ F) as HF' by (intros q; unfold owns; by rewrite list_fmap_insert).
    exists (own_of x ⋅ F). split.
    + intros q. rewrite E at 1. rewrite insert_app_l by by eapply lookup_lt_Some. rewrite owns_snoc, HF', !r_op_assoc. f_equal. apply r_op_comm.
    + intros p' q Hq. rewrite list_lookup_insert_ne, Hx in Hq by done. injection Hq as <-. rewrite list_insert_insert_eq, take_insert_lt by lia. apply HF'.
Qed.

Lemma slots_remove ps i p q : Forall pend_ok ps -> (i < length ps)%nat -> <[i := p]> ps !! (length ps - 1)%nat = Some q ->
  Forall pend_ok (take (length ps - 1) (<[i := q]> (<[i := p]> ps))).
Proof using.
  intros Hps Hi Hq. rewrite list_insert_insert_eq. destruct (decide (i = length ps - 1)%nat) as [->|Hne].
  - rewrite take_insert_ge by lia. by apply Forall_take.
  - rewrite list_lookup_insert_ne in Hq by done. apply Forall_take, Forall_insert; [done|]. by eapply Forall_lookup_1.
Qed.

Definition slots_post (ps : list PendingConn) (r : own) : Prop := Forall pend_ok ps /\ r = owns ps.

Lemma add_wp ps fd : Forall pend_ok ps -> 0 <= fd ->
  wp (pendingAdd tls ps fd) (own_fd fd)
    (fun x r => x.1 <> 0 /\ x.2 = ps /\ r = r_unit \/ x.1 = 0 /\ exists p, x.2 = ps ++ [p] /\ pend_ok p /\ r = own_of p).
Proof using Hl Hauth.
  intros Hps Hfd. unfold pendingAdd. assert (forall conn ms h, pend_ok (Pending fd conn ms [] h false 0 0 [] 0 0 false)) as Hok.
  { intros. split; cbn; [done|by left|constructor|done|by vm_compute|done]. }
  assert (wp (let& _ := doltliteCloseSocket fd in Done (-1, ps)) (own_fd fd)
    (fun x r => x.1 <> 0 /\ x.2 = ps /\ r = r_unit \/ x.1 = 0 /\ exists p, x.2 = ps ++ [p] /\ pend_ok p /\ r = own_of p)) as Hc.
  { apply prog_wp_bind. eapply prog_wp_mono; [apply close_wp|]. intros _ r ->. by left. }
  destruct (_ <=? _); [done|]. apply wp_ask. intros [] _; cbn [negb]; [|done]. apply wp_ask. intros ms _. destruct tls.
  - apply prog_wp_bind. eapply prog_wp_mono; [apply attach_wp|]. intros [] r ->; cbn [negb]; [right|by left].
    split; [done|]. eexists. split; [done|]. split; [apply Hok|]. unfold own_of. cbn [p_fd p_conn p_bodyAlloc]. change (0 <? 0) with false. own_eq.
  - right. split; [done|]. eexists. split; [done|]. split; [apply Hok|]. unfold own_of. cbn [p_fd p_conn p_bodyAlloc]. change (0 <? 0) with false. own_eq.
Qed.

Lemma accept_one_wp ps : Forall pend_ok ps -> wp (accept_one l auth tls timeoutMs ps) (owns ps) (fun ps' r => slots_post ps' r /\ (length ps <= length ps')%nat).
Proof using Hl Hauth.
  intros Hps. eapply (wp_call J _ _ _ _ (owns ps)); [apply accept_wp|by rewrite r_op_unit|]. intros [fd|] r; [|intros ->; rewrite r_op_unit; by split].
  intros [Hfd ->]. eapply wp_call; [by apply add_wp|done|]. intros [rc ps'] r H. cbn [fst snd] in H. destruct H as [(Hrc & -> & ->)|(-> & p & -> & Hp & ->)].
  - cbn beta iota. rewrite (proj2 (Z.eqb_neq rc 0) Hrc). cbn [negb]. rewrite r_op_unit. by split.
  - cbn beta iota. change (negb (0 =? 0)) with false. cbv iota zeta. rewrite length_app. cbn [length]. replace (length ps + 1 - 1)%nat with (length ps) by lia.
    rewrite (list_lookup_middle ps [] p) by done. apply wp_must. eapply wp_call; [by apply ingest_wp|done|].
    intros [gone p'] r H. unfold slot_post in H. cbn [fst snd] in H. destruct H as [(-> & Hp' & ->)|(-> & ->)].
    + split; [|cbn [Z.eqb]; rewrite length_insert, length_app; lia]. change (0 =? 0) with true. cbv iota. rewrite insert_app_r_alt, Nat.sub_diag by lia. cbn [insert list_insert].
      split; [by apply Forall_app_2, Forall_singleton|by rewrite owns_snoc].
    + split; [|change (1 =? 0) with false; cbv iota; rewrite take_app_length; done]. change (1 =? 0) with false. cbv iota. rewrite take_app_length, r_op_unit. by split.
Qed.

(** One slot of the loop: what it owns when it is to be removed or not. *)
Lemma expire_wp p remove ms r : slot_post (remove, p) r ->
  wp (if (remove =? 0) && (pendingBudget timeoutMs p <? ms - startMs p) then
        let& p := if p_nHeader (set_status 400 p) =? 0 then pendingClose (set_status 400 p) else promote_or_close (set_status 400 p) in Done (1, p)
      else Done (remove, p)) r slot_post.
Proof using.
  intros Hs. destruct (_ && _) eqn:E; [|done]. apply andb_true_iff in E as [->%Z.eqb_eq _]. unfold slot_post in Hs. cbn [fst snd] in Hs. destruct Hs as [(_ & Hp & ->)|[[=] _]].
  destruct (p_nHeader (set_status 400 p) =? 0); [|by apply failed_wp]. pose proof (alloc_ok_bounds _ (pend_alloc p Hp)). apply (closed_wp (set_status 400 p)); [exact (pend_fd p Hp)|cbn; lia].
Qed.

Lemma poll_wp i ps : Forall pend_ok ps -> (i <= length ps)%nat -> wp (poll_loop l auth timeoutMs i ps) (owns ps) slots_post.
Proof using Hl Hauth.
  revert ps. induction i as [|i IH]; intros ps Hps Hi; [by split|]. cbn [poll_loop]. destruct (lookup_lt_is_Some_2 ps i) as [p Ep]; [lia|].
  rewrite Ep. apply wp_must. destruct (owns_slot ps i p Ep) as (F & HF & HF2). rewrite <- (list_insert_id ps i p Ep) at 1. rewrite (HF p).
  assert (pend_ok p) as Hp by by eapply Forall_lookup_1. apply wp_ask. intros [ready writable] _. cbn beta iota.
  eapply (wp_call J _ _ _ _ F slot_post); [destruct (_ || _); [by apply ingest_wp|by left]|done|]. intros [rm p1] r Hr. cbn beta iota.
  apply wp_ask. intros ms _. cbv zeta. eapply wp_call; [by apply (expire_wp p1 rm ms r)|done|]. clear Hr. intros [rm' p2] r' Hs. cbn beta iota.
  assert (<[i := p2]> ps !! i = Some p2) as E2 by (apply list_lookup_insert_eq; lia).
  unfold slot_post in Hs. cbn [fst snd] in Hs. destruct Hs as [(-> & Hp2 & ->)|(-> & ->)].
  - change (0 =? 0) with true. cbn [bind]. rewrite <- HF. apply IH; [by apply Forall_insert|rewrite length_insert; lia].
  - change (1 =? 0) with false. cbv iota. destruct (lookup_lt_is_Some_2 (<[i := p2]> ps) (length (<[i := p2]> ps) - 1)) as [q Eq]; [rewrite length_insert; lia|].
    rewrite Eq. cbn [must bind]. rewrite length_insert in *. rewrite r_op_unit, <- (HF2 p2 q Eq). apply IH; [|rewrite length_take, !length_insert; lia].
    apply slots_remove; [done|lia|done].
Qed.

Lemma close_all_wp ps : Forall pend_ok ps -> wp (close_all ps) (owns ps) (fun _ r => r = r_unit).
Proof using.
  induction 1 as [|p ps Hp _ IH]; [done|]. pose proof (alloc_ok_bounds _ (pend_alloc p Hp)). rewrite owns_cons. cbn [close_all].
  eapply wp_call; [apply pending_close_wp; [by apply pend_fd|lia]|done|]. intros _ r ->. by rewrite r_op_unit.
Qed.

Lemma running_wp r : wp (act (fun s => Go (running (srv s)) s)) r (fun b r' => r' = if b : bool then r else r ⋅ own_stop).
Proof using Hl Hauth.
  intros s F HJ. destruct (running (srv s)) eqn:Er; [by exists r|]. destruct HJ as (Hi & Ha & Hs). exists (r ⋅ own_stop). split; [|done]. split; [done|]. split; [|done].
  revert Ha. unfold accounts. own_cbn. intros (-> & -> & ->). split_and!; [multiset_solver|lia|lia].
Qed.

Lemma loop_wp : wp (serverLoop l auth tls timeoutMs) r_unit (fun _ r => r = own_stop).
Proof using Hl Hauth.
  apply (wp_iter J _ slots_post); [by split|]. intros ps r [Hps ->]. apply prog_wp_bind. eapply prog_wp_mono; [apply running_wp|]. intros [] r ->; cbn [negb].
  - apply wp_ask. intros [] _; cbn [negb]; [|by split]. apply wp_ask. intros readable _. apply prog_wp_bind.
    eapply (prog_wp_mono J _ _ (fun ps' r => slots_post ps' r /\ (length ps <= length ps')%nat)); [destruct readable; [by apply accept_one_wp|by split]|].
    intros ps' r [[Hps' ->] Hle]. apply prog_wp_bind. eapply prog_wp_mono; [by apply poll_wp|]. done.
  - eapply wp_call; [by apply close_all_wp|done|]. intros _ r ->. by rewrite r_op_unit.
Qed.
End pending.
