(* ===== verification/ServerTheorems.v ===== *)
(** The theorems about the threads of the server of
    [remote/doltlite_remotesrv.c].  [server_start] is the server with the
    accepting thread, four workers, and a thread that stops it at some point;
    [rtc step] is any interleaving of their actions, with any answers of the
    network, the allocator and the clock. *)
From stdpp Require Import gmultiset.
From S2P Require Import Prelude CInt Ge Ed25519 Ed25519Spec CString World Radix Json Creds CredsFile Bearer CredsConfig CredsSpec CredsReplace CredsRead BearerSpec CredsTheorems Http HttpSpec HttpTheorems Threads Server ServerSpec ServerRun ServerLoop.
#[local] Opaque public_of secret_of digest224.

Section runs.
Context (l : locals) (auth : server_auth) (tls : bool) (timeoutMs : Z) (Hl : locals_wf l) (Hauth : server_wf auth).

Lemma start_ok : pool_ok (J auth) (fun r => r = own_stop) (server_start l auth tls timeoutMs).
Proof using Hl Hauth.
  exists (replicate 6 r_unit). split.
  - split; [split; [split|]|].
    + by vm_compute.
    + by vm_compute.
    + constructor.
    + constructor.
    + done.
    + split; [by split_and!|done].
  - do 6 (apply Forall2_cons; split; [first [by apply loop_wp|apply stop_wp|apply worker_wp]|]). apply Forall2_nil_2.
Qed.

Lemma run_ok c : rtc step (server_start l auth tls timeoutMs) c -> pool_ok (J auth) (fun r => r = own_stop) c.
Proof using Hl Hauth. intros Hc. eapply steps_pool; [exact Hc|apply start_ok]. Qed.

Lemma run_inv c : rtc step (server_start l auth tls timeoutMs) c -> server_inv auth c.1.
Proof using Hl Hauth. intros (rs & (Hi & _) & _)%run_ok. exact Hi. Qed.
End runs.

Lemma total_stops rs : Forall (fun r => r = own_stop) rs -> rs <> [] -> total rs = own_stop.
Proof. intros H Hne. destruct rs as [|r rs]; [done|]. clear Hne. apply Forall_cons in H as [-> H]. induction H as [|r rs -> _ IH]; [done|]. cbn in *. by rewrite IH. Qed.

(** The number of threads stays. *)
Lemma run_threads l auth tls timeoutMs c : rtc step (server_start l auth tls timeoutMs) c -> length c.2 = 6%nat.
Proof.
  intros Hc. assert (forall c c' : config state, rtc step c c' -> length c'.2 = length c.2) as H; [|by rewrite (H _ _ Hc)].
  clear. induction 1 as [|c1 c2 c3 [s ts s' i p p' _ _] _ IH]; [done|]. rewrite IH. apply length_insert.
Qed.

(** The bytes of the queue. *)
Lemma jobs_bytes auth js : Forall (job_ok auth) js -> foldr Z.add 0 (j_bodyAlloc <$> js) = Z.of_N (o_bytes (own_of_jobs js)).
Proof.
  induction 1 as [|j js (_ & Hj & _) _ IH]; [done|]. cbn [fmap list_fmap foldr]. rewrite IH. change (own_of_jobs (j :: js)) with (own_of_job j ⋅ own_of_jobs js).
  own_cbn. cbn [own_of_job o_bytes]. lia.
Qed.

(** * A run *)
(** A server without tokens, and one request. *)
Definition open_server : server_auth := ServerAuth None None.
Definition plain_request : list Z := print_request (str "GET") (str "/db/root") [].

Definition plain_job : ServerJob := Job 5 false plain_request (zlen plain_request) [] 0 200.

(** The request is in the queue. *)
Definition queued_state : state :=
  State (Server true (plain_job :: replicate 15 no_job) 0 1 (replicate 4 (-1)) 0) ({[+ 5 +]} ⊎ ∅) 1 [].

Lemma queued_run : exists p, rtc thread_step ((server_start zero_locals open_server false 30000).1, serverLoop zero_locals open_server false 30000) (queued_state, p).
Proof.
  eexists.
  apply run_iter. eapply run_act; [reflexivity|]. apply (run_ask _ _ _ true); [done|]. apply (run_ask _ _ _ true); [done|].
  apply (run_ask _ _ _ (Some 5)); [done|]. eapply run_act; [reflexivity|]. apply (run_ask _ _ _ true); [done|]. apply (run_ask _ _ _ 0); [done|].
  apply run_iter. apply (run_ask _ _ _ (Data plain_request)); [split; [by apply bytes_wfb_spec|done]|].
  apply (run_ask _ _ _ (200, 0)).
  { exists (plain_world []), 0. eexists. split; [apply plain_world_wf|]. split; [done|]. vm_compute. reflexivity. }
  apply (run_ask _ _ _ 0); [done|]. apply run_iter. apply (run_ask _ _ _ 0); [done|]. apply (run_ask _ _ _ true); [done|]. eapply run_act; [reflexivity|].
  apply (run_ask _ _ _ true); [done|]. eapply run_act; [vm_compute; reflexivity|].
  replace (queued_state) with (set_srv (put_job plain_job) (State (Server true (replicate 16 no_job) 0 0 (replicate 4 (-1)) 0) ({[+ 5 +]} ⊎ ∅) 1 [])) by (vm_compute; reflexivity). apply rtc_refl.
Qed.

(** A worker has answered the request and closed its socket, but its
    [activeFd] is still set. *)
Lemma closed_run : exists s p, rtc thread_step (queued_state, serverWorkerEntry 0) (s, p) /\
  events s = [Served plain_job] /\ activeFd (srv s) = [5; -1; -1; -1] /\ bool_decide (5 ∈ open_fds s) = false /\ nQueue (srv s) = 0.
Proof.
  eexists _, _. split.
  - apply run_iter. eapply run_act; [reflexivity|]. apply (run_ask _ _ _ true); [done|]. eapply run_act; [reflexivity|]. eapply run_act; [reflexivity|].
    eapply run_act; [vm_compute; reflexivity|]. apply rtc_refl.
  - split_and!; vm_compute; reflexivity.
Qed.

(** A run in which the request was served. *)
Lemma served_run : exists c, rtc step (server_start zero_locals open_server false 30000) c /\ c.2 !! 1%nat = Some serverRequestStop /\
  events c.1 = [Served plain_job] /\ activeFd (srv c.1) = [5; -1; -1; -1] /\ bool_decide (5 ∈ open_fds c.1) = false /\ nQueue (srv c.1) = 0.
Proof.
  destruct queued_run as (p1 & H1). destruct closed_run as (s2 & p2 & H2 & He). eexists (s2, _). split; [|split; [|exact He]].
  - etransitivity; [eapply (thread_steps _ _ _ 0); [reflexivity|exact H1]|]. eapply (thread_steps _ _ _ 2); [reflexivity|exact H2].
  - reflexivity.
Qed.

Lemma idle_run i s : running (srv s) = false -> nQueue (srv s) = 0 -> rtc thread_step (s, serverWorkerEntry i) (s, Done tt).
Proof. intros Er En. apply run_iter. eapply run_act; [unfold take_job; rewrite En, Er; reflexivity|]. apply rtc_refl. Qed.

(** A run of a server that is stopped at once. *)
Lemma stopped_run : exists c, rtc step (server_start zero_locals open_server false 30000) c /\ finished c.
Proof.
  eexists. split.
  - etransitivity; [eapply (thread_steps _ _ _ 1 _ (Done tt)); [reflexivity|]|].
    { eapply run_act; [vm_compute; reflexivity|]. apply rtc_refl. }
    etransitivity; [eapply (thread_steps _ _ _ 0 _ (Done tt)); [reflexivity|]|].
    { apply run_iter. eapply run_act; [reflexivity|]. apply rtc_refl. }
    etransitivity; [eapply (thread_steps _ _ _ 2 (serverWorkerEntry 0)); [reflexivity|by eapply idle_run]|].
    etransitivity; [eapply (thread_steps _ _ _ 3 (serverWorkerEntry 1)); [reflexivity|by eapply idle_run]|].
    etransitivity; [eapply (thread_steps _ _ _ 4 (serverWorkerEntry 2)); [reflexivity|by eapply idle_run]|].
    eapply (thread_steps _ _ _ 5 (serverWorkerEntry 3)); [reflexivity|by eapply idle_run].
  - repeat constructor.
Qed.

(** * Theorems *)
Lemma open_server_wf : server_wf open_server.
Proof. intros dir [=]. Qed.

(** C10: in no interleaving does a thread of the server do wrong: no socket is
    closed twice, no slot of the queue or of the pending connections outside
    its array is used, no loop runs away.  The queue holds at most 16 jobs,
    and the buffers for bodies never exceed the budget of four requests of the
    largest size, whatever the clients send. *)
Theorem server_never_wrong l auth tls timeoutMs c : locals_wf l -> server_wf auth -> rtc step (server_start l auth tls timeoutMs) c ->
  ~ goes_wrong c /\ (length (jobs (srv c.1)) <= 16)%nat /\ 0 <= nBodyAlloc (srv c.1) <= SERVER_BODY_BUFFER_MAX /\
  foldr Z.add 0 (j_bodyAlloc <$> jobs (srv c.1)) <= nBodyAlloc (srv c.1).
Proof.
  intros Hl Ha Hc. apply run_ok in Hc as Hp; [|done..]. split; [by eapply pool_not_wrong|]. destruct Hp as (rs & ((Hi & _) & (_ & Hb & _) & _) & _).
  destruct Hi as [(_ & _ & Hq) Hm Hj _]. split; [unfold jobs; rewrite length_fmap, length_seq; unfold SERVER_QUEUE_SIZE in Hq; lia|].
  split; [lia|]. rewrite Hb. own_cbn. rewrite (jobs_bytes auth) by done. lia.
Qed.

Lemma server_never_wrong_witness : exists c, rtc step (server_start zero_locals open_server false 30000) c /\ events c.1 = [Served plain_job] /\ ~ goes_wrong c.
Proof.
  destruct served_run as (c & Hc & _ & He & _). exists c. split; [exact Hc|]. split; [exact He|].
  exact (proj1 (server_never_wrong zero_locals open_server false 30000 c zero_locals_wf open_server_wf Hc)).
Defined.



(** C13: a stopped server gives everything back.  In any run in which all threads
    have ended, every connection is closed, the queue is empty, and neither a
    buffer nor a connection nor a byte of the budget is left, wherever the
    requests were when the server was stopped. *)
Theorem shutdown_releases_all l auth tls timeoutMs c : locals_wf l -> server_wf auth -> rtc step (server_start l auth tls timeoutMs) c -> finished c ->
  running (srv c.1) = false /\ nQueue (srv c.1) = 0 /\ open_fds c.1 = ∅ /\ live c.1 = 0 /\ nBodyAlloc (srv c.1) = 0.
Proof.
  intros Hl Ha Hc Hf. apply run_ok in Hc as Hp; [|done..]. destruct (pool_finished _ _ _ Hp Hf) as (rs & HJ & Hlen & Hrs).
  rewrite total_stops in HJ; [|done|]. 2: { intros ->. apply run_threads in Hc. by rewrite <- Hlen in Hc. }
  destruct HJ as ((_ & Hst) & (Ho & Hb & Hv) & Hr). specialize (Hr eq_refl). specialize (Hst Hr). rewrite (jobs_nil _ Hst) in Ho, Hb, Hv. by split_and!.
Qed.

Lemma shutdown_releases_all_witness : exists c, rtc step (server_start zero_locals open_server false 30000) c /\ finished c /\ open_fds c.1 = ∅.
Proof.
  destruct stopped_run as (c & Hc & Hf). exists c. split; [exact Hc|]. split; [exact Hf|].
  exact (proj1 (proj2 (proj2 (shutdown_releases_all zero_locals open_server false 30000 c zero_locals_wf open_server_wf Hc Hf)))).
Defined.

(** The circular queue is a first-in first-out list of at most 16 jobs: a
    worker gets the oldest job, waits only on an empty queue of a running
    server and ends only on an empty queue of a stopped one; a new job goes to
    the end. *)
Theorem queue_fifo i j s : queue_wf (srv s) ->
  match take_job i s with
  | Go (Some j) s' => jobs (srv s) = j :: jobs (srv s') /\ queue_wf (srv s') /\ activeFd (srv s') = <[i := j_fd j]> (activeFd (srv s))
  | Go None s' => s' = s /\ jobs (srv s) = [] /\ running (srv s) = false
  | Wait => jobs (srv s) = [] /\ running (srv s) = true
  | Wrong => False
  end /\
  (nQueue (srv s) < SERVER_QUEUE_SIZE -> jobs (put_job j (srv s)) = jobs (srv s) ++ [j] /\ queue_wf (put_job j (srv s))).
Proof.
  intros Hq. split; [|intros Hn; split; [by apply jobs_put|by apply put_job_wf]]. unfold take_job. destruct (Z.eqb_spec (nQueue (srv s)) 0) as [En|En].
  - pose proof (jobs_nil _ En). by destruct (running (srv s)).
  - assert (0 < nQueue (srv s)) as Hn by (destruct Hq as (_ & _ & ?); lia). destruct (jobs_next _ Hq Hn) as (j' & -> & Ej). split; [exact Ej|]. split; [exact (next_job_wf _ Hq Hn)|done].
Qed.

Lemma queue_fifo_witness : jobs (srv queued_state) = [plain_job] /\ jobs (put_job no_job (srv queued_state)) = [plain_job] ++ [no_job].
Proof.
  split; [vm_compute; reflexivity|]. apply (queue_fifo 0 no_job queued_state); [unfold queue_wf; cbn; unfold SERVER_QUEUE_SIZE; lia|vm_compute; reflexivity].
Defined.

