(* ===== verification/Setup.v ===== *)
(** Setting up and tearing down the server of [remote/doltlite_remotesrv.c].
    The state is what the process holds: mutexes, condition variables, blocks,
    TLS contexts, sockets and threads, by number; giving back what is not held
    is an error.  [DoltliteServer] is passed along as a value. *)
From S2P Require Import Prelude CString World Radix Json Creds CredsFile Bearer CredsConfig Http Threads Server.

Record DoltliteServeOpts : Type := ServeOpts {
  o_zDir : option (list Z);
  o_port : Z;
  o_zBindAddr : option (list Z);
  o_certFile : option (list Z);
  o_keyFile : option (list Z);
  o_authKeysDir : option (list Z);
  o_audience : option (list Z);
  o_timeoutMs : Z
}.

(** The fields of [DoltliteServer] that are set up; pointers to blocks and
    contexts are there or not. *)
Record setup : Type := Setup {
  u_listenFd : Z;
  u_port : Z;
  u_running : bool;
  u_zDir : option (list Z);
  u_nWorkers : Z;
  u_mutexInit : bool;
  u_condInit : bool;
  u_timeoutMs : Z;
  u_aPending : bool;
  u_tls : bool;
  u_auth : server_auth
}.

Record holdings : Type := Holdings { n_mutex : Z; n_cond : Z; n_blocks : Z; n_tls : Z; n_sockets : Z; n_threads : Z }.
Definition nothing : holdings := Holdings 0 0 0 0 0 0.

Inductive kind : Type := KMutex | KCond | KBlock | KTls | KSocket | KThread.
Definition add_held (k : kind) (n : Z) (s : holdings) : holdings :=
  match k with
  | KMutex => Holdings (n_mutex s + n) (n_cond s) (n_blocks s) (n_tls s) (n_sockets s) (n_threads s)
  | KCond => Holdings (n_mutex s) (n_cond s + n) (n_blocks s) (n_tls s) (n_sockets s) (n_threads s)
  | KBlock => Holdings (n_mutex s) (n_cond s) (n_blocks s + n) (n_tls s) (n_sockets s) (n_threads s)
  | KTls => Holdings (n_mutex s) (n_cond s) (n_blocks s) (n_tls s + n) (n_sockets s) (n_threads s)
  | KSocket => Holdings (n_mutex s) (n_cond s) (n_blocks s) (n_tls s) (n_sockets s + n) (n_threads s)
  | KThread => Holdings (n_mutex s) (n_cond s) (n_blocks s) (n_tls s) (n_sockets s) (n_threads s + n)
  end.
Definition count_held (k : kind) (s : holdings) : Z :=
  match k with
  | KMutex => n_mutex s | KCond => n_cond s | KBlock => n_blocks s | KTls => n_tls s | KSocket => n_sockets s | KThread => n_threads s
  end.

Abbreviation scode := (prog holdings).

(** A call that gives one of a kind, or fails. *)
Definition obtain (k : kind) : scode bool :=
  let& ok := ask (fun _ : bool => True) in
  if ok : bool then let& _ := upd (add_held k 1) in Done true else Done false.
Definition give_up_one (k : kind) : scode unit :=
  act (fun s => if count_held k s <=? 0 then Wrong else Go tt (add_held k (-1) s)).
Definition release_if (k : kind) (b : bool) : scode unit := if b then give_up_one k else Done tt.
Definition call_ok : scode bool := ask (fun _ : bool => True).

Definition dupStr (z : option (list Z)) : scode (option (list Z)) :=
  match z with
  | None => Done None
  | Some z => let& ok := obtain KBlock in Done (if ok : bool then Some z else None)
  end.
(** A string that is there and not empty. *)
Definition nonempty (z : option (list Z)) : bool := match z with Some (_ :: _) => true | _ => false end.

Definition set_cond (u : setup) : setup :=
  Setup (u_listenFd u) (u_port u) (u_running u) (u_zDir u) (u_nWorkers u) (u_mutexInit u) true (u_timeoutMs u) (u_aPending u) (u_tls u) (u_auth u).
Definition set_pending (u : setup) : setup :=
  Setup (u_listenFd u) (u_port u) (u_running u) (u_zDir u) (u_nWorkers u) (u_mutexInit u) (u_condInit u) (u_timeoutMs u) true (u_tls u) (u_auth u).
Definition set_dir (z : option (list Z)) (u : setup) : setup :=
  Setup (u_listenFd u) (u_port u) (u_running u) z (u_nWorkers u) (u_mutexInit u) (u_condInit u) (u_timeoutMs u) (u_aPending u) (u_tls u) (u_auth u).
Definition set_auth (a : server_auth) (u : setup) : setup :=
  Setup (u_listenFd u) (u_port u) (u_running u) (u_zDir u) (u_nWorkers u) (u_mutexInit u) (u_condInit u) (u_timeoutMs u) (u_aPending u) (u_tls u) a.
Definition set_tls (u : setup) : setup :=
  Setup (u_listenFd u) (u_port u) (u_running u) (u_zDir u) (u_nWorkers u) (u_mutexInit u) (u_condInit u) (u_timeoutMs u) (u_aPending u) true (u_auth u).
Definition set_listen (fd : Z) (u : setup) : setup :=
  Setup fd (u_port u) (u_running u) (u_zDir u) (u_nWorkers u) (u_mutexInit u) (u_condInit u) (u_timeoutMs u) (u_aPending u) (u_tls u) (u_auth u).
Definition set_port (port : Z) (u : setup) : setup :=
  Setup (u_listenFd u) port true (u_zDir u) (u_nWorkers u) (u_mutexInit u) (u_condInit u) (u_timeoutMs u) (u_aPending u) (u_tls u) (u_auth u).
Definition set_workers (b : bool) (n : Z) (u : setup) : setup :=
  Setup (u_listenFd u) (u_port u) b (u_zDir u) n (u_mutexInit u) (u_condInit u) (u_timeoutMs u) (u_aPending u) (u_tls u) (u_auth u).

(** What is given back is no longer there.  The cache of stores is cleared too,
    which [remoteDbCacheClear] models. *)
Definition cleared (u : setup) : setup :=
  Setup (-1) (u_port u) (u_running u) None (u_nWorkers u) false false (u_timeoutMs u) false false (ServerAuth None None).
Definition serverCleanup (u : setup) : scode setup :=
  let& _ := release_if KSocket (0 <=? u_listenFd u) in
  let& _ := release_if KTls (u_tls u) in
  let& _ := release_if KBlock (bool_decide (is_Some (u_zDir u))) in
  let& _ := release_if KBlock (bool_decide (is_Some (authKeysDir (u_auth u)))) in
  let& _ := release_if KBlock (bool_decide (is_Some (audience (u_auth u)))) in
  let& _ := release_if KBlock (u_aPending u) in
  let& _ := release_if KCond (u_condInit u) in
  let& _ := release_if KMutex (u_mutexInit u) in
  Done (cleared u).

(** [n] threads are joined. *)
Fixpoint join_workers (n : nat) : scode unit :=
  match n with
  | O => Done tt
  | S n => let& _ := give_up_one KThread in join_workers n
  end.
Definition serverJoinWorkers (u : setup) : scode setup :=
  let& _ := join_workers (Z.to_nat (u_nWorkers u)) in Done (set_workers (u_running u) 0 u).

(** [n] workers are still to be started. *)
Fixpoint start_workers (n : nat) (u : setup) : scode (Z * setup) :=
  match n with
  | O => Done (OK, u)
  | S n =>
      let& ok := obtain KThread in
      if ok : bool then start_workers n (set_workers (u_running u) (u_nWorkers u + 1) u)
      else
        let& _ := join_workers (Z.to_nat (u_nWorkers u)) in
        Done (1, set_workers false 0 u)
  end.
Definition serverStartWorkers (u : setup) : scode (Z * setup) := start_workers (Z.to_nat SERVER_WORKERS) u.

(** [serverCleanup(pSrv); return rc;] *)
Definition setup_fails (rc : Z) (u : setup) : scode (Z * setup) := let& u := serverCleanup u in Done (rc, u).

(** The socket: created, bound, listening. *)
Definition init_socket (o : DoltliteServeOpts) (u : setup) : scode (Z * setup) :=
  let& ok := obtain KSocket in
  if negb ok then setup_fails 1 u else
  let& fd := ask (fun fd : Z => 0 <= fd) in
  let u := set_listen fd u in
  let& bound := call_ok in
  if negb bound then setup_fails 1 u else
  let& listening := call_ok in
  if negb listening then setup_fails 1 u else
  let& named := call_ok in
  let& port := if named : bool then ask (fun port : Z => 0 <= port < 65536) else Done (o_port o) in
  let& (rc, u) := serverStartWorkers (set_port port u) in
  if negb (rc =? OK) then setup_fails 1 u else Done (OK, u).

(** The certificate and the socket. *)
Definition init_tls (o : DoltliteServeOpts) (u : setup) : scode (Z * setup) :=
  match o_certFile o, o_keyFile o with
  | Some _, Some _ =>
      let& ok := obtain KTls in
      if negb ok then setup_fails 1 u else init_socket o (set_tls u)
  | _, _ => init_socket o u
  end.

(** The keys and the audience. *)
Definition init_auth (o : DoltliteServeOpts) (u : setup) : scode (Z * setup) :=
  let& (rc, u) :=
    if nonempty (o_authKeysDir o) then
      if negb (nonempty (o_audience o)) then Done (1, u) else
      let& valid := call_ok in
      if negb valid then Done (1, u) else
      let& dir := dupStr (o_authKeysDir o) in
      Done (match dir with Some _ => (OK, set_auth (ServerAuth dir None) u) | None => (SQLITE_NOMEM, u) end)
    else Done (OK, u) in
  if negb (rc =? OK) then setup_fails rc u else
  let& (rc, u) :=
    if nonempty (o_audience o) then
      let& aud := dupStr (o_audience o) in
      Done (match aud with Some _ => (OK, set_auth (ServerAuth (authKeysDir (u_auth u)) aud) u) | None => (SQLITE_NOMEM, u) end)
    else Done (OK, u) in
  if negb (rc =? OK) then setup_fails rc u else
  init_tls o u.

Definition SERVER_DEFAULT_TIMEOUT_MS : Z := 30000.

Definition serverInit (o : DoltliteServeOpts) : scode (Z * setup) :=
  let u := Setup (-1) 0 false None 0 false false (if 0 <? o_timeoutMs o then o_timeoutMs o else SERVER_DEFAULT_TIMEOUT_MS) false false (ServerAuth None None) in
  let& ok := obtain KMutex in
  if negb ok then Done (1, u) else
  let u := Setup (u_listenFd u) (u_port u) (u_running u) (u_zDir u) (u_nWorkers u) true (u_condInit u) (u_timeoutMs u) (u_aPending u) (u_tls u) (u_auth u) in
  let& ok := obtain KCond in
  if negb ok then setup_fails 1 u else
  let u := set_cond u in
  let& ok := obtain KBlock in
  if negb ok then setup_fails SQLITE_NOMEM u else
  let u := set_pending u in
  let& address := call_ok in
  if negb address then setup_fails 1 u else
  let& dir := dupStr (o_zDir o) in
  match dir with
  | None => setup_fails SQLITE_NOMEM u
  | Some _ => init_auth o (set_dir dir u)
  end.

(** The server, running; the threads of [Server.v] are its threads. *)
Definition doltliteServeAsyncOpts (o : DoltliteServeOpts) : scode (option setup) :=
  let& ok := obtain KBlock in
  if negb ok then Done None else
  let& (rc, u) := serverInit o in
  if negb (rc =? OK) then let& _ := give_up_one KBlock in Done None else
  let& ok := obtain KThread in
  if ok : bool then Done (Some u) else
  let& u := serverJoinWorkers u in
  let& _ := serverCleanup u in
  let& _ := give_up_one KBlock in
  Done None.

(** After [serverRequestStop], which [Server.v] models. *)
Definition doltliteServerStop (u : setup) : scode unit :=
  let& _ := give_up_one KThread in
  let& u := serverJoinWorkers u in
  let& _ := serverCleanup u in
  give_up_one KBlock.

(** A server that runs until it is stopped, in the thread of the caller. *)
Definition doltliteServeOpts (o : DoltliteServeOpts) : scode Z :=
  let& (rc, u) := serverInit o in
  if negb (rc =? OK) then Done rc else
  let& u := serverJoinWorkers u in
  let& _ := serverCleanup u in
  Done OK.
