(* ===== verification/SetupTheorems.v ===== *)
(** The theorem about setting up and tearing down the server of
    [remote/doltlite_remotesrv.c]: nothing is kept when it fails, and a stop
    gives back what a server that was set up holds. *)
From S2P Require Import Prelude CString World Radix Json Creds CredsFile Bearer CredsConfig Http HttpSpec Threads Server Setup.

(** * What a server holds *)
Definition owned (u : setup) (t : holdings) : holdings :=
  add_held KSocket (Z.b2z (0 <=? u_listenFd u)) (add_held KTls (Z.b2z (u_tls u))
    (add_held KBlock (Z.b2z (bool_decide (is_Some (u_zDir u)))) (add_held KBlock (Z.b2z (bool_decide (is_Some (authKeysDir (u_auth u)))))
      (add_held KBlock (Z.b2z (bool_decide (is_Some (audience (u_auth u))))) (add_held KBlock (Z.b2z (u_aPending u))
        (add_held KCond (Z.b2z (u_condInit u)) (add_held KMutex (Z.b2z (u_mutexInit u)) t))))))).
Definition nonneg (s : holdings) : Prop := forall k, 0 <= count_held k s.

Lemma add_held_nonneg k n s : 0 <= n -> nonneg s -> nonneg (add_held k n s).
Proof. intros Hn Hs k'. specialize (Hs k'). destruct k, k'; cbn in *; lia. Qed.
Lemma b2z_nonneg b : 0 <= Z.b2z b.
Proof. by destruct b. Qed.
#[local] Hint Resolve add_held_nonneg b2z_nonneg : core.

Lemma add_held_add k a b s : add_held k a (add_held k b s) = add_held k (a + b) s.
Proof. destruct s, k; cbn; f_equal; lia. Qed.
Lemma add_held_0 k s : add_held k 0 s = s.
Proof. destruct s, k; cbn; f_equal; lia. Qed.
Lemma add_held_comm k n k' n' s : add_held k n (add_held k' n' s) = add_held k' n' (add_held k n s).
Proof. destruct s, k, k'; cbn; f_equal; lia. Qed.

Lemma give_up_alone k s : nonneg s -> alone (give_up_one k) (add_held k 1 s) (fun _ s' => s' = s).
Proof.
  intros Hs. cbn. assert (count_held k (add_held k 1 s) = count_held k s + 1) as E by (by destruct k). rewrite E. specialize (Hs k). rewrite (proj2 (Z.leb_gt _ _)) by lia.
  rewrite add_held_add. apply add_held_0.
Qed.

Lemma release_alone k b s : nonneg s -> alone (release_if k b) (add_held k (Z.b2z b) s) (fun _ s' => s' = s).
Proof. intros Hs. destruct b; [by apply give_up_alone|]. apply add_held_0. Qed.

Lemma cleanup_alone u t : nonneg t -> alone (serverCleanup u) (owned u t) (fun u' s => u' = cleared u /\ s = t).
Proof.
  intros Ht. unfold serverCleanup, owned. do 8 (eapply alone_call; [apply release_alone; auto 10|]; intros _ s ->). done.
Qed.

Lemma fails_alone rc u t : nonneg t -> alone (setup_fails rc u) (owned u t) (fun r s => r.1 = rc /\ s = t).
Proof. intros Ht. eapply alone_call; [by apply cleanup_alone|]. by intros u' s [_ ->]. Qed.

Lemma join_alone n s : nonneg s -> alone (join_workers n) (add_held KThread (Z.of_nat n) s) (fun _ s' => s' = s).
Proof.
  intros Hs. induction n as [|n IH]; [apply add_held_0|]. cbn [join_workers]. replace (Z.of_nat (S n)) with (1 + Z.of_nat n) by lia. rewrite <- add_held_add.
  eapply alone_call; [apply give_up_alone; apply add_held_nonneg; [lia|done]|]. intros _ s' ->. apply IH.
Qed.

(** * Setting up *)
(** How a part of the set-up ends: the server is complete, with its workers, or
    nothing of it is left. *)
Definition set_up (u : setup) (t : holdings) (r : Z * setup) (s : holdings) : Prop :=
  if r.1 =? OK then s = add_held KThread SERVER_WORKERS (owned r.2 t) /\ u_running r.2 = true /\ u_nWorkers r.2 = SERVER_WORKERS /\
    u_auth r.2 = u_auth u /\ u_timeoutMs r.2 = u_timeoutMs u
  else s = t.

Lemma fails_set_up rc u v t : nonneg t -> rc <> OK -> alone (setup_fails rc u) (owned u t) (set_up v t).
Proof. intros Ht Hrc. eapply alone_mono; [by apply fails_alone|]. intros r s [E ->]. unfold set_up. by rewrite E, (proj2 (Z.eqb_neq rc OK) Hrc). Qed.

Lemma obtain_alone k s (Q : bool -> holdings -> Prop) : Q true (add_held k 1 s) -> Q false s -> alone (obtain k) s Q.
Proof. intros H1 H2 [] _; cbn; done. Qed.

Lemma start_alone n u t : nonneg t -> 0 <= u_nWorkers u -> u_running u = true ->
  alone (start_workers n u) (add_held KThread (u_nWorkers u) t) (fun r s =>
    r.1 = OK /\ r.2 = set_workers true (u_nWorkers u + Z.of_nat n) u /\ s = add_held KThread (u_nWorkers u + Z.of_nat n) t \/
    r.1 = 1 /\ r.2 = set_workers false 0 u /\ s = t).
Proof.
  intros Ht. revert u. induction n as [|n IH]; intros u Hn Hr; cbn [start_workers].
  - left. cbn. rewrite Z.add_0_r. split_and!; [done|destruct u; cbn in *; by subst|done].
  - eapply alone_call; [apply (obtain_alone KThread _ (fun ok s => s = add_held KThread (u_nWorkers u + Z.b2z ok) t)); [by rewrite add_held_add, (Z.add_comm 1)|by rewrite Z.add_0_r]|].
    intros [] s ->; cbn [Z.b2z].
    + eapply alone_mono; [apply (IH (set_workers (u_running u) (u_nWorkers u + 1) u)); cbn; [lia|done]|]. intros r s. rewrite Hr. cbn [u_nWorkers set_workers].
      replace (u_nWorkers u + 1 + Z.of_nat n) with (u_nWorkers u + Z.of_nat (S n)) by lia. by intros [(? & -> & ->)|(? & -> & ->)]; [left|right].
    + rewrite Z.add_0_r. pose proof (join_alone (Z.to_nat (u_nWorkers u)) t Ht) as Hj. rewrite Z2Nat.id in Hj by lia.
      eapply alone_call; [exact Hj|]. intros x s ->. by right.
Qed.

Lemma init_socket_alone o u t : nonneg t -> u_listenFd u = -1 -> u_nWorkers u = 0 -> alone (init_socket o u) (owned u t) (set_up u t).
Proof.
  intros Ht Hfd Hn. assert (forall fd, 0 <= fd -> owned (set_listen fd u) t = add_held KSocket 1 (owned u t)) as Eo.
  { intros fd Hge. unfold owned. cbn [set_listen u_listenFd u_tls u_zDir u_auth u_aPending u_condInit u_mutexInit]. rewrite Hfd, (proj2 (Z.leb_le 0 fd)) by lia. cbn [Z.leb Z.compare Z.b2z]. by rewrite add_held_0. }
  eapply alone_call; [apply (obtain_alone KSocket _ (fun ok s => s = if ok : bool then add_held KSocket 1 (owned u t) else owned u t)); done|]. intros [] s ->; cbn [negb]; [|by apply fails_set_up].
  intros fd Hge. cbn [bind]. rewrite <- (Eo fd Hge). assert (forall rc, rc <> OK -> alone (setup_fails rc (set_listen fd u)) (owned (set_listen fd u) t) (set_up u t)) as Hf by (intros; by apply fails_set_up).
  intros [] _; cbn [bind negb]; [|by apply Hf]. intros [] _; cbn [bind negb]; [|by apply Hf].
  assert (forall port, alone (let& (rc, u) := serverStartWorkers (set_port port (set_listen fd u)) in if negb (rc =? OK) then setup_fails 1 u else Done (OK, u)) (owned (set_listen fd u) t) (set_up u t)) as Hgo.
  { intros port. assert (owned (set_listen fd u) t = add_held KThread (u_nWorkers (set_port port (set_listen fd u))) (owned (set_listen fd u) t)) as Es by (cbn [u_nWorkers set_port set_listen]; by rewrite Hn, add_held_0).
    rewrite Es at 1. eapply alone_call; [apply start_alone; [by unfold owned; auto 12|cbn; lia|done]|]. intros [rc u'] s. cbn [fst snd].
    intros [(-> & -> & ->)|(-> & -> & ->)]; cbn [OK Z.eqb negb].
    - unfold set_up. cbn. rewrite Hn. done.
    - change (owned (set_listen fd u) t) with (owned (set_workers false 0 (set_port port (set_listen fd u))) t). by apply fails_set_up. }
  intros [] _; cbn [bind]; [intros port _; apply Hgo|apply Hgo].
Qed.

(** The directory of keys and the audience of the options. *)
Definition given (z : option (list Z)) : option (list Z) := if nonempty z then z else None.
Definition given_auth (o : DoltliteServeOpts) : server_auth := ServerAuth (given (o_authKeysDir o)) (given (o_audience o)).

(** How the whole set-up ends. *)
Definition server_up (o : DoltliteServeOpts) (t : holdings) (r : Z * setup) (s : holdings) : Prop :=
  if r.1 =? OK then s = add_held KThread SERVER_WORKERS (owned r.2 t) /\ u_running r.2 = true /\ u_nWorkers r.2 = SERVER_WORKERS /\
    u_auth r.2 = given_auth o /\ (nonempty (o_authKeysDir o) = true -> nonempty (o_audience o) = true) /\ 0 < u_timeoutMs r.2
  else s = t.

Lemma set_up_server o u t r s : set_up u t r s -> u_auth u = given_auth o -> (nonempty (o_authKeysDir o) = true -> nonempty (o_audience o) = true) -> 0 < u_timeoutMs u -> server_up o t r s.
Proof. unfold set_up, server_up. destruct (r.1 =? OK); [|done]. intros (-> & ? & ? & E1 & E2) Ha Hk Ht. rewrite E1, E2. by split_and!. Qed.

Lemma fails_server o rc u t : nonneg t -> rc <> OK -> alone (setup_fails rc u) (owned u t) (server_up o t).
Proof. intros Ht Hrc. eapply alone_mono; [by apply fails_alone|]. intros r s [E ->]. unfold server_up. by rewrite E, (proj2 (Z.eqb_neq rc OK) Hrc). Qed.

Lemma dup_alone z s (Q : option (list Z) -> holdings -> Prop) : Q z (add_held KBlock (Z.b2z (bool_decide (is_Some z))) s) -> Q None s -> alone (dupStr z) s Q.
Proof. intros H1 H2. destruct z as [z|]; [|done]. intros [] _; cbn; done. Qed.

Lemma owned_auth u a t : u_auth u = ServerAuth None None ->
  owned (set_auth a u) t = add_held KBlock (Z.b2z (bool_decide (is_Some (audience a)))) (add_held KBlock (Z.b2z (bool_decide (is_Some (authKeysDir a)))) (owned u t)).
Proof.
  intros E. unfold owned. cbn [set_auth u_listenFd u_tls u_zDir u_auth u_aPending u_condInit u_mutexInit]. rewrite E. cbn [authKeysDir audience].
  rewrite !(bool_decide_eq_false_2 (is_Some None)) by (by intros []). cbn [Z.b2z]. rewrite !add_held_0.
  destruct t. cbn. f_equal. lia.
Qed.

Lemma given_some z : nonempty z = true -> given z = z /\ exists x, z = Some x /\ x <> [].
Proof. intros H. unfold given. rewrite H. split; [done|]. destruct z as [[|c x]|]; [done| |done]. by eexists. Qed.

Lemma init_tls_alone o u t : nonneg t -> u_listenFd u = -1 -> u_nWorkers u = 0 -> u_tls u = false -> u_auth u = given_auth o ->
  (nonempty (o_authKeysDir o) = true -> nonempty (o_audience o) = true) -> 0 < u_timeoutMs u -> alone (init_tls o u) (owned u t) (server_up o t).
Proof.
  intros Ht Hfd Hn Htls Ha Hk Hto. assert (alone (init_socket o u) (owned u t) (server_up o t)) as Hplain.
  { eapply alone_mono; [by apply init_socket_alone|]. intros r s H. by eapply set_up_server. }
  unfold init_tls. destruct (o_certFile o), (o_keyFile o); [|done..]. eapply alone_call; [apply (obtain_alone KTls _ (fun ok s => s = if ok : bool then add_held KTls 1 (owned u t) else owned u t)); done|].
  intros [] s ->; cbn [negb]; [|by apply fails_server].
  replace (add_held KTls 1 (owned u t)) with (owned (set_tls u) t).
  - eapply alone_mono; [by apply (init_socket_alone o (set_tls u) t)|]. intros r s H. by eapply (set_up_server o (set_tls u)).
  - unfold owned. cbn [set_tls u_listenFd u_tls u_zDir u_auth u_aPending u_condInit u_mutexInit]. rewrite Htls. cbn [Z.b2z]. rewrite add_held_0. apply add_held_comm.
Qed.

Lemma init_auth_alone o u t : nonneg t -> u_listenFd u = -1 -> u_nWorkers u = 0 -> u_tls u = false -> u_auth u = ServerAuth None None -> 0 < u_timeoutMs u ->
  alone (init_auth o u) (owned u t) (server_up o t).
Proof.
  intros Ht Hfd Hn Htls Ha Hto. unfold init_auth.
  apply (alone_call _ _ _ (fun r s => if r.1 =? OK then r.2 = set_auth (ServerAuth (given (o_authKeysDir o)) None) u /\ s = owned r.2 t /\
    (nonempty (o_authKeysDir o) = true -> nonempty (o_audience o) = true) else r.2 = u /\ s = owned u t)).
  - destruct (nonempty (o_authKeysDir o)) eqn:Ek.
    2: { cbn. unfold given. rewrite Ek. assert (set_auth (ServerAuth None None) u = u) as -> by (destruct u; cbn in *; by subst). done. }
    destruct (nonempty (o_audience o)) eqn:Ea; cbn [negb]; [|done]. intros [] _; cbn [bind negb]; [|done]. destruct (given_some _ Ek) as (-> & dir & Ed & _).
    eapply alone_call; [apply (dup_alone _ _ (fun z s => z = o_authKeysDir o /\ s = add_held KBlock 1 (owned u t) \/ z = None /\ s = owned u t)); [left; by rewrite Ed|by right]|].
    intros z s [[-> ->]|[-> ->]]; [|done]. rewrite Ed. cbn [alone fst snd OK Z.eqb]. split; [done|]. split; [|done]. rewrite owned_auth by done. symmetry. apply add_held_0.
  - intros [rc u1] s. cbn [fst snd]. destruct (Z.eqb_spec rc OK) as [->|Hrc]; [intros (-> & -> & Hk)|intros [-> ->]]; cbn [negb]; [|by apply fails_server].
    set (u1 := set_auth (ServerAuth (given (o_authKeysDir o)) None) u).
    apply (alone_call _ _ _ (fun r s => if r.1 =? OK then r.2 = set_auth (given_auth o) u /\ s = owned r.2 t else r.2 = u1 /\ s = owned u1 t)).
    + destruct (nonempty (o_audience o)) eqn:Ea.
      2: { cbn. unfold given_auth, given at 2. by rewrite Ea. }
      destruct (given_some _ Ea) as (Eg & aud & Ed & _).
      eapply alone_call; [apply (dup_alone _ _ (fun z s => z = o_audience o /\ s = add_held KBlock 1 (owned u1 t) \/ z = None /\ s = owned u1 t)); [left; by rewrite Ed|by right]|].
      intros z s [[-> ->]|[-> ->]]; [|done]. rewrite Ed. cbn [alone fst snd OK Z.eqb]. unfold given_auth. rewrite Eg, Ed. split; [done|].
      transitivity (owned (set_auth (ServerAuth (given (o_authKeysDir o)) (Some aud)) u) t); [|done]. unfold u1. rewrite !owned_auth by done. cbn [authKeysDir audience]. change (Z.b2z (bool_decide (is_Some (None : option (list Z))))) with 0. by rewrite add_held_0.
    + intros [rc u2] s. cbn [fst snd]. destruct (Z.eqb_spec rc OK) as [->|Hrc]; [intros [-> ->]|intros [-> ->]]; cbn [negb]; [|by apply fails_server].
      by apply (init_tls_alone o (set_auth (given_auth o) u) t).
Qed.

Lemma serve_alone o t : nonneg t -> alone (serverInit o) t (server_up o t).
Proof.
  intros Ht. set (ms := if 0 <? o_timeoutMs o then o_timeoutMs o else SERVER_DEFAULT_TIMEOUT_MS). assert (0 < ms) as Hms by (unfold ms, SERVER_DEFAULT_TIMEOUT_MS; destruct (Z.ltb_spec 0 (o_timeoutMs o)); lia).
  set (v := fun a b dir => Setup (-1) 0 false dir 0 true a ms b false (ServerAuth None None)).
  assert (forall a b, owned (v a b None) t = add_held KBlock (Z.b2z b) (add_held KCond (Z.b2z a) (add_held KMutex 1 t))) as Eo.
  { intros a b. destruct t, a, b; cbn; change (0 <=? -1) with false; cbn [Z.b2z]; f_equal; lia. }
  unfold serverInit. fold ms. cbv zeta. cbn [u_listenFd u_port u_running u_zDir u_nWorkers u_condInit u_timeoutMs u_aPending u_tls u_auth].
  eapply alone_call; [apply (obtain_alone KMutex _ (fun ok s => s = if ok : bool then owned (v false false None) t else t)); [by rewrite Eo, !add_held_0|done]|].
  intros [] s ->; cbn [negb]; [|done].
  eapply alone_call; [apply (obtain_alone KCond _ (fun ok s => s = owned (v ok false None) t)); [by rewrite !Eo, !add_held_0|done]|].
  intros [] s ->; cbn [negb]; [|by apply (fails_server o 1 (v false false None))].
  eapply alone_call; [apply (obtain_alone KBlock _ (fun ok s => s = owned (v true ok None) t)); [by rewrite !Eo, !add_held_0|done]|].
  intros [] s ->; cbn [negb]; [|by apply (fails_server o SQLITE_NOMEM (v true false None))].
  intros [] _; cbn [bind negb]; [|by apply (fails_server o 1 (v true true None))].
  eapply alone_call; [apply (dup_alone _ _ (fun z s => match z with Some _ => s = owned (v true true z) t | None => s = owned (v true true None) t end))|].
  - destruct (o_zDir o) as [dir|]; [|apply add_held_0]. destruct t. cbn. change (0 <=? -1) with false. cbn [Z.b2z]. f_equal. lia.
  - done.
  - intros [dir|] s ->; [by apply (init_auth_alone o (v true true (Some dir)) t)|by apply (fails_server o SQLITE_NOMEM (v true true None))].
Qed.

Lemma given_wf o : (forall dir, o_authKeysDir o = Some dir -> zlen dir < 2 ^ 30) -> (nonempty (o_authKeysDir o) = true -> nonempty (o_audience o) = true) -> server_wf (given_auth o).
Proof.
  intros Hd Hk dir. cbn [given_auth authKeysDir audience]. destruct (nonempty (o_authKeysDir o)) eqn:E; unfold given at 1; rewrite E; [|done]. intros Ed. split; [by apply Hd|].
  destruct (given_some _ (Hk eq_refl)) as (-> & aud & Ea & Hne). by exists aud.
Qed.

(** What a server that is up gives back when it is torn down. *)
Lemma tear_down_alone {A} u t (k : scode A) Q : nonneg t -> u_nWorkers u = SERVER_WORKERS -> alone k t Q ->
  alone (let& u := serverJoinWorkers u in let& _ := serverCleanup u in k) (add_held KThread SERVER_WORKERS (owned u t)) Q.
Proof.
  intros Ht Hn Hk. assert (nonneg (owned u t)) as Ho by (unfold owned; auto 12). unfold serverJoinWorkers. rewrite Hn.
  pose proof (join_alone (Z.to_nat SERVER_WORKERS) (owned u t) Ho) as Hj. rewrite Z2Nat.id in Hj by done. apply alone_bind. eapply alone_call; [exact Hj|]. intros x s ->. cbn [alone].
  change (owned u t) with (owned (set_workers (u_running u) 0 u) t). eapply alone_call; [by apply cleanup_alone|]. by intros u' s [_ ->].
Qed.

(** * Theorem *)
(** C23: a server is set up completely or not at all, and a stop gives back what
    it holds.  Whatever fails, [doltliteServeAsyncOpts] returns: NULL, and then
    no mutex, block, TLS context, socket or thread is left of it, or a running
    server with all its workers, with the directory of keys it was given and
    an audience to check tokens against, which the authorization of requests
    relies on.  [doltliteServerStop] then gives back all of it, each once. *)
Theorem server_set_up_or_nothing o : (forall dir, o_authKeysDir o = Some dir -> zlen dir < 2 ^ 30) ->
  alone (doltliteServeAsyncOpts o) nothing (fun r s =>
    match r with
    | None => s = nothing
    | Some u => u_running u = true /\ u_nWorkers u = SERVER_WORKERS /\ n_threads s = SERVER_WORKERS + 1 /\ 0 < u_timeoutMs u /\ server_wf (u_auth u) /\
        (forall dir, o_authKeysDir o = Some dir -> dir <> [] -> authKeysDir (u_auth u) = Some dir) /\
        alone (doltliteServerStop u) s (fun _ s' => s' = nothing)
    end).
Proof.
  intros Hd. assert (nonneg nothing) as H0 by (intros []; done). assert (nonneg (add_held KBlock 1 nothing)) as H1 by (apply add_held_nonneg; [lia|done]).
  eapply alone_call; [apply (obtain_alone KBlock _ (fun ok s => s = if ok : bool then add_held KBlock 1 nothing else nothing)); done|]. intros [] s ->; cbn [negb]; [|done].
  eapply alone_call; [by apply serve_alone|]. intros [rc u] s. unfold server_up. cbn [fst snd]. destruct (rc =? OK); cbn [negb].
  2: { intros ->. eapply alone_call; [by apply give_up_alone|]. by intros x s ->. }
  intros (-> & Hr & Hn & Ha & Hk & Hto). set (t := add_held KBlock 1 nothing) in *.
  set (s := add_held KThread SERVER_WORKERS (owned u t)) in *.
  assert (nonneg s) as Hs by (unfold s, owned; apply add_held_nonneg; [done|auto 12]).
  eapply alone_call; [apply (obtain_alone KThread _ (fun ok s' => s' = if ok : bool then add_held KThread 1 s else s)); done|]. intros [] s' ->.
  - cbn [alone]. split_and!; [done|done|done|done|rewrite Ha; by apply given_wf| |].
    + intros dir Ed Hne. rewrite Ha. cbn [given_auth authKeysDir]. unfold given. rewrite Ed. by destruct dir.
    + eapply alone_call; [by apply give_up_alone|]. intros x s' ->. apply (tear_down_alone u t (give_up_one KBlock)); [done|done|]. by apply (give_up_alone KBlock nothing).
  - apply (tear_down_alone u t); [done|done|]. eapply alone_call; [by apply (give_up_alone KBlock nothing)|]. by intros x s' ->.
Qed.

Definition guarded_opts : DoltliteServeOpts := ServeOpts (Some (str "/srv")) 0 None None None (Some (str "keys")) (Some (str "example.org")) 0.

Lemma server_set_up_or_nothing_witness : alone (doltliteServeAsyncOpts guarded_opts) nothing (fun r s =>
  match r with
  | None => s = nothing
  | Some u => authKeysDir (u_auth u) = Some (str "keys") /\ alone (doltliteServerStop u) s (fun _ s' => s' = nothing)
  end).
Proof.
  eapply alone_mono; [apply (server_set_up_or_nothing guarded_opts); intros dir [= <-]; by vm_compute|].
  intros [u|] s; [|done]. intros (_ & _ & _ & _ & _ & Hk & Hs). split; [by apply Hk|exact Hs].
Defined.
