(* ===== verification/Buffer.v ===== *)
(** Memory blocks whose cells may be uninitialised: what realloc, stores and
    loads do to them.  A store outside the block and a load of a cell that was
    never written are undefined. *)
From S2P Require Import Prelude.

(** * Heap buffers *)

Definition buffer (A : Type) : Type := list (option A).

(** realloc keeps the old cells; the new ones are uninitialised. *)
Definition buf_resize {A} (n : Z) (b : buffer A) : buffer A := resize (Z.to_nat n) None b.

(** A store of consecutive cells; outside the buffer it is undefined. *)
Definition buf_write {A} (b : buffer A) (off : Z) (l : list A) : option (buffer A) :=
  if (0 <=? off) && (off + zlen l <=? zlen b) then
    Some (take (Z.to_nat off) b ++ (Some <$> l) ++ drop (Z.to_nat off + length l) b)
  else None.

(** A load of the first [n] cells, all of which must be initialised. *)
Definition buf_read {A} (b : buffer A) (n : Z) : option (list A) :=
  let? cells := bytes_at b n in mapM id cells.

(** * Initialised prefixes *)

(** The first cells of [b] hold [l]. *)
Definition holds {A} (b : buffer A) (l : list A) : Prop := exists r, b = (Some <$> l) ++ r.

Lemma holds_nil {A} (b : buffer A) : holds b [].
Proof. by exists b. Qed.

Lemma holds_app_1 {A} (b : buffer A) l k : holds b (l ++ k) -> holds b l.
Proof. intros [r ->]. exists ((Some <$> k) ++ r). by rewrite fmap_app, app_assoc. Qed.

Lemma holds_length {A} (b : buffer A) l : holds b l -> zlen l <= zlen b.
Proof. intros [r ->]. rewrite length_app, length_fmap. lia. Qed.

Lemma holds_resize {A} (b : buffer A) l n :
  holds b l -> zlen l <= n -> holds (buf_resize n b) l /\ zlen (buf_resize n b) = n.
Proof.
  intros [r ->] Hn. unfold buf_resize. split; [|rewrite length_resize; lia].
  exists (resize (Z.to_nat n - length l) None r).
  rewrite resize_app_ge by (rewrite length_fmap; lia). by rewrite length_fmap.
Qed.

Lemma holds_write {A} (b : buffer A) l k :
  holds b l -> zlen l + zlen k <= zlen b ->
  exists b', buf_write b (zlen l) k = Some b' /\ holds b' (l ++ k) /\ zlen b' = zlen b.
Proof.
  intros [r ->] Hn. unfold buf_write.
  destruct (Z.leb_spec 0 (zlen l)); [|lia]. destruct (Z.leb_spec (zlen l + zlen k) (zlen ((Some <$> l) ++ r))); [|lia].
  cbn [andb]. eexists. split; [done|]. rewrite Nat2Z.id.
  rewrite take_app_length' by (by rewrite length_fmap).
  rewrite length_app, length_fmap in Hn. split.
  - exists (drop (length k) r). rewrite fmap_app, <- app_assoc. do 2 f_equal.
    rewrite drop_app_ge by (rewrite length_fmap; lia). rewrite length_fmap. f_equal. lia.
  - rewrite !length_app, !length_fmap, length_drop, length_app, length_fmap. lia.
Qed.

Lemma mapM_id_Some {A} (l : list A) : mapM id (Some <$> l) = Some l.
Proof. induction l as [|x l IH]; [done|]. cbn. by rewrite IH. Qed.

Lemma holds_read {A} (b : buffer A) l n : holds b l -> n = zlen l -> buf_read b n = Some l.
Proof.
  intros [r ->] ->. unfold buf_read. rewrite bytes_at_app by (by rewrite length_fmap).
  apply mapM_id_Some.
Qed.

Lemma holds_read_prefix {A} (b : buffer A) l n :
  holds b l -> (n <= length l)%nat -> buf_read b (Z.of_nat n) = Some (take n l).
Proof.
  intros [r ->] Hn. unfold buf_read. rewrite bytes_at_Some by (rewrite length_app, length_fmap; lia).
  rewrite Nat2Z.id, take_app_le by (rewrite length_fmap; lia). rewrite <- fmap_take. apply mapM_id_Some.
Qed.

(** Two areas written one after the other, the second over the end of the
    first, and the cells read across both. *)
Lemma buf_write_two {A} K (l r : list A) nl nr :
  (length l <= K)%nat -> (nl <= length l)%nat -> (nl + length r <= K)%nat -> (nr <= length r)%nat ->
  exists b1 b2, buf_write (replicate K None) 0 l = Some b1 /\ buf_write b1 (Z.of_nat nl) r = Some b2 /\
    buf_read b2 (Z.of_nat (nl + nr)) = Some (take nl l ++ take nr r).
Proof.
  intros Hl Hnl Hr Hnr.
  destruct (holds_write (replicate K None) [] l) as (b1 & E1 & [r1 H1] & L1);
    [apply holds_nil|cbn [length]; rewrite length_replicate; lia|]. cbn [length app] in *.
  rewrite length_replicate in L1.
  assert (Hh : holds b1 (take nl l)) by (rewrite <- (take_drop nl l) in H1; eapply holds_app_1; by exists r1).
  assert (Lt : length (take nl l) = nl) by (rewrite length_take; lia).
  destruct (holds_write b1 (take nl l) r) as (b2 & E2 & H2 & _); [done|lia|].
  rewrite Lt in E2. exists b1, b2. split_and!; [done|done|].
  rewrite (holds_read_prefix b2 _ (nl + nr) H2) by (rewrite length_app; lia).
  rewrite take_app_ge by lia. rewrite Lt. by replace (nl + nr - nl)%nat with nr by lia.
Qed.
