(* ===== verification/Encoding.v ===== *)
(** Byte-level encodings and key comparison: the macros of prolly_encoding.h,
    the integer-key codec and the three key comparators of prolly_node.h,
    prolly_node.c and prolly_mutmap.c.  The theorems relate every one of them
    to one order, the lexicographic order [lexcmp] of byte strings. *)
From S2P Require Import Prelude.

(** * prolly_encoding.h *)

Definition PROLLY_GET_U16 (p : list Z) : option Z :=
  match p with
  | p0 :: p1 :: _ => Some (Z.lor p0 (Z.shiftl p1 8))
  | _ => None
  end.

Definition PROLLY_PUT_U16 (v : Z) : list Z := [u8 v; u8 (Z.shiftr v 8)].

Definition PROLLY_GET_U32 (p : list Z) : option Z :=
  match p with
  | p0 :: p1 :: p2 :: p3 :: _ =>
      Some (Z.lor (Z.lor (Z.lor p0 (Z.shiftl p1 8)) (Z.shiftl p2 16)) (Z.shiftl p3 24))
  | _ => None
  end.

Definition PROLLY_PUT_U32 (v : Z) : list Z :=
  [u8 v; u8 (Z.shiftr v 8); u8 (Z.shiftr v 16); u8 (Z.shiftr v 24)].

(** Little-endian 64-bit fields, as prollyNodeChildSubtreeCount reads them. *)
Definition get_u64_le (p : list Z) : option Z :=
  match p with
  | p0 :: p1 :: p2 :: p3 :: p4 :: p5 :: p6 :: p7 :: _ =>
      Some (Z.lor (Z.lor (Z.lor (Z.lor (Z.lor (Z.lor (Z.lor p0
        (Z.shiftl p1 8)) (Z.shiftl p2 16)) (Z.shiftl p3 24)) (Z.shiftl p4 32))
        (Z.shiftl p5 40)) (Z.shiftl p6 48)) (Z.shiftl p7 56))
  | _ => None
  end.

Definition put_u64_le (v : Z) : list Z :=
  [u8 v; u8 (Z.shiftr v 8); u8 (Z.shiftr v 16); u8 (Z.shiftr v 24);
   u8 (Z.shiftr v 32); u8 (Z.shiftr v 40); u8 (Z.shiftr v 48); u8 (Z.shiftr v 56)].

(** * Comparators *)

(** [memcmp]: only the sign of the result is specified by C; it is the sign of
    the first differing byte, undefined outside either buffer. *)
Definition cmp_sign (c : comparison) : Z :=
  match c with Lt => -1 | Eq => 0 | Gt => 1 end.
Definition memcmp (p q : list Z) (n : Z) : option Z :=
  let? a := bytes_at p n in
  let? b := bytes_at q n in
  Some (cmp_sign (lexcmp a b)).

Definition prollyKeyCmp (pA : list Z) (nA : Z) (pB : list Z) (nB : Z) : option Z :=
  let n := if nA <? nB then nA else nB in
  let? c := (if 0 <? n then memcmp pA pB n else Some 0) in
  if negb (c =? 0) then Some c else int (nA - nB).

Definition PROLLY_NODE_INTKEY : Z := 1.
Definition PROLLY_NODE_BLOBKEY : Z := 2.
Definition PROLLY_NODE_SUBTREE_COUNTS : Z := 4.

(** [x & mask] used as a condition. *)
Definition has_flag (x mask : Z) : bool := negb (Z.land x mask =? 0).

Definition prollyCompareKeys (flags : Z) (pKey1 : list Z) (nKey1 iKey1 : Z)
    (pKey2 : list Z) (nKey2 iKey2 : Z) : option Z :=
  if has_flag flags PROLLY_NODE_INTKEY then
    if iKey1 <? iKey2 then Some (-1)
    else if iKey2 <? iKey1 then Some 1
    else Some 0
  else
    let n := if nKey1 <? nKey2 then nKey1 else nKey2 in
    let? c := memcmp pKey1 pKey2 n in
    if negb (c =? 0) then Some c
    else if nKey1 <? nKey2 then Some (-1)
    else if nKey2 <? nKey1 then Some 1
    else Some 0.

(** The big-endian 64-bit load. *)
Definition prollyReadEncodedIntKey (p : list Z) : option Z :=
  match p with
  | p0 :: p1 :: p2 :: p3 :: p4 :: p5 :: p6 :: p7 :: _ =>
      Some (Z.lor (Z.lor (Z.lor (Z.lor (Z.lor (Z.lor (Z.lor (Z.shiftl p0 56)
        (Z.shiftl p1 48)) (Z.shiftl p2 40)) (Z.shiftl p3 32)) (Z.shiftl p4 24))
        (Z.shiftl p5 16)) (Z.shiftl p6 8)) p7)
  | _ => None
  end.

Definition get_u32_be (p : list Z) : option Z :=
  match p with
  | p0 :: p1 :: p2 :: p3 :: _ =>
      Some (Z.lor (Z.lor (Z.lor (Z.shiftl p0 24) (Z.shiftl p1 16)) (Z.shiftl p2 8)) p3)
  | _ => None
  end.

(** [while( n-- )]: the byte loop. *)
Fixpoint comparePrefix_bytes (n : nat) (pLeft pRight : list Z) : option Z :=
  match n with
  | O => Some 0
  | S n =>
      match pLeft, pRight with
      | l :: pLeft, r :: pRight =>
          if negb (l =? r) then Some (l - r) else comparePrefix_bytes n pLeft pRight
      | _, _ => None
      end
  end.

Definition comparePrefix_word (pLeft pRight : list Z) (n : Z) : option Z :=
  if 4 <=? n then
    let? uLeft := get_u32_be pLeft in
    let? uRight := get_u32_be pRight in
    if uLeft <? uRight then Some (-1)
    else if uRight <? uLeft then Some 1
    else comparePrefix_bytes (Z.to_nat (n - 4)) (pLeft +p 4) (pRight +p 4)
  else comparePrefix_bytes (Z.to_nat n) pLeft pRight.

(** [while( n>=8 )]; one unit of fuel per 8-byte step. *)
Fixpoint comparePrefix_loop (fuel : nat) (pLeft pRight : list Z) (n : Z) : option Z :=
  match fuel with
  | O => None
  | S fuel =>
      if 8 <=? n then
        let? uLeft := prollyReadEncodedIntKey pLeft in
        let? uRight := prollyReadEncodedIntKey pRight in
        if uLeft <? uRight then Some (-1)
        else if uRight <? uLeft then Some 1
        else
          let pLeft := pLeft +p 8 in
          let pRight := pRight +p 8 in
          let n := n - 8 in
          if 64 <? n then memcmp pLeft pRight n
          else if n =? 0 then Some 0
          else comparePrefix_loop fuel pLeft pRight n
      else comparePrefix_word pLeft pRight n
  end.

Definition prollyKeyComparePrefix (pLeft pRight : list Z) (n : Z) : option Z :=
  comparePrefix_loop (S (Z.to_nat n)) pLeft pRight n.

(** * Integer keys *)

Definition prollyEncodeIntKey (v : Z) : list Z :=
  let u := Z.lxor (u64 v) (Z.shiftl 1 63) in
  [u8 (Z.shiftr u 56); u8 (Z.shiftr u 48); u8 (Z.shiftr u 40); u8 (Z.shiftr u 32);
   u8 (Z.shiftr u 24); u8 (Z.shiftr u 16); u8 (Z.shiftr u 8); u8 u].

Definition prollyDecodeIntKey (p : list Z) : option Z :=
  let? u := prollyReadEncodedIntKey p in
  Some (i64 (Z.lxor u (Z.shiftl 1 63))).

(** The 8-byte key prefix of prolly_mutmap.c: the fall-through [switch] or-s in
    the bytes from the last one present down to byte 0. *)
Definition keyPrefix64_case (pKey : list Z) (n : Z) (r : option Z) (i sh : Z) : option Z :=
  let? r := r in
  if i <? n then
    let? b := pKey !! Z.to_nat i in
    Some (Z.lor r (Z.shiftl b sh))
  else Some r.

Definition keyPrefix64 (pKey : list Z) (nKey : Z) : option Z :=
  let n := if 8 <=? nKey then 8 else nKey in
  let case := keyPrefix64_case pKey n in
  case (case (case (case (case (case (case (case (Some 0)
    7 0) 6 8) 5 16) 4 24) 3 32) 2 40) 1 48) 0 56.

(** * Loads and stores as decodings *)

Fixpoint le_lor (l : list Z) : Z :=
  match l with [] => 0 | b :: l => Z.lor b (Z.shiftl (le_lor l) 8) end.

Lemma le_lor_decode l : bytes_wf l -> le_lor l = le_decode l.
Proof.
  induction 1 as [|b l Hb _ IH]; simpl; [done|].
  rewrite lor_shiftl_add, IH by (unfold is_byte in Hb; lia). lia.
Qed.

Lemma be_lor_decode l :
  bytes_wf l -> foldl (fun acc b => Z.lor (Z.shiftl acc 8) b) 0 l = be_decode l.
Proof.
  induction l as [|b l IH] using rev_ind; intros H; [done|].
  apply bytes_wf_app in H as [Hl Hb]. inversion Hb as [|?? Hb' _]; subst.
  unfold be_decode. rewrite !foldl_snoc, IH by done.
  rewrite Z.lor_comm, lor_shiftl_add by (unfold is_byte in Hb'; lia).
  unfold be_decode. lia.
Qed.

Ltac destruct_list l H :=
  let b := fresh "b" in
  destruct l as [|b l]; [simpl in H; exfalso; lia|].

Lemma PROLLY_GET_U16_spec p :
  bytes_wf p -> 2 <= zlen p -> PROLLY_GET_U16 p = Some (le_decode (take 2 p)).
Proof.
  intros Hw Hl. do 2 destruct_list p Hl. unfold PROLLY_GET_U16. f_equal.
  rewrite <- (le_lor_decode (take 2 _)) by (by apply bytes_wf_take).
  cbn [take le_lor]. by rewrite Z.shiftl_0_l, Z.lor_0_r.
Qed.

Lemma PROLLY_GET_U32_spec p :
  bytes_wf p -> 4 <= zlen p -> PROLLY_GET_U32 p = Some (le_decode (take 4 p)).
Proof.
  intros Hw Hl. do 4 destruct_list p Hl. unfold PROLLY_GET_U32. f_equal.
  rewrite <- (le_lor_decode (take 4 _)) by (by apply bytes_wf_take).
  cbn [take le_lor]. rewrite Z.shiftl_0_l, Z.lor_0_r.
  rewrite !Z.shiftl_lor, !Z.shiftl_shiftl by lia. by rewrite !Z.lor_assoc.
Qed.

Lemma get_u64_le_spec p :
  bytes_wf p -> 8 <= zlen p -> get_u64_le p = Some (le_decode (take 8 p)).
Proof.
  intros Hw Hl. do 8 destruct_list p Hl. unfold get_u64_le. f_equal.
  rewrite <- (le_lor_decode (take 8 _)) by (by apply bytes_wf_take).
  cbn [take le_lor]. rewrite Z.shiftl_0_l, Z.lor_0_r.
  rewrite !Z.shiftl_lor, !Z.shiftl_shiftl by lia. by rewrite !Z.lor_assoc.
Qed.

Lemma prollyReadEncodedIntKey_spec p :
  bytes_wf p -> 8 <= zlen p -> prollyReadEncodedIntKey p = Some (be_decode (take 8 p)).
Proof.
  intros Hw Hl. do 8 destruct_list p Hl. unfold prollyReadEncodedIntKey. f_equal.
  rewrite <- (be_lor_decode (take 8 _)) by (by apply bytes_wf_take).
  cbn [take foldl]. rewrite Z.shiftl_0_l, Z.lor_0_l.
  by rewrite !Z.shiftl_lor, !Z.shiftl_shiftl by lia.
Qed.

Lemma get_u32_be_spec p :
  bytes_wf p -> 4 <= zlen p -> get_u32_be p = Some (be_decode (take 4 p)).
Proof.
  intros Hw Hl. do 4 destruct_list p Hl. unfold get_u32_be. f_equal.
  rewrite <- (be_lor_decode (take 4 _)) by (by apply bytes_wf_take).
  cbn [take foldl]. rewrite Z.shiftl_0_l, Z.lor_0_l.
  by rewrite !Z.shiftl_lor, !Z.shiftl_shiftl by lia.
Qed.

Lemma shiftr_div v n : Z.shiftr v (8 * Z.of_nat n) / 256 = Z.shiftr v (8 * Z.of_nat (S n)).
Proof.
  rewrite !Z.shiftr_div_pow2 by lia. rewrite Z.div_div by lia.
  change 256 with (2 ^ 8). rewrite <- Z.pow_add_r by lia. do 2 f_equal. lia.
Qed.

Fixpoint shifts_from (v : Z) (k n : nat) : list Z :=
  match n with O => [] | S n => u8 (Z.shiftr v (8 * Z.of_nat k)) :: shifts_from v (S k) n end.

Lemma shifts_from_le v k n : shifts_from v k n = le_encode n (Z.shiftr v (8 * Z.of_nat k)).
Proof.
  revert k. induction n as [|n IH]; intros k; cbn [shifts_from le_encode]; [done|].
  by rewrite IH, shiftr_div.
Qed.

Lemma PROLLY_PUT_U16_le v : PROLLY_PUT_U16 v = le_encode 2 v.
Proof. apply (shifts_from_le v 0 2). Qed.

Lemma PROLLY_PUT_U32_le v : PROLLY_PUT_U32 v = le_encode 4 v.
Proof. apply (shifts_from_le v 0 4). Qed.

Lemma put_u64_le_le v : put_u64_le v = le_encode 8 v.
Proof. apply (shifts_from_le v 0 8). Qed.

Lemma PROLLY_GET_PUT_U16 v l :
  0 <= v < 65536 -> PROLLY_GET_U16 (PROLLY_PUT_U16 v ++ l) = Some v.
Proof.
  intros Hv. transitivity (PROLLY_GET_U16 (PROLLY_PUT_U16 v)); [done|].
  rewrite PROLLY_PUT_U16_le, PROLLY_GET_U16_spec; auto with prolly.
  2: by rewrite length_le_encode.
  rewrite take_ge by by rewrite length_le_encode. f_equal.
  apply le_decode_encode. simpl. lia.
Qed.

Lemma PROLLY_GET_PUT_U32 v l :
  is_u32 v -> PROLLY_GET_U32 (PROLLY_PUT_U32 v ++ l) = Some v.
Proof.
  intros Hv. transitivity (PROLLY_GET_U32 (PROLLY_PUT_U32 v)); [done|].
  rewrite PROLLY_PUT_U32_le, PROLLY_GET_U32_spec; auto with prolly.
  2: by rewrite length_le_encode.
  rewrite take_ge by by rewrite length_le_encode. f_equal.
  apply le_decode_encode. unfold is_u32 in Hv. simpl. lia.
Qed.

Lemma get_put_u64_le v l :
  is_u64 v -> get_u64_le (put_u64_le v ++ l) = Some v.
Proof.
  intros Hv. transitivity (get_u64_le (put_u64_le v)); [done|].
  rewrite put_u64_le_le, get_u64_le_spec; auto with prolly.
  2: by rewrite length_le_encode.
  rewrite take_ge by by rewrite length_le_encode. f_equal.
  apply le_decode_encode. unfold is_u64 in Hv. simpl. lia.
Qed.

#[export] Hint Rewrite PROLLY_GET_PUT_U16 PROLLY_GET_PUT_U32 get_put_u64_le using done : prolly_rw.

(** * The comparators decide [lexcmp] *)

Definition sign_of (c : Z) : comparison := c ?= 0.

Lemma sign_of_cmp_sign c : sign_of (cmp_sign c) = c.
Proof. by destruct c. Qed.

Lemma cmp_sign_0 c : cmp_sign c = 0 <-> c = Eq.
Proof. by destruct c. Qed.

Lemma memcmp_spec p q n :
  0 <= n <= zlen p -> n <= zlen q ->
  memcmp p q n = Some (cmp_sign (lexcmp (take (Z.to_nat n) p) (take (Z.to_nat n) q))).
Proof. intros. unfold memcmp. by rewrite !bytes_at_Some by lia. Qed.

Lemma lexcmp_min_prefix a b n :
  n = Nat.min (length a) (length b) ->
  lexcmp a b = match lexcmp (take n a) (take n b) with
               | Eq => zlen a ?= zlen b
               | r => r
               end.
Proof.
  revert b n. induction a as [|x a IH]; intros [|y b] n ->; try done.
  cbn [Nat.min length take lexcmp]. destruct (x ?= y); [|done|done].
  rewrite (IH b _ eq_refl). destruct (lexcmp _ _); [|done|done].
  destruct (Z.compare_spec (zlen a) (zlen b)); symmetry.
  - apply Z.compare_eq_iff. lia.
  - apply Z.compare_lt_iff. lia.
  - apply Z.compare_gt_iff. lia.
Qed.

Lemma sign_of_sub a b : sign_of (a - b) = (a ?= b).
Proof.
  unfold sign_of. destruct (Z.compare_spec a b); subst;
    [apply Z.compare_eq_iff|apply Z.compare_lt_iff|apply Z.compare_gt_iff]; lia.
Qed.

(** A key argument: [n] bytes at [p], [n] a non-negative [int]. *)
Definition key_arg (p : list Z) (n : Z) : Prop := 0 <= n <= zlen p /\ n <= INT_MAX.
Definition key_of (p : list Z) (n : Z) : list Z := take (Z.to_nat n) p.

Lemma key_of_length p n : key_arg p n -> zlen (key_of p n) = n.
Proof. intros [H _]. unfold key_of. rewrite length_take. lia. Qed.

Lemma key_arg_full k : zlen k <= INT_MAX -> key_arg k (zlen k).
Proof. intros. split; lia. Qed.

Lemma key_of_full k : key_of k (zlen k) = k.
Proof. unfold key_of. rewrite Nat2Z.id. by apply take_ge. Qed.

Lemma lexcmp_key_of pA nA pB nB :
  key_arg pA nA -> key_arg pB nB ->
  lexcmp (key_of pA nA) (key_of pB nB) =
    let n := Z.to_nat (Z.min nA nB) in
    match lexcmp (take n pA) (take n pB) with Eq => nA ?= nB | r => r end.
Proof.
  intros HA HB. pose proof (key_of_length _ _ HA) as LA. pose proof (key_of_length _ _ HB) as LB.
  destruct HA as [HA _], HB as [HB _]. cbn zeta.
  rewrite (lexcmp_min_prefix _ _ (Z.to_nat (Z.min nA nB))) by lia. rewrite LA, LB.
  unfold key_of. rewrite !take_take, !Nat.min_l by lia. done.
Qed.

Lemma prollyKeyCmp_spec pA nA pB nB :
  key_arg pA nA -> key_arg pB nB ->
  exists c, prollyKeyCmp pA nA pB nB = Some c /\
    sign_of c = lexcmp (key_of pA nA) (key_of pB nB).
Proof.
  intros HA HB. rewrite lexcmp_key_of by done. cbn zeta.
  destruct HA as [HA HA'], HB as [HB HB']. unfold prollyKeyCmp.
  replace (if nA <? nB then nA else nB) with (Z.min nA nB) by (destruct (Z.ltb_spec nA nB); lia).
  assert (int (nA - nB) = Some (nA - nB)) as Ei by (apply int_in_range; unfold INT_MAX in *; lia).
  destruct (Z.ltb_spec 0 (Z.min nA nB)).
  - rewrite memcmp_spec by lia. destruct (lexcmp _ _) eqn:E; simpl.
    + rewrite Ei. eexists. split; [done|]. apply sign_of_sub.
    + by exists (-1).
    + by exists 1.
  - replace (Z.to_nat (nA `min` nB)) with 0%nat by lia. simpl. rewrite Ei.
    eexists. split; [done|]. apply sign_of_sub.
Qed.

Lemma prollyCompareKeys_blob_spec flags pA nA iA pB nB iB :
  has_flag flags PROLLY_NODE_INTKEY = false ->
  key_arg pA nA -> key_arg pB nB ->
  prollyCompareKeys flags pA nA iA pB nB iB =
    Some (cmp_sign (lexcmp (key_of pA nA) (key_of pB nB))).
Proof.
  intros Hf HA HB. rewrite lexcmp_key_of by done. cbn zeta.
  destruct HA as [HA HA'], HB as [HB HB']. unfold prollyCompareKeys. rewrite Hf.
  replace (if nA <? nB then nA else nB) with (Z.min nA nB) by (destruct (Z.ltb_spec nA nB); lia).
  rewrite memcmp_spec by lia. destruct (lexcmp _ _) eqn:E; simpl; [|done|done].
  destruct (Z.compare_spec nA nB); cases_bool; try lia; done.
Qed.

Lemma prollyCompareKeys_int_spec flags pA nA iA pB nB iB :
  has_flag flags PROLLY_NODE_INTKEY = true ->
  prollyCompareKeys flags pA nA iA pB nB iB = Some (cmp_sign (iA ?= iB)).
Proof.
  intros Hf. unfold prollyCompareKeys. rewrite Hf.
  destruct (Z.compare_spec iA iB); cases_bool; try lia; done.
Qed.

Lemma comparePrefix_bytes_spec n p q :
  (n <= length p)%nat -> (n <= length q)%nat ->
  exists c, comparePrefix_bytes n p q = Some c /\ sign_of c = lexcmp (take n p) (take n q).
Proof.
  revert p q. induction n as [|n IH]; intros [|x p] [|y q] Hp Hq; simpl in *; try lia;
    try (by eexists).
  destruct (Z.eqb_spec x y) as [->|Hne]; simpl.
  - rewrite Z.compare_refl. apply IH; lia.
  - eexists. split; [done|]. rewrite sign_of_sub.
    by destruct (Z.compare_spec x y).
Qed.

(** One wide step: a big-endian load of [k] bytes decides the first [k] bytes. *)
Lemma lexcmp_wide_step k n p q :
  bytes_wf p -> bytes_wf q -> (k <= n)%nat -> (n <= length p)%nat -> (n <= length q)%nat ->
  lexcmp (take n p) (take n q) =
    match be_decode (take k p) ?= be_decode (take k q) with
    | Eq => lexcmp (take (n - k) (drop k p)) (take (n - k) (drop k q))
    | r => r
    end.
Proof.
  intros Wp Wq Hk Hp Hq.
  rewrite <- (take_drop k (take n p)), <- (take_drop k (take n q)).
  rewrite !take_take, !skipn_firstn_comm, !Nat.min_l by lia.
  rewrite lexcmp_app_same_length by (rewrite !length_take; lia).
  rewrite lexcmp_be_decode by (auto with prolly; rewrite !length_take; lia).
  done.
Qed.

Lemma comparePrefix_word_spec p q n :
  bytes_wf p -> bytes_wf q -> 0 <= n <= zlen p -> n <= zlen q ->
  exists c, comparePrefix_word p q n = Some c /\
    sign_of c = lexcmp (take (Z.to_nat n) p) (take (Z.to_nat n) q).
Proof.
  intros Wp Wq Hp Hq. unfold comparePrefix_word.
  destruct (Z.leb_spec 4 n); [|apply comparePrefix_bytes_spec; lia].
  rewrite !get_u32_be_spec by (auto; lia).
  rewrite (lexcmp_wide_step 4 (Z.to_nat n)) by (auto; lia).
  destruct (Z.compare_spec (be_decode (take 4 p)) (be_decode (take 4 q)));
    cases_bool; try lia; try (by eexists).
  unfold ptr_add. change (Z.to_nat 4) with 4%nat.
  replace (Z.to_nat n - 4)%nat with (Z.to_nat (n - 4)) by lia.
  apply comparePrefix_bytes_spec; rewrite length_drop; lia.
Qed.

Lemma comparePrefix_loop_spec fuel p q n :
  (Z.to_nat n < fuel)%nat ->
  bytes_wf p -> bytes_wf q -> 0 <= n <= zlen p -> n <= zlen q ->
  exists c, comparePrefix_loop fuel p q n = Some c /\
    sign_of c = lexcmp (take (Z.to_nat n) p) (take (Z.to_nat n) q).
Proof.
  revert p q n. induction fuel as [|fuel IH]; intros p q n Hf Wp Wq Hp Hq; [lia|].
  cbn [comparePrefix_loop]. destruct (Z.leb_spec 8 n); [|by apply comparePrefix_word_spec].
  rewrite !prollyReadEncodedIntKey_spec by (auto; lia).
  rewrite (lexcmp_wide_step 8 (Z.to_nat n)) by (auto; lia).
  destruct (Z.compare_spec (be_decode (take 8 p)) (be_decode (take 8 q)));
    cases_bool; try lia; try (by eexists).
  - exists 0. split; [done|]. by replace (Z.to_nat n - 8)%nat with 0%nat by lia.
  - eexists. split; [apply memcmp_spec; rewrite length_ptr_add by lia; lia|].
    rewrite sign_of_cmp_sign. unfold ptr_add. by replace (Z.to_nat n - 8)%nat
      with (Z.to_nat (n - 8)) by lia.
  - replace (Z.to_nat n - 8)%nat with (Z.to_nat (n - 8)) by lia.
    apply IH; [lia|by apply bytes_wf_drop|by apply bytes_wf_drop|..];
      rewrite length_drop; lia.
Qed.

Lemma prollyKeyComparePrefix_spec p q n :
  bytes_wf p -> bytes_wf q -> 0 <= n <= zlen p -> n <= zlen q ->
  exists c, prollyKeyComparePrefix p q n = Some c /\
    sign_of c = lexcmp (take (Z.to_nat n) p) (take (Z.to_nat n) q).
Proof. intros. apply comparePrefix_loop_spec; auto; lia. Qed.

(** * Integer keys *)

Lemma prollyEncodeIntKey_be v :
  prollyEncodeIntKey v = be_encode 8 (Z.lxor (u64 v) (Z.shiftl 1 63)).
Proof.
  unfold be_encode. set (u := Z.lxor _ _).
  pose proof (shifts_from_le u 0 8) as E. change (8 * Z.of_nat 0) with 0 in E.
  rewrite Z.shiftr_0_r in E. by rewrite <- E.
Qed.

Lemma intkey_bias u : is_u64 u -> Z.lxor u (Z.shiftl 1 63) = u64 (u + 2 ^ 63).
Proof. intros H. apply (lxor_top_bit 63 u); [lia|done]. Qed.

Lemma intkey_bias_i64 v : is_i64 v -> Z.lxor (u64 v) (Z.shiftl 1 63) = v + 2 ^ 63.
Proof.
  intros H. rewrite intkey_bias by apply u64_range. unfold u64.
  rewrite Z.add_mod_idemp_l by lia. apply Z.mod_small. unfold is_i64 in H. lia.
Qed.

Lemma length_prollyEncodeIntKey v : length (prollyEncodeIntKey v) = 8%nat.
Proof. reflexivity. Qed.

Lemma prollyEncodeIntKey_wf v : bytes_wf (prollyEncodeIntKey v).
Proof. rewrite prollyEncodeIntKey_be. apply be_encode_wf. Qed.

Lemma be_decode_intkey v : is_i64 v -> be_decode (prollyEncodeIntKey v) = v + 2 ^ 63.
Proof.
  intros H. rewrite prollyEncodeIntKey_be, intkey_bias_i64 by done.
  apply be_decode_encode. unfold is_i64 in H. simpl. lia.
Qed.

Lemma intkey_roundtrip v rest :
  is_i64 v -> prollyDecodeIntKey (prollyEncodeIntKey v ++ rest) = Some v.
Proof.
  intros H. transitivity (prollyDecodeIntKey (prollyEncodeIntKey v)); [done|].
  unfold prollyDecodeIntKey.
  rewrite prollyReadEncodedIntKey_spec by (done || apply prollyEncodeIntKey_wf).
  rewrite take_ge by done. rewrite be_decode_intkey by done. f_equal.
  unfold is_i64 in H. rewrite intkey_bias by (unfold is_u64; lia). unfold i64, u64.
  rewrite Z.add_mod_idemp_l by lia.
  replace (v + 2 ^ 63 + 2 ^ 63 + 2 ^ 63) with (v + 2 ^ 63 + 1 * 2 ^ 64) by lia.
  rewrite Z.mod_add, Z.mod_small; lia.
Qed.

Lemma intkey_decode_encode p :
  bytes_wf p -> length p = 8%nat ->
  exists v, prollyDecodeIntKey p = Some v /\ is_i64 v /\ prollyEncodeIntKey v = p.
Proof.
  intros Wp Lp. unfold prollyDecodeIntKey.
  rewrite prollyReadEncodedIntKey_spec by (auto; lia). rewrite take_ge by lia.
  pose proof (be_decode_bound p Wp) as B. rewrite Lp in B. change (256 ^ Z.of_nat 8) with (2 ^ 64) in B.
  eexists. split; [done|]. split; [apply i64_range|].
  rewrite prollyEncodeIntKey_be, u64_i64.
  - rewrite Z.lxor_assoc, Z.lxor_nilpotent, Z.lxor_0_r, <- Lp. by apply be_encode_decode.
  - rewrite intkey_bias by done. apply u64_range.
Qed.

Lemma intkey_order a b :
  is_i64 a -> is_i64 b ->
  lexcmp (prollyEncodeIntKey a) (prollyEncodeIntKey b) = (a ?= b).
Proof.
  intros Ha Hb. rewrite lexcmp_be_decode by (done || apply prollyEncodeIntKey_wf).
  rewrite !be_decode_intkey by done.
  destruct (Z.compare_spec a b); subst;
    [apply Z.compare_eq_iff|apply Z.compare_lt_iff|apply Z.compare_gt_iff]; lia.
Qed.

(** * The 8-byte prefix *)

(** The first [n] bytes of a key, extended with zeros when it is shorter. *)
Fixpoint pad (n : nat) (k : list Z) : list Z :=
  match n with O => [] | S n => default 0 (head k) :: pad n (tail k) end.

Lemma keyPrefix64_case_in k n v i sh :
  i < n -> 0 <= i < zlen k -> 0 <= sh -> 0 <= v < 2 ^ sh ->
  keyPrefix64_case k n (Some v) i sh = Some (v + nth (Z.to_nat i) k 0 * 2 ^ sh).
Proof.
  intros Hi Hb Hs Hv. unfold keyPrefix64_case. rewrite nth_lookup.
  destruct (lookup_lt_is_Some_2 k (Z.to_nat i)) as [b ->]; [lia|].
  destruct (Z.ltb_spec i n); [|lia]. by rewrite lor_shiftl_add.
Qed.

Lemma keyPrefix64_case_out k n v i sh :
  n <= i -> keyPrefix64_case k n (Some v) i sh = Some v.
Proof. intros Hi. unfold keyPrefix64_case. by destruct (Z.ltb_spec i n); [lia|]. Qed.

Lemma keyPrefix64_spec k :
  bytes_wf k -> keyPrefix64 k (zlen k) = Some (be_decode (pad 8 k)).
Proof.
  intros W. unfold keyPrefix64, bytes_wf in *.
  do 8 try (destruct k as [|? k];
    [|apply Forall_cons_1 in W as [? W]; unfold is_byte in *]).
  all: match goal with |- context [8 <=? ?n] => destruct (Z.leb_spec 8 n) as [Hl|Hl] end.
  all: simpl length in *; try lia; cbn zeta.
  all: repeat ((rewrite keyPrefix64_case_out by lia)
               || (rewrite keyPrefix64_case_in by (cbn [length]; lia); cbv [nth Z.to_nat Pos.to_nat Pos.iter_op Nat.add])).
  all: f_equal; unfold be_decode; simpl; lia.
Qed.

Lemma length_pad n k : length (pad n k) = n.
Proof. revert k. induction n; intros; simpl; auto. Qed.

Lemma pad_wf n k : bytes_wf k -> bytes_wf (pad n k).
Proof.
  revert k. induction n as [|n IH]; intros k W; simpl; constructor.
  - destruct W as [|b k Hb W]; simpl; [unfold is_byte; lia|done].
  - apply IH. destruct W; [apply Forall_nil_2|done].
Qed.

(** Zero padding never inverts the order of two keys. *)
Lemma lexcmp_pad n a b :
  bytes_wf a -> bytes_wf b ->
  match lexcmp (pad n a) (pad n b) with Eq => True | r => lexcmp a b = r end.
Proof.
  revert a b. induction n as [|n IH]; intros a b Wa Wb; [done|].
  destruct Wa as [|x a Hx Wa], Wb as [|y b Hy Wb]; simpl; unfold is_byte in *.
  - by rewrite lexcmp_refl.
  - destruct (Z.compare_spec 0 y); [|done|lia].
    specialize (IH [] b (Forall_nil_2 _) Wb). destruct (lexcmp _ _), b; done.
  - destruct (Z.compare_spec x 0); [|lia|done].
    specialize (IH a [] Wa (Forall_nil_2 _)). destruct (lexcmp _ _), a; done.
  - destruct (x ?= y); [|done|done]. by apply IH.
Qed.

(** The prefix decides the order of two keys whenever it differs. *)
Lemma keyPrefix64_order a b pa pb :
  bytes_wf a -> bytes_wf b ->
  keyPrefix64 a (zlen a) = Some pa -> keyPrefix64 b (zlen b) = Some pb ->
  pa <> pb -> lexcmp a b = (pa ?= pb).
Proof.
  intros Wa Wb. rewrite !keyPrefix64_spec by done. intros Ea Eb Hne.
  apply Some_inj in Ea. apply Some_inj in Eb. subst pa pb.
  pose proof (lexcmp_pad 8 a b Wa Wb) as H.
  rewrite lexcmp_be_decode in H by (rewrite ?length_pad; auto using pad_wf).
  destruct (Z.compare_spec (be_decode (pad 8 a)) (be_decode (pad 8 b))); [congruence|done..].
Qed.

(** * Properties *)

(** The key comparator decides the lexicographic order on byte keys, and the
    signed order on integer keys, without reading outside the keys. *)
Theorem compare_keys_order (flags : Z) (pA : list Z) (nA iA : Z) (pB : list Z) (nB iB : Z)
    (HA : key_arg pA nA) (HB : key_arg pB nB) :
  prollyCompareKeys flags pA nA iA pB nB iB =
    Some (cmp_sign (if has_flag flags PROLLY_NODE_INTKEY then iA ?= iB
                    else lexcmp (key_of pA nA) (key_of pB nB))).
Proof.
  destruct (has_flag flags PROLLY_NODE_INTKEY) eqn:E.
  - by apply prollyCompareKeys_int_spec.
  - by apply prollyCompareKeys_blob_spec.
Qed.

Lemma compare_keys_order_witness :
  prollyCompareKeys PROLLY_NODE_BLOBKEY [1; 2] 2 0 [1; 2; 0] 3 0 =
    Some (cmp_sign (lexcmp [1; 2] [1; 2; 0])).
Proof. apply (compare_keys_order PROLLY_NODE_BLOBKEY [1; 2] 2 0 [1; 2; 0] 3 0); by split. Defined.

(** The word-at-a-time prefix comparison agrees in sign with memcmp. *)
Theorem compare_prefix_memcmp (p q : list Z) (n : Z) (Wp : bytes_wf p) (Wq : bytes_wf q)
    (Hp : 0 <= n <= zlen p) (Hq : n <= zlen q) :
  exists c d, prollyKeyComparePrefix p q n = Some c /\ memcmp p q n = Some d /\
    sign_of c = sign_of d.
Proof.
  destruct (prollyKeyComparePrefix_spec p q n) as (c & Hc & Sc); [done..|].
  rewrite memcmp_spec by done. eexists _, _. split; [done|]. split; [done|].
  by rewrite sign_of_cmp_sign.
Qed.

Lemma compare_prefix_memcmp_witness :
  exists c d,
    prollyKeyComparePrefix [1; 2; 3; 4; 5; 6; 7; 8; 9] [1; 2; 3; 4; 5; 6; 7; 8; 200] 9 = Some c /\
    memcmp [1; 2; 3; 4; 5; 6; 7; 8; 9] [1; 2; 3; 4; 5; 6; 7; 8; 200] 9 = Some d /\
    sign_of c = sign_of d.
Proof.
  apply (compare_prefix_memcmp [1; 2; 3; 4; 5; 6; 7; 8; 9] [1; 2; 3; 4; 5; 6; 7; 8; 200] 9);
    by try apply bytes_wfb_spec.
Defined.

(** The 8-byte integer key encoding is a bijection between 64-bit integers
    and 8-byte strings that turns the signed order into the byte order. *)
Theorem intkey_codec (a b : Z) (k : list Z) (Ha : is_i64 a) (Hb : is_i64 b)
    (Wk : bytes_wf k) (Lk : length k = 8%nat) :
  prollyDecodeIntKey (prollyEncodeIntKey a) = Some a /\
  lexcmp (prollyEncodeIntKey a) (prollyEncodeIntKey b) = (a ?= b) /\
  exists v, prollyDecodeIntKey k = Some v /\ is_i64 v /\ prollyEncodeIntKey v = k.
Proof.
  split; [|split].
  - pose proof (intkey_roundtrip a [] Ha) as H. by rewrite app_nil_r in H.
  - by apply intkey_order.
  - by apply intkey_decode_encode.
Qed.

Lemma intkey_codec_witness :
  prollyDecodeIntKey (prollyEncodeIntKey (-3)) = Some (-3) /\
  lexcmp (prollyEncodeIntKey (-3)) (prollyEncodeIntKey 4) = (-3 ?= 4) /\
  exists v, prollyDecodeIntKey [0; 0; 0; 0; 0; 0; 0; 1] = Some v /\ is_i64 v /\
    prollyEncodeIntKey v = [0; 0; 0; 0; 0; 0; 0; 1].
Proof.
  apply (intkey_codec (-3) 4 [0; 0; 0; 0; 0; 0; 0; 1]); try done. by apply bytes_wfb_spec.
Defined.

(** The 64-bit key prefix cached by the mutation map decides the key order
    whenever the prefixes differ. *)
Theorem key_prefix_decides (a b : list Z) (pa pb : Z) (Wa : bytes_wf a) (Wb : bytes_wf b)
    (Ha : keyPrefix64 a (zlen a) = Some pa) (Hb : keyPrefix64 b (zlen b) = Some pb)
    (Hne : pa <> pb) :
  lexcmp a b = (pa ?= pb).
Proof. by eapply keyPrefix64_order. Qed.

Lemma key_prefix_decides_witness : lexcmp [1; 2; 3] [1; 3] = (0x102030000000000 ?= 0x103000000000000).
Proof.
  apply (key_prefix_decides [1; 2; 3] [1; 3]); by try apply bytes_wfb_spec.
Defined.
