(* ===== verification/XXHash.v ===== *)
(** prolly_xxhash.c: the 32-bit xxHash the chunker and the mutation map use.
    Unsigned 32-bit arithmetic wraps through [u32]. *)
From S2P Require Import Prelude Encoding.

Definition XXH_PRIME32_1 : Z := 0x9E3779B1.
Definition XXH_PRIME32_2 : Z := 0x85EBCA77.
Definition XXH_PRIME32_3 : Z := 0xC2B2AE3D.
Definition XXH_PRIME32_4 : Z := 0x27D4EB2F.
Definition XXH_PRIME32_5 : Z := 0x165667B1.

Definition xxh_read32_le (p : list Z) : option Z :=
  match p with
  | p0 :: p1 :: p2 :: p3 :: _ =>
      Some (Z.lor (Z.lor (Z.lor p0 (Z.shiftl p1 8)) (Z.shiftl p2 16)) (Z.shiftl p3 24))
  | _ => None
  end.

Definition xxh_rotl32 (x r : Z) : Z := Z.lor (u32 (Z.shiftl x r)) (Z.shiftr x (32 - r)).

Definition xxh_round (acc input : Z) : Z :=
  let acc := u32 (acc + u32 (input * XXH_PRIME32_2)) in
  let acc := xxh_rotl32 acc 13 in
  u32 (acc * XXH_PRIME32_1).

Record lanes := Lanes { v1 : Z; v2 : Z; v3 : Z; v4 : Z }.

(** One iteration of the [do .. while( p <= limit )] loop: 16 bytes. *)
Definition xxh_stripe (p : list Z) (v : lanes) : option lanes :=
  let? a := xxh_read32_le p in
  let? b := xxh_read32_le (p +p 4) in
  let? c := xxh_read32_le (p +p 8) in
  let? d := xxh_read32_le (p +p 12) in
  Some (Lanes (xxh_round (v1 v) a) (xxh_round (v2 v) b) (xxh_round (v3 v) c) (xxh_round (v4 v) d)).

(** [rem] is [end - p]; [p <= limit] is [16 <= rem]. *)
Fixpoint xxh_stripes (fuel : nat) (p : list Z) (rem : Z) (v : lanes)
    : option (list Z * Z * lanes) :=
  match fuel with
  | O => None
  | S fuel =>
      let? v := xxh_stripe p v in
      let p := p +p 16 in
      let rem := rem - 16 in
      if 16 <=? rem then xxh_stripes fuel p rem v else Some (p, rem, v)
  end.

(** [while( p + 4 <= end )]. *)
Fixpoint xxh_words (fuel : nat) (p : list Z) (rem h32 : Z) : option (list Z * Z * Z) :=
  match fuel with
  | O => None
  | S fuel =>
      if 4 <=? rem then
        let? w := xxh_read32_le p in
        let h32 := u32 (h32 + u32 (w * XXH_PRIME32_3)) in
        let h32 := u32 (xxh_rotl32 h32 17 * XXH_PRIME32_4) in
        xxh_words fuel (p +p 4) (rem - 4) h32
      else Some (p, rem, h32)
  end.

(** [while( p < end )]. *)
Fixpoint xxh_bytes (rem : nat) (p : list Z) (h32 : Z) : option Z :=
  match rem with
  | O => Some h32
  | S rem =>
      match p with
      | b :: p =>
          let h32 := u32 (h32 + u32 (b * XXH_PRIME32_5)) in
          xxh_bytes rem p (u32 (xxh_rotl32 h32 11 * XXH_PRIME32_1))
      | [] => None
      end
  end.

Definition xxh_avalanche (h32 : Z) : Z :=
  let h32 := Z.lxor h32 (Z.shiftr h32 15) in
  let h32 := u32 (h32 * XXH_PRIME32_2) in
  let h32 := Z.lxor h32 (Z.shiftr h32 13) in
  let h32 := u32 (h32 * XXH_PRIME32_3) in
  Z.lxor h32 (Z.shiftr h32 16).

(** The [if( n >= 16 ) .. else ..] that opens the function. *)
Definition xxh_start (p : list Z) (n seed : Z) : option (list Z * Z * Z) :=
  if 16 <=? n then
    let? (p, rem, v) :=
      xxh_stripes (S (Z.to_nat n)) p n
        (Lanes (u32 (u32 (seed + XXH_PRIME32_1) + XXH_PRIME32_2))
               (u32 (seed + XXH_PRIME32_2)) (u32 (seed + 0)) (u32 (seed - XXH_PRIME32_1))) in
    Some (p, rem,
          u32 (u32 (u32 (xxh_rotl32 (v1 v) 1 + xxh_rotl32 (v2 v) 7)
                    + xxh_rotl32 (v3 v) 12) + xxh_rotl32 (v4 v) 18))
  else Some (p, n, u32 (seed + XXH_PRIME32_5)).

Definition prollyXXH32 (p : list Z) (n seed : Z) : option Z :=
  let? (p, rem, h32) := xxh_start p n seed in
  let h32 := u32 (h32 + u32 n) in
  let? (p, rem, h32) := xxh_words (S (Z.to_nat n)) p rem h32 in
  let? h32 := xxh_bytes (Z.to_nat rem) p h32 in
  Some (xxh_avalanche h32).

(** Published XXH32 vectors: the empty string, "a", "abc" and a 39-byte text
    that exercises the stripe, word and byte loops. *)
Example xxh32_empty : prollyXXH32 [] 0 0 = Some 0x02CC5D05.
Proof. vm_compute. reflexivity. Qed.
Example xxh32_a : prollyXXH32 [97] 1 0 = Some 0x550D7456.
Proof. vm_compute. reflexivity. Qed.
Example xxh32_abc : prollyXXH32 [97; 98; 99] 3 0 = Some 0x32D153FF.
Proof. vm_compute. reflexivity. Qed.
Definition spammish : list Z :=
  [78;111;98;111;100;121;32;105;110;115;112;101;99;116;115;32;116;104;101;32;
   115;112;97;109;109;105;115;104;32;114;101;112;101;116;105;116;105;111;110].
Example xxh32_spammish : prollyXXH32 spammish 39 0 = Some 0xE2293B2F.
Proof. vm_compute. reflexivity. Qed.

(** * Totality, range and locality *)

Lemma xxh_rotl32_u32 x r : 0 <= r <= 32 -> is_u32 x -> is_u32 (xxh_rotl32 x r).
Proof. intros. unfold xxh_rotl32. auto with prolly lia. Qed.

Lemma xxh_avalanche_u32 h : is_u32 h -> is_u32 (xxh_avalanche h).
Proof. intros. unfold xxh_avalanche. auto 7 with prolly. Qed.

Lemma xxh_read32_le_defined p q :
  4 <= zlen p -> exists w, xxh_read32_le p = Some w /\ xxh_read32_le (p ++ q) = Some w.
Proof. intros H. do 4 destruct_list p H. by eexists. Qed.

Lemma read_at_defined p q off :
  0 <= off -> off + 4 <= zlen p ->
  exists w, xxh_read32_le (p +p off) = Some w /\ xxh_read32_le ((p ++ q) +p off) = Some w.
Proof.
  intros H0 H. rewrite ptr_add_app_le by lia. apply xxh_read32_le_defined.
  rewrite length_ptr_add by lia. lia.
Qed.

Lemma xxh_stripe_defined p q v :
  16 <= zlen p -> exists v', xxh_stripe p v = Some v' /\ xxh_stripe (p ++ q) v = Some v'.
Proof.
  intros H. unfold xxh_stripe.
  destruct (read_at_defined p q 0) as (a & Ea & Ea'); [lia..|]. rewrite ptr_add_0 in Ea, Ea'.
  destruct (read_at_defined p q 4) as (b & -> & ->); [lia..|].
  destruct (read_at_defined p q 8) as (c & -> & ->); [lia..|].
  destruct (read_at_defined p q 12) as (d & -> & ->); [lia..|].
  rewrite Ea, Ea'. by eexists.
Qed.

Lemma xxh_stripes_defined fuel p q rem v :
  (Z.to_nat rem < fuel)%nat -> 16 <= rem <= zlen p ->
  exists p' rem' v',
    xxh_stripes fuel p rem v = Some (p', rem', v') /\
    xxh_stripes fuel (p ++ q) rem v = Some (p' ++ q, rem', v') /\ 0 <= rem' <= zlen p' /\ rem' <= rem.
Proof.
  revert p rem v. induction fuel as [|fuel IH]; intros p rem v Hf H; [lia|].
  cbn [xxh_stripes]. destruct (xxh_stripe_defined p q v) as (v' & -> & ->); [lia|].
  rewrite ptr_add_app_le by lia.
  assert (zlen (p +p 16) = zlen p - 16) as E by (rewrite length_ptr_add; lia).
  destruct (Z.leb_spec 16 (rem - 16)).
  - destruct (IH (p +p 16) (rem - 16) v') as (p2 & r2 & v2' & ? & ? & ? & ?); [lia..|].
    exists p2, r2, v2'. split_and!; try done; lia.
  - do 3 eexists. split_and!; try done; lia.
Qed.

Lemma xxh_words_defined fuel p q rem h :
  (Z.to_nat rem < fuel)%nat -> 0 <= rem <= zlen p ->
  exists p' rem' h',
    xxh_words fuel p rem h = Some (p', rem', h') /\
    xxh_words fuel (p ++ q) rem h = Some (p' ++ q, rem', h') /\
    0 <= rem' <= zlen p' /\ (is_u32 h -> is_u32 h').
Proof.
  revert p rem h. induction fuel as [|fuel IH]; intros p rem h Hf H; [lia|].
  cbn [xxh_words]. destruct (Z.leb_spec 4 rem).
  - destruct (xxh_read32_le_defined p q) as (w & -> & ->); [lia|].
    rewrite ptr_add_app_le by lia.
    assert (zlen (p +p 4) = zlen p - 4) as E by (rewrite length_ptr_add; lia).
    set (h2 := u32 _). destruct (IH (p +p 4) (rem - 4) h2) as (p' & r' & h' & ? & ? & ? & Hh);
      [lia..|]. exists p', r', h'. split_and!; try done; try lia.
    intros _. apply Hh, u32_range.
  - do 3 eexists. split_and!; try done; lia.
Qed.

Lemma xxh_bytes_defined rem p q h :
  (rem <= length p)%nat ->
  exists h', xxh_bytes rem p h = Some h' /\ xxh_bytes rem (p ++ q) h = Some h' /\
    (is_u32 h -> is_u32 h').
Proof.
  revert p h. induction rem as [|rem IH]; intros p h H; [by eexists|].
  destruct p as [|b p]; simpl in *; [lia|]. set (h2 := u32 (_ * XXH_PRIME32_1)).
  destruct (IH p h2) as (h' & ? & ? & Hh); [lia|]. exists h'. split_and!; try done.
  intros _. apply Hh, u32_range.
Qed.

Lemma xxh_start_defined p q n seed :
  0 <= n <= zlen p ->
  exists p' rem' h,
    xxh_start p n seed = Some (p', rem', h) /\
    xxh_start (p ++ q) n seed = Some (p' ++ q, rem', h) /\
    0 <= rem' <= n /\ rem' <= zlen p'.
Proof.
  intros H. unfold xxh_start. destruct (Z.leb_spec 16 n).
  - set (v := Lanes _ _ _ _).
    destruct (xxh_stripes_defined (S (Z.to_nat n)) p q n v) as (p' & r' & v' & -> & -> & ? & ?);
      [lia..|]. do 3 eexists. split_and!; try done; lia.
  - do 3 eexists. split_and!; try done; lia.
Qed.

Lemma prollyXXH32_defined p q n seed :
  0 <= n <= zlen p ->
  exists h, prollyXXH32 p n seed = Some h /\ prollyXXH32 (p ++ q) n seed = Some h /\ is_u32 h.
Proof.
  intros H. unfold prollyXXH32.
  destruct (xxh_start_defined p q n seed H) as (p' & r & h & -> & -> & Hr & Hr').
  set (h1 := u32 _). assert (is_u32 h1) by apply u32_range.
  destruct (xxh_words_defined (S (Z.to_nat n)) p' q r h1) as (p2 & r2 & h2 & -> & -> & ? & ?);
    [lia..|].
  destruct (xxh_bytes_defined (Z.to_nat r2) p2 q h2) as (h3 & -> & -> & ?); [lia|].
  eexists. split_and!; [done..|]. apply xxh_avalanche_u32. auto.
Qed.

(** * Properties *)

(** Hashing [n] bytes reads exactly those bytes (what follows them does not
    matter), is defined for every length and seed, and yields 32 bits. *)
Theorem xxh32_total_local (p q : list Z) (n seed : Z) (Hn : 0 <= n <= zlen p) :
  exists h, prollyXXH32 p n seed = Some h /\ prollyXXH32 (p ++ q) n seed = Some h /\ is_u32 h.
Proof. by apply prollyXXH32_defined. Qed.

Lemma xxh32_total_local_witness :
  exists h, prollyXXH32 [97; 98; 99] 3 0 = Some h /\
    prollyXXH32 ([97; 98; 99] ++ [1]) 3 0 = Some h /\ is_u32 h.
Proof. apply (xxh32_total_local [97; 98; 99] [1] 3 0). done. Defined.
