(* ===== verification/Blake3.v ===== *)
(** blake3.c, blake3_portable.c, blake3_impl.h: the hash of every chunk.  Byte
    slices ([input], [input_len]) are lists; fixed-size arrays are lists of that
    length; output areas for chaining values are blocks of 32-byte cells.  The
    SIMD degree is a parameter: the build selects the portable backend, and every
    backend computes the portable functions. *)
From S2P Require Import Prelude Buffer.

(** * The compression function *)

Definition BLAKE3_OUT_LEN : Z := 32.
Definition BLAKE3_BLOCK_LEN : Z := 64.
Definition BLAKE3_CHUNK_LEN : Z := 1024.
Definition BLAKE3_MAX_DEPTH : Z := 54.

Definition CHUNK_START : Z := 1.
Definition CHUNK_END : Z := 2.
Definition PARENT : Z := 4.
Definition ROOT : Z := 8.

Definition IV : list Z :=
  [0x6A09E667; 0xBB67AE85; 0x3C6EF372; 0xA54FF53A; 0x510E527F; 0x9B05688C; 0x1F83D9AB; 0x5BE0CD19].

Definition MSG_SCHEDULE : list (list nat) :=
  [[0; 1; 2; 3; 4; 5; 6; 7; 8; 9; 10; 11; 12; 13; 14; 15];
   [2; 6; 3; 10; 7; 0; 4; 13; 1; 11; 12; 5; 9; 14; 15; 8];
   [3; 4; 10; 12; 13; 2; 7; 14; 6; 5; 9; 0; 11; 15; 8; 1];
   [10; 7; 12; 9; 14; 3; 13; 15; 4; 0; 11; 2; 5; 8; 1; 6];
   [12; 13; 9; 11; 15; 10; 14; 8; 7; 2; 5; 3; 0; 1; 6; 4];
   [9; 14; 11; 5; 8; 12; 15; 1; 13; 3; 0; 10; 2; 6; 4; 7];
   [11; 15; 5; 0; 1; 9; 8; 6; 14; 10; 2; 12; 3; 4; 7; 13]]%nat.

Definition highest_one (x : Z) : Z := Z.log2 x.

Fixpoint ones (p : positive) : nat :=
  match p with xH => 1 | xO p => ones p | xI p => S (ones p) end.
Definition popcnt (x : Z) : Z := match x with Zpos p => Z.of_nat (ones p) | _ => 0 end.

Definition round_down_to_power_of_2 (x : Z) : Z := Z.shiftl 1 (highest_one (Z.lor x 1)).

Definition counter_low (counter : Z) : Z := u32 counter.
Definition counter_high (counter : Z) : Z := u32 (Z.shiftr counter 32).

(** Word [i] of an array of words. *)
Definition word (a : list Z) (i : nat) : Z := default 0 (a !! i).

Definition load32 (src : list Z) : Z :=
  Z.lor (Z.lor (Z.lor (word src 0) (Z.shiftl (word src 1) 8)) (Z.shiftl (word src 2) 16))
    (Z.shiftl (word src 3) 24).

Definition store32 (w : Z) : list Z :=
  [u8 w; u8 (Z.shiftr w 8); u8 (Z.shiftr w 16); u8 (Z.shiftr w 24)].

Definition store_cv_words (cv_words : list Z) : list Z := mjoin (store32 <$> cv_words).

Definition rotr32 (w c : Z) : Z := Z.lor (Z.shiftr w c) (u32 (Z.shiftl w (32 - c))).

Definition g (state : list Z) (a b c d : nat) (x y : Z) : list Z :=
  let state := <[a := u32 (word state a + word state b + x)]> state in
  let state := <[d := rotr32 (Z.lxor (word state d) (word state a)) 16]> state in
  let state := <[c := u32 (word state c + word state d)]> state in
  let state := <[b := rotr32 (Z.lxor (word state b) (word state c)) 12]> state in
  let state := <[a := u32 (word state a + word state b + y)]> state in
  let state := <[d := rotr32 (Z.lxor (word state d) (word state a)) 8]> state in
  let state := <[c := u32 (word state c + word state d)]> state in
  <[b := rotr32 (Z.lxor (word state b) (word state c)) 7]> state.

Definition round_fn (state msg : list Z) (schedule : list nat) : list Z :=
  let m i := word msg (default 0%nat (schedule !! i)) in
  let state := g state 0 4 8 12 (m 0%nat) (m 1%nat) in
  let state := g state 1 5 9 13 (m 2%nat) (m 3%nat) in
  let state := g state 2 6 10 14 (m 4%nat) (m 5%nat) in
  let state := g state 3 7 11 15 (m 6%nat) (m 7%nat) in
  let state := g state 0 5 10 15 (m 8%nat) (m 9%nat) in
  let state := g state 1 6 11 12 (m 10%nat) (m 11%nat) in
  let state := g state 2 7 8 13 (m 12%nat) (m 13%nat) in
  g state 3 4 9 14 (m 14%nat) (m 15%nat).

Definition compress_pre (cv block : list Z) (block_len counter flags : Z) : list Z :=
  let block_words := (fun i => load32 (drop (4 * i) block)) <$> seq 0 16 in
  let state := take 8 cv ++ take 4 IV ++ [counter_low counter; counter_high counter; block_len; flags] in
  foldl (fun state schedule => round_fn state block_words schedule) state MSG_SCHEDULE.

Definition blake3_compress_in_place (cv block : list Z) (block_len counter flags : Z) : list Z :=
  let state := compress_pre cv block block_len counter flags in
  zip_with Z.lxor (take 8 state) (drop 8 state).

Definition blake3_compress_xof (cv block : list Z) (block_len counter flags : Z) : list Z :=
  let state := compress_pre cv block block_len counter flags in
  mjoin (store32 <$> zip_with Z.lxor (take 8 state) (drop 8 state)) ++
  mjoin (store32 <$> zip_with Z.lxor (drop 8 state) cv).

Definition blake3_xof_many (cv block : list Z) (block_len counter flags outblocks : Z) : list Z :=
  mjoin ((fun i => blake3_compress_xof cv block block_len (u64 (counter + Z.of_nat i)) flags)
    <$> seq 0 (Z.to_nat outblocks)).

(** * Chunks *)

Record blake3_chunk_state := ChunkState {
  cs_cv : list Z; cs_counter : Z; cs_buf : list Z; cs_buf_len : Z; cs_blocks : Z; cs_flags : Z }.

Definition chunk_state_init (key : list Z) (flags : Z) : blake3_chunk_state :=
  ChunkState key 0 (replicate 64 0) 0 0 flags.

Definition chunk_state_reset (self : blake3_chunk_state) (key : list Z) (chunk_counter : Z)
    : blake3_chunk_state :=
  ChunkState key chunk_counter (replicate 64 0) 0 0 (cs_flags self).

Definition chunk_state_len (self : blake3_chunk_state) : Z :=
  BLAKE3_BLOCK_LEN * cs_blocks self + cs_buf_len self.

(** The state after the copy and the number of bytes taken. *)
Definition chunk_state_fill_buf (self : blake3_chunk_state) (input : list Z)
    : option (blake3_chunk_state * Z) :=
  let take_ := BLAKE3_BLOCK_LEN - cs_buf_len self in
  let take_ := if zlen input <? take_ then zlen input else take_ in
  let? bytes := bytes_at input take_ in
  let l := Z.to_nat (cs_buf_len self) in
  Some (ChunkState (cs_cv self) (cs_counter self)
          (take l (cs_buf self) ++ bytes ++ drop (l + length bytes) (cs_buf self))
          (u8 (cs_buf_len self + u8 take_)) (cs_blocks self) (cs_flags self), take_).

Definition chunk_state_maybe_start_flag (self : blake3_chunk_state) : Z :=
  if cs_blocks self =? 0 then CHUNK_START else 0.

(** One block compressed into the chaining value. *)
Definition chunk_state_compress (self : blake3_chunk_state) (block : list Z) : blake3_chunk_state :=
  ChunkState
    (blake3_compress_in_place (cs_cv self) block BLAKE3_BLOCK_LEN (cs_counter self)
       (Z.lor (cs_flags self) (chunk_state_maybe_start_flag self)))
    (cs_counter self) (cs_buf self) (cs_buf_len self) (u8 (cs_blocks self + 1)) (cs_flags self).

Fixpoint chunk_blocks (fuel : nat) (self : blake3_chunk_state) (input : list Z)
    : option (blake3_chunk_state * list Z) :=
  match fuel with
  | O => None
  | S fuel =>
      if BLAKE3_BLOCK_LEN <? zlen input then
        let? block := bytes_at input BLAKE3_BLOCK_LEN in
        chunk_blocks fuel (chunk_state_compress self block) (drop 64 input)
      else Some (self, input)
  end.

Definition chunk_state_update (self : blake3_chunk_state) (input : list Z) : option blake3_chunk_state :=
  let? (self, input) :=
    (if 0 <? cs_buf_len self then
       let? (self, taken) := chunk_state_fill_buf self input in
       let input := drop (Z.to_nat taken) input in
       if 0 <? zlen input then
         let self := chunk_state_compress self (cs_buf self) in
         Some (ChunkState (cs_cv self) (cs_counter self) (replicate 64 0) 0 (cs_blocks self) (cs_flags self),
               input)
       else Some (self, input)
     else Some (self, input)) in
  let? (self, input) := chunk_blocks (S (length input)) self input in
  let? (self, _) := chunk_state_fill_buf self input in
  Some self.

Record output_t := Output {
  o_input_cv : list Z; o_counter : Z; o_block : list Z; o_block_len : Z; o_flags : Z }.

Definition make_output (input_cv block : list Z) (block_len counter flags : Z) : output_t :=
  Output input_cv counter block block_len flags.

Definition output_chaining_value (self : output_t) : list Z :=
  store_cv_words (blake3_compress_in_place (o_input_cv self) (o_block self) (o_block_len self)
    (o_counter self) (o_flags self)).

Definition output_root_bytes (self : output_t) (seek out_len : Z) : list Z :=
  let xof counter := blake3_compress_xof (o_input_cv self) (o_block self) (o_block_len self) counter
                       (Z.lor (o_flags self) ROOT) in
  if out_len =? 0 then []
  else
    let output_block_counter := seek / 64 in
    let offset_within_block := seek mod 64 in
    let '(out, out_len, output_block_counter) :=
      if negb (offset_within_block =? 0) then
        let available_bytes := 64 - offset_within_block in
        let bytes := if available_bytes <? out_len then available_bytes else out_len in
        (take (Z.to_nat bytes) (drop (Z.to_nat offset_within_block) (xof output_block_counter)),
         out_len - bytes, u64 (output_block_counter + 1))
      else ([], out_len, output_block_counter) in
    let out := out ++ blake3_xof_many (o_input_cv self) (o_block self) (o_block_len self)
                        output_block_counter (Z.lor (o_flags self) ROOT) (out_len / 64) in
    let output_block_counter := u64 (output_block_counter + out_len / 64) in
    let out_len := out_len mod 64 in
    if negb (out_len =? 0) then out ++ take (Z.to_nat out_len) (xof output_block_counter) else out.

Definition chunk_state_output (self : blake3_chunk_state) : output_t :=
  let block_flags := Z.lor (Z.lor (cs_flags self) (chunk_state_maybe_start_flag self)) CHUNK_END in
  make_output (cs_cv self) (cs_buf self) (cs_buf_len self) (cs_counter self) block_flags.

Definition parent_output (block key : list Z) (flags : Z) : output_t :=
  make_output key block BLAKE3_BLOCK_LEN 0 (Z.lor flags PARENT).

(** hash_one_portable, one iteration per block. *)
Fixpoint hash_one_blocks (blocks : nat) (cv input : list Z) (counter flags flags_end block_flags : Z)
    : option (list Z) :=
  match blocks with
  | O => Some cv
  | S n =>
      let block_flags := if (n =? 0)%nat then Z.lor block_flags flags_end else block_flags in
      let? block := bytes_at input BLAKE3_BLOCK_LEN in
      let cv := blake3_compress_in_place cv block BLAKE3_BLOCK_LEN counter block_flags in
      hash_one_blocks n cv (drop 64 input) counter flags flags_end flags
  end.

Definition hash_one_portable (input : list Z) (blocks : nat) (key : list Z)
    (counter flags flags_start flags_end : Z) : option (list Z) :=
  let? cv := hash_one_blocks blocks key input counter flags flags_end (Z.lor flags flags_start) in
  Some (store_cv_words cv).

Fixpoint blake3_hash_many (inputs : list (list Z)) (blocks : nat) (key : list Z) (counter : Z)
    (increment_counter : bool) (flags flags_start flags_end : Z) : option (list (list Z)) :=
  match inputs with
  | [] => Some []
  | input :: inputs =>
      let? cv := hash_one_portable input blocks key counter flags flags_start flags_end in
      let counter := if increment_counter then u64 (counter + 1) else counter in
      let? cvs := blake3_hash_many inputs blocks key counter increment_counter flags flags_start flags_end in
      Some (cv :: cvs)
  end.

(** * Subtrees *)

Section wide.
Variable simd_degree MAX_SIMD_DEGREE : Z.

Definition MAX_SIMD_DEGREE_OR_2 : Z := if 2 <? MAX_SIMD_DEGREE then MAX_SIMD_DEGREE else 2.

Definition left_subtree_len (input_len : Z) : Z :=
  let full_chunks := (input_len - 1) / BLAKE3_CHUNK_LEN in
  round_down_to_power_of_2 full_chunks * BLAKE3_CHUNK_LEN.

Definition blake3_dl_pad_chunk : list Z := replicate 1024 0.

Fixpoint round_lanes (fuel : nat) (lanes n : Z) : option Z :=
  match fuel with
  | O => None
  | S fuel => if lanes <? n then round_lanes fuel (lanes * 2) n else Some lanes
  end.

Definition blake3_dl_padded_batch (n : Z) : option Z :=
  if (n <? 2) || (simd_degree <? 4) then Some n
  else
    let? lanes := round_lanes 64 4 n in
    Some (if lanes <=? simd_degree then lanes else n).

(** The slices of the full chunks of the input and what is left of it. *)
Fixpoint full_chunks (fuel : nat) (input : list Z) : list (list Z) * list Z :=
  match fuel with
  | O => ([], input)
  | S fuel =>
      if BLAKE3_CHUNK_LEN <=? zlen input then
        let (chunks, rest) := full_chunks fuel (drop 1024 input) in
        (take 1024 input :: chunks, rest)
      else ([], input)
  end.

(** The chaining values stored from [out] on, those of the padding included, and
    the number of chunks. *)
Definition compress_chunks_parallel (input key : list Z) (chunk_counter flags : Z)
    : option (list (list Z) * Z) :=
  let (chunks_array, rest) := full_chunks (length input) input in
  let chunks_array_len := zlen chunks_array in
  if MAX_SIMD_DEGREE <? chunks_array_len then None
  else
  let? batch_len := blake3_dl_padded_batch chunks_array_len in
  if MAX_SIMD_DEGREE <? batch_len then None
  else
  let padding := replicate (Z.to_nat (batch_len - chunks_array_len)) blake3_dl_pad_chunk in
  let? out := blake3_hash_many (chunks_array ++ padding) 16 key chunk_counter true flags
                CHUNK_START CHUNK_END in
  if 0 <? zlen rest then
    let counter := u64 (chunk_counter + chunks_array_len) in
    let init := chunk_state_init key flags in
    let chunk_state := ChunkState (cs_cv init) counter (cs_buf init) (cs_buf_len init) (cs_blocks init)
                         (cs_flags init) in
    let? chunk_state := chunk_state_update chunk_state rest in
    let cv := output_chaining_value (chunk_state_output chunk_state) in
    let n := Z.to_nat chunks_array_len in
    Some (take n out ++ cv :: drop (S n) out, chunks_array_len + 1)
  else Some (out, chunks_array_len).

(** The parent nodes over the pairs of [cvs]; a value left over is passed on. *)
Fixpoint parent_blocks (cvs : list (list Z)) : list (list Z) * list (list Z) :=
  match cvs with
  | l :: r :: cvs => let (blocks, rest) := parent_blocks cvs in ((l ++ r) :: blocks, rest)
  | _ => ([], cvs)
  end.

Definition compress_parents_parallel (child_chaining_values : list (list Z)) (key : list Z) (flags : Z)
    : option (list (list Z)) :=
  let (parents_array, rest) := parent_blocks child_chaining_values in
  if MAX_SIMD_DEGREE_OR_2 <? zlen parents_array then None
  else
  let? out := blake3_hash_many parents_array 1 key 0 false (Z.lor flags PARENT) 0 0 in
  Some (out ++ rest).

(** The branch of blake3_compress_subtree_wide that splits the input; [wide] is
    the recursive call. *)
Definition compress_subtree_split (wide : list Z -> Z -> option (list (list Z) * Z))
    (input key : list Z) (chunk_counter flags : Z) : option (list (list Z) * Z) :=
  let left_input_len := left_subtree_len (zlen input) in
  let left_input := take (Z.to_nat left_input_len) input in
  let right_input := drop (Z.to_nat left_input_len) input in
  let right_chunk_counter := u64 (chunk_counter + left_input_len / BLAKE3_CHUNK_LEN) in
  let cv_array := replicate (Z.to_nat (2 * MAX_SIMD_DEGREE_OR_2)) None in
  let degree := if (BLAKE3_CHUNK_LEN <? left_input_len) && (simd_degree =? 1) then 2
                else simd_degree in
  let? (left_out, left_n) := wide left_input chunk_counter in
  let? cv_array := buf_write cv_array 0 left_out in
  let? (right_out, right_n) := wide right_input right_chunk_counter in
  let? cv_array := buf_write cv_array degree right_out in
  if left_n =? 1 then
    let? out := buf_read cv_array 2 in Some (out, 2)
  else
    let num_chaining_values := left_n + right_n in
    let? cvs := buf_read cv_array num_chaining_values in
    let? out := compress_parents_parallel cvs key flags in
    Some (out, zlen out).

Fixpoint blake3_compress_subtree_wide (fuel : nat) (input key : list Z) (chunk_counter flags : Z)
    : option (list (list Z) * Z) :=
  match fuel with
  | O => None
  | S fuel =>
      if zlen input <=? simd_degree * BLAKE3_CHUNK_LEN then
        compress_chunks_parallel input key chunk_counter flags
      else
        compress_subtree_split
          (fun input counter => blake3_compress_subtree_wide fuel input key counter flags)
          input key chunk_counter flags
  end.

(** [while (num_cvs > 2)], the values going through [out_array]. *)
Fixpoint condense (fuel : nat) (cv_array : buffer (list Z)) (num_cvs : Z) (key : list Z) (flags : Z)
    : option (buffer (list Z)) :=
  match fuel with
  | O => None
  | S fuel =>
      if 2 <? num_cvs then
        let? cvs := buf_read cv_array num_cvs in
        let? out := compress_parents_parallel cvs key flags in
        let? _ := buf_write (replicate (Z.to_nat (MAX_SIMD_DEGREE_OR_2 / 2)) None) 0 out in
        let? cv_array := buf_write cv_array 0 out in
        condense fuel cv_array (zlen out) key flags
      else Some cv_array
  end.

(** The two chaining values of the parent node. *)
Definition compress_subtree_to_parent_node (input key : list Z) (chunk_counter flags : Z)
    : option (list (list Z)) :=
  let cv_array := replicate (Z.to_nat MAX_SIMD_DEGREE_OR_2) None in
  let? (out, num_cvs) := blake3_compress_subtree_wide 64 input key chunk_counter flags in
  let? cv_array := buf_write cv_array 0 out in
  if MAX_SIMD_DEGREE_OR_2 <? num_cvs then None
  else
  let? cv_array := (if 2 <? MAX_SIMD_DEGREE_OR_2 then condense 64 cv_array num_cvs key flags
                    else Some cv_array) in
  buf_read cv_array 2.

(** * The incremental hasher *)

Record blake3_hasher := Hasher { h_key : list Z; h_chunk : blake3_chunk_state; h_stack : list (list Z) }.

Definition blake3_hasher_init : blake3_hasher := Hasher IV (chunk_state_init IV 0) [].

(** The top two chaining values replaced by their parent while there are more
    than [popcnt(total_len)]. *)
Fixpoint merge_loop (fuel : nat) (self : blake3_hasher) (post_merge_stack_len : Z) : option blake3_hasher :=
  match fuel with
  | O => None
  | S fuel =>
      if post_merge_stack_len <? zlen (h_stack self) then
        let n := length (h_stack self) in
        if (n <? 2)%nat then None
        else
        let parent_node := mjoin (drop (n - 2) (h_stack self)) in
        let output := parent_output parent_node (h_key self) (cs_flags (h_chunk self)) in
        merge_loop fuel
          (Hasher (h_key self) (h_chunk self) (take (n - 2) (h_stack self) ++ [output_chaining_value output]))
          post_merge_stack_len
      else Some self
  end.

Definition hasher_merge_cv_stack (self : blake3_hasher) (total_len : Z) : option blake3_hasher :=
  merge_loop 64 self (popcnt total_len).

(** A push past the [BLAKE3_MAX_DEPTH + 1] cells of the stack is undefined. *)
Definition hasher_push_cv (self : blake3_hasher) (new_cv : list Z) (chunk_counter : Z)
    : option blake3_hasher :=
  let? self := hasher_merge_cv_stack self chunk_counter in
  if BLAKE3_MAX_DEPTH + 1 <=? zlen (h_stack self) then None
  else Some (Hasher (h_key self) (h_chunk self) (h_stack self ++ [new_cv])).

(** [while ((((uint64_t)(subtree_len - 1)) & count_so_far) != 0) subtree_len /= 2;] *)
Fixpoint align_subtree (fuel : nat) (subtree_len count_so_far : Z) : option Z :=
  match fuel with
  | O => None
  | S fuel =>
      if negb (Z.land (subtree_len - 1) count_so_far =? 0)
      then align_subtree fuel (subtree_len / 2) count_so_far
      else Some subtree_len
  end.

Definition set_chunk (chunk : blake3_chunk_state) (self : blake3_hasher) : blake3_hasher :=
  Hasher (h_key self) chunk (h_stack self).
Definition set_counter (counter : Z) (self : blake3_chunk_state) : blake3_chunk_state :=
  ChunkState (cs_cv self) counter (cs_buf self) (cs_buf_len self) (cs_blocks self) (cs_flags self).

(** One group of chunks: a single chunk, or a subtree as its two halves. *)
Definition update_push (self : blake3_hasher) (subtree : list Z) (subtree_len : Z) : option blake3_hasher :=
  let counter := cs_counter (h_chunk self) in
  let subtree_chunks := subtree_len / BLAKE3_CHUNK_LEN in
  if subtree_len <=? BLAKE3_CHUNK_LEN then
    let chunk_state := set_counter counter (chunk_state_init (h_key self) (cs_flags (h_chunk self))) in
    let? chunk_state := chunk_state_update chunk_state subtree in
    let cv := output_chaining_value (chunk_state_output chunk_state) in
    hasher_push_cv self cv (cs_counter chunk_state)
  else
    let? cv_pair := compress_subtree_to_parent_node subtree (h_key self) counter (cs_flags (h_chunk self)) in
    match cv_pair with
    | [l; r] =>
        let? self := hasher_push_cv self l counter in
        hasher_push_cv self r (u64 (counter + subtree_chunks / 2))
    | _ => None
    end.

(** [while (input_len > BLAKE3_CHUNK_LEN)] *)
Fixpoint update_subtrees (fuel : nat) (self : blake3_hasher) (input : list Z)
    : option (blake3_hasher * list Z) :=
  match fuel with
  | O => None
  | S fuel =>
      if BLAKE3_CHUNK_LEN <? zlen input then
        let counter := cs_counter (h_chunk self) in
        let subtree_len := round_down_to_power_of_2 (zlen input) in
        let count_so_far := u64 (counter * BLAKE3_CHUNK_LEN) in
        let? subtree_len := align_subtree 65 subtree_len count_so_far in
        let subtree_chunks := subtree_len / BLAKE3_CHUNK_LEN in
        let? self := update_push self (take (Z.to_nat subtree_len) input) subtree_len in
        let self := set_chunk (set_counter (u64 (counter + subtree_chunks)) (h_chunk self)) self in
        update_subtrees fuel self (drop (Z.to_nat subtree_len) input)
      else Some (self, input)
  end.

(** The rest of a started chunk first.  [None] in the second component: the
    input ended there. *)
Definition update_chunk (self : blake3_hasher) (input : list Z)
    : option (blake3_hasher * option (list Z)) :=
  let take_ := BLAKE3_CHUNK_LEN - chunk_state_len (h_chunk self) in
  let take_ := if zlen input <? take_ then zlen input else take_ in
  let? chunk := chunk_state_update (h_chunk self) (take (Z.to_nat take_) input) in
  let self := set_chunk chunk self in
  let input := drop (Z.to_nat take_) input in
  if 0 <? zlen input then
    let chunk_cv := output_chaining_value (chunk_state_output (h_chunk self)) in
    let? self := hasher_push_cv self chunk_cv (cs_counter (h_chunk self)) in
    Some (set_chunk (chunk_state_reset (h_chunk self) (h_key self) (u64 (cs_counter (h_chunk self) + 1))) self,
          Some input)
  else Some (self, None).

Definition blake3_hasher_update (self : blake3_hasher) (input : list Z) : option blake3_hasher :=
  if zlen input =? 0 then Some self
  else
  let? (self, input) :=
    (if 0 <? chunk_state_len (h_chunk self) then update_chunk self input else Some (self, Some input)) in
  match input with
  | None => Some self
  | Some input =>
      let? (self, input) := update_subtrees (S (length input)) self input in
      if 0 <? zlen input then
        let? chunk := chunk_state_update (h_chunk self) input in
        hasher_merge_cv_stack (set_chunk chunk self) (cs_counter chunk)
      else Some self
  end.

(** [while (cvs_remaining > 0)] over the chaining values below, last first. *)
Fixpoint finalize_loop (below : list (list Z)) (key : list Z) (flags : Z) (output : output_t) : output_t :=
  match below with
  | [] => output
  | cv :: below =>
      parent_output (cv ++ output_chaining_value (finalize_loop below key flags output)) key flags
  end.

Definition blake3_hasher_finalize_seek (self : blake3_hasher) (seek out_len : Z) : option (list Z) :=
  if out_len =? 0 then Some []
  else if zlen (h_stack self) =? 0 then
    Some (output_root_bytes (chunk_state_output (h_chunk self)) seek out_len)
  else
    let flags := cs_flags (h_chunk self) in
    let n := length (h_stack self) in
    let? (below, output) :=
      (if 0 <? chunk_state_len (h_chunk self)
       then Some (h_stack self, chunk_state_output (h_chunk self))
       else if (n <? 2)%nat then None
       else Some (take (n - 2) (h_stack self),
                  parent_output (mjoin (drop (n - 2) (h_stack self))) (h_key self) flags)) in
    Some (output_root_bytes (finalize_loop below (h_key self) flags output) seek out_len).

Definition blake3_hasher_finalize (self : blake3_hasher) (out_len : Z) : option (list Z) :=
  blake3_hasher_finalize_seek self 0 out_len.

Definition blake3_hash_oneshot (input : list Z) (out_len : Z) : option (list Z) :=
  let? output :=
    (if zlen input <=? BLAKE3_CHUNK_LEN then
       let? chunk := chunk_state_update (chunk_state_init IV 0) input in
       Some (chunk_state_output chunk)
     else
       let? cv_pair := compress_subtree_to_parent_node input IV 0 0 in
       Some (parent_output (mjoin cv_pair) IV 0)) in
  Some (output_root_bytes output 0 out_len).
End wide.
