(* ===== verification/Blake3Tree.v ===== *)
(** BLAKE3 as a tree of chunks, and the one-call path: the chunk state machine
    absorbs bytes in any pieces; the wide compressor, whatever its SIMD degree,
    computes the two chaining values below the root of the tree; so
    blake3_hash_oneshot computes the tree hash. *)
From Equations Require Import Equations.
From S2P Require Import Prelude Buffer Blake3.

#[local] Opaque blake3_compress_in_place.

(** * Chunks *)

Section chunk.
Context (key : list Z) (flags counter : Z).

(** The number of blocks compressed after the bytes [d]: the last block, full
    or not, stays in the buffer. *)
Definition nblocks (d : list Z) : nat := (length d - 1) / 64.

(** The chaining value after the first [n] blocks of [d]. *)
Fixpoint absorb (n : nat) (d : list Z) : list Z :=
  match n with
  | O => key
  | S m => blake3_compress_in_place (absorb m d) (take 64 (drop (64 * m) d)) 64 counter
             (Z.lor flags (if (m =? 0)%nat then CHUNK_START else 0))
  end.

Definition pad64 (l : list Z) : list Z := l ++ replicate (64 - length l) 0.

Definition chunk_state (n : nat) (d b : list Z) : blake3_chunk_state :=
  ChunkState (absorb n d) counter (pad64 b) (zlen b) (Z.of_nat n) flags.

(** The state of a chunk that absorbed [d]. *)
Definition chunk_of (d : list Z) : blake3_chunk_state :=
  chunk_state (nblocks d) d (drop (64 * nblocks d) d).

Lemma absorb_app n d e : (64 * n <= length d)%nat -> absorb n (d ++ e) = absorb n d.
Proof.
  induction n as [|n IH]; intros Hn; [done|]. cbn [absorb]. rewrite IH by lia.
  by rewrite drop_app_le, take_app_le by (rewrite ?length_drop; lia).
Qed.

Lemma nblocks_spec d : (0 < length d)%nat -> (64 * nblocks d < length d <= 64 * nblocks d + 64)%nat.
Proof.
  intros H. unfold nblocks. pose proof (Nat.div_mod_eq (length d - 1) 64).
  pose proof (Nat.mod_upper_bound (length d - 1) 64). lia.
Qed.

Lemma nblocks_unique d n : (64 * n < length d <= 64 * n + 64)%nat -> nblocks d = n.
Proof. intros H. pose proof (nblocks_spec d). lia. Qed.

Lemma fill_buf_spec n d b e :
  (length b <= 64)%nat ->
  let t := Nat.min (64 - length b) (length e) in
  chunk_state_fill_buf (chunk_state n d b) e = Some (chunk_state n d (b ++ take t e), Z.of_nat t).
Proof.
  intros Hb t. assert (Ht : t = Nat.min (64 - length b) (length e)) by done. clearbody t.
  unfold chunk_state_fill_buf, chunk_state. cbn [cs_cv cs_counter cs_buf cs_buf_len cs_blocks cs_flags].
  unfold BLAKE3_BLOCK_LEN.
  assert (Et : (if zlen e <? 64 - zlen b then zlen e else 64 - zlen b) = Z.of_nat t) by (cases_bool; lia).
  rewrite Et, bytes_at_Some by lia. rewrite !Nat2Z.id. f_equal. f_equal.
  assert (Lt : length (take t e) = t) by (rewrite length_take; lia).
  f_equal; [|rewrite length_app, Lt; unfold u8;
    rewrite (Z.mod_small (Z.of_nat t)), Z.mod_small by lia; lia].
  unfold pad64. rewrite take_app_length, Lt, <- app_assoc. do 2 f_equal.
  rewrite drop_app_ge by lia. rewrite drop_replicate, length_app, Lt. f_equal. lia.
Qed.

Lemma compress_block n D b b' :
  b' = take 64 (drop (64 * n) D) -> (n < 255)%nat ->
  chunk_state_compress (chunk_state n D b) b' =
    ChunkState (absorb (S n) D) counter (pad64 b) (zlen b) (Z.of_nat (S n)) flags.
Proof.
  intros -> Hn. unfold chunk_state_compress, chunk_state_maybe_start_flag, chunk_state.
  cbn [cs_cv cs_counter cs_buf cs_buf_len cs_blocks cs_flags absorb].
  assert (u8 (Z.of_nat n + 1) = Z.of_nat (S n)) as -> by (unfold u8; rewrite Z.mod_small; lia).
  replace (Z.of_nat n =? 0) with (n =? 0)%nat; [done|].
  destruct (Z.eqb_spec (Z.of_nat n) 0), (Nat.eqb_spec n 0); done || lia.
Qed.

Lemma chunk_blocks_spec fuel n D :
  (64 * n <= length D)%nat -> (length D = 0 \/ 64 * n < length D)%nat -> (length D <= 1024)%nat ->
  (length D - 64 * n < fuel)%nat ->
  chunk_blocks fuel (chunk_state n D []) (drop (64 * n) D) =
    Some (chunk_state (nblocks D) D [], drop (64 * nblocks D) D).
Proof.
  revert n. induction fuel as [|fuel IH]; intros n Hn Hne Hl Hf; [lia|]. cbn [chunk_blocks].
  unfold BLAKE3_BLOCK_LEN. rewrite length_drop.
  destruct (Z.ltb_spec 64 (Z.of_nat (length D - 64 * n))).
  - rewrite bytes_at_Some by (rewrite length_drop; lia). change (Z.to_nat 64) with 64%nat.
    rewrite (compress_block n D []) by (done || lia). rewrite drop_drop.
    replace (64 * n + 64)%nat with (64 * S n)%nat by lia. apply IH; lia.
  - assert (nblocks D = n) as ->; [|done]. destruct Hne as [E|]; [|apply nblocks_unique; lia].
    unfold nblocks. rewrite E. cbn. lia.
Qed.

Lemma chunk_finish n D :
  (64 * n <= length D)%nat -> (length D = 0 \/ 64 * n < length D)%nat -> (length D <= 1024)%nat ->
  (let? (self, input) := chunk_blocks (S (length (drop (64 * n) D))) (chunk_state n D []) (drop (64 * n) D) in
   let? (self, _) := chunk_state_fill_buf self input in Some self) = Some (chunk_of D).
Proof.
  intros Hn Hne Hl. rewrite chunk_blocks_spec by (rewrite ?length_drop; lia).
  rewrite fill_buf_spec by (cbn; lia). cbn [app]. unfold chunk_of. do 2 f_equal.
  apply take_ge. rewrite length_drop. cbn [length]. destruct Hne as [E|]; [lia|].
  pose proof (nblocks_spec D). lia.
Qed.

Lemma chunk_state_update_spec d e :
  (length (d ++ e) <= 1024)%nat -> chunk_state_update (chunk_of d) e = Some (chunk_of (d ++ e)).
Proof.
  intros Hl. unfold chunk_state_update. destruct (decide (length d = 0)%nat) as [E|Hd].
  { apply length_zero_iff_nil in E as ->. change (chunk_of []) with (chunk_state 0 [] []).
    change (chunk_state 0 [] []) with (chunk_state 0 e []). cbn [cs_buf_len chunk_state length Z.ltb].
    change (0 <? Z.of_nat 0) with false. cbv iota beta. apply (chunk_finish 0 e); cbn in *; lia. }
  pose proof (nblocks_spec d) as Hb. set (n := nblocks d) in *. rewrite length_app in Hl.
  unfold chunk_of at 1 2. fold n.
  change (cs_buf_len (chunk_state n d _)) with (zlen (drop (64 * n) d)).
  destruct (Z.ltb_spec 0 (zlen (drop (64 * n) d))); [|rewrite length_drop in *; lia].
  rewrite fill_buf_spec by (rewrite length_drop; lia). rewrite Nat2Z.id, !length_drop.
  set (t := Nat.min _ _).
  assert (Hbuf : drop (64 * n) d ++ take t e = take (length d - 64 * n + t) (drop (64 * n) (d ++ e))).
  { rewrite drop_app_le by lia. rewrite take_app_ge by (rewrite length_drop; lia). rewrite length_drop.
    do 2 f_equal. lia. }
  assert (Ht : t = Nat.min (64 - (length d - 64 * n)) (length e)) by done. clearbody t.
  assert (Est : forall b, chunk_state n d b = chunk_state n (d ++ e) b).
  { intros b. unfold chunk_state. by rewrite absorb_app by lia. }
  rewrite Est. destruct (Z.ltb_spec 0 (Z.of_nat (length e - t))).
  - replace (length d - 64 * n + t)%nat with 64%nat in Hbuf by lia.
    rewrite Hbuf. set (b := take 64 _). change (cs_buf (chunk_state n (d ++ e) b)) with (pad64 b).
    assert (pad64 b = b) as ->.
    { unfold pad64, b. rewrite length_take, length_drop, length_app, Nat.min_l, Nat.sub_diag by lia. apply app_nil_r. }
    rewrite (compress_block n (d ++ e)) by (done || lia). cbn [cs_cv cs_counter cs_blocks cs_flags].
    change (ChunkState _ _ (replicate 64 0) 0 _ _) with (chunk_state (S n) (d ++ e) []).
    replace (drop t e) with (drop (64 * S n) (d ++ e)).
    + apply chunk_finish; rewrite length_app; lia.
    + rewrite drop_app_ge by lia. f_equal. lia.
  - rewrite (drop_ge e t) by lia. cbn [length]. 
    assert (nblocks (d ++ e) = n) as En by (apply nblocks_unique; rewrite length_app; lia).
    cbn [chunk_blocks]. change (BLAKE3_BLOCK_LEN <? zlen []) with false. cbv iota beta.
    rewrite fill_buf_spec by (rewrite Hbuf, length_take, length_drop, length_app; lia).
    rewrite take_nil, app_nil_r. unfold chunk_of. rewrite En, Hbuf. do 2 f_equal.
    apply take_ge. rewrite length_drop, length_app. lia.
Qed.

(** The chaining value of a chunk. *)
Definition chunk_cv (d : list Z) : list Z := output_chaining_value (chunk_state_output (chunk_of d)).

Lemma hash_one_blocks_spec k n D :
  length D = 1024%nat -> (n + S k = 16)%nat ->
  hash_one_blocks (S k) (absorb n D) (drop (64 * n) D) counter flags CHUNK_END
    (Z.lor flags (if (n =? 0)%nat then CHUNK_START else 0)) =
  Some (blake3_compress_in_place (absorb 15 D) (drop (64 * 15) D) 64 counter
          (Z.lor (Z.lor flags 0) CHUNK_END)).
Proof.
  intros HD. revert n. induction k as [|k IH]; intros n Hn.
  - assert (n = 15%nat) as -> by lia. cbn [hash_one_blocks Nat.eqb].
    unfold BLAKE3_BLOCK_LEN. rewrite bytes_at_Some by (rewrite length_drop; lia).
    rewrite take_ge by (rewrite length_drop; lia). done.
  - cbn [hash_one_blocks Nat.eqb]. unfold BLAKE3_BLOCK_LEN.
    rewrite bytes_at_Some by (rewrite length_drop; lia). rewrite drop_drop.
    change (Z.to_nat 64) with 64%nat. replace (64 * n + 64)%nat with (64 * S n)%nat by lia.
    rewrite <- (IH (S n)) by lia. cbn [hash_one_blocks Nat.eqb absorb].
    by rewrite Z.lor_0_r.
Qed.

Lemma hash_one_chunk D :
  length D = 1024%nat ->
  hash_one_portable D 16 key counter flags CHUNK_START CHUNK_END = Some (chunk_cv D).
Proof.
  intros HD. unfold hash_one_portable.
  pose proof (hash_one_blocks_spec 15 0 D HD eq_refl) as E. cbn [absorb Nat.eqb] in E.
  change (drop (64 * 0) D) with D in E. rewrite E.
  assert (En : nblocks D = 15%nat) by (apply nblocks_unique; lia).
  unfold chunk_cv, chunk_of, output_chaining_value, chunk_state_output. rewrite En.
  unfold chunk_state_maybe_start_flag, make_output.
  cbn [chunk_state o_input_cv o_block o_block_len o_counter o_flags cs_cv cs_buf cs_buf_len cs_counter
       cs_flags cs_blocks].
  assert (E64 : length (drop (64 * 15) D) = 64%nat) by (rewrite length_drop; lia).
  unfold pad64. rewrite E64, app_nil_r. done.
Qed.
End chunk.

(** * Lengths *)

Lemma length_g st a b c d x y : length (g st a b c d x y) = length st.
Proof. unfold g. by rewrite !length_insert. Qed.

Lemma length_round st m s : length (round_fn st m s) = length st.
Proof. unfold round_fn. by rewrite !length_g. Qed.

Lemma length_compress_pre cv b n c f : length cv = 8%nat -> length (compress_pre cv b n c f) = 16%nat.
Proof.
  intros H. unfold compress_pre. set (w := _ <$> seq 0 16). clearbody w.
  assert (E : forall l st, length (foldl (fun st s => round_fn st w s) st l) = length st).
  { induction l as [|s l IH]; intros st; cbn; [done|]. by rewrite IH, length_round. }
  rewrite E, length_app, length_take, H. done.
Qed.

Transparent blake3_compress_in_place.
Lemma length_compress cv b n c f : length cv = 8%nat -> length (blake3_compress_in_place cv b n c f) = 8%nat.
Proof.
  intros H. unfold blake3_compress_in_place.
  rewrite length_zip_with, length_take, length_drop, length_compress_pre by done. lia.
Qed.
#[local] Opaque blake3_compress_in_place.

Lemma length_store_cv l : length (store_cv_words l) = (4 * length l)%nat.
Proof.
  unfold store_cv_words. induction l as [|w l IH]; [done|].
  change (length (store32 w ++ mjoin (store32 <$> l)) = (4 * S (length l))%nat).
  rewrite length_app, IH. cbn [length store32]. lia.
Qed.

Lemma length_chaining o : length (o_input_cv o) = 8%nat -> length (output_chaining_value o) = 32%nat.
Proof. intros H. unfold output_chaining_value. by rewrite length_store_cv, length_compress. Qed.

Lemma length_absorb key flags counter n d : length key = 8%nat -> length (absorb key flags counter n d) = 8%nat.
Proof. intros H. induction n; cbn [absorb]; [done|by rewrite length_compress]. Qed.

Lemma length_chunk_cv key flags counter d : length key = 8%nat -> length (chunk_cv key flags counter d) = 32%nat.
Proof. intros H. apply length_chaining. cbn. by apply length_absorb. Qed.

Lemma chunk_cv_eq key flags counter d :
  output_chaining_value (chunk_state_output (chunk_of key flags counter d)) = chunk_cv key flags counter d.
Proof. reflexivity. Qed.

#[local] Opaque chunk_cv.

(** * Trees of chaining values *)

(** The size of the left subtree of a tree over [n] leaves: the largest power of
    two below [n]. *)
Definition split_point (n : nat) : nat := 2 ^ Nat.log2 (n - 1).

Lemma split_point_spec n : (2 <= n)%nat ->
  (1 <= split_point n < n /\ n <= 2 * split_point n)%nat.
Proof.
  intros Hn. unfold split_point. pose proof (Nat.log2_spec (n - 1)) as H.
  rewrite Nat.pow_succ_r' in H. lia.
Qed.

Lemma split_point_unique n k : (2 ^ k < n <= 2 * 2 ^ k)%nat -> split_point n = (2 ^ k)%nat.
Proof.
  intros H. unfold split_point. f_equal. apply Nat.log2_unique; [lia|].
  rewrite Nat.pow_succ_r'. lia.
Qed.

Lemma split_point_power n : exists k, split_point n = (2 ^ k)%nat.
Proof. by exists (Nat.log2 (n - 1)). Qed.

Section trees.
Context (key : list Z) (flags : Z).

Definition cv_parent (l r : list Z) : list Z := output_chaining_value (parent_output (l ++ r) key flags).

Equations cv_tree (l : list (list Z)) : list Z by wf (length l) lt :=
  cv_tree [] := [];
  cv_tree [a] := a;
  cv_tree l := cv_parent (cv_tree (take (split_point (length l)) l)) (cv_tree (drop (split_point (length l)) l)).
Next Obligation.
  intros a b r _ l. pose proof (split_point_spec (length l)). unfold l in *.
  rewrite length_take. cbn [length] in *. lia.
Qed.
Next Obligation.
  intros a b r _ l. pose proof (split_point_spec (length l)). unfold l in *.
  rewrite length_drop. cbn [length] in *. lia.
Qed.

Lemma cv_tree_step l : (2 <= length l)%nat ->
  cv_tree l = cv_parent (cv_tree (take (split_point (length l)) l)) (cv_tree (drop (split_point (length l)) l)).
Proof. destruct l as [|a [|b l]]; cbn [length]; intros; [lia..|]. by simp cv_tree. Qed.

(** The chaining values of the two children of the root. *)
Definition halves (l : list (list Z)) : list Z * list Z :=
  (cv_tree (take (split_point (length l)) l), cv_tree (drop (split_point (length l)) l)).

(** One level of pairing. *)
Fixpoint pairs (l : list (list Z)) : list (list Z) :=
  match l with
  | a :: b :: l => cv_parent a b :: pairs l
  | _ => l
  end.

Lemma list_ind2 {A} (P : list A -> Prop) :
  P [] -> (forall a, P [a]) -> (forall a b l, P l -> P (a :: b :: l)) -> forall l, P l.
Proof.
  intros H0 H1 H2 l. enough (P l /\ forall a, P (a :: l)) by tauto.
  induction l as [|b l [IH IH']]; split; auto.
Qed.

Lemma length_pairs l : length (pairs l) = ((length l + 1) / 2)%nat.
Proof.
  induction l as [| |a b l IH] using list_ind2; [done..|]. cbn [pairs length]. rewrite IH.
  replace (S (S (length l)) + 1)%nat with (1 * 2 + (length l + 1))%nat by lia.
  by rewrite Nat.div_add_l.
Qed.

Lemma pairs_app k l1 l2 : length l1 = (2 * k)%nat -> pairs (l1 ++ l2) = pairs l1 ++ pairs l2.
Proof.
  revert l1. induction k as [|k IH]; intros l1 H; [by destruct l1|].
  destruct l1 as [|a [|b l1]]; cbn [length] in H; [lia..|]. cbn [pairs app]. by rewrite IH by lia.
Qed.

(** Pairing respects the split of the tree. *)
Lemma pairs_split l : (3 <= length l)%nat ->
  let p := split_point (length l) in let p' := split_point (length (pairs l)) in
  take p' (pairs l) = pairs (take p l) /\ drop p' (pairs l) = pairs (drop p l) /\
  (2 <= length (pairs l))%nat /\ (2 <= p < length l)%nat.
Proof.
  intros Hl p p'. destruct (split_point_power (length l)) as [[|k] Hk];
    pose proof (split_point_spec (length l)) as Hs; rewrite Hk in Hs; [cbn in Hs; lia|].
  unfold p, p'. rewrite Nat.pow_succ_r' in *. rewrite Hk. clear p p'.
  assert (Lp : (2 ^ k < length (pairs l) <= 2 * 2 ^ k)%nat).
  { rewrite length_pairs. pose proof (Nat.div_mod_eq (length l + 1) 2).
    pose proof (Nat.mod_upper_bound (length l + 1) 2). lia. }
  rewrite (split_point_unique _ k Lp).
  assert (Lt : length (take (2 * 2 ^ k) l) = (2 * 2 ^ k)%nat) by (rewrite length_take; lia).
  assert (Lpt : length (pairs (take (2 * 2 ^ k) l)) = (2 ^ k)%nat).
  { rewrite length_pairs, Lt. symmetry. apply Nat.div_unique with 1%nat; lia. }
  assert (Es : pairs l = pairs (take (2 * 2 ^ k) l) ++ pairs (drop (2 * 2 ^ k) l)).
  { rewrite <- (pairs_app (2 ^ k)) by done. by rewrite take_drop. }
  rewrite Es at 1 2. rewrite take_app_length', drop_app_length' by done.
  pose proof (Nat.pow_nonzero 2 k). split_and!; try done; lia.
Qed.

(** Pairing neighbours does not change the tree. *)
Lemma cv_tree_pairs l : (2 <= length l)%nat -> cv_tree (pairs l) = cv_tree l.
Proof.
  remember (length l) as n eqn:E. revert l E. induction n as [n IH] using lt_wf_ind. intros l -> Hl.
  destruct (decide (length l = 2%nat)) as [E2|Hn].
  { destruct l as [|a [|b [|c l]]]; cbn [length] in *; try lia. cbn [pairs].
    rewrite (cv_tree_step [a; b]) by (cbn; lia). change (split_point (length [a; b])) with 1%nat.
    cbn [take drop]. by simp cv_tree. }
  destruct (pairs_split l) as (Et & Ed & Lp & Hs); [lia|].
  rewrite (cv_tree_step (pairs l)), (cv_tree_step l), Et, Ed by done. f_equal.
  - eapply IH; [|reflexivity|]; rewrite length_take; lia.
  - destruct (drop (split_point (length l)) l) as [|a [|b r]] eqn:E; [reflexivity|reflexivity|].
    rewrite <- E. eapply IH; [|reflexivity|]; rewrite ?E; rewrite <- ?E, ?length_drop; [lia|].
    apply (f_equal length) in E. rewrite length_drop in E. cbn in E. lia.
Qed.

Lemma halves_pairs l : (3 <= length l)%nat -> halves (pairs l) = halves l.
Proof.
  intros Hl. destruct (pairs_split l Hl) as (Et & Ed & Lp & Hs). unfold halves. rewrite Et, Ed. f_equal.
  - apply cv_tree_pairs. rewrite length_take. lia.
  - destruct (drop (split_point (length l)) l) as [|a [|b r]] eqn:E; [reflexivity|reflexivity|].
    apply cv_tree_pairs. cbn. lia.
Qed.

Lemma cv_tree_halves l l' : (2 <= length l)%nat -> (2 <= length l')%nat -> halves l = halves l' -> cv_tree l = cv_tree l'.
Proof.
  intros H H' E. rewrite (cv_tree_step l H), (cv_tree_step l' H').
  exact (f_equal (fun p => cv_parent p.1 p.2) E).
Qed.

(** A full left part and a right part no longer than it. *)
Lemma halves_app k l r :
  length l = (2 ^ k)%nat -> (0 < length r <= 2 ^ k)%nat -> halves (l ++ r) = (cv_tree l, cv_tree r).
Proof.
  intros Hl Hr. unfold halves. rewrite (split_point_unique _ k) by (rewrite length_app; lia).
  by rewrite take_app_length', drop_app_length'.
Qed.

Definition cv_ok (cv : list Z) : Prop := length cv = 32%nat.
Context (Hkey : length key = 8%nat).

Lemma parent_cv_ok a b : cv_ok (cv_parent a b).
Proof. by apply length_chaining. Qed.

Lemma pairs_ok l : Forall cv_ok l -> Forall cv_ok (pairs l).
Proof.
  induction l as [| |a b l IH] using list_ind2; cbn [pairs]; [done..|]. intros H.
  apply Forall_cons in H as [_ H]. apply Forall_cons in H as [_ H].
  constructor; [apply parent_cv_ok|by apply IH].
Qed.

Lemma hash_one_parent a b : cv_ok a -> cv_ok b ->
  hash_one_portable (a ++ b) 1 key 0 (Z.lor flags PARENT) 0 0 = Some (cv_parent a b).
Proof.
  clear Hkey. intros Ha Hb. unfold hash_one_portable. cbn [hash_one_blocks Nat.eqb]. unfold BLAKE3_BLOCK_LEN.
  unfold cv_ok in *. rewrite bytes_at_Some by (rewrite length_app; lia).
  rewrite take_ge by (rewrite length_app; lia). by rewrite !Z.lor_0_r.
Qed.

Lemma parents_parallel_spec max l :
  Forall cv_ok l -> Z.of_nat (length l) <= 2 * MAX_SIMD_DEGREE_OR_2 max ->
  compress_parents_parallel max l key flags = Some (pairs l).
Proof.
  clear Hkey. intros Hl Hmax. unfold compress_parents_parallel.
  destruct (parent_blocks l) as [bl rest] eqn:E.
  assert (H : (2 * length bl <= length l)%nat /\
    blake3_hash_many bl 1 key 0 false (Z.lor flags PARENT) 0 0 = Some (take (length bl) (pairs l)) /\
    drop (length bl) (pairs l) = rest).
  { clear Hmax. revert bl rest E. induction l as [| |a b l IH] using list_ind2; intros bl rest E;
      cbn [parent_blocks] in E; [simplify_eq; cbn; split_and!; (done || lia)..|].
    destruct (parent_blocks l) as [bl' rest'] eqn:E'. simplify_eq.
    apply Forall_cons in Hl as [Ha Hl]. apply Forall_cons in Hl as [Hb Hl].
    destruct (IH Hl _ _ eq_refl) as (? & Eh & Ed). cbn [length pairs take drop blake3_hash_many].
    rewrite hash_one_parent, Eh by done. split_and!; [lia|done|done]. }
  destruct H as (H & -> & <-). destruct (Z.ltb_spec (MAX_SIMD_DEGREE_OR_2 max) (zlen bl)); [lia|].
  by rewrite take_drop.
Qed.

(** * The chunks of an input *)

(** The number of chunks of a non-empty input, the last one possibly short. *)
Definition nchunks (d : list Z) : nat := (length d + 1023) / 1024.

(** The chaining values of [n] chunks of [d], the first one numbered [c]. *)
Fixpoint cvs_n (n : nat) (c : Z) (d : list Z) : list (list Z) :=
  match n with
  | O => []
  | S n => chunk_cv key flags c (take 1024 d) :: cvs_n n (c + 1) (drop 1024 d)
  end.

Definition chunk_cvs (c : Z) (d : list Z) : list (list Z) := cvs_n (nchunks d) c d.

Lemma nchunks_spec d : (0 < length d)%nat ->
  (1 <= nchunks d /\ 1024 * (nchunks d - 1) < length d <= 1024 * nchunks d)%nat.
Proof.
  clear Hkey. intros H. unfold nchunks. pose proof (Nat.div_mod_eq (length d + 1023) 1024).
  pose proof (Nat.mod_upper_bound (length d + 1023) 1024). lia.
Qed.

Lemma nchunks_unique d n : (0 < length d)%nat -> (1024 * n < length d + 1024 <= 1024 * n + 1024)%nat ->
  nchunks d = n.
Proof. clear Hkey. intros H Hn. pose proof (nchunks_spec d H). lia. Qed.

Lemma length_cvs_n n c d : length (cvs_n n c d) = n.
Proof. clear Hkey. revert c d. induction n as [|n IH]; intros; cbn [cvs_n length]; [done|by rewrite IH]. Qed.

Lemma cvs_n_ok n c d : Forall cv_ok (cvs_n n c d).
Proof.
  revert c d. induction n as [|n IH]; intros; cbn [cvs_n]; constructor; [|done]. by apply length_chunk_cv.
Qed.

Lemma cvs_n_add a b c d :
  cvs_n (a + b) c d = cvs_n a c d ++ cvs_n b (c + Z.of_nat a) (drop (1024 * a) d).
Proof.
  clear Hkey. revert c d. induction a as [|a IH]; intros c d.
  - cbn [Nat.add cvs_n app]. by rewrite Z.add_0_r.
  - cbn [Nat.add cvs_n app]. rewrite IH, drop_drop. do 3 f_equal; [lia|f_equal; lia].
Qed.

Lemma cvs_n_take a c d k : (1024 * a <= k)%nat -> cvs_n a c (take k d) = cvs_n a c d.
Proof.
  clear Hkey. revert c d k. induction a as [|a IH]; intros c d k Hk; [done|]. cbn [cvs_n].
  rewrite take_take, Nat.min_l by lia. f_equal. rewrite skipn_firstn_comm. apply IH. lia.
Qed.

(** The full chunks of the input and the rest, as the code finds them. *)
Lemma full_chunks_spec fuel d c : (length d <= fuel)%nat ->
  let (chunks, rest) := full_chunks fuel d in
  (length rest < 1024)%nat /\
  length d = (1024 * length chunks + length rest)%nat /\
  Forall (fun ch => length ch = 1024%nat) chunks /\ rest = drop (1024 * length chunks) d /\
  imap (fun i ch => chunk_cv key flags (c + Z.of_nat i) ch) chunks = cvs_n (length chunks) c d.
Proof.
  clear Hkey. revert d c. induction fuel as [|fuel IH]; intros d c Hf; cbn [full_chunks].
  { destruct d; [|cbn in *; lia]. split_and!; cbn; (done || lia). }
  unfold BLAKE3_CHUNK_LEN. destruct (Z.leb_spec 1024 (zlen d)).
  - specialize (IH (drop 1024 d) (c + 1)). rewrite length_drop in IH.
    destruct (full_chunks fuel (drop 1024 d)) as [chunks rest].
    destruct IH as (Hr & Hl & Hall & Er & Hcv); [lia|].
    cbn [length]. split_and!.
    + done.
    + lia.
    + constructor; [rewrite length_take; lia|done].
    + rewrite Er, drop_drop. f_equal. lia.
    + cbn [cvs_n imap]. rewrite <- Hcv. change (Z.of_nat 0) with 0. rewrite Z.add_0_r. apply (f_equal (cons _)).
      apply imap_ext. intros i x _. cbn [compose]. by replace (c + Z.of_nat (S i)) with (c + 1 + Z.of_nat i) by lia.
  - split_and!; cbn; (done || lia).
Qed.

Lemma hash_many_chunks c inputs :
  Forall (fun ch => length ch = 1024%nat) inputs -> 0 <= c -> c + zlen inputs < 2 ^ 64 ->
  blake3_hash_many inputs 16 key c true flags CHUNK_START CHUNK_END =
    Some (imap (fun i ch => chunk_cv key flags (c + Z.of_nat i) ch) inputs).
Proof.
  clear Hkey. intros H. revert c. induction H as [|ch inputs Hch H IH]; intros c Hc Hl; [done|].
  cbn [blake3_hash_many length] in *. rewrite hash_one_chunk by done.
  rewrite u64_small by (unfold is_u64; lia). rewrite IH by lia. cbn [imap].
  change (Z.of_nat 0) with 0. rewrite Z.add_0_r. do 2 apply f_equal. apply imap_ext. intros i x _.
  cbn [compose]. by replace (c + Z.of_nat (S i)) with (c + 1 + Z.of_nat i) by lia.
Qed.

Lemma round_lanes_spec fuel lanes n k :
  (k < fuel)%nat -> 0 < lanes -> n <= lanes * 2 ^ Z.of_nat k ->
  exists r, round_lanes fuel lanes n = Some r /\ n <= r.
Proof.
  clear Hkey. revert fuel lanes. induction k as [|k IH]; intros fuel lanes Hf Hl Hn;
    (destruct fuel as [|fuel]; [lia|]); cbn [round_lanes]; destruct (Z.ltb_spec lanes n); eauto.
  - change (2 ^ Z.of_nat 0) with 1 in Hn. lia.
  - rewrite Nat2Z.inj_succ, Z.pow_succ_r in Hn by lia. apply IH; lia.
Qed.

Lemma padded_batch_spec degree n :
  0 <= n <= degree -> degree <= 2 ^ 32 ->
  exists b, blake3_dl_padded_batch degree n = Some b /\ n <= b <= degree.
Proof.
  clear Hkey. intros Hn Hd. unfold blake3_dl_padded_batch. destruct ((n <? 2) || (degree <? 4)); [eauto with lia|].
  destruct (round_lanes_spec 64 4 n 32) as (r & -> & Hr); [lia|lia|lia|].
  eexists. split; [done|]. destruct (Z.leb_spec r degree); lia.
Qed.

Lemma round_down_spec x k : 0 <= k -> 2 ^ k <= x < 2 ^ (k + 1) -> round_down_to_power_of_2 x = 2 ^ k.
Proof.
  clear Hkey. intros Hk Hx. assert (0 < 2 ^ k) by (apply Z.pow_pos_nonneg; lia).
  unfold round_down_to_power_of_2, highest_one. rewrite Z.log2_lor, (Z.log2_unique x k) by lia.
  change (Z.log2 1) with 0. rewrite Z.max_l by lia. by rewrite Z.shiftl_1_l.
Qed.

Lemma left_len d : (2 <= nchunks d)%nat ->
  left_subtree_len (zlen d) = 1024 * Z.of_nat (split_point (nchunks d)).
Proof.
  clear Hkey. intros Hn. assert (Hd : (0 < length d)%nat) by (destruct d; [cbn in Hn; lia|cbn; lia]).
  pose proof (nchunks_spec d Hd) as [_ Hl]. pose proof (split_point_spec _ Hn) as Hs.
  destruct (split_point_power (nchunks d)) as [k Hk]. rewrite Hk in *.
  unfold left_subtree_len, BLAKE3_CHUNK_LEN.
  assert (E : (zlen d - 1) / 1024 = Z.of_nat (nchunks d - 1)) by (symmetry; apply Z.div_unique with (zlen d - 1 - 1024 * Z.of_nat (nchunks d - 1)); lia).
  rewrite E, (round_down_spec _ (Z.of_nat k)); [rewrite Nat2Z.inj_pow; lia|lia|].
  rewrite Z.pow_add_r by lia. pose proof (Nat2Z.inj_pow 2 k) as P. change (Z.of_nat 2) with 2 in P. lia.
Qed.

(** Splitting an input at the boundary of its left subtree. *)
Lemma chunk_cvs_split c d : (2 <= nchunks d)%nat ->
  let p := split_point (nchunks d) in
  let l := take (1024 * p) d in let r := drop (1024 * p) d in
  (0 < length l)%nat /\ (0 < length r)%nat /\ zlen l = 1024 * Z.of_nat p /\ nchunks l = p /\
  nchunks r = (nchunks d - p)%nat /\
  chunk_cvs c d = chunk_cvs c l ++ chunk_cvs (c + Z.of_nat p) r /\
  halves (chunk_cvs c d) = (cv_tree (chunk_cvs c l), cv_tree (chunk_cvs (c + Z.of_nat p) r)).
Proof.
  clear Hkey. intros Hn p l r. assert (Hd : (0 < length d)%nat) by (destruct d; [cbn in Hn; lia|cbn; lia]).
  pose proof (nchunks_spec d Hd) as [_ Hl]. pose proof (split_point_spec _ Hn) as Hs. fold p in Hs.
  assert (Ll : length l = (1024 * p)%nat) by (unfold l; rewrite length_take; lia).
  assert (Lr : length r = (length d - 1024 * p)%nat) by (unfold r; by rewrite length_drop).
  assert (El : nchunks l = p) by (apply nchunks_unique; lia).
  assert (Er : nchunks r = (nchunks d - p)%nat) by (apply nchunks_unique; lia).
  assert (Ec : chunk_cvs c d = chunk_cvs c l ++ chunk_cvs (c + Z.of_nat p) r).
  { unfold chunk_cvs. rewrite El, Er. unfold l. rewrite cvs_n_take by lia. unfold r.
    rewrite <- cvs_n_add. f_equal. lia. }
  split_and!; try done; [lia..|]. rewrite Ec. unfold p in *.
  destruct (split_point_power (nchunks d)) as [k Hk].
  apply (halves_app k); unfold chunk_cvs; rewrite length_cvs_n, ?El, ?Er; lia.
Qed.

Lemma pow_nat k : Z.of_nat (2 ^ k) = 2 ^ Z.of_nat k.
Proof. clear Hkey. by rewrite Nat2Z.inj_pow. Qed.

Section wide_proof.
Context (j : nat) (max : Z).
Let degree : Z := 2 ^ Z.of_nat j.
Context (Hj : (j <= 4)%nat) (Hmax : degree <= max).

(** What [blake3_compress_subtree_wide] leaves in the output area. *)
Definition wide_out (c : Z) (d : list Z) (r : option (list (list Z) * Z)) : Prop :=
  exists out n, r = Some (out, Z.of_nat n) /\ (n <= length out)%nat /\
    Forall cv_ok (take n out) /\
    (nchunks d = 1%nat -> n = 1%nat /\ zlen out <= degree /\ take n out = chunk_cvs c d) /\
    ((2 <= nchunks d)%nat -> (2 <= n)%nat /\ zlen out <= Z.max degree 2 /\
       halves (take n out) = halves (chunk_cvs c d)) /\
    (forall m, (1 <= m)%nat -> degree <= 2 ^ Z.of_nat m -> zlen d = 1024 * 2 ^ Z.of_nat m ->
       Z.of_nat n = Z.max degree 2).

Lemma chunks_parallel_spec c d :
  (0 < length d)%nat -> zlen d <= degree * 1024 -> 0 <= c -> c + degree < 2 ^ 64 ->
  exists out, compress_chunks_parallel degree max d key c flags = Some (out, Z.of_nat (nchunks d)) /\
    (nchunks d <= length out)%nat /\ zlen out <= degree /\ take (nchunks d) out = chunk_cvs c d.
Proof.
  intros Hd Hl Hc Hc'. unfold compress_chunks_parallel.
  pose proof (full_chunks_spec (length d) d c ltac:(lia)) as H.
  destruct (full_chunks (length d) d) as [chunks rest]. destruct H as (Hr & Hlen & Hall & Er & Hcv).
  assert (Hdeg : degree <= 16).
  { unfold degree. change 16 with (2 ^ 4). apply Z.pow_le_mono_r; lia. }
  set (m := length chunks) in *.
  destruct (Z.ltb_spec max (Z.of_nat m)); [lia|].
  destruct (padded_batch_spec degree (Z.of_nat m)) as (b & -> & Hb); [lia|lia|].
  destruct (Z.ltb_spec max b); [lia|].
  rewrite hash_many_chunks; cycle 1.
  { apply Forall_app. split; [done|]. apply Forall_replicate. apply length_replicate. }
  { done. }
  { rewrite length_app, length_replicate. fold m. lia. }
  rewrite imap_app, Hcv. set (out := cvs_n m c d ++ _).
  assert (Lo : length out = Z.to_nat b).
  { unfold out. rewrite length_app, length_cvs_n, length_imap, length_replicate. lia. }
  assert (To : take m out = cvs_n m c d) by (unfold out; by rewrite take_app_length' by (by rewrite length_cvs_n)).
  destruct (Z.ltb_spec 0 (zlen rest)).
  - assert (En : nchunks d = S m) by (apply nchunks_unique; lia).
    rewrite u64_small by (unfold is_u64; lia).
    change (ChunkState _ _ _ _ _ _) with (chunk_of key flags (c + Z.of_nat m) []).
    rewrite chunk_state_update_spec by (cbn [app]; lia). rewrite Nat2Z.id, chunk_cv_eq. cbn [app].
    eexists. rewrite En. split; [do 2 f_equal; lia|].
    assert (Lt : length (take m out) = m) by (rewrite To; apply length_cvs_n).
    split_and!.
    + rewrite length_app, Lt. cbn [length]. lia.
    + rewrite length_app, Lt. cbn [length]. rewrite length_drop. lia.
    + unfold chunk_cvs. rewrite En. replace (S m) with (m + 1)%nat by lia. rewrite cvs_n_add.
      rewrite take_app_ge by lia. rewrite Lt, To. replace (m + 1 - m)%nat with 1%nat by lia.
      f_equal. cbn [take cvs_n]. rewrite <- Er, (take_ge rest) by lia. done.
  - assert (En : nchunks d = m) by (apply nchunks_unique; lia). exists out. rewrite En.
    split_and!; [done|lia|lia|]. unfold chunk_cvs. by rewrite En.
Qed.

Lemma wide_out_tree c d out n :
  (0 < length d)%nat -> (nchunks d = 1%nat -> take n out = chunk_cvs c d) ->
  ((2 <= nchunks d)%nat -> (2 <= n)%nat /\ halves (take n out) = halves (chunk_cvs c d)) ->
  (n <= length out)%nat -> cv_tree (take n out) = cv_tree (chunk_cvs c d).
Proof.
  clear Hkey. intros Hd H1 H2 Hn. pose proof (nchunks_spec d Hd) as [? _].
  destruct (decide (nchunks d = 1%nat)); [by rewrite H1|].
  destruct H2 as [? E]; [lia|]. apply cv_tree_halves; [rewrite length_take; lia| |done].
  unfold chunk_cvs. rewrite length_cvs_n. lia.
Qed.

Lemma max2_spec : MAX_SIMD_DEGREE_OR_2 max = Z.max max 2.
Proof. unfold MAX_SIMD_DEGREE_OR_2. destruct (Z.ltb_spec 2 max); lia. Qed.

Lemma degree_cases : degree = 1 \/ 2 <= degree <= 16.
Proof.
  unfold degree. destruct j as [|k]; [by left|right]. rewrite Nat2Z.inj_succ, Z.pow_succ_r by lia.
  assert (0 < 2 ^ Z.of_nat k <= 2 ^ 3) by (split; [apply Z.pow_pos_nonneg; lia|apply Z.pow_le_mono_r; lia]). lia.
Qed.

Lemma wide_base c d :
  (0 < length d)%nat -> zlen d <= degree * 1024 -> 0 <= c -> c + 16 < 2 ^ 64 ->
  wide_out c d (compress_chunks_parallel degree max d key c flags).
Proof.
  intros Hd Hl Hc Hc'. pose proof degree_cases.
  destruct (chunks_parallel_spec c d) as (out & -> & Hn & Ho & Et); [done|done|done|lia|].
  pose proof (nchunks_spec d Hd) as [_ Hlen].
  exists out, (nchunks d). split_and!; try done.
  - rewrite Et. apply cvs_n_ok.
  - intros E. split_and!; [done|lia|by rewrite Et].
  - intros m Hm Hdm Hz. assert (2 ^ Z.of_nat m = degree) by lia.
    assert (1 < 2 ^ Z.of_nat m) by (apply Z.pow_gt_1; lia).
    enough (Z.of_nat (nchunks d) = degree) by lia.
    rewrite (nchunks_unique d (Z.to_nat degree)); lia.
Qed.

(** The combination of the two halves of a subtree. *)
Lemma wide_join c d ol nl or nr (D : nat) k :
  (2 <= nchunks d)%nat -> 
  let p := split_point (nchunks d) in
  let l := take (1024 * p) d in let r := drop (1024 * p) d in
  D = (2 ^ k)%nat -> (2 <= D)%nat -> Z.of_nat D = Z.max degree 2 -> nl = D -> (1 <= nr <= D)%nat ->
  (nl <= length ol)%nat -> (nr <= length or)%nat ->
  Forall cv_ok (take nl ol) -> Forall cv_ok (take nr or) ->
  cv_tree (take nl ol) = cv_tree (chunk_cvs c l) -> cv_tree (take nr or) = cv_tree (chunk_cvs (c + Z.of_nat p) r) ->
  exists out, compress_parents_parallel max (take nl ol ++ take nr or) key flags = Some out /\
    length out = ((D + nr + 1) / 2)%nat /\ Forall cv_ok out /\ halves out = halves (chunk_cvs c d).
Proof.
  intros Hn p l r ED HD EDeg -> Hnr Ll Lr Fl Fr Tl Tr.
  assert (L1 : length (take D ol) = D) by (rewrite length_take; lia).
  assert (L2 : length (take nr or) = nr) by (rewrite length_take; lia).
  exists (pairs (take D ol ++ take nr or)).
  assert (F : Forall cv_ok (take D ol ++ take nr or)) by (by apply Forall_app).
  split_and!.
  - apply parents_parallel_spec; [done|]. rewrite length_app, L1, L2, max2_spec. lia.
  - by rewrite length_pairs, length_app, L1, L2.
  - by apply pairs_ok.
  - rewrite halves_pairs by (rewrite length_app; lia).
    destruct (chunk_cvs_split c d Hn) as (_ & _ & _ & _ & _ & _ & ->).
    rewrite (halves_app k) by lia. unfold p, l, r in *. by rewrite Tl, Tr.
Qed.

(** The split point of an input that is too long for one batch. *)
Lemma wide_split d f : degree * 1024 < zlen d -> (nchunks d <= 2 ^ S f)%nat ->
  exists k, split_point (nchunks d) = (2 ^ k)%nat /\ (2 <= nchunks d)%nat /\
    degree <= 2 ^ Z.of_nat k /\ (k <= f)%nat /\ (2 ^ k <= 2 ^ f)%nat /\ (2 ^ k < nchunks d <= 2 * 2 ^ k)%nat.
Proof.
  intros Hd Hf. pose proof degree_cases.
  assert (H0 : (0 < length d)%nat) by lia. pose proof (nchunks_spec d H0) as [_ Hl].
  assert (Hn : degree < Z.of_nat (nchunks d)) by lia.
  destruct (split_point_power (nchunks d)) as [k Hk]. pose proof (split_point_spec (nchunks d)) as Hs.
  rewrite Hk in Hs. pose proof (pow_nat k) as P. exists k.
  assert (j <= k)%nat.
  { destruct (decide (j <= k)%nat); [done|]. exfalso.
    assert (2 ^ Z.of_nat (S k) <= degree) by (apply Z.pow_le_mono_r; lia).
    rewrite Nat2Z.inj_succ, Z.pow_succ_r in * by lia. lia. }
  assert (k <= f)%nat.
  { destruct (decide (k <= f)%nat); [done|]. exfalso.
    assert (2 ^ S f <= 2 ^ k)%nat by (apply Nat.pow_le_mono_r; lia). lia. }
  split_and!; try done; try lia.
  - apply Z.pow_le_mono_r; lia.
  - apply Nat.pow_le_mono_r; lia.
Qed.

(** One step of the recursion. *)
Lemma wide_rec wide f c d :
  (forall c d, (0 < length d)%nat -> (nchunks d <= 2 ^ f)%nat -> 0 <= c ->
     c + Z.of_nat (nchunks d) + 16 < 2 ^ 64 -> wide_out c d (wide d c)) ->
  (nchunks d <= 2 ^ S f)%nat -> 0 <= c -> c + Z.of_nat (nchunks d) + 16 < 2 ^ 64 -> degree * 1024 < zlen d ->
  wide_out c d (compress_subtree_split degree max wide d key c flags).
Proof.
  intros IH Hf Hc Hc' Hgt. unfold compress_subtree_split, BLAKE3_CHUNK_LEN.
  destruct (wide_split d f) as (k & Hk & Hn & Hdk & Hkf & Hkf' & Hs); [done|done|].
  pose proof degree_cases as Hdc. pose proof max2_spec as M2. pose proof (pow_nat k) as Pk.
  destruct (chunk_cvs_split c d Hn) as (Hl & Hr & Zl & Nl & Nr & Ec & Eh). rewrite left_len by done.
  pose proof (wide_join c d) as Hjoin. rewrite Hk in *.
  replace (Z.to_nat (1024 * Z.of_nat (2 ^ k))) with (1024 * 2 ^ k)%nat by lia.
  rewrite (Z.mul_comm 1024 (Z.of_nat (2 ^ k))), Z.div_mul, u64_small by (unfold is_u64; lia).
  set (l := take (1024 * 2 ^ k) d) in *. set (r := drop (1024 * 2 ^ k) d) in *.
  destruct (IH c l) as (ol & nl & -> & Lol & Fl & Hl1 & Hl2 & Hlp); [done|lia|done|lia|].
  destruct (IH (c + Z.of_nat (2 ^ k)) r) as (or & nr & -> & Lor & Fr & Hr1 & Hr2 & Hrp); [done|lia|lia|lia|].
  assert (Tl : cv_tree (take nl ol) = cv_tree (chunk_cvs c l)).
  { apply wide_out_tree; [done|intros E; by apply Hl1|intros E; destruct (Hl2 E) as (? & _ & ?); done|done]. }
  assert (Tr : cv_tree (take nr or) = cv_tree (chunk_cvs (c + Z.of_nat (2 ^ k)) r)).
  { apply wide_out_tree; [done|intros E; by apply Hr1|intros E; destruct (Hr2 E) as (? & _ & ?); done|done]. }
  assert (Hnr : (1 <= nr)%nat /\ zlen or <= Z.max degree 2).
  { destruct (decide (nchunks r = 1%nat)) as [E|]; [destruct (Hr1 E); lia|].
    destruct Hr2 as (? & ? & _); lia. }
  destruct k as [|k].
  - (* two chunks, one lane *)
    change (2 ^ 0)%nat with 1%nat in *. assert (degree = 1) as Ed by lia. rewrite Ed in *.
    destruct Hl1 as (-> & ? & Etl); [done|]. destruct Hr1 as (-> & ? & Etr); [lia|].
    change ((1024 <? Z.of_nat 1 * 1024) && (1 =? 1)) with false. cbv iota.
    destruct (buf_write_two (Z.to_nat (2 * MAX_SIMD_DEGREE_OR_2 max)) ol or 1 1)
      as (b1 & b2 & -> & E2 & E3); [lia..|]. change (Z.of_nat 1) with 1 in *. rewrite E2.
    cbn [Z.eqb Pos.eqb]. change (Z.of_nat (1 + 1)) with 2 in E3. rewrite E3, Etl, Etr.
    rewrite <- Ec.
    assert (Lc : length (chunk_cvs c d) = 2%nat) by (unfold chunk_cvs; rewrite length_cvs_n; lia).
    exists (chunk_cvs c d), 2%nat. rewrite take_ge by lia. split_and!; try done; try lia.
    + apply cvs_n_ok.
    + intros _. split_and!; (done || lia).
  - set (D := Z.to_nat (Z.max degree 2)). assert (ED : Z.of_nat D = Z.max degree 2) by lia.
    clearbody D. assert (nl = D) as ->.
    { apply Nat2Z.inj. rewrite ED. apply (Hlp (S k)); lia. }
    assert (ED2 : exists k', D = (2 ^ k')%nat).
    { destruct Hdc as [E|E]; [exists 1%nat|exists j]; apply Nat2Z.inj; rewrite ED, pow_nat; unfold degree in *; cbn; lia. }
    destruct ED2 as [k' ED2].
    destruct (Hjoin ol D or nr D k') as (out & Ep & Lo & Fo & Ho); try done; try lia.
    destruct (buf_write_two (Z.to_nat (2 * MAX_SIMD_DEGREE_OR_2 max)) ol or D nr)
      as (b1 & b2 & -> & E2 & E3); [|lia..|].
    { destruct (decide (nchunks l = 1%nat)) as [E|]; [rewrite Nl, Nat.pow_succ_r' in E; lia|].
      destruct Hl2 as (_ & ? & _); lia. }
    assert (Ed : (if (1024 <? Z.of_nat (2 ^ S k) * 1024) && (degree =? 1) then 2 else degree) = Z.of_nat D).
    { rewrite Nat.pow_succ_r'. destruct (Z.ltb_spec 1024 (Z.of_nat (2 * 2 ^ k) * 1024));
        [|pose proof (Nat.pow_nonzero 2 k); lia]. destruct (Z.eqb_spec degree 1); cbn [andb]; lia. }
    rewrite Ed, E2. destruct (Z.eqb_spec (Z.of_nat D) 1); [lia|].
    rewrite <- Nat2Z.inj_add, E3, Ep. exists out, (length out).
    pose proof (Nat.div_mod_eq (D + nr + 1) 2). pose proof (Nat.mod_upper_bound (D + nr + 1) 2).
    rewrite take_ge by lia. split_and!; try done; try lia.
    + intros _. split_and!; (done || lia).
    + intros m Hm Hdm Hz. enough (nr = D) by lia. apply Nat2Z.inj. rewrite ED.
      assert (En : Z.of_nat (nchunks d) = 2 ^ Z.of_nat m).
      { pose proof (nchunks_spec d) as [_ Hnd]; lia. }
      assert (Hm1 : 2 ^ Z.of_nat (S k) < 2 ^ Z.of_nat m) by lia.
      assert (Hm2 : 2 ^ Z.of_nat m <= 2 ^ Z.of_nat (S (S k))).
      { rewrite (Nat2Z.inj_succ (S k)), Z.pow_succ_r by lia. lia. }
      apply Z.pow_lt_mono_r_iff in Hm1; [|lia..]. apply Z.pow_le_mono_r_iff in Hm2; [|lia..].
      assert (m = S (S k)) as -> by lia. rewrite (Nat2Z.inj_succ (S k)), Z.pow_succ_r in Hz by lia.
      apply (Hrp (S k)); [lia|lia|]. unfold r. rewrite length_drop. lia.
Qed.

Lemma wide_spec f : forall c d,
  (0 < length d)%nat -> (nchunks d <= 2 ^ f)%nat -> 0 <= c -> c + Z.of_nat (nchunks d) + 16 < 2 ^ 64 ->
  wide_out c d (blake3_compress_subtree_wide degree max (S f) d key c flags).
Proof.
  induction f as [|f IH]; intros c d Hd Hf Hc Hc'.
  - pose proof degree_cases. pose proof (nchunks_spec d Hd). change (2 ^ 0)%nat with 1%nat in Hf.
    cbn [blake3_compress_subtree_wide]. unfold BLAKE3_CHUNK_LEN.
    destruct (Z.leb_spec (zlen d) (degree * 1024)); [apply wide_base; (done || lia)|lia].
  - remember (S f) as fuel eqn:Ef. cbn [blake3_compress_subtree_wide]. unfold BLAKE3_CHUNK_LEN.
    destruct (Z.leb_spec (zlen d) (degree * 1024)) as [Hle|Hgt]; [apply wide_base; (done || lia)|].
    subst fuel. by apply (wide_rec _ f).
Qed.

Context (Hmx : max = 1 \/ max = 4 \/ max = 16).

Lemma condense_spec fuel : forall b l,
  holds b l -> (2 <= length l)%nat -> zlen l <= MAX_SIMD_DEGREE_OR_2 max -> (length l < fuel + 2)%nat ->
  zlen b = MAX_SIMD_DEGREE_OR_2 max -> Forall cv_ok l ->
  exists b', condense max fuel b (zlen l) key flags = Some b' /\ holds b' [(halves l).1; (halves l).2].
Proof.
  pose proof max2_spec as M2.
  induction fuel as [|fuel IH]; intros b l Hh H2 Hl Hf Hb Hok; [lia|]. cbn [condense].
  destruct (Z.ltb_spec 2 (zlen l)).
  - rewrite (holds_read b l) by done. rewrite parents_parallel_spec by (done || lia).
    pose proof (length_pairs l) as Lp. pose proof (Nat.div_mod_eq (length l + 1) 2).
    pose proof (Nat.mod_upper_bound (length l + 1) 2).
    assert (Lp2 : 2 * zlen (pairs l) <= zlen l + 1) by lia.
    destruct (holds_write (replicate (Z.to_nat (MAX_SIMD_DEGREE_OR_2 max / 2)) None) [] (pairs l))
      as (b0 & E0 & _); [apply holds_nil| |].
    { cbn [length]. rewrite length_replicate, M2 in *.
      assert (Z.max max 2 = 2 * (Z.max max 2 / 2)) by (by destruct Hmx as [E|[E|E]]; rewrite E). lia. }
    cbn [length] in E0. change (Z.of_nat 0) with 0 in E0. rewrite E0.
    destruct (holds_write b [] (pairs l)) as (b1 & E1 & Hh1 & Lb1); [apply holds_nil|cbn [length]; lia|].
    cbn [length app] in E1, Hh1. change (Z.of_nat 0) with 0 in E1. rewrite E1.
    rewrite <- halves_pairs by lia. apply IH; try done; try lia. by apply pairs_ok.
  - exists b. split; [done|]. destruct l as [|x [|y [|z l]]]; cbn [length] in *; try lia.
    unfold halves. change (split_point (length [x; y])) with 1%nat. cbn [take drop fst snd]. by simp cv_tree.
Qed.

Lemma to_parent_node_spec c d :
  (2 <= nchunks d)%nat -> Z.of_nat (nchunks d) <= 2 ^ 63 -> 0 <= c -> c + Z.of_nat (nchunks d) + 16 < 2 ^ 64 ->
  compress_subtree_to_parent_node degree max d key c flags =
    Some [(halves (chunk_cvs c d)).1; (halves (chunk_cvs c d)).2].
Proof.
  intros Hn Hn' Hc Hc'. unfold compress_subtree_to_parent_node. pose proof max2_spec as M2.
  pose proof degree_cases as Hdc.
  assert (Hd : (0 < length d)%nat) by (destruct d; [cbn in Hn; lia|cbn; lia]).
  destruct (wide_spec 63 c d) as (out & n & -> & Ln & Hok & _ & Hh & _); [done| |done|done|].
  { apply Nat2Z.inj_le. by rewrite pow_nat. }
  destruct (Hh Hn) as (H2 & Lo & <-). clear Hh.
  destruct (holds_write (replicate (Z.to_nat (MAX_SIMD_DEGREE_OR_2 max)) None) [] out) as (b & Eb & Hb & Lb);
    [apply holds_nil|cbn [length]; rewrite length_replicate; lia|].
  cbn [length app] in Eb, Hb. change (Z.of_nat 0) with 0 in Eb. rewrite Eb.
  rewrite length_replicate in Lb. destruct (Z.ltb_spec (MAX_SIMD_DEGREE_OR_2 max) (Z.of_nat n)); [lia|].
  assert (Hb' : holds b (take n out)) by (rewrite <- (take_drop n out) in Hb; by eapply holds_app_1).
  assert (Lt : length (take n out) = n) by (rewrite length_take; lia).
  assert (Hcond : exists b', (if 2 <? MAX_SIMD_DEGREE_OR_2 max then condense max 64 b (Z.of_nat n) key flags
      else Some b) = Some b' /\ holds b' [(halves (take n out)).1; (halves (take n out)).2]).
  { destruct (Z.ltb_spec 2 (MAX_SIMD_DEGREE_OR_2 max)).
    - pose proof (condense_spec 64 b (take n out)) as Hcs. rewrite Lt in Hcs. apply Hcs; try done; lia.
    - exists b. split; [done|]. assert (n = 2%nat) as -> by lia.
      destruct (take 2 out) as [|x [|y [|z l]]] eqn:E; cbn [length] in *; try lia.
      unfold halves. change (split_point (length [x; y])) with 1%nat. cbn [take drop fst snd]. by simp cv_tree. }
  destruct Hcond as (b' & -> & Hb2). by rewrite (holds_read _ _ _ Hb2).
Qed.
End wide_proof.

(** * The hash as a tree *)

Definition root_output (d : list Z) : output_t :=
  if zlen d <=? 1024 then chunk_state_output (chunk_of key flags 0 d)
  else parent_output ((halves (chunk_cvs 0 d)).1 ++ (halves (chunk_cvs 0 d)).2) key flags.
End trees.

(** BLAKE3 with the default key: [out_len] bytes of the root of the tree whose
    leaves are the 1024-byte chunks of the input, every left subtree being as
    large a power of two of chunks as leaves something to the right. *)
Definition blake3 (d : list Z) (out_len : Z) : list Z := output_root_bytes (root_output IV 0 d) 0 out_len.

Lemma oneshot_spec j max d out_len :
  (j <= 4)%nat -> 2 ^ Z.of_nat j <= max -> (max = 1 \/ max = 4 \/ max = 16) -> zlen d < 2 ^ 63 ->
  blake3_hash_oneshot (2 ^ Z.of_nat j) max d out_len = Some (blake3 d out_len).
Proof.
  intros Hj Hm Hmx Hd. unfold blake3_hash_oneshot, blake3, root_output, BLAKE3_CHUNK_LEN.
  destruct (Z.leb_spec (zlen d) 1024).
  - change (chunk_state_init IV 0) with (chunk_of IV 0 0 []).
    by rewrite chunk_state_update_spec by (cbn [app]; lia).
  - pose proof (nchunks_spec d) as [_ Hn]; [lia|].
    rewrite to_parent_node_spec by (done || lia). cbn [mjoin list_join]. by rewrite app_nil_r.
Qed.
