(* ===== verification/Blake3Stream.v ===== *)
(** The incremental BLAKE3 hasher: its lazily merged stack of chaining values
    is the binary decomposition of the number of chunks absorbed, and updating
    with any pieces then finalizing gives the tree hash of the whole input. *)
From Equations Require Import Equations.
From S2P Require Import Prelude Buffer Blake3 Blake3Tree.

#[local] Opaque blake3_compress_in_place chunk_cv.

(** * Binary decompositions *)

(** The powers of two of [p], largest first, in units of [w]. *)
Fixpoint bin (p : positive) (w : nat) : list nat :=
  match p with
  | xH => [w]
  | xO p => bin p (2 * w)
  | xI p => bin p (2 * w) ++ [w]
  end.
Definition sizes_of (q : Z) (w : nat) : list nat := match q with Zpos p => bin p w | _ => [] end.

Lemma sizes_double q w : sizes_of (2 * q) w = sizes_of q (2 * w).
Proof. by destruct q. Qed.

Lemma sizes_odd q w : 0 <= q -> sizes_of (2 * q + 1) w = sizes_of q (2 * w) ++ [w].
Proof. by destruct q. Qed.

Lemma sizes_shift q k w : sizes_of (q * 2 ^ Z.of_nat k) w = sizes_of q (2 ^ k * w).
Proof.
  revert w. induction k as [|k IH]; intros w.
  - change (2 ^ Z.of_nat 0) with 1. change (2 ^ 0 * w)%nat with (1 * w)%nat. by rewrite Z.mul_1_r, Nat.mul_1_l.
  - rewrite Nat2Z.inj_succ, Z.pow_succ_r by lia.
    replace (q * (2 * 2 ^ Z.of_nat k)) with (2 * (q * 2 ^ Z.of_nat k)) by lia.
    by rewrite sizes_double, IH, Nat.pow_succ_r', Nat.mul_assoc, (Nat.mul_comm (2 ^ k) 2).
Qed.

Lemma popcnt_double q : popcnt (2 * q) = popcnt q.
Proof. by destruct q. Qed.

Lemma popcnt_odd q : 0 <= q -> popcnt (2 * q + 1) = popcnt q + 1.
Proof. destruct q as [|p|p]; [done|intros _|lia]. change (Z.of_nat (S (ones p)) = Z.of_nat (ones p) + 1). lia. Qed.

Lemma popcnt_shift q k : popcnt (q * 2 ^ Z.of_nat k) = popcnt q.
Proof.
  induction k as [|k IH]; [by rewrite Z.mul_1_r|]. rewrite Nat2Z.inj_succ, Z.pow_succ_r by lia.
  replace (q * (2 * 2 ^ Z.of_nat k)) with (2 * (q * 2 ^ Z.of_nat k)) by lia. by rewrite popcnt_double.
Qed.

Lemma parity q : 0 <= q -> (exists p, 0 <= p /\ q = 2 * p) \/ (exists p, 0 <= p /\ q = 2 * p + 1).
Proof.
  intros H. pose proof (Z.div_mod q 2). pose proof (Z.mod_pos_bound q 2). pose proof (Z.div_pos q 2).
  destruct (decide (q mod 2 = 0)); [left|right]; exists (q / 2); lia.
Qed.

Lemma length_sizes q w : zlen (sizes_of q w) = popcnt q.
Proof.
  destruct q as [|p|p]; [done| |done]. cbn [sizes_of popcnt]. f_equal. revert w.
  induction p as [p IH|p IH|]; intros w; cbn [bin ones]; [|done|done].
  rewrite length_app, IH. cbn. lia.
Qed.

Lemma popcnt_pos q : 0 < q -> 1 <= popcnt q.
Proof. destruct q as [|p|p]; [lia| |lia]. intros _. cbn [popcnt]. induction p; cbn [ones]; lia. Qed.

Lemma popcnt_nonneg q : 0 <= popcnt q.
Proof. destruct q; cbn; lia. Qed.

Lemma popcnt_succ q : 0 <= q -> popcnt (q + 1) <= popcnt q + 1.
Proof.
  destruct q as [|p|p]; [done| |lia]. intros _. induction p as [p IH|p _|]; [| |done].
  - replace (Z.pos p~1 + 1) with (2 * (Z.pos p + 1)) by lia. rewrite popcnt_double.
    replace (Z.pos p~1) with (2 * Z.pos p + 1) by lia. rewrite popcnt_odd by lia. lia.
  - replace (Z.pos p~0) with (2 * Z.pos p) by lia. rewrite popcnt_odd, popcnt_double by lia. lia.
Qed.

Lemma popcnt_bound q k : 0 <= q < 2 ^ Z.of_nat k -> popcnt q <= Z.of_nat k.
Proof.
  revert q. induction k as [|k IH]; intros q Hq.
  - change (2 ^ Z.of_nat 0) with 1 in Hq. assert (q = 0) as -> by lia. done.
  - rewrite Nat2Z.inj_succ, Z.pow_succ_r in Hq by lia.
    destruct (parity q) as [(p & ? & ->)|(p & ? & ->)]; [lia| |].
    + rewrite popcnt_double. specialize (IH p). lia.
    + rewrite popcnt_odd by lia. specialize (IH p). lia.
Qed.

(** Sizes that are powers of two, each one at least the rest plus [w]. *)
Fixpoint desc (w : nat) (l : list nat) : Prop :=
  match l with
  | [] => True
  | s :: r => (exists k, s = 2 ^ k)%nat /\ (sum_list r + w <= s)%nat /\ desc w r
  end.

Lemma desc_snoc w l : (exists k, w = 2 ^ k)%nat -> desc (2 * w) l -> desc w (l ++ [w]).
Proof.
  intros Hw. induction l as [|s l IH]; cbn [desc app].
  - intros _. split_and!; [done|cbn; lia|done].
  - intros (? & ? & ?). split_and!; [done| |by apply IH]. rewrite sum_list_with_app. cbn. lia.
Qed.

Lemma desc_mono w w' l : (w' <= w)%nat -> desc w l -> desc w' l.
Proof. intros Hw. induction l; cbn [desc]; [done|]. intros (? & ? & ?). split_and!; [done|lia|auto]. Qed.

Lemma sizes_desc q k : desc (2 ^ k) (sizes_of q (2 ^ k)).
Proof.
  destruct q as [|p|p]; cbn [sizes_of desc]; [done| |done]. revert k.
  induction p as [p IH|p IH|]; intros k; cbn [bin].
  - apply desc_snoc; [eauto|]. rewrite <- Nat.pow_succ_r'. apply IH.
  - apply (desc_mono (2 ^ S k)); [rewrite Nat.pow_succ_r'; lia|]. rewrite <- Nat.pow_succ_r'. apply IH.
  - split_and!; [eauto|cbn; lia|done].
Qed.

Lemma sizes_sum q w : 0 <= q -> Z.of_nat (sum_list (sizes_of q w)) = q * Z.of_nat w.
Proof.
  destruct q as [|p|p]; [done| |lia]. intros _. cbn [sizes_of]. revert w.
  induction p as [p IH|p IH|]; intros w; cbn [bin].
  - rewrite sum_list_with_app. specialize (IH (2 * w)%nat). cbn [sum_list_with]. unfold id at 2. lia.
  - rewrite IH. lia.
  - cbn [sum_list_with]. unfold id. lia.
Qed.

(** * The stack *)

Section stack.
Context (key : list Z) (flags : Z) (Hkey : length key = 8%nat).

(** One chaining value per group of consecutive chunks. *)
Definition segs (sizes : list nat) (full : list (list Z)) : list (list Z) :=
  cv_tree key flags <$> reshape sizes full.

Lemma reshape_app {A} (s1 s2 : list nat) (l : list A) :
  reshape (s1 ++ s2) l = reshape s1 l ++ reshape s2 (drop (sum_list s1) l).
Proof.
  revert l. induction s1 as [|s s1 IH]; intros l; [done|]. cbn [app reshape]. rewrite IH, drop_drop. done.
Qed.

Lemma segs_app s1 s2 full : segs (s1 ++ s2) full = segs s1 full ++ segs s2 (drop (sum_list s1) full).
Proof. unfold segs. by rewrite reshape_app, fmap_app. Qed.

Lemma length_segs sizes full : length (segs sizes full) = length sizes.
Proof. unfold segs. by rewrite length_fmap, length_reshape. Qed.

Lemma segs_more sizes full more : (sum_list sizes <= length full)%nat -> segs sizes (full ++ more) = segs sizes full.
Proof.
  unfold segs. revert full. induction sizes as [|s sizes IH]; intros full H; [done|].
  cbn [reshape sum_list_with] in *. unfold id at 1 in H. rewrite !fmap_cons, take_app_le by lia. f_equal.
  rewrite drop_app_le by lia. apply IH. rewrite length_drop. lia.
Qed.

Lemma tree_two (l r : list (list Z)) k : length l = (2 ^ k)%nat -> length r = (2 ^ k)%nat ->
  cv_tree key flags (l ++ r) = cv_parent key flags (cv_tree key flags l) (cv_tree key flags r).
Proof.
  intros Hl Hr. pose proof (Nat.pow_nonzero 2 k).
  rewrite cv_tree_step by (rewrite length_app; lia).
  pose proof (halves_app key flags k l r Hl ltac:(lia)) as E. unfold halves in E.
  by apply (f_equal (fun p => cv_parent key flags p.1 p.2)) in E.
Qed.

(** The hasher with its stack replaced. *)
Definition with_stack (chunk : blake3_chunk_state) (st : list (list Z)) : blake3_hasher := Hasher key chunk st.

Lemma h_stack_with chunk st : h_stack (with_stack chunk st) = st.
Proof. reflexivity. Qed.
Lemma h_chunk_with chunk st : h_chunk (with_stack chunk st) = chunk.
Proof. reflexivity. Qed.
Lemma set_chunk_with chunk chunk' st : set_chunk chunk' (with_stack chunk st) = with_stack chunk' st.
Proof. reflexivity. Qed.

Lemma merge_top chunk A full k :
  cs_flags chunk = flags -> (sum_list A + 2 * 2 ^ k <= length full)%nat ->
  let h := with_stack chunk (segs (A ++ [2 ^ k; 2 ^ k]%nat) full) in
  let n := length (h_stack h) in
  (2 <= n)%nat /\
  with_stack chunk (take (n - 2) (h_stack h) ++
    [output_chaining_value (parent_output (mjoin (drop (n - 2) (h_stack h))) key flags)]) =
  with_stack chunk (segs (A ++ [2 * 2 ^ k]%nat) full).
Proof.
  intros Hf Hl h n. unfold n, h, with_stack. cbn [h_stack]. rewrite !segs_app.
  set (rest := drop (sum_list A) full).
  assert (Lr : (2 * 2 ^ k <= length rest)%nat) by (unfold rest; rewrite length_drop; lia).
  rewrite length_app, !length_segs. cbn [length]. split; [lia|]. f_equal.
  replace (length A + 2 - 2)%nat with (length A) by lia.
  rewrite take_app_length', drop_app_length' by (by rewrite length_segs). f_equal.
  unfold segs. cbn [reshape fmap list_fmap mjoin list_join]. f_equal. rewrite app_nil_r.
  change (output_chaining_value _) with
    (cv_parent key flags (cv_tree key flags (take (2 ^ k) rest)) (cv_tree key flags (take (2 ^ k) (drop (2 ^ k) rest)))).
  rewrite <- (tree_two _ _ k) by (rewrite length_take, ?length_drop; lia). f_equal.
  rewrite <- (take_drop (2 ^ k) (take (2 * 2 ^ k) rest)). rewrite take_take, Nat.min_l by lia. f_equal.
  rewrite skipn_firstn_comm. f_equal. lia.
Qed.

Lemma merge_loop_spec fuel : forall q k chunk full,
  0 <= q -> cs_flags chunk = flags -> zlen full = (q + 1) * 2 ^ Z.of_nat k -> popcnt q < Z.of_nat fuel ->
  merge_loop fuel (with_stack chunk (segs (sizes_of q (2 ^ k) ++ [2 ^ k]%nat) full)) (popcnt (q + 1)) =
    Some (with_stack chunk (segs (sizes_of (q + 1) (2 ^ k)) full)).
Proof.
  induction fuel as [|fuel IH]; intros q k chunk full Hq Hf Hl Hfuel; [pose proof (popcnt_nonneg q); lia|].
  cbn [merge_loop]. cbn [with_stack h_stack]. fold (with_stack chunk).
  destruct (parity q Hq) as [(p & Hp & ->)|(p & Hp & ->)].
  - rewrite length_segs, length_app, popcnt_odd, sizes_double by done. cbn [length].
    pose proof (length_sizes p (2 * 2 ^ k)). destruct (Z.ltb_spec (popcnt p + 1)
      (Z.of_nat (length (sizes_of p (2 * 2 ^ k)) + 1))); [lia|]. by rewrite sizes_odd.
  - replace (2 * p + 1 + 1) with (2 * (p + 1)) in * by lia. rewrite popcnt_odd in Hfuel by done.
    rewrite popcnt_double, sizes_odd, <- app_assoc, sizes_double by done. cbn [app].
    pose proof (length_sizes p (2 * 2 ^ k)) as Ls. pose proof (popcnt_succ p Hp).
    pose proof (sizes_sum p (2 * 2 ^ k) Hp) as Ss. pose proof (pow_nat k) as Pk.
    destruct (merge_top chunk (sizes_of p (2 * 2 ^ k)) full k Hf) as [Hn E]; [nia|].
    cbn [with_stack h_stack] in Hn, E. rewrite length_segs, length_app in *. cbn [length] in *.
    destruct (Z.ltb_spec (popcnt (p + 1)) (Z.of_nat (length (sizes_of p (2 * 2 ^ k)) + 2))); [|lia].
    destruct (Nat.ltb_spec (length (sizes_of p (2 * 2 ^ k)) + 2) 2); [lia|].
    unfold with_stack in *. cbn [h_stack h_chunk h_key]. rewrite Hf, E.
    rewrite <- Nat.pow_succ_r'. apply IH; [done|done| |lia].
    rewrite Nat2Z.inj_succ, Z.pow_succ_r by lia. lia.
Qed.

(** The stack between pushes: nothing yet, or the decomposition of the chunks
    before the last group, and that group. *)
Definition lazy_sizes (c : Z) (sizes : list nat) : Prop :=
  (c = 0 /\ sizes = []) \/
  exists q k, 0 <= q /\ c = (q + 1) * 2 ^ Z.of_nat k /\ sizes = sizes_of q (2 ^ k) ++ [2 ^ k]%nat.

Lemma merge_spec c sizes chunk full :
  lazy_sizes c sizes -> cs_flags chunk = flags -> zlen full = c -> c < 2 ^ 54 ->
  hasher_merge_cv_stack (with_stack chunk (segs sizes full)) c =
    Some (with_stack chunk (segs (sizes_of c 1) full)).
Proof.
  intros [[-> ->]|(q & k & Hq & Ec & ->)] Hf Hl Hc; unfold hasher_merge_cv_stack; [done|].
  assert (0 < 2 ^ Z.of_nat k) by (apply Z.pow_pos_nonneg; lia).
  rewrite Ec, popcnt_shift, sizes_shift, Nat.mul_1_r. apply merge_loop_spec; [done|done|lia|].
  pose proof (popcnt_bound q 54). nia.
Qed.

(** A merged stack is a lazy one. *)
Lemma merged_lazy c : 0 <= c -> lazy_sizes c (sizes_of c 1).
Proof.
  intros Hc. destruct c as [|p|p]; [by left| |lia]. right. cbn [sizes_of].
  enough (H : forall i, exists q k, 0 <= q /\ Z.pos p * 2 ^ Z.of_nat i = (q + 1) * 2 ^ Z.of_nat k /\
    bin p (2 ^ i) = sizes_of q (2 ^ k) ++ [2 ^ k]%nat).
  { destruct (H 0%nat) as (q & k & ? & E & ?). exists q, k. split_and!; try done. by rewrite <- E, Z.mul_1_r. }
  clear Hc. induction p as [p IH|p IH|]; intros i; cbn [bin].
  - exists (2 * Z.pos p), i. split_and!; [lia|lia|]. by rewrite sizes_double.
  - destruct (IH (S i)) as (q & k & ? & E & Es). exists q, k. rewrite <- Nat.pow_succ_r'. split_and!; try done.
    rewrite <- E, Nat2Z.inj_succ, Z.pow_succ_r by lia. lia.
  - exists 0, i. split_and!; [done|lia|done].
Qed.

Lemma push_spec c sizes chunk full grp k :
  lazy_sizes c sizes -> cs_flags chunk = flags -> zlen full = c -> 0 <= c < 2 ^ 54 ->
  length grp = (2 ^ k)%nat -> (2 ^ Z.of_nat k | c) ->
  hasher_push_cv (with_stack chunk (segs sizes full)) (cv_tree key flags grp) c =
    Some (with_stack chunk (segs (sizes_of c 1 ++ [2 ^ k]%nat) (full ++ grp))) /\
  lazy_sizes (c + 2 ^ Z.of_nat k) (sizes_of c 1 ++ [2 ^ k]%nat).
Proof.
  intros Hs Hf Hl Hc Hg [q ->]. assert (0 < 2 ^ Z.of_nat k) by (apply Z.pow_pos_nonneg; lia).
  assert (0 <= q) by nia. split.
  - unfold hasher_push_cv. rewrite merge_spec by (done || lia). cbn [with_stack h_stack h_key h_chunk].
    rewrite length_segs, length_sizes. pose proof (popcnt_bound (q * 2 ^ Z.of_nat k) 54 ltac:(done)).
    unfold BLAKE3_MAX_DEPTH. destruct (Z.leb_spec (54 + 1) (popcnt (q * 2 ^ Z.of_nat k))); [lia|].
    unfold with_stack. do 2 f_equal. pose proof (sizes_sum (q * 2 ^ Z.of_nat k) 1 ltac:(lia)) as Ss.
    rewrite segs_app, segs_more by lia. f_equal. rewrite drop_app_length' by lia.
    unfold segs. cbn [reshape fmap list_fmap]. by rewrite take_ge by lia.
  - right. exists q, k. split_and!; [done|lia|]. by rewrite sizes_shift, Nat.mul_1_r.
Qed.

Lemma align_spec fuel K c :
  0 <= c -> 10 <= K -> K - 10 < Z.of_nat fuel ->
  exists k, align_subtree fuel (2 ^ K) (1024 * c) = Some (1024 * 2 ^ Z.of_nat k) /\
    (2 ^ Z.of_nat k | c) /\ Z.of_nat k + 10 <= K.
Proof.
  intros Hc. revert K. induction fuel as [|fuel IH]; intros K HK Hf; [lia|]. cbn [align_subtree].
  replace (2 ^ K - 1) with (Z.ones K) by (rewrite Z.ones_equiv; lia).
  rewrite Z.land_comm, Z.land_ones by lia.
  assert (P : 2 ^ K = 1024 * 2 ^ (K - 10)).
  { change 1024 with (2 ^ 10). rewrite <- Z.pow_add_r by lia. f_equal. lia. }
  assert (0 < 2 ^ (K - 10)) by (apply Z.pow_pos_nonneg; lia).
  destruct (Z.eqb_spec ((1024 * c) mod 2 ^ K) 0) as [E|E]; cbn [negb].
  - exists (Z.to_nat (K - 10)). rewrite Z2Nat.id by lia. split_and!; [by rewrite P| |lia].
    rewrite P, Z.mul_mod_distr_l in E by lia. apply Z.mod_divide; lia.
  - assert (K <> 10).
    { intros ->. apply E. rewrite P. change (2 ^ (10 - 10)) with 1. rewrite Z.mul_1_r.
      rewrite Z.mul_comm. apply Z.mod_mul. lia. }
    replace (2 ^ K / 2) with (2 ^ (K - 1)).
    + destruct (IH (K - 1)) as (k & Ek & ? & ?); [lia|lia|]. exists k. split_and!; [done|done|lia].
    + apply Z.div_unique with 0; [lia|]. rewrite <- (Z.pow_succ_r 2) by lia. rewrite Z.add_0_r. f_equal. lia.
Qed.

(** * Updates *)

(** The hasher after the full chunks [F], with no started chunk. *)
Definition mid (h : blake3_hasher) (F : list Z) (c : Z) (sizes : list nat) : Prop :=
  0 <= c /\ zlen F = 1024 * c /\ lazy_sizes c sizes /\
  h = with_stack (chunk_of key flags c []) (segs sizes (cvs_n key flags (Z.to_nat c) 0 F)).

(** The last group was pushed as two halves. *)
Definition paired (c : Z) (sizes : list nat) : Prop :=
  exists p k, 0 <= p /\ c = (p + 1) * 2 ^ Z.of_nat (S k) /\
    sizes = sizes_of p (2 ^ S k) ++ [2 ^ k; 2 ^ k]%nat.

Lemma cvs_grow F sub c t :
  0 <= c -> zlen F = 1024 * c ->
  cvs_n key flags (Z.to_nat (c + Z.of_nat t)) 0 (F ++ sub) =
    cvs_n key flags (Z.to_nat c) 0 F ++ cvs_n key flags t c sub.
Proof.
  intros Hc HF. replace (Z.to_nat (c + Z.of_nat t)) with (Z.to_nat c + t)%nat by lia.
  rewrite cvs_n_add. f_equal.
  - rewrite <- (cvs_n_take key flags (Z.to_nat c) 0 (F ++ sub) (length F)) by lia. by rewrite take_app_length.
  - rewrite Z2Nat.id by done. rewrite drop_app_length' by lia. done.
Qed.

Lemma set_counter_chunk c c' : set_counter c' (chunk_of key flags c []) = chunk_of key flags c' [].
Proof. reflexivity. Qed.

(** The hasher after the bytes [D]. *)
Definition stream (h : blake3_hasher) (D : list Z) : Prop :=
  exists F cur c sizes, D = F ++ cur /\ 0 <= c /\ zlen F = 1024 * c /\ (length cur <= 1024)%nat /\
    h = with_stack (chunk_of key flags c cur) (segs sizes (cvs_n key flags (Z.to_nat c) 0 F)) /\
    ((cur = [] /\ ((c = 0 /\ sizes = []) \/ paired c sizes)) \/ (cur <> [] /\ sizes = sizes_of c 1)).

Lemma paired_lazy c sizes : paired c sizes -> lazy_sizes c sizes.
Proof.
  intros (p & k & Hp & -> & ->). right. exists (2 * p + 1), k. split_and!; [lia| |].
  - rewrite Nat2Z.inj_succ, Z.pow_succ_r by lia. lia.
  - by rewrite sizes_odd, <- app_assoc, Nat.pow_succ_r'.
Qed.

Lemma chunk_len_spec c cur : chunk_state_len (chunk_of key flags c cur) = zlen cur.
Proof.
  unfold chunk_state_len, chunk_of, BLAKE3_BLOCK_LEN. cbn [chunk_state cs_blocks cs_buf_len].
  rewrite length_drop. destruct cur as [|x cur]; [done|]. pose proof (nblocks_spec (x :: cur) ltac:(cbn; lia)). lia.
Qed.

Section update.
Context (j : nat) (max : Z).
Context (Hj : (j <= 4)%nat) (Hm : 2 ^ Z.of_nat j <= max) (Hmx : max = 1 \/ max = 4 \/ max = 16).

(** A group of [2^k] chunks pushed by the update loop. *)
Definition pushed (F : list Z) (c : Z) (sub : list Z) (k : nat) (r : option blake3_hasher) : Prop :=
  exists h' sizes', r = Some h' /\
    mid (set_chunk (set_counter (c + 2 ^ Z.of_nat k) (h_chunk h')) h') (F ++ sub) (c + 2 ^ Z.of_nat k) sizes' /\
    ((0 < k)%nat -> paired (c + 2 ^ Z.of_nat k) sizes').

Lemma push_single h F c sizes sub :
  mid h F c sizes -> zlen sub = 1024 -> c + 1 < 2 ^ 54 ->
  pushed F c sub 0 (update_push (2 ^ Z.of_nat j) max h sub 1024).
Proof.
  intros (Hc & HF & Hs & ->) Hsub Hb. unfold update_push.
  cbn [with_stack h_chunk h_key]. change (cs_counter (chunk_of key flags c [])) with c.
  change (cs_flags (chunk_of key flags c [])) with flags. change (1024 <=? BLAKE3_CHUNK_LEN) with true. cbv iota.
  change (set_counter c (chunk_state_init key flags)) with (chunk_of key flags c []).
  rewrite chunk_state_update_spec by (cbn [app]; lia). cbn [app]. rewrite chunk_cv_eq.
  change (cs_counter (chunk_of key flags c sub)) with c.
  set (full := cvs_n key flags (Z.to_nat c) 0 F).
  assert (Lf : zlen full = c) by (unfold full; rewrite length_cvs_n; lia).
  assert (Eg : cv_tree key flags (cvs_n key flags 1 c sub) = chunk_cv key flags c sub).
  { cbn [cvs_n]. simp cv_tree. by rewrite take_ge by lia. }
  rewrite <- Eg. edestruct (push_spec c sizes (chunk_of key flags c []) full (cvs_n key flags 1 c sub) 0)
    as [-> Hls]; [done|done|done|lia|by rewrite length_cvs_n|apply Z.divide_1_l|].
  eexists _, _. split; [done|]. split; [|lia]. split_and!; [cbn; lia|rewrite length_app; cbn; lia|done|].
  cbn [set_chunk h_key h_chunk h_stack with_stack]. rewrite set_counter_chunk.
  change (2 ^ Z.of_nat 0) with (Z.of_nat 1). by rewrite cvs_grow.
Qed.

Lemma push_pair h F c sizes sub k :
  mid h F c sizes -> zlen sub = 1024 * 2 ^ Z.of_nat (S k) -> (2 ^ Z.of_nat (S k) | c) ->
  c + 2 ^ Z.of_nat (S k) < 2 ^ 54 ->
  pushed F c sub (S k) (update_push (2 ^ Z.of_nat j) max h sub (1024 * 2 ^ Z.of_nat (S k))).
Proof.
  intros (Hc & HF & Hs & ->) Hsub [q Eq] Hb. unfold update_push.
  cbn [with_stack h_chunk h_key]. change (cs_counter (chunk_of key flags c [])) with c.
  change (cs_flags (chunk_of key flags c [])) with flags. unfold BLAKE3_CHUNK_LEN.
  set (full := cvs_n key flags (Z.to_nat c) 0 F).
  assert (Lf : zlen full = c) by (unfold full; rewrite length_cvs_n; lia).
  rewrite (Z.mul_comm 1024), Z.div_mul by lia.
  rewrite Nat2Z.inj_succ, Z.pow_succ_r in * by lia. pose proof (pow_nat k) as Pk.
  assert (0 < 2 ^ Z.of_nat k) by (apply Z.pow_pos_nonneg; lia).
  destruct (Z.leb_spec (2 * 2 ^ Z.of_nat k * 1024) 1024); [lia|].
  assert (Hn : nchunks sub = (2 * 2 ^ k)%nat) by (apply nchunks_unique; lia).
  assert (Hsp : split_point (nchunks sub) = (2 ^ k)%nat) by (apply split_point_unique; lia).
  destruct (chunk_cvs_split key flags c sub) as (_ & _ & _ & N1 & N2 & Ec & Eh); [lia|].
  rewrite to_parent_node_spec by (done || lia). rewrite Hsp, Pk in *. rewrite Eh. cbn [fst snd].
  set (g1 := chunk_cvs key flags c (take _ sub)) in *. set (g2 := chunk_cvs key flags (c + _) _) in *.
  assert (L1 : length g1 = (2 ^ k)%nat) by (unfold g1, chunk_cvs; rewrite length_cvs_n; lia).
  assert (L2 : length g2 = (2 ^ k)%nat) by (unfold g2, chunk_cvs; rewrite length_cvs_n; lia).
  destruct (push_spec c sizes (chunk_of key flags c []) full g1 k) as [-> Hl1];
    [done|done|done|lia|done|exists (2 * q); lia|].
  rewrite (Z.mul_comm 2 (2 ^ Z.of_nat k)), Z.div_mul, u64_small by (unfold is_u64; lia).
  destruct (push_spec (c + 2 ^ Z.of_nat k) (sizes_of c 1 ++ [2 ^ k]%nat) (chunk_of key flags c []) (full ++ g1) g2 k)
    as [-> Hl2]; [done|done|rewrite length_app; lia|lia|done|exists (2 * q + 1); lia|].
  eexists _, _. split; [done|]. rewrite Nat2Z.inj_succ, Z.pow_succ_r by lia. split.
  - split_and!; [lia|rewrite length_app; lia|by replace (c + 2 * 2 ^ Z.of_nat k) with (c + 2 ^ Z.of_nat k + 2 ^ Z.of_nat k) by lia|].
    cbn [set_chunk h_key h_chunk h_stack with_stack]. rewrite set_counter_chunk. f_equal. f_equal.
    replace (2 * 2 ^ Z.of_nat k) with (Z.of_nat (2 * 2 ^ k)) by lia. rewrite cvs_grow by done.
    fold full. rewrite <- app_assoc. f_equal. rewrite <- Ec. unfold chunk_cvs. by rewrite Hn.
  - intros _. exists q, k. rewrite Nat2Z.inj_succ, Z.pow_succ_r by lia. split_and!; [nia|lia|].
    replace (c + 2 ^ Z.of_nat k) with ((2 * q + 1) * 2 ^ Z.of_nat k) by lia.
    rewrite sizes_shift, Nat.mul_1_r, sizes_odd, <- app_assoc, Nat.pow_succ_r' by nia. done.
Qed.

Lemma round_down_input n : 1024 < n < 2 ^ 63 ->
  exists K, round_down_to_power_of_2 n = 2 ^ K /\ 10 <= K < 63 /\ 2 ^ K <= n.
Proof.
  intros Hn. pose proof (Z.log2_spec n ltac:(lia)) as Hl. exists (Z.log2 n).
  assert (10 <= Z.log2 n) by (apply Z.log2_le_pow2; lia).
  assert (Z.log2 n < 63) by (apply Z.log2_lt_pow2; lia).
  split_and!; [|lia|lia|lia]. apply round_down_spec; [lia|]. by rewrite Z.add_1_r.
Qed.

Lemma update_subtrees_spec fuel : forall h F c sizes input,
  mid h F c sizes -> (0 < length input < fuel)%nat -> zlen F + zlen input < 2 ^ 63 ->
  exists h' F' c' sizes' input', update_subtrees (2 ^ Z.of_nat j) max fuel h input = Some (h', input') /\
    F ++ input = F' ++ input' /\ mid h' F' c' sizes' /\ (length input' <= 1024)%nat /\
    (input' = [] -> paired c' sizes').
Proof.
  induction fuel as [|fuel IH]; intros h F c sizes input Hmid Hi Hl; [lia|]. cbn [update_subtrees].
  unfold BLAKE3_CHUNK_LEN. destruct (Z.ltb_spec 1024 (zlen input)) as [Hgt|Hle].
  2:{ exists h, F, c, sizes, input. split_and!; try done; [lia|]. intros ->. cbn in *. lia. }
  pose proof Hmid as (Hc & HF & _ & Eh).
  assert (Ecnt : cs_counter (h_chunk h) = c) by (by rewrite Eh). rewrite Ecnt.
  destruct (round_down_input (zlen input)) as (K & -> & HK & Hle); [lia|].
  rewrite (Z.mul_comm c), u64_small by (unfold is_u64; lia).
  destruct (align_spec 65 K c) as (k & -> & Hdiv & Hk); [done|lia|lia|].
  assert (Hsz : 1024 * 2 ^ Z.of_nat k <= zlen input).
  { etrans; [|exact Hle]. change 1024 with (2 ^ 10). rewrite <- Z.pow_add_r by lia.
    apply Z.pow_le_mono_r; lia. }
  assert (0 < 2 ^ Z.of_nat k) by (apply Z.pow_pos_nonneg; lia).
  rewrite (Z.mul_comm 1024 (2 ^ Z.of_nat k)), Z.div_mul, (Z.mul_comm _ 1024) by lia.
  rewrite (u64_small (c + 2 ^ Z.of_nat k)) by (unfold is_u64; lia).
  set (m := Z.to_nat (1024 * 2 ^ Z.of_nat k)).
  assert (Ls : zlen (take m input) = 1024 * 2 ^ Z.of_nat k) by (rewrite length_take; lia).
  assert (Hp : pushed F c (take m input) k
    (update_push (2 ^ Z.of_nat j) max h (take m input) (1024 * 2 ^ Z.of_nat k))).
  { destruct k as [|k]; [eapply push_single|eapply push_pair]; try done; lia. }
  destruct Hp as (h' & sizes' & -> & Hmid' & Hpair).
  destruct (decide (length (drop m input) = 0%nat)) as [E|Hne].
  - apply length_zero_iff_nil in E. rewrite E. destruct fuel; [lia|]. cbn [update_subtrees].
    eexists _, _, _, _, []. split_and!; [done| |exact Hmid'|cbn; lia|].
    + rewrite app_nil_r, <- (take_drop m input) at 1. by rewrite E, app_nil_r.
    + intros _. apply Hpair. destruct k; [|lia]. exfalso.
      apply (f_equal length) in E. rewrite length_drop in E. unfold m in E. cbn in E. lia.
  - rewrite length_drop in Hne.
    destruct (IH _ _ _ _ (drop m input) Hmid') as (h2 & F' & c' & s' & i' & ? & EF & ?);
      [rewrite length_drop; lia|rewrite length_app, length_drop; lia|].
    exists h2, F', c', s', i'. split_and!; try tauto. rewrite <- EF, <- app_assoc. by rewrite take_drop.
Qed.

Lemma update_end h F c sizes input :
  mid h F c sizes -> (0 < length input)%nat -> zlen F + zlen input < 2 ^ 63 ->
  exists h', (let? (self, input) := update_subtrees (2 ^ Z.of_nat j) max (S (length input)) h input in
      if 0 <? zlen input then
        let? chunk := chunk_state_update (h_chunk self) input in
        hasher_merge_cv_stack (set_chunk chunk self) (cs_counter chunk)
      else Some self) = Some h' /\ stream h' (F ++ input).
Proof.
  intros Hmid Hi Hl. assert (HL := Hl). destruct (update_subtrees_spec (S (length input)) h F c sizes input Hmid)
    as (h' & F' & c' & s' & i' & -> & EF & (Hc' & HF' & Hs' & ->) & Hi' & Hp); [lia|done|].
  rewrite EF. assert (Ll : zlen F + zlen input = zlen F' + zlen i').
  { apply (f_equal length) in EF. rewrite !length_app in EF. lia. }
  destruct (Z.ltb_spec 0 (zlen i')).
  - rewrite h_chunk_with, chunk_state_update_spec, set_chunk_with by (cbn [app]; lia). cbn [app].
    change (cs_counter (chunk_of key flags c' i')) with c'. rewrite merge_spec; [|done|done|rewrite length_cvs_n; lia|lia].
    eexists. split; [done|]. exists F', i', c', (sizes_of c' 1). split_and!; try done.
    right. split; [|done]. intros ->. cbn in *. lia.
  - destruct i' as [|x i']; [|cbn in *; lia]. eexists. split; [done|].
    exists F', [], c', s'. split_and!; [done|done|done|cbn; lia|done|]. left. auto.
Qed.

Lemma update_spec h D input :
  stream h D -> zlen (D ++ input) < 2 ^ 63 ->
  exists h', blake3_hasher_update (2 ^ Z.of_nat j) max h input = Some h' /\ stream h' (D ++ input).
Proof.
  intros (F & cur & c & sizes & -> & Hc & HF & Hcur & -> & Hcase) Hl. unfold blake3_hasher_update.
  destruct (Z.eqb_spec (zlen input) 0) as [E|Hi].
  { destruct input; [|cbn in *; lia]. rewrite app_nil_r. eexists. split; [done|]. exists F, cur, c, sizes. eauto 10. }
  rewrite <- app_assoc, !length_app in *. rewrite h_chunk_with, chunk_len_spec.
  destruct Hcase as [[-> Hs]|[Hne ->]].
  - change (0 <? zlen []) with false. cbv iota. cbn [app]. apply (update_end _ F c sizes); [|lia|cbn in *; lia].
    split_and!; try done. destruct Hs as [?|?]; [by left|by apply paired_lazy].
  - destruct (Z.ltb_spec 0 (zlen cur)); [|destruct cur; [done|cbn [length] in *; lia]].
    unfold update_chunk. rewrite h_chunk_with, chunk_len_spec. unfold BLAKE3_CHUNK_LEN.
    set (t := Nat.min (1024 - length cur) (length input)).
    assert (Et : (if zlen input <? 1024 - zlen cur then zlen input else 1024 - zlen cur) = Z.of_nat t)
      by (unfold t; cases_bool; lia).
    rewrite Et, Nat2Z.id.
    assert (Lt : length (take t input) = t) by (rewrite length_take; lia).
    rewrite chunk_state_update_spec, set_chunk_with, h_chunk_with by (rewrite length_app; lia).
    destruct (Z.ltb_spec 0 (zlen (drop t input))) as [Hm'|Hm']; rewrite length_drop in Hm'.
    + rewrite chunk_cv_eq. set (ch := cur ++ take t input).
      assert (Lc : length ch = 1024%nat) by (unfold ch; rewrite length_app; lia).
      change (cs_counter (chunk_of key flags c ch)) with c.
      assert (Eg : cv_tree key flags (cvs_n key flags 1 c ch) = chunk_cv key flags c ch).
      { cbn [cvs_n]. simp cv_tree. by rewrite take_ge by lia. }
      rewrite <- Eg. edestruct (push_spec c (sizes_of c 1) (chunk_of key flags c ch)) with (k := 0%nat)
        as [-> Hls]; [by apply merged_lazy|done| |lia|by rewrite length_cvs_n|apply Z.divide_1_l|].
      { rewrite length_cvs_n. lia. }
      rewrite set_chunk_with, h_chunk_with. change (cs_counter (chunk_of key flags c ch)) with c.
      change (h_key (with_stack _ _)) with key. rewrite u64_small by (unfold is_u64; lia).
      change (chunk_state_reset _ key (c + 1)) with (chunk_of key flags (c + 1) []).
      assert (ED : F ++ cur ++ input = (F ++ ch) ++ drop t input).
      { unfold ch. by rewrite <- !app_assoc, take_drop. }
      rewrite ED. eapply (update_end _ (F ++ ch) (c + 1)); [|rewrite length_drop; lia|rewrite length_app, length_drop; lia].
      split_and!; [lia|rewrite length_app; lia|exact Hls|].
      change (c + 1) with (c + Z.of_nat 1). by rewrite cvs_grow.
    + rewrite (take_ge input t) by lia. eexists. split; [done|].
      exists F, (cur ++ input), c, (sizes_of c 1). split_and!; try done; [rewrite length_app; lia|].
      right. split; [|done]. by destruct cur.
Qed.
End update.

(** * Finalization *)

Lemma finalize_loop_spec sizes : forall w full rest o,
  desc w sizes -> sum_list sizes = length full -> (0 < length rest <= w)%nat ->
  output_chaining_value o = cv_tree key flags rest ->
  let r := finalize_loop (segs sizes full) key flags o in
  output_chaining_value r = cv_tree key flags (full ++ rest) /\
  r = match sizes with
      | [] => o
      | _ => parent_output ((halves key flags (full ++ rest)).1 ++ (halves key flags (full ++ rest)).2) key flags
      end.
Proof.
  induction sizes as [|s sizes IH]; intros w full rest o Hd Hl Hr Ho.
  - destruct full; [done|cbn in Hl; lia].
  - destruct Hd as ((k & ->) & Hs & Hd). cbn [sum_list_with] in Hl. unfold id at 1 in Hl.
    destruct (IH w (drop (2 ^ k) full) rest o) as [Hcv _]; [done|rewrite length_drop; lia|done|done|].
    unfold segs. cbn [reshape fmap list_fmap finalize_loop]. fold (segs sizes (drop (2 ^ k) full)).
    cbn zeta in Hcv. rewrite Hcv.
    assert (Lt : length (take (2 ^ k) full) = (2 ^ k)%nat) by (rewrite length_take; lia).
    assert (Ef : full ++ rest = take (2 ^ k) full ++ (drop (2 ^ k) full ++ rest)) by (by rewrite app_assoc, take_drop).
    assert (Hh : halves key flags (full ++ rest) = (cv_tree key flags (take (2 ^ k) full),
      cv_tree key flags (drop (2 ^ k) full ++ rest))).
    { rewrite Ef. apply (halves_app key flags k); [done|]. rewrite length_app, length_drop. lia. }
    split; [|by rewrite Hh]. rewrite (cv_tree_step _ _ (full ++ rest)) by (rewrite length_app; lia).
    symmetry. exact (f_equal (fun p => cv_parent key flags p.1 p.2) Hh).
Qed.

Lemma sizes_nil c : 0 <= c -> sizes_of c 1 = [] -> c = 0.
Proof.
  intros Hc E. pose proof (length_sizes c 1) as L. rewrite E in L. pose proof (popcnt_pos c).
  destruct (decide (c = 0)); [done|]. cbn in L. lia.
Qed.

(** A started chunk on a merged stack. *)
Lemma finalize_chunk F cur c out_len :
  0 <= c -> zlen F = 1024 * c -> (0 < length cur <= 1024)%nat ->
  blake3_hasher_finalize (with_stack (chunk_of key flags c cur)
    (segs (sizes_of c 1) (cvs_n key flags (Z.to_nat c) 0 F))) out_len =
    Some (output_root_bytes (root_output key flags (F ++ cur)) 0 out_len).
Proof.
  intros Hc HF Hcur. unfold blake3_hasher_finalize, blake3_hasher_finalize_seek.
  destruct (Z.eqb_spec out_len 0) as [->|]; [done|]. set (full := cvs_n key flags (Z.to_nat c) 0 F).
  assert (Lf : zlen full = c) by (unfold full; rewrite length_cvs_n; lia).
  rewrite h_stack_with, h_chunk_with, length_segs, chunk_len_spec. unfold root_output. rewrite length_app.
  destruct (Z.eqb_spec (zlen (sizes_of c 1)) 0) as [E|E].
  - assert (c = 0) as -> by (apply sizes_nil; [done|]; destruct (sizes_of c 1); [done|cbn in E; lia]).
    destruct F; [|cbn in HF; lia]. cbn [app length]. destruct (Z.leb_spec (Z.of_nat (0 + length cur)) 1024); [done|lia].
  - assert (c <> 0) by (intros ->; done). destruct (Z.ltb_spec 0 (zlen cur)); [|lia].
    change (h_key (with_stack _ _)) with key. change (cs_flags (chunk_of key flags c cur)) with flags.
    destruct (Z.leb_spec (Z.of_nat (length F + length cur)) 1024); [lia|].
    destruct (finalize_loop_spec (sizes_of c 1) 1 full [chunk_cv key flags c cur]
      (chunk_state_output (chunk_of key flags c cur))) as [_ Hr].
    + apply (sizes_desc c 0).
    + pose proof (sizes_sum c 1 Hc). lia.
    + cbn; lia.
    + rewrite chunk_cv_eq. by simp cv_tree.
    + cbn zeta in Hr. rewrite Hr. destruct (sizes_of c 1) eqn:Es; [done|].
      assert (Ec : full ++ [chunk_cv key flags c cur] = chunk_cvs key flags 0 (F ++ cur)); [|by rewrite Ec].
      unfold chunk_cvs. rewrite (nchunks_unique (F ++ cur) (Z.to_nat (c + Z.of_nat 1))) by (rewrite length_app; lia).
      rewrite cvs_grow by done. cbn [cvs_n]. by rewrite (take_ge cur) by lia.
Qed.

(** No started chunk, the last group on the stack as two halves. *)
Lemma finalize_pair F c sizes out_len :
  0 <= c -> zlen F = 1024 * c -> paired c sizes ->
  blake3_hasher_finalize (with_stack (chunk_of key flags c [])
    (segs sizes (cvs_n key flags (Z.to_nat c) 0 F))) out_len =
    Some (output_root_bytes (root_output key flags F) 0 out_len).
Proof.
  intros Hc HF (p & k & Hp & Ec & ->). unfold blake3_hasher_finalize, blake3_hasher_finalize_seek.
  destruct (Z.eqb_spec out_len 0) as [->|]; [done|]. set (full := cvs_n key flags (Z.to_nat c) 0 F).
  assert (Lf : zlen full = c) by (unfold full; rewrite length_cvs_n; lia).
  rewrite Nat2Z.inj_succ, Z.pow_succ_r in Ec by lia. pose proof (pow_nat k) as Pk.
  assert (0 < 2 ^ Z.of_nat k) by (apply Z.pow_pos_nonneg; lia).
  set (A := sizes_of p (2 ^ S k)). pose proof (sizes_sum p (2 ^ S k) Hp) as Ss. fold A in Ss.
  rewrite Nat.pow_succ_r' in Ss.
  rewrite h_stack_with, h_chunk_with, chunk_len_spec, segs_app.
  set (rest := drop (sum_list A) full).
  assert (Lr : length rest = (2 * 2 ^ k)%nat) by (unfold rest; rewrite length_drop; nia).
  rewrite length_app, !length_segs. cbn [length].
  destruct (Z.eqb_spec (Z.of_nat (length A + 2)) 0); [lia|]. change (0 <? Z.of_nat 0) with false. cbv iota.
  destruct (Nat.ltb_spec (length A + 2) 2); [lia|]. replace (length A + 2 - 2)%nat with (length A) by lia.
  rewrite take_app_length', drop_app_length' by (by rewrite length_segs).
  change (h_key (with_stack _ _)) with key. change (cs_flags (chunk_of key flags c [])) with flags.
  set (l := take (2 ^ k) rest). set (r := drop (2 ^ k) rest).
  assert (Ll : length l = (2 ^ k)%nat) by (unfold l; rewrite length_take; lia).
  assert (Lrr : length r = (2 ^ k)%nat) by (unfold r; rewrite length_drop; lia).
  assert (Es : mjoin (segs [2 ^ k; 2 ^ k]%nat rest) = cv_tree key flags l ++ cv_tree key flags r).
  { unfold segs. cbn [reshape fmap list_fmap mjoin list_join]. fold l r. rewrite app_nil_r.
    by rewrite (take_ge r) by lia. }
  rewrite Es. assert (El : rest = l ++ r) by (unfold l, r; by rewrite take_drop).
  destruct (finalize_loop_spec A (2 ^ S k) (take (sum_list A) full) rest
    (parent_output (cv_tree key flags l ++ cv_tree key flags r) key flags)) as [_ Hr].
  - apply sizes_desc.
  - rewrite length_take. nia.
  - rewrite Nat.pow_succ_r'. lia.
  - rewrite El, (tree_two l r k) by done. done.
  - assert (Efr : take (sum_list A) full ++ rest = full) by (unfold rest; apply take_drop).
    cbn zeta in Hr. rewrite Efr in Hr.
    assert (segs A (take (sum_list A) full) = segs A full) as Et.
    { rewrite <- Efr at 2. rewrite segs_more; [done|]. rewrite length_take. nia. }
    rewrite Et in Hr. rewrite Hr. unfold root_output. destruct (Z.leb_spec (zlen F) 1024); [nia|].
    assert (Efull : chunk_cvs key flags 0 F = full).
    { unfold chunk_cvs. rewrite (nchunks_unique F (Z.to_nat c)) by lia. done. }
    rewrite Efull. clear Hr Et Es. destruct A as [|a A']; [|done]. do 2 f_equal.
    change (full = l ++ r) in El. rewrite El, (halves_app key flags k) by (done || lia). done.
Qed.

Lemma finalize_spec h D out_len :
  stream h D -> blake3_hasher_finalize h out_len = Some (output_root_bytes (root_output key flags D) 0 out_len).
Proof.
  intros (F & cur & c & sizes & -> & Hc & HF & Hcur & -> & [[-> [[-> ->]|Hp]]|[Hne ->]]).
  - destruct F; [|cbn in HF; lia]. unfold blake3_hasher_finalize, blake3_hasher_finalize_seek.
    by destruct (Z.eqb_spec out_len 0) as [->|].
  - rewrite app_nil_r. by apply finalize_pair.
  - apply finalize_chunk; [done|done|]. destruct cur; [done|]. cbn [length] in *. lia.
Qed.
End stack.

(** Absorbing the pieces of an input one after the other. *)
Fixpoint hasher_updates (degree max : Z) (h : blake3_hasher) (pieces : list (list Z)) : option blake3_hasher :=
  match pieces with
  | [] => Some h
  | p :: pieces => let? h := blake3_hasher_update degree max h p in hasher_updates degree max h pieces
  end.

Lemma updates_spec j max h D pieces :
  (j <= 4)%nat -> 2 ^ Z.of_nat j <= max -> (max = 1 \/ max = 4 \/ max = 16) ->
  stream IV 0 h D -> zlen (D ++ mjoin pieces) < 2 ^ 63 ->
  exists h', hasher_updates (2 ^ Z.of_nat j) max h pieces = Some h' /\ stream IV 0 h' (D ++ mjoin pieces).
Proof.
  intros Hj Hm Hmx. revert h D. induction pieces as [|p pieces IH]; intros h D Hs Hl.
  - exists h. by rewrite app_nil_r.
  - change (mjoin (p :: pieces)) with (p ++ mjoin pieces) in *. rewrite app_assoc in *. cbn [hasher_updates].
    destruct (update_spec IV 0 eq_refl j max Hj Hm Hmx h D p Hs) as (h1 & -> & Hs1);
      [rewrite !length_app in *; lia|]. by apply IH.
Qed.

Lemma init_stream : stream IV 0 blake3_hasher_init [].
Proof. exists [], [], 0, []. split_and!; try done; [cbn; lia|]. left. auto. Qed.

(** * Properties *)

(** Blake3_hash_oneshot computes the BLAKE3 tree hash, for every SIMD degree
    a backend may have and every input below 2^63 bytes, with no store outside
    its arrays and no read of an uninitialised chaining value; and the
    incremental hasher, fed the same bytes in any pieces, gives the same
    result. *)
Theorem blake3_oneshot_stream (j : nat) (max : Z) (pieces : list (list Z)) (out_len : Z)
    (Hj : (j <= 4)%nat) (Hmax : 2 ^ Z.of_nat j <= max) (Hmx : max = 1 \/ max = 4 \/ max = 16)
    (Hlen : zlen (mjoin pieces) < 2 ^ 63) :
  blake3_hash_oneshot (2 ^ Z.of_nat j) max (mjoin pieces) out_len = Some (blake3 (mjoin pieces) out_len) /\
  exists h, hasher_updates (2 ^ Z.of_nat j) max blake3_hasher_init pieces = Some h /\
    blake3_hasher_finalize h out_len = Some (blake3 (mjoin pieces) out_len).
Proof.
  split; [by apply oneshot_spec|].
  destruct (updates_spec j max blake3_hasher_init [] pieces) as (h & E & Hs); try done; [apply init_stream|].
  exists h. split; [done|]. by apply finalize_spec.
Qed.

Lemma blake3_oneshot_stream_witness :
  blake3_hash_oneshot 4 16 [97; 98; 99] 32 = Some (blake3 [97; 98; 99] 32) /\
  exists h, hasher_updates 4 16 blake3_hasher_init [[97]; [98; 99]] = Some h /\
    blake3_hasher_finalize h 32 = Some (blake3 [97; 98; 99] 32).
Proof.
  apply (blake3_oneshot_stream 2 16 [[97]; [98; 99]] 32); [lia|done|auto|done].
Defined.

(** The published test vectors for the empty input and for 1025 bytes. *)
Example blake3_empty_vector :
  blake3_hash_oneshot 1 1 [] 32 =
    Some [0xaf; 0x13; 0x49; 0xb9; 0xf5; 0xf9; 0xa1; 0xa6; 0xa0; 0x40; 0x4d; 0xea; 0x36; 0xdc; 0xc9; 0x49;
          0x9b; 0xcb; 0x25; 0xc9; 0xad; 0xc1; 0x12; 0xb7; 0xcc; 0x9a; 0x93; 0xca; 0xe4; 0x1f; 0x32; 0x62].
Proof. vm_compute. reflexivity. Qed.

Example blake3_1025_vector :
  blake3_hash_oneshot 1 16 ((fun i => Z.of_nat (i mod 251)) <$> seq 0 1025) 20 =
    Some [0xd0; 0x02; 0x78; 0xae; 0x47; 0xeb; 0x27; 0xb3; 0x4f; 0xae; 0xcf; 0x67; 0xb4; 0xfe; 0x26; 0x3f;
          0x82; 0xd5; 0x41; 0x29].
Proof. vm_compute. reflexivity. Qed.
