(* ===== verification/HashSet.v ===== *)
(** prolly_hashset.c: the open-addressing set of chunk hashes used by the chunk
    walks (garbage collection, remote transfer, ancestor search).  The model
    keeps the slot arrays and the linear probing; the theorems show that it
    implements a finite set ([gset]) for every allocator behaviour. *)
From S2P Require Import Prelude Encoding.

Definition PROLLY_HASH_SIZE : Z := 20.

(** A ProllyHash: 20 bytes. *)
Definition hash_wf (h : list Z) : Prop := bytes_wf h /\ length h = 20%nat.

(** [aSlots] is uninitialised ([None]) where [aUsed] has never been set. *)
Record ProllyHashSet := HashSet {
  aSlots : list (option (list Z));
  aUsed : list bool;
  nSlots : Z;
  nUsed : Z }.

Section hashset.
(** sqlite3_malloc64: whether a request of so many bytes is granted. *)
Variable malloc_ok : Z -> bool.

Definition prollyHashSetSlotIndex (h : list Z) (nSlots : Z) : option Z :=
  if (0 <? nSlots) && (Z.land nSlots (nSlots - 1) =? 0) then
    let? v := PROLLY_GET_U32 h in
    Some (Z.land v (nSlots - 1))
  else None.

(** [while( n < want ) n *= 2;] *)
Fixpoint grow_to (fuel : nat) (n want : Z) : option Z :=
  match fuel with
  | O => None
  | S fuel => if n <? want then grow_to fuel (n * 2) want else Some n
  end.

Definition hs_alloc (n : Z) : result ProllyHashSet :=
  if INT_MAX / PROLLY_HASH_SIZE <? n then ERR SQLITE_NOMEM
  else if negb (malloc_ok (n * PROLLY_HASH_SIZE)) || negb (malloc_ok n) then ERR SQLITE_NOMEM
  else OK (HashSet (replicate (Z.to_nat n) None) (replicate (Z.to_nat n) false) n 0).

Definition prollyHashSetInit (nCapacity : Z) : C ProllyHashSet :=
  if nCapacity <? 0 then ub
  else
    let? n := grow_to 64 256 (nCapacity * 2) in
    Some (hs_alloc n).

Definition prollyHashSetFree (hs : ProllyHashSet) : ProllyHashSet := HashSet [] [] 0 0.

(** The slot of probe [i], and what is stored there. *)
Definition probe_slot (idx i nSlots : Z) : Z := Z.land (u32 (idx + i)) (nSlots - 1).

Fixpoint contains_loop (fuel : nat) (hs : ProllyHashSet) (h : list Z) (idx i : Z) : option bool :=
  match fuel with
  | O => Some false
  | S fuel =>
      let slot := Z.to_nat (probe_slot idx i (nSlots hs)) in
      let? used := aUsed hs !! slot in
      if negb used then Some false
      else
        let? d := mjoin (aSlots hs !! slot) in
        let? c := memcmp d h PROLLY_HASH_SIZE in
        if c =? 0 then Some true else contains_loop fuel hs h idx (i + 1)
  end.

(** The assertions at the entry of Contains and Add. *)
Definition hs_asserts (hs : ProllyHashSet) : bool :=
  (0 <? nSlots hs) && (0 <=? nUsed hs) && (nUsed hs <=? nSlots hs).

Definition prollyHashSetContains (hs : ProllyHashSet) (h : list Z) : option bool :=
  if negb (hs_asserts hs) then None else
  let? idx := prollyHashSetSlotIndex h (nSlots hs) in
  contains_loop (Z.to_nat (nSlots hs)) hs h idx 0.

(** The probing loop of prollyHashSetAdd, after the growth check. *)
Fixpoint add_loop (fuel : nat) (hs : ProllyHashSet) (h : list Z) (idx i : Z)
    : option (Z * ProllyHashSet) :=
  match fuel with
  | O => Some (SQLITE_FULL, hs)
  | S fuel =>
      let slot := Z.to_nat (probe_slot idx i (nSlots hs)) in
      let? used := aUsed hs !! slot in
      if negb used then
        Some (SQLITE_OK,
              HashSet (<[slot := Some (take 20 h)]> (aSlots hs)) (<[slot := true]> (aUsed hs))
                      (nSlots hs) (nUsed hs + 1))
      else
        let? d := mjoin (aSlots hs !! slot) in
        let? c := memcmp d h PROLLY_HASH_SIZE in
        if c =? 0 then Some (SQLITE_OK, hs) else add_loop fuel hs h idx (i + 1)
  end.

(** prollyHashSetGrow's re-insertion loop, over any [add]. *)
Fixpoint grow_loop (add : ProllyHashSet -> list Z -> option (Z * ProllyHashSet))
    (slots : list (option (list Z))) (used : list bool) (newHs : ProllyHashSet)
    : option (Z * ProllyHashSet) :=
  match slots, used with
  | [], [] => Some (SQLITE_OK, newHs)
  | d :: slots, u :: used =>
      if u : bool then
        let? d := d in
        let? (rc, newHs) := add newHs d in
        if negb (rc =? SQLITE_OK) then Some (rc, newHs)
        else grow_loop add slots used newHs
      else grow_loop add slots used newHs
  | _, _ => None
  end.

Definition prollyHashSetGrow (add : ProllyHashSet -> list Z -> option (Z * ProllyHashSet))
    (hs : ProllyHashSet) : option (Z * ProllyHashSet) :=
  match hs_alloc (nSlots hs * 2) with
  | ERR rc => Some (rc, hs)
  | OK newHs =>
      let? (rc, newHs) := grow_loop add (aSlots hs) (aUsed hs) newHs in
      if negb (rc =? SQLITE_OK) then Some (rc, hs) else Some (SQLITE_OK, newHs)
  end.

(** prollyHashSetAdd and prollyHashSetGrow call each other; [depth] bounds the
    nesting.  A grown table is at most a quarter full, so the nested calls
    never grow again and a depth of 2 is enough ([hs_add_depth]). *)
Fixpoint hs_add (depth : nat) (hs : ProllyHashSet) (h : list Z) : option (Z * ProllyHashSet) :=
  match depth with
  | O => None
  | S depth =>
      if negb (hs_asserts hs) then None else
      let? (rc, hs) :=
        (if nSlots hs / 2 <=? nUsed hs then prollyHashSetGrow (hs_add depth) hs
         else Some (SQLITE_OK, hs)) in
      if negb (rc =? SQLITE_OK) then Some (rc, hs)
      else
        let? idx := prollyHashSetSlotIndex h (nSlots hs) in
        add_loop (Z.to_nat (nSlots hs)) hs h idx 0
  end.

Definition prollyHashSetAdd (hs : ProllyHashSet) (h : list Z) : option (Z * ProllyHashSet) :=
  hs_add 2 hs h.


(** * The set a table stores *)

Definition slot_val (hs : ProllyHashSet) (s : nat) : option (list Z) :=
  match aUsed hs !! s with Some true => mjoin (aSlots hs !! s) | _ => None end.

Definition hs_elems (hs : ProllyHashSet) : gset (list Z) :=
  list_to_set (omap (slot_val hs) (seq 0 (length (aUsed hs)))).

Lemma elem_of_hs_elems hs h : h ∈ hs_elems hs <-> exists s, slot_val hs s = Some h.
Proof.
  unfold hs_elems. rewrite elem_of_list_to_set, list_elem_of_omap. split.
  - intros (s & _ & E). eauto.
  - intros (s & E). exists s. split; [|done]. apply elem_of_seq. split; [lia|].
    unfold slot_val in E. destruct (aUsed hs !! s) eqn:Eu; [|done].
    apply lookup_lt_Some in Eu. lia.
Qed.

Fixpoint count_true (l : list bool) : Z :=
  match l with [] => 0 | b :: l => (if b then 1 else 0) + count_true l end.

Lemma count_true_nonneg l : 0 <= count_true l.
Proof. induction l as [|[] l IH]; simpl; lia. Qed.

Lemma count_true_bound l : 0 <= count_true l <= zlen l.
Proof. induction l as [|[] l IH]; simpl; lia. Qed.

Lemma count_true_replicate n : count_true (replicate n false) = 0.
Proof. induction n; simpl; lia. Qed.

Lemma count_true_insert l s :
  l !! s = Some false -> count_true (<[s := true]> l) = count_true l + 1.
Proof.
  revert s. induction l as [|b l IH]; intros [|s] H; simplify_eq/=; [lia|].
  rewrite IH by done. lia.
Qed.

Lemma count_true_lt l : count_true l < zlen l -> exists s, l !! s = Some false.
Proof.
  induction l as [|[] l IH]; simpl; intros H; [lia| |by exists 0%nat].
  destruct IH as [s Hs]; [lia|]. by exists (S s).
Qed.

(** The home slot of a hash and its [i]-th probe in a table of [n] slots. *)
Definition home (h : list Z) (n : Z) : Z := le_decode (take 4 h) mod n.
Definition probe (h : list Z) (n i : Z) : nat := Z.to_nat ((home h n + i) mod n).
Definition used (hs : ProllyHashSet) (s : nat) : Prop := aUsed hs !! s = Some true.

Record hs_inv (hs : ProllyHashSet) : Prop := {
  inv_pow : exists k, 1 <= k <= 28 /\ nSlots hs = 2 ^ k;
  inv_slots : zlen (aSlots hs) = nSlots hs;
  inv_used : zlen (aUsed hs) = nSlots hs;
  inv_init : forall s, used hs s -> exists h, aSlots hs !! s = Some (Some h) /\ hash_wf h;
  inv_count : nUsed hs = count_true (aUsed hs);
  inv_load : nUsed hs <= nSlots hs / 2;
  (* every stored hash is reached from its home slot over used slots *)
  inv_probe : forall s h, slot_val hs s = Some h ->
    exists d, 0 <= d < nSlots hs /\ s = probe h (nSlots hs) d /\
      forall i, 0 <= i < d -> used hs (probe h (nSlots hs) i);
  inv_inj : forall s s' h, slot_val hs s = Some h -> slot_val hs s' = Some h -> s = s' }.

Section with_inv.
Context (hs : ProllyHashSet) (Hinv : hs_inv hs).
Local Abbreviation n := (nSlots hs).

Lemma n_bounds : 2 <= n <= 2 ^ 28.
Proof.
  destruct (inv_pow hs Hinv) as (k & Hk & ->). split.
  - change 2 with (2 ^ 1) at 1. apply Z.pow_le_mono_r; lia.
  - apply Z.pow_le_mono_r; lia.
Qed.

Lemma hs_inv_asserts : hs_asserts hs = true.
Proof.
  pose proof n_bounds. pose proof (inv_load hs Hinv) as Hl. pose proof (inv_count hs Hinv) as Hc.
  pose proof (count_true_nonneg (aUsed hs)). fold n in Hl.
  assert (n / 2 < n) by (apply Z.div_lt; lia).
  unfold hs_asserts. fold n. rewrite !andb_true_iff, Z.ltb_lt, !Z.leb_le. lia.
Qed.

Lemma land_mask v : Z.land v (n - 1) = v mod n.
Proof.
  destruct (inv_pow hs Hinv) as (k & Hk & ->).
  rewrite <- Z.land_ones by lia. f_equal. rewrite Z.ones_equiv. lia.
Qed.

Lemma probe_range h i : (probe h n i < Z.to_nat n)%nat.
Proof.
  pose proof n_bounds. unfold probe.
  pose proof (Z.mod_pos_bound (home h n + i) n). lia.
Qed.

Lemma home_range h : 0 <= home h n < n.
Proof. pose proof n_bounds. apply Z.mod_pos_bound. lia. Qed.

Lemma slotIndex_home h :
  hash_wf h -> prollyHashSetSlotIndex h n = Some (home h n).
Proof.
  intros [Hw Hl]. pose proof n_bounds. unfold prollyHashSetSlotIndex.
  rewrite land_mask, Z_mod_same_full. destruct (Z.ltb_spec 0 n); [|lia]. simpl.
  rewrite PROLLY_GET_U32_spec by (auto; lia). by rewrite land_mask.
Qed.

Lemma probe_slot_probe h i : 0 <= i < n -> Z.to_nat (probe_slot (home h n) i n) = probe h n i.
Proof.
  intros Hi. pose proof n_bounds. pose proof (home_range h).
  unfold probe_slot, probe. rewrite land_mask, u32_small; [done|]. unfold is_u32. lia.
Qed.

(** The probes of one round visit every slot. *)
Lemma probe_surj h s : (s < Z.to_nat n)%nat -> exists i, 0 <= i < n /\ probe h n i = s.
Proof.
  intros Hs. pose proof n_bounds. exists ((Z.of_nat s - home h n) mod n).
  split; [apply Z.mod_pos_bound; lia|]. unfold probe.
  rewrite Zplus_mod_idemp_r. replace (home h n + (Z.of_nat s - home h n)) with (Z.of_nat s) by lia.
  rewrite Z.mod_small by lia. lia.
Qed.

Lemma used_total s : (s < Z.to_nat n)%nat -> aUsed hs !! s = Some true \/ aUsed hs !! s = Some false.
Proof.
  intros Hs. pose proof (inv_used hs Hinv).
  destruct (lookup_lt_is_Some_2 (aUsed hs) s) as [[] E]; [lia|auto..].
Qed.

Lemma unused_probe h : exists i, 0 <= i < n /\ aUsed hs !! probe h n i = Some false.
Proof.
  pose proof n_bounds. pose proof (inv_used hs Hinv) as Hu.
  destruct (count_true_lt (aUsed hs)) as [s Hs].
  { rewrite <- (inv_count hs Hinv), Hu. pose proof (inv_load hs Hinv).
    assert (n / 2 < n) by (apply Z.div_lt; lia). lia. }
  pose proof (lookup_lt_Some _ _ _ Hs). destruct (probe_surj h s) as (i & Hi & E); [lia|].
  exists i. by rewrite E.
Qed.

Lemma slot_val_used s h : slot_val hs s = Some h -> used hs s /\ hash_wf h.
Proof.
  unfold slot_val, used. destruct (aUsed hs !! s) as [[]|] eqn:E; try done. intros Hv.
  split; [done|]. destruct (inv_init hs Hinv s E) as (h' & E' & W). rewrite E' in Hv.
  by simplify_eq/=.
Qed.

Lemma used_slot_val s : used hs s -> exists h, slot_val hs s = Some h /\ mjoin (aSlots hs !! s) = Some h.
Proof.
  intros E. destruct (inv_init hs Hinv s E) as (h & E' & W). exists h.
  unfold slot_val. rewrite E, E'. done.
Qed.

Lemma memcmp_hash d h :
  hash_wf d -> hash_wf h ->
  exists c, memcmp d h PROLLY_HASH_SIZE = Some c /\ (c = 0 <-> d = h).
Proof.
  intros [Wd Ld] [Wh Lh]. unfold PROLLY_HASH_SIZE. rewrite memcmp_spec by lia.
  eexists. split; [done|]. rewrite !take_ge by lia. rewrite cmp_sign_0. apply lexcmp_eq.
Qed.

Lemma contains_loop_spec h fuel i :
  hash_wf h -> 0 <= i -> i + Z.of_nat fuel = n ->
  (forall j, 0 <= j < i -> slot_val hs (probe h n j) <> Some h /\ used hs (probe h n j)) ->
  contains_loop fuel hs h (home h n) i = Some (bool_decide (h ∈ hs_elems hs)).
Proof.
  intros Wh. revert i. induction fuel as [|fuel IH]; intros i Hi Hn Hpre; cbn [contains_loop].
  - f_equal. symmetry. apply bool_decide_eq_false. rewrite elem_of_hs_elems. intros [s Hs].
    destruct (inv_probe hs Hinv s h Hs) as (d & Hd & -> & _).
    destruct (Hpre d) as [Hne _]; [lia|done].
  - rewrite probe_slot_probe by lia.
    destruct (used_total (probe h n i)) as [E|E]; [apply probe_range|..]; rewrite E; simpl.
    + destruct (used_slot_val _ E) as (d & Hd & ->).
      destruct (slot_val_used _ _ Hd) as [_ Wd].
      destruct (memcmp_hash d h Wd Wh) as (c & -> & Hc).
      destruct (Z.eqb_spec c 0) as [->|Hc0].
      * f_equal. symmetry. apply bool_decide_eq_true, elem_of_hs_elems.
        exists (probe h n i). rewrite Hd. f_equal. by apply Hc.
      * apply IH; [lia..|]. intros j Hj. destruct (decide (j = i)) as [->|]; [|apply Hpre; lia].
        split; [|done]. rewrite Hd. intros [= ->]. apply Hc0. by apply Hc.
    + f_equal. symmetry. apply bool_decide_eq_false. rewrite elem_of_hs_elems. intros [s Hs].
      destruct (inv_probe hs Hinv s h Hs) as (d & Hd & -> & Hall).
      destruct (decide (d < i)); [destruct (Hpre d) as [Hne _]; [lia|done]|].
      destruct (decide (d = i)) as [->|].
      * apply slot_val_used in Hs as [Hs _]. unfold used in Hs. congruence.
      * specialize (Hall i). unfold used in Hall. rewrite E in Hall. assert (0 <= i < d) as Hid by lia. by apply Hall in Hid.
Qed.

Lemma contains_spec h :
  hash_wf h -> prollyHashSetContains hs h = Some (bool_decide (h ∈ hs_elems hs)).
Proof.
  intros Wh. unfold prollyHashSetContains. rewrite hs_inv_asserts. simpl.
  rewrite slotIndex_home by done.
  pose proof n_bounds. apply contains_loop_spec; [done|lia..|]. intros j Hj. lia.
Qed.
End with_inv.

(** * Insertion *)

(** The table with [h] stored in the free slot [s]. *)
Definition hs_store (hs : ProllyHashSet) (s : nat) (h : list Z) : ProllyHashSet :=
  HashSet (<[s := Some h]> (aSlots hs)) (<[s := true]> (aUsed hs)) (nSlots hs) (nUsed hs + 1).

Section store.
Context (hs : ProllyHashSet) (Hinv : hs_inv hs) (s : nat) (h : list Z) (Wh : hash_wf h).
Context (Hfree : aUsed hs !! s = Some false).

Lemma store_range : (s < Z.to_nat (nSlots hs))%nat.
Proof. pose proof (lookup_lt_Some _ _ _ Hfree). pose proof (inv_used hs Hinv). lia. Qed.

Lemma used_store s' : used (hs_store hs s h) s' <-> s' = s \/ used hs s'.
Proof.
  unfold used, hs_store. simpl. pose proof (lookup_lt_Some _ _ _ Hfree).
  destruct (decide (s' = s)) as [->|].
  - rewrite list_lookup_insert_eq by done. naive_solver.
  - rewrite list_lookup_insert_ne by done. naive_solver.
Qed.

Lemma slot_val_store s' :
  slot_val (hs_store hs s h) s' = if decide (s' = s) then Some h else slot_val hs s'.
Proof.
  pose proof (lookup_lt_Some _ _ _ Hfree). pose proof (inv_slots hs Hinv).
  pose proof (inv_used hs Hinv). unfold slot_val, hs_store. simpl.
  destruct (decide (s' = s)) as [->|].
  - by rewrite !list_lookup_insert_eq by lia.
  - by rewrite !list_lookup_insert_ne by done.
Qed.

Lemma elems_store : hs_elems (hs_store hs s h) = {[h]} ∪ hs_elems hs.
Proof.
  apply set_eq. intros x. rewrite elem_of_union, elem_of_singleton, !elem_of_hs_elems.
  setoid_rewrite slot_val_store. split.
  - intros (s' & E). case_decide; [left; congruence|right; eauto].
  - intros [->|(s' & E)]; [exists s; by rewrite decide_True|].
    exists s'. rewrite decide_False; [done|]. intros ->. unfold slot_val in E.
    by rewrite Hfree in E.
Qed.

Lemma store_inv d :
  h ∉ hs_elems hs -> nUsed hs < nSlots hs / 2 ->
  0 <= d < nSlots hs -> s = probe h (nSlots hs) d ->
  (forall i, 0 <= i < d -> used hs (probe h (nSlots hs) i)) ->
  hs_inv (hs_store hs s h).
Proof.
  intros Hni Hload Hd Hs Hall. pose proof store_range as Hr.
  pose proof (inv_slots hs Hinv) as Ls. pose proof (inv_used hs Hinv) as Lu. split.
  - apply (inv_pow hs Hinv).
  - simpl. by rewrite length_insert.
  - simpl. by rewrite length_insert.
  - intros s' Hu. apply used_store in Hu. simpl.
    destruct (decide (s' = s)) as [->|]; [rewrite list_lookup_insert_eq by lia; eauto|].
    rewrite list_lookup_insert_ne by done. apply (inv_init hs Hinv). naive_solver.
  - simpl. rewrite count_true_insert by done. by rewrite (inv_count hs Hinv).
  - simpl. lia.
  - intros s' h'. rewrite slot_val_store. simpl. case_decide as Hc.
    + intros [= <-]. subst s'. exists d. split; [done|]. split; [done|].
      intros i Hi. apply used_store. auto.
    + intros E. destruct (inv_probe hs Hinv s' h' E) as (d' & ? & ? & Hu). exists d'.
      split; [done|]. split; [done|]. intros i Hi. apply used_store. auto.
  - intros s1 s2 h'. rewrite !slot_val_store. repeat case_decide; subst; try done.
    + intros [= <-] E. destruct Hni. apply elem_of_hs_elems. eauto.
    + intros E [= <-]. destruct Hni. apply elem_of_hs_elems. eauto.
    + apply (inv_inj hs Hinv).
Qed.
End store.

Lemma add_loop_spec hs h fuel i :
  hs_inv hs -> hash_wf h -> 0 <= i -> i + Z.of_nat fuel = nSlots hs ->
  (forall j, 0 <= j < i -> slot_val hs (probe h (nSlots hs) j) <> Some h /\
                           used hs (probe h (nSlots hs) j)) ->
  (h ∈ hs_elems hs /\ add_loop fuel hs h (home h (nSlots hs)) i = Some (SQLITE_OK, hs)) \/
  (exists d, (h ∉ hs_elems hs) /\ 0 <= d < nSlots hs /\
     aUsed hs !! probe h (nSlots hs) d = Some false /\
     (forall j, 0 <= j < d -> used hs (probe h (nSlots hs) j)) /\
     add_loop fuel hs h (home h (nSlots hs)) i =
       Some (SQLITE_OK, hs_store hs (probe h (nSlots hs) d) h)).
Proof.
  intros Hinv Wh. revert i. induction fuel as [|fuel IH]; intros i Hi Hn Hpre; cbn [add_loop].
  - destruct (unused_probe hs Hinv h) as (d & Hd & E).
    destruct (Hpre d) as [_ Hu]; [lia|]. unfold used in Hu. congruence.
  - rewrite probe_slot_probe by (done || lia).
    destruct (used_total hs Hinv (probe h (nSlots hs) i)) as [E|E];
      [by apply probe_range|..]; rewrite E; simpl.
    + destruct (used_slot_val hs Hinv _ E) as (d & Hd & ->).
      destruct (slot_val_used hs Hinv _ _ Hd) as [_ Wd].
      destruct (memcmp_hash d h Wd Wh) as (c & -> & Hc).
      destruct (Z.eqb_spec c 0) as [->|Hc0].
      * left. split; [|done]. apply elem_of_hs_elems. exists (probe h (nSlots hs) i).
        rewrite Hd. f_equal. by apply Hc.
      * apply IH; [lia..|]. intros j Hj. destruct (decide (j = i)) as [->|]; [|apply Hpre; lia].
        split; [|done]. rewrite Hd. intros [= ->]. apply Hc0. by apply Hc.
    + right. exists i. destruct Wh as [Wh Lh]. rewrite take_ge by lia.
      split_and!; try done; try lia; [|intros j Hj; by apply Hpre].
      rewrite elem_of_hs_elems. intros [s Hs].
      destruct (inv_probe hs Hinv s h Hs) as (d & Hd & -> & Hall).
      destruct (decide (d < i)); [destruct (Hpre d) as [Hne _]; [lia|done]|].
      destruct (decide (d = i)) as [->|].
      * apply (slot_val_used hs Hinv) in Hs as [Hs _]. unfold used in Hs. congruence.
      * assert (0 <= i < d) as Hid by lia. apply Hall in Hid. unfold used in Hid. congruence.
Qed.

(** The part of [hs_add] after the growth check. *)
Lemma add_tail_spec hs h :
  hs_inv hs -> hash_wf h -> nUsed hs < nSlots hs / 2 ->
  exists hs',
    (let? idx := prollyHashSetSlotIndex h (nSlots hs) in
     add_loop (Z.to_nat (nSlots hs)) hs h idx 0) = Some (SQLITE_OK, hs') /\
    hs_inv hs' /\ hs_elems hs' = {[h]} ∪ hs_elems hs /\ nSlots hs' = nSlots hs /\
    nUsed hs' <= nUsed hs + 1.
Proof.
  intros Hinv Wh Hload. rewrite slotIndex_home by done. pose proof (n_bounds hs Hinv).
  destruct (add_loop_spec hs h (Z.to_nat (nSlots hs)) 0)
    as [[Hin ->]|(d & Hni & Hd & Hf & Hall & ->)]; try done; try lia; try (intros; lia).
  - exists hs. split_and!; try done; try lia. set_solver.
  - eexists. split_and!; [done|..]; simpl; try lia; try done.
    + by eapply store_inv.
    + by apply elems_store.
Qed.

Lemma hs_add_nogrow depth hs h :
  hs_inv hs -> hash_wf h -> nUsed hs < nSlots hs / 2 ->
  exists hs', hs_add (S depth) hs h = Some (SQLITE_OK, hs') /\ hs_inv hs' /\
    hs_elems hs' = {[h]} ∪ hs_elems hs /\ nSlots hs' = nSlots hs /\
    nUsed hs' <= nUsed hs + 1.
Proof.
  intros Hinv Wh Hload. cbn [hs_add]. rewrite hs_inv_asserts by done. simpl.
  destruct (Z.leb_spec (nSlots hs / 2) (nUsed hs)); [lia|].
  by apply add_tail_spec.
Qed.

(** * Growth *)

Fixpoint used_vals (slots : list (option (list Z))) (used : list bool) : gset (list Z) :=
  match slots, used with
  | d :: slots, u :: used =>
      (match u, d with true, Some h => {[h]} | _, _ => ∅ end) ∪ used_vals slots used
  | _, _ => ∅
  end.

Lemma elem_of_used_vals slots used x :
  x ∈ used_vals slots used <->
  exists s, used !! s = Some true /\ slots !! s = Some (Some x).
Proof.
  revert used. induction slots as [|d slots IH]; intros [|u used]; simpl.
  1-3: split; [set_solver|intros ([|s] & ? & ?); done].
  rewrite elem_of_union, IH. split.
  - intros [Hx|(s & ? & ?)]; [|by exists (S s)].
    exists 0%nat. destruct u, d; set_solver.
  - intros ([|s] & ? & ?); simplify_eq/=; [left; set_solver|right; eauto].
Qed.

Lemma hs_elems_used_vals hs : hs_elems hs = used_vals (aSlots hs) (aUsed hs).
Proof.
  apply set_eq. intros x. rewrite elem_of_hs_elems, elem_of_used_vals. unfold slot_val.
  f_equiv; intros s. destruct (aUsed hs !! s) as [[]|]; [|naive_solver..].
  destruct (aSlots hs !! s) as [[d|]|]; simpl; naive_solver.
Qed.

Lemma grow_loop_spec depth slots used_ newHs :
  length slots = length used_ ->
  (forall s, used_ !! s = Some true -> exists h, slots !! s = Some (Some h) /\ hash_wf h) ->
  hs_inv newHs -> nUsed newHs + count_true used_ <= nSlots newHs / 2 ->
  exists newHs', grow_loop (hs_add (S depth)) slots used_ newHs = Some (SQLITE_OK, newHs') /\
    hs_inv newHs' /\ hs_elems newHs' = used_vals slots used_ ∪ hs_elems newHs /\
    nSlots newHs' = nSlots newHs /\ nUsed newHs' <= nUsed newHs + count_true used_.
Proof.
  pose proof (hs_add_nogrow depth) as Hadd. generalize dependent (hs_add (S depth)).
  intros add Hadd. revert used_ newHs.
  induction slots as [|d slots IH]; intros [|u used_] newHs Hl Hw Hinv Hc; simplify_eq/=.
  - exists newHs. split_and!; try done; [set_solver +|lia].
  - assert (forall s, used_ !! s = Some true ->
      exists h, slots !! s = Some (Some h) /\ hash_wf h) as Hw' by (intros s; apply (Hw (S s))).
    destruct u.
    + destruct (Hw 0%nat eq_refl) as (h & [= ->] & Wh). pose proof (count_true_bound used_).
      destruct (Hadd newHs h) as (hs1 & E1 & Hi1 & He1 & Hn1 & Hu1); try done; [lia|].
      rewrite E1. simpl.
      destruct (IH used_ hs1) as (hs2 & E2 & Hi2 & He2 & Hn2 & Hu2); try done; [rewrite Hn1; lia|].
      exists hs2. split_and!; try done; [|congruence|lia]. rewrite He2, He1. set_solver +.
    + destruct (IH used_ newHs) as (hs2 & E2 & Hi2 & He2 & Hn2 & Hu2); try done.
      exists hs2. split_and!; try done. rewrite He2. set_solver +.
Qed.

Lemma hs_alloc_spec n k :
  n = 2 ^ k -> 1 <= k ->
  match hs_alloc n with
  | OK hs => hs_inv hs /\ hs_elems hs = ∅ /\ nSlots hs = n /\ nUsed hs = 0
  | ERR rc => rc = SQLITE_NOMEM
  end.
Proof.
  intros -> Hk. unfold hs_alloc. destruct (Z.ltb_spec (INT_MAX / PROLLY_HASH_SIZE) (2 ^ k)) as [?|Hm]; [done|].
  assert (k <= 28).
  { destruct (decide (k <= 28)); [done|]. assert (2 ^ 29 <= 2 ^ k) by (apply Z.pow_le_mono_r; lia).
    change (INT_MAX / PROLLY_HASH_SIZE) with 107374182 in Hm. lia. }
  destruct (_ || _); [done|]. set (hs := HashSet _ _ _ _).
  assert (forall s, used hs s -> False) as Hu.
  { intros s. unfold used, hs. simpl. rewrite lookup_replicate. naive_solver. }
  assert (forall s h, slot_val hs s = Some h -> False) as Hv.
  { intros s h. unfold slot_val. destruct (aUsed hs !! s) as [[]|] eqn:E; try done.
    by apply Hu in E. }
  split; [|split; [|done]].
  - split; simpl; rewrite ?length_replicate, ?count_true_replicate; try lia; eauto.
    + intros s Hs. by apply Hu in Hs.
    + apply Z.div_pos; lia.
    + intros s h E. by apply Hv in E.
    + intros s s' h E. by apply Hv in E.
  - apply set_eq. intros x. rewrite elem_of_hs_elems. split; [intros [s E]; by apply Hv in E|set_solver].
Qed.

Lemma hs_grow_spec depth hs :
  hs_inv hs ->
  exists rc hs', prollyHashSetGrow (hs_add (S depth)) hs = Some (rc, hs') /\ hs_inv hs' /\
    ((rc = SQLITE_OK /\ hs_elems hs' = hs_elems hs /\ nUsed hs' < nSlots hs' / 2) \/
     (rc = SQLITE_NOMEM /\ hs' = hs)).
Proof.
  intros Hinv. unfold prollyHashSetGrow. pose proof (n_bounds hs Hinv).
  destruct (inv_pow hs Hinv) as (k & Hk & En).
  pose proof (hs_alloc_spec (nSlots hs * 2) (k + 1)) as Ha.
  rewrite En, Z.pow_add_r in Ha by lia. rewrite <- En in Ha.
  specialize (Ha ltac:(lia) ltac:(lia)).
  assert (nSlots hs * 2 / 2 = nSlots hs) as E2 by (apply Z.div_mul; lia).
  pose proof (inv_load hs Hinv) as Hload. pose proof (inv_count hs Hinv) as Hcnt.
  assert (nSlots hs / 2 < nSlots hs) by (apply Z.div_lt; lia).
  destruct (hs_alloc (nSlots hs * 2)) as [newHs|rc]; [|subst; by eexists _, _; eauto].
  destruct Ha as (Hi & He & Hn & Hu).
  destruct (grow_loop_spec depth (aSlots hs) (aUsed hs) newHs)
    as (hs' & -> & Hi' & He' & Hn' & Hu').
  - pose proof (inv_slots hs Hinv). pose proof (inv_used hs Hinv). lia.
  - apply (inv_init hs Hinv).
  - done.
  - rewrite Hn, Hu, E2. lia.
  - simpl. eexists _, _. split; [done|]. split; [done|]. left. split; [done|]. split.
    + rewrite He', He, hs_elems_used_vals. set_solver +.
    + rewrite Hn', Hn, E2. lia.
Qed.

(** A depth of 2 is enough: [prollyHashSetAdd] always returns. *)
Lemma hs_add_spec hs h :
  hs_inv hs -> hash_wf h ->
  exists rc hs', prollyHashSetAdd hs h = Some (rc, hs') /\ hs_inv hs' /\
    ((rc = SQLITE_OK /\ hs_elems hs' = {[h]} ∪ hs_elems hs) \/
     (rc = SQLITE_NOMEM /\ hs' = hs)).
Proof.
  intros Hinv Wh. unfold prollyHashSetAdd.
  destruct (decide (nUsed hs < nSlots hs / 2)).
  - destruct (hs_add_nogrow 1 hs h) as (hs' & -> & ? & ? & _); try done. eauto 10.
  - cbn [hs_add]. rewrite hs_inv_asserts by done. cbn [negb].
    destruct (Z.leb_spec (nSlots hs / 2) (nUsed hs)); [|lia].
    destruct (hs_grow_spec 0 hs Hinv) as (rc & hs1 & Eg & Hi1 & [(-> & He1 & Hu1)|[-> ->]]);
      cbn [hs_add] in Eg; rewrite Eg; simpl; [|eauto 10].
    destruct (add_tail_spec hs1 h) as (hs2 & -> & Hi2 & He2 & _); try done.
    exists SQLITE_OK, hs2. split; [done|]. split; [done|]. left. split; [done|]. by rewrite He2, He1.
Qed.

Lemma grow_to_spec fuel k want :
  0 <= k -> want <= 2 ^ (k + Z.of_nat fuel) ->
  exists k', k <= k' /\ grow_to (S fuel) (2 ^ k) want = Some (2 ^ k').
Proof.
  revert k. induction fuel as [|fuel IH]; intros k Hk Hw; cbn [grow_to].
  - destruct (Z.ltb_spec (2 ^ k) want); [|exists k; split; [lia|done]].
    replace (k + Z.of_nat 0) with k in Hw by lia. lia.
  - destruct (Z.ltb_spec (2 ^ k) want); [|exists k; split; [lia|done]].
    destruct (IH (k + 1)) as (k' & ? & E); [lia|by replace (k + 1 + Z.of_nat fuel) with (k + Z.of_nat (S fuel)) by lia|].
    exists k'. split; [lia|]. rewrite Z.pow_add_r in E by lia. exact E.
Qed.

Lemma hs_init_spec nCapacity :
  0 <= nCapacity <= INT_MAX ->
  exists r, prollyHashSetInit nCapacity = Some r /\
    match r with
    | OK hs => hs_inv hs /\ hs_elems hs = ∅
    | ERR rc => rc = SQLITE_NOMEM
    end.
Proof.
  intros Hc. unfold prollyHashSetInit. destruct (Z.ltb_spec nCapacity 0); [lia|].
  destruct (grow_to_spec 63 8 (nCapacity * 2)) as (k & Hk & E).
  { lia. } { unfold INT_MAX in Hc. assert (2 ^ 33 <= 2 ^ (8 + Z.of_nat 63)) by (apply Z.pow_le_mono_r; lia). lia. }
  change (2 ^ 8) with 256 in E. rewrite E. eexists. split; [done|].
  pose proof (hs_alloc_spec (2 ^ k) k eq_refl ltac:(lia)) as Ha.
  destruct (hs_alloc (2 ^ k)); naive_solver.
Qed.

(** Adding a list of hashes, stopping at the first error. *)
Fixpoint hs_add_all (hs : ProllyHashSet) (l : list (list Z)) : option (Z * ProllyHashSet) :=
  match l with
  | [] => Some (SQLITE_OK, hs)
  | h :: l =>
      let? (rc, hs) := prollyHashSetAdd hs h in
      if negb (rc =? SQLITE_OK) then Some (rc, hs) else hs_add_all hs l
  end.

Lemma hs_add_all_spec hs l :
  hs_inv hs -> Forall hash_wf l ->
  exists rc hs', hs_add_all hs l = Some (rc, hs') /\ hs_inv hs' /\
    ((rc = SQLITE_OK /\ hs_elems hs' = list_to_set l ∪ hs_elems hs) \/ rc = SQLITE_NOMEM).
Proof.
  intros Hinv Hl. revert hs Hinv. induction Hl as [|h l Hh _ IH]; intros hs Hinv; cbn [hs_add_all].
  { exists SQLITE_OK, hs. split; [done|]. split; [done|]. left. set_solver +. }
  destruct (hs_add_spec hs h Hinv Hh) as (rc & hs1 & -> & Hi1 & [[-> He]|[-> ->]]); simpl.
  - destruct (IH hs1 Hi1) as (rc & hs2 & -> & Hi2 & [[-> He2]| ->]); eauto 10.
    exists SQLITE_OK, hs2. split; [done|]. split; [done|]. left. split; [done|].
    rewrite He2, He. set_solver +.
  - eauto 10.
Qed.
End hashset.

(** * Properties *)

(** For every allocator, a hash set created with any capacity and filled
    with any list of hashes either fails with SQLITE_NOMEM or answers
    membership exactly as the list does; no probe leaves the table and growth
    loses nothing. *)
Theorem hashset_refines_set (malloc_ok : Z -> bool) (nCapacity : Z) (l : list (list Z)) (h : list Z)
    (Hcap : 0 <= nCapacity <= INT_MAX) (Hl : Forall hash_wf l) (Hh : hash_wf h) :
  prollyHashSetInit malloc_ok nCapacity = Some (ERR SQLITE_NOMEM) \/
  exists hs rc hs', prollyHashSetInit malloc_ok nCapacity = Some (OK hs) /\
    hs_add_all malloc_ok hs l = Some (rc, hs') /\
    (rc = SQLITE_NOMEM \/
     rc = SQLITE_OK /\ prollyHashSetContains hs' h = Some (bool_decide (h ∈ l))).
Proof.
  destruct (hs_init_spec malloc_ok nCapacity Hcap) as ([hs|rc] & E & Hr); [|subst; by left].
  destruct Hr as [Hi He]. right. exists hs.
  destruct (hs_add_all_spec malloc_ok hs l Hi Hl) as (rc & hs' & E' & Hi' & [[-> He']| ->]).
  - exists SQLITE_OK, hs'. split; [done|]. split; [done|]. right. split; [done|].
    rewrite contains_spec by done. f_equal. apply bool_decide_ext. rewrite He', He. set_solver +.
  - exists SQLITE_NOMEM, hs'. auto.
Qed.

Lemma hashset_refines_set_witness :
  let h := replicate 20 7 in
  prollyHashSetInit (fun _ => true) 1 = Some (ERR SQLITE_NOMEM) \/
  exists hs rc hs', prollyHashSetInit (fun _ => true) 1 = Some (OK hs) /\
    hs_add_all (fun _ => true) hs [h] = Some (rc, hs') /\
    (rc = SQLITE_NOMEM \/ rc = SQLITE_OK /\ prollyHashSetContains hs' h = Some (bool_decide (h ∈ [h]))).
Proof.
  intros h. assert (hash_wf h) as Hh by (split; [by apply bytes_wfb_spec|done]).
  apply (hashset_refines_set (fun _ => true) 1 [h] h); [done| |done].
  apply Forall_cons_2; [done|apply Forall_nil_2].
Defined.
