(* ===== verification/Hash.v ===== *)
(** prolly_hash.c: the 20-byte content hash, with and without a materialized
    zero tail, and the Weibull test that places chunk boundaries.  Doubles are
    the IEEE binary64 numbers of SpecFloat; [expm1] is the C library's. *)
From Stdlib Require Import SpecFloat.
From S2P Require Import Prelude Encoding HashSet Blake3 Blake3Tree Blake3Stream.

(** * The content hash *)

(** What the hash of a byte string is: the first 20 bytes of its BLAKE3 hash. *)
Definition prolly_hash (d : list Z) : list Z := blake3 d PROLLY_HASH_SIZE.

Section hash.
Variable simd_degree MAX_SIMD_DEGREE : Z.

Definition prollyHashCompute (pData : list Z) (nData : Z) : option (list Z) :=
  let? d := bytes_at pData nData in
  blake3_hash_oneshot simd_degree MAX_SIMD_DEGREE d PROLLY_HASH_SIZE.

(** [while( nZeroTail>0 )], at most 8192 zeros at a time. *)
Fixpoint zero_updates (fuel : nat) (h : blake3_hasher) (nZeroTail : Z) : option blake3_hasher :=
  match fuel with
  | O => None
  | S fuel =>
      if 0 <? nZeroTail then
        let n := if 8192 <? nZeroTail then 8192 else nZeroTail in
        let? h := blake3_hasher_update simd_degree MAX_SIMD_DEGREE h (replicate (Z.to_nat n) 0) in
        zero_updates fuel h (nZeroTail - n)
      else Some h
  end.

Definition prollyHashComputeZeroTail (pData : list Z) (nData nZeroTail : Z) : option (list Z) :=
  let h := blake3_hasher_init in
  let? h := (if 0 <? nData then
               let? d := bytes_at pData nData in
               blake3_hasher_update simd_degree MAX_SIMD_DEGREE h d
             else Some h) in
  let? h := zero_updates (S (Z.to_nat nZeroTail)) h nZeroTail in
  blake3_hasher_finalize h PROLLY_HASH_SIZE.
End hash.

Definition prollyHashCompare (a b : list Z) : option Z := memcmp a b PROLLY_HASH_SIZE.
Definition prollyHashIsEmpty (h : list Z) : bool := forallb (fun b => b =? 0) h.

(** * Chunk boundaries *)

Definition PROLLY_CHUNK_MIN : Z := 512.
Definition PROLLY_CHUNK_MAX : Z := 16384.

(** Doubles and their operations. *)
Definition double_of (z : Z) : spec_float := binary_normalize 53 1024 z 0 false.
Definition dmul : spec_float -> spec_float -> spec_float := SFmul 53 1024.
Definition ddiv : spec_float -> spec_float -> spec_float := SFdiv 53 1024.
Definition dsub : spec_float -> spec_float -> spec_float := SFsub 53 1024.

Definition PROLLY_WEIBULL_L : spec_float := double_of 4096.
Definition PROLLY_MAX_U32 : spec_float := double_of 4294967295.

Section weibull.
Variable expm1 : spec_float -> spec_float.

(** The entry [i] of the table [aWeibull]. *)
Definition aWeibull (i : Z) : spec_float :=
  let pow := ddiv (double_of i) PROLLY_WEIBULL_L in
  SFopp (expm1 (SFopp (dmul (dmul (dmul pow pow) pow) pow))).

Definition prollyWeibullCheck (size thisSize hash : Z) : option bool :=
  if negb (size <=? PROLLY_CHUNK_MAX) then None
  else if negb (thisSize <=? size) then None
  else
    let start := aWeibull (size - thisSize) in
    let end_ := aWeibull size in
    let p := ddiv (double_of hash) PROLLY_MAX_U32 in
    let d := dsub (double_of 1) start in
    if SFleb d (double_of 0) then Some true
    else
      let target := ddiv (dsub end_ start) d in
      Some (SFltb p target).

Lemma weibull_defined size thisSize hash :
  thisSize <= size <= PROLLY_CHUNK_MAX -> exists b, prollyWeibullCheck size thisSize hash = Some b.
Proof.
  intros H. unfold prollyWeibullCheck. destruct (Z.leb_spec size PROLLY_CHUNK_MAX); [|lia].
  destruct (Z.leb_spec thisSize size); [|lia]. cbn [negb]. destruct (SFleb _ _); eauto.
Qed.
End weibull.

(** * The length of a hash *)

Lemma root_output_cv d : length (o_input_cv (root_output IV 0 d)) = 8%nat.
Proof. unfold root_output. destruct (zlen d <=? 1024); [by apply length_absorb|done]. Qed.

Lemma root_bytes_short o n : 0 < n < 64 ->
  output_root_bytes o 0 n = take (Z.to_nat n) (blake3_compress_xof (o_input_cv o) (o_block o) (o_block_len o) 0 (Z.lor (o_flags o) ROOT)).
Proof.
  intros Hn. unfold output_root_bytes. rewrite (proj2 (Z.eqb_neq n 0)) by lia. change (0 mod 64) with 0. change (0 / 64) with 0. rewrite Z.eqb_refl. cbv beta iota zeta delta [negb].
  rewrite Z.div_small, Z.mod_small, (proj2 (Z.eqb_neq n 0)) by lia. reflexivity.
Qed.

Lemma length_half (st rest : list Z) : length st = 16%nat -> (32 <= length (store_cv_words (zip_with Z.lxor (take 8 st) (drop 8 st)) ++ rest))%nat.
Proof. intros H. rewrite length_app, length_store_cv, length_zip_with, length_take, length_drop, H. lia. Qed.

#[local] Opaque compress_pre.
Lemma length_xof cv b n c f : length cv = 8%nat -> (32 <= length (blake3_compress_xof cv b n c f))%nat.
Proof. intros H. exact (length_half _ _ (length_compress_pre cv b n c f H)). Qed.

Lemma length_prolly_hash d : length (prolly_hash d) = 20%nat.
Proof.
  unfold prolly_hash, blake3. pose proof (root_output_cv d) as H. generalize dependent (root_output IV 0 d). intros o Ho.
  rewrite root_bytes_short by done. rewrite length_take. pose proof (length_xof _ (o_block o) (o_block_len o) 0 (Z.lor (o_flags o) ROOT) Ho). change (Z.to_nat PROLLY_HASH_SIZE) with 20%nat. lia.
Qed.

(** * The hash with a zero tail *)

Section zero_tail.
Context (j : nat) (max : Z).
Context (Hj : (j <= 4)%nat) (Hmax : 2 ^ Z.of_nat j <= max) (Hmx : max = 1 \/ max = 4 \/ max = 16).

Lemma hash_compute_spec p n :
  0 <= n <= zlen p -> n <= INT_MAX ->
  prollyHashCompute (2 ^ Z.of_nat j) max p n = Some (prolly_hash (take (Z.to_nat n) p)).
Proof.
  intros Hn Hi. unfold prollyHashCompute. rewrite bytes_at_Some by done.
  apply oneshot_spec; try done. rewrite length_take. unfold INT_MAX in *. lia.
Qed.

Lemma zero_updates_spec fuel : forall h D z,
  stream IV 0 h D -> 0 <= z -> (Z.to_nat z < fuel)%nat -> zlen D + z < 2 ^ 63 ->
  exists h', zero_updates (2 ^ Z.of_nat j) max fuel h z = Some h' /\
    stream IV 0 h' (D ++ replicate (Z.to_nat z) 0).
Proof.
  induction fuel as [|fuel IH]; intros h D z Hs Hz Hf Hl; [lia|]. cbn [zero_updates].
  destruct (Z.ltb_spec 0 z).
  - set (n := if 8192 <? z then 8192 else z).
    assert (Hn : 0 < n <= z) by (unfold n; destruct (Z.ltb_spec 8192 z); lia). clearbody n.
    destruct (update_spec IV 0 eq_refl j max Hj Hmax Hmx h D (replicate (Z.to_nat n) 0) Hs) as (h1 & -> & Hs1);
      [rewrite length_app, length_replicate; lia|].
    destruct (IH h1 _ (z - n) Hs1) as (h2 & -> & Hs2); [lia|lia|rewrite length_app, length_replicate; lia|].
    exists h2. split; [done|]. rewrite <- app_assoc, <- replicate_add in Hs2.
    by replace (Z.to_nat z) with (Z.to_nat n + Z.to_nat (z - n))%nat by lia.
  - assert (z = 0) as -> by lia. exists h. cbn [Z.to_nat replicate]. by rewrite app_nil_r.
Qed.

Lemma hash_zero_tail_spec p n z :
  0 <= n <= zlen p -> 0 <= z -> n + z < 2 ^ 63 ->
  prollyHashComputeZeroTail (2 ^ Z.of_nat j) max p n z =
    Some (prolly_hash (take (Z.to_nat n) p ++ replicate (Z.to_nat z) 0)).
Proof.
  intros Hn Hz Hl. unfold prollyHashComputeZeroTail. rewrite bytes_at_Some by done.
  assert (Lt : zlen (take (Z.to_nat n) p) = n) by (rewrite length_take; lia).
  assert (H0 : exists h, (if 0 <? n then blake3_hasher_update (2 ^ Z.of_nat j) max blake3_hasher_init
      (take (Z.to_nat n) p) else Some blake3_hasher_init) = Some h /\ stream IV 0 h (take (Z.to_nat n) p)).
  { destruct (Z.ltb_spec 0 n).
    - apply (update_spec IV 0 eq_refl j max Hj Hmax Hmx blake3_hasher_init [] (take (Z.to_nat n) p) init_stream).
      cbn [app]. lia.
    - assert (n = 0) as -> by lia. exists blake3_hasher_init. split; [done|apply init_stream]. }
  destruct H0 as (h & -> & Hs).
  destruct (zero_updates_spec (S (Z.to_nat z)) h _ z Hs) as (h' & -> & Hs'); [done|lia|lia|].
  by apply finalize_spec.
Qed.
End zero_tail.

(** * Properties *)

(** The two ways a chunk is hashed agree: hashing a prefix and [nZeroTail]
    zeros incrementally is hashing the whole buffer in one call, so a sparse
    chunk has the hash of its materialized bytes. *)
Theorem hash_zero_tail_agrees (j : nat) (max : Z) (p : list Z) (n z : Z)
    (Hj : (j <= 4)%nat) (Hmax : 2 ^ Z.of_nat j <= max) (Hmx : max = 1 \/ max = 4 \/ max = 16)
    (Hn : 0 <= n <= zlen p) (Hz : 0 <= z) (Hl : n + z <= INT_MAX) :
  let whole := take (Z.to_nat n) p ++ replicate (Z.to_nat z) 0 in
  prollyHashComputeZeroTail (2 ^ Z.of_nat j) max p n z =
    prollyHashCompute (2 ^ Z.of_nat j) max whole (n + z) /\
  prollyHashCompute (2 ^ Z.of_nat j) max whole (n + z) = Some (prolly_hash whole).
Proof.
  intros whole. assert (Lw : zlen whole = n + z).
  { unfold whole. rewrite length_app, length_take, length_replicate. lia. }
  assert (E : prollyHashCompute (2 ^ Z.of_nat j) max whole (n + z) = Some (prolly_hash whole)).
  { rewrite hash_compute_spec by (done || lia). by rewrite take_ge by lia. }
  split; [|done]. rewrite E. apply hash_zero_tail_spec; try done. unfold INT_MAX in *. lia.
Qed.

Lemma hash_zero_tail_agrees_witness :
  prollyHashComputeZeroTail 1 1 [7; 8] 2 3 = prollyHashCompute 1 1 [7; 8; 0; 0; 0] 5 /\
  prollyHashCompute 1 1 [7; 8; 0; 0; 0] 5 = Some (prolly_hash [7; 8; 0; 0; 0]).
Proof.
  apply (hash_zero_tail_agrees 0 1 [7; 8] 2 3); [lia|done|auto|done|done|done].
Defined.

#[global] Opaque prolly_hash.
