(* ===== verification/Handlers.v ===== *)
(** The endpoints of the server of [remote/doltlite_remotesrv.c].  The chunk
    store is reached through its calls: a handler is a program that makes calls
    and goes on with whatever the store answers, and the state is the list of
    the calls with their answers, in order. *)
From S2P Require Import Prelude CInt Ge Ed25519 CString World Radix Json Creds CredsFile Bearer CredsConfig Encoding HashSet Blake3 Blake3Tree Blake3Stream Hash Http Threads Server.

Definition SQLITE_OK : Z := 0.
Definition SQLITE_ERROR : Z := 1.
Definition SQLITE_BUSY : Z := 5.
Definition SQLITE_LOCKED : Z := 6.
Definition SQLITE_READONLY : Z := 8.
Definition SQLITE_IOERR : Z := 10.
Definition SQLITE_CORRUPT : Z := 11.
Definition SQLITE_NOTFOUND : Z := 12.
Definition SQLITE_CANTOPEN : Z := 14.
Definition SQLITE_PROTOCOL : Z := 15.
Definition SQLITE_CONSTRAINT : Z := 19.
Definition SQLITE_AUTH : Z := 23.
Definition SQLITE_NOTADB : Z := 26.
Definition SQLITE_BUSY_SNAPSHOT : Z := 517.
Definition CHUNK_READ_BATCH_MAX : nat := 256.

(** * Calls of the store *)
(** A call that changes the store or that a decision rests on, with the answer. *)
Inductive store_event : Type :=
| ev_put (data : list Z) (rc : Z)
| ev_commit (rc : Z)
| ev_rollback
| ev_lock (rc : Z)
| ev_refresh (rc : Z)
| ev_unlock
| ev_read (hashes : list (list Z)) (chunks : list (option (list Z)))
| ev_scope (blob branch : list Z) (force : bool) (rc : Z)
| ev_graph (blob branch : list Z) (rc : Z)
| ev_install (blob branch : list Z) (rc : Z)
| ev_merge (expected blob branch : list Z) (force : bool) (rc : Z) (merged : list Z)
| ev_refs (hash : list Z)
| ev_serialize (rc : Z).

Abbreviation calls := (prog (list store_event)).

Definition note (e : store_event) : calls unit := upd (fun es => es ++ [e]).
(** A call whose answer is a result code. *)
Definition status_call (e : Z -> store_event) : calls Z :=
  let& rc := ask (fun _ : Z => True) in let& _ := note (e rc) in Done rc.

Definition chunkStorePut (data : list Z) : calls Z := status_call (ev_put data).
Definition chunkStoreCommit : calls Z := status_call ev_commit.
Definition chunkStoreRollback : calls unit := note ev_rollback.
Definition chunkStoreLockAndRefresh : calls Z := status_call ev_lock.
Definition chunkStoreForceRefresh : calls Z := status_call ev_refresh.
Definition chunkStoreUnlock : calls unit := note ev_unlock.
Definition chunkStoreSerializeRefs : calls Z := status_call ev_serialize.
(** A size of a C object. *)
Definition is_size (n : Z) : Prop := 0 <= n <= INT_MAX.
(** At least one chunk of those asked for, in order; an absent one is [None]. *)
Definition chunkStoreReadBatch (hashes : list (list Z)) : calls (Z * list (option (list Z))) :=
  let& (rc, chunks) := ask (fun r : Z * list (option (list Z)) =>
    r.1 = SQLITE_OK -> (0 < length r.2 <= length hashes)%nat /\ Forall (fun c => is_size (zlen (default [] c))) r.2) in
  let& _ := note (ev_read hashes (if rc =? SQLITE_OK then chunks else [])) in
  Done (rc, chunks).
Definition chunkStoreGet (hash : list Z) : calls (Z * list Z) := ask (fun _ => True).
(** The bytes for the hashes. *)
Definition chunkStoreHasMany (hashes : list (list Z)) : calls (Z * list Z) :=
  ask (fun r => r.1 = SQLITE_OK -> length r.2 = length hashes).
Definition refsTableGetHash : calls (list Z) :=
  let& h := ask (fun h => bytes_wf h /\ zlen h = PROLLY_HASH_SIZE) in let& _ := note (ev_refs h) in Done h.
(** The result and [*pbMissing]. *)
Definition doltliteValidateScopedRefsUpdate (blob branch : list Z) (force : bool) : calls (Z * bool) :=
  let& (rc, missing) := ask (fun _ : Z * bool => True) in let& _ := note (ev_scope blob branch force rc) in Done (rc, missing).
Definition doltliteValidateRefsTargetGraph (blob branch : list Z) (missing : bool) : calls (Z * bool) :=
  let& (rc, m) := ask (fun _ : Z * bool => True) in let& _ := note (ev_graph blob branch rc) in Done (rc, m).
Definition doltliteInstallPushedRefsBlob (blob branch : list Z) : calls Z := status_call (ev_install blob branch).
Definition doltliteMergeScopedRefsUpdate (expected blob branch : list Z) (force : bool) : calls (Z * bool * list Z) :=
  let& (rc, missing, merged) := ask (fun r : Z * bool * list Z => is_size (zlen r.2)) in
  let& _ := note (ev_merge expected blob branch force rc merged) in Done (rc, missing, merged).

(** * Responses *)
(** Status, reason, [code], [sqlite] and [message] of an error. *)
Inductive response : Type :=
| sendOk (body : list Z)
| sendStructuredError (httpStatus : Z) (zHttpReason zCode : list Z) (sqliteRc : Z) (zMessage : list Z).

Definition sendNotFound : response := sendStructuredError 404 (str "Not Found") (str "not_found") SQLITE_NOTFOUND (str "not found").
Definition sendBadRequest : response := sendStructuredError 400 (str "Bad Request") (str "bad_request") SQLITE_ERROR (str "bad request").
Definition sendPayloadTooLarge : response := sendStructuredError 413 (str "Payload Too Large") (str "toobig") SQLITE_TOOBIG (str "payload too large").
Definition sendUnauthorized : response := sendStructuredError 401 (str "Unauthorized") (str "unauthorized") SQLITE_AUTH (str "unauthorized").

Definition sendSqliteError (rc : Z) : response :=
  let zInternal := str "Internal Server Error" in
  if rc =? SQLITE_LOCKED then sendStructuredError 409 (str "Conflict") (str "working_set") rc (str "remote branch has uncommitted changes and cannot be overwritten by push")
  else if rc =? SQLITE_BUSY then sendStructuredError 503 (str "Service Unavailable") (str "busy") rc (str "database is locked by another connection")
  else if rc =? SQLITE_BUSY_SNAPSHOT then sendStructuredError 409 (str "Conflict") (str "refs_changed") rc (str "remote refs changed; pull and retry")
  else if rc =? SQLITE_CONSTRAINT then sendStructuredError 400 (str "Bad Request") (str "non_ff") rc (str "not a fast-forward of the remote branch (use force to overwrite)")
  else if rc =? SQLITE_NOMEM then sendStructuredError 500 zInternal (str "nomem") rc (str "out of memory")
  else if rc =? SQLITE_READONLY then sendStructuredError 500 zInternal (str "readonly") rc (str "database is read-only")
  else if rc =? SQLITE_CORRUPT then sendStructuredError 500 zInternal (str "corrupt") rc (str "database is corrupt")
  else if rc =? SQLITE_NOTADB then sendStructuredError 500 zInternal (str "notadb") rc (str "file is not a database")
  else if rc =? SQLITE_IOERR then sendStructuredError 500 zInternal (str "io") rc (str "I/O error")
  else if rc =? SQLITE_TOOBIG then sendStructuredError 413 (str "Payload Too Large") (str "toobig") rc (str "payload too large")
  else if rc =? SQLITE_AUTH then sendStructuredError 401 (str "Unauthorized") (str "unauthorized") rc (str "unauthorized")
  else if rc =? SQLITE_NOTFOUND then sendNotFound
  else sendStructuredError 500 zInternal (str "error") (if rc =? 0 then SQLITE_ERROR else rc) (str "internal error").

(** [zHeader], a buffer of 384 bytes, and the body. *)
Definition sendResponseEx (status : Z) (zStatus : list Z) (zContentType : option (list Z)) (pBody : list Z) : list Z * list Z :=
  (clip (str "HTTP/1.1 " ++ print_ld status ++ SPACE :: zStatus ++ CRLF ++
         match zContentType with Some t => str "Content-Type: " ++ t ++ CRLF | None => [] end ++
         str "Content-Length: " ++ print_ld (zlen pBody) ++ CRLF ++ str "Connection: close" ++ CRLF ++ CRLF) 384, pBody).

(** [zBody], a buffer of 512 bytes. *)
Definition error_body (zCode : list Z) (sqliteRc : Z) (zMessage : list Z) : list Z :=
  let zMsg := match zMessage with [] => str "error" | _ => zMessage end in
  let zC := match zCode with [] => str "error" | _ => zCode end in
  clip (js "{'code':'" ++ zC ++ js "','sqlite':" ++ print_ld sqliteRc ++ js ",'message':'" ++ zMsg ++ js "'}") 512.

Definition response_parts (r : response) : list Z * list Z :=
  match r with
  | sendOk body => sendResponseEx 200 (str "OK") None body
  | sendStructuredError httpStatus zHttpReason zCode sqliteRc zMessage =>
      sendResponseEx httpStatus zHttpReason (Some (str "application/json")) (error_body zCode sqliteRc zMessage)
  end.
(** What is written to the connection when nothing is held back. *)
Definition response_text (r : response) : list Z := (response_parts r).1 ++ (response_parts r).2.

(** The message so far, or [None] for [bFail]. *)
Definition remotesrvPendingAdd {S} (pend : option (list Z)) (p : list Z) : prog S (option (list Z)) :=
  match pend with
  | None => Done None
  | Some msg =>
      if zlen p <=? 0 then Done (Some msg) else
      if INT_MAX - zlen p <? zlen msg then Done None else
      let& ok := ask (fun _ : bool => True) in
      Done (if ok : bool then Some (msg ++ p) else None)
  end.
(** A response that is held back until the store is released. *)
Definition pending_response {S} (r : response) : prog S (option (list Z)) :=
  let& pend := remotesrvPendingAdd (Some []) (response_parts r).1 in
  remotesrvPendingAdd pend (response_parts r).2.

(** * Commit *)
(** [remoteSrvBusyRetry] allows [nRetry] more attempts. *)
Fixpoint commit_loop (nRetry : nat) : calls Z :=
  let& rc := chunkStoreCommit in
  match nRetry with
  | S nRetry => if rc =? SQLITE_BUSY then commit_loop nRetry else Done rc
  | O => Done rc
  end.
Definition remoteSrvCommitPending : calls Z :=
  let& rc := commit_loop 20 in
  let& _ := if rc =? SQLITE_OK then Done tt else chunkStoreRollback in
  Done rc.

Section handlers.
(** The SIMD degree of the machine and the largest of the build. *)
Context (simd_degree MAX_SIMD_DEGREE : Z).

(** * Chunks *)
(** [nHashes] hashes of 20 bytes. *)
Fixpoint split_hashes (n : nat) (pBody : list Z) : list (list Z) :=
  match n with
  | O => []
  | S n => take (Z.to_nat PROLLY_HASH_SIZE) pBody :: split_hashes n (drop (Z.to_nat PROLLY_HASH_SIZE) pBody)
  end.
Definition body_hashes (pBody : list Z) : list (list Z) := split_hashes (Z.to_nat (zlen pBody / PROLLY_HASH_SIZE)) pBody.

(** [bStore] is false when [pStore] is NULL. *)
Definition handleHasChunks (bStore : bool) (pBody : list Z) : calls response :=
  if negb (zlen pBody mod PROLLY_HASH_SIZE =? 0) then Done sendBadRequest else
  let hashes := body_hashes pBody in
  if (length hashes =? 0)%nat then Done (sendOk []) else
  let& ok := ask (fun _ : bool => True) in
  if negb ok then Done (sendSqliteError SQLITE_NOMEM) else
  if negb bStore then Done (sendOk (replicate (length hashes) 0)) else
  let& (rc, aResult) := chunkStoreHasMany hashes in
  if negb (rc =? SQLITE_OK) then Done (sendSqliteError rc) else Done (sendOk aResult).

(** What the reply has for a chunk: [u32be len][bytes]. *)
Definition chunk_frame (c : option (list Z)) : list Z :=
  let len := match c with Some d => zlen d | None => 4294967295 end in
  [u8 (Z.shiftr len 24); u8 (Z.shiftr len 16); u8 (Z.shiftr len 8); u8 len] ++ default [] c.

(** The inner loop: [inr] is a jump to [get_chunks_done]. *)
Fixpoint put_frames (chunks : list (option (list Z))) (pOut : list Z) (nAlloc : Z) : calls ((list Z * Z) + response) :=
  match chunks with
  | [] => Done (inl (pOut, nAlloc))
  | c :: chunks =>
      let add := 4 + zlen (default [] c) in
      if (add <? 0) || (MAX_RESPONSE_BYTES - add <? zlen pOut) then Done (inr sendPayloadTooLarge) else
      let& (rc, nAlloc) := growBuf (fun _ => ask (fun _ => True)) nAlloc (zlen pOut + add) in
      if negb (rc =? SQLITE_OK) then Done (inr (if rc =? SQLITE_TOOBIG then sendPayloadTooLarge else sendSqliteError rc)) else
      put_frames chunks (pOut ++ chunk_frame c) nAlloc
  end.

(** The loop over the hashes, at least one of which is read in a round. *)
Fixpoint get_loop (bStore : bool) (fuel : nat) (hashes : list (list Z)) (pOut : list Z) (nAlloc : Z) : calls response :=
  match hashes, fuel with
  | [], _ => Done (sendOk pOut)
  | _, O => must None
  | _, S fuel =>
      let batch := take CHUNK_READ_BATCH_MAX hashes in
      let& (rc, chunks) := if bStore then chunkStoreReadBatch batch else Done (SQLITE_OK, replicate (length batch) None) in
      if negb (rc =? SQLITE_OK) then Done (sendSqliteError rc) else
      let& r := put_frames chunks pOut nAlloc in
      match r with
      | inl (pOut, nAlloc) => get_loop bStore fuel (drop (length chunks) hashes) pOut nAlloc
      | inr e => Done e
      end
  end.
Definition handleGetChunks (bStore : bool) (pBody : list Z) : calls response :=
  if negb (zlen pBody mod PROLLY_HASH_SIZE =? 0) then Done sendBadRequest else
  let hashes := body_hashes pBody in
  get_loop bStore (length hashes) hashes [] 0.

(** The loop over the records [hash][u32le len][bytes]; 0 at the end of the body. *)
Fixpoint store_loop (fuel : nat) (p : list Z) : calls Z :=
  match p, fuel with
  | [], _ => Done SQLITE_OK
  | _, O => must None
  | _, S fuel =>
      if zlen p <? PROLLY_HASH_SIZE + 4 then Done SQLITE_PROTOCOL else
      let declared := take (Z.to_nat PROLLY_HASH_SIZE) p in
      let p := p +p PROLLY_HASH_SIZE in
      let& b0 := must (p !! 0%nat) in let& b1 := must (p !! 1%nat) in let& b2 := must (p !! 2%nat) in let& b3 := must (p !! 3%nat) in
      let len := Z.lor (Z.lor (Z.lor b0 (Z.shiftl b1 8)) (Z.shiftl b2 16)) (Z.shiftl b3 24) in
      let p := p +p 4 in
      if (MAX_CHUNK_BYTES <? len) || (zlen p <? len) then Done SQLITE_PROTOCOL else
      let& computed := must (prollyHashCompute simd_degree MAX_SIMD_DEGREE p len) in
      let& c := must (prollyHashCompare declared computed) in
      if negb (c =? 0) then Done SQLITE_PROTOCOL else
      let& rc := chunkStorePut (take (Z.to_nat len) p) in
      if negb (rc =? SQLITE_OK) then Done rc else
      store_loop fuel (p +p len)
  end.
Definition remoteSrvStoreChunkBatch (pBody : list Z) : calls Z :=
  let& rc := store_loop (length pBody) pBody in
  if rc =? SQLITE_OK then remoteSrvCommitPending
  else let& _ := chunkStoreRollback in Done rc.

Definition handlePostChunks (pBody : list Z) : calls response :=
  let& rc := remoteSrvStoreChunkBatch pBody in
  Done (if rc =? SQLITE_PROTOCOL then sendBadRequest else if negb (rc =? SQLITE_OK) then sendSqliteError rc else sendOk []).

(** [zHexHash] has 40 hexadecimal digits. *)
Definition hex_digit (c : Z) : option Z :=
  if (48 <=? c) && (c <=? 57) then Some (c - 48)
  else if (97 <=? c) && (c <=? 102) then Some (c - 97 + 10)
  else if (65 <=? c) && (c <=? 70) then Some (c - 65 + 10) else None.
Fixpoint hex_bytes (n : nat) (hex : list Z) : option (list Z) :=
  match n, hex with
  | O, _ => Some []
  | S n, ch :: cl :: hex =>
      let? hi := hex_digit ch in let? lo := hex_digit cl in let? h := hex_bytes n hex in
      Some (u8 (Z.lor (Z.shiftl hi 4) lo) :: h)
  | S _, _ => None
  end.
Definition doltliteHexToHash (hex : list Z) : option (list Z) :=
  if zlen hex <? PROLLY_HASH_SIZE * 2 then None else hex_bytes (Z.to_nat PROLLY_HASH_SIZE) hex.

Definition handleGetChunk (zHexHash : list Z) : calls response :=
  if zlen zHexHash <? PROLLY_HASH_SIZE * 2 then Done sendBadRequest else
  match doltliteHexToHash zHexHash with
  | None => Done sendBadRequest
  | Some hash =>
      let& (rc, pData) := chunkStoreGet hash in
      Done (if rc =? SQLITE_NOTFOUND then sendNotFound
            else if negb (rc =? SQLITE_OK) then sendSqliteError rc
            else if MAX_RESPONSE_BYTES <? zlen pData then sendPayloadTooLarge
            else sendOk pData)
  end.

(** * Refs *)
Definition handleGetRefs : calls response :=
  let& h := refsTableGetHash in
  if prollyHashIsEmpty h then Done sendNotFound else
  let& h := refsTableGetHash in
  let& (rc, pData) := chunkStoreGet h in
  Done (if rc =? SQLITE_NOTFOUND then sendNotFound else if negb (rc =? SQLITE_OK) then sendSqliteError rc else sendOk pData).

Definition remoteSrvPersistRefs : calls Z :=
  let& rc := chunkStoreSerializeRefs in
  if rc =? SQLITE_OK then remoteSrvCommitPending else let& _ := chunkStoreRollback in Done rc.

(** The result and [*pbMissing]. *)
Definition remoteSrvApplyRefsLocked (zBranch : list Z) (bForce : bool) (pBody : list Z) (bMissing : bool) : calls (Z * bool) :=
  if zlen pBody <=? 0 then Done (SQLITE_ERROR, bMissing) else
  let& (rc, bMissing) := doltliteValidateScopedRefsUpdate pBody zBranch bForce in
  let& same :=
    if rc =? SQLITE_OK then
      let& refsHash := must (prollyHashCompute simd_degree MAX_SIMD_DEGREE pBody (zlen pBody)) in
      let& h := refsTableGetHash in
      let& c := must (prollyHashCompare h refsHash) in
      Done (c =? 0)
    else Done false in
  if same : bool then Done (SQLITE_OK, bMissing) else
  let& (rc, bMissing) :=
    if rc =? SQLITE_OK then
      let& (rc, bMissing) := doltliteValidateRefsTargetGraph pBody zBranch bMissing in
      Done (if (rc =? SQLITE_CORRUPT) && bMissing then SQLITE_BUSY_SNAPSHOT else rc, bMissing)
    else Done (rc, bMissing) in
  if negb (rc =? SQLITE_OK) then let& _ := chunkStoreRollback in Done (rc, bMissing) else
  let& rc := doltliteInstallPushedRefsBlob pBody zBranch in
  if negb (rc =? SQLITE_OK) then let& _ := chunkStoreRollback in Done (rc, bMissing) else
  let& rc := remoteSrvCommitPending in
  Done (rc, bMissing).

Fixpoint lock_loop (nRetry : nat) : calls Z :=
  let& rc := chunkStoreLockAndRefresh in
  match nRetry with
  | S nRetry => if rc =? SQLITE_BUSY then lock_loop nRetry else Done rc
  | O => Done rc
  end.
Definition remoteSrvLockAndForceRefresh : calls Z :=
  let& rc := lock_loop 20 in
  let& rc :=
    if rc =? SQLITE_OK then
      let& rc := chunkStoreForceRefresh in
      Done (if (rc =? SQLITE_CANTOPEN) || (rc =? SQLITE_NOTADB) then SQLITE_OK else rc)
    else Done rc in
  let& _ := if rc =? SQLITE_OK then Done tt else chunkStoreUnlock in
  Done rc.

Definition remoteSrvApplyRefs (zBranch : list Z) (bForce : bool) (pBody : list Z) : calls (Z * bool) :=
  if zlen pBody <=? 0 then Done (SQLITE_ERROR, false) else
  let& rc := remoteSrvLockAndForceRefresh in
  if negb (rc =? SQLITE_OK) then Done (rc, false) else
  let& r := remoteSrvApplyRefsLocked zBranch bForce pBody false in
  let& _ := chunkStoreUnlock in
  Done r.

Definition remoteSrvApplyRefsIf (expectedRefsHash zBranch : list Z) (bForce : bool) (pBody : list Z) : calls (Z * bool) :=
  if zlen pBody <=? 0 then Done (SQLITE_ERROR, false) else
  let& rc := remoteSrvLockAndForceRefresh in
  if negb (rc =? SQLITE_OK) then Done (rc, false) else
  let& h := refsTableGetHash in
  let& c := must (prollyHashCompare h expectedRefsHash) in
  let& r :=
    if negb (c =? 0) then
      let& (rc, bMissing, pMerged) := doltliteMergeScopedRefsUpdate expectedRefsHash pBody zBranch bForce in
      if rc =? SQLITE_OK then remoteSrvApplyRefsLocked zBranch bForce pMerged bMissing else Done (rc, bMissing)
    else remoteSrvApplyRefsLocked zBranch bForce pBody false in
  let& _ := chunkStoreUnlock in
  Done r.

(** [u16 branchLen][branch][u8 force]; the name ends at a NUL.  [None] is an
    error, also of the allocator. *)
Definition remoteSrvParseRefsPrefix (pBody : list Z) : calls (option (list Z * bool * list Z)) :=
  if zlen pBody <? 3 then Done None else
  let& b0 := must (pBody !! 0%nat) in let& b1 := must (pBody !! 1%nat) in
  let nBranch := Z.lor b0 (Z.shiftl b1 8) in
  if zlen pBody <? 2 + nBranch + 1 then Done None else
  let& ok := ask (fun _ : bool => True) in
  if negb ok then Done None else
  let& force := must (pBody !! Z.to_nat (2 + nBranch)) in
  Done (Some (cstr (take (Z.to_nat nBranch) (pBody +p 2)), negb (force =? 0), pBody +p (2 + nBranch + 1))).

Definition remoteSrvSendRefsError (rc : Z) (bMissing : bool) : response :=
  if (rc =? SQLITE_BUSY_SNAPSHOT) && bMissing then
    sendStructuredError 409 (str "Conflict") (str "missing_chunks") rc (str "remote is missing chunks of the pushed history; retry the push")
  else sendSqliteError rc.

Definition handlePutRefs (pBody : list Z) : calls response :=
  let& r := remoteSrvParseRefsPrefix pBody in
  match r with
  | None => Done sendBadRequest
  | Some (zBranch, bForce, pRest) =>
      if zlen pRest <=? 0 then Done sendBadRequest else
      let& (rc, bMissing) := remoteSrvApplyRefs zBranch bForce pRest in
      Done (if negb (rc =? SQLITE_OK) then remoteSrvSendRefsError rc bMissing else sendOk [])
  end.

Definition handlePutRefsIf (pBody : list Z) : calls response :=
  let& r := remoteSrvParseRefsPrefix pBody in
  match r with
  | None => Done sendBadRequest
  | Some (zBranch, bForce, pRest) =>
      if zlen pRest <=? PROLLY_HASH_SIZE then Done sendBadRequest else
      let& (rc, bMissing) := remoteSrvApplyRefsIf (take (Z.to_nat PROLLY_HASH_SIZE) pRest) zBranch bForce (pRest +p PROLLY_HASH_SIZE) in
      Done (if negb (rc =? SQLITE_OK) then remoteSrvSendRefsError rc bMissing else sendOk [])
  end.

Definition handleCommit : calls response :=
  let& rc := remoteSrvPersistRefs in
  Done (if negb (rc =? SQLITE_OK) then sendSqliteError rc else sendOk []).

(** The default branch, its hash, and the number of branches are the store's. *)
Definition remoteSrvResolveRoot : calls (Z * list Z) :=
  let& zDef := ask (fun _ : option (list Z) => True) in
  let& (rc, pRoot) := match zDef with
                      | Some _ => ask (fun r : Z * list Z => zlen r.2 = PROLLY_HASH_SIZE)
                      | None => Done (SQLITE_NOTFOUND, replicate (Z.to_nat PROLLY_HASH_SIZE) 0)
                      end in
  let& nBranch := ask (fun n : Z => 0 <= n) in
  Done (if (rc =? SQLITE_NOTFOUND) && (nBranch =? 0) then (SQLITE_OK, replicate (Z.to_nat PROLLY_HASH_SIZE) 0)
        else (if rc =? SQLITE_NOTFOUND then SQLITE_CORRUPT else rc, pRoot)).
Definition handleGetRoot : calls response :=
  let& (rc, root) := remoteSrvResolveRoot in
  Done (if rc =? SQLITE_OK then sendOk root else sendSqliteError rc).

(** The part of [handleRequest] that picks the handler. *)
Definition handle_endpoint (ep : endpoint) (pBody : list Z) : calls response :=
  match ep with
  | GetRoot => handleGetRoot
  | GetChunk zHexHash => handleGetChunk zHexHash
  | GetRefs => handleGetRefs
  | HasChunks => handleHasChunks true pBody
  | GetChunks => handleGetChunks true pBody
  | PostChunks => handlePostChunks pBody
  | Commit => handleCommit
  | PutRefs => handlePutRefs pBody
  | PutRefsIf => handlePutRefsIf pBody
  | NoEndpoint => Done sendNotFound
  | NoMethod => Done sendBadRequest
  end.
End handlers.
