(* ===== verification/HandlersSpec.v ===== *)
(** What the endpoints of the server of [remote/doltlite_remotesrv.c] do.
    [alone p es Q]: after the calls [es], and whatever the store answers, [p]
    ends with [Q]. *)
From S2P Require Import Prelude CInt Ge Ed25519 CString World Radix Json Creds CredsFile Bearer CredsConfig Encoding HashSet Blake3 Blake3Tree Blake3Stream Hash Http HttpSpec Threads Server ServerLoop Handlers.

(** * Commit *)
Lemma status_call_alone (e : Z -> store_event) es (Q : Z -> list store_event -> Prop) : (forall rc, Q rc (es ++ [e rc])) -> alone (status_call e) es Q.
Proof. intros H rc _. apply H. Qed.

(** The attempts to commit: all busy but the last. *)
Lemma commit_loop_alone nRetry es :
  alone (commit_loop nRetry) es (fun rc es' => exists n, (n <= nRetry)%nat /\ es' = es ++ replicate n (ev_commit SQLITE_BUSY) ++ [ev_commit rc]).
Proof.
  revert es. induction nRetry as [|n IH]; intros es; cbn [commit_loop]; (eapply alone_call; [by apply (status_call_alone _ _ (fun rc es' => es' = es ++ [ev_commit rc]))|]); intros rc es' ->.
  - by exists 0%nat.
  - destruct (Z.eqb_spec rc SQLITE_BUSY) as [->|_]; [|exists 0%nat; split; [lia|done]]. eapply alone_mono; [apply IH|].
    intros rc' es' (m & Hm & ->). exists (S m). split; [lia|]. cbn [replicate]. by rewrite <- app_assoc.
Qed.

Lemma commit_alone es : alone remoteSrvCommitPending es (fun rc es' => exists n, (n <= 20)%nat /\
  es' = es ++ replicate n (ev_commit SQLITE_BUSY) ++ [ev_commit rc] ++ (if rc =? SQLITE_OK then [] else [ev_rollback])).
Proof.
  eapply alone_call; [apply commit_loop_alone|]. intros rc es' (n & Hn & ->). destruct (rc =? SQLITE_OK) eqn:E; cbn; rewrite E; exists n; (split; [done|]);
    rewrite <- ?app_assoc; done.
Qed.

(** * Chunks *)
(** A record of a batch. *)
Definition record (d : list Z) : list Z := prolly_hash d ++ le_encode 4 (zlen d) ++ d.
Definition put_ok (d : list Z) : store_event := ev_put d SQLITE_OK.

Lemma le32_lor b0 b1 b2 b3 : is_byte b0 -> is_byte b1 -> is_byte b2 -> is_byte b3 ->
  Z.lor (Z.lor (Z.lor b0 (Z.shiftl b1 8)) (Z.shiftl b2 16)) (Z.shiftl b3 24) = le_decode [b0; b1; b2; b3].
Proof.
  unfold is_byte. intros. rewrite (lor_shiftl_add b0 b1), (lor_shiftl_add _ b2), (lor_shiftl_add _ b3) by lia. cbn [le_decode]. lia.
Qed.

Lemma length_record d : zlen (record d) = 24 + zlen d.
Proof. unfold record. rewrite !length_app, length_prolly_hash, length_le_encode. lia. Qed.

Lemma record_inv h w rest d q : length h = 20%nat -> length w = 4%nat -> h ++ w ++ rest = record d ++ q ->
  h = prolly_hash d /\ w = le_encode 4 (zlen d) /\ rest = d ++ q.
Proof.
  intros Lh Lw E. unfold record in E. rewrite <- !app_assoc in E. apply app_inj_1 in E as [-> E]; [|by rewrite length_prolly_hash].
  apply app_inj_1 in E as [-> ->]; [done|]. by rewrite length_le_encode.
Qed.

(** The parts of a body of at least 24 bytes. *)
Lemma body_parts (p : list Z) : 24 <= zlen p -> exists h b0 b1 b2 b3 rest, length h = 20%nat /\ p = h ++ [b0; b1; b2; b3] ++ rest.
Proof.
  intros Hp. pose proof (take_drop 20 p) as E. assert (4 <= length (drop 20 p))%nat as Hd by (rewrite length_drop; lia).
  destruct (drop 20 p) as [|b0 [|b1 [|b2 [|b3 rest]]]]; cbn [length] in Hd; try lia. exists (take 20 p), b0, b1, b2, b3, rest. split; [rewrite length_take; lia|done].
Qed.

Lemma record_eq d : record d = prolly_hash d ++ le_encode 4 (zlen d) ++ d.
Proof. reflexivity. Qed.
#[local] Opaque record.

Section batch.
Context (j : nat) (max : Z).
Context (Hj : (j <= 4)%nat) (Hmax : 2 ^ Z.of_nat j <= max) (Hmx : max = 1 \/ max = 4 \/ max = 16).
Abbreviation batch_loop := (store_loop (2 ^ Z.of_nat j) max).

(** A round on the parts of the body. *)
Lemma store_parts fuel h b0 b1 b2 b3 rest es Q : length h = 20%nat -> bytes_wf [b0; b1; b2; b3] -> zlen rest <= INT_MAX ->
  let len := le_decode [b0; b1; b2; b3] in
  let d := take (Z.to_nat len) rest in
  (if (MAX_CHUNK_BYTES <? len) || (zlen rest <? len) || negb (bool_decide (h = prolly_hash d)) then Q SQLITE_PROTOCOL es
   else forall rc, if rc =? SQLITE_OK then alone (batch_loop fuel (rest +p len)) (es ++ [ev_put d rc]) Q else Q rc (es ++ [ev_put d rc])) ->
  alone (batch_loop (S fuel) (h ++ [b0; b1; b2; b3] ++ rest)) es Q.
Proof using Hj Hmax Hmx.
  intros Lh Hb Hr len d H. assert (exists c t, h ++ [b0; b1; b2; b3] ++ rest = c :: t) as (c & t & E) by (destruct h; [done|by eexists _, _]).
  cbn [store_loop]. rewrite E. rewrite <- E. clear c t E. rewrite (proj2 (Z.ltb_ge _ _)) by (rewrite !length_app, Lh; cbn [length]; unfold PROLLY_HASH_SIZE; lia).
  cbv zeta. rewrite (ptr_add_app h ([b0; b1; b2; b3] ++ rest) PROLLY_HASH_SIZE) by by rewrite Lh.
  assert (take (Z.to_nat PROLLY_HASH_SIZE) (h ++ [b0; b1; b2; b3] ++ rest) = h) as -> by (by apply take_app_length').
  cbn [app lookup list_lookup must bind]. change ((b0 :: b1 :: b2 :: b3 :: rest) +p 4) with rest.
  pose proof (le_decode_bound _ Hb) as Hlen. fold len in Hlen. do 4 (apply Forall_cons in Hb as [? Hb]). rewrite le32_lor by done. fold len.
  destruct ((MAX_CHUNK_BYTES <? len) || (zlen rest <? len)) eqn:El; [exact H|]. cbn [orb] in H. apply orb_false_iff in El as [El1%Z.ltb_ge El2%Z.ltb_ge].
  rewrite (hash_compute_spec j max Hj Hmax Hmx) by (unfold MAX_CHUNK_BYTES, INT_MAX in *; lia). fold d. cbn [must bind]. unfold prollyHashCompare.
  rewrite memcmp_spec by (rewrite ?length_prolly_hash, ?Lh; done). cbn [must bind].
  rewrite !take_ge by (rewrite ?length_prolly_hash, ?Lh; done). destruct (bool_decide_reflect (h = prolly_hash d)) as [->|Hne]; cbn [negb] in H.
  - rewrite lexcmp_refl. cbn [cmp_sign Z.eqb negb]. intros rc _. specialize (H rc). cbn. destruct (rc =? SQLITE_OK); exact H.
  - assert (cmp_sign (lexcmp h (prolly_hash d)) =? 0 = false) as ->; [|exact H]. destruct (lexcmp h (prolly_hash d)) eqn:Ec; [|done|done]. by apply lexcmp_eq in Ec.
Qed.

(** What the loop did: it put the records in front, in order, and stopped at
    the end, at something that is no record, or at a record the store refused. *)
Definition stored (p : list Z) (es : list store_event) (rc : Z) (es' : list store_event) : Prop :=
  exists ds rest, p = mjoin (record <$> ds) ++ rest /\ Forall (fun d => zlen d <= MAX_CHUNK_BYTES) ds /\
    (rc = SQLITE_OK /\ rest = [] /\ es' = es ++ (put_ok <$> ds) \/
     rc = SQLITE_PROTOCOL /\ rest <> [] /\ (forall d q, zlen d <= MAX_CHUNK_BYTES -> rest <> record d ++ q) /\ es' = es ++ (put_ok <$> ds) \/
     rc <> SQLITE_OK /\ exists d q, rest = record d ++ q /\ es' = es ++ (put_ok <$> ds) ++ [ev_put d rc]).

Lemma stored_refused p es : p <> [] -> (forall d q, zlen d <= MAX_CHUNK_BYTES -> p <> record d ++ q) -> stored p es SQLITE_PROTOCOL es.
Proof using. intros Hp Hn. exists [], p. split; [done|]. split; [constructor|]. right. left. cbn. by rewrite app_nil_r. Qed.

Lemma stored_failed p d q es rc : p = record d ++ q -> rc <> SQLITE_OK -> stored p es rc (es ++ [ev_put d rc]).
Proof using.
  intros Ep Hrc. exists [], p. split; [done|]. split; [constructor|]. right. right. split; [exact Hrc|]. exists d, q. split; [exact Ep|reflexivity].
Qed.

Lemma stored_next d q es rc es' : zlen d <= MAX_CHUNK_BYTES -> stored q (es ++ [put_ok d]) rc es' -> stored (record d ++ q) es rc es'.
Proof using.
  intros Hd (ds & rest & -> & Hds & H). exists (d :: ds), rest. split; [by rewrite app_assoc|]. split; [by constructor|]. cbn [fmap list_fmap].
  destruct H as [(-> & -> & ->)|[(-> & Hr & Hn & ->)|(Hrc & d' & q' & -> & ->)]]; rewrite <- ?app_assoc; [by left|right; by left|right; right; split; [done|by exists d', q']].
Qed.

Lemma store_loop_alone fuel p es : bytes_wf p -> zlen p <= MAX_REQUEST_BYTES -> (length p <= fuel)%nat -> alone (batch_loop fuel p) es (stored p es).
Proof using Hj Hmax Hmx.
  revert p es. induction fuel as [|fuel IH]; intros p es Hw Hp Hf.
  { destruct p; [|cbn in Hf; lia]. cbn. exists [], []. split; [done|]. split; [constructor|]. left. by rewrite app_nil_r. }
  destruct (decide (zlen p < 24)) as [Hs|Hs].
  { destruct p as [|c p]; [cbn; exists [], []; split; [done|]; split; [constructor|]; left; by rewrite app_nil_r|].
    cbn [store_loop]. rewrite (proj2 (Z.ltb_lt _ _)) by done. apply stored_refused; [done|]. intros d q _ E. rewrite E, length_app in Hs. pose proof (length_record d). lia. }
  destruct (body_parts p) as (h & b0 & b1 & b2 & b3 & rest & Lh & ->); [lia|]. set (w := [b0; b1; b2; b3]) in *.
  apply bytes_wf_app in Hw as [_ [Hww Hr]%bytes_wf_app]. rewrite !length_app, Lh in Hp, Hf. change (length w) with 4%nat in *.
  assert (forall d q, zlen d <= MAX_CHUNK_BYTES -> h ++ w ++ rest = record d ++ q -> le_decode w = zlen d /\ h = prolly_hash d /\ rest = d ++ q) as Hinv.
  { intros d q Hd (-> & Ew & ->)%record_inv; [|done|done]. rewrite Ew, le_decode_encode; [done|]. unfold MAX_CHUNK_BYTES in Hd. lia. }
  apply store_parts; [done|done|unfold MAX_REQUEST_BYTES, MAX_CHUNK_BYTES, INT_MAX in *; lia|]. cbv zeta. fold w. set (d := take (Z.to_nat (le_decode w)) rest).
  pose proof (le_decode_bound w Hww) as Hb. destruct (_ || _ || _) eqn:Ec.
  - apply stored_refused; [by destruct h|]. intros d' q Hd' E. apply (Hinv d' q Hd') in E as (El & Eh & Er).
    unfold d in Ec. rewrite El, Er, Nat2Z.id, take_app_length, length_app in Ec. rewrite bool_decide_eq_true_2 in Ec by done. cbn [negb] in Ec.
    rewrite orb_false_r, orb_true_iff, !Z.ltb_lt in Ec. lia.
  - apply orb_false_iff in Ec as [[El1%Z.ltb_ge El2%Z.ltb_ge]%orb_false_iff Eh%negb_false_iff%bool_decide_eq_true]. assert (zlen d = le_decode w) as Ld by (unfold d; rewrite length_take; lia).
    assert (h ++ w ++ rest = record d ++ (rest +p le_decode w)) as E.
    { rewrite record_eq, <- !app_assoc. f_equal; [done|]. f_equal; [|unfold d, ptr_add; by rewrite take_drop]. rewrite Ld. symmetry. exact (le_encode_decode w Hww). }
    intros rc. rewrite E. destruct (Z.eqb_spec rc SQLITE_OK) as [->|Hrc].
    + eapply alone_mono; [apply IH; [by apply Forall_drop|unfold ptr_add; rewrite length_drop; lia|unfold ptr_add; rewrite length_drop; lia]|]. intros rc' es' H. apply stored_next; [lia|done].
    + by eapply stored_failed.
Qed.
End batch.

(** Records are read back one by one. *)
Lemma record_unique d d' q q' : zlen d <= MAX_CHUNK_BYTES -> zlen d' <= MAX_CHUNK_BYTES -> record d ++ q = record d' ++ q' -> d = d' /\ q = q'.
Proof.
  intros Hd Hd' E. rewrite (record_eq d), <- !app_assoc in E. apply record_inv in E as (_ & El & E); [|by rewrite length_prolly_hash|by rewrite length_le_encode].
  assert (zlen d = zlen d') as Ez. { apply (f_equal le_decode) in El. rewrite !le_decode_encode in El; [done|unfold MAX_CHUNK_BYTES in *; lia..]. }
  apply app_inj_1 in E; [done|lia].
Qed.

Lemma records_rest ds rest ds' : Forall (fun d => zlen d <= MAX_CHUNK_BYTES) ds -> Forall (fun d => zlen d <= MAX_CHUNK_BYTES) ds' ->
  mjoin (record <$> ds) ++ rest = mjoin (record <$> ds') -> rest = [] /\ ds = ds' \/ exists d q, zlen d <= MAX_CHUNK_BYTES /\ rest = record d ++ q.
Proof.
  intros Hds. revert ds'. induction Hds as [|d ds Hd _ IH]; intros ds' Hds' E.
  - destruct Hds' as [|d' ds' Hd' _]; [by left|]. right. exists d', (mjoin (record <$> ds')). done.
  - change (mjoin (record <$> d :: ds)) with (record d ++ mjoin (record <$> ds)) in E. rewrite <- app_assoc in E. destruct Hds' as [|d' ds' Hd' Hds'].
    + apply (f_equal length) in E. rewrite length_app in E. pose proof (length_record d). cbn in E. lia.
    + change (mjoin (record <$> d' :: ds')) with (record d' ++ mjoin (record <$> ds')) in E. apply record_unique in E as [-> E]; [|done|done].
      destruct (IH ds' Hds' E) as [[-> ->]|?]; [by left|by right].
Qed.


(** * Replies with chunks *)
Lemma grow_total fuel i need : 0 <= i <= 18 -> 18 - i < Z.of_nat fuel -> need <= MAX_REQUEST_BYTES ->
  exists k, 0 <= k <= 18 /\ grow_size fuel (buffer_size i) need = Some (buffer_size k) /\ need <= buffer_size k.
Proof.
  revert i. induction fuel as [|fuel IH]; intros i Hi Hf Hn; [lia|]. cbn [grow_size]. destruct (Z.ltb_spec (buffer_size i) need) as [Hlt|]; [|by exists i].
  destruct (Z.ltb_spec (MAX_RESPONSE_BYTES / 2) (buffer_size i)) as [Hb|Hb].
  - exists 18. split_and!; [lia|lia|done|exact Hn].
  - assert (i < 18) by (destruct (decide (i = 18)) as [->|]; [change (buffer_size 18) with MAX_REQUEST_BYTES in *; lia|lia]).
    rewrite buffer_size_double by lia. apply IH; lia.
Qed.

Lemma grow_alone nAlloc need (es : list store_event) : alloc_ok nAlloc -> 0 <= need <= MAX_RESPONSE_BYTES ->
  alone (growBuf (fun _ => ask (fun _ => True)) nAlloc need) es (fun x es' => es' = es /\ (x.1 = OK -> alloc_ok x.2)).
Proof.
  intros Ha Hn. unfold growBuf. assert ((need <? 0) || (MAX_RESPONSE_BYTES <? need) = false) as -> by (apply orb_false_iff; split; apply Z.ltb_ge; lia).
  destruct (need <=? nAlloc); [done|]. assert (exists i, 0 <= i <= 18 /\ (if 0 <? nAlloc then nAlloc else 4096) = buffer_size i) as (i & Hi & ->).
  { destruct Ha as [->|(i & Hi & ->)]; [by exists 0|]. exists i. split; [done|]. pose proof (buffer_size_bounds i Hi). by rewrite (proj2 (Z.ltb_lt 0 (buffer_size i))) by lia. }
  destruct (grow_total 32 i need) as (k & Hk & -> & Hle); [lia|lia|unfold MAX_RESPONSE_BYTES in Hn; lia|]. cbn [must bind]. rewrite (proj2 (Z.ltb_ge _ _) Hle).
  intros [] _; (split; [done|]); [intros _; right; by exists k|done].
Qed.

Lemma error_not_ok rc b : sendSqliteError rc <> sendOk b.
Proof. unfold sendSqliteError, sendNotFound. repeat case_match; done. Qed.

(** The frames of the chunks are added, or the reply is an error. *)
Lemma put_frames_alone chunks out nAlloc es : Forall (fun c => is_size (zlen (default [] c))) chunks -> alloc_ok nAlloc -> zlen out <= MAX_RESPONSE_BYTES ->
  alone (put_frames chunks out nAlloc) es (fun r es' => es' = es /\
    match r with
    | inl (out', n) => out' = out ++ mjoin (chunk_frame <$> chunks) /\ alloc_ok n /\ zlen out' <= MAX_RESPONSE_BYTES
    | inr e => forall b, e <> sendOk b
    end).
Proof.
  intros Hc. revert out nAlloc. induction Hc as [|c chunks Hc _ IH]; intros out nAlloc Ha Ho; [by rewrite app_nil_r|]. cbn [put_frames].
  destruct ((4 + zlen (default [] c) <? 0) || (MAX_RESPONSE_BYTES - (4 + zlen (default [] c)) <? zlen out)) eqn:E; [by split|].
  apply orb_false_iff in E as [_ E%Z.ltb_ge]. eapply alone_call; [apply grow_alone; [done|lia]|]. intros [rc n] es' [-> Hn]. cbn [fst snd] in Hn.
  destruct (Z.eqb_spec rc SQLITE_OK) as [->|Hrc]; cbn [negb].
  - assert (zlen (out ++ chunk_frame c) <= MAX_RESPONSE_BYTES) as Ho' by (rewrite length_app; unfold chunk_frame; rewrite length_app; cbn [length]; lia).
    eapply alone_mono; [by apply IH; [apply Hn|]|]. intros r es' [-> H]. split; [done|]. destruct r as [[out' n']|e]; [|done]. by rewrite <- app_assoc in H.
  - split; [done|]. intros b. destruct (rc =? SQLITE_TOOBIG); [done|apply error_not_ok].
Qed.

(** The hashes a reply is about, with the chunks. *)
Definition answered (es : list store_event) : list (list Z * option (list Z)) :=
  mjoin ((fun e => match e with ev_read hashes chunks => zip hashes chunks | _ => [] end) <$> es).

Lemma answered_read es hashes chunks : answered (es ++ [ev_read hashes chunks]) = answered es ++ zip hashes chunks.
Proof. unfold answered. rewrite fmap_app, join_app. cbn. by rewrite app_nil_r. Qed.

(** Reading a reply. *)
Fixpoint read_frames (fuel : nat) (p : list Z) : option (list (option (list Z))) :=
  match p, fuel with
  | [], _ => Some []
  | b0 :: b1 :: b2 :: b3 :: p, S fuel =>
      let len := be_decode [b0; b1; b2; b3] in
      if len =? 4294967295 then let? cs := read_frames fuel p in Some (None :: cs)
      else let? cs := read_frames fuel (drop (Z.to_nat len) p) in Some (Some (take (Z.to_nat len) p) :: cs)
  | _, _ => None
  end.

Lemma frame_header len : 0 <= len < 2 ^ 32 -> be_decode [u8 (Z.shiftr len 24); u8 (Z.shiftr len 16); u8 (Z.shiftr len 8); u8 len] = len.
Proof.
  intros Hl. rewrite !Z.shiftr_div_pow2 by lia. unfold u8, be_decode. cbn [foldl]. change (2 ^ 24) with 16777216. change (2 ^ 16) with 65536. change (2 ^ 8) with 256.
  Z.to_euclidean_division_equations. lia.
Qed.

Lemma read_frames_frames fuel cs : Forall (fun c => is_size (zlen (default [] c))) cs -> (length cs <= fuel)%nat -> read_frames fuel (mjoin (chunk_frame <$> cs)) = Some cs.
Proof.
  intros Hc. revert fuel. induction Hc as [|c cs Hc _ IH]; intros fuel Hf; [by destruct fuel|]. destruct fuel as [|fuel]; [cbn in Hf; lia|].
  change (mjoin (chunk_frame <$> c :: cs)) with (chunk_frame c ++ mjoin (chunk_frame <$> cs)). unfold chunk_frame at 1. cbn [app read_frames]. unfold is_size, INT_MAX in Hc.
  destruct c as [d|]; cbn [default from_option] in *; unfold id in *.
  - rewrite frame_header by lia. rewrite (proj2 (Z.eqb_neq (zlen d) 4294967295)) by lia. unfold id. rewrite Nat2Z.id, drop_app_length, take_app_length, IH by (cbn in Hf; lia). done.
  - rewrite frame_header by lia. cbn [Z.eqb Pos.eqb app]. by rewrite IH by (cbn in Hf; lia).
Qed.

Definition sizes_ok (es : list store_event) : Prop := Forall (fun x => is_size (zlen (default [] x.2))) (answered es).

Lemma zip_fst_prefix {A B} (l : list A) (k : list B) : (length k <= length l)%nat -> (zip l k).*1 = take (length k) l.
Proof. revert l. induction k as [|y k IH]; intros [|x l] H; cbn in *; [done|done|lia|]. f_equal. apply IH. lia. Qed.

Lemma zip_take {A B} n (l : list A) (k : list B) : (length k <= n)%nat -> zip (take n l) k = zip l k.
Proof. revert n l. induction k as [|y k IH]; intros n [|x l] H; destruct n as [|n]; cbn in *; try done; [lia|]. f_equal. apply IH. lia. Qed.

Lemma get_loop_alone fuel hashes out nAlloc es : (length hashes <= fuel)%nat -> alloc_ok nAlloc -> zlen out <= MAX_RESPONSE_BYTES -> sizes_ok es ->
  out = mjoin (chunk_frame <$> (answered es).*2) ->
  alone (get_loop true fuel hashes out nAlloc) es (fun resp es' => sizes_ok es' /\ forall body, resp = sendOk body ->
    (answered es').*1 = (answered es).*1 ++ hashes /\ body = mjoin (chunk_frame <$> (answered es').*2) /\ zlen body <= MAX_RESPONSE_BYTES).
Proof.
  revert hashes out nAlloc es. induction fuel as [|fuel IH]; intros hashes out nAlloc es Hf Ha Ho Hs Eo.
  { destruct hashes; [|cbn in Hf; lia]. cbn. split; [done|]. intros body [= <-]. by rewrite app_nil_r. }
  destruct hashes as [|h hashes]; [cbn; split; [done|]; intros body [= <-]; by rewrite app_nil_r|]. cbn [get_loop]. cbv zeta. set (hs := h :: hashes) in *.
  intros [rc chunks] Hrd. cbn [fst snd] in Hrd. cbn [bind note upd act alone]. destruct (Z.eqb_spec rc SQLITE_OK) as [->|Hrc]; cbn [negb].
  2: { assert (answered (es ++ [ev_read (take CHUNK_READ_BATCH_MAX hs) []]) = answered es) as E by (rewrite answered_read, zip_with_nil_r; apply app_nil_r).
    split; [unfold sizes_ok in *; rewrite <- E in Hs; exact Hs|]. intros body H%error_not_ok. done. }
  destruct (Hrd eq_refl) as [Hlen Hsz]. rewrite length_take in Hlen. set (es1 := es ++ [ev_read (take CHUNK_READ_BATCH_MAX hs) chunks]).
  assert (answered es1 = answered es ++ zip hs chunks) as E1.
  { unfold es1. rewrite answered_read, zip_take by lia. done. }
  assert ((zip hs chunks).*2 = chunks) as E2 by (apply snd_zip; lia). assert ((zip hs chunks).*1 = take (length chunks) hs) as E3 by (apply zip_fst_prefix; lia).
  eapply alone_call; [by apply put_frames_alone|]. intros [[out' n]|e] es' [-> H].
  2: { cbn. split; [|intros body E; by apply H in E]. unfold sizes_ok. rewrite E1. apply Forall_app. split; [done|]. rewrite <- E2 in Hsz. by rewrite Forall_fmap in Hsz. }
  destruct H as (-> & Hn & Ho'). eapply alone_mono; [apply IH|].
  - rewrite length_drop. lia.
  - done.
  - done.
  - unfold sizes_ok. rewrite E1. apply Forall_app. split; [done|]. rewrite <- E2 in Hsz. by rewrite Forall_fmap in Hsz.
  - rewrite Eo, E1, fmap_app, fmap_app, join_app, E2. done.
  - intros resp es' [Hs' H]. split; [done|]. intros body Hb. destruct (H body Hb) as (Ef & Eb & Hle). split_and!; [|done|done].
    by rewrite Ef, E1, fmap_app, E3, <- app_assoc, take_drop.
Qed.


(** * Refs *)
Section refs.
Context (j : nat) (max : Z).
Context (Hj : (j <= 4)%nat) (Hmax : 2 ^ Z.of_nat j <= max) (Hmx : max = 1 \/ max = 4 \/ max = 16).
Context (branch : list Z) (force : bool).

(** The store is locked and not unlocked yet. *)
Definition locked (es : list store_event) : Prop := ev_lock SQLITE_OK ∈ es /\ ev_unlock ∉ es.

(** Refs are installed under the lock, after both checks of the very blob, and
    committed under the lock after they were installed. *)
Definition allowed (es : list store_event) (e : store_event) : Prop :=
  match e with
  | ev_install blob b _ => b = branch /\ locked es /\ ev_scope blob branch force SQLITE_OK ∈ es /\ ev_graph blob branch SQLITE_OK ∈ es
  | ev_commit _ => locked es /\ exists blob, ev_install blob branch SQLITE_OK ∈ es
  | _ => True
  end.
Inductive guarded : list store_event -> Prop :=
| guarded_nil : guarded []
| guarded_snoc es e : guarded es -> allowed es e -> guarded (es ++ [e]).

(** The store has the refs of [blob]: they were installed and committed, or
    they are the ones it has. *)
Definition has_refs (blob : list Z) (es : list store_event) : Prop :=
  ev_install blob branch SQLITE_OK ∈ es /\ ev_commit SQLITE_OK ∈ es \/ ev_refs (prolly_hash blob) ∈ es.

Lemma locked_snoc es e : locked es -> e <> ev_unlock -> locked (es ++ [e]).
Proof using. intros [H1 H2] He. split; rewrite elem_of_app, ?list_elem_of_singleton; [by left|]. intros [?|E]; [done|by symmetry in E]. Qed.

Lemma commit_guarded n rc tail es : guarded es -> locked es -> (exists blob, ev_install blob branch SQLITE_OK ∈ es) -> tail = [] \/ tail = [ev_rollback] ->
  let es' := es ++ replicate n (ev_commit SQLITE_BUSY) ++ [ev_commit rc] ++ tail in guarded es' /\ locked es'.
Proof using.
  intros Hg Hk [blob Hb] Ht. cbv zeta. revert es Hg Hk Hb. induction n as [|n IH]; intros es Hg Hk Hb; cbn [replicate app].
  - assert (guarded (es ++ [ev_commit rc]) /\ locked (es ++ [ev_commit rc])) as [Hg1 Hk1].
    { split; [apply guarded_snoc; [done|split; [done|by exists blob]]|by apply locked_snoc]. }
    destruct Ht as [->| ->]; [done|]. change [ev_commit rc; ev_rollback] with ([ev_commit rc] ++ [ev_rollback]). rewrite app_assoc.
    split; [by apply guarded_snoc|by apply locked_snoc].
  - rewrite cons_middle, app_assoc. apply IH; [apply guarded_snoc; [done|split; [done|by exists blob]]|by apply locked_snoc|].
    rewrite elem_of_app. by left.
Qed.

(** What holds while the store is locked and nothing is committed. *)
Definition working (es0 es : list store_event) : Prop := guarded es /\ locked es /\ es0 `prefix_of` es /\ ev_commit SQLITE_OK ∉ es.

Lemma working_snoc es0 es e : working es0 es -> allowed es e -> e <> ev_unlock -> e <> ev_commit SQLITE_OK -> working es0 (es ++ [e]).
Proof using.
  intros (Hg & Hk & Hp & Hc) Ha Hu Hn. split_and!; [by apply guarded_snoc|by apply locked_snoc|by apply prefix_app_r|].
  rewrite elem_of_app, list_elem_of_singleton. intros [?|E]; [done|by symmetry in E].
Qed.

(** How the work under the lock ends. *)
Definition worked (es0 : list store_event) (blob : list Z) (rc : Z) (es : list store_event) : Prop :=
  guarded es /\ locked es /\ es0 `prefix_of` es /\ (rc = SQLITE_OK -> has_refs blob es) /\ (rc <> SQLITE_OK -> ev_commit SQLITE_OK ∉ es).

Lemma working_failed es0 es blob rc : working es0 es -> rc <> SQLITE_OK -> worked es0 blob rc es.
Proof using. intros (? & ? & ? & ?) Hrc. by split_and!. Qed.

Lemma install_alone es0 es blob missing : working es0 es -> ev_scope blob branch force SQLITE_OK ∈ es -> ev_graph blob branch SQLITE_OK ∈ es ->
  alone (let& rc := doltliteInstallPushedRefsBlob blob branch in
         if negb (rc =? SQLITE_OK) then let& _ := chunkStoreRollback in Done (rc, missing) else
         let& rc := remoteSrvCommitPending in Done (rc, missing : bool)) es (fun r => worked es0 blob r.1).
Proof using.
  intros Hw Hs Hgr rc _. cbn [bind note upd act alone]. assert (allowed es (ev_install blob branch rc)) as Ha by (destruct Hw as (_ & ? & _); by split_and!).
  pose proof (working_snoc es0 es _ Hw Ha ltac:(done) ltac:(done)) as Hw1. destruct (Z.eqb_spec rc SQLITE_OK) as [->|Hrc]; cbn [negb].
  2: { cbn. apply working_failed; [|done]. by apply working_snoc. }
  set (es1 := es ++ _) in *. assert (ev_install blob branch SQLITE_OK ∈ es1) as Hin by (apply elem_of_app; right; apply list_elem_of_here).
  eapply alone_call; [apply commit_alone|]. intros rc es' (n & _ & ->). destruct Hw1 as (Hg & Hk & Hp & Hc). cbn [alone fst].
  destruct (commit_guarded n rc (if rc =? SQLITE_OK then [] else [ev_rollback]) es1 Hg Hk) as [Hg' Hk']; [by exists blob|destruct (rc =? SQLITE_OK); auto|].
  split_and!; [done|done|by apply prefix_app_r| |].
  - intros ->. left. split; rewrite !elem_of_app, ?list_elem_of_singleton; auto.
  - intros Hrc. rewrite (proj2 (Z.eqb_neq rc SQLITE_OK) Hrc), !elem_of_app, !list_elem_of_singleton, elem_of_replicate. intros [?|[[[=] _]|[[= <-]|[=]]]]; done.
Qed.

Lemma apply_locked_alone blob missing es : is_size (zlen blob) -> working es es ->
  alone (remoteSrvApplyRefsLocked (2 ^ Z.of_nat j) max branch force blob missing) es (fun r => worked es blob r.1).
Proof using Hj Hmax Hmx.
  intros Hsz Hw. unfold remoteSrvApplyRefsLocked. destruct (zlen blob <=? 0); [by apply working_failed|]. intros [rc m] _. cbn [bind note upd act alone].
  pose proof (working_snoc es es (ev_scope blob branch force rc) Hw I ltac:(done) ltac:(done)) as Hw1. destruct (Z.eqb_spec rc SQLITE_OK) as [->|Hrc].
  2: { cbn [bind]. rewrite (proj2 (Z.eqb_neq rc SQLITE_OK) Hrc). cbn. apply working_failed; [|done]. by apply working_snoc. }
  set (es1 := es ++ _) in *. assert (ev_scope blob branch force SQLITE_OK ∈ es1) as Hs by (apply elem_of_app; right; apply list_elem_of_here).
  rewrite (hash_compute_spec j max Hj Hmax Hmx) by (unfold is_size in Hsz; lia). rewrite Nat2Z.id, firstn_all. cbn [must bind]. intros h [Hb Hh]. cbn [bind note upd act alone].
  unfold prollyHashCompare. rewrite memcmp_spec by (rewrite ?length_prolly_hash, ?Hh; done). cbn [must bind].
  rewrite !take_ge by (rewrite ?length_prolly_hash; unfold PROLLY_HASH_SIZE in *; lia).
  pose proof (working_snoc es es1 (ev_refs h) Hw1 I ltac:(done) ltac:(done)) as Hw2. set (es2 := es1 ++ _) in *. assert (ev_scope blob branch force SQLITE_OK ∈ es2) as Hs2 by (apply elem_of_app; by left).
  destruct (cmp_sign (lexcmp h (prolly_hash blob)) =? 0) eqn:Ec.
  { destruct (lexcmp h (prolly_hash blob)) eqn:El; [|done|done]. apply lexcmp_eq in El as ->. destruct Hw2 as (? & ? & ? & ?). split_and!; [done..| |done].
    intros _. right. apply elem_of_app. right. apply list_elem_of_here. }
  change (SQLITE_OK =? SQLITE_OK) with true. cbv iota. intros [rc m'] _. cbn [bind note upd act alone].
  pose proof (working_snoc es es2 (ev_graph blob branch rc) Hw2 I ltac:(done) ltac:(done)) as Hw3. set (es3 := es2 ++ _) in *.
  destruct (Z.eqb_spec rc SQLITE_OK) as [->|Hrc].
  - apply install_alone; [done|apply elem_of_app; by left|apply elem_of_app; right; apply list_elem_of_here].
  - assert ((if (rc =? SQLITE_CORRUPT) && m' then SQLITE_BUSY_SNAPSHOT else rc) <> SQLITE_OK) as Hne by by destruct ((rc =? SQLITE_CORRUPT) && m').
    rewrite (proj2 (Z.eqb_neq _ SQLITE_OK) Hne). cbn. apply working_failed; [|done]. by apply working_snoc.
Qed.

Lemma lock_loop_alone n es : (guarded es /\ ev_commit SQLITE_OK ∉ es /\ ev_unlock ∉ es) ->
  alone (lock_loop n) es (fun rc es' => (guarded es' /\ ev_commit SQLITE_OK ∉ es' /\ ev_unlock ∉ es') /\ ev_lock rc ∈ es').
Proof using.
  assert (forall es rc, guarded es /\ ev_commit SQLITE_OK ∉ es /\ ev_unlock ∉ es -> guarded (es ++ [ev_lock rc]) /\ ev_commit SQLITE_OK ∉ es ++ [ev_lock rc] /\ ev_unlock ∉ es ++ [ev_lock rc]) as Hs.
  { intros es' rc (Hg & Hc & Hu). split; [by apply guarded_snoc|]. rewrite !elem_of_app, !list_elem_of_singleton. split; intros [?|[=]]; done. }
  revert es. induction n as [|n IH]; intros es H; cbn [lock_loop]; (eapply alone_call; [by apply (status_call_alone _ _ (fun rc es' => es' = es ++ [ev_lock rc]))|]); intros rc es' ->.
  - split; [by apply Hs|]. apply elem_of_app. right. apply list_elem_of_here.
  - destruct (rc =? SQLITE_BUSY); [by apply IH, Hs|]. split; [by apply Hs|]. apply elem_of_app. right. apply list_elem_of_here.
Qed.

(** The lock is held when the result is 0, and given back when it is not. *)
Lemma lock_alone : alone remoteSrvLockAndForceRefresh [] (fun rc es =>
  guarded es /\ ev_commit SQLITE_OK ∉ es /\ (if rc =? SQLITE_OK then working es es else last es = Some ev_unlock)).
Proof using.
  eapply alone_call; [apply lock_loop_alone; split_and!; [constructor|apply not_elem_of_nil..]|]. intros rc es ((Hg & Hc & Hu) & Hin).
  assert (forall es rc, guarded es -> ev_commit SQLITE_OK ∉ es -> rc <> SQLITE_OK ->
    guarded (es ++ [ev_unlock]) /\ ev_commit SQLITE_OK ∉ es ++ [ev_unlock] /\ (if rc =? SQLITE_OK then working (es ++ [ev_unlock]) (es ++ [ev_unlock]) else last (es ++ [ev_unlock]) = Some ev_unlock)) as Hun.
  { intros es' rc' Hg' Hc' Hrc'. rewrite (proj2 (Z.eqb_neq rc' SQLITE_OK) Hrc'), last_snoc, elem_of_app, list_elem_of_singleton. split; [by apply guarded_snoc|]. split; [|done]. intros [?|[=]]; done. }
  destruct (Z.eqb_spec rc SQLITE_OK) as [->|Hrc].
  2: { cbn [bind]. rewrite (proj2 (Z.eqb_neq rc SQLITE_OK) Hrc). by apply Hun. }
  intros rc _. cbn [bind note upd act alone]. set (rc' := if _ || _ then _ else rc). set (es1 := es ++ _).
  assert (working es1 es1) as Hw.
  { split_and!; [by apply guarded_snoc|split; [apply elem_of_app; by left|]|done|]; unfold es1; rewrite elem_of_app, list_elem_of_singleton; intros [?|[=]]; done. }
  destruct Hw as (Hg1 & Hk1 & Hp1 & Hc1). destruct (Z.eqb_spec rc' SQLITE_OK) as [E|Hrc]; [cbn; rewrite (proj2 (Z.eqb_eq rc' SQLITE_OK) E); by split_and!|by apply Hun].
Qed.

(** The end of the update: the lock is given back. *)
Lemma unlock_alone es0 blob es (r : Z * bool) : worked es0 blob r.1 es ->
  alone (let& _ := chunkStoreUnlock in Done r) es (fun r' es' => r' = r /\ guarded es' /\ last es' = Some ev_unlock /\ es0 `prefix_of` es' /\
    (r.1 = SQLITE_OK -> has_refs blob es') /\ (r.1 <> SQLITE_OK -> ev_commit SQLITE_OK ∉ es')).
Proof using.
  intros (Hg & _ & Hp & Ho & Hn). cbn. split_and!; [done|by apply guarded_snoc|apply last_snoc|by apply prefix_app_r| |].
  - intros [[? ?]|?]%Ho; [left|right]; rewrite !elem_of_app; auto.
  - intros Hrc%Hn. rewrite elem_of_app, list_elem_of_singleton. intros [?|[=]]. done.
Qed.
End refs.

(** * Refs *)
Lemma parse_prefix_alone pBody es : bytes_wf pBody ->
  alone (remoteSrvParseRefsPrefix pBody) es (fun r es' => es' = es /\ match r with Some (_, _, pRest) => zlen pRest <= zlen pBody | None => True end).
Proof.
  intros Hb. unfold remoteSrvParseRefsPrefix. destruct (Z.ltb_spec (zlen pBody) 3) as [?|Hl]; [done|]. destruct pBody as [|b0 [|b1 [|b2 p]]]; cbn [length] in Hl; try lia.
  cbn [lookup list_lookup must bind]. apply Forall_cons in Hb as [H0 Hb]. apply Forall_cons in Hb as [H1 _]. unfold is_byte in H0, H1.
  rewrite lor_shiftl_add by lia. set (n := b0 + b1 * 2 ^ 8). assert (0 <= n) as Hn by lia. clearbody n. set (q := b0 :: b1 :: b2 :: p) in *.
  destruct (Z.ltb_spec (zlen q) (2 + n + 1)) as [?|Hlq]; [done|]. intros [] _; [|done]. cbn [negb bind].
  destruct (lookup_lt_is_Some_2 q (Z.to_nat (2 + n))) as [force ->]; [lia|]. cbn [must bind alone]. split; [done|]. unfold ptr_add. rewrite length_drop. lia.
Qed.

Section refs_return.
Context (j : nat) (max : Z).
Context (Hj : (j <= 4)%nat) (Hmax : 2 ^ Z.of_nat j <= max) (Hmx : max = 1 \/ max = 4 \/ max = 16).

Lemma apply_refs_alone branch force blob : zlen blob <= INT_MAX -> alone (remoteSrvApplyRefs (2 ^ Z.of_nat j) max branch force blob) [] (fun _ _ => True).
Proof using Hj Hmax Hmx.
  intros Hb. unfold remoteSrvApplyRefs. destruct (Z.leb_spec (zlen blob) 0) as [?|H0]; [done|]. eapply alone_call; [apply (lock_alone branch force)|].
  intros rc es (_ & _ & H). destruct (rc =? SQLITE_OK); cbn [negb]; [|done]. eapply alone_call; [by apply (apply_locked_alone j max Hj Hmax Hmx branch force blob false es); [unfold is_size; lia|]|]. done.
Qed.

Lemma apply_refs_if_alone expected branch force blob : zlen expected = PROLLY_HASH_SIZE -> zlen blob <= INT_MAX ->
  alone (remoteSrvApplyRefsIf (2 ^ Z.of_nat j) max expected branch force blob) [] (fun _ _ => True).
Proof using Hj Hmax Hmx.
  intros He Hb. unfold remoteSrvApplyRefsIf. destruct (Z.leb_spec (zlen blob) 0) as [?|H0]; [done|]. eapply alone_call; [apply (lock_alone branch force)|].
  intros rc es (_ & _ & H). destruct (rc =? SQLITE_OK); cbn [negb]; [|done]. intros h [_ Hh]. cbn [bind note upd act alone].
  pose proof (working_snoc branch force es es (ev_refs h) H I ltac:(done) ltac:(done)) as (Hg1 & Hk1 & _ & Hc1). set (es1 := es ++ _) in *.
  unfold prollyHashCompare. rewrite memcmp_spec by (rewrite ?Hh, ?He; done). cbn [must bind]. destruct (_ =? 0); cbn [negb].
  - eapply alone_call; [by apply (apply_locked_alone j max Hj Hmax Hmx branch force blob false es1); [unfold is_size; lia|]|]. done.
  - intros [[rc' m] merged] Hsz. cbn [snd] in Hsz. cbn [bind note upd act alone]. destruct (rc' =? SQLITE_OK); [|done].
    eapply alone_call; [apply (apply_locked_alone j max Hj Hmax Hmx branch force merged m (es1 ++ _)); [done|]|done].
    destruct (working_snoc branch force es1 es1 (ev_merge expected blob branch force rc' merged) ltac:(by split_and!) I ltac:(done) ltac:(done)) as (? & ? & _ & ?). by split_and!.
Qed.
End refs_return.

(** * The text of responses *)
Lemma digits_range n v acc : Forall (fun c => 45 <= c <= 57) acc -> Forall (fun c => 45 <= c <= 57) (digits n v acc).
Proof.
  revert v acc. induction n as [|n IH]; intros v acc Ha; [done|]. cbn [digits]. pose proof (Z.mod_pos_bound v 10). destruct (v <? 10); [|apply IH]; (constructor; [lia|done]).
Qed.
Lemma print_ld_plain v : Forall (fun c => 45 <= c <= 57) (print_ld v).
Proof. unfold print_ld. destruct (v <? 0); [constructor; [lia|]|]; by apply digits_range. Qed.
Lemma plain_field v : str_wf (print_ld v) /\ CR ∉ print_ld v.
Proof.
  pose proof (print_ld_plain v) as H. split; [apply (Forall_impl _ _ _ H); intros c Hc; unfold is_char; lia|]. rewrite Forall_forall in H. intros Hc%H. lia.
Qed.

(** The parts of an error fit their buffers. *)
Definition short_error (r : response) : Prop :=
  match r with
  | sendOk _ => True
  | sendStructuredError _ zHttpReason zCode _ zMessage =>
      CR ∉ zHttpReason /\ zlen zHttpReason <= 64 /\ (zCode <> [] /\ zlen zCode <= 64) /\ (zMessage <> [] /\ zlen zMessage <= 128)
  end.
Ltac short := split; [by apply (bool_decide_unpack _)|]; split; [vm_compute; discriminate|]; split; (split; [discriminate|vm_compute; discriminate]).

Lemma sqlite_error_short rc : short_error (sendSqliteError rc).
Proof. unfold sendSqliteError. cbv zeta. repeat (destruct (rc =? _); [short|]). short. Qed.
Lemma ok_short body : short_error (sendOk body). Proof. done. Qed.
Lemma not_found_short : short_error sendNotFound. Proof. short. Qed.
Lemma bad_request_short : short_error sendBadRequest. Proof. short. Qed.
Lemma too_large_short : short_error sendPayloadTooLarge. Proof. short. Qed.
Lemma unauthorized_short : short_error sendUnauthorized. Proof. short. Qed.
Lemma refs_error_short rc m : short_error (remoteSrvSendRefsError rc m).
Proof. unfold remoteSrvSendRefsError. destruct (_ && _); [short|apply sqlite_error_short]. Qed.
Create HintDb responses.
#[export] Hint Resolve sqlite_error_short ok_short not_found_short bad_request_short too_large_short unauthorized_short refs_error_short : responses.

(** The status line and the header fields as they are meant. *)
Definition status_line (r : response) : list Z :=
  match r with
  | sendOk _ => str "HTTP/1.1 200 OK"
  | sendStructuredError httpStatus zHttpReason _ _ _ => str "HTTP/1.1 " ++ print_ld httpStatus ++ SPACE :: zHttpReason
  end.
Definition response_fields (r : response) : list (list Z * list Z) :=
  match r with
  | sendOk _ => []
  | sendStructuredError _ _ _ _ _ => [(str "Content-Type", str "application/json")]
  end ++ [(str "Content-Length", print_ld (zlen (response_parts r).2)); (str "Connection", str "close")].
Definition meant_body (r : response) : list Z :=
  match r with
  | sendOk body => body
  | sendStructuredError _ _ zCode sqliteRc zMessage => js "{'code':'" ++ zCode ++ js "','sqlite':" ++ print_ld sqliteRc ++ js ",'message':'" ++ zMessage ++ js "'}"
  end.

(** Neither the header nor the body is cut, and the header ends where a reader
    finds its end. *)
Definition complete (r : response) : Prop :=
  (response_parts r).1 = status_line r ++ CRLF ++ mjoin (print_header <$> response_fields r) ++ CRLF /\
  (response_parts r).2 = meant_body r /\ pendingHeaderEnd (response_text r) = zlen (response_parts r).1.

Lemma field_plain name v : field_ok (name, str "close") -> field_ok (name, print_ld v).
Proof. intros (H1 & H2 & H3 & H4 & _ & H6 & _). destruct (plain_field v). by split_and!. Qed.

Lemma response_fields_ok r : Forall field_ok (response_fields r).
Proof.
  assert (field_ok (str "Content-Length", str "close") /\ field_ok (str "Connection", str "close") /\ field_ok (str "Content-Type", str "application/json")) as (H1 & H2 & H3).
  { assert (forall a b, bool_decide (a <> [] /\ Forall (fun c => is_blank c = false) a /\ COLON ∉ a /\ CR ∉ a /\ CR ∉ b) && str_wfb a && str_wfb b = true -> field_ok (a, b)) as H.
    { intros a b [[(? & ? & ? & ? & ?)%bool_decide_eq_true Ha]%andb_true_iff Hb]%andb_true_iff. split_and!; [done..|by apply str_wfb_spec|by apply str_wfb_spec]. }
    split_and!; apply H; vm_compute; reflexivity. }
  unfold response_fields. destruct r; cbn [app]; repeat (apply Forall_cons; split; [first [exact H2|exact H3|by apply field_plain]|]); constructor.
Qed.

(** A header with the given fields. *)
Definition reply_header (line : list Z) (fields : list (list Z * list Z)) : list Z := line ++ CRLF ++ mjoin (print_header <$> fields) ++ CRLF.

Lemma header_part st reason ty body :
  (sendResponseEx st reason ty body).1 =
    clip (reply_header (str "HTTP/1.1 " ++ print_ld st ++ SPACE :: reason)
            (match ty with Some t => [(str "Content-Type", t)] | None => [] end ++ [(str "Content-Length", print_ld (zlen body)); (str "Connection", str "close")])) 384.
Proof.
  unfold sendResponseEx, reply_header. cbn [fst]. f_equal. change (str "Content-Length: ") with (str "Content-Length" ++ [COLON; SPACE]). change (str "Content-Type: ") with (str "Content-Type" ++ [COLON; SPACE]).
  change (str "Connection: close") with (str "Connection" ++ COLON :: SPACE :: str "close").
  destruct ty as [t|]; cbn [app fmap list_fmap mjoin list_join]; unfold print_header; cbn [fst snd]; rewrite <- ?app_assoc; cbn [app]; rewrite <- ?app_assoc; cbn [app]; rewrite ?app_nil_r, <- ?app_assoc; reflexivity.
Qed.

Lemma header_short st reason ty (body : list Z) : zlen reason <= 64 -> match ty with Some t => zlen t <= 64 | None => True end ->
  (length (reply_header (str "HTTP/1.1 " ++ print_ld st ++ SPACE :: reason)
            (match ty with Some t => [(str "Content-Type", t)] | None => [] end ++ [(str "Content-Length", print_ld (zlen body)); (str "Connection", str "close")])) < 383)%nat.
Proof.
  intros Hr Ht. pose proof (length_print_ld st). pose proof (length_print_ld (zlen body)). unfold reply_header.
  destruct ty as [t|]; cbn [app fmap list_fmap mjoin list_join]; unfold print_header; cbn [fst snd]; repeat (rewrite ?length_app; cbn [length]);
    change (length (str "HTTP/1.1 ")) with 9%nat; change (length (str "Content-Type")) with 12%nat; change (length (str "Content-Length")) with 14%nat;
    change (length (str "Connection")) with 10%nat; change (length (str "close")) with 5%nat; change (length CRLF) with 2%nat; lia.
Qed.

Lemma error_body_short code rc msg : code <> [] /\ zlen code <= 64 -> msg <> [] /\ zlen msg <= 128 ->
  error_body code rc msg = js "{'code':'" ++ code ++ js "','sqlite':" ++ print_ld rc ++ js ",'message':'" ++ msg ++ js "'}".
Proof.
  intros [Hc Lc] [Hm Lm]. pose proof (length_print_ld rc). unfold error_body. cbv zeta. destruct code as [|c code]; [done|]. destruct msg as [|x msg]; [done|]. set (q := c :: code) in *. set (y := x :: msg) in *.
  unfold clip. apply take_ge. rewrite !length_app. change (length (js "{'code':'")) with 9%nat. change (length (js "','sqlite':")) with 11%nat. change (length (js ",'message':'")) with 12%nat.
  change (length (js "'}")) with 2%nat. lia.
Qed.

Lemma header_part_whole st reason ty body : zlen reason <= 64 -> match ty with Some t => zlen t <= 64 | None => True end ->
  (sendResponseEx st reason ty body).1 = reply_header (str "HTTP/1.1 " ++ print_ld st ++ SPACE :: reason)
    (match ty with Some t => [(str "Content-Type", t)] | None => [] end ++ [(str "Content-Length", print_ld (zlen body)); (str "Connection", str "close")]).
Proof. intros Hr Ht. rewrite header_part. unfold clip. apply take_ge. pose proof (header_short st reason ty body Hr Ht). lia. Qed.

Lemma short_complete r : short_error r -> complete r.
Proof.
  intros Hs. assert ((response_parts r).1 = reply_header (status_line r) (response_fields r) /\ (response_parts r).2 = meant_body r /\ CR ∉ status_line r) as (Eh & Eb & Hl).
  { destruct r as [body|st reason code rc msg]; cbn [short_error] in Hs.
    - split; [|split; [done|by apply (bool_decide_unpack _)]]. cbn [response_parts]. rewrite header_part_whole by (done || by vm_compute). reflexivity.
    - destruct Hs as (Hr & Lr & Hc & Hm). cbn [response_parts]. split; [rewrite header_part_whole by (done || by vm_compute); reflexivity|]. split; [by apply error_body_short|].
      cbn [status_line]. rewrite !elem_of_app, elem_of_cons. intros [H|[H|[H|H]]]; [|by apply (plain_field st)|done|done].
      assert (CR ∉ str "HTTP/1.1 ") as Hno by (by apply (bool_decide_unpack _)). done. }
  split; [exact Eh|]. split; [exact Eb|]. unfold response_text, pendingHeaderEnd. rewrite Eh. unfold reply_header. rewrite <- !app_assoc, header_end_line by done.
  rewrite header_end_fields by apply response_fields_ok. rewrite !length_app. change (length CRLF) with 2%nat. lia.
Qed.

(** * Every endpoint returns, with a complete response *)
Lemma get_loop_short bStore fuel hashes out n : results (get_loop bStore fuel hashes out n) short_error.
Proof.
  revert hashes out n. induction fuel as [|fuel IH]; intros [|h hashes] out n; try (cbn; done). cbn [get_loop]. cbv zeta. set (hs := h :: hashes).
  apply results_bind. eapply (results_mono _ (fun _ => True)); [by destruct bStore; [intros [rc cs] _ ? ? ? _|]|]. intros [rc chunks] _. destruct (rc =? SQLITE_OK); cbn [negb]; [|apply sqlite_error_short].
  apply results_bind. eapply (results_mono _ (fun r => match r with inl _ => True | inr e => short_error e end)); [|intros [[out' n']|e] He; [apply IH|done]].
  clear. revert out n. induction chunks as [|c chunks IH]; intros out n; [done|]. cbn [put_frames]. cbv zeta. destruct (_ || _); [apply too_large_short|]. apply results_bind.
  eapply (results_mono _ (fun _ => True)).
  - unfold growBuf. destruct (_ || _); [done|]. destruct (_ <=? _); [done|]. apply results_bind. destruct (grow_size _ _ _) as [m|]; [|done]. cbn. destruct (_ <? _); [done|]. by intros [] _.
  - intros [rc m] _. destruct (negb _); [destruct (rc =? SQLITE_TOOBIG); [apply too_large_short|apply sqlite_error_short]|apply IH].
Qed.

Lemma endpoint_alone j max ep pBody : (j <= 4)%nat -> 2 ^ Z.of_nat j <= max -> max = 1 \/ max = 4 \/ max = 16 -> bytes_wf pBody -> zlen pBody <= MAX_REQUEST_BYTES ->
  alone (handle_endpoint (2 ^ Z.of_nat j) max ep pBody) [] (fun resp _ => short_error resp).
Proof.
  intros Hj Hmax Hmx Hw Hl. assert (zlen pBody <= INT_MAX) as Hi by (unfold MAX_REQUEST_BYTES, MAX_CHUNK_BYTES in Hl; unfold INT_MAX; lia).
  assert (forall rc, short_error (if negb (rc =? SQLITE_OK) then sendSqliteError rc else sendOk [])) as Hok by (intros rc; destruct (negb _); auto with responses).
  assert (forall rc m, short_error (if negb (rc =? SQLITE_OK) then remoteSrvSendRefsError rc m else sendOk [])) as Hrefs by (intros rc m; destruct (negb _); auto with responses).
  destruct ep as [|hex| | | | | | | | |]; cbn [handle_endpoint]; try (cbn [alone]; auto with responses; fail).
  - intros [def|] _; cbn [bind]; [intros [rc root] _ n _|intros n _]; cbn [bind alone]; destruct (_ && _); cbv iota; destruct (_ =? SQLITE_OK); cbn [alone]; auto with responses.
  - unfold handleGetChunk. destruct (_ <? _); [cbn [alone]; auto with responses|]. destruct (doltliteHexToHash hex); [|cbn [alone]; auto with responses]. intros [rc d] _. cbn [bind alone].
    destruct (rc =? SQLITE_NOTFOUND); [auto with responses|]. destruct (rc =? SQLITE_OK); cbn [negb]; [|auto with responses]. destruct (_ <? _); auto with responses.
  - intros h _. cbn [bind note upd act alone]. destruct (prollyHashIsEmpty h); [cbn [alone]; auto with responses|]. intros h' _. cbn [bind note upd act alone]. intros [rc d] _. cbn [bind alone].
    destruct (rc =? SQLITE_NOTFOUND); [auto with responses|]. destruct (rc =? SQLITE_OK); cbn [negb]; auto with responses.
  - unfold handleHasChunks. destruct (negb _); [cbn [alone]; auto with responses|]. destruct (_ =? _)%nat; [done|]. intros [] _; cbn [bind negb alone]; [|auto with responses].
    intros [rc r] _. cbn [bind]. destruct (rc =? SQLITE_OK); cbn [alone negb]; auto with responses.
  - apply alone_results; [|unfold handleGetChunks; destruct (negb _); [cbn [results]; auto with responses|apply get_loop_short]].
    unfold handleGetChunks. destruct (negb _); [done|]. eapply alone_mono; [apply (get_loop_alone _ _ [] 0 []); [done|by left|by vm_compute|constructor|done]|]. by intros.
  - apply (alone_call _ _ _ (fun _ _ => True)).
    + eapply alone_call; [by apply (store_loop_alone j max Hj Hmax Hmx)|]. intros rc es _. destruct (rc =? SQLITE_OK); [|done]. eapply alone_mono; [apply commit_alone|done].
    + intros rc es _. cbn [alone]. destruct (rc =? SQLITE_PROTOCOL); auto with responses.
  - apply (alone_call _ _ _ (fun _ _ => True)); [|intros rc es _; apply Hok].
    intros rc _. cbn [bind note upd act alone]. destruct (rc =? SQLITE_OK); [|done]. eapply alone_mono; [apply commit_alone|done].
  - eapply alone_call; [by apply parse_prefix_alone|]. intros [[[branch force] rest]|] es [-> Hr]; [|cbn [alone]; auto with responses]. destruct (zlen rest <=? 0); [cbn [alone]; auto with responses|].
    eapply alone_call; [apply (apply_refs_alone j max); [done..|lia]|]. intros [rc m] es _. apply Hrefs.
  - eapply alone_call; [by apply parse_prefix_alone|]. intros [[[branch force] rest]|] es [-> Hr]; [|cbn [alone]; auto with responses].
    destruct (Z.leb_spec (zlen rest) PROLLY_HASH_SIZE) as [?|Hlt]; [cbn [alone]; auto with responses|]. eapply alone_call; [apply (apply_refs_if_alone j max); [done..| |]|].
    + rewrite length_take. unfold PROLLY_HASH_SIZE in *. lia.
    + unfold ptr_add. rewrite length_drop. lia.
    + intros [rc m] es _. apply Hrefs.
Qed.
