(* ===== verification/HandlersTheorems.v ===== *)
(** The theorems about the endpoints of the server of
    [remote/doltlite_remotesrv.c]. *)
From S2P Require Import Prelude CInt Ge Ed25519 CString World Radix Json Creds CredsFile Bearer CredsConfig Encoding HashSet Blake3 Blake3Tree Blake3Stream Hash Http HttpSpec Threads Server ServerLoop Handlers HandlersSpec.
#[local] Opaque record.

(** C7: a push of chunks is all or nothing.  Whatever bytes a client posts and
    whatever the store answers, the body is read to the end before anything is
    committed: the result is 0 only when the body is a sequence of records
    whose hashes are those of their data, every one of them was put, in order,
    and the commit succeeded, after at most 20 busy attempts.  In every other
    case the last call is a rollback and nothing was committed; and for a
    well-formed body the result is then that of a call the store refused. *)
Theorem post_chunks_all_or_nothing j max pBody : (j <= 4)%nat -> 2 ^ Z.of_nat j <= max -> max = 1 \/ max = 4 \/ max = 16 ->
  bytes_wf pBody -> zlen pBody <= MAX_REQUEST_BYTES ->
  alone (remoteSrvStoreChunkBatch (2 ^ Z.of_nat j) max pBody) [] (fun rc es =>
    (rc = SQLITE_OK -> exists ds n, pBody = mjoin (record <$> ds) /\ (n <= 20)%nat /\
       es = (put_ok <$> ds) ++ replicate n (ev_commit SQLITE_BUSY) ++ [ev_commit SQLITE_OK]) /\
    (rc <> SQLITE_OK -> last es = Some ev_rollback /\ ev_commit SQLITE_OK ∉ es) /\
    (forall ds, Forall (fun d => zlen d <= MAX_CHUNK_BYTES) ds -> pBody = mjoin (record <$> ds) -> rc <> SQLITE_OK ->
       (exists d, ev_put d rc ∈ es) \/ ev_commit rc ∈ es)).
Proof.
  intros Hj Hmax Hmx Hw Hp. eapply alone_call; [by apply store_loop_alone|]. intros rc es (ds & rest & E & Hds & H).
  assert (forall ds, ev_commit SQLITE_OK ∉ put_ok <$> ds) as Hn by (intros ds' (d & [=] & _)%list_elem_of_fmap).
  destruct H as [(-> & -> & ->)|[(-> & Hr & Hno & ->)|(Hrc & d & q & -> & ->)]].
  - rewrite app_nil_r in E. eapply alone_mono; [apply commit_alone|]. intros rc es' (n & Hlen & ->). rewrite app_nil_l. destruct (Z.eqb_spec rc SQLITE_OK) as [->|Hrc]; [rewrite app_nil_r|].
    + split_and!; [intros _; by exists ds, n|done|done].
    + split_and!; [done| |].
      * intros _. rewrite !app_assoc, last_snoc. split; [done|]. rewrite !elem_of_app, !list_elem_of_singleton, elem_of_replicate. intros [[[?|[[=] _]]|[= <-]]|[=]]; [by eapply Hn|done].
      * intros _ _ _ _. right. rewrite !elem_of_app, !list_elem_of_singleton. auto.
  - split_and!; [done| |].
    + intros _. rewrite last_snoc. split; [done|]. rewrite elem_of_app, list_elem_of_singleton. intros [?|[=]]. by eapply Hn.
    + intros ds' Hds' E' _. rewrite E in E'. destruct (records_rest _ _ _ Hds Hds' E') as [[-> _]|(d & q & Hd & Er)]; [done|]. by apply Hno in Er.
  - rewrite (proj2 (Z.eqb_neq rc SQLITE_OK) Hrc). split_and!; [done| |].
    + intros _. rewrite last_snoc. split; [done|]. cbn [app]. rewrite !elem_of_app, !list_elem_of_singleton. intros [[?|[=]]|[=]]. by eapply Hn.
    + intros _ _ _ _. left. exists d. cbn [app]. rewrite !elem_of_app, list_elem_of_singleton. auto.
Qed.

Lemma post_chunks_all_or_nothing_witness :
  alone (remoteSrvStoreChunkBatch 1 1 (repeat 7 24)) [] (fun rc es => rc <> SQLITE_OK -> last es = Some ev_rollback).
Proof.
  eapply alone_mono; [apply (post_chunks_all_or_nothing 0 1 (repeat 7 24)); [lia|lia|by left|by apply bytes_wfb_spec|by vm_compute]|].
  intros rc es (_ & H & _) Hrc. exact (proj1 (H Hrc)).
Defined.

(** C24: [handleGetChunks] answers every hash of the request, in order.  A reply
    with status 200 consists of one frame for each hash of the body, with the
    chunk the store gave for it or the mark that it has none; reading the
    frames gives these chunks back, and the reply never exceeds the limit.  The
    loop ends although the store may give as little as one chunk at a time. *)
Theorem get_chunks_reply pBody :
  alone (handleGetChunks true pBody) [] (fun resp es => forall body, resp = sendOk body ->
    (answered es).*1 = body_hashes pBody /\ body = mjoin (chunk_frame <$> (answered es).*2) /\
    read_frames (length (answered es)) body = Some ((answered es).*2) /\ zlen body <= MAX_RESPONSE_BYTES).
Proof.
  unfold handleGetChunks. destruct (negb _); [done|]. eapply alone_mono; [apply (get_loop_alone _ _ [] 0 []); [done|by left|by vm_compute|constructor|done]|].
  intros resp es [Hs H] body Hb. destruct (H body Hb) as (E1 & E2 & Hle). split_and!; [done|done| |done].
  rewrite E2. apply read_frames_frames; [by rewrite Forall_fmap|]. rewrite length_fmap. done.
Qed.

(** C14: refs change only under the lock, after both checks, and the lock is
    always given back.  In the calls of [remoteSrvApplyRefsIf], whatever the
    store answers, refs are installed only between the lock and the unlock and
    after the scope and the history of the very same blob were found good, and
    committed only after that; the last call is the unlock.  The result is 0
    only when the store then has the refs of the client's blob, its refs being
    the expected ones, or those of the merge with the refs it had; with any
    other result nothing was committed. *)
Theorem refs_update_guarded j max expected branch force blob : (j <= 4)%nat -> 2 ^ Z.of_nat j <= max -> max = 1 \/ max = 4 \/ max = 16 ->
  zlen expected = PROLLY_HASH_SIZE -> 0 < zlen blob <= INT_MAX ->
  alone (remoteSrvApplyRefsIf (2 ^ Z.of_nat j) max expected branch force blob) [] (fun r es =>
    guarded branch force es /\ last es = Some ev_unlock /\
    (r.1 = SQLITE_OK -> exists blob', has_refs branch blob' es /\
       (blob' = blob /\ ev_refs expected ∈ es \/ ev_merge expected blob branch force SQLITE_OK blob' ∈ es)) /\
    (r.1 <> SQLITE_OK -> ev_commit SQLITE_OK ∉ es)).
Proof.
  intros Hj Hmax Hmx He Hb. unfold remoteSrvApplyRefsIf. rewrite (proj2 (Z.leb_gt _ _)) by lia. eapply alone_call; [apply (lock_alone branch force)|].
  intros rc es (Hg & Hc & H). destruct (Z.eqb_spec rc SQLITE_OK) as [->|Hrc]; cbn [negb]; [|by split_and!]. intros h [Hh1 Hh]. cbn [bind note upd act alone].
  pose proof (working_snoc branch force es es (ev_refs h) H I ltac:(done) ltac:(done)) as (Hg1 & Hk1 & _ & Hc1). set (es1 := es ++ _) in *.
  unfold prollyHashCompare. rewrite memcmp_spec by (rewrite ?Hh, ?He; done). cbn [must bind]. rewrite !take_ge by (unfold PROLLY_HASH_SIZE in *; lia).
  destruct (cmp_sign (lexcmp h expected) =? 0) eqn:Ec; cbn [negb].
  - assert (h = expected) as -> by (destruct (lexcmp h expected) eqn:El; [by apply lexcmp_eq|done|done]).
    eapply alone_call; [apply (apply_locked_alone j max Hj Hmax Hmx branch force blob false es1); [unfold is_size; lia|by split_and!]|]. intros r es' Hr.
    eapply alone_mono; [by apply (unlock_alone branch force es1 blob)|]. intros r' es2 (-> & ? & ? & Hp & Ho & Hn). split_and!; [done..| |done]. intros Hok. exists blob. split; [by apply Ho|].
    left. split; [done|]. destruct Hp as [k ->]. unfold es1. rewrite !elem_of_app, list_elem_of_singleton. auto.
  - intros [[rc m] merged] Hsz. cbn [snd] in Hsz. cbn [bind note upd act alone].
    pose proof (working_snoc branch force es1 es1 (ev_merge expected blob branch force rc merged) (conj Hg1 (conj Hk1 (conj (reflexivity _) Hc1))) I ltac:(done) ltac:(done)) as (Hg2 & Hk2 & _ & Hc2).
    set (es2 := es1 ++ _) in *. apply (alone_call _ _ _ (fun r es' => worked branch force es2 merged r.1 es' /\ (r.1 = SQLITE_OK -> rc = SQLITE_OK))).
    + destruct (Z.eqb_spec rc SQLITE_OK) as [->|Hrc]; [|split; [by apply working_failed; [split_and!|]|done]].
      eapply alone_mono; [apply (apply_locked_alone j max Hj Hmax Hmx branch force merged m es2); [done|by split_and!]|]. done.
    + intros r es' [Hr Hok]. eapply alone_mono; [apply (unlock_alone branch force es2 merged); exact Hr|]. intros r' es3 (-> & ? & ? & Hp & Ho & Hn).
      split_and!; [done..| |done]. intros E. exists merged. split; [by apply Ho|]. right. specialize (Hok E) as ->. destruct Hp as [k ->]. unfold es2. rewrite !elem_of_app, list_elem_of_singleton. auto.
Qed.

Lemma refs_update_guarded_witness :
  alone (remoteSrvApplyRefsIf 1 1 (repeat 0 20) (str "main") false [1; 2; 3]) [] (fun r es => last es = Some ev_unlock).
Proof.
  eapply alone_mono; [apply (refs_update_guarded 0 1 (repeat 0 20) (str "main") false [1; 2; 3]); [lia|lia|by left|reflexivity|by vm_compute]|].
  intros r es (_ & H & _). exact H.
Defined.

(** C25: every endpoint answers, whatever it is sent and whatever the store
    answers, and its response is complete: the status line, the header fields
    with the length of the body, and the JSON text of an error fit their
    buffers, so that nothing is cut, and the first empty line is the end of the
    header. *)
Theorem endpoints_reply_complete j max ep pBody : (j <= 4)%nat -> 2 ^ Z.of_nat j <= max -> max = 1 \/ max = 4 \/ max = 16 ->
  bytes_wf pBody -> zlen pBody <= MAX_REQUEST_BYTES ->
  alone (handle_endpoint (2 ^ Z.of_nat j) max ep pBody) [] (fun resp _ =>
    (response_parts resp).1 = status_line resp ++ CRLF ++ mjoin (print_header <$> response_fields resp) ++ CRLF /\
    (response_parts resp).2 = meant_body resp /\ pendingHeaderEnd (response_text resp) = zlen (response_parts resp).1).
Proof. intros Hj Hmax Hmx Hw Hl. eapply alone_mono; [by apply endpoint_alone|]. intros resp es H. by apply short_complete. Qed.

Lemma endpoints_reply_complete_witness :
  alone (handle_endpoint (2 ^ Z.of_nat 0) 1 PutRefsIf [0; 0; 1]) [] (fun resp _ => pendingHeaderEnd (response_text resp) = zlen (response_parts resp).1).
Proof.
  eapply alone_mono; [apply (endpoints_reply_complete 0 1 PutRefsIf [0; 0; 1]); [lia|done|by left|by apply bytes_wfb_spec|by vm_compute]|]. by intros resp es (_ & _ & H).
Defined.
