(* ===== verification/Cache.v ===== *)
(** The cache of open stores of [remote/doltlite_remotesrv.c] and the whole of
    [handleRequest] over it, run by several workers at once.  A handle is a
    block of the heap with its own mutex, linked by [pNext]; a critical section
    of [pSrv->mutex] is one action.  Using a block that was freed, calling a
    store that is not open, opening one twice, and destroying a mutex that is
    locked are errors. *)
From S2P Require Import Prelude CInt Ge Ed25519 CString World Radix Json Creds CredsFile Bearer CredsConfig Encoding HashSet Blake3 Blake3Tree Blake3Stream Hash Http Threads Server Handlers.

Definition SERVER_DB_CACHE_MAX : Z := 32.

(** * State *)
(** [mu]: the mutex is locked; [h_calls]: what was called on the store since
    the request that is being served has got it. *)
Record RemoteDbHandle : Type := DbHandle {
  zPath : list Z;
  bOpen : bool;
  bWritable : bool;
  nReservations : Z;
  lastUseMs : Z;
  mu : bool;
  pNext : option Z;
  h_calls : list store_event
}.

(** A job that was answered by an endpoint: the database of the store, whether
    the store was open for writing, the answer, and the calls it made. *)
Record served : Type := ServedJob {
  q_job : ServerJob;
  q_path : list Z;
  q_writable : bool;
  q_endpoint : endpoint;
  q_response : response;
  q_calls : list store_event
}.

Record cache : Type := Cache {
  heap : gmap Z RemoteDbHandle;
  pDbCache : option Z;
  nDbCache : Z;
  open_stores : gset Z;
  requests : list served
}.

Definition set_next (p : option Z) (h : RemoteDbHandle) : RemoteDbHandle :=
  DbHandle (zPath h) (bOpen h) (bWritable h) (nReservations h) (lastUseMs h) (mu h) p (h_calls h).
Definition set_mu (b : bool) (h : RemoteDbHandle) : RemoteDbHandle :=
  DbHandle (zPath h) (bOpen h) (bWritable h) (nReservations h) (lastUseMs h) b (pNext h) (h_calls h).
Definition set_store (opened writable : bool) (h : RemoteDbHandle) : RemoteDbHandle :=
  DbHandle (zPath h) opened writable (nReservations h) (lastUseMs h) (mu h) (pNext h) (h_calls h).
Definition set_use (ms : Z) (h : RemoteDbHandle) : RemoteDbHandle :=
  DbHandle (zPath h) (bOpen h) (bWritable h) (nReservations h) ms (mu h) (pNext h) (h_calls h).
Definition set_calls (es : list store_event) (h : RemoteDbHandle) : RemoteDbHandle :=
  DbHandle (zPath h) (bOpen h) (bWritable h) (nReservations h) (lastUseMs h) (mu h) (pNext h) es.
Definition add_reservation (n : Z) (h : RemoteDbHandle) : RemoteDbHandle :=
  DbHandle (zPath h) (bOpen h) (bWritable h) (nReservations h + n) (lastUseMs h) (mu h) (pNext h) (h_calls h).

Definition set_heap (hp : gmap Z RemoteDbHandle) (c : cache) : cache := Cache hp (pDbCache c) (nDbCache c) (open_stores c) (requests c).
Definition put_handle (h : Z) (d : RemoteDbHandle) (c : cache) : cache := set_heap (<[h := d]> (heap c)) c.
Definition set_list (p : option Z) (n : Z) (c : cache) : cache := Cache (heap c) p n (open_stores c) (requests c).
Definition set_stores (o : gset Z) (c : cache) : cache := Cache (heap c) (pDbCache c) (nDbCache c) o (requests c).
Definition add_request (q : served) (c : cache) : cache := Cache (heap c) (pDbCache c) (nDbCache c) (open_stores c) (q :: requests c).

(** * Under the mutex of the server *)
(** [remoteDbHandleCloseStore] *)
Definition close_store (h : Z) (c : cache) : option cache :=
  let? d := heap c !! h in
  if bOpen d then
    if decide (h ∈ open_stores c) then Some (put_handle h (set_store false false d) (set_stores (open_stores c ∖ {[h]}) c)) else None
  else Some c.

Definition remoteDbHandleFree (h : Z) (c : cache) : option cache :=
  let? c := close_store h c in
  let? d := heap c !! h in
  if mu d then None else Some (set_heap (delete h (heap c)) c).

Fixpoint clear_loop (fuel : nat) (h : option Z) (c : cache) : option cache :=
  match h, fuel with
  | None, _ => Some c
  | _, O => None
  | Some h, S fuel =>
      let? d := heap c !! h in
      let? c := remoteDbHandleFree h c in
      clear_loop fuel (pNext d) c
  end.
Definition remoteDbCacheClear (c : cache) : option cache :=
  clear_loop (size (heap c)) (pDbCache c) (set_list None 0 c).

(** The loop over the handles; [best] is [pBest], [pBestPrev] and [bestAge]. *)
Fixpoint evict_loop (fuel : nat) (hp : gmap Z RemoteDbHandle) (h pPrev : option Z) (best : option (Z * option Z * Z)) :
    option (gmap Z RemoteDbHandle * option (Z * option Z * Z)) :=
  match h, fuel with
  | None, _ => Some (hp, best)
  | _, O => None
  | Some h, S fuel =>
      let? d := hp !! h in
      if (0 <? nReservations d) || mu d then evict_loop fuel hp (pNext d) (Some h) best else
      let hp := <[h := set_mu true d]> hp in
      match best with
      | None => evict_loop fuel hp (pNext d) (Some h) (Some (h, pPrev, lastUseMs d))
      | Some (pBest, _, bestAge) =>
          if lastUseMs d <? bestAge then
            let? b := hp !! pBest in
            evict_loop fuel (<[pBest := set_mu false b]> hp) (pNext d) (Some h) (Some (h, pPrev, lastUseMs d))
          else evict_loop fuel (<[h := set_mu false d]> hp) (pNext d) (Some h) best
      end
  end.

Definition remoteDbCacheEvictOne (c : cache) : option cache :=
  let? (hp, best) := evict_loop (size (heap c)) (heap c) (pDbCache c) None None in
  match best with
  | None => Some (set_heap hp c)
  | Some (pBest, pBestPrev, _) =>
      let? d := hp !! pBest in
      let? c :=
        match pBestPrev with
        | Some prev => let? b := hp !! prev in Some (set_list (pDbCache c) (nDbCache c - 1) (set_heap (<[prev := set_next (pNext d) b]> hp) c))
        | None => Some (set_list (pNext d) (nDbCache c - 1) (set_heap hp c))
        end in
      let? d := heap c !! pBest in
      remoteDbHandleFree pBest (put_handle pBest (set_mu false d) c)
  end.

Fixpoint find_handle (fuel : nat) (hp : gmap Z RemoteDbHandle) (h : option Z) (path_ : list Z) : option (option Z) :=
  match h, fuel with
  | None, _ => Some None
  | _, O => None
  | Some h, S fuel =>
      let? d := hp !! h in
      if streq (zPath d) path_ then Some (Some h) else find_handle fuel hp (pNext d) path_
  end.

(** [while( pSrv->nDbCache >= SERVER_DB_CACHE_MAX )] *)
Fixpoint make_room (fuel : nat) (c : cache) : option cache :=
  if nDbCache c <? SERVER_DB_CACHE_MAX then Some c else
  match fuel with
  | O => None
  | S fuel =>
      let? c' := remoteDbCacheEvictOne c in
      if nDbCache c <=? nDbCache c' then Some c' else make_room fuel c'
  end.

(** The first critical section of [remoteDbAcquire].  [block] is a new block,
    or [None] when there is no memory for it or its parts, or no mutex. *)
Definition reserve_handle (path_ : list Z) (block : option Z) (c : cache) : result cache (option Z) :=
  match find_handle (size (heap c)) (heap c) (pDbCache c) path_ with
  | None => Wrong
  | Some (Some h) =>
      match heap c !! h with
      | Some d => Go (Some h) (put_handle h (add_reservation 1 d) c)
      | None => Wrong
      end
  | Some None =>
      match make_room (Z.to_nat (nDbCache c)) c with
      | None => Wrong
      | Some c =>
          match block with
          | None => Go None c
          | Some h =>
              if decide (h ∈ dom (heap c)) then Wait else
              Go (Some h) (set_list (Some h) (nDbCache c + 1) (put_handle h (DbHandle path_ false false 1 0 false (pDbCache c) []) c))
          end
      end
  end.

(** * Under the mutex of a handle *)
Abbreviation ccode := (prog cache).

Definition on_handle {B} (h : Z) (f : RemoteDbHandle -> cache -> result cache B) : ccode B :=
  act (fun c => match heap c !! h with Some d => f d c | None => Wrong end).
Definition upd_handle (h : Z) (f : RemoteDbHandle -> RemoteDbHandle) : ccode unit :=
  on_handle h (fun d c => Go tt (put_handle h (f d) c)).
Definition get_handle {B} (h : Z) (f : RemoteDbHandle -> B) : ccode B := on_handle h (fun d c => Go (f d) c).

Definition lock_handle (h : Z) : ccode unit :=
  on_handle h (fun d c => if mu d then Wait else Go tt (put_handle h (set_mu true d) c)).
Definition unlock_handle (h : Z) : ccode unit :=
  on_handle h (fun d c => if mu d then Go tt (put_handle h (set_mu false d) c) else Wrong).

(** The calls of a program on the store of [h]; [None] is a store that is NULL. *)
Fixpoint on_store (h : option Z) {A} (p : calls A) : ccode A :=
  match p with
  | Done a => Done a
  | Act f k =>
      Act (fun c =>
        match h with
        | None => Wrong
        | Some h =>
            match heap c !! h with
            | None => Wrong
            | Some d =>
                if negb (bOpen d) then Wrong else
                match f (h_calls d) with
                | Go b es => Go b (put_handle h (set_calls es d) c)
                | Wait => Wait
                | Wrong => Wrong
                end
            end
        end) (fun b => on_store h (k b))
  | Ask P k => Ask P (fun b => on_store h (k b))
  | Iter body l k => Iter (fun l => on_store h (body l)) l (fun b => on_store h (k b))
  end.

Definition remoteDbHandleCloseStore (h : Z) : ccode unit :=
  act (fun c => match close_store h c with Some c => Go tt c | None => Wrong end).
Definition remoteDbHandleOpenStore (h : Z) (w : bool) : ccode Z :=
  let& rc := ask (fun _ : Z => True) in
  if rc =? SQLITE_OK then
    on_handle h (fun d c => if decide (h ∈ open_stores c) then Wrong
                            else Go rc (put_handle h (set_store true w d) (set_stores ({[h]} ∪ open_stores c) c)))
  else Done rc.

(** Whatever of a request that failed is still staged is dropped. *)
Definition drop_staged (h : Z) : ccode unit :=
  let& opened := get_handle h bOpen in
  let& staged := if opened : bool then ask (fun _ : bool => True) else Done false in
  if staged : bool then on_store (Some h) chunkStoreRollback else Done tt.

(** [pthread_mutex_unlock(&h->mu)], and the reservation is given back. *)
Definition give_back (h : Z) : ccode unit :=
  let& _ := unlock_handle h in upd_handle h (add_reservation (-1)).

(** The part of [remoteDbAcquire] that opens or refreshes the store. *)
Definition refresh_store (h : Z) (w : bool) : ccode Z :=
  let& opened := get_handle h bOpen in
  if negb opened then remoteDbHandleOpenStore h w else
  if w then
    let& rc := on_store (Some h) remoteSrvLockAndForceRefresh in
    if rc =? SQLITE_OK then let& _ := on_store (Some h) chunkStoreUnlock in Done rc else
    let& movedReadOnly := ask (fun _ : bool => True) in
    if movedReadOnly : bool then let& _ := remoteDbHandleCloseStore h in remoteDbHandleOpenStore h w else Done rc
  else
    let& rc := on_store (Some h) (ask (fun _ : Z => True)) in
    let& movedReadOnly := ask (fun _ : bool => True) in
    if negb (rc =? SQLITE_OK) || movedReadOnly then let& _ := remoteDbHandleCloseStore h in remoteDbHandleOpenStore h w else Done rc.

(** The result and [*ppOut], which is locked. *)
Definition remoteDbAcquire (path_ : list Z) (w : bool) : ccode (Z * option Z) :=
  let& block := ask (fun _ : option Z => True) in
  let& h := act (reserve_handle path_ block) in
  match h with
  | None => Done (SQLITE_NOMEM, None)
  | Some h =>
      let& _ := lock_handle h in
      let& ms := ask (fun _ : Z => True) in
      let& _ := upd_handle h (set_use ms) in
      let& _ := drop_staged h in
      let& opened := get_handle h bOpen in
      let& writable := get_handle h bWritable in
      let& _ := if opened && w && negb writable then remoteDbHandleCloseStore h else Done tt in
      let& rc := refresh_store h w in
      if negb (rc =? SQLITE_OK) then let& _ := give_back h in Done (rc, None) else Done (SQLITE_OK, Some h)
  end.

Definition remoteDbRelease (h : Z) : ccode unit :=
  let& _ := drop_staged h in give_back h.

(** * Requests *)
Section requests.
Context (simd_degree MAX_SIMD_DEGREE : Z) (zDir : list Z).

(** The response of a request that is not served. *)
Definition error_response (status : Z) : response :=
  if status =? 401 then sendUnauthorized else if status =? 413 then sendPayloadTooLarge
  else if status =? 404 then sendNotFound else sendBadRequest.

(** What is written to the connection. *)
Definition handleRequest (j : ServerJob) : ccode (list Z) :=
  let& t := must (request_target zDir (j_prefix j) (j_nHeader j) (zlen (j_body j)) (j_status j)) in
  match t with
  | Answer status => Done (response_text (error_response status))
  | Serve zDbPath zMethod zEndpoint =>
      let isHasChunksEndpoint := streq zMethod (str "POST") && streq zEndpoint (str "has-chunks") in
      let& (rc, found) := ask (fun _ : Z * bool => True) in
      if negb (rc =? SQLITE_OK) then Done (response_text (sendSqliteError rc)) else
      if negb found && isHasChunksEndpoint then
        let& resp := on_store None (handleHasChunks false (j_body j)) in Done (response_text resp)
      else
      if negb found && read_only zMethod zEndpoint then Done (response_text sendNotFound) else
      let& (rc, h) := remoteDbAcquire zDbPath (negb (read_only zMethod zEndpoint)) in
      match h with
      | None => Done (response_text (sendSqliteError rc))
      | Some h =>
          let ep := dispatch zMethod zEndpoint in
          let& _ := upd_handle h (set_calls []) in
          let& resp := on_store (Some h) (handle_endpoint simd_degree MAX_SIMD_DEGREE ep (j_body j)) in
          let& pending := pending_response resp in
          let& _ := on_handle h (fun d c => Go tt (add_request (ServedJob j (zPath d) (bWritable d) ep resp (h_calls d)) c)) in
          let& _ := remoteDbRelease h in
          Done (match pending with Some pMsg => pMsg | None => response_text (sendSqliteError SQLITE_NOMEM) end)
      end
  end.

(** A worker, with whatever jobs it gets. *)
Definition request_worker : ccode unit :=
  iter (fun _ : unit =>
    let& j := ask (fun j : option ServerJob => match j with Some j => bytes_wf (j_body j) | None => True end) in
    match j with
    | None => Done (inr tt)
    | Some j => let& _ := handleRequest j in Done (inl tt)
    end) tt.

Definition cache_start : config cache := (Cache ∅ None 0 ∅ [], replicate (Z.to_nat SERVER_WORKERS) request_worker).
End requests.
