(* ===== verification/CacheSpec.v ===== *)
(** The cache of open stores: its linked list, the eviction, and the account of
    reservations and locks that the workers hold. *)
From stdpp Require Import gmultiset.
From S2P Require Import Prelude CInt Ge Ed25519 CString World Radix Json Creds CredsFile Bearer CredsConfig Encoding HashSet Blake3 Blake3Tree Blake3Stream Hash Http Threads Server Handlers Cache.

Abbreviation handles := (gmap Z RemoteDbHandle).

(** * The linked list *)
Fixpoint chain (hp : handles) (p : option Z) (l : list Z) : Prop :=
  match l with
  | [] => p = None
  | h :: l => p = Some h /\ exists d, hp !! h = Some d /\ chain hp (pNext d) l
  end.

(** The list is the same where links are the same. *)
Lemma chain_ext (hp hp' : handles) p l : chain hp p l ->
  (forall h d, h ∈ l -> hp !! h = Some d -> exists d', hp' !! h = Some d' /\ pNext d' = pNext d) -> chain hp' p l.
Proof.
  revert p. induction l as [|h l IH]; intros p; [done|]. intros (-> & d & Hd & Hl) H. split; [done|]. destruct (H h d) as (d' & Hd' & E); [apply list_elem_of_here|done|].
  exists d'. split; [done|]. rewrite E. apply IH; [done|]. intros k dk Hk. apply H. by apply list_elem_of_further.
Qed.

Lemma chain_delete hp p l h : chain hp p l -> h ∉ l -> chain (delete h hp) p l.
Proof.
  intros Hc Hh. eapply chain_ext; [exact Hc|]. intros k d Hk Hd. exists d. split; [|done]. rewrite lookup_delete_ne; [done|]. by intros ->.
Qed.

Lemma chain_cut hp p l1 h l2 : chain hp p (l1 ++ h :: l2) -> exists d, hp !! h = Some d /\ chain hp (pNext d) l2.
Proof.
  revert p. induction l1 as [|k l1 IH]; intros p.
  - intros (_ & d & Hd & Hc). by exists d.
  - intros (_ & d & _ & Hc). by eapply IH.
Qed.

Lemma chain_head hp p l h l' : chain hp p l -> l = h :: l' -> p = Some h.
Proof. intros Hc ->. by destruct Hc. Qed.

Lemma chain_unlink hp p l1 a h l2 d : NoDup (l1 ++ a :: h :: l2) -> chain hp p (l1 ++ a :: h :: l2) -> hp !! h = Some d ->
  chain (alter (set_next (pNext d)) a hp) p (l1 ++ a :: l2).
Proof.
  revert p. induction l1 as [|k l1 IH]; intros p Hn; cbn [app chain] in *.
  - intros (-> & da & Ha & _ & d' & Hd' & Hc) Hd. rewrite Hd in Hd'. injection Hd' as <-. split; [done|]. exists (set_next (pNext d) da).
    rewrite lookup_alter_eq, Ha. split; [done|]. cbn [pNext set_next]. eapply chain_ext; [exact Hc|]. intros k dk Hk Hdk. exists dk. split; [|done].
    rewrite lookup_alter_ne; [done|]. intros ->. apply NoDup_cons in Hn as [Hn _]. apply Hn. by apply list_elem_of_further.
  - intros (-> & dk & Hk & Hc) Hd. apply NoDup_cons in Hn as [Hnk Hn]. split; [done|]. exists dk. rewrite lookup_alter_ne; [split; [done|by apply IH]|].
    intros <-. apply Hnk, elem_of_app. right. apply list_elem_of_here.
Qed.

Lemma find_handle_spec hp p l path_ fuel : chain hp p l -> (length l <= fuel)%nat ->
  exists r, find_handle fuel hp p path_ = Some r /\
  match r with
  | Some h => exists d, hp !! h = Some d /\ zPath d = path_
  | None => forall h d, h ∈ l -> hp !! h = Some d -> zPath d <> path_
  end.
Proof.
  revert p fuel. induction l as [|h l IH]; intros p fuel; cbn [chain].
  - intros -> _. exists None. split; [by destruct fuel|]. by intros h d ?%not_elem_of_nil.
  - intros (-> & d & Hd & Hc) Hf. destruct fuel as [|fuel]; cbn [length] in Hf; [lia|]. cbn [find_handle]. rewrite Hd. cbn [mbind option_bind].
    destruct (streq (zPath d) path_) eqn:E.
    + exists (Some h). split; [done|]. exists d. split; [done|]. by apply streq_true.
    + destruct (IH _ fuel Hc) as (r & Er & Hr); [lia|]. exists r. split; [done|]. destruct r as [k|]; [done|]. intros k dk [->|Hk]%elem_of_cons Hdk; [|by eapply Hr].
      rewrite Hd in Hdk. injection Hdk as <-. intros Ep%streq_true. by rewrite E in Ep.
Qed.

(** * Eviction *)
(** A handle that no one has reserved or locked. *)
Definition unused (d : RemoteDbHandle) : Prop := nReservations d <= 0 /\ mu d = false.

(** [best] is the first of the unused handles of [l] with the smallest time. *)
Definition best_ok (hp : handles) (l : list Z) (best : option (Z * option Z * Z)) : Prop :=
  match best with
  | None => forall h d, h ∈ l -> hp !! h = Some d -> ~ unused d
  | Some (b, prev, age) => exists l1 l2 d, l = l1 ++ b :: l2 /\ prev = last l1 /\ hp !! b = Some d /\ unused d /\ age = lastUseMs d /\
      forall h d', h ∈ l -> hp !! h = Some d' -> unused d' -> age <= lastUseMs d'
  end.

(** The best one so far is locked. *)
Definition lock_best (hp : handles) (best : option (Z * option Z * Z)) : handles :=
  match best with
  | None => hp
  | Some (b, _, _) => alter (set_mu true) b hp
  end.

Lemma set_mu_id d b : mu d = b -> set_mu b d = d.
Proof. destruct d. by intros <-. Qed.

Lemma best_ok_skip hp pre h d best : best_ok hp pre best -> hp !! h = Some d -> ~ unused d -> best_ok hp (pre ++ [h]) best.
Proof.
  intros Hb Hd Hu. assert (forall k dk, k ∈ pre ++ [h] -> hp !! k = Some dk -> unused dk -> k ∈ pre) as Hin.
  { intros k dk [?|E%list_elem_of_singleton]%elem_of_app Hk Huk; [done|subst k]. rewrite Hd in Hk. by injection Hk as <-. }
  destruct best as [[[b prev] age]|]; cbn [best_ok] in *.
  - destruct Hb as (l1 & l2 & db & -> & ? & ? & ? & ? & Hm). exists l1, (l2 ++ [h]), db. rewrite <- app_assoc. split_and!; [done..|]. intros k dk Hk Hdk Huk.
    apply (Hm k dk); [|done|done]. apply (Hin k dk); [|done|done]. by rewrite <- app_assoc.
  - intros k dk Hk Hdk Huk. by apply (Hb k dk); [apply (Hin k dk)|..].
Qed.

Lemma best_ok_take hp pre h d best : best_ok hp pre best -> hp !! h = Some d -> unused d ->
  match best with Some (_, _, age) => lastUseMs d < age | None => True end -> best_ok hp (pre ++ [h]) (Some (h, last pre, lastUseMs d)).
Proof.
  intros Hb Hd Hu Hlt. exists pre, [], d. split_and!; [done..|]. intros k dk [Hk|E%list_elem_of_singleton]%elem_of_app Hdk Huk; [|subst k].
  - destruct best as [[[b prev] age]|]; [|by destruct (Hb k dk)]. destruct Hb as (_ & _ & _ & _ & _ & _ & _ & _ & Hm). specialize (Hm k dk Hk Hdk Huk). lia.
  - rewrite Hd in Hdk. by injection Hdk as <-.
Qed.

Lemma best_ok_keep hp pre h d b prev age : best_ok hp pre (Some (b, prev, age)) -> hp !! h = Some d -> age <= lastUseMs d -> best_ok hp (pre ++ [h]) (Some (b, prev, age)).
Proof.
  intros (l1 & l2 & db & -> & ? & ? & ? & ? & Hm) Hd Hle. exists l1, (l2 ++ [h]), db. rewrite <- app_assoc. split_and!; [done..|].
  intros k dk Hk Hdk Huk. rewrite app_assoc in Hk. apply elem_of_app in Hk as [Hk|E%list_elem_of_singleton]; [by apply (Hm k)|subst k].
  rewrite Hd in Hdk. by injection Hdk as <-.
Qed.

Lemma lock_best_other hp pre best h : best_ok hp pre best -> h ∉ pre -> lock_best hp best !! h = hp !! h.
Proof.
  destruct best as [[[b prev] age]|]; [|done]. intros (l1 & l2 & d & -> & _) Hh. apply lookup_alter_ne. intros ->. apply Hh, elem_of_app. right. apply list_elem_of_here.
Qed.

Lemma relock (hp : handles) b h db d : hp !! b = Some db -> mu db = false -> hp !! h = Some d -> b <> h ->
  <[b := set_mu false (set_mu true db)]> (<[h := set_mu true d]> (alter (set_mu true) b hp)) = alter (set_mu true) h hp.
Proof.
  intros Hb Hm Hd Hne. apply map_eq. intros k. destruct (decide (k = b)) as [->|Hkb].
  - rewrite lookup_insert_eq, lookup_alter_ne, Hb by done. f_equal. by apply (set_mu_id db false).
  - rewrite lookup_insert_ne by done. destruct (decide (k = h)) as [->|Hkh]; [by rewrite lookup_insert_eq, lookup_alter_eq, Hd|].
    by rewrite lookup_insert_ne, !lookup_alter_ne by done.
Qed.

Lemma evict_loop_spec hp l : forall pre p fuel best, chain hp p l -> NoDup (pre ++ l) -> (length l <= fuel)%nat -> best_ok hp pre best ->
  exists best', evict_loop fuel (lock_best hp best) p (last pre) best = Some (lock_best hp best', best') /\ best_ok hp (pre ++ l) best'.
Proof.
  induction l as [|h l IH]; intros pre p fuel best; cbn [chain].
  { intros -> _ _ Hb. exists best. split; [by destruct fuel|]. by rewrite app_nil_r. }
  intros (-> & d & Hd & Hc) Hn Hf Hb. destruct fuel as [|fuel]; cbn [length] in Hf; [lia|].
  assert (h ∉ pre) as Hpre by (apply NoDup_app in Hn as (_ & Hn & _); intros Hh; by apply (Hn h Hh), list_elem_of_here).
  assert (forall best', best_ok hp (pre ++ [h]) best' ->
    exists best'', evict_loop fuel (lock_best hp best') (pNext d) (Some h) best' = Some (lock_best hp best'', best'') /\ best_ok hp (pre ++ h :: l) best'') as Hgo.
  { intros best' Hb'. rewrite <- (last_snoc h pre), (cons_middle h pre l), app_assoc. apply IH; [done|by rewrite <- app_assoc|lia|done]. }
  cbn [evict_loop]. rewrite (lock_best_other hp pre best h) by done. rewrite Hd. cbn [mbind option_bind].
  destruct ((0 <? nReservations d) || mu d) eqn:Eu.
  { apply Hgo. eapply best_ok_skip; [done..|]. intros [Hr Hm]. rewrite Hm, orb_false_r in Eu. apply Z.ltb_lt in Eu. lia. }
  apply orb_false_iff in Eu as [Er Em]. apply Z.ltb_ge in Er. assert (unused d) as Hu by done.
  destruct best as [[[b prev] age]|].
  - pose proof Hb as (l1 & l2 & db & -> & -> & Hdb & [_ Hmb] & -> & _). assert (b <> h) as Hne by (intros ->; apply Hpre, elem_of_app; right; apply list_elem_of_here).
    destruct (Z.ltb_spec (lastUseMs d) (lastUseMs db)) as [Hlt|Hge].
    + rewrite lookup_insert_ne by done. cbn [lock_best]. rewrite lookup_alter_eq, Hdb. cbn [mbind option_bind fmap option_fmap option_map]. rewrite relock by done.
      apply (Hgo (Some (h, last (l1 ++ b :: l2), lastUseMs d))). by eapply (best_ok_take hp _ h d _ Hb).
    + rewrite insert_insert_eq, set_mu_id, insert_id by (done || by rewrite (lock_best_other hp _ _ h Hb Hpre)). apply Hgo. by eapply best_ok_keep.
  - cbn [lock_best]. replace (<[h := set_mu true d]> hp) with (lock_best hp (Some (h, last pre, lastUseMs d))).
    + apply Hgo. by eapply (best_ok_take hp pre h d None).
    + apply map_eq. intros k. cbn [lock_best]. destruct (decide (k = h)) as [->|]; [by rewrite lookup_alter_eq, lookup_insert_eq, Hd|by rewrite lookup_alter_ne, lookup_insert_ne].
Qed.

(** The handles are those of the list, which has no handle twice. *)
Record list_ok (c : cache) (l : list Z) : Prop := {
  lo_chain : chain (heap c) (pDbCache c) l;
  lo_nodup : NoDup l;
  lo_heap h : h ∈ l <-> is_Some (heap c !! h);
  lo_count : nDbCache c = zlen l
}.
(** The open stores are those of the handles that say so. *)
Definition stores_ok (c : cache) : Prop := forall h, h ∈ open_stores c <-> exists d, heap c !! h = Some d /\ bOpen d = true.

Lemma list_ok_size c l : list_ok c l -> size (heap c) = length l.
Proof.
  intros [_ Hn Hh _]. rewrite <- (size_dom (D := gset Z)), <- (size_list_to_set (C := gset Z) l) by done. f_equal. apply set_eq. intros h.
  by rewrite elem_of_dom, elem_of_list_to_set, Hh.
Qed.

Lemma handle_free_spec c h d : heap c !! h = Some d -> mu d = false -> stores_ok c ->
  remoteDbHandleFree h c = Some (Cache (delete h (heap c)) (pDbCache c) (nDbCache c) (open_stores c ∖ {[h]}) (requests c)).
Proof.
  intros Hd Hm Hs. unfold remoteDbHandleFree, close_store. rewrite Hd. cbn [mbind option_bind]. destruct (bOpen d) eqn:Eo.
  - rewrite decide_True by (apply Hs; by exists d). cbn [mbind option_bind put_handle set_heap set_stores heap]. rewrite lookup_insert_eq. cbn [mbind option_bind set_store mu]. rewrite Hm.
    by rewrite delete_insert_eq.
  - cbn [mbind option_bind]. rewrite Hd. cbn [mbind option_bind]. rewrite Hm. unfold set_heap. repeat f_equal. assert (h ∉ open_stores c); [|set_solver].
    intros (d' & Hd' & E)%Hs. congruence.
Qed.

(** [c] without the handle [b], which is after [prev] in the list. *)
Definition evicted (c : cache) (b : Z) (prev : option Z) (d : RemoteDbHandle) : cache :=
  Cache (delete b (match prev with Some a => alter (set_next (pNext d)) a (heap c) | None => heap c end))
    (match prev with Some _ => pDbCache c | None => pNext d end) (nDbCache c - 1) (open_stores c ∖ {[b]}) (requests c).

Lemma evict_found c l b prev d : list_ok c l -> stores_ok c -> best_ok (heap c) l (Some (b, prev, lastUseMs d)) -> heap c !! b = Some d ->
  evict_loop (size (heap c)) (heap c) (pDbCache c) None None = Some (alter (set_mu true) b (heap c), Some (b, prev, lastUseMs d)) ->
  remoteDbCacheEvictOne c = Some (evicted c b prev d).
Proof.
  intros [Hc Hn Hh _] Hs (l1 & l2 & d' & -> & -> & Hd' & [_ Hm] & _ & _) Hd E. rewrite Hd in Hd'. injection Hd' as <-. unfold remoteDbCacheEvictOne. rewrite E.
  cbn [mbind option_bind]. rewrite lookup_alter_eq, Hd. cbn [mbind option_bind fmap option_fmap option_map].
  assert (set_mu false (set_mu true d) = d) as Eb by by apply (set_mu_id d false).
  destruct (last l1) as [a|] eqn:El.
  - assert (a <> b /\ is_Some (heap c !! a)) as [Hab [da Ha]].
    { apply last_Some in El as [l' ->]. rewrite <- app_assoc in Hn. apply NoDup_app in Hn as (_ & _ & Hn). apply NoDup_cons in Hn as [Hn _].
      split; [intros ->; apply Hn, list_elem_of_here|]. apply Hh. rewrite !elem_of_app, list_elem_of_singleton. auto. }
    rewrite lookup_alter_ne, Ha by done. cbn [mbind option_bind set_list set_heap heap pNext set_mu]. rewrite lookup_insert_ne, lookup_alter_eq, Hd by done.
    cbn [mbind option_bind fmap option_fmap option_map]. rewrite Eb. erewrite handle_free_spec; [|apply lookup_insert_eq|done|].
    + unfold evicted. cbn [put_handle set_heap set_list heap pDbCache nDbCache open_stores requests]. do 2 f_equal. apply map_eq. intros k.
      destruct (decide (k = b)) as [->|Hkb]; [by rewrite !lookup_delete_eq|]. rewrite !lookup_delete_ne, lookup_insert_ne by done.
      destruct (decide (k = a)) as [->|Hka]; [by rewrite lookup_insert_eq, lookup_alter_eq, Ha|by rewrite lookup_insert_ne, !lookup_alter_ne].
    + intros k. cbn [put_handle set_heap set_list heap open_stores]. rewrite (Hs k). destruct (decide (k = b)) as [->|Hkb]; [by rewrite lookup_insert_eq, Hd|].
      rewrite lookup_insert_ne by done. destruct (decide (k = a)) as [->|Hka]; [|by rewrite lookup_insert_ne, lookup_alter_ne].
      rewrite lookup_insert_eq, Ha. split; intros (x & [= <-] & Hx); by eexists.
  - cbn [mbind option_bind set_list set_heap heap]. rewrite lookup_alter_eq, Hd. cbn [mbind option_bind fmap option_fmap option_map]. rewrite Eb.
    assert (<[b := d]> (alter (set_mu true) b (heap c)) = heap c) as Ec.
    { apply map_eq. intros k. destruct (decide (k = b)) as [->|]; [by rewrite lookup_insert_eq|by rewrite lookup_insert_ne, lookup_alter_ne]. }
    unfold put_handle. cbn [set_list set_heap heap]. rewrite Ec. by erewrite handle_free_spec.
Qed.

(** [remoteDbCacheEvictOne] does nothing when every handle is in use, and else
    drops an unused one with the smallest time. *)
Lemma evict_one_spec c l : list_ok c l -> stores_ok c ->
  (forall h d, heap c !! h = Some d -> ~ unused d) /\ remoteDbCacheEvictOne c = Some c \/
  exists b prev d, best_ok (heap c) l (Some (b, prev, lastUseMs d)) /\ heap c !! b = Some d /\ remoteDbCacheEvictOne c = Some (evicted c b prev d).
Proof.
  intros Hl Hs. pose proof Hl as [Hc Hn Hh _]. destruct (evict_loop_spec (heap c) l [] (pDbCache c) (size (heap c)) None) as (best & E & Hb); [done|done|by rewrite (list_ok_size c l)|by intros ? ? ?%not_elem_of_nil|].
  cbn [lock_best last app] in E, Hb. destruct best as [[[b prev] age]|].
  - right. pose proof Hb as (l1 & l2 & d & -> & -> & Hd & Hu & -> & _). eexists b, _, d. split; [exact Hb|]. split; [done|]. by eapply evict_found.
  - left. split; [intros h d Hd; apply (Hb h d); [by apply Hh|done]|]. unfold remoteDbCacheEvictOne. rewrite E. by destruct c.
Qed.

Lemma evicted_list c l b prev d : list_ok c l -> best_ok (heap c) l (Some (b, prev, lastUseMs d)) -> heap c !! b = Some d ->
  exists l1 l2, l = l1 ++ b :: l2 /\ list_ok (evicted c b prev d) (l1 ++ l2).
Proof.
  intros [Hc Hn Hh Hk] (l1 & l2 & d' & -> & -> & Hd' & _) Hd. clear d' Hd'. exists l1, l2. split; [done|].
  assert (b ∉ l1 ++ l2 /\ NoDup (l1 ++ l2)) as [Hb Hn'].
  { rewrite <- Permutation_middle in Hn. by apply NoDup_cons in Hn. }
  split; [| done| |cbn [evicted nDbCache]; rewrite Hk, !length_app; cbn [length]; lia].
  - cbn [evicted heap pDbCache]. apply chain_delete; [|done]. destruct (last l1) as [a|] eqn:El.
    + apply last_Some in El as [l' ->]. rewrite <- app_assoc. rewrite <- app_assoc in Hn, Hc. by apply (chain_unlink _ _ _ _ b).
    + apply last_None in El as ->. destruct Hc as (_ & d' & Hd' & Hc). rewrite Hd in Hd'. by injection Hd' as <-.
  - intros h. cbn [evicted heap]. destruct (decide (h = b)) as [->|Hhb].
    + rewrite lookup_delete_eq. split; [done|by intros []].
    + rewrite lookup_delete_ne by done. transitivity (is_Some (heap c !! h)).
      * rewrite <- Hh, !elem_of_app, elem_of_cons. naive_solver.
      * destruct (last l1) as [a|]; [|done]. destruct (decide (h = a)) as [->|]; [|by rewrite lookup_alter_ne]. by rewrite lookup_alter_eq, fmap_is_Some.
Qed.

(** * Clearing *)
Lemma clear_loop_spec l : forall c p fuel, chain (heap c) p l -> NoDup l -> (forall h, h ∈ l <-> is_Some (heap c !! h)) -> stores_ok c ->
  (forall h d, heap c !! h = Some d -> mu d = false) -> (length l <= fuel)%nat ->
  exists c', clear_loop fuel p c = Some c' /\ heap c' = ∅ /\ open_stores c' = ∅ /\ pDbCache c' = pDbCache c /\ nDbCache c' = nDbCache c.
Proof.
  induction l as [|h l IH]; intros c p fuel Hc Hn Hh Hs Hm Hf.
  - cbn in Hc. subst p. assert (heap c = ∅) as E.
    { apply map_eq. intros k. rewrite lookup_empty. apply eq_None_not_Some. rewrite <- Hh. apply not_elem_of_nil. }
    exists c. split; [by destruct fuel|]. split_and!; [done| |done|done]. apply set_eq. intros k. rewrite (Hs k), E, lookup_empty. set_solver.
  - destruct Hc as (-> & d & Hd & Hc). destruct fuel as [|fuel]; cbn [length] in Hf; [lia|]. apply NoDup_cons in Hn as [Hhl Hn]. cbn [clear_loop]. rewrite Hd. cbn [mbind option_bind].
    rewrite (handle_free_spec c h d) by (done || by eapply Hm). cbn [mbind option_bind].
    apply (IH (Cache (delete h (heap c)) (pDbCache c) (nDbCache c) (open_stores c ∖ {[h]}) (requests c))); cbn [heap open_stores]; [by apply chain_delete|done| | | |lia].
    + intros k. destruct (decide (k = h)) as [->|Hkh]; [rewrite lookup_delete_eq; split; [done|by intros []]|]. rewrite lookup_delete_ne by done. rewrite <- Hh, elem_of_cons. naive_solver.
    + intros k. cbn [heap open_stores]. rewrite elem_of_difference, elem_of_singleton, (Hs k). destruct (decide (k = h)) as [->|Hkh]; [rewrite lookup_delete_eq; naive_solver|].
      rewrite lookup_delete_ne by done. naive_solver.
    + intros k dk [_ Hk]%lookup_delete_Some. by eapply Hm.
Qed.

Lemma clear_spec c l : list_ok c l -> stores_ok c -> (forall h d, heap c !! h = Some d -> mu d = false) ->
  exists c', remoteDbCacheClear c = Some c' /\ heap c' = ∅ /\ open_stores c' = ∅ /\ pDbCache c' = None /\ nDbCache c' = 0.
Proof.
  intros Hl Hs Hm. pose proof Hl as [Hc Hn Hh _]. apply (clear_loop_spec l (set_list None 0 c) (pDbCache c) (size (heap c))); [done..|]. by rewrite (list_ok_size c l).
Qed.
