(* ===== verification/CacheRun.v ===== *)
(** The account of the workers over the cache of open stores: who has reserved
    and locked which handle, and that every operation keeps it. *)
From stdpp Require Import gmultiset.
From S2P Require Import Prelude CInt Ge Ed25519 CString World Radix Json Creds CredsFile Bearer CredsConfig Encoding HashSet Blake3 Blake3Tree Blake3Stream Hash Http HttpSpec Threads Server Handlers HandlersSpec Cache CacheSpec.

(** * What is owned *)
(** What the holder of a lock knows of the handle: whether the store is open,
    and for writing, and the calls. *)
Definition view (d : RemoteDbHandle) : bool * bool * list store_event := (bOpen d, bWritable d, h_calls d).
(** Two holders of one lock are a conflict. *)
Inductive hold : Type := Held (path_ : list Z) (v : bool * bool * list store_event) | Conflict.
(** The reservations of workers that wait for the lock, by handle and path; the
    locks; and the number of workers that have neither. *)
Record share : Type := Share { reserved : gmultiset (Z * list Z); held : gmap Z hold; idle : nat }.

Lemma share_eq x y : reserved x = reserved y -> held x = held y -> idle x = idle y -> x = y.
Proof. destruct x, y. cbn. by intros -> -> ->. Qed.

Definition share_op (x y : share) : share :=
  Share (reserved x ⊎ reserved y) (union_with (fun _ _ => Some Conflict) (held x) (held y)) (idle x + idle y).
Definition share_unit : share := Share ∅ ∅ 0.

#[export] Program Instance share_resource : Resource share := { r_op := share_op; r_unit := share_unit }.
Next Obligation.
  intros x y z. apply share_eq; cbn [share_op reserved held idle]; [multiset_solver| |lia]. apply map_eq. intros k. rewrite !lookup_union_with.
  by destruct (held x !! k), (held y !! k), (held z !! k).
Qed.
Next Obligation.
  intros x y. apply share_eq; cbn [share_op reserved held idle]; [multiset_solver| |lia]. apply map_eq. intros k. rewrite !lookup_union_with.
  by destruct (held x !! k), (held y !! k).
Qed.
Next Obligation.
  intros x. apply share_eq; cbn [share_op share_unit reserved held idle]; [multiset_solver| |lia]. apply map_eq. intros k. rewrite lookup_union_with, lookup_empty.
  by destruct (held x !! k).
Qed.

(** A worker without a handle, with a handle reserved, and with its lock. *)
Definition at_rest : share := Share ∅ ∅ 1.
Definition waiting (h : Z) (path_ : list Z) : share := Share {[+ (h, path_) +]} ∅ 0.
Definition holding (h : Z) (path_ : list Z) (v : bool * bool * list store_event) : share := Share ∅ {[h := Held path_ v]} 0.

Ltac share_cbn := cbn [r_op r_unit share_resource share_op share_unit at_rest waiting holding reserved held idle].
Ltac share_in H := cbn [r_op r_unit share_resource share_op share_unit at_rest waiting holding reserved held idle] in H.

(** * The account *)
Section account.
Context (simd_degree MAX_SIMD_DEGREE : Z) (zDir : list Z).

(** The answer and the calls of a request are those its endpoint makes when no
    one disturbs it, on the store of the database that the request names. *)
Definition served_ok (q : served) : Prop :=
  (exists zMethod zEndpoint,
     request_target zDir (j_prefix (q_job q)) (j_nHeader (q_job q)) (zlen (j_body (q_job q))) (j_status (q_job q)) = Some (Serve (q_path q) zMethod zEndpoint) /\
     q_endpoint q = dispatch zMethod zEndpoint /\ (read_only zMethod zEndpoint = false -> q_writable q = true)) /\
  (forall Q, alone (handle_endpoint simd_degree MAX_SIMD_DEGREE (q_endpoint q) (j_body (q_job q))) [] Q -> Q (q_response q) (q_calls q)).

Record handle_ok (r : share) (h : Z) (d : RemoteDbHandle) : Prop := {
  ho_count : nReservations d = Z.of_nat (multiplicity (h, zPath d) (reserved r)) + Z.b2z (mu d);
  ho_path p : (h, p) ∈ reserved r -> p = zPath d;
  ho_held : held r !! h = if mu d then Some (Held (zPath d) (view d)) else None
}.

Record cache_inv (c : cache) (r : share) : Prop := {
  ci_list : exists l, list_ok c l;
  ci_bound : nDbCache c <= SERVER_DB_CACHE_MAX;
  ci_paths h1 h2 d1 d2 : heap c !! h1 = Some d1 -> heap c !! h2 = Some d2 -> zPath d1 = zPath d2 -> h1 = h2;
  ci_handles h d : heap c !! h = Some d -> handle_ok r h d;
  ci_gone h : heap c !! h = None -> (forall p, (h, p) ∉ reserved r) /\ held r !! h = None;
  ci_stores : stores_ok c;
  ci_seats : (size (reserved r) + size (held r) + idle r)%nat = Z.to_nat SERVER_WORKERS;
  ci_served : Forall served_ok (requests c)
}.

(** A step on one handle: the others, and what is known of them, stay. *)
Record step_on (h : Z) (d' : RemoteDbHandle) (c c' : cache) (r r' : share) : Prop := {
  so_heap : heap c' = <[h := d']> (heap c);
  so_list : pDbCache c' = pDbCache c /\ nDbCache c' = nDbCache c;
  so_stores k : k ∈ open_stores c' <-> if decide (k = h) then bOpen d' = true else k ∈ open_stores c;
  so_served : Forall served_ok (requests c) -> Forall served_ok (requests c');
  so_reserved k p : k <> h -> multiplicity (k, p) (reserved r') = multiplicity (k, p) (reserved r);
  so_held k : k <> h -> held r' !! k = held r !! k;
  so_seats : (size (reserved r') + size (held r') + idle r' = size (reserved r) + size (held r) + idle r)%nat;
  so_ok : handle_ok r' h d'
}.

Lemma step_on_inv h d d' c c' r r' : cache_inv c r -> heap c !! h = Some d -> zPath d' = zPath d -> pNext d' = pNext d -> step_on h d' c c' r r' -> cache_inv c' r'.
Proof using.
  intros [[l [Hc Hn Hh Hk]] Hb Hp Ho Hg Hs Ht Hq] Hd Ep En [Eh [Ed Ek] Est Esv Er El Esz Eok]. split.
  - exists l. split; [|done| |by rewrite Ek].
    + rewrite Eh, Ed. eapply chain_ext; [exact Hc|]. intros k dk _ Hdk. destruct (decide (k = h)) as [->|Hkh]; [|exists dk; by rewrite lookup_insert_ne].
      exists d'. rewrite lookup_insert_eq, En. rewrite Hd in Hdk. by injection Hdk as <-.
    + intros k. rewrite Hh, Eh. destruct (decide (k = h)) as [->|Hkh]; [by rewrite lookup_insert_eq, Hd|by rewrite lookup_insert_ne].
  - by rewrite Ek.
  - intros h1 h2 d1 d2 H1 H2 E.
    assert (forall k dk, heap c' !! k = Some dk -> exists dk0, heap c !! k = Some dk0 /\ zPath dk0 = zPath dk) as Hback.
    { intros k dk. rewrite Eh. destruct (decide (k = h)) as [->|Hkh]; [rewrite lookup_insert_eq; intros [= <-]; by exists d|rewrite lookup_insert_ne by done; by exists dk]. }
    destruct (Hback _ _ H1) as (e1 & He1 & E1), (Hback _ _ H2) as (e2 & He2 & E2). apply (Hp h1 h2 e1 e2); [done..|]. congruence.
  - intros k dk. rewrite Eh. destruct (decide (k = h)) as [->|Hkh]; [rewrite lookup_insert_eq; by intros [= <-]|]. rewrite lookup_insert_ne by done. intros [Hc1 Hc2 Hc3]%Ho.
    assert (forall p, (k, p) ∈ reserved r' <-> (k, p) ∈ reserved r) as Hin by (intros p; by rewrite !elem_of_multiplicity, Er).
    split; [by rewrite Er|intros p; rewrite Hin; apply Hc2|by rewrite El].
  - intros k. rewrite Eh. destruct (decide (k = h)) as [->|Hkh]; [by rewrite lookup_insert_eq|]. rewrite lookup_insert_ne by done. intros [Hc1 Hc2]%Hg. rewrite El by done. split; [|done].
    intros p. by rewrite elem_of_multiplicity, Er, <- elem_of_multiplicity by done.
  - intros k. rewrite Est, Eh. case_decide as Hkh; [subst k; rewrite lookup_insert_eq; split; [by exists d'|by intros (? & [= <-] & ?)]|].
    rewrite lookup_insert_ne by done. apply Hs.
  - by rewrite Esz.
  - by apply Esv.
Qed.

Abbreviation wp := (wp cache_inv).

(** * The holder of a lock *)
Lemma waiting_inv c h p F : cache_inv c (waiting h p ⋅ F) -> exists d, heap c !! h = Some d /\ zPath d = p.
Proof using.
  intros [_ _ _ Ho Hg _ _ _]. assert ((h, p) ∈ reserved (waiting h p ⋅ F)) as Hin by (apply gmultiset_elem_of_disj_union; left; by apply gmultiset_elem_of_singleton).
  destruct (heap c !! h) as [d|] eqn:Hd; [exists d; split; [done|]; symmetry; by apply (ho_path _ _ _ (Ho h d Hd))|]. by destruct (Hg h Hd) as [H _], (H p).
Qed.

Lemma holding_inv c h p v F : cache_inv c (holding h p v ⋅ F) ->
  exists d, heap c !! h = Some d /\ zPath d = p /\ mu d = true /\ view d = v /\ held F !! h = None.
Proof using.
  intros HJ. assert (held (holding h p v ⋅ F) !! h = match held F !! h with Some _ => Some Conflict | None => Some (Held p v) end) as E.
  { share_cbn. rewrite lookup_union_with, lookup_singleton_eq. by destruct (held F !! h). }
  destruct (heap c !! h) as [d|] eqn:Hd; [|destruct (ci_gone _ _ HJ h Hd) as [_ H]; rewrite H in E; by destruct (held F !! h)].
  exists d. pose proof (ho_held _ _ _ (ci_handles _ _ HJ h d Hd)) as H. rewrite E in H. destruct (held F !! h), (mu d); try done. by injection H as <- <-.
Qed.

Lemma size_holding h p v F : held F !! h = None -> size (held (holding h p v ⋅ F)) = S (size (held F)).
Proof using.
  intros HF. rewrite <- (map_size_insert_None h (Held p v)) by done. f_equal. apply map_eq. intros k. share_cbn. rewrite lookup_union_with. destruct (decide (k = h)) as [->|Hk].
  - by rewrite lookup_singleton_eq, lookup_insert_eq, HF.
  - rewrite lookup_singleton_ne, lookup_insert_ne by done. by destruct (held F !! k).
Qed.

Lemma held_other h p v F k : k <> h -> held (holding h p v ⋅ F) !! k = held F !! k.
Proof using. intros Hk. share_cbn. rewrite lookup_union_with, lookup_singleton_ne by done. by destruct (held F !! k). Qed.

Lemma held_empty x F k : held x = ∅ -> held (x ⋅ F) !! k = held F !! k.
Proof using. intros Hx. share_cbn. rewrite Hx, lookup_union_with, lookup_empty. by destruct (held F !! k). Qed.

Lemma size_held_empty x F : held x = ∅ -> size (held (x ⋅ F)) = size (held F).
Proof using. intros Hx. f_equal. apply map_eq. intros k. by apply held_empty. Qed.

Lemma reserved_frame x y F (q : Z * list Z) : reserved x = ∅ -> q ∈ reserved (x ⋅ F) -> q ∈ reserved (y ⋅ F).
Proof using.
  share_cbn. intros ->. rewrite !gmultiset_elem_of_disj_union. intros [H|?]; [by apply gmultiset_not_elem_of_empty in H|by right].
Qed.

Lemma stores_here c r h d : cache_inv c r -> heap c !! h = Some d -> h ∈ open_stores c <-> bOpen d = true.
Proof using. intros HJ Hd. rewrite (ci_stores _ _ HJ h). split; [intros (x & Hx & ?); congruence|intros; by exists d]. Qed.

(** What the holder of the lock leaves alone. *)
Definition kept (d d' : RemoteDbHandle) : Prop := zPath d' = zPath d /\ pNext d' = pNext d /\ nReservations d' = nReservations d /\ mu d' = true.

Lemma holder_wp {B} h p v (f : cache -> result cache B) (Q : B -> share -> Prop) :
  (forall d c, heap c !! h = Some d -> zPath d = p -> mu d = true -> view d = v -> (h ∈ open_stores c <-> bOpen d = true) ->
     match f c with
     | Go b c' => exists d', kept d d' /\ heap c' = <[h := d']> (heap c) /\ (pDbCache c' = pDbCache c /\ nDbCache c' = nDbCache c) /\
         (forall k, k ∈ open_stores c' <-> if decide (k = h) then bOpen d' = true else k ∈ open_stores c) /\
         (Forall served_ok (requests c) -> Forall served_ok (requests c')) /\ Q b (holding h p (view d'))
     | Wait => True
     | Wrong => False
     end) ->
  wp (act f) (holding h p v) Q.
Proof using.
  intros H c F HJ. cbn [act]. destruct (holding_inv _ _ _ _ _ HJ) as (d & Hd & Hp & Hm & Hv & HF). specialize (H d c Hd Hp Hm Hv (stores_here _ _ _ _ HJ Hd)).
  destruct (f c) as [b c'| |]; [|done|done]. destruct H as (d' & (K1 & K2 & K3 & K4) & Eh & El & Es & Eq & HQ). exists (holding h p (view d')). split; [|done].
  eapply step_on_inv; [exact HJ|exact Hd|done|done|]. destruct (ci_handles _ _ HJ h d Hd) as [C1 C2 C3]. split; [done|done|done|done|intros k q Hk; by share_cbn| | |].
  - intros k Hk. by rewrite !held_other.
  - by rewrite !size_holding.
  - split; [rewrite K1, K3, K4, <- Hm; exact C1|by rewrite K1|]. rewrite K4. share_cbn. by rewrite lookup_union_with, lookup_singleton_eq, HF, K1, Hp.
Qed.

Lemma get_wp {B} h p v (f : RemoteDbHandle -> B) : wp (get_handle h f) (holding h p v) (fun b r => r = holding h p v /\ exists d, zPath d = p /\ view d = v /\ b = f d).
Proof using.
  apply holder_wp. intros d c Hd Hp Hm Hv Hs. rewrite Hd. exists d. split; [done|]. split_and!; [by rewrite insert_id|done|done| |done|by rewrite Hv|by exists d].
  intros k. case_decide; [by subst k|done].
Qed.

Lemma upd_wp h p v (f : RemoteDbHandle -> RemoteDbHandle) : (forall d, mu d = true -> kept d (f d) /\ bOpen (f d) = bOpen d) ->
  wp (upd_handle h f) (holding h p v) (fun _ r => exists d, view d = v /\ r = holding h p (view (f d))).
Proof using.
  intros Hf. apply holder_wp. intros d c Hd Hp Hm Hv Hs. rewrite Hd. destruct (Hf d Hm) as [Hk Ho]. exists (f d). split; [done|]. split_and!; [done|done|done| |done|by exists d].
  intros k. cbn [put_handle set_heap open_stores]. rewrite Ho. case_decide; [by subst k|done].
Qed.

Lemma close_store_wp h p o w es : wp (remoteDbHandleCloseStore h) (holding h p (o, w, es)) (fun _ r => exists w', r = holding h p (false, w', es)).
Proof using.
  apply holder_wp. intros d c Hd Hp Hm [= <- <- <-] Hs. unfold close_store. rewrite Hd. cbn [mbind option_bind]. destruct (bOpen d) eqn:Eo.
  - rewrite decide_True by by apply Hs. exists (set_store false false d). split; [done|]. split_and!; [done|done|done| |done|by eexists].
    intros k. cbn [put_handle set_heap set_stores open_stores set_store bOpen]. rewrite elem_of_difference, elem_of_singleton. case_decide; naive_solver.
  - exists d. split; [done|]. split_and!; [by rewrite insert_id|done|done| |done|exists (bWritable d); unfold view; by rewrite Eo].
    intros k. case_decide; [subst k; by rewrite Eo|done].
Qed.

Lemma open_wp h p w0 w es : wp (remoteDbHandleOpenStore h w) (holding h p (false, w0, es))
  (fun rc r => if rc =? SQLITE_OK then r = holding h p (true, w, es) else exists w', r = holding h p (false, w', es)).
Proof using.
  intros rc _. cbn [bind]. destruct (rc =? SQLITE_OK) eqn:E; [|cbn; rewrite E; by exists w0]. apply holder_wp. intros d c Hd Hp Hm [= Eo <- <-] Hs. rewrite Hd.
  rewrite decide_False by (rewrite Hs, Eo; done). exists (set_store true w d). split; [done|]. split_and!; [done|done|done| |done|by rewrite E].
  intros k. cbn [put_handle set_heap set_stores open_stores set_store bOpen]. rewrite elem_of_union, elem_of_singleton. case_decide; naive_solver.
Qed.

(** What a program does alone it does on the store whose lock is held. *)
Lemma on_store_wp {A} h p w (q : calls A) es Q : alone q es Q ->
  wp (on_store (Some h) q) (holding h p (true, w, es)) (fun a r => exists es', r = holding h p (true, w, es') /\ Q a es').
Proof using.
  revert es. induction q as [A a|A B f k IH|A B P k IH|A L B body _ l k _]; intros es; cbn [alone on_store].
  - intros HQ. by exists es.
  - intros Hf. apply (prog_wp_bind cache_inv (act _)). apply holder_wp. intros d c Hd Hp Hm [= Eo <- <-] Hs. rewrite Hd, Eo. cbn [negb].
    destruct (f (h_calls d)) as [b es'| |]; [|done|done]. exists (set_calls es' d). split; [done|]. split_and!; [done|done|done| |done|].
    + intros k'. cbn [put_handle set_heap open_stores set_calls bOpen]. case_decide; [by subst k'|done].
    + unfold view. cbn [set_calls bOpen bWritable h_calls]. rewrite Eo. by apply IH.
  - intros Hf b Hb. by apply IH, Hf.
  - done.
Qed.

(** * Locks and reservations *)
Lemma lock_wp h p : wp (lock_handle h) (waiting h p) (fun _ r => exists v, r = holding h p v).
Proof using.
  intros c F HJ. cbn [lock_handle on_handle act]. destruct (waiting_inv _ _ _ _ HJ) as (d & Hd & Hp). rewrite Hd. destruct (mu d) eqn:Em; [done|].
  exists (holding h p (view d)). split; [|by exists (view d)]. destruct (ci_handles _ _ HJ h d Hd) as [C1 C2 C3]. rewrite Em, held_empty in C3 by done. rewrite Em in C1.
  eapply step_on_inv; [exact HJ|exact Hd|by instantiate (1 := set_mu true d)|done|]. split; [done|done| |done| | | |].
  - intros k. cbn [put_handle set_heap open_stores set_mu bOpen]. case_decide; [subst k; by eapply stores_here|done].
  - intros k q Hk. share_cbn. rewrite !multiplicity_disj_union, multiplicity_empty, multiplicity_singleton_ne by congruence. done.
  - intros k Hk. by rewrite held_other, held_empty.
  - rewrite size_holding, size_held_empty by done. share_cbn. rewrite !gmultiset_size_disj_union, gmultiset_size_singleton, (gmultiset_size_empty (A := Z * list Z)). lia.
  - split; cbn [set_mu nReservations zPath mu].
    + rewrite C1. subst p. share_cbn. rewrite !multiplicity_disj_union, (multiplicity_empty (A := Z * list Z)), multiplicity_singleton_eq. cbn [Z.b2z]. lia.
    + intros q Hq. apply C2. by eapply reserved_frame; [|exact Hq].
    + share_cbn. by rewrite lookup_union_with, lookup_singleton_eq, C3, Hp.
Qed.

Lemma unlock_wp h p v : wp (unlock_handle h) (holding h p v) (fun _ r => r = waiting h p).
Proof using.
  intros c F HJ. cbn [unlock_handle on_handle act]. destruct (holding_inv _ _ _ _ _ HJ) as (d & Hd & Hp & Hm & Hv & HF). rewrite Hd, Hm.
  exists (waiting h p). split; [|done]. destruct (ci_handles _ _ HJ h d Hd) as [C1 C2 C3]. rewrite Hm in C1.
  eapply step_on_inv; [exact HJ|exact Hd|by instantiate (1 := set_mu false d)|done|]. split; [done|done| |done| | | |].
  - intros k. cbn [put_handle set_heap open_stores set_mu bOpen]. case_decide; [subst k; by eapply stores_here|done].
  - intros k q Hk. share_cbn. rewrite !multiplicity_disj_union, multiplicity_singleton_ne, multiplicity_empty by congruence. done.
  - intros k Hk. by rewrite held_other, held_empty.
  - rewrite size_holding, size_held_empty by done. share_cbn. rewrite !gmultiset_size_disj_union, gmultiset_size_singleton. change (size (∅ : gmultiset (Z * list Z))) with 0%nat. lia.
  - split; cbn [set_mu nReservations zPath mu].
    + rewrite C1. subst p. share_cbn. rewrite !multiplicity_disj_union, (multiplicity_empty (A := Z * list Z)), multiplicity_singleton_eq. cbn [Z.b2z]. lia.
    + intros q. share_cbn. rewrite gmultiset_elem_of_disj_union, gmultiset_elem_of_singleton. intros [[= ->]|Hq]; [done|]. apply C2. share_cbn. rewrite gmultiset_elem_of_disj_union. by right.
    + by rewrite held_empty by done.
Qed.

Lemma unreserve_wp h p : wp (upd_handle h (add_reservation (-1))) (waiting h p) (fun _ r => r = at_rest).
Proof using.
  intros c F HJ. cbn [upd_handle on_handle act]. destruct (waiting_inv _ _ _ _ HJ) as (d & Hd & Hp). rewrite Hd.
  exists at_rest. split; [|done]. destruct (ci_handles _ _ HJ h d Hd) as [C1 C2 C3]. subst p.
  eapply step_on_inv; [exact HJ|exact Hd|by instantiate (1 := add_reservation (-1) d)|done|]. split; [done|done| |done| | | |].
  - intros k. cbn [put_handle set_heap open_stores add_reservation bOpen]. case_decide; [subst k; by eapply stores_here|done].
  - intros k q Hk. share_cbn. rewrite !multiplicity_disj_union, multiplicity_empty, multiplicity_singleton_ne by congruence. done.
  - intros k Hk. by rewrite !held_empty by done.
  - rewrite !size_held_empty by done. share_cbn. rewrite !gmultiset_size_disj_union, gmultiset_size_singleton, (gmultiset_size_empty (A := Z * list Z)). lia.
  - split; cbn [add_reservation nReservations zPath mu].
    + rewrite C1. share_cbn. rewrite !multiplicity_disj_union, (multiplicity_empty (A := Z * list Z)), multiplicity_singleton_eq. lia.
    + intros q Hq. apply C2. by eapply reserved_frame; [|exact Hq].
    + by rewrite held_empty in * by done.
Qed.

Lemma give_back_wp h p v : wp (give_back h) (holding h p v) (fun _ r => r = at_rest).
Proof using. apply prog_wp_bind. eapply prog_wp_mono; [apply unlock_wp|]. intros _ r ->. apply unreserve_wp. Qed.

(** * Reserving a handle *)
Lemma handle_ok_next r h d p : handle_ok r h d -> handle_ok r h (set_next p d).
Proof using. by intros [C1 C2 C3]. Qed.

(** A handle that is left after an eviction is what it was, but for its link. *)
Lemma evicted_lookup c b prev d k dk' : heap (evicted c b prev d) !! k = Some dk' -> k <> b /\ exists dk, heap c !! k = Some dk /\ (dk' = dk \/ exists p, dk' = set_next p dk).
Proof using.
  cbn [evicted heap]. destruct (decide (k = b)) as [->|Hkb]; [by rewrite lookup_delete_eq|]. rewrite lookup_delete_ne by done. intros H. split; [done|].
  destruct prev as [a|]; [|exists dk'; auto]. destruct (decide (k = a)) as [->|Hka]; [|rewrite lookup_alter_ne in H by done; exists dk'; auto].
  rewrite lookup_alter_eq in H. destruct (heap c !! a) as [da|]; [|done]. injection H as <-. exists da. split; [done|]. right. by eexists.
Qed.

Lemma evicted_missing c b prev d k : heap (evicted c b prev d) !! k = None -> k = b \/ heap c !! k = None.
Proof using.
  cbn [evicted heap]. destruct (decide (k = b)) as [->|Hkb]; [by left|]. rewrite lookup_delete_ne by done. right. destruct prev as [a|]; [|done].
  destruct (decide (k = a)) as [->|Hka]; [|by rewrite lookup_alter_ne in H]. rewrite lookup_alter_eq in H. by destruct (heap c !! a).
Qed.

Lemma unused_free r h d : handle_ok r h d -> unused d -> (forall p, (h, p) ∉ reserved r) /\ held r !! h = None.
Proof using.
  intros [C1 C2 C3] [Hn Hm]. rewrite Hm in C1, C3. cbn [Z.b2z] in C1. split; [|done]. intros p Hp. pose proof (C2 p Hp) as ->. rewrite elem_of_multiplicity in Hp. lia.
Qed.

Lemma evicted_inv c r l b prev d : cache_inv c r -> list_ok c l -> best_ok (heap c) l (Some (b, prev, lastUseMs d)) -> heap c !! b = Some d -> cache_inv (evicted c b prev d) r.
Proof using.
  intros HJ Hl Hb Hd. pose proof HJ as [_ Hbd Hp Ho Hg Hs Ht Hq]. assert (unused d) as Hu.
  { destruct Hb as (? & ? & d' & _ & _ & Hd' & Hu & _). rewrite Hd in Hd'. by injection Hd' as <-. }
  split; [|cbn [evicted nDbCache]; lia| | | | |done|done].
  - destruct (evicted_list _ _ _ _ _ Hl Hb Hd) as (l1 & l2 & _ & Hl'). by eexists.
  - intros h1 h2 d1 d2 (_ & e1 & He1 & E1)%evicted_lookup (_ & e2 & He2 & E2)%evicted_lookup E. apply (Hp h1 h2 e1 e2); [done..|].
    destruct E1 as [->|[? ->]], E2 as [->|[? ->]]; done.
  - intros h d' (_ & dh & Hdh & [->|[p ->]])%evicted_lookup; [|apply handle_ok_next]; by apply Ho.
  - intros h [->|Hh]%evicted_missing; [|by apply Hg]. by eapply unused_free; [apply Ho|].
  - intros h. cbn [evicted open_stores]. rewrite elem_of_difference, elem_of_singleton, (Hs h). split.
    + intros [(dh & Hdh & Hoh) Hhb]. destruct (heap (evicted c b prev d) !! h) as [d'|] eqn:E; [|apply evicted_missing in E as [?|E]; [done|congruence]].
      exists d'. split; [done|]. apply evicted_lookup in E as (_ & dh' & Hdh' & E). rewrite Hdh in Hdh'. injection Hdh' as <-. by destruct E as [->|[? ->]].
    + intros (d' & (Hhb & dh & Hdh & E)%evicted_lookup & Hoh). split; [|done]. exists dh. split; [done|]. by destruct E as [->|[? ->]].
Qed.

(** With a worker at rest not all of four handles or more are in use. *)
Lemma some_unused c r l : cache_inv c r -> list_ok c l -> (0 < idle r)%nat -> SERVER_WORKERS <= zlen l -> ~ (forall h d, heap c !! h = Some d -> ~ unused d).
Proof using.
  intros HJ [_ Hn Hh _] Hi Hl Hall. assert (l ⊆+ (map_to_list (held r)).*1 ++ (elements (reserved r)).*1) as Hsub.
  { apply NoDup_submseteq; [done|]. intros h [d Hd]%Hh. destruct (ci_handles _ _ HJ h d Hd) as [C1 C2 C3]. apply elem_of_app. destruct (mu d) eqn:Em.
    - left. apply list_elem_of_fmap. exists (h, Held (zPath d) (view d)). split; [done|]. by apply elem_of_map_to_list.
    - right. apply list_elem_of_fmap. exists (h, zPath d). split; [done|]. apply gmultiset_elem_of_elements, elem_of_multiplicity. cbn [Z.b2z] in C1.
      destruct (decide (nReservations d <= 0)) as [Hr|Hr]; [by destruct (Hall h d Hd)|lia]. }
  apply submseteq_length in Hsub. rewrite length_app, !length_fmap in Hsub. pose proof (ci_seats _ _ HJ) as Hs.
  rewrite length_map_to_list in Hsub. change (length (elements (reserved r))) with (size (reserved r)) in Hsub. lia.
Qed.

Lemma make_room_spec c r : cache_inv c r -> (0 < idle r)%nat -> exists c', make_room (Z.to_nat (nDbCache c)) c = Some c' /\ cache_inv c' r /\ nDbCache c' < SERVER_DB_CACHE_MAX /\
  forall h d', heap c' !! h = Some d' -> exists d, heap c !! h = Some d /\ zPath d = zPath d'.
Proof using.
  intros HJ Hi. destruct (decide (nDbCache c < SERVER_DB_CACHE_MAX)) as [Hlt|Hge].
  { exists c. split; [|split; [done|]; split; [done|]; intros h d' Hd'; by exists d']. destruct (Z.to_nat (nDbCache c)); cbn [make_room]; by rewrite (proj2 (Z.ltb_lt _ _) Hlt). }
  pose proof (ci_bound _ _ HJ) as Hb. destruct (ci_list _ _ HJ) as [l Hl]. pose proof (lo_count _ _ Hl) as Hn.
  destruct (evict_one_spec c l Hl (ci_stores _ _ HJ)) as [[Hno _]|(b & prev & d & Hbest & Hd & E)].
  { exfalso. apply (some_unused c r l HJ Hl Hi); [unfold SERVER_DB_CACHE_MAX, SERVER_WORKERS in *; lia|done]. }
  exists (evicted c b prev d). replace (Z.to_nat (nDbCache c)) with 32%nat by (unfold SERVER_DB_CACHE_MAX in *; lia). cbn [make_room]. rewrite E.
  cbn [mbind option_bind evicted nDbCache]. rewrite (proj2 (Z.ltb_ge _ _)) by lia. rewrite (proj2 (Z.leb_gt _ _)), (proj2 (Z.ltb_lt _ _)) by lia.
  split; [done|]. split; [by eapply evicted_inv|]. split; [lia|]. intros h d' (_ & dh & Hdh & [->|[p ->]])%evicted_lookup; by exists dh.
Qed.

Lemma insert_inv c h p F : cache_inv c (at_rest ⋅ F) -> nDbCache c < SERVER_DB_CACHE_MAX -> heap c !! h = None -> (forall k d, heap c !! k = Some d -> zPath d <> p) ->
  cache_inv (set_list (Some h) (nDbCache c + 1) (put_handle h (DbHandle p false false 1 0 false (pDbCache c) []) c)) (waiting h p ⋅ F).
Proof using.
  intros HJ Hlt Hh Hp. pose proof HJ as [[l [Hc Hn Hl Hk]] Hb Hpp Ho Hg Hs Ht Hq]. set (d0 := DbHandle _ _ _ _ _ _ _ _). destruct (Hg h Hh) as [Hg1 Hg2]. rewrite held_empty in Hg2 by done.
  assert (forall k q, k <> h -> multiplicity (k, q) (reserved (waiting h p ⋅ F)) = multiplicity (k, q) (reserved (at_rest ⋅ F))) as Hm.
  { intros k q Hne. share_cbn. rewrite !multiplicity_disj_union, multiplicity_singleton_ne, multiplicity_empty by congruence. done. }
  split; cbn [set_list put_handle set_heap heap pDbCache nDbCache open_stores requests].
  - exists (h :: l). assert (h ∉ l) as Hhl by (intros [? ?]%Hl; congruence). split; cbn [set_list put_handle set_heap heap pDbCache nDbCache].
    + split; [done|]. exists d0. rewrite lookup_insert_eq. split; [done|]. eapply chain_ext; [exact Hc|]. intros k d Hkl Hd. exists d. rewrite lookup_insert_ne; [done|]. by intros ->.
    + by apply NoDup_cons.
    + intros k. rewrite elem_of_cons, Hl. destruct (decide (k = h)) as [->|Hkh]; [rewrite lookup_insert_eq; naive_solver|]. rewrite lookup_insert_ne by done. naive_solver.
    + cbn [length]. lia.
  - lia.
  - intros h1 h2 d1 d2. destruct (decide (h1 = h)) as [->|H1], (decide (h2 = h)) as [->|H2]; rewrite ?lookup_insert_eq, ?lookup_insert_ne by done; [done| | |by apply Hpp].
    + intros [= <-] Hd2 E. by destruct (Hp h2 d2 Hd2).
    + intros Hd1 [= <-] E. by destruct (Hp h1 d1 Hd1).
  - intros k d. destruct (decide (k = h)) as [->|Hkh].
    + rewrite lookup_insert_eq. intros [= <-]. split; cbn [d0 nReservations zPath mu]; [| |by rewrite held_empty].
      * share_cbn. rewrite multiplicity_disj_union, multiplicity_singleton_eq. pose proof (Hg1 p) as Hz. rewrite elem_of_multiplicity in Hz. share_in Hz.
        rewrite multiplicity_disj_union, multiplicity_empty in Hz. cbn [Z.b2z]. lia.
      * intros q. share_cbn. rewrite gmultiset_elem_of_disj_union, gmultiset_elem_of_singleton. intros [[= ->]|Hin]; [done|]. destruct (Hg1 q). share_cbn. rewrite gmultiset_elem_of_disj_union. by right.
    + rewrite lookup_insert_ne by done. intros [C1 C2 C3]%Ho. split; [by rewrite Hm| |by rewrite held_empty in *].
      intros q. rewrite elem_of_multiplicity, Hm, <- elem_of_multiplicity by done. apply C2.
  - intros k. destruct (decide (k = h)) as [->|Hkh]; [by rewrite lookup_insert_eq|]. rewrite lookup_insert_ne by done. intros [G1 G2]%Hg. split; [|by rewrite held_empty in *].
    intros q. by rewrite elem_of_multiplicity, Hm, <- elem_of_multiplicity by done.
  - intros k. cbn [set_list put_handle set_heap heap open_stores]. rewrite (Hs k). destruct (decide (k = h)) as [->|Hkh]; [|by rewrite lookup_insert_ne].
    rewrite lookup_insert_eq, Hh. naive_solver.
  - rewrite size_held_empty in * by done. share_in Ht. share_cbn. rewrite gmultiset_size_disj_union, gmultiset_size_singleton in *. change (size (∅ : gmultiset (Z * list Z))) with 0%nat in Ht. lia.
  - done.
Qed.

Lemma reserve_handle_wp p block : wp (act (reserve_handle p block)) at_rest (fun h r => match h with Some h => r = waiting h p | None => r = at_rest end).
Proof using.
  intros c F HJ. cbn [act]. unfold reserve_handle. destruct (ci_list _ _ HJ) as [l Hl]. pose proof Hl as [Hc Hn Hh Hk].
  destruct (find_handle_spec (heap c) (pDbCache c) l p (size (heap c)) Hc) as (r & -> & Hr); [by rewrite (list_ok_size c l)|]. destruct r as [h|].
  - destruct Hr as (d & Hd & <-). rewrite Hd. exists (waiting h (zPath d)). split; [|done]. destruct (ci_handles _ _ HJ h d Hd) as [C1 C2 C3].
    eapply step_on_inv; [exact HJ|exact Hd|by instantiate (1 := add_reservation 1 d)|done|]. split; [done|done| |done| | | |].
    + intros k. cbn [put_handle set_heap open_stores add_reservation bOpen]. case_decide; [subst k; by eapply stores_here|done].
    + intros k q Hkh. share_cbn. rewrite !multiplicity_disj_union, multiplicity_singleton_ne, multiplicity_empty by congruence. done.
    + intros k Hkh. by rewrite !held_empty by done.
    + rewrite !size_held_empty by done. share_cbn. rewrite !gmultiset_size_disj_union, gmultiset_size_singleton. change (size (∅ : gmultiset (Z * list Z))) with 0%nat. lia.
    + split; cbn [add_reservation nReservations zPath mu]; [| |by rewrite held_empty in *].
      * rewrite C1. share_cbn. rewrite !multiplicity_disj_union, (multiplicity_empty (A := Z * list Z)), multiplicity_singleton_eq. lia.
      * intros q. share_cbn. rewrite gmultiset_elem_of_disj_union, gmultiset_elem_of_singleton. intros [[= ->]|Hq]; [done|]. apply C2. share_cbn. rewrite gmultiset_elem_of_disj_union. by right.
  - destruct (make_room_spec c _ HJ) as (c' & -> & HJ' & Hlt & Hpaths); [share_cbn; lia|]. destruct block as [h|]; [|by exists at_rest].
    case_decide as Hdom; [done|]. exists (waiting h p). split; [|done]. apply insert_inv; [done|done|by apply not_elem_of_dom|]. intros k d' (d & Hd & <-)%Hpaths. apply (Hr k d); [|done]. by apply Hh.
Qed.

(** * Acquiring and releasing *)
Lemma lock_loop_returns n : returns (lock_loop n).
Proof using.
  induction n as [|n IH]; cbn [lock_loop]; (apply returns_bind; [by intros es rc _|]); intros rc; [done|]. by destruct (rc =? SQLITE_BUSY).
Qed.

Lemma lock_refresh_returns : returns remoteSrvLockAndForceRefresh.
Proof using.
  apply returns_bind; [apply lock_loop_returns|]. intros rc. apply returns_bind; [destruct (rc =? SQLITE_OK); [by intros es rc' _|done]|].
  intros rc'. apply returns_bind; [by destruct (rc' =? SQLITE_OK)|done].
Qed.

Lemma store_wp {A} h p w (q : calls A) es : returns q -> wp (on_store (Some h) q) (holding h p (true, w, es)) (fun _ r => exists es', r = holding h p (true, w, es')).
Proof using. intros Hq. eapply prog_wp_mono; [apply on_store_wp, Hq|]. intros a r (es' & -> & _). by exists es'. Qed.

Lemma drop_staged_wp h p o w es : wp (drop_staged h) (holding h p (o, w, es)) (fun _ r => exists es', r = holding h p (o, w, es')).
Proof using.
  apply prog_wp_bind. eapply prog_wp_mono; [apply get_wp|]. intros _ r (-> & d & _ & [= <- <- <-] & ->). destruct (bOpen d); cbn [bind]; [|by eexists].
  intros [] _; cbn [bind]; [|by eexists]. by apply store_wp.
Qed.

(** The store is closed and opened again. *)
Lemma reopen_wp h p o w0 w es : wp (let& _ := remoteDbHandleCloseStore h in remoteDbHandleOpenStore h w) (holding h p (o, w0, es))
  (fun rc r => if rc =? SQLITE_OK then exists es', r = holding h p (true, w, es') else exists v, r = holding h p v).
Proof using.
  apply prog_wp_bind. eapply prog_wp_mono; [apply close_store_wp|]. intros _ r [w' ->]. eapply prog_wp_mono; [apply open_wp|]. intros rc r. cbn beta.
  destruct (rc =? SQLITE_OK); [intros ->; by eexists|intros [? ->]; by eexists].
Qed.

(** The store is open when the result is 0, and for writing when it should be. *)
Definition refreshed (h : Z) (p : list Z) (w : bool) (rc : Z) (r : share) : Prop :=
  if rc =? SQLITE_OK then exists w' es, r = holding h p (true, w', es) /\ (w = true -> w' = true) else exists v, r = holding h p v.

Lemma refresh_wp h p o w0 w es : (o = true -> w = true -> w0 = true) -> wp (refresh_store h w) (holding h p (o, w0, es)) (refreshed h p w).
Proof using.
  intros Hw. apply prog_wp_bind. eapply prog_wp_mono; [apply get_wp|]. intros _ r (-> & d & _ & [= <- <- <-] & ->).
  assert (forall o w0 es, wp (let& _ := remoteDbHandleCloseStore h in remoteDbHandleOpenStore h w) (holding h p (o, w0, es)) (refreshed h p w)) as Hre.
  { intros. eapply prog_wp_mono; [apply reopen_wp|]. unfold refreshed. intros rc r. cbn beta. destruct (rc =? SQLITE_OK); [intros [? ->]; by eexists _, _|done]. }
  destruct (bOpen d); cbn [negb].
  2: { eapply prog_wp_mono; [apply open_wp|]. unfold refreshed. intros rc r. cbn beta. destruct (rc =? SQLITE_OK); [intros ->; by eexists _, _|intros [? ->]; by eexists]. }
  destruct w.
  - apply prog_wp_bind. eapply prog_wp_mono; [apply store_wp, lock_refresh_returns|]. intros rc r [es' ->]. destruct (rc =? SQLITE_OK) eqn:E.
    + apply prog_wp_bind. eapply prog_wp_mono; [by apply store_wp|]. intros _ r [es'' ->]. cbn. unfold refreshed. rewrite E. eexists _, _. split; [done|]. intros _. by apply Hw.
    + intros [] _; [apply Hre|]. cbn. unfold refreshed. rewrite E. by eexists.
  - intros rc _ moved _. cbn [bind]. destruct (negb (rc =? SQLITE_OK) || moved) eqn:E; [apply Hre|]. apply orb_false_iff in E as [E%negb_false_iff _].
    cbn. unfold refreshed. rewrite E. by eexists _, _.
Qed.

Lemma acquire_wp p w : wp (remoteDbAcquire p w) at_rest (fun r sh =>
  match r.2 with
  | Some h => exists w' es, sh = holding h p (true, w', es) /\ (w = true -> w' = true)
  | None => sh = at_rest
  end).
Proof using.
  intros block _. cbn [bind]. apply prog_wp_bind. eapply prog_wp_mono; [apply reserve_handle_wp|]. intros [h|] r ->; [|done]. apply prog_wp_bind. eapply prog_wp_mono; [apply lock_wp|].
  intros _ r [[[o w0] es] ->] ms _. cbn [bind]. apply prog_wp_bind. eapply prog_wp_mono; [by apply upd_wp|]. intros _ r (d & [= <- <- <-] & ->).
  apply prog_wp_bind. eapply prog_wp_mono; [apply drop_staged_wp|]. intros _ r [es ->]. cbn [set_use bOpen bWritable].
  apply prog_wp_bind. eapply prog_wp_mono; [apply get_wp|]. intros o r (-> & d1 & _ & [= Eo1 Ew1 _] & ->). apply prog_wp_bind. eapply prog_wp_mono; [apply get_wp|].
  intros w1 r (-> & d2 & _ & [= Eo2 Ew2 _] & ->). apply prog_wp_bind.
  assert (forall rc r, refreshed h p w rc r -> wp (if negb (rc =? SQLITE_OK) then let& _ := give_back h in Done (rc, None) else Done (SQLITE_OK, Some h)) r (fun r sh =>
    match r.2 with Some h => exists w' es, sh = holding h p (true, w', es) /\ (w = true -> w' = true) | None => sh = at_rest end)) as Hend.
  { unfold refreshed. intros rc r. cbn beta. destruct (rc =? SQLITE_OK); cbn [negb]; [done|]. intros [v ->]. apply prog_wp_bind. eapply prog_wp_mono; [apply give_back_wp|]. by intros _ r ->. }
  destruct (bOpen d1 && w && negb (bWritable d2)) eqn:E.
  - eapply prog_wp_mono; [apply close_store_wp|]. intros _ r [w' ->]. apply prog_wp_bind. eapply prog_wp_mono; [by apply refresh_wp|]. apply Hend.
  - apply prog_wp_bind. eapply prog_wp_mono; [apply refresh_wp|apply Hend]. intros Ho ->. destruct (bWritable d2); [congruence|]. destruct (bOpen d1); [done|congruence].
Qed.

Lemma release_handle_wp h p v : wp (remoteDbRelease h) (holding h p v) (fun _ r => r = at_rest).
Proof using.
  destruct v as [[o w] es]. apply prog_wp_bind. eapply prog_wp_mono; [apply drop_staged_wp|]. intros _ r [es' ->]. apply give_back_wp.
Qed.

(** At the start every worker is at rest. *)
Lemma start_inv : cache_inv (Cache ∅ None 0 ∅ []) (total (replicate (Z.to_nat SERVER_WORKERS) at_rest)).
Proof using.
  split; cbn [heap pDbCache nDbCache open_stores requests]; [| done| | | | | |constructor].
  - exists []. split; [done|constructor| |done]. intros h. cbn [heap]. rewrite lookup_empty. split; [by intros ?%not_elem_of_nil|by intros []].
  - by intros h1 h2 d1 d2; rewrite lookup_empty.
  - by intros h d; rewrite lookup_empty.
  - intros h _. split; [|by vm_compute]. intros p Hp. assert (reserved (total (replicate (Z.to_nat SERVER_WORKERS) at_rest)) = ∅) as E by by vm_compute.
    rewrite E in Hp. by apply gmultiset_not_elem_of_empty in Hp.
  - intros h. cbn [heap open_stores]. rewrite lookup_empty. split; [set_solver|by intros (? & ? & _)].
  - by vm_compute.
Qed.

(** * Requests *)
Context (endpoint_returns : forall ep pBody, bytes_wf pBody -> zlen pBody <= MAX_REQUEST_BYTES ->
  alone (handle_endpoint simd_degree MAX_SIMD_DEGREE ep pBody) [] (fun _ _ => True)).

Lemma pending_wp r (sh : share) : wp (pending_response r) sh (fun _ sh' => sh' = sh).
Proof using.
  unfold pending_response, remotesrvPendingAdd. apply prog_wp_bind. eapply (prog_wp_mono _ _ _ (fun _ sh' => sh' = sh)).
  - destruct (_ <=? 0); [done|]. destruct (_ <? _); [done|]. by intros [] _.
  - intros [msg|] sh' ->; [|done]. destruct (_ <=? 0); [done|]. destruct (_ <? _); [done|]. by intros [] _.
Qed.

(** The endpoint on the store that was acquired for the request. *)
Lemma serve_job_wp j h path_ zMethod zEndpoint w es : bytes_wf (j_body j) ->
  request_target zDir (j_prefix j) (j_nHeader j) (zlen (j_body j)) (j_status j) = Some (Serve path_ zMethod zEndpoint) -> zlen (j_body j) <= MAX_REQUEST_BYTES ->
  (negb (read_only zMethod zEndpoint) = true -> w = true) ->
  wp (let& _ := upd_handle h (set_calls []) in
      let& resp := on_store (Some h) (handle_endpoint simd_degree MAX_SIMD_DEGREE (dispatch zMethod zEndpoint) (j_body j)) in
      let& pending := pending_response resp in
      let& _ := on_handle h (fun d c => Go tt (add_request (ServedJob j (zPath d) (bWritable d) (dispatch zMethod zEndpoint) resp (h_calls d)) c)) in
      let& _ := remoteDbRelease h in
      Done (match pending with Some pMsg => pMsg | None => response_text (sendSqliteError SQLITE_NOMEM) end)) (holding h path_ (true, w, es)) (fun _ r => r = at_rest).
Proof using endpoint_returns.
  intros Hb Ht Hl Hw. apply prog_wp_bind. eapply prog_wp_mono; [by apply upd_wp|]. intros _ r (d & [= Eo Ew _] & ->). unfold view. cbn [set_calls bOpen bWritable h_calls]. rewrite Eo, Ew.
  apply prog_wp_bind. eapply prog_wp_mono; [apply on_store_wp, alone_strongest, endpoint_returns; done|]. intros resp r (es' & -> & Hq).
  apply prog_wp_bind. eapply prog_wp_mono; [apply pending_wp|]. intros pending r ->. apply prog_wp_bind. eapply prog_wp_mono.
  - apply (holder_wp h path_ (true, w, es') _ (fun _ r => r = holding h path_ (true, w, es'))). intros d' c Hd Hp Hm Hv Hs. rewrite Hd. exists d'. split; [done|].
    cbn [add_request heap pDbCache nDbCache open_stores requests]. split_and!; [by rewrite insert_id|done|done|intros k; case_decide; [by subst k|done]| |by rewrite Hv].
    intros Hall. constructor; [|done]. injection Hv as _ Ew' Ec. split; cbn [q_job q_path q_writable q_endpoint q_response q_calls]; [|by rewrite Ec].
    exists zMethod, zEndpoint. rewrite Hp. split_and!; [done|done|]. intros Hr. rewrite Ew'. apply Hw. by rewrite Hr.
  - intros _ r ->. apply prog_wp_bind. eapply prog_wp_mono; [apply release_handle_wp|]. by intros _ r ->.
Qed.

Lemma handle_request_wp j : bytes_wf (j_body j) -> wp (handleRequest simd_degree MAX_SIMD_DEGREE zDir j) at_rest (fun _ r => r = at_rest).
Proof using endpoint_returns.
  intros Hb. unfold handleRequest. destruct (request_target_total zDir (j_prefix j) (j_nHeader j) (zlen (j_body j)) (j_status j)) as [t Ht]. rewrite Ht. cbn [must bind].
  destruct t as [st|path_ zMethod zEndpoint]; [done|]. intros [rc found] _. cbn [bind]. destruct (negb (rc =? SQLITE_OK)); [done|]. destruct (_ && _).
  { apply prog_wp_bind. unfold handleHasChunks. destruct (negb _); [done|]. destruct (_ =? _)%nat; [done|]. by intros [] _. }
  destruct (_ && _); [done|]. apply prog_wp_bind. eapply prog_wp_mono; [apply acquire_wp|]. intros [rc' [h|]] r; cbn [snd]; [|by intros ->].
  intros (w & es & -> & Hw). eapply serve_job_wp; [done|done| |done].
  apply request_target_serve in Ht as (_ & r & name & E & _ & <- & _). apply parse_headers_length in E as [_ E]. lia.
Qed.

Lemma request_worker_wp : wp (request_worker simd_degree MAX_SIMD_DEGREE zDir) at_rest (fun _ r => r = at_rest).
Proof using endpoint_returns.
  apply (wp_iter cache_inv _ (fun _ r => r = at_rest)); [done|]. intros _ r ->. intros [j|] Hj; cbn [bind]; [|done]. apply prog_wp_bind. eapply prog_wp_mono; [by apply handle_request_wp|]. by intros _ r ->.
Qed.

(** * Runs *)
Lemma cache_run c : rtc step (cache_start simd_degree MAX_SIMD_DEGREE zDir) c -> pool_ok cache_inv (fun r => r = at_rest) c.
Proof using endpoint_returns.
  intros Hc. eapply steps_pool; [exact Hc|]. exists (replicate (Z.to_nat SERVER_WORKERS) at_rest). split; [apply start_inv|].
  cbn [cache_start snd]. apply Forall2_replicate. eapply prog_wp_mono; [apply request_worker_wp|done].
Qed.
End account.
