(* ===== verification/CacheTheorems.v ===== *)
(** The theorems about the cache of open stores of
    [remote/doltlite_remotesrv.c] and the requests that use it.  [cache_start]
    are four workers with no store open, each of which handles any number of
    any jobs; [rtc step] is any interleaving of them, with any answers of the
    stores, the file system and the allocator. *)
From stdpp Require Import gmultiset.
From S2P Require Import Prelude CInt Ge Ed25519 CString World Radix Json Creds CredsFile Bearer CredsConfig Encoding HashSet Blake3 Blake3Tree Blake3Stream Hash Http HttpSpec Threads Server Handlers HandlersSpec Cache CacheSpec CacheRun.

(** * Runs *)
Lemma run_cache_ok j max zDir c : (j <= 4)%nat -> 2 ^ Z.of_nat j <= max -> max = 1 \/ max = 4 \/ max = 16 ->
  rtc step (cache_start (2 ^ Z.of_nat j) max zDir) c -> pool_ok (cache_inv (2 ^ Z.of_nat j) max zDir) (fun r => r = at_rest) c.
Proof. intros Hj Hmax Hmx. apply cache_run. intros ep pBody Hw Hl. eapply alone_mono; [by apply endpoint_alone|done]. Qed.

Lemma run_cache_inv j max zDir c : (j <= 4)%nat -> 2 ^ Z.of_nat j <= max -> max = 1 \/ max = 4 \/ max = 16 ->
  rtc step (cache_start (2 ^ Z.of_nat j) max zDir) c -> exists r, cache_inv (2 ^ Z.of_nat j) max zDir c.1 r.
Proof. intros Hj Hmax Hmx Hc. destruct (run_cache_ok j max zDir c Hj Hmax Hmx Hc) as (rs & HJ & _). by eexists. Qed.

Lemma total_rest n : reserved (total (replicate n at_rest)) = ∅ /\ held (total (replicate n at_rest)) = ∅.
Proof.
  induction n as [|n [IH1 IH2]]; [done|]. cbn [replicate total foldr]. change (foldr r_op r_unit (replicate n at_rest)) with (total (replicate n at_rest)). share_cbn. rewrite IH1, IH2. split; [multiset_solver|].
  apply map_eq. intros k. by rewrite lookup_union_with, lookup_empty.
Qed.

Lemma rest_replicate rs : Forall (fun r => r = at_rest) rs -> rs = replicate (length rs) at_rest.
Proof. induction 1 as [|r rs -> _ IH]; [done|]. cbn [length replicate]. by f_equal. Qed.

(** * A run in which a request is served *)
Definition root_request : list Z := print_request (str "GET") (str "/db/root") [].
Definition root_job : ServerJob := Job 5 false root_request (zlen root_request) [] 0 200.
Definition no_root : list Z := replicate 20 0.
Definition root_served : served := ServedJob root_job (str "/srv/db") false GetRoot (sendOk no_root) [].

Lemma root_target : request_target (str "/srv") root_request (zlen root_request) 0 200 = Some (Serve (str "/srv/db") (str "GET") (str "root")).
Proof. vm_compute. reflexivity. Qed.

Lemma root_thread : exists s, rtc thread_step ((cache_start (2 ^ Z.of_nat 0) 1 (str "/srv")).1, request_worker (2 ^ Z.of_nat 0) 1 (str "/srv")) (s, Done tt) /\
  requests s = [root_served] /\ nDbCache s = 1.
Proof.
  eexists. split.
  - apply run_iter. apply (run_ask _ _ _ (Some root_job)); [constructor|]. cbn [bind]. unfold handleRequest. cbn [root_job j_prefix j_nHeader j_body j_status].
    change (zlen []) with 0. rewrite root_target. cbn [must bind]. apply (run_ask _ _ _ (0, true)); [done|]. apply (run_ask _ _ _ (Some 1)); [done|].
    do 2 (eapply run_act; [vm_compute; reflexivity|]). apply (run_ask _ _ _ 0); [done|]. do 5 (eapply run_act; [vm_compute; reflexivity|]).
    apply (run_ask _ _ _ 0); [done|]. do 2 (eapply run_act; [vm_compute; reflexivity|]). apply (run_ask _ _ _ None); [done|]. apply (run_ask _ _ _ 0); [done|].
    do 2 (apply (run_ask _ _ _ true); [done|]). do 2 (eapply run_act; [vm_compute; reflexivity|]). apply (run_ask _ _ _ false); [done|].
    do 2 (eapply run_act; [vm_compute; reflexivity|]). apply run_iter. apply (run_ask _ _ _ None); [done|]. apply rtc_refl.
  - split; vm_compute; reflexivity.
Qed.

Lemma no_request_thread j max zDir s : rtc thread_step (s, request_worker j max zDir) (s, Done tt).
Proof. apply run_iter. apply (run_ask _ _ _ None); [done|]. apply rtc_refl. Qed.

Lemma root_run : exists c, rtc step (cache_start (2 ^ Z.of_nat 0) 1 (str "/srv")) c /\ finished c /\ requests c.1 = [root_served] /\ nDbCache c.1 = 1.
Proof.
  destruct root_thread as (s & Hr & Hq). eexists (s, _). split; [|split; [|exact Hq]].
  - etransitivity; [eapply (thread_steps _ _ _ 0 _ (Done tt)); [reflexivity|exact Hr]|].
    etransitivity; [eapply (thread_steps _ _ _ 1 (request_worker (2 ^ Z.of_nat 0) 1 (str "/srv"))); [reflexivity|apply no_request_thread]|].
    etransitivity; [eapply (thread_steps _ _ _ 2 (request_worker (2 ^ Z.of_nat 0) 1 (str "/srv"))); [reflexivity|apply no_request_thread]|].
    eapply (thread_steps _ _ _ 3 (request_worker (2 ^ Z.of_nat 0) 1 (str "/srv"))); [reflexivity|apply no_request_thread].
  - repeat constructor.
Qed.

(** * Theorems *)
(** C9: in no interleaving of the workers is a store misused.  No handle is used
    after it was freed, no store is called that is not open, none is opened
    twice, no mutex is destroyed while it is locked, and the loops over the
    list of handles end.  There are never more than 32 handles in the cache,
    each for another database, and the stores that are open are those of the
    handles. *)
Theorem stores_never_misused j max zDir c : (j <= 4)%nat -> 2 ^ Z.of_nat j <= max -> max = 1 \/ max = 4 \/ max = 16 ->
  rtc step (cache_start (2 ^ Z.of_nat j) max zDir) c ->
  ~ goes_wrong c /\ Z.of_nat (size (heap c.1)) = nDbCache c.1 /\ nDbCache c.1 <= SERVER_DB_CACHE_MAX /\
  (forall h1 h2 d1 d2, heap c.1 !! h1 = Some d1 -> heap c.1 !! h2 = Some d2 -> zPath d1 = zPath d2 -> h1 = h2) /\
  (forall h, h ∈ open_stores c.1 <-> exists d, heap c.1 !! h = Some d /\ bOpen d = true).
Proof.
  intros Hj Hmax Hmx Hc. split; [by eapply pool_not_wrong, run_cache_ok|]. destruct (run_cache_inv j max zDir c Hj Hmax Hmx Hc) as [r [[l Hl] Hb Hp _ _ Hs _ _]].
  rewrite (list_ok_size _ _ Hl). by rewrite (lo_count _ _ Hl) in *.
Qed.

Lemma stores_never_misused_witness : exists c, rtc step (cache_start (2 ^ Z.of_nat 0) 1 (str "/srv")) c /\ requests c.1 = [root_served] /\ ~ goes_wrong c.
Proof.
  destruct root_run as (c & Hc & _ & Hq & _). exists c. split; [exact Hc|]. split; [exact Hq|].
  apply (stores_never_misused 0 1 (str "/srv") c ltac:(lia) ltac:(done) ltac:(by left) Hc).
Defined.

(** C5: requests on a database are served one after the other.  In any
    interleaving, a request that an endpoint has answered was served on the
    store of the database it names, open for writing if the endpoint writes,
    and its answer and its calls on the store are among those the endpoint has
    when it runs alone: whatever holds of every undisturbed run of the endpoint
    holds of this one. *)
Theorem requests_serialised j max zDir c q : (j <= 4)%nat -> 2 ^ Z.of_nat j <= max -> max = 1 \/ max = 4 \/ max = 16 ->
  rtc step (cache_start (2 ^ Z.of_nat j) max zDir) c -> q ∈ requests c.1 ->
  (exists zMethod zEndpoint,
     request_target zDir (j_prefix (q_job q)) (j_nHeader (q_job q)) (zlen (j_body (q_job q))) (j_status (q_job q)) = Some (Serve (q_path q) zMethod zEndpoint) /\
     q_endpoint q = dispatch zMethod zEndpoint /\ (read_only zMethod zEndpoint = false -> q_writable q = true)) /\
  (forall Q, alone (handle_endpoint (2 ^ Z.of_nat j) max (q_endpoint q) (j_body (q_job q))) [] Q -> Q (q_response q) (q_calls q)).
Proof.
  intros Hj Hmax Hmx Hc Hq. destruct (run_cache_inv j max zDir c Hj Hmax Hmx Hc) as [r HJ]. pose proof (ci_served _ _ _ _ _ HJ) as Hs. rewrite Forall_forall in Hs. exact (Hs q Hq).
Qed.

Lemma requests_serialised_witness : exists c, rtc step (cache_start (2 ^ Z.of_nat 0) 1 (str "/srv")) c /\ root_served ∈ requests c.1 /\
  forall Q, alone (handle_endpoint (2 ^ Z.of_nat 0) 1 GetRoot []) [] Q -> Q (sendOk no_root) [].
Proof.
  destruct root_run as (c & Hc & _ & Hq & _). assert (root_served ∈ requests c.1) as Hin by (rewrite Hq; apply list_elem_of_here). exists c. split; [exact Hc|]. split; [exact Hin|].
  exact (proj2 (requests_serialised 0 1 (str "/srv") c root_served ltac:(lia) ltac:(done) ltac:(by left) Hc Hin)).
Defined.

(** C27: when the workers have ended, clearing the cache closes every store and
    frees every handle. *)
Theorem cache_cleared j max zDir c : (j <= 4)%nat -> 2 ^ Z.of_nat j <= max -> max = 1 \/ max = 4 \/ max = 16 ->
  rtc step (cache_start (2 ^ Z.of_nat j) max zDir) c -> finished c ->
  exists c', remoteDbCacheClear c.1 = Some c' /\ heap c' = ∅ /\ open_stores c' = ∅ /\ pDbCache c' = None /\ nDbCache c' = 0.
Proof.
  intros Hj Hmax Hmx Hc Hf. destruct (pool_finished _ _ _ (run_cache_ok j max zDir c Hj Hmax Hmx Hc) Hf) as (rs & HJ & _ & Hrs). rewrite (rest_replicate rs Hrs) in HJ.
  destruct (total_rest (length rs)) as [_ Eh]. destruct (ci_list _ _ _ _ _ HJ) as [l Hl]. apply (clear_spec c.1 l Hl (ci_stores _ _ _ _ _ HJ)).
  intros h d Hd. pose proof (ho_held _ _ _ (ci_handles _ _ _ _ _ HJ h d Hd)) as H. rewrite Eh, lookup_empty in H. by destruct (mu d).
Qed.

Lemma cache_cleared_witness : exists c c', rtc step (cache_start (2 ^ Z.of_nat 0) 1 (str "/srv")) c /\ nDbCache c.1 = 1 /\ remoteDbCacheClear c.1 = Some c' /\ heap c' = ∅.
Proof.
  destruct root_run as (c & Hc & Hf & _ & Hn). destruct (cache_cleared 0 1 (str "/srv") c ltac:(lia) ltac:(done) ltac:(by left) Hc Hf) as (c' & E & Hh & _).
  exists c, c'. by split_and!.
Defined.

(** C26: [remoteDbCacheEvictOne] evicts the least recently used handle that no
    one uses.  It changes nothing when every handle is reserved or locked; else
    it unlinks, closes and frees one with the smallest time of those that are
    not, and leaves the order and the contents of the others. *)
Theorem evicts_least_recent c l : list_ok c l -> stores_ok c ->
  (forall h d, heap c !! h = Some d -> ~ unused d) /\ remoteDbCacheEvictOne c = Some c \/
  exists c' b d l1 l2, remoteDbCacheEvictOne c = Some c' /\ l = l1 ++ b :: l2 /\ list_ok c' (l1 ++ l2) /\
    heap c !! b = Some d /\ unused d /\ (forall h d', heap c !! h = Some d' -> unused d' -> lastUseMs d <= lastUseMs d') /\
    open_stores c' = open_stores c ∖ {[b]} /\
    (forall h d', heap c' !! h = Some d' -> exists d0, heap c !! h = Some d0 /\ d' = set_next (pNext d') d0).
Proof.
  intros Hl Hs. destruct (evict_one_spec c l Hl Hs) as [?|(b & prev & d & Hb & Hd & E)]; [by left|]. right.
  destruct (evicted_list c l b prev d Hl Hb Hd) as (l1 & l2 & El & Hl'). exists (evicted c b prev d), b, d, l1, l2.
  destruct Hb as (_ & _ & d' & _ & _ & Hd' & Hu & _ & Hm). rewrite Hd in Hd'. injection Hd' as <-. split_and!; [done..| |done|].
  - intros h d' Hd' Hu'. apply (Hm h); [|done|done]. by apply (lo_heap _ _ Hl).
  - intros h d' (_ & d0 & Hd0 & E')%evicted_lookup. exists d0. split; [done|]. destruct E' as [->|[p ->]]; [by destruct d0|done].
Qed.

Definition two_handles : cache :=
  Cache (<[1 := DbHandle (str "a") true true 0 7 false (Some 2) []]> (<[2 := DbHandle (str "b") false false 0 3 false None []]> ∅)) (Some 1) 2 {[1]} [].

Lemma evicts_least_recent_witness : list_ok two_handles [1; 2] /\ stores_ok two_handles /\
  exists c' b d l1 l2, remoteDbCacheEvictOne two_handles = Some c' /\ [1; 2] = l1 ++ b :: l2 /\ list_ok c' (l1 ++ l2) /\ heap two_handles !! b = Some d /\ unused d.
Proof.
  assert (list_ok two_handles [1; 2]) as Hl.
  { split; [split; [done|]; eexists; split; [reflexivity|]; split; [done|]; eexists; split; [reflexivity|done]|by apply (bool_decide_unpack _)| |done].
    intros h. cbn [two_handles heap]. rewrite !elem_of_cons, elem_of_nil. destruct (decide (h = 1)) as [->|H1]; [rewrite lookup_insert_eq; naive_solver|]. rewrite lookup_insert_ne by done.
    destruct (decide (h = 2)) as [->|H2]; [rewrite lookup_insert_eq; naive_solver|]. rewrite lookup_insert_ne, lookup_empty by done. split; [naive_solver|by intros []]. }
  assert (stores_ok two_handles) as Hs.
  { intros h. cbn [two_handles heap open_stores]. rewrite elem_of_singleton. destruct (decide (h = 1)) as [->|H1]; [rewrite lookup_insert_eq; naive_solver|]. rewrite lookup_insert_ne by done.
    destruct (decide (h = 2)) as [->|H2]; [rewrite lookup_insert_eq; naive_solver|]. rewrite lookup_insert_ne, lookup_empty by done. naive_solver. }
  split; [exact Hl|]. split; [exact Hs|]. destruct (evicts_least_recent two_handles [1; 2] Hl Hs) as [[Hno _]|(c' & b & d & l1 & l2 & ? & ? & ? & ? & ? & _)]; [|by exists c', b, d, l1, l2].
  exfalso. by apply (Hno 1 _ eq_refl).
Defined.
