(* ===== verification/Node.v ===== *)
(** prolly_node.h and prolly_node.c, the reading half: the parser of a node
    chunk, the accessors and the two binary searches.  A node is untrusted
    input: the first group of theorems shows that parsing any byte string is
    free of undefined behaviour and that an accepted chunk is exactly the
    encoding of a list of items, so that every accessor is total on it. *)
From S2P Require Import Prelude Encoding HashSet.

Definition PROLLY_NODE_MAGIC : Z := 0x504E4F44.
Definition PROLLY_NODE_PREFIX_ELIDE : Z := 0x80.
Definition PROLLY_NODE_MAX_ITEMS : Z := 4096.
Definition PROLLY_NODE_BUFFER_SLOP : Z := 8.
Definition PROLLY_HDR_SIZE : Z := 8.
Definition PROLLY_MAGIC_OFF : Z := 0.
Definition PROLLY_LEVEL_OFF : Z := 4.
Definition PROLLY_COUNT_OFF : Z := 5.
Definition PROLLY_FLAGS_OFF : Z := 7.

(** Pointer fields are suffixes of the node's buffer; a null pointer is [[]],
    reading through it is undefined. *)
Record ProllyNode := Node {
  pData : list Z; nData : Z; nDataPhys : Z; nValuePrefix : Z;
  level : Z; nItems : Z; flags : Z;
  aKeyOff : list Z; aValOff : list Z; pKeyData : list Z; pValData : list Z;
  pSubtreeCounts : list Z }.

(** [PROLLY_GET_U32((const u8 * )&a[i])] *)
Definition off_at (a : list Z) (i : Z) : option Z := PROLLY_GET_U32 (a +p 4 * i).

(** * prollyNodeParseSparse *)

(** The body of the closing [for(i=0; i<=count; i++)] loop. *)
Definition parse_check_item (nd : ProllyNode) (totalKeyBytes totalValBytes i : Z) : C unit :=
  let! keyOff := read (off_at (aKeyOff nd) i) in
  let! valOff := read (off_at (aValOff nd) i) in
  if (totalKeyBytes <? keyOff) || (totalValBytes <? valOff) then err SQLITE_CORRUPT
  else if (i =? 0) && (negb (keyOff =? 0) || negb (valOff =? 0)) then err SQLITE_CORRUPT
  else if 0 <? i then
    let! prevKeyOff := read (off_at (aKeyOff nd) (i - 1)) in
    let! prevValOff := read (off_at (aValOff nd) (i - 1)) in
    if (keyOff <? prevKeyOff) || (valOff <? prevValOff) then err SQLITE_CORRUPT
    else if has_flag (flags nd) PROLLY_NODE_INTKEY && negb (u32 (keyOff - prevKeyOff) =? 8)
    then err SQLITE_CORRUPT
    else if (0 <? level nd) && negb (u32 (valOff - prevValOff) =? PROLLY_HASH_SIZE)
    then err SQLITE_CORRUPT
    else ret tt
  else ret tt.

Fixpoint parse_check (fuel : nat) (nd : ProllyNode) (totalKeyBytes totalValBytes i : Z) : C unit :=
  match fuel with
  | O => ret tt
  | S fuel =>
      let! _ := parse_check_item nd totalKeyBytes totalValBytes i in
      parse_check fuel nd totalKeyBytes totalValBytes (i + 1)
  end.

Definition prollyNodeParseSparse (pData : list Z) (nData nDataPhys : Z) : C ProllyNode :=
  if (nData <? PROLLY_HDR_SIZE) || (nDataPhys <? PROLLY_HDR_SIZE) || (nData <? nDataPhys)
  then err SQLITE_CORRUPT
  else
  let! magic := read (PROLLY_GET_U32 (pData +p PROLLY_MAGIC_OFF)) in
  if negb (magic =? PROLLY_NODE_MAGIC) then err SQLITE_CORRUPT
  else
  let! lvl := read (pData !! Z.to_nat PROLLY_LEVEL_OFF) in
  let! count := read (PROLLY_GET_U16 (pData +p PROLLY_COUNT_OFF)) in
  if PROLLY_NODE_MAX_ITEMS <? count then err SQLITE_CORRUPT
  else
  let! flg := read (pData !! Z.to_nat PROLLY_FLAGS_OFF) in
  let keyFlag := Z.land flg (Z.lor PROLLY_NODE_INTKEY PROLLY_NODE_BLOBKEY) in
  if negb (keyFlag =? PROLLY_NODE_INTKEY) && negb (keyFlag =? PROLLY_NODE_BLOBKEY)
  then err SQLITE_CORRUPT
  else
  let hasCounts := has_flag flg PROLLY_NODE_SUBTREE_COUNTS in
  if hasCounts && (lvl =? 0) then err SQLITE_CORRUPT
  else if count =? 0 then
    if 0 <? lvl then err SQLITE_CORRUPT
    else ret (Node pData nData nDataPhys 0 lvl count flg [] []
                   (pData +p PROLLY_HDR_SIZE) (pData +p PROLLY_HDR_SIZE) [])
  else
  let nOffsets := (count + 1) * 4 * 2 in
  let minSize := PROLLY_HDR_SIZE + nOffsets in
  if nDataPhys <? minSize then err SQLITE_CORRUPT
  else
  let aKey := pData +p PROLLY_HDR_SIZE in
  let aVal := aKey +p ((count + 1) * 4) in
  let pCur := aVal +p ((count + 1) * 4) in
  let! totalKeyBytes := read (off_at aKey count) in
  let! totalValBytes := read (off_at aVal count) in
  if (nData <? totalKeyBytes) || (nData <? totalValBytes) then err SQLITE_CORRUPT
  else
  let expectedSize :=
    minSize + totalKeyBytes + totalValBytes + (if hasCounts then count * 8 else 0) in
  if negb (expectedSize =? nData) then err SQLITE_CORRUPT
  else if (if nDataPhys <? nData
           then negb (lvl =? 0) || hasCounts || (nDataPhys <? minSize + totalKeyBytes)
           else negb (nDataPhys =? nData)) then err SQLITE_CORRUPT
  else
  let nd := Node pData nData nDataPhys 0 lvl count flg aKey aVal pCur (pCur +p totalKeyBytes)
              (if hasCounts then pCur +p (totalKeyBytes + totalValBytes) else []) in
  let! _ := parse_check (Z.to_nat (count + 1)) nd totalKeyBytes totalValBytes 0 in
  ret nd.

Definition prollyNodeParse (pData : list Z) (nData : Z) : C ProllyNode :=
  prollyNodeParseSparse pData nData nData.

(** * Accessors

    A returned pointer with its length is the pair; [assert]ions are part of
    the definedness. *)

Definition item_ok (nd : ProllyNode) (i : Z) : bool := (0 <=? i) && (i <? nItems nd).

Definition prollyNodeKey (nd : ProllyNode) (i : Z) : option (list Z * Z) :=
  if negb (item_ok nd i) then None else
  let? off0 := off_at (aKeyOff nd) i in
  let? off1 := off_at (aKeyOff nd) (i + 1) in
  Some (pKeyData nd +p off0, i32 (u32 (off1 - off0))).

Definition prollyNodePrefixStride (nd : ProllyNode) : Z :=
  nValuePrefix nd +
  (if has_flag (flags nd) PROLLY_NODE_PREFIX_ELIDE then 0 else PROLLY_NODE_BUFFER_SLOP).

(** Pointer, logical length, bytes available at the pointer. *)
Definition prollyNodeValueSpanInline (nd : ProllyNode) (i : Z) : option (list Z * Z * Z) :=
  if negb (item_ok nd i) then None else
  let? off0 := off_at (aValOff nd) i in
  let? off1 := off_at (aValOff nd) (i + 1) in
  let nVal := i32 (u32 (off1 - off0)) in
  if negb (nValuePrefix nd =? 0) then
    Some (pValData nd +p (i * prollyNodePrefixStride nd), nVal, Z.min nVal (nValuePrefix nd))
  else
    let nValPhys := nDataPhys nd - (zlen (pData nd) - zlen (pValData nd)) in
    let nValPhys := if nValPhys <? 0 then 0 else nValPhys in
    if i32 off0 <? nValPhys then
      let nAvail := nValPhys - i32 off0 in
      Some (pValData nd +p off0, nVal, if nVal <? nAvail then nVal else nAvail)
    else Some (pValData nd +p nValPhys, nVal, 0).

Definition prollyNodeValueSpan := prollyNodeValueSpanInline.

Definition prollyNodeValue (nd : ProllyNode) (i : Z) : option (list Z * Z) :=
  if negb (nValuePrefix nd =? 0) then None else
  let? (p, n, _) := prollyNodeValueSpan nd i in
  Some (p, n).

Definition prollyNodeIntKey (nd : ProllyNode) (i : Z) : option Z :=
  if negb (item_ok nd i) || negb (has_flag (flags nd) PROLLY_NODE_INTKEY) then None else
  prollyDecodeIntKey (pKeyData nd +p (i * 8)).

Definition prollyNodeChildHash (nd : ProllyNode) (i : Z) : option (list Z) :=
  if negb (item_ok nd i) then None else
  let? off := off_at (aValOff nd) i in
  bytes_at (pValData nd +p off) PROLLY_HASH_SIZE.

Definition prollyNodeHasSubtreeCounts (nd : ProllyNode) : bool :=
  has_flag (flags nd) PROLLY_NODE_SUBTREE_COUNTS.

Definition prollyNodeChildSubtreeCount (nd : ProllyNode) (i : Z) : option Z :=
  if negb (item_ok nd i) then None else get_u64_le (pSubtreeCounts nd +p (i * 8)).

(** * Searches: the index and [*pRes] *)

Fixpoint searchBlob_loop (fuel : nat) (nd : ProllyNode) (pKey : list Z) (nKey lo hi : Z)
    : option (Z * Z) :=
  match fuel with
  | O => None
  | S fuel =>
      if lo <=? hi then
        let mid := lo + (hi - lo) / 2 in
        let? (pMidKey, nMidKey) := prollyNodeKey nd mid in
        let nCmp := if nMidKey <? nKey then nMidKey else nKey in
        let? c := prollyKeyComparePrefix pKey pMidKey nCmp in
        let? c := (if c =? 0 then int (nKey - nMidKey) else Some c) in
        if c =? 0 then Some (mid, 0)
        else if c <? 0 then searchBlob_loop fuel nd pKey nKey lo (mid - 1)
        else searchBlob_loop fuel nd pKey nKey (mid + 1) hi
      else if nItems nd <=? lo then Some (nItems nd - 1, 1)
      else Some (lo, -1)
  end.

Definition prollyNodeSearchBlob (nd : ProllyNode) (pKey : list Z) (nKey : Z) : option (Z * Z) :=
  if nItems nd =? 0 then Some (0, -1)
  else searchBlob_loop (S (Z.to_nat (nItems nd))) nd pKey nKey 0 (nItems nd - 1).

Fixpoint searchInt_loop (fuel : nat) (nd : ProllyNode) (key lo hi : Z) : option Z :=
  match fuel with
  | O => None
  | S fuel =>
      if lo <? hi then
        let mid := lo + (hi - lo) / 2 in
        let? midKey := prollyReadEncodedIntKey (pKeyData nd +p (mid * 8)) in
        if midKey <? key then searchInt_loop fuel nd key (mid + 1) hi
        else searchInt_loop fuel nd key lo mid
      else Some lo
  end.

Definition prollyNodeSearchInt (nd : ProllyNode) (intKey : Z) : option (Z * Z) :=
  let key := Z.lxor (u64 intKey) (Z.shiftl 1 63) in
  if nItems nd =? 0 then Some (0, -1)
  else
    let? lo := searchInt_loop (S (Z.to_nat (nItems nd))) nd key 0 (nItems nd) in
    if nItems nd <=? lo then Some (nItems nd - 1, 1)
    else
      let? midKey := prollyReadEncodedIntKey (pKeyData nd +p (lo * 8)) in
      Some (lo, if key =? midKey then 0 else -1).

(** * The encoding of a list of items *)

Record item := Item { ikey : list Z; ival : list Z; icount : Z }.

Definition enc_offs (l : list Z) : list Z := mjoin (PROLLY_PUT_U32 <$> l).
Definition enc_counts (l : list Z) : list Z := mjoin (put_u64_le <$> l).

Definition node_header (lvl count flg : Z) : list Z :=
  PROLLY_PUT_U32 PROLLY_NODE_MAGIC ++ [lvl] ++ PROLLY_PUT_U16 count ++ [flg].

Definition key_offs (its : list item) : list Z := offsets_from 0 (ikey <$> its).
Definition val_offs (its : list item) : list Z := offsets_from 0 (ival <$> its).
Definition keys_of (its : list item) : list Z := mjoin (ikey <$> its).
Definition vals_of (its : list item) : list Z := mjoin (ival <$> its).
Definition counts_of (flg : Z) (its : list item) : list Z :=
  if has_flag flg PROLLY_NODE_SUBTREE_COUNTS then enc_counts (icount <$> its) else [].

Definition encode_node (lvl flg : Z) (its : list item) : list Z :=
  node_header lvl (zlen its) flg ++ enc_offs (key_offs its) ++ enc_offs (val_offs its) ++
  keys_of its ++ vals_of its ++ counts_of flg its.

(** The key kind bits name exactly one kind. *)
Definition key_kind_ok (flg : Z) : bool :=
  let keyFlag := Z.land flg (Z.lor PROLLY_NODE_INTKEY PROLLY_NODE_BLOBKEY) in
  (keyFlag =? PROLLY_NODE_INTKEY) || (keyFlag =? PROLLY_NODE_BLOBKEY).

Definition item_wf (lvl flg : Z) (it : item) : Prop :=
  bytes_wf (ikey it) /\ bytes_wf (ival it) /\ is_u64 (icount it) /\
  (has_flag flg PROLLY_NODE_INTKEY = true -> zlen (ikey it) = 8) /\
  (0 < lvl -> zlen (ival it) = PROLLY_HASH_SIZE).

Record node_wf (lvl flg : Z) (its : list item) : Prop := {
  wf_level : is_byte lvl;
  wf_flags : is_byte flg;
  wf_kind : key_kind_ok flg = true;
  wf_counts : has_flag flg PROLLY_NODE_SUBTREE_COUNTS = true -> 0 < lvl;
  wf_nonempty : its <> [];
  wf_max : zlen its <= PROLLY_NODE_MAX_ITEMS;
  wf_items : Forall (item_wf lvl flg) its;
  wf_size : zlen (encode_node lvl flg its) <= INT_MAX }.

(** The node that stores [its], its value region cut to [vphys] followed by
    [zeros] bytes that are not stored. *)
Definition node_of (lvl flg : Z) (its : list item) (vphys : list Z) (zeros : nat) : ProllyNode :=
  let pk := keys_of its ++ vphys in
  let av := enc_offs (val_offs its) ++ pk in
  let ak := enc_offs (key_offs its) ++ av in
  let p := node_header lvl (zlen its) flg ++ ak in
  Node p (zlen p + Z.of_nat zeros) (zlen p) 0 lvl (zlen its) flg ak av pk vphys
    (if has_flag flg PROLLY_NODE_SUBTREE_COUNTS then vphys +p zlen (vals_of its) else []).

Record node_repr (nd : ProllyNode) (its : list item) (zeros : nat) : Prop := {
  repr_wf : node_wf (level nd) (flags nd) its;
  repr_nd : nd = node_of (level nd) (flags nd) its (pValData nd) zeros;
  repr_vals : pValData nd ++ replicate zeros 0 = vals_of its ++ counts_of (flags nd) its;
  repr_sparse : (0 < zeros)%nat -> level nd = 0 }.

Lemma length_enc_offs l : length (enc_offs l) = (4 * length l)%nat.
Proof. by apply length_mjoin_fixed. Qed.

Lemma length_enc_counts l : length (enc_counts l) = (8 * length l)%nat.
Proof. by apply length_mjoin_fixed. Qed.

Lemma length_node_header lvl n flg : length (node_header lvl n flg) = 8%nat.
Proof. reflexivity. Qed.

Lemma ptr_add_enc_offs l r i :
  0 <= i <= zlen l -> (enc_offs l ++ r) +p 4 * i = enc_offs (drop (Z.to_nat i) l) ++ r.
Proof. intros. by apply (ptr_add_fixed PROLLY_PUT_U32 4). Qed.

Lemma off_at_enc l r i o :
  0 <= i -> is_u32 o -> l !! Z.to_nat i = Some o -> off_at (enc_offs l ++ r) i = Some o.
Proof.
  intros Hi Ho Hl. pose proof (lookup_lt_Some _ _ _ Hl).
  unfold off_at. rewrite ptr_add_enc_offs by lia. rewrite (drop_S _ _ _ Hl).
  transitivity (PROLLY_GET_U32 (PROLLY_PUT_U32 o ++ enc_offs (drop (S (Z.to_nat i)) l) ++ r)).
  { by rewrite app_assoc. }
  by apply PROLLY_GET_PUT_U32.
Qed.

Lemma counts_length flg its :
  zlen (counts_of flg its) =
    if has_flag flg PROLLY_NODE_SUBTREE_COUNTS then 8 * zlen its else 0.
Proof.
  unfold counts_of. destruct (has_flag _ _); [|done].
  rewrite length_enc_counts, length_fmap. lia.
Qed.

Lemma encode_node_length lvl flg its :
  zlen (encode_node lvl flg its) =
    8 + 8 * (zlen its + 1) + zlen (keys_of its) + zlen (vals_of its) + zlen (counts_of flg its).
Proof.
  unfold encode_node. rewrite !length_app, length_node_header, !length_enc_offs.
  unfold key_offs, val_offs. rewrite !length_offsets_from, !length_fmap. lia.
Qed.

Lemma keys_of_wf lvl flg its : Forall (item_wf lvl flg) its -> bytes_wf (keys_of its).
Proof.
  intros H. apply bytes_wf_mjoin, Forall_fmap. eapply Forall_impl; [done|]. by intros x (W & _).
Qed.

Lemma vals_of_wf lvl flg its : Forall (item_wf lvl flg) its -> bytes_wf (vals_of its).
Proof.
  intros H. apply bytes_wf_mjoin, Forall_fmap. eapply Forall_impl; [done|]. by intros x (_ & W & _).
Qed.

Lemma counts_of_wf flg its : bytes_wf (counts_of flg its).
Proof.
  unfold counts_of. destruct (has_flag _ _); [|apply Forall_nil_2].
  apply bytes_wf_mjoin, Forall_fmap, Forall_true. intros x.
  change (bytes_wf (put_u64_le x)). rewrite put_u64_le_le. apply le_encode_wf.
Qed.

(** The offsets of a well-formed node fit the 32-bit table. *)
Section offsets.
Context (lvl flg : Z) (its : list item) (Hwf : node_wf lvl flg its).

Lemma sizes_bound : 0 <= zlen (keys_of its) <= INT_MAX /\ 0 <= zlen (vals_of its) <= INT_MAX /\
  zlen (keys_of its) + zlen (vals_of its) <= INT_MAX.
Proof.
  pose proof (wf_size _ _ _ Hwf) as H. rewrite encode_node_length in H. lia.
Qed.

Lemma key_off_lookup i :
  (i <= length its)%nat -> key_offs its !! i = Some (zlen (keys_of (take i its))).
Proof.
  intros Hi. unfold key_offs, keys_of. rewrite offsets_from_lookup by (rewrite length_fmap; lia).
  by rewrite fmap_take, Z.add_0_l.
Qed.

Lemma val_off_lookup i :
  (i <= length its)%nat -> val_offs its !! i = Some (zlen (vals_of (take i its))).
Proof.
  intros Hi. unfold val_offs, vals_of. rewrite offsets_from_lookup by (rewrite length_fmap; lia).
  by rewrite fmap_take, Z.add_0_l.
Qed.

Lemma keys_take_le i : zlen (keys_of (take i its)) <= zlen (keys_of its).
Proof. unfold keys_of. rewrite fmap_take. apply length_mjoin_take_le. Qed.

Lemma vals_take_le i : zlen (vals_of (take i its)) <= zlen (vals_of its).
Proof. unfold vals_of. rewrite fmap_take. apply length_mjoin_take_le. Qed.

Lemma key_off_at r i :
  0 <= i <= zlen its ->
  off_at (enc_offs (key_offs its) ++ r) i = Some (zlen (keys_of (take (Z.to_nat i) its))).
Proof.
  intros Hi. apply off_at_enc; [lia| |apply key_off_lookup; lia].
  pose proof sizes_bound. pose proof (keys_take_le (Z.to_nat i)). unfold is_u32, INT_MAX in *. lia.
Qed.

Lemma val_off_at r i :
  0 <= i <= zlen its ->
  off_at (enc_offs (val_offs its) ++ r) i = Some (zlen (vals_of (take (Z.to_nat i) its))).
Proof.
  intros Hi. apply off_at_enc; [lia| |apply val_off_lookup; lia].
  pose proof sizes_bound. pose proof (vals_take_le (Z.to_nat i)). unfold is_u32, INT_MAX in *. lia.
Qed.

Lemma keys_take_S i it :
  its !! i = Some it -> zlen (keys_of (take (S i) its)) = zlen (keys_of (take i its)) + zlen (ikey it).
Proof.
  intros H. unfold keys_of. rewrite !fmap_take.
  rewrite (mjoin_take_S _ _ (ikey it)) by (by rewrite list_lookup_fmap, H).
  rewrite length_app. lia.
Qed.

Lemma vals_take_S i it :
  its !! i = Some it -> zlen (vals_of (take (S i) its)) = zlen (vals_of (take i its)) + zlen (ival it).
Proof.
  intros H. unfold vals_of. rewrite !fmap_take.
  rewrite (mjoin_take_S _ _ (ival it)) by (by rewrite list_lookup_fmap, H).
  rewrite length_app. lia.
Qed.

Lemma keys_ptr i it r :
  its !! i = Some it ->
  (keys_of its ++ r) +p zlen (keys_of (take i its)) = ikey it ++ keys_of (drop (S i) its) ++ r.
Proof.
  intros H. unfold keys_of. rewrite fmap_take, ptr_add_mjoin.
  rewrite (mjoin_lookup_drop _ _ (ikey it)) by (by rewrite list_lookup_fmap, H).
  by rewrite <- app_assoc, fmap_drop.
Qed.

Lemma vals_ptr i it r :
  its !! i = Some it ->
  (vals_of its ++ r) +p zlen (vals_of (take i its)) = ival it ++ vals_of (drop (S i) its) ++ r.
Proof.
  intros H. unfold vals_of. rewrite fmap_take, ptr_add_mjoin.
  rewrite (mjoin_lookup_drop _ _ (ival it)) by (by rewrite list_lookup_fmap, H).
  by rewrite <- app_assoc, fmap_drop.
Qed.
End offsets.

(** * Accessors on the node of a list of items *)
Section accessors.
Context (nd : ProllyNode) (its : list item) (zeros : nat) (Hnd : node_repr nd its zeros).

Let Hwf : node_wf (level nd) (flags nd) its := repr_wf _ _ _ Hnd.

Lemma nd_nItems : nItems nd = zlen its.
Proof. by rewrite (repr_nd _ _ _ Hnd). Qed.

Lemma nd_nValuePrefix : nValuePrefix nd = 0.
Proof. by rewrite (repr_nd _ _ _ Hnd). Qed.

Lemma nd_aKeyOff : exists r, aKeyOff nd = enc_offs (key_offs its) ++ r.
Proof. rewrite (repr_nd _ _ _ Hnd). eexists. reflexivity. Qed.

Lemma nd_aValOff : exists r, aValOff nd = enc_offs (val_offs its) ++ r.
Proof. rewrite (repr_nd _ _ _ Hnd). eexists. reflexivity. Qed.

Lemma nd_pKeyData : pKeyData nd = keys_of its ++ pValData nd.
Proof. by rewrite (repr_nd _ _ _ Hnd) at 1. Qed.

Lemma nd_phys : nDataPhys nd - (zlen (pData nd) - zlen (pValData nd)) = zlen (pValData nd).
Proof.
  pose proof (f_equal nDataPhys (repr_nd _ _ _ Hnd)) as E1.
  pose proof (f_equal pData (repr_nd _ _ _ Hnd)) as E2.
  cbn [nDataPhys pData node_of] in E1, E2. rewrite E1, E2, !length_app. lia.
Qed.

Lemma item_ok_spec i : item_ok nd i = true <-> 0 <= i < zlen its.
Proof. unfold item_ok. rewrite nd_nItems. cases_bool; simpl; lia || done. Qed.

Lemma item_ok_lookup i it : 0 <= i -> its !! Z.to_nat i = Some it -> item_ok nd i = true.
Proof. intros. apply item_ok_spec. pose proof (lookup_lt_Some _ _ _ H0). lia. Qed.

Lemma nd_item_wf i it : its !! i = Some it -> item_wf (level nd) (flags nd) it.
Proof. intros. by eapply (Forall_lookup_1 _ _ _ _ (wf_items _ _ _ Hwf)). Qed.

Lemma item_sizes i it :
  its !! i = Some it -> 0 <= zlen (ikey it) <= INT_MAX /\ 0 <= zlen (ival it) <= INT_MAX.
Proof.
  intros Hl. pose proof (sizes_bound _ _ _ Hwf).
  pose proof (keys_take_le its (S i)). pose proof (vals_take_le its (S i)).
  rewrite (keys_take_S _ _ _ Hl) in *. rewrite (vals_take_S _ _ _ Hl) in *. lia.
Qed.

Lemma nd_pValData_wf : bytes_wf (pValData nd).
Proof.
  assert (H : bytes_wf (pValData nd ++ replicate zeros 0)).
  { rewrite (repr_vals _ _ _ Hnd). apply bytes_wf_app. split; [|apply counts_of_wf].
    eapply vals_of_wf, (wf_items _ _ _ Hwf). }
  by apply bytes_wf_app in H as [? _].
Qed.

Lemma val_off_int i : 0 <= zlen (vals_of (take i its)) <= INT_MAX.
Proof. pose proof (sizes_bound _ _ _ Hwf). pose proof (vals_take_le its i). lia. Qed.

Lemma node_key i it :
  0 <= i -> its !! Z.to_nat i = Some it ->
  prollyNodeKey nd i =
    Some (ikey it ++ keys_of (drop (S (Z.to_nat i)) its) ++ pValData nd, zlen (ikey it)).
Proof.
  intros Hi Hl. pose proof (lookup_lt_Some _ _ _ Hl). destruct nd_aKeyOff as [r Hr].
  unfold prollyNodeKey. rewrite (item_ok_lookup i it) by done. simpl. rewrite Hr.
  rewrite !(key_off_at _ _ _ Hwf) by lia. rewrite nd_pKeyData, (keys_ptr _ _ it) by done.
  replace (Z.to_nat (i + 1)) with (S (Z.to_nat i)) by lia.
  rewrite (keys_take_S _ _ it) by done. do 2 f_equal.
  replace (_ + _ - _) with (zlen (ikey it)) by lia.
  apply i32_u32_small. by eapply item_sizes.
Qed.

Lemma vphys_split i it :
  its !! i = Some it ->
  (pValData nd ++ replicate zeros 0) +p zlen (vals_of (take i its)) =
    ival it ++ vals_of (drop (S i) its) ++ counts_of (flags nd) its.
Proof. intros Hl. rewrite (repr_vals _ _ _ Hnd). by apply vals_ptr. Qed.

(** The span: the available bytes are a prefix of the value, and the rest of
    the value is zero. *)
Lemma node_value_span i it :
  0 <= i -> its !! Z.to_nat i = Some it ->
  exists p avail, prollyNodeValueSpan nd i = Some (p, zlen (ival it), avail) /\
    0 <= avail <= zlen p /\ avail <= zlen (ival it) /\
    ival it = take (Z.to_nat avail) p ++ replicate (Z.to_nat (zlen (ival it) - avail)) 0.
Proof.
  intros Hi Hl. pose proof (lookup_lt_Some _ _ _ Hl) as Hlt. destruct nd_aValOff as [r Hr].
  unfold prollyNodeValueSpan, prollyNodeValueSpanInline.
  rewrite (item_ok_lookup i it) by done. simpl. rewrite Hr.
  rewrite !(val_off_at _ _ _ Hwf) by lia. rewrite nd_nValuePrefix, nd_phys. simpl.
  replace (Z.to_nat (i + 1)) with (S (Z.to_nat i)) by lia.
  rewrite (vals_take_S _ _ it) by done.
  replace (_ + _ - _) with (zlen (ival it)) by lia.
  rewrite i32_u32_small by (by eapply item_sizes).
  rewrite i32_small by apply val_off_int.
  pose proof (vphys_split _ _ Hl) as Hv. set (o := zlen (vals_of (take (Z.to_nat i) its))) in *.
  replace (zlen (pValData nd) <? 0) with false by (symmetry; apply Z.ltb_ge; lia).
  set (P := pValData nd) in *.
  assert (Hz : zlen (ival it) <= zlen ((P ++ replicate zeros 0) +p o)).
  { rewrite Hv, length_app. lia. }
  assert (Ht : ival it = take (length (ival it)) ((P ++ replicate zeros 0) +p o)).
  { by rewrite Hv, take_app_length. }
  rewrite length_ptr_add, length_app, length_replicate in Hz by lia.
  destruct (Z.ltb_spec o (zlen P)) as [Ho|Ho].
  - eexists (P +p o), _. split; [reflexivity|].
    rewrite ptr_add_app_le in Ht by lia.
    rewrite length_ptr_add by lia. destruct (Z.ltb_spec (zlen (ival it)) (zlen P - o)).
    + split; [lia|]. split; [lia|].
      rewrite Z.sub_diag, app_nil_r, Nat2Z.id. rewrite Ht at 1. apply take_app_le.
      pose proof (length_ptr_add P o). lia.
    + split; [lia|]. split; [lia|]. rewrite Ht at 1.
      pose proof (length_ptr_add P o). rewrite take_app_ge by lia.
      rewrite take_replicate. rewrite (take_ge (P +p o)) by lia. do 2 f_equal. lia.
  - eexists _, 0. split; [reflexivity|]. split; [lia|]. split; [lia|].
    rewrite Ht at 1. unfold ptr_add. rewrite drop_app_ge by lia.
    rewrite drop_replicate, take_replicate. simpl. f_equal. lia.
Qed.

Lemma node_value i it :
  zeros = 0%nat -> 0 <= i -> its !! Z.to_nat i = Some it ->
  exists r, prollyNodeValue nd i = Some (ival it ++ r, zlen (ival it)).
Proof.
  intros Hz Hi Hl. pose proof (lookup_lt_Some _ _ _ Hl) as Hlt. destruct nd_aValOff as [r Hr].
  unfold prollyNodeValue, prollyNodeValueSpan, prollyNodeValueSpanInline.
  rewrite nd_nValuePrefix. simpl. rewrite (item_ok_lookup i it) by done. simpl. rewrite Hr.
  rewrite !(val_off_at _ _ _ Hwf) by lia. rewrite nd_phys.
  replace (Z.to_nat (i + 1)) with (S (Z.to_nat i)) by lia.
  rewrite (vals_take_S _ _ it) by done.
  replace (_ + _ - _) with (zlen (ival it)) by lia.
  rewrite i32_u32_small by (by eapply item_sizes).
  rewrite i32_small by apply val_off_int.
  pose proof (vphys_split _ _ Hl) as Hv. rewrite Hz, app_nil_r in Hv.
  replace (zlen (pValData nd) <? 0) with false by (symmetry; apply Z.ltb_ge; lia).
  destruct (Z.ltb_spec (zlen (vals_of (take (Z.to_nat i) its))) (zlen (pValData nd))) as [H|H].
  - rewrite Hv. eauto.
  - assert (pValData nd +p zlen (vals_of (take (Z.to_nat i) its)) = []) as E.
    { unfold ptr_add. apply drop_ge. lia. }
    rewrite E in Hv. symmetry in Hv. apply app_nil in Hv as [-> _]. eauto.
Qed.
End accessors.

Definition keys_sorted (its : list item) : Prop := StronglySorted key_lt (ikey <$> its).

(** What a search for [k] promises: the index and the result code. *)
Definition search_spec (its : list item) (k : list Z) (idx res : Z) : Prop :=
  0 <= idx < zlen its /\
  match res with
  | 0 => exists it, its !! Z.to_nat idx = Some it /\ ikey it = k
  | 1 => idx = zlen its - 1 /\ Forall (fun it => key_lt (ikey it) k) its
  | -1 => Forall (fun it => key_lt (ikey it) k) (take (Z.to_nat idx) its) /\
          Forall (fun it => key_lt k (ikey it)) (drop (Z.to_nat idx) its)
  | _ => False
  end.

Lemma search_cases its k idx res :
  search_spec its k idx res ->
  0 <= idx < zlen its /\
  ((res = 0 /\ exists it, its !! Z.to_nat idx = Some it /\ ikey it = k) \/
   (res = 1 /\ idx = zlen its - 1 /\ Forall (fun it => key_lt (ikey it) k) its) \/
   (res = -1 /\ Forall (fun it => key_lt (ikey it) k) (take (Z.to_nat idx) its) /\
    Forall (fun it => key_lt k (ikey it)) (drop (Z.to_nat idx) its))).
Proof.
  intros [Hi Hr]. split; [done|]. destruct res as [|[]|[]]; try done; naive_solver.
Qed.

Lemma keys_sorted_lookup its i j x y :
  keys_sorted its -> its !! i = Some x -> its !! j = Some y -> (i < j)%nat ->
  key_lt (ikey x) (ikey y).
Proof.
  intros Hs Hx Hy. apply (StronglySorted_lookup_lt _ _ _ _ _ _ Hs);
    rewrite list_lookup_fmap; [rewrite Hx|rewrite Hy]; done.
Qed.

Lemma key_lt_below its k i it j x :
  keys_sorted its -> its !! i = Some it -> key_lt (ikey it) k -> (j <= i)%nat ->
  its !! j = Some x -> key_lt (ikey x) k.
Proof.
  intros Hs Hi Hk Hj Hx. destruct (decide (j = i)) as [->|]; [congruence|].
  transitivity (ikey it); [|done]. eapply keys_sorted_lookup; eauto. lia.
Qed.

Lemma key_lt_above its k i it j x :
  keys_sorted its -> its !! i = Some it -> key_lt k (ikey it) -> (i <= j)%nat ->
  its !! j = Some x -> key_lt k (ikey x).
Proof.
  intros Hs Hi Hk Hj Hx. destruct (decide (j = i)) as [->|]; [congruence|].
  transitivity (ikey it); [done|]. eapply keys_sorted_lookup; eauto. lia.
Qed.

(** The loop invariant of both searches: everything below [lo] is smaller than
    the key, everything from [hi] on is larger. *)
Definition search_inv (its : list item) (k : list Z) (lo hi : Z) : Prop :=
  0 <= lo <= hi /\ hi <= zlen its /\
  (forall j x, its !! j = Some x -> Z.of_nat j < lo -> key_lt (ikey x) k) /\
  (forall j x, its !! j = Some x -> hi <= Z.of_nat j -> key_lt k (ikey x)).

Lemma search_inv_end its k lo :
  its <> [] -> search_inv its k lo lo ->
  let '(idx, res) := if zlen its <=? lo then (zlen its - 1, 1) else (lo, -1) in
  search_spec its k idx res.
Proof.
  intros Hne (Hlo & Hhi & Hb & Ha). destruct its as [|x0 its0] eqn:E; [done|]. rewrite <- E in *.
  assert (0 < zlen its) by (rewrite E; cbn [length]; lia).
  destruct (Z.leb_spec (zlen its) lo); (split; [lia|]).
  - split; [done|]. apply Forall_lookup. intros j x Hj. apply (Hb j x Hj).
    pose proof (lookup_lt_Some _ _ _ Hj). lia.
  - split; apply Forall_lookup; intros j x Hj.
    + apply lookup_take_Some in Hj as [Hj ?]. apply (Hb j x Hj). lia.
    + rewrite lookup_drop in Hj. apply (Ha _ x Hj). lia.
Qed.

Section searches.
Context (nd : ProllyNode) (its : list item) (zeros : nat) (Hnd : node_repr nd its zeros).
Context (Hsort : keys_sorted its).

Let Hwf : node_wf (level nd) (flags nd) its := repr_wf _ _ _ Hnd.

(** Comparing a search key with the key of an item the way the blob search does. *)
Lemma search_compare pKey nKey mid it :
  bytes_wf pKey -> key_arg pKey nKey -> 0 <= mid ->
  its !! Z.to_nat mid = Some it ->
  exists pMid nMid c c', prollyNodeKey nd mid = Some (pMid, nMid) /\
    prollyKeyComparePrefix pKey pMid (if nMid <? nKey then nMid else nKey) = Some c /\
    (if c =? 0 then int (nKey - nMid) else Some c) = Some c' /\
    sign_of c' = lexcmp (key_of pKey nKey) (ikey it).
Proof.
  intros Wp Hk Hm Hl. destruct (nd_item_wf _ _ _ Hnd _ _ Hl) as (Wi & _).
  pose proof (item_sizes _ _ _ Hnd _ _ Hl) as [Sk _].
  set (r := keys_of (drop (S (Z.to_nat mid)) its) ++ pValData nd).
  assert (Wr : bytes_wf (ikey it ++ r)).
  { apply bytes_wf_app. split; [done|]. apply bytes_wf_app. split; [|by eapply nd_pValData_wf].
    eapply keys_of_wf, Forall_drop, (wf_items _ _ _ Hwf). }
  destruct Hk as [Hk Hk'].
  set (n := if zlen (ikey it) <? nKey then zlen (ikey it) else nKey).
  assert (Hn : n = Z.min nKey (zlen (ikey it))) by (unfold n; cases_bool; lia).
  destruct (prollyKeyComparePrefix_spec pKey (ikey it ++ r) n) as (c & Hc & Sc);
    [done|done|lia|rewrite length_app; lia|].
  assert (Hi : int (nKey - zlen (ikey it)) = Some (nKey - zlen (ikey it))).
  { apply int_in_range. unfold INT_MAX in *. lia. }
  pose proof (lexcmp_key_of pKey nKey (ikey it ++ r) (zlen (ikey it))) as L.
  unfold key_of at 2 in L. rewrite Nat2Z.id, take_app_length in L. cbn zeta in L.
  rewrite L, <- Hn, <- Sc by (split; rewrite ?length_app; lia). clear L.
  exists (ikey it ++ r), (zlen (ikey it)), c.
  destruct (Z.eqb_spec c 0) as [->|Hc0].
  - exists (nKey - zlen (ikey it)). rewrite node_key with (it := it) (1 := Hnd) by done.
    repeat split; try done. by rewrite sign_of_sub.
  - exists c. rewrite node_key with (it := it) (1 := Hnd) by done. repeat split; try done.
    unfold sign_of. destruct (Z.compare_spec c 0); done.
Qed.

Lemma searchBlob_loop_spec fuel pKey nKey lo hi :
  bytes_wf pKey -> key_arg pKey nKey ->
  (Z.to_nat (hi + 1 - lo) < fuel)%nat -> search_inv its (key_of pKey nKey) lo (hi + 1) ->
  exists idx res, searchBlob_loop fuel nd pKey nKey lo hi = Some (idx, res) /\
    search_spec its (key_of pKey nKey) idx res.
Proof.
  intros Wp Hk. revert lo hi. induction fuel as [|fuel IH]; intros lo hi Hf Hinv; [lia|].
  cbn [searchBlob_loop]. destruct (Z.leb_spec lo hi) as [Hlh|Hlh].
  - cbn zeta. set (mid := lo + (hi - lo) / 2).
    destruct Hinv as (H0 & Hn & Hb & Ha).
    assert (lo <= mid <= hi) by (unfold mid; split; [|]; pose proof (Z.div_pos (hi - lo) 2);
      pose proof (Z.div_le_upper_bound (hi - lo) 2 (hi - lo)); lia).
    destruct (lookup_lt_is_Some_2 its (Z.to_nat mid)) as [it Hit]; [lia|].
    destruct (search_compare pKey nKey mid it) as (pMid & nMid & c & c' & -> & -> & -> & Sc);
      [done|done|lia|done|].
    destruct (Z.eqb_spec c' 0) as [->|Hc].
    + exists mid, 0. split; [done|]. split; [lia|]. exists it. split; [done|].
      symmetry. by apply lexcmp_eq.
    + destruct (Z.ltb_spec c' 0) as [Hl|Hl].
      * assert (key_lt (key_of pKey nKey) (ikey it)).
        { unfold key_lt. rewrite <- Sc. by apply Z.compare_lt_iff. }
        apply IH; [lia|]. replace (mid - 1 + 1) with mid by lia.
        split_and!; [lia|lia|lia|done|]. intros j x Hx Hj.
        apply (key_lt_above its _ (Z.to_nat mid) it j x); [done..|lia|done].
      * assert (key_lt (ikey it) (key_of pKey nKey)).
        { apply key_lt_gt. rewrite <- Sc. apply Z.compare_gt_iff. lia. }
        apply IH; [lia|]. split_and!; [lia|lia|lia| |done]. intros j x Hx Hj.
        apply (key_lt_below its _ (Z.to_nat mid) it j x); [done..|lia|done].
  - assert (lo = hi + 1) by (destruct Hinv; lia). subst lo.
    rewrite (nd_nItems _ _ _ Hnd). pose proof (search_inv_end _ _ _ (wf_nonempty _ _ _ Hwf) Hinv).
    destruct (zlen its <=? hi + 1); eauto.
Qed.

Lemma search_blob_spec pKey nKey :
  bytes_wf pKey -> key_arg pKey nKey ->
  exists idx res, prollyNodeSearchBlob nd pKey nKey = Some (idx, res) /\
    search_spec its (key_of pKey nKey) idx res.
Proof.
  intros Wp Hk. unfold prollyNodeSearchBlob. rewrite (nd_nItems _ _ _ Hnd).
  pose proof (wf_nonempty _ _ _ Hwf).
  destruct (Z.eqb_spec (zlen its) 0); [by destruct its|].
  apply searchBlob_loop_spec; [done|done|lia|].
  split_and!; try lia; intros j x Hx; pose proof (lookup_lt_Some _ _ _ Hx); lia.
Qed.

Context (Hint : has_flag (flags nd) PROLLY_NODE_INTKEY = true).

Lemma intkeys_length : Forall (fun it => zlen (ikey it) = 8) its.
Proof.
  eapply Forall_impl; [apply (wf_items _ _ _ Hwf)|]. intros x (_ & _ & _ & H & _). auto.
Qed.

Lemma intkey_ptr i it :
  0 <= i -> its !! Z.to_nat i = Some it ->
  exists r, pKeyData nd +p (i * 8) = ikey it ++ r.
Proof.
  intros Hi Hl. rewrite (nd_pKeyData _ _ _ Hnd). eexists.
  rewrite <- (keys_ptr _ _ _ (pValData nd) Hl). f_equal. unfold keys_of.
  assert (Forall (fun it => length (ikey it) = 8%nat) (take (Z.to_nat i) its)) as HF.
  { apply Forall_take. eapply Forall_impl; [apply intkeys_length|]. simpl. lia. }
  pose proof (lookup_lt_Some _ _ _ Hl).
  assert (forall l, Forall (fun it => length (ikey it) = 8%nat) l ->
    length (mjoin (ikey <$> l)) = (8 * length l)%nat) as HL.
  { clear. induction 1 as [|x l Hx _ IH]; [done|]. rewrite fmap_cons.
    transitivity (length (ikey x ++ mjoin (ikey <$> l))); [done|].
    rewrite length_app, Hx, IH. cbn [length]. lia. }
  rewrite (HL _ HF), length_take. lia.
Qed.

Lemma read_intkey i it :
  0 <= i -> its !! Z.to_nat i = Some it ->
  exists v, is_i64 v /\ ikey it = prollyEncodeIntKey v /\
    prollyNodeIntKey nd i = Some v /\
    prollyReadEncodedIntKey (pKeyData nd +p (i * 8)) = Some (v + 2 ^ 63).
Proof.
  intros Hi Hl. destruct (nd_item_wf _ _ _ Hnd _ _ Hl) as (Wi & _ & _ & Li & _).
  specialize (Li Hint). destruct (intkey_ptr i it Hi Hl) as [r Hr].
  destruct (intkey_decode_encode (ikey it)) as (v & _ & Hv & Ev); [done|lia|].
  exists v. split_and!; [done|done| |].
  - unfold prollyNodeIntKey. rewrite (item_ok_lookup _ _ _ Hnd i it), Hint by done. simpl.
    rewrite Hr, <- Ev. by apply intkey_roundtrip.
  - rewrite Hr, <- Ev. transitivity (prollyReadEncodedIntKey (prollyEncodeIntKey v)); [done|].
    rewrite prollyReadEncodedIntKey_spec by (done || apply prollyEncodeIntKey_wf).
    rewrite take_ge by done. by rewrite be_decode_intkey.
Qed.

Lemma intkey_lt_iff a b :
  is_i64 a -> is_i64 b -> key_lt (prollyEncodeIntKey a) (prollyEncodeIntKey b) <-> a < b.
Proof. intros. unfold key_lt. rewrite intkey_order by done. apply Z.compare_lt_iff. Qed.

Lemma searchInt_loop_spec fuel v lo hi :
  is_i64 v -> (Z.to_nat (hi - lo) < fuel)%nat -> 0 <= lo <= hi -> hi <= zlen its ->
  (forall j x, its !! j = Some x -> Z.of_nat j < lo -> key_lt (ikey x) (prollyEncodeIntKey v)) ->
  (forall j x, its !! j = Some x -> hi <= Z.of_nat j -> ~ key_lt (ikey x) (prollyEncodeIntKey v)) ->
  exists r, searchInt_loop fuel nd (v + 2 ^ 63) lo hi = Some r /\ 0 <= r <= zlen its /\
  (forall j x, its !! j = Some x -> Z.of_nat j < r -> key_lt (ikey x) (prollyEncodeIntKey v)) /\
  (forall j x, its !! j = Some x -> r <= Z.of_nat j -> ~ key_lt (ikey x) (prollyEncodeIntKey v)).
Proof.
  intros Hv. revert lo hi. induction fuel as [|fuel IH]; intros lo hi Hf H0 Hn Hb Ha; [lia|].
  cbn [searchInt_loop]. destruct (Z.ltb_spec lo hi) as [Hlh|Hlh].
  - cbn zeta. set (mid := lo + (hi - lo) / 2).
    assert (lo <= mid < hi) by (unfold mid; pose proof (Z.div_pos (hi - lo) 2);
      pose proof (Z.div_lt (hi - lo) 2); lia).
    destruct (lookup_lt_is_Some_2 its (Z.to_nat mid)) as [it Hit]; [lia|].
    destruct (read_intkey mid it) as (w & Hw & Ew & _ & ->); [lia|done|].
    destruct (Z.ltb_spec (w + 2 ^ 63) (v + 2 ^ 63)) as [Hl|Hl].
    + apply IH; [lia..| |done]. intros j x Hx Hj. apply (key_lt_below its _ (Z.to_nat mid) it j x); [done..| |lia|done].
      rewrite Ew. apply intkey_lt_iff; [done..|lia].
    + apply IH; [lia..|done|]. intros j x Hx Hj Hlt.
      apply (key_lt_below its _ j x (Z.to_nat mid) it) in Hlt; [|done..|lia|done].
      rewrite Ew in Hlt. apply intkey_lt_iff in Hlt; [lia|done..].
  - exists lo. split_and!; [done|lia|lia|done|]. intros j x Hx Hj. apply (Ha j x Hx). lia.
Qed.

Lemma search_int_spec v :
  is_i64 v ->
  exists idx res, prollyNodeSearchInt nd v = Some (idx, res) /\
    search_spec its (prollyEncodeIntKey v) idx res.
Proof.
  intros Hv. unfold prollyNodeSearchInt. rewrite (nd_nItems _ _ _ Hnd), intkey_bias_i64 by done.
  pose proof (wf_nonempty _ _ _ Hwf) as Hne.
  destruct (Z.eqb_spec (zlen its) 0); [by destruct its|]. cbn zeta.
  destruct (searchInt_loop_spec (S (Z.to_nat (zlen its))) v 0 (zlen its))
    as (r & -> & Hr & Hb & Ha); [done|lia|lia|lia| | |].
  1-2: intros j x Hx; pose proof (lookup_lt_Some _ _ _ Hx); lia.
  destruct (Z.leb_spec (zlen its) r).
  - eexists _, _. split; [reflexivity|]. split; [lia|]. split; [done|].
    apply Forall_lookup. intros j x Hx. apply (Hb j x Hx). pose proof (lookup_lt_Some _ _ _ Hx). lia.
  - destruct (lookup_lt_is_Some_2 its (Z.to_nat r)) as [it Hit]; [lia|].
    destruct (read_intkey r it) as (w & Hw & Ew & _ & ->); [lia|done|].
    pose proof (Ha _ _ Hit) as Hge. rewrite Ew, intkey_lt_iff in Hge by done.
    destruct (Z.eqb_spec (v + 2 ^ 63) (w + 2 ^ 63)); eexists _, _; (split; [reflexivity|]).
    + split; [lia|]. exists it. split; [done|]. rewrite Ew. f_equal. lia.
    + split; [lia|]. split; apply Forall_lookup; intros j x Hx.
      * apply lookup_take_Some in Hx as [Hx ?]. apply (Hb j x Hx). lia.
      * rewrite lookup_drop in Hx. eapply key_lt_above; [done|apply Hit| |apply Nat.le_add_r|done].
        rewrite Ew. apply intkey_lt_iff; [done..|lia].
Qed.
End searches.

Section children.
Context (nd : ProllyNode) (its : list item) (zeros : nat) (Hnd : node_repr nd its zeros).

Let Hwf : node_wf (level nd) (flags nd) its := repr_wf _ _ _ Hnd.

Lemma node_child_hash i it :
  0 < level nd -> 0 <= i -> its !! Z.to_nat i = Some it ->
  prollyNodeChildHash nd i = Some (ival it).
Proof.
  intros Hlv Hi Hl. pose proof (lookup_lt_Some _ _ _ Hl). destruct (nd_aValOff _ _ _ Hnd) as [r Hr].
  destruct (nd_item_wf _ _ _ Hnd _ _ Hl) as (_ & _ & _ & _ & Lv).
  assert (zeros = 0%nat) as Hz by (pose proof (repr_sparse _ _ _ Hnd); lia).
  pose proof (vphys_split _ _ _ Hnd _ _ Hl) as Hv. rewrite Hz, app_nil_r in Hv.
  unfold prollyNodeChildHash. rewrite (item_ok_lookup _ _ _ Hnd i it), Hr by done. simpl.
  rewrite (val_off_at _ _ _ Hwf), Hv by lia. apply bytes_at_app. symmetry. auto.
Qed.

Lemma node_child_count i it :
  prollyNodeHasSubtreeCounts nd = true -> 0 <= i -> its !! Z.to_nat i = Some it ->
  prollyNodeChildSubtreeCount nd i = Some (icount it).
Proof.
  intros Hf Hi Hl. pose proof (lookup_lt_Some _ _ _ Hl).
  unfold prollyNodeHasSubtreeCounts in Hf. pose proof (wf_counts _ _ _ Hwf Hf).
  destruct (nd_item_wf _ _ _ Hnd _ _ Hl) as (_ & _ & Hc & _).
  assert (zeros = 0%nat) as Hz by (pose proof (repr_sparse _ _ _ Hnd); lia).
  pose proof (repr_vals _ _ _ Hnd) as Hv. rewrite Hz, app_nil_r in Hv.
  unfold prollyNodeChildSubtreeCount. rewrite (item_ok_lookup _ _ _ Hnd i it) by done. simpl.
  pose proof (f_equal pSubtreeCounts (repr_nd _ _ _ Hnd)) as Hp. cbn [pSubtreeCounts node_of] in Hp.
  rewrite Hf, Hv, ptr_add_app in Hp by done. rewrite Hp. unfold counts_of, enc_counts. rewrite Hf.
  rewrite <- (app_nil_r (mjoin _)), (Z.mul_comm i 8).
  rewrite (ptr_add_fixed put_u64_le 8) by (done || (rewrite length_fmap; lia)).
  rewrite (drop_S _ (icount it)) by (by rewrite list_lookup_fmap, Hl).
  rewrite app_nil_r. by apply (get_put_u64_le (icount it)).
Qed.
End children.

(** * Parsing *)

(** What the closing loop establishes at index [j]. *)
Definition check_at (lvl flg tk tv : Z) (ks vs : list Z) (j : nat) : Prop :=
  forall k v, ks !! j = Some k -> vs !! j = Some v ->
    k <= tk /\ v <= tv /\ (j = 0%nat -> k = 0 /\ v = 0) /\
    forall j' k' v', j = S j' -> ks !! j' = Some k' -> vs !! j' = Some v' ->
      k' <= k /\ v' <= v /\
      (has_flag flg PROLLY_NODE_INTKEY = true -> k - k' = 8) /\
      (0 < lvl -> v - v' = PROLLY_HASH_SIZE).

(** A defined run: success exactly when [P] holds, SQLITE_CORRUPT otherwise. *)
Definition checks {A} (m : C A) (a : A) (P : Prop) : Prop :=
  (m = ret a /\ P) \/ (m = err SQLITE_CORRUPT /\ ~ P).

Lemma checks_cond {A} (b : bool) (P : Prop) m (a : A) :
  (b = true -> ~ P) -> (b = false -> checks m a P) ->
  checks (if b then err SQLITE_CORRUPT else m) a P.
Proof. destruct b; intros H1 H2; [right; auto|auto]. Qed.

Lemma parse_check_item_spec nd tk tv ks vs rk rv i :
  aKeyOff nd = enc_offs ks ++ rk -> aValOff nd = enc_offs vs ++ rv ->
  Forall is_u32 ks -> Forall is_u32 vs -> 0 <= i < zlen ks -> length ks = length vs ->
  checks (parse_check_item nd tk tv i) tt (check_at (level nd) (flags nd) tk tv ks vs (Z.to_nat i)).
Proof.
  intros Hk Hv Wk Wv Hi Hlen.
  destruct (lookup_lt_is_Some_2 ks (Z.to_nat i)) as [k Ek]; [lia|].
  destruct (lookup_lt_is_Some_2 vs (Z.to_nat i)) as [v Ev]; [lia|].
  assert (Uk := Forall_lookup_1 _ _ _ _ Wk Ek). assert (Uv := Forall_lookup_1 _ _ _ _ Wv Ev).
  unfold parse_check_item. rewrite Hk, Hv.
  rewrite (off_at_enc ks _ i k), (off_at_enc vs _ i v) by (done || lia). cbn [read bindC].
  unfold check_at. apply checks_cond.
  { rewrite orb_true_iff, !Z.ltb_lt. intros ? HC. destruct (HC k v) as (? & ? & _); [done..|lia]. }
  rewrite orb_false_iff, !Z.ltb_ge. intros [? ?]. apply checks_cond.
  { intros Hb HC. destruct (HC k v) as (_ & _ & HZ & _); [done..|].
    destruct (Z.eqb_spec i 0) as [->|]; [|done]. destruct HZ as [-> ->]; done. }
  intros Hb. destruct (Z.ltb_spec 0 i) as [Hp|Hp].
  2: { left. split; [done|]. intros k0 v0 ??. simplify_eq. split_and!; [done..| |lia].
       destruct (Z.eqb_spec i 0); [|lia]. simpl in Hb.
       destruct (Z.eqb_spec k 0), (Z.eqb_spec v 0); done. }
  destruct (lookup_lt_is_Some_2 ks (Z.to_nat (i - 1))) as [k' Ek']; [lia|].
  destruct (lookup_lt_is_Some_2 vs (Z.to_nat (i - 1))) as [v' Ev']; [lia|].
  assert (Uk' := Forall_lookup_1 _ _ _ _ Wk Ek'). assert (Uv' := Forall_lookup_1 _ _ _ _ Wv Ev').
  rewrite (off_at_enc ks _ (i - 1) k'), (off_at_enc vs _ (i - 1) v') by (done || lia).
  cbn [read bindC].
  assert (Z.to_nat i = S (Z.to_nat (i - 1))) as Hi' by lia.
  apply checks_cond.
  { rewrite orb_true_iff, !Z.ltb_lt. intros ? HC. destruct (HC k v Ek Ev) as (_ & _ & _ & HS).
    destruct (HS _ _ _ Hi' Ek' Ev') as (? & ? & _). lia. }
  rewrite orb_false_iff, !Z.ltb_ge. intros [? ?].
  rewrite !u32_small by (unfold is_u32 in *; lia). apply checks_cond.
  { rewrite andb_true_iff, negb_true_iff, Z.eqb_neq. intros [Hf Hn] HC.
    destruct (HC k v Ek Ev) as (_ & _ & _ & HS).
    destruct (HS _ _ _ Hi' Ek' Ev') as (_ & _ & HI & _). auto. }
  intros HI. apply checks_cond.
  { rewrite andb_true_iff, negb_true_iff, Z.eqb_neq, Z.ltb_lt. intros [Hf Hn] HC.
    destruct (HC k v Ek Ev) as (_ & _ & _ & HS).
    destruct (HS _ _ _ Hi' Ek' Ev') as (_ & _ & _ & HL). auto. }
  intros HL. left. split; [done|]. intros k0 v0 ??. simplify_eq. split_and!; [done..|lia|].
  intros j' k1 v1 Ej ??. assert (j' = Z.to_nat (i - 1)) as -> by lia. simplify_eq.
  split_and!; [done..| |].
  - intros Hf. rewrite Hf in HI. by destruct (Z.eqb_spec (k - k') 8).
  - intros Hf. apply Z.ltb_lt in Hf. rewrite Hf in HL.
    by destruct (Z.eqb_spec (v - v') PROLLY_HASH_SIZE).
Qed.

Lemma parse_check_spec fuel nd tk tv ks vs rk rv i :
  aKeyOff nd = enc_offs ks ++ rk -> aValOff nd = enc_offs vs ++ rv ->
  Forall is_u32 ks -> Forall is_u32 vs -> length ks = length vs ->
  0 <= i -> i + Z.of_nat fuel = zlen ks ->
  checks (parse_check fuel nd tk tv i) tt
    (forall j, (Z.to_nat i <= j < length ks)%nat -> check_at (level nd) (flags nd) tk tv ks vs j).
Proof.
  intros Hk Hv Wk Wv Hlen. revert i. induction fuel as [|fuel IH]; intros i Hi Hf.
  { left. split; [done|]. intros. lia. }
  cbn [parse_check].
  destruct (parse_check_item_spec nd tk tv ks vs rk rv i) as [[-> H]|[-> H]]; [done..|lia|done| |].
  - cbn [ret bindC]. destruct (IH (i + 1)) as [[-> H1]|[-> H1]]; [lia..| |].
    + left. split; [done|]. intros j Hj. destruct (decide (j = Z.to_nat i)) as [->|]; [done|].
      apply H1. lia.
    + right. split; [done|]. intros H2. apply H1. intros j Hj. apply H2. lia.
  - right. split; [done|]. intros H1. apply H, H1. lia.
Qed.

Ltac split_bytes_wf :=
  unfold bytes_wf in *;
  repeat match goal with H : Forall is_byte (_ :: _) |- _ => apply Forall_cons_1 in H as [? H] end.

Ltac bytes_wf_lit :=
  unfold bytes_wf; repeat (apply Forall_cons_2; [done|]); apply Forall_nil_2.

(** Views of raw bytes as header, tables and body. *)
Lemma header_view p :
  bytes_wf p -> 8 <= zlen p ->
  exists magic lvl count flg rest,
    p = PROLLY_PUT_U32 magic ++ [lvl] ++ PROLLY_PUT_U16 count ++ [flg] ++ rest /\
    is_u32 magic /\ is_byte lvl /\ 0 <= count < 65536 /\ is_byte flg /\ bytes_wf rest.
Proof.
  intros W L. do 8 destruct_list p L.
  split_bytes_wf.
  match goal with |- context [?a :: ?b :: ?c :: ?d :: ?e :: ?f :: ?g :: ?h :: p] =>
    exists (le_decode [a; b; c; d]), e, (le_decode [f; g]), h, p;
    assert (bytes_wf [a; b; c; d]) as W4 by bytes_wf_lit;
    assert (bytes_wf [f; g]) as W2 by bytes_wf_lit
  end.
  rewrite PROLLY_PUT_U32_le, PROLLY_PUT_U16_le.
  pose proof (le_decode_bound _ W4) as B4. pose proof (le_decode_bound _ W2) as B2.
  pose proof (le_encode_decode _ W4) as E4. pose proof (le_encode_decode _ W2) as E2.
  cbn [length] in E4, E2. rewrite E4, E2.
  change (256 ^ zlen _) with (2 ^ 32) in B4. change (256 ^ zlen _) with 65536 in B2.
  split_and!; done || lia.
Qed.

Lemma enc_offs_view n l :
  bytes_wf l -> (4 * n <= length l)%nat ->
  exists offs r, l = enc_offs offs ++ r /\ length offs = n /\ Forall is_u32 offs /\ bytes_wf r.
Proof.
  revert l. induction n as [|n IH]; intros l W L; [by exists [], l|].
  destruct l as [|a [|b [|c [|d l]]]]; cbn [length] in L; try lia.
  split_bytes_wf.
  destruct (IH l W) as (offs & r & -> & <- & Wo & Wr); [lia|].
  assert (W4 : bytes_wf [a; b; c; d]) by bytes_wf_lit.
  exists (le_decode [a; b; c; d] :: offs), r. split_and!; try done.
  - transitivity (PROLLY_PUT_U32 (le_decode [a; b; c; d]) ++ enc_offs offs ++ r);
      [|by rewrite app_assoc].
    rewrite PROLLY_PUT_U32_le. pose proof (le_encode_decode _ W4) as E. cbn [length] in E.
    by rewrite E.
  - constructor; [|done]. pose proof (le_decode_bound _ W4). done.
Qed.

Lemma enc_counts_view n l :
  bytes_wf l -> length l = (8 * n)%nat ->
  exists cs, l = enc_counts cs /\ length cs = n /\ Forall is_u64 cs.
Proof.
  revert l. induction n as [|n IH]; intros l W L; [by exists []; destruct l|].
  rewrite <- (take_drop 8 l). set (x := take 8 l).
  assert (Lx : length x = 8%nat) by (unfold x; rewrite length_take; lia).
  destruct (IH (drop 8 l)) as (cs & -> & <- & Wc); [auto with prolly|rewrite length_drop; lia|].
  assert (Wx : bytes_wf x) by (unfold x; auto with prolly).
  exists (le_decode x :: cs). split_and!; [|done|].
  - transitivity (put_u64_le (le_decode x) ++ enc_counts cs); [|done]. f_equal.
    rewrite put_u64_le_le, <- Lx. symmetry. by apply le_encode_decode.
  - constructor; [|done]. pose proof (le_decode_bound _ Wx) as B. by rewrite Lx in B.
Qed.

(** The parser on a chunk split in header, tables and body. *)
Definition layout_bytes (lvl flg : Z) (ks vs body : list Z) : list Z :=
  node_header lvl (zlen ks - 1) flg ++ enc_offs ks ++ enc_offs vs ++ body.

Definition layout_node (lvl flg : Z) (ks vs body : list Z) (nData tk tv : Z) : ProllyNode :=
  let p := layout_bytes lvl flg ks vs body in
  Node p nData (zlen p) 0 lvl (zlen ks - 1) flg
    (enc_offs ks ++ enc_offs vs ++ body) (enc_offs vs ++ body) body (body +p tk)
    (if has_flag flg PROLLY_NODE_SUBTREE_COUNTS then body +p (tk + tv) else []).

Record layout_ok (lvl flg : Z) (ks vs body : list Z) (nData tk tv : Z) : Prop := {
  lo_kind : key_kind_ok flg = true;
  lo_counts : has_flag flg PROLLY_NODE_SUBTREE_COUNTS = true -> 0 < lvl;
  lo_size : nData = 8 + 8 * zlen ks + tk + tv +
    (if has_flag flg PROLLY_NODE_SUBTREE_COUNTS then 8 * (zlen ks - 1) else 0);
  lo_phys : zlen (layout_bytes lvl flg ks vs body) <= nData;
  lo_sparse : zlen (layout_bytes lvl flg ks vs body) < nData -> lvl = 0 /\ tk <= zlen body;
  lo_checks : forall j, (j < length ks)%nat -> check_at lvl flg tk tv ks vs j }.

Lemma layout_bytes_length lvl flg ks vs body :
  length ks = length vs -> zlen (layout_bytes lvl flg ks vs body) = 8 + 8 * zlen ks + zlen body.
Proof.
  intros H. unfold layout_bytes. rewrite !length_app, length_node_header, !length_enc_offs. lia.
Qed.

Lemma read_header lvl count flg r :
  is_byte lvl -> 0 <= count < 65536 -> is_byte flg ->
  let p := node_header lvl count flg ++ r in
  PROLLY_GET_U32 (p +p PROLLY_MAGIC_OFF) = Some PROLLY_NODE_MAGIC /\
  p !! Z.to_nat PROLLY_LEVEL_OFF = Some lvl /\
  PROLLY_GET_U16 (p +p PROLLY_COUNT_OFF) = Some count /\
  p !! Z.to_nat PROLLY_FLAGS_OFF = Some flg.
Proof.
  intros Hl Hc Hf p. split_and!; [done|done| |done].
  exact (PROLLY_GET_PUT_U16 count (flg :: r) Hc).
Qed.

Lemma parse_layout lvl flg ks vs body nData tk tv :
  is_byte lvl -> is_byte flg -> Forall is_u32 ks -> Forall is_u32 vs ->
  length ks = length vs -> 1 < zlen ks <= PROLLY_NODE_MAX_ITEMS + 1 ->
  last ks = Some tk -> last vs = Some tv ->
  let p := layout_bytes lvl flg ks vs body in
  checks (prollyNodeParseSparse p nData (zlen p))
    (layout_node lvl flg ks vs body nData tk tv) (layout_ok lvl flg ks vs body nData tk tv).
Proof.
  intros Hl Hf Wk Wv Hlen Hn Lk Lv p. pose proof (layout_bytes_length lvl flg ks vs body Hlen) as Hp.
  rewrite last_lookup in Lk, Lv. fold p in Hp.
  assert (Uk := Forall_lookup_1 _ _ _ _ Wk Lk). assert (Uv := Forall_lookup_1 _ _ _ _ Wv Lv).
  destruct (read_header lvl (zlen ks - 1) flg (enc_offs ks ++ enc_offs vs ++ body))
    as (R1 & R2 & R3 & R4); [done|unfold PROLLY_NODE_MAX_ITEMS in *; lia|done|].
  unfold prollyNodeParseSparse. change (node_header _ _ _ ++ _) with p in R1, R2, R3, R4.
  unfold PROLLY_HDR_SIZE, is_u32, is_byte in *.
  apply checks_cond.
  { rewrite !orb_true_iff, !Z.ltb_lt. intros ? []. cases_bool; fold p in lo_phys0; lia. }
  intros _. rewrite R1. cbn [read]; rewrite bindC_ret. rewrite Z.eqb_refl. cbn [negb].
  rewrite R2. cbn [read]; rewrite bindC_ret. rewrite R3. cbn [read]; rewrite bindC_ret.
  destruct (Z.ltb_spec PROLLY_NODE_MAX_ITEMS (zlen ks - 1)); [lia|].
  rewrite R4. cbn [read]; rewrite bindC_ret. cbn zeta. apply checks_cond.
  { intros Hb []. unfold key_kind_ok in *. by destruct (_ =? _), (_ =? _). }
  intros Hkind. apply checks_cond.
  { rewrite andb_true_iff, Z.eqb_eq. intros [Hc ?] []. specialize (lo_counts0 Hc). lia. }
  intros Hcl. destruct (Z.eqb_spec (zlen ks - 1) 0); [lia|].
  destruct (Z.ltb_spec (zlen p) (8 + (zlen ks - 1 + 1) * 4 * 2)); [lia|].
  assert (Ek : p +p 8 = enc_offs ks ++ enc_offs vs ++ body) by done.
  assert (Ev : (enc_offs ks ++ enc_offs vs ++ body) +p ((zlen ks - 1 + 1) * 4) = enc_offs vs ++ body).
  { apply ptr_add_app. rewrite length_enc_offs. lia. }
  assert (Eb : (enc_offs vs ++ body) +p ((zlen ks - 1 + 1) * 4) = body).
  { apply ptr_add_app. rewrite length_enc_offs. lia. }
  rewrite Ek, Ev, Eb.
  rewrite (off_at_enc ks _ (zlen ks - 1) tk), (off_at_enc vs _ (zlen ks - 1) tv);
    try (done || lia); cycle 1.
  { rewrite <- Lv. f_equal. lia. } { rewrite <- Lk. f_equal. lia. }
  cbn [read]; rewrite bindC_ret. apply checks_cond.
  { rewrite orb_true_iff, !Z.ltb_lt. intros ? []. destruct (has_flag _ _); lia. }
  intros _. apply checks_cond.
  { rewrite negb_true_iff, Z.eqb_neq. intros ? []. destruct (has_flag _ _); lia. }
  rewrite negb_false_iff, Z.eqb_eq. intros Hsz. apply checks_cond.
  { intros Hb []. fold p in lo_phys0, lo_sparse0. destruct (Z.ltb_spec (zlen p) nData) as [Hs|Hs].
    - destruct (lo_sparse0 Hs) as [-> ?]. destruct (has_flag _ _) eqn:E; [by specialize (lo_counts0 eq_refl)|].
      cbn [Z.eqb orb negb] in Hb. apply Z.ltb_lt in Hb. lia.
    - rewrite negb_true_iff, Z.eqb_neq in Hb. lia. }
  intros Hph.
  match goal with |- context [parse_check _ ?n _ _ _] =>
    destruct (parse_check_spec (Z.to_nat (zlen ks - 1 + 1)) n tk tv ks vs (enc_offs vs ++ body) body 0)
      as [[-> HC]|[-> HC]] end; try (done || lia).
  - left. split; [done|]. constructor.
    + unfold key_kind_ok. by destruct (_ =? _), (_ =? _).
    + intros E. rewrite E in Hcl. simpl in Hcl. lia.
    + destruct (has_flag _ _); lia.
    + fold p. destruct (Z.ltb_spec (zlen p) nData); [lia|].
      rewrite negb_false_iff, Z.eqb_eq in Hph. lia.
    + fold p. intros Hs. destruct (Z.ltb_spec (zlen p) nData); [|lia].
      rewrite !orb_false_iff, negb_false_iff, Z.eqb_eq, Z.ltb_ge in Hph. lia.
    + intros j Hj. apply HC. lia.
  - right. split; [done|]. intros []. apply HC. intros j Hj. apply lo_checks0. lia.
Qed.

(** The items of an accepted chunk. *)
Definition mk_items (keys vals : list (list Z)) (cs : list Z) : list item :=
  zip_with (fun kv c => Item kv.1 kv.2 c) (zip keys vals) cs.

Lemma mk_items_fields keys vals cs :
  length keys = length vals -> length vals = length cs ->
  ikey <$> mk_items keys vals cs = keys /\ ival <$> mk_items keys vals cs = vals /\
  icount <$> mk_items keys vals cs = cs.
Proof.
  revert vals cs. induction keys as [|k keys IH]; intros [|v vals] [|c cs] H1 H2; try done.
  destruct (IH vals cs) as (E1 & E2 & E3); [by injection H1|by injection H2|].
  change (mk_items (k :: keys) (v :: vals) (c :: cs)) with (Item k v c :: mk_items keys vals cs).
  rewrite !fmap_cons. by rewrite E1, E2, E3.
Qed.

(** Cutting a region at an accepted offset table gives back the table. *)
Lemma cut_table tab data t :
  (forall j a b, tab !! j = Some a -> tab !! S j = Some b -> a <= b) ->
  tab !! 0%nat = Some 0 -> last tab = Some t -> t <= zlen data ->
  let parts := cut data 0 (tail tab) in
  offsets_from 0 parts = tab /\ mjoin parts = take (Z.to_nat t) data /\
  length parts = (length tab - 1)%nat /\ 0 <= t.
Proof.
  intros Hinc H0 Hlast Ht parts. destruct tab as [|o offs]; [done|]. simplify_eq/=.
  assert (Hi : increasing 0 offs) by (by apply increasing_lookup).
  assert (Hl : List.last offs 0 = t) by (by apply last_default_Some).
  pose proof (increasing_last _ _ Hi). unfold parts. split_and!.
  - apply offsets_from_cut; [lia|done|lia].
  - rewrite mjoin_cut by (done || lia). by rewrite Hl, Z.sub_0_r, ptr_add_0.
  - rewrite length_cut. lia.
  - lia.
Qed.

Section accepted.
Context (lvl flg : Z) (ks vs body : list Z) (nData tk tv : Z).
Context (Hlvl : is_byte lvl) (Hflg : is_byte flg) (Wb : bytes_wf body).
Context (Hlen : length ks = length vs) (Hn : 1 < zlen ks <= PROLLY_NODE_MAX_ITEMS + 1).
Context (Lk : last ks = Some tk) (Lv : last vs = Some tv) (Hmax : nData <= INT_MAX).
Context (Hok : layout_ok lvl flg ks vs body nData tk tv).

Let zeros : nat := Z.to_nat (nData - zlen (layout_bytes lvl flg ks vs body)).
Let D : list Z := body ++ replicate zeros 0.
Let counted : bool := has_flag flg PROLLY_NODE_SUBTREE_COUNTS.

Lemma table_facts j k v k' v' :
  ks !! j = Some k -> vs !! j = Some v -> ks !! S j = Some k' -> vs !! S j = Some v' ->
  k <= k' /\ v <= v' /\ (has_flag flg PROLLY_NODE_INTKEY = true -> k' - k = 8) /\
  (0 < lvl -> v' - v = PROLLY_HASH_SIZE).
Proof.
  intros Hk Hv Hk' Hv'. pose proof (lookup_lt_Some _ _ _ Hk').
  destruct (lo_checks _ _ _ _ _ _ _ _ Hok (S j) ltac:(done) k' v' Hk' Hv') as (_ & _ & _ & HS).
  by apply (HS j k v).
Qed.

Lemma ks_mono j a b : ks !! j = Some a -> ks !! S j = Some b -> a <= b.
Proof.
  intros Ha Hb. pose proof (lookup_lt_Some _ _ _ Hb).
  destruct (lookup_lt_is_Some_2 vs j) as [v Hv]; [lia|].
  destruct (lookup_lt_is_Some_2 vs (S j)) as [v' Hv']; [lia|].
  by apply (table_facts j a v b v').
Qed.

Lemma vs_mono j a b : vs !! j = Some a -> vs !! S j = Some b -> a <= b.
Proof.
  intros Ha Hb. pose proof (lookup_lt_Some _ _ _ Hb).
  destruct (lookup_lt_is_Some_2 ks j) as [k Hk]; [lia|].
  destruct (lookup_lt_is_Some_2 ks (S j)) as [k' Hk']; [lia|].
  by apply (table_facts j k a k' b).
Qed.

Lemma table_zero : ks !! 0%nat = Some 0 /\ vs !! 0%nat = Some 0.
Proof.
  destruct (lookup_lt_is_Some_2 ks 0) as [k Hk]; [lia|].
  destruct (lookup_lt_is_Some_2 vs 0) as [v Hv]; [lia|].
  destruct (lo_checks _ _ _ _ _ _ _ _ Hok 0%nat ltac:(lia) k v Hk Hv) as (_ & _ & H0 & _).
  destruct (H0 eq_refl) as [-> ->]. done.
Qed.

Lemma D_length : zlen D = tk + tv + (if counted then 8 * (zlen ks - 1) else 0).
Proof.
  pose proof (lo_phys _ _ _ _ _ _ _ _ Hok). pose proof (lo_size _ _ _ _ _ _ _ _ Hok).
  pose proof (layout_bytes_length lvl flg ks vs body Hlen).
  unfold D, zeros, counted. rewrite length_app, length_replicate. destruct (has_flag _ _); lia.
Qed.

Lemma keys_cut : let keys := cut body 0 (tail ks) in
  offsets_from 0 keys = ks /\ mjoin keys = take (Z.to_nat tk) body /\
  length keys = (length ks - 1)%nat /\ 0 <= tk <= zlen body.
Proof.
  assert (0 <= tv) as Htv.
  { destruct (cut_table vs (replicate (Z.to_nat tv) 0) tv) as (_ & _ & _ & ?);
      [apply vs_mono|apply table_zero|done|rewrite length_replicate; lia|done]. }
  assert (tk <= zlen body) as Hb.
  { pose proof D_length as HD. unfold D in HD. rewrite length_app, length_replicate in HD.
    destruct zeros as [|z] eqn:Ez; [unfold counted in HD; destruct (has_flag _ _); lia|].
    apply (lo_sparse _ _ _ _ _ _ _ _ Hok). unfold zeros in Ez. lia. }
  destruct (cut_table ks body tk) as (? & ? & ? & ?); [apply ks_mono|apply table_zero|done..].
Qed.

Lemma vals_cut : let vals := cut (D +p tk) 0 (tail vs) in
  offsets_from 0 vals = vs /\ mjoin vals = take (Z.to_nat tv) (D +p tk) /\
  length vals = (length vs - 1)%nat /\ 0 <= tv.
Proof.
  destruct keys_cut as (_ & _ & _ & ?). pose proof D_length as HD.
  apply cut_table; [apply vs_mono|apply table_zero|done|].
  rewrite length_ptr_add by lia. destruct counted; lia.
Qed.

Lemma D_wf : bytes_wf D.
Proof.
  apply bytes_wf_app. split; [done|]. apply Forall_replicate. unfold is_byte; lia.
Qed.

Lemma counts_cut : exists cs, length cs = (length ks - 1)%nat /\ Forall is_u64 cs /\
  D +p (tk + tv) = if counted then enc_counts cs else [].
Proof.
  destruct keys_cut as (_ & _ & _ & ?), vals_cut as (_ & _ & _ & ?). pose proof D_length as HD.
  pose proof (length_ptr_add D (tk + tv)) as HL. destruct counted.
  - destruct (enc_counts_view (length ks - 1) (D +p (tk + tv))) as (cs & E & ? & ?).
    + apply bytes_wf_drop, D_wf.
    + lia.
    + exists cs. by rewrite E.
  - exists (replicate (length ks - 1) 0). rewrite length_replicate. split_and!; [done| |].
    + apply Forall_replicate. unfold is_u64; lia.
    + apply nil_length_inv. lia.
Qed.

Lemma accepted_items_wf cs :
  length cs = (length ks - 1)%nat -> Forall is_u64 cs ->
  Forall (item_wf lvl flg) (mk_items (cut body 0 (tail ks)) (cut (D +p tk) 0 (tail vs)) cs).
Proof.
  intros Nc Wc. destruct keys_cut as (Ok & _ & Nk & _), vals_cut as (Ov & _ & Nv & _).
  set (keys := cut body 0 (tail ks)) in *. set (vals := cut (D +p tk) 0 (tail vs)) in *.
  destruct (mk_items_fields keys vals cs) as (Fk & Fv & Fc); [lia..|].
  apply Forall_lookup. intros i it Hi. set (its := mk_items keys vals cs) in *.
  assert (Gk : keys !! i = Some (ikey it)) by (by rewrite <- Fk, list_lookup_fmap, Hi).
  assert (Gv : vals !! i = Some (ival it)) by (by rewrite <- Fv, list_lookup_fmap, Hi).
  assert (Gc : cs !! i = Some (icount it)) by (by rewrite <- Fc, list_lookup_fmap, Hi).
  pose proof (lookup_lt_Some _ _ _ Gk).
  destruct (lookup_lt_is_Some_2 ks i) as [k Hk]; [lia|].
  destruct (lookup_lt_is_Some_2 ks (S i)) as [k' Hk']; [lia|].
  destruct (lookup_lt_is_Some_2 vs i) as [v Hv]; [lia|].
  destruct (lookup_lt_is_Some_2 vs (S i)) as [v' Hv']; [lia|].
  destruct (table_facts i k v k' v' Hk Hv Hk' Hv') as (_ & _ & TI & TL).
  split_and!.
  - eapply Forall_lookup_1; [|exact Gk]. by apply bytes_wf_cut.
  - eapply Forall_lookup_1; [|exact Gv]. by apply bytes_wf_cut, bytes_wf_drop, D_wf.
  - by eapply Forall_lookup_1; [|exact Gc].
  - intros HI. rewrite <- (TI HI). symmetry. eapply (offsets_from_diff 0 keys i); rewrite ?Ok; done.
  - intros HL. rewrite <- (TL HL). symmetry. eapply (offsets_from_diff 0 vals i); rewrite ?Ov; done.
Qed.

Lemma accepted_repr : exists its, node_repr (layout_node lvl flg ks vs body nData tk tv) its zeros.
Proof.
  destruct keys_cut as (Ok & Jk & Nk & Bk), vals_cut as (Ov & Jv & Nv & Bv).
  destruct counts_cut as (cs & Nc & Wc & Ec). pose proof D_length as HD.
  set (keys := cut body 0 (tail ks)) in *. set (vals := cut (D +p tk) 0 (tail vs)) in *.
  destruct (mk_items_fields keys vals cs) as (Fk & Fv & Fc); [lia..|].
  set (its := mk_items keys vals cs) in *.
  assert (Nits : zlen its = zlen ks - 1) by (rewrite <- (length_fmap ikey its), Fk; lia).
  assert (Eko : key_offs its = ks) by (unfold key_offs; by rewrite Fk).
  assert (Evo : val_offs its = vs) by (unfold val_offs; by rewrite Fv).
  assert (EK : keys_of its = take (Z.to_nat tk) body) by (unfold keys_of; by rewrite Fk).
  assert (EV : vals_of its = take (Z.to_nat tv) (D +p tk)) by (unfold vals_of; by rewrite Fv).
  assert (LK : zlen (keys_of its) = tk) by (rewrite EK, length_take; lia).
  assert (LV : zlen (vals_of its) = tv).
  { rewrite EV, length_take. pose proof (length_ptr_add D tk). destruct counted; lia. }
  assert (EB : body = keys_of its ++ body +p tk) by (rewrite EK; symmetry; apply take_drop).
  assert (EC : counts_of flg its = D +p (tk + tv)) by (unfold counts_of; by rewrite Fc, Ec).
  assert (ED : body +p tk ++ replicate zeros 0 = vals_of its ++ counts_of flg its).
  { rewrite EC, EV, <- ptr_add_add by lia. rewrite <- ptr_add_app_le by lia.
    symmetry. apply take_drop. }
  assert (Wits : Forall (item_wf lvl flg) its) by (by apply accepted_items_wf).
  exists its. split; cbn [level flags pValData layout_node].
  - constructor; try done.
    + apply (lo_kind _ _ _ _ _ _ _ _ Hok).
    + apply (lo_counts _ _ _ _ _ _ _ _ Hok).
    + intros E. rewrite E in Nits. simpl in Nits. lia.
    + lia.
    + rewrite encode_node_length, counts_length. fold counted.
      pose proof (lo_size _ _ _ _ _ _ _ _ Hok) as HS. fold counted in HS. destruct counted; lia.
  - unfold node_of, layout_node, layout_bytes. rewrite Eko, Evo, <- EB, Nits, LV.
    rewrite ptr_add_add by lia. do 2 f_equal. unfold zeros.
    pose proof (lo_phys _ _ _ _ _ _ _ _ Hok). unfold layout_bytes in *. lia.
  - done.
  - intros Hz. apply (lo_sparse _ _ _ _ _ _ _ _ Hok). unfold zeros in Hz. lia.
Qed.
End accepted.

Lemma layout_of_items lvl flg its vphys :
  layout_bytes lvl flg (key_offs its) (val_offs its) (keys_of its ++ vphys) =
    node_header lvl (zlen its) flg ++ enc_offs (key_offs its) ++ enc_offs (val_offs its) ++
    keys_of its ++ vphys.
Proof.
  unfold layout_bytes. do 2 f_equal. unfold key_offs. rewrite length_offsets_from, length_fmap. lia.
Qed.

Lemma offs_length its :
  zlen (key_offs its) = zlen its + 1 /\ zlen (val_offs its) = zlen its + 1.
Proof. unfold key_offs, val_offs. rewrite !length_offsets_from, !length_fmap. lia. Qed.

Lemma last_offs its :
  last (key_offs its) = Some (zlen (keys_of its)) /\
  last (val_offs its) = Some (zlen (vals_of its)).
Proof.
  destruct (offs_length its). rewrite !last_lookup.
  rewrite key_off_lookup, val_off_lookup by lia. by rewrite !take_ge by lia.
Qed.

Lemma offs_u32 lvl flg its :
  node_wf lvl flg its -> Forall is_u32 (key_offs its) /\ Forall is_u32 (val_offs its).
Proof.
  intros Hwf. pose proof (sizes_bound _ _ _ Hwf) as HB. destruct (offs_length its).
  split; apply Forall_lookup; intros i o Ho; pose proof (lookup_lt_Some _ _ _ Ho).
  - rewrite key_off_lookup in Ho by lia. apply Some_inj in Ho. subst o.
    pose proof (keys_take_le its i). unfold is_u32, INT_MAX in *. lia.
  - rewrite val_off_lookup in Ho by lia. apply Some_inj in Ho. subst o.
    pose proof (vals_take_le its i). unfold is_u32, INT_MAX in *. lia.
Qed.

Lemma check_at_items lvl flg its j :
  node_wf lvl flg its ->
  check_at lvl flg (zlen (keys_of its)) (zlen (vals_of its)) (key_offs its) (val_offs its) j.
Proof.
  intros Hwf k v Hk Hv. pose proof (lookup_lt_Some _ _ _ Hk). destruct (offs_length its).
  rewrite key_off_lookup in Hk by lia. rewrite val_off_lookup in Hv by lia.
  apply Some_inj in Hk, Hv. subst k v.
  split_and!; [apply keys_take_le|apply vals_take_le|by intros ->|].
  intros j' k' v' -> Hk' Hv'.
  rewrite key_off_lookup in Hk' by lia. rewrite val_off_lookup in Hv' by lia.
  apply Some_inj in Hk', Hv'. subst k' v'.
  destruct (lookup_lt_is_Some_2 its j') as [it Hit]; [lia|].
  rewrite (keys_take_S _ _ _ Hit), (vals_take_S _ _ _ Hit).
  destruct (Forall_lookup_1 _ _ _ _ (wf_items _ _ _ Hwf) Hit) as (_ & _ & _ & HI & HL).
  split_and!; [lia|lia|intros E; rewrite <- (HI E); lia|intros E; rewrite <- (HL E); lia].
Qed.

(** A chunk that stores a well-formed item list, its trailing zero bytes
    possibly left out. *)
Lemma parse_complete lvl flg its p zeros :
  node_wf lvl flg its -> p ++ replicate zeros 0 = encode_node lvl flg its ->
  ((0 < zeros)%nat -> lvl = 0 /\ Z.of_nat zeros <= zlen (vals_of its)) ->
  exists nd, prollyNodeParseSparse p (zlen p + Z.of_nat zeros) (zlen p) = Some (OK nd) /\
    node_repr nd its zeros /\ level nd = lvl /\ flags nd = flg /\ pData nd = p.
Proof.
  intros Hwf Hp Hz. destruct (offs_length its) as [Lk Lv], (last_offs its) as [Ak Av].
  destruct (offs_u32 _ _ _ Hwf) as [Uk Uv].
  assert (Hz' : Z.of_nat zeros <= zlen (vals_of its ++ counts_of flg its)).
  { rewrite length_app. destruct zeros; [lia|]. destruct Hz; lia. }
  set (vphys := take (length (vals_of its ++ counts_of flg its) - zeros)
                     (vals_of its ++ counts_of flg its)).
  assert (Ep : p = layout_bytes lvl flg (key_offs its) (val_offs its) (keys_of its ++ vphys) /\
               vphys ++ replicate zeros 0 = vals_of its ++ counts_of flg its).
  { unfold encode_node in Hp. rewrite layout_of_items.
    rewrite <- (take_drop (length (vals_of its ++ counts_of flg its) - zeros)
                  (vals_of its ++ counts_of flg its)) in Hp. fold vphys in Hp.
    rewrite !app_assoc in Hp. apply app_inj_2 in Hp as [-> ->].
    2: rewrite length_replicate, length_drop; lia.
    rewrite !app_assoc. split; [done|]. apply take_drop. }
  destruct Ep as [-> Ev]. pose proof (encode_node_length lvl flg its) as EL.
  assert (EP := f_equal length Hp). rewrite length_app, length_replicate in EP.
  pose proof (wf_nonempty _ _ _ Hwf) as Hne.
  assert (0 < zlen its) by (destruct its; [done|cbn [length]; lia]).
  pose proof (wf_max _ _ _ Hwf).
  set (nData := zlen _ + Z.of_nat zeros).
  destruct (parse_layout lvl flg (key_offs its) (val_offs its) (keys_of its ++ vphys) nData
    (zlen (keys_of its)) (zlen (vals_of its))) as [[-> Hok]|[_ Hno]]; try done; try lia;
    [apply (wf_level _ _ _ Hwf)|apply (wf_flags _ _ _ Hwf)| |exfalso; apply Hno].
  - eexists. split; [done|]. split; [|done]. split; [done| | |].
    + unfold layout_node, node_of. cbn [level flags pValData].
      rewrite layout_of_items, (ptr_add_app (keys_of its)) by done.
      unfold nData. rewrite layout_of_items.
      replace (zlen (key_offs its) - 1) with (zlen its) by lia.
      do 2 f_equal. rewrite <- ptr_add_add by lia. by rewrite ptr_add_app.
    + cbn [layout_node pValData flags]. by rewrite ptr_add_app.
    + intros H1. by apply Hz.
  - pose proof (counts_length flg its) as CL. constructor.
    + apply (wf_kind _ _ _ Hwf).
    + apply (wf_counts _ _ _ Hwf).
    + unfold nData. destruct (has_flag _ _); lia.
    + unfold nData. lia.
    + intros H1. unfold nData in H1. rewrite length_app. split; [apply Hz; lia|lia].
    + intros. by apply check_at_items.
Qed.

(** A parsed node without items: an empty leaf. *)
Definition empty_leaf (nd : ProllyNode) : Prop := nItems nd = 0 /\ level nd = 0.

Lemma parse_small p nData n :
  nData < 8 \/ n < 8 \/ nData < n -> prollyNodeParseSparse p nData n = Some (ERR SQLITE_CORRUPT).
Proof.
  intros H. unfold prollyNodeParseSparse, PROLLY_HDR_SIZE.
  replace (_ || _ || _) with true; [done|]. symmetry. rewrite !orb_true_iff, !Z.ltb_lt. lia.
Qed.

(** The rejections before the offset tables are looked at. *)
Lemma parse_header_cases magic lvl count flg rest nData :
  is_u32 magic -> is_byte lvl -> 0 <= count < 65536 -> is_byte flg ->
  let p := PROLLY_PUT_U32 magic ++ [lvl] ++ PROLLY_PUT_U16 count ++ [flg] ++ rest in
  zlen p <= nData ->
  prollyNodeParseSparse p nData (zlen p) = Some (ERR SQLITE_CORRUPT) \/
  (exists nd, prollyNodeParseSparse p nData (zlen p) = Some (OK nd) /\ empty_leaf nd /\ pData nd = p) \/
  (magic = PROLLY_NODE_MAGIC /\ 0 < count <= PROLLY_NODE_MAX_ITEMS /\ 8 * (count + 1) <= zlen rest).
Proof.
  intros Hm Hl Hc Hf p Hn.
  assert (Lp : zlen p = 8 + zlen rest) by
    (unfold p; cbn [length app PROLLY_PUT_U32 PROLLY_PUT_U16]; lia).
  assert (R1 : PROLLY_GET_U32 (p +p PROLLY_MAGIC_OFF) = Some magic).
  { exact (PROLLY_GET_PUT_U32 magic ([lvl] ++ PROLLY_PUT_U16 count ++ [flg] ++ rest) Hm). }
  assert (R2 : p !! Z.to_nat PROLLY_LEVEL_OFF = Some lvl) by done.
  assert (R3 : PROLLY_GET_U16 (p +p PROLLY_COUNT_OFF) = Some count).
  { exact (PROLLY_GET_PUT_U16 count (flg :: rest) Hc). }
  assert (R4 : p !! Z.to_nat PROLLY_FLAGS_OFF = Some flg) by done.
  unfold prollyNodeParseSparse, PROLLY_HDR_SIZE. rewrite R1, R2, R3, R4. cbn [read].
  rewrite !bindC_ret. cbn zeta. destruct (_ || _ || _); [auto|].
  destruct (Z.eqb_spec magic PROLLY_NODE_MAGIC) as [->|]; [|auto]. cbn [negb].
  destruct (Z.ltb_spec PROLLY_NODE_MAX_ITEMS count); [auto|].
  destruct (negb _ && negb _); [auto|]. destruct (_ && _); [auto|].
  destruct (Z.eqb_spec count 0) as [->|].
  - unfold is_byte in Hl. destruct (Z.ltb_spec 0 lvl); [auto|]. right. left. eexists.
    split; [done|]. split; [|done]. split; [done|]. cbn. lia.
  - destruct (Z.ltb_spec (zlen p) (8 + (count + 1) * 4 * 2)); [auto|].
    right. right. split; [done|]. lia.
Qed.

Lemma repr_encode nd its zeros :
  node_repr nd its zeros ->
  pData nd ++ replicate zeros 0 = encode_node (level nd) (flags nd) its /\
  nData nd = zlen (pData nd) + Z.of_nat zeros.
Proof.
  intros H. pose proof (repr_vals _ _ _ H) as Hv.
  pose proof (f_equal pData (repr_nd _ _ _ H)) as Ep. pose proof (f_equal nData (repr_nd _ _ _ H)) as En.
  cbn [pData nData node_of] in Ep, En. rewrite Ep at 1. rewrite En, Ep. split; [|done].
  unfold encode_node. rewrite <- Hv. by rewrite <- !app_assoc.
Qed.

Lemma parse_sound_cases p nData :
  bytes_wf p -> nData <= INT_MAX ->
  prollyNodeParseSparse p nData (zlen p) = Some (ERR SQLITE_CORRUPT) \/
  exists nd, prollyNodeParseSparse p nData (zlen p) = Some (OK nd) /\ pData nd = p /\
    (empty_leaf nd \/ exists its zeros, node_repr nd its zeros).
Proof.
  intros W Hmax. destruct (decide (8 <= zlen p <= nData)) as [Hs|Hs].
  2: { left. apply parse_small. lia. }
  destruct (header_view p W) as (magic & lvl & count & flg & rest & -> & Hm & Hl & Hc & Hf & Wr); [lia|].
  destruct (parse_header_cases magic lvl count flg rest nData) as [H|[(nd & H & ? & ?)|(-> & Hn & Hr)]];
    [done..|lia|by left|right; eauto|].
  destruct (enc_offs_view (Z.to_nat (count + 1)) rest) as (ks & r1 & -> & Lk & Uk & W1); [done|lia|].
  rewrite length_app, length_enc_offs in Hr.
  destruct (enc_offs_view (Z.to_nat (count + 1)) r1) as (vs & body & -> & Lv & Uv & Wb); [done|lia|].
  destruct (last ks) as [tk|] eqn:Ak; [|apply last_None in Ak; subst ks; simpl in Lk; lia].
  destruct (last vs) as [tv|] eqn:Av; [|apply last_None in Av; subst vs; simpl in Lv; lia].
  assert (Ep : PROLLY_PUT_U32 PROLLY_NODE_MAGIC ++ [lvl] ++ PROLLY_PUT_U16 count ++ [flg] ++
    enc_offs ks ++ enc_offs vs ++ body = layout_bytes lvl flg ks vs body).
  { unfold layout_bytes. replace (zlen ks - 1) with count by lia. done. }
  rewrite Ep. destruct (parse_layout lvl flg ks vs body nData tk tv) as [[-> Hok]|[-> _]];
    try done; try lia; [|by left].
  right. eexists. split; [done|]. split; [done|]. right.
  destruct (accepted_repr lvl flg ks vs body nData tk tv) as [its Hits]; try done; try lia. eauto.
Qed.

(** Executable well-formedness. *)
Definition item_wfb (lvl flg : Z) (it : item) : bool :=
  bytes_wfb (ikey it) && bytes_wfb (ival it) &&
  (0 <=? icount it) && (icount it <? 2 ^ 64) &&
  implb (has_flag flg PROLLY_NODE_INTKEY) (zlen (ikey it) =? 8) &&
  implb (0 <? lvl) (zlen (ival it) =? PROLLY_HASH_SIZE).

Definition node_wfb (lvl flg : Z) (its : list item) : bool :=
  (0 <=? lvl) && (lvl <? 256) && (0 <=? flg) && (flg <? 256) && key_kind_ok flg &&
  implb (has_flag flg PROLLY_NODE_SUBTREE_COUNTS) (0 <? lvl) &&
  (0 <? zlen its) && (zlen its <=? PROLLY_NODE_MAX_ITEMS) && forallb (item_wfb lvl flg) its &&
  (zlen (encode_node lvl flg its) <=? INT_MAX).

Lemma node_wfb_spec lvl flg its : node_wfb lvl flg its = true -> node_wf lvl flg its.
Proof.
  unfold node_wfb. rewrite !andb_true_iff, !Z.leb_le, !Z.ltb_lt.
  intros [[[[[[[[[? ?] ?] ?] ?] Hc] ?] ?] Hi] ?]. split; unfold is_byte; auto.
  - intros E. rewrite E in Hc. by apply Z.ltb_lt.
  - intros ->. simpl in *. lia.
  - rewrite forallb_forall in Hi. apply Forall_forall. intros it Hit.
    apply list_elem_of_In in Hit. specialize (Hi it Hit). unfold item_wfb in Hi.
    rewrite !andb_true_iff, Z.leb_le, Z.ltb_lt in Hi. destruct Hi as [[[[[Hk Hv] ?] ?] HI] HL].
    split_and!; [by apply bytes_wfb_spec..|done| |].
    + intros E. rewrite E in HI. by apply Z.eqb_eq.
    + intros E. apply Z.ltb_lt in E. rewrite E in HL. by apply Z.eqb_eq.
Qed.

(** * Properties *)

(** Parsing an arbitrary chunk of bytes never reads outside it and never
    overflows: the parser answers SQLITE_CORRUPT, or accepts the chunk as an
    empty leaf, or as exactly the encoding of a well-formed item list (its
    trailing zero bytes possibly elided). *)
Theorem node_parse_sound (p : list Z) (nData : Z) (Hbytes : bytes_wf p) (Hint : nData <= INT_MAX) :
  prollyNodeParseSparse p nData (zlen p) = Some (ERR SQLITE_CORRUPT) \/
  exists nd, prollyNodeParseSparse p nData (zlen p) = Some (OK nd) /\
    (empty_leaf nd \/
     exists its zeros, node_wf (level nd) (flags nd) its /\
       p ++ replicate zeros 0 = encode_node (level nd) (flags nd) its).
Proof.
  destruct (parse_sound_cases p nData Hbytes Hint) as [H|(nd & H & Hp & [He|(its & z & Hr)])];
    [by left|right; eauto..].
  exists nd. split; [done|]. right. exists its, z. destruct (repr_encode _ _ _ Hr) as [<- _].
  split; [apply (repr_wf _ _ _ Hr)|by rewrite Hp].
Qed.

Lemma node_parse_sound_witness :
  prollyNodeParseSparse [1; 2; 3; 4; 5; 6; 7; 8] 9 8 = Some (ERR SQLITE_CORRUPT) \/
  exists nd, prollyNodeParseSparse [1; 2; 3; 4; 5; 6; 7; 8] 9 8 = Some (OK nd) /\
    (empty_leaf nd \/
     exists its zeros, node_wf (level nd) (flags nd) its /\
       [1; 2; 3; 4; 5; 6; 7; 8] ++ replicate zeros 0 = encode_node (level nd) (flags nd) its).
Proof. apply (node_parse_sound [1; 2; 3; 4; 5; 6; 7; 8] 9); [by apply bytes_wfb_spec|done]. Defined.

(** Encoding a well-formed item list and parsing the chunk gives a node
    that represents those items; so does the sparse form of a leaf whose last
    value bytes are zeros that are not stored. *)
Theorem node_parse_encode (lvl flg : Z) (its : list item) (p : list Z) (zeros : nat)
    (Hwf : node_wf lvl flg its) (Henc : p ++ replicate zeros 0 = encode_node lvl flg its)
    (Hsparse : (0 < zeros)%nat -> lvl = 0 /\ Z.of_nat zeros <= zlen (vals_of its)) :
  exists nd, prollyNodeParseSparse p (zlen p + Z.of_nat zeros) (zlen p) = Some (OK nd) /\
    node_repr nd its zeros /\ level nd = lvl /\ flags nd = flg.
Proof.
  destruct (parse_complete lvl flg its p zeros) as (nd & ? & ? & ? & ? & _); eauto 6.
Qed.

(** A leaf of two blob-keyed items, the second value ending in three zeros. *)
Definition demo_items : list item := [Item [1] [10; 0] 0; Item [2; 3] [7; 0; 0; 0] 0].

Lemma node_parse_encode_witness :
  exists nd, prollyNodeParseSparse (take 38 (encode_node 0 2 demo_items)) 41 38 = Some (OK nd) /\
    node_repr nd demo_items 3 /\ level nd = 0 /\ flags nd = 2.
Proof.
  destruct (node_parse_encode 0 2 demo_items (take 38 (encode_node 0 2 demo_items)) 3)
    as (nd & H & ?); [by apply node_wfb_spec|done|done|].
  exists nd. split; [exact H|done].
Defined.

(** On a parsed node every accessor is defined at every index below
    [nItems] and returns the item stored there: the key, the value as a stored
    prefix completed by zeros, the integer key, the child hash and the child
    count. *)
Theorem node_accessors (p : list Z) (nData : Z) (nd : ProllyNode) (i : Z)
    (Hbytes : bytes_wf p) (Hint : nData <= INT_MAX)
    (Hparse : prollyNodeParseSparse p nData (zlen p) = Some (OK nd)) (Hi : 0 <= i < nItems nd) :
  exists its zeros it, node_repr nd its zeros /\ its !! Z.to_nat i = Some it /\
    (exists r, prollyNodeKey nd i = Some (ikey it ++ r, zlen (ikey it))) /\
    (exists q avail, prollyNodeValueSpan nd i = Some (q, zlen (ival it), avail) /\
       0 <= avail <= zlen q /\ avail <= zlen (ival it) /\
       ival it = take (Z.to_nat avail) q ++ replicate (Z.to_nat (zlen (ival it) - avail)) 0) /\
    (has_flag (flags nd) PROLLY_NODE_INTKEY = true ->
       exists v, is_i64 v /\ ikey it = prollyEncodeIntKey v /\ prollyNodeIntKey nd i = Some v) /\
    (0 < level nd -> prollyNodeChildHash nd i = Some (ival it)) /\
    (prollyNodeHasSubtreeCounts nd = true ->
       prollyNodeChildSubtreeCount nd i = Some (icount it)).
Proof.
  destruct (parse_sound_cases p nData Hbytes Hint) as [H|(nd' & H & Hp & [He|(its & z & Hr)])];
    [congruence|replace nd' with nd in He by congruence; destruct He; lia|].
  replace nd' with nd in Hr by congruence. rewrite (nd_nItems _ _ _ Hr) in Hi.
  destruct (lookup_lt_is_Some_2 its (Z.to_nat i)) as [it Hit]; [lia|].
  exists its, z, it. split_and!; [done|done| | | | |].
  - eexists. apply (node_key _ _ _ Hr); [lia|done].
  - apply (node_value_span _ _ _ Hr); [lia|done].
  - intros HI. destruct (read_intkey nd its z Hr HI i it) as (v & ? & ? & ? & _); [lia|done|eauto].
  - intros HL. apply (node_child_hash _ _ _ Hr); [done|lia|done].
  - intros HC. apply (node_child_count _ _ _ Hr); [done|lia|done].
Qed.

Lemma node_accessors_witness :
  exists nd, prollyNodeParseSparse (encode_node 0 2 demo_items) 41 41 = Some (OK nd) /\
  exists its zeros it, node_repr nd its zeros /\ its !! 1%nat = Some it /\
    exists r, prollyNodeKey nd 1 = Some (ikey it ++ r, zlen (ikey it)).
Proof.
  eexists. split; [reflexivity|].
  destruct (node_accessors (encode_node 0 2 demo_items) 41 _ 1
    ltac:(by apply bytes_wfb_spec) ltac:(done) eq_refl ltac:(done))
    as (its & zeros & it & H1 & H2 & H3 & _).
  exists its, zeros, it. done.
Defined.

(** The blob-key binary search on a node with strictly increasing keys
    returns: 0 with the index of the key; -1 with the index of the first larger
    key; 1 with the last index when every key is smaller. *)
Theorem node_search_blob (nd : ProllyNode) (its : list item) (zeros : nat) (pKey : list Z) (nKey : Z)
    (Hnd : node_repr nd its zeros) (Hsort : keys_sorted its)
    (Hbytes : bytes_wf pKey) (Hkey : key_arg pKey nKey) :
  exists idx res, prollyNodeSearchBlob nd pKey nKey = Some (idx, res) /\
    search_spec its (key_of pKey nKey) idx res.
Proof. by eapply search_blob_spec. Qed.

Lemma demo_node : exists nd, node_repr nd demo_items 0 /\ level nd = 0 /\ flags nd = 2.
Proof.
  destruct (parse_complete 0 2 demo_items (encode_node 0 2 demo_items) 0)
    as (nd & _ & H & Hl & Hf & _); [by apply node_wfb_spec|by rewrite app_nil_r|lia|eauto].
Qed.

Lemma node_search_blob_witness :
  exists nd idx res, prollyNodeSearchBlob nd [2] 1 = Some (idx, res) /\
    search_spec demo_items [2] idx res.
Proof.
  destruct demo_node as (nd & H & _).
  destruct (node_search_blob nd demo_items 0 [2] 1) as (idx & res & ? & ?);
    [done|by apply (bool_decide_unpack _)|by apply bytes_wfb_spec|by split|].
  exists nd, idx, res. done.
Defined.

(** The integer-key lower-bound search meets the same specification for the
    encoded key. *)
Theorem node_search_int (nd : ProllyNode) (its : list item) (zeros : nat) (v : Z)
    (Hnd : node_repr nd its zeros) (Hsort : keys_sorted its)
    (Hkind : has_flag (flags nd) PROLLY_NODE_INTKEY = true) (Hv : is_i64 v) :
  exists idx res, prollyNodeSearchInt nd v = Some (idx, res) /\
    search_spec its (prollyEncodeIntKey v) idx res.
Proof. by eapply search_int_spec. Qed.

Definition demo_int_items : list item :=
  [Item (prollyEncodeIntKey (-5)) [1] 0; Item (prollyEncodeIntKey 9) [2] 0].

Lemma demo_int_node : exists nd, node_repr nd demo_int_items 0 /\ level nd = 0 /\ flags nd = 1.
Proof.
  destruct (parse_complete 0 1 demo_int_items (encode_node 0 1 demo_int_items) 0)
    as (nd & _ & H & Hl & Hf & _); [by apply node_wfb_spec|by rewrite app_nil_r|lia|eauto].
Qed.

Lemma node_search_int_witness :
  exists nd idx res, prollyNodeSearchInt nd 9 = Some (idx, res) /\
    search_spec demo_int_items (prollyEncodeIntKey 9) idx res.
Proof.
  destruct demo_int_node as (nd & H & _ & Hf).
  destruct (node_search_int nd demo_int_items 0 9) as (idx & res & ? & ?);
    [done|by apply (bool_decide_unpack _)|by rewrite Hf|by split|].
  exists nd, idx, res. done.
Defined.
