(* ===== verification/Builder.v ===== *)
(** prolly_node.c, the writing half: ProllyNodeBuilder.  The heap buffers are
    modelled cell by cell, an uninitialised cell being [None]; capacities, the
    doubling growth, the allocation failures and the symbolic zero tail are the
    code's.  The theorems show that a builder represents the list of items
    added to it and that Finish writes exactly their encoding. *)
From S2P Require Import Prelude Buffer Encoding HashSet Node.

Record ProllyNodeBuilder := Builder {
  b_level : Z; b_flags : Z; b_nItems : Z; b_nKeyBytes : Z; b_nValBytes : Z; b_nAlloc : Z;
  b_aKeyOff : buffer Z; b_aValOff : buffer Z;
  b_pKeyBuf : buffer Z; b_nKeyBufAlloc : Z;
  b_pValBuf : buffer Z; b_nValBufAlloc : Z;
  b_nValZeroTail : Z;
  b_aSubtreeCount : buffer Z; b_nSubtreeCountAlloc : Z }.

(** Field updates. *)
Definition set_nItems v0 (b : ProllyNodeBuilder) : ProllyNodeBuilder :=
  Builder (b_level b) (b_flags b) v0 (b_nKeyBytes b) (b_nValBytes b) (b_nAlloc b) (b_aKeyOff b)
    (b_aValOff b) (b_pKeyBuf b) (b_nKeyBufAlloc b) (b_pValBuf b) (b_nValBufAlloc b)
    (b_nValZeroTail b) (b_aSubtreeCount b) (b_nSubtreeCountAlloc b).
Definition set_nKeyBytes v0 (b : ProllyNodeBuilder) : ProllyNodeBuilder :=
  Builder (b_level b) (b_flags b) (b_nItems b) v0 (b_nValBytes b) (b_nAlloc b) (b_aKeyOff b)
    (b_aValOff b) (b_pKeyBuf b) (b_nKeyBufAlloc b) (b_pValBuf b) (b_nValBufAlloc b)
    (b_nValZeroTail b) (b_aSubtreeCount b) (b_nSubtreeCountAlloc b).
Definition set_nValBytes v0 (b : ProllyNodeBuilder) : ProllyNodeBuilder :=
  Builder (b_level b) (b_flags b) (b_nItems b) (b_nKeyBytes b) v0 (b_nAlloc b) (b_aKeyOff b)
    (b_aValOff b) (b_pKeyBuf b) (b_nKeyBufAlloc b) (b_pValBuf b) (b_nValBufAlloc b)
    (b_nValZeroTail b) (b_aSubtreeCount b) (b_nSubtreeCountAlloc b).
Definition set_nAlloc v0 (b : ProllyNodeBuilder) : ProllyNodeBuilder :=
  Builder (b_level b) (b_flags b) (b_nItems b) (b_nKeyBytes b) (b_nValBytes b) v0 (b_aKeyOff b)
    (b_aValOff b) (b_pKeyBuf b) (b_nKeyBufAlloc b) (b_pValBuf b) (b_nValBufAlloc b)
    (b_nValZeroTail b) (b_aSubtreeCount b) (b_nSubtreeCountAlloc b).
Definition set_aKeyOff v0 (b : ProllyNodeBuilder) : ProllyNodeBuilder :=
  Builder (b_level b) (b_flags b) (b_nItems b) (b_nKeyBytes b) (b_nValBytes b) (b_nAlloc b) v0
    (b_aValOff b) (b_pKeyBuf b) (b_nKeyBufAlloc b) (b_pValBuf b) (b_nValBufAlloc b)
    (b_nValZeroTail b) (b_aSubtreeCount b) (b_nSubtreeCountAlloc b).
Definition set_aValOff v0 (b : ProllyNodeBuilder) : ProllyNodeBuilder :=
  Builder (b_level b) (b_flags b) (b_nItems b) (b_nKeyBytes b) (b_nValBytes b) (b_nAlloc b)
    (b_aKeyOff b) v0 (b_pKeyBuf b) (b_nKeyBufAlloc b) (b_pValBuf b) (b_nValBufAlloc b)
    (b_nValZeroTail b) (b_aSubtreeCount b) (b_nSubtreeCountAlloc b).
Definition set_KeyBuf v0 v1 (b : ProllyNodeBuilder) : ProllyNodeBuilder :=
  Builder (b_level b) (b_flags b) (b_nItems b) (b_nKeyBytes b) (b_nValBytes b) (b_nAlloc b)
    (b_aKeyOff b) (b_aValOff b) v0 v1 (b_pValBuf b) (b_nValBufAlloc b) (b_nValZeroTail b)
    (b_aSubtreeCount b) (b_nSubtreeCountAlloc b).
Definition set_ValBuf v0 v1 (b : ProllyNodeBuilder) : ProllyNodeBuilder :=
  Builder (b_level b) (b_flags b) (b_nItems b) (b_nKeyBytes b) (b_nValBytes b) (b_nAlloc b)
    (b_aKeyOff b) (b_aValOff b) (b_pKeyBuf b) (b_nKeyBufAlloc b) v0 v1 (b_nValZeroTail b)
    (b_aSubtreeCount b) (b_nSubtreeCountAlloc b).
Definition set_nValZeroTail v0 (b : ProllyNodeBuilder) : ProllyNodeBuilder :=
  Builder (b_level b) (b_flags b) (b_nItems b) (b_nKeyBytes b) (b_nValBytes b) (b_nAlloc b)
    (b_aKeyOff b) (b_aValOff b) (b_pKeyBuf b) (b_nKeyBufAlloc b) (b_pValBuf b) (b_nValBufAlloc b)
    v0 (b_aSubtreeCount b) (b_nSubtreeCountAlloc b).
Definition set_SubtreeCount v0 v1 (b : ProllyNodeBuilder) : ProllyNodeBuilder :=
  Builder (b_level b) (b_flags b) (b_nItems b) (b_nKeyBytes b) (b_nValBytes b) (b_nAlloc b)
    (b_aKeyOff b) (b_aValOff b) (b_pKeyBuf b) (b_nKeyBufAlloc b) (b_pValBuf b) (b_nValBufAlloc b)
    (b_nValZeroTail b) v0 v1.

Definition PROLLY_BUILDER_INIT_CAP : Z := 64.
Definition PROLLY_BUILDER_INIT_BUF : Z := 1024.

Definition prollyNodeBuilderInit (level flags : Z) : ProllyNodeBuilder :=
  Builder level flags 0 0 0 0 [] [] [] 0 [] 0 0 [] 0.

(** The doubling loop of the four growth functions: double, but jump to the
    limit when doubling would pass it. *)
Fixpoint grow_cap (fuel : nat) (nNew nNeeded lim : Z) : option Z :=
  match fuel with
  | O => None
  | S fuel =>
      if nNew <? nNeeded then
        if lim / 2 <? nNew then Some lim else grow_cap fuel (nNew * 2) nNeeded lim
      else Some nNew
  end.

Section builder.
(** sqlite3_malloc and sqlite3_realloc: whether the call at a site is granted
    so many bytes. *)
Variable malloc_ok : nat -> Z -> bool.

(** [sqlite3_realloc(p, (int)(n*size))]: a size that is not positive frees the
    block and returns NULL, a refused request leaves it alone; the flag tells
    whether the result is non-NULL.  A freed block has no cells left. *)
Definition realloc {A} (site : nat) (p : buffer A) (n size : Z) : bool * buffer A :=
  let bytes := i32 (n * size) in
  if bytes <=? 0 then (false, [])
  else if malloc_ok site bytes then (true, buf_resize n p)
  else (false, p).

Definition builderGrowOffsets (b : ProllyNodeBuilder) : option (Z * ProllyNodeBuilder) :=
  let nNeeded := b_nItems b + 2 in
  if INT_MAX / 4 <? nNeeded then Some (SQLITE_NOMEM, b)
  else if b_nAlloc b <? nNeeded then
    let? nNew := grow_cap 64 (if negb (b_nAlloc b =? 0) then b_nAlloc b * 2
                              else PROLLY_BUILDER_INIT_CAP) nNeeded (INT_MAX / 4) in
    if nNew <? nNeeded then Some (SQLITE_NOMEM, b)
    else
      let (ok, aNew) := realloc 0 (b_aKeyOff b) nNew 4 in
      let b := set_aKeyOff aNew b in
      if negb ok then Some (SQLITE_NOMEM, b)
      else
        let (ok, aNew) := realloc 1 (b_aValOff b) nNew 4 in
        let b := set_aValOff aNew b in
        if negb ok then Some (SQLITE_NOMEM, b)
        else Some (SQLITE_OK, set_nAlloc (i32 nNew) b)
  else Some (SQLITE_OK, b).

Definition builderGrowSubtreeCounts (b : ProllyNodeBuilder) : option (Z * ProllyNodeBuilder) :=
  let nNeeded := b_nItems b + 1 in
  if INT_MAX / 8 <? nNeeded then Some (SQLITE_NOMEM, b)
  else if b_nSubtreeCountAlloc b <? nNeeded then
    let? nNew := grow_cap 64 (if negb (b_nSubtreeCountAlloc b =? 0) then b_nSubtreeCountAlloc b * 2
                              else PROLLY_BUILDER_INIT_CAP) nNeeded (INT_MAX / 8) in
    if nNew <? nNeeded then Some (SQLITE_NOMEM, b)
    else
      let (ok, aNew) := realloc 2 (b_aSubtreeCount b) nNew 8 in
      if negb ok then Some (SQLITE_NOMEM, set_SubtreeCount aNew (b_nSubtreeCountAlloc b) b)
      else Some (SQLITE_OK, set_SubtreeCount aNew (i32 nNew) b)
  else Some (SQLITE_OK, b).

Definition builderGrowKeyBuf (b : ProllyNodeBuilder) (nAdd : Z) : option (Z * ProllyNodeBuilder) :=
  if nAdd <? 0 then Some (SQLITE_NOMEM, b)
  else
  let nNeeded := b_nKeyBytes b + nAdd in
  if INT_MAX <? nNeeded then Some (SQLITE_NOMEM, b)
  else if b_nKeyBufAlloc b <? nNeeded then
    let? nNew := grow_cap 64 (if negb (b_nKeyBufAlloc b =? 0) then b_nKeyBufAlloc b * 2
                              else PROLLY_BUILDER_INIT_BUF) nNeeded INT_MAX in
    if nNew <? nNeeded then Some (SQLITE_NOMEM, b)
    else
      let (ok, pNew) := realloc 3 (b_pKeyBuf b) nNew 1 in
      if negb ok then Some (SQLITE_NOMEM, set_KeyBuf pNew (b_nKeyBufAlloc b) b)
      else Some (SQLITE_OK, set_KeyBuf pNew (i32 nNew) b)
  else Some (SQLITE_OK, b).

Definition builderGrowValBuf (b : ProllyNodeBuilder) (nAdd : Z) : option (Z * ProllyNodeBuilder) :=
  if nAdd <? 0 then Some (SQLITE_NOMEM, b)
  else
  let nNeeded := b_nValBytes b + nAdd in
  if INT_MAX <? nNeeded then Some (SQLITE_NOMEM, b)
  else if b_nValBufAlloc b <? nNeeded then
    let? nNew := grow_cap 64 (if negb (b_nValBufAlloc b =? 0) then b_nValBufAlloc b * 2
                              else PROLLY_BUILDER_INIT_BUF) nNeeded INT_MAX in
    if nNew <? nNeeded then Some (SQLITE_NOMEM, b)
    else
      let nNew := if (1024 * 1024 <=? nAdd) && (nNeeded <? nNew) then nNeeded else nNew in
      let (ok, pNew) := realloc 4 (b_pValBuf b) nNew 1 in
      if negb ok then Some (SQLITE_NOMEM, set_ValBuf pNew (b_nValBufAlloc b) b)
      else Some (SQLITE_OK, set_ValBuf pNew (i32 nNew) b)
  else Some (SQLITE_OK, b).

Definition builderMaterializeZeroTail (b : ProllyNodeBuilder) : option (Z * ProllyNodeBuilder) :=
  let nTail := i32 (b_nValZeroTail b) in
  if nTail =? 0 then Some (SQLITE_OK, b)
  else
  let? nPhys := int (b_nValBytes b - nTail) in
  let? (rc, b) := builderGrowValBuf (set_nValBytes nPhys b) nTail in
  let? nVal := int (nPhys + nTail) in
  let b := set_nValBytes nVal b in
  if negb (rc =? SQLITE_OK) then Some (rc, b)
  else
    let? buf := buf_write (b_pValBuf b) nPhys (replicate (Z.to_nat nTail) 0) in
    Some (SQLITE_OK, set_nValZeroTail 0 (set_ValBuf buf (b_nValBufAlloc b) b)).

(** [if( b->nItems==0 ){ b->aKeyOff[0] = 0; b->aValOff[0] = 0; }] *)
Definition builderFirstOffsets (b : ProllyNodeBuilder) : option ProllyNodeBuilder :=
  if b_nItems b =? 0 then
    let? ko := buf_write (b_aKeyOff b) 0 [0] in
    let? vo := buf_write (b_aValOff b) 0 [0] in
    Some (set_aValOff vo (set_aKeyOff ko b))
  else Some b.

(** The key bytes and the key offset. *)
Definition builderPutKey (b : ProllyNodeBuilder) (pKey : list Z) (nKey : Z)
    : option ProllyNodeBuilder :=
  let? b :=
    (if 0 <? nKey then
       let? key := bytes_at pKey nKey in
       let? buf := buf_write (b_pKeyBuf b) (b_nKeyBytes b) key in
       let? nKeyBytes := int (b_nKeyBytes b + nKey) in
       Some (set_nKeyBytes nKeyBytes (set_KeyBuf buf (b_nKeyBufAlloc b) b))
     else Some b) in
  let? ko := buf_write (b_aKeyOff b) (b_nItems b + 1) [u32 (b_nKeyBytes b)] in
  Some (set_aKeyOff ko b).

(** The value bytes and the value offset. *)
Definition builderPutVal (b : ProllyNodeBuilder) (pVal : list Z) (nVal : Z)
    : option ProllyNodeBuilder :=
  let? b :=
    (if 0 <? nVal then
       let? v := bytes_at pVal nVal in
       let? buf := buf_write (b_pValBuf b) (b_nValBytes b) v in
       let? nValBytes := int (b_nValBytes b + nVal) in
       Some (set_nValBytes nValBytes (set_ValBuf buf (b_nValBufAlloc b) b))
     else Some b) in
  let? vo := buf_write (b_aValOff b) (b_nItems b + 1) [u32 (b_nValBytes b)] in
  Some (set_aValOff vo b).

(** [b->aSubtreeCount[b->nItems] = subtreeCount;] *)
Definition builderPutCount (b : ProllyNodeBuilder) (subtreeCount : Z) : option ProllyNodeBuilder :=
  let? sc := buf_write (b_aSubtreeCount b) (b_nItems b) [subtreeCount] in
  Some (set_SubtreeCount sc (b_nSubtreeCountAlloc b) b).

Definition builderAddCore (b : ProllyNodeBuilder) (pKey : list Z) (nKey : Z)
    (pVal : list Z) (nVal : Z) (subtreeCount : Z) (haveCount : bool)
    : option (Z * ProllyNodeBuilder) :=
  if PROLLY_NODE_MAX_ITEMS <=? b_nItems b then Some (SQLITE_FULL, b)
  else
  let@ b := builderMaterializeZeroTail b in
  let@ b := builderGrowOffsets b in
  let@ b := builderGrowKeyBuf b nKey in
  let@ b := builderGrowValBuf b nVal in
  let@ b := (if haveCount then builderGrowSubtreeCounts b else Some (SQLITE_OK, b)) in
  let? b := builderFirstOffsets b in
  let? b := builderPutKey b pKey nKey in
  let? b := builderPutVal b pVal nVal in
  let? b := (if haveCount then builderPutCount b subtreeCount else Some b) in
  Some (SQLITE_OK, set_nItems (b_nItems b + 1) b).

Definition prollyNodeBuilderAdd (b : ProllyNodeBuilder) (pKey : list Z) (nKey : Z)
    (pVal : list Z) (nVal : Z) : option (Z * ProllyNodeBuilder) :=
  builderAddCore b pKey nKey pVal nVal 0 false.

Definition prollyNodeBuilderAddWithCount (b : ProllyNodeBuilder) (pKey : list Z) (nKey : Z)
    (pVal : list Z) (nVal subtreeCount : Z) : option (Z * ProllyNodeBuilder) :=
  builderAddCore b pKey nKey pVal nVal subtreeCount true.

Definition prollyNodeBuilderAddZeroTail (b : ProllyNodeBuilder) (pKey : list Z) (nKey : Z)
    (pVal : list Z) (nValPrefix nZeroTail : Z) : option (Z * ProllyNodeBuilder) :=
  if nZeroTail <=? 0 then builderAddCore b pKey nKey pVal nValPrefix 0 false
  else if negb (b_level b =? 0) then None
  else if PROLLY_NODE_MAX_ITEMS <=? b_nItems b then Some (SQLITE_FULL, b)
  else if INT_MAX <? b_nValBytes b + nValPrefix + nZeroTail then Some (SQLITE_NOMEM, b)
  else
  let@ b := builderMaterializeZeroTail b in
  let@ b := builderGrowOffsets b in
  let@ b := builderGrowKeyBuf b nKey in
  let@ b := builderGrowValBuf b nValPrefix in
  let? b := builderFirstOffsets b in
  let? b := builderPutKey b pKey nKey in
  let? b :=
    (if 0 <? nValPrefix then
       let? v := bytes_at pVal nValPrefix in
       let? buf := buf_write (b_pValBuf b) (b_nValBytes b) v in
       Some (set_ValBuf buf (b_nValBufAlloc b) b)
     else Some b) in
  let? nAdd := int (nValPrefix + i32 nZeroTail) in
  let? nVal := int (b_nValBytes b + nAdd) in
  let b := set_nValZeroTail nZeroTail (set_nValBytes nVal b) in
  let? vo := buf_write (b_aValOff b) (b_nItems b + 1) [u32 (b_nValBytes b)] in
  Some (SQLITE_OK, set_nItems (b_nItems b + 1) (set_aValOff vo b)).

(** The buffer, its logical length and the zero tail left out of it. *)
Definition prollyNodeBuilderFinishSparse (b : ProllyNodeBuilder) : C (list Z * Z * Z) :=
  if b_nItems b =? 0 then
    if negb (b_level b =? 0) then err SQLITE_ERROR
    else if negb (b_nValZeroTail b =? 0) then ub
    else if negb (malloc_ok 5 PROLLY_HDR_SIZE) then err SQLITE_NOMEM
    else ret (node_header 0 0 (Z.land (b_flags b) (u8 (Z.lnot PROLLY_NODE_SUBTREE_COUNTS))),
              PROLLY_HDR_SIZE, 0)
  else
  let writeCounts :=
    (0 <? b_level b) && negb (zlen (b_aSubtreeCount b) =? 0) && (0 <? b_nItems b) in
  let flagsOut :=
    if writeCounts then Z.lor (b_flags b) PROLLY_NODE_SUBTREE_COUNTS
    else Z.land (b_flags b) (u8 (Z.lnot PROLLY_NODE_SUBTREE_COUNTS)) in
  let nOff := (b_nItems b + 1) * 4 in
  let! nTotal := read (int (PROLLY_HDR_SIZE + nOff * 2 + b_nKeyBytes b)) in
  let! nTotal := read (int (nTotal + b_nValBytes b)) in
  let! nTotal := read (if writeCounts then int (nTotal + b_nItems b * 8) else Some nTotal) in
  if negb ((b_nValZeroTail b =? 0) || negb writeCounts) then ub
  else
  let! nPhys := read (int (nTotal - i32 (b_nValZeroTail b))) in
  if negb (malloc_ok 6 nPhys) then err SQLITE_NOMEM
  else
  let! ko := read (buf_read (b_aKeyOff b) (b_nItems b + 1)) in
  let! vo := read (buf_read (b_aValOff b) (b_nItems b + 1)) in
  let! keys := read (if 0 <? b_nKeyBytes b then buf_read (b_pKeyBuf b) (b_nKeyBytes b) else Some []) in
  let! vals := read (if 0 <? b_nValBytes b
                     then buf_read (b_pValBuf b) (b_nValBytes b - i32 (b_nValZeroTail b))
                     else Some []) in
  let! counts := read (if writeCounts then buf_read (b_aSubtreeCount b) (b_nItems b) else Some []) in
  let pBuf := node_header (b_level b) (u16 (b_nItems b)) flagsOut ++ enc_offs ko ++ enc_offs vo ++
              keys ++ vals ++ enc_counts counts in
  if negb (zlen pBuf =? nPhys) then ub
  else ret (pBuf, nTotal, b_nValZeroTail b).

Definition prollyNodeBuilderFinish (b : ProllyNodeBuilder)
    : option (result (list Z * Z) * ProllyNodeBuilder) :=
  let? (rc, b) := builderMaterializeZeroTail b in
  if negb (rc =? SQLITE_OK) then Some (ERR rc, b)
  else
    let? r := prollyNodeBuilderFinishSparse b in
    match r with
    | ERR rc => Some (ERR rc, b)
    | OK (p, n, nZeroTail) => if negb (nZeroTail =? 0) then None else Some (OK (p, n), b)
    end.

Definition prollyNodeBuilderReset (b : ProllyNodeBuilder) : ProllyNodeBuilder :=
  set_nValZeroTail 0 (set_nValBytes 0 (set_nKeyBytes 0 (set_nItems 0 b))).

Definition prollyNodeBuilderFree (b : ProllyNodeBuilder) : ProllyNodeBuilder :=
  prollyNodeBuilderInit 0 0.

(** * Growth *)

Lemma grow_cap_spec fuel nNew nNeeded lim k :
  (k <= fuel)%nat -> nNeeded <= nNew * 2 ^ Z.of_nat k -> 0 < nNew ->
  nNeeded <= lim ->
  exists r, grow_cap (S fuel) nNew nNeeded lim = Some r /\ nNeeded <= r /\ 0 < r /\
    (r = nNew \/ r < 2 * nNeeded).
Proof.
  revert fuel nNew. induction k as [|k IH]; intros fuel nNew Hf Hn Hp Hl.
  - cbn [grow_cap]. change (2 ^ Z.of_nat 0) with 1 in Hn.
    destruct (Z.ltb_spec nNew nNeeded); [lia|]. eexists. split; [done|]. lia.
  - destruct fuel as [|fuel]; [lia|]. cbn [grow_cap].
    destruct (Z.ltb_spec nNew nNeeded); [|eexists; split; [done|]; lia].
    destruct (Z.ltb_spec (lim / 2) nNew) as [Hc|Hc].
    + exists lim. split; [done|]. split; [lia|]. split; [lia|]. right.
      pose proof (Z.mul_succ_div_gt lim 2). lia.
    + rewrite Nat2Z.inj_succ, Z.pow_succ_r in Hn by lia.
      destruct (IH fuel (nNew * 2)) as (r & E & ? & ? & ?); [lia|lia|lia|lia|].
      exists r. split; [exact E|]. lia.
Qed.

Lemma grow_cap_64 nNew nNeeded lim :
  0 < nNew -> nNeeded <= lim -> lim <= INT_MAX ->
  exists r, grow_cap 64 nNew nNeeded lim = Some r /\ nNeeded <= r /\ 0 < r /\
    (r = nNew \/ r < 2 * nNeeded).
Proof.
  intros Hp Hn Hl. apply (grow_cap_spec 63 nNew nNeeded lim 32); [lia| |done|done].
  unfold INT_MAX in Hl. change (2 ^ Z.of_nat 32) with 4294967296. lia.
Qed.

(** * The items a builder represents *)

(** The tables hold the items added so far; the last [b_nValZeroTail] value
    bytes are zeros that are not stored. *)
Record builder_repr (b : ProllyNodeBuilder) (its : list item) : Prop := {
  br_n : b_nItems b = zlen its;
  br_max : zlen its <= PROLLY_NODE_MAX_ITEMS;
  br_keyBytes : b_nKeyBytes b = zlen (keys_of its) /\ zlen (keys_of its) <= INT_MAX;
  br_valBytes : b_nValBytes b = zlen (vals_of its) /\ zlen (vals_of its) <= INT_MAX;
  br_keys : holds (b_pKeyBuf b) (keys_of its);
  br_vals : exists vphys, vals_of its = vphys ++ replicate (Z.to_nat (b_nValZeroTail b)) 0 /\
    holds (b_pValBuf b) vphys;
  br_tail : 0 <= b_nValZeroTail b /\ (0 < b_nValZeroTail b -> b_level b = 0);
  br_keyOff : its <> [] -> holds (b_aKeyOff b) (key_offs its);
  br_valOff : its <> [] -> holds (b_aValOff b) (val_offs its);
  br_alloc : 0 <= b_nAlloc b /\ b_nAlloc b <= zlen (b_aKeyOff b) /\ b_nAlloc b <= zlen (b_aValOff b);
  br_keyAlloc : b_nKeyBufAlloc b = zlen (b_pKeyBuf b);
  br_valAlloc : b_nValBufAlloc b = zlen (b_pValBuf b);
  br_cntAlloc : b_nSubtreeCountAlloc b = zlen (b_aSubtreeCount b);
  br_counts : 0 < b_level b -> holds (b_aSubtreeCount b) (icount <$> its) }.

Lemma realloc_spec {A} site (p : buffer A) n size :
  0 < n * size <= INT_MAX ->
  realloc site p n size =
    if malloc_ok site (n * size) then (true, buf_resize n p) else (false, p).
Proof.
  intros H. unfold realloc. rewrite i32_small by lia. by destruct (Z.leb_spec (n * size) 0); [lia|].
Qed.

Lemma grow_new alloc init nNeeded lim :
  0 <= alloc < nNeeded -> 0 < init -> nNeeded <= lim <= INT_MAX ->
  exists r, grow_cap 64 (if negb (alloc =? 0) then alloc * 2 else init) nNeeded lim = Some r /\
    nNeeded <= r <= Z.max init (2 * nNeeded - 1) /\ 0 < r.
Proof.
  intros Ha Hi Hl. set (n0 := if negb _ then _ else _).
  assert (0 < n0 /\ (n0 = init \/ n0 < 2 * nNeeded)).
  { unfold n0. destruct (Z.eqb_spec alloc 0); simpl; lia. }
  destruct (grow_cap_64 n0 nNeeded lim) as (r & -> & ? & ? & ?); [lia..|].
  exists r. split; [done|]. lia.
Qed.

(** Each growth function leaves the contents alone and, when it succeeds, makes
    room; the freeing branch of realloc is out of reach below 2^30 bytes. *)
Lemma growKeyBuf_spec b l nAdd :
  holds (b_pKeyBuf b) l -> b_nKeyBytes b = zlen l -> b_nKeyBufAlloc b = zlen (b_pKeyBuf b) ->
  0 <= nAdd -> zlen l + nAdd <= 2 ^ 30 ->
  exists rc buf, builderGrowKeyBuf b nAdd = Some (rc, set_KeyBuf buf (zlen buf) b) /\ holds buf l /\
    (rc = SQLITE_NOMEM \/ rc = SQLITE_OK /\ zlen l + nAdd <= zlen buf).
Proof.
  intros Hh Hk Ha Hn Hs. unfold builderGrowKeyBuf. rewrite Hk, Ha.
  assert (Eb : b = set_KeyBuf (b_pKeyBuf b) (zlen (b_pKeyBuf b)) b) by (rewrite <- Ha; by destruct b).
  destruct (Z.ltb_spec nAdd 0); [lia|].
  destruct (Z.ltb_spec INT_MAX (zlen l + nAdd)); [unfold INT_MAX in *; lia|].
  destruct (Z.ltb_spec (zlen (b_pKeyBuf b)) (zlen l + nAdd)).
  2: { exists SQLITE_OK, (b_pKeyBuf b). rewrite <- Eb. auto. }
  destruct (grow_new (zlen (b_pKeyBuf b)) PROLLY_BUILDER_INIT_BUF (zlen l + nAdd) INT_MAX)
    as (r & -> & Hr & Hp); [lia|done|lia|]. unfold PROLLY_BUILDER_INIT_BUF in Hr.
  destruct (Z.ltb_spec r (zlen l + nAdd)); [lia|].
  rewrite realloc_spec by (unfold INT_MAX; lia). rewrite i32_small by (unfold INT_MAX; lia).
  destruct (malloc_ok 3 (r * 1)); simpl.
  - destruct (holds_resize (b_pKeyBuf b) l r) as [Hh' Hl']; [done|lia|].
    exists SQLITE_OK, (buf_resize r (b_pKeyBuf b)). rewrite Hl'. auto with lia.
  - exists SQLITE_NOMEM, (b_pKeyBuf b). auto.
Qed.

Lemma growValBuf_spec b l nAdd :
  holds (b_pValBuf b) l -> b_nValBytes b = zlen l -> b_nValBufAlloc b = zlen (b_pValBuf b) ->
  0 <= nAdd -> zlen l + nAdd <= 2 ^ 30 ->
  exists rc buf, builderGrowValBuf b nAdd = Some (rc, set_ValBuf buf (zlen buf) b) /\ holds buf l /\
    (rc = SQLITE_NOMEM \/ rc = SQLITE_OK /\ zlen l + nAdd <= zlen buf).
Proof.
  intros Hh Hk Ha Hn Hs. unfold builderGrowValBuf. rewrite Hk, Ha.
  assert (Eb : b = set_ValBuf (b_pValBuf b) (zlen (b_pValBuf b)) b) by (rewrite <- Ha; by destruct b).
  destruct (Z.ltb_spec nAdd 0); [lia|].
  destruct (Z.ltb_spec INT_MAX (zlen l + nAdd)); [unfold INT_MAX in *; lia|].
  destruct (Z.ltb_spec (zlen (b_pValBuf b)) (zlen l + nAdd)).
  2: { exists SQLITE_OK, (b_pValBuf b). rewrite <- Eb. auto. }
  destruct (grow_new (zlen (b_pValBuf b)) PROLLY_BUILDER_INIT_BUF (zlen l + nAdd) INT_MAX)
    as (r & -> & Hr & Hp); [lia|done|lia|]. unfold PROLLY_BUILDER_INIT_BUF in Hr.
  destruct (Z.ltb_spec r (zlen l + nAdd)); [lia|]. cbn zeta.
  set (r' := if _ && _ then _ else _).
  assert (zlen l + nAdd <= r' <= r).
  { unfold r'. destruct (_ && _) eqn:E; [|lia]. rewrite andb_true_iff, Z.leb_le in E. lia. }
  rewrite realloc_spec by (unfold INT_MAX; lia). rewrite i32_small by (unfold INT_MAX; lia).
  destruct (malloc_ok 4 (r' * 1)); simpl.
  - destruct (holds_resize (b_pValBuf b) l r') as [Hh' Hl']; [done|lia|].
    exists SQLITE_OK, (buf_resize r' (b_pValBuf b)). rewrite Hl'. auto with lia.
  - exists SQLITE_NOMEM, (b_pValBuf b). auto.
Qed.

Lemma growOffsets_spec b its :
  builder_repr b its -> zlen its < PROLLY_NODE_MAX_ITEMS ->
  exists rc b', builderGrowOffsets b = Some (rc, b') /\ builder_repr b' its /\
    (exists ko vo n, b' = set_nAlloc n (set_aValOff vo (set_aKeyOff ko b))) /\
    (rc = SQLITE_NOMEM \/ rc = SQLITE_OK /\
      zlen its + 2 <= zlen (b_aKeyOff b') /\ zlen its + 2 <= zlen (b_aValOff b')).
Proof.
  intros Hb Hm. unfold builderGrowOffsets. rewrite (br_n _ _ Hb). unfold PROLLY_NODE_MAX_ITEMS in Hm.
  destruct (br_alloc _ _ Hb) as (A0 & Ak & Av). destruct (offs_length its) as [Lk Lv].
  assert (Eb : b = set_nAlloc (b_nAlloc b) (set_aValOff (b_aValOff b) (set_aKeyOff (b_aKeyOff b) b)))
    by (by destruct b).
  change (INT_MAX / 4) with 536870911. destruct (Z.ltb_spec 536870911 (zlen its + 2)); [lia|].
  destruct (Z.ltb_spec (b_nAlloc b) (zlen its + 2)).
  2: { exists SQLITE_OK, b. split; [done|]. split; [done|]. split; [eauto|]. right. split; [done|]. lia. }
  destruct (grow_new (b_nAlloc b) PROLLY_BUILDER_INIT_CAP (zlen its + 2) 536870911)
    as (r & -> & Hr & Hp); [lia|done|unfold INT_MAX; lia|]. unfold PROLLY_BUILDER_INIT_CAP in Hr.
  destruct (Z.ltb_spec r (zlen its + 2)); [lia|].
  rewrite realloc_spec by (unfold INT_MAX; lia).
  assert (Hk : zlen (buf_resize r (b_aKeyOff b)) = r) by (unfold buf_resize; rewrite length_resize; lia).
  assert (Hv : zlen (buf_resize r (b_aValOff b)) = r) by (unfold buf_resize; rewrite length_resize; lia).
  assert (Gk : its <> [] -> holds (buf_resize r (b_aKeyOff b)) (key_offs its)).
  { intros Hne. apply holds_resize; [by apply (br_keyOff _ _ Hb)|lia]. }
  assert (Gv : its <> [] -> holds (buf_resize r (b_aValOff b)) (val_offs its)).
  { intros Hne. apply holds_resize; [by apply (br_valOff _ _ Hb)|lia]. }
  destruct (malloc_ok 0 (r * 4)); cbn [negb].
  - cbn [b_aValOff set_aKeyOff]. rewrite realloc_spec by (unfold INT_MAX; lia).
    rewrite i32_small by (unfold INT_MAX; lia).
    destruct (malloc_ok 1 (r * 4)); cbn [negb]; eexists _, _; (split; [done|]).
    + split; [destruct Hb; split; simpl; try done; lia|]. split; [by eexists _, _, _|].
      right. split; [done|]. simpl. lia.
    + split; [destruct Hb; split; simpl; try done; lia|].
      split; [by exists (buf_resize r (b_aKeyOff b)), (b_aValOff b), (b_nAlloc b); destruct b|by left].
  - exists SQLITE_NOMEM, b. split; [by destruct b|]. split; [done|]. split; [eauto|by left].
Qed.

Lemma growSubtreeCounts_spec b l :
  holds (b_aSubtreeCount b) l -> b_nItems b = zlen l -> zlen l < PROLLY_NODE_MAX_ITEMS ->
  b_nSubtreeCountAlloc b = zlen (b_aSubtreeCount b) ->
  exists rc buf, builderGrowSubtreeCounts b = Some (rc, set_SubtreeCount buf (zlen buf) b) /\
    holds buf l /\ (rc = SQLITE_NOMEM \/ rc = SQLITE_OK /\ zlen l + 1 <= zlen buf).
Proof.
  intros Hh Hk Hm Ha. unfold builderGrowSubtreeCounts. rewrite Hk, Ha. unfold PROLLY_NODE_MAX_ITEMS in Hm.
  assert (Eb : b = set_SubtreeCount (b_aSubtreeCount b) (zlen (b_aSubtreeCount b)) b)
    by (rewrite <- Ha; by destruct b).
  change (INT_MAX / 8) with 268435455. destruct (Z.ltb_spec 268435455 (zlen l + 1)); [lia|].
  destruct (Z.ltb_spec (zlen (b_aSubtreeCount b)) (zlen l + 1)).
  2: { exists SQLITE_OK, (b_aSubtreeCount b). rewrite <- Eb. auto. }
  destruct (grow_new (zlen (b_aSubtreeCount b)) PROLLY_BUILDER_INIT_CAP (zlen l + 1) 268435455)
    as (r & -> & Hr & Hp); [lia|done|unfold INT_MAX; lia|]. unfold PROLLY_BUILDER_INIT_CAP in Hr.
  destruct (Z.ltb_spec r (zlen l + 1)); [lia|].
  rewrite realloc_spec by (unfold INT_MAX; lia). rewrite i32_small by (unfold INT_MAX; lia).
  destruct (malloc_ok 2 (r * 8)); simpl.
  - destruct (holds_resize (b_aSubtreeCount b) l r) as [Hh' Hl']; [done|lia|].
    exists SQLITE_OK, (buf_resize r (b_aSubtreeCount b)). rewrite Hl'. auto with lia.
  - exists SQLITE_NOMEM, (b_aSubtreeCount b). auto.
Qed.

Lemma materialize_spec b its :
  builder_repr b its -> zlen (vals_of its) <= 2 ^ 30 ->
  exists rc b', builderMaterializeZeroTail b = Some (rc, b') /\ builder_repr b' its /\
    (exists buf n zt, b' = set_nValZeroTail zt (set_ValBuf buf n b)) /\
    (rc = SQLITE_NOMEM \/ rc = SQLITE_OK /\ b_nValZeroTail b' = 0).
Proof.
  intros Hb Hs. destruct (br_vals _ _ Hb) as (vphys & Hv & Hh). destruct (br_valBytes _ _ Hb) as [Hn _].
  destruct (br_tail _ _ Hb) as [Ht _]. assert (HL := f_equal length Hv).
  rewrite length_app, length_replicate in HL. unfold builderMaterializeZeroTail.
  assert (Eb : b = set_nValZeroTail (b_nValZeroTail b) (set_ValBuf (b_pValBuf b) (b_nValBufAlloc b) b))
    by (by destruct b).
  rewrite i32_small by (unfold INT_MAX; lia).
  destruct (Z.eqb_spec (b_nValZeroTail b) 0) as [E|E].
  { exists SQLITE_OK, b. split; [done|]. split; [done|]. split; [eauto|auto]. }
  rewrite int_in_range by (unfold INT_MAX; lia).
  destruct (growValBuf_spec (set_nValBytes (b_nValBytes b - b_nValZeroTail b) b) vphys (b_nValZeroTail b))
    as (rc & buf & -> & Hh' & Hrc); [done|simpl; lia|apply (br_valAlloc _ _ Hb)|lia|lia|].
  rewrite int_in_range by (unfold INT_MAX; lia). cbn zeta.
  replace (b_nValBytes b - b_nValZeroTail b + b_nValZeroTail b) with (b_nValBytes b) by lia.
  destruct Hrc as [->|[-> Hroom]]; cbn [Z.eqb negb].
  - exists SQLITE_NOMEM, (set_ValBuf buf (zlen buf) b). split; [by destruct b|].
    split; [|split; [|by left]].
    + destruct Hb. split; simpl; try done. eauto.
    + exists buf, (zlen buf), (b_nValZeroTail b). by destruct b.
  - destruct (holds_write buf vphys (replicate (Z.to_nat (b_nValZeroTail b)) 0)) as (buf' & Ew & Hw & Lw);
      [done|rewrite length_replicate; lia|].
    cbn [b_pValBuf set_nValBytes set_ValBuf]. cbn [SQLITE_OK Z.eqb negb].
    replace (b_nValBytes b - b_nValZeroTail b) with (zlen vphys) by lia. rewrite Ew.
    eexists _, _. split; [done|]. split; [|split].
    + destruct Hb. split; simpl; try done; try lia.
      exists (vals_of its). rewrite app_nil_r. rewrite Hv. done.
    + exists buf', (zlen buf), 0. by destruct b.
    + right. done.
Qed.

Lemma keys_of_snoc its it : keys_of (its ++ [it]) = keys_of its ++ ikey it.
Proof. unfold keys_of. rewrite fmap_app, join_app. cbn. by rewrite app_nil_r. Qed.

Lemma vals_of_snoc its it : vals_of (its ++ [it]) = vals_of its ++ ival it.
Proof. unfold vals_of. rewrite fmap_app, join_app. cbn. by rewrite app_nil_r. Qed.

Lemma key_offs_snoc its it :
  key_offs (its ++ [it]) = key_offs its ++ [zlen (keys_of (its ++ [it]))].
Proof.
  unfold key_offs, keys_of. rewrite fmap_app. apply (offsets_from_snoc 0 (ikey <$> its) (ikey it)).
Qed.

Lemma val_offs_snoc its it :
  val_offs (its ++ [it]) = val_offs its ++ [zlen (vals_of (its ++ [it]))].
Proof.
  unfold val_offs, vals_of. rewrite fmap_app. apply (offsets_from_snoc 0 (ival <$> its) (ival it)).
Qed.

(** A builder with room for one more item of the given sizes. *)
Record ready (b : ProllyNodeBuilder) (its : list item) (nKey nVal : Z) : Prop := {
  rd_repr : builder_repr b its;
  rd_tail : b_nValZeroTail b = 0;
  rd_keyOff : zlen its + 2 <= zlen (b_aKeyOff b);
  rd_valOff : zlen its + 2 <= zlen (b_aValOff b);
  rd_keys : zlen (keys_of its) + nKey <= zlen (b_pKeyBuf b);
  rd_vals : zlen (vals_of its) + nVal <= zlen (b_pValBuf b) }.

Definition same_node (b b' : ProllyNodeBuilder) : Prop :=
  b_level b' = b_level b /\ b_flags b' = b_flags b.

Lemma prepare_spec b its nKey nVal (k : ProllyNodeBuilder -> option (Z * ProllyNodeBuilder)) :
  builder_repr b its -> zlen its < PROLLY_NODE_MAX_ITEMS -> 0 <= nKey -> 0 <= nVal ->
  zlen (keys_of its) + nKey <= 2 ^ 30 -> zlen (vals_of its) + nVal <= 2 ^ 30 ->
  exists b', builder_repr b' its /\ same_node b b' /\
    let m := (let@ b := builderMaterializeZeroTail b in
              let@ b := builderGrowOffsets b in
              let@ b := builderGrowKeyBuf b nKey in
              let@ b := builderGrowValBuf b nVal in k b) in
    (m = Some (SQLITE_NOMEM, b') \/ m = k b' /\ ready b' its nKey nVal).
Proof.
  intros Hb Hm Hk Hv Sk Sv.
  destruct (materialize_spec b its) as (rc & b1 & -> & Hb1 & (? & ? & ? & E1) & [->|[-> Ht]]);
    [done|lia|exists b1; split; [done|split; [by rewrite E1|by left]]|].
  destruct (growOffsets_spec b1 its) as (rc & b2 & E & Hb2 & (? & ? & ? & E2) & [->|(-> & Ro1 & Ro2)]);
    [done|done|exists b2; cbn [bind_rc Z.eqb SQLITE_OK]; rewrite E;
      split; [done|split; [by rewrite E2, E1|by left]]|].
  cbn [bind_rc Z.eqb SQLITE_OK]. rewrite E. cbn [bind_rc Z.eqb SQLITE_OK].
  assert (Ht2 : b_nValZeroTail b2 = 0) by (by rewrite E2).
  destruct (growKeyBuf_spec b2 (keys_of its) nKey) as (rc & buf & -> & Hh & Hrc);
    [apply (br_keys _ _ Hb2)|apply (br_keyBytes _ _ Hb2)|apply (br_keyAlloc _ _ Hb2)|lia|lia|].
  set (b3 := set_KeyBuf buf (zlen buf) b2).
  assert (Hb3 : builder_repr b3 its) by (destruct Hb2; split; done).
  destruct Hrc as [->|[-> Rk]]; [exists b3; split; [done|split; [by subst b3; rewrite E2, E1|by left]]|]. cbn [bind_rc Z.eqb SQLITE_OK].
  destruct (br_vals _ _ Hb3) as (vphys & Ev & Hvh).
  change (b_nValZeroTail b3) with (b_nValZeroTail b2) in Ev.
  rewrite Ht2, app_nil_r in Ev. subst vphys.
  destruct (growValBuf_spec b3 (vals_of its) nVal) as (rc & vbuf & -> & Hvh' & Hrc);
    [done|apply (br_valBytes _ _ Hb3)|apply (br_valAlloc _ _ Hb3)|lia|lia|].
  set (b4 := set_ValBuf vbuf (zlen vbuf) b3).
  assert (Hb4 : builder_repr b4 its).
  { destruct Hb3; split; try done. exists (vals_of its).
    change (b_nValZeroTail b4) with (b_nValZeroTail b2). rewrite Ht2, app_nil_r. done. }
  exists b4. split; [done|]. split; [by subst b4 b3; rewrite E2, E1|].
  destruct Hrc as [->|[-> Rv]]; [by left|]. right. split; [done|]. by split.
Qed.

(** The stores of one item, in the order of the code. *)
Lemma firstOffsets_spec b its nKey nVal :
  ready b its nKey nVal ->
  exists b', builderFirstOffsets b = Some b' /\ ready b' its nKey nVal /\ same_node b b' /\
    holds (b_aKeyOff b') (key_offs its) /\ holds (b_aValOff b') (val_offs its) /\
    b_aSubtreeCount b' = b_aSubtreeCount b.
Proof.
  intros Hr. pose proof (rd_repr _ _ _ _ Hr) as Hb. unfold builderFirstOffsets. rewrite (br_n _ _ Hb).
  destruct (Z.eqb_spec (zlen its) 0) as [E|E].
  - destruct its; [|cbn in E; lia].
    destruct (holds_write (b_aKeyOff b) [] [0]) as (ko & Ek & Hk & Lk);
      [apply holds_nil|pose proof (rd_keyOff _ _ _ _ Hr); cbn in *; lia|].
    destruct (holds_write (b_aValOff b) [] [0]) as (vo & Ev & Hv & Lv);
      [apply holds_nil|pose proof (rd_valOff _ _ _ _ Hr); cbn in *; lia|].
    change (zlen []) with 0 in Ek, Ev. rewrite Ek, Ev. eexists. split; [done|].
    split_and!; try done. destruct Hr. split; simpl; try done; try lia.
    destruct Hb. split; simpl; try done; lia.
  - exists b. assert (its <> []) by (by intros ->). split_and!; try done.
    + by apply (br_keyOff _ _ Hb).
    + by apply (br_valOff _ _ Hb).
Qed.

Lemma putKey_spec b its nVal pKey nKey :
  ready b its nKey nVal -> holds (b_aKeyOff b) (key_offs its) -> key_arg pKey nKey ->
  zlen (keys_of its) + nKey <= 2 ^ 30 ->
  exists kbuf ko,
    builderPutKey b pKey nKey =
      Some (set_aKeyOff ko (set_nKeyBytes (zlen (keys_of its) + nKey)
             (set_KeyBuf kbuf (zlen kbuf) b))) /\
    holds kbuf (keys_of its ++ key_of pKey nKey) /\
    holds ko (key_offs its ++ [zlen (keys_of its) + nKey]) /\ zlen ko = zlen (b_aKeyOff b).
Proof.
  intros Hr Hko [Hk Hk'] Hs. pose proof (rd_repr _ _ _ _ Hr) as Hb. unfold builderPutKey.
  destruct (br_keyBytes _ _ Hb) as [En _]. destruct (offs_length its) as [Lo _].
  destruct (holds_write (b_aKeyOff b) (key_offs its) [zlen (keys_of its) + nKey]) as (ko & Eo & Ho & Lko);
    [done|pose proof (rd_keyOff _ _ _ _ Hr); cbn [length]; lia|]. rewrite Lo in Eo.
  destruct (Z.ltb_spec 0 nKey).
  - rewrite bytes_at_Some by lia. fold (key_of pKey nKey).
    pose proof (key_of_length pKey nKey ltac:(by split)) as LK.
    destruct (holds_write (b_pKeyBuf b) (keys_of its) (key_of pKey nKey)) as (kbuf & Ek & Hkb & Lkb);
      [apply (br_keys _ _ Hb)|pose proof (rd_keys _ _ _ _ Hr); lia|].
    rewrite En, Ek, int_in_range by (unfold INT_MAX; lia).
    cbn [b_aKeyOff b_nItems b_nKeyBytes set_nKeyBytes set_KeyBuf].
    rewrite (br_n _ _ Hb), u32_small, Eo by (unfold is_u32; lia).
    exists kbuf, ko. rewrite (br_keyAlloc _ _ Hb), <- Lkb. done.
  - assert (nKey = 0) as -> by lia. rewrite En, u32_small by (unfold is_u32; lia).
    rewrite Z.add_0_r in *. rewrite (br_n _ _ Hb), Eo. exists (b_pKeyBuf b), ko.
    unfold key_of. rewrite app_nil_r. split; [|split; [apply (br_keys _ _ Hb)|done]].
    rewrite <- En, <- (br_keyAlloc _ _ Hb). by destruct b.
Qed.

(** The represented list after one more item. *)
Lemma repr_snoc b b' its it nk nv kbuf ko vbuf vo cnt zt vphys :
  builder_repr b its -> zlen its < PROLLY_NODE_MAX_ITEMS ->
  nk = zlen (ikey it) -> nv = zlen (ival it) ->
  zlen (keys_of its) + nk <= INT_MAX -> zlen (vals_of its) + nv <= INT_MAX ->
  holds kbuf (keys_of its ++ ikey it) ->
  holds ko (key_offs its ++ [zlen (keys_of its) + nk]) ->
  holds vo (val_offs its ++ [zlen (vals_of its) + nv]) ->
  zlen ko = zlen (b_aKeyOff b) -> zlen vo = zlen (b_aValOff b) ->
  vals_of its ++ ival it = vphys ++ replicate (Z.to_nat zt) 0 -> holds vbuf vphys ->
  0 <= zt -> (0 < zt -> b_level b = 0) ->
  (0 < b_level b -> holds cnt ((icount <$> its) ++ [icount it])) ->
  b' = Builder (b_level b) (b_flags b) (zlen its + 1) (zlen (keys_of its) + nk)
         (zlen (vals_of its) + nv) (b_nAlloc b) ko vo kbuf (zlen kbuf) vbuf (zlen vbuf)
         zt cnt (zlen cnt) ->
  builder_repr b' (its ++ [it]).
Proof.
  intros Hb Hm -> -> Sk Sv Hkb Hko Hvo Lko Lvo Hv Hvb Hz Hzl Hc ->.
  destruct (br_alloc _ _ Hb) as (? & ? & ?).
  split; cbn [b_level b_flags b_nItems b_nKeyBytes b_nValBytes b_nAlloc b_aKeyOff b_aValOff b_pKeyBuf
    b_nKeyBufAlloc b_pValBuf b_nValBufAlloc b_nValZeroTail b_aSubtreeCount b_nSubtreeCountAlloc];
    rewrite ?keys_of_snoc, ?vals_of_snoc, ?key_offs_snoc, ?val_offs_snoc, ?keys_of_snoc, ?vals_of_snoc,
      ?length_app; cbn [length]; try done; try lia.
  - eauto.
  - intros _. by rewrite Nat2Z.inj_add.
  - intros _. by rewrite Nat2Z.inj_add.
  - by rewrite fmap_app.
Qed.

(** The outcome of an addition: the item is appended, or an allocation failed
    and nothing is lost, or the node is full. *)
Definition added (b : ProllyNodeBuilder) (its : list item) (it : item)
    (r : option (Z * ProllyNodeBuilder)) : Prop :=
  exists rc b', r = Some (rc, b') /\ same_node b b' /\
    ((rc = SQLITE_OK /\ builder_repr b' (its ++ [it])) \/
     (rc = SQLITE_NOMEM /\ builder_repr b' its) \/
     (rc = SQLITE_FULL /\ zlen its = PROLLY_NODE_MAX_ITEMS /\ b' = b)).

Lemma growCountsIf_spec b its :
  builder_repr b its -> zlen its < PROLLY_NODE_MAX_ITEMS ->
  exists rc cbuf,
    (if 0 <? b_level b then builderGrowSubtreeCounts b else Some (SQLITE_OK, b)) =
      Some (rc, set_SubtreeCount cbuf (zlen cbuf) b) /\
    (0 < b_level b -> holds cbuf (icount <$> its)) /\
    (rc = SQLITE_NOMEM \/ rc = SQLITE_OK /\ (0 < b_level b -> zlen its + 1 <= zlen cbuf)).
Proof.
  intros Hb Hm. destruct (Z.ltb_spec 0 (b_level b)).
  - destruct (growSubtreeCounts_spec b (icount <$> its)) as (rc & cbuf & -> & ? & Hrc);
      rewrite ?length_fmap; [by apply (br_counts _ _ Hb)|apply (br_n _ _ Hb)|done|apply (br_cntAlloc _ _ Hb)|].
    rewrite length_fmap in Hrc. exists rc, cbuf. split; [done|]. split; [done|].
    destruct Hrc as [->|[-> ?]]; auto.
  - exists SQLITE_OK, (b_aSubtreeCount b). rewrite <- (br_cntAlloc _ _ Hb).
    split; [by destruct b|]. split; [lia|]. right. split; [done|]. lia.
Qed.

Lemma putVal_spec b its pVal nVal :
  b_nItems b = zlen its -> b_nValBytes b = zlen (vals_of its) ->
  b_nValBufAlloc b = zlen (b_pValBuf b) -> holds (b_pValBuf b) (vals_of its) ->
  holds (b_aValOff b) (val_offs its) -> zlen its + 2 <= zlen (b_aValOff b) ->
  zlen (vals_of its) + nVal <= zlen (b_pValBuf b) -> key_arg pVal nVal ->
  zlen (vals_of its) + nVal <= 2 ^ 30 ->
  exists vbuf vo,
    builderPutVal b pVal nVal =
      Some (set_aValOff vo (set_nValBytes (zlen (vals_of its) + nVal)
             (set_ValBuf vbuf (zlen vbuf) b))) /\
    holds vbuf (vals_of its ++ key_of pVal nVal) /\
    holds vo (val_offs its ++ [zlen (vals_of its) + nVal]) /\ zlen vo = zlen (b_aValOff b).
Proof.
  intros En Eb Ea Hh Hvo Ro Rv Hv Hs. unfold builderPutVal. destruct (offs_length its) as [_ Lo].
  destruct (holds_write (b_aValOff b) (val_offs its) [zlen (vals_of its) + nVal]) as (vo & Eo & Ho & Lvo);
    [done|cbn [length]; lia|]. rewrite Lo in Eo.
  pose proof (key_of_length pVal nVal Hv) as LV. destruct Hv as [Hv _].
  destruct (Z.ltb_spec 0 nVal).
  - rewrite bytes_at_Some by lia. fold (key_of pVal nVal).
    destruct (holds_write (b_pValBuf b) (vals_of its) (key_of pVal nVal)) as (vbuf & Ev & Hvb & Lvb);
      [done|lia|].
    rewrite Eb, Ev, int_in_range by (unfold INT_MAX; lia).
    cbn [b_aValOff b_nItems b_nValBytes set_nValBytes set_ValBuf].
    rewrite En, u32_small, Eo by (unfold is_u32; lia). exists vbuf, vo. rewrite Ea, <- Lvb. done.
  - assert (nVal = 0) as -> by lia. rewrite Eb, u32_small by (unfold is_u32; lia).
    rewrite Z.add_0_r in *. rewrite En, Eo. exists (b_pValBuf b), vo.
    unfold key_of. rewrite app_nil_r. split; [|done].
    rewrite <- Eb, <- Ea. by destruct b.
Qed.

Lemma putCountIf_spec b its count :
  b_nItems b = zlen its -> b_nSubtreeCountAlloc b = zlen (b_aSubtreeCount b) ->
  (0 < b_level b -> holds (b_aSubtreeCount b) (icount <$> its)) ->
  (0 < b_level b -> zlen its + 1 <= zlen (b_aSubtreeCount b)) ->
  exists cbuf,
    (if 0 <? b_level b then builderPutCount b count else Some b) =
      Some (set_SubtreeCount cbuf (zlen cbuf) b) /\
    (0 < b_level b -> holds cbuf ((icount <$> its) ++ [count])).
Proof.
  intros En Ea Hh Hr. destruct (Z.ltb_spec 0 (b_level b)).
  - unfold builderPutCount.
    destruct (holds_write (b_aSubtreeCount b) (icount <$> its) [count]) as (cbuf & Ew & ? & Lw);
      [auto|rewrite length_fmap; cbn [length]; auto|].
    rewrite length_fmap in Ew. rewrite En, Ew, Ea, <- Lw. eauto.
  - exists (b_aSubtreeCount b). rewrite <- Ea. split; [by destruct b|lia].
Qed.

Lemma addCore_spec b its pKey nKey pVal nVal count :
  builder_repr b its -> key_arg pKey nKey -> key_arg pVal nVal ->
  zlen (keys_of its) + nKey <= 2 ^ 30 -> zlen (vals_of its) + nVal <= 2 ^ 30 ->
  added b its (Item (key_of pKey nKey) (key_of pVal nVal) count)
    (builderAddCore b pKey nKey pVal nVal count (0 <? b_level b)).
Proof.
  intros Hb Hk Hv Sk Sv. unfold builderAddCore. rewrite (br_n _ _ Hb).
  destruct (Z.leb_spec PROLLY_NODE_MAX_ITEMS (zlen its)) as [Hm|Hm].
  { exists SQLITE_FULL, b. split; [done|]. split; [done|]. right. right.
    pose proof (br_max _ _ Hb). split_and!; [done|lia|done]. }
  match goal with |- added _ _ _ (let@ _ := _ in let@ _ := _ in let@ _ := _ in let@ b' := _ in @?k b') =>
    destruct (prepare_spec b its nKey nVal k) as (b1 & Hb1 & Hs1 & [->|[-> Hr1]]) end;
    try done; try (destruct Hk, Hv; lia); [by exists SQLITE_NOMEM, b1; auto 10|]. cbv beta.
  destruct Hs1 as [Hl1 Hf1]. rewrite <- Hl1.
  destruct (growCountsIf_spec b1 its) as (rc & cbuf & -> & Hc & Hrc); [done|done|].
  set (b2 := set_SubtreeCount cbuf (zlen cbuf) b1).
  assert (Hb2 : builder_repr b2 its) by (destruct Hb1; split; done).
  assert (Hr2 : ready b2 its nKey nVal) by (destruct Hr1; split; done).
  destruct Hrc as [->|[-> Hroom]]; [exists SQLITE_NOMEM, b2; split; [done|split; [done|auto]]|].
  cbn [bind_rc Z.eqb SQLITE_OK].
  destruct (firstOffsets_spec b2 its nKey nVal Hr2) as (b3 & -> & Hr3 & [Hl3 Hf3] & Hko & Hvo & Hsc).
  pose proof (rd_repr _ _ _ _ Hr3) as Hb3. destruct (br_valBytes _ _ Hb3) as [En _].
  destruct (br_vals _ _ Hb3) as (vp & Ev & Hvh).
  rewrite (rd_tail _ _ _ _ Hr3), app_nil_r in Ev. subst vp.
  destruct (putKey_spec b3 its nVal pKey nKey) as (kbuf & ko & -> & Hkb & Hko' & Lko); try done.
  set (b4 := set_aKeyOff _ _).
  destruct (putVal_spec b4 its pVal nVal) as (vbuf & vo & -> & Hvb & Hvo' & Lvo); try done.
  { apply (br_n _ _ Hb3). } { apply (br_valAlloc _ _ Hb3). } { apply (rd_valOff _ _ _ _ Hr3). }
  { apply (rd_vals _ _ _ _ Hr3). }
  set (b5 := set_aValOff _ _). change (b_level b1) with (b_level b2). rewrite <- Hl3.
  change (b_level b3) with (b_level b5).
  assert (Hl5 : b_level b5 = b_level b1) by (transitivity (b_level b2); done).
  destruct (putCountIf_spec b5 its count) as (cb & -> & Hcb).
  { apply (br_n _ _ Hb3). } { apply (br_cntAlloc _ _ Hb3). }
  { rewrite Hl5. change (b_aSubtreeCount b5) with (b_aSubtreeCount b3). rewrite Hsc; exact Hc. }
  { rewrite Hl5. change (b_aSubtreeCount b5) with (b_aSubtreeCount b3). rewrite Hsc; exact Hroom. }
  pose proof (key_of_length pVal nVal Hv) as LV. pose proof (key_of_length pKey nKey Hk) as LK.
  eexists _, _. split; [done|]. split; [by split; [rewrite <- Hl1|rewrite <- Hf1]; cbn|].
  left. split; [done|].
  eapply (repr_snoc b3 _ its (Item (key_of pKey nKey) (key_of pVal nVal) count) nKey nVal
    kbuf ko vbuf vo cb 0 (vals_of its ++ key_of pVal nVal)); unfold INT_MAX; try done; try lia.
  - by rewrite app_nil_r.
  - unfold set_nItems. cbn. by rewrite (br_n _ _ Hb3), (rd_tail _ _ _ _ Hr3).
Qed.

Lemma addZeroTail_spec b its pKey nKey pVal nPrefix nZeroTail :
  builder_repr b its -> b_level b = 0 -> key_arg pKey nKey -> key_arg pVal nPrefix ->
  zlen (keys_of its) + nKey <= 2 ^ 30 -> zlen (vals_of its) + nPrefix <= 2 ^ 30 ->
  added b its (Item (key_of pKey nKey)
                    (key_of pVal nPrefix ++ replicate (Z.to_nat nZeroTail) 0) 0)
    (prollyNodeBuilderAddZeroTail b pKey nKey pVal nPrefix nZeroTail).
Proof.
  intros Hb Hl Hk Hv Sk Sv. unfold prollyNodeBuilderAddZeroTail.
  destruct (Z.leb_spec nZeroTail 0) as [Hz|Hz].
  { replace (Z.to_nat nZeroTail) with 0%nat by lia. rewrite app_nil_r.
    pose proof (addCore_spec b its pKey nKey pVal nPrefix 0) as H. rewrite Hl in H. auto. }
  rewrite Hl, (br_n _ _ Hb). cbn [Z.eqb negb].
  destruct (Z.leb_spec PROLLY_NODE_MAX_ITEMS (zlen its)) as [Hm|Hm].
  { exists SQLITE_FULL, b. split; [done|]. split; [done|]. right. right.
    pose proof (br_max _ _ Hb). split_and!; [done|lia|done]. }
  destruct (br_valBytes _ _ Hb) as [Eb _]. rewrite Eb.
  destruct (Z.ltb_spec INT_MAX (zlen (vals_of its) + nPrefix + nZeroTail)) as [Ho|Ho].
  { exists SQLITE_NOMEM, b. split; [done|split; [done|auto]]. }
  match goal with |- added _ _ _ (let@ _ := _ in let@ _ := _ in let@ _ := _ in let@ b' := _ in @?k b') =>
    destruct (prepare_spec b its nKey nPrefix k) as (b1 & Hb1 & Hs1 & [->|[-> Hr1]]) end;
    try done; try (destruct Hk, Hv; lia); [by exists SQLITE_NOMEM, b1; auto 10|]. cbv beta.
  destruct Hs1 as [Hl1 Hf1].
  destruct (firstOffsets_spec b1 its nKey nPrefix Hr1) as (b3 & -> & Hr3 & [Hl3 Hf3] & Hko & Hvo & Hsc).
  pose proof (rd_repr _ _ _ _ Hr3) as Hb3. destruct (br_valBytes _ _ Hb3) as [En _].
  destruct (br_vals _ _ Hb3) as (vp & Ev & Hvh).
  rewrite (rd_tail _ _ _ _ Hr3), app_nil_r in Ev. subst vp.
  destruct (putKey_spec b3 its nPrefix pKey nKey) as (kbuf & ko & -> & Hkb & Hko' & Lko); try done.
  set (b4 := set_aKeyOff _ _).
  assert (exists vbuf, (if 0 <? nPrefix then
       let? v := bytes_at pVal nPrefix in
       let? buf := buf_write (b_pValBuf b4) (b_nValBytes b4) v in
       Some (set_ValBuf buf (b_nValBufAlloc b4) b4) else Some b4) = Some (set_ValBuf vbuf (zlen vbuf) b4) /\
       holds vbuf (vals_of its ++ key_of pVal nPrefix)) as (vbuf & -> & Hvb).
  { change (b_nValBytes b4) with (b_nValBytes b3). rewrite En.
    change (b_nValBufAlloc b4) with (b_nValBufAlloc b3). rewrite (br_valAlloc _ _ Hb3).
    pose proof (key_of_length pVal nPrefix Hv). destruct Hv as [Hv _]. destruct (Z.ltb_spec 0 nPrefix).
    - rewrite bytes_at_Some by lia. fold (key_of pVal nPrefix).
      destruct (holds_write (b_pValBuf b3) (vals_of its) (key_of pVal nPrefix)) as (vbuf & Ew & ? & Lw);
        [done|pose proof (rd_vals _ _ _ _ Hr3); lia|].
      change (b_pValBuf b4) with (b_pValBuf b3). rewrite Ew. exists vbuf. by rewrite Lw.
    - assert (nPrefix = 0) as -> by lia. exists (b_pValBuf b3). unfold key_of.
      rewrite app_nil_r, <- (br_valAlloc _ _ Hb3). by destruct b3. }
  pose proof (key_of_length pVal nPrefix Hv) as LV. pose proof (key_of_length pKey nKey Hk) as LK.
  destruct Hv as [Hv _], Hk as [Hk _].
  rewrite i32_small, int_in_range by (unfold INT_MAX in *; lia).
  change (b_nValBytes (set_ValBuf vbuf (zlen vbuf) b4)) with (b_nValBytes b3). rewrite En.
  rewrite int_in_range by (unfold INT_MAX in *; lia).
  cbn [b_aValOff b_nItems b_nValBytes set_nValBytes set_nValZeroTail set_ValBuf b4 set_aKeyOff
       set_nKeyBytes set_KeyBuf].
  rewrite (br_n _ _ Hb3), u32_small by (unfold is_u32, INT_MAX in *; lia).
  destruct (holds_write (b_aValOff b3) (val_offs its) [zlen (vals_of its) + (nPrefix + nZeroTail)])
    as (vo & Eo & Ho' & Lvo);
    [done|pose proof (rd_valOff _ _ _ _ Hr3); destruct (offs_length its); cbn [length]; lia|].
  destruct (offs_length its) as [_ Lo]. rewrite Lo in Eo. rewrite Eo.
  eexists _, _. split; [done|]. split; [by split; [rewrite <- Hl1|rewrite <- Hf1]; cbn|].
  left. split; [done|].
  eapply (repr_snoc b3 _ its _ nKey (nPrefix + nZeroTail) kbuf ko vbuf vo (b_aSubtreeCount b3)
    nZeroTail (vals_of its ++ key_of pVal nPrefix)); cbn [ikey ival icount];
    rewrite ?length_app, ?length_replicate; unfold INT_MAX in *; try done; try lia.
  - by rewrite app_assoc.
  - unfold set_nItems, b4. cbn. by rewrite <- (br_cntAlloc _ _ Hb3).
Qed.

Lemma init_repr lvl flg : builder_repr (prollyNodeBuilderInit lvl flg) [].
Proof.
  split; try done; try apply holds_nil; cbn; try lia.
  - exists []. split; [done|apply holds_nil].
  - intros _. apply holds_nil.
Qed.

Lemma reset_repr b its : builder_repr b its -> builder_repr (prollyNodeBuilderReset b) [].
Proof.
  intros []. split; cbn; try done; try apply holds_nil; try lia.
  - exists []. split; [done|apply holds_nil].
  - intros _. apply holds_nil.
Qed.

(** The flags Finish writes: the counts bit exactly on internal nodes. *)
Definition flags_out (lvl flg : Z) : Z :=
  if 0 <? lvl then Z.lor flg PROLLY_NODE_SUBTREE_COUNTS
  else Z.land flg (u8 (Z.lnot PROLLY_NODE_SUBTREE_COUNTS)).

Lemma flags_out_counts lvl flg : has_flag (flags_out lvl flg) PROLLY_NODE_SUBTREE_COUNTS = (0 <? lvl).
Proof.
  unfold flags_out, has_flag. destruct (0 <? lvl).
  - rewrite Z.land_lor_distr_l, Z.land_diag. destruct (Z.eqb_spec (Z.lor (Z.land flg PROLLY_NODE_SUBTREE_COUNTS)
      PROLLY_NODE_SUBTREE_COUNTS) 0) as [E|]; [|done]. apply Z.lor_eq_0_iff in E as [_ E]. done.
  - rewrite <- Z.land_assoc. change (Z.land (u8 _) PROLLY_NODE_SUBTREE_COUNTS) with 0.
    by rewrite Z.land_0_r.
Qed.

Lemma finishSparse_spec b its :
  builder_repr b its -> its <> [] ->
  let out := encode_node (b_level b) (flags_out (b_level b) (b_flags b)) its in
  zlen out <= INT_MAX ->
  exists r, prollyNodeBuilderFinishSparse b = Some r /\
    (r = ERR SQLITE_NOMEM \/
     exists p, r = OK (p, zlen out, b_nValZeroTail b) /\
       p ++ replicate (Z.to_nat (b_nValZeroTail b)) 0 = out).
Proof.
  intros Hb Hne out Hsz. unfold prollyNodeBuilderFinishSparse.
  destruct (br_keyBytes _ _ Hb) as [Ek _], (br_valBytes _ _ Hb) as [Ev _].
  destruct (br_vals _ _ Hb) as (vphys & Hv & Hh). destruct (br_tail _ _ Hb) as [Ht Htl].
  assert (Hn : 0 < zlen its) by (destruct its; [done|cbn [length]; lia]).
  pose proof (br_max _ _ Hb) as Hm. unfold PROLLY_NODE_MAX_ITEMS in Hm.
  assert (Ew : (0 <? b_level b) && negb (zlen (b_aSubtreeCount b) =? 0) && (0 <? zlen its) = (0 <? b_level b)).
  { destruct (Z.ltb_spec 0 (b_level b)); [|done]. destruct (Z.ltb_spec 0 (zlen its)); [|lia].
    pose proof (holds_length _ _ (br_counts _ _ Hb H)) as Hc. rewrite length_fmap in Hc.
    destruct (Z.eqb_spec (zlen (b_aSubtreeCount b)) 0); [lia|done]. }
  rewrite (br_n _ _ Hb), Ew, Ek, Ev. destruct (Z.eqb_spec (zlen its) 0); [lia|]. cbn zeta.
  fold (flags_out (b_level b) (b_flags b)).
  pose proof (encode_node_length (b_level b) (flags_out (b_level b) (b_flags b)) its) as EL.
  rewrite counts_length, flags_out_counts in EL. fold out in EL.
  assert (HL := f_equal length Hv). rewrite length_app, length_replicate in HL.
  assert (Hcl : 0 <= (if 0 <? b_level b then 8 * zlen its else 0)) by (destruct (0 <? b_level b); lia).
  unfold PROLLY_HDR_SIZE.
  rewrite int_in_range by (unfold INT_MAX in *; lia). cbn [read]. rewrite bindC_ret.
  rewrite int_in_range by (unfold INT_MAX in *; lia). cbn [read]. rewrite bindC_ret.
  assert (EN : (if 0 <? b_level b then int (8 + (zlen its + 1) * 4 * 2 + zlen (keys_of its) +
      zlen (vals_of its) + zlen its * 8)
      else Some (8 + (zlen its + 1) * 4 * 2 + zlen (keys_of its) + zlen (vals_of its))) = Some (zlen out)).
  { destruct (0 <? b_level b); [rewrite int_in_range by (unfold INT_MAX in *; lia)|]; f_equal; lia. }
  rewrite EN. cbn [read]. rewrite bindC_ret.
  assert (Ea : negb ((b_nValZeroTail b =? 0) || negb (0 <? b_level b)) = false).
  { destruct (Z.eqb_spec (b_nValZeroTail b) 0); [done|]. rewrite Htl by lia. done. }
  rewrite Ea, i32_small, int_in_range by (unfold INT_MAX in *; lia). cbn [read]. rewrite bindC_ret.
  destruct (malloc_ok 6 (zlen out - b_nValZeroTail b)); [|by eexists; split; [done|left]]. cbn [negb].
  rewrite (holds_read (b_aKeyOff b) (key_offs its)), (holds_read (b_aValOff b) (val_offs its)); cycle 1.
  { by apply (br_valOff _ _ Hb). } { symmetry. apply offs_length. }
  { by apply (br_keyOff _ _ Hb). } { symmetry. apply offs_length. }
  cbn [read]. rewrite !bindC_ret.
  assert (EK : (if 0 <? zlen (keys_of its) then buf_read (b_pKeyBuf b) (zlen (keys_of its)) else Some [])
    = Some (keys_of its)).
  { destruct (Z.ltb_spec 0 (zlen (keys_of its))); [by rewrite (holds_read _ _ _ (br_keys _ _ Hb))|].
    destruct (keys_of its); [done|cbn [length] in *; lia]. }
  assert (EV : (if 0 <? zlen (vals_of its) then buf_read (b_pValBuf b) (zlen (vals_of its) - b_nValZeroTail b)
    else Some []) = Some vphys).
  { destruct (Z.ltb_spec 0 (zlen (vals_of its))); [apply holds_read; [done|lia]|].
    destruct vphys; [done|cbn [length] in *; lia]. }
  assert (EC : exists cs, (if 0 <? b_level b then buf_read (b_aSubtreeCount b) (zlen its) else Some []) = Some cs /\
    enc_counts cs = counts_of (flags_out (b_level b) (b_flags b)) its).
  { unfold counts_of. rewrite flags_out_counts. destruct (Z.ltb_spec 0 (b_level b)); [|by exists []].
    exists (icount <$> its). split; [|done]. apply holds_read; [by apply (br_counts _ _ Hb)|].
    by rewrite length_fmap. }
  destruct EC as (cs & -> & EC). rewrite EK, EV. cbn [read]. rewrite !bindC_ret. rewrite EC.
  set (pBuf := node_header _ _ _ ++ _).
  assert (Ep : pBuf ++ replicate (Z.to_nat (b_nValZeroTail b)) 0 = out).
  { unfold pBuf, out, encode_node. rewrite Hv. unfold u16. rewrite Z.mod_small by lia.
    destruct (Z.eqb_spec (b_nValZeroTail b) 0) as [E|E].
    - rewrite E. cbn [Z.to_nat replicate]. by rewrite !app_nil_r.
    - assert (counts_of (flags_out (b_level b) (b_flags b)) its = []) as ->.
      { unfold counts_of. rewrite flags_out_counts, Htl by lia. done. }
      rewrite !app_nil_r, <- !app_assoc. done. }
  assert (LE := f_equal length Ep). rewrite length_app, length_replicate in LE.
  destruct (Z.eqb_spec (zlen pBuf) (zlen out - b_nValZeroTail b)); [|lia]. cbn [negb].
  eexists. split; [done|]. right. eauto.
Qed.

Lemma finish_spec b its :
  builder_repr b its -> its <> [] -> zlen (vals_of its) <= 2 ^ 30 ->
  let out := encode_node (b_level b) (flags_out (b_level b) (b_flags b)) its in
  zlen out <= INT_MAX ->
  exists r b', prollyNodeBuilderFinish b = Some (r, b') /\
    (r = ERR SQLITE_NOMEM \/ r = OK (out, zlen out)).
Proof.
  intros Hb Hne Hs out Hsz. unfold prollyNodeBuilderFinish.
  destruct (materialize_spec b its Hb Hs) as (rc & b1 & -> & Hb1 & (? & ? & ? & E1) & [->|[-> Ht]]);
    [cbn; eauto|]. cbn [Z.eqb SQLITE_OK negb].
  assert (El : b_level b1 = b_level b) by (by rewrite E1).
  assert (Ef : b_flags b1 = b_flags b) by (by rewrite E1).
  destruct (finishSparse_spec b1 its Hb1 Hne) as (r & -> & Hr); rewrite ?El, ?Ef; [done|].
  rewrite El, Ef, Ht in Hr. fold out in Hr. destruct Hr as [->|(p & -> & Hp)]; [eauto|].
  cbn [Z.eqb negb]. rewrite app_nil_r in Hp. subst p. eauto.
Qed.

(** Adding a list of items the way a tree writer does, internal levels with
    their counts, then finishing the chunk. *)
Fixpoint builder_add_all (b : ProllyNodeBuilder) (its : list item) : option (Z * ProllyNodeBuilder) :=
  match its with
  | [] => Some (SQLITE_OK, b)
  | it :: its =>
      let@ b := (if 0 <? b_level b
                 then prollyNodeBuilderAddWithCount b (ikey it) (zlen (ikey it))
                        (ival it) (zlen (ival it)) (icount it)
                 else builderAddCore b (ikey it) (zlen (ikey it)) (ival it) (zlen (ival it))
                        (icount it) false) in
      builder_add_all b its
  end.

Lemma keys_of_app a c : keys_of (a ++ c) = keys_of a ++ keys_of c.
Proof. unfold keys_of. by rewrite fmap_app, join_app. Qed.

Lemma vals_of_app a c : vals_of (a ++ c) = vals_of a ++ vals_of c.
Proof. unfold vals_of. by rewrite fmap_app, join_app. Qed.

Lemma add_all_spec b pre its :
  builder_repr b pre -> zlen (pre ++ its) <= PROLLY_NODE_MAX_ITEMS ->
  zlen (keys_of (pre ++ its)) <= 2 ^ 30 -> zlen (vals_of (pre ++ its)) <= 2 ^ 30 ->
  exists rc b', builder_add_all b its = Some (rc, b') /\ same_node b b' /\
    (rc = SQLITE_NOMEM \/ rc = SQLITE_OK /\ builder_repr b' (pre ++ its)).
Proof.
  revert b pre. induction its as [|it its IH]; intros b pre Hb Hm Sk Sv.
  { rewrite app_nil_r. exists SQLITE_OK, b. split; [done|]. split; [done|auto]. }
  assert (Sk' : zlen (keys_of (pre ++ [it])) <= 2 ^ 30).
  { rewrite cons_middle, app_assoc, keys_of_app, length_app in Sk. lia. }
  assert (Sv' : zlen (vals_of (pre ++ [it])) <= 2 ^ 30).
  { rewrite cons_middle, app_assoc, vals_of_app, length_app in Sv. lia. }
  rewrite keys_of_snoc, length_app in Sk'. rewrite vals_of_snoc, length_app in Sv'.
  cbn [builder_add_all].
  assert (Ha : added b pre it (if 0 <? b_level b
      then prollyNodeBuilderAddWithCount b (ikey it) (zlen (ikey it)) (ival it) (zlen (ival it)) (icount it)
      else builderAddCore b (ikey it) (zlen (ikey it)) (ival it) (zlen (ival it)) (icount it) false)).
  { pose proof (addCore_spec b pre (ikey it) (zlen (ikey it)) (ival it) (zlen (ival it)) (icount it) Hb) as H.
    rewrite !key_of_full in H. destruct it as [k v c]. cbn [ikey ival icount] in *.
    unfold prollyNodeBuilderAddWithCount. destruct (0 <? b_level b);
      (apply H; [apply key_arg_full|apply key_arg_full|lia|lia]; unfold INT_MAX; lia). }
  destruct Ha as (rc & b1 & -> & [Hl Hf] & [[-> Hb1]|[[-> Hb1]|(-> & Hfull & _)]]).
  - cbn [bind_rc Z.eqb SQLITE_OK]. rewrite cons_middle, app_assoc in Hm, Sk, Sv |- *.
    destruct (IH b1 (pre ++ [it])) as (rc & b2 & -> & [Hl2 Hf2] & Hr); try done.
    exists rc, b2. split; [done|]. split; [by split; congruence|done].
  - exists SQLITE_NOMEM, b1. split; [done|]. split; [done|auto].
  - rewrite length_app in Hm. cbn [length] in Hm. lia.
Qed.

Definition builder_run (lvl flg : Z) (its : list item) : option (result (list Z * Z)) :=
  let? (rc, b) := builder_add_all (prollyNodeBuilderInit lvl flg) its in
  if negb (rc =? SQLITE_OK) then Some (ERR rc)
  else let? (r, _) := prollyNodeBuilderFinish b in Some r.

Lemma run_spec lvl flg its :
  node_wf lvl (flags_out lvl flg) its ->
  zlen (keys_of its) <= 2 ^ 30 -> zlen (vals_of its) <= 2 ^ 30 ->
  let out := encode_node lvl (flags_out lvl flg) its in
  exists r, builder_run lvl flg its = Some r /\ (r = ERR SQLITE_NOMEM \/ r = OK (out, zlen out)).
Proof.
  intros Hwf Sk Sv out. unfold builder_run.
  destruct (add_all_spec (prollyNodeBuilderInit lvl flg) [] its) as (rc & b & -> & [Hl Hf] & [->|[-> Hb]]);
    [apply init_repr|apply (wf_max _ _ _ Hwf)|done|done|cbn; eauto|]. cbn [Z.eqb SQLITE_OK negb].
  destruct (finish_spec b its) as (r & b' & -> & Hr); rewrite ?Hl, ?Hf; try done.
  - apply (wf_nonempty _ _ _ Hwf).
  - apply (wf_size _ _ _ Hwf).
  - rewrite Hl, Hf in Hr. eauto.
Qed.
End builder.

(** * Properties *)

(** For every allocator, adding an item to a builder that represents a list
    of items appends it; an allocation failure reports SQLITE_NOMEM and a full
    node SQLITE_FULL, both leaving the represented items as they were. *)
Theorem builder_add_correct (malloc_ok : nat -> Z -> bool) (b : ProllyNodeBuilder) (its : list item)
    (pKey : list Z) (nKey : Z) (pVal : list Z) (nVal count nZeroTail : Z)
    (Hb : builder_repr b its) (Hk : key_arg pKey nKey) (Hv : key_arg pVal nVal)
    (Sk : zlen (keys_of its) + nKey <= 2 ^ 30) (Sv : zlen (vals_of its) + nVal <= 2 ^ 30) :
  let k := key_of pKey nKey in let v := key_of pVal nVal in
  (b_level b = 0 -> added b its (Item k v 0) (prollyNodeBuilderAdd malloc_ok b pKey nKey pVal nVal)) /\
  (0 < b_level b -> added b its (Item k v count)
     (prollyNodeBuilderAddWithCount malloc_ok b pKey nKey pVal nVal count)) /\
  (b_level b = 0 -> added b its (Item k (v ++ replicate (Z.to_nat nZeroTail) 0) 0)
     (prollyNodeBuilderAddZeroTail malloc_ok b pKey nKey pVal nVal nZeroTail)).
Proof.
  intros k v. split_and!.
  - intros Hl. pose proof (addCore_spec malloc_ok b its pKey nKey pVal nVal 0) as H.
    rewrite Hl in H. auto.
  - intros Hl. pose proof (addCore_spec malloc_ok b its pKey nKey pVal nVal count) as H.
    apply Z.ltb_lt in Hl. rewrite Hl in H. auto.
  - intros Hl. by apply addZeroTail_spec.
Qed.

Lemma builder_add_correct_witness :
  added (prollyNodeBuilderInit 0 2) [] (Item [1] [2; 3] 0)
    (prollyNodeBuilderAdd (fun _ _ => true) (prollyNodeBuilderInit 0 2) [1] 1 [2; 3] 2).
Proof.
  refine (proj1 (builder_add_correct (fun _ _ => true) (prollyNodeBuilderInit 0 2) []
    [1] 1 [2; 3] 2 0 0 _ _ _ _ _) eq_refl); [apply init_repr|done..].
Defined.

(** Finishing a builder, sparsely or not, writes the encoding of the items
    it represents (the sparse form without its trailing zeros), with the
    counts flag exactly on internal nodes; the only error is SQLITE_NOMEM. *)
Theorem builder_finish_correct (malloc_ok : nat -> Z -> bool) (b : ProllyNodeBuilder) (its : list item)
    (Hb : builder_repr b its) (Hne : its <> []) (Sv : zlen (vals_of its) <= 2 ^ 30)
    (Hsz : zlen (encode_node (b_level b) (flags_out (b_level b) (b_flags b)) its) <= INT_MAX) :
  let out := encode_node (b_level b) (flags_out (b_level b) (b_flags b)) its in
  (exists r, prollyNodeBuilderFinishSparse malloc_ok b = Some r /\
     (r = ERR SQLITE_NOMEM \/
      exists p, r = OK (p, zlen out, b_nValZeroTail b) /\
        p ++ replicate (Z.to_nat (b_nValZeroTail b)) 0 = out)) /\
  (exists r b', prollyNodeBuilderFinish malloc_ok b = Some (r, b') /\
     (r = ERR SQLITE_NOMEM \/ r = OK (out, zlen out))).
Proof. split; [by apply finishSparse_spec|by apply finish_spec]. Qed.

Lemma builder_finish_correct_witness :
  exists b, builder_repr b [Item [1] [2] 0] /\
  exists r, prollyNodeBuilderFinishSparse (fun _ _ => true) b = Some r /\
     (r = ERR SQLITE_NOMEM \/
      exists p, r = OK (p, zlen (encode_node (b_level b) (flags_out (b_level b) (b_flags b))
                               [Item [1] [2] 0]), b_nValZeroTail b) /\
        p ++ replicate (Z.to_nat (b_nValZeroTail b)) 0 =
        encode_node (b_level b) (flags_out (b_level b) (b_flags b)) [Item [1] [2] 0]).
Proof.
  destruct (addCore_spec (fun _ _ => true) (prollyNodeBuilderInit 0 2) [] [1] 1 [2] 1 0)
    as (rc & b & E & [Hl Hf] & [[_ Hb]|[[-> _]|(-> & H & _)]]); [apply init_repr|done..| | |done].
  - exists b. split; [exact Hb|].
    refine (proj1 (builder_finish_correct (fun _ _ => true) b [Item [1] [2] 0] Hb _ _ _)); try done.
    by rewrite Hl, Hf.
  - exfalso. vm_compute in E. discriminate E.
Defined.

(** Whatever the allocator does, building a node from well-formed items and
    finishing it either fails with SQLITE_NOMEM or produces a chunk that the
    parser accepts as a node representing exactly those items. *)
Theorem builder_parse_roundtrip (malloc_ok : nat -> Z -> bool) (lvl flg : Z) (its : list item)
    (Hwf : node_wf lvl (flags_out lvl flg) its)
    (Sk : zlen (keys_of its) <= 2 ^ 30) (Sv : zlen (vals_of its) <= 2 ^ 30) :
  builder_run malloc_ok lvl flg its = Some (ERR SQLITE_NOMEM) \/
  exists p nd, builder_run malloc_ok lvl flg its = Some (OK (p, zlen p)) /\
    prollyNodeParse p (zlen p) = Some (OK nd) /\ node_repr nd its 0 /\
    level nd = lvl /\ flags nd = flags_out lvl flg.
Proof.
  destruct (run_spec malloc_ok lvl flg its Hwf Sk Sv) as (r & -> & [->| ->]); [by left|right].
  destruct (parse_complete lvl (flags_out lvl flg) its (encode_node lvl (flags_out lvl flg) its) 0)
    as (nd & Hp & Hr & Hl & Hf & _); [done|by rewrite app_nil_r|lia|].
  rewrite Z.add_0_r in Hp. eauto 10.
Qed.

Lemma builder_parse_roundtrip_witness :
  builder_run (fun _ _ => true) 0 2 demo_items = Some (ERR SQLITE_NOMEM) \/
  exists p nd, builder_run (fun _ _ => true) 0 2 demo_items = Some (OK (p, zlen p)) /\
    prollyNodeParse p (zlen p) = Some (OK nd) /\ node_repr nd demo_items 0 /\
    level nd = 0 /\ flags nd = flags_out 0 2.
Proof.
  apply (builder_parse_roundtrip (fun _ _ => true) 0 2 demo_items); [by apply node_wfb_spec|done..].
Defined.

(** The growth functions double the capacity without clamping it first, so
    a key buffer of exactly 1 GiB that has to grow asks realloc for 2^31 bytes;
    converted to int that is negative, which frees the buffer the builder still
    points to. *)
Theorem builder_grow_key_frees (malloc_ok : nat -> Z -> bool) (b : ProllyNodeBuilder) (nAdd : Z)
    (Hcap : b_nKeyBufAlloc b = 2 ^ 30) (Hn : 0 <= nAdd)
    (Hneed : 2 ^ 30 < b_nKeyBytes b + nAdd <= INT_MAX) :
  builderGrowKeyBuf malloc_ok b nAdd = Some (SQLITE_NOMEM, set_KeyBuf [] (2 ^ 30) b).
Proof.
  unfold builderGrowKeyBuf. rewrite Hcap. destruct (Z.ltb_spec nAdd 0); [lia|].
  destruct (Z.ltb_spec INT_MAX (b_nKeyBytes b + nAdd)); [lia|].
  destruct (Z.ltb_spec (2 ^ 30) (b_nKeyBytes b + nAdd)); [|lia].
  change (if negb (2 ^ 30 =? 0) then 2 ^ 30 * 2 else PROLLY_BUILDER_INIT_BUF) with (2 ^ 31).
  cbn [grow_cap]. unfold INT_MAX in *.
  destruct (Z.ltb_spec (2 ^ 31) (b_nKeyBytes b + nAdd)); [lia|]. destruct (Z.ltb_spec (2 ^ 31) (b_nKeyBytes b + nAdd)); [lia|done].
Qed.

Lemma builder_grow_key_frees_witness :
  let b := set_KeyBuf [] (2 ^ 30) (set_nKeyBytes (2 ^ 30) (prollyNodeBuilderInit 0 2)) in
  builderGrowKeyBuf (fun _ _ => true) b 1 = Some (SQLITE_NOMEM, set_KeyBuf [] (2 ^ 30) b).
Proof. intros b. apply (builder_grow_key_frees (fun _ _ => true) b 1); done. Defined.
