(* ===== verification/Tree.v ===== *)
(** What a prolly tree is: nodes found by hash, the children of an internal node
    being the chunks its values name, keyed by the last key of each child.  A
    [NodeSource] is what the chunk store and the node cache promise to the code
    that walks trees. *)
From S2P Require Import Prelude Encoding HashSet Node.

(** * The interface of node loading *)

(** prollyLoadNode / loadNode: the node stored under a hash, or an error. *)
Class NodeSource : Type := load_node : list Z -> C ProllyNode.

(** A chunk table: physical bytes and logical length by hash. *)
Abbreviation chunk_table := (gmap (list Z) (list Z * Z)).

(** chunkStoreGetSparse followed by prollyNodeParseSparse, over a chunk table. *)
#[export] Instance table_source (t : chunk_table) : NodeSource := fun h =>
  match t !! h with
  | None => err SQLITE_NOTFOUND
  | Some (p, n) => prollyNodeParseSparse p n (zlen p)
  end.

(** * Trees *)

Section tree.
Context `{NodeSource}.
(** The key kind of the tree: integer keys or byte keys, the same in every node. *)
Context (ik : bool).

Definition kind_ok (nd : ProllyNode) : Prop := has_flag (flags nd) PROLLY_NODE_INTKEY = ik.

(** The entry of an internal node against the items of its child. *)
Definition child_ok (c : item) (sub : list item) : Prop :=
  (exists it, last sub = Some it /\ ikey it = ikey c) /\ icount c = zlen sub.

(** [tree n h its]: the tree of height [n] at [h] stores the leaf items [its]. *)
Fixpoint tree (n : nat) (h : list Z) (its : list item) : Prop :=
  match n with
  | O => exists nd z, load_node h = Some (OK nd) /\ level nd = 0 /\ kind_ok nd /\ node_repr nd its z
  | S n =>
      exists nd cs subs, load_node h = Some (OK nd) /\ level nd = Z.of_nat (S n) /\ kind_ok nd /\
        node_repr nd cs 0 /\ its = mjoin subs /\
        Forall2 (fun c sub => child_ok c sub /\ tree n (ival c) sub) cs subs
  end.

Lemma repr_nonempty nd its z : node_repr nd its z -> its <> [].
Proof. intros Hr. apply (wf_nonempty _ _ _ (repr_wf _ _ _ Hr)). Qed.

Lemma child_ok_nonempty c sub : child_ok c sub -> sub <> [].
Proof. intros [(it & Hl & _) _] ->. done. Qed.

Lemma tree_nonempty n h its : tree n h its -> its <> [].
Proof.
  destruct n as [|n]; cbn [tree].
  - intros (nd & z & _ & _ & _ & Hr). by eapply repr_nonempty.
  - intros (nd & cs & subs & _ & _ & _ & Hr & -> & HF).
    pose proof (repr_nonempty _ _ _ Hr) as Hne. destruct HF as [|c sub cs subs [Hc _] HF]; [done|].
    intros E. apply app_nil in E as [E _]. by eapply child_ok_nonempty.
Qed.

Lemma tree_root n h its :
  tree n h its ->
  exists nd cs z, load_node h = Some (OK nd) /\ level nd = Z.of_nat n /\ kind_ok nd /\ node_repr nd cs z.
Proof.
  destruct n; cbn [tree].
  - intros (nd & z & ? & ? & ? & ?). eauto 10.
  - intros (nd & cs & subs & ? & ? & ? & ? & _). eauto 10.
Qed.
End tree.

(** * Positions in a concatenation *)

(** The number of elements before the [i]-th list. *)
Definition before {A} (subs : list (list A)) (i : nat) : nat := length (mjoin (take i subs)).

Lemma before_S {A} (subs : list (list A)) i sub :
  subs !! i = Some sub -> before subs (S i) = (before subs i + length sub)%nat.
Proof.
  intros E. unfold before. rewrite (take_S_r _ _ _ E), join_app, length_app. cbn.
  by rewrite app_nil_r.
Qed.

Lemma before_0 {A} (subs : list (list A)) : before subs 0 = 0%nat.
Proof. done. Qed.

Lemma before_all {A} (subs : list (list A)) i :
  (length subs <= i)%nat -> before subs i = length (mjoin subs).
Proof. intros. unfold before. by rewrite take_ge. Qed.

Lemma mjoin_split {A} (subs : list (list A)) i sub :
  subs !! i = Some sub -> mjoin subs = mjoin (take i subs) ++ sub ++ mjoin (drop (S i) subs).
Proof.
  intros E. rewrite <- (take_drop_middle subs i sub E) at 1. by rewrite join_app.
Qed.

Lemma mjoin_lookup {A} (subs : list (list A)) i j sub x :
  subs !! i = Some sub -> sub !! j = Some x -> mjoin subs !! (before subs i + j)%nat = Some x.
Proof.
  intros E Hx. rewrite (mjoin_split subs i sub E).
  rewrite lookup_app_r by (unfold before; lia). unfold before.
  replace (_ + j - _)%nat with j by lia. rewrite lookup_app_l; [done|]. by eapply lookup_lt_Some.
Qed.

(** * Searching through a level *)

Section combine.
Context (cs : list item) (subs : list (list item)).
Context (HF : Forall2 child_ok cs subs) (Hsort : keys_sorted (mjoin subs)).

Lemma sub_sorted i sub : subs !! i = Some sub -> keys_sorted sub.
Proof.
  intros Hs. unfold keys_sorted in *. rewrite (mjoin_split _ _ _ Hs), !fmap_app in Hsort.
  by apply StronglySorted_app_1_r, StronglySorted_app_1_l in Hsort.
Qed.

(** A key of a child is at most the key of its entry. *)
Lemma sub_le i c sub x :
  cs !! i = Some c -> subs !! i = Some sub -> x ∈ sub -> key_lt (ikey x) (ikey c) \/ ikey x = ikey c.
Proof.
  intros Hc Hs Hx. destruct (Forall2_lookup_lr _ _ _ _ _ _ HF Hc Hs) as [(it & Hl & <-) _].
  apply last_Some in Hl as [sub' ->]. apply elem_of_app in Hx as [Hx|Hx].
  - left. pose proof (sub_sorted _ _ Hs) as HS. unfold keys_sorted in HS. rewrite fmap_app in HS.
    apply (StronglySorted_app_1_elem_of key_lt (ikey <$> sub') (ikey <$> [it]) (ikey x) (ikey it) HS);
      [by apply list_elem_of_fmap_2|by apply list_elem_of_singleton].
  - right. apply list_elem_of_singleton in Hx. by subst.
Qed.

Lemma sub_order i j sub sub' x y :
  subs !! i = Some sub -> subs !! j = Some sub' -> (i < j)%nat -> x ∈ sub -> y ∈ sub' ->
  key_lt (ikey x) (ikey y).
Proof.
  intros Hi Hj Hij Hx Hy. apply list_elem_of_lookup in Hx as [p Hx], Hy as [q Hy].
  apply (keys_sorted_lookup (mjoin subs) _ _ _ _ Hsort (mjoin_lookup _ _ _ _ _ Hi Hx)
    (mjoin_lookup _ _ _ _ _ Hj Hy)).
  pose proof (lookup_lt_Some _ _ _ Hx). pose proof (before_S subs i sub Hi) as HB.
  assert (before subs (S i) <= before subs j)%nat.
  { unfold before. rewrite <- (take_drop (S i) (take j subs)), take_take, Nat.min_l by lia.
    rewrite join_app, length_app. lia. }
  lia.
Qed.

Lemma entries_sorted : keys_sorted cs.
Proof.
  unfold keys_sorted. assert (forall i j a b, cs !! i = Some a -> cs !! j = Some b -> (i < j)%nat ->
    key_lt (ikey a) (ikey b)) as HO.
  { intros i j a b Ha Hb Hij.
    destruct (Forall2_lookup_l _ _ _ _ _ HF Ha) as (sa & Hsa & (xa & La & <-) & _).
    destruct (Forall2_lookup_l _ _ _ _ _ HF Hb) as (sb & Hsb & (xb & Lb & <-) & _).
    apply (sub_order i j sa sb); try done; by apply last_Some_elem_of. }
  clear -HO. induction cs as [|c l IH]; cbn; [constructor|]. constructor.
  - apply IH. intros i j a b Ha Hb Hij. apply (HO (S i) (S j)); try done. lia.
  - apply Forall_forall. intros k Hk. apply list_elem_of_fmap in Hk as (x & -> & Hx).
    apply list_elem_of_lookup in Hx as [j Hj]. apply (HO 0%nat (S j)); try done. lia.
Qed.

(** Every key of the children before [i] is below [k] when their entries are. *)
Lemma lower_children k i :
  (forall j c, cs !! j = Some c -> (j < i)%nat -> key_lt (ikey c) k) ->
  Forall (fun it => key_lt (ikey it) k) (mjoin (take i subs)).
Proof.
  intros Hc. apply Forall_forall. intros x Hx. apply list_elem_of_join in Hx as (l & Hx & Hl).
  apply list_elem_of_lookup in Hl as [j Hj]. apply lookup_take_Some in Hj as [Hj Hji].
  destruct (Forall2_lookup_r _ _ _ _ _ HF Hj) as (c & Hcj & _).
  specialize (Hc _ _ Hcj Hji). destruct (sub_le j c l x) as [?| ->]; try done. by etransitivity.
Qed.

(** The entry a search chose when the key is below it. *)
Lemma search_entry_above k i sres c :
  search_spec cs k (Z.of_nat i) sres -> cs !! i = Some c -> key_lt k (ikey c) ->
  forall j c', cs !! j = Some c' -> (j < i)%nat -> key_lt (ikey c') k.
Proof.
  intros Hsr Hc Hk j c' Hc' Hji. apply search_cases in Hsr as [Hi Hsr]. rewrite Nat2Z.id in Hsr.
  destruct Hsr as [(_ & c2 & Hc2 & Ek)|[(_ & _ & HC)|(_ & HC & _)]].
  - assert (c2 = c) by congruence. subst. exfalso. by apply (irreflexivity key_lt (ikey c)).
  - rewrite Forall_lookup in HC. by apply (HC j).
  - rewrite Forall_lookup in HC. apply (HC j). by rewrite lookup_take_lt.
Qed.

(** ... and when the key is above it: then it is above every entry. *)
Lemma search_entry_below k i sres c :
  search_spec cs k (Z.of_nat i) sres -> cs !! i = Some c -> key_lt (ikey c) k ->
  i = (length cs - 1)%nat /\ forall j c', cs !! j = Some c' -> key_lt (ikey c') k.
Proof.
  intros Hsr Hc Hk. apply search_cases in Hsr as [Hi Hsr]. rewrite Nat2Z.id in Hsr.
  destruct Hsr as [(_ & c2 & Hc2 & Ek)|[(_ & ? & HC)|(_ & _ & HC)]].
  - assert (c2 = c) by congruence. subst. exfalso. by apply (irreflexivity key_lt (ikey c)).
  - split; [lia|]. intros j c' Hc'. rewrite Forall_lookup in HC. by apply (HC j).
  - rewrite Forall_lookup in HC.
    assert (key_lt k (ikey c)) by (apply (HC 0%nat); by rewrite lookup_drop, Nat.add_0_r).
    exfalso. apply (irreflexivity key_lt k). by transitivity (ikey c).
Qed.

(** A search in the entries followed by a search in the chosen child is a search
    in the concatenation. *)
Lemma search_combine k i sub p sres r :
  search_spec cs k (Z.of_nat i) sres -> subs !! i = Some sub -> search_spec sub k (Z.of_nat p) r ->
  search_spec (mjoin subs) k (Z.of_nat (before subs i + p)) r.
Proof.
  intros Hsr Hs Hr. pose proof Hsr as [Hi _].
  assert (HL : length cs = length subs) by (by eapply Forall2_length).
  destruct (lookup_lt_is_Some_2 cs i) as [c Hc]; [lia|].
  destruct (Forall2_lookup_lr _ _ _ _ _ _ HF Hc Hs) as [(xl & Hlast & Exl) _].
  pose proof (last_Some_elem_of _ _ Hlast) as Hxl.
  apply search_cases in Hr as [Hp Hr]. rewrite Nat2Z.id in Hr.
  split; [rewrite (mjoin_split _ _ _ Hs), !length_app; unfold before; lia|]. rewrite !Nat2Z.id.
  destruct Hr as [(-> & it & Hit & Hk)|[(-> & Ep & Hall)|(-> & Hlt & Hgt)]].
  - exists it. split; [|done]. by eapply mjoin_lookup.
  - assert (Hxk : key_lt (ikey c) k) by (rewrite <- Exl; rewrite Forall_forall in Hall; by apply Hall).
    destruct (search_entry_below _ _ _ _ Hsr Hc Hxk) as [Hend HC].
    pose proof (before_S subs i sub Hs) as HB. rewrite (before_all subs (S i)) in HB by lia.
    split; [lia|]. rewrite (mjoin_split _ _ _ Hs), (drop_ge subs (S i)) by lia. cbn. rewrite app_nil_r.
    apply Forall_app. split; [|done]. apply lower_children. eauto.
  - assert (Hxk : key_lt k (ikey c)).
    { rewrite <- Exl. rewrite Forall_lookup in Hgt.
      assert (E : sub !! (length sub - 1)%nat = Some xl) by (rewrite <- Hlast, last_lookup; f_equal; lia).
      apply (Hgt (length sub - 1 - p)%nat). rewrite lookup_drop, <- E. f_equal. lia. }
    rewrite (mjoin_split _ _ _ Hs). unfold before. rewrite take_app_add, drop_app_add.
    rewrite take_app_le, drop_app_le by lia. split; apply Forall_app; (split; [|]); try done.
    + apply lower_children. by eapply search_entry_above.
    + apply Forall_forall. intros x Hx. apply list_elem_of_join in Hx as (l & Hx & Hl).
      apply list_elem_of_lookup in Hl as [j Hj]. rewrite lookup_drop in Hj.
      transitivity (ikey c); [done|]. rewrite <- Exl. eapply (sub_order i (S i + j)); try done. lia.
Qed.
End combine.
