(* ===== verification/Store.v ===== *)
(** What the chunk store promises to the code that writes trees: chunks are put
    with an implicit tail of zeros, named by the hash of their bytes, and found
    again under that name.  A store that keeps chunks in a table is an instance. *)
From S2P Require Import Prelude Encoding HashSet Blake3Tree Hash Node Tree.

(** * The interface *)

(** chunkStorePut / chunkStorePutSparse: the bytes and the length of the zero
    tail; chunkStoreGetSparse: the stored bytes and the logical length. *)
Class ChunkStore := {
  store : Type;
  store_put : store -> list Z -> Z -> option (result (list Z) * store);
  store_get : store -> list Z -> C (list Z * Z) }.

(** The bytes a stored chunk stands for. *)
Definition logical (q : list Z) (n : Z) : list Z := q ++ replicate (Z.to_nat (n - zlen q)) 0.

(** [s] answers [h] with the bytes [d], its zero tail possibly left out. *)
Definition has_chunk `{ChunkStore} (s : store) (h d : list Z) : Prop :=
  exists q, store_get s h = Some (OK (q, zlen d)) /\ zlen q <= zlen d /\ logical q (zlen d) = d.

Class ChunkStoreLaws `{ChunkStore} := {
  store_ok : store -> Prop;
  (** A put of a chunk of at most INT_MAX bytes succeeds or fails, and keeps what was there. *)
  put_total s p z : store_ok s -> bytes_wf p -> 0 <= z -> zlen p + z <= INT_MAX ->
    exists r s', store_put s p z = Some (r, s') /\ store_ok s' /\
      (forall h d, has_chunk s h d -> has_chunk s' h d) /\
      match r with
      | ERR rc => rc <> SQLITE_OK
      | OK h =>
          let d := p ++ replicate (Z.to_nat z) 0 in
          h = prolly_hash d /\ (has_chunk s' h d \/ exists d', has_chunk s h d' /\ d' <> d)
      end }.

(** The nodes of a store. *)
Definition store_source `{ChunkStore} (s : store) : NodeSource := fun h =>
  let! c := store_get s h in prollyNodeParseSparse c.1 c.2 (zlen c.1).

(** * A table *)

Section table.
(** Whether a put finds the memory and the disk space it needs. *)
Context (room : chunk_table -> Z -> bool).

Definition table_put (t : chunk_table) (p : list Z) (z : Z) : option (result (list Z) * chunk_table) :=
  let h := prolly_hash (p ++ replicate (Z.to_nat z) 0) in
  if decide (is_Some (t !! h)) then Some (OK h, t)
  else if room t (zlen p) then Some (OK h, <[h := (p, zlen p + z)]> t)
  else Some (ERR SQLITE_FULL, t).

Definition table_get (t : chunk_table) (h : list Z) : C (list Z * Z) :=
  match t !! h with None => err SQLITE_NOTFOUND | Some c => ret c end.

#[local] Instance table_store : ChunkStore :=
  {| store := chunk_table; store_put := table_put; store_get := table_get |}.

Definition table_ok (t : chunk_table) : Prop := map_Forall (fun _ c => zlen c.1 <= c.2) t.

Lemma has_chunk_lookup (t : chunk_table) h q n :
  t !! h = Some (q, n) -> zlen q <= n -> has_chunk (t : store) h (logical q n).
Proof.
  intros E Hn. exists q. assert (L : zlen (logical q n) = n).
  { unfold logical. rewrite length_app, length_replicate. lia. }
  rewrite L. split_and!; [|done|done]. cbn [store_get table_store]. unfold table_get. by rewrite E.
Qed.

Lemma table_put_total (t : chunk_table) p z :
  table_ok t -> bytes_wf p -> 0 <= z -> zlen p + z <= INT_MAX ->
  exists r t', table_put t p z = Some (r, t') /\ table_ok t' /\
    (forall h d, has_chunk (t : store) h d -> has_chunk (t' : store) h d) /\
    match r with
    | ERR rc => rc <> SQLITE_OK
    | OK h =>
        let d := p ++ replicate (Z.to_nat z) 0 in
        h = prolly_hash d /\
        (has_chunk (t' : store) h d \/ exists d', has_chunk (t : store) h d' /\ d' <> d)
    end.
Proof.
  intros Ht Hp Hz Hl. unfold table_put. set (d := p ++ replicate (Z.to_nat z) 0). set (h := prolly_hash d).
  assert (Ed : logical p (zlen p + z) = d) by (unfold logical, d; do 2 f_equal; lia).
  case_decide as Hno; [destruct Hno as [[q n] Eh]|].
  - exists (OK h), t. split_and!; try done.
    pose proof (has_chunk_lookup t h q n Eh (Ht h (q, n) Eh)) as Hc.
    destruct (decide (logical q n = d)) as [E|Hne]; [rewrite E in Hc|]; eauto.
  - destruct (room t (zlen p)); [|exists (ERR SQLITE_FULL), t; by split_and!].
    exists (OK h), (<[h := (p, zlen p + z)]> t). split; [done|]. split_and!; [| |done|].
    + apply map_Forall_insert_2; [cbn; lia|done].
    + intros h' d' (q & E & ? & ?). exists q. split_and!; try done. revert E. cbn [store_get table_store].
      unfold table_get.
      destruct (decide (h' = h)) as [->|]; [|by rewrite lookup_insert_ne].
      destruct (t !! h) eqn:E'; [by destruct Hno|done].
    + left. rewrite <- Ed. apply has_chunk_lookup; [apply lookup_insert_eq|lia].
Qed.

#[local] Instance table_store_laws : ChunkStoreLaws :=
  {| store_ok := table_ok; put_total := table_put_total |}.
End table.
