(* ===== verification/Cursor.v ===== *)
(** prolly_cursor.c: the tree cursor.  The state keeps the level array and the
    state byte of ProllyCursor; the read-ahead and scan hints
    (nAdvance, bLargeScan, bDropScan, bScanFromStart, bWriteScan), which only
    steer the node cache, are not part of it.  Loading a node goes through the
    [NodeSource] interface.  The theorems show that on a tree the cursor is a
    position in the list of leaf items: First, Last, Next, Prev and the seeks
    move that position as a sorted list prescribes. *)
From S2P Require Import Prelude Encoding HashSet Hash Node Tree.

Definition PROLLY_CURSOR_MAX_DEPTH : Z := 20.
Definition PROLLY_CURSOR_VALID : Z := 0.
Definition PROLLY_CURSOR_INVALID : Z := 1.
Definition PROLLY_CURSOR_EOF : Z := 2.

(** A cache entry: the hash and the node. *)
Record ProllyCacheEntry := Entry { e_hash : list Z; e_node : ProllyNode }.

Record ProllyCursor := Cursor {
  c_root : list Z;
  c_flags : Z;
  c_iLevel : Z;
  c_aLevel : list (option ProllyCacheEntry * Z);
  c_eState : Z }.

Definition set_iLevel l cur := Cursor (c_root cur) (c_flags cur) l (c_aLevel cur) (c_eState cur).
Definition set_eState s cur := Cursor (c_root cur) (c_flags cur) (c_iLevel cur) (c_aLevel cur) s.
Definition set_aLevel a cur := Cursor (c_root cur) (c_flags cur) (c_iLevel cur) a (c_eState cur).

(** [cur->aLevel[l].pEntry] dereferenced, [cur->aLevel[l].idx] and their stores;
    outside the array they are undefined. *)
Definition in_levels (l : Z) : bool := (0 <=? l) && (l <? PROLLY_CURSOR_MAX_DEPTH).
Definition level_entry (cur : ProllyCursor) (l : Z) : option ProllyCacheEntry :=
  if in_levels l then let? (e, _) := c_aLevel cur !! Z.to_nat l in e else None.
Definition level_idx (cur : ProllyCursor) (l : Z) : option Z :=
  if in_levels l then let? (_, i) := c_aLevel cur !! Z.to_nat l in Some i else None.
Definition put_level (cur : ProllyCursor) (l : Z) (e : option ProllyCacheEntry) (i : Z)
    : option ProllyCursor :=
  if in_levels l then Some (set_aLevel (<[Z.to_nat l := (e, i)]> (c_aLevel cur)) cur) else None.
Definition put_idx (cur : ProllyCursor) (l i : Z) : option ProllyCursor :=
  if in_levels l then
    let? (e, _) := c_aLevel cur !! Z.to_nat l in put_level cur l e i
  else None.
Definition clear_entry (cur : ProllyCursor) (l : Z) : option ProllyCursor :=
  if in_levels l then
    let? (_, i) := c_aLevel cur !! Z.to_nat l in put_level cur l None i
  else None.

(** The entries up to the first null one are released. *)
Fixpoint release_levels (a : list (option ProllyCacheEntry * Z)) : list (option ProllyCacheEntry * Z) :=
  match a with
  | (Some _, _) :: a => (None, 0) :: release_levels a
  | a => a
  end.

Definition prollyCursorReleaseAll (cur : ProllyCursor) : ProllyCursor :=
  Cursor (c_root cur) (c_flags cur) 0 (release_levels (c_aLevel cur)) PROLLY_CURSOR_INVALID.

Definition prollyCursorClose (cur : ProllyCursor) : ProllyCursor := prollyCursorReleaseAll cur.

Definition prollyCursorInit (root : list Z) (flags : Z) : ProllyCursor :=
  Cursor root flags 0 (replicate (Z.to_nat PROLLY_CURSOR_MAX_DEPTH) (None, 0)) PROLLY_CURSOR_INVALID.

Definition prollyCursorIsValid (cur : ProllyCursor) : bool := c_eState cur =? PROLLY_CURSOR_VALID.

Definition childIndexForSearchResult (idx searchRes nItems : Z) : Z :=
  if (0 <? searchRes) && (idx <? nItems - 1) then idx + 1 else idx.

Section cursor.
Context `{NodeSource}.

(** loadNode of a store without a chunk source ([pChunkSource] null), whose
    prefetch of the children is then skipped. *)
Definition loadNode (h : list Z) : C ProllyCacheEntry :=
  let! nd := load_node h in ret (Entry h nd).

Definition initCursorAtRoot (cur : ProllyCursor) : option (Z * ProllyCursor) :=
  let cur := prollyCursorReleaseAll cur in
  if prollyHashIsEmpty (c_root cur) then Some (SQLITE_OK, set_eState PROLLY_CURSOR_EOF cur)
  else
    match loadNode (c_root cur) with
    | None => None
    | Some (ERR rc) => Some (rc, cur)
    | Some (OK pRoot) =>
        let? cur := put_level (set_iLevel 0 cur) 0 (Some pRoot) 0 in
        Some (SQLITE_OK, cur)
    end.

Definition descendToChild (cur : ProllyCursor) (childSlot childIdx : Z)
    : option (Z * ProllyCursor) :=
  let? pParent := level_entry cur (c_iLevel cur) in
  let? childHash := prollyNodeChildHash (e_node pParent) childSlot in
  let cur := set_iLevel (c_iLevel cur + 1) cur in
  if PROLLY_CURSOR_MAX_DEPTH <=? c_iLevel cur then Some (SQLITE_CORRUPT, cur)
  else
    match loadNode childHash with
    | None => None
    | Some (ERR rc) => Some (rc, cur)
    | Some (OK pChild) =>
        let? cur := put_level cur (c_iLevel cur) (Some pChild) childIdx in
        Some (SQLITE_OK, cur)
    end.

Fixpoint extreme_loop (fuel : nat) (cur : ProllyCursor) (bRight : bool) : option (Z * ProllyCursor) :=
  match fuel with
  | O => None
  | S fuel =>
      let? e := level_entry cur (c_iLevel cur) in
      if 0 <? level (e_node e) then
        let? idx := level_idx cur (c_iLevel cur) in
        let@ cur := descendToChild cur idx 0 in
        let? pChild := level_entry cur (c_iLevel cur) in
        if nItems (e_node pChild) =? 0 then Some (SQLITE_CORRUPT, prollyCursorReleaseAll cur)
        else
          let? cur := put_idx cur (c_iLevel cur) (if bRight then nItems (e_node pChild) - 1 else 0) in
          extreme_loop fuel cur bRight
      else Some (SQLITE_OK, cur)
  end.

(** Every turn of the loop goes one level down, so the depth limit bounds it. *)
Definition descendToExtremeLeaf (cur : ProllyCursor) (bRight : bool) : option (Z * ProllyCursor) :=
  extreme_loop 21 cur bRight.

(** The result code, the cursor and [*pRes]. *)
Definition finalizeExtremeCursor (cur : ProllyCursor) : option (Z * ProllyCursor * Z) :=
  let? pLeaf := level_entry cur (c_iLevel cur) in
  if nItems (e_node pLeaf) =? 0 then Some (SQLITE_OK, set_eState PROLLY_CURSOR_EOF cur, 1)
  else Some (SQLITE_OK, set_eState PROLLY_CURSOR_VALID cur, 0).

Definition prollyCursorFirst (cur : ProllyCursor) : option (Z * ProllyCursor * Z) :=
  let? (rc, cur) := initCursorAtRoot cur in
  if negb (rc =? SQLITE_OK) then Some (rc, cur, 0)
  else if c_eState cur =? PROLLY_CURSOR_EOF then Some (SQLITE_OK, cur, 1)
  else
    let? (rc, cur) := descendToExtremeLeaf cur false in
    if negb (rc =? SQLITE_OK) then Some (rc, cur, 0) else finalizeExtremeCursor cur.

Definition prollyCursorLast (cur : ProllyCursor) : option (Z * ProllyCursor * Z) :=
  let? (rc, cur) := initCursorAtRoot cur in
  if negb (rc =? SQLITE_OK) then Some (rc, cur, 0)
  else if c_eState cur =? PROLLY_CURSOR_EOF then Some (SQLITE_OK, cur, 1)
  else
    let? pRoot := level_entry cur 0 in
    if nItems (e_node pRoot) =? 0 then Some (SQLITE_OK, set_eState PROLLY_CURSOR_EOF cur, 1)
    else
      let? cur := put_idx (set_iLevel 0 cur) 0 (nItems (e_node pRoot) - 1) in
      let? (rc, cur) := descendToExtremeLeaf cur true in
      if negb (rc =? SQLITE_OK) then Some (rc, cur, 0) else finalizeExtremeCursor cur.

(** [while( level>0 )] of prollyCursorNext. *)
Fixpoint next_loop (level : nat) (cur : ProllyCursor) : option (Z * ProllyCursor) :=
  match level with
  | O => Some (SQLITE_OK, set_eState PROLLY_CURSOR_EOF cur)
  | S level' =>
      let? cur := clear_entry cur (Z.of_nat level) in
      let l := Z.of_nat level' in
      let? pNode := level_entry cur l in
      let? idx := level_idx cur l in
      if idx <? nItems (e_node pNode) - 1 then
        let? cur := put_idx cur l (idx + 1) in
        let@ cur := descendToExtremeLeaf (set_iLevel l cur) false in
        Some (SQLITE_OK, set_eState PROLLY_CURSOR_VALID cur)
      else next_loop level' cur
  end.

Definition prollyCursorNext (cur : ProllyCursor) : option (Z * ProllyCursor) :=
  if negb (c_eState cur =? PROLLY_CURSOR_VALID) then None
  else
  let? pLeaf := level_entry cur (c_iLevel cur) in
  let? idx := level_idx cur (c_iLevel cur) in
  if negb ((0 <=? idx) && (idx <? nItems (e_node pLeaf))) then None
  else if idx <? nItems (e_node pLeaf) - 1 then
    let? cur := put_idx cur (c_iLevel cur) (idx + 1) in
    Some (SQLITE_OK, cur)
  else next_loop (Z.to_nat (c_iLevel cur)) cur.

Fixpoint prev_loop (level : nat) (cur : ProllyCursor) : option (Z * ProllyCursor) :=
  match level with
  | O => Some (SQLITE_OK, set_eState PROLLY_CURSOR_EOF cur)
  | S level' =>
      let? cur := clear_entry cur (Z.of_nat level) in
      let l := Z.of_nat level' in
      let? idx := level_idx cur l in
      if 0 <? idx then
        let? cur := put_idx cur l (idx - 1) in
        let@ cur := descendToExtremeLeaf (set_iLevel l cur) true in
        Some (SQLITE_OK, set_eState PROLLY_CURSOR_VALID cur)
      else prev_loop level' cur
  end.

Definition prollyCursorPrev (cur : ProllyCursor) : option (Z * ProllyCursor) :=
  if c_eState cur =? PROLLY_CURSOR_EOF then
    let? (rc, cur, _) := prollyCursorLast cur in Some (rc, cur)
  else if negb (c_eState cur =? PROLLY_CURSOR_VALID) then Some (SQLITE_OK, cur)
  else
  let? idx := level_idx cur (c_iLevel cur) in
  if 0 <? idx then
    let? cur := put_idx cur (c_iLevel cur) (idx - 1) in
    Some (SQLITE_OK, cur)
  else prev_loop (Z.to_nat (c_iLevel cur)) cur.

Definition finalizeSeekOnLeaf (cur : ProllyCursor) (pLeaf : ProllyCacheEntry) (leafIdx leafRes : Z)
    : option (Z * ProllyCursor * Z) :=
  let? cur := put_idx cur (c_iLevel cur) leafIdx in
  if leafRes =? 0 then Some (SQLITE_OK, set_eState PROLLY_CURSOR_VALID cur, 0)
  else if nItems (e_node pLeaf) <=? leafIdx then
    let? cur := put_idx cur (c_iLevel cur) (nItems (e_node pLeaf) - 1) in
    let? (rc, cur) := prollyCursorNext (set_eState PROLLY_CURSOR_VALID cur) in
    if negb (rc =? SQLITE_OK) then Some (rc, cur, 0)
    else if c_eState cur =? PROLLY_CURSOR_EOF then
      let? (rc, cur, _) := prollyCursorLast cur in
      if negb (rc =? SQLITE_OK) then Some (rc, cur, 0) else Some (SQLITE_OK, cur, -1)
    else Some (SQLITE_OK, cur, 1)
  else Some (SQLITE_OK, set_eState PROLLY_CURSOR_VALID cur, if leafRes <? 0 then 1 else -1).

(** The leaf the cursor stands on, when it stands on the current root. *)
Definition cursorCurrentLeaf (cur : ProllyCursor) : option (option ProllyCacheEntry) :=
  if negb (c_eState cur =? PROLLY_CURSOR_VALID) then Some None
  else
    let? (e, _) := c_aLevel cur !! 0%nat in
    match e with
    | None => Some None
    | Some e =>
        let? c := prollyHashCompare (c_root cur) (e_hash e) in
        if negb (c =? 0) then Some None
        else let? leaf := level_entry cur (c_iLevel cur) in Some (Some leaf)
    end.

(** The descent of the seeks, [search] being one of the two node searches. *)
Fixpoint seek_loop (fuel : nat) (search : ProllyNode -> option (Z * Z)) (cur : ProllyCursor)
    : option (Z * ProllyCursor) :=
  match fuel with
  | O => None
  | S fuel =>
      let? e := level_entry cur (c_iLevel cur) in
      if 0 <? level (e_node e) then
        let? (idx, searchRes) := search (e_node e) in
        let idx := childIndexForSearchResult idx searchRes (nItems (e_node e)) in
        let? cur := put_idx cur (c_iLevel cur) idx in
        let@ cur := descendToChild cur idx 0 in
        seek_loop fuel search cur
      else Some (SQLITE_OK, cur)
  end.

Definition seek_from_root (search : ProllyNode -> option (Z * Z)) (cur : ProllyCursor)
    : option (Z * ProllyCursor * Z) :=
  let? (rc, cur) := initCursorAtRoot cur in
  if negb (rc =? SQLITE_OK) then Some (rc, cur, 0)
  else if c_eState cur =? PROLLY_CURSOR_EOF
  then Some (SQLITE_OK, set_eState PROLLY_CURSOR_INVALID cur, -1)
  else
    let? (rc, cur) := seek_loop 21 search cur in
    if negb (rc =? SQLITE_OK) then Some (rc, cur, 0)
    else
      let? e := level_entry cur (c_iLevel cur) in
      if nItems (e_node e) =? 0 then Some (SQLITE_OK, set_eState PROLLY_CURSOR_EOF cur, -1)
      else
        let? (leafIdx, leafRes) := search (e_node e) in
        finalizeSeekOnLeaf cur e leafIdx leafRes.

Definition prollyCursorSeekInt (cur : ProllyCursor) (intKey : Z) : option (Z * ProllyCursor * Z) :=
  let search nd := prollyNodeSearchInt nd intKey in
  let? leaf := cursorCurrentLeaf cur in
  match leaf with
  | Some e =>
      let? lo := prollyNodeIntKey (e_node e) 0 in
      if lo <=? intKey then
        let? hi := prollyNodeIntKey (e_node e) (nItems (e_node e) - 1) in
        if intKey <=? hi then
          let? (leafIdx, leafRes) := search (e_node e) in
          finalizeSeekOnLeaf cur e leafIdx leafRes
        else seek_from_root search cur
      else seek_from_root search cur
  | None => seek_from_root search cur
  end.

(** [prollyCompareKeys(0, pKey, nKey, 0, pBound, nBound, 0)] with the key of item [i]. *)
Definition compare_with_item (nd : ProllyNode) (i : Z) (pKey : list Z) (nKey : Z) : option Z :=
  let? (pBound, nBound) := prollyNodeKey nd i in
  prollyCompareKeys 0 pKey nKey 0 pBound nBound 0.

(** The last attempt before the root: the key within the bounds of the current leaf. *)
Definition seekBlob_in_leaf (cur : ProllyCursor) (e : ProllyCacheEntry) (pKey : list Z) (nKey : Z)
    : option (Z * ProllyCursor * Z) :=
  let search nd := prollyNodeSearchBlob nd pKey nKey in
  let? c0 := compare_with_item (e_node e) 0 pKey nKey in
  if 0 <=? c0 then
    let? c1 := compare_with_item (e_node e) (nItems (e_node e) - 1) pKey nKey in
    if c1 <=? 0 then
      let? (leafIdx, leafRes) := search (e_node e) in
      finalizeSeekOnLeaf cur e leafIdx leafRes
    else seek_from_root search cur
  else seek_from_root search cur.

Definition prollyCursorSeekBlob (cur : ProllyCursor) (pKey : list Z) (nKey : Z)
    : option (Z * ProllyCursor * Z) :=
  let search nd := prollyNodeSearchBlob nd pKey nKey in
  let? leaf := cursorCurrentLeaf cur in
  match leaf with
  | Some e =>
      if 0 <? nItems (e_node e) then
        let? leafIdx := level_idx cur (c_iLevel cur) in
        let? leafRes := compare_with_item (e_node e) leafIdx pKey nKey in
        if leafRes =? 0 then Some (SQLITE_OK, cur, 0)
        else if (0 <? leafRes) && (leafIdx <? nItems (e_node e) - 1) then
          let? leafRes := compare_with_item (e_node e) (leafIdx + 1) pKey nKey in
          if leafRes <=? 0 then finalizeSeekOnLeaf cur e (leafIdx + 1) leafRes
          else seekBlob_in_leaf cur e pKey nKey
        else seekBlob_in_leaf cur e pKey nKey
      else seek_from_root search cur
  | None => seek_from_root search cur
  end.

Definition prollyCursorKey (cur : ProllyCursor) : option (list Z * Z) :=
  if negb (c_eState cur =? PROLLY_CURSOR_VALID) then None
  else
    let? pLeaf := level_entry cur (c_iLevel cur) in
    let? idx := level_idx cur (c_iLevel cur) in
    prollyNodeKey (e_node pLeaf) idx.

Definition prollyCursorIntKey (cur : ProllyCursor) : option Z :=
  if negb (c_eState cur =? PROLLY_CURSOR_VALID) then None
  else
    let? pLeaf := level_entry cur (c_iLevel cur) in
    let? idx := level_idx cur (c_iLevel cur) in
    prollyNodeIntKey (e_node pLeaf) idx.

Definition prollyCursorValue (cur : ProllyCursor) : option (list Z * Z) :=
  if negb (c_eState cur =? PROLLY_CURSOR_VALID) then None
  else
    let? pLeaf := level_entry cur (c_iLevel cur) in
    let? idx := level_idx cur (c_iLevel cur) in
    prollyNodeValue (e_node pLeaf) idx.

(** The sum over the children, in a loop over [i]. *)
Fixpoint sum_children (fuel : nat) (count : Z -> C Z) (n i sum : Z) : C Z :=
  match fuel with
  | O => ub
  | S fuel =>
      if i <? n then
        let! c := count i in
        sum_children fuel count n (i + 1) (u64 (sum + c))
      else ret sum
  end.

(** The recursion of the code is bounded by the height of the tree. *)
Fixpoint prollySubtreeCount (fuel : nat) (h : list Z) : C Z :=
  match fuel with
  | O => ub
  | S fuel =>
      let! nd := load_node h in
      if level nd =? 0 then ret (nItems nd)
      else
        let child i :=
          if prollyNodeHasSubtreeCounts nd then read (prollyNodeChildSubtreeCount nd i)
          else let! ch := read (prollyNodeChildHash nd i) in prollySubtreeCount fuel ch in
        sum_children (S (Z.to_nat (nItems nd))) child (nItems nd) 0 0
  end.

(** * Cursor positions *)

Context (ik : bool).
#[local] Abbreviation tree := (tree ik).

Abbreviation frame := (ProllyCacheEntry * Z)%type.

(** The children of an internal node against the trees below them. *)
Definition children_ok (n : nat) (cs : list item) (subs : list (list item)) : Prop :=
  Forall2 (fun c sub => child_ok c sub /\ tree n (ival c) sub) cs subs.

Definition at_node (h : list Z) (n : nat) (e : ProllyCacheEntry) : Prop :=
  e_hash e = h /\ load_node h = Some (OK (e_node e)) /\ level (e_node e) = Z.of_nat n /\
  kind_ok ik (e_node e).

(** The frames of a root-to-leaf path that stands on the item number [pos] of
    the tree of height [n] at [h]. *)
Fixpoint path (n : nat) (h : list Z) (its : list item) (fr : list frame) (pos : nat) : Prop :=
  match n, fr with
  | O, [(e, i)] =>
      at_node h 0 e /\ (exists z, node_repr (e_node e) its z) /\ i = Z.of_nat pos /\ (pos < length its)%nat
  | S n, (e, i) :: fr =>
      at_node h (S n) e /\
      exists cs subs k c sub pos', node_repr (e_node e) cs 0 /\ its = mjoin subs /\
        children_ok n cs subs /\ i = Z.of_nat k /\ cs !! k = Some c /\ subs !! k = Some sub /\
        path n (ival c) sub fr pos' /\ pos = (before subs k + pos')%nat
  | _, _ => False
  end.

(** The level array holds the frames from slot [base] on. *)
Definition slots (cur : ProllyCursor) (base : nat) (fr : list frame) : Prop :=
  forall k e i, fr !! k = Some (e, i) -> c_aLevel cur !! (base + k)%nat = Some (Some e, i).

(** [cur'] differs from [cur] only from slot [base] on (and in its level and state). *)
Definition same_below (base : nat) (cur cur' : ProllyCursor) : Prop :=
  c_root cur' = c_root cur /\ c_flags cur' = c_flags cur /\
  length (c_aLevel cur') = length (c_aLevel cur) /\
  forall k, (k < base)%nat -> c_aLevel cur' !! k = c_aLevel cur !! k.

Definition depth_ok (cur : ProllyCursor) : Prop := length (c_aLevel cur) = 20%nat.

Lemma same_below_refl b cur : same_below b cur cur.
Proof. done. Qed.

Lemma same_below_trans b cur1 cur2 cur3 :
  same_below b cur1 cur2 -> same_below b cur2 cur3 -> same_below b cur1 cur3.
Proof.
  intros (R1 & F1 & L1 & S1) (R2 & F2 & L2 & S2). split_and!; try congruence.
  intros k Hk. by rewrite S2, S1.
Qed.

Lemma same_below_le b b' cur cur' : (b' <= b)%nat -> same_below b cur cur' -> same_below b' cur cur'.
Proof. intros Hb (R & F & L & S). split_and!; try done. intros k Hk. apply S. lia. Qed.

Lemma same_below_depth b cur cur' : same_below b cur cur' -> depth_ok cur -> depth_ok cur'.
Proof. intros (_ & _ & L & _). unfold depth_ok. by rewrite L. Qed.

Lemma same_below_lookup b cur cur' k :
  same_below b cur cur' -> (k < b)%nat -> c_aLevel cur' !! k = c_aLevel cur !! k.
Proof. intros (_ & _ & _ & Hs). apply Hs. Qed.

Lemma same_below_set_iLevel b cur l : same_below b cur (set_iLevel l cur).
Proof. done. Qed.

Lemma same_below_set_eState b cur s : same_below b cur (set_eState s cur).
Proof. done. Qed.

Lemma in_levels_nat (l : nat) : (l < 20)%nat -> in_levels (Z.of_nat l) = true.
Proof.
  intros Hl. unfold in_levels, PROLLY_CURSOR_MAX_DEPTH. cases_bool; simpl; lia || done.
Qed.

Lemma level_entry_slot cur (l : nat) e i :
  (l < 20)%nat -> c_aLevel cur !! l = Some (Some e, i) ->
  level_entry cur (Z.of_nat l) = Some e /\ level_idx cur (Z.of_nat l) = Some i.
Proof.
  intros Hl E. unfold level_entry, level_idx. by rewrite in_levels_nat, Nat2Z.id, E by done.
Qed.

Lemma put_level_slot cur (l : nat) e i :
  (l < 20)%nat -> depth_ok cur ->
  exists cur', put_level cur (Z.of_nat l) e i = Some cur' /\ same_below l cur cur' /\
    c_aLevel cur' !! l = Some (e, i) /\ c_iLevel cur' = c_iLevel cur /\
    c_eState cur' = c_eState cur.
Proof.
  intros Hl Hd. unfold put_level. rewrite in_levels_nat, Nat2Z.id by done. eexists. split; [done|].
  unfold depth_ok in Hd. unfold same_below.
  cbn [c_root c_flags c_aLevel c_iLevel c_eState set_aLevel]. split_and!; try done.
  - by rewrite length_insert.
  - intros k Hk. rewrite list_lookup_insert_ne by lia. done.
  - rewrite list_lookup_insert_eq by lia. done.
Qed.

Lemma put_idx_slot cur (l : nat) e i j :
  (l < 20)%nat -> depth_ok cur -> c_aLevel cur !! l = Some (e, i) ->
  exists cur', put_idx cur (Z.of_nat l) j = Some cur' /\ same_below l cur cur' /\
    c_aLevel cur' !! l = Some (e, j) /\ c_iLevel cur' = c_iLevel cur /\
    c_eState cur' = c_eState cur.
Proof.
  intros Hl Hd E. unfold put_idx. rewrite in_levels_nat, Nat2Z.id, E by done. by apply put_level_slot.
Qed.

Lemma clear_entry_slot cur (l : nat) e i :
  (l < 20)%nat -> depth_ok cur -> c_aLevel cur !! l = Some (e, i) ->
  exists cur', clear_entry cur (Z.of_nat l) = Some cur' /\ same_below l cur cur' /\
    c_iLevel cur' = c_iLevel cur /\ c_eState cur' = c_eState cur.
Proof.
  intros Hl Hd E. unfold clear_entry. rewrite in_levels_nat, Nat2Z.id, E by done.
  destruct (put_level_slot cur l None i) as (cur' & -> & ? & _ & ? & ?); eauto.
Qed.

Lemma slots_nil cur b : slots cur b [].
Proof. intros k e i. by rewrite lookup_nil. Qed.

Lemma slots_cons cur b e i fr :
  slots cur b ((e, i) :: fr) <-> c_aLevel cur !! b = Some (Some e, i) /\ slots cur (S b) fr.
Proof.
  unfold slots. split.
  - intros Hs. split.
    + specialize (Hs 0%nat e i eq_refl). by rewrite Nat.add_0_r in Hs.
    + intros k e' i' Hk. specialize (Hs (S k) e' i' Hk). by rewrite Nat.add_succ_r in Hs.
  - intros [H0 Hs] [|k] e' i' Hk.
    + injection Hk as <- <-. by rewrite Nat.add_0_r.
    + rewrite Nat.add_succ_r. by apply (Hs k).
Qed.

(** * Descending *)

Lemma loadNode_tree n h its :
  tree n h its -> exists e, loadNode h = Some (OK e) /\ at_node h n e.
Proof.
  intros Ht. destruct (tree_root ik n h its Ht) as (nd & cs & z & El & Hl & Hk & _).
  exists (Entry h nd). unfold loadNode. rewrite El. done.
Qed.

Lemma tree_at_leaf h e its :
  at_node h 0 e -> tree 0 h its -> exists z, node_repr (e_node e) its z.
Proof. intros (_ & El & _) (nd & z & El' & _ & _ & Hr). replace (e_node e) with nd by congruence. eauto. Qed.

Lemma tree_at_inner h n e its :
  at_node h (S n) e -> tree (S n) h its ->
  exists cs subs, node_repr (e_node e) cs 0 /\ its = mjoin subs /\ children_ok n cs subs.
Proof.
  intros (_ & El & _) (nd & cs & subs & El' & _ & _ & Hr & -> & HF).
  replace (e_node e) with nd by congruence. eauto.
Qed.

Lemma descendToChild_spec cur base e i n cs k c sub j :
  (S base < 20)%nat -> depth_ok cur -> c_iLevel cur = Z.of_nat base ->
  c_aLevel cur !! base = Some (Some e, i) -> 0 < level (e_node e) -> node_repr (e_node e) cs 0 ->
  cs !! k = Some c -> tree n (ival c) sub ->
  exists cur' e', descendToChild cur (Z.of_nat k) j = Some (SQLITE_OK, cur') /\
    same_below (S base) cur cur' /\ c_aLevel cur' !! S base = Some (Some e', j) /\
    c_iLevel cur' = Z.of_nat (S base) /\ c_eState cur' = c_eState cur /\ at_node (ival c) n e'.
Proof.
  intros Hb Hd Hl E Hlv Hr Hc Ht. unfold descendToChild. rewrite Hl.
  destruct (level_entry_slot cur base e i) as [-> _]; [lia|done|].
  rewrite (node_child_hash _ _ _ Hr _ c); [|done|lia|by rewrite Nat2Z.id].
  cbn [c_iLevel set_iLevel]. unfold PROLLY_CURSOR_MAX_DEPTH.
  destruct (Z.leb_spec 20 (Z.of_nat base + 1)); [lia|].
  destruct (loadNode_tree _ _ _ Ht) as (e' & -> & He').
  replace (Z.of_nat base + 1) with (Z.of_nat (S base)) by lia.
  destruct (put_level_slot (set_iLevel (Z.of_nat (S base)) cur) (S base) (Some e') j)
    as (cur' & -> & Hs & Hsl & Hil & Hes); [lia|done|]. by exists cur', e'.
Qed.

(** The leftmost or rightmost position below a node. *)
Definition extreme_idx (bRight : bool) (nd : ProllyNode) : Z := if bRight then nItems nd - 1 else 0.
Definition extreme_pos (bRight : bool) (its : list item) : nat :=
  if bRight then (length its - 1)%nat else 0%nat.

Lemma children_lookup n cs subs k c :
  children_ok n cs subs -> cs !! k = Some c ->
  exists sub, subs !! k = Some sub /\ child_ok c sub /\ tree n (ival c) sub.
Proof. intros HF Hc. destruct (Forall2_lookup_l _ _ _ _ _ HF Hc) as (sub & ? & ? & ?). eauto. Qed.

Lemma extreme_child_pos (bRight : bool) n cs subs k sub :
  children_ok n cs subs -> subs !! k = Some sub ->
  Z.of_nat k = (if bRight then zlen cs - 1 else 0) -> sub <> [] ->
  (before subs k + extreme_pos bRight sub)%nat = extreme_pos bRight (mjoin subs).
Proof.
  intros HF Hs Hk Hne. assert (HL : length cs = length subs) by (eapply Forall2_length; exact HF).
  destruct bRight; cbn [extreme_pos]; [|assert (k = 0%nat) as -> by lia; done].
  assert (length sub <> 0%nat) by (by destruct sub).
  pose proof (before_S subs k sub Hs) as HB. rewrite (before_all subs (S k)) in HB by lia. lia.
Qed.

Lemma extreme_loop_spec n : forall fuel cur base h e its bRight,
  (n < fuel)%nat -> (base + n < 20)%nat -> depth_ok cur -> c_iLevel cur = Z.of_nat base ->
  at_node h n e -> tree n h its ->
  c_aLevel cur !! base = Some (Some e, extreme_idx bRight (e_node e)) ->
  exists cur' fr, extreme_loop fuel cur bRight = Some (SQLITE_OK, cur') /\
    same_below base cur cur' /\ slots cur' base fr /\ path n h its fr (extreme_pos bRight its) /\
    c_iLevel cur' = Z.of_nat (base + n) /\ c_eState cur' = c_eState cur.
Proof.
  induction n as [|n IH]; intros fuel cur base h e its bRight Hf Hb Hd Hl He Ht E;
    (destruct fuel as [|fuel]; [lia|]); cbn [extreme_loop]; rewrite Hl;
    (destruct (level_entry_slot cur base e (extreme_idx bRight (e_node e))) as [-> ->]; [lia|done|]);
    pose proof He as (_ & _ & -> & _).
  - cbn [Z.of_nat Z.ltb Z.compare]. destruct (tree_at_leaf _ _ _ He Ht) as [z Hr].
    exists cur, [(e, extreme_idx bRight (e_node e))]. split; [done|]. split; [done|].
    split; [by apply slots_cons; split; [|apply slots_nil]|].
    split; [|by rewrite Nat.add_0_r]. pose proof (repr_nonempty _ _ _ Hr).
    assert (length its <> 0%nat) by (by destruct its).
    cbn [path]. split; [done|]. split; [eauto|]. unfold extreme_idx, extreme_pos.
    rewrite (nd_nItems _ _ _ Hr). destruct bRight; lia.
  - destruct (Z.ltb_spec 0 (Z.of_nat (S n))); [|lia].
    destruct (tree_at_inner _ _ _ _ He Ht) as (cs & subs & Hr & -> & HF).
    pose proof (repr_nonempty _ _ _ Hr) as Hne. assert (length cs <> 0%nat) by (by destruct cs).
    set (k := Z.to_nat (extreme_idx bRight (e_node e))).
    assert (Ek : extreme_idx bRight (e_node e) = Z.of_nat k).
    { unfold k, extreme_idx. rewrite (nd_nItems _ _ _ Hr). destruct bRight; lia. }
    assert (Hk : Z.of_nat k = if bRight then zlen cs - 1 else 0).
    { rewrite <- Ek. unfold extreme_idx. by rewrite (nd_nItems _ _ _ Hr). }
    destruct (lookup_lt_is_Some_2 cs k) as [c Hc]; [destruct bRight; lia|].
    destruct (children_lookup _ _ _ _ _ HF Hc) as (sub & Hsub & Hcok & Htc).
    rewrite Ek. destruct (descendToChild_spec cur base e (extreme_idx bRight (e_node e)) n cs k c sub 0)
      as (cur1 & e1 & -> & Hs1 & E1 & Hl1 & Hst1 & He1); try done; [lia|destruct He as (_ & _ & -> & _); lia|].
    cbn [bind_rc Z.eqb SQLITE_OK]. rewrite Hl1.
    destruct (level_entry_slot cur1 (S base) e1 0) as [-> _]; [lia|done|].
    destruct (tree_root ik n _ _ Htc) as (nd1 & cs1 & z1 & El1 & _ & _ & Hr1).
    assert (nd1 = e_node e1) as -> by (destruct He1 as (_ & El1' & _); congruence).
    pose proof (repr_nonempty _ _ _ Hr1). rewrite (nd_nItems _ _ _ Hr1).
    destruct (Z.eqb_spec (zlen cs1) 0); [by destruct cs1|]. rewrite <- (nd_nItems _ _ _ Hr1).
    fold (extreme_idx bRight (e_node e1)).
    pose proof (same_below_depth _ _ _ Hs1 Hd) as Hd1.
    destruct (put_idx_slot cur1 (S base) (Some e1) 0 (extreme_idx bRight (e_node e1)))
      as (cur2 & -> & Hs2 & E2 & Hl2 & Hst2); [lia|done|done|].
    destruct (IH fuel cur2 (S base) (ival c) e1 sub bRight) as (cur3 & fr & -> & Hs3 & Hsl3 & Hp3 & Hl3 & Hst3);
      try done; [lia|lia|by eapply same_below_depth|by rewrite Hl2|].
    assert (Hs13 : same_below (S base) cur cur3).
    { eapply same_below_trans; [exact Hs1|]. eapply same_below_trans; [exact Hs2|exact Hs3]. }
    exists cur3, ((e, Z.of_nat k) :: fr). split; [done|]. split; [by eapply same_below_le; [|exact Hs13]; lia|].
    split; [|split; [|split; [by rewrite Hl3; f_equal; lia|congruence]]].
    + apply slots_cons. split; [|done]. rewrite (same_below_lookup _ _ _ _ Hs13) by lia. by rewrite <- Ek.
    + cbn [path]. split; [done|]. exists cs, subs, k, c, sub, (extreme_pos bRight sub).
      split_and!; try done. symmetry. eapply extreme_child_pos; [done|done|done|].
      by eapply child_ok_nonempty.
Qed.

(** * Moving *)

(** The cursor stands on item [pos] of the subtree of height [n] whose path
    starts at slot [base]. *)
Definition stands (cur : ProllyCursor) (base n : nat) (h : list Z) (its : list item) (pos : nat) : Prop :=
  exists fr, slots cur base fr /\ path n h its fr pos /\ c_iLevel cur = Z.of_nat (base + n) /\
    c_eState cur = PROLLY_CURSOR_VALID.

Lemma path_length n h its fr pos : path n h its fr pos -> length fr = S n.
Proof.
  revert h its fr pos. induction n as [|n IH]; intros h its [|[e i] fr] pos Hp; try done.
  - by destruct fr.
  - cbn [path] in Hp. destruct Hp as (_ & cs & subs & k & c & sub & pos' & _ & _ & _ & _ & _ & _ & Hp & _).
    cbn [length]. f_equal. by eapply IH.
Qed.

(** Entering the child [k] of the node in slot [base] at its extreme leaf. *)
Lemma enter_child cur base h n e j its cs subs k c sub bRight :
  (base + S n < 20)%nat -> depth_ok cur -> at_node h (S n) e -> node_repr (e_node e) cs 0 ->
  its = mjoin subs -> children_ok n cs subs -> cs !! k = Some c -> subs !! k = Some sub ->
  c_aLevel cur !! base = Some (Some e, j) ->
  exists cur1 cur', put_idx cur (Z.of_nat base) (Z.of_nat k) = Some cur1 /\
    descendToExtremeLeaf (set_iLevel (Z.of_nat base) cur1) bRight = Some (SQLITE_OK, cur') /\
    same_below base cur cur' /\
    stands (set_eState PROLLY_CURSOR_VALID cur') base (S n) h its
      (before subs k + extreme_pos bRight sub)%nat.
Proof.
  intros Hb Hd He Hr -> HF Hc Hsub E.
  destruct (put_idx_slot cur base (Some e) j (Z.of_nat k)) as (cur1 & -> & Hs1 & E1 & Hl1 & Hst1);
    [lia|done|done|].
  pose proof (same_below_depth _ _ _ Hs1 Hd) as Hd1.
  destruct (children_lookup _ _ _ _ _ HF Hc) as (sub' & Hsub' & Hcok & Htc). simplify_eq.
  exists cur1. unfold descendToExtremeLeaf. set (cur0 := set_iLevel (Z.of_nat base) cur1).
  assert (E0 : c_aLevel cur0 !! base = Some (Some e, Z.of_nat k)) by exact E1.
  assert (exists f, 21%nat = S f /\ (n < f)%nat) as (f & -> & Hf) by (exists 20%nat; lia).
  cbn [extreme_loop].
  change (c_iLevel cur0) with (Z.of_nat base).
  destruct (level_entry_slot cur0 base e (Z.of_nat k)) as [-> ->]; [lia|done|].
  pose proof He as (_ & _ & -> & _). destruct (Z.ltb_spec 0 (Z.of_nat (S n))); [|lia].
  destruct (descendToChild_spec cur0 base e (Z.of_nat k) n cs k c sub 0)
    as (cur2 & e2 & -> & Hs2 & E2 & Hl2 & Hst2 & He2); try done; [lia|destruct He as (_ & _ & -> & _); lia|].
  cbn [bind_rc Z.eqb SQLITE_OK]. rewrite Hl2.
  destruct (level_entry_slot cur2 (S base) e2 0) as [-> _]; [lia|done|].
  destruct (tree_root ik n _ _ Htc) as (nd2 & cs2 & z2 & El2 & _ & _ & Hr2).
  assert (nd2 = e_node e2) as -> by (destruct He2 as (_ & El2' & _); congruence).
  pose proof (repr_nonempty _ _ _ Hr2). rewrite (nd_nItems _ _ _ Hr2).
  destruct (Z.eqb_spec (zlen cs2) 0); [by destruct cs2|]. rewrite <- (nd_nItems _ _ _ Hr2).
  fold (extreme_idx bRight (e_node e2)).
  assert (Hd2 : depth_ok cur2) by (by eapply same_below_depth).
  destruct (put_idx_slot cur2 (S base) (Some e2) 0 (extreme_idx bRight (e_node e2)))
    as (cur3 & -> & Hs3 & E3 & Hl3 & Hst3); [lia|done|done|].
  assert (Hd3 : depth_ok cur3) by (by eapply same_below_depth).
  destruct (extreme_loop_spec n f cur3 (S base) (ival c) e2 sub bRight)
    as (cur4 & fr & -> & Hs4 & Hsl4 & Hp4 & Hl4 & Hst4); try done; [lia|by rewrite Hl3|].
  assert (Hs04 : same_below (S base) cur0 cur4).
  { eapply same_below_trans; [exact Hs2|]. eapply same_below_trans; [exact Hs3|exact Hs4]. }
  exists cur4. split; [done|]. split; [done|]. split.
  - eapply same_below_trans; [exact Hs1|]. eapply same_below_le; [|exact Hs04]. lia.
  - exists ((e, Z.of_nat k) :: fr). split_and!; [| |cbn; rewrite Hl4; f_equal; lia|done].
    + apply slots_cons. split; [|done]. by rewrite (same_below_lookup _ _ _ _ Hs04) by lia.
    + cbn [path]. split; [done|]. by exists cs, subs, k, c, sub, (extreme_pos bRight sub).
Qed.

Definition leaf_last (fr : list frame) : Prop :=
  exists e, last fr = Some (e, nItems (e_node e) - 1).

Lemma leaf_last_cons f fr : fr <> [] -> leaf_last (f :: fr) <-> leaf_last fr.
Proof. destruct fr; [done|]. intros _. unfold leaf_last. by rewrite last_cons_cons. Qed.

Lemma next_loop_spec n : forall cur base h its fr pos,
  (base + n < 20)%nat -> depth_ok cur -> slots cur base fr -> path n h its fr pos -> leaf_last fr ->
  (exists cur', next_loop (base + n) cur = Some (SQLITE_OK, cur') /\ same_below base cur cur' /\
     stands cur' base n h its (S pos)) \/
  (S pos = length its /\ exists cur', next_loop (base + n) cur = next_loop base cur' /\
     same_below (S base) cur cur').
Proof.
  induction n as [|n IH]; intros cur base h its fr pos Hb Hd Hs Hp Hlast.
  { right. rewrite Nat.add_0_r. split; [|by exists cur]. destruct fr as [|[e i] [|]]; try done.
    destruct Hp as (_ & [z Hr] & -> & Hpos). destruct Hlast as (e' & [= <- E]).
    rewrite (nd_nItems _ _ _ Hr) in E. lia. }
  destruct fr as [|[e i] fr]; [done|]. apply slots_cons in Hs as [Hs0 Hs].
  destruct Hp as (He & cs & subs & k & c & sub & pos' & Hr & Eits & HF & -> & Hc & Hsub & Hp & ->).
  assert (Hfr : fr <> []) by (intros ->; by apply path_length in Hp).
  apply (leaf_last_cons _ _ Hfr) in Hlast. replace (base + S n)%nat with (S base + n)%nat by lia.
  destruct (IH cur (S base) (ival c) sub fr pos') as [(cur' & -> & Hs' & fr' & Hsl' & Hp' & Hl' & Hst')|
    (Hend & cur1 & -> & Hs1)]; [lia|done|done|done|done| |].
  - left. exists cur'. split; [done|]. split; [by eapply same_below_le; [|exact Hs']; lia|].
    exists ((e, Z.of_nat k) :: fr'). split_and!; [|..|rewrite Hl'; f_equal; lia|done].
    + apply slots_cons. split; [|done]. by rewrite (same_below_lookup _ _ _ _ Hs') by lia.
    + cbn [path]. split; [done|]. exists cs, subs, k, c, sub, (S pos'). split_and!; done || lia.
  - cbn [next_loop].
    assert (Hd1 : depth_ok cur1) by (by eapply same_below_depth).
    destruct fr as [|[e1 i1] fr1]; [done|]. apply slots_cons in Hs as [Hs10 _].
    destruct (lookup_lt_is_Some_2 (c_aLevel cur1) (S base)) as [[e1' i1'] E1]; [unfold depth_ok in Hd1; lia|].
    destruct (clear_entry_slot cur1 (S base) e1' i1') as (cur2 & -> & Hs2 & Hl2 & Hst2); [lia|done|done|].
    assert (Hs02 : same_below (S base) cur cur2).
    { eapply same_below_trans; [eapply same_below_le; [|exact Hs1]; lia|exact Hs2]. }
    assert (E2 : c_aLevel cur2 !! base = Some (Some e, Z.of_nat k)).
    { by rewrite (same_below_lookup _ _ _ _ Hs02) by lia. }
    destruct (level_entry_slot cur2 base e (Z.of_nat k)) as [-> ->]; [lia|done|].
    assert (Hd2 : depth_ok cur2) by (by eapply same_below_depth).
    assert (HLs : length cs = length subs) by (eapply Forall2_length; exact HF).
    rewrite (nd_nItems _ _ _ Hr). pose proof (before_S subs k sub Hsub) as HB.
    pose proof (lookup_lt_Some _ _ _ Hc). destruct (Z.ltb_spec (Z.of_nat k) (zlen cs - 1)) as [Hk|Hk].
    + left. destruct (lookup_lt_is_Some_2 cs (S k)) as [c2 Hc2]; [lia|].
      destruct (lookup_lt_is_Some_2 subs (S k)) as [sub2 Hsub2]; [lia|].
      replace (Z.of_nat k + 1) with (Z.of_nat (S k)) by lia.
      destruct (enter_child cur2 base h n e (Z.of_nat k) its cs subs (S k) c2 sub2 false)
        as (cur3 & cur4 & -> & -> & Hs4 & Hst4); try done.
      cbn [bind_rc Z.eqb SQLITE_OK]. eexists. split; [done|]. split.
      * eapply same_below_trans; [eapply same_below_le; [|exact Hs02]; lia|exact Hs4].
      * cbn [extreme_pos] in Hst4. replace (S (before subs k + pos'))%nat with (before subs (S k) + 0)%nat by lia.
        done.
    + right. split; [|by exists cur2]. rewrite Eits, <- (before_all subs (S k)) by lia. lia.
Qed.

(** The leaf of a path, and moving inside it. *)
Lemma path_leaf n : forall h its fr pos,
  path n h its fr pos ->
  exists e p lits z off, fr !! n = Some (e, Z.of_nat p) /\ last fr = Some (e, Z.of_nat p) /\
    node_repr (e_node e) lits z /\ pos = (off + p)%nat /\ (p < length lits)%nat /\
    (exists r, its = take off its ++ lits ++ r /\ (off <= length its)%nat) /\
    forall q, (q < length lits)%nat -> path n h its (<[n := (e, Z.of_nat q)]> fr) (off + q).
Proof.
  induction n as [|n IH]; intros h its [|[e i] fr] pos Hp; try done.
  - destruct fr; [|done]. destruct Hp as (He & [z Hr] & -> & Hpos).
    exists e, pos, its, z, 0%nat. split_and!; try done.
    + exists []. split; [by rewrite app_nil_r|lia].
    + intros q Hq. cbn. split; [done|]. split; [eauto|]. done.
  - destruct Hp as (He & cs & subs & k & c & sub & pos' & Hr & -> & HF & -> & Hc & Hsub & Hp & ->).
    pose proof (path_length _ _ _ _ _ Hp) as Hlen.
    destruct (IH _ _ _ _ Hp) as (e' & p & lits & z & off & Hn & Hlast & Hr' & -> & Hp' & (r & Es & Hoff) & Hmove).
    exists e', p, lits, z, (before subs k + off)%nat. split_and!; try done.
    + rewrite last_cons, Hlast. done.
    + lia.
    + exists (r ++ mjoin (drop (S k) subs)). rewrite (mjoin_split subs k sub Hsub). split.
      * unfold before. rewrite take_app_add, take_app_le by done. rewrite <- app_assoc. f_equal.
        rewrite Es at 1. by rewrite <- !app_assoc.
      * rewrite !length_app. unfold before. lia.
    + intros q Hq. cbn [insert list_insert path]. split; [done|].
      exists cs, subs, k, c, sub, (off + q)%nat. split_and!; try done; [|lia]. by apply Hmove.
Qed.

(** * The cursor on a tree *)

(** The cursor is valid and stands on item [pos] of the tree of height [n]
    below its root. *)
Definition cursor_at (cur : ProllyCursor) (n : nat) (its : list item) (pos : nat) : Prop :=
  depth_ok cur /\ (n < 20)%nat /\ stands cur 0 n (c_root cur) its pos.

(** The cursor is past the end, its level array intact. *)
Definition cursor_eof (cur : ProllyCursor) : Prop :=
  depth_ok cur /\ c_eState cur = PROLLY_CURSOR_EOF.

Lemma slots_move cur base n fr e i q :
  (base + n < 20)%nat -> depth_ok cur -> slots cur base fr -> length fr = S n ->
  fr !! n = Some (e, i) ->
  exists cur', put_idx cur (Z.of_nat (base + n)) (Z.of_nat q) = Some cur' /\
    same_below (base + n) cur cur' /\ c_iLevel cur' = c_iLevel cur /\ c_eState cur' = c_eState cur /\
    slots cur' base (<[n := (e, Z.of_nat q)]> fr).
Proof.
  intros Hb Hd Hs Hlen Hn.
  destruct (put_idx_slot cur (base + n) (Some e) i (Z.of_nat q)) as (cur' & Ep & Hs' & E' & Hl' & Hst');
    [done|done|by apply Hs|].
  exists cur'. split_and!; try done. intros k e' i' Hk. destruct (decide (k = n)) as [->|Hne].
  - rewrite list_lookup_insert_eq in Hk by (by eapply lookup_lt_Some). by simplify_eq.
  - rewrite list_lookup_insert_ne in Hk by done. pose proof (lookup_lt_Some _ _ _ Hk).
    rewrite (same_below_lookup _ _ _ _ Hs') by lia. by apply Hs.
Qed.

Lemma stands_move cur base n h its fr e q pos :
  (base + n < 20)%nat -> depth_ok cur -> slots cur base fr ->
  fr !! n = Some e -> path n h its (<[n := (e.1, Z.of_nat q)]> fr) pos ->
  c_iLevel cur = Z.of_nat (base + n) -> c_eState cur = PROLLY_CURSOR_VALID ->
  exists cur', put_idx cur (Z.of_nat (base + n)) (Z.of_nat q) = Some cur' /\
    same_below (base + n) cur cur' /\ c_iLevel cur' = c_iLevel cur /\ c_eState cur' = c_eState cur /\
    stands cur' base n h its pos.
Proof.
  intros Hb Hd Hs Hn Hp Hl Hst. destruct e as [e i]. cbn [fst] in Hp.
  pose proof (path_length _ _ _ _ _ Hp) as Hlen. rewrite length_insert in Hlen.
  destruct (slots_move cur base n fr e i q) as (cur' & Ep & Hs' & Hl' & Hst' & Hsl); try done.
  exists cur'. split_and!; try done. eexists. split_and!; [exact Hsl|exact Hp|congruence|congruence].
Qed.

Lemma next_spec cur n its pos :
  cursor_at cur n its pos ->
  exists cur', prollyCursorNext cur = Some (SQLITE_OK, cur') /\ c_root cur' = c_root cur /\
    if decide (S pos < length its)%nat then cursor_at cur' n its (S pos) else cursor_eof cur'.
Proof.
  intros (Hd & Hn & fr & Hs & Hp & Hl & Hst). cbn [Nat.add] in *.
  destruct (path_leaf _ _ _ _ _ Hp) as (e & p & lits & z & off & Hfr & Hlast & Hr & -> & Hpl & (r & Es & Ho) & Hmove).
  pose proof (Hs _ _ _ Hfr) as E. cbn [Nat.add] in E.
  assert (Hlen : (off + length lits <= length its)%nat).
  { rewrite Es, !length_app, length_take. lia. }
  unfold prollyCursorNext. rewrite Hst, Hl. cbn [Z.eqb PROLLY_CURSOR_VALID negb].
  destruct (level_entry_slot cur n e (Z.of_nat p)) as [-> ->]; [lia|done|].
  rewrite (nd_nItems _ _ _ Hr).
  replace ((0 <=? Z.of_nat p) && (Z.of_nat p <? zlen lits)) with true.
  2: { symmetry. rewrite andb_true_iff, Z.leb_le, Z.ltb_lt. lia. }
  cbn [negb]. destruct (Z.ltb_spec (Z.of_nat p) (zlen lits - 1)).
  - replace (Z.of_nat p + 1) with (Z.of_nat (S p)) by lia.
    destruct (stands_move cur 0 n (c_root cur) its fr (e, Z.of_nat p) (S p) (off + S p))
      as (cur' & Ep & Hs' & Hl' & Hst' & Hsd); try done; [apply Hmove; lia|].
    cbn [Nat.add] in Ep. rewrite Ep. exists cur'. split; [done|]. split; [apply Hs'|].
    destruct (decide _); [|lia]. replace (S (off + p)) with (off + S p)%nat by lia.
    split; [by eapply same_below_depth|]. split; [done|]. destruct Hs' as (-> & _). done.
  - rewrite Nat2Z.id. destruct (next_loop_spec n cur 0 (c_root cur) its fr (off + p))
      as [(cur' & E' & Hs' & Hsd)|(Hend & cur' & E' & Hs')]; try done.
    { exists e. rewrite Hlast, (nd_nItems _ _ _ Hr). do 2 f_equal. lia. }
    + cbn [Nat.add] in E'. rewrite E'. exists cur'. split; [done|]. split; [apply Hs'|].
      assert (S (off + p) < length its)%nat.
      { destruct Hsd as (fr' & _ & Hp' & _). destruct (path_leaf _ _ _ _ _ Hp')
          as (? & p' & lits' & ? & off' & _ & _ & _ & Epos & ? & (r' & Es' & ?) & _).
        apply (f_equal length) in Es'. rewrite !length_app, length_take in Es'. lia. }
      destruct (decide _); [|lia].
      split; [by eapply same_below_depth|]. split; [done|]. destruct Hs' as (-> & _). done.
    + cbn [Nat.add] in E'. rewrite E'. cbn [next_loop]. eexists. split; [done|]. split; [apply Hs'|].
      destruct (decide _); [lia|]. split; [by eapply (same_below_depth _ _ _ Hs')|done].
Qed.

Definition leaf_first (fr : list frame) : Prop := exists e, last fr = Some (e, 0).

Lemma leaf_first_cons f fr : fr <> [] -> leaf_first (f :: fr) <-> leaf_first fr.
Proof. destruct fr; [done|]. intros _. unfold leaf_first. by rewrite last_cons_cons. Qed.

Lemma prev_loop_spec n : forall cur base h its fr pos,
  (base + n < 20)%nat -> depth_ok cur -> slots cur base fr -> path n h its fr pos -> leaf_first fr ->
  (exists cur' pos', prev_loop (base + n) cur = Some (SQLITE_OK, cur') /\ same_below base cur cur' /\
     pos = S pos' /\ stands cur' base n h its pos') \/
  (pos = 0%nat /\ exists cur', prev_loop (base + n) cur = prev_loop base cur' /\
     same_below (S base) cur cur').
Proof.
  induction n as [|n IH]; intros cur base h its fr pos Hb Hd Hs Hp Hfirst.
  { right. rewrite Nat.add_0_r. split; [|by exists cur]. destruct fr as [|[e i] [|]]; try done.
    destruct Hp as (_ & [z Hr] & -> & Hpos). destruct Hfirst as (e' & [= <- E]). lia. }
  destruct fr as [|[e i] fr]; [done|]. apply slots_cons in Hs as [Hs0 Hs].
  destruct Hp as (He & cs & subs & k & c & sub & pos' & Hr & Eits & HF & -> & Hc & Hsub & Hp & ->).
  assert (Hfr : fr <> []) by (intros ->; by apply path_length in Hp).
  apply (leaf_first_cons _ _ Hfr) in Hfirst. replace (base + S n)%nat with (S base + n)%nat by lia.
  destruct (IH cur (S base) (ival c) sub fr pos') as [(cur' & pos1 & -> & Hs' & -> & fr' & Hsl' & Hp' & Hl' & Hst')|
    (-> & cur1 & -> & Hs1)]; [lia|done|done|done|done| |].
  - left. exists cur', (before subs k + pos1)%nat. split; [done|].
    split; [by eapply same_below_le; [|exact Hs']; lia|]. split; [lia|].
    exists ((e, Z.of_nat k) :: fr'). split_and!; [|..|rewrite Hl'; f_equal; lia|done].
    + apply slots_cons. split; [|done]. by rewrite (same_below_lookup _ _ _ _ Hs') by lia.
    + cbn [path]. split; [done|]. exists cs, subs, k, c, sub, pos1. split_and!; done || lia.
  - cbn [prev_loop].
    assert (Hd1 : depth_ok cur1) by (by eapply same_below_depth).
    destruct (lookup_lt_is_Some_2 (c_aLevel cur1) (S base)) as [[e1' i1'] E1]; [unfold depth_ok in Hd1; lia|].
    destruct (clear_entry_slot cur1 (S base) e1' i1') as (cur2 & -> & Hs2 & Hl2 & Hst2); [lia|done|done|].
    assert (Hs02 : same_below (S base) cur cur2).
    { eapply same_below_trans; [eapply same_below_le; [|exact Hs1]; lia|exact Hs2]. }
    assert (E2 : c_aLevel cur2 !! base = Some (Some e, Z.of_nat k)).
    { by rewrite (same_below_lookup _ _ _ _ Hs02) by lia. }
    destruct (level_entry_slot cur2 base e (Z.of_nat k)) as [_ ->]; [lia|done|].
    assert (Hd2 : depth_ok cur2) by (by eapply same_below_depth).
    assert (HLs : length cs = length subs) by (eapply Forall2_length; exact HF).
    pose proof (lookup_lt_Some _ _ _ Hc). destruct (Z.ltb_spec 0 (Z.of_nat k)) as [Hk|Hk].
    + left. destruct k as [|k]; [lia|]. destruct (lookup_lt_is_Some_2 cs k) as [c2 Hc2]; [lia|].
      destruct (lookup_lt_is_Some_2 subs k) as [sub2 Hsub2]; [lia|].
      replace (Z.of_nat (S k) - 1) with (Z.of_nat k) by lia.
      destruct (enter_child cur2 base h n e (Z.of_nat (S k)) its cs subs k c2 sub2 true)
        as (cur3 & cur4 & -> & -> & Hs4 & Hst4); try done.
      cbn [bind_rc Z.eqb SQLITE_OK]. eexists _, _. split; [done|]. split.
      * eapply same_below_trans; [eapply same_below_le; [|exact Hs02]; lia|exact Hs4].
      * split; [|exact Hst4]. rewrite (before_S subs k sub2 Hsub2). cbn [extreme_pos].
        destruct (children_lookup _ _ _ _ _ HF Hc2) as (s2 & Hs2' & Hcok & _). simplify_eq.
        pose proof (child_ok_nonempty _ _ Hcok). assert (length sub2 <> 0%nat) by (by destruct sub2). lia.
    + right. assert (k = 0%nat) as -> by lia. split; [done|by exists cur2].
Qed.

Lemma cursor_at_bound cur n its pos : cursor_at cur n its pos -> (pos < length its)%nat.
Proof.
  intros (_ & _ & fr & _ & Hp & _). destruct (path_leaf _ _ _ _ _ Hp)
    as (? & p' & lits' & ? & off' & _ & _ & _ & Epos & ? & (r' & Es' & ?) & _).
  apply (f_equal length) in Es'. rewrite !length_app, length_take in Es'. lia.
Qed.

Lemma prev_spec cur n its pos :
  cursor_at cur n its pos ->
  exists cur', prollyCursorPrev cur = Some (SQLITE_OK, cur') /\ c_root cur' = c_root cur /\
    match pos with O => cursor_eof cur' | S pos' => cursor_at cur' n its pos' end.
Proof.
  intros (Hd & Hn & fr & Hs & Hp & Hl & Hst). cbn [Nat.add] in *.
  destruct (path_leaf _ _ _ _ _ Hp) as (e & p & lits & z & off & Hfr & Hlast & Hr & -> & Hpl & _ & Hmove).
  pose proof (Hs _ _ _ Hfr) as E. cbn [Nat.add] in E.
  unfold prollyCursorPrev. rewrite Hst, Hl. cbn [Z.eqb PROLLY_CURSOR_VALID PROLLY_CURSOR_EOF negb].
  destruct (level_entry_slot cur n e (Z.of_nat p)) as [_ ->]; [lia|done|].
  destruct (Z.ltb_spec 0 (Z.of_nat p)).
  - destruct p as [|p]; [lia|]. replace (Z.of_nat (S p) - 1) with (Z.of_nat p) by lia.
    destruct (stands_move cur 0 n (c_root cur) its fr (e, Z.of_nat (S p)) p (off + p))
      as (cur' & Ep & Hs' & Hl' & Hst' & Hsd); try done; [apply Hmove; lia|].
    cbn [Nat.add] in Ep. rewrite Ep. exists cur'. split; [done|]. split; [apply Hs'|].
    rewrite Nat.add_succ_r. split; [by eapply same_below_depth|]. split; [done|]. destruct Hs' as (-> & _). done.
  - rewrite Nat2Z.id. destruct (prev_loop_spec n cur 0 (c_root cur) its fr (off + p))
      as [(cur' & pos' & E' & Hs' & Epos & Hsd)|(-> & cur' & E' & Hs')]; try done.
    { exists e. rewrite Hlast. do 2 f_equal. lia. }
    + cbn [Nat.add] in E'. rewrite E'. exists cur'. split; [done|]. split; [apply Hs'|]. rewrite Epos.
      split; [by eapply same_below_depth|]. split; [done|]. destruct Hs' as (-> & _). done.
    + cbn [Nat.add] in E'. rewrite E'. cbn [prev_loop]. eexists. split; [done|]. split; [apply Hs'|].
      split; [by eapply (same_below_depth _ _ _ Hs')|done].
Qed.

(** * First and Last *)

Lemma length_release_levels a : length (release_levels a) = length a.
Proof. induction a as [|[[e|] i] a IH]; cbn; auto. Qed.

Lemma initCursorAtRoot_spec cur n its :
  depth_ok cur -> prollyHashIsEmpty (c_root cur) = false -> tree n (c_root cur) its ->
  exists cur' e, initCursorAtRoot cur = Some (SQLITE_OK, cur') /\ c_root cur' = c_root cur /\
    depth_ok cur' /\ c_iLevel cur' = 0 /\ c_eState cur' = PROLLY_CURSOR_INVALID /\
    c_aLevel cur' !! 0%nat = Some (Some e, 0) /\ at_node (c_root cur) n e.
Proof.
  intros Hd He Ht. unfold initCursorAtRoot. cbn [c_root prollyCursorReleaseAll]. rewrite He.
  destruct (loadNode_tree _ _ _ Ht) as (e & -> & Hat).
  set (cur0 := set_iLevel 0 _).
  assert (Hd0 : depth_ok cur0) by (unfold depth_ok, cur0; cbn; rewrite length_release_levels; exact Hd).
  destruct (put_level_slot cur0 0 (Some e) 0) as (cur' & Ep & Hs & E & Hl & Hst); [lia|done|].
  change (Z.of_nat 0) with 0 in Ep. rewrite Ep. exists cur', e. split_and!; try done.
  - apply Hs.
  - by eapply same_below_depth.
Qed.

Lemma extreme_from_root cur n its e bRight :
  (n < 20)%nat -> depth_ok cur -> c_iLevel cur = 0 -> at_node (c_root cur) n e -> tree n (c_root cur) its ->
  c_aLevel cur !! 0%nat = Some (Some e, extreme_idx bRight (e_node e)) ->
  exists cur', (let? (rc, cur) := descendToExtremeLeaf cur bRight in
     if negb (rc =? SQLITE_OK) then Some (rc, cur, 0) else finalizeExtremeCursor cur) =
     Some (SQLITE_OK, cur', 0) /\ c_root cur' = c_root cur /\
     cursor_at cur' n its (extreme_pos bRight its).
Proof.
  intros Hn Hd Hl He Ht E. unfold descendToExtremeLeaf.
  destruct (extreme_loop_spec n 21 cur 0 (c_root cur) e its bRight)
    as (cur1 & fr & -> & Hs1 & Hsl & Hp & Hl1 & Hst1); try done; [lia|].
  cbn [Z.eqb SQLITE_OK negb]. unfold finalizeExtremeCursor. rewrite Hl1. cbn [Nat.add] in *.
  destruct (path_leaf _ _ _ _ _ Hp) as (e1 & p & lits & z & off & Hfr & _ & Hr & _).
  pose proof (Hsl _ _ _ Hfr) as E1. cbn [Nat.add] in E1.
  destruct (level_entry_slot cur1 n e1 (Z.of_nat p)) as [-> _]; [lia|done|].
  rewrite (nd_nItems _ _ _ Hr). pose proof (repr_nonempty _ _ _ Hr).
  destruct (Z.eqb_spec (zlen lits) 0); [by destruct lits|].
  eexists. split; [done|]. split; [apply Hs1|]. split; [by eapply (same_below_depth _ _ _ Hs1)|].
  split; [done|]. exists fr. destruct Hs1 as (Hroot & _). cbn [c_root set_eState]. rewrite Hroot. done.
Qed.

Lemma first_spec cur n its :
  (n < 20)%nat -> depth_ok cur -> prollyHashIsEmpty (c_root cur) = false -> tree n (c_root cur) its ->
  exists cur', prollyCursorFirst cur = Some (SQLITE_OK, cur', 0) /\ c_root cur' = c_root cur /\
    cursor_at cur' n its 0.
Proof.
  intros Hn Hd He Ht. unfold prollyCursorFirst.
  destruct (initCursorAtRoot_spec cur n its) as (cur1 & e & -> & Hr & Hd1 & Hl & Hst & E & Hat); try done.
  cbn [Z.eqb SQLITE_OK negb]. rewrite Hst. cbn [Z.eqb PROLLY_CURSOR_INVALID PROLLY_CURSOR_EOF].
  rewrite <- Hr in *. destruct (extreme_from_root cur1 n its e false) as (cur' & -> & Hr' & Hc); try done.
  exists cur'. split_and!; done || congruence.
Qed.

Lemma last_spec cur n its :
  (n < 20)%nat -> depth_ok cur -> prollyHashIsEmpty (c_root cur) = false -> tree n (c_root cur) its ->
  exists cur', prollyCursorLast cur = Some (SQLITE_OK, cur', 0) /\ c_root cur' = c_root cur /\
    cursor_at cur' n its (length its - 1).
Proof.
  intros Hn Hd He Ht. unfold prollyCursorLast.
  destruct (initCursorAtRoot_spec cur n its) as (cur1 & e & -> & Hr & Hd1 & Hl & Hst & E & Hat); try done.
  cbn [Z.eqb SQLITE_OK negb]. rewrite Hst. cbn [Z.eqb PROLLY_CURSOR_INVALID PROLLY_CURSOR_EOF].
  destruct (level_entry_slot cur1 0 e 0) as [El _]; [lia|done|]. change (Z.of_nat 0) with 0 in El. rewrite El.
  destruct (tree_root ik _ _ _ Ht) as (nd & cs & z & Eld & _ & _ & Hnr).
  assert (nd = e_node e) as -> by (destruct Hat as (_ & ? & _); congruence).
  pose proof (repr_nonempty _ _ _ Hnr). rewrite (nd_nItems _ _ _ Hnr).
  destruct (Z.eqb_spec (zlen cs) 0); [by destruct cs|]. rewrite <- (nd_nItems _ _ _ Hnr).
  destruct (put_idx_slot (set_iLevel 0 cur1) 0 (Some e) 0 (nItems (e_node e) - 1))
    as (cur2 & Ep & Hs2 & E2 & Hl2 & Hst2); [lia|done|done|].
  change (Z.of_nat 0) with 0 in Ep. rewrite Ep.
  assert (Hr2 : c_root cur2 = c_root cur) by (rewrite <- Hr; apply Hs2).
  rewrite <- Hr2 in *.
  destruct (extreme_from_root cur2 n its e true) as (cur' & -> & Hr' & Hc); try done.
  { by eapply (same_below_depth _ _ _ Hs2). }
  exists cur'. split_and!; done || congruence.
Qed.

(** * Reading at the position *)

Lemma cursor_leaf cur n its pos :
  cursor_at cur n its pos ->
  exists e p lits z off r, c_eState cur = PROLLY_CURSOR_VALID /\
    level_entry cur (c_iLevel cur) = Some e /\ level_idx cur (c_iLevel cur) = Some (Z.of_nat p) /\
    node_repr (e_node e) lits z /\ kind_ok ik (e_node e) /\ pos = (off + p)%nat /\
    (p < length lits)%nat /\ its = take off its ++ lits ++ r /\ (off <= length its)%nat /\
    (forall q, (q < length lits)%nat -> exists cur', put_idx cur (c_iLevel cur) (Z.of_nat q) = Some cur' /\
       c_root cur' = c_root cur /\ cursor_at cur' n its (off + q)).
Proof.
  intros (Hd & Hn & fr & Hs & Hp & Hl & Hst). cbn [Nat.add] in *.
  destruct (path_leaf _ _ _ _ _ Hp) as (e & p & lits & z & off & Hfr & Hlast & Hr & -> & Hpl & (r & Es & Ho) & Hmove).
  pose proof (Hs _ _ _ Hfr) as E. cbn [Nat.add] in E.
  exists e, p, lits, z, off, r. rewrite Hl.
  destruct (level_entry_slot cur n e (Z.of_nat p)) as [-> ->]; [lia|done|].
  split_and!; try done.
  - specialize (Hmove p Hpl). clear -Hmove Hfr Hp. rewrite list_insert_id in Hmove by done. clear Hmove.
    revert fr Hfr Hp. generalize (c_root cur), its, (off + p)%nat.
    induction n as [|n IH]; intros h its' pos [|[e' i'] fr] Hfr Hp; try done.
    + destruct fr; [|done]. injection Hfr as -> _. destruct Hp as ((_ & _ & _ & Hk) & _). done.
    + destruct Hp as (_ & cs & subs & k & c & sub & pos' & _ & _ & _ & _ & _ & _ & Hp & _).
      by eapply IH.
  - intros q Hq. destruct (stands_move cur 0 n (c_root cur) its fr (e, Z.of_nat p) q (off + q))
      as (cur' & Ep & Hs' & Hl' & Hst' & Hsd); try done; [by apply Hmove|].
    cbn [Nat.add] in Ep. exists cur'. split; [done|]. split; [apply Hs'|].
    split; [by eapply same_below_depth|]. split; [done|]. destruct Hs' as (-> & _). done.
Qed.

Lemma leaf_lookup {A} (its lits r : list A) off p :
  its = take off its ++ lits ++ r -> (off <= length its)%nat -> (p < length lits)%nat ->
  its !! (off + p)%nat = lits !! p.
Proof.
  intros E Ho Hp. rewrite E, lookup_app_r; rewrite length_take; [|lia].
  replace (_ + _ - _)%nat with p by lia. by rewrite lookup_app_l.
Qed.

Lemma key_spec cur n its pos it :
  cursor_at cur n its pos -> its !! pos = Some it ->
  (exists r, prollyCursorKey cur = Some (ikey it ++ r, zlen (ikey it))) /\
  (ik = true -> exists v, is_i64 v /\ ikey it = prollyEncodeIntKey v /\ prollyCursorIntKey cur = Some v).
Proof.
  intros Hc Hit. destruct (cursor_leaf _ _ _ _ Hc)
    as (e & p & lits & z & off & r & Hst & He & Hi & Hr & Hk & -> & Hp & Es & Ho & _).
  rewrite (leaf_lookup _ _ _ _ _ Es Ho Hp) in Hit.
  unfold prollyCursorKey, prollyCursorIntKey. rewrite Hst, He, Hi. cbn [Z.eqb PROLLY_CURSOR_VALID negb]. split.
  - eexists. apply (node_key _ _ _ Hr); [lia|by rewrite Nat2Z.id].
  - intros ->. destruct (read_intkey _ _ _ Hr Hk (Z.of_nat p) it) as (v & ? & ? & ? & _);
      [lia|by rewrite Nat2Z.id|eauto].
Qed.

Lemma value_spec cur n its pos it :
  cursor_at cur n its pos -> its !! pos = Some it ->
  (forall e, level_entry cur (c_iLevel cur) = Some e -> nDataPhys (e_node e) = nData (e_node e)) ->
  exists r, prollyCursorValue cur = Some (ival it ++ r, zlen (ival it)).
Proof.
  intros Hc Hit Hdense. destruct (cursor_leaf _ _ _ _ Hc)
    as (e & p & lits & z & off & r & Hst & He & Hi & Hr & Hk & -> & Hp & Es & Ho & _).
  rewrite (leaf_lookup _ _ _ _ _ Es Ho Hp) in Hit.
  unfold prollyCursorValue. rewrite Hst, He, Hi. cbn [Z.eqb PROLLY_CURSOR_VALID negb].
  assert (z = 0%nat).
  { specialize (Hdense e He). destruct (repr_encode _ _ _ Hr) as [_ En].
    pose proof (f_equal nDataPhys (repr_nd _ _ _ Hr)) as Ep. pose proof (f_equal pData (repr_nd _ _ _ Hr)) as Ed.
    cbn [nDataPhys pData node_of] in Ep, Ed. rewrite <- Ed in Ep. lia. }
  apply (node_value _ _ _ Hr); [done|lia|by rewrite Nat2Z.id].
Qed.

(** * Seeking *)

Lemma children_ok_child n cs subs : children_ok n cs subs -> Forall2 child_ok cs subs.
Proof. intros HF. eapply Forall2_impl; [exact HF|]. by intros c sub [? _]. Qed.

Section seek.
(** One of the two node searches, for the key [k]. *)
Context (search : ProllyNode -> option (Z * Z)) (k : list Z).
Context (Hsearch : forall nd its z, node_repr nd its z -> keys_sorted its -> kind_ok ik nd ->
  exists idx res, search nd = Some (idx, res) /\ search_spec its k idx res).

(** A path down to a leaf of items [lits], which are the items from [off] on,
    whatever the leaf index is. *)
Definition leaf_frames (cur : ProllyCursor) (n : nat) (h : list Z) (its : list item) (base : nat)
    (e : ProllyCacheEntry) (lits : list item) (off : nat) : Prop :=
  exists fr i z, slots cur base fr /\ length fr = S n /\ fr !! n = Some (e, i) /\
    node_repr (e_node e) lits z /\ kind_ok ik (e_node e) /\ keys_sorted lits /\
    (forall q, (q < length lits)%nat -> path n h its (<[n := (e, Z.of_nat q)]> fr) (off + q)).

(** A descent that has reached the leaf where a search for [k] has to end. *)
Definition leaf_reached (cur : ProllyCursor) (n : nat) (h : list Z) (its : list item) (base : nat)
    (e : ProllyCacheEntry) (lits : list item) (off : nat) : Prop :=
  leaf_frames cur n h its base e lits off /\
  (forall q r, search_spec lits k (Z.of_nat q) r -> search_spec its k (Z.of_nat (off + q)) r).

Lemma seek_loop_spec n : forall fuel cur base h e its i0,
  (n < fuel)%nat -> (base + n < 20)%nat -> depth_ok cur -> c_iLevel cur = Z.of_nat base ->
  at_node h n e -> tree n h its -> keys_sorted its -> c_aLevel cur !! base = Some (Some e, i0) ->
  exists cur' e' lits off, seek_loop fuel search cur = Some (SQLITE_OK, cur') /\
    same_below base cur cur' /\ c_iLevel cur' = Z.of_nat (base + n) /\
    leaf_reached cur' n h its base e' lits off.
Proof.
  induction n as [|n IH]; intros fuel cur base h e its i0 Hf Hb Hd Hl He Ht Hso E;
    (destruct fuel as [|fuel]; [lia|]); cbn [seek_loop]; rewrite Hl;
    (destruct (level_entry_slot cur base e i0) as [-> _]; [lia|done|]);
    pose proof He as (_ & _ & Hlv & Hkd).
  - rewrite Hlv. cbn [Z.of_nat Z.ltb Z.compare]. destruct (tree_at_leaf _ _ _ He Ht) as [z Hr].
    exists cur, e, its, 0%nat. split_and!; [done|done|by rewrite Nat.add_0_r|].
    split; [|done]. exists [(e, i0)], i0, z.
    split_and!; try done; [by apply slots_cons; split; [|apply slots_nil]|]. intros q Hq. cbn. split; [done|]. split; [eauto|done].
  - rewrite Hlv. destruct (Z.ltb_spec 0 (Z.of_nat (S n))); [|lia].
    destruct (tree_at_inner _ _ _ _ He Ht) as (cs & subs & Hr & -> & HF).
    pose proof (children_ok_child _ _ _ HF) as HFc.
    destruct (Hsearch _ _ _ Hr (entries_sorted _ _ HFc Hso) Hkd) as (idx & sres & -> & Hsp).
    assert (Eidx : childIndexForSearchResult idx sres (nItems (e_node e)) = idx).
    { unfold childIndexForSearchResult. rewrite (nd_nItems _ _ _ Hr).
      apply search_cases in Hsp as [? [[-> _]|[(-> & -> & _)|[-> _]]]]; cbn; try done.
      destruct (Z.ltb_spec (zlen cs - 1) (zlen cs - 1)); [lia|done]. }
    rewrite Eidx. pose proof Hsp as [Hidx _]. set (i := Z.to_nat idx).
    assert (Ei : idx = Z.of_nat i) by lia. rewrite Ei in *.
    destruct (put_idx_slot cur base (Some e) i0 (Z.of_nat i)) as (cur1 & -> & Hs1 & E1 & Hl1 & _); [lia|done|done|].
    assert (Hd1 : depth_ok cur1) by (by eapply same_below_depth).
    destruct (lookup_lt_is_Some_2 cs i) as [c Hc]; [lia|].
    destruct (children_lookup _ _ _ _ _ HF Hc) as (sub & Hsub & Hcok & Htc).
    destruct (descendToChild_spec cur1 base e (Z.of_nat i) n cs i c sub 0)
      as (cur2 & e2 & -> & Hs2 & E2 & Hl2 & _ & He2); try done; [lia|congruence|rewrite Hlv; lia|].
    cbn [bind_rc Z.eqb SQLITE_OK].
    destruct (IH fuel cur2 (S base) (ival c) e2 sub 0) as (cur3 & e3 & lits & off & -> & Hs3 & Hl3 & Hlf);
      try done; [lia|lia|by eapply same_below_depth|by eapply sub_sorted|].
    assert (Hs13 : same_below (S base) cur1 cur3) by (by eapply same_below_trans).
    exists cur3, e3, lits, (before subs i + off)%nat. split; [done|].
    split; [eapply same_below_trans; [exact Hs1|eapply same_below_le; [|exact Hs13]; lia]|].
    split; [rewrite Hl3; f_equal; lia|].
    destruct Hlf as ((fr & j & z & Hsl & Hlen & Hfr & Hr3 & Hk3 & Hso3 & Hmove) & Hlift).
    split; [exists ((e, Z.of_nat i) :: fr), j, z; split_and!; try done|].
    + apply slots_cons. split; [|done]. by rewrite (same_below_lookup _ _ _ _ Hs13) by lia.
    + cbn [length]. by rewrite Hlen.
    + intros q Hq. cbn [insert list_insert path]. split; [done|].
      exists cs, subs, i, c, sub, (off + q)%nat. split_and!; try done; [by apply Hmove|lia].
    + intros q r Hq. replace (before subs i + off + q)%nat with (before subs i + (off + q))%nat by lia.
      eapply search_combine; [exact HFc|done|exact Hsp|done|by apply Hlift].
Qed.

(** What a seek promises: the position and the result. *)
Definition sought (n : nat) (its : list item) (root : list Z) (r : option (Z * ProllyCursor * Z)) : Prop :=
  exists cur' pos res, r = Some (SQLITE_OK, cur', res) /\ c_root cur' = root /\
    cursor_at cur' n its pos /\ search_spec its k (Z.of_nat pos) (- res).

Lemma finalizeSeek_spec cur n its e lits off q res :
  (n < 20)%nat -> depth_ok cur -> c_iLevel cur = Z.of_nat n ->
  leaf_frames cur n (c_root cur) its 0 e lits off ->
  (q < length lits)%nat -> search_spec its k (Z.of_nat (off + q)) res ->
  sought n its (c_root cur) (finalizeSeekOnLeaf cur e (Z.of_nat q) res).
Proof.
  clear Hsearch search. intros Hn Hd Hl (fr & i & z & Hsl & Hlen & Hfr & Hr & Hk & Hso & Hmove) Hq Hsp.
  unfold finalizeSeekOnLeaf. rewrite Hl.
  destruct (slots_move cur 0 n fr e i q) as (cur1 & Ep & Hs1 & Hl1 & _ & Hsl1); try done.
  cbn [Nat.add] in Ep. rewrite Ep.
  assert (Hat : forall st, st = PROLLY_CURSOR_VALID -> cursor_at (set_eState st cur1) n its (off + q)).
  { intros st ->. split; [by eapply (same_below_depth _ _ _ Hs1)|]. split; [done|].
    eexists. split_and!; [exact Hsl1| |cbn; congruence|done].
    cbn [c_root set_eState]. destruct Hs1 as (-> & _). by apply Hmove. }
  pose proof (search_cases _ _ _ _ Hsp) as [_ Hc].
  rewrite (nd_nItems _ _ _ Hr). destruct (Z.eqb_spec res 0) as [->|Hres].
  - eexists _, _, 0. split; [done|]. split; [apply Hs1|]. split; [by apply Hat|done].
  - destruct (Z.leb_spec (zlen lits) (Z.of_nat q)); [lia|].
    eexists _, _, _. split; [done|]. split; [apply Hs1|]. split; [by apply Hat|].
    destruct Hc as [[? _]|[[-> _]|[-> _]]]; done.
Qed.

Lemma seek_from_root_spec cur n its :
  (n < 20)%nat -> depth_ok cur -> prollyHashIsEmpty (c_root cur) = false -> tree n (c_root cur) its ->
  keys_sorted its -> sought n its (c_root cur) (seek_from_root search cur).
Proof.
  intros Hn Hd He Ht Hso. unfold seek_from_root.
  destruct (initCursorAtRoot_spec cur n its) as (cur1 & e & -> & Hroot & Hd1 & Hl & Hst & E & Hat); try done.
  cbn [Z.eqb SQLITE_OK negb]. rewrite Hst. cbn [Z.eqb PROLLY_CURSOR_INVALID PROLLY_CURSOR_EOF].
  destruct (seek_loop_spec n 21 cur1 0 (c_root cur) e its 0) as (cur2 & e2 & lits & off & -> & Hs2 & Hl2 & Hlf);
    try done; [lia|].
  cbn [Z.eqb SQLITE_OK negb Nat.add] in *. rewrite Hl2.
  destruct Hlf as [Hlf Hlift].
  pose proof Hlf as (fr & i & z & Hsl & _ & Hfr & Hr & Hk & Hso2 & _).
  destruct (level_entry_slot cur2 n e2 i) as [-> _]; [lia|by apply (Hsl n)|].
  pose proof (repr_nonempty _ _ _ Hr). rewrite (nd_nItems _ _ _ Hr).
  destruct (Z.eqb_spec (zlen lits) 0); [by destruct lits|].
  destruct (Hsearch _ _ _ Hr Hso2 Hk) as (q & res & -> & Hsp). pose proof Hsp as [Hq _].
  replace q with (Z.of_nat (Z.to_nat q)) in * by lia.
  assert (Hr2 : c_root cur2 = c_root cur) by (destruct Hs2 as (-> & _); done).
  rewrite <- Hr2 in *. eapply finalizeSeek_spec; [done|by eapply same_below_depth|done|done|lia|by apply Hlift].
Qed.

(** A search inside the current leaf, when the key lies between its ends. *)
Lemma leaf_search_lift its lits rest off q res f l :
  its = take off its ++ lits ++ rest -> (off <= length its)%nat -> keys_sorted its ->
  lits !! 0%nat = Some f -> last lits = Some l ->
  ~ key_lt k (ikey f) -> ~ key_lt (ikey l) k ->
  search_spec lits k (Z.of_nat q) res -> search_spec its k (Z.of_nat (off + q)) res.
Proof.
  clear Hsearch search. intros Es Ho Hso Hf Hl Hge Hle Hsp. apply search_cases in Hsp as [Hq Hsp]. rewrite Nat2Z.id in Hsp.
  assert (Hlen : (off + length lits <= length its)%nat) by (rewrite Es, !length_app, length_take; lia).
  split; [lia|]. rewrite !Nat2Z.id. destruct Hsp as [(-> & it & Hit & Ek)|[(-> & _ & Hall)|(-> & Hlo & Hhi)]].
  - exists it. split; [|done]. rewrite <- Hit. by eapply leaf_lookup; [|done|lia].
  - exfalso. apply Hle. rewrite Forall_forall in Hall. by apply Hall, last_Some_elem_of.
  - assert (HS := Hso). unfold keys_sorted in HS. rewrite Es, !fmap_app in HS.
    assert (Hlow : Forall (fun it => key_lt (ikey it) k) (take off its)).
    { apply Forall_forall. intros x Hx.
      assert (key_lt (ikey x) (ikey f)).
      { apply (StronglySorted_app_1_elem_of _ _ _ _ _ HS); [by apply list_elem_of_fmap_2|].
        apply elem_of_app. left. apply list_elem_of_fmap_2. by eapply list_elem_of_lookup_2. }
      destruct (key_trichotomy (ikey f) k) as [?|[<-|?]]; [by transitivity (ikey f)|done|done]. }
    assert (Hhigh : Forall (fun it => key_lt k (ikey it)) rest).
    { apply StronglySorted_app_1_r in HS. apply Forall_forall. intros x Hx.
      assert (key_lt (ikey l) (ikey x)).
      { apply (StronglySorted_app_1_elem_of _ _ _ _ _ HS); [|by apply list_elem_of_fmap_2].
        by apply list_elem_of_fmap_2, last_Some_elem_of. }
      destruct (key_trichotomy (ikey l) k) as [?|[<-|?]]; [done|done|by transitivity (ikey l)]. }
    assert (Et : length (take off its) = off) by (rewrite length_take; lia).
    rewrite Es. split.
    + rewrite <- Et at 1. rewrite take_app_add, take_app_le by lia. by apply Forall_app.
    + rewrite <- Et at 1. rewrite drop_app_add, drop_app_le by lia. by apply Forall_app.
Qed.
End seek.

Lemma path_head n h its fr pos :
  path n h its fr pos -> exists e i fr', fr = (e, i) :: fr' /\ at_node h n e.
Proof.
  destruct n, fr as [|[e i] fr]; cbn [path]; try done.
  - destruct fr; [|done]. intros (? & _). eauto.
  - intros (? & _). eauto.
Qed.

Lemma sorted_middle (its lits r : list item) off :
  its = take off its ++ lits ++ r -> keys_sorted its -> keys_sorted lits.
Proof.
  unfold keys_sorted. intros Es Hs. rewrite Es, !fmap_app in Hs.
  by apply StronglySorted_app_1_r, StronglySorted_app_1_l in Hs.
Qed.

Lemma current_leaf_spec cur n its pos :
  cursor_at cur n its pos -> keys_sorted its -> hash_wf (c_root cur) ->
  exists e p lits off r z, cursorCurrentLeaf cur = Some (Some e) /\ c_iLevel cur = Z.of_nat n /\
    level_idx cur (c_iLevel cur) = Some (Z.of_nat p) /\
    leaf_frames cur n (c_root cur) its 0 e lits off /\ node_repr (e_node e) lits z /\
    its = take off its ++ lits ++ r /\ (off <= length its)%nat /\ pos = (off + p)%nat /\
    (p < length lits)%nat.
Proof.
  intros Hc Hso [Wr Lr]. destruct (cursor_leaf _ _ _ _ Hc)
    as (e & p & lits & z & off & r & Hst & He & Hi & Hr & Hk & Epos & Hp & Es & Ho & _).
  destruct Hc as (Hd & Hn & fr & Hs & Hpa & Hl & _). cbn [Nat.add] in Hl.
  destruct (path_head _ _ _ _ _ Hpa) as (e0 & i0 & fr' & -> & (Hh & _)).
  pose proof (Hs 0%nat e0 i0 eq_refl) as E0. cbn [Nat.add] in E0.
  exists e, p, lits, off, r, z. split_and!; try done.
  - unfold cursorCurrentLeaf, prollyHashCompare. rewrite Hst, E0. cbn [Z.eqb PROLLY_CURSOR_VALID negb].
    rewrite Hh, memcmp_spec by (rewrite Lr; done). rewrite lexcmp_refl. cbn [cmp_sign Z.eqb negb].
    by rewrite He.
  - destruct (path_leaf _ _ _ _ _ Hpa) as (e' & p' & lits' & z' & off' & Hfr & _ & Hr' & -> & Hp' & (r' & Es' & Ho') & Hmove).
    pose proof (Hs _ _ _ Hfr) as E1. cbn [Nat.add] in E1.
    destruct (level_entry_slot cur n e' (Z.of_nat p')) as [El Ei]; [lia|done|].
    rewrite Hl in He, Hi. assert (e' = e) as -> by congruence. assert (p' = p) as -> by (assert (Z.of_nat p' = Z.of_nat p) by congruence; lia).
    assert (off' = off) as -> by lia.
    assert (lits' = lits) as ->.
    { apply list_eq_same_length with (n := length lits); try done.
      - pose proof (nd_nItems _ _ _ Hr). pose proof (nd_nItems _ _ _ Hr'). lia.
      - intros j x y Hj Hx Hy.
        rewrite <- (leaf_lookup its lits' r' off j) in Hx; [|done|done|by eapply lookup_lt_Some].
        rewrite <- (leaf_lookup its lits r off j) in Hy; [|done|done|by eapply lookup_lt_Some].
        congruence. }
    exists ((e0, i0) :: fr'), (Z.of_nat p), z. split_and!; try done.
    + by eapply path_length.
    + by eapply sorted_middle.
Qed.

Lemma search_int_search v : ik = true -> is_i64 v ->
  forall nd its z, node_repr nd its z -> keys_sorted its -> kind_ok ik nd ->
  exists idx res, prollyNodeSearchInt nd v = Some (idx, res) /\ search_spec its (prollyEncodeIntKey v) idx res.
Proof. intros Hik Hv nd its z Hr Hs Hk. eapply search_int_spec; try done. by rewrite <- Hik. Qed.

Lemma search_blob_search pKey nKey : bytes_wf pKey -> key_arg pKey nKey ->
  forall nd its z, node_repr nd its z -> keys_sorted its -> kind_ok ik nd ->
  exists idx res, prollyNodeSearchBlob nd pKey nKey = Some (idx, res) /\ search_spec its (key_of pKey nKey) idx res.
Proof. intros Wp Hk nd its z Hr Hs _. by eapply search_blob_spec. Qed.

(** The cursor states a seek may start from. *)
Definition seekable (cur : ProllyCursor) (n : nat) (its : list item) : Prop :=
  depth_ok cur /\ (c_eState cur <> PROLLY_CURSOR_VALID \/ exists pos, cursor_at cur n its pos).

Lemma not_valid_no_leaf cur : c_eState cur <> PROLLY_CURSOR_VALID -> cursorCurrentLeaf cur = Some None.
Proof.
  intros Hne. unfold cursorCurrentLeaf. by destruct (Z.eqb_spec (c_eState cur) PROLLY_CURSOR_VALID).
Qed.

Lemma seekInt_spec cur n its v :
  (n < 20)%nat -> seekable cur n its -> hash_wf (c_root cur) -> prollyHashIsEmpty (c_root cur) = false ->
  tree n (c_root cur) its -> keys_sorted its -> ik = true -> is_i64 v ->
  sought (prollyEncodeIntKey v) n its (c_root cur) (prollyCursorSeekInt cur v).
Proof.
  intros Hn [Hd Hst] Hw He Ht Hso Hik Hv. unfold prollyCursorSeekInt. cbn zeta.
  assert (Hroot : sought (prollyEncodeIntKey v) n its (c_root cur)
    (seek_from_root (fun nd => prollyNodeSearchInt nd v) cur)).
  { apply seek_from_root_spec; try done. by apply search_int_search. }
  destruct Hst as [Hst|[pos Hc]]; [by rewrite not_valid_no_leaf|].
  destruct (current_leaf_spec _ _ _ _ Hc Hso Hw)
    as (e & p & lits & off & r & z & -> & Hl & Hi & Hlf & Hr & Es & Ho & -> & Hp).
  pose proof Hlf as (_ & _ & _ & _ & _ & _ & _ & Hk & Hsl & _).
  assert (Hk' : has_flag (flags (e_node e)) PROLLY_NODE_INTKEY = true) by (by rewrite <- Hik).
  destruct (lookup_lt_is_Some_2 lits 0) as [f Hf]; [lia|].
  destruct (lookup_lt_is_Some_2 lits (length lits - 1)) as [l Hlst]; [lia|].
  destruct (read_intkey _ _ _ Hr Hk' 0 f) as (vf & Hvf & Ef & -> & _); [lia|done|].
  destruct (Z.leb_spec vf v); [|done]. rewrite (nd_nItems _ _ _ Hr).
  destruct (read_intkey _ _ _ Hr Hk' (zlen lits - 1) l) as (vl & Hvl & El & -> & _); [lia|by rewrite <- Hlst; f_equal; lia|].
  destruct (Z.leb_spec v vl); [|done].
  destruct (search_int_search v Hik Hv _ _ _ Hr Hsl Hk) as (q & res & -> & Hsp). pose proof Hsp as [Hq _].
  replace q with (Z.of_nat (Z.to_nat q)) in * by lia.
  eapply finalizeSeek_spec; [done|done|done|exact Hlf|lia|].
  eapply leaf_search_lift with (f := f) (l := l); try done.

  - rewrite last_lookup, <- Hlst. f_equal. lia.
  - rewrite Ef, intkey_lt_iff by done. lia.
  - rewrite El, intkey_lt_iff by done. lia.
Qed.

Lemma compare_with_item_spec nd its z i it pKey nKey :
  node_repr nd its z -> key_arg pKey nKey -> 0 <= i -> its !! Z.to_nat i = Some it ->
  compare_with_item nd i pKey nKey = Some (cmp_sign (lexcmp (key_of pKey nKey) (ikey it))).
Proof.
  intros Hr Hk Hi Hl. pose proof (item_sizes _ _ _ Hr _ _ Hl) as [Sk _].
  unfold compare_with_item. rewrite node_key with (it := it) (1 := Hr) by done.
  rewrite prollyCompareKeys_blob_spec; [|done|done|split; rewrite ?length_app; lia].
  unfold key_of at 2. by rewrite Nat2Z.id, take_app_length.
Qed.

(** A key above the item at [pos] and not above the next one is found at [pos + 1]. *)
Lemma search_next its k pos x y :
  keys_sorted its -> its !! pos = Some x -> its !! S pos = Some y ->
  key_lt (ikey x) k -> cmp_sign (lexcmp k (ikey y)) <= 0 ->
  search_spec its k (Z.of_nat (S pos)) (cmp_sign (lexcmp k (ikey y))).
Proof.
  intros Hs Hx Hy Hlt Hle. pose proof (lookup_lt_Some _ _ _ Hy). split; [lia|].
  rewrite Nat2Z.id. destruct (lexcmp k (ikey y)) eqn:E; cbn [cmp_sign] in *; [| |lia].
  - exists y. split; [done|]. symmetry. by apply lexcmp_eq.
  - split; apply Forall_lookup; intros j w Hw.
    + apply lookup_take_Some in Hw as [Hw ?]. destruct (decide (j = pos)) as [->|]; [by simplify_eq|].
      eapply key_lt_trans; [|exact Hlt]. eapply keys_sorted_lookup; [done|exact Hw|exact Hx|lia].
    + rewrite lookup_drop in Hw. destruct j as [|j]; [rewrite Nat.add_0_r in Hw; by simplify_eq|].
      eapply key_lt_trans; [exact E|]. eapply keys_sorted_lookup; [done|exact Hy|exact Hw|lia].
Qed.

Lemma seekBlob_in_leaf_spec cur n its pKey nKey e lits off r z :
  (n < 20)%nat -> depth_ok cur -> c_iLevel cur = Z.of_nat n -> keys_sorted its ->
  leaf_frames cur n (c_root cur) its 0 e lits off -> node_repr (e_node e) lits z ->
  its = take off its ++ lits ++ r -> (off <= length its)%nat -> (0 < length lits)%nat ->
  bytes_wf pKey -> key_arg pKey nKey ->
  sought (key_of pKey nKey) n its (c_root cur)
    (seek_from_root (fun nd => prollyNodeSearchBlob nd pKey nKey) cur) ->
  sought (key_of pKey nKey) n its (c_root cur) (seekBlob_in_leaf cur e pKey nKey).
Proof.
  intros Hn Hd Hl Hso Hlf Hr Es Ho Hlen Wp Hkey Hroot. set (k := key_of pKey nKey) in *.
  pose proof Hlf as (_ & _ & _ & _ & _ & _ & _ & Hk & Hsl & _).
  destruct (lookup_lt_is_Some_2 lits 0) as [f Hf]; [lia|].
  destruct (lookup_lt_is_Some_2 lits (length lits - 1)) as [l Hlst]; [lia|].
  unfold seekBlob_in_leaf. rewrite (nd_nItems _ _ _ Hr).
  rewrite (compare_with_item_spec _ _ _ 0 f) with (1 := Hr) by done. fold k.
  destruct (Z.leb_spec 0 (cmp_sign (lexcmp k (ikey f)))) as [C0|]; [|done].
  rewrite (compare_with_item_spec _ _ _ (zlen lits - 1) l) with (1 := Hr);
    [|done|lia|rewrite <- Hlst; f_equal; lia]. fold k.
  destruct (Z.leb_spec (cmp_sign (lexcmp k (ikey l))) 0) as [C1|]; [|done].
  destruct (search_blob_search pKey nKey Wp Hkey _ _ _ Hr Hsl Hk) as (q & res & -> & Hsp).
  pose proof Hsp as [Hq _]. replace q with (Z.of_nat (Z.to_nat q)) in * by lia.
  eapply finalizeSeek_spec; [done|done|done|exact Hlf|lia|].
  eapply leaf_search_lift with (f := f) (l := l); try done.
  - rewrite last_lookup, <- Hlst. f_equal. lia.
  - intros E. unfold key_lt in E. rewrite E in C0. done.
  - intros E. unfold key_lt in E. rewrite lexcmp_antisym, E in C1. done.
Qed.

Lemma seekBlob_spec cur n its pKey nKey :
  (n < 20)%nat -> seekable cur n its -> hash_wf (c_root cur) -> prollyHashIsEmpty (c_root cur) = false ->
  tree n (c_root cur) its -> keys_sorted its -> bytes_wf pKey -> key_arg pKey nKey ->
  sought (key_of pKey nKey) n its (c_root cur) (prollyCursorSeekBlob cur pKey nKey).
Proof.
  intros Hn [Hd Hst] Hw He Ht Hso Wp Hkey. unfold prollyCursorSeekBlob. cbn zeta.
  assert (Hroot : sought (key_of pKey nKey) n its (c_root cur)
    (seek_from_root (fun nd => prollyNodeSearchBlob nd pKey nKey) cur)).
  { apply seek_from_root_spec; try done. by apply search_blob_search. }
  destruct Hst as [Hst|[pos Hc]]; [by rewrite not_valid_no_leaf|].
  destruct (current_leaf_spec _ _ _ _ Hc Hso Hw)
    as (e & p & lits & off & r & z & -> & Hl & -> & Hlf & Hr & Es & Ho & -> & Hp).
  assert (Hin : sought (key_of pKey nKey) n its (c_root cur) (seekBlob_in_leaf cur e pKey nKey))
    by (eapply seekBlob_in_leaf_spec; (done || lia)).
  set (k := key_of pKey nKey) in *. rewrite (nd_nItems _ _ _ Hr).
  destruct (Z.ltb_spec 0 (zlen lits)); [|lia].
  destruct (lookup_lt_is_Some_2 lits p) as [x Hx]; [lia|].
  assert (Hx' : its !! (off + p)%nat = Some x) by (by rewrite (leaf_lookup its lits r off p)).
  rewrite (compare_with_item_spec _ _ _ (Z.of_nat p) x) with (1 := Hr); [|done|lia|by rewrite Nat2Z.id].
  fold k. destruct (Z.eqb_spec (cmp_sign (lexcmp k (ikey x))) 0) as [E|NE].
  - exists cur, (off + p)%nat, 0. split_and!; try done. split; [apply lookup_lt_Some in Hx'; lia|].
    rewrite Nat2Z.id. exists x. split; [done|]. symmetry. apply lexcmp_eq. by destruct (lexcmp k (ikey x)).
  - destruct (Z.ltb_spec 0 (cmp_sign (lexcmp k (ikey x)))) as [G|]; cbn [andb]; [|done].
    destruct (Z.ltb_spec (Z.of_nat p) (zlen lits - 1)); [|done].
    destruct (lookup_lt_is_Some_2 lits (S p)) as [y Hy]; [lia|].
    replace (Z.of_nat p + 1) with (Z.of_nat (S p)) by lia.
    rewrite (compare_with_item_spec _ _ _ (Z.of_nat (S p)) y) with (1 := Hr); [|done|lia|by rewrite Nat2Z.id].
    fold k. destruct (Z.leb_spec (cmp_sign (lexcmp k (ikey y))) 0) as [L|]; [|done].
    eapply finalizeSeek_spec; [done|done|done|exact Hlf|lia|].
    replace (off + S p)%nat with (S (off + p)) by lia. eapply search_next; try done.
    + rewrite <- Hy, <- (leaf_lookup its lits r off (S p)) by (done || lia). f_equal. lia.
    + unfold key_lt. rewrite lexcmp_antisym. by destruct (lexcmp k (ikey x)).
Qed.

(** A seek in the empty tree. *)
Lemma seek_empty_spec search cur :
  prollyHashIsEmpty (c_root cur) = true ->
  exists cur', seek_from_root search cur = Some (SQLITE_OK, cur', -1) /\
    c_eState cur' = PROLLY_CURSOR_INVALID /\ c_root cur' = c_root cur.
Proof.
  intros He. unfold seek_from_root, initCursorAtRoot. cbn [c_root prollyCursorReleaseAll].
  rewrite He. by eexists.
Qed.

(** * Counting *)

Lemma sum_children_spec (count : Z -> C Z) (subs : list (list item)) :
  (forall i sub, subs !! i = Some sub -> count (Z.of_nat i) = ret (u64 (zlen sub))) ->
  forall fuel i, (length subs - i < fuel)%nat -> (i <= length subs)%nat ->
  sum_children fuel count (zlen subs) (Z.of_nat i) (u64 (Z.of_nat (before subs i))) =
    ret (u64 (zlen (mjoin subs))).
Proof.
  intros Hc fuel. induction fuel as [|fuel IH]; intros i Hf Hi; [lia|]. cbn [sum_children].
  destruct (Z.ltb_spec (Z.of_nat i) (zlen subs)).
  - destruct (lookup_lt_is_Some_2 subs i) as [sub Hs]; [lia|]. rewrite (Hc _ _ Hs). cbn.
    rewrite <- IH with (i := S i) by lia. f_equal; [lia|].
    rewrite (before_S _ _ _ Hs). unfold u64. rewrite <- Zplus_mod. f_equal. lia.
  - rewrite before_all by lia. done.
Qed.

Lemma child_count_spec fuel n nd cs subs :
  node_repr nd cs 0 -> level nd = Z.of_nat (S n) -> children_ok n cs subs ->
  (forall h sub, tree n h sub -> prollySubtreeCount fuel h = ret (u64 (zlen sub))) ->
  forall i sub, subs !! i = Some sub ->
  (if prollyNodeHasSubtreeCounts nd then read (prollyNodeChildSubtreeCount nd (Z.of_nat i))
   else let! ch := read (prollyNodeChildHash nd (Z.of_nat i)) in prollySubtreeCount fuel ch) =
    ret (u64 (zlen sub)).
Proof.
  intros Hr Hlv HF IH i sub Hs. destruct (Forall2_lookup_r _ _ _ _ _ HF Hs) as (c & Hcs & [_ Hcnt] & Hsub).
  destruct (prollyNodeHasSubtreeCounts nd) eqn:E.
  - rewrite (node_child_count _ _ _ Hr _ c) by (done || lia || by rewrite Nat2Z.id).
    destruct (nd_item_wf _ _ _ Hr _ _ Hcs) as (_ & _ & Hu & _). cbn. by rewrite <- Hcnt, u64_small.
  - rewrite (node_child_hash _ _ _ Hr _ c) by (lia || by rewrite Nat2Z.id). cbn. by apply IH.
Qed.

Lemma subtree_count_spec n : forall fuel h its,
  (n < fuel)%nat -> tree n h its -> prollySubtreeCount fuel h = ret (u64 (zlen its)).
Proof.
  induction n as [|n IH]; intros fuel h its Hf Ht; (destruct fuel as [|fuel]; [lia|]).
  - destruct Ht as (nd & z & El & Hl & _ & Hr). cbn [prollySubtreeCount]. rewrite El. cbn. rewrite Hl. cbn.
    rewrite (nd_nItems _ _ _ Hr), u64_small; [done|].
    pose proof (wf_max _ _ _ (repr_wf _ _ _ Hr)) as Hm. unfold is_u64, PROLLY_NODE_MAX_ITEMS in *. lia.
  - destruct Ht as (nd & cs & subs & El & Hl & _ & Hr & -> & HF). cbn [prollySubtreeCount]. rewrite El.
    cbn [bindC]. rewrite Hl. cbn [Z.eqb]. destruct (Z.eqb_spec (Z.of_nat (S n)) 0); [lia|]. cbn zeta.
    assert (Hlen : nItems nd = zlen subs).
    { rewrite (nd_nItems _ _ _ Hr). by rewrite (Forall2_length _ _ _ HF). }
    rewrite Hlen. apply (sum_children_spec _ subs) with (i := 0%nat); [|lia|lia].
    eapply child_count_spec; try done. intros h' sub Hsub. apply IH; [lia|done].
Qed.

(** * Whole scans *)

(** [k] times prollyCursorNext (prollyCursorPrev), each returning SQLITE_OK. *)
Fixpoint repeat_step (step : ProllyCursor -> option (Z * ProllyCursor)) (k : nat) (cur : ProllyCursor)
    : option ProllyCursor :=
  match k with
  | O => Some cur
  | S k =>
      let? cur := repeat_step step k cur in
      let? (rc, cur) := step cur in
      if rc =? SQLITE_OK then Some cur else None
  end.

Lemma repeat_next cur n its k :
  cursor_at cur n its 0 -> (k < length its)%nat ->
  exists ck, repeat_step prollyCursorNext k cur = Some ck /\ cursor_at ck n its k.
Proof.
  intros Hc. induction k as [|k IH]; intros Hk; [by exists cur|].
  destruct IH as (ck & E & Hat); [lia|]. cbn [repeat_step]. rewrite E.
  destruct (next_spec _ _ _ _ Hat) as (c & -> & _ & Hn).
  destruct (decide (S k < length its)%nat); [|lia]. by exists c.
Qed.

Lemma repeat_prev cur n its k :
  cursor_at cur n its (length its - 1) -> (k < length its)%nat ->
  exists ck, repeat_step prollyCursorPrev k cur = Some ck /\ cursor_at ck n its (length its - 1 - k).
Proof.
  intros Hc. induction k as [|k IH]; intros Hk; [exists cur; by rewrite Nat.sub_0_r|].
  destruct IH as (ck & E & Hat); [lia|]. cbn [repeat_step]. rewrite E.
  destruct (prev_spec _ _ _ _ Hat) as (c & -> & _ & Hn).
  destruct (length its - 1 - k)%nat as [|q] eqn:Eq; [lia|]. exists c. split; [done|].
  by replace (length its - 1 - S k)%nat with q by lia.
Qed.

Lemma repeat_next_eof cur n its :
  cursor_at cur n its 0 -> its <> [] ->
  exists ce, repeat_step prollyCursorNext (length its) cur = Some ce /\ c_eState ce = PROLLY_CURSOR_EOF.
Proof.
  intros Hc Hne. destruct (length its) as [|k] eqn:El; [by destruct its|].
  destruct (repeat_next cur n its k Hc) as (ck & E & Hat); [lia|].
  destruct (next_spec _ _ _ _ Hat) as (c & En & _ & Hn).
  destruct (decide (S k < length its)%nat); [lia|].
  exists c. cbn [repeat_step]. rewrite E, En. split; [done|apply Hn].
Qed.

Lemma repeat_prev_eof cur n its :
  cursor_at cur n its (length its - 1) -> its <> [] ->
  exists ce, repeat_step prollyCursorPrev (length its) cur = Some ce /\ c_eState ce = PROLLY_CURSOR_EOF.
Proof.
  intros Hc Hne. destruct (length its) as [|k] eqn:El; [by destruct its|]. rewrite <- El in Hc.
  destruct (repeat_prev cur n its k Hc) as (ck & E & Hat); [lia|].
  replace (length its - 1 - k)%nat with 0%nat in Hat by lia.
  destruct (prev_spec _ _ _ _ Hat) as (c & Ep & _ & Hn).
  exists c. cbn [repeat_step]. rewrite E, Ep. split; [done|apply Hn].
Qed.

(** A forward scan: prollyCursorFirst followed by [k] calls of
    prollyCursorNext stands on the [k]-th item of the tree in key order, valid
    and with that item's key, for every [k] below the number of items; the next
    call is past the end.  No call fails. *)
Theorem cursor_scan_forward (cur : ProllyCursor) (n : nat) (its : list item)
    (Hn : (n < 20)%nat) (Hd : depth_ok cur) (Hroot : prollyHashIsEmpty (c_root cur) = false)
    (Ht : tree n (c_root cur) its) :
  exists c0, prollyCursorFirst cur = Some (SQLITE_OK, c0, 0) /\
    (forall k it, its !! k = Some it ->
       exists ck r, repeat_step prollyCursorNext k c0 = Some ck /\ prollyCursorIsValid ck = true /\
         prollyCursorKey ck = Some (ikey it ++ r, zlen (ikey it))) /\
    exists ce, repeat_step prollyCursorNext (length its) c0 = Some ce /\
      c_eState ce = PROLLY_CURSOR_EOF.
Proof.
  destruct (first_spec cur n its) as (c0 & E & _ & Hc); try done. exists c0. split; [done|]. split.
  - intros k it Hit. destruct (repeat_next c0 n its k) as (ck & Ek & Hat); [done|by eapply lookup_lt_Some|].
    destruct (key_spec _ _ _ _ _ Hat Hit) as [[r Hr] _]. exists ck, r. split_and!; try done.
    destruct (cursor_leaf _ _ _ _ Hat) as (_ & _ & _ & _ & _ & _ & Hst & _).
    unfold prollyCursorIsValid. by rewrite Hst.
  - eapply repeat_next_eof; [done|]. by eapply tree_nonempty.
Qed.

(** A backward scan: prollyCursorLast followed by [k] calls of
    prollyCursorPrev stands on the [k]-th item from the end; one more call after
    the first item is past the end. *)
Theorem cursor_scan_backward (cur : ProllyCursor) (n : nat) (its : list item)
    (Hn : (n < 20)%nat) (Hd : depth_ok cur) (Hroot : prollyHashIsEmpty (c_root cur) = false)
    (Ht : tree n (c_root cur) its) :
  exists c0, prollyCursorLast cur = Some (SQLITE_OK, c0, 0) /\
    (forall k it, reverse its !! k = Some it ->
       exists ck r, repeat_step prollyCursorPrev k c0 = Some ck /\ prollyCursorIsValid ck = true /\
         prollyCursorKey ck = Some (ikey it ++ r, zlen (ikey it))) /\
    exists ce, repeat_step prollyCursorPrev (length its) c0 = Some ce /\
      c_eState ce = PROLLY_CURSOR_EOF.
Proof.
  destruct (last_spec cur n its) as (c0 & E & _ & Hc); try done. exists c0. split; [done|]. split.
  - intros k it Hit. pose proof (lookup_lt_Some _ _ _ Hit) as Hk. rewrite length_reverse in Hk.
    rewrite reverse_lookup in Hit by done.
    destruct (repeat_prev c0 n its k) as (ck & Ek & Hat); [done|done|].
    replace (length its - 1 - k)%nat with (length its - S k)%nat in Hat by lia.
    destruct (key_spec _ _ _ _ _ Hat Hit) as [[r Hr] _]. exists ck, r. split_and!; try done.
    destruct (cursor_leaf _ _ _ _ Hat) as (_ & _ & _ & _ & _ & _ & Hst & _).
    unfold prollyCursorIsValid. by rewrite Hst.
  - eapply repeat_prev_eof; [done|]. by eapply tree_nonempty.
Qed.

(** Seeking a byte key in a tree with increasing keys, from a cursor that is
    not valid or stands anywhere in the tree (so through every fast path on the
    current leaf): the cursor ends on the item with the key and reports 0, else
    on the first larger item and reports 1, else on the last item and reports
    -1. *)
Theorem cursor_seek_blob (cur : ProllyCursor) (n : nat) (its : list item) (pKey : list Z) (nKey : Z)
    (Hn : (n < 20)%nat) (Hcur : seekable cur n its) (Hw : hash_wf (c_root cur))
    (Hroot : prollyHashIsEmpty (c_root cur) = false) (Ht : tree n (c_root cur) its)
    (Hsort : keys_sorted its) (Hbytes : bytes_wf pKey) (Hkey : key_arg pKey nKey) :
  exists cur' pos res, prollyCursorSeekBlob cur pKey nKey = Some (SQLITE_OK, cur', res) /\
    cursor_at cur' n its pos /\ search_spec its (key_of pKey nKey) (Z.of_nat pos) (- res).
Proof.
  destruct (seekBlob_spec cur n its pKey nKey) as (cur' & pos & res & ? & _ & ? & ?); eauto 6.
Qed.

(** Seeking an integer key, under the same conditions in a tree of integer
    keys. *)
Theorem cursor_seek_int (cur : ProllyCursor) (n : nat) (its : list item) (v : Z)
    (Hn : (n < 20)%nat) (Hcur : seekable cur n its) (Hw : hash_wf (c_root cur))
    (Hroot : prollyHashIsEmpty (c_root cur) = false) (Ht : tree n (c_root cur) its)
    (Hsort : keys_sorted its) (Hik : ik = true) (Hv : is_i64 v) :
  exists cur' pos res, prollyCursorSeekInt cur v = Some (SQLITE_OK, cur', res) /\
    cursor_at cur' n its pos /\ search_spec its (prollyEncodeIntKey v) (Z.of_nat pos) (- res).
Proof.
  destruct (seekInt_spec cur n its v) as (cur' & pos & res & ? & _ & ? & ?); eauto 6.
Qed.

(** ProllySubtreeCount returns the number of leaf items (modulo 2^64),
    through stored counts and, below a node without them, by recursion; the
    height of the tree bounds the recursion. *)
Theorem subtree_count_correct (n : nat) (h : list Z) (its : list item) (fuel : nat)
    (Hf : (n < fuel)%nat) (Ht : tree n h its) :
  prollySubtreeCount fuel h = ret (u64 (zlen its)).
Proof. by eapply subtree_count_spec. Qed.
End cursor.

(** * A tree of two leaves *)

Definition demo_leaf1 : list item := [Item [1] [10; 0] 0; Item [2; 3] [7] 0].
Definition demo_leaf2 : list item := [Item [5] [] 0].
Definition demo_hash (i : Z) : list Z := replicate 20 i.
Definition demo_root : list item :=
  [Item [2; 3] (demo_hash 1) 2; Item [5] (demo_hash 2) 1].

Definition demo_table : chunk_table :=
  let e lvl flg its := (encode_node lvl flg its, zlen (encode_node lvl flg its)) in
  <[demo_hash 1 := e 0 2 demo_leaf1]> (<[demo_hash 2 := e 0 2 demo_leaf2]>
    {[ demo_hash 3 := e 1 6 demo_root ]}).

Definition demo_all : list item := demo_leaf1 ++ demo_leaf2.

Lemma demo_load i lvl flg its :
  demo_table !! demo_hash i = Some (encode_node lvl flg its, zlen (encode_node lvl flg its)) ->
  node_wf lvl flg its ->
  exists nd, table_source demo_table (demo_hash i) = Some (OK nd) /\
    node_repr nd its 0 /\ level nd = lvl /\ flags nd = flg.
Proof.
  intros Ht Hwf. unfold table_source. rewrite Ht.
  destruct (parse_complete lvl flg its (encode_node lvl flg its) 0) as (nd & E & ? & ? & ? & _);
    [done|by rewrite app_nil_r|lia|]. rewrite Z.add_0_r in E. eauto 6.
Qed.

Lemma demo_leaf i its :
  demo_table !! demo_hash i = Some (encode_node 0 2 its, zlen (encode_node 0 2 its)) ->
  node_wf 0 2 its -> tree (H := table_source demo_table) false 0 (demo_hash i) its.
Proof.
  intros Ht Hwf. destruct (demo_load _ _ _ _ Ht Hwf) as (nd & ? & ? & ? & Hf). exists nd, 0%nat.
  split_and!; try done. unfold kind_ok. by rewrite Hf.
Qed.

Lemma demo_tree : tree (H := table_source demo_table) false 1 (demo_hash 3) demo_all.
Proof.
  destruct (demo_load 3 1 6 demo_root) as (nd & ? & ? & ? & Hf); [done|by apply node_wfb_spec|].
  exists nd, demo_root, [demo_leaf1; demo_leaf2]. split_and!; try done.
  { unfold kind_ok. by rewrite Hf. }
  repeat constructor; try by eexists.
  - by apply demo_leaf, node_wfb_spec.
  - by apply demo_leaf, node_wfb_spec.
Qed.

Definition demo_cursor (i : Z) : ProllyCursor := prollyCursorInit (demo_hash i) 2.

Lemma cursor_scan_forward_witness :
  exists c0, prollyCursorFirst (H := table_source demo_table) (demo_cursor 3) = Some (SQLITE_OK, c0, 0) /\
    exists ck r, repeat_step (prollyCursorNext (H := table_source demo_table)) 2 c0 = Some ck /\
      prollyCursorKey ck = Some ([5] ++ r, 1).
Proof.
  destruct (cursor_scan_forward (H := table_source demo_table) false (demo_cursor 3) 1 demo_all)
    as (c0 & E & Hk & _); [lia|done|done|apply demo_tree|].
  exists c0. split; [exact E|]. destruct (Hk 2%nat (Item [5] [] 0)) as (ck & r & ? & _ & ?); [done|].
  by exists ck, r.
Defined.

Lemma cursor_scan_backward_witness :
  exists c0, prollyCursorLast (H := table_source demo_table) (demo_cursor 3) = Some (SQLITE_OK, c0, 0) /\
    exists ck r, repeat_step (prollyCursorPrev (H := table_source demo_table)) 1 c0 = Some ck /\
      prollyCursorKey ck = Some ([2; 3] ++ r, 2).
Proof.
  destruct (cursor_scan_backward (H := table_source demo_table) false (demo_cursor 3) 1 demo_all)
    as (c0 & E & Hk & _); [lia|done|done|apply demo_tree|].
  exists c0. split; [exact E|]. destruct (Hk 1%nat (Item [2; 3] [7] 0)) as (ck & r & ? & _ & ?); [done|].
  by exists ck, r.
Defined.

(** From the first item, the key [4] lies between the two leaves. *)
Lemma cursor_seek_blob_witness :
  exists c0 cur' pos res, prollyCursorFirst (H := table_source demo_table) (demo_cursor 3) = Some (SQLITE_OK, c0, 0) /\
    prollyCursorSeekBlob (H := table_source demo_table) c0 [4] 1 = Some (SQLITE_OK, cur', res) /\
    search_spec demo_all [4] (Z.of_nat pos) (- res).
Proof.
  destruct (first_spec (H := table_source demo_table) false (demo_cursor 3) 1 demo_all)
    as (c0 & E & Er & Hc); [lia|done|done|apply demo_tree|].
  destruct (cursor_seek_blob (H := table_source demo_table) false c0 1 demo_all [4] 1)
    as (cur' & pos & res & ? & _ & ?);
    [lia| |rewrite Er; by split; [apply bytes_wfb_spec|]|by rewrite Er|rewrite Er; apply demo_tree
    |by apply (bool_decide_unpack _)|by apply bytes_wfb_spec|by split|].
  - split; [apply Hc|right; eauto].
  - by exists c0, cur', pos, res.
Defined.

(** A tree that is one leaf of integer keys. *)
Definition demo_int_table : chunk_table :=
  {[ demo_hash 4 := (encode_node 0 1 demo_int_items, zlen (encode_node 0 1 demo_int_items)) ]}.

Lemma demo_int_tree : tree (H := table_source demo_int_table) true 0 (demo_hash 4) demo_int_items.
Proof.
  destruct (parse_complete 0 1 demo_int_items (encode_node 0 1 demo_int_items) 0)
    as (nd & E & ? & ? & Hf & _); [by apply node_wfb_spec|by rewrite app_nil_r|lia|].
  exists nd, 0%nat. split_and!; try done. unfold kind_ok. by rewrite Hf.
Qed.

Lemma cursor_seek_int_witness :
  exists cur' pos res,
    prollyCursorSeekInt (H := table_source demo_int_table) (demo_cursor 4) 3 = Some (SQLITE_OK, cur', res) /\
    search_spec demo_int_items (prollyEncodeIntKey 3) (Z.of_nat pos) (- res).
Proof.
  destruct (cursor_seek_int (H := table_source demo_int_table) true (demo_cursor 4) 0 demo_int_items 3)
    as (cur' & pos & res & ? & _ & ?);
    [lia| |by split; [apply bytes_wfb_spec|]|done|apply demo_int_tree
    |by apply (bool_decide_unpack _)|done|by split|].
  - split; [done|left; done].
  - by exists cur', pos, res.
Defined.

Lemma subtree_count_correct_witness :
  prollySubtreeCount (H := table_source demo_table) 2 (demo_hash 3) = ret 3.
Proof.
  exact (subtree_count_correct (H := table_source demo_table) false 1 (demo_hash 3) demo_all 2
    ltac:(lia) demo_tree).
Defined.
